(* ===== verification/_CoqProject ===== *)
-Q . S2P
Prelude.v
Bytes.v
Frames.v
Records.v
SessionMap.v
CallState.v
CallManager.v
CallManagerFacts.v
Json.v
CallMedia.v
CallMediaFacts.v
Sync.v
SyncFacts.v
Realtime.v
RealtimeFacts.v
GroupChat.v
GroupChatFacts.v
Shuffle.v
Cards.v
Poker.v
PokerFacts.v
PokerHands.v
PokerLimits.v
Uno.v
UnoFacts.v
UnoGame.v
Chess.v
ChessFacts.v
ChessHost.v
ChessFen.v
ChessPlay.v
ChessGame.v
ChessPage.v
Grid.v
ConnectFour.v
ConnectFourFacts.v
TicTacToe.v
TicTacToeSearch.v
TicTacToeRules.v
TicTacToeHard.v
TicTacToeModels.v
TicTacToeHost.v
TicTacToeHostFacts.v
ChatFeatures.v
ChatEdits.v
ChatEditsFacts.v
JsonText.v
Identity.v
Wire.v
Handshake.v
HandshakeFacts.v
PeerSession.v
PeerSessionFacts.v
CallLimits.v
Presence.v
RelaySend.v
Relay.v
RelayFacts.v
RelayBehaviour.v
Kart.v
KartFacts.v
Stickers.v
StickersFacts.v
GroupDelivery.v
GroupDeliveryFacts.v
GroupReceipts.v
