(* ===== verification/Prelude.v ===== *)
(** * BlueTalk: a Rocq model of the messenger's protocol and state logic

    BlueTalk is a peer-to-peer messenger written in JavaScript: a renderer (chats, calls,
    group chats, a cloud account), a bridge that speaks to a relay and opens encrypted tunnels
    between the devices of two peers, realtime rooms with shared documents for plugins, and
    bundled games whose host keeps the state and validates what the other players send.  This
    library translates the parts of it that carry state or a protocol into executable
    definitions and proves what they promise.

    ** How the parts interact

    The relay client ([Relay], [RelaySend]) keeps one connection to a relay, learns from its
    presence messages which devices of the contacts are there, opens tunnels to them, carries
    their bytes and receives mail.  A tunnel delivers chunks of bytes.  [Frames] cuts them into
    length-prefixed frames and queues the readers; over them two devices run the [Handshake],
    whose result is a pair of ciphers for each side.  [Records] encrypts the frames of a session,
    [PeerSession] sends and delivers the frames of [Wire] as such records, and [SessionMap] keeps
    the table of open sessions per peer and device.  Above the sessions travel JSON messages
    ([Json], [JsonText]): signals and packets of a call, which pass the checks of [CallLimits]
    before [CallManager] ([CallState]) and [CallMedia] see them, operations of the cloud account ([Sync]), room
    messages ([Realtime]), group events ([GroupChat]) and the messages, receipts and retries of
    groups ([GroupDelivery]), messages and edits of chats ([ChatFeatures], [ChatEdits]) and what
    they carry ([Stickers]), what users and games announce of themselves ([Presence]) and
    the actions of the games ([Cards], [Poker], [Uno], [Chess], [ConnectFour], [TicTacToe],
    [Kart]).  Each game has a
    host that alone changes the state; pages and peers send it actions and show what it
    broadcasts.

    ** Files and sources (paths below [src/])

    - [Prelude]: record update, JavaScript string and option conventions, exceptions ([res]),
      the tactics [bool_cases] and [branches], lemmas on bits.
    - [Bytes]: [src/bridge/webBridge/peerProtocol/bytes.js]; byte arrays are lists of [Z].
    - [Frames]: [peerProtocol/frames.js] and [createStreamTransport] of [handshake.js].  The
      state of a transport is its buffer, the waiting readers and the settled promises;
      [transport_push], [readPrefixed], [transport_fail], [transport_close] are the methods.
    - [Records]: [peerProtocol/records.js].  The primitives (X25519, HKDF, SHA-256,
      ChaCha20-Poly1305) are the class [Crypto]; what is relied on is the class [CryptoLaws]
      (decryption inverts encryption, and accepts only what was encrypted), which the
      witnesses instantiate.
    - [Identity]: [peerProtocol/identity.js]; the signature scheme is the class [Ed25519].
    - [JsonText]: [JSON.stringify] and [JSON.parse].  [Wire]: the text and the frames of a
      session, [encodeWireFrame] and [decodeWireFrame] of [peerProtocol/frames.js] and [utf8],
      [utf8Decode] of [bytes.js].
    - [Handshake], [HandshakeFacts]: [peerProtocol/handshake.js].  An asynchronous function is a
      [script] of writes and reads that [perform] runs on the bytes that arrive.
    - [PeerSession], [PeerSessionFacts]: [peerProtocol/session.js]; a session is a state and
      [peer_step] what it does at a call, a timer, a chunk, or a turn of its read loop.
    - [RelaySend]: the queues and the socket of [webBridge/relayClient.js]; [Relay]: the rest of
      it, with a [step] per event; [RelayFacts] has the invariant of its tunnels and promises,
      [RelayBehaviour] what it does for its users.
    - [SessionMap]: [sessionMap.js], and [attachTunnel] and [forgetSession] of
      [webBridge/index.js].
    - [CallState]: [src/renderer/calls/callState.js], [callDevices.js] and [videoCaps.js];
      [reduceCall] is the reducer.
    - [CallManager], [CallManagerFacts]: [calls/CallManager.js] and [ringtone.js].  The [rig] holds
      the timers, tones and devices that the effects switch, and the asynchronous functions
      that are under way as [task]s, which an answer of the platform [resume]s.
    - [CallLimits]: [calls/callLimits.js] and [handleInbound] of [CallManager.js].
    - [Presence]: [src/shared/user-presence.js] and [game-presence.js].
    - [Json]: JSON values, objects as property lists, [Number(...)], [String(...)].
    - [CallMedia], [CallMediaFacts]: [calls/frames.js], [iv.js], [jitterBuffer.js],
      [playbackBuffer.js], [videoFragments.js], [videoCongestion.js], [videoKeyframe.js] and
      the sending loop of [videoPipeline.js].
    - [Sync], [SyncFacts]: [src/renderer/cloudAccount/syncLogic.js], parts of [syncEngine.js].
    - [Realtime], [RealtimeFacts]: [src/shared/plugin-realtime.mjs].
    - [GroupChat], [GroupChatFacts]: [src/shared/group-chat.js].
    - [ChatFeatures]: [src/shared/chat-features.js], [chat-typing.js] and
      [renderer/app/messageReactions.js].  [ChatEdits], [ChatEditsFacts]:
      [renderer/app/sendMessageEdit.js], [applyInboundChatEdit.js], [applyMessagePatch] of
      [hooks/useChatData.js] and the reaction of [peerMessageHandler.js]; a device is its shown
      lists, the rows of [Sync] and the chat previews.
    - [GroupDelivery], [GroupDeliveryFacts], [GroupReceipts]: [hooks/useGroupChats.js],
      [renderer/app/groupInboundHandler.js], [sendGroupChatMessage.js], and the deletion of
      messages, chats and groups and the reactions in them of [hooks/useMessaging.js]; a [device] has the groups, the
      outbox, the shown chats and the calls that wait for a packet or for the store, [step] is
      what it does at an event up to the next wait.
    - [Stickers], [StickersFacts]: [renderer/stickers/stickerStore.js], [voice/voiceMeta.js] and
      [voice/waveform.js]; what is stored is a [store] of JSON values.
    - [Shuffle], [Cards], [Poker], [PokerFacts], [PokerHands], [PokerLimits]:
      [assets/bundled-plugins/poker/*.js] without [ui.js]; random words are an argument.
    - [Uno], [UnoFacts], [UnoGame]: [assets/bundled-plugins/uno/*.js] without [ui.js]; [step]
      is one event of the host (a message, a timer, a connection), [run] a history.
    - [Chess]: [assets/bundled-plugins/chess/board.js] (positions and their notation),
      [moves.js] (move generation) and [rules.js] (legal moves, making a move, draws);
      [ChessFacts] has the lemmas on them, [ChessFen] the notation, [ChessPlay] games as a step
      relation ([played]).  [ChessHost]: [engine.js], and the function of
      [src/renderer/pages/ChessGamePage.jsx] that turns a click into a message; [ChessGame] and
      [ChessPage] have their theorems.
    - [Grid]: boards of discs and the walk from the last disc, shared by the next two.
    - [ConnectFour], [ConnectFourFacts]: [assets/bundled-plugins/connect-four/*.js] without
      [ui.js].
    - [TicTacToe]: [assets/bundled-plugins/tic-tac-toe/board.js], [rules.js] and [ai.js];
      [TicTacToeSearch] proves the alpha-beta search exact, [TicTacToeRules] what a move and
      [checkWin] do, [TicTacToeHard] the hard opponent.  [TicTacToeModels]: [models.js];
      [TicTacToeHost], [TicTacToeHostFacts]: [engine.js], the moves of the computer being tasks
      that run between any two events.
    - [Kart], [KartFacts]: [assets/bundled-plugins/kart/engine.js] and [tracks.js], the lobby,
      the phases and the ranking of a race; the driving happens in the windows of the players.

    ** What the theorems show

    - Calls: timers and tones follow the phase after every history, and a device that is open
      belongs to the call there is or is being closed, in whatever order promises settle; what
      an end that comes too late breaks is shown on runs.  Simultaneous calls
      converge; third peers are harmless; each call is logged once.  The packets that a call
      sends from its microphone, camera and screen have distinct nonces exactly when no stream is
      started twice (turning the camera off and on uses nonces again); the reorder buffer plays in order and makes progress;
      the playback ring is a bounded queue; video frames are reassembled in any order and the
      buffers are bounded; frames encoded at the same time are mixed up.
    - Transport: frames are delivered in order for every chunking and interleaving; no record
      can be replayed, reordered or forged; nonces are unique; the session table refines a
      finite map on (peer, device), and listed sessions are open.
    - Handshake: two devices that follow the protocol complete it and agree on keys and names;
      whatever the network delivers, an initiator that completes it has a signature of the peer
      it expects on its own hello and on the key that the session keys come from.
    - Sessions: messages are delivered in order and once, completely when all bytes are there; a
      session closes once and is silent then; the read loop comes to rest.
    - Relay client: bytes written at one end arrive at the other, in order and in full; openings
      are accounted for and bounded together with the tunnels; no promise settles twice, and
      between sessions only those of tunnels that are being attached still wait; of two devices
      that see each other exactly one asks the relay for a tunnel; mail is kept until it is
      acknowledged.
    - Synchronisation: devices converge on the last writer in the entries of maps (contacts and
      groups, which are merged, need not), differences replay, the outbox
      loses no change; a late message revives a deleted chat on one device only.
    - Rooms: a stale edit that clashes with none of the edits it has missed is as if applied
      first, replicas catch up, revisions and the
      remembered ids are bounded, rooms are never overfull; an uninvited peer can invite itself.
    - Groups: only authorised events change a group, members change only themselves, the
      invitation handshake completes, messages reach exactly those who accept them.
    - Delivery in groups: a packet waits until it is acknowledged, its group is deleted, another
      takes its place or one event queues more than the outbox holds; who is back gets everything
      that waits; a message is shown once and each copy acknowledged, until the user deletes it;
      a receipt settles one delivery; a change of a group is told to everybody
      it concerns, once.  Receipts that are lost, edits that are refused, reactions that are
      never acknowledged and a farewell that is dropped have theorems of their own.
    - Chats: only its sender changes the text of a message, in the store, in what is shown and in the
      preview, whatever edits arrive, and both sides show the
      same text once all edits have arrived in any order.
    - Stickers: stored packs keep their limits and distinct ids; reloading and adding lose
      nothing; the waveform of a voice message is bounded.
    - Games: cards are conserved; chips are, and hands never stall, while numbers are raised and
      nobody is removed from a hand (what other messages do is shown on runs);
      pots go to the best hands, and the stacks grow by them; the top card changes only by a play the rules allow; the
      operations that break this when players leave are stated as theorems of their own.
    - Kart: a guest drives only itself, whatever it sends, outside the lobby; a race that has started has the timer
      that ends it; it is ranked by the recorded times and the progress.
    - Chess: positions of legal play are sound (one king each that is never captured, the mover
      not left in check, truthful castling rights and en-passant square), games are finite,
      the notation parses back; a host changes its position only by legal moves of the player
      to act, and its results are true of the board; a saved game resumes.  What the page
      sends, and the two moves it cannot send, are a theorem, and that the guest's page
      receives no usable moves another.
    - Connect four and tic-tac-toe: looking at the lines through the last disc is as good as
      searching the board in all directions; boards obey gravity and turns, results are true; cutting off branches
      loses nothing; the hard opponent never loses on the classic board, and behind the host the
      human never wins against it whatever events arrive.

    ** Conventions and bounds

    Numbers of JSON are integers ([Z]), exact in JavaScript below 2^53; fractions and [NaN]
    appear only where a definition says so ([None]).  Strings hold one character per code
    unit up to 255.  An [async] function is a sequence of steps where the code may be
    interrupted, and one step where nothing it depends on can change.  Loops without a
    structural argument have fuel that is a length the loop shortens in every turn
    ([drop_while], [shed], [split_at], [skip_to_live], [drop_extras]: the lemmas on them show that
    it is enough).  A chess piece slides at most 8 squares; the walk of connect four has 14
    steps ([WALK_FUEL]) and that of tic-tac-toe two sides of the board ([walk_fuel]), more than
    any line; [minimax] recurses on [maxDepth - depth].  The JSON reader recurses on the length of
    the text.  The relay client looks for a free tunnel id among one more than are in use
    ([alloc_tries]), cuts a payload at most as often as it has bytes ([chunks]), sends at most
    what is queued ([flush_fuel]) and goes through its connection loop at most three times
    without a pause ([LOOP_TURNS], [run_loop_settles]); [stack_depth] is how deep calls of the
    engine may nest, any number.  Clocks and drawn random numbers are
    arguments.  The values of a trained model are rationals and [round] is the rounding of a
    floating-point operation, any function.

    ** Not modelled

    Rendering (every [.jsx] file and [ui.js]) and the hooks of React around it, WebAudio,
    WebCodecs, WebCrypto, IndexedDB and network objects of the browser, and the Rust programs.
    The simulation of the kart race (floating-point physics, three.js scenes, sound), the frames
    in which plugins run (the browser decides what they may do), and the HTTP requests of the
    cloud account.  Of the games: the labels of invitations and the summary of the models, which
    only a page shows.  Of the chats: the size limit of a stored message, day separators (time
    zones), link checks (the URL parser), and React's delay between setting a state and seeing
    it. *)

From stdpp Require Export base list strings gmap.
From Stdlib Require Export ZArith Lia Ascii.

#[global] Open Scope Z_scope.

(** ** Record update

    The JavaScript sources build new states with the spread operator
    ([{ ...state, muted: true }]).  [r <| f := v |>] is that operator: a record
    type declares how it is rebuilt from its projections once, and the update of
    one field is derived from it. *)

Class Rebuild (R : Type) := rebuild : R -> R.

Class FieldUpdate {R A : Type} (proj : R -> A) := field_update : (A -> A) -> R -> R.

Ltac derive_field_update proj :=
  match goal with
  | |- @FieldUpdate ?R ?A _ =>
      let body := constr:(ltac:(let e := constr:(_ : Rebuild R) in exact e)) in
      let body := eval hnf in body in
      let abs := eval pattern proj in body in
      match abs with
      | (fun _ => ?same) _ => fail 1 "the record type of the update is not known yet"
      | ?ctx _ =>
          let u := eval cbv beta in (fun f : A -> A => ctx (fun r : R => f (proj r))) in
          exact u
      end
  end.

#[export] Hint Extern 1 (FieldUpdate ?proj) => derive_field_update proj : typeclass_instances.

#[global] Arguments field_update {R A proj FieldUpdate} / _ _.

Declare Scope bt_scope.
Delimit Scope bt_scope with bt.
#[global] Open Scope bt_scope.

Notation "r <| f := v |>" := (field_update (proj := f) (fun _ => v) r)
  (at level 12, left associativity, f at level 9, v at level 200,
   format "r  <| f  :=  v |>") : bt_scope.

(** ** JavaScript conventions *)

(** [a || b] on an optional string: [undefined], [null] and [''] are falsy. *)
Definition truthy_str (s : option string) : option string :=
  match s with
  | Some "" => None
  | other => other
  end.

(** [a || Date.now()] on an optional number: [0] is falsy too. *)
Definition or_now (n : option Z) (clock : Z) : Z :=
  match n with
  | Some z => if Z.eqb z 0 then clock else z
  | None => clock
  end.

(** [list.includes(x)]. *)
Definition includes `{EqDecision A} (l : list A) (x : A) : bool := bool_decide (x ∈ l).

(** Strings are [String.string], one character per UTF-16 code unit (so code units
    above 255 are not represented). *)
Definition is_js_space (c : ascii) : bool :=
  let n := Ascii.nat_of_ascii c in
  (Nat.leb 9 n && Nat.leb n 13) || Nat.eqb n 32 || Nat.eqb n 160.

Fixpoint trim_start (s : string) : string :=
  match s with
  | String c rest => if is_js_space c then trim_start rest else s
  | EmptyString => EmptyString
  end.

Fixpoint trim_end (s : string) : string :=
  match s with
  | EmptyString => EmptyString
  | String c rest =>
      match trim_end rest with
      | EmptyString => if is_js_space c then EmptyString else String c EmptyString
      | rest' => String c rest'
      end
  end.

(** [s.trim()]. *)
Definition trim (s : string) : string := trim_end (trim_start s).

(** Every character. *)
Fixpoint string_forallb (f : ascii -> bool) (s : string) : bool :=
  match s with EmptyString => true | String c rest => f c && string_forallb f rest end.

(** [s.toLowerCase()] on the Latin-1 range. *)
Definition lower_char (c : ascii) : ascii :=
  let n := Ascii.nat_of_ascii c in
  if (Nat.leb 65 n && Nat.leb n 90) || (Nat.leb 192 n && Nat.leb n 222 && negb (Nat.eqb n 215))
  then Ascii.ascii_of_nat (n + 32) else c.

Fixpoint lower (s : string) : string :=
  match s with
  | EmptyString => EmptyString
  | String c rest => String (lower_char c) (lower rest)
  end.

(** [s.startsWith(p)]. *)
Definition starts_with (p s : string) : bool := String.prefix p s.

(** [s.slice(0, n)] and [s.slice(n)]. *)
Fixpoint str_take (n : nat) (s : string) : string :=
  match n, s with
  | S n', String c rest => String c (str_take n' rest)
  | _, _ => EmptyString
  end.

Fixpoint str_drop (n : nat) (s : string) : string :=
  match n, s with
  | S n', String _ rest => str_drop n' rest
  | _, _ => s
  end.

(** [a < b] on strings: lexicographic on code units. *)
Definition str_ltb (a b : string) : bool :=
  match String.compare a b with Lt => true | _ => false end.

(** ** Proof automation *)

(** Turn boolean guards recorded by a case analysis into propositions. *)
Ltac bool_cases :=
  repeat match goal with
  | H : _ && _ = true |- _ => apply andb_true_iff in H as [??]
  | H : _ || _ = false |- _ => apply orb_false_iff in H as [??]
  | H : negb _ = true |- _ => apply negb_true_iff in H
  | H : negb _ = false |- _ => apply negb_false_iff in H
  | H : bool_decide _ = true |- _ => apply bool_decide_eq_true_1 in H
  | H : bool_decide _ = false |- _ => apply bool_decide_eq_false_1 in H
  | H : _ || _ = true |- _ => apply orb_true_iff in H as [?|?]
  | H : _ && _ = false |- _ => apply andb_false_iff in H as [?|?]
  | H : (_ =? _)%Z = true |- _ => apply Z.eqb_eq in H
  | H : (_ =? _)%Z = false |- _ => apply Z.eqb_neq in H
  | H : (_ <? _)%Z = true |- _ => apply Z.ltb_lt in H
  | H : (_ <? _)%Z = false |- _ => apply Z.ltb_ge in H
  | H : (_ <=? _)%Z = true |- _ => apply Z.leb_le in H
  | H : (_ <=? _)%Z = false |- _ => apply Z.leb_gt in H
  | H : Nat.eqb _ _ = true |- _ => apply Nat.eqb_eq in H
  | H : Nat.eqb _ _ = false |- _ => apply Nat.eqb_neq in H
  | H : Nat.ltb _ _ = true |- _ => apply Nat.ltb_lt in H
  | H : Nat.ltb _ _ = false |- _ => apply Nat.ltb_ge in H
  | H : Nat.leb _ _ = true |- _ => apply Nat.leb_le in H
  | H : Nat.leb _ _ = false |- _ => apply Nat.leb_gt in H
  end.

(** Case analysis on everything a function branches on, in hypothesis [H]. *)
Ltac branches H :=
  simpl in H; simplify_eq/=;
  repeat (case_match; simplify_eq/=); bool_cases; simplify_eq/=.

(** ** String order *)

Lemma str_ltb_irrefl a : str_ltb a a = false.
Proof.
  unfold str_ltb. pose proof (String.compare_antisym a a) as H.
  by destruct (String.compare a a).
Qed.

Lemma str_ltb_antisym a b : a <> b -> str_ltb a b = negb (str_ltb b a).
Proof.
  intros Hne. unfold str_ltb. rewrite String.compare_antisym.
  destruct (String.compare b a) eqn:Hc; simpl; try done.
  apply String.compare_eq_iff in Hc. congruence.
Qed.

(** ** Trimming *)

Lemma trim_start_id s : string_forallb (fun c => negb (is_js_space c)) s = true -> trim_start s = s.
Proof. destruct s; simpl; [done|]. by destruct (is_js_space a). Qed.

Lemma trim_end_id s : string_forallb (fun c => negb (is_js_space c)) s = true -> trim_end s = s.
Proof.
  induction s as [|c s IH]; simpl; [done|]. intros [Hc Hs]%andb_true_iff.
  rewrite IH by done. destruct s; [|done]. by destruct (is_js_space c).
Qed.

Lemma string_forallb_impl f g s :
  (forall c, f c = true -> g c = true) -> string_forallb f s = true -> string_forallb g s = true.
Proof. intros Hfg. induction s; simpl; [done|]. rewrite !andb_true_iff. naive_solver. Qed.

Lemma string_forallb_app f a b : string_forallb f (a +:+ b) = string_forallb f a && string_forallb f b.
Proof. induction a as [|c a IH]; simpl; [done|]. by rewrite IH, andb_assoc. Qed.

(** ** Functions that throw *)

(** The value a call returns, or the message of the [Error] it throws. *)
Inductive res (A : Type) := Ok (a : A) | Err (msg : string).
Arguments Ok {A} _.
Arguments Err {A} _.

Definition res_bind {A B} (m : res A) (k : A -> res B) : res B :=
  match m with Ok a => k a | Err e => Err e end.

Notation "'let?' x := m 'in' k" := (res_bind m (fun x => k))
  (at level 10, x pattern, m at level 100, k at level 200) : bt_scope.

Lemma res_bind_ok {A B} (m : res A) (k : A -> res B) b :
  res_bind m k = Ok b <-> exists a, m = Ok a /\ k a = Ok b.
Proof. destruct m; simpl; naive_solver. Qed.

#[export] Instance res_eq_dec `{EqDecision A} : EqDecision (res A).
Proof. solve_decision. Defined.

(** ** Bits and bytes *)

(** Concatenating bit fields is adding: [b] fits below the shift. *)
Lemma lor_shiftl_add a b n :
  0 <= n -> 0 <= b < 2 ^ n -> Z.lor (Z.shiftl a n) b = a * 2 ^ n + b.
Proof.
  intros Hn Hb.
  assert (Hd : Z.land (a * 2 ^ n) b = 0).
  { apply Z.bits_inj'. intros k Hk. rewrite Z.land_spec, Z.bits_0.
    destruct (Z.lt_ge_cases k n).
    - rewrite Z.mul_pow2_bits_low by lia. reflexivity.
    - replace b with (b mod 2 ^ n) by (apply Z.mod_small; lia).
      rewrite Z.mod_pow2_bits_high by lia. apply andb_false_r. }
  rewrite Z.shiftl_mul_pow2 by lia.
  rewrite Z.add_nocarry_lxor, Z.lxor_lor by done. reflexivity.
Qed.

(** Masking with [2^n - 1] is the remainder. *)
Lemma land_mask a m n : 0 <= n -> m = 2 ^ n - 1 -> Z.land a m = a mod 2 ^ n.
Proof.
  intros Hn ->. rewrite <- Z.land_ones by lia.
  rewrite Z.ones_equiv, Z.sub_1_r. reflexivity.
Qed.

(** A decidable property of every integer of a range, by evaluation. *)
Definition all_below (n : nat) (f : Z -> bool) : bool := forallb f (map Z.of_nat (List.seq 0 n)).

Lemma all_below_spec n f : all_below n f = true -> forall z, 0 <= z < Z.of_nat n -> f z = true.
Proof.
  unfold all_below. rewrite forallb_forall. intros H z Hz. apply H.
  apply in_map_iff. exists (Z.to_nat z). rewrite Z2Nat.id by lia.
  split; [done|]. apply in_seq. lia.
Qed.
