(* ===== verification/Bytes.v ===== *)
(** * Byte strings ([src/bridge/webBridge/peerProtocol/bytes.js])

    A [Uint8Array] is a list of [Z]; a store into one wraps modulo 256, so the
    elements of an array the code has built satisfy [is_byte].  Hexadecimal and base64
    text is a [string]. *)

From S2P Require Import Prelude.

Definition is_byte (b : Z) : Prop := 0 <= b < 256.

#[export] Instance is_byte_dec b : Decision (is_byte b).
Proof. unfold is_byte. apply _. Defined.

Abbreviation bytes := (list Z).
Abbreviation wf_bytes := (Forall is_byte).

Definition concatBytes (parts : list bytes) : bytes := concat parts.

(** ** Big-endian integers *)

(** [new DataView(out.buffer).setUint32(0, value)]. *)
Definition u32Be (value : Z) : bytes :=
  let v := value mod 2 ^ 32 in
  [Z.shiftr v 24; Z.land (Z.shiftr v 16) 255; Z.land (Z.shiftr v 8) 255; Z.land v 255].

Definition u64Be (value : Z) : bytes :=
  u32Be (Z.land (Z.shiftr value 32) 4294967295) ++ u32Be (Z.land value 4294967295).

#[global] Arguments u32Be : simpl never.
#[global] Arguments u64Be : simpl never.

(** The byte at an index, [None] beyond the end (where a [DataView] throws). *)
Definition readU32Be (b : bytes) (offset : nat) : option Z :=
  match b !! offset, b !! (offset + 1)%nat, b !! (offset + 2)%nat, b !! (offset + 3)%nat with
  | Some b0, Some b1, Some b2, Some b3 =>
      Some (Z.lor (Z.lor (Z.lor (Z.shiftl b0 24) (Z.shiftl b1 16)) (Z.shiftl b2 8)) b3)
  | _, _, _, _ => None
  end.

Definition readU64Be (b : bytes) (offset : nat) : option Z :=
  match readU32Be b offset, readU32Be b (offset + 4) with
  | Some hi, Some lo => Some (Z.lor (Z.shiftl hi 32) lo)
  | _, _ => None
  end.

(** The xor-accumulating comparison: no early exit once the lengths agree. *)
Definition equalBytes (a b : bytes) : bool :=
  if negb (Nat.eqb (length a) (length b)) then false
  else Z.eqb (fold_left (fun diff xy => Z.lor diff (Z.lxor xy.1 xy.2)) (zip a b) 0) 0.

(** ** Hexadecimal *)

Definition hex_digit (n : Z) : ascii :=
  Ascii.ascii_of_nat (Z.to_nat (if Z.ltb n 10 then 48 + n else 87 + n)).

(** [byte.toString(16).padStart(2, '0')]. *)
Definition byte_hex (b : Z) : string :=
  String (hex_digit (Z.shiftr b 4)) (String (hex_digit (Z.land b 15)) "").

Fixpoint bytesToHex (b : bytes) : string :=
  match b with
  | [] => ""
  | x :: rest => byte_hex x +:+ bytesToHex rest
  end.

Definition hex_value (c : ascii) : option Z :=
  let n := Z.of_nat (Ascii.nat_of_ascii c) in
  if Z.leb 48 n && Z.leb n 57 then Some (n - 48)
  else if Z.leb 97 n && Z.leb n 102 then Some (n - 87)
  else if Z.leb 65 n && Z.leb n 70 then Some (n - 55)
  else None.

(** The longest prefix of hexadecimal digits, as a number; [None] when it is empty. *)
Fixpoint hex_prefix (s : string) (acc : option Z) : option Z :=
  match s with
  | String c rest =>
      match hex_value c with
      | Some d => hex_prefix rest (Some (default 0 acc * 16 + d))
      | None => acc
      end
  | EmptyString => acc
  end.

(** [Number.parseInt(s, 16)]: leading space, a sign and a [0x] prefix are accepted, and
    whatever follows the digits is ignored; [None] is [NaN]. *)
Definition parseInt16 (s : string) : option Z :=
  let unsigned (t : string) :=
    match t with
    | String "0" (String "x" rest) => hex_prefix rest None
    | String "0" (String "X" rest) => hex_prefix rest None
    | _ => hex_prefix t None
    end in
  match trim_start s with
  | String "-" rest => option_map Z.opp (unsigned rest)
  | String "+" rest => unsigned rest
  | t => unsigned t
  end.

(** The loop of [hexToBytes] over the pairs of an even-length string. *)
Fixpoint hex_pairs (s : string) : res bytes :=
  match s with
  | String c (String d rest) =>
      match parseInt16 (String c (String d "")) with
      | Some byte => let? tail := hex_pairs rest in Ok (byte mod 256 :: tail)
      | None => Err "invalid hex"
      end
  | _ => Ok []
  end.

Definition hexToBytes (hex : string) : res bytes :=
  if Nat.odd (String.length hex) then Err "invalid hex" else hex_pairs hex.

(** ** Base64 *)

Definition B64_TABLE : string :=
  "ABCDEFGHIJKLMNOPQRSTUVWXYZabcdefghijklmnopqrstuvwxyz0123456789+/".

Definition b64_char (i : Z) : ascii := default "="%char (String.get (Z.to_nat i) B64_TABLE).

Definition triple (a b c : Z) : Z := Z.lor (Z.lor (Z.shiftl a 16) (Z.shiftl b 8)) c.

Definition quad (t : Z) : ascii * ascii * ascii * ascii :=
  (b64_char (Z.land (Z.shiftr t 18) 63), b64_char (Z.land (Z.shiftr t 12) 63),
   b64_char (Z.land (Z.shiftr t 6) 63), b64_char (Z.land t 63)).

Fixpoint bytesToB64 (b : bytes) : string :=
  match b with
  | [] => ""
  | [x] =>
      let '(p, q, _, _) := quad (triple x 0 0) in
      String p (String q (String "=" (String "=" "")))
  | [x; y] =>
      let '(p, q, r, _) := quad (triple x y 0) in
      String p (String q (String r (String "=" "")))
  | x :: y :: z :: rest =>
      let '(p, q, r, s) := quad (triple x y z) in
      String p (String q (String r (String s (bytesToB64 rest))))
  end.

Definition b64Value (c : ascii) : res Z :=
  let code := Z.of_nat (Ascii.nat_of_ascii c) in
  if Z.leb 65 code && Z.leb code 90 then Ok (code - 65)
  else if Z.leb 97 code && Z.leb code 122 then Ok (code - 71)
  else if Z.leb 48 code && Z.leb code 57 then Ok (code + 4)
  else if Z.eqb code 43 then Ok 62
  else if Z.eqb code 47 then Ok 63
  else Err "invalid base64".

(** The last two characters of a quad may be padding. *)
Definition b64Value_or_pad (c : ascii) : res Z :=
  if bool_decide (c = "="%char) then Ok 0 else b64Value c.

(** The decoding loop, without the bound of the output array. *)
Fixpoint b64_quads (s : string) : res bytes :=
  match s with
  | String c0 (String c1 (String c2 (String c3 rest))) =>
      let? n0 := b64Value c0 in
      let? n1 := b64Value c1 in
      let? n2 := b64Value_or_pad c2 in
      let? n3 := b64Value_or_pad c3 in
      let t := Z.lor (Z.lor (Z.lor (Z.shiftl n0 18) (Z.shiftl n1 12)) (Z.shiftl n2 6)) n3 in
      let? tail := b64_quads rest in
      Ok (Z.land (Z.shiftr t 16) 255 :: Z.land (Z.shiftr t 8) 255 :: Z.land t 255 :: tail)
  | _ => Ok []
  end.

(** [s.replace(/\s+/g, '')]. *)
Fixpoint drop_spaces (s : string) : string :=
  match s with
  | EmptyString => EmptyString
  | String c rest => if is_js_space c then drop_spaces rest else String c (drop_spaces rest)
  end.

(** [s.endsWith(p)]. *)
Fixpoint ends_with (p s : string) : bool :=
  bool_decide (s = p) || match s with String _ rest => ends_with p rest | EmptyString => false end.

Definition b64ToBytes (encoded : string) : res bytes :=
  let cleaned := drop_spaces encoded in
  if bool_decide (cleaned = "") then Ok []
  else if negb (Nat.eqb (String.length cleaned mod 4) 0) then Err "invalid base64"
  else
    let padding :=
      if ends_with "==" cleaned then 2%nat else if ends_with "=" cleaned then 1%nat else 0%nat in
    let? out := b64_quads cleaned in
    Ok (take (String.length cleaned / 4 * 3 - padding) out).

(** ** Integers and comparison *)

Lemma u32Be_length v : length (u32Be v) = 4%nat. Proof. reflexivity. Qed.

Lemma u32Be_eq v : let w := v mod 4294967296 in
  u32Be v = [w / 16777216; (w / 65536) mod 256; (w / 256) mod 256; w mod 256].
Proof.
  simpl. unfold u32Be.
  rewrite !(land_mask _ 255 8), !Z.shiftr_div_pow2 by lia. reflexivity.
Qed.

Lemma u32Be_bytes v : Forall is_byte (u32Be v).
Proof.
  rewrite u32Be_eq; simpl. pose proof (Z.mod_pos_bound v 4294967296).
  repeat constructor; unfold is_byte; try (apply Z.mod_pos_bound; lia);
  Z.to_euclidean_division_equations; lia.
Qed.

Lemma be4_value a b c d : is_byte a -> is_byte b -> is_byte c -> is_byte d ->
  Z.lor (Z.lor (Z.lor (Z.shiftl a 24) (Z.shiftl b 16)) (Z.shiftl c 8)) d =
  ((a * 256 + b) * 256 + c) * 256 + d.
Proof.
  unfold is_byte; intros.
  replace (Z.shiftl a 24) with (Z.shiftl (Z.shiftl a 8) 16) by (rewrite Z.shiftl_shiftl by lia; done).
  rewrite <- Z.shiftl_lor, (lor_shiftl_add a b 8) by lia.
  replace (Z.shiftl (a * 2 ^ 8 + b) 16) with (Z.shiftl (Z.shiftl (a * 2 ^ 8 + b) 8) 8) by (rewrite Z.shiftl_shiftl by lia; done).
  rewrite <- Z.shiftl_lor, (lor_shiftl_add _ c 8), (lor_shiftl_add _ d 8) by lia. lia.
Qed.

Lemma readU32Be_u32Be v rest : 0 <= v < 2 ^ 32 -> readU32Be (u32Be v ++ rest) 0 = Some v.
Proof.
  intros Hv. pose proof (u32Be_bytes v) as Hb.
  rewrite u32Be_eq in *. cbv zeta in *. rewrite Z.mod_small in * by lia.
  rewrite !Forall_cons in Hb. destruct Hb as (?&?&?&?&_).
  unfold readU32Be. cbn [app lookup list_lookup Nat.add].
  rewrite be4_value by done. f_equal.
  Z.to_euclidean_division_equations; lia.
Qed.

Lemma be4_bound a b c d : is_byte a -> is_byte b -> is_byte c -> is_byte d ->
  0 <= ((a * 256 + b) * 256 + c) * 256 + d < 2 ^ 32.
Proof. unfold is_byte. lia. Qed.

Lemma readU32Be_app_r a b : readU32Be (a ++ b) (length a) = readU32Be b 0.
Proof.
  unfold readU32Be. rewrite !lookup_app_r by lia.
  rewrite Nat.sub_diag. replace (length a + 1 - length a)%nat with 1%nat by lia.
  replace (length a + 2 - length a)%nat with 2%nat by lia.
  replace (length a + 3 - length a)%nat with 3%nat by lia. reflexivity.
Qed.

Lemma readU32Be_bound b off v : Forall is_byte b -> readU32Be b off = Some v -> 0 <= v < 2 ^ 32.
Proof.
  intros Hb. unfold readU32Be. repeat case_match; try done. intros; simplify_eq.
  rewrite be4_value; [apply be4_bound|..]; eapply Forall_lookup_1; eauto.
Qed.
(** Reading back a 64-bit integer. *)
Lemma readU64Be_u64Be v rest : 0 <= v < 2 ^ 64 -> readU64Be (u64Be v ++ rest) 0 = Some v.
Proof.
  intros Hv. unfold readU64Be, u64Be.
  rewrite <- app_assoc.
  assert (H1 : Z.land (Z.shiftr v 32) 4294967295 = v / 4294967296).
  { rewrite (land_mask _ _ 32), Z.shiftr_div_pow2 by lia. apply Z.mod_small.
    Z.to_euclidean_division_equations; lia. }
  rewrite H1, (land_mask v _ 32) by lia.
  rewrite readU32Be_u32Be by (Z.to_euclidean_division_equations; lia).
  change (0 + 4)%nat with (length (u32Be (v / 4294967296))).
  rewrite readU32Be_app_r, readU32Be_u32Be by (apply Z.mod_pos_bound; lia).
  rewrite lor_shiftl_add by (try apply Z.mod_pos_bound; lia).
  f_equal. Z.to_euclidean_division_equations; lia.
Qed.

Lemma u64Be_length v : length (u64Be v) = 8%nat. Proof. reflexivity. Qed.

Lemma u64Be_inj v w : 0 <= v < 2 ^ 64 -> 0 <= w < 2 ^ 64 -> u64Be v = u64Be w -> v = w.
Proof.
  intros Hv Hw H. apply (readU64Be_u64Be v []) in Hv. apply (readU64Be_u64Be w []) in Hw.
  rewrite H in Hv. congruence.
Qed.

Lemma u64Be_bytes v : Forall is_byte (u64Be v).
Proof. unfold u64Be. rewrite Forall_app. split; apply u32Be_bytes. Qed.

Lemma equalBytes_acc l d : 0 <= d -> Forall (fun xy : Z * Z => 0 <= xy.1 /\ 0 <= xy.2) l ->
  fold_left (fun diff xy => Z.lor diff (Z.lxor xy.1 xy.2)) l d = 0 <->
  d = 0 /\ Forall (fun xy => xy.1 = xy.2) l.
Proof.
  revert d. induction l as [|[x y] l IH]; intros d Hd Hl; simpl.
  - split; [intros ->; auto | tauto].
  - apply Forall_cons in Hl as [[Hx Hy] Hl]. simpl in *.
    rewrite IH, Z.lor_eq_0_iff, Z.lxor_eq_0_iff, Forall_cons; [simpl; tauto | | done].
    apply Z.lor_nonneg. split; [done|]. apply Z.lxor_nonneg. tauto.
Qed.

Lemma equalBytes_spec a b : Forall is_byte a -> Forall is_byte b ->
  equalBytes a b = true <-> a = b.
Proof.
  intros Ha Hb. unfold equalBytes. destruct (Nat.eqb_spec (length a) (length b)) as [Hl|Hl]; simpl;
    [|split; [done | congruence]].
  rewrite Z.eqb_eq, equalBytes_acc; [|lia|].
  - split; [intros [_ H]|intros ->; split; [done|]].
    + revert b Hl H Ha Hb. induction a; intros [|] ? H ? ?; simplify_eq/=; auto.
      apply Forall_cons in H as [? H]. decompose_Forall_hyps. f_equal; eauto.
    + clear. induction b; simpl; auto.
  - revert b Hl Hb. induction Ha; intros [|] ? Hb; simplify_eq/=; auto.
    decompose_Forall_hyps. constructor; auto. unfold is_byte in *. simpl. lia.
Qed.
(** ** Hexadecimal and base64 text *)

Lemma hex_value_byte b : is_byte b ->
   parseInt16 (byte_hex b) = Some b.
Proof.
  intros Hb. assert (all_below 256 (fun b => bool_decide (parseInt16 (byte_hex b) = Some b)) = true) as H
    by (vm_compute; reflexivity).
  apply (all_below_spec _ _ H) in Hb. by apply bool_decide_eq_true_1 in Hb.
Qed.

Lemma bytesToHex_length b : String.length (bytesToHex b) = (2 * length b)%nat.
Proof.
  induction b as [|x b IH]; [reflexivity|].
  change (String.length (bytesToHex (x :: b))) with (S (S (String.length (bytesToHex b)))).
  rewrite IH. simpl. lia.
Qed.
(** Decoding the hexadecimal text of any byte string gives the byte string
    back, so fingerprints and keys survive being stored and sent as text. *)
Theorem hex_roundtrip b : wf_bytes b -> hexToBytes (bytesToHex b) = Ok b.
Proof.
  intros Hb. unfold hexToBytes. rewrite bytesToHex_length, Nat.odd_mul; simpl.
  induction Hb as [|x b Hx Hb IH]; [done|].
  change (hex_pairs (bytesToHex (x :: b))) with
    (match parseInt16 (byte_hex x) with
     | Some byte => let? tail := hex_pairs (bytesToHex b) in Ok (byte mod 256 :: tail)
     | None => Err "invalid hex"
     end). rewrite hex_value_byte by done. rewrite IH. simpl.
  rewrite Z.mod_small by done. done.
Qed.

Lemma triple_value a b c : is_byte a -> is_byte b -> is_byte c ->
  triple a b c = (a * 256 + b) * 256 + c.
Proof.
  unfold is_byte, triple. intros.
  replace (Z.shiftl a 16) with (Z.shiftl (Z.shiftl a 8) 8) by (rewrite Z.shiftl_shiftl by lia; done).
  rewrite <- Z.shiftl_lor, (lor_shiftl_add a b 8), (lor_shiftl_add _ c 8) by lia. lia.
Qed.

Lemma sextet_roundtrip n : 0 <= n < 64 -> b64Value (b64_char n) = Ok n /\ b64Value_or_pad (b64_char n) = Ok n /\ is_js_space (b64_char n) = false /\ b64_char n <> "="%char.
Proof.
  intros Hn.
  assert (all_below 64 (fun n => bool_decide (b64Value (b64_char n) = Ok n /\ b64Value_or_pad (b64_char n) = Ok n /\ is_js_space (b64_char n) = false /\ b64_char n <> "="%char)) = true) as H by (vm_compute; reflexivity).
  apply (all_below_spec _ _ H) in Hn. by apply bool_decide_eq_true_1 in Hn.
Qed.
(** The sextets of a 24-bit number. *)
Lemma sextets t : 0 <= t < 2 ^ 24 ->
  let p := Z.land (Z.shiftr t 18) 63 in let q := Z.land (Z.shiftr t 12) 63 in
  let r := Z.land (Z.shiftr t 6) 63 in let s := Z.land t 63 in
  (0 <= p < 64 /\ 0 <= q < 64 /\ 0 <= r < 64 /\ 0 <= s < 64) /\
  Z.lor (Z.lor (Z.lor (Z.shiftl p 18) (Z.shiftl q 12)) (Z.shiftl r 6)) s = t.
Proof.
  intros Ht. cbv zeta. rewrite !(land_mask _ 63 6), !Z.shiftr_div_pow2 by lia.
  split; [repeat split; apply Z.mod_pos_bound; lia|].
  pose proof (Z.mod_pos_bound (t / 2 ^ 12) (2 ^ 6)). pose proof (Z.mod_pos_bound (t / 2 ^ 6) (2 ^ 6)).
  pose proof (Z.mod_pos_bound t (2 ^ 6)).
  set (p := (t / 2 ^ 18) mod 2 ^ 6) in *. set (q := (t / 2 ^ 12) mod 2 ^ 6) in *.
  set (r := (t / 2 ^ 6) mod 2 ^ 6) in *. set (s := t mod 2 ^ 6) in *.
  replace (Z.shiftl p 18) with (Z.shiftl (Z.shiftl p 6) 12) by (rewrite Z.shiftl_shiftl by lia; done).
  rewrite <- Z.shiftl_lor, (lor_shiftl_add p q 6) by lia.
  replace (Z.shiftl (p * 2 ^ 6 + q) 12) with (Z.shiftl (Z.shiftl (p * 2 ^ 6 + q) 6) 6)
    by (rewrite Z.shiftl_shiftl by lia; done).
  rewrite <- Z.shiftl_lor, (lor_shiftl_add _ r 6), (lor_shiftl_add _ s 6) by lia.
  unfold p, q, r, s. Z.to_euclidean_division_equations; lia.
Qed.

Lemma octets a b c : is_byte a -> is_byte b -> is_byte c -> let t := triple a b c in
  Z.land (Z.shiftr t 16) 255 = a /\ Z.land (Z.shiftr t 8) 255 = b /\ Z.land t 255 = c.
Proof.
  intros Ha Hb Hc. cbv zeta. rewrite !(land_mask _ 255 8), !Z.shiftr_div_pow2, triple_value by (lia || done).
  unfold is_byte in *. Z.to_euclidean_division_equations; lia.
Qed.

Lemma triple_bound a b c : is_byte a -> is_byte b -> is_byte c -> 0 <= triple a b c < 2 ^ 24.
Proof. intros. rewrite triple_value by done. unfold is_byte in *. lia. Qed.
(** What decoding sees of an encoding: [k] quads, of which the last misses [pad] bytes. *)
Definition b64_shape (b : bytes) : Prop :=
  let e := bytesToB64 b in
  drop_spaces e = e /\
  exists out pad k, b64_quads e = Ok out /\ String.length e = (4 * k)%nat /\
    (length b + pad = 3 * k)%nat /\ (pad <= 2)%nat /\ take (length b) out = b /\
    ends_with "==" e = Nat.eqb pad 2 /\ ends_with "=" e = Nat.leb 1 pad.

Lemma ends_with_cons p c s : String c s <> p -> ends_with p (String c s) = ends_with p s.
Proof. intros H. simpl. by rewrite bool_decide_eq_false_2. Qed.

(** One quad of characters that stand for the 24 bits of [x y z]. *)
Lemma b64_quads_step c0 c1 c2 c3 rest x y z :
  is_byte x -> is_byte y -> is_byte z ->
  let t := triple x y z in
  b64Value c0 = Ok (Z.land (Z.shiftr t 18) 63) -> b64Value c1 = Ok (Z.land (Z.shiftr t 12) 63) ->
  b64Value_or_pad c2 = Ok (Z.land (Z.shiftr t 6) 63) -> b64Value_or_pad c3 = Ok (Z.land t 63) ->
  b64_quads (String c0 (String c1 (String c2 (String c3 rest)))) =
  (let? tail := b64_quads rest in Ok (x :: y :: z :: tail)).
Proof.
  intros Hx Hy Hz t H0 H1 H2 H3. subst t. cbn [b64_quads]. rewrite H0, H1, H2, H3. cbn [res_bind].
  rewrite (proj2 (sextets _ (triple_bound _ _ _ Hx Hy Hz))).
  destruct (octets x y z) as (-> & -> & ->); done.
Qed.

Lemma byte_0 : is_byte 0. Proof. unfold is_byte. lia. Qed.
#[local] Hint Resolve byte_0 : core.

Lemma low_sextets x y : is_byte x -> is_byte y ->
  Z.land (triple x y 0) 63 = 0 /\ Z.land (Z.shiftr (triple x 0 0) 6) 63 = 0.
Proof.
  intros Hx Hy. rewrite !triple_value by done.
  rewrite !(land_mask _ 63 6), Z.shiftr_div_pow2 by lia.
  unfold is_byte in *. Z.to_euclidean_division_equations; lia.
Qed.

(** The characters of a quad decode to its sextets. *)
Ltac quad_chars t :=
  let Hp := fresh "Hp" in let Hq := fresh "Hq" in let Hr := fresh "Hr" in let Hs := fresh "Hs" in
  destruct (sextets t) as [(Hp & Hq & Hr & Hs) _]; [by apply triple_bound|];
  apply sextet_roundtrip in Hp as (?&?&?&?), Hq as (?&?&?&?), Hr as (?&?&?&?), Hs as (?&?&?&?).

Ltac no_pad := repeat (rewrite ends_with_cons by congruence).

Lemma b64_shape_all b : wf_bytes b -> b64_shape b.
Proof.
  revert b. fix IH 1. intros [|x [|y [|z b]]] Hb; rewrite ?Forall_cons in Hb; unfold b64_shape.
  - split; [done|]. exists [], 0%nat, 0%nat. repeat split; lia.
  - destruct Hb as [Hx _]. destruct (low_sextets x 0 Hx) as [E1 E2]; [done|].
    cbn [bytesToB64 quad]. quad_chars (triple x 0 0). split.
    { cbn [drop_spaces]. repeat case_match; first [congruence | discriminate]. }
    eexists [x; 0; 0], 2%nat, 1%nat. split.
    { rewrite (b64_quads_step _ _ _ _ _ x 0 0); try done; by rewrite ?E1, ?E2. }
    repeat split; [lia| |]; no_pad; reflexivity.
  - destruct Hb as (Hx & Hy & _). destruct (low_sextets x y Hx Hy) as [E1 _].
    cbn [bytesToB64 quad]. quad_chars (triple x y 0). split.
    { cbn [drop_spaces]. repeat case_match; first [congruence | discriminate]. }
    eexists [x; y; 0], 1%nat, 1%nat. split.
    { rewrite (b64_quads_step _ _ _ _ _ x y 0); try done; by rewrite ?E1. }
    repeat split; [lia| |]; no_pad; reflexivity.
  - destruct Hb as (Hx & Hy & Hz & Hb). destruct (IH b Hb) as (Hd & out & pad & k & Ho & Hl & Hn & Hp2 & Ht & He2 & He1).
    cbn [bytesToB64 quad]. quad_chars (triple x y z). split.
    { cbn [drop_spaces]. rewrite Hd. repeat case_match; first [congruence | discriminate]. }
    exists (x :: y :: z :: out), pad, (S k). split.
    { rewrite (b64_quads_step _ _ _ _ _ x y z) by done. by rewrite Ho. }
    cbn [length String.length]. repeat split; [lia | lia | lia | | |].
    + simpl. by rewrite Ht.
    + no_pad. done.
    + no_pad. done.
Qed.

(** Decoding the base64 text of any byte string, of whatever length modulo 3, gives
    the byte string back: the padding is neither lost nor turned into bytes. *)
Theorem b64_roundtrip b : wf_bytes b -> b64ToBytes (bytesToB64 b) = Ok b.
Proof.
  intros Hb. destruct (b64_shape_all b Hb) as (Hd & out & pad & k & Ho & Hl & Hn & Hp & Ht & He2 & He1).
  unfold b64ToBytes. rewrite Hd, He2, He1, Hl, Ho.
  case_bool_decide as He; [rewrite He in Hl; simpl in Hl; f_equal; destruct b; [done|simpl in Hn; lia]|].
  rewrite Nat.mul_comm, Nat.Div0.mod_mul, Nat.div_mul by lia. cbn [Nat.eqb negb res_bind].
  f_equal. transitivity (take (length b) out); [f_equal|exact Ht].
  destruct pad as [|[|[|]]]; simpl; lia.
Qed.
(** [parseInt] skips what it cannot read, so malformed pairs are not all refused. *)
Example hexToBytes_lenient : hexToBytes "1g-1" = Ok [1; 255]. Proof. reflexivity. Qed.

Lemma hex_roundtrip_witness : hexToBytes (bytesToHex [0; 171; 255]) = Ok [0; 171; 255].
Proof.
  apply hex_roundtrip. apply (bool_decide_unpack (wf_bytes [0; 171; 255])). vm_compute. exact I.
Defined.

Lemma b64_roundtrip_witness : b64ToBytes (bytesToB64 [7; 171; 255; 1]) = Ok [7; 171; 255; 1].
Proof.
  apply b64_roundtrip. apply (bool_decide_unpack (wf_bytes [7; 171; 255; 1])). vm_compute. exact I.
Defined.
