(* ===== verification/Frames.v ===== *)
(** * Length-prefixed frames and the stream transport
      ([peerProtocol/frames.js], [createStreamTransport] of [peerProtocol/handshake.js])

    A tunnel delivers bytes in chunks of any size; readers ask for whole frames.  The
    assembler is the byte buffer, the transport adds the queue of readers that wait.  A
    promise is a number (the rank of the [readPrefixed] call that returned it) and its
    settlement an element of the trace. *)

From stdpp Require Import pretty.
From S2P Require Import Prelude Bytes.

(** ** Frames *)

Definition frame_too_large (length maximum : Z) : string :=
  "frame too large: " +:+ pretty length +:+ " > " +:+ pretty maximum.

Definition encodePrefixed (b : bytes) (maximum : Z) : res bytes :=
  let len := Z.of_nat (length b) in
  if Z.ltb maximum len || Z.ltb 4294967295 len then Err (frame_too_large len maximum)
  else Ok (u32Be len ++ b).

(** [Ok None] is the code's [null]: more bytes are needed. *)
Definition tryReadPrefixed (buffer : bytes) (maximum : Z) : res (option (bytes * bytes)) :=
  match readU32Be buffer 0 with
  | None => Ok None
  | Some len =>
      if Z.ltb maximum len then Err (frame_too_large len maximum)
      else if Z.ltb (Z.of_nat (length buffer)) (4 + len) then Ok None
      else Ok (Some (take (Z.to_nat len) (drop 4 buffer), drop (4 + Z.to_nat len) buffer))
  end.

(** [ByteAssembler]: the state is its buffer. *)
Definition assembler_push (buffer chunk : bytes) : bytes := buffer ++ chunk.

Definition nextFrame (buffer : bytes) (maximum : Z) : res (option bytes * bytes) :=
  let? parsed := tryReadPrefixed buffer maximum in
  match parsed with
  | None => Ok (None, buffer)
  | Some (frame, rest) => Ok (Some frame, rest)
  end.

(** ** The transport *)

Record transport := mk_transport {
  buffer : bytes;
  pending : list (nat * Z);
  failed : option string;
  closed : bool
}.

#[export] Instance transport_rebuild : Rebuild transport := fun t =>
  mk_transport (buffer t) (pending t) (failed t) (closed t).

Definition createStreamTransport : transport := mk_transport [] [] None false.

(** A settled promise: the frame it resolves to or the error it rejects with. *)
Abbreviation settlement := (nat * res bytes)%type.

Definition reject_all (waiters : list (nat * Z)) (error : string) : list settlement :=
  map (fun w => (w.1, Err error)) waiters.

(** [settle()]. *)
Definition settle (t : transport) : transport * list settlement :=
  match failed t with
  | Some error => (t <| pending := [] |>, reject_all (pending t) error)
  | None =>
      if closed t && bool_decide (buffer t = [])
      then (t <| pending := [] |>, reject_all (pending t) "connection closed")
      else (t, [])
  end.

(** The loop of [push] over the waiting readers. *)
Fixpoint serve (waiters : list (nat * Z)) (buf : bytes) : bytes * list (nat * Z) * list settlement :=
  match waiters with
  | [] => (buf, [], [])
  | (id, maximum) :: rest =>
      match nextFrame buf maximum with
      | Ok (None, _) => (buf, waiters, [])
      | Ok (Some frame, buf') =>
          let '(buf'', waiting, out) := serve rest buf' in (buf'', waiting, (id, Ok frame) :: out)
      | Err error =>
          let '(buf'', waiting, out) := serve rest buf in (buf'', waiting, (id, Err error) :: out)
      end
  end.

Definition transport_push (t : transport) (chunk : bytes) : transport * list settlement :=
  let '(buf, waiting, out) := serve (pending t) (assembler_push (buffer t) chunk) in
  (t <| buffer := buf |> <| pending := waiting |>, out).

(** [readPrefixed(maximum)]; the promise it returns is [id].  (An oversized frame is thrown
    before any promise exists; the callers [await] the call, so it reaches them alike.) *)
Definition readPrefixed (t : transport) (id : nat) (maximum : Z) : transport * list settlement :=
  match nextFrame (buffer t) maximum with
  | Err error => (t, [(id, Err error)])
  | Ok (Some frame, buf) => (t <| buffer := buf |>, [(id, Ok frame)])
  | Ok (None, _) =>
      match failed t with
      | Some error => (t, [(id, Err error)])
      | None =>
          if closed t then (t, [(id, Err "connection closed")])
          else (t <| pending := pending t ++ [(id, maximum)] |>, [])
      end
  end.

Definition transport_fail (t : transport) (error : string) : transport * list settlement :=
  settle (t <| failed := Some error |>).

Definition transport_close (t : transport) : transport * list settlement :=
  settle (t <| closed := true |>).

(** ** Histories *)

Inductive transport_call :=
| PushChunk (chunk : bytes)
| ReadFrame (maximum : Z).

Definition transport_step (t : transport) (id : nat) (c : transport_call)
    : transport * nat * list settlement :=
  match c with
  | PushChunk chunk => let '(t', out) := transport_push t chunk in (t', id, out)
  | ReadFrame maximum => let '(t', out) := readPrefixed t id maximum in (t', S id, out)
  end.

Fixpoint transport_run (t : transport) (id : nat) (calls : list transport_call)
    : transport * nat * list settlement :=
  match calls with
  | [] => (t, id, [])
  | c :: rest =>
      let '(t', id', out) := transport_step t id c in
      let '(t'', id'', out') := transport_run t' id' rest in
      (t'', id'', out ++ out')
  end.

Fixpoint pushed (calls : list transport_call) : bytes :=
  match calls with
  | [] => []
  | PushChunk chunk :: rest => chunk ++ pushed rest
  | ReadFrame _ :: rest => pushed rest
  end.

Fixpoint reads (calls : list transport_call) : nat :=
  match calls with
  | [] => 0
  | PushChunk _ :: rest => reads rest
  | ReadFrame _ :: rest => S (reads rest)
  end.

(** The bytes a sender writes for a list of frames. *)
Definition stream (fs : list bytes) : bytes :=
  concat (map (fun f => u32Be (Z.of_nat (length f)) ++ f) fs).

#[global] Arguments stream : simpl never.

(** ** Frame lemmas *)

Lemma readU32Be_short b : (length b < 4)%nat <-> readU32Be b 0 = None.
Proof.
  unfold readU32Be. destruct b as [|b0 [|b1 [|b2 [|b3 b]]]]; simpl; split; intros; try done; lia.
Qed.

Lemma tryReadPrefixed_frame f rest maximum :
  Z.of_nat (length f) <= maximum -> Z.of_nat (length f) <= 4294967295 ->
  tryReadPrefixed (u32Be (Z.of_nat (length f)) ++ f ++ rest) maximum = Ok (Some (f, rest)).
Proof.
  intros Hm Hu. unfold tryReadPrefixed. rewrite readU32Be_u32Be by lia.
  rewrite (proj2 (Z.ltb_ge _ _)) by lia.
  rewrite (proj2 (Z.ltb_ge _ _)) by (rewrite !length_app, u32Be_length; lia).
  rewrite Nat2Z.id. change 4%nat with (length (u32Be (Z.of_nat (length f)))) at 1.
  rewrite drop_app_length, take_app_length. do 3 f_equal.
  rewrite app_assoc. apply drop_app_length'. rewrite length_app, u32Be_length. lia.
Qed.

Lemma tryReadPrefixed_partial f p maximum :
  Z.of_nat (length f) <= maximum -> Z.of_nat (length f) <= 4294967295 ->
  p `prefix_of` u32Be (Z.of_nat (length f)) ++ f ->
  (length p < 4 + length f)%nat -> tryReadPrefixed p maximum = Ok None.
Proof.
  intros Hm Hu [q Hq] Hl. unfold tryReadPrefixed.
  destruct (readU32Be p 0) as [n|] eqn:E; [|done].
  assert (~ (length p < 4)%nat) as Hp by (rewrite readU32Be_short; congruence).
  assert (n = Z.of_nat (length f)) as ->.
  { pose proof (readU32Be_u32Be (Z.of_nat (length f)) f) as R. rewrite Hq in R.
    unfold readU32Be in E, R. rewrite !lookup_app_l in R by lia. rewrite E in R.
    specialize (R ltac:(lia)). congruence. }
  rewrite (proj2 (Z.ltb_ge _ _)) by lia. rewrite (proj2 (Z.ltb_lt _ _)) by lia. done.
Qed.

(** ** Delivery in order *)

Section fifo.
Context (maximum : Z).

Definition fits (f : bytes) : Prop :=
  Z.of_nat (length f) <= maximum /\ Z.of_nat (length f) <= 4294967295.

Lemma stream_cons f fs : stream (f :: fs) = u32Be (Z.of_nat (length f)) ++ f ++ stream fs.
Proof. unfold stream. cbn [map concat]. by rewrite <- app_assoc. Qed.

Lemma stream_app fs gs : stream (fs ++ gs) = stream fs ++ stream gs.
Proof. unfold stream. by rewrite map_app, concat_app. Qed.

(** What a read finds in a buffer that holds the start of a stream. *)
Lemma nextFrame_stream fs buf :
  Forall fits fs -> buf `prefix_of` stream fs ->
  nextFrame buf maximum = Ok (None, buf) \/
  exists f fs' buf', fs = f :: fs' /\ buf = u32Be (Z.of_nat (length f)) ++ f ++ buf' /\
    buf' `prefix_of` stream fs' /\ nextFrame buf maximum = Ok (Some f, buf').
Proof.
  intros Hf Hp. unfold nextFrame. destruct fs as [|f fs].
  { apply prefix_nil_inv in Hp as ->. by left. }
  apply Forall_cons in Hf as [[Hm Hu] _]. rewrite stream_cons, app_assoc in Hp.
  destruct (prefix_weak_total _ _ _ Hp (prefix_app_r (u32Be (Z.of_nat (length f)) ++ f) _ _ (reflexivity _)))
    as [Hs | [rest ->]].
  - destruct (decide (length buf = length (u32Be (Z.of_nat (length f)) ++ f))) as [E|E].
    + right. exists f, fs, []. apply prefix_length_eq in Hs as ->; [|lia].
      rewrite app_nil_r. split_and!; [done|done|apply prefix_nil|].
      rewrite <- (app_nil_r (_ ++ _)), <- app_assoc, tryReadPrefixed_frame by done. done.
    + left. rewrite (tryReadPrefixed_partial f); try done.
      apply prefix_length in Hs. rewrite length_app, u32Be_length in *. lia.
  - right. exists f, fs, rest. rewrite <- app_assoc. split_and!; [done|done| |].
    + by apply prefix_app_inv in Hp.
    + rewrite tryReadPrefixed_frame by done. done.
Qed.

(** The reads served from a buffer take a stream's frames in order, until it or they
    run out. *)
Lemma serve_stream ids : forall fs buf,
  Forall fits fs -> buf `prefix_of` stream fs ->
  exists served buf', (served <= length ids)%nat /\ (served <= length fs)%nat /\
    serve (map (fun i => (i, maximum)) ids) buf =
      (buf', map (fun i => (i, maximum)) (drop served ids),
       zip (take served ids) (map Ok (take served fs))) /\
    buf = stream (take served fs) ++ buf' /\ buf' `prefix_of` stream (drop served fs) /\
    (served = length ids \/ nextFrame buf' maximum = Ok (None, buf')).
Proof.
  induction ids as [|i ids IH]; intros fs buf Hf Hp; simpl.
  { exists 0%nat, buf. rewrite drop_0. split_and!; auto; lia. }
  destruct (nextFrame_stream fs buf Hf Hp) as [E | (f & fs' & buf' & -> & -> & Hp' & E)]; rewrite E.
  - exists 0%nat, buf. rewrite !drop_0. simpl. split_and!; auto; lia.
  - apply Forall_cons in Hf as [Hf1 Hf].
    destruct (IH fs' buf' Hf Hp') as (n & buf'' & Hn & Hn' & -> & -> & Hp'' & Hend).
    exists (S n), buf''. cbn [firstn skipn length map zip_with]. rewrite stream_cons, <- !app_assoc.
    split_and!; try done; try lia. destruct Hend; [left; lia | by right].
Qed.

(** The state between two calls: [sent] bytes have been pushed, [asked] reads issued,
    [served] of them settled. *)
Definition in_step (fs : list bytes) (sent : bytes) (asked served : nat) (t : transport) : Prop :=
  (served <= asked)%nat /\ (served <= length fs)%nat /\
  sent = stream (take served fs) ++ buffer t /\
  buffer t `prefix_of` stream (drop served fs) /\
  pending t = map (fun i => (i, maximum)) (seq served (asked - served)) /\
  failed t = None /\ closed t = false /\
  (served = asked \/ nextFrame (buffer t) maximum = Ok (None, buffer t)).

Lemma drop_seq' n m k : (n <= k)%nat -> drop n (seq m k) = seq (m + n) (k - n).
Proof.
  revert m k. induction n; intros m [|k] H; simpl; try lia; rewrite ?Nat.add_0_r; auto.
  rewrite IHn by lia. f_equal; lia.
Qed.

Lemma take_seq' n m k : (n <= k)%nat -> take n (seq m k) = seq m n.
Proof. revert m k. induction n; intros m [|k] H; simpl; try lia; auto. by rewrite IHn by lia. Qed.

Lemma stream_take_drop n k fs :
  stream (take (n + k) fs) = stream (take n fs) ++ stream (take k (drop n fs)).
Proof. rewrite <- stream_app. f_equal. rewrite <- take_take_drop. done. Qed.

Lemma zip_seq_app n k k' fs : (k <= length (drop n fs))%nat ->
  zip (seq n k) (map Ok (take k (drop n fs))) ++
    zip (seq (n + k) k') (map Ok (take k' (drop (n + k) fs))) =
  zip (seq n (k + k')) (map (@Ok bytes) (take (k + k') (drop n fs))).
Proof.
  intros Hk. rewrite seq_app, <- (take_take_drop (drop n fs)), map_app, drop_drop.
  rewrite zip_with_app; [done|]. rewrite length_seq, length_map, length_take. lia.
Qed.

Lemma push_in_step fs sent asked served t chunk :
  Forall fits fs -> sent ++ chunk `prefix_of` stream fs -> in_step fs sent asked served t ->
  exists k t', transport_push t chunk =
      (t', zip (seq served k) (map Ok (take k (drop served fs)))) /\
    in_step fs (sent ++ chunk) asked (served + k) t'.
Proof.
  intros Hf Hp (Ha & Hl & -> & Hb & Hw & Hfl & Hc & Hr). unfold transport_push, assembler_push.
  assert (buffer t ++ chunk `prefix_of` stream (drop served fs)) as Hp'.
  { rewrite <- (take_drop served fs) in Hp at 2. rewrite stream_app, <- app_assoc in Hp.
    by apply prefix_app_inv in Hp. }
  rewrite Hw.
  destruct (serve_stream (seq served (asked - served)) (drop served fs) (buffer t ++ chunk))
    as (k & buf' & Hk & Hk' & -> & Hs & Hp'' & Hend); [by apply Forall_drop|done|].
  rewrite length_seq in *. rewrite length_drop in Hk'.
  exists k. eexists. rewrite take_seq' by lia. split; [reflexivity|].
  unfold in_step; simpl. rewrite drop_seq', stream_take_drop by lia.
  rewrite drop_drop in Hp''.
  split_and!; try lia; try done.
  - rewrite <- !app_assoc. congruence.
  - f_equal. f_equal; lia.
  - destruct Hend; [left; lia | by right].
Qed.

Lemma read_in_step fs sent asked served t :
  Forall (fits) fs -> sent `prefix_of` stream fs -> in_step fs sent asked served t ->
  exists k t', readPrefixed t asked maximum =
      (t', zip (seq served k) (map Ok (take k (drop served fs)))) /\
    in_step fs sent (S asked) (served + k) t'.
Proof.
  intros Hf Hp (Ha & Hl & -> & Hb & Hw & Hfl & Hc & Hr). unfold readPrefixed.
  destruct (nextFrame_stream (drop served fs) (buffer t)) as [E | (f & fs' & buf' & Ef & Eb & Hp' & E)];
    [by apply Forall_drop|done| |]; rewrite E, ?Hfl, ?Hc.
  - exists 0%nat. eexists. split; [reflexivity|]. unfold in_step; simpl.
    rewrite Nat.add_0_r, Hw. replace (S asked - served)%nat with (asked - served + 1)%nat by lia.
    rewrite seq_app, map_app. simpl. replace (served + (asked - served))%nat with asked by lia.
    split_and!; try done; try lia. by right.
  - destruct Hr as [-> | Hr]; [|congruence]. rewrite Nat.sub_diag in Hw.
    exists 1%nat. eexists. rewrite Ef. split; [reflexivity|]. unfold in_step; simpl.
    assert (length (drop asked fs) <> 0)%nat as Hn by (by rewrite Ef). rewrite length_drop in Hn.
    assert (stream (take (asked + 1) fs) = stream (take asked fs) ++ u32Be (Z.of_nat (length f)) ++ f) as ->.
    { rewrite stream_take_drop, Ef. cbn [firstn]. unfold stream at 2. cbn [map concat].
      by rewrite app_nil_r. }
    rewrite Ef in *. rewrite <- (drop_drop fs 1 asked), Ef. cbn [skipn].
    replace (asked + 1)%nat with (S asked) by lia. rewrite Nat.sub_diag, Hw, Eb, <- !app_assoc.
    split_and!; try done; try lia.
Qed.

Lemma run_in_step fs calls : forall sent asked served t,
  Forall fits fs -> (forall m, ReadFrame m ∈ calls -> m = maximum) ->
  sent ++ pushed calls `prefix_of` stream fs -> in_step fs sent asked served t ->
  exists k t', transport_run t asked calls =
      (t', (asked + reads calls)%nat, zip (seq served k) (map Ok (take k (drop served fs)))) /\
    in_step fs (sent ++ pushed calls) (asked + reads calls) (served + k) t'.
Proof.
  induction calls as [|c calls IH]; intros sent asked served t Hf Hm Hp Hi; simpl.
  { exists 0%nat, t. by rewrite Nat.add_0_r, app_nil_r, Nat.add_0_r. }
  assert (forall m, ReadFrame m ∈ calls -> m = maximum) as Hm' by set_solver.
  assert (sent `prefix_of` stream fs) as Hs by (eapply prefix_app_l; exact Hp).
  destruct c as [chunk | m]; cbn [transport_step pushed reads] in *.
  - rewrite app_assoc in Hp.
    destruct (push_in_step fs sent asked served t chunk) as (k & t' & -> & Hi'); try done.
    { by eapply prefix_app_l. }
    destruct (IH _ _ _ _ Hf Hm' Hp Hi') as (k' & t'' & -> & Hi'').
    exists (k + k')%nat, t''. rewrite app_assoc, Nat.add_assoc. split; [|done].
    f_equal. apply zip_seq_app. destruct Hi'' as (_ & Hl & _). rewrite length_drop. lia.
  - assert (m = maximum) as -> by set_solver.
    destruct (read_in_step fs sent asked served t) as (k & t' & -> & Hi'); try done.
    destruct (IH _ _ _ _ Hf Hm' Hp Hi') as (k' & t'' & E & Hi'').
    rewrite E. exists (k + k')%nat, t''. rewrite <- Nat.add_succ_comm, Nat.add_assoc. split; [|done].
    f_equal. apply zip_seq_app. destruct Hi'' as (_ & Hl & _). rewrite length_drop. lia.
Qed.
End fifo.

(** ** Properties *)

(** C4: the stream transport delivers frames in order and exactly once, however the
    network cuts the byte stream into chunks and however reads and pushes alternate: when
    all the bytes of a list of frames have arrived, the first reads (in the order they were
    issued) have resolved to the first frames, one each, and no promise is settled otherwise. *)
Theorem transport_fifo maximum fs calls :
  Forall (fits maximum) fs -> (forall m, ReadFrame m ∈ calls -> m = maximum) ->
  pushed calls = stream fs ->
  let k := Nat.min (reads calls) (length fs) in
  (transport_run createStreamTransport 0 calls).2 = zip (seq 0 k) (map Ok (take k fs)).
Proof.
  intros Hf Hm Hp.
  destruct (run_in_step maximum fs calls [] 0 0 createStreamTransport Hf Hm) as (k & t' & E & Hi).
  { simpl. rewrite Hp. reflexivity. }
  { unfold in_step. simpl. split_and!; try done; try lia. apply prefix_nil. }
  simpl in *. rewrite E, drop_0. simpl.
  enough (k = Nat.min (reads calls) (length fs)) as -> by done.
  destruct Hi as (Hk & Hl & Hs & Hb & _ & _ & _ & Hr).
  rewrite Hp in Hs. assert (stream (drop k fs) = buffer t') as Hs'.
  { apply (app_inv_head (stream (take k fs))). by rewrite <- stream_app, take_drop. }
  clear Hs. rename Hs' into Hs. destruct Hr as [-> | Hr]; [lia|].
  destruct (drop k fs) as [|f fs'] eqn:Ed.
  { apply (f_equal length) in Ed. rewrite length_drop in Ed. simpl in Ed. lia. }
  assert (fits maximum f) as [Hf1 Hf2].
  { apply (Forall_drop _ k) in Hf. rewrite Ed in Hf. by apply Forall_cons in Hf as [? _]. }
  rewrite <- Hs, stream_cons in Hr. unfold nextFrame in Hr.
  by rewrite tryReadPrefixed_frame in Hr.
Qed.

Lemma transport_fifo_witness :
  (transport_run createStreamTransport 0
     [ReadFrame 9; PushChunk [0; 0]; ReadFrame 9; PushChunk [0; 2; 7; 8; 0; 0; 0]; ReadFrame 9;
      PushChunk [1; 5]]).2 = [(0%nat, Ok [7; 8]); (1%nat, Ok [5])].
Proof.
  refine (transport_fifo 9 [[7; 8]; [5]]
    [ReadFrame 9; PushChunk [0; 0]; ReadFrame 9; PushChunk [0; 2; 7; 8; 0; 0; 0]; ReadFrame 9;
     PushChunk [1; 5]] _ _ eq_refl).
  - repeat constructor; simpl; lia.
  - intros m Hm. rewrite !elem_of_cons, elem_of_nil in Hm. naive_solver.
Defined.

(** Closing a tunnel in the middle of a frame never settles the reads that wait: they
    are neither resolved nor rejected, whatever the transport had buffered of the frame,
    although closing an idle tunnel rejects them all. *)
Theorem close_settles_only_between_frames t :
  failed t = None ->
  transport_close t =
    (if decide (buffer t = [])
     then (t <| closed := true |> <| pending := [] |>, reject_all (pending t) "connection closed")
     else (t <| closed := true |>, [])).
Proof.
  intros Hf. unfold transport_close, settle. simpl. rewrite Hf.
  by destruct (decide (buffer t = [])); [rewrite bool_decide_eq_true_2 | rewrite bool_decide_eq_false_2].
Qed.

Lemma close_settles_only_between_frames_witness :
  transport_close (mk_transport [0; 0] [(0%nat, 9)] None false) =
    (mk_transport [0; 0] [(0%nat, 9)] None true, []).
Proof. exact (close_settles_only_between_frames (mk_transport [0; 0] [(0%nat, 9)] None false) eq_refl). Defined.
