(* ===== verification/Records.v ===== *)
(** * Encrypted records ([peerProtocol/records.js], [peerProtocol/constants.js])

    The cryptographic primitives come from the noble packages, which are not part of the
    repository: they are the operations of the class [Crypto], and the laws the code relies
    on (decrypting what was encrypted under the same key, nonce and additional data gives
    the plaintext; Diffie-Hellman commutes) are the class [CryptoLaws].  The state of a
    cipher is the record the constructor builds; [nextSequence] is a [BigInt]. *)

From stdpp Require Import pretty.
From S2P Require Import Prelude Bytes Frames.

Class Crypto := {
  x25519_public : bytes -> bytes;
  x25519_shared : bytes -> bytes -> bytes;
  hkdf_sha256 : bytes -> bytes -> bytes -> Z -> bytes;
  sha256 : bytes -> bytes;
  aead_encrypt : bytes -> bytes -> bytes -> bytes -> bytes;
  aead_decrypt : bytes -> bytes -> bytes -> bytes -> res bytes
}.

(** Documented behaviour of ChaCha20-Poly1305 (a 16-byte tag follows the ciphertext) and
    of X25519. *)
Class CryptoLaws `{Crypto} : Prop := {
  aead_open k n a p : aead_decrypt k n a (aead_encrypt k n a p) = Ok p;
  aead_tag k n a p : length (aead_encrypt k n a p) = (length p + 16)%nat;
  dh_commutes a b : x25519_shared a (x25519_public b) = x25519_shared b (x25519_public a)
}.

(** [utf8(text)] on ASCII text. *)
Definition utf8 (text : string) : bytes :=
  map (fun c => Z.of_nat (Ascii.nat_of_ascii c)) (String.list_ascii_of_string text).

Definition nul : string := String "000" "".
Definition RECORD_AAD_DOMAIN : bytes := utf8 ("BlueTalk/v2/record" +:+ nul).
Definition TRANSCRIPT_DOMAIN : bytes := utf8 ("BlueTalk/v2/transcript/1" +:+ nul).
Definition SESSION_KDF_INFO : bytes := utf8 "BlueTalk/v2/session-keys/1".

(** ** Ciphers *)

Record cipher := mk_cipher {
  key : bytes;
  noncePrefix : bytes;
  cipher_transcript : bytes;
  maxPlaintextBytes : Z;
  nextSequence : Z
}.

#[export] Instance cipher_rebuild : Rebuild cipher := fun c =>
  mk_cipher (key c) (noncePrefix c) (cipher_transcript c) (maxPlaintextBytes c) (nextSequence c).

(** The constructors of [SendCipher] and of [ReceiveCipher]. *)
Definition new_cipher (key noncePrefix transcript : bytes) (maximum : Z) : cipher :=
  mk_cipher key noncePrefix transcript maximum 0.

Definition makeNonce (prefix : bytes) (sequence : Z) : bytes := concatBytes [prefix; u64Be sequence].

Definition makeAad (transcript : bytes) (sequence : Z) : bytes :=
  concatBytes [RECORD_AAD_DOMAIN; transcript; u64Be sequence].

Definition maximumRecordBytes (c : cipher) : Z := maxPlaintextBytes c + 8 + 16.

Section records.
Context `{Crypto}.

(** ** Operations *)

Definition ephemeralFromSeed (seed : bytes) : res (bytes * bytes) :=
  if negb (Nat.eqb (length seed) 32) then Err "ephemeral seed must contain exactly 32 bytes"
  else Ok (seed, x25519_public seed).

Definition sharedSecret (secret peerPublic : bytes) : res bytes :=
  let shared := x25519_shared secret peerPublic in
  if forallb (fun byte => Z.eqb byte 0) shared then Err "invalid low-order X25519 public key"
  else Ok shared.

Definition transcriptHash (clientBytes serverBytes : bytes) : bytes :=
  sha256 (concatBytes
    [TRANSCRIPT_DOMAIN;
     u64Be (Z.of_nat (length clientBytes)); clientBytes;
     u64Be (Z.of_nat (length serverBytes)); serverBytes]).

(** [array.slice(start, end)]. *)
Definition slice (b : bytes) (first last : nat) : bytes := take (last - first) (drop first b).

(** The [send] and the [receive] cipher of one side. *)
Definition deriveSessionCiphers (shared transcript : bytes) (initiator : bool) (maximum : Z)
    : cipher * cipher :=
  let material := hkdf_sha256 shared transcript SESSION_KDF_INFO 72 in
  let initiatorKey := slice material 0 32 in
  let responderKey := slice material 32 64 in
  let initiatorPrefix := slice material 64 68 in
  let responderPrefix := slice material 68 72 in
  let sendKey := if initiator then initiatorKey else responderKey in
  let receiveKey := if initiator then responderKey else initiatorKey in
  let sendPrefix := if initiator then initiatorPrefix else responderPrefix in
  let receivePrefix := if initiator then responderPrefix else initiatorPrefix in
  (new_cipher sendKey sendPrefix transcript maximum,
   new_cipher receiveKey receivePrefix transcript maximum).

(** [SendCipher.encrypt]: the cipher it leaves and the record, or the error it throws
    (the cipher is then unchanged). *)
Definition encrypt (c : cipher) (plaintext : bytes) : res (cipher * bytes) :=
  let len := Z.of_nat (length plaintext) in
  if Z.ltb (maxPlaintextBytes c) len then Err (frame_too_large len (maxPlaintextBytes c))
  else if Z.eqb (nextSequence c) 18446744073709551615 then
    Err "record sequence exhausted; reconnect required"
  else
    let sequence := nextSequence c in
    let nonce := makeNonce (noncePrefix c) sequence in
    let aad := makeAad (cipher_transcript c) sequence in
    let ciphertext := aead_encrypt (key c) nonce aad plaintext in
    Ok (c <| nextSequence := nextSequence c + 1 |>, concatBytes [u64Be sequence; ciphertext]).

Definition unexpected_sequence (got expected : Z) : string :=
  "unexpected record sequence " +:+ pretty got +:+ "; expected " +:+ pretty expected.

(** [ReceiveCipher.decrypt]. *)
Definition decrypt (c : cipher) (record : bytes) : res (cipher * bytes) :=
  let len := Z.of_nat (length record) in
  if Z.ltb len (8 + 16) then Err "encrypted record is shorter than its header and tag"
  else if Z.ltb (maxPlaintextBytes c + 8 + 16) len then
    Err (frame_too_large (len - 8 - 16) (maxPlaintextBytes c))
  else
    let seq := default 0 (readU64Be record 0) in
    if negb (Z.eqb seq (nextSequence c)) then Err (unexpected_sequence seq (nextSequence c))
    else
      let nonce := makeNonce (noncePrefix c) seq in
      let aad := makeAad (cipher_transcript c) seq in
      let? plaintext := aead_decrypt (key c) nonce aad (drop 8 record) in
      Ok (c <| nextSequence := nextSequence c + 1 |>, plaintext).

(** ** Sessions *)

(** Encrypting a list of plaintexts in order; the first error stops the sender. *)
Fixpoint encrypt_all (c : cipher) (ps : list bytes) : res (cipher * list bytes) :=
  match ps with
  | [] => Ok (c, [])
  | p :: rest =>
      let? one := encrypt c p in
      let? more := encrypt_all one.1 rest in
      Ok (more.1, one.2 :: more.2)
  end.

(** A receiver that keeps reading after a record it refuses: the plaintexts it accepts. *)
Fixpoint receive_all (c : cipher) (records : list bytes) : cipher * list bytes :=
  match records with
  | [] => (c, [])
  | r :: rest =>
      match decrypt c r with
      | Ok (c', p) => let '(c'', ps) := receive_all c' rest in (c'', p :: ps)
      | Err _ => receive_all c rest
      end
  end.

(** What two ends that share a key agree on. *)
Definition same_channel (s r : cipher) : Prop :=
  key s = key r /\ noncePrefix s = noncePrefix r /\
  cipher_transcript s = cipher_transcript r /\ maxPlaintextBytes s = maxPlaintextBytes r.

(** The record a sender at [c] writes for [p] when its counter is [n]. *)
Definition record_at (c : cipher) (n : Z) (p : bytes) : bytes :=
  u64Be n ++ aead_encrypt (key c) (makeNonce (noncePrefix c) n) (makeAad (cipher_transcript c) n) p.

Lemma encrypt_ok c p c' r :
  encrypt c p = Ok (c', r) <->
  Z.of_nat (length p) <= maxPlaintextBytes c /\ nextSequence c <> 18446744073709551615 /\
  c' = (c <| nextSequence := nextSequence c + 1 |>) /\ r = record_at c (nextSequence c) p.
Proof.
  unfold encrypt, record_at, concatBytes. simpl. rewrite app_nil_r.
  destruct (Z.ltb_spec (maxPlaintextBytes c) (Z.of_nat (length p)));
    [split; [done | intros (?&?); lia]|].
  destruct (Z.eqb_spec (nextSequence c) 18446744073709551615); [split; [done | naive_solver]|].
  split; [intros; simplify_eq; auto | intros (?&?&->&->); done].
Qed.

Lemma sharedSecret_ok secret peer shared :
  sharedSecret secret peer = Ok shared -> shared = x25519_shared secret peer.
Proof. unfold sharedSecret. case_match; naive_solver. Qed.

Context `{!CryptoLaws}.

(** A record of the channel is accepted exactly when it is the one the receiver expects. *)
Lemma decrypt_record_at s r n p :
  same_channel s r -> 0 <= n < 2 ^ 64 -> Z.of_nat (length p) <= maxPlaintextBytes r ->
  decrypt r (record_at s n p) =
    if decide (n = nextSequence r) then Ok (r <| nextSequence := nextSequence r + 1 |>, p)
    else Err (unexpected_sequence n (nextSequence r)).
Proof.
  intros (Hk & Hn & Ht & Hm) Hb Hl. unfold decrypt, record_at.
  rewrite readU64Be_u64Be by done. cbn [default from_option id].
  rewrite length_app, u64Be_length, aead_tag.
  rewrite (proj2 (Z.ltb_ge _ _)) by lia. rewrite (proj2 (Z.ltb_ge _ _)) by lia.
  destruct (decide (n = nextSequence r)) as [->|Hne].
  - rewrite Z.eqb_refl. cbn [negb]. rewrite drop_app_length' by reflexivity.
    by rewrite Hk, Hn, Ht, aead_open.
  - by rewrite (proj2 (Z.eqb_neq _ _)).
Qed.

Lemma encrypt_all_records ps : forall c c' rs, encrypt_all c ps = Ok (c', rs) -> 0 <= nextSequence c <= 2 ^ 64 - 1 ->
  rs = zip_with (record_at c) (seqZ (nextSequence c) (Z.of_nat (length ps))) ps /\
  Forall (fun p => Z.of_nat (length p) <= maxPlaintextBytes c) ps /\
  nextSequence c + Z.of_nat (length ps) <= 2 ^ 64 - 1 /\
  c' = (c <| nextSequence := nextSequence c + Z.of_nat (length ps) |>).
Proof.
  induction ps as [|p ps IH]; intros c c' rs E Hc; simpl in *.
  { simplify_eq. rewrite Z.add_0_r. split_and!; auto; [lia|]. by destruct c'. }
  apply res_bind_ok in E as ([c1 r] & E1 & E). apply res_bind_ok in E as ([c2 rs'] & E2 & E).
  simpl in *. simplify_eq. apply encrypt_ok in E1 as (Hl & Hn & -> & ->).
  apply IH in E2 as (-> & Hf & Hb & ->); simpl in *; [|lia].
  rewrite (seqZ_cons (nextSequence c)) by lia. split_and!; auto; try lia.
  - simpl. f_equal. f_equal. f_equal; lia.
  - f_equal. lia.
Qed.

(** What a receiver accepts of records taken, in any order and any number of times, from
    the ones a sender wrote. *)
Lemma receive_all_spec s ps records : forall r,
  same_channel s r -> Z.of_nat (length ps) < 2 ^ 64 -> 0 <= nextSequence r ->
  Forall (fun p => Z.of_nat (length p) <= maxPlaintextBytes r) ps ->
  (forall x, x ∈ records -> exists n p, ps !! n = Some p /\ x = record_at s (Z.of_nat n) p) ->
  exists k, receive_all r records =
    (r <| nextSequence := nextSequence r + Z.of_nat k |>,
     take k (drop (Z.to_nat (nextSequence r)) ps)) /\
    (k <= length (drop (Z.to_nat (nextSequence r)) ps))%nat.
Proof.
  induction records as [|x records IH]; intros r Hch Hlen Hnn Hmax Hin; simpl.
  { exists 0%nat. rewrite take_0, Z.add_0_r. destruct r; simpl. split; [done|lia]. }
  destruct (Hin x) as (n & p & Hn & ->); [by left|].
  pose proof (lookup_lt_Some _ _ _ Hn) as Hlt.
  assert (Z.of_nat (length p) <= maxPlaintextBytes r) by (apply (Forall_lookup_1 _ _ _ _ Hmax Hn)).
  assert (forall x, x ∈ records -> exists n p, ps !! n = Some p /\ x = record_at s (Z.of_nat n) p)
    as Hin' by (intros y Hy; apply Hin; by right).
  rewrite (decrypt_record_at s r) by (done || lia).
  destruct (decide (Z.of_nat n = nextSequence r)) as [En|En]; [|by apply IH].
  destruct (IH (r <| nextSequence := nextSequence r + 1 |>)) as (k & -> & Hk); try done.
  { simpl. lia. }
  exists (S k). simpl in *. rewrite <- En, Nat2Z.id in *.
  replace (Z.to_nat (Z.of_nat n + 1)) with (S n) in * by lia.
  rewrite (drop_S _ _ _ Hn). simpl. split; [|lia]. f_equal. f_equal. lia.
Qed.
End records.

(** ** Properties *)

Section properties.
Context `{HC : Crypto} `{HL : !CryptoLaws}.

(** The two ends of a handshake derive matching ciphers: with the Diffie-Hellman
    secret each computes from its own secret key and the other's public key, and the same
    transcript, each end's send cipher is the other's receive cipher. *)
Theorem derived_ciphers_match secret_i secret_r shared_i shared_r transcript maximum :
  sharedSecret secret_i (x25519_public secret_r) = Ok shared_i ->
  sharedSecret secret_r (x25519_public secret_i) = Ok shared_r ->
  let '(send_i, receive_i) := deriveSessionCiphers shared_i transcript true maximum in
  let '(send_r, receive_r) := deriveSessionCiphers shared_r transcript false maximum in
  send_i = receive_r /\ send_r = receive_i.
Proof.
  intros ->%sharedSecret_ok ->%sharedSecret_ok. rewrite (dh_commutes secret_r secret_i).
  unfold deriveSessionCiphers. done.
Qed.

(** C2: a receiver never accepts a replayed, reordered or repeated record: whatever
    sequence of the sender's records an attacker delivers, in any order and any number of
    times, the accepted plaintexts are a prefix of the plaintexts sent, in order. *)
Theorem no_replay s r ps s' sent delivered :
  same_channel s r -> nextSequence s = 0 -> nextSequence r = 0 ->
  encrypt_all s ps = Ok (s', sent) -> (forall x, x ∈ delivered -> x ∈ sent) ->
  exists k, (receive_all r delivered).2 = take k ps /\
    nextSequence (receive_all r delivered).1 = Z.of_nat k.
Proof.
  intros Hch Hs Hr E Hd. apply encrypt_all_records in E as (-> & Hf & Hb & ->); [|lia].
  destruct (receive_all_spec s ps delivered r) as (k & -> & _); rewrite ?Hr; try done; try lia.
  - destruct Hch as (_&_&_&<-). done.
  - intros x Hx. apply Hd, list_elem_of_lookup in Hx as [n Hx].
    apply lookup_zip_with_Some in Hx as (z & p & -> & Hz & Hp).
    apply lookup_seqZ in Hz as [-> _]. exists n, p. rewrite Hs. done.
  - exists k. done.
Qed.

(** Records are lossless: when every record arrives in order, the receiver
    decrypts exactly the plaintexts sent and the two counters stay equal. *)
Theorem records_roundtrip s r ps s' sent :
  same_channel s r -> nextSequence s = nextSequence r -> 0 <= nextSequence s < 2 ^ 64 ->
  encrypt_all s ps = Ok (s', sent) ->
  (receive_all r sent).2 = ps /\ nextSequence (receive_all r sent).1 = nextSequence s'.
Proof.
  revert s r s' sent. induction ps as [|p ps IH]; intros s r s' sent Hch Hn Hb E; simpl in E.
  { by simplify_eq. }
  apply res_bind_ok in E as ([s1 x] & E1 & E). apply res_bind_ok in E as ([s2 xs] & E2 & E).
  simpl in *. simplify_eq. apply encrypt_ok in E1 as (Hl & Hne & -> & ->). simpl.
  destruct Hch as (?&?&?&?).
  rewrite (decrypt_record_at s r) by (done || lia). rewrite decide_True by done.
  specialize (IH (s <| nextSequence := nextSequence s + 1 |>)
                 (r <| nextSequence := nextSequence r + 1 |>) s' xs). simpl in IH.
  destruct (receive_all _ xs) as [r' qs]. simpl in *.
  destruct IH as [-> ?]; auto; try lia. done.
Qed.

(** A send cipher never uses a nonce twice: the nonces of the records it writes
    are pairwise distinct, and it refuses to write when the counter is exhausted. *)
Theorem nonces_unique s ps s' sent :
  0 <= nextSequence s <= 2 ^ 64 - 1 -> encrypt_all s ps = Ok (s', sent) ->
  let nonces := map (makeNonce (noncePrefix s)) (seqZ (nextSequence s) (Z.of_nat (length ps))) in
  NoDup nonces /\
  sent = zip_with (fun n p => u64Be n ++
      aead_encrypt (key s) (makeNonce (noncePrefix s) n) (makeAad (cipher_transcript s) n) p)
    (seqZ (nextSequence s) (Z.of_nat (length ps))) ps /\
  nextSequence s' <= 2 ^ 64 - 1 /\
  (nextSequence s' = 2 ^ 64 - 1 -> forall p, exists e, encrypt s' p = Err e).
Proof.
  intros Hb E. apply encrypt_all_records in E as (-> & _ & Hm & ->); [|done].
  simpl. split_and!; [|done|lia|].
  - apply NoDup_fmap_2_strong; [|apply NoDup_seqZ].
    intros a b Ha Hb' Heq. apply elem_of_seqZ in Ha, Hb'.
    unfold makeNonce, concatBytes in Heq. cbn [concat] in Heq. rewrite !app_nil_r in Heq.
    apply app_inv_head in Heq. apply u64Be_inj in Heq; lia.
  - intros Hx p. unfold encrypt. simpl. rewrite Hx. case_match; eauto.
Qed.
End properties.

(** ** A concrete instance

    A transparent "cipher" whose tag is a checksum of key, nonce and additional data: it
    satisfies the laws, so they are consistent, and the witnesses run on it. *)

Definition checksum (b : bytes) : bytes := replicate 16 (foldr Z.add 0 b mod 256).

#[export] Instance toy_crypto : Crypto := {|
  x25519_public := fun secret => secret;
  x25519_shared := fun a b => zip_with Z.add a b;
  hkdf_sha256 := fun ikm salt info n => take (Z.to_nat n) (ikm ++ salt ++ info ++ replicate 72 1);
  sha256 := fun b => checksum b ++ checksum b;
  aead_encrypt := fun k n a p => p ++ checksum (k ++ n ++ a);
  aead_decrypt := fun k n a c =>
    if bool_decide (drop (length c - 16) c = checksum (k ++ n ++ a))
    then Ok (take (length c - 16) c) else Err "invalid tag"
|}.

#[export] Instance toy_laws : CryptoLaws (H := toy_crypto).
Proof.
  split; simpl.
  - intros. rewrite length_app. unfold checksum. rewrite length_replicate.
    replace (length p + 16 - 16)%nat with (length p) by lia.
    rewrite drop_app_length, bool_decide_eq_true_2, take_app_length; done.
  - intros. rewrite length_app. unfold checksum. by rewrite length_replicate.
  - induction a; intros [|]; simpl; f_equal; auto. lia.
Qed.

Definition toy_cipher : cipher := new_cipher [1; 2] [3; 4; 5; 6] [7] 10.

Definition toy_sent : list bytes :=
  match encrypt_all toy_cipher [[11; 12]; [13]; [14]] with Ok (_, sent) => sent | Err _ => [] end.

Lemma derived_ciphers_match_witness :
  let c t := deriveSessionCiphers [5; 7] [9] t 64 in
  (c true).1 = (c false).2 /\ (c false).1 = (c true).2.
Proof.
  exact (derived_ciphers_match (HL := toy_laws) [2; 3] [3; 4] [5; 7] [5; 7] [9] 64 eq_refl eq_refl).
Defined.

Definition toy_delivered : list bytes :=
  [nth 1 toy_sent []; nth 0 toy_sent []; nth 0 toy_sent []; nth 1 toy_sent []; nth 0 toy_sent []].

Lemma no_replay_witness :
  exists k, (receive_all toy_cipher toy_delivered).2 = take k [[11; 12]; [13]; [14]] /\
    nextSequence (receive_all toy_cipher toy_delivered).1 = Z.of_nat k.
Proof.
  apply (no_replay (HL := toy_laws) toy_cipher toy_cipher [[11; 12]; [13]; [14]]
    (toy_cipher <| nextSequence := 3 |>) toy_sent toy_delivered).
  - repeat split.
  - reflexivity.
  - reflexivity.
  - vm_compute. reflexivity.
  - apply Forall_forall. apply (bool_decide_unpack _). vm_compute. exact I.
Defined.

Lemma records_roundtrip_witness :
  (receive_all toy_cipher toy_sent).2 = [[11; 12]; [13]; [14]] /\
  nextSequence (receive_all toy_cipher toy_sent).1 = nextSequence (toy_cipher <| nextSequence := 3 |>).
Proof.
  apply (records_roundtrip (HL := toy_laws) toy_cipher toy_cipher [[11; 12]; [13]; [14]]
    (toy_cipher <| nextSequence := 3 |>) toy_sent).
  - repeat split.
  - reflexivity.
  - simpl. lia.
  - vm_compute. reflexivity.
Defined.

Lemma nonces_unique_witness :
  NoDup (map (makeNonce [3; 4; 5; 6]) [0; 1; 2]).
Proof.
  refine (proj1 (nonces_unique toy_cipher [[11; 12]; [13]; [14]]
    (toy_cipher <| nextSequence := 3 |>) toy_sent _ _)).
  - simpl. lia.
  - vm_compute. reflexivity.
Defined.
