(* ===== verification/SessionMap.v ===== *)
(** * Sessions with a peer's devices ([src/bridge/webBridge/sessionMap.js], and
      [attachTunnel] / [forgetSession] of [src/bridge/webBridge/index.js])

    A peer may be signed in on several devices; a session belongs to a (peer, device) pair.
    The table is a JavaScript [Map]: an association list in insertion order, a key
    occurring once.  A [PeerSession] is a number; the set of those that are open is part
    of the state because closing one calls back into the table. *)

From S2P Require Import Prelude.

Definition LEGACY_DEVICE_KEY : string := "legacy".
Definition DIRECT_DEVICE_KEY : string := "direct".
Definition DEVICE_NAME_MAX : nat := 64.

(** ** Device keys *)

Definition is_device_char (c : ascii) : bool :=
  let n := Ascii.nat_of_ascii c in
  (Nat.leb 65 n && Nat.leb n 90) || (Nat.leb 97 n && Nat.leb n 122)
  || (Nat.leb 48 n && Nat.leb n 57) || Nat.eqb n 95 || Nat.eqb n 45.

(** [DEVICE_ID_RE.test(id)]: [/^[A-Za-z0-9_-]{8,64}$/]. *)
Definition DEVICE_ID_RE (id : string) : bool :=
  Nat.leb 8 (String.length id) && Nat.leb (String.length id) 64 && string_forallb is_device_char id.

Definition isValidDeviceId (value : option string) : bool :=
  match value with Some id => DEVICE_ID_RE id | None => false end.

Definition normalizeDeviceKey (value : option string) : string :=
  let id := trim (default "" value) in
  if bool_decide (id = "") || bool_decide (id = LEGACY_DEVICE_KEY) then LEGACY_DEVICE_KEY
  else if bool_decide (id = DIRECT_DEVICE_KEY) then DIRECT_DEVICE_KEY
  else if DEVICE_ID_RE id then id
  else LEGACY_DEVICE_KEY.

Definition unit_separator : string := String "031" "".

Definition sessionKey (peerId : string) (deviceKey : option string) : string :=
  peerId +:+ unit_separator +:+ normalizeDeviceKey deviceKey.

Definition openerToken (peerId : string) (deviceKey : option string) : string :=
  peerId +:+ "/" +:+ normalizeDeviceKey deviceKey.

Definition shouldOpenTunnel (ours : string) (ourDeviceKey : option string)
    (theirs : string) (remoteDeviceKey : option string) : bool :=
  if bool_decide (ours = "") || bool_decide (theirs = "") || bool_decide (ours = theirs) then false
  else str_ltb (openerToken ours ourDeviceKey) (openerToken theirs remoteDeviceKey).

(** ** Device lists *)

(** An element of the [devices] array a peer announces. *)
Inductive device_item :=
| DeviceString (id : string)
| DeviceObject (id name : option string)
| DeviceOther.

Record device := mk_device { device_id : string; device_name : string }.

#[export] Instance device_eq_dec : EqDecision device.
Proof. solve_decision. Defined.

Definition item_id (item : device_item) : string :=
  trim (match item with
        | DeviceString id => id
        | DeviceObject id _ => default "" id
        | DeviceOther => ""
        end).

Definition item_name (item : device_item) : string :=
  match item with
  | DeviceObject _ name => String.substring 0 DEVICE_NAME_MAX (default "" name)
  | _ => ""
  end.

Fixpoint parse_devices (raw : list device_item) (seen : list string) : list device :=
  match raw with
  | [] => []
  | item :: rest =>
      let trimmed := item_id item in
      if negb (isValidDeviceId (Some trimmed))
         && bool_decide (trimmed <> LEGACY_DEVICE_KEY) && bool_decide (trimmed <> DIRECT_DEVICE_KEY)
      then parse_devices rest seen
      else
        let id := normalizeDeviceKey (Some trimmed) in
        if includes seen id then parse_devices rest seen
        else mk_device id (item_name item) :: parse_devices rest (id :: seen)
  end.

(** [None] is anything but an array. *)
Definition parseDeviceList (raw : option (list device_item)) : list device :=
  match raw with Some items => parse_devices items [] | None => [] end.

Definition remoteDevicesFromPresence (online : bool) (devices : option (list device_item))
    : list device :=
  if negb online then []
  else
    match devices with
    | Some (_ :: _) =>
        match parseDeviceList devices with
        | [] => [mk_device LEGACY_DEVICE_KEY ""]
        | parsed => parsed
        end
    | _ => [mk_device LEGACY_DEVICE_KEY ""]
    end.

(** ** The table *)

Record peer_info := mk_peer_info {
  info_id : string;
  info_name : string;
  info_direction : string;
  info_transport : option string
}.

Record session := mk_session {
  session_peer : string;
  session_device : string;
  session_name : string;
  session_transport : option string;
  session_info : peer_info;
  session_handle : nat
}.

Abbreviation table := (list (string * session)).

(** [Map.prototype.get / set / delete]. *)
Fixpoint map_get (m : table) (k : string) : option session :=
  match m with
  | [] => None
  | (k', v) :: rest => if bool_decide (k' = k) then Some v else map_get rest k
  end.

Fixpoint map_set (m : table) (k : string) (v : session) : table :=
  match m with
  | [] => [(k, v)]
  | (k', v') :: rest => if bool_decide (k' = k) then (k', v) :: rest else (k', v') :: map_set rest k v
  end.

Definition map_delete (m : table) (k : string) : table :=
  base.filter (fun kv => kv.1 <> k) m.

Definition table_get (m : table) (peerId : string) (deviceKey : option string) : option session :=
  map_get m (sessionKey peerId deviceKey).

Definition table_has (m : table) (peerId : string) (deviceKey : option string) : bool :=
  match table_get m peerId deviceKey with Some _ => true | None => false end.

Definition table_set (m : table) (entry : session) : table :=
  let peerId := if bool_decide (session_peer entry = "") then info_id (session_info entry)
                else session_peer entry in
  let deviceKey := normalizeDeviceKey (Some (session_device entry)) in
  map_set m (sessionKey peerId (Some deviceKey))
    (mk_session peerId deviceKey (session_name entry) (session_transport entry)
       (session_info entry) (session_handle entry)).

Definition table_delete (m : table) (peerId : string) (deviceKey : option string) : table :=
  map_delete m (sessionKey peerId deviceKey).

Definition table_values (m : table) : list session := map snd m.

Definition forPeer (m : table) (peerId : string) : list session :=
  base.filter (fun entry => session_peer entry = peerId) (table_values m).

Definition hasAny (m : table) (peerId : string) : bool := Nat.ltb 0 (length (forPeer m peerId)).

(** [[...new Set(ids)]]: the first occurrence of each. *)
Fixpoint unique_strings (l seen : list string) : list string :=
  match l with
  | [] => []
  | x :: rest => if includes seen x then unique_strings rest seen
                 else x :: unique_strings rest (x :: seen)
  end.

Definition peerIds (m : table) : list string :=
  unique_strings (map session_peer (table_values m)) [].

Record listed_device := mk_listed_device {
  listed_id : string; listed_name : string; listed_transport : string
}.

Definition deviceListOfSessions (sessions : list session) : list listed_device :=
  map (fun entry =>
         mk_listed_device (normalizeDeviceKey (Some (session_device entry))) (session_name entry)
           (match truthy_str (session_transport entry) with
            | Some t => t
            | None => default "relay" (truthy_str (info_transport (session_info entry)))
            end))
      sessions.

Definition aggregatePeerInfo (sessions : list session) : option (peer_info * list listed_device) :=
  match sessions with
  | [] => None
  | primary :: _ => Some (session_info primary, deviceListOfSessions sessions)
  end.

Definition devices (m : table) (peerId : string) : list listed_device :=
  deviceListOfSessions (forPeer m peerId).

Definition peerInfos (m : table) : list (peer_info * list listed_device) :=
  omap (fun id => aggregatePeerInfo (forPeer m id)) (peerIds m).

(** ** Tunnels ([index.js])

    [open] holds the sessions that are not closed, each with the peer id and device key its
    [onClose] callback was created with. *)

Inductive bus_event :=
| PeerConnected (id : string)
| PeerDisconnected (id reason : string)
| PeerDevices (id : string)
| PeerListSync.

Record runtime := mk_runtime {
  sessions : table;
  open_tunnels : list (nat * (string * string));
  emitted : list bus_event
}.

#[export] Instance runtime_rebuild : Rebuild runtime := fun r =>
  mk_runtime (sessions r) (open_tunnels r) (emitted r).

Definition emit (r : runtime) (events : list bus_event) : runtime :=
  r <| emitted := emitted r ++ events |>.

Definition forgetSession (r : runtime) (peerId deviceKey reason : string) : runtime :=
  if negb (table_has (sessions r) peerId (Some deviceKey)) then r
  else
    let r1 := r <| sessions := table_delete (sessions r) peerId (Some deviceKey) |> in
    let remaining := forPeer (sessions r1) peerId in
    emit r1 ([PeerDevices peerId]
             ++ (if bool_decide (remaining = []) then [PeerDisconnected peerId reason] else [])
             ++ [PeerListSync]).

Fixpoint tunnel_of (l : list (nat * (string * string))) (h : nat) : option (string * string) :=
  match l with
  | [] => None
  | (h', who) :: rest => if Nat.eqb h' h then Some who else tunnel_of rest h
  end.

(** [PeerSession.close(reason)]: once; the callback is [attachTunnel]'s [onClose]. *)
Definition close_tunnel (r : runtime) (h : nat) (reason : string) : runtime :=
  match tunnel_of (open_tunnels r) h with
  | None => r
  | Some (peerId, key) =>
      forgetSession (r <| open_tunnels := base.filter (fun t => t.1 <> h) (open_tunnels r) |>)
        peerId key reason
  end.

(** Which of two legs to the same device is kept. *)
Definition preferred_direction (own other : string) : string :=
  if str_ltb own other then "outbound" else "inbound".

(** What [attachTunnel] resolves to: the aggregated info, or the [info] of the session it kept. *)
Inductive attached :=
| Aggregated (info : option (peer_info * list listed_device))
| KeptInfo (info : peer_info).

(** [attachTunnel] once the handshake is done: [peerId] and [deviceKey] are its arguments,
    [info] and the open session [h] what the handshake produced. *)
Definition attachTunnel (own : string) (r0 : runtime) (peerId : string) (deviceKey : option string)
    (deviceName : string) (info : peer_info) (h : nat)
    : runtime * res attached :=
  let key := normalizeDeviceKey deviceKey in
  let r := r0 <| open_tunnels := open_tunnels r0 ++ [(h, (peerId, key))] |> in
  if bool_decide (info_id info = own) then
    (close_tunnel r h "refusing to connect to self", Err "refusing to connect to self")
  else
    let attach (r : runtime) :=
      let first := negb (hasAny (sessions r) (info_id info)) in
      let transport := Some (default "relay" (truthy_str (info_transport info))) in
      let table := table_set (sessions r) (mk_session (info_id info) key deviceName transport info h) in
      let aggregated := aggregatePeerInfo (forPeer table (info_id info)) in
      (emit (r <| sessions := table |>)
         ((if first then [PeerConnected (info_id info)] else [])
          ++ [PeerDevices (info_id info); PeerListSync]),
       Ok (Aggregated aggregated)) in
    match table_get (sessions r) (info_id info) (Some key) with
    | Some existing =>
        if bool_decide (info_direction info = preferred_direction own (info_id info)) then
          attach (close_tunnel r (session_handle existing) "replaced by preferred relay leg")
        else
          let r1 := close_tunnel r h "duplicate" in
          (r1, Ok (match aggregatePeerInfo (forPeer (sessions r1) (info_id info)) with
                   | Some info => Aggregated (Some info)
                   | None => KeptInfo (session_info existing)
                   end))
    | None => attach r
    end.

(** ** Device key lemmas *)

Lemma device_char_not c : is_device_char c = true ->
  is_js_space c = false /\ c <> "/"%char /\ c <> "031"%char.
Proof.
  intros H. assert (forallb (fun n => let c := Ascii.ascii_of_nat n in
     implb (is_device_char c) (negb (is_js_space c) && negb (Ascii.eqb c "/") && negb (Ascii.eqb c "031")))
     (seq 0 256) = true) as E by (vm_compute; reflexivity).
  rewrite forallb_forall in E. specialize (E (Ascii.nat_of_ascii c)).
  rewrite in_seq in E. specialize (E (conj (Nat.le_0_l _) (Ascii.nat_ascii_bounded c))).
  cbv zeta in E. rewrite Ascii.ascii_nat_embedding, H in E. cbn [implb] in E.
  bool_cases. repeat split; [done| |]; by apply Ascii.eqb_neq.
Qed.

(** A device key as the code stores it. *)
Definition device_key (k : string) : Prop :=
  k = LEGACY_DEVICE_KEY \/ k = DIRECT_DEVICE_KEY \/ DEVICE_ID_RE k = true.

Lemma normalizeDeviceKey_ok v : device_key (normalizeDeviceKey v).
Proof. unfold normalizeDeviceKey, device_key. repeat case_match; bool_cases; auto. Qed.

Lemma device_key_chars k : device_key k -> string_forallb is_device_char k = true.
Proof. intros [-> | [-> | H]]; [done|done|]. unfold DEVICE_ID_RE in H. by bool_cases. Qed.

Lemma trim_device_key k : device_key k -> trim k = k.
Proof.
  intros H%device_key_chars. unfold trim.
  assert (string_forallb (fun c => negb (is_js_space c)) k = true) as Hk.
  { eapply string_forallb_impl; [|exact H]. intros c Hc. by destruct (device_char_not c Hc) as [-> _]. }
  by rewrite trim_start_id, trim_end_id.
Qed.

Lemma normalizeDeviceKey_fix k : device_key k -> normalizeDeviceKey (Some k) = k.
Proof.
  intros Hk. unfold normalizeDeviceKey. cbn [default from_option id]. rewrite trim_device_key by done.
  destruct Hk as [-> | [-> | H]]; [done|done|].
  repeat case_match; bool_cases; subst; try done; congruence.
Qed.

Lemma append_sep_inj sep p1 p2 k1 k2 :
  string_forallb (fun c => negb (Ascii.eqb c sep)) k1 = true ->
  string_forallb (fun c => negb (Ascii.eqb c sep)) k2 = true ->
  p1 +:+ String sep k1 = p2 +:+ String sep k2 -> p1 = p2 /\ k1 = k2.
Proof.
  assert (forall p k, string_forallb (fun c => negb (Ascii.eqb c sep)) (p +:+ String sep k) = false) as Hn.
  { intros p k. induction p; simpl; [by rewrite Ascii.eqb_refl|]. rewrite IHp. apply andb_false_r. }
  intros H1 H2. revert p2. induction p1 as [|c p1 IH]; intros [|c' p2] E; simpl in E.
  - naive_solver.
  - injection E as <- ->. by rewrite Hn in H1.
  - injection E as -> <-. by rewrite Hn in H2.
  - injection E as <- E. apply IH in E as [<- ?]. done.
Qed.

Lemma device_key_no sep k : (forall c, is_device_char c = true -> c <> sep) -> device_key k ->
  string_forallb (fun c => negb (Ascii.eqb c sep)) k = true.
Proof.
  intros Hs Hk%device_key_chars. eapply string_forallb_impl; [|exact Hk].
  intros c Hc. apply negb_true_iff, Ascii.eqb_neq. auto.
Qed.

Lemma openerToken_inj p k p' k' : openerToken p k = openerToken p' k' ->
  p = p' /\ normalizeDeviceKey k = normalizeDeviceKey k'.
Proof.
  apply append_sep_inj; apply device_key_no; try apply normalizeDeviceKey_ok;
    intros; by apply device_char_not.
Qed.

Lemma sessionKey_inj p k p' k' : sessionKey p k = sessionKey p' k' <->
  p = p' /\ normalizeDeviceKey k = normalizeDeviceKey k'.
Proof.
  split; [|unfold sessionKey; intros [-> ->]; done].
  apply append_sep_inj; apply device_key_no; try apply normalizeDeviceKey_ok;
    intros; by apply device_char_not.
Qed.

(** ** The table as a finite map *)

Definition session_pair (e : session) : string * string := (session_peer e, session_device e).

(** Keys are unique and belong to their entries, whose device keys are normal. *)
Definition table_wf (m : table) : Prop :=
  NoDup (map fst m) /\
  Forall (fun kv => device_key (session_device kv.2) /\
                    kv.1 = sessionKey (session_peer kv.2) (Some (session_device kv.2))) m.

Definition table_map (m : table) : gmap (string * string) session :=
  list_to_map (map (fun kv => (session_pair kv.2, kv.2)) m).

Lemma pair_key m k e : table_wf m -> (k, e) ∈ m ->
  k = sessionKey (session_peer e) (Some (session_device e)) /\ device_key (session_device e).
Proof. intros [_ H] Hin. rewrite Forall_forall in H. destruct (H _ Hin). done. Qed.

Lemma table_wf_cons k e m : table_wf ((k, e) :: m) <->
  k ∉ map fst m /\ device_key (session_device e) /\
  k = sessionKey (session_peer e) (Some (session_device e)) /\ table_wf m.
Proof. unfold table_wf. simpl. rewrite NoDup_cons, Forall_cons. simpl. tauto. Qed.

Lemma map_get_table_map m p k : table_wf m -> device_key k ->
  map_get m (sessionKey p (Some k)) = table_map m !! (p, k).
Proof.
  unfold table_map. intros Hwf Hk. induction m as [|[k' e] m IH]; simpl; [by rewrite lookup_empty|].
  apply table_wf_cons in Hwf as (_ & He & -> & Hwf). rewrite IH by done.
  case_bool_decide as Hb.
  - apply sessionKey_inj in Hb as [<- E]. rewrite !normalizeDeviceKey_fix in E by done. subst k.
    by rewrite lookup_insert_eq.
  - rewrite lookup_insert_ne; [done|]. unfold session_pair. intros E. simplify_eq.
Qed.

Lemma map_get_None m k : map_get m k = None <-> k ∉ map fst m.
Proof.
  induction m as [|[k' e] m IH]; simpl; [set_solver|].
  case_bool_decide; rewrite not_elem_of_cons; [naive_solver|rewrite IH; naive_solver].
Qed.

Lemma map_set_fst m k v x : x ∈ map fst (map_set m k v) <-> x = k \/ x ∈ map fst m.
Proof.
  induction m as [|[k' e] m IH]; simpl; [set_solver|].
  case_bool_decide; simpl; rewrite !elem_of_cons; [naive_solver|rewrite IH; naive_solver].
Qed.

Lemma map_set_wf m e : table_wf m -> device_key (session_device e) ->
  table_wf (map_set m (sessionKey (session_peer e) (Some (session_device e))) e) /\
  table_map (map_set m (sessionKey (session_peer e) (Some (session_device e))) e) =
    <[session_pair e := e]> (table_map m).
Proof.
  intros Hwf He. unfold table_map. induction m as [|[k' e'] m IH]; simpl.
  { split; [|done]. split; simpl; [apply NoDup_singleton | by apply Forall_singleton]. }
  apply table_wf_cons in Hwf as (Hn & He' & -> & Hwf). specialize (IH Hwf) as [IH1 IH2].
  case_bool_decide as Hb.
  - apply sessionKey_inj in Hb as [E1 E2]. rewrite !normalizeDeviceKey_fix in E2 by done. split.
    + apply table_wf_cons. rewrite E1, E2 in Hn |- *. done.
    + simpl. unfold session_pair. rewrite E1, E2. by rewrite insert_insert_eq.
  - split.
    + apply table_wf_cons. rewrite map_set_fst. split_and!; auto. intros [?|?]; auto.
    + simpl. rewrite IH2. apply insert_insert_ne. unfold session_pair. intros [= E1 E2]. congruence.
Qed.

Lemma map_delete_wf m p k : table_wf m -> device_key k ->
  table_wf (map_delete m (sessionKey p (Some k))) /\
  table_map (map_delete m (sessionKey p (Some k))) = delete (p, k) (table_map m).
Proof.
  intros Hwf Hk. unfold table_map, map_delete. induction m as [|[k' e'] m IH]; simpl.
  { split; [|by rewrite delete_empty]. split; constructor. }
  apply table_wf_cons in Hwf as (Hn & He' & -> & Hwf). specialize (IH Hwf) as [IH1 IH2].
  rewrite filter_cons. case_decide as Hb; simpl in Hb.
  - split.
    + apply table_wf_cons. split_and!; auto. intros Hin. apply Hn.
      apply list_elem_of_fmap in Hin as ([? ?] & -> & Hin).
      apply list_elem_of_filter in Hin as [_ Hin]. apply list_elem_of_fmap. eauto.
    + simpl. rewrite IH2, delete_insert_ne; [done|]. unfold session_pair. intros E. simplify_eq.
  - apply sessionKey_inj in Hb as [E1 E2].
    rewrite !normalizeDeviceKey_fix in E2 by done. split; [done|].
    rewrite IH2. simpl. replace (session_pair e') with (p, k) by (unfold session_pair; congruence). by rewrite delete_insert_eq.
Qed.

Lemma table_map_pair m pk e : table_wf m -> table_map m !! pk = Some e -> session_pair e = pk.
Proof.
  intros Hwf H. unfold table_map in H. apply elem_of_list_to_map_2 in H.
  apply list_elem_of_fmap in H as ([k e'] & E & _). by simplify_eq/=.
Qed.

Lemma table_map_values m e : table_wf m ->
  e ∈ table_values m <-> table_map m !! session_pair e = Some e.
Proof.
  intros Hwf. unfold table_values. split.
  - induction m as [|[k e'] m IH]; simpl; [set_solver|].
    pose proof Hwf as Hwf'. apply table_wf_cons in Hwf as (Hn & He & -> & Hwf).
    intros [->|H]%elem_of_cons; unfold table_map; simpl; [by rewrite lookup_insert_eq|].
    rewrite lookup_insert_ne; [by apply IH|]. intros E. apply Hn.
    apply list_elem_of_fmap in H as ([k e''] & -> & H). apply list_elem_of_fmap.
    exists (k, e''). split; [|done]. apply pair_key in H as [-> _]; [|done]. simpl in *.
    unfold session_pair in E. by injection E as -> ->.
  - intros H. apply elem_of_list_to_map_2 in H. apply list_elem_of_fmap in H as ([k e'] & E & H).
    simplify_eq/=. apply list_elem_of_fmap. by eexists (_, _).
Qed.

Lemma forPeer_spec m p e : table_wf m ->
  e ∈ forPeer m p <-> exists k, table_map m !! (p, k) = Some e.
Proof.
  intros Hwf. unfold forPeer. rewrite list_elem_of_filter, table_map_values by done. split.
  - intros [<- H]. by exists (session_device e).
  - intros [k H]. pose proof (table_map_pair _ _ _ Hwf H) as E. rewrite E.
    unfold session_pair in E. by injection E as -> _.
Qed.

Definition normal_entry (e : session) : session :=
  mk_session (session_peer e) (normalizeDeviceKey (Some (session_device e))) (session_name e)
    (session_transport e) (session_info e) (session_handle e).

(** C34: the session table, an insertion-ordered map under string keys, implements a finite
    map from (peer, device) pairs to sessions: lookups, insertions, deletions and the listing
    of a peer's sessions act on the pair after normalising the device key, and two pairs
    never collide in one string key. *)
Theorem session_table_refines m : table_wf m ->
  (forall p k, table_get m p k = table_map m !! (p, normalizeDeviceKey k)) /\
  (forall e, session_peer e <> "" ->
     table_wf (table_set m e) /\
     table_map (table_set m e) = <[session_pair (normal_entry e) := normal_entry e]> (table_map m)) /\
  (forall p k, table_wf (table_delete m p k) /\
     table_map (table_delete m p k) = delete (p, normalizeDeviceKey k) (table_map m)) /\
  (forall p e, e ∈ forPeer m p <-> exists k, table_map m !! (p, k) = Some e).
Proof.
  intros Hwf. assert (forall p k, sessionKey p k = sessionKey p (Some (normalizeDeviceKey k))) as Hs.
  { intros p k. apply sessionKey_inj. by rewrite (normalizeDeviceKey_fix _ (normalizeDeviceKey_ok k)). }
  split_and!.
  - intros p k. unfold table_get. rewrite Hs. apply map_get_table_map; [done|apply normalizeDeviceKey_ok].
  - intros e He. unfold table_set. rewrite bool_decide_eq_false_2 by done.
    apply (map_set_wf m (normal_entry e) Hwf). apply normalizeDeviceKey_ok.
  - intros p k. unfold table_delete. rewrite Hs. apply map_delete_wf; [done|apply normalizeDeviceKey_ok].
  - intros p e. by apply forPeer_spec.
Qed.

Lemma session_table_refines_witness :
  let info := mk_peer_info "bob" "Bob" "outbound" None in
  let m := table_set [] (mk_session "bob" " phone-0001 " "Phone" None info 0) in
  table_get m "bob" (Some "phone-0001") = table_map m !! ("bob", "phone-0001").
Proof.
  intros info m.
  assert (table_wf m) as Hwf.
  { split; [apply (bool_decide_unpack _); vm_compute; exact I|].
    apply Forall_singleton. split; [right; right; reflexivity | reflexivity]. }
  exact (proj1 (session_table_refines m Hwf) "bob" (Some "phone-0001")).
Defined.

(** Of two distinct signed-in devices exactly one opens the relay tunnel: for any two
    different peers and whatever their device keys, one side's rule says open exactly when
    the other side's says wait. *)
Theorem one_side_opens ours theirs k k' :
  ours <> "" -> theirs <> "" -> ours <> theirs ->
  shouldOpenTunnel ours k theirs k' = negb (shouldOpenTunnel theirs k' ours k).
Proof.
  intros Ho Ht Hne. unfold shouldOpenTunnel.
  rewrite !bool_decide_eq_false_2 by congruence. simpl. apply str_ltb_antisym.
  intros [-> _]%openerToken_inj. done.
Qed.

Lemma one_side_opens_witness :
  shouldOpenTunnel "a/b" (Some "") "a" (Some "b/legacy") =
  negb (shouldOpenTunnel "a" (Some "b/legacy") "a/b" (Some "")).
Proof. apply (one_side_opens "a/b" "a"); discriminate. Defined.

(** ** Device lists *)

Lemma parse_devices_spec raw : forall seen,
  NoDup (map device_id (parse_devices raw seen)) /\
  Forall (fun d => device_key (device_id d) /\ (device_id d ∉ seen)) (parse_devices raw seen).
Proof.
  induction raw as [|item raw IH]; intros seen; simpl; [split; constructor|].
  case_match; [apply IH|].
  destruct (includes seen _) eqn:Hs; [apply IH|]. apply bool_decide_eq_false_1 in Hs. simpl.
  destruct (IH (normalizeDeviceKey (Some (item_id item)) :: seen)) as [Hn Hf]. split.
  - constructor; [|done]. intros Hin. apply list_elem_of_fmap in Hin as (d & E & Hd).
    rewrite Forall_forall in Hf. destruct (Hf d Hd) as [_ Hd']. set_solver.
  - constructor; [split; [apply normalizeDeviceKey_ok|done]|].
    eapply Forall_impl; [exact Hf|]. simpl. intros d [? Hd]. split; [done|set_solver].
Qed.

(** The device list taken from a peer's presence message has no duplicate and only
    normal device keys, and an online peer always has at least one device to connect to. *)
Theorem presence_devices_ok online items :
  let ds := remoteDevicesFromPresence online items in
  NoDup (map device_id ds) /\ Forall (fun d => normalizeDeviceKey (Some (device_id d)) = device_id d) ds /\
  (ds = [] <-> online = false).
Proof.
  assert (forall l, NoDup (map device_id (parse_devices l [])) /\
     Forall (fun d => normalizeDeviceKey (Some (device_id d)) = device_id d) (parse_devices l [])) as Hp.
  { intros l. destruct (parse_devices_spec l []) as [Hn Hf]. split; [done|].
    eapply Forall_impl; [exact Hf|]. intros d [Hd _]. by apply normalizeDeviceKey_fix. }
  assert (NoDup (map device_id [mk_device LEGACY_DEVICE_KEY ""]) /\
     Forall (fun d => normalizeDeviceKey (Some (device_id d)) = device_id d)
       [mk_device LEGACY_DEVICE_KEY ""]) as Hl.
  { split; [apply NoDup_singleton | by apply Forall_singleton]. }
  unfold remoteDevicesFromPresence, parseDeviceList. cbv zeta.
  destruct online; simpl; [|by repeat constructor].
  destruct items as [[|i items]|]; simpl; try (split_and!; try apply Hl; done).
  pose proof (Hp (i :: items)) as Hp'. simpl in Hp'.
  destruct (parse_devices (i :: items) []) eqn:E; simpl in E; rewrite E in *.
  - split_and!; try apply Hl; done.
  - split_and!; try apply Hp'; done.
Qed.

(** ** Tunnels *)

(** Every listed session is open, under the name its close callback will remove. *)
Definition consistent (r : runtime) : Prop :=
  table_wf (sessions r) /\
  (forall pk e, table_map (sessions r) !! pk = Some e ->
     tunnel_of (open_tunnels r) (session_handle e) = Some pk) /\
  (forall h p k, tunnel_of (open_tunnels r) h = Some (p, k) -> device_key k).

Lemma tunnel_of_filter l h h' :
  tunnel_of (base.filter (fun t => t.1 <> h) l) h' = if decide (h' = h) then None else tunnel_of l h'.
Proof.
  induction l as [|[i who] l IH]; simpl; [by case_decide|].
  rewrite filter_cons. simpl. destruct (decide (i <> h)) as [Hi|Hi]; simpl; rewrite IH.
  - destruct (Nat.eqb_spec i h'), (decide (h' = h)); congruence.
  - apply dec_stable in Hi as ->. destruct (Nat.eqb_spec h h'), (decide (h' = h)); congruence.
Qed.

Lemma tunnel_of_app l h who h' :
  tunnel_of (l ++ [(h, who)]) h' =
  match tunnel_of l h' with Some w => Some w | None => if Nat.eqb h h' then Some who else None end.
Proof. induction l as [|[i w] l IH]; simpl; [done|]. by destruct (Nat.eqb i h'). Qed.

Lemma forget_spec r p k reason : table_wf (sessions r) -> device_key k ->
  let r' := forgetSession r p k reason in
  table_wf (sessions r') /\ table_map (sessions r') = delete (p, k) (table_map (sessions r)) /\
  open_tunnels r' = open_tunnels r.
Proof.
  intros Hwf Hk. unfold forgetSession, table_has, table_get.
  destruct (map_delete_wf (sessions r) p k Hwf Hk) as [Hd Hm].
  rewrite map_get_table_map by done.
  destruct (table_map (sessions r) !! (p, k)) eqn:E; simpl.
  - unfold table_delete. done.
  - split_and!; [done|by rewrite delete_id|done].
Qed.

Lemma close_spec r h reason : consistent r ->
  let r' := close_tunnel r h reason in
  consistent r' /\
  (forall h', tunnel_of (open_tunnels r') h' = if decide (h' = h) then None else tunnel_of (open_tunnels r) h') /\
  table_map (sessions r') =
    (match tunnel_of (open_tunnels r) h with
     | Some pk => delete pk (table_map (sessions r)) | None => table_map (sessions r) end).
Proof.
  intros (Hwf & Hm & Hk). unfold close_tunnel. destruct (tunnel_of (open_tunnels r) h) as [[p k]|] eqn:E.
  - destruct (forget_spec (r <| open_tunnels := base.filter (fun t => t.1 <> h) (open_tunnels r) |>) p k reason)
      as (Hwf' & Hm' & Ho); [done|by eapply Hk|]. simpl in *.
    set (r' := forgetSession _ _ _ _) in *. cbv zeta. rewrite Ho.
    split_and!; [|intros; apply tunnel_of_filter|done].
    split; [done|]. rewrite Hm', Ho. split.
    + intros pk e [Hne Hl]%lookup_delete_Some. rewrite tunnel_of_filter.
      apply Hm in Hl as Ht. destruct (decide _); [congruence|done].
    + intros h' p' k'. rewrite tunnel_of_filter. case_decide; [done|apply Hk].
  - cbv zeta. split_and!; [done| |done]. intros h'. by case_decide; subst.
Qed.

Lemma attach_consistent own r p dk name info h :
  consistent r -> tunnel_of (open_tunnels r) h = None -> info_id info = p -> p <> "" ->
  consistent (attachTunnel own r p dk name info h).1.
Proof.
  intros Hc Hh <- Hne. unfold attachTunnel.
  set (key := normalizeDeviceKey dk).
  assert (device_key key) as Hkey by apply normalizeDeviceKey_ok.
  set (r1 := r <| open_tunnels := open_tunnels r ++ [(h, (info_id info, key))] |>).
  assert (consistent r1 /\ tunnel_of (open_tunnels r1) h = Some (info_id info, key)) as [Hc1 Hh1].
  { destruct Hc as (Hwf & Hm & Hk). split; [split; [done|split]|]; simpl.
    - intros pk e He. rewrite tunnel_of_app. by rewrite (Hm pk e He).
    - intros h' p k. rewrite tunnel_of_app. destruct (tunnel_of _ h') eqn:E; [naive_solver|].
      destruct (Nat.eqb h h'); [naive_solver|done].
    - rewrite tunnel_of_app, Hh. by rewrite Nat.eqb_refl. }
  case_bool_decide as Hself; [by apply close_spec|].
  assert (forall r2, consistent r2 -> tunnel_of (open_tunnels r2) h = Some (info_id info, key) ->
     forall tr ev, consistent (emit (r2 <| sessions := table_set (sessions r2)
        (mk_session (info_id info) key name tr info h) |>) ev)) as Hatt.
  { intros r2 (Hwf & Hm & Hk) Ht tr ev. unfold emit; simpl.
    destruct (map_set_wf (sessions r2) (mk_session (info_id info) key name tr info h)) as [Hw He]; [done|done|].
    unfold table_set, consistent. simpl. rewrite bool_decide_eq_false_2 by done.
    rewrite (normalizeDeviceKey_fix key) by done. simpl in Hw, He.
    split_and!; [done| |done].
    rewrite He. intros pk e [[<- <-]|[_ Hl]]%lookup_insert_Some; [done|by apply Hm]. }
  destruct (table_get (sessions r1) (info_id info) (Some key)) as [ex|] eqn:Eg; [|by apply Hatt].
  case_bool_decide; [|by apply close_spec].
  apply Hatt; [by apply close_spec|].
  destruct (close_spec r1 (session_handle ex) "replaced by preferred relay leg" Hc1) as (_ & Ho & _).
  rewrite Ho. case_decide as Eh; [|done]. exfalso.
  unfold table_get in Eg. rewrite map_get_table_map in Eg by (done || apply Hc1).
  destruct Hc as (_ & Hm & _). apply Hm in Eg. simpl in Eg. congruence.
Qed.

(** The tunnel life cycle: handshakes that finish and sessions that close, in any order.
    The tunnel's peer id is the one the handshake authenticated. *)
Inductive tunnels_reach (own : string) : runtime -> Prop :=
| reach_start : tunnels_reach own (mk_runtime [] [] [])
| reach_attach r p dk name info h :
    tunnels_reach own r -> tunnel_of (open_tunnels r) h = None -> info_id info = p -> p <> "" ->
    tunnels_reach own (attachTunnel own r p dk name info h).1
| reach_close r h reason :
    tunnels_reach own r -> tunnels_reach own (close_tunnel r h reason).

(** Every session the table lists is open: after any interleaving of finished
    handshakes (duplicates and legs to oneself included) and closes, a listed session is an
    open tunnel whose close callback removes exactly that entry, and a (peer, device)
    pair is listed at most once. *)
Theorem listed_sessions_are_open own r : tunnels_reach own r ->
  (forall e, e ∈ table_values (sessions r) ->
     tunnel_of (open_tunnels r) (session_handle e) = Some (session_peer e, session_device e)) /\
  NoDup (map session_pair (table_values (sessions r))).
Proof.
  intros Hr. assert (consistent r) as (Hwf & Hm & _).
  { induction Hr as [|r p dk name info h Hr IH Hh Hp Hne|r h reason Hr IH].
    - split_and!; [split; constructor| |done]. intros pk e. unfold table_map. simpl.
      by rewrite lookup_empty.
    - by apply attach_consistent.
    - by apply close_spec. }
  split.
  - intros e He. by apply (Hm (session_pair e)), table_map_values.
  - unfold table_values. rewrite map_map. clear Hm. induction (sessions r) as [|[k e] m IH]; [constructor|].
    apply table_wf_cons in Hwf as (Hn & He & -> & Hwf). simpl. constructor; [|by apply IH].
    intros Hin. apply Hn. apply list_elem_of_fmap in Hin as ([k e'] & E & Hin). simpl in E.
    apply list_elem_of_fmap. exists (k, e'). split; [|done]. simpl.
    apply pair_key in Hin as [-> _]; [|done]. unfold session_pair in E. by injection E as -> ->.
Qed.

Lemma listed_sessions_are_open_witness :
  let info dir := mk_peer_info "bob" "Bob" dir None in
  let r := (attachTunnel "alice" (mk_runtime [] [] []) "bob" None "" (info "outbound") 1).1 in
  length (table_values (sessions r)) = 1%nat /\
  Forall (fun e => tunnel_of (open_tunnels r) (session_handle e) = Some (session_peer e, session_device e))
    (table_values (sessions r)).
Proof.
  intros info r. split; [vm_compute; reflexivity|]. apply Forall_forall.
  refine (proj1 (listed_sessions_are_open "alice" r _)).
  apply reach_attach; [apply reach_start|reflexivity|reflexivity|discriminate].
Defined.

(** Refusing a duplicate leg loses the session that was to be kept: when a second,
    non-preferred leg to a connected device finishes its handshake, closing it runs its
    close callback, which removes the entry of the first session; the first session stays
    open but is no longer listed, so nothing can be sent over it. *)
Theorem duplicate_leg_unlists_live_session own r dk name info h existing :
  consistent r -> tunnel_of (open_tunnels r) h = None -> info_id info <> own ->
  table_get (sessions r) (info_id info) dk = Some existing ->
  info_direction info <> preferred_direction own (info_id info) ->
  let r' := (attachTunnel own r (info_id info) dk name info h).1 in
  tunnel_of (open_tunnels r') (session_handle existing) = Some (info_id info, normalizeDeviceKey dk) /\
  table_get (sessions r') (info_id info) dk = None.
Proof.
  intros Hc Hh Hne Hg Hd. unfold attachTunnel. rewrite (bool_decide_eq_false_2 _ Hne).
  assert (Hkey : device_key (normalizeDeviceKey dk)) by apply normalizeDeviceKey_ok.
  assert (forall m, table_get m (info_id info) dk = table_get m (info_id info) (Some (normalizeDeviceKey dk)))
    as Hs.
  { intros m. unfold table_get. f_equal. apply sessionKey_inj. by rewrite normalizeDeviceKey_fix. }
  rewrite Hs in Hg. simpl. rewrite Hg, (bool_decide_eq_false_2 _ Hd). simpl.
  destruct Hc as (Hwf & Hm & Hk).
  unfold table_get in Hg. rewrite map_get_table_map in Hg by done. apply Hm in Hg as Hopen.
  unfold close_tunnel. simpl. rewrite tunnel_of_app, Hh, Nat.eqb_refl.
  match goal with |- context [forgetSession ?r1 _ _ _] =>
    destruct (forget_spec r1 (info_id info) (normalizeDeviceKey dk) "duplicate") as (Hw & Hmap & Ho);
    [done|done|] end.
  rewrite Ho. simpl in *. split.
  - rewrite tunnel_of_filter, tunnel_of_app, Hopen. rewrite decide_False; [done|]. congruence.
  - rewrite Hs. unfold table_get. rewrite map_get_table_map, Hmap by done. by rewrite lookup_delete_eq.
Qed.

Lemma duplicate_leg_unlists_live_session_witness :
  let info dir := mk_peer_info "bob" "Bob" dir None in
  let r := (attachTunnel "alice" (mk_runtime [] [] []) "bob" None "" (info "outbound") 1).1 in
  let r' := (attachTunnel "alice" r "bob" None "" (info "inbound") 2).1 in
  tunnel_of (open_tunnels r') 1 = Some ("bob", "legacy") /\ table_get (sessions r') "bob" None = None.
Proof.
  intros info r r'.
  refine (duplicate_leg_unlists_live_session "alice" r None "" (info "inbound") 2
    (mk_session "bob" "legacy" "" (Some "relay") (info "outbound") 1) _ eq_refl _ eq_refl _).
  - apply attach_consistent; [|reflexivity|reflexivity|discriminate].
    split_and!; [split; constructor| |discriminate]. discriminate.
  - discriminate.
  - discriminate.
Defined.
