(* ===== verification/CallState.v ===== *)
(** * The call state machine ([src/renderer/calls/callState.js]) *)

From S2P Require Import Prelude.

(** ** Codecs and devices ([videoCaps.js], [callDevices.js]) *)

Definition VIDEO_CODEC_VP8 : string := "vp8".
Definition VIDEO_CODEC_AVC1 : string := "avc1".

Definition pickVideoCodec (localList remoteList : list string) : option string :=
  let has (l : list string) (name : string) :=
    existsb (fun item => starts_with name (lower item)) l in
  if has localList "vp8" && has remoteList "vp8" then Some VIDEO_CODEC_VP8
  else if has localList "avc1" && has remoteList "avc1" then Some VIDEO_CODEC_AVC1
  else None.

(** One iteration of the loop of [normalizeCapabilityList]. *)
Definition push_capability (out : list string) (item : string) : list string :=
  let value := lower item in
  if starts_with "vp8" value && negb (includes out VIDEO_CODEC_VP8)
  then out ++ [VIDEO_CODEC_VP8]
  else if starts_with "avc1" value && negb (includes out VIDEO_CODEC_AVC1)
  then out ++ [VIDEO_CODEC_AVC1]
  else out.

Definition normalizeCapabilityList (items : list string) : list string :=
  fold_left push_capability items [].

(** An entry of [uniqueDevices]'s input that is not a string counts as [None]. *)
Definition push_device (out : list string) (id : option string) : list string :=
  let key := match id with Some s => trim s | None => "" end in
  if negb (bool_decide (key = "")) && negb (includes out key) then out ++ [key] else out.

Definition uniqueDevices (ids : list (option string)) : list string :=
  fold_left push_device ids [].

Definition shouldDropBoundMessage (remoteDevice fromDevice : option string) : bool :=
  match truthy_str remoteDevice, truthy_str fromDevice with
  | Some r, Some f => negb (bool_decide (f = r))
  | _, _ => false
  end.

Record busy_verdict := {
  bv_ringing : list string;
  bv_busy : list string;
  bv_endBusy : bool;
}.

Definition applyRemoteBusy (ringingDevices busyDevices : list string)
    (fromDevice : option string) : busy_verdict :=
  let ringing := uniqueDevices (map Some ringingDevices) in
  match truthy_str fromDevice with
  | None =>
      {| bv_ringing := ringing; bv_busy := uniqueDevices (map Some busyDevices);
         bv_endBusy := true |}
  | Some d =>
      let busy := uniqueDevices (map Some busyDevices ++ [Some d]) in
      let waiting := List.filter (fun id => negb (includes busy id)) ringing in
      {| bv_ringing := ringing; bv_busy := busy;
         bv_endBusy := Nat.ltb 0 (length ringing) && Nat.eqb (length waiting) 0 |}
  end.

Definition devicesToCancel (ringingDevices : list string) (exceptDevice : option string)
  : list string :=
  List.filter (fun id => negb (bool_decide (Some id = exceptDevice)))
    (uniqueDevices (map Some ringingDevices)).

Definition isAnsweredElsewhere (reason : option string) : bool :=
  bool_decide (reason = Some "answered-elsewhere").

(** ** States, events, effects *)

Inductive phase := Idle | Outgoing | Incoming | Active.
Inductive role := Caller | Callee.

#[export] Instance phase_eq_dec : EqDecision phase.
Proof. solve_decision. Defined.
#[export] Instance role_eq_dec : EqDecision role.
Proof. solve_decision. Defined.

(** [{ video, screen }]; [cap_screen = None] is a missing field. *)
Record capabilities := mkCaps { cap_video : list string; cap_screen : option bool }.

#[export] Instance capabilities_eq_dec : EqDecision capabilities.
Proof. solve_decision. Defined.

Definition no_caps : capabilities := mkCaps [] (Some false).

Record call_state := mkCall {
  cs_phase : phase;
  cs_callId : option string;
  cs_peerId : option string;
  cs_role : option role;
  cs_callKeyB64 : option string;
  cs_codecs : list string;
  cs_codec : option string;
  cs_muted : bool;
  cs_ringingAt : Z;
  cs_connectedAt : Z;
  cs_rttMs : option Z;
  cs_lastHeardAt : Z;
  cs_peerRinging : bool;
  cs_remoteDevice : option string;
  cs_ringingDevices : list string;
  cs_busyDevices : list string;
  cs_mediaVideo : bool;
  cs_capabilities : capabilities;
  cs_remoteCapabilities : capabilities;
  cs_videoCodec : option string;
  cs_localCamera : bool;
  cs_localScreen : bool;
  cs_remoteCamera : bool;
  cs_remoteScreen : bool;
  cs_hadVideo : bool;
}.

#[export] Instance call_state_rebuild : Rebuild call_state := fun r =>
  mkCall (cs_phase r) (cs_callId r) (cs_peerId r) (cs_role r) (cs_callKeyB64 r)
    (cs_codecs r) (cs_codec r) (cs_muted r) (cs_ringingAt r) (cs_connectedAt r)
    (cs_rttMs r) (cs_lastHeardAt r) (cs_peerRinging r) (cs_remoteDevice r)
    (cs_ringingDevices r) (cs_busyDevices r) (cs_mediaVideo r) (cs_capabilities r)
    (cs_remoteCapabilities r) (cs_videoCodec r) (cs_localCamera r) (cs_localScreen r)
    (cs_remoteCamera r) (cs_remoteScreen r) (cs_hadVideo r).

Definition createIdleCallState : call_state :=
  mkCall Idle None None None (Some "") ["opus"; "pcm16"] None false 0 0 None 0 false
    None [] [] false no_caps no_caps None false false false false false.

Inductive event_type :=
  | LocalStart | RemoteOffer | RemoteRinging | LocalAccept | RemoteAccept
  | LocalReject | RemoteReject | LocalCancel | RemoteCancel | LocalEnd | RemoteEnd
  | RemoteBusy | OfferFailed | RingTimeout | ConnectionLost | ToggleMute
  | LocalCamera | LocalScreen | RemoteCamera | RemoteScreen | LocalKeyframe
  | Pong | Heard | OtherEvent.

(** An event object; [None] is a missing ([undefined] or [null]) field. *)
Record event := mkEvent {
  ev_type : event_type;
  ev_callId : option string;
  ev_peerId : option string;
  ev_now : option Z;
  ev_timestamp : option Z;            (* Number(event.timestamp), when finite *)
  ev_callKeyB64 : option string;
  ev_codecs : option (list string);
  ev_mediaVideo : bool;               (* event.media?.video === true *)
  ev_capabilities : option capabilities;
  ev_fromDevice : option string;
  ev_blocked : bool;
  ev_codec : option string;
  ev_camera : bool;                   (* event.camera === true *)
  ev_localVideoCodecs : option (list string);
  ev_reason : option string;
  ev_on : option bool;
  ev_t : option Z;                    (* Number(event.t), when finite *)
  ev_stream : option string;
}.

#[export] Instance event_rebuild : Rebuild event := fun r =>
  mkEvent (ev_type r) (ev_callId r) (ev_peerId r) (ev_now r) (ev_timestamp r)
    (ev_callKeyB64 r) (ev_codecs r) (ev_mediaVideo r) (ev_capabilities r)
    (ev_fromDevice r) (ev_blocked r) (ev_codec r) (ev_camera r) (ev_localVideoCodecs r)
    (ev_reason r) (ev_on r) (ev_t r) (ev_stream r).

(** An event with nothing but a type. *)
Definition bare_event (t : event_type) : event :=
  mkEvent t None None None None None None false None None false None false None None
    None None None.

Record signal := mkSignal {
  sg_op : string;
  sg_peerId : option string;
  sg_callId : option string;
  sg_deviceKey : option string;
  sg_codec : option string;
  sg_stream : option string;
}.

Inductive outcome := Rejected | Failed | Missed | Completed | BusyOutcome.

#[export] Instance outcome_eq_dec : EqDecision outcome.
Proof. solve_decision. Defined.

Record call_log := mkLog {
  cl_peerId : option string;
  cl_outgoing : bool;                 (* direction: 'out' or 'in' *)
  cl_outcome : outcome;
  cl_durationMs : Z;
  cl_video : bool;
}.

Inductive effect :=
  | SendOffer
  | SendSignal (s : signal)
  | CancelOtherDevices (peerId callId exceptDevice : option string)
      (ringingDevices : list string)
  | ArmRingTimeout | ArmWatchdog | StartPing | ClearTimers
  | StartRingback | StartRingtone | StopRingtone | NotifyIncoming
  | StartMedia | StopMedia
  | StartStream (stream : string)     (* 'start-camera', 'start-screen' *)
  | StopStream (stream : string)
  | ApplyMute
  | Toast (message : string)
  | CallLog (l : call_log).

Definition step_result := (call_state * list effect)%type.

(** ** The reducer *)

Section Reducer.

(** [Date.now()] at the time the event is reduced. *)
Variable clock : Z.

Definition CALL_OFFER_MAX_AGE_MS : Z := 60000.

Definition isStaleCallOffer (e : event) (now : Z) : bool :=
  match ev_timestamp e with
  | None => false
  | Some ts => if Z.leb ts 0 then false else Z.ltb CALL_OFFER_MAX_AGE_MS (now - ts)
  end.

Definition callHasVideo (st : call_state) : bool :=
  cs_localCamera st || cs_localScreen st || cs_remoteCamera st || cs_remoteScreen st.

Definition peerSupportsVideo (c : capabilities) : bool :=
  Nat.ltb 0 (length (normalizeCapabilityList (cap_video c))).

Definition ignore (st : call_state) : step_result := (st, []).

(** [event.x && event.x !== state.x]: a truthy field that differs. *)
Definition differs (field : option string) (own : option string) : bool :=
  match truthy_str field with
  | Some v => negb (bool_decide (Some v = own))
  | None => false
  end.

Definition sameCall (st : call_state) (e : event) : bool :=
  if bool_decide (cs_phase st = Idle) then false
  else if differs (ev_callId e) (cs_callId st) then false
  else if differs (ev_peerId e) (cs_peerId st) then false
  else true.

Definition idleWith (effects : list effect) : step_result :=
  (createIdleCallState, effects).

Definition offerCodecs (e : event) : list string :=
  match ev_codecs e with
  | Some (c :: cs) => c :: cs
  | _ => ["opus"; "pcm16"]
  end.

Definition offerCapabilities (e : event) : capabilities :=
  let caps := default (mkCaps [] None) (ev_capabilities e) in
  mkCaps (normalizeCapabilityList (cap_video caps))
    (Some (negb (bool_decide (cap_screen caps = Some false)) && peerSupportsVideo caps)).

(** The [extra] argument of [signalEffect]; [ex_deviceKey = None] is [undefined]. *)
Record signal_extra := mkExtra {
  ex_peerId : option string;
  ex_callId : option string;
  ex_deviceKey : option (option string);
  ex_codec : option string;
  ex_stream : option string;
}.

Definition no_extra : signal_extra := mkExtra None None None None None.

Definition nullish_or (a b : option string) : option string :=
  match a with Some _ => a | None => b end.

Definition signalEffect (st : call_state) (op : string) (extra : signal_extra) : effect :=
  let deviceKey :=
    match ex_deviceKey extra with Some k => k | None => cs_remoteDevice st end in
  SendSignal (mkSignal op
    (nullish_or (ex_peerId extra) (cs_peerId st))
    (nullish_or (ex_callId extra) (cs_callId st))
    (truthy_str deviceKey) (truthy_str (ex_codec extra)) (truthy_str (ex_stream extra))).

Definition callLogEffect (st : call_state) (o : outcome) (now : option Z) : effect :=
  let ts := or_now now clock in
  let durationMs :=
    if Z.eqb (cs_connectedAt st) 0 then 0 else Z.max 0 (ts - cs_connectedAt st) in
  CallLog (mkLog (cs_peerId st) (bool_decide (cs_role st = Some Caller)) o durationMs
    (cs_hadVideo st || callHasVideo st)).

Definition reduceLocalStart (st : call_state) (e : event) : step_result :=
  if negb (bool_decide (cs_phase st = Idle)) then (st, [])
  else
    let now := or_now (ev_now e) clock in
    (createIdleCallState
       <| cs_phase := Outgoing |> <| cs_callId := ev_callId e |>
       <| cs_peerId := ev_peerId e |> <| cs_role := Some Caller |>
       <| cs_callKeyB64 := ev_callKeyB64 e |>
       <| cs_codecs := default ["opus"; "pcm16"] (ev_codecs e) |>
       <| cs_ringingAt := now |> <| cs_lastHeardAt := now |>
       <| cs_mediaVideo := ev_mediaVideo e |>
       <| cs_capabilities := offerCapabilities e |>,
     [SendOffer; StartRingback; ArmRingTimeout]).

Definition beginIncoming (e : event) : step_result :=
  let now := or_now (ev_now e) clock in
  let remoteDevice := truthy_str (ev_fromDevice e) in
  (createIdleCallState
     <| cs_phase := Incoming |> <| cs_callId := ev_callId e |>
     <| cs_peerId := ev_peerId e |> <| cs_role := Some Callee |>
     <| cs_callKeyB64 := ev_callKeyB64 e |> <| cs_codecs := offerCodecs e |>
     <| cs_ringingAt := now |> <| cs_lastHeardAt := now |>
     <| cs_mediaVideo := ev_mediaVideo e |>
     <| cs_remoteCapabilities := offerCapabilities e |>
     <| cs_remoteDevice := remoteDevice |>,
   [signalEffect
      (createIdleCallState <| cs_peerId := ev_peerId e |> <| cs_callId := ev_callId e |>
         <| cs_remoteDevice := remoteDevice |>) "ringing" no_extra;
    ArmRingTimeout; NotifyIncoming; StartRingtone]).

Definition reduceGlare (st : call_state) (e : event) : step_result :=
  let incomingId := default "" (ev_callId e) in
  let outgoingId := default "" (cs_callId st) in
  if bool_decide (incomingId = "") || bool_decide (outgoingId = "")
     || bool_decide (incomingId = outgoingId) then ignore st
  else if str_ltb outgoingId incomingId then ignore st
  else
    let '(st', effects) := beginIncoming e in
    (st',
     signalEffect st "cancel" (mkExtra (cs_peerId st) (cs_callId st) None None None)
       :: StopRingtone :: effects).

Definition reduceRemoteOffer (st : call_state) (e : event) : step_result :=
  if ev_blocked e then ignore st
  else if isStaleCallOffer e (or_now (ev_now e) clock) then ignore st
  else if bool_decide (cs_phase st = Outgoing) && bool_decide (ev_peerId e = cs_peerId st)
  then reduceGlare st e
  else if negb (bool_decide (cs_phase st = Idle))
  then (st, [signalEffect st "busy"
               (mkExtra (ev_peerId e) (ev_callId e) (Some (truthy_str (ev_fromDevice e)))
                  None None)])
  else beginIncoming e.

Definition reduceRemoteRinging (st : call_state) (e : event) : step_result :=
  if negb (sameCall st e) || negb (bool_decide (cs_phase st = Outgoing)) then ignore st
  else
    let ringingDevices :=
      uniqueDevices (map Some (cs_ringingDevices st) ++ [ev_fromDevice e]) in
    let remoteCapabilities :=
      if ev_capabilities e is Some _ then offerCapabilities e else cs_remoteCapabilities st in
    (st <| cs_lastHeardAt := or_now (ev_now e) clock |> <| cs_peerRinging := true |>
        <| cs_ringingDevices := ringingDevices |>
        <| cs_remoteCapabilities := remoteCapabilities |>, []).

Definition reduceLocalAccept (st : call_state) (e : event) : step_result :=
  if negb (bool_decide (cs_phase st = Incoming)) then ignore st
  else
    let now := or_now (ev_now e) clock in
    let codec := default "pcm16" (truthy_str (ev_codec e)) in
    let camera := ev_camera e && peerSupportsVideo (cs_remoteCapabilities st) in
    let videoCodec :=
      pickVideoCodec (default (cap_video (cs_capabilities st)) (ev_localVideoCodecs e))
        (cap_video (cs_remoteCapabilities st)) in
    (st <| cs_phase := Active |> <| cs_codec := Some codec |> <| cs_connectedAt := now |>
        <| cs_lastHeardAt := now |> <| cs_muted := false |> <| cs_localCamera := camera |>
        <| cs_hadVideo := camera || cs_mediaVideo st |> <| cs_videoCodec := videoCodec |>
        <| cs_capabilities := default (cs_capabilities st) (ev_capabilities e) |>,
     [StopRingtone;
      signalEffect st "accept" (mkExtra None None None (Some codec) None);
      StartMedia; ArmWatchdog; StartPing]
       ++ (if camera then [StartStream "camera"] else [])).

Definition reduceRemoteAccept (st : call_state) (e : event) : step_result :=
  if negb (sameCall st e) || negb (bool_decide (cs_phase st = Outgoing)) then ignore st
  else
    let now := or_now (ev_now e) clock in
    let codec :=
      if bool_decide (ev_codec e = Some "opus") || bool_decide (ev_codec e = Some "pcm16")
      then ev_codec e else Some "pcm16" in
    let remoteDevice :=
      match truthy_str (ev_fromDevice e) with Some d => Some d | None => cs_remoteDevice st end in
    let remoteCapabilities :=
      if ev_capabilities e is Some _ then offerCapabilities e else cs_remoteCapabilities st in
    let videoCodec :=
      pickVideoCodec (cap_video (cs_capabilities st)) (cap_video remoteCapabilities) in
    let startCamera := cs_mediaVideo st && peerSupportsVideo remoteCapabilities in
    (st <| cs_phase := Active |> <| cs_codec := codec |> <| cs_connectedAt := now |>
        <| cs_lastHeardAt := now |> <| cs_remoteDevice := remoteDevice |>
        <| cs_remoteCapabilities := remoteCapabilities |> <| cs_videoCodec := videoCodec |>
        <| cs_localCamera := startCamera |> <| cs_hadVideo := startCamera |>,
     [StopRingtone; StartMedia; ArmWatchdog; StartPing;
      CancelOtherDevices (cs_peerId st) (cs_callId st) remoteDevice (cs_ringingDevices st)]
       ++ (if startCamera then [StartStream "camera"] else [])).

Definition reduceLocalReject (st : call_state) (e : event) : step_result :=
  if negb (bool_decide (cs_phase st = Incoming)) then ignore st
  else idleWith [StopRingtone; signalEffect st "reject" no_extra; StopMedia; ClearTimers;
                 callLogEffect st Rejected (ev_now e)].

Definition reduceLocalCancel (st : call_state) (e : event) : step_result :=
  if negb (bool_decide (cs_phase st = Outgoing)) then ignore st
  else idleWith [signalEffect st "cancel" no_extra; StopRingtone; ClearTimers;
                 callLogEffect st Failed (ev_now e)].

(** The three ways a call ends on the peer's word, by phase: shared by
    [reduceRemoteCancel] and [reduceRemoteEnd], whose bodies repeat them. *)
Definition remoteHangup (st : call_state) (e : event) : step_result :=
  match cs_phase st with
  | Incoming => idleWith [StopRingtone; ClearTimers; callLogEffect st Missed (ev_now e)]
  | Outgoing => idleWith [ClearTimers; callLogEffect st Failed (ev_now e)]
  | Active => idleWith [StopMedia; ClearTimers; callLogEffect st Completed (ev_now e)]
  | Idle => ignore st
  end.

Definition reduceRemoteCancel (st : call_state) (e : event) : step_result :=
  if negb (sameCall st e) then ignore st
  else if isAnsweredElsewhere (ev_reason e) then
    if bool_decide (cs_phase st = Incoming) then idleWith [StopRingtone; ClearTimers]
    else ignore st
  else remoteHangup st e.

Definition reduceLocalEnd (st : call_state) (e : event) : step_result :=
  if negb (bool_decide (cs_phase st = Active)) then ignore st
  else idleWith [signalEffect st "end" no_extra; StopMedia; ClearTimers;
                 callLogEffect st Completed (ev_now e)].

Definition reduceRemoteEnd (st : call_state) (e : event) : step_result :=
  if negb (sameCall st e) then ignore st else remoteHangup st e.

Definition reduceRemoteBusy (st : call_state) (e : event) : step_result :=
  if negb (sameCall st e) || negb (bool_decide (cs_phase st = Outgoing)) then ignore st
  else
    let v := applyRemoteBusy (cs_ringingDevices st) (cs_busyDevices st) (ev_fromDevice e) in
    if negb (bv_endBusy v) then
      (st <| cs_busyDevices := bv_busy v |> <| cs_ringingDevices := bv_ringing v |>
          <| cs_lastHeardAt := or_now (ev_now e) clock |>, [])
    else idleWith [ClearTimers; callLogEffect st BusyOutcome (ev_now e)].

Definition reduceOfferFailed (st : call_state) (e : event) : step_result :=
  if negb (bool_decide (cs_phase st = Outgoing)) || negb (sameCall st e) then ignore st
  else idleWith [ClearTimers; Toast "Nicht erreichbar"; callLogEffect st Failed (ev_now e)].

Definition reduceHangup (st : call_state) (e : event) (o : outcome) : step_result :=
  if negb (sameCall st e) || negb (bool_decide (cs_phase st = Outgoing)) then ignore st
  else idleWith [ClearTimers; callLogEffect st o (ev_now e)].

Definition reduceRingTimeout (st : call_state) (e : event) : step_result :=
  if bool_decide (cs_phase st = Outgoing) && sameCall st e then
    idleWith [signalEffect st "cancel" no_extra; ClearTimers;
              callLogEffect st Failed (ev_now e)]
  else if bool_decide (cs_phase st = Incoming) && sameCall st e then
    idleWith [StopRingtone; ClearTimers; callLogEffect st Missed (ev_now e)]
  else ignore st.

Definition reduceConnectionLost (st : call_state) (e : event) : step_result :=
  if negb (bool_decide (cs_phase st = Active)) || negb (sameCall st e) then ignore st
  else idleWith [signalEffect st "end" no_extra; StopMedia; ClearTimers;
                 Toast "Verbindung verloren"; callLogEffect st Failed (ev_now e)].

Definition reducePong (st : call_state) (e : event) : step_result :=
  if negb (sameCall st e) || negb (bool_decide (cs_phase st = Active)) then ignore st
  else
    let now := or_now (ev_now e) clock in
    let rttMs :=
      match ev_t e with Some sentAt => Some (Z.max 0 (now - sentAt)) | None => cs_rttMs st end in
    (st <| cs_rttMs := rttMs |> <| cs_lastHeardAt := now |>, []).

(** The flag an event switches: [state[flag]] with [flag] a field name. *)
Inductive media_flag := localCamera | localScreen | remoteCamera | remoteScreen.

Definition get_flag (st : call_state) (f : media_flag) : bool :=
  match f with
  | localCamera => cs_localCamera st
  | localScreen => cs_localScreen st
  | remoteCamera => cs_remoteCamera st
  | remoteScreen => cs_remoteScreen st
  end.

Definition set_flag (st : call_state) (f : media_flag) (on : bool) : call_state :=
  match f with
  | localCamera => st <| cs_localCamera := on |>
  | localScreen => st <| cs_localScreen := on |>
  | remoteCamera => st <| cs_remoteCamera := on |>
  | remoteScreen => st <| cs_remoteScreen := on |>
  end.

Definition reduceLocalMediaFlag (st : call_state) (e : event) (flag : media_flag)
    (stream : string) : step_result :=
  if negb (bool_decide (cs_phase st = Active)) then ignore st
  else
    let on := negb (bool_decide (ev_on e = Some false)) in
    if on && negb (peerSupportsVideo (cs_remoteCapabilities st)) then ignore st
    else if Bool.eqb (get_flag st flag) on then ignore st
    else
      let op :=
        if bool_decide (stream = "screen") then (if on then "screen-on" else "screen-off")
        else (if on then "video-on" else "video-off") in
      (set_flag st flag on <| cs_hadVideo := cs_hadVideo st || on |>,
       [signalEffect st op (mkExtra None None None None (Some stream));
        if on then StartStream stream else StopStream stream]).

Definition reduceRemoteMediaFlag (st : call_state) (e : event) (flag : media_flag)
  : step_result :=
  if negb (sameCall st e) || negb (bool_decide (cs_phase st = Active)) then ignore st
  else
    let on := negb (bool_decide (ev_on e = Some false)) in
    if Bool.eqb (get_flag st flag) on then ignore st
    else
      (set_flag st flag on <| cs_hadVideo := cs_hadVideo st || on |>
         <| cs_lastHeardAt := or_now (ev_now e) clock |>, []).

Definition reduceLocalKeyframe (st : call_state) (e : event) : step_result :=
  if negb (bool_decide (cs_phase st = Active)) then ignore st
  else
    let stream := if bool_decide (ev_stream e = Some "screen") then "screen" else "camera" in
    (st, [signalEffect st "keyframe" (mkExtra None None None None (Some stream))]).

Definition reduceCall (st : call_state) (e : event) : step_result :=
  match ev_type e with
  | LocalStart => reduceLocalStart st e
  | RemoteOffer => reduceRemoteOffer st e
  | RemoteRinging => reduceRemoteRinging st e
  | LocalAccept => reduceLocalAccept st e
  | RemoteAccept => reduceRemoteAccept st e
  | LocalReject => reduceLocalReject st e
  | RemoteReject => reduceHangup st e Rejected
  | LocalCancel => reduceLocalCancel st e
  | RemoteCancel => reduceRemoteCancel st e
  | LocalEnd => reduceLocalEnd st e
  | RemoteEnd => reduceRemoteEnd st e
  | RemoteBusy => reduceRemoteBusy st e
  | OfferFailed => reduceOfferFailed st e
  | RingTimeout => reduceRingTimeout st e
  | ConnectionLost => reduceConnectionLost st e
  | ToggleMute =>
      if bool_decide (cs_phase st = Active)
      then (st <| cs_muted := negb (cs_muted st) |>, [ApplyMute]) else ignore st
  | LocalCamera => reduceLocalMediaFlag st e localCamera "camera"
  | LocalScreen => reduceLocalMediaFlag st e localScreen "screen"
  | RemoteCamera => reduceRemoteMediaFlag st e remoteCamera
  | RemoteScreen => reduceRemoteMediaFlag st e remoteScreen
  | LocalKeyframe => reduceLocalKeyframe st e
  | Pong => reducePong st e
  | Heard =>
      if sameCall st e then (st <| cs_lastHeardAt := or_now (ev_now e) clock |>, [])
      else ignore st
  | OtherEvent => ignore st
  end.

End Reducer.

(** ** Well-formed states *)

Record call_wf (st : call_state) : Prop := {
  wf_idle : cs_phase st = Idle -> st = createIdleCallState;
  wf_caller : cs_phase st = Outgoing -> cs_role st = Some Caller;
  wf_callee : cs_phase st = Incoming -> cs_role st = Some Callee;
  wf_active : cs_phase st = Active -> is_Some (cs_role st) /\ is_Some (cs_codec st);
  wf_inactive :
    cs_phase st <> Active ->
    cs_connectedAt st = 0 /\ cs_codec st = None /\ cs_muted st = false
    /\ callHasVideo st = false /\ cs_hadVideo st = false;
}.

Create HintDb call_reduce.

#[export] Hint Unfold reduceCall reduceLocalStart reduceRemoteOffer reduceGlare beginIncoming
  reduceRemoteRinging reduceLocalAccept reduceRemoteAccept reduceLocalReject
  reduceHangup reduceLocalCancel reduceRemoteCancel reduceLocalEnd reduceRemoteEnd
  remoteHangup reduceRemoteBusy reduceOfferFailed reduceRingTimeout reduceConnectionLost
  reduceLocalMediaFlag reduceRemoteMediaFlag reduceLocalKeyframe reducePong
  ignore idleWith signalEffect : call_reduce.


(** ** Call logs *)

Definition logs_of (effs : list effect) : list call_log :=
  omap (fun eff => match eff with CallLog l => Some l | _ => None end) effs.

(** The one way a call ends without a log entry: another device of ours answered. *)
Definition answered_elsewhere (e : event) : bool :=
  match ev_type e with RemoteCancel => isAnsweredElsewhere (ev_reason e) | _ => false end.

Definition ends_call (st st' : call_state) : bool :=
  negb (bool_decide (cs_phase st = Idle)) && bool_decide (cs_phase st' = Idle).

(** A log entry that tells the truth about the call [st] was in. *)
Definition log_truthful (st : call_state) (l : call_log) : Prop :=
  cl_peerId l = cs_peerId st /\
  cl_outgoing l = bool_decide (cs_role st = Some Caller) /\
  0 <= cl_durationMs l /\
  (cs_phase st <> Active ->
   cl_durationMs l = 0 /\ cl_video l = false /\ cl_outcome l <> Completed).

Lemma callLogEffect_truthful clock st o now :
  call_wf st -> (o = Completed -> cs_phase st = Active) ->
  exists l, callLogEffect clock st o now = CallLog l /\ log_truthful st l.
Proof.
  intros [_ _ _ _ Wn] Ho. unfold log_truthful.
  unfold callLogEffect. eexists; split; [reflexivity|]; simpl.
  repeat split; try (case_match; lia).
  - destruct (Wn H) as (-> & _). done.
  - destruct (Wn H) as (_ & _ & _ & -> & ->). done.
  - intros ->. auto.
Qed.

#[local] Opaque callLogEffect.

Lemma sameCall_not_idle st e : sameCall st e = true -> cs_phase st <> Idle.
Proof. unfold sameCall. case_bool_decide; congruence. Qed.

(** Case analysis of one reduction, one goal per branch of the reducer. *)
Ltac reduce_cases e Hred :=
  let He := fresh "He" in
  destruct (ev_type e) eqn:He; autounfold with call_reduce in Hred; rewrite ?He in Hred;
  branches Hred;
  repeat match goal with
  | H : sameCall _ _ = true |- _ => apply sameCall_not_idle in H
  end; try congruence.

Lemma reduce_wf clock st e st' effs :
  reduceCall clock st e = (st', effs) -> call_wf st -> call_wf st'.
Proof.
  intros Hred Hwf. reduce_cases e Hred; try done.
  all: destruct Hwf as [Wi Wo Wc Wa Wn]; constructor; simpl; intros;
    try congruence; try done; eauto.
Qed.

(** A reduction that ends a call emits exactly one call-log entry, about that call's
    peer and direction, with no duration, video or completed outcome unless the call was
    connected; only another own device answering ends it silently, and no other
    reduction logs anything. *)
Theorem call_log_once clock st e st' effs :
  call_wf st -> reduceCall clock st e = (st', effs) ->
  if ends_call st st' && negb (answered_elsewhere e)
  then exists l, logs_of effs = [l] /\ log_truthful st l
  else logs_of effs = [].
Proof.
  intros Hwf Hred. unfold ends_call, answered_elsewhere. reduce_cases e Hred.
  all: simpl; try done.
  all: try match goal with
    | H : callLogEffect ?c ?s ?o ?n = _ |- _ =>
        destruct (callLogEffect_truthful c s o n Hwf) as (l & Heq & Hl); [congruence|];
        rewrite Heq in H; simplify_eq/=
    end.
  all: repeat case_bool_decide; simpl; first [congruence | solve [eauto] | done].
Qed.

(** ** Glare *)

(** The side of a glare that keeps its own offer, and the one that yields. *)
Lemma glare_keeps clock st e a b :
  cs_callId st = Some a -> ev_callId e = Some b -> str_ltb a b = true ->
  reduceGlare clock st e = (st, []).
Proof.
  intros Ha Hb Hlt. unfold reduceGlare. rewrite Ha, Hb; simpl. rewrite Hlt. by case_match.
Qed.

Lemma glare_yields clock st e a b :
  cs_callId st = Some a -> ev_callId e = Some b -> a <> "" -> b <> "" ->
  str_ltb b a = true ->
  fst (reduceGlare clock st e) = fst (beginIncoming clock e).
Proof.
  intros Ha Hb Hna Hnb Hlt. unfold reduceGlare. rewrite Ha, Hb; simpl.
  assert (a <> b) as Hab by (intros ->; by rewrite str_ltb_irrefl in Hlt).
  rewrite (str_ltb_antisym a b Hab), Hlt; simpl.
  by rewrite !bool_decide_eq_false_2 by congruence.
Qed.

(** An offer that reaches the reducer's main path. *)
Definition live_offer (clock : Z) (e : event) (from callId : string) : Prop :=
  ev_type e = RemoteOffer /\ ev_blocked e = false /\
  isStaleCallOffer e (or_now (ev_now e) clock) = false /\
  ev_peerId e = Some from /\ ev_callId e = Some callId.

(** A peer that is calling [peer] with call id [callId]. *)
Definition calling (st : call_state) (peer callId : string) : Prop :=
  cs_phase st = Outgoing /\ cs_peerId st = Some peer /\ cs_callId st = Some callId.

(** A peer being rung by [peer] with call id [callId]. *)
Definition rung_by (st : call_state) (peer callId : string) : Prop :=
  cs_phase st = Incoming /\ cs_peerId st = Some peer /\ cs_callId st = Some callId.

Lemma offer_while_calling clock st e peer a b :
  calling st peer a -> live_offer clock e peer b ->
  reduceCall clock st e = reduceGlare clock st e.
Proof.
  intros (Hp & Hpe & _) (Ht & Hbl & Hst & Hev & _). unfold reduceCall. rewrite Ht.
  unfold reduceRemoteOffer. rewrite Hbl, Hst, Hp, Hev, Hpe.
  rewrite (bool_decide_eq_true_2 (Some peer = Some peer)) by done. reflexivity.
Qed.

(** When two peers call each other at once and each reduces the other's offer, the
    smaller call id wins on both sides: its caller stays as it is and sends nothing, the
    other side drops its own call and is rung by the winning one. *)
Theorem glare_converges ca cb sa sb ea eb pa pb a b sa' effa sb' effb :
  a <> b -> a <> "" -> b <> "" ->
  calling sa pb a -> calling sb pa b ->
  live_offer ca ea pb b -> live_offer cb eb pa a ->
  reduceCall ca sa ea = (sa', effa) -> reduceCall cb sb eb = (sb', effb) ->
  if str_ltb a b
  then sa' = sa /\ effa = [] /\ rung_by sb' pa a
  else sb' = sb /\ effb = [] /\ rung_by sa' pb b.
Proof.
  intros Hab Ha Hb Hsa Hsb Hea Heb.
  rewrite (offer_while_calling ca sa ea pb a b Hsa Hea).
  rewrite (offer_while_calling cb sb eb pa b a Hsb Heb).
  destruct Hsa as (_ & _ & Hca), Hsb as (_ & _ & Hcb).
  destruct Hea as (_ & _ & _ & Hpa & Hia), Heb as (_ & _ & _ & Hpb & Hib).
  intros Hra Hrb. destruct (str_ltb a b) eqn:Hlt.
  - rewrite (glare_keeps ca sa ea a b) in Hra by done. simplify_eq.
    pose proof (glare_yields cb sb eb b a Hcb Hib Hb Ha Hlt) as Hy.
    rewrite Hrb in Hy; simpl in Hy. by rewrite Hy.
  - rewrite (str_ltb_antisym a b Hab) in Hlt. apply negb_false_iff in Hlt.
    rewrite (glare_keeps cb sb eb b a) in Hrb by done. simplify_eq.
    pose proof (glare_yields ca sa ea a b Hca Hia Ha Hb Hlt) as Hy.
    rewrite Hra in Hy; simpl in Hy. by rewrite Hy.
Qed.

(** ** Foreign peers *)

(** Events that come from the network. *)
Definition from_network (t : event_type) : bool :=
  match t with
  | RemoteOffer | RemoteRinging | RemoteAccept | RemoteReject | RemoteCancel | RemoteEnd
  | RemoteBusy | RemoteCamera | RemoteScreen | Pong => true
  | _ => false
  end.

Definition busy_to (e : event) (eff : effect) : Prop :=
  match eff with
  | SendSignal s => sg_op s = "busy" /\ sg_peerId s = ev_peerId e
  | _ => False
  end.

Lemma sameCall_foreign st e p :
  truthy_str (ev_peerId e) = Some p -> cs_peerId st <> Some p -> sameCall st e = false.
Proof.
  intros Hp Hne. unfold sameCall, differs. rewrite Hp.
  repeat case_match; bool_cases; congruence.
Qed.

(** No network event from a peer other than the one in the call changes the call;
    the only effect it can cause is a busy signal addressed to its sender. *)
Theorem foreign_peer_harmless clock st e p st' effs :
  from_network (ev_type e) = true -> cs_phase st <> Idle ->
  truthy_str (ev_peerId e) = Some p -> cs_peerId st <> Some p ->
  reduceCall clock st e = (st', effs) ->
  st' = st /\ Forall (busy_to e) effs.
Proof.
  intros Hnet Hbusy Hp Hne. pose proof (sameCall_foreign st e p Hp Hne) as Hsc.
  assert (ev_peerId e = Some p) as Hpe.
  { unfold truthy_str in Hp. by repeat case_match. }
  destruct (ev_type e) eqn:Ht; try done; unfold reduceCall; rewrite Ht;
    autounfold with call_reduce; rewrite ?Hsc; simpl; try (intros [= <- <-]; by split).
  rewrite Hpe, (bool_decide_eq_false_2 (Some p = _)), andb_false_r by congruence.
  rewrite (bool_decide_eq_false_2 (cs_phase st = Idle)) by done.
  repeat case_match; intros [= <- <-]; try by split.
  split; [done|]. constructor; [|done]. simpl. by rewrite Hpe.
Qed.

(** ** Witnesses *)

Definition alice_calls : event :=
  bare_event LocalStart <| ev_callId := Some "c1" |> <| ev_peerId := Some "bob" |>
    <| ev_now := Some 5 |>.

Definition bob_calls : event :=
  bare_event LocalStart <| ev_callId := Some "c2" |> <| ev_peerId := Some "alice" |>
    <| ev_now := Some 6 |>.

Definition alice_calling : call_state := fst (reduceCall 5 createIdleCallState alice_calls).
Definition bob_calling : call_state := fst (reduceCall 6 createIdleCallState bob_calls).

Definition offer_from (peer callId : string) (now : Z) : event :=
  bare_event RemoteOffer <| ev_peerId := Some peer |> <| ev_callId := Some callId |>
    <| ev_now := Some now |> <| ev_timestamp := Some now |>.

Lemma call_log_once_witness :
  exists l, logs_of (snd (reduceCall 9 alice_calling (bare_event LocalCancel))) = [l]
            /\ log_truthful alice_calling l.
Proof.
  assert (call_wf alice_calling) as Hwf by (constructor; simpl; repeat split; done).
  exact (call_log_once 9 alice_calling (bare_event LocalCancel) createIdleCallState
    (snd (reduceCall 9 alice_calling (bare_event LocalCancel))) Hwf eq_refl).
Defined.

Lemma glare_converges_witness :
  exists sa' effa sb' effb,
    reduceCall 9 alice_calling (offer_from "bob" "c2" 9) = (sa', effa) /\
    reduceCall 8 bob_calling (offer_from "alice" "c1" 8) = (sb', effb) /\
    sa' = alice_calling /\ effa = [] /\ rung_by sb' "alice" "c1".
Proof.
  do 4 eexists. split; [reflexivity|]. split; [reflexivity|].
  refine (glare_converges 9 8 alice_calling bob_calling (offer_from "bob" "c2" 9)
    (offer_from "alice" "c1" 8) "alice" "bob" "c1" "c2" _ _ _ _ _ _ _ _ _ _ _
    eq_refl eq_refl); repeat split; try done; vm_compute; congruence.
Defined.

Lemma foreign_peer_harmless_witness :
  let e := bare_event RemoteEnd <| ev_peerId := Some "mallory" |> <| ev_callId := Some "c1" |> in
  fst (reduceCall 9 alice_calling e) = alice_calling /\
  Forall (busy_to e) (snd (reduceCall 9 alice_calling e)).
Proof.
  intros e.
  exact (foreign_peer_harmless 9 alice_calling e "mallory"
    (fst (reduceCall 9 alice_calling e)) (snd (reduceCall 9 alice_calling e))
    eq_refl ltac:(discriminate) eq_refl ltac:(discriminate) eq_refl).
Defined.
