(* ===== verification/CallManager.v ===== *)
(** * The manager of a call ([renderer/calls/CallManager.js], [renderer/calls/ringtone.js])

    The manager reduces events ([dispatch]) and runs the effects: timers, tones, the microphone,
    the camera, the screen and what shows the pictures of the peer.  Starting and stopping
    a device is asynchronous: a [task] is what a call of such a function does next when the
    promise it waits for settles ([resume]), and any number of them wait at a time, also of
    calls that are over.  An [await] always ends the step, and the answers come in any order.
    What the platform makes is an [answer]: a device that was opened, one that failed, or one
    that gave up because it was not current any more.  An [AudioContext] can always be made.
    Left out are what is drawn, levels and muting, the encoders, and the listeners. *)

From stdpp Require Import functions.
From S2P Require Import Prelude CallState.

(** ** What the manager holds *)

(** The slots [pipeline], [cameraOut] and [screenOut], with their generations
    [mediaGeneration], [videoStartGen.camera] and [videoStartGen.screen]. *)
Inductive device := Microphone | Camera | Screen.

#[export] Instance device_eq_dec : EqDecision device.
Proof. solve_decision. Defined.

(** An open device: the generation it was started in, its call and the key it encrypts with. *)
Record capture := mk_capture {
  cp_device : device;
  cp_generation : Z;
  cp_callId : option string;
  cp_key : string
}.

(** A tone of [createOscTone]: whether [ctx] is there, the interval it remembers, and every
    interval that runs. *)
Record tone := mk_tone { tn_open : bool; tn_interval : option nat; tn_running : gset nat }.

#[export] Instance rebuild_tone : Rebuild tone := fun t => mk_tone (tn_open t) (tn_interval t) (tn_running t).

(** What shows the pictures of the peer, with its key. *)
Record renderer := mk_renderer { rn_callId : option string; rn_key : string }.

(** The local variables of [startMedia] after it has stopped what was there. *)
Record start := mk_start { st_generation : Z; st_callId : option string; st_peerId : option string; st_key : string }.

(** Where an asynchronous function waits.  The stages of [stopMedia] name what it does next; when
    [startMedia] has called it they hold the generation and the call. *)
Inductive task :=
| ToneResumes (ringing : bool)
| OfferSent (callId peerId : option string)
| StopsScreen (k : option (Z * option string))
| StopsInbound (k : option (Z * option string))
| StopsInboundScreen (k : option (Z * option string))
| StopsKey (k : option (Z * option string))
| MediaStopped (generation : Z) (callId : option string)
| MediaKey (s : start)
| InboundReady (stream : device) (made : option renderer) (k : option start)
| MediaMade (s : start)
| VideoKey (d : device) (generation : Z) (key : string)
| VideoStopped (d : device) (generation : Z)
| VideoMade (d : device) (generation : Z) (key : string).

(** [rg_open] is history: the devices that were opened and are not closed; nothing reads it. *)
Record rig := mkRig {
  rg_ringTimer : bool;
  rg_watchdogTimer : bool;
  rg_pingTimer : bool;
  rg_ringtone : tone;
  rg_ringback : tone;
  rg_generation : device -> Z;
  rg_slot : device -> option nat;
  rg_inboundCamera : option renderer;
  rg_inboundScreen : option renderer;
  rg_callKey : option string;
  rg_tasks : gmap nat task;
  rg_open : gmap nat capture;
  rg_next : nat
}.

#[export] Instance rig_rebuild : Rebuild rig := fun r =>
  mkRig (rg_ringTimer r) (rg_watchdogTimer r) (rg_pingTimer r) (rg_ringtone r) (rg_ringback r) (rg_generation r) (rg_slot r)
    (rg_inboundCamera r) (rg_inboundScreen r) (rg_callKey r) (rg_tasks r) (rg_open r) (rg_next r).

Definition silent_tone : tone := mk_tone false None ∅.

Definition silent_rig : rig :=
  mkRig false false false silent_tone silent_tone (fun _ => 0) (fun _ => None) None None None ∅ ∅ 0.

Record manager := mkManager {
  mg_state : call_state;
  mg_rig : rig;
  mg_out : list effect   (* what has left the manager: signals, logs, toasts, ... *)
}.

Definition newManager : manager := mkManager createIdleCallState silent_rig [].

(** ** Tones *)

Definition tone_stop (t : tone) : tone :=
  mk_tone false None (match tn_interval t with Some i => tn_running t ∖ {[ i ]} | None => tn_running t end).

(** [start] up to its wait for the context. *)
Definition tone_start (t : tone) : tone := tone_stop t <| tn_open := true |>.

(** The rest of [start]. *)
Definition tone_resumes (i : nat) (t : tone) : tone := t <| tn_interval := Some i |> <| tn_running := tn_running t ∪ {[ i ]} |>.

(** Something is heard: an interval finds a context. *)
Definition sounds (t : tone) : bool := tn_open t && negb (bool_decide (tn_running t = ∅)).

(** ** Devices *)

Definition wait (t : task) (r : rig) : rig := r <| rg_tasks := <[rg_next r := t]> (rg_tasks r) |> <| rg_next := S (rg_next r) |>.

Definition set_slot (d : device) (v : option nat) (r : rig) : rig := r <| rg_slot := <[d := v]> (rg_slot r) |>.

(** [const current = this[slot]; this[slot] = null; current.close()] *)
Definition drop_slot (d : device) (r : rig) : rig :=
  match rg_slot r d with
  | Some x => set_slot d None r <| rg_open := delete x (rg_open r) |>
  | None => r
  end.

(** [this[slot] = ...], when the device is opened. *)
Definition place (c : capture) (r : rig) : rig :=
  set_slot (cp_device c) (Some (rg_next r)) r <| rg_open := <[rg_next r := c]> (rg_open r) |> <| rg_next := S (rg_next r) |>.

Definition bump (d : device) (r : rig) : rig := r <| rg_generation := <[d := rg_generation r d + 1]> (rg_generation r) |>.

Definition is_active (st : call_state) : bool := bool_decide (cs_phase st = Active).

Definition isCurrentMedia (st : call_state) (r : rig) (generation : Z) (callId : option string) : bool :=
  Z.eqb (rg_generation r Microphone) generation && bool_decide (cs_callId st = callId) && is_active st.

(** [localCamera] and [localScreen]. *)
Definition wanted (st : call_state) (d : device) : bool :=
  match d with Microphone => true | Camera => cs_localCamera st | Screen => cs_localScreen st end.

Definition isCurrentVideo (st : call_state) (r : rig) (d : device) (generation : Z) : bool :=
  Z.eqb (rg_generation r d) generation && is_active st && wanted st d.

Definition key_text (st : call_state) : string := default "" (cs_callKeyB64 st).

(** [stopMedia] up to its first wait. *)
Definition stopMedia (k : option (Z * option string)) (r : rig) : rig := wait (StopsScreen k) (drop_slot Camera r).

Definition startMedia (st : call_state) (r : rig) : rig :=
  let r := bump Microphone r in stopMedia (Some (rg_generation r Microphone, cs_callId st)) r.

Definition stopOutgoingVideo (d : device) (r : rig) : rig := drop_slot d r.

(** [startOutgoingVideo] from where the key is there. *)
Definition video_with_key (st : call_state) (d : device) (generation : Z) (r : rig) : rig :=
  if isCurrentVideo st r d generation then wait (VideoStopped d generation) (stopOutgoingVideo d r) else r.

Definition startOutgoingVideo (st : call_state) (d : device) (r : rig) : rig :=
  let r := bump d r in
  if negb (is_active st) then r
  else
    match rg_callKey r with
    | None => wait (VideoKey d (rg_generation r d) (key_text st)) r
    | Some _ => video_with_key st d (rg_generation r d) r
    end.

Definition inbound (d : device) (r : rig) : option renderer := if bool_decide (d = Screen) then rg_inboundScreen r else rg_inboundCamera r.

Definition set_inbound (d : device) (v : option renderer) (r : rig) : rig :=
  if bool_decide (d = Screen) then r <| rg_inboundScreen := v |> else r <| rg_inboundCamera := v |>.

(** [ensureInbound] up to its wait; [k] waits for it. *)
Definition ensureInbound (st : call_state) (stream : device) (k : option start) (r : rig) : rig :=
  wait (InboundReady stream
          (match inbound stream r, rg_callKey r with
           | None, Some key => if is_active st then Some (mk_renderer (cs_callId st) key) else None
           | _, _ => None
           end) k) r.

(** ** Effects *)

Definition clearAllTimers (r : rig) : rig :=
  r <| rg_ringTimer := false |> <| rg_watchdogTimer := false |> <| rg_pingTimer := false |>
    <| rg_ringtone := tone_stop (rg_ringtone r) |> <| rg_ringback := tone_stop (rg_ringback r) |>.

Definition stream_device (stream : string) : device := if bool_decide (stream = "screen") then Screen else Camera.

Definition runEffect (st : call_state) (r : rig) (eff : effect) : rig :=
  match eff with
  | SendOffer =>
      match truthy_str (cs_peerId st), truthy_str (cs_callId st) with
      | Some _, Some _ => wait (OfferSent (cs_callId st) (cs_peerId st)) r
      | _, _ => r
      end
  | ArmRingTimeout => r <| rg_ringTimer := true |>
  | ArmWatchdog => r <| rg_watchdogTimer := true |>
  | StartPing => r <| rg_pingTimer := true |>
  | ClearTimers => clearAllTimers r
  | StartRingtone =>
      wait (ToneResumes true) (r <| rg_ringback := tone_stop (rg_ringback r) |> <| rg_ringtone := tone_start (rg_ringtone r) |>)
  | StartRingback =>
      wait (ToneResumes false) (r <| rg_ringtone := tone_stop (rg_ringtone r) |> <| rg_ringback := tone_start (rg_ringback r) |>)
  | StopRingtone => r <| rg_ringtone := tone_stop (rg_ringtone r) |> <| rg_ringback := tone_stop (rg_ringback r) |>
  | StartMedia => startMedia st r
  | StopMedia => stopMedia None (bump Screen (bump Camera (bump Microphone r)))
  | StartStream s => startOutgoingVideo st (stream_device s) r
  | StopStream s => stopOutgoingVideo (stream_device s) (bump (stream_device s) r)
  | _ => r
  end.

Definition dispatch (clock : Z) (m : manager) (e : event) : manager :=
  let '(st, effects) := reduceCall clock (mg_state m) e in
  mkManager st (fold_left (runEffect st) effects (mg_rig m)) (mg_out m ++ effects).

(** ** A promise settles *)

Inductive answer := Made | Broke | GaveUp.

#[export] Instance answer_eq_dec : EqDecision answer.
Proof. solve_decision. Defined.

Definition set_rig (m : manager) (r : rig) : manager := mkManager (mg_state m) r (mg_out m).

Definition emit_out (m : manager) (effs : list effect) : manager := mkManager (mg_state m) (mg_rig m) (mg_out m ++ effs).

(** The [catch] of [startMedia]; an aborted start says nothing. *)
Definition media_failed (clock : Z) (s : start) (m : manager) : manager :=
  if negb (isCurrentMedia (mg_state m) (mg_rig m) (st_generation s) (st_callId s)) then m
  else dispatch clock (emit_out m [Toast "Mikrofon nicht verfügbar"])
         (bare_event ConnectionLost <| ev_now := Some clock |> <| ev_callId := st_callId s |> <| ev_peerId := st_peerId s |>).

Definition video_failed (clock : Z) (d : device) (generation : Z) (m : manager) : manager :=
  if negb (isCurrentVideo (mg_state m) (mg_rig m) d generation) then m
  else dispatch clock (emit_out m [Toast (if bool_decide (d = Screen) then "Bildschirmfreigabe nicht verfügbar" else "Kamera nicht verfügbar")])
         (bare_event (if bool_decide (d = Screen) then LocalScreen else LocalCamera)
            <| ev_on := Some false |> <| ev_now := Some clock |> <| ev_callId := cs_callId (mg_state m) |> <| ev_peerId := cs_peerId (mg_state m) |>).

(** [video-on] or [screen-on] *)
Definition video_signal (st : call_state) (d : device) : effect :=
  signalEffect st (if bool_decide (d = Screen) then "screen-on" else "video-on")
    (mkExtra None None None None (Some (if bool_decide (d = Screen) then "screen" else "camera"))).

(** The task goes on; it has been taken off the list. *)
Definition resume (clock : Z) (a : answer) (t : task) (m : manager) : manager :=
  let st := mg_state m in
  let r := mg_rig m in
  match t with
  | ToneResumes ringing =>
      set_rig m (if ringing then r <| rg_ringtone := tone_resumes (rg_next r) (rg_ringtone r) |> <| rg_next := S (rg_next r) |>
                 else r <| rg_ringback := tone_resumes (rg_next r) (rg_ringback r) |> <| rg_next := S (rg_next r) |>)
  | OfferSent callId peerId =>
      if negb (bool_decide (cs_callId st = callId)) || negb (bool_decide (cs_phase st = Outgoing)) then m
      else if bool_decide (a = Made) then m
      else dispatch clock m (bare_event OfferFailed <| ev_now := Some clock |> <| ev_callId := callId |> <| ev_peerId := peerId |>)
  | StopsScreen k => set_rig m (wait (StopsInbound k) (drop_slot Screen r))
  | StopsInbound k => set_rig m (wait (StopsInboundScreen k) (set_inbound Camera None (set_inbound Screen None r)))
  | StopsInboundScreen k => set_rig m (wait (StopsKey k) r)
  | StopsKey k =>
      let r := drop_slot Microphone (r <| rg_callKey := None |>) in
      set_rig m (match k with Some (g, c) => wait (MediaStopped g c) r | None => r end)
  | MediaStopped g c =>
      if isCurrentMedia st r g c then set_rig m (wait (MediaKey (mk_start g c (cs_peerId st) (key_text st))) r) else m
  | MediaKey s =>
      if bool_decide (a = Made) then
        let r := r <| rg_callKey := Some (st_key s) |> in
        set_rig m (if isCurrentMedia st r (st_generation s) (st_callId s) then ensureInbound st Camera (Some s) r else r)
      else media_failed clock s m
  | InboundReady stream made k =>
      let r := match made with Some n => set_inbound stream (Some n) r | None => r end in
      set_rig m (match k with
                 | None => r
                 | Some s => if bool_decide (stream = Screen) then wait (MediaMade s) r else ensureInbound st Screen (Some s) r
                 end)
  | MediaMade s =>
      match a with
      | Made =>
          if isCurrentMedia st r (st_generation s) (st_callId s)
          then set_rig m (place (mk_capture Microphone (st_generation s) (st_callId s) (st_key s)) r) else m
      | Broke => media_failed clock s m
      | GaveUp => m
      end
  | VideoKey d g key =>
      if bool_decide (a = Made) then set_rig m (video_with_key st d g (r <| rg_callKey := Some key |>)) else m
  | VideoStopped d g => if isCurrentVideo st r d g then set_rig m (wait (VideoMade d g (default "" (rg_callKey r))) r) else m
  | VideoMade d g key =>
      match a with
      | Made =>
          if isCurrentVideo st r d g then emit_out (set_rig m (place (mk_capture d g (cs_callId st) key) r)) [video_signal st d] else m
      | Broke => video_failed clock d g m
      | GaveUp => m
      end
  end.

(** ** Incoming wire messages ([handleOffer], [handleSignal]) *)

(** A [call-offer] or [call-signal] message after [callLimits.js] has bounded it. *)
Record wire_msg := mkWire {
  wm_op : string;
  wm_callId : option string;
  wm_callKeyB64 : option string;
  wm_codecs : option (list string);
  wm_timestamp : option Z;
  wm_mediaVideo : bool;
  wm_capabilities : option capabilities;
  wm_fromDevice : option string;
  wm_codec : option string;
  wm_reason : option string;
  wm_t : option Z;
}.

Definition handleOffer (clock : Z) (isBlocked : string -> bool) (m : manager)
    (fromId : string) (msg : wire_msg) : manager :=
  dispatch clock m
    (bare_event RemoteOffer
       <| ev_peerId := Some fromId |> <| ev_callId := wm_callId msg |>
       <| ev_callKeyB64 := wm_callKeyB64 msg |> <| ev_codecs := wm_codecs msg |>
       <| ev_timestamp := wm_timestamp msg |> <| ev_mediaVideo := wm_mediaVideo msg |>
       <| ev_capabilities := wm_capabilities msg |>
       <| ev_fromDevice := wm_fromDevice msg |>
       <| ev_blocked := isBlocked fromId |> <| ev_now := Some clock |>).

(** The event a signal is dispatched as; [None] for the ops handled without one. *)
Definition signalEvent (clock : Z) (fromId : string) (msg : wire_msg) : option event :=
  let base (t : event_type) :=
    bare_event t <| ev_peerId := Some fromId |> <| ev_callId := wm_callId msg |>
      <| ev_now := Some clock |> <| ev_fromDevice := wm_fromDevice msg |> in
  if bool_decide (wm_op msg = "ringing")
  then Some (base RemoteRinging <| ev_capabilities := wm_capabilities msg |>)
  else if bool_decide (wm_op msg = "accept")
  then Some (base RemoteAccept <| ev_codec := wm_codec msg |>
               <| ev_capabilities := wm_capabilities msg |>)
  else if bool_decide (wm_op msg = "reject") then Some (base RemoteReject)
  else if bool_decide (wm_op msg = "busy") then Some (base RemoteBusy)
  else if bool_decide (wm_op msg = "cancel")
  then Some (base RemoteCancel <| ev_reason := wm_reason msg |>)
  else if bool_decide (wm_op msg = "end") then Some (base RemoteEnd)
  else if bool_decide (wm_op msg = "video-on")
  then Some (base RemoteCamera <| ev_on := Some true |>)
  else if bool_decide (wm_op msg = "video-off")
  then Some (base RemoteCamera <| ev_on := Some false |>)
  else if bool_decide (wm_op msg = "screen-on")
  then Some (base RemoteScreen <| ev_on := Some true |>)
  else if bool_decide (wm_op msg = "screen-off")
  then Some (base RemoteScreen <| ev_on := Some false |>)
  else if bool_decide (wm_op msg = "pong") then Some (base Pong <| ev_t := wm_t msg |>)
  else None.

(** [ping] is answered by the manager itself; [keyframe] goes to the encoder and
    unknown ops are dropped. *)
Definition handleSignal (clock : Z) (m : manager) (fromId : string) (msg : wire_msg)
  : manager :=
  match signalEvent clock fromId msg with
  | Some e => dispatch clock m e
  | None =>
      if bool_decide (wm_op msg = "ping")
         && bool_decide (cs_callId (mg_state m) = wm_callId msg)
         && bool_decide (cs_peerId (mg_state m) = Some fromId)
      then
        mkManager (mg_state m <| cs_lastHeardAt := clock |>) (mg_rig m)
          (mg_out m ++ [signalEffect (mg_state m) "pong" no_extra])
      else m
  end.

(** A packet of a picture ([handleVideoPacket]): what it says of the peer's camera and screen,
    and a renderer when there is none. *)
Definition handleVideoPacket (clock : Z) (m : manager) (fromId : string) (callId fromDevice : option string) (stream : device) : manager :=
  let st := mg_state m in
  if negb (is_active st) || negb (bool_decide (callId = cs_callId st)) || negb (bool_decide (cs_peerId st = Some fromId)) then m
  else
    let m := mkManager (st <| cs_lastHeardAt := clock |>) (mg_rig m) (mg_out m) in
    let on (t : event_type) : event :=
      bare_event t <| ev_on := Some true |> <| ev_now := Some clock |> <| ev_callId := cs_callId st |> <| ev_peerId := cs_peerId st |>
        <| ev_fromDevice := fromDevice |> in
    let m := if bool_decide (stream = Screen) then (if cs_remoteScreen st then m else dispatch clock m (on RemoteScreen))
             else (if cs_remoteCamera st then m else dispatch clock m (on RemoteCamera)) in
    match inbound stream (mg_rig m) with
    | Some _ => m
    | None => set_rig m (ensureInbound (mg_state m) stream None (mg_rig m))
    end.

(** The sound of the peer ([handleInbound], [call-audio]) shows that it is there. *)
Definition handleAudioPacket (clock : Z) (m : manager) (fromId : string) (callId : option string) : manager :=
  let st := mg_state m in
  if negb (is_active st) || negb (bool_decide (callId = cs_callId st)) || negb (bool_decide (cs_peerId st = Some fromId)) then m
  else mkManager (st <| cs_lastHeardAt := clock |>) (mg_rig m) (mg_out m).

(** ** Timers *)

Definition CALL_WATCHDOG_MS : Z := 15000.

(** The callback of a timer dispatches for the call there is. *)
Definition of_this_call (clock : Z) (m : manager) (t : event_type) : event :=
  bare_event t <| ev_now := Some clock |> <| ev_callId := cs_callId (mg_state m) |> <| ev_peerId := cs_peerId (mg_state m) |>.

Definition ring_timer (clock : Z) (m : manager) : manager :=
  if rg_ringTimer (mg_rig m) then dispatch clock m (of_this_call clock m RingTimeout) else m.

Definition watchdog (clock : Z) (m : manager) : manager :=
  if rg_watchdogTimer (mg_rig m) && is_active (mg_state m) && Z.leb CALL_WATCHDOG_MS (clock - cs_lastHeardAt (mg_state m))
  then dispatch clock m (of_this_call clock m ConnectionLost) else m.

Definition ping_timer (m : manager) : manager :=
  if rg_pingTimer (mg_rig m) && is_active (mg_state m) then emit_out m [signalEffect (mg_state m) "ping" no_extra] else m.

Definition destroy (m : manager) : manager :=
  mkManager createIdleCallState (runEffect createIdleCallState (clearAllTimers (mg_rig m)) StopMedia) (mg_out m).

(** ** Histories *)

Inductive input :=
| Dispatched (e : event)
| Offered (isBlocked : string -> bool) (fromId : string) (msg : wire_msg)
| Signalled (fromId : string) (msg : wire_msg)
| VideoPacket (fromId : string) (callId fromDevice : option string) (stream : device)
| AudioPacket (fromId : string) (callId : option string)
| RingFires | WatchdogFires | PingFires
| Resumed (k : nat) (a : answer)
| Destroyed.

Definition step (clock : Z) (i : input) (m : manager) : manager :=
  match i with
  | Dispatched e => dispatch clock m e
  | Offered isBlocked fromId msg => handleOffer clock isBlocked m fromId msg
  | Signalled fromId msg => handleSignal clock m fromId msg
  | VideoPacket fromId callId fromDevice stream => handleVideoPacket clock m fromId callId fromDevice stream
  | AudioPacket fromId callId => handleAudioPacket clock m fromId callId
  | RingFires => ring_timer clock m
  | WatchdogFires => watchdog clock m
  | PingFires => ping_timer m
  | Resumed k a =>
      match rg_tasks (mg_rig m) !! k with
      | Some t => resume clock a t (set_rig m (mg_rig m <| rg_tasks := delete k (rg_tasks (mg_rig m)) |>))
      | None => m
      end
  | Destroyed => destroy m
  end.

Definition run (l : list (Z * input)) (m : manager) : manager := fold_left (fun m ci => step ci.1 ci.2 m) l m.
