(* ===== verification/CallManagerFacts.v ===== *)
(** * The manager of a call: theorems

    [manager_consistent]: timers and tones follow the phase of the call, and a device is open only
    for the call there is, or while a function is under way that closes it.  What the waits of
    the manager get wrong is shown on runs. *)

From stdpp Require Import functions.
From S2P Require Import Prelude CallState CallManager.

(** ** Timers and tones *)

(** The part of the rig that changes at once. *)
Record desk := mk_desk { dk_ring : bool; dk_watchdog : bool; dk_ping : bool; dk_ringtone : bool; dk_ringback : bool }.

Definition desk_of (r : rig) : desk :=
  mk_desk (rg_ringTimer r) (rg_watchdogTimer r) (rg_pingTimer r) (tn_open (rg_ringtone r)) (tn_open (rg_ringback r)).

Definition desk_effect (k : desk) (eff : effect) : desk :=
  match eff with
  | ArmRingTimeout => mk_desk true (dk_watchdog k) (dk_ping k) (dk_ringtone k) (dk_ringback k)
  | ArmWatchdog => mk_desk (dk_ring k) true (dk_ping k) (dk_ringtone k) (dk_ringback k)
  | StartPing => mk_desk (dk_ring k) (dk_watchdog k) true (dk_ringtone k) (dk_ringback k)
  | ClearTimers => mk_desk false false false false false
  | StartRingtone => mk_desk (dk_ring k) (dk_watchdog k) (dk_ping k) true false
  | StartRingback => mk_desk (dk_ring k) (dk_watchdog k) (dk_ping k) false true
  | StopRingtone => mk_desk (dk_ring k) (dk_watchdog k) (dk_ping k) false false
  | _ => k
  end.

Lemma desk_drop d r : desk_of (drop_slot d r) = desk_of r.
Proof. unfold drop_slot. by destruct (rg_slot r d). Qed.

Lemma desk_video st d g r : desk_of (video_with_key st d g r) = desk_of r.
Proof. unfold video_with_key. destruct (isCurrentVideo _ _ _ _); [|done]. exact (desk_drop d r). Qed.

Lemma desk_start st d r : desk_of (startOutgoingVideo st d r) = desk_of r.
Proof.
  unfold startOutgoingVideo. cbn zeta. destruct (negb _); [done|]. destruct (rg_callKey _); [|done]. exact (desk_video st d _ (bump d r)).
Qed.

Lemma desk_run st r eff : desk_of (runEffect st r eff) = desk_effect (desk_of r) eff.
Proof.
  destruct eff; try done; cbn [runEffect desk_effect].
  - by repeat case_match.
  - exact (desk_drop Camera (bump Microphone r)).
  - exact (desk_drop Camera (bump Screen (bump Camera (bump Microphone r)))).
  - apply desk_start.
  - exact (desk_drop _ (bump _ r)).
Qed.

Lemma desk_fold st effs : forall r, desk_of (fold_left (runEffect st) effs r) = fold_left desk_effect effs (desk_of r).
Proof. induction effs as [|e effs IH]; intros r; [done|]. cbn [fold_left]. by rewrite IH, desk_run. Qed.

(** Every timer and tone runs exactly in its phase; once a call is active its ring timer may
    still run, and fires in vain. *)
Record desk_agrees (k : desk) (st : call_state) : Prop := {
  da_ringtone : dk_ringtone k = bool_decide (cs_phase st = Incoming);
  da_ringback : dk_ringback k = bool_decide (cs_phase st = Outgoing);
  da_watchdog : dk_watchdog k = bool_decide (cs_phase st = Active);
  da_ping : dk_ping k = bool_decide (cs_phase st = Active);
  da_ring : cs_phase st <> Active -> dk_ring k = negb (bool_decide (cs_phase st = Idle));
}.

Lemma desk_frame k st st' : desk_agrees k st -> cs_phase st' = cs_phase st -> desk_agrees k st'.
Proof. intros [Rt Rb Rw Rp Rr] Hp. constructor; rewrite ?Hp; assumption. Qed.

Lemma reduce_desk clock st e st' effs k : reduceCall clock st e = (st', effs) -> desk_agrees k st -> desk_agrees (fold_left desk_effect effs k) st'.
Proof.
  intros Hred Hra. reduce_cases e Hred.
  all: try (eapply desk_frame; [eassumption | reflexivity]).
  all: destruct Hra as [Rt Rb Rw Rp Rr].
  all: repeat match goal with H : cs_phase ?s = _ |- _ => rewrite H in *; clear H end.
  all: constructor; simpl; intros; try assumption; try reflexivity; try done.
Qed.

(** ** Devices *)

(** A task of a start of this device, in this generation. *)
Definition starts (t : task) : option (device * Z) :=
  match t with
  | StopsScreen (Some (g, _)) | StopsInbound (Some (g, _)) | StopsInboundScreen (Some (g, _)) | StopsKey (Some (g, _)) | MediaStopped g _ =>
      Some (Microphone, g)
  | MediaKey s | InboundReady _ _ (Some s) | MediaMade s => Some (Microphone, st_generation s)
  | VideoKey d g _ | VideoStopped d g | VideoMade d g _ => Some (d, g)
  | _ => None
  end.

(** It has closed what was in the slot. *)
Definition cleared (t : task) : bool :=
  match t with
  | MediaStopped _ _ | MediaKey _ | InboundReady _ _ _ | MediaMade _ | VideoStopped _ _ | VideoMade _ _ _ => true
  | _ => false
  end.

(** It will close the device in that slot, whatever happens: nothing makes [stopMedia] return early. *)
Definition closes (d : device) (t : task) : bool :=
  match t with
  | StopsScreen _ => negb (bool_decide (d = Camera))
  | StopsInbound _ | StopsInboundScreen _ | StopsKey _ => bool_decide (d = Microphone)
  | _ => false
  end.

Definition closing (d : device) (r : rig) : Prop := exists k t, rg_tasks r !! k = Some t /\ closes d t = true.

(** The device was opened for the call there is, by its last start, and the call still wants it. *)
Definition current (st : call_state) (r : rig) (c : capture) : Prop :=
  cs_phase st = Active /\ cp_generation c = rg_generation r (cp_device c) /\ cp_callId c = cs_callId st /\ wanted st (cp_device c) = true.

Definition sole (r : rig) (d : device) (g : Z) : Prop := forall k t, rg_tasks r !! k = Some t -> starts t <> Some (d, g).

(** [P]: devices that are about to be closed in the same step. *)
Record inv (P : device -> Prop) (st : call_state) (r : rig) : Prop := {
  i_open : forall x c, rg_open r !! x = Some c -> rg_slot r (cp_device c) = Some x;
  i_slot : forall d x, rg_slot r d = Some x -> exists c, rg_open r !! x = Some c /\ cp_device c = d /\ (current st r c \/ P d \/ closing d r);
  i_old : forall k t d g, rg_tasks r !! k = Some t -> starts t = Some (d, g) -> g <= rg_generation r d;
  i_one : forall k1 k2 t1 t2 s, rg_tasks r !! k1 = Some t1 -> rg_tasks r !! k2 = Some t2 -> starts t1 = Some s -> starts t2 = Some s -> k1 = k2;
  i_clear : forall k t d, rg_tasks r !! k = Some t -> starts t = Some (d, rg_generation r d) -> cleared t = true -> rg_slot r d = None;
  i_tasks : forall k, (rg_next r <= k)%nat -> rg_tasks r !! k = None;
  i_fresh : forall x, (rg_next r <= x)%nat -> rg_open r !! x = None
}.

Definition none (_ : device) : Prop := False.

Lemma inv_weaken P P' st st' r : inv P st r -> (forall c, rg_slot r (cp_device c) <> None -> current st r c -> current st' r c \/ P' (cp_device c)) ->
  (forall d, P d -> P' d) -> inv P' st' r.
Proof.
  intros [Ho Hs ? ? ? ? ?] Hc Hp. constructor; try done. intros d x Hx. destruct (Hs d x Hx) as (c & Hxc & Hd & H). exists c. split; [done|]. split; [done|].
  subst d. destruct H as [H|[H|H]]; [|by right; left; auto|by right; right]. destruct (Hc c) as [H'|H']; [congruence|done|by left|by right; left].
Qed.

Lemma inv_any P st st' r : inv P st r -> inv (fun _ => True) st' r.
Proof. intros H. eapply inv_weaken; [exact H|by right|done]. Qed.

Lemma inv_state P st st' r : inv P st r -> (forall c, current st r c -> current st' r c) -> inv P st' r.
Proof. intros H Hc. eapply inv_weaken; [exact H| |done]. intros c _ Hcur. left. by apply Hc. Qed.

Lemma inv_dead P st st' r : cs_phase st <> Active -> inv P st r -> inv P st' r.
Proof. intros Hp H. eapply inv_state; [exact H|]. by intros c [? _]. Qed.

(** Only these parts of the rig matter. *)
Lemma rig_inv_same P st r r' : rg_slot r' = rg_slot r -> rg_generation r' = rg_generation r -> rg_tasks r' = rg_tasks r -> rg_open r' = rg_open r ->
  (rg_next r <= rg_next r')%nat -> inv P st r -> inv P st r'.
Proof.
  intros Hs Hg Ht Ho Hn [A B C D E F G]. unfold closing, current in *. constructor; unfold closing, current; rewrite ?Hs, ?Hg, ?Ht, ?Ho; try done.
  - intros k Hk. apply F. lia.
  - intros x Hx. apply G. lia.
Qed.

Lemma slot_set d v r d' : rg_slot (set_slot d v r) d' = if decide (d' = d) then v else rg_slot r d'.
Proof. unfold set_slot. change (rg_slot (r <| rg_slot := ?f |>)) with f. case_decide as H; [subst; by rewrite fn_lookup_insert|by rewrite fn_lookup_insert_ne by congruence]. Qed.

Lemma inv_drop P P' st d r : inv P st r -> (forall d', P d' -> P' d' \/ d' = d) -> inv P' st (drop_slot d r).
Proof.
  intros [A B C D E F G] Hp. unfold drop_slot. destruct (rg_slot r d) as [x|] eqn:Hx.
  - assert (Hne : forall d' y, rg_slot (set_slot d None r) d' = Some y -> d' <> d /\ rg_slot r d' = Some y /\ y <> x).
    { intros d' y. rewrite slot_set. case_decide as Hd; [done|]. intros Hy. split; [done|]. split; [done|]. intros ->.
      destruct (B _ _ Hx) as (c & Hc & Hcd & _), (B _ _ Hy) as (c' & Hc' & Hcd' & _). congruence. }
    constructor; try done.
    + intros y c Hy. change (delete x (rg_open r) !! y = Some c) in Hy. apply lookup_delete_Some in Hy as [Hyx Hy]. pose proof (A _ _ Hy) as Hs.
      change (rg_slot (set_slot d None r) (cp_device c) = Some y). rewrite slot_set, decide_False; [done|]. intros Hd. congruence.
    + intros d' y Hy. destruct (Hne _ _ Hy) as (Hd & Hs & Hyx). destruct (B _ _ Hs) as (c & Hc & Hcd & H). exists c.
      split; [change (delete x (rg_open r) !! y = Some c); by apply lookup_delete_Some|]. split; [done|]. destruct H as [H|[H|H]]; [by left| |by right; right].
      destruct (Hp _ H); [by right; left|done].
    + intros k t d' Hk Hs Hcl. change (rg_slot (set_slot d None r) d' = None). rewrite slot_set. case_decide; [done|]. by eapply E.
    + intros y Hy. change (delete x (rg_open r) !! y = None). apply lookup_delete_None. right. by apply G.
  - constructor; try done. intros d' y Hy. destruct (B _ _ Hy) as (c & Hc & Hcd & H). exists c. split; [done|]. split; [done|].
    destruct H as [H|[H|H]]; [by left| |by right; right]. destruct (Hp _ H); [by right; left|congruence].
Qed.

Lemma dropped d r : rg_slot (drop_slot d r) d = None.
Proof.
  unfold drop_slot. destruct (rg_slot r d) eqn:H; [|done]. change (rg_slot (set_slot d None r) d = None). by rewrite slot_set, decide_True.
Qed.

Lemma drop_tasks d r : rg_tasks (drop_slot d r) = rg_tasks r /\ rg_generation (drop_slot d r) = rg_generation r /\ rg_callKey (drop_slot d r) = rg_callKey r.
Proof. unfold drop_slot. by destruct (rg_slot r d). Qed.

(** What a task that begins to wait owes. *)
Definition may_wait (t : task) (r : rig) : Prop :=
  forall d g, starts t = Some (d, g) -> g <= rg_generation r d /\ sole r d g /\ (cleared t = true -> g = rg_generation r d -> rg_slot r d = None).

Lemma inv_wait P P' st t r : inv P st r -> may_wait t r -> (forall d, P d -> P' d \/ closes d t = true) -> inv P' st (wait t r).
Proof.
  intros [A B C D E F G] Hm Hp. pose proof (F _ (le_n _)) as Hn.
  assert (Hl : forall k t', rg_tasks (wait t r) !! k = Some t' -> (k = rg_next r /\ t' = t) \/ rg_tasks r !! k = Some t').
  { intros k t' Hk. change (<[rg_next r := t]> (rg_tasks r) !! k = Some t') in Hk. apply lookup_insert_Some in Hk as [[<- <-]|[_ Hk]]; auto. }
  constructor; try done.
  - intros d x Hx. destruct (B _ _ Hx) as (c & Hc & Hcd & H). exists c. split; [done|]. split; [done|].
    destruct H as [H|[H|(k & t' & Hk & Ht)]]; [by left| |].
    + destruct (Hp _ H); [by right; left|]. right; right. exists (rg_next r), t. split; [exact (lookup_insert_eq _ _ _)|done].
    + right; right. exists k, t'. split; [|done]. change (<[rg_next r := t]> (rg_tasks r) !! k = Some t'). apply lookup_insert_Some. right. split; [congruence|done].
  - intros k t' d g [[-> ->]|Hk]%Hl Hs; [by apply Hm|by eapply C].
  - intros k1 k2 t1 t2 s [[-> ->]|H1]%Hl [[-> ->]|H2]%Hl Hs1 Hs2; [done| | |by eapply D].
    + destruct s as [d g]. by destruct (proj1 (proj2 (Hm d g Hs1)) k2 t2 H2).
    + destruct s as [d g]. by destruct (proj1 (proj2 (Hm d g Hs2)) k1 t1 H1).
  - intros k t' d [[-> ->]|Hk]%Hl Hs Hc; [by apply (Hm _ _ Hs)|by eapply E].
  - intros k Hk. change (rg_next (wait t r)) with (S (rg_next r)) in Hk. change (<[rg_next r := t]> (rg_tasks r) !! k = None). apply lookup_insert_None. split; [apply F; lia|lia].
  - intros x Hx. change (rg_next (wait t r)) with (S (rg_next r)) in Hx. apply G. lia.
Qed.

Lemma inv_plain P st t r : starts t = None -> inv P st r -> inv P st (wait t r).
Proof. intros Ht H. eapply inv_wait; [exact H| |by left]. intros d g Hs. congruence. Qed.

Lemma bump_gen d r d' : rg_generation (bump d r) d' = if decide (d' = d) then rg_generation r d + 1 else rg_generation r d'.
Proof.
  unfold bump. change (rg_generation (r <| rg_generation := ?f |>)) with f. case_decide as H; [subst; by rewrite fn_lookup_insert|by rewrite fn_lookup_insert_ne by congruence].
Qed.

Lemma inv_bump P P' st st' d r : inv P st r ->
  (forall c, rg_slot r (cp_device c) <> None -> current st r c -> (cp_device c <> d /\ current st' r c) \/ P' (cp_device c)) ->
  (forall d', P d' -> P' d') -> inv P' st' (bump d r).
Proof.
  intros [A B C D E F G] Hc Hp. constructor; try done.
  - intros d' x Hx. destruct (B d' x Hx) as (c & Hxc & Hcd & H). exists c. split; [done|]. split; [done|]. subst d'.
    destruct H as [H|[H|H]]; [|by right; left; auto|by right; right].
    destruct (Hc c) as [[Hne (Ha & Hg & Hi & Hw)]|H']; [by change (rg_slot (bump d r)) with (rg_slot r) in Hx; congruence|done| |by right; left].
    left. split; [done|]. rewrite bump_gen, decide_False by done. done.
  - intros k t d' g Hk Hs. rewrite bump_gen. pose proof (C _ _ _ _ Hk Hs). case_decide; [subst; lia|done].
  - intros k t d' Hk Hs Hcl. change (rg_slot (bump d r)) with (rg_slot r). rewrite bump_gen in Hs. case_decide; [|by eapply E].
    subst d'. pose proof (C _ _ _ _ Hk Hs). lia.
Qed.

Lemma bump_any d st r : inv (fun _ => True) st r -> inv (fun _ => True) st (bump d r).
Proof. intros H. eapply inv_bump; [exact H|by right|done]. Qed.

(** The start of a new generation is the only one. *)
Lemma bump_sole P st d r : inv P st r -> sole (bump d r) d (rg_generation (bump d r) d).
Proof.
  intros H k t Hk Hs. pose proof (i_old _ _ _ H k t _ _ Hk Hs) as Hle. rewrite bump_gen, decide_True in Hle by done. lia.
Qed.

Lemma inv_place P st c r : inv P st r -> current st r c -> rg_slot r (cp_device c) = None -> sole r (cp_device c) (cp_generation c) -> inv P st (place c r).
Proof.
  intros [A B C D E F G] Hc Hn Hs.
  assert (Hslot : forall d, rg_slot (place c r) d = if decide (d = cp_device c) then Some (rg_next r) else rg_slot r d).
  { intros d. change (rg_slot (place c r)) with (rg_slot (set_slot (cp_device c) (Some (rg_next r)) r)). apply slot_set. }
  constructor; try done.
  - intros x c' Hx. rewrite Hslot. change (<[rg_next r := c]> (rg_open r) !! x = Some c') in Hx. apply lookup_insert_Some in Hx as [[<- <-]|[Hne Hx]]; [by rewrite decide_True|].
    pose proof (A _ _ Hx) as Hs'. rewrite decide_False by congruence. done.
  - intros d x Hx. rewrite Hslot in Hx. case_decide as Hd.
    + injection Hx as <-. exists c. split; [exact (lookup_insert_eq _ _ _)|]. split; [done|by left].
    + destruct (B _ _ Hx) as (c' & Hc' & Hcd & H). exists c'. split; [|done]. change (<[rg_next r := c]> (rg_open r) !! x = Some c'). apply lookup_insert_Some. right. split; [|done].
      intros <-. by rewrite G in Hc'.
  - intros k t d Hk Hst Hcl. rewrite Hslot. case_decide as Hd; [|by eapply E]. subst d. exfalso.
    apply (Hs k t Hk). rewrite Hst. f_equal. f_equal. destruct Hc as (_ & Hg & _). symmetry. exact Hg.
  - intros k Hk. change (rg_next (place c r)) with (S (rg_next r)) in Hk. apply F. lia.
  - intros x Hx. change (rg_next (place c r)) with (S (rg_next r)) in Hx. change (<[rg_next r := c]> (rg_open r) !! x = None). apply lookup_insert_None. split; [apply G; lia|lia].
Qed.

(** A task that goes on. *)
Definition taken (k : nat) (r : rig) : rig := r <| rg_tasks := delete k (rg_tasks r) |>.

Lemma inv_take st r k t : inv none st r -> rg_tasks r !! k = Some t ->
  inv (fun d => closes d t = true) st (taken k r)
  /\ forall d g, starts t = Some (d, g) -> g <= rg_generation r d /\ sole (taken k r) d g /\ (cleared t = true -> g = rg_generation r d -> rg_slot r d = None).
Proof.
  intros [A B C D E F G] Hk. assert (Hl : forall k' t', rg_tasks (taken k r) !! k' = Some t' -> k' <> k /\ rg_tasks r !! k' = Some t').
  { intros k' t' H. change (delete k (rg_tasks r) !! k' = Some t') in H. apply lookup_delete_Some in H as [Hne H]. split; [congruence|done]. }
  split.
  - constructor; try done.
    + intros d x Hx. destruct (B _ _ Hx) as (c & Hc & Hcd & H). exists c. split; [done|]. split; [done|].
      destruct H as [H|[[]|(k' & t' & Hk' & Ht')]]; [by left|]. right. destruct (decide (k' = k)) as [->|Hne].
      * left. congruence.
      * right. exists k', t'. split; [|done]. change (delete k (rg_tasks r) !! k' = Some t'). apply lookup_delete_Some. split; [congruence|done].
    + intros k' t' d g [_ H]%Hl. by eapply C.
    + intros k1 k2 t1 t2 s [_ H1]%Hl [_ H2]%Hl. by eapply D.
    + intros k' t' d [_ H]%Hl. by eapply E.
    + intros k' Hk'. change (delete k (rg_tasks r) !! k' = None). apply lookup_delete_None. right. by apply F.
  - intros d g Hs. split; [by eapply C|]. split.
    + intros k' t' [Hne Hk']%Hl Hs'. by destruct (Hne (D _ _ _ _ _ Hk' Hk Hs' Hs)).
    + intros Hcl ->. by eapply E.
Qed.

(** ** Effects *)

Lemma inv_stop P st st' k r : inv P st r -> (forall d g, starts (StopsScreen k) = Some (d, g) -> g <= rg_generation r d /\ sole r d g) ->
  inv none st' (stopMedia k r).
Proof.
  intros H Hk. apply (inv_any _ _ st') in H. destruct (drop_tasks Camera r) as (Ht & Hg & _).
  eapply inv_wait; [eapply (inv_drop _ (fun d => d <> Camera)); [exact H|]| |].
  - intros d _. destruct (decide (d = Camera)); auto.
  - intros d g Hs. destruct (Hk d g Hs) as [Hle Hso]. rewrite Hg. split; [done|]. split; [|done]. unfold sole. by rewrite Ht.
  - intros d Hd. right. cbn [closes]. by rewrite bool_decide_eq_false_2.
Qed.

Lemma stop_effect P st st' r : inv P st r -> inv none st' (runEffect st' r StopMedia).
Proof. intros H. apply (inv_any _ _ st') in H. eapply inv_stop; [by do 3 apply bump_any|done]. Qed.

Lemma start_effect P st st' r : inv P st r -> inv none st' (runEffect st' r StartMedia).
Proof.
  intros H. eapply inv_stop; [exact (bump_any Microphone _ _ (inv_any _ _ st' _ H))|]. intros d g [= <- <-]. split; [apply Z.le_refl|]. by eapply (bump_sole P st Microphone r).
Qed.

Lemma video_inv st d g r : inv none st r -> sole r d g -> g <= rg_generation r d -> inv none st (video_with_key st d g r).
Proof.
  intros H Hs Hg. unfold video_with_key. destruct (isCurrentVideo _ _ _ _); [|done]. unfold stopOutgoingVideo.
  destruct (drop_tasks d r) as (Ht & Hgen & _). eapply inv_wait; [eapply (inv_drop _ none); [exact H|by left]| |by left].
  intros d' g' [= <- <-]. rewrite Hgen. split; [done|]. split; [unfold sole; by rewrite Ht|]. intros _ _. apply dropped.
Qed.

Lemma stream_effect st0 st s r : inv none st0 r ->
  (forall c, rg_slot r (cp_device c) <> None -> current st0 r c -> cp_device c <> stream_device s /\ current st r c) ->
  inv none st (runEffect st r (StartStream s)).
Proof.
  intros H Hc. cbn [runEffect]. set (d := stream_device s) in *. unfold startOutgoingVideo. cbn zeta. pose proof (bump_sole _ _ d _ H) as Hs.
  assert (Hb : inv none st (bump d r)) by (eapply inv_bump; [exact H| |done]; intros c Hc1 Hc2; left; by apply Hc).
  destruct (negb _); [done|]. destruct (rg_callKey _); [apply video_inv; [done|done|apply Z.le_refl]|].
  eapply inv_wait; [exact Hb| |by left]. intros d' g' [= <- <-]. split; [apply Z.le_refl|]. by split.
Qed.

Lemma stop_stream_effect st0 st s r : inv none st0 r ->
  (forall c, cp_device c <> stream_device s -> current st0 r c -> current st r c) -> inv none st (runEffect st r (StopStream s)).
Proof.
  intros H Hc. cbn [runEffect]. set (d := stream_device s) in *. eapply (inv_drop (fun d' => d' = d)); [|by right].
  eapply inv_bump; [exact H| |done]. intros c _ Hcur. destruct (decide (cp_device c = d)) as [->|Hne]; [by right|]. left. split; [done|]. by apply Hc.
Qed.

Definition is_media (eff : effect) : bool :=
  match eff with StartMedia | StopMedia | StartStream _ | StopStream _ => true | _ => false end.

Lemma inv_other P st st' r eff : is_media eff = false -> inv P st r -> inv P st (runEffect st' r eff).
Proof.
  intros He H. destruct eff; try done; cbn [runEffect]; try (by eapply rig_inv_same; [..|exact H]).
  - repeat case_match; try done. by apply inv_plain.
  - apply inv_plain; [done|]. by eapply rig_inv_same; [..|exact H].
  - apply inv_plain; [done|]. by eapply rig_inv_same; [..|exact H].
Qed.

Lemma current_flag st r c d : current st r c -> wanted st d = false -> cp_device c <> d.
Proof. intros (_ & _ & _ & Hw) Hd <-. congruence. Qed.

#[local] Arguments runEffect : simpl never.

(** Goes back through the effects of a reduction. *)
Ltac run_effects :=
  repeat first
    [ apply inv_other; [reflexivity|]
    | eapply stop_effect
    | eapply start_effect ].

Lemma reduce_inv clock st e st' effs r : reduceCall clock st e = (st', effs) -> inv none st r -> inv none st' (fold_left (runEffect st') effs r).
Proof.
  intros Hred H. reduce_cases e Hred.
  all: cbn [fold_left app]; run_effects.
  all: try eassumption.
  all: try (eapply inv_dead; [|eassumption]; congruence).
  all: try (eapply inv_state; [eassumption|]; intros cap (? & ? & ? & ?); by repeat split).
  all: try (eapply stop_stream_effect; [run_effects; eassumption|]; intros cap Hne (? & ? & ? & Hw); repeat split; try done;
    destruct (cp_device cap); [done| |]; first [exact Hw|by destruct Hne]).
  all: eapply stream_effect; [run_effects; eassumption|]; intros cap Hs Hc; first
    [ split; [intros Hd; apply Hs; rewrite Hd; exact (dropped Camera _)|exact Hc]
    | split; [eapply current_flag; [exact Hc|]; first
        [ change (cs_localCamera st = false); by destruct (cs_localCamera st)
        | change (cs_localScreen st = false); by destruct (cs_localScreen st) ]|]; destruct Hc as (? & ? & ? & Hw); repeat split; try done; by destruct (cp_device cap) ].
Qed.

(** ** Steps *)

Definition consistent (m : manager) : Prop :=
  call_wf (mg_state m) /\ desk_agrees (desk_of (mg_rig m)) (mg_state m) /\ inv none (mg_state m) (mg_rig m).

Lemma new_consistent : consistent newManager.
Proof. split; [|split]; constructor; simpl; repeat split; done. Qed.

Lemma dispatch_consistent clock m e : consistent m -> consistent (dispatch clock m e).
Proof.
  intros (Hw & Hd & Hi). unfold dispatch. destruct (reduceCall clock (mg_state m) e) as [st effs] eqn:Hr. split; [by eapply reduce_wf|].
  cbn [mg_state mg_rig]. split; [rewrite desk_fold; by eapply reduce_desk|by eapply reduce_inv].
Qed.

Lemma out_consistent m effs : consistent m -> consistent (emit_out m effs).
Proof. done. Qed.

(** The rig changes and its desk does not. *)
Lemma rig_consistent m r : consistent m -> desk_of r = desk_of (mg_rig m) -> inv none (mg_state m) r -> consistent (set_rig m r).
Proof. intros (Hw & Hd & _) Hr Hi. split; [done|]. split; [|done]. cbn [set_rig mg_rig]. by rewrite Hr. Qed.

(** The time of the last sign of life. *)
Lemma heard_consistent m t out : consistent m -> cs_phase (mg_state m) <> Idle -> consistent (mkManager (mg_state m <| cs_lastHeardAt := t |>) (mg_rig m) out).
Proof.
  intros ([] & Hd & Hi) Hp. split; [by constructor|]. split; [by eapply desk_frame|]. eapply inv_state; [exact Hi|]. by intros c [].
Qed.

Lemma current_media st r g c : isCurrentMedia st r g c = true -> cs_phase st = Active /\ g = rg_generation r Microphone /\ c = cs_callId st.
Proof. unfold isCurrentMedia, is_active. rewrite !andb_true_iff, !bool_decide_eq_true, Z.eqb_eq. by intros [[-> ->] ->]. Qed.

Lemma current_video st r d g : isCurrentVideo st r d g = true -> cs_phase st = Active /\ g = rg_generation r d /\ wanted st d = true.
Proof. unfold isCurrentVideo, is_active. rewrite !andb_true_iff, bool_decide_eq_true, Z.eqb_eq. by intros [[-> ->] ->]. Qed.

Lemma media_failed_consistent clock s m : consistent m -> consistent (media_failed clock s m).
Proof. intros H. unfold media_failed. destruct (negb _); [done|]. by apply dispatch_consistent. Qed.

Lemma video_failed_consistent clock d g m : consistent m -> consistent (video_failed clock d g m).
Proof. intros H. unfold video_failed. destruct (negb _); [done|]. by apply dispatch_consistent. Qed.

(** ** Promises that settle *)

(** The task [t'] goes on where [t] waited. *)
Lemma may_go_on t t' r r' : (forall d g, starts t = Some (d, g) -> g <= rg_generation r d /\ sole r d g /\ (cleared t = true -> g = rg_generation r d -> rg_slot r d = None)) ->
  rg_generation r' = rg_generation r -> rg_tasks r' = rg_tasks r ->
  (forall s, starts t' = Some s -> starts t = Some s) ->
  (forall d g, starts t' = Some (d, g) -> cleared t' = true -> (cleared t = true /\ rg_slot r' d = rg_slot r d) \/ rg_slot r' d = None) -> may_wait t' r'.
Proof.
  intros H Hg Ht Hs Hc d g Hst. destruct (H d g (Hs _ Hst)) as (Hle & Hso & Hcl). rewrite Hg. split; [done|]. split; [unfold sole; by rewrite Ht|].
  intros Hc' Heq. destruct (Hc d g Hst Hc') as [[Hct Hsl]|Hn]; [|done]. rewrite Hsl. by apply Hcl.
Qed.

Lemma inv_undemanding P st r : (forall d, P d -> False) -> inv P st r -> inv none st r.
Proof. intros Hp H. eapply inv_weaken; [exact H|by left|exact Hp]. Qed.

Lemma set_inbound_same P st d v r : inv P st r -> inv P st (set_inbound d v r) /\ desk_of (set_inbound d v r) = desk_of r
  /\ rg_tasks (set_inbound d v r) = rg_tasks r /\ rg_generation (set_inbound d v r) = rg_generation r /\ rg_slot (set_inbound d v r) = rg_slot r.
Proof. unfold set_inbound. intros H. destruct (bool_decide _); (split; [by eapply rig_inv_same; [..|exact H]|done]). Qed.

Section Resume.
Context (m : manager) (k : nat) (t : task).
Context (Hm : consistent m) (Hk : rg_tasks (mg_rig m) !! k = Some t).

Let r1 : rig := taken k (mg_rig m).

Local Lemma taken_inv : inv (fun d => closes d t = true) (mg_state m) r1.
Proof. exact (proj1 (inv_take _ _ _ _ (proj2 (proj2 Hm)) Hk)). Qed.

Local Lemma taken_owes d g : starts t = Some (d, g) -> g <= rg_generation r1 d /\ sole r1 d g /\ (cleared t = true -> g = rg_generation r1 d -> rg_slot r1 d = None).
Proof. destruct (inv_take _ _ _ _ (proj2 (proj2 Hm)) Hk) as [_ H]. apply H. Qed.

Local Lemma taken_plain : (forall d, closes d t = false) -> inv none (mg_state m) r1.
Proof. intros H. eapply inv_undemanding; [|exact taken_inv]. intros d. cbn. by rewrite H. Qed.

Local Lemma taken_consistent : (forall d, closes d t = false) -> consistent (set_rig m r1).
Proof. intros H. apply rig_consistent; [done|done|]. by apply taken_plain. Qed.

(** A stage of [stopMedia] after another. *)
Local Lemma next_stage t' r : desk_of r = desk_of r1 -> rg_generation r = rg_generation r1 -> rg_tasks r = rg_tasks r1 ->
  inv (fun d => closes d t' = true) (mg_state m) r ->
  (forall s, starts t' = Some s -> starts t = Some s) ->
  (forall d g, starts t' = Some (d, g) -> cleared t' = true -> (cleared t = true /\ rg_slot r d = rg_slot r1 d) \/ rg_slot r d = None) ->
  consistent (set_rig m (wait t' r)).
Proof.
  intros Hd Hg Ht Hi Hs Hc. apply rig_consistent; [done|exact Hd|]. eapply inv_wait; [exact Hi| |by right].
  eapply (may_go_on t t' r1 r); [exact taken_owes|done..].
Qed.

(** A step of a start that leaves the slots alone. *)
Local Lemma goes_on t' r : (forall d, closes d t = false) -> cleared t = true -> desk_of r = desk_of r1 -> rg_generation r = rg_generation r1 ->
  rg_tasks r = rg_tasks r1 -> rg_slot r = rg_slot r1 -> inv none (mg_state m) r ->
  (forall s, starts t' = Some s -> starts t = Some s) -> consistent (set_rig m (wait t' r)).
Proof.
  intros Hcl Hct Hd Hg Ht Hs Hi Hst. apply next_stage; try done.
  - eapply inv_weaken; [exact Hi|by left|done].
  - intros d g _ _. left. by rewrite Hs.
Qed.

Local Lemma opens c : (forall d, closes d t = false) -> cleared t = true -> starts t = Some (cp_device c, cp_generation c) -> current (mg_state m) r1 c ->
  consistent (set_rig m (place c r1)).
Proof.
  intros Hcl Hct Hs Hc. apply rig_consistent; [done|done|]. destruct (taken_owes _ _ Hs) as (_ & Hso & Hn).
  apply inv_place; [by apply taken_plain|done| |done]. apply Hn; [done|]. by destruct Hc as (_ & ? & _).
Qed.

End Resume.

Lemma resume_consistent clock a m k t : consistent m -> rg_tasks (mg_rig m) !! k = Some t -> consistent (resume clock a t (set_rig m (taken k (mg_rig m)))).
Proof.
  intros Hm Hk. pose proof (taken_inv m k t Hm Hk) as Hi. pose proof (taken_consistent m k t Hm Hk) as Hc.
  pose proof (taken_owes m k t Hm Hk) as Ho. pose proof (taken_plain m k t Hm Hk) as Hp.
  set (r1 := taken k (mg_rig m)) in *. set (m1 := set_rig m r1) in *.
  assert (Hdesk : forall d, desk_of (drop_slot d r1) = desk_of r1) by (intros d; apply desk_drop).
  destruct t as [b|callId peerId|w|w|w|w|g c|s|stream made w|s|d g key|d g|d g key]; cbn [resume];
    change (mg_rig m1) with r1; change (mg_state m1) with (mg_state m); change (set_rig m1 ?r) with (set_rig m r).
  - destruct b; (apply rig_consistent; [done|done|]; eapply rig_inv_same; [..|by apply Hp]; try done; cbn; lia).
  - destruct (_ || _); [by apply Hc|]. case_bool_decide; [by apply Hc|]. apply dispatch_consistent. by apply Hc.
  - destruct (drop_tasks Screen r1) as (Ht & Hg & _). apply (next_stage m k _ Hm Hk); [done|done|done| |by destruct w|by destruct w as [[]|]].
    eapply inv_drop; [exact Hi|]. intros []; cbn; auto.
  - destruct (set_inbound_same _ _ Screen None _ Hi) as (H1 & D1 & T1 & G1 & S1). destruct (set_inbound_same _ _ Camera None _ H1) as (H2 & D2 & T2 & G2 & S2).
    apply (next_stage m k _ Hm Hk); [by rewrite D2|by rewrite G2|by rewrite T2|exact H2|by destruct w|by destruct w as [[]|]].
  - apply (next_stage m k _ Hm Hk); [done|done|done|exact Hi|by destruct w|by destruct w as [[]|]].
  - set (r2 := r1 <| rg_callKey := None |>). assert (Hi2 : inv (fun d => closes d (StopsKey w) = true) (mg_state m) r2) by by eapply rig_inv_same; [..|exact Hi].
    assert (H3 : inv none (mg_state m) (drop_slot Microphone r2)) by (eapply inv_drop; [exact Hi2|]; intros d' Hd; right; by apply bool_decide_eq_true in Hd).
    destruct (drop_tasks Microphone r2) as (Ht & Hg & _). destruct w as [[g c]|].
    + apply (next_stage m k _ Hm Hk); [exact (desk_drop Microphone r2)|done|done|eapply inv_weaken; [exact H3|by left|done]|done|].
      intros d g' [= <- <-] _. right. apply dropped.
    + apply rig_consistent; [done|exact (desk_drop Microphone r2)|done].
  - destruct (isCurrentMedia _ _ _ _); [|by apply Hc]. apply (goes_on m k _ Hm Hk); try done. by apply Hp.
  - case_bool_decide; [|apply media_failed_consistent; by apply Hc]. set (r2 := r1 <| rg_callKey := _ |>).
    assert (Hi2 : inv none (mg_state m) r2) by by eapply rig_inv_same; [..|by apply Hp].
    destruct (isCurrentMedia _ _ _ _); [|by apply rig_consistent]. by apply (goes_on m k _ Hm Hk).
  - set (r2 := match made with Some n => _ | None => r1 end).
    assert (H2 : inv none (mg_state m) r2 /\ desk_of r2 = desk_of r1 /\ rg_tasks r2 = rg_tasks r1 /\ rg_generation r2 = rg_generation r1 /\ rg_slot r2 = rg_slot r1).
    { subst r2. destruct made; [apply set_inbound_same|]; split_and?; try done; by apply Hp. }
    destruct H2 as (Hi2 & D2 & T2 & G2 & S2). destruct w as [s|]; [|by apply rig_consistent]. case_bool_decide; by apply (goes_on m k _ Hm Hk).
  - destruct a; [|apply media_failed_consistent; by apply Hc|by apply Hc]. destruct (isCurrentMedia _ _ _ _) eqn:Hcur; [|by apply Hc].
    apply current_media in Hcur as (? & ? & ?). by apply (opens m k _ Hm Hk).
  - case_bool_decide; [|by apply Hc]. set (r2 := r1 <| rg_callKey := _ |>).
    apply rig_consistent; [done|exact (desk_video _ d g r2)|]. destruct (Ho _ _ eq_refl) as (Hle & Hso & _).
    apply video_inv; [by eapply rig_inv_same; [..|by apply Hp]|done|done].
  - destruct (isCurrentVideo _ _ _ _); [|by apply Hc]. apply (goes_on m k _ Hm Hk); try done. by apply Hp.
  - destruct a; [|apply video_failed_consistent; by apply Hc|by apply Hc]. destruct (isCurrentVideo _ _ _ _) eqn:Hcur; [|by apply Hc].
    apply current_video in Hcur as (? & ? & ?). apply out_consistent. by apply (opens m k _ Hm Hk).
Qed.

Lemma active_not_idle st : is_active st = true -> cs_phase st <> Idle.
Proof. unfold is_active. rewrite bool_decide_eq_true. congruence. Qed.

Lemma signal_consistent clock m fromId msg : consistent m -> consistent (handleSignal clock m fromId msg).
Proof.
  intros H. unfold handleSignal. destruct (signalEvent _ _ _); [by apply dispatch_consistent|]. destruct (_ && _) eqn:Hp; [|done].
  apply andb_true_iff in Hp as [_ Hp%bool_decide_eq_true]. apply heard_consistent; [done|]. intros Hi. apply (wf_idle _ (proj1 H)) in Hi. by rewrite Hi in Hp.
Qed.

Lemma packet_consistent clock m fromId callId fromDevice stream : consistent m -> consistent (handleVideoPacket clock m fromId callId fromDevice stream).
Proof.
  intros H. unfold handleVideoPacket. destruct (_ || _) eqn:Ha; [done|]. cbn zeta. set (m1 := mkManager _ _ _).
  assert (H1 : consistent m1) by (apply heard_consistent; [done|]; apply active_not_idle; by destruct (is_active _)).
  match goal with |- context [inbound stream (mg_rig ?x)] => set (m2 := x); assert (H2 : consistent m2) end.
  { subst m2. destruct (bool_decide (stream = Screen)); [destruct (cs_remoteScreen _)|destruct (cs_remoteCamera _)]; try done; by apply dispatch_consistent. }
  clearbody m2. destruct (inbound _ _); [done|]. apply rig_consistent; [done|done|]. apply inv_plain; [done|]. by apply H2.
Qed.

Lemma destroy_consistent m : consistent m -> consistent (destroy m).
Proof.
  intros (Hw & Hd & Hi). split; [apply new_consistent|]. unfold destroy. cbn [mg_state mg_rig]. split; [|eapply stop_effect; by eapply rig_inv_same; [..|exact Hi]].
  rewrite desk_run. constructor; done.
Qed.

Lemma step_consistent clock i m : consistent m -> consistent (step clock i m).
Proof.
  intros H. destruct i as [e|isBlocked fromId msg|fromId msg|fromId callId fromDevice stream|fromId callId| | | |k a|]; cbn [step].
  - by apply dispatch_consistent.
  - by apply dispatch_consistent.
  - by apply signal_consistent.
  - by apply packet_consistent.
  - unfold handleAudioPacket. destruct (_ || _) eqn:Ha; [done|]. apply heard_consistent; [done|]. apply active_not_idle. by destruct (is_active _).
  - unfold ring_timer. destruct (rg_ringTimer _); [by apply dispatch_consistent|done].
  - unfold watchdog. destruct (_ && _); [by apply dispatch_consistent|done].
  - unfold ping_timer. by destruct (_ && _).
  - destruct (rg_tasks (mg_rig m) !! k) as [t|] eqn:Hk; [|done]. by apply (resume_consistent clock a m k t).
  - by apply destroy_consistent.
Qed.

Lemma run_consistent l : forall m, consistent m -> consistent (run l m).
Proof. induction l as [|[c i] l IH]; intros m H; [done|]. by apply IH, step_consistent. Qed.

(** ** The waits end *)

Definition weight (t : task) : nat :=
  match t with
  | ToneResumes _ | OfferSent _ _ | VideoMade _ _ _ | InboundReady _ _ None => 1
  | VideoStopped _ _ => 2
  | VideoKey _ _ _ => 3
  | MediaMade _ => 5
  | InboundReady s _ (Some _) => if bool_decide (s = Screen) then 6 else 7
  | MediaKey _ => 8
  | MediaStopped _ _ => 9
  | StopsKey None => 1 | StopsInboundScreen None => 2 | StopsInbound None => 3 | StopsScreen None => 4
  | StopsKey _ => 10 | StopsInboundScreen _ => 11 | StopsInbound _ => 12 | StopsScreen _ => 13
  end.

Definition add_weight (_ : nat) (t : task) (n : nat) : nat := (weight t + n)%nat.

(** How often, at most, the functions that are under way wait before they end. *)
Definition waits (r : rig) : nat := map_fold add_weight 0%nat (rg_tasks r).

Lemma fold_insert (l : gmap nat task) k t : l !! k = None -> map_fold add_weight 0%nat (<[k := t]> l) = (weight t + map_fold add_weight 0 l)%nat.
Proof. intros H. apply (map_fold_insert_L add_weight 0%nat k t l); [|done]. unfold add_weight. intros; lia. Qed.

Lemma fold_delete (l : gmap nat task) k t : l !! k = Some t -> map_fold add_weight 0%nat l = (weight t + map_fold add_weight 0 (delete k l))%nat.
Proof. intros H. rewrite <- (insert_delete_id _ _ _ H) at 1. apply fold_insert, lookup_delete_eq. Qed.

Lemma waits_wait t r : (waits (wait t r) <= weight t + waits r)%nat.
Proof.
  change (waits (wait t r)) with (map_fold add_weight 0%nat (<[rg_next r := t]> (rg_tasks r))). unfold waits.
  destruct (rg_tasks r !! rg_next r) as [t'|] eqn:H; [|by rewrite fold_insert].
  rewrite (fold_delete _ _ _ H), <- insert_delete_eq, fold_insert by apply lookup_delete_eq. lia.
Qed.

Lemma waits_same r r' : rg_tasks r' = rg_tasks r -> waits r' = waits r.
Proof. unfold waits. by intros ->. Qed.

Lemma waits_drop d r : waits (drop_slot d r) = waits r.
Proof. apply waits_same, drop_tasks. Qed.

Lemma waits_video st d g r : (waits (video_with_key st d g r) <= 2 + waits r)%nat.
Proof.
  unfold video_with_key. destruct (isCurrentVideo _ _ _ _); [|lia]. pose proof (waits_wait (VideoStopped d g) (drop_slot d r)) as H.
  rewrite waits_drop in H. exact H.
Qed.

Lemma waits_inbound st d s r : (waits (ensureInbound st d (Some s) r) <= (if bool_decide (d = Screen) then 6 else 7) + waits r)%nat.
Proof. unfold ensureInbound. apply waits_wait. Qed.

Definition effect_weight (eff : effect) : nat :=
  match eff with SendOffer | StartRingtone | StartRingback => 1 | StartMedia => 13 | StopMedia => 4 | StartStream _ => 3 | _ => 0 end.

Lemma waits_effect st r eff : (waits (runEffect st r eff) <= effect_weight eff + waits r)%nat.
Proof.
  destruct eff; try (cbn [effect_weight runEffect]; by apply Nat.eq_le_incl); unfold runEffect, effect_weight.
  - repeat case_match; try lia. apply waits_wait.
  - etrans; [apply waits_wait|]. by apply Nat.eq_le_incl.
  - etrans; [apply waits_wait|]. by apply Nat.eq_le_incl.
  - unfold startMedia, stopMedia. etrans; [apply waits_wait|]. rewrite waits_drop. by apply Nat.eq_le_incl.
  - unfold stopMedia. etrans; [apply waits_wait|]. rewrite waits_drop. by apply Nat.eq_le_incl.
  - unfold startOutgoingVideo. cbn zeta. change (waits r) with (waits (bump (stream_device stream) r)). set (r' := bump _ r).
    destruct (negb _); [lia|]. destruct (rg_callKey r'); [|apply (waits_wait (VideoKey _ _ _))].
    etrans; [apply waits_video|]. lia.
  - unfold stopOutgoingVideo. rewrite waits_drop. by apply Nat.eq_le_incl.
Qed.

Lemma waits_fold st effs : forall r, (waits (fold_left (runEffect st) effs r) <= sum_list_with effect_weight effs + waits r)%nat.
Proof. induction effs as [|e effs IH]; intros r; [done|]. cbn [fold_left sum_list_with]. etrans; [apply IH|]. pose proof (waits_effect st r e). lia. Qed.

(** What a failed start dispatches begins at most one [stopMedia]. *)
Lemma waits_lost clock m e : ev_type e = ConnectionLost -> (waits (mg_rig (dispatch clock m e)) <= 4 + waits (mg_rig m))%nat.
Proof.
  intros He. unfold dispatch, reduceCall. rewrite He. unfold reduceConnectionLost. destruct (_ || _); [cbn; lia|].
  unfold idleWith. cbn [mg_rig]. etrans; [apply waits_fold|]. by apply Nat.eq_le_incl.
Qed.

Lemma waits_offer clock m e : ev_type e = OfferFailed -> (waits (mg_rig (dispatch clock m e)) <= waits (mg_rig m))%nat.
Proof.
  intros He. unfold dispatch, reduceCall. rewrite He. unfold reduceOfferFailed. destruct (_ || _); [cbn; lia|].
  unfold idleWith. cbn [mg_rig]. etrans; [apply waits_fold|]. by apply Nat.eq_le_incl.
Qed.

Lemma waits_off clock m e : (ev_type e = LocalCamera \/ ev_type e = LocalScreen) -> ev_on e = Some false ->
  (waits (mg_rig (dispatch clock m e)) <= waits (mg_rig m))%nat.
Proof.
  intros He Ho. unfold dispatch, reduceCall. destruct He as [-> | ->]; unfold reduceLocalMediaFlag; (destruct (negb _); [cbn; lia|]);
    rewrite Ho, bool_decide_eq_true_2 by done; cbn [negb andb]; (destruct (Bool.eqb _ _); [cbn; lia|]); cbn [mg_rig];
    (etrans; [apply waits_fold|]); by apply Nat.eq_le_incl.
Qed.

Lemma waits_resume clock a t m : (waits (mg_rig (resume clock a t m)) < weight t + waits (mg_rig m))%nat.
Proof.
  assert (Hw : forall t' r, waits r = waits (mg_rig m) -> (waits (wait t' r) <= weight t' + waits (mg_rig m))%nat).
  { intros t' r <-. apply waits_wait. }
  assert (Hmedia : forall s, (waits (mg_rig (media_failed clock s m)) <= 4 + waits (mg_rig m))%nat).
  { intros s. unfold media_failed. destruct (negb _); [lia|]. by apply (waits_lost clock (emit_out m _)). }
  assert (Hvideo : forall d g, (waits (mg_rig (video_failed clock d g m)) <= waits (mg_rig m))%nat).
  { intros d g. unfold video_failed. destruct (negb _); [lia|]. apply (waits_off clock (emit_out m _)); [|done]. cbn. case_bool_decide; auto. }
  pose proof (waits_drop Screen (mg_rig m)) as Hd.
  destruct t as [b|callId peerId|w|w|w|w|g c|s|stream made w|s|d g key|d g|d g key]; cbn [resume].
  - by destruct b; apply Nat.lt_succ_r.
  - destruct (_ || _); [cbn; lia|]. case_bool_decide; [cbn; lia|]. apply Nat.lt_succ_r. by apply waits_offer.
  - pose proof (Hw (StopsInbound w) _ Hd) as Hn. destruct w; cbn in *; lia.
  - pose proof (Hw (StopsInboundScreen w) (set_inbound Camera None (set_inbound Screen None (mg_rig m))) eq_refl) as Hn. destruct w; cbn in *; lia.
  - pose proof (Hw (StopsKey w) (mg_rig m) eq_refl) as Hn. destruct w; cbn in *; lia.
  - set (r := drop_slot Microphone _). assert (Hr : waits r = waits (mg_rig m)) by exact (waits_drop Microphone _).
    destruct w as [[g c]|]; [pose proof (Hw (MediaStopped g c) r Hr) as Hn|]; cbn in *; lia.
  - destruct (isCurrentMedia _ _ _ _); [|cbn; lia]. pose proof (Hw (MediaKey (mk_start g c (cs_peerId (mg_state m)) (key_text (mg_state m)))) (mg_rig m) eq_refl). cbn in *. lia.
  - case_bool_decide; [|pose proof (Hmedia s); cbn; lia]. set (r := _ <| rg_callKey := _ |>).
    destruct (isCurrentMedia _ _ _ _); [|apply (Nat.lt_add_pos_l 8); lia]. pose proof (waits_inbound (mg_state m) Camera s r) as Hn.
    change (waits r) with (waits (mg_rig m)) in Hn. rewrite bool_decide_eq_false_2 in Hn by done. cbn in *. lia.
  - set (r := match made with Some n => _ | None => _ end). assert (Hr : waits r = waits (mg_rig m)).
    { subst r. destruct made; [|done]. unfold set_inbound. by destruct (bool_decide _). }
    destruct w as [s|]; [|cbn in *; lia]. cbn [weight]. destruct (bool_decide (stream = Screen)).
    + pose proof (Hw (MediaMade s) r Hr). cbn in *. lia.
    + pose proof (waits_inbound (mg_state m) Screen s r) as Hn. rewrite bool_decide_eq_true_2 in Hn by done. cbn in *. lia.
  - destruct a; [|pose proof (Hmedia s); cbn; lia|cbn; lia]. destruct (isCurrentMedia _ _ _ _); [|cbn; lia]. apply (Nat.lt_add_pos_l 5); lia.
  - case_bool_decide; [|cbn; lia]. set (r := _ <| rg_callKey := _ |>). pose proof (waits_video (mg_state m) d g r) as Hn.
    change (waits r) with (waits (mg_rig m)) in Hn. cbn in *. lia.
  - destruct (isCurrentVideo _ _ _ _); [|cbn; lia]. pose proof (Hw (VideoMade d g (default "" (rg_callKey (mg_rig m)))) (mg_rig m) eq_refl). cbn in *. lia.
  - destruct a; [|pose proof (Hvideo d g); cbn; lia|cbn; lia]. destruct (isCurrentVideo _ _ _ _); [|cbn; lia]. apply (Nat.lt_add_pos_l 1); lia.
Qed.

(** ** The manager over a whole history *)

(** C1: After any history of events, packets, timers and promises that settle in any order, also
    of calls that are over, the state is well formed; the ring tone has a context exactly
    while a call comes in and the ring-back exactly while one goes out, the watchdog and the
    ping run exactly while a call is active and, before that, the ring timer exactly while it
    rings.  Every microphone, camera and screen that is open is in its slot, and belongs to the
    active call, was opened by the last start of that device and is still wanted by the
    state, or a function is under way that closes it.  That does not go on for ever: each
    promise that settles brings what is under way nearer to its end, and when all of it has
    ended and no call is active no device is open. *)
Theorem manager_consistent l :
  let m := run l newManager in
  let st := mg_state m in
  let r := mg_rig m in
  call_wf st
  /\ desk_agrees (desk_of r) st
  /\ (forall x c, rg_open r !! x = Some c -> rg_slot r (cp_device c) = Some x /\ (current st r c \/ closing (cp_device c) r))
  /\ (forall clock k a t, rg_tasks r !! k = Some t -> (waits (mg_rig (step clock (Resumed k a) m)) < waits r)%nat)
  /\ (rg_tasks r = ∅ -> cs_phase st <> Active -> rg_open r = ∅).
Proof.
  intros m st r. destruct (run_consistent l newManager new_consistent) as (Hw & Hd & Hi). fold m st r in Hw, Hd, Hi.
  assert (Ho : forall x c, rg_open r !! x = Some c -> rg_slot r (cp_device c) = Some x /\ (current st r c \/ closing (cp_device c) r)).
  { intros x c Hx. pose proof (i_open _ _ _ Hi _ _ Hx) as Hs. split; [done|]. destruct (i_slot _ _ _ Hi _ _ Hs) as (c' & Hx' & _ & H).
    assert (c' = c) as -> by congruence. destruct H as [H|[[]|H]]; [by left|by right]. }
  split; [done|]. split; [done|]. split; [done|]. split.
  - intros clock k a t Hk. cbn [step]. fold r. rewrite Hk. unfold waits at 2. rewrite (fold_delete _ _ _ Hk).
    exact (waits_resume clock a t (set_rig m (taken k r))).
  - intros Ht Hp. apply map_empty. intros x. destruct (rg_open r !! x) as [c|] eqn:Hx; [|done].
    destruct (Ho _ _ Hx) as [_ [[Ha _]|(k & t & Hk & _)]]; [done|]. by rewrite Ht, lookup_empty in Hk.
Qed.

(** ** What goes wrong *)

Definition all_made (ks : list nat) : list (Z * input) := map (fun k => (10, Resumed k Made)) ks.

Definition call_of (callId : string) (video : bool) : event :=
  bare_event LocalStart <| ev_callId := Some callId |> <| ev_peerId := Some "bob" |> <| ev_callKeyB64 := Some callId |> <| ev_mediaVideo := video |>.

Definition bob_accepts (callId : string) : event :=
  bare_event RemoteAccept <| ev_callId := Some callId |> <| ev_peerId := Some "bob" |> <| ev_codec := Some "opus" |>
    <| ev_capabilities := Some (mkCaps ["vp8"] (Some true)) |>.

(** A call that was accepted, with [first] the number of its first task. *)
Definition accepted (callId : string) (video : bool) (first : nat) : list (Z * input) :=
  [(1, Dispatched (call_of callId video))] ++ all_made [first; S first] ++ [(2, Dispatched (bob_accepts callId))].

Definition hang_up : Z * input := (20, Dispatched (bare_event LocalEnd)).

Definition ended (l : list (Z * input)) (p : phase) : Prop :=
  cs_phase (mg_state (run l newManager)) = p /\ rg_tasks (mg_rig (run l newManager)) = ∅.

(** A call ends while [startMedia] makes the renderer of the camera: [ensureInbound] does not look
    again when it goes on, and the renderer stays in its place after the call. *)
Definition ends_while_rendering : list (Z * input) :=
  accepted "c1" false 0 ++ all_made (seq 3 6) ++ [hang_up] ++ all_made (seq 10 4 ++ [9; 14])%nat ++ [(30, Resumed 15 GaveUp)].

Theorem renderer_outlives_call : ended ends_while_rendering Idle
  /\ rg_inboundCamera (mg_rig (run ends_while_rendering newManager)) = Some (mk_renderer (Some "c1") "c1").
Proof. split; [split|]; by vm_compute. Qed.

(** The [stopMedia] of a call still waits for a device to close when the next call has begun: it
    then closes the microphone of that call, which goes on without a sound. *)
Definition late_stop : list (Z * input) :=
  accepted "c1" false 0 ++ all_made (seq 3 9) ++ [hang_up] ++ accepted "c2" false 14 ++ all_made (seq 17 9 ++ [13; 27; 28; 29])%nat.

Theorem late_stop_silences_next_call : ended late_stop Active /\ rg_slot (mg_rig (run late_stop newManager)) Microphone = None
  /\ rg_slot (mg_rig (run (take 29 late_stop) newManager)) Microphone <> None.
Proof. split; [split|split]; by vm_compute. Qed.

(** The key cannot be imported: [startOutgoingVideo] returns without a word and the state still
    says that the camera is on. *)
Definition key_fails : list (Z * input) := accepted "c1" true 0 ++ [(5, Resumed 4 Broke)] ++ all_made (3 :: seq 5 8)%nat.

Theorem camera_shown_but_off : ended key_fails Active /\ cs_localCamera (mg_state (run key_fails newManager)) = true
  /\ rg_slot (mg_rig (run key_fails newManager)) Camera = None.
Proof. split; [split|split]; by vm_compute. Qed.

(** A tone that is stopped while it waits for its context goes on to start its interval, which
    then runs, though unheard, when there is no call. *)
Definition cancelled_early : list (Z * input) :=
  [(1, Dispatched (call_of "c1" false)); (2, Dispatched (bare_event LocalCancel))] ++ all_made [0; 1]%nat.

Theorem tone_interval_left : ended cancelled_early Idle /\ tn_running (rg_ringback (mg_rig (run cancelled_early newManager))) <> ∅
  /\ sounds (rg_ringback (mg_rig (run cancelled_early newManager))) = false.
Proof. split; [split|split]; by vm_compute. Qed.
