(* ===== verification/Json.v ===== *)
(** * JavaScript values that come from JSON

    Stores, cloud operations and messages of other peers are plain JSON values; the code
    inspects them dynamically.  [undefined] (a missing property) is [None] of [option json].
    Numbers are integers.  An object is the list of its properties in enumeration order,
    each name once. *)

From stdpp Require Import pretty.
From S2P Require Import Prelude.

Inductive json :=
| JNull
| JBool (b : bool)
| JNum (n : Z)
| JStr (s : string)
| JArr (items : list json)
| JObj (fields : list (string * json)).

(** Induction over the nested lists. *)
Section json_induction.
Variable P : json -> Prop.
Hypothesis Hnull : P JNull.
Hypothesis Hbool : forall b, P (JBool b).
Hypothesis Hnum : forall n, P (JNum n).
Hypothesis Hstr : forall s, P (JStr s).
Hypothesis Harr : forall items, Forall P items -> P (JArr items).
Hypothesis Hobj : forall fields, Forall (fun f => P f.2) fields -> P (JObj fields).

Fixpoint json_nested_ind (j : json) : P j :=
  match j with
  | JNull => Hnull
  | JBool b => Hbool b
  | JNum n => Hnum n
  | JStr s => Hstr s
  | JArr items =>
      Harr items ((fix go l : Forall P l :=
        match l with [] => List.Forall_nil _ | x :: l' => @List.Forall_cons _ _ _ _ (json_nested_ind x) (go l') end) items)
  | JObj fields =>
      Hobj fields ((fix go (l : list (string * json)) : Forall (fun f => P f.2) l :=
        match l with [] => List.Forall_nil _ | x :: l' => @List.Forall_cons _ _ _ _ (json_nested_ind x.2) (go l') end) fields)
  end.
End json_induction.

Fixpoint json_eqb (a b : json) {struct a} : bool :=
  match a, b with
  | JNull, JNull => true
  | JBool x, JBool y => Bool.eqb x y
  | JNum x, JNum y => Z.eqb x y
  | JStr x, JStr y => String.eqb x y
  | JArr x, JArr y =>
      (fix go (l m : list json) : bool :=
         match l, m with
         | [], [] => true
         | v :: l', w :: m' => json_eqb v w && go l' m'
         | _, _ => false
         end) x y
  | JObj x, JObj y =>
      (fix go (l m : list (string * json)) : bool :=
         match l, m with
         | [], [] => true
         | v :: l', w :: m' => String.eqb v.1 w.1 && json_eqb v.2 w.2 && go l' m'
         | _, _ => false
         end) x y
  | _, _ => false
  end.

Lemma json_eqb_spec a : forall b, json_eqb a b = true <-> a = b.
Proof.
  induction a as [|b|n|s|l IH|l IH] using json_nested_ind; intros b'; destruct b'; simpl;
    try (split; [discriminate|discriminate]).
  - done.
  - rewrite Bool.eqb_true_iff. split; [by intros ->|by intros [= ->]].
  - rewrite Z.eqb_eq. split; [by intros ->|by intros [= ->]].
  - rewrite String.eqb_eq. split; [by intros ->|by intros [= ->]].
  - revert items. induction IH as [|x l Hx Hl IHl]; intros [|y items]; try (split; discriminate); [done|].
    rewrite andb_true_iff, Hx, IHl. naive_solver.
  - revert fields. induction IH as [|[k x] l Hx Hl IHl]; intros [|[k' y] fields];
      try (split; discriminate); [done|]. simpl in *.
    rewrite !andb_true_iff, String.eqb_eq, Hx, IHl. naive_solver.
Qed.

#[export] Instance json_eq_dec : EqDecision json.
Proof.
  intros a b. destruct (json_eqb a b) eqn:E; [left | right]; rewrite <- json_eqb_spec; congruence.
Defined.

(** ** Properties of an object *)

Abbreviation fields := (list (string * json)).

Section fields.
Context {A : Type}.

(** [obj[key]]. *)
Fixpoint get (f : list (string * A)) (key : string) : option A :=
  match f with
  | [] => None
  | (k, v) :: rest => if bool_decide (k = key) then Some v else get rest key
  end.

(** [obj[key] = value]: in place, or after the others. *)
Fixpoint set (f : list (string * A)) (key : string) (value : A) : list (string * A) :=
  match f with
  | [] => [(key, value)]
  | (k, v) :: rest => if bool_decide (k = key) then (k, value) :: rest else (k, v) :: set rest key value
  end.

(** [delete obj[key]]. *)
Fixpoint del (f : list (string * A)) (key : string) : list (string * A) :=
  match f with
  | [] => []
  | (k, v) :: rest => if bool_decide (k = key) then del rest key else (k, v) :: del rest key
  end.

(** [hasOwnProperty]. *)
Definition has (f : list (string * A)) (key : string) : bool :=
  match get f key with Some _ => true | None => false end.

(** Each property once. *)
Definition unique (f : list (string * A)) : Prop := NoDup (map fst f).

Lemma get_set f key value k :
  get (set f key value) k = if decide (key = k) then Some value else get f k.
Proof.
  induction f as [|[k' v] f IH]; simpl.
  - by destruct (decide (key = k)); [rewrite bool_decide_eq_true_2|rewrite bool_decide_eq_false_2].
  - repeat case_bool_decide; simpl; repeat case_bool_decide; subst; rewrite ?IH;
      repeat case_decide; congruence.
Qed.

Lemma get_del f key k : get (del f key) k = if decide (key = k) then None else get f k.
Proof.
  induction f as [|[k' v] f IH]; simpl; [by case_decide|].
  repeat case_bool_decide; simpl; repeat case_bool_decide; subst; rewrite ?IH;
    repeat case_decide; congruence.
Qed.

Lemma get_None f k : get f k = None <-> k ∉ map fst f.
Proof.
  induction f as [|[k' v] f IH]; simpl; [set_solver|].
  case_bool_decide; rewrite not_elem_of_cons; [naive_solver|rewrite IH; naive_solver].
Qed.

Lemma get_Some_elem f k v : unique f -> get f k = Some v <-> (k, v) ∈ f.
Proof.
  unfold unique. induction f as [|[k' v'] f IH]; simpl; [set_solver|].
  rewrite NoDup_cons, elem_of_cons. intros [Hn Hu]. case_bool_decide as E; subst.
  - split; [naive_solver|]. intros [?|Hin]; [naive_solver|]. exfalso. apply Hn.
    apply list_elem_of_fmap. by exists (k, v).
  - rewrite IH by done. naive_solver.
Qed.

Lemma set_fst f key value k : k ∈ map fst (set f key value) <-> k = key \/ k ∈ map fst f.
Proof.
  induction f as [|[k' v] f IH]; simpl; [set_solver|].
  case_bool_decide; simpl; rewrite !elem_of_cons; [naive_solver|rewrite IH; naive_solver].
Qed.

Lemma set_unique f key value : unique f -> unique (set f key value).
Proof.
  unfold unique. induction f as [|[k' v] f IH]; simpl; [intros; apply NoDup_singleton|].
  rewrite NoDup_cons. intros [Hn Hu]. case_bool_decide; simpl; rewrite NoDup_cons; [done|].
  split; [rewrite set_fst; naive_solver|auto].
Qed.

Lemma del_unique f key : unique f -> unique (del f key).
Proof.
  unfold unique. induction f as [|[k' v] f IH]; simpl; [done|].
  rewrite NoDup_cons. intros [Hn Hu]. case_bool_decide; [auto|]. simpl. rewrite NoDup_cons.
  split; [|auto]. rewrite <- get_None, get_del. case_decide; [done|by apply get_None].
Qed.

Lemma has_true f k : has f k = true <-> exists v, get f k = Some v.
Proof. unfold has. destruct (get f k); naive_solver. Qed.
End fields.

(** ** Coercions *)

(** [Boolean(value)]; [None] is [undefined]. *)
Definition truthy (v : option json) : bool :=
  match v with
  | None | Some JNull => false
  | Some (JBool b) => b
  | Some (JNum n) => negb (Z.eqb n 0)
  | Some (JStr s) => negb (bool_decide (s = ""))
  | Some (JArr _) | Some (JObj _) => true
  end.

Fixpoint join (sep : string) (parts : list string) : string :=
  match parts with
  | [] => ""
  | [p] => p
  | p :: rest => p +:+ sep +:+ join sep rest
  end.

(** [String(value)]. *)
Fixpoint to_string (v : json) : string :=
  match v with
  | JNull => "null"
  | JBool true => "true"
  | JBool false => "false"
  | JNum n => pretty n
  | JStr s => s
  | JArr items => join "," (map (fun i => match i with JNull => "" | _ => to_string i end) items)
  | JObj _ => "[object Object]"
  end.

(** [String(value || '')]. *)
Definition string_or_empty (v : option json) : string :=
  match v with
  | Some j => if truthy v then to_string j else ""
  | None => ""
  end.

(** The digits of a decimal integer. *)
Definition digit (c : ascii) : option Z :=
  let n := Z.of_nat (Ascii.nat_of_ascii c) in
  if Z.leb 48 n && Z.leb n 57 then Some (n - 48) else None.

Fixpoint decimal (s : string) (acc : Z) : option Z :=
  match s with
  | EmptyString => Some acc
  | String c rest => match digit c with Some d => decimal rest (acc * 10 + d) | None => None end
  end.

(** [Number(value)] of an integer, a boolean, null or a decimal integer in a string; [None] is
    [NaN]. (Fractions, exponents and arrays are not represented.) *)
Definition to_number (v : option json) : option Z :=
  match v with
  | Some (JNum n) => Some n
  | Some (JBool b) => Some (if b then 1 else 0)
  | Some JNull => Some 0
  | Some (JStr s) =>
      match trim s with
      | EmptyString => Some 0
      | String "-" rest => match rest with EmptyString => None | _ => option_map Z.opp (decimal rest 0) end
      | t => decimal t 0
      end
  | _ => None
  end.

(** A decimal integer as [String(n)] prints it is read back. *)
Definition is_digit (c : ascii) : bool := match digit c with Some _ => true | None => false end.

Lemma digit_char d : (d < 10)%N -> digit (pretty_N_char d) = Some (Z.of_N d).
Proof.
  intros H. assert (Hd : d ∈ [0; 1; 2; 3; 4; 5; 6; 7; 8; 9]%N) by (rewrite !elem_of_cons; lia).
  clear H. rewrite !elem_of_cons, elem_of_nil in Hd. by repeat destruct Hd as [->|Hd].
Qed.

Lemma decimal_pretty x : forall s, decimal (pretty_N_go x s) 0 = decimal s (Z.of_N x).
Proof.
  induction (N.lt_wf_0 x) as [x _ IH]. intros s. assert (x = 0 \/ 0 < x)%N as [->|Hx] by lia; [done|].
  rewrite pretty_N_go_step by done. rewrite IH by by apply N.div_lt. cbn [decimal].
  rewrite digit_char by by apply N.mod_lt. f_equal. rewrite (N.div_mod x 10) at 3 by done. lia.
Qed.

Lemma digits_pretty_go x : forall s, string_forallb is_digit s = true -> string_forallb is_digit (pretty_N_go x s) = true.
Proof.
  induction (N.lt_wf_0 x) as [x _ IH]. intros s Hs. assert (x = 0 \/ 0 < x)%N as [->|Hx] by lia; [done|].
  rewrite pretty_N_go_step by done. apply IH; [by apply N.div_lt|]. simpl. rewrite Hs, andb_true_r.
  unfold is_digit. rewrite digit_char; [done|]. by apply N.mod_lt.
Qed.

Lemma pretty_nonneg n : 0 <= n -> (pretty n : string) = pretty (Z.to_N n).
Proof. by destruct n. Qed.

Lemma digits_pretty n : 0 <= n -> string_forallb is_digit (pretty n) = true.
Proof.
  intros Hn. rewrite pretty_nonneg by done. unfold pretty, pretty_N. case_decide; [done|]. by apply digits_pretty_go.
Qed.

Lemma decimal_pretty_Z n : 0 <= n -> decimal (pretty n) 0 = Some n.
Proof.
  intros Hn. rewrite pretty_nonneg by done. unfold pretty, pretty_N. case_decide as H.
  - assert (n = 0) as -> by lia. done.
  - rewrite decimal_pretty. simpl. by rewrite Z2N.id.
Qed.

Lemma pretty_nonempty n : 0 <= n -> (pretty n : string) <> "".
Proof. intros Hn H. pose proof (decimal_pretty_Z n Hn) as Hd. rewrite H in Hd. injection Hd as <-. by vm_compute in H. Qed.

Lemma digit_no_space c : is_digit c = true -> is_js_space c = false.
Proof. by destruct c as [[] [] [] [] [] [] [] []]. Qed.

Lemma to_number_pretty n : 0 <= n -> to_number (Some (JStr (pretty n))) = Some n.
Proof.
  intros Hn. pose proof (digits_pretty n Hn) as Hd. pose proof (decimal_pretty_Z n Hn) as Hv.
  pose proof (pretty_nonempty n Hn) as Hne.
  assert (Ht : trim (pretty n) = pretty n).
  { assert (Hs : string_forallb (fun c => negb (is_js_space c)) (pretty n) = true)
      by (eapply string_forallb_impl; [|exact Hd]; intros c Hc; by rewrite digit_no_space).
    unfold trim. by rewrite trim_start_id, trim_end_id. }
  simpl. rewrite Ht. destruct (pretty n) as [|c rest]; [done|].
  simpl in Hd. apply andb_prop in Hd as [Hc _].
  destruct c as [[] [] [] [] [] [] [] []]; first [exact Hv | vm_compute in Hc; discriminate].
Qed.

(** [Number(value) || 0]. *)
Definition number_or_zero (v : option json) : Z := default 0 (to_number v).

#[global] Arguments number_or_zero !v /.

(** [v && typeof v === 'object']. *)
Definition is_js_object (v : json) : bool :=
  match v with JObj _ | JArr _ => true | _ => false end.

(** [v && typeof v === 'object' && !Array.isArray(v)]. *)
Definition as_object (v : option json) : option fields :=
  match v with Some (JObj f) => Some f | _ => None end.

Definition as_array (v : option json) : option (list json) :=
  match v with Some (JArr l) => Some l | _ => None end.

(** [value?.name] on an object; arrays and primitives have none of the names used. *)
Definition prop (v : option json) (name : string) : option json :=
  match v with Some (JObj f) => get f name | _ => None end.
