(* ===== verification/CallMedia.v ===== *)
(** * The media of a call ([src/renderer/calls/*.js])

    Packed audio frames, the IVs of the packets, the reorder buffer and the playback ring,
    splitting and reassembling video frames, congestion control and key-frame requests.
    Times are milliseconds; the audio codec, WebCodecs and AES-GCM are left to the platform. *)

From stdpp Require Import pretty.
From S2P Require Import Prelude Bytes Json.

(** ** Packed Opus frames ([frames.js]) *)

Definition OPUS_FRAME_MS : Z := 20.
Definition CALL_PACKET_MS : Z := 60.
Definition AUDIO_MAX_PACKED_FRAMES : nat := 8.
Definition AUDIO_MAX_PACKED_FRAME_BYTES : Z := 4 * 1024.

Definition opusFrameTimestampUs (seq frameIndex : Z) : Z :=
  (Z.max 0 seq * CALL_PACKET_MS + Z.max 0 frameIndex * OPUS_FRAME_MS) * 1000.

Definition frame_header (len : Z) : bytes := [Z.land (Z.shiftr len 8) 255; Z.land len 255].

Fixpoint packLengthPrefixedFrames (chunks : list bytes) : res bytes :=
  match chunks with
  | [] => Ok []
  | chunk :: rest =>
      if Z.ltb 65535 (Z.of_nat (length chunk)) then Err "frame_too_long"
      else let? tail := packLengthPrefixedFrames rest in Ok (frame_header (Z.of_nat (length chunk)) ++ chunk ++ tail)
  end.

(** At most [maxFrames] frames of at most [maxFrameBytes] bytes each. *)
Fixpoint unpack_frames (maxFrames : nat) (maxFrameBytes : Z) (b : bytes) : list bytes :=
  match maxFrames, b with
  | S more, hi :: lo :: rest =>
      let len := Z.lor (Z.shiftl hi 8) lo in
      if Z.ltb maxFrameBytes len || Z.ltb (Z.of_nat (length rest)) len then []
      else take (Z.to_nat len) rest :: unpack_frames more maxFrameBytes (drop (Z.to_nat len) rest)
  | _, _ => []
  end.

Definition unpackLengthPrefixedFrames : bytes -> list bytes :=
  unpack_frames AUDIO_MAX_PACKED_FRAMES AUDIO_MAX_PACKED_FRAME_BYTES.

(** ** IVs ([iv.js]) *)

Inductive role := Caller | Callee.
Inductive stream := Camera | Screen.

#[export] Instance role_eq_dec : EqDecision role.
Proof. solve_decision. Defined.

#[export] Instance stream_eq_dec : EqDecision stream.
Proof. solve_decision. Defined.

Definition CALL_DIR_OUT : Z := 1.
Definition CALL_DIR_IN : Z := 2.
Definition CALL_IV_CAM_OUT : Z := 17.
Definition CALL_IV_CAM_IN : Z := 18.
Definition CALL_IV_SCREEN_OUT : Z := 33.
Definition CALL_IV_SCREEN_IN : Z := 34.

Definition callVideoIvDirection (s : stream) (r : role) (sending : bool) : Z :=
  let isCaller := bool_decide (r = Caller) in
  let callerToCallee := if sending then isCaller else negb isCaller in
  match s with
  | Screen => if callerToCallee then CALL_IV_SCREEN_OUT else CALL_IV_SCREEN_IN
  | Camera => if callerToCallee then CALL_IV_CAM_OUT else CALL_IV_CAM_IN
  end.

(** [directionSend] and [directionRecv] of [audioPipeline.js]. *)
Definition audio_direction (r : role) (sending : bool) : Z :=
  let isCaller := bool_decide (r = Caller) in
  if sending then (if isCaller then CALL_DIR_OUT else CALL_DIR_IN)
  else if isCaller then CALL_DIR_IN else CALL_DIR_OUT.

(** [{ hi, lo }]; [None] is a value that is not a finite number. *)
Definition toUint64Parts (seq : option Z) : Z * Z :=
  match seq with
  | Some value => if Z.leb value 0 then (0, 0) else ((value / 4294967296) mod 2 ^ 32, value mod 2 ^ 32)
  | None => (0, 0)
  end.

Definition buildCallIv (direction : Z) (seq : option Z) : bytes :=
  let '(hi, lo) := toUint64Parts seq in u32Be direction ++ u32Be hi ++ u32Be lo.

Definition fromUint64Parts (hi lo : Z) : Z := hi * 4294967296 + lo mod 2 ^ 32.

Definition parseCallIv (iv : bytes) : option (Z * Z) :=
  if negb (Nat.eqb (length iv) 12) then None
  else
    match readU32Be iv 0, readU32Be iv 4, readU32Be iv 8 with
    | Some direction, Some hi, Some lo => Some (direction, fromUint64Parts hi lo)
    | _, _, _ => None
    end.

(** ** The reorder buffer ([jitterBuffer.js]) *)

Section jitter.
Context {A : Type}.

Record jitter := mk_jitter {
  queue : list (Z * A);
  nextSeq : option Z;
  gapSince : option Z
}.

Inductive played := Packet (seq : Z) (payload : A) | Loss (seq : Z).

Definition createJitterBuffer : jitter := mk_jitter [] None None.

Fixpoint insert_seq (x : Z * A) (q : list (Z * A)) : list (Z * A) :=
  match q with
  | [] => [x]
  | y :: rest => if Z.ltb x.1 y.1 then x :: q else y :: insert_seq x rest
  end.

(** Whether the packet is kept; a queue that is too long drops its highest numbers. *)
Definition jitter_push (maxQueued : nat) (seq : option Z) (payload : A) (j : jitter) : bool * jitter :=
  match seq with
  | None => (false, j)
  | Some n =>
      if Z.ltb n 0 then (false, j)
      else if match nextSeq j with Some next => Z.ltb n next | None => false end then (false, j)
      else if existsb (fun item => Z.eqb item.1 n) (queue j) then (false, j)
      else (true, mk_jitter (take maxQueued (insert_seq (n, payload) (queue j))) (nextSeq j) (gapSince j))
  end.

(** [queue.findIndex] and [splice]. *)
Fixpoint take_seq (n : Z) (q : list (Z * A)) : option (A * list (Z * A)) :=
  match q with
  | [] => None
  | (s, a) :: rest =>
      if Z.eqb s n then Some (a, rest)
      else match take_seq n rest with Some (x, rest') => Some (x, (s, a) :: rest') | None => None end
  end.

(** [queue.length > 0 && queue[0].seq > nextSeq]. *)
Definition later (q : list (Z * A)) (next : Z) : bool :=
  match q with (s, _) :: _ => Z.ltb next s | [] => false end.

Definition pull_at (waitMs now next : Z) (j : jitter) : option played * jitter :=
  match take_seq next (queue j) with
  | Some (payload, rest) => (Some (Packet next payload), mk_jitter rest (Some (next + 1)) None)
  | None =>
      if negb (later (queue j) next) then (None, mk_jitter (queue j) (Some next) (gapSince j))
      else
        let since := default now (gapSince j) in
        if Z.leb waitMs (now - since) then (Some (Loss next), mk_jitter (queue j) (Some (next + 1)) None)
        else (None, mk_jitter (queue j) (Some next) (Some since))
  end.

Definition jitter_pull (waitMs now : Z) (j : jitter) : option played * jitter :=
  match nextSeq j with
  | Some next => pull_at waitMs now next j
  | None => match queue j with [] => (None, j) | (s, _) :: _ => pull_at waitMs now s j end
  end.

Definition msUntilDecision (waitMs now : Z) (j : jitter) : Z :=
  match nextSeq j with
  | None => 0
  | Some next =>
      if existsb (fun item => Z.eqb item.1 next) (queue j) then 0
      else
        match gapSince j with
        | Some since => if later (queue j) next then Z.max 0 (waitMs - (now - since)) else 0
        | None => 0
        end
  end.
End jitter.

Arguments jitter : clear implicits.
Arguments played : clear implicits.

(** ** The playback ring ([playbackBuffer.js]) *)

Section ring.
Context {A : Type} (zero : A).
Variables (targetSamples maxSamples : nat).

(** [capacity] is the length of [cells]. *)
Record ring := mk_ring {
  cells : list A;
  read : nat;
  write : nat;
  filled : nat;
  playing : bool
}.

Definition createPlaybackRing (capacity : nat) : ring := mk_ring (replicate capacity zero) 0 0 0 false.

Definition capacity (r : ring) : nat := length (cells r).

(** [read = (read + 1) % buffer.length; filled -= 1]. *)
Definition drop_one (r : ring) : ring :=
  mk_ring (cells r) ((read r + 1) mod capacity r) (write r) (filled r - 1) (playing r).

Definition push_sample (r : ring) (sample : A) : ring :=
  let r := if Nat.leb (capacity r) (filled r) then drop_one r else r in
  mk_ring (<[write r := sample]> (cells r)) (read r) ((write r + 1) mod capacity r) (filled r + 1) (playing r).

(** [while (filled > maxSamples)]. *)
Fixpoint shed (fuel : nat) (r : ring) : ring :=
  match fuel with
  | O => r
  | S fuel' => if Nat.ltb maxSamples (filled r) then shed fuel' (drop_one r) else r
  end.

Definition ring_push (samples : list A) (r : ring) : ring :=
  match samples with
  | [] => r
  | _ => let r := fold_left push_sample samples r in shed (filled r) r
  end.

(** [n] samples for the sound card, and whether the ring ran dry. *)
Fixpoint ring_take (n : nat) (r : ring) : list A * bool * ring :=
  match n with
  | O => ([], false, r)
  | S n' =>
      let '(sample, dry, r) :=
        if Nat.ltb 0 (filled r) then (nth (read r) (cells r) zero, false, drop_one r) else (zero, true, r) in
      let '(samples, dry', r) := ring_take n' r in (sample :: samples, dry || dry', r)
  end.

Definition ring_pull (n : nat) (r : ring) : list A * bool * ring :=
  if negb (playing r) && Nat.ltb (filled r) targetSamples then (replicate n zero, false, r)
  else
    let '(samples, underrun, r) := ring_take n (mk_ring (cells r) (read r) (write r) (filled r) true) in
    (samples, underrun, if underrun then mk_ring (cells r) (read r) (write r) (filled r) false else r).
End ring.

Arguments ring : clear implicits.

(** ** Limits ([callLimits.js]) *)

Definition VIDEO_MAX_FRAGMENT_BYTES : Z := 24 * 1024.
Definition VIDEO_MAX_FRAGS : Z := 64.
Definition VIDEO_MAX_OPEN_FRAMES : nat := 8.
Definition VIDEO_MAX_REASSEMBLY_BYTES : Z := 4 * 1024 * 1024.
Definition VIDEO_MAX_WIDTH : Z := 3840.
Definition VIDEO_MAX_HEIGHT : Z := 2160.
Definition VIDEO_MAX_DESC_BYTES : Z := 8 * 1024.

(** [isAllowedVideoCodec]. *)
Definition isAllowedVideoCodec (codec : option json) : bool :=
  let value := lower (string_or_empty codec) in starts_with "vp8" value || starts_with "avc1" value.

(** [value == null]. *)
Definition nullish (v : option json) : bool := match v with None | Some JNull => true | _ => false end.

Definition isPlausibleVideoSize (width height : option json) : bool :=
  if nullish width && nullish height then true
  else
    match to_number width, to_number height with
    | Some w, Some h =>
        if Z.ltb w 1 || Z.ltb h 1 then false else Z.leb w VIDEO_MAX_WIDTH && Z.leb h VIDEO_MAX_HEIGHT
    | _, _ => false
    end.

(** ** Splitting and reassembling video frames ([videoFragments.js]) *)

Definition VIDEO_REASSEMBLY_TTL_MS : Z := 1000.

Fixpoint split_at (fuel : nat) (size : nat) (data : bytes) : list bytes :=
  match fuel, data with
  | S fuel', _ :: _ => take size data :: split_at fuel' size (drop size data)
  | _, _ => []
  end.

Definition splitVideoFrame (data : bytes) (maxBytes : Z) : list bytes :=
  let size := Z.to_nat (Z.max 1 (if Z.eqb maxBytes 0 then VIDEO_MAX_FRAGMENT_BYTES else maxBytes)) in
  match data with [] => [[]] | _ => split_at (length data) size data end.

(** A fragment as it arrives: the properties of the message, and its decrypted bytes and
    decoder description ([None] when absent). *)
Record video_msg := mk_video_msg {
  v_fields : fields;
  v_data : bytes;
  v_desc : option bytes
}.

Definition field (m : video_msg) (name : string) : option json := get (v_fields m) name.

(** [value ?? fallback]. *)
Definition or_number (v : option json) (fallback : Z) : option Z := if nullish v then Some fallback else to_number v.

Definition toFragCount (v : option Z) : option Z :=
  match v with Some n => if Z.ltb n 1 || Z.ltb VIDEO_MAX_FRAGS n then None else Some n | None => None end.

Definition toFragIndex (v : option Z) (frags : Z) : option nat :=
  match v with Some n => if Z.ltb n 0 || Z.leb frags n then None else Some (Z.to_nat n) | None => None end.

Definition streamKey (v : option json) : string := if bool_decide (v = Some (JStr "screen")) then "screen" else "camera".

Definition boundedDesc (desc : bytes) : option bytes :=
  if bool_decide (desc = []) || Z.ltb VIDEO_MAX_DESC_BYTES (Z.of_nat (length desc)) then None else Some desc.

Definition validMeta (m : video_msg) : bool :=
  (nullish (field m "codec") || isAllowedVideoCodec (field m "codec")) &&
  isPlausibleVideoSize (field m "w") (field m "h") &&
  match v_desc m with Some d => match boundedDesc d with Some _ => true | None => false end | None => true end.

Record frame_entry := mk_entry {
  e_parts : list (option bytes);
  e_got : nat;
  e_frags : Z;
  e_createdAt : Z;
  e_key : bool;
  e_meta : list (option json);   (** [ts], [codec], [w] and [h] *)
  e_stream : string;
  e_desc : option bytes
}.

Record video_frame := mk_frame {
  fr_bytes : bytes;
  fr_key : bool;
  fr_meta : list (option json);
  fr_stream : option json;
  fr_desc : option bytes
}.

Definition meta_of (m : video_msg) : list (option json) := [field m "ts"; field m "codec"; field m "w"; field m "h"].

(** The frames being assembled, oldest insertion first. *)
Abbreviation open_frames := (list (string * frame_entry)).

Definition part_length (p : option bytes) : Z := match p with Some b => Z.of_nat (length b) | None => 0 end.
Definition entryBytes (e : frame_entry) : Z := foldr (fun p n => part_length p + n) 0 (e_parts e).
Definition totalBytes (pending : open_frames) : Z := foldr (fun e n => entryBytes e.2 + n) 0 pending.

Definition in_stream (s : string) (e : string * frame_entry) : bool := bool_decide (e_stream e.2 = s).
Definition streamCount (s : string) (pending : open_frames) : nat := length (List.filter (in_stream s) pending).

(** The first of the entries with the smallest [createdAt]. *)
Definition older (best : option (string * Z)) (e : string * frame_entry) : option (string * Z) :=
  match best with
  | Some (_, at_) => if Z.ltb (e_createdAt e.2) at_ then Some (e.1, e_createdAt e.2) else best
  | None => Some (e.1, e_createdAt e.2)
  end.

Definition oldest (s : option string) (pending : open_frames) : option string :=
  option_map fst (fold_left older
    (match s with Some s => List.filter (in_stream s) pending | None => pending end) None).

Definition dropOldest (s : option string) (pending : open_frames) : option open_frames :=
  match oldest s pending with Some key => Some (del pending key) | None => None end.

(** [while (cond) { if (!dropOldest(stream)) break; }]: every turn removes an entry. *)
Fixpoint drop_while (fuel : nat) (cond : open_frames -> bool) (s : option string) (pending : open_frames) : open_frames :=
  match fuel with
  | O => pending
  | S fuel' =>
      if cond pending then
        match dropOldest s pending with Some pending' => drop_while fuel' cond s pending' | None => pending end
      else pending
  end.

Section reassembler.
Variables (ttlMs : Z) (maxOpenFrames : nat) (maxBytes : Z).

Definition gc (now : Z) (pending : open_frames) : open_frames :=
  List.filter (fun e => negb (Z.ltb ttlMs (now - e_createdAt e.2))) pending.

Definition ensureBudget (extra : Z) (s : string) (pending : open_frames) : bool * open_frames :=
  let pending := drop_while (length pending) (fun p => Nat.leb maxOpenFrames (streamCount s p)) (Some s) pending in
  let pending := drop_while (length pending) (fun p => Z.ltb maxBytes (totalBytes p + extra)) None pending in
  (Z.leb (totalBytes pending + extra) maxBytes, pending).

Definition new_entry (m : video_msg) (frags now : Z) : frame_entry :=
  mk_entry (replicate (Z.to_nat frags) None) 0 frags now (truthy (field m "key")) (meta_of m)
    (streamKey (field m "stream")) (match v_desc m with Some d => boundedDesc d | None => None end).

(** The entry with the fragment in it. *)
Definition put_part (m : video_msg) (frag : nat) (e : frame_entry) : frame_entry :=
  let previous := default None (e_parts e !! frag) in
  mk_entry (<[frag := Some (v_data m)]> (e_parts e))
    (match previous with None => e_got e + 1 | Some _ => e_got e end)
    (e_frags e) (e_createdAt e) (e_key e || truthy (field m "key")) (e_meta e) (e_stream e)
    (match v_desc m with Some d => match boundedDesc d with Some d => Some d | None => e_desc e end | None => e_desc e end).

Definition frame_key (m : video_msg) (startSeq : Z) : string := streamKey (field m "stream") +:+ ":" +:+ pretty startSeq.

(** The rest of [push] once the entry of the frame is there. *)
Definition add_part (m : video_msg) (key : string) (frag : nat) (e : frame_entry) (pending : open_frames)
    : option video_frame * open_frames :=
  let previous := part_length (default None (e_parts e !! frag)) in
  let delta := Z.of_nat (length (v_data m)) - previous in
  if Z.ltb 0 delta && Z.ltb maxBytes (totalBytes pending + delta) then (None, pending)
  else
    let e := put_part m frag e in
    if Z.ltb (Z.of_nat (e_got e)) (e_frags e) then (None, set pending key e)
    else
      let pending := del pending key in
      if forallb (fun p => match p with Some _ => true | None => false end) (e_parts e)
      then (Some (mk_frame (concat (map (default []) (e_parts e))) (e_key e) (e_meta e) (Some (JStr (e_stream e))) (e_desc e)),
            pending)
      else (None, pending).

Definition reassembler_push (m : video_msg) (now : Z) (pending : open_frames) : option video_frame * open_frames :=
  let pending := gc now pending in
  match toFragCount (or_number (field m "frags") 1) with
  | None => (None, pending)
  | Some frags =>
      match toFragIndex (or_number (field m "frag") 0) frags with
      | None => (None, pending)
      | Some frag =>
          if negb (validMeta m) then (None, pending)
          else if bool_decide (v_data m = []) || Z.ltb VIDEO_MAX_FRAGMENT_BYTES (Z.of_nat (length (v_data m)))
          then (None, pending)
          else if Z.eqb frags 1 then
            (Some (mk_frame (v_data m) (truthy (field m "key")) (meta_of m) (field m "stream") (v_desc m)), pending)
          else
            match to_number (field m "seq") with
            | None => (None, pending)
            | Some seq =>
                let key := frame_key m (seq - Z.of_nat frag) in
                match get pending key with
                | Some e =>
                    if Z.eqb (e_frags e) frags then add_part m key frag e pending
                    else
                      let '(fits, pending) := ensureBudget (Z.of_nat (length (v_data m))) (streamKey (field m "stream")) pending in
                      if fits then let e := new_entry m frags now in add_part m key frag e (set pending key e)
                      else (None, pending)
                | None =>
                    let '(fits, pending) := ensureBudget (Z.of_nat (length (v_data m))) (streamKey (field m "stream")) pending in
                    if fits then let e := new_entry m frags now in add_part m key frag e (set pending key e)
                    else (None, pending)
                end
            end
      end
  end.
End reassembler.

(** ** The sender of a video direction ([handleEncoded] of [videoPipeline.js])

    [seq] counts the fragments of one direction object.  Encoding a frame is asynchronous:
    the loop over its parts waits for the encryption of each of them, so the loops of frames
    that are encoded at the same time interleave. *)

Record sent_fragment := mk_sent {
  s_seq : Z;
  s_frag : nat;
  s_frags : nat;
  s_payload : bytes
}.

(** A running loop: all parts, and the index of the next one. *)
Record job := mk_job { j_parts : list bytes; j_next : nat }.

Record direction := mk_direction { d_seq : Z; d_jobs : list job }.

(** [createVideoDirection]. *)
Definition new_direction : direction := mk_direction 0 [].

Inductive turn :=
| Encoded (data : bytes)   (** the encoder hands over a frame *)
| Resume (j : nat).        (** the [j]-th loop takes its next turn *)

Definition sender_step (t : turn) (d : direction) : list sent_fragment * direction :=
  match t with
  | Encoded data => ([], mk_direction (d_seq d) (d_jobs d ++ [mk_job (splitVideoFrame data VIDEO_MAX_FRAGMENT_BYTES) 0]))
  | Resume j =>
      match d_jobs d !! j with
      | Some job =>
          match j_parts job !! j_next job with
          | Some payload =>
              ([mk_sent (d_seq d) (j_next job) (length (j_parts job)) payload],
               mk_direction (d_seq d + 1) (<[j := mk_job (j_parts job) (j_next job + 1)]> (d_jobs d)))
          | None => ([], d)
          end
      | None => ([], d)
      end
  end.

Fixpoint run_sender (ts : list turn) (d : direction) : list sent_fragment * direction :=
  match ts with
  | [] => ([], d)
  | t :: ts =>
      let '(sent, d) := sender_step t d in
      let '(more, d) := run_sender ts d in (sent ++ more, d)
  end.

Definition stream_name (s : stream) : string := match s with Screen => "screen" | Camera => "camera" end.

(** The message of a fragment, as [sendFragment] gets it and the receiver decrypts it. *)
Definition fragment_message (kind : stream) (isKey : bool) (ts : json) (codec : string) (width height : Z)
    (desc : option bytes) (f : sent_fragment) : video_msg :=
  mk_video_msg
    [("stream", JStr (stream_name kind)); ("seq", JNum (s_seq f)); ("frag", JNum (Z.of_nat (s_frag f)));
     ("frags", JNum (Z.of_nat (s_frags f))); ("key", JBool isKey); ("ts", ts); ("codec", JStr codec);
     ("w", JNum width); ("h", JNum height)]
    (s_payload f) (if Nat.eqb (s_frag f) 0 then desc else None).

(** The IV under which a fragment is encrypted with the key of the call. *)
Definition fragment_iv (s : stream) (r : role) (f : sent_fragment) : bytes :=
  buildCallIv (callVideoIvDirection s r true) (Some (s_seq f)).

(** The IV of the [n]-th packet of an audio pipeline, which counts its packets from [0]
    ([sendPacked] of [audioPipeline.js]). *)
Definition audio_iv (r : role) (n : Z) : bytes := buildCallIv (audio_direction r true) (Some n).

(** ** Congestion control ([videoCongestion.js]) *)

Definition VIDEO_MAX_IN_FLIGHT : Z := 5.
Definition CAMERA_BITRATE_BPS : Z := 600000.
Definition SCREEN_BITRATE_BPS : Z := 1200000.
Definition MIN_VIDEO_BITRATE_BPS : Z := 80000.

(** One stream of the controller. *)
Record congestion := mk_congestion { inFlight : Z; bitrate : Z }.

Definition createCongestionController (s : stream) : congestion :=
  mk_congestion 0 (match s with Camera => CAMERA_BITRATE_BPS | Screen => SCREEN_BITRATE_BPS end).

Definition canSend (audioBusy : bool) (c : congestion) : bool := negb audioBusy && Z.ltb (inFlight c) VIDEO_MAX_IN_FLIGHT.
Definition onQueued (c : congestion) : congestion := mk_congestion (inFlight c + 1) (bitrate c).
Definition onDone (c : congestion) : congestion := mk_congestion (Z.max 0 (inFlight c - 1)) (bitrate c).

(** [Math.round(bitrate * 0.75)]. *)
Definition onCongested (c : congestion) : congestion :=
  mk_congestion (inFlight c) (Z.max MIN_VIDEO_BITRATE_BPS ((3 * bitrate c + 2) / 4)).

(** ** Key-frame requests ([videoKeyframe.js]) *)

Definition KEYFRAME_REQUEST_MIN_INTERVAL_MS : Z := 1000.

Record keyframes := mk_keyframes { waiting : bool; lastRequestAt : Z }.

Definition createKeyframeController : keyframes := mk_keyframes false 0.

Definition onGap (now : Z) (k : keyframes) : bool * keyframes :=
  if Z.ltb (now - lastRequestAt k) KEYFRAME_REQUEST_MIN_INTERVAL_MS then (false, mk_keyframes true (lastRequestAt k))
  else (true, mk_keyframes true now).

Definition shouldDropDelta (k : keyframes) : bool := waiting k.
Definition onKeyframe (k : keyframes) : keyframes := mk_keyframes false (lastRequestAt k).
