(* ===== verification/CallMediaFacts.v ===== *)
(** * Properties of the media of a call

    Nonces of the packets, packed audio frames, order and progress of the reorder buffer,
    the playback ring as a bounded queue, and reassembly of video frames. *)

From Stdlib Require Import Sorting.Sorted.
From stdpp Require Import pretty.
From S2P Require Import Prelude Bytes Json CallMedia.

(** ** Packed audio frames *)

(** The frames before the first one that is too long for the receiver. *)
Fixpoint short_prefix (chunks : list bytes) : list bytes :=
  match chunks with
  | [] => []
  | c :: rest => if Z.ltb AUDIO_MAX_PACKED_FRAME_BYTES (Z.of_nat (length c)) then [] else c :: short_prefix rest
  end.

Lemma header_value len : 0 <= len < 65536 ->
  Z.lor (Z.shiftl (Z.land (Z.shiftr len 8) 255) 8) (Z.land len 255) = len.
Proof.
  intros H. rewrite !(land_mask _ 255 8) by lia. rewrite Z.shiftr_div_pow2 by lia.
  rewrite lor_shiftl_add by (try apply Z.mod_pos_bound; lia).
  rewrite (Z.mod_small (len / 2 ^ 8)) by (split; [apply Z.div_pos; lia|apply Z.div_lt_upper_bound; lia]).
  pose proof (Z.div_mod len (2 ^ 8)). lia.
Qed.

(** A packed packet gives back its frames, up to the first oversized one and the eighth. *)
Theorem unpack_pack chunks packed :
  packLengthPrefixedFrames chunks = Ok packed ->
  unpackLengthPrefixedFrames packed = take AUDIO_MAX_PACKED_FRAMES (short_prefix chunks).
Proof.
  unfold unpackLengthPrefixedFrames. generalize AUDIO_MAX_PACKED_FRAMES as n. revert packed.
  induction chunks as [|c chunks IH]; intros packed n H; simpl in H.
  { injection H as <-. by destruct n. }
  destruct (Z.ltb_spec 65535 (Z.of_nat (length c))) as [|Hlen]; [done|].
  apply res_bind_ok in H as (tail & Htail & [= <-]). destruct n as [|n]; [done|].
  unfold frame_header. cbn [app unpack_frames]. cbv zeta. rewrite header_value by lia. cbn [short_prefix].
  rewrite length_app, (proj2 (Z.ltb_ge (Z.of_nat (length c + length tail)) _)), orb_false_r by lia.
  destruct (Z.ltb _ _); [done|]. cbn [take]. rewrite Nat2Z.id, take_app_length, drop_app_length. f_equal. by apply IH.
Qed.

(** ** IVs *)

(** The six directions a packet of a call can have. *)
Definition call_direction (s : option stream) (r : role) (sending : bool) : Z :=
  match s with Some s => callVideoIvDirection s r sending | None => audio_direction r sending end.


Lemma call_direction_range s r b : 0 <= call_direction s r b < 2 ^ 32.
Proof. destruct s as [[]|], r, b; vm_compute; split; congruence. Qed.



Lemma seq_parts n : 0 <= n < 2 ^ 64 -> toUint64Parts (Some n) = (n / 2 ^ 32, n mod 2 ^ 32).
Proof.
  intros Hn. unfold toUint64Parts. change 4294967296 with (2 ^ 32).
  destruct (Z.leb_spec n 0); [by replace n with 0 by lia|]. f_equal. apply Z.mod_small.
  split; [apply Z.div_pos; lia|apply Z.div_lt_upper_bound; lia].
Qed.

Lemma hi_range n : 0 <= n < 2 ^ 64 -> 0 <= n / 2 ^ 32 < 2 ^ 32.
Proof. intros Hn. split; [apply Z.div_pos; lia|apply Z.div_lt_upper_bound; lia]. Qed.

Lemma parse_build d n :
  0 <= d < 2 ^ 32 -> 0 <= n < 2 ^ 64 -> parseCallIv (buildCallIv d (Some n)) = Some (d, n).
Proof.
  intros Hd Hn. unfold buildCallIv. rewrite seq_parts by done. set (hi := n / 2 ^ 32). set (lo := n mod 2 ^ 32).
  assert (Hhi : 0 <= hi < 2 ^ 32) by by apply hi_range. assert (Hlo : 0 <= lo < 2 ^ 32) by (apply Z.mod_pos_bound; lia).
  unfold parseCallIv. rewrite !length_app, !u32Be_length. simpl Nat.eqb. cbn [negb].
  rewrite readU32Be_u32Be by done.
  pose proof (readU32Be_app_r (u32Be d) (u32Be hi ++ u32Be lo)) as H4. rewrite u32Be_length in H4.
  rewrite H4, readU32Be_u32Be by done.
  pose proof (readU32Be_app_r (u32Be d ++ u32Be hi) (u32Be lo)) as H8. rewrite length_app, !u32Be_length, <- app_assoc in H8.
  change (4 + 4)%nat with 8%nat in H8. rewrite H8. pose proof (readU32Be_u32Be lo [] Hlo) as Hr. rewrite app_nil_r in Hr.
  rewrite Hr. unfold fromUint64Parts. change 4294967296 with (2 ^ 32). do 2 f_equal.
  rewrite (Z.mod_small lo) by done. unfold hi, lo. pose proof (Z.div_mod n (2 ^ 32)). lia.
Qed.

(** One direction numbers its fragments consecutively, however its loops interleave. *)
Lemma run_sender_seqs ts d :
  let '(sent, d') := run_sender ts d in
  map s_seq sent = seqZ (d_seq d) (Z.of_nat (length sent)) /\ d_seq d' = d_seq d + Z.of_nat (length sent).
Proof.
  revert d. induction ts as [|t ts IH]; intros d; simpl; [split; [done|simpl; lia]|].
  assert (Ht : exists sent d', sender_step t d = (sent, d') /\
    map s_seq sent = seqZ (d_seq d) (Z.of_nat (length sent)) /\ d_seq d' = d_seq d + Z.of_nat (length sent)).
  { destruct t as [data|j]; simpl; [by eexists _, _; repeat split; simpl; try lia|].
    destruct (d_jobs d !! j) as [job|]; [|eexists _, _; repeat split; simpl; lia].
    destruct (j_parts job !! j_next job) as [p|]; eexists _, _; repeat split; simpl; lia. }
  destruct Ht as (sent & d' & -> & Hs & Hd). specialize (IH d').
  destruct (run_sender ts d') as [more d'']. destruct IH as [Hs' Hd'].
  rewrite map_app, Hs, Hs', length_app, Hd, Nat2Z.inj_add, seqZ_app by lia. split; [done|lia].
Qed.

Lemma sent_seq ts f :
  f ∈ fst (run_sender ts new_direction) -> 0 <= s_seq f < Z.of_nat (length (fst (run_sender ts new_direction))).
Proof.
  intros Hf. pose proof (run_sender_seqs ts new_direction) as H. destruct (run_sender ts new_direction) as [sent d].
  destruct H as [H _]. simpl in *. assert (Hin : s_seq f ∈ map s_seq sent) by by apply list_elem_of_fmap_2.
  rewrite H in Hin. apply elem_of_seqZ in Hin. lia.
Qed.

Lemma fragment_iv_parse s r f :
  0 <= s_seq f < 2 ^ 64 -> parseCallIv (fragment_iv s r f) = Some (callVideoIvDirection s r true, s_seq f).
Proof. intros H. apply parse_build; [apply (call_direction_range (Some s))|done]. Qed.














(** Turning the camera off and on creates a new direction whose number starts at [0] again,
    while the key of the call stays: the first fragments of both share their IV. *)
Lemma restarted_video_reuses_iv s r ts ts' f f' rest rest' :
  fst (run_sender ts new_direction) = f :: rest -> fst (run_sender ts' new_direction) = f' :: rest' ->
  fragment_iv s r f = fragment_iv s r f'.
Proof.
  assert (Hfirst : forall ts f rest, fst (run_sender ts new_direction) = f :: rest -> s_seq f = 0).
  { intros ts0 f0 rest0 H0. pose proof (run_sender_seqs ts0 new_direction) as H.
    destruct (run_sender ts0 new_direction) as [sent d]. simpl in H0. subst sent. destruct H as [H _].
    simpl in H. rewrite seqZ_cons in H by lia. by injection H. }
  intros H1 H2. unfold fragment_iv. by rewrite (Hfirst _ _ _ H1), (Hfirst _ _ _ H2).
Qed.

(** ** The reorder buffer *)

Section jitter_facts.
Context {A : Type} (maxQueued : nat) (waitMs : Z).
Implicit Types (j : jitter A) (q : list (Z * A)).

Inductive jitter_op := Push (seq : option Z) (payload : A) | Pull (now : Z).

Definition jitter_step (op : jitter_op) (j : jitter A) : list (played A) * jitter A :=
  match op with
  | Push seq payload => ([], snd (jitter_push maxQueued seq payload j))
  | Pull now => let '(o, j) := jitter_pull waitMs now j in (option_list o, j)
  end.

Fixpoint jitter_run (ops : list jitter_op) (j : jitter A) : list (played A) * jitter A :=
  match ops with
  | [] => ([], j)
  | op :: ops =>
      let '(out, j) := jitter_step op j in
      let '(more, j) := jitter_run ops j in (out ++ more, j)
  end.

Definition played_seq (p : played A) : Z := match p with Packet n _ => n | Loss n => n end.

Definition sorted q : Prop := StronglySorted (fun x y => x.1 < y.1) q.

Record jitter_ok j : Prop := mk_jitter_ok {
  jo_sorted : sorted (queue j);
  jo_bound : (length (queue j) <= maxQueued)%nat;
  jo_next : forall next n a, nextSeq j = Some next -> (n, a) ∈ queue j -> next <= n
}.

Lemma insert_seq_elem x y q : y ∈ insert_seq x q <-> y = x \/ y ∈ q.
Proof. induction q as [|z q IH]; simpl; [set_solver|]. case_match; set_solver. Qed.

Lemma insert_seq_sorted n (a : A) q :
  existsb (fun item => Z.eqb item.1 n) q = false -> sorted q -> sorted (insert_seq (n, a) q).
Proof.
  induction q as [|[m b] q IH]; intros Hn Hq; simpl; [repeat constructor|].
  simpl in Hn. apply orb_false_iff in Hn as [Hm Hn]. apply Z.eqb_neq in Hm. simpl in Hm.
  apply StronglySorted_inv in Hq as [Hq Hall].
  destruct (Z.ltb_spec n m).
  - constructor; [by constructor|]. constructor; [simpl; lia|].
    eapply Forall_impl; [exact Hall|]. simpl. intros y Hy. lia.
  - constructor; [by apply IH|]. apply Forall_forall. intros y Hy. apply insert_seq_elem in Hy as [->|Hy]; simpl; [lia|].
    rewrite Forall_forall in Hall. by apply Hall.
Qed.

Lemma take_sorted k q : sorted q -> sorted (take k q).
Proof.
  intros H. revert k. induction H as [|x q Hs IH Hall]; intros [|k]; try constructor; [apply IH|].
  by apply Forall_take.
Qed.

Lemma sorted_unique q n a b : sorted q -> (n, a) ∈ q -> (n, b) ∈ q -> a = b.
Proof.
  induction 1 as [|[m c] q Hs IH Hall]; intros Ha Hb; [by apply elem_of_nil in Ha|]. rewrite Forall_forall in Hall.
  apply elem_of_cons in Ha as [Ha|Ha]; apply elem_of_cons in Hb as [Hb|Hb]; [congruence|..|by apply IH].
  - injection Ha as <- <-. specialize (Hall _ Hb). simpl in Hall. lia.
  - injection Hb as <- <-. specialize (Hall _ Ha). simpl in Hall. lia.
Qed.

(** [take_seq] removes the element with the number, or the number is not there. *)
Lemma take_seq_spec n q :
  match take_seq n q with
  | Some (a, rest) => exists l r, q = l ++ (n, a) :: r /\ rest = l ++ r
  | None => forall a, (n, a) ∉ q
  end.
Proof.
  induction q as [|[s a] q IH]; simpl; [intros a; apply not_elem_of_nil|].
  destruct (Z.eqb_spec s n) as [->|Hn]; [by exists [], q|].
  destruct (take_seq n q) as [[x rest]|].
  - destruct IH as (l & r & -> & ->). by exists ((s, a) :: l), r.
  - intros b Hb. apply elem_of_cons in Hb as [Hb|Hb]; [congruence|by apply (IH b)].
Qed.

Lemma sorted_app l r : sorted (l ++ r) -> sorted l /\ sorted r /\ forall x y, x ∈ l -> y ∈ r -> x.1 < y.1.
Proof.
  induction l as [|z l IH]; simpl; intros H; [split; [constructor|split; [done|set_solver]]|].
  apply StronglySorted_inv in H as [H Hall]. apply Forall_app in Hall as [Hl Hr].
  destruct (IH H) as (H1 & H2 & H3). split_and!; [by constructor|done|].
  intros x y Hx Hy. apply elem_of_cons in Hx as [->|Hx]; [|by apply H3].
  rewrite Forall_forall in Hr. by apply Hr.
Qed.

Lemma app_sorted l r : sorted l -> sorted r -> (forall x y, x ∈ l -> y ∈ r -> x.1 < y.1) -> sorted (l ++ r).
Proof.
  induction 1 as [|z l Hs IH Hall]; simpl; intros Hr Hc; [done|]. constructor.
  - apply IH; [done|]. intros x y Hx. apply Hc. by right.
  - apply Forall_app. split; [done|]. apply Forall_forall. intros y Hy. apply Hc; [by left|done].
Qed.

(** The number the next pull is about. *)
Definition next_of j : option Z :=
  match nextSeq j with Some next => Some next | None => option_map fst (head (queue j)) end.

Lemma jitter_pull_eq now j :
  jitter_pull waitMs now j = match next_of j with Some next => pull_at waitMs now next j | None => (None, j) end.
Proof. unfold jitter_pull, next_of. destruct (nextSeq j); [done|]. by destruct (queue j) as [|[s a] q]. Qed.

Lemma next_le j next n a : jitter_ok j -> next_of j = Some next -> (n, a) ∈ queue j -> next <= n.
Proof.
  intros [Hs _ Hn] Hnext Hin. unfold next_of in Hnext. destruct (nextSeq j) as [m|]; [by eapply Hn|].
  destruct (queue j) as [|[s b] q]; simplify_eq/=.
  apply elem_of_cons in Hin as [Hin|Hin]; [injection Hin as <- _; lia|].
  apply StronglySorted_inv in Hs as [_ Hall]. rewrite Forall_forall in Hall. specialize (Hall _ Hin). simpl in Hall. lia.
Qed.

(** What a pull does, and to what. *)
Inductive pulled next now j : option (played A) -> jitter A -> Prop :=
| pulled_packet a l r :
    queue j = l ++ (next, a) :: r -> pulled next now j (Some (Packet next a)) (mk_jitter (l ++ r) (Some (next + 1)) None)
| pulled_loss :
    (forall a, (next, a) ∉ queue j) -> pulled next now j (Some (Loss next)) (mk_jitter (queue j) (Some (next + 1)) None)
| pulled_idle :
    queue j = [] -> pulled next now j None (mk_jitter [] (Some next) (gapSince j))
| pulled_gap :
    (forall a, (next, a) ∉ queue j) -> now - default now (gapSince j) < waitMs ->
    pulled next now j None (mk_jitter (queue j) (Some next) (Some (default now (gapSince j)))).

Lemma pull_at_pulled now next j :
  jitter_ok j -> next_of j = Some next ->
  pulled next now j (fst (pull_at waitMs now next j)) (snd (pull_at waitMs now next j)).
Proof.
  intros Hj Hnext. unfold pull_at. pose proof (take_seq_spec next (queue j)) as Ht.
  destruct (take_seq next (queue j)) as [[a rest]|].
  { destruct Ht as (l & r & Hq & ->). by constructor. }
  assert (Hlater : later (queue j) next = false -> queue j = []).
  { unfold later. destruct (queue j) as [|[s a] q] eqn:Hq; [done|]. intros Hl. apply Z.ltb_ge in Hl.
    exfalso. apply (Ht a). assert (next <= s) by (eapply next_le; [done..|rewrite Hq; by left]).
    replace next with s by lia. by left. }
  destruct (later (queue j) next); simpl; [|rewrite Hlater by done; by constructor; apply Hlater].
  case_match eqn:Hw; simpl; [by constructor|]. apply Z.leb_gt in Hw. by constructor.
Qed.

Lemma pulled_ok next now j o j' :
  jitter_ok j -> next_of j = Some next -> pulled next now j o j' ->
  jitter_ok j' /\ (forall x, x ∈ queue j' -> x ∈ queue j).
Proof.
  intros Hj Hnext Hp. pose proof Hj as [Hs Hb _].
  assert (Habove : forall n a, (forall b, (next, b) ∉ queue j) -> (n, a) ∈ queue j -> next + 1 <= n).
  { intros n a Hno Hin. pose proof (next_le _ _ _ _ Hj Hnext Hin). destruct (decide (n = next)) as [->|]; [|lia].
    by destruct (Hno a). }
  destruct Hp as [a l r Hq|Hno|Hq|Hno Hw]; simpl.
  - rewrite Hq in Hs, Hb. apply sorted_app in Hs as (Hl & Hr & Hc). apply StronglySorted_inv in Hr as [Hr Hall].
    rewrite Forall_forall in Hall. rewrite length_app in Hb. simpl in Hb.
    split; [|intros x Hx; rewrite Hq; set_solver].
    constructor; simpl; [apply app_sorted; [done..|]; intros x y Hx Hy; apply Hc; set_solver|rewrite length_app; lia|].
    intros m n b [= <-] Hin. apply elem_of_app in Hin as [Hin|Hin]; [|specialize (Hall _ Hin); simpl in Hall; lia].
    assert (Hlow : next <= n) by (eapply next_le; [done..|rewrite Hq; apply elem_of_app; by left]).
    specialize (Hc _ (next, a) Hin (list_elem_of_here _ _)). simpl in Hc. lia.
  - split; [|done]. constructor; simpl; [done..|]. intros m n a [= <-] Hin. by eapply Habove.
  - split; [|set_solver]. constructor; simpl; [constructor|lia|]. intros. set_solver.
  - split; [|done]. constructor; simpl; [done..|]. intros m n a [= <-] Hin. specialize (Habove _ _ Hno Hin). lia.
Qed.

Lemma jitter_push_ok seq a j : jitter_ok j -> jitter_ok (snd (jitter_push maxQueued seq a j)).
Proof.
  intros Hj. pose proof Hj as [Hs Hb Hn]. unfold jitter_push. destruct seq as [n|]; [|done].
  destruct (Z.ltb n 0); [done|]. destruct (nextSeq j) as [next|] eqn:Hnext; simpl.
  - destruct (Z.ltb_spec n next); [done|]. destruct (existsb _ _) eqn:He; [done|]. simpl.
    constructor; simpl; [by apply take_sorted, insert_seq_sorted|rewrite length_take; lia|].
    intros m k b [= <-] Hin. apply elem_of_take in Hin as (i & Hi & _). apply list_elem_of_lookup_2, insert_seq_elem in Hi.
    destruct Hi as [[= -> ->]|Hi]; [done|by eapply Hn].
  - destruct (existsb _ _) eqn:He; [done|]. simpl.
    constructor; simpl; [by apply take_sorted, insert_seq_sorted|rewrite length_take; lia|done].
Qed.

Lemma jitter_push_elem seq a j x :
  x ∈ queue (snd (jitter_push maxQueued seq a j)) -> x ∈ queue j \/ seq = Some x.1 /\ a = x.2.
Proof.
  unfold jitter_push. destruct seq as [n|]; [|by left]. destruct (Z.ltb n 0); [by left|].
  destruct (match nextSeq j with Some _ => _ | None => _ end); [by left|]. destruct (existsb _ _); [by left|].
  simpl. intros Hin. apply elem_of_take in Hin as (i & Hi & _). apply list_elem_of_lookup_2, insert_seq_elem in Hi.
  destruct Hi as [->|]; [by right|by left].
Qed.

(** One step plays at most the next number, and only what was pushed before. *)
Lemma jitter_step_ok op j out j' :
  jitter_ok j -> jitter_step op j = (out, j') ->
  jitter_ok j' /\
  (exists first, (nextSeq j = None \/ nextSeq j = Some first) /\
     map played_seq out = seqZ first (Z.of_nat (length out)) /\
     (nextSeq j' = Some (first + Z.of_nat (length out)) \/ nextSeq j' = nextSeq j /\ out = [])) /\
  (forall n a, Packet n a ∈ out -> (n, a) ∈ queue j) /\
  (forall x, x ∈ queue j' -> x ∈ queue j \/ op = Push (Some x.1) x.2).
Proof.
  intros Hj. destruct op as [seq a|now]; simpl.
  - intros [= <- <-]. split; [by apply jitter_push_ok|]. split; [|split].
    + exists (default 0 (nextSeq j)). split; [destruct (nextSeq j); auto|]. split; [done|]. right. split; [|done].
      unfold jitter_push. by repeat case_match.
    + intros n b Hin. by apply elem_of_nil in Hin.
    + intros x Hx. apply jitter_push_elem in Hx as [Hx|[-> ->]]; auto.
  - rewrite jitter_pull_eq. destruct (next_of j) as [next|] eqn:Hnext.
    + pose proof (pull_at_pulled now next j Hj Hnext) as Hp. destruct (pull_at waitMs now next j) as [o j1].
      simpl in Hp. intros [= <- <-]. destruct (pulled_ok _ _ _ _ _ Hj Hnext Hp) as [Hj' Hsub].
      assert (Hfirst : nextSeq j = None \/ nextSeq j = Some next) by (unfold next_of in Hnext; destruct (nextSeq j); auto).
      split; [done|]. split; [exists next; split; [done|]; destruct Hp; (split; [done|left; simpl; f_equal; lia])|].
      split; [|by auto]. intros n a Hin. destruct Hp as [b l r Hq| | |]; simpl in Hin; try set_solver.
        apply list_elem_of_singleton in Hin as [= -> ->]. rewrite Hq. set_solver.
    + intros [= <- <-]. split; [done|]. split; [exists 0|set_solver].
      unfold next_of in Hnext. destruct (nextSeq j); [done|]. auto.
Qed.

Lemma jitter_run_ok ops j :
  jitter_ok j ->
  let '(out, j') := jitter_run ops j in
  jitter_ok j' /\
  (exists first, (nextSeq j = None \/ nextSeq j = Some first) /\
     map played_seq out = seqZ first (Z.of_nat (length out)) /\
     (nextSeq j' = Some (first + Z.of_nat (length out)) \/ nextSeq j' = nextSeq j /\ out = [])) /\
  (forall n a, Packet n a ∈ out -> (n, a) ∈ queue j \/ Push (Some n) a ∈ ops) /\
  (forall x, x ∈ queue j' -> x ∈ queue j \/ Push (Some x.1) x.2 ∈ ops).
Proof.
  revert j. induction ops as [|op ops IH]; intros j Hj; simpl.
  { split; [done|]. split; [exists (default 0 (nextSeq j)); destruct (nextSeq j); auto|]. split; [set_solver|auto]. }
  destruct (jitter_step op j) as [out j1] eqn:Hstep.
  destruct (jitter_step_ok _ _ _ _ Hj Hstep) as (Hj1 & (first & Hfirst & Hseq & Hnext) & Hplayed & Hqueue).
  specialize (IH j1 Hj1). destruct (jitter_run ops j1) as [more j2].
  destruct IH as (Hj2 & (first' & Hfirst' & Hseq' & Hnext') & Hplayed' & Hqueue').
  split; [done|]. split; [|split].
  - rewrite map_app, length_app, Nat2Z.inj_add, Hseq, Hseq'. destruct Hnext as [Hnext|[Hnext ->]].
    + assert (first' = first + Z.of_nat (length out)) as -> by (destruct Hfirst' as [H|H]; congruence).
      exists first. split; [done|]. rewrite seqZ_app by lia. split; [done|].
      left. destruct Hnext' as [Hn|[Hn ->]]; rewrite Hn; [f_equal; lia|]. rewrite Hnext. f_equal. simpl. lia.
    + exists first'. rewrite Hnext in Hfirst', Hnext'. split; [done|]. simpl. split; [done|].
      destruct Hnext' as [Hn|[Hn ->]]; auto.
  - intros n a Hin. apply elem_of_app in Hin as [Hin|Hin]; [left; by apply Hplayed|].
    destruct (Hplayed' n a Hin) as [H|H]; [|right; by right].
    destruct (Hqueue _ H) as [H'|H']; [by left|]. right. rewrite H'. apply list_elem_of_here.
  - intros x Hx. destruct (Hqueue' x Hx) as [H|H]; [|right; by right].
    destruct (Hqueue _ H) as [H'|H']; [by left|]. right. rewrite H'. apply list_elem_of_here.
Qed.

Lemma empty_jitter_ok : jitter_ok createJitterBuffer.
Proof. constructor; simpl; [constructor|lia|done]. Qed.

(** Whatever arrives and whenever the player asks, the reorder buffer plays consecutive
    numbers (each a packet or a loss, none twice), every packet it plays was pushed with
    that number, and it never holds more than [maxQueued] packets. *)
Theorem jitter_in_order ops :
  let '(out, j) := jitter_run ops createJitterBuffer in
  (exists first, map played_seq out = seqZ first (Z.of_nat (length out))) /\
  (forall n a, Packet n a ∈ out -> Push (Some n) a ∈ ops) /\
  (length (queue j) <= maxQueued)%nat.
Proof.
  pose proof (jitter_run_ok ops createJitterBuffer empty_jitter_ok) as H.
  destruct (jitter_run ops createJitterBuffer) as [out j].
  destruct H as (Hj & (first & _ & Hseq & _) & Hplayed & _). split; [by exists first|]. split; [|apply Hj].
  intros n a Hin. destruct (Hplayed n a Hin) as [H|H]; [by apply elem_of_nil in H|done].
Qed.

(** *** Progress *)

(** Pulls at these times, at least [waitMs] apart. *)
Fixpoint spaced (now : Z) (times : list Z) : Prop :=
  match times with
  | [] => True
  | t :: rest => now <= t /\ spaced (t + waitMs) rest
  end.

Definition gap_before now j : Prop := forall since, gapSince j = Some since -> since <= now.

(** Pulls until the packet [n] is played, when the next one is at [t] or later. *)
Definition pulls_left (n next t : Z) j : Z :=
  2 * (n - next) + match gapSince j with Some since => if Z.leb (since + waitMs) t then 0 else 1 | None => 1 end.

Lemma pull_progress n a now t j :
  0 <= waitMs -> jitter_ok j -> (n, a) ∈ queue j -> gap_before now j -> now <= t ->
  forall next, next_of j = Some next ->
  let '(o, j') := jitter_pull waitMs t j in
  o = Some (Packet n a) \/
  jitter_ok j' /\ (n, a) ∈ queue j' /\ gap_before t j' /\
  exists next', next_of j' = Some next' /\
    forall t', t + waitMs <= t' -> pulls_left n next' t' j' < pulls_left n next now j.
Proof.
  intros Hw Hj Hin Hgap Ht next Hnext. rewrite jitter_pull_eq, Hnext.
  pose proof (pull_at_pulled t next j Hj Hnext) as Hp. destruct (pull_at waitMs t next j) as [o j']. simpl in Hp.
  destruct (pulled_ok _ _ _ _ _ Hj Hnext Hp) as [Hj' _]. pose proof (next_le _ _ _ _ Hj Hnext Hin) as Hle.
  unfold pulls_left. destruct Hp as [b l r Hq|Hno|Hq|Hno Hwait].
  - destruct (decide (n = next)) as [->|Hne].
    { left. assert (a = b) as ->; [|done]. destruct Hj as [Hs _ _]. eapply sorted_unique; [done..|rewrite Hq; set_solver]. }
    right. split; [done|]. split; [rewrite Hq in Hin; set_solver|]. split; [done|]. exists (next + 1). split; [done|].
    intros t' _. simpl. repeat case_match; lia.
  - right. split; [done|]. split; [done|]. split; [done|]. exists (next + 1). split; [done|].
    assert (n <> next) by (intros ->; by apply (Hno a)). intros t' _. simpl. repeat case_match; lia.
  - rewrite Hq in Hin. by apply elem_of_nil in Hin.
  - right. split; [done|]. split; [done|]. simpl. unfold gap_before in *. destruct (gapSince j) as [since|] eqn:Hg; simpl in *.
    + split; [intros ? [= <-]; specialize (Hgap _ eq_refl); lia|]. exists next. split; [done|].
      intros t' Ht'. specialize (Hgap _ eq_refl). repeat case_match; bool_cases; lia.
    + split; [intros ? [= <-]; lia|]. exists next. split; [done|]. intros t' Ht'. repeat case_match; bool_cases; lia.
Qed.

Lemma pulls_play n a times : forall now next j,
  0 <= waitMs -> jitter_ok j -> (n, a) ∈ queue j -> gap_before now j -> spaced now times ->
  next_of j = Some next -> pulls_left n next now j < Z.of_nat (length times) ->
  Packet n a ∈ fst (jitter_run (map Pull times) j).
Proof.
  induction times as [|t times IH]; intros now next j Hw Hj Hin Hgap Hsp Hnext Hleft; cbn [length] in Hleft.
  { pose proof (next_le _ _ _ _ Hj Hnext Hin). unfold pulls_left in Hleft. repeat case_match; lia. }
  destruct Hsp as [Ht Hsp]. pose proof (pull_progress n a now t j Hw Hj Hin Hgap Ht next Hnext) as Hp.
  simpl. destruct (jitter_pull waitMs t j) as [o j'].
  destruct (jitter_run (map Pull times) j') as [more j''] eqn:Hrun. simpl.
  destruct Hp as [->|(Hj' & Hin' & Hgap' & next' & Hnext' & Hless)]; [apply list_elem_of_here|].
  apply elem_of_app. right. change more with (fst (more, j'')). rewrite <- Hrun.
  apply (IH (t + waitMs) next'); try done.
  - intros since Hs. specialize (Hgap' _ Hs). lia.
  - specialize (Hless (t + waitMs) (Z.le_refl _)). lia.
Qed.

Definition op_before now (op : jitter_op) : Prop := match op with Pull t => t <= now | Push _ _ => True end.

Lemma jitter_run_gap now ops : forall j,
  Forall (op_before now) ops -> gap_before now j -> gap_before now (snd (jitter_run ops j)).
Proof.
  induction ops as [|op ops IH]; intros j Hops Hj; simpl; [done|]. apply Forall_cons in Hops as [Hop Hops].
  assert (H : gap_before now (snd (jitter_step op j))).
  { destruct op as [seq b|t]; simpl.
    - unfold jitter_push. destruct seq; [|done]. by repeat (case_match; try done).
    - rewrite jitter_pull_eq. destruct (next_of j) as [next|]; [|done]. unfold pull_at, gap_before in *. simpl in Hop.
      destruct (take_seq next (queue j)) as [[b rest]|]; [done|]. destruct (negb _); [done|].
      destruct (Z.leb _ _); simpl; [done|]. intros since [= <-]. destruct (gapSince j); simpl; [by apply Hj|lia]. }
  destruct (jitter_step op j) as [out j1]. specialize (IH j1 Hops H). by destruct (jitter_run ops j1).
Qed.

(** A queued packet is played: after any history up to [now], pulls that are [waitMs]
    apart play it after at most two pulls for each number between the next one and it. *)
Theorem queued_packet_played ops now times n a next :
  let j := snd (jitter_run ops createJitterBuffer) in
  0 <= waitMs -> Forall (op_before now) ops -> (n, a) ∈ queue j -> next_of j = Some next ->
  spaced now times -> 2 * (n - next) + 1 < Z.of_nat (length times) ->
  Packet n a ∈ fst (jitter_run (map Pull times) j).
Proof.
  intros j Hw Hops Hin Hnext Hsp Hlen. apply pulls_play with now next; try done.
  - pose proof (jitter_run_ok ops createJitterBuffer empty_jitter_ok) as H. unfold j.
    destruct (jitter_run ops createJitterBuffer). apply H.
  - by apply jitter_run_gap.
  - unfold pulls_left. repeat case_match; lia.
Qed.
End jitter_facts.

Arguments jitter_op : clear implicits.

(** ** The playback ring is a bounded queue *)

(** The last [k] elements. *)
Definition last_n {A} (k : nat) (l : list A) : list A := drop (length l - k) l.

Lemma last_n_app {A} k (l m : list A) : last_n k (last_n k l ++ m) = last_n k (l ++ m).
Proof.
  unfold last_n. rewrite <- (drop_app_le l m (length l - k)) by lia. rewrite drop_drop. f_equal.
  rewrite length_drop, !length_app. lia.
Qed.

Lemma last_n_all {A} k (l : list A) : (length l <= k)%nat -> last_n k l = l.
Proof. intros H. unfold last_n. by replace (length l - k)%nat with 0%nat by lia. Qed.

Lemma last_n_last_n {A} k m (l : list A) : (m <= k)%nat -> last_n m (last_n k l) = last_n m l.
Proof. intros H. unfold last_n. rewrite drop_drop, length_drop. f_equal. lia. Qed.

Lemma last_n_length {A} k (l : list A) : (length (last_n k l) <= k)%nat.
Proof. unfold last_n. rewrite length_drop. lia. Qed.

Lemma mod_wrap x c : (x < 2 * c)%nat -> (x mod c)%nat = if Nat.ltb x c then x else (x - c)%nat.
Proof.
  intros H. destruct (Nat.ltb_spec x c); [by apply Nat.mod_small|].
  symmetry. apply (Nat.mod_unique x c 1); lia.
Qed.

Section ring_facts.
Context {A : Type} (zero : A) (targetSamples maxSamples : nat).
Implicit Types r : ring A.

Record ring_ok (cap : nat) r : Prop := mk_ring_ok {
  ro_cells : length (cells r) = cap;
  ro_pos : (0 < cap)%nat;
  ro_read : (read r < cap)%nat;
  ro_filled : (filled r <= cap)%nat;
  ro_write : write r = ((read r + filled r) mod cap)%nat
}.

(** The samples in the ring, oldest first. *)
Definition contents r : list A :=
  map (fun i => nth ((read r + i) mod capacity r) (cells r) zero) (List.seq 0 (filled r)).

Lemma contents_length r : length (contents r) = filled r.
Proof. unfold contents. by rewrite length_map, length_seq. Qed.

Lemma drop_one_ok cap r : ring_ok cap r -> (0 < filled r)%nat -> ring_ok cap (drop_one r).
Proof.
  intros [Hc Hp Hr Hf Hw] H0. constructor; simpl; [done|done| |lia|].
  - unfold capacity. rewrite Hc. apply Nat.mod_upper_bound. lia.
  - unfold capacity. rewrite Hc, Hw, Nat.Div0.add_mod_idemp_l. f_equal. lia.
Qed.

Lemma drop_one_contents r : (0 < filled r)%nat ->
  contents r = nth (read r mod capacity r) (cells r) zero :: contents (drop_one r).
Proof.
  intros H0. unfold contents, capacity. simpl. fold (capacity r). destruct (filled r) as [|f]; [lia|]. simpl.
  rewrite Nat.add_0_r, Nat.sub_0_r. f_equal. rewrite <- seq_shift, map_map. apply map_ext. intros i.
  unfold capacity. rewrite Nat.Div0.add_mod_idemp_l. f_equal. f_equal. lia.
Qed.

Lemma push_sample_ok cap r x : ring_ok cap r ->
  ring_ok cap (push_sample r x) /\ contents (push_sample r x) = last_n cap (contents r ++ [x]).
Proof.
  assert (Hroom : forall r, ring_ok cap r -> (filled r < cap)%nat ->
    let r' := mk_ring (<[write r := x]> (cells r)) (read r) ((write r + 1) mod capacity r) (filled r + 1) (playing r) in
    ring_ok cap r' /\ contents r' = contents r ++ [x]).
  { clear r. intros r [Hc Hp Hr Hf Hw] Hlt r'. split.
    - constructor; simpl; [by rewrite length_insert|done|done|lia|].
      unfold capacity. rewrite Hc, Hw, Nat.Div0.add_mod_idemp_l. f_equal. lia.
    - unfold contents, capacity, r'. simpl. rewrite length_insert, Nat.add_comm. simpl Nat.add.
      rewrite seq_S, map_app. simpl. rewrite !Hc, Hw. f_equal.
      + apply map_ext_in. intros i Hi. apply in_seq in Hi. rewrite !nth_lookup, list_lookup_insert_ne; [done|].
        rewrite !mod_wrap by lia. repeat case_match; bool_cases; lia.
      + f_equal. apply nth_lookup_Some, list_lookup_insert_eq. rewrite Hc. apply Nat.mod_upper_bound. lia. }
  intros H. unfold push_sample. pose proof (ro_cells _ _ H) as Hc. pose proof (ro_pos _ _ H) as Hp.
  pose proof (ro_filled _ _ H) as Hf. change (capacity r) with (length (cells r)).
  destruct (Nat.leb_spec (length (cells r)) (filled r)) as [Hfull|Hfree]; rewrite Hc in *.
  - pose proof (drop_one_ok _ _ H ltac:(lia)) as Hd. pose proof (drop_one_contents r ltac:(lia)) as Hdc.
    destruct (Hroom (drop_one r) Hd ltac:(simpl; lia)) as [Hok Hcont]. split; [exact Hok|].
    etransitivity; [exact Hcont|]. unfold last_n. rewrite length_app, contents_length. simpl length.
    replace (filled r + 1 - cap)%nat with 1%nat by lia. by rewrite Hdc.
  - destruct (Hroom r H Hfree) as [Hok Hcont]. split; [exact Hok|].
    etransitivity; [exact Hcont|]. rewrite last_n_all; [done|]. rewrite length_app, contents_length. simpl. lia.
Qed.

Lemma push_samples_ok cap l : forall r, ring_ok cap r ->
  ring_ok cap (fold_left push_sample l r) /\ contents (fold_left push_sample l r) = last_n cap (contents r ++ l).
Proof.
  induction l as [|x l IH]; intros r H; simpl.
  { split; [done|]. rewrite app_nil_r, last_n_all; [done|]. rewrite contents_length. apply H. }
  destruct (push_sample_ok cap r x H) as [H1 Hc1]. destruct (IH _ H1) as [H2 Hc2].
  split; [done|]. rewrite Hc2, Hc1, last_n_app, <- app_assoc. done.
Qed.

Lemma shed_ok cap fuel : forall r, ring_ok cap r -> (filled r <= fuel)%nat ->
  ring_ok cap (shed maxSamples fuel r) /\ contents (shed maxSamples fuel r) = last_n maxSamples (contents r).
Proof.
  induction fuel as [|fuel IH]; intros r H Hf; simpl.
  { split; [done|]. rewrite last_n_all; [done|]. rewrite contents_length. lia. }
  destruct (Nat.ltb_spec maxSamples (filled r)) as [Hm|Hm].
  - destruct (IH (drop_one r)) as [H1 Hc1]; [by apply drop_one_ok; [|lia]|simpl; lia|]. split; [done|].
    rewrite Hc1. pose proof (drop_one_contents r ltac:(lia)) as Hd. pose proof (contents_length r) as Hlen.
    rewrite Hd in *. simpl in Hlen. unfold last_n. simpl length.
    replace (S (length (contents (drop_one r))) - maxSamples)%nat with (S (length (contents (drop_one r)) - maxSamples)) by lia.
    done.
  - split; [done|]. rewrite last_n_all; [done|]. by rewrite contents_length.
Qed.

Lemma shed_playing fuel : forall r, playing (shed maxSamples fuel r) = playing r.
Proof. induction fuel as [|fuel IH]; intros r; simpl; [done|]. destruct (Nat.ltb _ _); [by rewrite IH|done]. Qed.

Lemma push_samples_playing l : forall r, playing (fold_left push_sample l r) = playing r.
Proof. induction l as [|x l IH]; intros r; simpl; [done|]. rewrite IH. unfold push_sample. by destruct (Nat.leb _ _). Qed.

Lemma ring_take_ok cap n : forall r, ring_ok cap r ->
  let '(samples, dry, r') := ring_take zero n r in
  ring_ok cap r' /\ samples = take n (contents r) ++ replicate (n - filled r) zero /\
  dry = Nat.ltb (filled r) n /\ contents r' = drop n (contents r) /\ playing r' = playing r.
Proof.
  induction n as [|n IH]; intros r H; simpl ring_take; [by rewrite Nat.sub_0_l|].
  destruct (Nat.ltb_spec 0 (filled r)) as [H0|H0].
  - specialize (IH (drop_one r) (drop_one_ok _ _ H H0)). destruct (ring_take zero n (drop_one r)) as [[samples dry] r'].
    destruct IH as (H1 & -> & -> & Hc & Hp). split; [done|]. rewrite (drop_one_contents r H0). simpl.
    split_and!; [|destruct (filled r); [lia|]; simpl; by rewrite Nat.sub_0_r|done|done].
    unfold capacity. rewrite (ro_cells _ _ H), Nat.mod_small by apply H. do 3 f_equal. lia.
  - specialize (IH r H). destruct (ring_take zero n r) as [[samples dry] r'].
    assert (Hnil : contents r = []) by (apply nil_length_inv; rewrite contents_length; lia).
    rewrite Hnil in *. assert (Hf : filled r = 0%nat) by lia. rewrite Hf in *. rewrite !Nat.sub_0_r in *.
    destruct IH as (H1 & -> & -> & Hc & Hp). split_and!; [done| | |by rewrite Hc, !drop_nil|done].
    + by rewrite !take_nil.
    + done.
Qed.

(** *** The queue the ring implements *)

Record sample_queue := mk_queue { q_samples : list A; q_playing : bool }.

(** Only the newest [maxSamples] samples are kept. *)
Definition queue_push (samples : list A) (q : sample_queue) : sample_queue :=
  mk_queue (last_n maxSamples (q_samples q ++ samples)) (q_playing q).

(** Silence until [targetSamples] are there; silence after the last sample, which stops. *)
Definition queue_pull (n : nat) (q : sample_queue) : list A * bool * sample_queue :=
  let have := length (q_samples q) in
  if negb (q_playing q) && Nat.ltb have targetSamples then (replicate n zero, false, q)
  else (take n (q_samples q) ++ replicate (n - have) zero, Nat.ltb have n,
        mk_queue (drop n (q_samples q)) (negb (Nat.ltb have n))).

Inductive ring_op := Pushed (samples : list A) | Pulled (n : nat).

Definition ring_step (op : ring_op) r : list (list A * bool) * ring A :=
  match op with
  | Pushed samples => ([], ring_push maxSamples samples r)
  | Pulled n => let '(samples, dry, r) := ring_pull zero targetSamples n r in ([(samples, dry)], r)
  end.

Definition queue_step (op : ring_op) (q : sample_queue) : list (list A * bool) * sample_queue :=
  match op with
  | Pushed samples => ([], queue_push samples q)
  | Pulled n => let '(samples, dry, q) := queue_pull n q in ([(samples, dry)], q)
  end.

Fixpoint run_ops {S} (step : ring_op -> S -> list (list A * bool) * S) (ops : list ring_op) (s : S) : list (list A * bool) * S :=
  match ops with
  | [] => ([], s)
  | op :: ops => let '(out, s) := step op s in let '(more, s) := run_ops step ops s in (out ++ more, s)
  end.

Definition implements cap r (q : sample_queue) : Prop :=
  ring_ok cap r /\ contents r = q_samples q /\ playing r = q_playing q /\ (filled r <= maxSamples)%nat.

Lemma ring_step_implements cap op r q : (maxSamples <= cap)%nat -> implements cap r q ->
  fst (ring_step op r) = fst (queue_step op q) /\ implements cap (snd (ring_step op r)) (snd (queue_step op q)).
Proof.
  intros Hmax (Hok & Hc & Hp & Hf). destruct op as [samples|n]; simpl.
  - split; [done|]. unfold ring_push, queue_push. rewrite <- Hc, <- Hp.
    destruct samples as [|x samples].
    { rewrite app_nil_r, last_n_all by (by rewrite contents_length). done. }
    destruct (push_samples_ok cap (x :: samples) r Hok) as [H1 Hc1]. cbv zeta.
    destruct (shed_ok cap (filled (fold_left push_sample (x :: samples) r)) _ H1 (Nat.le_refl _)) as [H2 Hc2].
    assert (Hcont : contents (shed maxSamples (filled (fold_left push_sample (x :: samples) r))
      (fold_left push_sample (x :: samples) r)) = last_n maxSamples (contents r ++ x :: samples)).
    { by rewrite Hc2, Hc1, last_n_last_n. }
    split; [done|]. split; [done|]. split; [by rewrite shed_playing, push_samples_playing|].
    rewrite <- contents_length, Hcont. apply last_n_length.
  - unfold ring_pull, queue_pull. rewrite <- Hc, <- Hp, contents_length.
    destruct (negb (playing r) && Nat.ltb (filled r) targetSamples); [done|].
    set (r1 := mk_ring (cells r) (read r) (write r) (filled r) true).
    assert (H1 : ring_ok cap r1) by (destruct Hok; by constructor).
    pose proof (ring_take_ok cap n r1 H1) as Ht. destruct (ring_take zero n r1) as [[out dry] r2].
    destruct Ht as (H2 & -> & -> & Hc2 & Hp2). change (contents r1) with (contents r) in *.
    change (filled r1) with (filled r) in *. change (playing r1) with true in Hp2.
    split; [done|]. assert (Hlen : filled r2 = (filled r - n)%nat)
      by (rewrite <- (contents_length r2), <- (contents_length r), Hc2; apply length_drop).
    destruct (Nat.ltb (filled r) n); simpl.
    + split; [destruct H2; by constructor|]. split; [done|]. split; [done|]. simpl. lia.
    + split; [done|]. split; [done|]. split; [by rewrite Hp2|]. lia.
Qed.

(** The ring buffer of the playback worklet is a bounded queue: whatever the chunks and
    the demands of the sound card, it gives out the same samples, silence and underruns as a
    list that keeps the newest [maxSamples] samples, starts at [targetSamples] and stops
    when it runs dry. *)
Theorem ring_refines_queue cap ops :
  (0 < maxSamples <= cap)%nat ->
  let r := run_ops ring_step ops (createPlaybackRing zero cap) in
  let q := run_ops queue_step ops (mk_queue [] false) in
  fst r = fst q /\ contents (snd r) = q_samples (snd q) /\ playing (snd r) = q_playing (snd q).
Proof.
  intros Hcap. assert (H0 : implements cap (createPlaybackRing zero cap) (mk_queue [] false)).
  { split; [|simpl; split; [done|split; [done|lia]]]. constructor; simpl; [by rewrite length_replicate|lia..|].
    symmetry. apply Nat.Div0.mod_0_l. }
  revert H0. generalize (createPlaybackRing zero cap) (mk_queue [] false).
  induction ops as [|op ops IH]; intros r q H; simpl; [by destruct H as (_ & ? & ? & _)|].
  destruct (ring_step_implements cap op r q) as [Hout H1]; [lia|done|].
  destruct (ring_step op r) as [out1 r1], (queue_step op q) as [out2 q1]. simpl in *. subst out2.
  specialize (IH r1 q1 H1). cbv zeta in IH.
  destruct (run_ops ring_step ops r1), (run_ops queue_step ops q1). simpl in *.
  destruct IH as (-> & ? & ?). done.
Qed.
End ring_facts.

Arguments ring_op : clear implicits.

(** ** The frames being assembled *)

Implicit Types pending : open_frames.

Lemma entryBytes_nonneg e : 0 <= entryBytes e.
Proof.
  unfold entryBytes. induction (e_parts e) as [|p ps IH]; simpl; [lia|]. destruct p; simpl; lia.
Qed.

Lemma sublist_total p p' : p' `sublist_of` p -> totalBytes p' <= totalBytes p.
Proof.
  induction 1 as [|[k e] p' p H IH|[k e] p' p H IH]; simpl; [lia|lia|]. pose proof (entryBytes_nonneg e). lia.
Qed.

Lemma sublist_count s p p' : p' `sublist_of` p -> (streamCount s p' <= streamCount s p)%nat.
Proof.
  unfold streamCount. induction 1 as [|e p' p H IH|e p' p H IH]; simpl; [lia|..]; destruct (in_stream s e); simpl; lia.
Qed.

Lemma sublist_unique {B} (p p' : list (string * B)) : p' `sublist_of` p -> unique p -> unique p'.
Proof. intros H Hu. eapply sublist_NoDup; [exact Hu|]. by apply fmap_sublist. Qed.

Lemma del_sublist {B} (p : list (string * B)) k : del p k `sublist_of` p.
Proof. induction p as [|[k' e] p IH]; simpl; [constructor|]. case_bool_decide; by constructor. Qed.

Lemma filter_sublist {B} (f : B -> bool) (l : list B) : List.filter f l `sublist_of` l.
Proof. induction l as [|x l IH]; simpl; [constructor|]. destruct (f x); by constructor. Qed.

Lemma del_shorter {B} (p : list (string * B)) k : k ∈ map fst p -> (length (del p k) < length p)%nat.
Proof.
  intros H. induction p as [|[k' e] p IH]; simpl in *; [by apply elem_of_nil in H|].
  pose proof (sublist_length _ _ (del_sublist p k)). case_bool_decide; simpl; [lia|].
  apply elem_of_cons in H as [->|H]; [done|]. specialize (IH H). lia.
Qed.

(** [oldest] names an entry of the stream, when there is one. *)
Lemma fold_older l best :
  match fold_left older l best with
  | Some (k, _) => k ∈ map fst l \/ exists t, best = Some (k, t)
  | None => l = [] /\ best = None
  end.
Proof.
  revert best. induction l as [|e l IH]; intros best; simpl; [destruct best as [[k t]|]; [right; by exists t|done]|].
  specialize (IH (older best e)). destruct (fold_left older l (older best e)) as [[k t]|].
  - destruct IH as [IH|[t' IH]]; [left; by right|]. unfold older in IH.
    destruct best as [[k0 t0]|]; [case_match|]; simplify_eq; try (left; by left). right. by eexists.
  - destruct IH as [_ IH]. unfold older in IH. by repeat case_match.
Qed.

Lemma oldest_spec s pending :
  let l := match s with Some s => List.filter (in_stream s) pending | None => pending end in
  match oldest s pending with Some k => k ∈ map fst pending | None => l = [] end.
Proof.
  intros l. unfold oldest. fold l. pose proof (fold_older l None) as H.
  destruct (fold_left older l None) as [[k t]|]; simpl; [|by apply H].
  destruct H as [H|[? H]]; [|done]. assert (Hsub : l `sublist_of` pending) by (destruct s; [apply filter_sublist|done]).
  apply list_elem_of_fmap in H as (e & -> & He). apply list_elem_of_fmap. exists e. split; [done|].
  eapply elem_of_submseteq; [exact He|by apply sublist_submseteq].
Qed.

(** The loop removes entries until its condition fails or nothing is left to drop. *)
Lemma drop_while_spec fuel cond s : forall pending,
  (length pending <= fuel)%nat ->
  let pending' := drop_while fuel cond s pending in
  pending' `sublist_of` pending /\ (cond pending' = false \/ oldest s pending' = None).
Proof.
  induction fuel as [|fuel IH]; intros pending Hf; simpl.
  { destruct pending; [|simpl in Hf; lia]. split; [done|]. right. by destruct s. }
  destruct (cond pending) eqn:Hc; [|auto]. unfold dropOldest. pose proof (oldest_spec s pending) as Ho.
  destruct (oldest s pending) as [k|] eqn:Hk; [|auto]. apply del_shorter in Ho.
  destruct (IH (del pending k)) as [H1 H2]; [lia|]. split; [|done]. etransitivity; [exact H1|apply del_sublist].
Qed.

Section reassembler_facts.
Context (ttlMs : Z) (maxOpenFrames : nat) (maxBytes : Z).
Hypothesis Hopen : (0 < maxOpenFrames)%nat.

Lemma ensureBudget_spec extra s pending :
  let '(fits, pending') := ensureBudget maxOpenFrames maxBytes extra s pending in
  pending' `sublist_of` pending /\ (streamCount s pending' < maxOpenFrames)%nat /\
  fits = Z.leb (totalBytes pending' + extra) maxBytes.
Proof.
  unfold ensureBudget. cbv zeta.
  destruct (drop_while_spec (length pending) (fun p => Nat.leb maxOpenFrames (streamCount s p)) (Some s) pending (Nat.le_refl _))
    as [H1 Hc1]. set (p1 := drop_while _ _ _ pending) in *.
  destruct (drop_while_spec (length p1) (fun p => Z.ltb maxBytes (totalBytes p + extra)) None p1 (Nat.le_refl _)) as [H2 _].
  set (p2 := drop_while _ _ _ p1) in *. split; [by etransitivity|]. split; [|done].
  apply Nat.le_lt_trans with (streamCount s p1); [by apply sublist_count|].
  destruct Hc1 as [Hc1|Ho]; [by apply Nat.leb_gt|]. pose proof (oldest_spec (Some s) p1) as H. rewrite Ho in H.
  unfold streamCount. rewrite H. done.
Qed.

Definition have (p : option bytes) : bool := match p with Some _ => true | None => false end.

(** An open frame misses a fragment, and its counter is right. *)
Record entry_ok (e : frame_entry) : Prop := mk_entry_ok {
  eo_parts : Z.of_nat (length (e_parts e)) = e_frags e;
  eo_got : e_got e = length (List.filter have (e_parts e));
  eo_open : Z.of_nat (e_got e) < e_frags e;
  eo_stream : e_stream e = "camera" \/ e_stream e = "screen"
}.

Record pending_ok pending : Prop := mk_pending_ok {
  po_unique : unique pending;
  po_entries : Forall (fun e => entry_ok e.2) pending;
  po_total : totalBytes pending <= maxBytes;
  po_count : forall s, (streamCount s pending <= maxOpenFrames)%nat
}.

Lemma sublist_ok p p' : p' `sublist_of` p -> pending_ok p -> pending_ok p'.
Proof.
  intros H [Hu He Ht Hc]. constructor.
  - by eapply sublist_unique.
  - apply Forall_forall. intros x Hx. rewrite Forall_forall in He. apply He.
    eapply elem_of_submseteq; [exact Hx|by apply sublist_submseteq].
  - pose proof (sublist_total _ _ H). lia.
  - intros s. pose proof (sublist_count s _ _ H). specialize (Hc s). lia.
Qed.

Lemma total_set p k e e' : get p k = Some e -> totalBytes (set p k e') = totalBytes p - entryBytes e + entryBytes e'.
Proof.
  induction p as [|[k' e0] p IH]; simpl; [done|]. case_bool_decide; simpl; [intros [= ->]; lia|].
  intros Hg. rewrite IH by done. lia.
Qed.

Lemma total_set_le p k e' : totalBytes (set p k e') <= totalBytes p + entryBytes e'.
Proof.
  induction p as [|[k' e0] p IH]; simpl; [lia|]. pose proof (entryBytes_nonneg e0). case_bool_decide; simpl; lia.
Qed.

Lemma count_set_same t p k e e' :
  get p k = Some e -> e_stream e' = e_stream e -> streamCount t (set p k e') = streamCount t p.
Proof.
  intros Hg Hs. unfold streamCount. induction p as [|[k' e0] p IH]; simpl in *; [done|].
  case_bool_decide; simpl.
  - injection Hg as ->. unfold in_stream. simpl. rewrite Hs. by destruct (bool_decide _).
  - destruct (in_stream t (k', e0)); simpl; by rewrite IH.
Qed.

Lemma count_set_le t p k e' :
  (streamCount t (set p k e') <= streamCount t p + if decide (e_stream e' = t) then 1 else 0)%nat.
Proof.
  unfold streamCount. induction p as [|[k' e0] p IH]; simpl.
  - unfold in_stream. simpl. case_bool_decide; case_decide; simpl; lia || done.
  - case_bool_decide; simpl.
    + unfold in_stream. simpl. repeat case_bool_decide; case_decide; simpl; lia || done.
    + destruct (in_stream t (k', e0)); simpl; lia.
Qed.

Lemma Forall_set {B} (P : string * B -> Prop) p k v : Forall P p -> P (k, v) -> Forall P (set p k v).
Proof.
  intros H Hv. induction H as [|[k' v'] p Hx H IH]; simpl; [by repeat constructor|].
  case_bool_decide; subst; by constructor.
Qed.

Lemma parts_insert (ps : list (option bytes)) i (d : bytes) : (i < length ps)%nat ->
  foldr (fun p n => part_length p + n) 0 (<[i := Some d]> ps)
    = foldr (fun p n => part_length p + n) 0 ps + Z.of_nat (length d) - part_length (default None (ps !! i)) /\
  length (List.filter have (<[i := Some d]> ps))
    = (length (List.filter have ps) + match default None (ps !! i) with None => 1 | Some _ => 0 end)%nat.
Proof.
  revert i. induction ps as [|p ps IH]; intros [|i] Hi; simpl in *; [lia..| |].
  - destruct p; simpl; split; lia.
  - destruct (IH i ltac:(lia)) as [H1 H2]. rewrite H1. destruct p; simpl; rewrite H2; split; lia.
Qed.

Lemma put_part_bytes m frag e : (frag < length (e_parts e))%nat ->
  entryBytes (put_part m frag e)
    = entryBytes e + Z.of_nat (length (v_data m)) - part_length (default None (e_parts e !! frag)).
Proof. intros H. apply (parts_insert (e_parts e) frag (v_data m) H). Qed.

Lemma put_part_got m frag e : (frag < length (e_parts e))%nat -> e_got e = length (List.filter have (e_parts e)) ->
  e_got (put_part m frag e) = length (List.filter have (e_parts (put_part m frag e))).
Proof.
  intros H Hg. simpl. rewrite (proj2 (parts_insert (e_parts e) frag (v_data m) H)), Hg.
  destruct (default None (e_parts e !! frag)); lia.
Qed.

Lemma put_part_ok m frag e : (frag < length (e_parts e))%nat -> entry_ok e ->
  Z.of_nat (e_got (put_part m frag e)) < e_frags e -> entry_ok (put_part m frag e).
Proof.
  intros H He Hlt. pose proof (put_part_got m frag e H (eo_got _ He)) as Hg. destruct He as [Hp _ _ Hs].
  constructor; [|exact Hg|exact Hlt|exact Hs]. simpl. by rewrite length_insert.
Qed.

Lemma add_part_ok m key frag e pending :
  pending_ok pending -> get pending key = Some e -> (frag < length (e_parts e))%nat ->
  pending_ok (snd (add_part maxBytes m key frag e pending)).
Proof.
  intros Hok Hget Hfrag. unfold add_part. cbv zeta.
  set (delta := Z.of_nat (length (v_data m)) - part_length (default None (e_parts e !! frag))).
  destruct (Z.ltb 0 delta && Z.ltb maxBytes (totalBytes pending + delta)) eqn:Hover; [done|].
  assert (He : entry_ok e).
  { apply get_Some_elem in Hget; [|apply Hok]. pose proof (po_entries _ Hok) as Hall. rewrite Forall_forall in Hall.
    apply (Hall _ Hget). }
  destruct (Z.ltb_spec (Z.of_nat (e_got (put_part m frag e))) (e_frags (put_part m frag e))) as [Hlt|Hge].
  - cbn [snd]. destruct Hok as [Hu Hall Ht Hc]. constructor.
    + by apply set_unique.
    + apply Forall_set; [done|]. by apply put_part_ok.
    + rewrite (total_set _ _ _ _ Hget), put_part_bytes by done.
      apply andb_false_iff in Hover as [Hd|Hd]; bool_cases; unfold delta in *; lia.
    + intros s. by rewrite (count_set_same _ _ _ _ _ Hget).
  - destruct (forallb _ _); cbn [snd]; (eapply sublist_ok; [apply del_sublist|done]).
Qed.

Lemma new_entry_ok m frags now : 0 < frags -> entry_ok (new_entry m frags now).
Proof.
  intros Hf. assert (H0 : List.filter have (replicate (Z.to_nat frags) None) = [])
    by (induction (Z.to_nat frags); done).
  constructor; simpl.
  - rewrite length_replicate. lia.
  - by rewrite H0.
  - lia.
  - unfold streamKey. case_bool_decide; auto.
Qed.

Lemma new_entry_bytes m frags now : entryBytes (new_entry m frags now) = 0.
Proof. unfold entryBytes. simpl. by induction (Z.to_nat frags). Qed.

Lemma open_entry_ok m frags now key pending :
  0 < frags -> pending_ok pending ->
  let '(fits, pending') := ensureBudget maxOpenFrames maxBytes (Z.of_nat (length (v_data m))) (streamKey (field m "stream")) pending in
  pending_ok pending' /\ pending_ok (set pending' key (new_entry m frags now)).
Proof.
  intros Hf Hok.
  pose proof (ensureBudget_spec (Z.of_nat (length (v_data m))) (streamKey (field m "stream")) pending) as H.
  destruct (ensureBudget _ _ _ _ _) as [fits pending']. destruct H as (Hsub & Hcount & _).
  pose proof (sublist_ok _ _ Hsub Hok) as Hok'. split; [done|]. destruct Hok' as [Hu Hall Ht Hc]. constructor.
  - by apply set_unique.
  - apply Forall_set; [done|]. by apply new_entry_ok.
  - pose proof (total_set_le pending' key (new_entry m frags now)) as H. rewrite new_entry_bytes in H. lia.
  - intros s. pose proof (count_set_le s pending' key (new_entry m frags now)) as H. simpl in H. specialize (Hc s).
    case_decide as Hd; [rewrite Hd in Hcount|]; lia.
Qed.

Lemma toFragCount_range v frags : toFragCount v = Some frags -> 0 < frags <= VIDEO_MAX_FRAGS.
Proof. unfold toFragCount. destruct v as [n|]; [|done]. case_match eqn:H; [done|]. intros [= <-]. bool_cases. lia. Qed.

Lemma toFragIndex_range v frags frag : toFragIndex v frags = Some frag -> Z.of_nat frag < frags.
Proof. unfold toFragIndex. destruct v as [n|]; [|done]. case_match eqn:H; [done|]. intros [= <-]. bool_cases. lia. Qed.

Lemma gc_sublist now pending : gc ttlMs now pending `sublist_of` pending.
Proof. apply filter_sublist. Qed.

Lemma reassembler_push_ok m now pending :
  pending_ok pending -> pending_ok (snd (reassembler_push ttlMs maxOpenFrames maxBytes m now pending)).
Proof.
  intros Hok. unfold reassembler_push. cbv zeta. assert (Hg : pending_ok (gc ttlMs now pending))
    by (eapply sublist_ok; [apply gc_sublist|done]).
  set (p := gc ttlMs now pending) in *. clearbody p.
  destruct (toFragCount _) as [frags|] eqn:Hfrags; [|done]. destruct (toFragIndex _ _) as [frag|] eqn:Hfrag; [|done].
  destruct (negb (validMeta m)); [done|]. destruct (_ || _); [done|]. destruct (Z.eqb frags 1); [done|].
  destruct (to_number (field m "seq")) as [seq|]; [|done].
  apply toFragCount_range in Hfrags. apply toFragIndex_range in Hfrag. set (key := frame_key m _).
  assert (Hopened : forall pending, pending_ok pending ->
    let '(fits, pending') := ensureBudget maxOpenFrames maxBytes (Z.of_nat (length (v_data m))) (streamKey (field m "stream")) pending in
    pending_ok (snd (if fits then add_part maxBytes m key frag (new_entry m frags now) (set pending' key (new_entry m frags now))
                     else (None, pending')))).
  { intros p0 H0. pose proof (open_entry_ok m frags now key p0 (proj1 Hfrags) H0) as H.
    destruct (ensureBudget _ _ _ _ _) as [fits p1]. destruct H as [H1 H2]. destruct fits; [|done].
    apply add_part_ok; [done|rewrite get_set; by case_decide|]. simpl. rewrite length_replicate. lia. }
  specialize (Hopened p Hg). destruct (get p key) as [e|] eqn:Hget.
  - destruct (Z.eqb_spec (e_frags e) frags) as [Heq|Hne].
    + apply add_part_ok; [done..|]. apply get_Some_elem in Hget; [|apply Hg].
      pose proof (po_entries _ Hg) as Hall. rewrite Forall_forall in Hall.
      pose proof (eo_parts _ (Hall _ Hget)) as Hp. simpl in Hp. lia.
    + destruct (ensureBudget _ _ _ _ _) as [fits p1]. exact Hopened.
  - destruct (ensureBudget _ _ _ _ _) as [fits p1]. exact Hopened.
Qed.

(** The frames a sequence of fragments completes. *)
Fixpoint feed (ms : list (video_msg * Z)) pending : list video_frame * open_frames :=
  match ms with
  | [] => ([], pending)
  | (m, now) :: ms =>
      let '(o, pending) := reassembler_push ttlMs maxOpenFrames maxBytes m now pending in
      let '(more, pending) := feed ms pending in (option_list o ++ more, pending)
  end.

Lemma feed_ok ms : forall pending, pending_ok pending -> pending_ok (snd (feed ms pending)).
Proof.
  induction ms as [|[m now] ms IH]; intros pending Hok; simpl; [done|].
  pose proof (reassembler_push_ok m now pending Hok) as H. destruct (reassembler_push _ _ _ m now pending) as [o p].
  specialize (IH p H). by destruct (feed ms p).
Qed.

Lemma two_streams pending : Forall (fun e => entry_ok e.2) pending ->
  length pending = (streamCount "camera" pending + streamCount "screen" pending)%nat.
Proof.
  unfold streamCount. induction 1 as [|[k e] p He H IH]; simpl; [done|].
  assert (Hin : forall s, in_stream s (k, e) = bool_decide (e_stream e = s)) by done.
  rewrite !Hin. destruct (eo_stream _ He) as [Hs|Hs]; simpl in Hs; rewrite Hs; simpl; lia.
Qed.

(** Whatever fragments a peer sends, the receiver never buffers more than [maxBytes]
    bytes nor more than [maxOpenFrames] unfinished frames of a stream (so twice as many in
    all), and each of them still misses a fragment. *)
Theorem reassembler_bounded ms :
  0 <= maxBytes ->
  let pending := snd (feed ms []) in
  totalBytes pending <= maxBytes /\ (forall s, (streamCount s pending <= maxOpenFrames)%nat) /\
  (length pending <= 2 * maxOpenFrames)%nat /\
  Forall (fun e => Z.of_nat (length (List.filter have (e_parts e.2))) < e_frags e.2 <= Z.of_nat (length (e_parts e.2))) pending.
Proof.
  intros Hmax pending. assert (Hok : pending_ok pending).
  { apply feed_ok. constructor; simpl; [constructor|constructor|lia|]. intros s. unfold streamCount. simpl. lia. }
  split; [apply Hok|]. split; [apply Hok|]. split.
  - rewrite (two_streams _ (po_entries _ Hok)). pose proof (po_count _ Hok "camera"). pose proof (po_count _ Hok "screen"). lia.
  - eapply Forall_impl; [apply Hok|]. intros [k e] [Hp Hg Ho _]. simpl in *. lia.
Qed.
End reassembler_facts.

(** *** One frame *)

Lemma split_at_spec size fuel : forall data, (0 < size)%nat -> (length data <= fuel)%nat ->
  concat (split_at fuel size data) = data /\
  Forall (fun p => p <> [] /\ (length p <= size)%nat) (split_at fuel size data).
Proof.
  induction fuel as [|fuel IH]; intros [|b data] Hs Hf; simpl in *; try done; [lia|].
  destruct size as [|size]; [lia|]. destruct (IH (drop size data)) as [H1 H2]; [lia|rewrite length_drop; lia|].
  split.
  - simpl. by rewrite H1, take_drop.
  - constructor; [|done]. simpl. split; [done|]. rewrite length_take. lia.
Qed.

Lemma split_frame_spec data : data <> [] ->
  let parts := splitVideoFrame data VIDEO_MAX_FRAGMENT_BYTES in
  concat parts = data /\ Forall (fun p => p <> [] /\ Z.of_nat (length p) <= VIDEO_MAX_FRAGMENT_BYTES) parts.
Proof.
  intros Hd. unfold splitVideoFrame. destruct data as [|b data]; [done|]. remember (b :: data) as l eqn:Hl. cbv zeta.
  set (size := Z.to_nat (Z.max 1 _)).
  assert (Hsize : Z.of_nat size = VIDEO_MAX_FRAGMENT_BYTES) by (unfold size; by rewrite Z2Nat.id).
  assert (Hpos : (0 < size)%nat) by (unfold VIDEO_MAX_FRAGMENT_BYTES in Hsize; lia). clearbody size.
  destruct (split_at_spec size (length l) l Hpos (Nat.le_refl _)) as [H1 H2].
  split; [done|]. eapply Forall_impl; [exact H2|]. intros p [Hp Hlen]. split; [done|lia].
Qed.

Section one_frame.
Context (ttlMs : Z) (maxOpenFrames : nat) (maxBytes : Z).
Context (kind : stream) (isKey : bool) (ts : json) (codec : string) (width height : Z) (desc : option bytes).
Context (start : Z) (parts : list bytes).
Hypothesis Hopen : (0 < maxOpenFrames)%nat.
Hypothesis Hcount : 1 < Z.of_nat (length parts) <= VIDEO_MAX_FRAGS.
Hypothesis Hparts : Forall (fun p => p <> [] /\ Z.of_nat (length p) <= VIDEO_MAX_FRAGMENT_BYTES) parts.
Hypothesis Hsize : Z.of_nat (length (concat parts)) <= maxBytes.

Definition fragment_of (i : nat) : video_msg :=
  fragment_message kind isKey ts codec width height desc
    (mk_sent (start + Z.of_nat i) i (length parts) (nth i parts [])).

Hypothesis Hmeta : forall i, validMeta (fragment_of i) = true.

(** The entry of the frame when the fragments [done] have arrived. *)
Definition entry_with (got : list nat) (created : Z) : frame_entry :=
  mk_entry (imap (fun i p => if decide (i ∈ got) then Some p else None) parts) (length got) (Z.of_nat (length parts)) created
    isKey [Some ts; Some (JStr codec); Some (JNum width); Some (JNum height)] (stream_name kind)
    (if decide (0%nat ∈ got) then desc else None).

Definition the_key : string := stream_name kind +:+ ":" +:+ pretty start.

Lemma fragment_stream i : streamKey (field (fragment_of i) "stream") = stream_name kind.
Proof.
  change (field (fragment_of i) "stream") with (Some (JStr (stream_name kind))). unfold streamKey.
  destruct kind; cbn [stream_name]; [by rewrite bool_decide_eq_false_2|by rewrite bool_decide_eq_true_2].
Qed.

Lemma fragment_key i : frame_key (fragment_of i) (start + Z.of_nat i - Z.of_nat i) = the_key.
Proof.
  unfold frame_key, the_key. replace (start + Z.of_nat i - Z.of_nat i) with start by lia. by rewrite fragment_stream.
Qed.

Lemma desc_bounded : match desc with Some d => boundedDesc d = Some d | None => True end.
Proof.
  pose proof (Hmeta 0) as H. unfold validMeta in H. apply andb_prop in H as [_ H].
  change (v_desc (fragment_of 0)) with desc in H. destruct desc as [d|]; [|done]. unfold boundedDesc in *.
  by destruct (_ || _).
Qed.

Lemma put_part_desc i (old : option bytes) :
  match v_desc (fragment_of i) with
  | Some d => match boundedDesc d with Some d => Some d | None => old end
  | None => old
  end = if Nat.eqb i 0 then match desc with Some d => Some d | None => old end else old.
Proof.
  pose proof desc_bounded as H. change (v_desc (fragment_of i)) with (if Nat.eqb i 0 then desc else None).
  destruct (Nat.eqb i 0); [|done]. destruct desc as [d|]; [by rewrite H|done].
Qed.

Lemma imap_none (l : list bytes) : imap (fun i p => if decide (i ∈ []) then Some p else None) l = replicate (length l) None.
Proof.
  apply list_eq. intros i. rewrite list_lookup_imap. destruct (l !! i) as [p|] eqn:Hp; simpl.
  - symmetry. apply lookup_replicate_2. by eapply lookup_lt_Some.
  - symmetry. apply lookup_replicate_None. by apply lookup_ge_None.
Qed.

Lemma parts_insert_with got i : (i < length parts)%nat ->
  <[i := Some (nth i parts [])]> (imap (fun k p => if decide (k ∈ got) then Some p else None) parts)
    = imap (fun k p => if decide (k ∈ got ++ [i]) then Some p else None) parts.
Proof.
  intros Hi. apply list_eq. intros k. rewrite !list_lookup_imap. destruct (decide (i = k)) as [<-|Hne].
  - rewrite list_lookup_insert_eq by (rewrite length_imap; done).
    destruct (lookup_lt_is_Some_2 parts i Hi) as [p Hp]. rewrite Hp. simpl. rewrite decide_True by set_solver.
    by rewrite (nth_lookup_Some _ _ _ _ Hp).
  - rewrite list_lookup_insert_ne, list_lookup_imap by done. destruct (parts !! k) as [p|]; [|done]. simpl. f_equal.
    destruct (decide (k ∈ got)); [by rewrite decide_True by set_solver|by rewrite decide_False by set_solver].
Qed.

Lemma put_part_with got created i : (i < length parts)%nat -> i ∉ got ->
  put_part (fragment_of i) i (entry_with got created) = entry_with (got ++ [i]) created.
Proof.
  intros Hi Hn. unfold put_part. rewrite put_part_desc. unfold entry_with. simpl.
  rewrite list_lookup_imap. destruct (lookup_lt_is_Some_2 parts i Hi) as [p Hp]. rewrite Hp. simpl.
  rewrite decide_False by done. simpl. rewrite parts_insert_with by done. rewrite length_app. simpl. f_equal.
  - by destruct isKey.
  - destruct (Nat.eqb_spec i 0) as [->|Hne].
    + rewrite decide_False by done. rewrite decide_True by set_solver. by destruct desc.
    + destruct (decide (0%nat ∈ got)); [by rewrite decide_True by set_solver|by rewrite decide_False by set_solver].
Qed.

Lemma put_part_new i now : (i < length parts)%nat ->
  put_part (fragment_of i) i (new_entry (fragment_of i) (Z.of_nat (length parts)) now) = entry_with [i] now.
Proof.
  intros Hi. change [i] with ([] ++ [i]). rewrite <- (put_part_with [] now i Hi) by apply not_elem_of_nil.
  assert (Hp : e_parts (entry_with [] now) = e_parts (new_entry (fragment_of i) (Z.of_nat (length parts)) now)).
  { etransitivity; [apply imap_none|]. simpl. by rewrite Nat2Z.id. }
  unfold put_part. rewrite !put_part_desc, Hp. unfold new_entry, entry_with.
  cbn [e_parts e_got e_frags e_createdAt e_key e_meta e_stream e_desc length].
  assert (Hd : match v_desc (fragment_of i) with Some d => boundedDesc d | None => None end = if Nat.eqb i 0 then desc else None).
  { pose proof desc_bounded as H. change (v_desc (fragment_of i)) with (if Nat.eqb i 0 then desc else None).
    destruct (Nat.eqb i 0); [by destruct desc|done]. }
  rewrite fragment_stream, Hd. f_equal. destruct (Nat.eqb i 0); [by destruct desc|done].
Qed.

Lemma parts_bytes_le (f : nat -> bool) (l : list bytes) :
  foldr (fun p n => part_length p + n) 0 (imap (fun i p => if f i then Some p else None) l) <= Z.of_nat (length (concat l)).
Proof.
  revert f. induction l as [|p l IH]; intros f; [simpl; lia|]. rewrite imap_cons. cbn [foldr concat].
  rewrite length_app. specialize (IH (f ∘ S)). cbv beta in IH.
  match goal with |- _ + ?x <= _ => assert (x <= Z.of_nat (length (concat l))) by exact IH end.
  destruct (f 0%nat); simpl; lia.
Qed.

Lemma entry_bytes_le got created : entryBytes (entry_with got created) <= Z.of_nat (length (concat parts)).
Proof.
  pose proof (parts_bytes_le (fun i => bool_decide (i ∈ got)) parts) as H. unfold entryBytes, entry_with. cbn [e_parts].
  rewrite (imap_ext _ (fun i p => if bool_decide (i ∈ got) then Some p else None)); [done|].
  intros i p _. destruct (decide (i ∈ got)); [by rewrite bool_decide_eq_true_2|by rewrite bool_decide_eq_false_2].
Qed.

(** The checks of [push] pass for every fragment of the frame. *)
Lemma push_fragment i now pending :
  (i < length parts)%nat ->
  reassembler_push ttlMs maxOpenFrames maxBytes (fragment_of i) now pending =
  let pending := gc ttlMs now pending in
  let opening :=
    let '(fits, pending) := ensureBudget maxOpenFrames maxBytes (Z.of_nat (length (nth i parts []))) (stream_name kind) pending in
    if fits then let e := new_entry (fragment_of i) (Z.of_nat (length parts)) now in
      add_part maxBytes (fragment_of i) the_key i e (set pending the_key e)
    else (None, pending) in
  match get pending the_key with
  | Some e =>
      if Z.eqb (e_frags e) (Z.of_nat (length parts)) then add_part maxBytes (fragment_of i) the_key i e pending else opening
  | None => opening
  end.
Proof.
  intros Hi. unfold reassembler_push. cbv zeta.
  change (or_number (field (fragment_of i) "frags") 1) with (Some (Z.of_nat (length parts))).
  change (or_number (field (fragment_of i) "frag") 0) with (Some (Z.of_nat i)).
  change (to_number (field (fragment_of i) "seq")) with (Some (start + Z.of_nat i)).
  change (v_data (fragment_of i)) with (nth i parts []). rewrite fragment_stream, Hmeta.
  unfold toFragCount, toFragIndex.
  rewrite (proj2 (Z.ltb_ge (Z.of_nat (length parts)) 1)), (proj2 (Z.ltb_ge VIDEO_MAX_FRAGS (Z.of_nat (length parts)))) by lia.
  cbn [orb]. rewrite (proj2 (Z.ltb_ge (Z.of_nat i) 0)), (proj2 (Z.leb_gt (Z.of_nat (length parts)) (Z.of_nat i))) by lia.
  cbn [orb negb]. rewrite Nat2Z.id, fragment_key.
  assert (Hp : nth i parts [] <> [] /\ Z.of_nat (length (nth i parts [])) <= VIDEO_MAX_FRAGMENT_BYTES).
  { rewrite Forall_forall in Hparts. apply Hparts. apply list_elem_of_In, nth_In. lia. }
  destruct Hp as [Hne Hlen]. rewrite bool_decide_eq_false_2, (proj2 (Z.ltb_ge VIDEO_MAX_FRAGMENT_BYTES _)) by done.
  cbn [orb]. rewrite (proj2 (Z.eqb_neq (Z.of_nat (length parts)) 1)) by lia. done.
Qed.

Definition whole_frame : video_frame :=
  mk_frame (concat parts) isKey [Some ts; Some (JStr codec); Some (JNum width); Some (JNum height)]
    (Some (JStr (stream_name kind))) desc.

(** All fragments are there. *)
Lemma all_parts (got : list nat) : (forall i, (i < length parts)%nat -> i ∈ got) ->
  imap (fun i p => if decide (i ∈ got) then Some p else None) parts = map Some parts.
Proof.
  intros H. apply list_eq. intros i. rewrite list_lookup_imap, list_lookup_fmap.
  destruct (parts !! i) as [p|] eqn:Hp; [|done]. simpl. rewrite decide_True; [done|]. apply H. by eapply lookup_lt_Some.
Qed.

Lemma add_fragment (got : list nat) created i e :
  (i < length parts)%nat -> e_frags e = Z.of_nat (length parts) ->
  put_part (fragment_of i) i e = entry_with (got ++ [i]) created -> default None (e_parts e !! i) = None ->
  (length got + 1 <= length parts)%nat ->
  ((length got + 1 = length parts)%nat -> forall k, (k < length parts)%nat -> k ∈ got ++ [i]) ->
  entryBytes (put_part (fragment_of i) i e) = entryBytes e + Z.of_nat (length (nth i parts [])) ->
  add_part maxBytes (fragment_of i) the_key i e [(the_key, e)] =
  if Nat.ltb (length got + 1) (length parts) then (None, [(the_key, entry_with (got ++ [i]) created)])
  else (Some whole_frame, []).
Proof.
  intros Hi Hfrags Hput Hnone Hlen Hall Hbytes. unfold add_part. cbv zeta. rewrite Hnone, Hput in *.
  change (v_data (fragment_of i)) with (nth i parts []). cbn [totalBytes foldr snd part_length].
  pose proof (entry_bytes_le (got ++ [i]) created) as Hle.
  rewrite (proj2 (Z.ltb_ge maxBytes _)) by lia. rewrite andb_false_r. cbn [e_got e_frags entry_with]. rewrite length_app. cbn [length].
  cbn [set del]. rewrite bool_decide_eq_true_2 by done.
  destruct (Nat.ltb_spec (length got + 1) (length parts)) as [Hlt|Hge].
  - rewrite (proj2 (Z.ltb_lt _ _)) by lia. done.
  - rewrite (proj2 (Z.ltb_ge _ _)) by lia. cbn [e_parts entry_with]. rewrite all_parts by (apply Hall; lia).
    rewrite (proj2 (forallb_forall _ _)).
    + unfold whole_frame. do 2 f_equal. f_equal.
      * f_equal. rewrite <- list_fmap_compose. apply list_fmap_id.
      * cbn [e_desc entry_with]. rewrite decide_True; [done|]. apply Hall; lia.
    + intros p Hp. apply in_map_iff in Hp as (b & <- & _). done.
Qed.

Lemma in_order (order : list nat) i : order ≡ₚ List.seq 0 (length parts) -> i ∈ order <-> (i < length parts)%nat.
Proof. intros H. rewrite H. rewrite elem_of_seq. lia. Qed.

Lemma feed_rest created rest : forall got times,
  got ++ rest ≡ₚ List.seq 0 (length parts) -> rest <> [] -> length times = length rest ->
  Forall (fun t => t <= created + ttlMs) times ->
  feed ttlMs maxOpenFrames maxBytes (zip (map fragment_of rest) times) [(the_key, entry_with got created)] = ([whole_frame], []).
Proof.
  induction rest as [|i rest IH]; intros got times Hperm Hne Hlen Ht; [done|].
  destruct times as [|t times]; [done|]. apply Forall_cons in Ht as [Ht Hts]. injection Hlen as Hlen.
  assert (Hi : (i < length parts)%nat) by (apply (in_order _ i Hperm); set_solver).
  assert (Hnd : NoDup (got ++ i :: rest)) by (rewrite Hperm; apply NoDup_seq).
  assert (Hn : i ∉ got) by (apply NoDup_app in Hnd as (_ & Hx & _); intros Hin; apply (Hx i Hin); set_solver).
  assert (Hcard : (length got + S (length rest) = length parts)%nat).
  { apply Permutation_length in Hperm. rewrite length_app, length_seq in Hperm. done. }
  cbn [map zip zip_with feed]. rewrite push_fragment by done. cbv zeta.
  assert (Hgc : gc ttlMs t [(the_key, entry_with got created)] = [(the_key, entry_with got created)]).
  { unfold gc. cbn [List.filter snd e_createdAt entry_with]. by rewrite (proj2 (Z.ltb_ge ttlMs _)) by lia. }
  rewrite Hgc. cbn [get]. rewrite bool_decide_eq_true_2 by done. cbn [e_frags entry_with]. rewrite Z.eqb_refl.
  assert (Hpart : default None (e_parts (entry_with got created) !! i) = None).
  { cbn [e_parts entry_with]. rewrite list_lookup_imap. destruct (parts !! i); [|done]. simpl. by rewrite decide_False. }
  rewrite (add_fragment got created i); [|done|done|by apply put_part_with|done|lia| |].
  - destruct rest as [|j rest].
    + rewrite (proj2 (Nat.ltb_ge _ _)) by (simpl in Hcard; lia). by destruct times.
    + rewrite (proj2 (Nat.ltb_lt _ _)) by (simpl in Hcard; lia).
      specialize (IH (got ++ [i]) times). rewrite IH; [done| |done|done|done]. by rewrite <- app_assoc.
  - intros Hfull k Hk. assert (rest = []) as -> by (apply nil_length_inv; lia). by apply (in_order _ k Hperm).
  - rewrite (put_part_bytes _ Hopen); [|unfold entry_with; cbn [e_parts]; by rewrite length_imap]. rewrite Hpart. simpl. lia.
Qed.

Lemma feed_frame order t0 times :
  order ≡ₚ List.seq 0 (length parts) -> length times = length order ->
  0 <= ttlMs -> head times = Some t0 -> Forall (fun t => t <= t0 + ttlMs) times ->
  feed ttlMs maxOpenFrames maxBytes (zip (map fragment_of order) times) [] = ([whole_frame], []).
Proof.
  intros Hperm Hlen Httl Hhead Hts. pose proof (Permutation_length Hperm) as Hl. rewrite length_seq in Hl.
  destruct order as [|i rest]; [simpl in Hl; lia|]. destruct times as [|t times]; [done|].
  injection Hhead as ->. injection Hlen as Hlen. apply Forall_cons in Hts as [_ Hts].
  assert (Hi : (i < length parts)%nat) by (apply (in_order _ i Hperm); apply list_elem_of_here).
  cbn [map zip zip_with feed]. rewrite push_fragment by done. cbv zeta. cbn [gc List.filter get].
  unfold ensureBudget. cbn [length drop_while totalBytes foldr].
  assert (Hone : Z.of_nat (length (nth i parts [])) <= maxBytes).
  { pose proof (entry_bytes_le [i] t0) as H. rewrite <- put_part_new in H by done. 
    rewrite (put_part_bytes _ Hopen) in H by (simpl; rewrite length_replicate; lia). rewrite new_entry_bytes in H. simpl in H.
    rewrite lookup_replicate_2 in H by lia. simpl in H. lia. }
  rewrite Z.add_0_l, (proj2 (Z.leb_le _ _)) by done. cbn [set].
  rewrite (add_fragment [] t0 i); [|done|done|by apply put_part_new| | | |].
  - cbn [length app]. rewrite (proj2 (Nat.ltb_lt _ _)) by lia. cbn [option_list app].
    rewrite (feed_rest t0 rest [i] times); [done|done| |done|done]. intros ->. simpl in Hl. lia.
  - simpl. rewrite lookup_replicate_2 by lia. done.
  - simpl. lia.
  - simpl. intros H. lia.
  - rewrite (put_part_bytes _ Hopen) by (simpl; rewrite length_replicate; lia). simpl. rewrite lookup_replicate_2 by lia. simpl. lia.
Qed.
End one_frame.

(** The fragments of a frame whose loop runs alone. *)
Lemma loop_alone parts n : forall s k,
  (k + n = length parts)%nat ->
  fst (run_sender (replicate n (Resume 0)) (mk_direction s [mk_job parts k]))
    = map (fun i => mk_sent (s - Z.of_nat k + Z.of_nat i) i (length parts) (nth i parts [])) (List.seq k n).
Proof.
  induction n as [|n IH]; intros s k Hk; [done|]. cbn [replicate run_sender sender_step d_jobs lookup list_lookup j_parts j_next].
  destruct (lookup_lt_is_Some_2 parts k) as [p Hp]; [lia|]. rewrite Hp. cbn [insert list_insert d_seq].
  specialize (IH (s + 1) (k + 1)%nat ltac:(lia)). destruct (run_sender (replicate n (Resume 0)) _) as [more d].
  simpl in *. rewrite IH. rewrite (nth_lookup_Some _ _ _ _ Hp). replace (k + 1)%nat with (S k) by lia. f_equal.
  - f_equal. lia.
  - apply map_ext. intros i. f_equal. lia.
Qed.

Definition sent_alone (data : bytes) (start : Z) : list sent_fragment :=
  fst (run_sender (Encoded data :: replicate (length (splitVideoFrame data VIDEO_MAX_FRAGMENT_BYTES)) (Resume 0))
    (mk_direction start [])).

Lemma sent_alone_eq data start :
  let parts := splitVideoFrame data VIDEO_MAX_FRAGMENT_BYTES in
  sent_alone data start =
  map (fun i => mk_sent (start + Z.of_nat i) i (length parts) (nth i parts [])) (List.seq 0 (length parts)).
Proof.
  intros parts. unfold sent_alone. cbn [run_sender sender_step]. fold parts. cbn [d_jobs d_seq app].
  pose proof (loop_alone parts (length parts) start 0 eq_refl) as H.
  destruct (run_sender _ (mk_direction start [mk_job parts 0])) as [sent d]. simpl in *. rewrite H.
  apply map_ext. intros i. f_equal. lia.
Qed.

(** C33: a video frame of at most 64 fragments that is encoded on its own arrives whole: its
    fragments, in any order and spread over at most the lifetime of an unfinished frame, make
    the receiver deliver exactly one frame, with the bytes, key flag, time stamp, codec, size
    and decoder description that were sent, and leave nothing behind. *)
Theorem frame_reassembled ttlMs maxOpenFrames maxBytes kind isKey ts codec width height desc data start msgs times t0 :
  let parts := splitVideoFrame data VIDEO_MAX_FRAGMENT_BYTES in
  let message := fragment_message kind isKey ts codec width height desc in
  0 <= ttlMs -> (0 < maxOpenFrames)%nat -> Z.of_nat (length data) <= maxBytes ->
  data <> [] -> Z.of_nat (length parts) <= VIDEO_MAX_FRAGS ->
  isAllowedVideoCodec (Some (JStr codec)) = true -> 1 <= width <= VIDEO_MAX_WIDTH -> 1 <= height <= VIDEO_MAX_HEIGHT ->
  (forall d, desc = Some d -> d <> [] /\ Z.of_nat (length d) <= VIDEO_MAX_DESC_BYTES) ->
  msgs ≡ₚ map message (sent_alone data start) -> length times = length msgs ->
  head times = Some t0 -> Forall (fun t => t <= t0 + ttlMs) times ->
  feed ttlMs maxOpenFrames maxBytes (zip msgs times) [] =
  ([mk_frame data isKey [Some ts; Some (JStr codec); Some (JNum width); Some (JNum height)]
      (Some (JStr (stream_name kind))) desc], []).
Proof.
  intros parts message Httl Hopen Hmax Hdata Hfrags Hcodec Hw Hh Hdesc Hperm Hlen Hhead Hts.
  destruct (split_frame_spec data Hdata) as [Hcat Hall]. fold parts in Hcat, Hall.
  rewrite sent_alone_eq in Hperm. fold parts in Hperm. rewrite map_map in Hperm.
  assert (Hmeta : forall i, validMeta (message (mk_sent (start + Z.of_nat i) i (length parts) (nth i parts []))) = true).
  { intros i. unfold validMeta, message.
    change (field (fragment_message kind isKey ts codec width height desc
      (mk_sent (start + Z.of_nat i) i (length parts) (nth i parts []))) "codec") with (Some (JStr codec)).
    rewrite Hcodec. cbn [nullish orb andb]. apply andb_true_intro. split.
    - unfold isPlausibleVideoSize. simpl. repeat case_match; bool_cases; lia || done.
    - simpl. destruct (Nat.eqb i 0); [|done]. destruct desc as [d|]; [|done]. destruct (Hdesc d eq_refl) as [Hd Hl].
      unfold boundedDesc. by rewrite bool_decide_eq_false_2, (proj2 (Z.ltb_ge _ _)). }
  apply Permutation_map_inv in Hperm as (order & -> & Hperm). symmetry in Hperm. rewrite length_map in Hlen.
  destruct (decide (Z.of_nat (length parts) = 1)) as [Hone|Hmany].
  - destruct parts as [|p [|q l]] eqn:Hp; [done| |cbn [length] in Hone; lia]. apply Permutation_singleton_r in Hperm as ->.
    destruct times as [|t [|t' times]]; [done| |done]. simpl in Hcat. rewrite app_nil_r in Hcat. subst p.
    apply Forall_cons in Hall as [[_ Hlong] _]. cbn [map zip zip_with feed]. unfold reassembler_push.
    specialize (Hmeta 0%nat). cbn [length nth] in *. set (m := message _) in *.
    change (or_number (field m "frags") 1) with (Some 1). change (or_number (field m "frag") 0) with (Some 0).
    change (toFragCount (Some 1)) with (Some 1). change (toFragIndex (Some 0) 1) with (Some 0%nat).
    cbv beta iota zeta. rewrite Hmeta. cbn [negb].
    change (v_data m) with data. rewrite bool_decide_eq_false_2, (proj2 (Z.ltb_ge _ _)) by done. cbn [orb].
    rewrite Z.eqb_refl. cbn [gc List.filter option_list app]. done.
  - pose proof (feed_frame ttlMs maxOpenFrames maxBytes kind isKey ts codec width height desc start parts) as H.
    unfold whole_frame in H. rewrite Hcat in H. apply (H Hopen) with t0; auto.
    assert (length parts <> 0%nat) by (intros Hz; apply nil_length_inv in Hz; rewrite Hz in Hcat; by subst data). lia.
Qed.

(** When two frames are encoded at the same time, the loops that number and send their
    fragments interleave; the receiver, which tells frames apart by the number of their first
    fragment, then delivers a frame that is made of the first part of one and the second part
    of the other, and neither of the frames that were sent. *)
Theorem interleaved_frames_mix :
  let a := replicate (Z.to_nat (VIDEO_MAX_FRAGMENT_BYTES + 1)) 65 in
  let b := replicate (Z.to_nat (VIDEO_MAX_FRAGMENT_BYTES + 1)) 66 in
  let sent := fst (run_sender [Encoded a; Encoded b; Resume 0; Resume 1; Resume 0; Resume 1] new_direction) in
  let msgs := map (fragment_message Camera false (JNum 0) "vp8" 640 360 None) sent in
  map fr_bytes (fst (feed VIDEO_REASSEMBLY_TTL_MS VIDEO_MAX_OPEN_FRAMES VIDEO_MAX_REASSEMBLY_BYTES (zip msgs [0; 1; 2; 3]) []))
    = [replicate (Z.to_nat VIDEO_MAX_FRAGMENT_BYTES) 66 ++ [65]].
Proof. apply (bool_decide_unpack _). vm_compute. exact I. Qed.

(** ** Witnesses *)



Lemma queued_packet_played_witness :
  Packet 3 "c"%string ∈ fst (jitter_run 16 60 (map Pull [20; 90; 160; 230; 300; 370])
    (snd (jitter_run 16 60 [Push (Some 1) "a"%string; Push (Some 3) "c"%string; Pull 10] createJitterBuffer))).
Proof.
  apply (queued_packet_played 16 60 [Push (Some 1) "a"%string; Push (Some 3) "c"%string; Pull 10] 10 _ 3 "c"%string 2).
  - lia.
  - repeat constructor. simpl. lia.
  - vm_compute. apply list_elem_of_here.
  - reflexivity.
  - simpl. lia.
  - simpl. lia.
Defined.

Lemma ring_refines_queue_witness :
  let r := run_ops (ring_step 0 2 3) [Pushed [1; 2]; Pulled 1; Pushed [3; 4; 5; 6]; Pulled 4] (createPlaybackRing 0 4) in
  fst r = [([1], false); ([4; 5; 6; 0], true)].
Proof.
  intros r. etransitivity.
  - exact (proj1 (ring_refines_queue 0 2 3 4 _ ltac:(lia))).
  - reflexivity.
Defined.

Lemma reassembler_bounded_witness :
  let m := mk_video_msg [("frags", JNum 2); ("seq", JNum 7)] [1; 2; 3] None in
  totalBytes (snd (feed 1000 1 4 [(m, 0); (m, 5)] [])) <= 4.
Proof. exact (proj1 (reassembler_bounded 1000 1 4 ltac:(lia) _ ltac:(lia))). Defined.

Lemma frame_reassembled_witness :
  let message := fragment_message Screen true (JNum 40) "vp8" 640 360 (Some [9]) in
  feed 1000 8 4096 (zip (map message (sent_alone [1; 2; 3] 5)) [77]) [] =
  ([mk_frame [1; 2; 3] true [Some (JNum 40); Some (JStr "vp8"); Some (JNum 640); Some (JNum 360)]
      (Some (JStr "screen")) (Some [9])], []).
Proof.
  apply (frame_reassembled 1000 8 4096 Screen true (JNum 40) "vp8" 640 360 (Some [9]) [1; 2; 3] 5 _ [77] 77).
  - lia.
  - lia.
  - simpl. lia.
  - discriminate.
  - vm_compute. congruence.
  - reflexivity.
  - unfold VIDEO_MAX_WIDTH. lia.
  - unfold VIDEO_MAX_HEIGHT. lia.
  - intros d [= <-]. split; [discriminate|]. vm_compute. congruence.
  - reflexivity.
  - reflexivity.
  - reflexivity.
  - repeat constructor. lia.
Defined.
