(* ===== verification/Sync.v ===== *)
(** * Cloud synchronisation ([src/renderer/cloudAccount/syncLogic.js], the apply, build and
      pull steps of [syncEngine.js], and the message rows of [webBridge/idbStore.js])

    Local changes wait in an outbox, one per logical key; remote operations are applied
    last-writer-wins on time stamps recorded in the sync meta data.  A missing time stamp
    is [0].  [clock] stands for [Date.now()]. *)

From stdpp Require Import pretty.
From S2P Require Import Prelude Json.

(** ** Changes and operations *)

Inductive change_body :=
| StoreEntryChange (key id : string) (deleted : bool) (value : option json)
| StoreChange (key : string)
| ChatDelChange (peerId : string)
| MsgChange (peerId messageId : string) (message : option json)
| MsgDelChange (peerId messageId : string).

Record change := mk_change { change_of : change_body; change_ts : Z }.

#[export] Instance change_body_eq_dec : EqDecision change_body.
Proof. solve_decision. Defined.

#[export] Instance change_eq_dec : EqDecision change.
Proof. solve_decision. Defined.

Inductive op_body :=
| StoreEntryOp (key id : string) (deleted : bool) (value : option json)
| StoreOp (key : string) (value : option json)
| ChatDelOp (peerId : string)
| MsgOp (peerId : string) (message : fields)
| MsgDelOp (peerId messageId : string).

(** [origin] is [""] when the operation has none. *)
Record op := mk_op { op_of : op_body; op_ts : Z; op_origin : string }.

Definition DEVICE_LOCAL_SETTINGS_KEYS : list string :=
  ["peerPort"; "peerPorts"; "apiPort"; "autoUpdateEnabled"; "autoDownloadUpdates";
   "minimizeToTray"; "launchAtLogin"; "debugMode"; "windowsNotifications"; "uiResize";
   "uiCollapse"; "onboardingUsernameDone"].

Definition ARRAY_STORE_KEYS : list string := ["contacts"; "groups"].
Definition MAP_STORE_KEYS : list string := ["e2eeSessions"; "chatReadReceipts"; "chatLastViewedPeerTs"].

Definition SYNCED_STORE_KEYS : list string :=
  ["contacts"; "settings"; "e2eeSessions"; "groups"; "chatReadReceipts"; "chatLastViewedPeerTs"].

Definition isDeviceLocalSetting (field : string) : bool := includes DEVICE_LOCAL_SETTINGS_KEYS field.

(** ** Message preparation *)

Definition FILE_DATA_STRIP_BYTES : Z := 1572864.

Fixpoint utf8ByteLength (s : string) : Z :=
  match s with
  | EmptyString => 0
  | String c rest => (if Nat.ltb (Ascii.nat_of_ascii c) 128 then 1 else 2) + utf8ByteLength rest
  end.

Definition prepareMessageForSync (message : fields) : fields :=
  match get message "fileData" with
  | Some (JStr data) =>
      if Z.ltb FILE_DATA_STRIP_BYTES (utf8ByteLength data)
      then set (del message "fileData") "syncStripped" (JBool true) else message
  | _ => message
  end.

Definition stripMessageFileData (message : fields) : fields :=
  if has message "fileData" then set (del message "fileData") "syncStripped" (JBool true) else message.

(** ** Logical keys *)

Definition store_entry_key (key id : string) : string := "store:" +:+ key +:+ ":" +:+ id.
Definition msg_key (peerId messageId : string) : string := "msg:" +:+ peerId +:+ ":" +:+ messageId.

Definition logicalKeyOf (c : change) : string :=
  match change_of c with
  | StoreEntryChange key id _ _ => store_entry_key key id
  | StoreChange key => "store:" +:+ key
  | ChatDelChange peerId => "chat:" +:+ peerId
  | MsgChange peerId messageId _ | MsgDelChange peerId messageId => msg_key peerId messageId
  end.

Definition logicalKeyOfOp (o : op) : string :=
  match op_of o with
  | StoreEntryOp key id _ _ =>
      if bool_decide (key = "") || bool_decide (id = "") then "" else store_entry_key key id
  | StoreOp key _ => if bool_decide (key = "") then "" else "store:" +:+ key
  | ChatDelOp peerId => "chat:" +:+ peerId
  | MsgDelOp peerId messageId => msg_key peerId messageId
  | MsgOp peerId message =>
      msg_key peerId (match get message "messageId" with Some id => to_string id | None => "undefined" end)
  end.

(** ** Entries of a store *)

Definition arrayEntryId (key : string) (item : json) : string :=
  let id := prop (Some item) "id" in
  if truthy id then string_or_empty id
  else if bool_decide (key = "groups") then string_or_empty (prop (Some item) "groupId")
  else "".

Definition set_all (entries : list (string * json)) : fields :=
  fold_left (fun map kv => set map kv.1 kv.2) entries [].

Definition entriesOfStore (key : string) (value : option json) : fields :=
  if bool_decide (key = "settings") then
    set_all (base.filter (fun kv => isDeviceLocalSetting kv.1 = false) (default [] (as_object value)))
  else if includes ARRAY_STORE_KEYS key then
    set_all (base.filter (fun kv => kv.1 <> "")
      (map (fun item => (arrayEntryId key item, item)) (default [] (as_array value))))
  else set_all (base.filter (fun kv => kv.1 <> "") (default [] (as_object value))).

(** [valueEqual]: the JSON texts agree. *)
Definition valueEqual (a b : json) : bool := bool_decide (a = b).

(** The distinct names of two objects, in order. *)
Definition union_names (current prev : fields) : list string :=
  map fst current ++ base.filter (fun id => has current id = false) (map fst prev).

Definition diff_entry (key : string) (current prev : fields) (id : string) : list change_body :=
  match get current id, get prev id with
  | Some c, Some p => if valueEqual c p then [] else [StoreEntryChange key id false (Some c)]
  | Some c, None => [StoreEntryChange key id false (Some c)]
  | None, Some _ => [StoreEntryChange key id true None]
  | None, None => []
  end.

Definition diffStoreEntries (key : string) (currentValue : option json) (snapshot : fields)
    : list change_body :=
  let current := entriesOfStore key currentValue in
  flat_map (diff_entry key current snapshot) (union_names current snapshot).

Definition isPlaceholderDisplayName (name : string) : bool :=
  includes [""; "Anonymous"; "BlueTalk user"] (trim name).

(** [{ ...value }]. *)
Definition spread (value : json) : fields :=
  match value with
  | JObj f => f
  | JArr items => imap (fun i v => (pretty (Z.of_nat i), v)) items
  | _ => []
  end.

Definition is_object (v : option json) : bool :=
  match v with Some (JObj _) | Some (JArr _) => true | _ => false end.

Definition has_name (incoming : json) (value : option json) : bool :=
  let name := match value with Some (JStr s) => trim s | _ => "" end in
  negb (bool_decide (name = "")) && negb (isPlaceholderDisplayName name)
  && negb (bool_decide (name = string_or_empty (prop (Some incoming) "id"))).

Definition keep_field (existing : json) (merged : fields) (field : string) : fields :=
  let next := get merged field in
  if (match next with None | Some JNull => true | Some (JStr s) => bool_decide (s = "") | _ => false end)
     && truthy (prop (Some existing) field)
  then match prop (Some existing) field with Some v => set merged field v | None => merged end
  else merged.

Definition mergeContactIdentity (existing incoming : json) : json :=
  if negb (is_object (Some existing)) then incoming
  else
    let merged := spread incoming in
    let merged :=
      if negb (has_name incoming (get merged "name")) && has_name incoming (prop (Some existing) "name")
      then match prop (Some existing) "name" with Some n => set merged "name" n | None => merged end
      else merged in
    JObj (keep_field existing (keep_field existing merged "profilePicture") "bio").

(** [list.findIndex(...)]; [None] is [-1]. *)
Fixpoint find_index {A} (f : A -> bool) (l : list A) : option nat :=
  match l with
  | [] => None
  | x :: rest => if f x then Some 0%nat else option_map S (find_index f rest)
  end.

Definition applyStoreEntryToValue (key : string) (currentValue : option json) (entryId : string)
    (deleted : bool) (value : option json) : option json :=
  if bool_decide (entryId = "") then currentValue
  else if bool_decide (key = "settings") && isDeviceLocalSetting entryId then currentValue
  else if includes ARRAY_STORE_KEYS key then
    let items := default [] (as_array currentValue) in
    let idx := find_index (fun item => bool_decide (arrayEntryId key item = entryId)) items in
    Some (JArr
      (if deleted then
         match idx with None => items | Some i => take i items ++ drop (S i) items end
       else
         match value with
         | Some nextItem =>
             if negb (is_object value) then items
             else
               match idx with
               | Some i =>
                   let nextItem :=
                     if bool_decide (key = "contacts")
                     then mergeContactIdentity (nth i items JNull) nextItem else nextItem in
                   <[i := nextItem]> items
               | None => items ++ [nextItem]
               end
         | None => items
         end))
  else
    let obj := default [] (as_object currentValue) in
    Some (JObj
      (if deleted then del obj entryId
       else match value with Some v => set obj entryId v | None => del obj entryId end)).

Definition snapshotAfterEntry (snapshot : fields) (entryId : string) (deleted : bool)
    (value : option json) : fields :=
  if bool_decide (entryId = "") then snapshot
  else if deleted then del snapshot entryId
  else match value with Some v => set snapshot entryId v | None => del snapshot entryId end.

(** ** The outbox *)

Abbreviation outbox := (list change).

Definition stamp (clock : Z) (c : change) : change :=
  mk_change (change_of c) (if Z.ltb 0 (change_ts c) then change_ts c else clock).

(** Replace the change with the same logical key, or append. *)
Definition replace_or_push (items : outbox) (c : change) : outbox :=
  match find_index (fun item => bool_decide (logicalKeyOf item = logicalKeyOf c)) items with
  | Some i => <[i := c]> items
  | None => items ++ [c]
  end.

(** A deleted chat makes pending changes to its messages pointless. *)
Definition of_deleted_chat (peerId : string) (item : change) : bool :=
  match change_of item with
  | ChatDelChange p | MsgChange p _ _ | MsgDelChange p _ => bool_decide (p = peerId)
  | _ => false
  end.

Definition of_deleted_msg (peerId messageId : string) (item : change) : bool :=
  match change_of item with
  | MsgChange p m _ => bool_decide (p = peerId) && bool_decide (m = messageId)
  | _ => false
  end.

Definition mergeOutbox (clock : Z) (items : outbox) (c : change) : outbox :=
  let stamped := stamp clock c in
  match change_of c with
  | ChatDelChange peerId =>
      base.filter (fun item => of_deleted_chat peerId item = false) items ++ [stamped]
  | MsgDelChange peerId messageId =>
      replace_or_push (base.filter (fun item => of_deleted_msg peerId messageId item = false) items) stamped
  | _ => replace_or_push items stamped
  end.

Definition dropOutboxIfRemoteNewer (items : outbox) (logicalKey : string) (remoteTs : Z) : outbox :=
  base.filter (fun item => logicalKeyOf item <> logicalKey \/ remoteTs < change_ts item) items.

Definition removeSentFromOutbox (items sent : outbox) : outbox :=
  let marks := map (fun item => (logicalKeyOf item, change_ts item)) sent in
  base.filter (fun item => (logicalKeyOf item, change_ts item) ∉ marks) items.

Definition pendingTsFor (items : outbox) (logicalKey : string) : Z :=
  fold_left (fun acc item => if bool_decide (logicalKeyOf item = logicalKey)
                             then Z.max acc (change_ts item) else acc) items 0.

(** ** Meta data *)

Record sync_meta := mk_sync_meta {
  storeTs : gmap string Z;
  chatDel : gmap string Z;
  storeSnapshots : gmap string fields;
  storeEntryTs : gmap string Z
}.

#[export] Instance sync_meta_rebuild : Rebuild sync_meta := fun m =>
  mk_sync_meta (storeTs m) (chatDel m) (storeSnapshots m) (storeEntryTs m).

Definition emptySyncMeta : sync_meta := mk_sync_meta ∅ ∅ ∅ ∅.

Definition number_map (v : option json) : gmap string Z :=
  match v with
  | Some j => list_to_map (map (fun kv => (kv.1, number_or_zero (Some kv.2))) (spread j))
  | None => ∅
  end.

Definition normalizeSyncMeta (value : option json) : sync_meta :=
  mk_sync_meta (number_map (prop value "storeTs")) (number_map (prop value "chatDel"))
    (match prop value "storeSnapshots" with
     | Some j => list_to_map (map (fun kv => (kv.1, spread kv.2)) (spread j))
     | None => ∅
     end)
    (number_map (prop value "storeEntryTs")).

Definition ts_of (m : gmap string Z) (k : string) : Z := default 0 (m !! k).

Definition entryTsKey (storeKey id : string) : string := storeKey +:+ ":" +:+ id.

Definition shouldApplyStoreOp (incomingTs appliedTs : Z) : bool := Z.leb appliedTs incomingTs.

Definition shouldApplyStoreEntry (incomingTs appliedTs pendingLocalTs : Z) : bool :=
  if Z.ltb incomingTs pendingLocalTs then false else Z.leb appliedTs incomingTs.

(** [a || b] on numbers. *)
Definition or_number (a b : Z) : Z := if Z.eqb a 0 then b else a.

Definition shouldApplyMessage (message : fields) (chatDelTs : Z) : bool :=
  if Z.leb chatDelTs 0 then true
  else
    let ts := or_number (number_or_zero (get message "timestamp")) (number_or_zero (get message "ts")) in
    Z.ltb chatDelTs ts.

Definition shouldSkipOwnOrigin (o : op) (origin : string) : bool :=
  negb (bool_decide (origin = "")) && negb (bool_decide (op_origin o = ""))
  && bool_decide (op_origin o = origin).

Definition appliedMetaAfterOp (meta : sync_meta) (o : op) : sync_meta :=
  match op_of o with
  | StoreOp key value =>
      if bool_decide (key = "") then meta
      else meta <| storeTs := <[key := op_ts o]> (storeTs meta) |>
                <| storeSnapshots := <[key := entriesOfStore key value]> (storeSnapshots meta) |>
  | StoreEntryOp key id deleted value =>
      if bool_decide (key = "") || bool_decide (id = "") then meta
      else meta <| storeEntryTs := <[entryTsKey key id := op_ts o]> (storeEntryTs meta) |>
                <| storeSnapshots := <[key := snapshotAfterEntry (default [] (storeSnapshots meta !! key))
                                                id deleted value]> (storeSnapshots meta) |>
  | ChatDelOp peerId =>
      if bool_decide (peerId = "") then meta
      else if Z.leb (ts_of (chatDel meta) peerId) (op_ts o)
      then meta <| chatDel := <[peerId := op_ts o]> (chatDel meta) |> else meta
  | MsgOp peerId message =>
      if bool_decide (peerId = "") then meta
      else if Z.ltb (ts_of (chatDel meta) peerId)
                    (or_number (number_or_zero (get message "timestamp")) (op_ts o))
      then meta <| chatDel := delete peerId (chatDel meta) |> else meta
  | MsgDelOp _ _ => meta
  end.

Definition storeEntryAppliedTs (meta : sync_meta) (key id : string) : Z :=
  ts_of (storeEntryTs meta) (entryTsKey key id).

(** ** Message rows (the IndexedDB store) *)

(** A row; [row_message_id] is [""] for an anonymous message.  The order is that of the
    auto-incremented key. *)
Record row := mk_row { row_peer : string; row_message_id : string; row_value : fields }.

#[export] Instance row_eq_dec : EqDecision row.
Proof. solve_decision. Defined.

Definition same_message (peerId messageId : string) (r : row) : bool :=
  bool_decide (row_peer r = peerId) && bool_decide (row_message_id r = messageId).

(** The rows after [append] and its [appended] flag. *)
Definition append (rows : list row) (peerId : string) (message : fields) : list row * bool :=
  let messageId := string_or_empty (get message "messageId") in
  if negb (bool_decide (messageId = "")) && existsb (same_message peerId messageId) rows
  then (rows, false)
  else (rows ++ [mk_row peerId messageId message], true).

Definition patch_value (value patch : fields) : fields :=
  fold_left (fun next kv => if bool_decide (kv.1 = "messageId") then next else set next kv.1 kv.2) patch value.

Fixpoint patch (rows : list row) (peerId messageId : string) (p : fields) : list row :=
  match rows with
  | [] => []
  | r :: rest =>
      if same_message peerId messageId r
      then mk_row (row_peer r) (row_message_id r) (patch_value (row_value r) p) :: rest
      else r :: patch rest peerId messageId p
  end.

Definition deleteMessage (rows : list row) (peerId messageId : string) : list row :=
  base.filter (fun r => same_message peerId messageId r = false) rows.

Definition deleteChat (rows : list row) (peerId : string) : list row :=
  base.filter (fun r => row_peer r <> peerId) rows.

(** ** A device *)

Record device := mk_device {
  dev_store : gmap string json;
  dev_rows : list row;
  dev_meta : sync_meta;
  dev_outbox : outbox;
  dev_origin : string;
  dev_seq : Z
}.

#[export] Instance device_rebuild : Rebuild device := fun d =>
  mk_device (dev_store d) (dev_rows d) (dev_meta d) (dev_outbox d) (dev_origin d) (dev_seq d).

Definition store_default (key : string) : json :=
  if includes ARRAY_STORE_KEYS key then JArr [] else JObj [].

Definition store_get (d : device) (key : string) : json := default (store_default key) (dev_store d !! key).

Definition store_set (d : device) (key : string) (value : option json) : device :=
  match value with
  | Some v => d <| dev_store := <[key := v]> (dev_store d) |>
  | None => d
  end.

(** One entry of a [store] or [store-entry] operation, and whether it was applied. *)
Definition apply_entry (d : device) (key id : string) (deleted : bool) (value : option json)
    (ts : Z) (origin : string) : device * bool :=
  if shouldApplyStoreEntry ts (storeEntryAppliedTs (dev_meta d) key id)
       (pendingTsFor (dev_outbox d) (store_entry_key key id))
  then
    let merged := applyStoreEntryToValue key (Some (store_get d key)) id deleted value in
    (store_set d key merged
       <| dev_meta := appliedMetaAfterOp (dev_meta d) (mk_op (StoreEntryOp key id deleted value) ts origin) |>,
     true)
  else (d, false).

(** The loop of a [store] operation over its entries. *)
Fixpoint apply_entries (d : device) (key : string) (entries : fields) (ts : Z) (origin : string)
    : device * bool :=
  match entries with
  | [] => (d, false)
  | (id, value) :: rest =>
      let '(d1, applied) := apply_entry d key id false (Some value) ts origin in
      let '(d2, more) := apply_entries d1 key rest ts origin in
      (d2, applied || more)
  end.

(** [applyOp]: the device it leaves (its store, rows and meta data) and [applied]. *)
Definition applyOp (d : device) (o : op) : device * bool :=
  match op_of o with
  | StoreEntryOp key id deleted value =>
      if negb (includes SYNCED_STORE_KEYS key) || bool_decide (id = "") then (d, false)
      else apply_entry d key id deleted value (op_ts o) (op_origin o)
  | StoreOp key value =>
      if negb (includes SYNCED_STORE_KEYS key) then (d, false)
      else if negb (shouldApplyStoreOp (op_ts o) (ts_of (storeTs (dev_meta d)) key)) then (d, false)
      else
        let '(d1, appliedAny) := apply_entries d key (entriesOfStore key value) (op_ts o) (op_origin o) in
        if appliedAny then (d1 <| dev_meta := appliedMetaAfterOp (dev_meta d1) o |>, true) else (d1, false)
  | ChatDelOp peerId =>
      if bool_decide (peerId = "") then (d, false)
      else (d <| dev_rows := deleteChat (dev_rows d) peerId |>
              <| dev_meta := appliedMetaAfterOp (dev_meta d) o |>, true)
  | MsgDelOp peerId messageId =>
      if bool_decide (peerId = "") || bool_decide (messageId = "") then (d, false)
      else if negb (shouldApplyMessage [("timestamp", JNum (op_ts o))] (ts_of (chatDel (dev_meta d)) peerId))
      then (d, false)
      else (d <| dev_rows := deleteMessage (dev_rows d) peerId messageId |>, true)
  | MsgOp peerId message =>
      if bool_decide (peerId = "") then (d, false)
      else if negb (shouldApplyMessage message (ts_of (chatDel (dev_meta d)) peerId)) then (d, false)
      else
        let '(rows, appended) := append (dev_rows d) peerId message in
        let messageId := string_or_empty (get message "messageId") in
        let rows := if negb appended && negb (bool_decide (messageId = ""))
                    then patch rows peerId messageId (del message "messageId") else rows in
        (d <| dev_rows := rows |> <| dev_meta := appliedMetaAfterOp (dev_meta d) o |>, true)
  end.

(** An item of a pulled page: the operation, [None] when it cannot be opened, with the
    sequence number and the time stamp of the envelope. *)
Record sync_item := mk_item { item_op : option op; item_seq : Z; item_ts : Z }.

Definition pull_item (d : device) (item : sync_item) : device :=
  let advance (d : device) := d <| dev_seq := Z.max (dev_seq d) (item_seq item) |> in
  match item_op item with
  | None => advance d
  | Some o =>
      let logical := logicalKeyOfOp o in
      let remoteTs := or_number (item_ts item) (op_ts o) in
      let d1 := if bool_decide (logical = "") then d
                else d <| dev_outbox := dropOutboxIfRemoteNewer (dev_outbox d) logical remoteTs |> in
      let d2 := advance d1 in
      if shouldSkipOwnOrigin o (dev_origin d2) then d2 else (applyOp d2 o).1
  end.

Definition pullRemote (d : device) (items : list sync_item) : device := fold_left pull_item items d.

(** [enqueue]: a reported local change; a change of a whole store becomes the changes of its
    entries against the last snapshot. *)
Definition enqueue (clock : Z) (d : device) (c : change) : device :=
  match change_of c with
  | StoreChange key =>
      let diffs := diffStoreEntries key (dev_store d !! key)
                     (default [] (storeSnapshots (dev_meta d) !! key)) in
      let ts := change_ts (stamp clock c) in
      d <| dev_outbox := fold_left (fun items body => mergeOutbox clock items (mk_change body ts)) diffs
                           (dev_outbox d) |>
  | _ => d <| dev_outbox := mergeOutbox clock (dev_outbox d) c |>
  end.

(** [buildOp]: the operation that is sent for a change, from the current state. *)
Definition buildOp (clock : Z) (d : device) (c : change) : option (string * op) :=
  let ts := or_number (change_ts c) clock in
  let built (b : op_body) (ts : Z) := Some (logicalKeyOf c, mk_op b ts (dev_origin d)) in
  match change_of c with
  | StoreEntryChange key id deleted _ =>
      if deleted then built (StoreEntryOp key id true None) ts
      else match get (entriesOfStore key (dev_store d !! key)) id with
           | Some v => built (StoreEntryOp key id false (Some v)) ts
           | None => None
           end
  | StoreChange key => built (StoreOp key (dev_store d !! key)) ts
  | ChatDelChange peerId => built (ChatDelOp peerId) ts
  | MsgDelChange peerId messageId => built (MsgDelOp peerId messageId) ts
  | MsgChange peerId messageId message =>
      let found := option_map row_value (find (same_message peerId messageId) (dev_rows d)) in
      match (match message with Some (JObj m) => Some m | _ => found end) with
      | Some m => built (MsgOp peerId (prepareMessageForSync m)) 0
      | None => None
      end
  end.

(** The meta data after a batch was accepted by the server. *)
Definition mark_sent (d : device) (c : change) : device :=
  match change_of c with
  | StoreEntryChange key id deleted value =>
      let current := get (entriesOfStore key (dev_store d !! key)) id in
      let value := if deleted then None else match current with Some v => Some v | None => value end in
      d <| dev_meta := appliedMetaAfterOp (dev_meta d) (mk_op (StoreEntryOp key id deleted value) (change_ts c) "") |>
  | _ => d
  end.

Definition push_accepted (d : device) (sent : outbox) : device :=
  fold_left mark_sent sent (d <| dev_outbox := removeSentFromOutbox (dev_outbox d) sent |>).
