(* ===== verification/SyncFacts.v ===== *)
(** * Cloud synchronisation: invariants and convergence

    Facts about the model of [Sync.v]: the outbox, the differences against the snapshot,
    the last-writer-wins merge of store entries, and what happens to deleted chats. *)

From S2P Require Import Prelude Json Sync.

(** ** Outbox lemmas *)

Definition keys (items : outbox) : list string := map logicalKeyOf items.

Lemma find_index_Some {A} (f : A -> bool) l i :
  find_index f l = Some i <-> exists x, l !! i = Some x /\ f x = true /\
    forall j y, (j < i)%nat -> l !! j = Some y -> f y = false.
Proof.
  revert i. induction l as [|x l IH]; intros i; simpl; [split; [done|intros (?&?&_); done]|].
  destruct (f x) eqn:E; simpl.
  - split.
    + intros [= <-]. exists x. split_and!; try done. lia.
    + intros (y & Hy & Hf & Hlt). destruct i as [|i]; [done|].
      specialize (Hlt 0%nat x ltac:(lia) eq_refl). congruence.
  - destruct (find_index f l) as [k|] eqn:Ef; simpl.
    + destruct (proj1 (IH k) eq_refl) as (y & Hy & Hf & Hlt). split.
      * intros [= <-]. exists y. split_and!; try done.
        intros [|j] z Hj Hz; simpl in *; [congruence|]. eapply Hlt; [|done]. lia.
      * intros (z & Hz & Hfz & Hltz). destruct i as [|i]; [simpl in *; congruence|].
        f_equal. enough (Some k = Some i) by congruence. apply IH.
        exists z. split_and!; try done. intros j y' Hj Hy'. apply (Hltz (S j)); [lia|done].
    + split; [done|]. intros (z & Hz & Hfz & Hltz). destruct i as [|i]; [simpl in *; congruence|].
      assert (None = Some i) as [=]. apply IH. exists z. split_and!; try done.
      intros j y' Hj Hy'. apply (Hltz (S j)); [lia|done].
Qed.

Lemma find_index_None {A} (f : A -> bool) l : find_index f l = None <-> Forall (fun x => f x = false) l.
Proof.
  induction l as [|x l IH]; simpl; [split; [constructor|done]|].
  rewrite Forall_cons, <- IH. destruct (f x), (find_index f l); simpl; naive_solver.
Qed.

Lemma replace_or_push_spec items c : NoDup (keys items) ->
  NoDup (keys (replace_or_push items c)) /\ c ∈ replace_or_push items c /\
  forall item, item ∈ replace_or_push items c <->
    item = c \/ (item ∈ items /\ logicalKeyOf item <> logicalKeyOf c).
Proof.
  unfold keys, replace_or_push. intros Hn.
  destruct (find_index _ items) as [i|] eqn:E.
  - apply find_index_Some in E as (x & Hx & Hk & _). apply bool_decide_eq_true_1 in Hk.
    pose proof (lookup_lt_Some _ _ _ Hx) as Hlt. rewrite list_fmap_insert by idtac.
    split_and!.
    + rewrite list_insert_id; [done|]. rewrite list_lookup_fmap, Hx. simpl. congruence.
    + by apply list_elem_of_insert.
    + intros item. split.
      * intros [j Hj]%list_elem_of_lookup. apply list_lookup_insert_Some in Hj as [(<-&->&_)|[Hne Hj]];
          [by left|right]. split; [by eapply list_elem_of_lookup_2|]. intros Hk'. apply Hne.
        apply (NoDup_lookup _ i j (logicalKeyOf c) Hn); rewrite list_lookup_fmap, ?Hx, ?Hj; simpl; congruence.
      * intros [->|[Hin Hk']]; [by apply list_elem_of_insert|].
        apply list_elem_of_lookup in Hin as [j Hj]. apply list_elem_of_lookup. exists j.
        rewrite list_lookup_insert_ne; [done|]. intros ->. congruence.
  - apply find_index_None in E. rewrite Forall_forall in E.
    assert (forall x, x ∈ items -> logicalKeyOf x <> logicalKeyOf c) as Hne
      by (intros x Hx; apply E in Hx; by apply bool_decide_eq_false_1 in Hx).
    split_and!.
    + rewrite map_app. apply NoDup_app. split_and!; [done| |apply NoDup_singleton].
      intros k Hk ->%list_elem_of_singleton. apply list_elem_of_fmap in Hk as (x & Ek & Hx).
      by apply (Hne x).
    + set_solver.
    + intros item. rewrite elem_of_app, list_elem_of_singleton. split; [|naive_solver].
      intros [?| ->]; [right|by left]. split; [done|by apply Hne].
Qed.

Lemma NoDup_keys_filter P `{!forall x, Decision (P x)} items :
  NoDup (keys items) -> NoDup (keys (base.filter P items)).
Proof.
  unfold keys. induction items as [|x items IH]; [done|]. simpl. rewrite NoDup_cons.
  intros [Hn Hd]. rewrite filter_cons. case_decide; simpl; [|auto]. apply NoDup_cons. split; [|auto].
  intros Hin. apply Hn. apply list_elem_of_fmap in Hin as (y & E & Hy).
  apply list_elem_of_filter in Hy as [_ Hy]. apply list_elem_of_fmap. eauto.
Qed.

Lemma logicalKeyOf_stamp clock c : logicalKeyOf (stamp clock c) = logicalKeyOf c.
Proof. done. Qed.

Lemma merge_spec clock items c : NoDup (keys items) ->
  NoDup (keys (mergeOutbox clock items c)) /\
  forall item, item ∈ mergeOutbox clock items c <-> item = stamp clock c \/
    (item ∈ items /\ logicalKeyOf item <> logicalKeyOf c /\
     forall p, change_of c = ChatDelChange p -> of_deleted_chat p item = false).
Proof.
  intros Hn. unfold mergeOutbox.
  assert (forall P `{!forall x, Decision (P x)},
    NoDup (keys (replace_or_push (base.filter P items) (stamp clock c))) /\
    forall item, item ∈ replace_or_push (base.filter P items) (stamp clock c) <->
      item = stamp clock c \/ ((P item /\ item ∈ items) /\ logicalKeyOf item <> logicalKeyOf c)) as Hf.
  { intros P HP. destruct (replace_or_push_spec (base.filter P items) (stamp clock c)) as (H1 & _ & H3);
      [by apply NoDup_keys_filter|]. split; [done|]. intros item.
    by rewrite H3, list_elem_of_filter, logicalKeyOf_stamp. }
  destruct (replace_or_push_spec items (stamp clock c) Hn) as (G1 & _ & G3).
  destruct (change_of c) as [k i d v|k|p|p m msg|p m] eqn:Ec.
  1, 2, 4: split; [done|]; intros item; rewrite G3, logicalKeyOf_stamp; naive_solver.
  - assert (forall item, item ∈ items -> of_deleted_chat p item = false -> logicalKeyOf item <> logicalKeyOf c) as Hk.
    { intros item _. unfold of_deleted_chat, logicalKeyOf. rewrite Ec.
      destruct (change_of item); simpl; try discriminate.
      intros Hb E. apply bool_decide_eq_false_1 in Hb. injection E as E'. exact (Hb E'). }
    split.
    + unfold keys. rewrite map_app. apply NoDup_app. split_and!; [by apply NoDup_keys_filter| |apply NoDup_singleton].
      intros x Hx ->%list_elem_of_singleton. apply list_elem_of_fmap in Hx as (item & E & Hx).
      apply list_elem_of_filter in Hx as [? ?]. by apply (Hk item).
    + intros item. rewrite elem_of_app, list_elem_of_filter, list_elem_of_singleton. split.
      * intros [[? ?]| ->]; [right; split_and!; auto; naive_solver|by left].
      * intros [->|(?&?&Hp)]; [by right|left; split; [by apply Hp|done]].
  - destruct (Hf (fun item => of_deleted_msg p m item = false) _) as [F1 F2]. split; [done|].
    intros item. rewrite F2. split; [naive_solver|]. intros [->|(?&Hk&?)]; [by left|right].
    split_and!; auto. unfold of_deleted_msg. destruct (change_of item) as [| | |p' m' |] eqn:Ei; try done.
    apply not_true_iff_false. intros [->%bool_decide_eq_true_1 ->%bool_decide_eq_true_1]%andb_true_iff.
    apply Hk. unfold logicalKeyOf. by rewrite Ei, Ec.
Qed.

Lemma removeSent_spec items sent item :
  item ∈ removeSentFromOutbox items sent <->
  item ∈ items /\ forall s, s ∈ sent -> logicalKeyOf s = logicalKeyOf item -> change_ts s <> change_ts item.
Proof.
  unfold removeSentFromOutbox. rewrite list_elem_of_filter. split.
  - intros [Hn Hi]. split; [done|]. intros s Hs Hk Ht. apply Hn. apply list_elem_of_fmap.
    exists s. by rewrite Hk, Ht.
  - intros [Hi Hs]. split; [|done]. intros Hin. apply list_elem_of_fmap in Hin as (s & E & Hin).
    injection E as E1 E2. by eapply Hs.
Qed.

(** ** Properties of the outbox *)

(** The outbox holds at most one change per logical key: queueing a change keeps
    that invariant, the change queued is there (stamped), and every other change stays,
    except an older one for the same key and, for a deleted chat, those of its messages. *)
Theorem outbox_one_per_key clock items c : NoDup (keys items) ->
  NoDup (keys (mergeOutbox clock items c)) /\ stamp clock c ∈ mergeOutbox clock items c /\
  forall item, item ∈ items ->
    item ∈ mergeOutbox clock items c \/ logicalKeyOf item = logicalKeyOf c \/
    exists p, change_of c = ChatDelChange p /\ of_deleted_chat p item = true.
Proof.
  intros Hn. destruct (merge_spec clock items c Hn) as [H1 H2]. split_and!; [done|apply H2; by left|].
  intros item Hi. destruct (decide (logicalKeyOf item = logicalKeyOf c)) as [|Hk]; [auto|].
  destruct (change_of c) as [k i d v|k|p|p m msg|p m] eqn:Ec;
    try (left; apply H2; right; rewrite ?Ec; split_and!; [done|done|discriminate]).
  destruct (of_deleted_chat p item) eqn:Ed; [right; right; eauto|]. left. apply H2. right.
  split_and!; [done|done|]. by intros ? [= <-].
Qed.

Definition sample_outbox : outbox :=
  [mk_change (StoreEntryChange "settings" "theme" false None) 5;
   mk_change (MsgChange "bob" "m1" None) 6; mk_change (MsgChange "carol" "m2" None) 7].

Lemma sample_keys : NoDup (keys sample_outbox).
Proof. apply (bool_decide_unpack _). vm_compute. exact I. Qed.

Lemma outbox_one_per_key_witness :
  NoDup (keys (mergeOutbox 9 sample_outbox (mk_change (ChatDelChange "bob") 0))).
Proof. exact (proj1 (outbox_one_per_key 9 sample_outbox (mk_change (ChatDelChange "bob") 0) sample_keys)). Defined.

(** No update is lost while a push is in flight: a change queued after the snapshot
    that is being sent survives the removal of what was sent, unless it replaced the sent
    one within the same millisecond; and what was sent does leave the outbox. *)
Theorem no_lost_update clock items sent c :
  NoDup (keys items) ->
  (forall s, s ∈ sent -> logicalKeyOf s = logicalKeyOf c -> change_ts s <> change_ts (stamp clock c)) ->
  let after := removeSentFromOutbox (mergeOutbox clock items c) sent in
  stamp clock c ∈ after /\ (forall s, s ∈ sent -> s ∉ after) /\ NoDup (keys after).
Proof.
  intros Hn Hs after. destruct (merge_spec clock items c Hn) as [H1 H2]. unfold after. split_and!.
  - apply removeSent_spec. split; [apply H2; by left|]. intros s Hin Hk. by apply Hs.
  - intros s Hin [_ H]%removeSent_spec. by apply (H s).
  - by apply NoDup_keys_filter.
Qed.

Lemma no_lost_update_witness :
  let c := mk_change (MsgChange "bob" "m1" None) 8 in
  stamp 9 c ∈ removeSentFromOutbox (mergeOutbox 9 sample_outbox c) sample_outbox.
Proof.
  refine (proj1 (no_lost_update 9 sample_outbox sample_outbox (mk_change (MsgChange "bob" "m1" None) 8)
    sample_keys _)).
  intros s Hs. unfold sample_outbox in Hs. rewrite !elem_of_cons, elem_of_nil in Hs.
  destruct Hs as [->|[->|[->|[]]]]; vm_compute; congruence.
Defined.

(** ** Entries as a map *)

(** The stores whose value is an object with one entry per property. *)
Definition map_store (key : string) : Prop := key = "settings" \/ key ∈ MAP_STORE_KEYS.

(** The properties that are synchronised. *)
Definition synced_entry (key id : string) : bool :=
  if bool_decide (key = "settings") then negb (isDeviceLocalSetting id) else negb (bool_decide (id = "")).

Lemma fold_set_get (l : fields) acc id : unique l ->
  get (fold_left (fun map kv => set map kv.1 kv.2) l acc) id =
  match get l id with Some v => Some v | None => get acc id end.
Proof.
  unfold unique. revert acc. induction l as [|[k v] l IH]; intros acc Hu; simpl; [done|].
  simpl in Hu. apply NoDup_cons in Hu as [Hn Hu]. rewrite IH, get_set by done.
  case_bool_decide; subst.
  - rewrite decide_True by done. by apply get_None in Hn as ->.
  - rewrite decide_False by done. done.
Qed.

Lemma fold_set_unique (l acc : fields) : unique acc ->
  unique (fold_left (fun map kv => set map kv.1 kv.2) l acc).
Proof. revert acc. induction l; intros acc Ha; simpl; [done|]. by apply IHl, set_unique. Qed.

Lemma get_filter (P : string * json -> Prop) `{!forall x, Decision (P x)} (b : string -> bool) l id :
  (forall kv, P kv <-> b kv.1 = true) ->
  get (base.filter P l) id = if b id then get l id else None.
Proof.
  intros Hb. induction l as [|[k v] l IH]; simpl; [by case_match|]. rewrite filter_cons.
  destruct (decide (P (k, v))) as [Hp|Hp]; rewrite Hb in Hp; simpl in *; rewrite IH;
    case_bool_decide; subst; destruct (b id); congruence.
Qed.

Lemma filter_unique (P : string * json -> Prop) `{!forall x, Decision (P x)} l :
  unique l -> unique (base.filter P l).
Proof.
  unfold unique. induction l as [|[k v] l IH]; [done|]. simpl. rewrite NoDup_cons. intros [Hn Hu].
  rewrite filter_cons. case_decide; simpl; [|auto]. apply NoDup_cons. split; [|auto].
  intros Hin. apply Hn. apply list_elem_of_fmap in Hin as (y & E & Hy).
  apply list_elem_of_filter in Hy as [_ Hy]. apply list_elem_of_fmap. eauto.
Qed.

Lemma entries_unique key value : unique (entriesOfStore key value).
Proof. unfold entriesOfStore. repeat case_match; apply fold_set_unique; constructor. Qed.

Lemma map_store_not_array key : map_store key -> includes ARRAY_STORE_KEYS key = false.
Proof.
  intros H. apply bool_decide_eq_false_2. unfold map_store, MAP_STORE_KEYS, ARRAY_STORE_KEYS in *.
  rewrite !elem_of_cons, elem_of_nil in *. intuition congruence.
Qed.

Lemma entries_map key f id : map_store key -> unique f ->
  get (entriesOfStore key (Some (JObj f))) id = if synced_entry key id then get f id else None.
Proof.
  intros Hk Hu. unfold entriesOfStore, synced_entry, set_all.
  rewrite map_store_not_array by done. cbn [as_object default from_option Datatypes.id].
  assert (forall x : option json, match x with Some v => Some v | None => None end = x) as Hx by by intros [].
  case_bool_decide; rewrite fold_set_get, Hx by by apply filter_unique.
  - apply (get_filter _ (fun k => negb (isDeviceLocalSetting k))). intros kv. by rewrite negb_true_iff.
  - refine (get_filter _ (fun k => negb (bool_decide (k = ""))) f id _). intros kv.
    by rewrite negb_true_iff, bool_decide_eq_false.
Qed.

(** What one accepted entry does to the object of a map store. *)
Definition patched (f : fields) (id : string) (deleted : bool) (value : option json) : fields :=
  match (if deleted then None else value) with Some v => set f id v | None => del f id end.

Lemma patched_get f id deleted value k :
  get (patched f id deleted value) k =
  if decide (id = k) then (if deleted then None else value) else get f k.
Proof.
  unfold patched. destruct deleted, value; rewrite ?get_del, ?get_set; by case_decide.
Qed.

Lemma patched_unique f id deleted value : unique f -> unique (patched f id deleted value).
Proof. unfold patched. intros. case_match; [by apply set_unique | by apply del_unique]. Qed.

Lemma apply_map key f id deleted value : map_store key -> id <> "" -> synced_entry key id = true ->
  applyStoreEntryToValue key (Some (JObj f)) id deleted value = Some (JObj (patched f id deleted value)).
Proof.
  intros Hk Hid Hs. unfold applyStoreEntryToValue, patched. rewrite bool_decide_eq_false_2 by done.
  rewrite map_store_not_array by done. unfold synced_entry in Hs.
  destruct (bool_decide (key = "settings")); simpl.
  - apply negb_true_iff in Hs. rewrite Hs. by destruct deleted, value.
  - by destruct deleted, value.
Qed.

(** ** Differences against the last snapshot *)

Definition record_diff (snapshot : fields) (body : change_body) : fields :=
  match body with
  | StoreEntryChange _ id deleted value => snapshotAfterEntry snapshot id deleted value
  | _ => snapshot
  end.

Definition apply_diff (value : option json) (body : change_body) : option json :=
  match body with
  | StoreEntryChange key id deleted v => applyStoreEntryToValue key value id deleted v
  | _ => value
  end.

Lemma union_names_spec current prev : unique current -> unique prev ->
  NoDup (union_names current prev) /\
  forall k, k ∈ union_names current prev <-> k ∈ map fst current \/ k ∈ map fst prev.
Proof.
  unfold unique, union_names. intros Hc Hp. assert (forall k, has current k = false <-> k ∉ map fst current) as Hh.
  { intros k. rewrite <- get_None. unfold has. destruct (get current k); naive_solver. }
  split.
  - apply NoDup_app. split_and!; [done| |by apply NoDup_filter].
    intros k Hk [Hn _]%list_elem_of_filter. by apply Hh in Hn.
  - intros k. rewrite elem_of_app, list_elem_of_filter, Hh.
    destruct (decide (k ∈ map fst current)); tauto.
Qed.

(** Replaying the differences makes any view that agreed with the snapshot agree with the
    current entries. *)
Lemma replay_diffs {X} (view : X -> string -> option json) (step : X -> change_body -> X)
    (good : string -> Prop) key current prev :
  (forall x id deleted value k, good k ->
     view (step x (StoreEntryChange key id deleted value)) k =
       if decide (id = k) then (if deleted then None else value) else view x k) ->
  forall names x, NoDup names ->
    (forall k, good k -> k ∈ names -> view x k = get prev k) ->
    forall k, good k ->
      view (fold_left step (flat_map (diff_entry key current prev) names) x) k =
        if decide (k ∈ names) then get current k else view x k.
Proof.
  intros Hstep names. induction names as [|n names IH]; intros x Hn Hx k Hk; simpl; [done|].
  apply NoDup_cons in Hn as [Hn Hd]. rewrite fold_left_app.
  set (x1 := fold_left step (diff_entry key current prev n) x).
  assert (forall k, good k -> view x1 k = if decide (n = k) then get current n else view x k) as H1.
  { intros k' Hk'. unfold x1, diff_entry. specialize (Hx k' Hk').
    destruct (get current n) eqn:Ec, (get prev n) eqn:Ep; simpl.
    - unfold valueEqual. case_bool_decide; simpl; [|by rewrite Hstep].
      case_decide; subst; [|done]. rewrite Hx by set_solver. congruence.
    - by rewrite Hstep.
    - by rewrite Hstep.
    - case_decide; subst; [|done]. rewrite Hx by set_solver. congruence. }
  rewrite IH; [|done| |done].
  - rewrite H1 by done. destruct (decide (n = k)) as [->|Hne].
    + rewrite decide_False by done. by rewrite decide_True by set_solver.
    + destruct (decide (k ∈ names)); [by rewrite decide_True by set_solver|].
      by rewrite decide_False by set_solver.
  - intros k' Hg Hin. rewrite H1 by done. rewrite decide_False by (intros ->; done).
    apply Hx; set_solver.
Qed.

(** A replayed difference on the object of a map store. *)
Definition patch_synced (key : string) (g : fields) (body : change_body) : fields :=
  match body with
  | StoreEntryChange _ id deleted v =>
      if synced_entry key id && negb (bool_decide (id = "")) then patched g id deleted v else g
  | _ => g
  end.

Lemma apply_diff_patch key f id deleted v : map_store key ->
  apply_diff (Some (JObj f)) (StoreEntryChange key id deleted v) =
    Some (JObj (patch_synced key f (StoreEntryChange key id deleted v))).
Proof.
  intros Hk. simpl. destruct (synced_entry key id) eqn:Es; simpl.
  - case_bool_decide; simpl; [|by rewrite apply_map].
    unfold applyStoreEntryToValue. by rewrite bool_decide_eq_true_2.
  - unfold applyStoreEntryToValue, synced_entry in *.
    destruct (bool_decide (key = "settings")); apply negb_false_iff in Es; rewrite Es; [|done].
    by destruct (bool_decide (id = "")).
Qed.

Lemma apply_diffs_patch key l : map_store key ->
  Forall (fun b => exists id d x, b = StoreEntryChange key id d x) l ->
  forall f, fold_left apply_diff l (Some (JObj f)) = Some (JObj (fold_left (patch_synced key) l f)).
Proof.
  intros Hk. induction 1 as [|b l (id & d & x & ->) Hl IH]; intros f; [done|].
  cbn [fold_left]. by rewrite apply_diff_patch.
Qed.

Lemma patch_synced_other key l k : synced_entry key k = false ->
  forall f, get (fold_left (patch_synced key) l f) k = get f k.
Proof.
  intros Hk. induction l as [|b l IH]; intros f; simpl; [done|]. rewrite IH.
  destruct b; simpl; try done. destruct (synced_entry key id) eqn:Es; simpl; [|done].
  case_bool_decide; simpl; [done|]. rewrite patched_get, decide_False; [done|congruence].
Qed.

Lemma diffs_are_entries key current prev names :
  Forall (fun b => exists id d x, b = StoreEntryChange key id d x)
    (flat_map (diff_entry key current prev) names).
Proof.
  apply Forall_forall. intros b Hb. apply list_elem_of_In, in_flat_map in Hb as (id & _ & Hb).
  unfold diff_entry in Hb. repeat case_match; simpl in Hb; naive_solver.
Qed.

(** A local change of a store reaches the snapshot and the other devices exactly:
    replaying the entry changes computed against the last snapshot turns the snapshot into
    the current entries, and, on a device whose value agreed with the snapshot, turns that
    value into one with the current entries, its device-local settings untouched. *)
Theorem diff_apply_roundtrip key current snapshot f :
  map_store key -> unique current -> unique snapshot -> unique f ->
  (forall k, synced_entry key k = true -> k <> "" -> get f k = get snapshot k) ->
  let diffs := diffStoreEntries key (Some (JObj current)) snapshot in
  let entries := entriesOfStore key (Some (JObj current)) in
  (forall k, k <> "" -> get (fold_left record_diff diffs snapshot) k = get entries k) /\
  exists f', fold_left apply_diff diffs (Some (JObj f)) = Some (JObj f') /\
    forall k, k <> "" -> get f' k = if synced_entry key k then get entries k else get f k.
Proof.
  intros Hk Hc Hs Hf Hagree diffs entries. unfold diffs, diffStoreEntries. fold entries.
  destruct (union_names_spec entries snapshot (entries_unique _ _) Hs) as [Hn Hin].
  assert (forall k, k ∉ union_names entries snapshot -> get entries k = None /\ get snapshot k = None) as Hout.
  { intros k Hk'. rewrite Hin in Hk'. rewrite !get_None. tauto. }
  split.
  - intros k Hne. rewrite (replay_diffs get record_diff (fun k => k <> "") key entries snapshot); auto.
    + case_decide as Hd; [done|]. apply Hout in Hd as [-> ->]. done.
    + intros x id deleted value k' Hk'. simpl. unfold snapshotAfterEntry.
      case_bool_decide; [by rewrite decide_False by congruence|].
      destruct deleted, value; rewrite ?get_del, ?get_set; by case_decide.
  - eexists. split; [apply apply_diffs_patch; [done|apply diffs_are_entries]|]. intros k Hne.
    destruct (synced_entry key k) eqn:Es; [|by apply patch_synced_other].
    rewrite (replay_diffs get (patch_synced key) (fun k => synced_entry key k = true /\ k <> "") key entries snapshot);
      auto.
    + case_decide as Hd; [done|]. apply Hout in Hd as [-> Hd]. by rewrite Hagree.
    + intros x id deleted value k' [Hk' Hne']. simpl.
      destruct (decide (id = k')) as [->|Hid].
      * rewrite Hk', bool_decide_eq_false_2 by done. simpl. by rewrite patched_get, decide_True.
      * case_match; [|done]. by rewrite patched_get, decide_False.
    + intros k' [? ?] _. auto.
Qed.

Lemma diff_apply_roundtrip_witness :
  let current := [("theme", JStr "dark"); ("peerPort", JNum 9)] in
  let snapshot := [("theme", JStr "light"); ("bio", JStr "x")] in
  let f := [("theme", JStr "light"); ("peerPort", JNum 7); ("bio", JStr "x")] in
  let diffs := diffStoreEntries "settings" (Some (JObj current)) snapshot in
  length diffs = 2%nat /\
  forall k, k <> "" ->
    get (fold_left record_diff diffs snapshot) k = get (entriesOfStore "settings" (Some (JObj current))) k.
Proof.
  intros current snapshot f diffs. split; [vm_compute; reflexivity|].
  refine (proj1 (diff_apply_roundtrip "settings" current snapshot f _ _ _ _ _)).
  - by left.
  - apply (bool_decide_unpack _). vm_compute. exact I.
  - apply (bool_decide_unpack _). vm_compute. exact I.
  - apply (bool_decide_unpack _). vm_compute. exact I.
  - intros k Hk Hne. unfold f, snapshot. simpl. repeat case_bool_decide; subst; try done.
Defined.

(** ** Last writer wins *)

(** What a device shows of one entry: the time stamp it applied and the value. *)
Definition entry_state (d : device) (key id : string) : Z * option json :=
  (storeEntryAppliedTs (dev_meta d) key id, get (entriesOfStore key (Some (store_get d key))) id).

Definition entry_step (key id : string) (s : Z * option json) (o : op) : Z * option json :=
  match op_of o with
  | StoreEntryOp k i deleted value =>
      if bool_decide (k = key /\ i = id) && Z.leb 0 (op_ts o) && Z.leb s.1 (op_ts o)
      then (op_ts o, if deleted then None else value) else s
  | _ => s
  end.

Definition not_whole_store (o : op) : Prop :=
  match op_of o with StoreOp _ _ => False | _ => True end.

(** The objects of the map stores have each property once. *)
Definition store_ok (d : device) : Prop :=
  dev_outbox d = [] /\ forall key, map_store key -> exists f, store_get d key = JObj f /\ unique f.

Lemma synced_key_no_colon key : key ∈ SYNCED_STORE_KEYS -> forall c s, key <> c +:+ String ":" s.
Proof.
  intros Hk c s E. assert (forall t, In ":"%char (String.list_ascii_of_string t) -> t = key -> False) as H.
  { intros t Ht ->. unfold SYNCED_STORE_KEYS in Hk. rewrite !elem_of_cons, elem_of_nil in Hk.
    destruct Hk as [->|[->|[->|[->|[->|[->|[]]]]]]]; vm_compute in Ht; intuition discriminate. }
  apply (H (c +:+ String ":" s)); [|done]. clear. induction c; simpl; auto.
Qed.

Lemma append_nil_l s : "" +:+ s = s. Proof. reflexivity. Qed.

Lemma entryTsKey_inj key id key' id' :
  key ∈ SYNCED_STORE_KEYS -> key' ∈ SYNCED_STORE_KEYS ->
  entryTsKey key id = entryTsKey key' id' -> key = key' /\ id = id'.
Proof.
  unfold entryTsKey. intros Hk Hk'.
  pose proof (synced_key_no_colon key Hk) as Hn. pose proof (synced_key_no_colon key' Hk') as Hn'.
  clear Hk Hk'. revert key' Hn'. induction key as [|a key IH]; intros [|b key'] Hn' E.
  - by injection E.
  - injection E as <- _. destruct (Hn' "" key'). reflexivity.
  - injection E as -> _. destruct (Hn "" key). reflexivity.
  - injection E as <- E. destruct (IH (fun c s H => Hn (String a c) s (f_equal (String a) H)) key') as [<- <-];
      [|done|done]. intros c s ->. by apply (Hn' (String a c) s).
Qed.

Lemma map_store_synced key : map_store key -> key ∈ SYNCED_STORE_KEYS.
Proof.
  unfold map_store, MAP_STORE_KEYS, SYNCED_STORE_KEYS. rewrite !elem_of_cons, elem_of_nil. naive_solver.
Qed.

Lemma store_get_set d key v key' :
  store_get (store_set d key (Some v)) key' = if decide (key = key') then v else store_get d key'.
Proof.
  unfold store_get, store_set. simpl. case_decide; subst; [by rewrite lookup_insert_eq|].
  by rewrite lookup_insert_ne.
Qed.

Lemma store_get_frame d d' key : dev_store d = dev_store d' -> store_get d key = store_get d' key.
Proof. unfold store_get. by intros ->. Qed.

Lemma applyStoreEntry_Some key v id deleted value :
  exists w, applyStoreEntryToValue key (Some v) id deleted value = Some w.
Proof. unfold applyStoreEntryToValue. repeat case_match; eauto. Qed.

Lemma append_keeps_store d key v : dev_meta (store_set d key v) = dev_meta d /\
  dev_outbox (store_set d key v) = dev_outbox d.
Proof. by destruct v. Qed.

Lemma entry_value_patch d key f k i deleted value id :
  store_get d key = JObj f -> unique f -> map_store key -> synced_entry key id = true -> id <> "" ->
  i <> "" ->
  get (entriesOfStore key (Some (store_get
    (store_set d k (applyStoreEntryToValue k (Some (store_get d k)) i deleted value)) key))) id =
  if bool_decide (k = key /\ i = id) then (if deleted then None else value)
  else get (entriesOfStore key (Some (store_get d key))) id.
Proof.
  intros Hf Hu Hk Hs Hid Hi. destruct (applyStoreEntry_Some k (store_get d k) i deleted value) as [w Hw].
  rewrite Hw, store_get_set. destruct (decide (k = key)) as [->|Hne];
    [|rewrite bool_decide_eq_false_2 by tauto; done].
  rewrite Hf in *. destruct (synced_entry key i) eqn:Esi.
  - rewrite apply_map in Hw by done. injection Hw as <-.
    rewrite !entries_map, Hs, patched_get by (done || by apply patched_unique).
    destruct (decide (i = id)); [rewrite bool_decide_eq_true_2 by done | rewrite bool_decide_eq_false_2 by tauto];
      done.
  - rewrite bool_decide_eq_false_2 by (intros [_ ->]; congruence).
    pose proof (apply_diff_patch key f i deleted value Hk) as Hp. simpl in Hp.
    rewrite Esi, Hw in Hp. simpl in Hp. by injection Hp as ->.
Qed.

Lemma applied_entry_ts meta k i deleted value ts origin key id : k <> "" -> i <> "" ->
  storeEntryAppliedTs (appliedMetaAfterOp meta (mk_op (StoreEntryOp k i deleted value) ts origin)) key id =
  if decide (entryTsKey k i = entryTsKey key id) then ts else storeEntryAppliedTs meta key id.
Proof.
  intros Hk Hi. unfold appliedMetaAfterOp. simpl. rewrite !bool_decide_eq_false_2 by done.
  unfold storeEntryAppliedTs, ts_of. simpl. case_decide as E; [by rewrite E, lookup_insert_eq|].
  by rewrite lookup_insert_ne.
Qed.

Lemma synced_key_nonempty key : key ∈ SYNCED_STORE_KEYS -> key <> "".
Proof. intros H ->. unfold SYNCED_STORE_KEYS in H. rewrite !elem_of_cons, elem_of_nil in H. intuition discriminate. Qed.

Lemma apply_entry_state d k i deleted value ts origin key id :
  store_ok d -> k ∈ SYNCED_STORE_KEYS -> i <> "" ->
  map_store key -> synced_entry key id = true -> id <> "" ->
  entry_state (apply_entry d k i deleted value ts origin).1 key id =
  entry_step key id (entry_state d key id) (mk_op (StoreEntryOp k i deleted value) ts origin).
Proof.
  intros [Hout Hst] Hk Hi Hkey Hs Hid. unfold apply_entry, entry_step, shouldApplyStoreEntry.
  rewrite Hout. change (pendingTsFor [] (store_entry_key k i)) with 0. simpl.
  destruct (Hst key Hkey) as (f & Hf & Hu). pose proof (map_store_synced key Hkey) as Hsync.
  assert (entryTsKey k i = entryTsKey key id <-> k = key /\ i = id) as Hinj.
  { split; [by apply entryTsKey_inj | by intros [-> ->]]. }
  match goal with |- context [if ?b then (?d', true) else _] => set (ok := b); set (accepted := d') end.
  assert (entry_state accepted key id =
    (if decide (k = key /\ i = id) then ts else storeEntryAppliedTs (dev_meta d) key id,
     if bool_decide (k = key /\ i = id) then (if deleted then None else value)
     else get (entriesOfStore key (Some (store_get d key))) id)) as Hacc.
  { unfold entry_state. f_equal.
    - unfold accepted. cbn [dev_meta field_update]. rewrite applied_entry_ts by (done || by apply synced_key_nonempty).
      repeat case_decide; tauto.
    - rewrite (store_get_frame accepted (store_set d k
        (applyStoreEntryToValue k (Some (store_get d k)) i deleted value)) key eq_refl).
      by apply (entry_value_patch d key f). }
  destruct (decide (k = key /\ i = id)) as [Em|Em];
    [rewrite bool_decide_eq_true_2 in Hacc |- * by done | rewrite bool_decide_eq_false_2 in Hacc |- * by done];
    simpl; [|by destruct ok; simpl; rewrite ?Hacc].
  destruct Em as [-> ->]. subst ok. unfold entry_state at 2. simpl.
  destruct (Z.ltb_spec ts 0); [by rewrite (proj2 (Z.leb_gt 0 ts))|].
  rewrite (proj2 (Z.leb_le 0 ts)) by done. simpl.
  destruct (Z.leb_spec (storeEntryAppliedTs (dev_meta d) key id) ts); [done|reflexivity].
Qed.

(** Operations that touch no entry of any store. *)
Lemma entry_state_frame d d' key id :
  dev_store d' = dev_store d -> storeEntryTs (dev_meta d') = storeEntryTs (dev_meta d) ->
  entry_state d' key id = entry_state d key id.
Proof.
  intros E1 E2. unfold entry_state, storeEntryAppliedTs. by rewrite E2, (store_get_frame d' d).
Qed.

Lemma applied_meta_frame meta o :
  match op_of o with StoreEntryOp _ _ _ _ | StoreOp _ _ => False | _ => True end ->
  storeEntryTs (appliedMetaAfterOp meta o) = storeEntryTs meta.
Proof. unfold appliedMetaAfterOp. destruct (op_of o); intros; repeat case_match; done. Qed.

(** One applied operation, seen from one entry. *)
Lemma applyOp_entry_step d o key id :
  store_ok d -> not_whole_store o -> map_store key -> synced_entry key id = true -> id <> "" ->
  entry_state (applyOp d o).1 key id = entry_step key id (entry_state d key id) o.
Proof.
  intros Hd Hno Hk Hs Hid. pose proof (map_store_synced key Hk) as Hsync.
  pose proof (applied_meta_frame (dev_meta d) o) as Hframe.
  unfold applyOp. destruct o as [[k i deleted value|k v|p|p msg|p m] ts origin]; simpl in *.
  - destruct (includes SYNCED_STORE_KEYS k) eqn:Ek; simpl;
      [apply bool_decide_eq_true_1 in Ek | apply bool_decide_eq_false_1 in Ek].
    + destruct (bool_decide (i = "")) eqn:Ei;
        [apply bool_decide_eq_true_1 in Ei as -> | apply bool_decide_eq_false_1 in Ei; by apply apply_entry_state].
      unfold entry_step. simpl. by rewrite bool_decide_eq_false_2 by (intros [_ <-]; done).
    + unfold entry_step. simpl. by rewrite bool_decide_eq_false_2 by (intros [-> _]; done).
  - done.
  - case_match; [done|]. by apply entry_state_frame; [|apply Hframe].
  - case_match; [done|]. case_match; [done|]. destruct (append _ _ _).
    by apply entry_state_frame; [|apply Hframe].
  - repeat case_match; try done; by apply entry_state_frame.
Qed.

Lemma applyOp_store_ok d o : store_ok d -> not_whole_store o -> store_ok (applyOp d o).1.
Proof.
  intros [Hout Hst] Hno. unfold applyOp.
  assert (forall d', dev_outbox d' = dev_outbox d -> dev_store d' = dev_store d -> store_ok d') as Hframe.
  { intros d' E1 E2. split; [congruence|]. intros key Hk. rewrite (store_get_frame d' d) by done. auto. }
  destruct (op_of o) as [k i deleted value|k v|p|p msg|p m] eqn:Eo.
  - destruct (negb (includes SYNCED_STORE_KEYS k)); [by apply Hframe|].
    destruct (bool_decide (i = "")) eqn:Ei; [by apply Hframe|]. apply bool_decide_eq_false_1 in Ei.
    simpl. unfold apply_entry. case_match; [|by apply Hframe].
    split; simpl; [by rewrite (proj2 (append_keeps_store _ _ _))|].
    intros key Hk. erewrite (store_get_frame _ (store_set d k
      (applyStoreEntryToValue k (Some (store_get d k)) i deleted value)) key) by reflexivity.
    destruct (applyStoreEntry_Some k (store_get d k) i deleted value) as [w Hw].
    rewrite Hw, store_get_set. destruct (Hst key Hk) as (f & Hf & Hu). case_decide; subst; [|eauto].
    rewrite Hf in Hw. pose proof (apply_diff_patch key f i deleted value Hk) as Hp. simpl in Hp.
    rewrite Hw in Hp. injection Hp as ->. eexists. split; [done|].
    case_match; [by apply patched_unique|done].
  - unfold not_whole_store in Hno. by rewrite Eo in Hno.
  - case_match; by apply Hframe.
  - repeat case_match; by apply Hframe.
  - repeat case_match; by apply Hframe.
Qed.

Definition apply_all (d : device) (ops : list op) : device := fold_left (fun d o => (applyOp d o).1) ops d.

Lemma apply_all_entry ops key id : map_store key -> synced_entry key id = true -> id <> "" ->
  Forall not_whole_store ops -> forall d, store_ok d ->
  entry_state (apply_all d ops) key id = fold_left (entry_step key id) ops (entry_state d key id).
Proof.
  intros Hk Hs Hid. induction 1 as [|o ops Ho Hops IH]; intros d Hd; simpl; [done|].
  unfold apply_all in *. simpl. rewrite IH by by apply applyOp_store_ok. by rewrite applyOp_entry_step.
Qed.

(** The operations on one entry, with the value they leave. *)
Definition writes (key id : string) (o : op) (v : option json) : Prop :=
  exists deleted value, op_of o = StoreEntryOp key id deleted value /\ v = (if deleted then None else value).

Lemma entry_fold_max key id ops : forall s, 0 <= s.1 ->
  let r := fold_left (entry_step key id) ops s in
  (r = s \/ exists o v, o ∈ ops /\ writes key id o v /\ 0 <= op_ts o /\ r = (op_ts o, v)) /\
  s.1 <= r.1 /\ (forall o v, o ∈ ops -> writes key id o v -> op_ts o <= r.1).
Proof.
  induction ops as [|o ops IH]; intros s Hs; simpl; [split_and!; [by left|lia|set_solver]|].
  assert (0 <= (entry_step key id s o).1 /\ s.1 <= (entry_step key id s o).1 /\
    (forall v, writes key id o v -> op_ts o <= (entry_step key id s o).1) /\
    (entry_step key id s o = s \/ exists v, writes key id o v /\ 0 <= op_ts o /\ entry_step key id s o = (op_ts o, v)))
    as (H0 & H1 & H2 & H3).
  { unfold entry_step, writes. destruct (op_of o) as [k i d v|?|?|?|?] eqn:Eo; try (split_and!; auto; naive_solver).
    case_bool_decide as Em; simpl.
    - destruct Em as [-> ->]. destruct (Z.leb_spec 0 (op_ts o)), (Z.leb_spec s.1 (op_ts o)); simpl;
        split_and!; auto; try lia; try (intros; lia). right. eexists. split_and!; eauto.
    - split_and!; auto; try lia. intros v' (d' & x & E & _). simplify_eq. tauto. }
  destruct (IH _ H0) as (G1 & G2 & G3). split_and!.
  - destruct G1 as [->|(o' & v & Ho' & Hw & Hp & ->)]; [|right; exists o', v; split_and!; auto; by right].
    destruct H3 as [->|(v & Hw & Hp & ->)]; [by left|right; exists o, v; split_and!; auto; by left].
  - lia.
  - intros o' v [->|Ho']%elem_of_cons Hw; [specialize (H2 v Hw); lia|by eapply G3].
Qed.

Definition new_device (origin : string) : device := mk_device ∅ [] emptySyncMeta [] origin 0.

Lemma new_device_ok origin : store_ok (new_device origin).
Proof.
  split; [done|]. intros key Hk. exists []. split; [|constructor].
  unfold store_get, new_device. simpl. rewrite lookup_empty. simpl. unfold store_default.
  by rewrite map_store_not_array.
Qed.

(** C15: settings, sessions and read marks converge.  Two devices with nothing in their outboxes,
    which agree on an entry of such a store and on its time stamp, apply the same operations in
    different orders, interleaved in any way with operations on messages, chats and single
    entries of other stores (operations on whole stores excepted), all newer than the entry and
    no two of them with the same time stamp and different values.  They end with the same value
    and time stamp for the entry, namely those of the operation with the greatest time stamp.
    Contacts do not converge ([contacts_diverge]). *)
Theorem store_entries_converge ops ops' d0 d0' key id :
  ops ≡ₚ ops' -> Forall not_whole_store ops ->
  (forall o o' v v', o ∈ ops -> o' ∈ ops -> writes key id o v -> writes key id o' v' ->
     op_ts o = op_ts o' -> v = v') ->
  store_ok d0 -> store_ok d0' -> entry_state d0 key id = entry_state d0' key id ->
  0 <= (entry_state d0 key id).1 -> (forall o, o ∈ ops -> (entry_state d0 key id).1 < op_ts o) ->
  map_store key -> synced_entry key id = true -> id <> "" ->
  let d := apply_all d0 ops in
  let d' := apply_all d0' ops' in
  entry_state d key id = entry_state d' key id /\
  forall o v, o ∈ ops -> writes key id o v -> (forall o' v', o' ∈ ops -> writes key id o' v' -> op_ts o' <= op_ts o) ->
    entry_state d key id = (op_ts o, v) /\ get (entriesOfStore key (Some (store_get d key))) id = v.
Proof.
  intros Hperm Hno Hdist Hd0 Hd0' Hsame Hnn Hpos Hk Hs Hid d d'.
  assert (forall o, o ∈ ops' <-> o ∈ ops) as Hin by (intros; by rewrite Hperm).
  assert (Forall not_whole_store ops') as Hno' by by rewrite <- Hperm.
  pose proof (apply_all_entry ops key id Hk Hs Hid Hno _ Hd0) as E. fold d in E.
  pose proof (apply_all_entry ops' key id Hk Hs Hid Hno' _ Hd0') as E'. fold d' in E'.
  rewrite <- Hsame in E'. set (s0 := entry_state d0 key id) in *.
  destruct (entry_fold_max key id ops s0 Hnn) as (A1 & A2 & A3).
  destruct (entry_fold_max key id ops' s0 Hnn) as (B1 & B2 & B3).
  rewrite <- E in *. rewrite <- E' in *. clear E E'. split.
  - destruct A1 as [Ea|(o & v & Ho & Hw & _ & Ea)], B1 as [Eb|(o' & v' & Ho' & Hw' & _ & Eb)];
      rewrite Ea, Eb in *; simpl in *.
    + done.
    + specialize (A3 o' v' (proj1 (Hin _) Ho') Hw'). specialize (Hpos o' (proj1 (Hin _) Ho')). lia.
    + specialize (B3 o v (proj2 (Hin _) Ho) Hw). specialize (Hpos o Ho). lia.
    + apply Hin in Ho'. assert (op_ts o = op_ts o') as Et.
      { specialize (A3 o' v' Ho' Hw'). specialize (B3 o v (proj2 (Hin _) Ho) Hw). lia. }
      f_equal; [done|]. exact (Hdist o o' v v' Ho Ho' Hw Hw' Et).
  - intros o v Ho Hw Hmax. change (get _ id) with (entry_state d key id).2.
    destruct A1 as [Ea|(o' & v' & Ho' & Hw' & _ & Ea)]; rewrite Ea in *; simpl in *.
    + specialize (A3 o v Ho Hw). specialize (Hpos o Ho). lia.
    + specialize (A3 o v Ho Hw). specialize (Hmax o' v' Ho' Hw').
      assert (op_ts o' = op_ts o) as Et by lia. rewrite Et, (Hdist o' o v' v Ho' Ho Hw' Hw Et). done.
Qed.

Definition theme_ops : list op :=
  [mk_op (StoreEntryOp "settings" "theme" false (Some (JStr "dark"))) 5 "a";
   mk_op (ChatDelOp "bob") 6 "b";
   mk_op (StoreEntryOp "settings" "theme" false (Some (JStr "light"))) 9 "b"].

Lemma store_entries_converge_witness :
  entry_state (apply_all (new_device "x") theme_ops) "settings" "theme" =
    entry_state (apply_all (new_device "y") (reverse theme_ops)) "settings" "theme"
  /\ entry_state (apply_all (new_device "x") theme_ops) "settings" "theme" = (9, Some (JStr "light")).
Proof.
  split; [|vm_compute; reflexivity].
  refine (proj1 (store_entries_converge theme_ops (reverse theme_ops) (new_device "x") (new_device "y") "settings" "theme"
    _ _ _ (new_device_ok "x") (new_device_ok "y") eq_refl _ _ _ eq_refl _)).
  - symmetry. apply reverse_Permutation.
  - repeat constructor.
  - intros o o' v v' Ho Ho' (d & x & E & ->) (d' & x' & E' & ->) Ht. unfold theme_ops in *.
    rewrite !elem_of_cons, elem_of_nil in Ho, Ho'.
    destruct Ho as [->|[->|[->|[]]]], Ho' as [->|[->|[->|[]]]]; simpl in *; simplify_eq; done.
  - vm_compute. discriminate.
  - intros o Ho. unfold theme_ops in Ho. rewrite !elem_of_cons, elem_of_nil in Ho.
    destruct Ho as [->|[->|[->|[]]]]; vm_compute; reflexivity.
  - by left.
  - discriminate.
Defined.

(** The profile of a contact, and a later write of it without a name: what a device that has met
    the contact and one that has not would send. *)
Definition contact_ops : list op :=
  [mk_op (StoreEntryOp "contacts" "bob" false (Some (JObj [("id", JStr "bob"); ("name", JStr "Bob")]))) 5 "a";
   mk_op (StoreEntryOp "contacts" "bob" false (Some (JObj [("id", JStr "bob"); ("name", JStr "")]))) 9 "b"].

(** Contacts do not converge: [mergeContactIdentity] keeps the name of the value that is being
    replaced, and an operation that arrives after a newer one is skipped, so a device that gets
    the two operations in the order of their time stamps keeps the name and one that gets them
    in the other order does not. *)
Example contacts_diverge :
  get (entriesOfStore "contacts" (Some (store_get (apply_all (new_device "x") contact_ops) "contacts"))) "bob"
    = Some (JObj [("id", JStr "bob"); ("name", JStr "Bob")])
  /\ get (entriesOfStore "contacts" (Some (store_get (apply_all (new_device "y") (reverse contact_ops)) "contacts"))) "bob"
    = Some (JObj [("id", JStr "bob"); ("name", JStr "")]).
Proof. split; vm_compute; reflexivity. Qed.

(** ** Deleted chats *)

(** The page that brings the deletion of a chat and, after it, an older message of that
    chat which another device uploads late. *)
Definition late_message_page (peerId : string) (message : fields) (t : Z) (deleter sender : string)
    : list sync_item :=
  [mk_item (Some (mk_op (ChatDelOp peerId) t deleter)) 1 t;
   mk_item (Some (mk_op (MsgOp peerId message) 0 sender)) 2 0].

Lemma not_own_origin o origin : op_origin o <> origin -> shouldSkipOwnOrigin o origin = false.
Proof.
  intros Ho. unfold shouldSkipOwnOrigin. rewrite (bool_decide_eq_false_2 _ Ho). apply andb_false_r.
Qed.

(** A pulled message against the tombstone of its chat. *)
Lemma pull_message d peerId message sender seq ts :
  peerId <> "" -> sender <> dev_origin d -> dev_rows d = [] ->
  dev_rows (pull_item d (mk_item (Some (mk_op (MsgOp peerId message) 0 sender)) seq ts)) =
  if shouldApplyMessage message (ts_of (chatDel (dev_meta d)) peerId)
  then [mk_row peerId (string_or_empty (get message "messageId")) message] else [].
Proof.
  intros Hp Hs Hr. unfold pull_item. cbn [item_op].
  rewrite bool_decide_eq_false_2 by discriminate. cbv zeta. rewrite not_own_origin by done.
  unfold applyOp. simpl. rewrite (bool_decide_eq_false_2 _ Hp).
  destruct (shouldApplyMessage _ _); simpl; [|done].
  unfold append. rewrite Hr. simpl. by rewrite andb_false_r.
Qed.

Lemma pull_own_deletion d peerId t seq ts : dev_origin d <> "" -> dev_outbox d = [] ->
  pull_item d (mk_item (Some (mk_op (ChatDelOp peerId) t (dev_origin d))) seq ts) =
  (d <| dev_seq := Z.max (dev_seq d) seq |>).
Proof.
  intros Hd Ho. unfold pull_item. simpl. unfold shouldSkipOwnOrigin. simpl.
  rewrite (bool_decide_eq_false_2 _ Hd), (bool_decide_eq_true_2 (dev_origin d = dev_origin d)) by done.
  simpl. destruct d; simpl in *. by subst.
Qed.

Lemma pull_deletion d peerId t deleter seq ts :
  peerId <> "" -> deleter <> dev_origin d -> dev_rows d = [] -> ts_of (chatDel (dev_meta d)) peerId <= t ->
  let d' := pull_item d (mk_item (Some (mk_op (ChatDelOp peerId) t deleter)) seq ts) in
  dev_origin d' = dev_origin d /\ dev_rows d' = [] /\ ts_of (chatDel (dev_meta d')) peerId = t.
Proof.
  intros Hp Hd Hr Ht d'. subst d'. unfold pull_item. cbn [item_op].
  rewrite bool_decide_eq_false_2 by discriminate. cbv zeta. rewrite not_own_origin by done.
  unfold applyOp. simpl. rewrite (bool_decide_eq_false_2 _ Hp). simpl.
  rewrite Hr. split_and!; [done|done|]. unfold appliedMetaAfterOp. simpl.
  rewrite (bool_decide_eq_false_2 _ Hp), (proj2 (Z.leb_le _ _)) by done. simpl.
  unfold ts_of. by rewrite lookup_insert_eq.
Qed.

(** A deleted chat comes back on the device that deleted it, and only there: its own
    deletion is skipped when it is pulled, so it keeps no tombstone, and an older message
    that another device uploads later is appended to the deleted chat; every other device
    has the tombstone and refuses the message. *)
Theorem deleter_resurrects_chat peerId message t deleter sender other :
  peerId <> "" -> deleter <> "" -> sender <> deleter -> sender <> other -> deleter <> other -> 0 < t ->
  or_number (number_or_zero (get message "timestamp")) (number_or_zero (get message "ts")) <= t ->
  let page := late_message_page peerId message t deleter sender in
  Exists (fun r => row_peer r = peerId) (dev_rows (pullRemote (new_device deleter) page)) /\
  dev_rows (pullRemote (new_device other) page) = [].
Proof.
  intros Hp Hd Hsd Hso Hdo Ht Hm page.
  unfold page, late_message_page, pullRemote. cbn [fold_left]. split.
  - rewrite (pull_own_deletion (new_device deleter)) by done. rewrite pull_message by done.
    by apply Exists_cons_hd.
  - destruct (pull_deletion (new_device other) peerId t deleter 1 t) as (Eo & Er & Et); try done; [apply Z.lt_le_incl, Ht|].
    rewrite pull_message by (done || by rewrite Eo). rewrite Et. unfold shouldApplyMessage.
    rewrite (proj2 (Z.leb_gt _ _)) by done. by rewrite (proj2 (Z.ltb_ge _ _)).
Qed.

Lemma deleter_resurrects_chat_witness :
  let page := late_message_page "bob" [("messageId", JStr "m1"); ("timestamp", JNum 5)] 10 "dev-a" "dev-b" in
  Exists (fun r => row_peer r = "bob") (dev_rows (pullRemote (new_device "dev-a") page)) /\
  dev_rows (pullRemote (new_device "dev-c") page) = [].
Proof.
  apply (deleter_resurrects_chat "bob" [("messageId", JStr "m1"); ("timestamp", JNum 5)] 10 "dev-a" "dev-b" "dev-c");
    try discriminate; simpl; unfold or_number; simpl; lia.
Defined.
