(* ===== verification/Realtime.v ===== *)
(** * Realtime rooms and shared documents ([src/shared/plugin-realtime.mjs])

    A room is run by its host: peers join and leave by messages to the host, which keeps the
    member list, and shared documents are edited by operations the host orders, rebases and
    broadcasts.  Payloads are JSON values, as on the wire.  Every handler returns the new
    state and the trace of what it sends and emits; [clock] stands for [Date.now()]. *)

From S2P Require Import Prelude Json.

(** ** Wire messages *)

Inductive wire :=
| ROOM_INVITE | ROOM_JOIN | ROOM_JOIN_OK | ROOM_JOIN_REJECT | ROOM_LEAVE | ROOM_CLOSED
| ROOM_MSG | ROOM_PRESENCE | ROOM_PRESENCE_CLEAR | DOC_SYNC | DOC_OP
| OTHER_WIRE (name : string).

#[export] Instance wire_eq_dec : EqDecision wire.
Proof. solve_decision. Defined.

Definition WIRE : list (string * wire) :=
  [("room-invite", ROOM_INVITE); ("room-join", ROOM_JOIN); ("room-join-ok", ROOM_JOIN_OK);
   ("room-join-reject", ROOM_JOIN_REJECT); ("room-leave", ROOM_LEAVE); ("room-closed", ROOM_CLOSED);
   ("room-msg", ROOM_MSG); ("room-presence", ROOM_PRESENCE);
   ("room-presence-clear", ROOM_PRESENCE_CLEAR); ("doc-sync", DOC_SYNC); ("doc-op", DOC_OP)].

Definition wire_of (name : string) : wire := default (OTHER_WIRE name) (get WIRE name).

Definition wire_name (w : wire) : string :=
  match w with
  | OTHER_WIRE name => name
  | _ => default "" (option_map fst (find (fun entry => bool_decide (entry.2 = w)) WIRE))
  end.

Inductive access := PUBLIC | INVITE.

#[export] Instance access_eq_dec : EqDecision access.
Proof. solve_decision. Defined.

Definition access_name (a : access) : string := match a with PUBLIC => "public" | INVITE => "invite" end.

Definition PRESENCE_STALE_MS : Z := 90000.

Definition isRealtimeMessage (msg : json) : bool :=
  is_js_object msg && bool_decide (prop (Some msg) "kind" = Some (JStr "plugin-realtime"))
  && truthy (prop (Some msg) "pluginRealtime").

Record parsed := mk_parsed {
  p_room : string; p_wire : wire; p_payload : option json; p_from : option string
}.

(** [parseRealtimeMessage]; the plugin id is always given. *)
Definition parseRealtimeMessage (msg : json) (pluginId : string) : option parsed :=
  if negb (isRealtimeMessage msg) then None
  else
    let body := prop (Some msg) "pluginRealtime" in
    if negb (match body with Some b => is_js_object b | None => false end) then None
    else if negb (bool_decide (pluginId = "")) && negb (bool_decide (prop body "pluginId" = Some (JStr pluginId)))
    then None
    else Some (mk_parsed (string_or_empty (prop body "roomId")) (wire_of (string_or_empty (prop body "wire")))
                 (prop body "payload")
                 (match prop (Some msg) "from" with Some (JStr f) => Some f | _ => None end)).

Definition buildRealtimeEnvelope (pluginId roomId : string) (w : wire) (payload : json) : json :=
  JObj [("kind", JStr "plugin-realtime");
        ("pluginRealtime", JObj [("pluginId", JStr pluginId); ("roomId", JStr roomId);
                                 ("wire", JStr (wire_name w)); ("payload", payload)])].

Definition isPresenceStale (clock : Z) (timestamp : option json) : bool :=
  match timestamp with
  | Some (JNum t) => if Z.eqb t 0 then true else Z.ltb PRESENCE_STALE_MS (clock - t)
  | _ => true
  end.

(** ** Text operations *)

(** [String(value ?? '')]. *)
Definition string_or_nullish (v : option json) : string :=
  match v with None | Some JNull => "" | Some j => to_string j end.

Definition type_of (op : json) : option json := prop (Some op) "type".

Definition applyTextOp (text : string) (op : json) : string :=
  let len := Z.of_nat (String.length text) in
  let pos := Z.max 0 (Z.min (number_or_zero (prop (Some op) "pos")) len) in
  if bool_decide (type_of op = Some (JStr "insert")) then
    str_take (Z.to_nat pos) text +:+ string_or_nullish (prop (Some op) "text") +:+ str_drop (Z.to_nat pos) text
  else if bool_decide (type_of op = Some (JStr "delete")) then
    let n := Z.max 0 (number_or_zero (prop (Some op) "len")) in
    str_take (Z.to_nat pos) text +:+ str_drop (Z.to_nat (pos + n)) text
  else if bool_decide (type_of op = Some (JStr "replace")) then string_or_nullish (prop (Some op) "value")
  else text.

(** A normalised operation. *)
Inductive text_op :=
| Insert (pos : Z) (text : string)
| Delete (pos len : Z).

#[export] Instance text_op_eq_dec : EqDecision text_op.
Proof. solve_decision. Defined.

Definition op_json (op : text_op) : json :=
  match op with
  | Insert pos text => JObj [("type", JStr "insert"); ("pos", JNum pos); ("text", JStr text)]
  | Delete pos len => JObj [("type", JStr "delete"); ("pos", JNum pos); ("len", JNum len)]
  end.

Definition normalizeTextOp (op : option json) : option text_op :=
  match op with
  | Some o =>
      if negb (is_js_object o) then None
      else
        let pos := Z.max 0 (number_or_zero (prop op "pos")) in
        if bool_decide (type_of o = Some (JStr "insert")) then
          Some (Insert pos (string_or_nullish (prop op "text")))
        else if bool_decide (type_of o = Some (JStr "delete")) then
          Some (Delete pos (Z.max 0 (number_or_zero (prop op "len"))))
        else None
  | None => None
  end.

(** [transformTextOp] on operations that are already normal. *)
Definition transformTextOp (mine other : text_op) : option text_op :=
  match other with
  | Insert opos otext =>
      let shift := Z.of_nat (String.length otext) in
      match mine with
      | Insert pos text => Some (if Z.leb opos pos then Insert (pos + shift) text else mine)
      | Delete pos len =>
          if Z.leb opos pos then Some (Delete (pos + shift) len)
          else if Z.leb (pos + len) opos then Some mine
          else None
      end
  | Delete opos olen =>
      let otherEnd := opos + olen in
      match mine with
      | Insert pos text =>
          if Z.leb pos opos then Some mine
          else if Z.leb otherEnd pos then Some (Insert (pos - olen) text)
          else None
      | Delete pos len =>
          if Z.leb (pos + len) opos then Some mine
          else if Z.leb otherEnd pos then Some (Delete (pos - olen) len)
          else None
      end
  end.

(** ** Shared documents *)

Definition OP_LOG_LIMIT : nat := 128.
Definition SEEN_OPS_PER_PEER : nat := 16.

(** [opLog] holds [None] for an operation that cannot be rebased over (a replacement);
    [seenOps] is a [Map] per sender, in insertion order. *)
Record document := mk_document {
  docId : string;
  doc_state : option json;
  revision : Z;
  opLog : list (Z * option text_op);
  seenOps : list (string * list (string * bool))
}.

#[export] Instance document_rebuild : Rebuild document := fun d =>
  mk_document (docId d) (doc_state d) (revision d) (opLog d) (seenOps d).

Definition new_document (id : string) (initial : option json) : document := mk_document id initial 0 [] [].

Definition logOp (d : document) (op : option text_op) : document :=
  let log := opLog d ++ [(revision d, op)] in
  d <| opLog := drop (length log - OP_LOG_LIMIT) log |>.

(** [_rememberOp]; a missing id is [""]. *)
Definition rememberOp (d : document) (from opId : string) (applied : bool) : document :=
  if bool_decide (opId = "") then d
  else
    let seen := default [] (get (seenOps d) from) in
    let seen := if negb (has seen opId) && Nat.leb SEEN_OPS_PER_PEER (length seen) then tail seen else seen in
    d <| seenOps := set (seenOps d) from (set seen opId applied) |>.

(** The loop of [_rebaseOp]. *)
Fixpoint rebase_over (current : option text_op) (pending : list (option text_op)) : option text_op :=
  match pending with
  | [] => current
  | entry :: rest =>
      match current, entry with
      | Some op, Some against => rebase_over (transformTextOp op against) rest
      | _, _ => None
      end
  end.

Definition rebaseOp (d : document) (op : option json) (baseRevision : Z) : option text_op :=
  if Z.ltb (revision d) baseRevision then None
  else
    let pending := base.filter (fun e : Z * option text_op => baseRevision < e.1) (opLog d) in
    if negb (Z.eqb (Z.of_nat (length pending)) (revision d - baseRevision)) then None
    else rebase_over (normalizeTextOp op) (map snd pending).

Definition is_string (v : option json) : bool := match v with Some (JStr _) => true | _ => false end.

(** The new state an effective operation gives, [None] when it is not supported. *)
Definition effect_on (state : option json) (effective : option json) : option (option json) :=
  match effective with
  | Some e =>
      match state with
      | Some (JStr text) =>
          if is_js_object e && truthy (type_of e) then Some (Some (JStr (applyTextOp text e)))
          else if is_js_object e && bool_decide (type_of e = Some (JStr "set")) then Some (prop effective "value")
          else None
      | _ =>
          if is_js_object e && bool_decide (type_of e = Some (JStr "set")) then Some (prop effective "value")
          else None
      end
  | None => None
  end.

(** [_applyOpAsHost]: the document and whether the operation is applied (or was, for a
    repetition), with whether this call changed the document (and broadcasts it). *)
Definition applyOpAsHost (d : document) (op : option json) (baseRevision : Z)
    (from opId replacesOpId : string) : document * bool * bool :=
  let seen := default [] (get (seenOps d) from) in
  if negb (bool_decide (opId = "")) && has seen opId then
    (d, bool_decide (get seen opId = Some true), false)
  else if negb (bool_decide (replacesOpId = "")) && bool_decide (get seen replacesOpId = Some true) then
    (rememberOp d from opId false, false, false)
  else
    let d1 := if negb (bool_decide (replacesOpId = "")) && negb (has seen replacesOpId)
              then rememberOp d from replacesOpId false else d in
    let effective :=
      if Z.eqb baseRevision (revision d1) then op
      else if is_string (doc_state d1) then option_map op_json (rebaseOp d1 op baseRevision)
      else None in
    match effect_on (doc_state d1) effective with
    | None => (rememberOp d1 from opId false, false, false)
    | Some state =>
        let d2 := d1 <| doc_state := state |> <| revision := revision d1 + 1 |> in
        let d3 := logOp d2 (normalizeTextOp effective) in
        (rememberOp d3 from opId true, true, true)
    end.

(** [setState] on the host. *)
Definition setState (d : document) (next : option json) : document :=
  logOp (d <| doc_state := next |> <| revision := revision d + 1 |>) None.

(** ** Rooms *)

Record member := mk_member { member_name : option json; joinedAt : option json }.

Record room := mk_room {
  roomId : string;
  room_name : string;
  room_access : access;
  maxPeers : Z;
  isHost : bool;
  hostPeerId : string;
  selfPeerId : string;
  members : list (string * member);
  room_closed : bool;
  documents : list (string * document)
}.

#[export] Instance room_rebuild : Rebuild room := fun r =>
  mk_room (roomId r) (room_name r) (room_access r) (maxPeers r) (isHost r) (hostPeerId r) (selfPeerId r)
    (members r) (room_closed r) (documents r).

Inductive output :=
| Send (peerId : string) (w : wire) (payload : json)
| SendMany (peerIds : list string) (w : wire) (payload : json)
| Broadcast (w : wire) (payload : json)
| Emit (event : string) (payload : json).

Definition memberPeerIds (r : room) : list string :=
  base.filter (fun id => id <> selfPeerId r) (map fst (members r)).

Definition sendWire (peerId : string) (w : wire) (payload : json) : list output :=
  if bool_decide (peerId = "") then [] else [Send peerId w payload].

Definition sendWireMany (peerIds : list string) (w : wire) (payload : json) : list output :=
  let ids := base.filter (fun id => id <> "") peerIds in
  if bool_decide (ids = []) then [] else [SendMany ids w payload].

Definition room_broadcast (r : room) (payload : json) : list output :=
  if room_closed r then [] else sendWireMany (memberPeerIds r) ROOM_MSG payload.

Definition publishPresence (clock : Z) (r : room) : list output :=
  let size := Z.of_nat (length (members r)) in
  [Broadcast ROOM_PRESENCE
     (JObj [("roomId", JStr (roomId r)); ("name", JStr (room_name r)); ("hostPeerId", JStr (hostPeerId r));
            ("access", JStr (access_name (room_access r))); ("memberCount", JNum size);
            ("maxPeers", JNum (maxPeers r)); ("joinable", JBool (Z.ltb size (maxPeers r)));
            ("timestamp", JNum clock)])].

Definition clearPresence (clock : Z) (r : room) : list output :=
  [Broadcast ROOM_PRESENCE_CLEAR
     (JObj [("roomId", JStr (roomId r)); ("hostPeerId", JStr (hostPeerId r)); ("timestamp", JNum clock)])].

(** [state] of an object literal: an undefined property is not sent. *)
Definition with_optional (name : string) (v : option json) : fields :=
  match v with Some j => [(name, j)] | None => [] end.

Definition sync_payload (d : document) (ack : fields) : json :=
  JObj (("docId", JStr (docId d)) :: with_optional "state" (doc_state d)
        ++ ("revision", JNum (revision d)) :: ack).

Definition broadcastSync (r : room) (d : document) : list output :=
  sendWireMany (memberPeerIds r) DOC_SYNC (sync_payload d []).

Definition change_event (d : document) (origin : string) : output :=
  Emit "change" (JObj (with_optional "state" (doc_state d)
                       ++ [("revision", JNum (revision d)); ("origin", JStr origin)])).

(** [_handleWire] of one document of a room: the document and what it sends and emits.
    [isHost] and the member list are the room's. *)
Definition doc_handleWire (r : room) (d : document) (w : wire) (from : string) (payload : option json)
    : document * list output :=
  let body := default JNull payload in
  if negb (truthy payload) || negb (bool_decide (prop payload "docId" = Some (JStr (docId d)))) then (d, [])
  else if bool_decide (w = DOC_SYNC) then
    let rev := number_or_zero (prop payload "revision") in
    let '(d1, out) :=
      if Z.leb (revision d) rev then
        let d1 := d <| doc_state := prop payload "state" |> <| revision := rev |> in
        (d1, [change_event d1 "remote"; Emit "remote-op" (JObj [("from", JStr from); ("payload", body)])])
      else (d, []) in
    (d1, out ++
      (if truthy (prop payload "ackOpId") then
         [Emit "op-ack" (JObj [("opId", JStr (string_or_empty (prop payload "ackOpId")));
                               ("applied", JBool (bool_decide (prop payload "ackApplied" = Some (JBool true))))])]
       else []))
  else if bool_decide (w = DOC_OP) && isHost r && negb (bool_decide (from = "")) then
    let opId := string_or_empty (prop payload "opId") in
    let '(d1, ok, changed) :=
      applyOpAsHost d (prop payload "op") (number_or_zero (prop payload "baseRevision")) from opId
        (string_or_empty (prop payload "replacesOpId")) in
    (d1,
     (if changed then change_event d1 "local" :: broadcastSync r d1 else [])
     ++ sendWire from DOC_SYNC
          (sync_payload d1
             (if bool_decide (opId = "") then []
              else [("ackOpId", JStr opId); ("ackApplied", JBool ok)])))
  else (d, []).

(** [SharedDocument.applyOp] at the host ([None] is a missing base revision) ... *)
Definition doc_applyOp_host (r : room) (d : document) (op : option json) (base : option Z)
    (opId replacesOpId : string) : document * bool * list output :=
  let '(d1, ok, changed) :=
    applyOpAsHost d op (default (revision d) base)
      (if bool_decide (selfPeerId r = "") then "(self)" else selfPeerId r) opId replacesOpId in
  (d1, ok, if changed then change_event d1 "local" :: broadcastSync r d1 else []).

(** ... and at a client, which forwards it. *)
Definition doc_applyOp_client (r : room) (d : document) (op : option json) (base : option Z)
    (opId replacesOpId : string) : list output :=
  sendWire (hostPeerId r) DOC_OP
    (JObj ([("docId", JStr (docId d)); ("baseRevision", JNum (default (revision d) base))]
           ++ with_optional "op" op
           ++ (if bool_decide (opId = "") then [] else [("opId", JStr opId)])
           ++ (if bool_decide (replacesOpId = "") then [] else [("replacesOpId", JStr replacesOpId)]))).

(** Every document of the room listens to the ['internal'] event. *)
Fixpoint docs_handleWire (r : room) (docs : list (string * document)) (w : wire) (from : string)
    (payload : option json) : list (string * document) * list output :=
  match docs with
  | [] => ([], [])
  | (id, d) :: rest =>
      let '(d1, out) := doc_handleWire r d w from payload in
      let '(rest1, more) := docs_handleWire r rest w from payload in
      ((id, d1) :: rest1, out ++ more)
  end.

(** ** The manager

    [invites] records, per room id, the peers an invitation was exchanged with. *)
Record manager := mk_manager {
  pluginId : string;
  manager_self : string;
  rooms : list (string * room);
  invites : list (string * list string);
  discovered : list (string * json)
}.

#[export] Instance manager_rebuild : Rebuild manager := fun m =>
  mk_manager (pluginId m) (manager_self m) (rooms m) (invites m) (discovered m).

Definition isInvited (m : manager) (peerId roomId : string) : bool :=
  includes (default [] (get (invites m) roomId)) peerId.

Definition recordInvite (m : manager) (roomId peerId : string) : manager :=
  if bool_decide (roomId = "") || bool_decide (peerId = "") then m
  else
    let invited := default [] (get (invites m) roomId) in
    m <| invites := set (invites m) roomId (if includes invited peerId then invited else invited ++ [peerId]) |>.

Definition removeRoom (m : manager) (roomId : string) : manager :=
  m <| rooms := del (rooms m) roomId |> <| invites := del (invites m) roomId |>.

Definition put_room (m : manager) (r : room) : manager := m <| rooms := set (rooms m) (roomId r) r |>.

(** [RealtimeRoom.leave]: the room is emptied and leaves the manager. *)
Definition leave (clock : Z) (m : manager) (r : room) : manager * list output :=
  if room_closed r then (m, [])
  else
    let out :=
      if isHost r then
        clearPresence clock r ++ sendWireMany (memberPeerIds r) ROOM_CLOSED (JObj [("roomId", JStr (roomId r))])
      else if bool_decide (hostPeerId r = "") then []
      else sendWire (hostPeerId r) ROOM_LEAVE
             (JObj [("roomId", JStr (roomId r)); ("peerId", JStr (selfPeerId r))]) in
    (removeRoom m (roomId r), out ++ [Emit "closed" (JObj [("roomId", JStr (roomId r))])]).

Definition member_json (entry : string * member) : json :=
  JObj (("peerId", JStr entry.1) :: with_optional "name" (member_name entry.2)
        ++ with_optional "joinedAt" (joinedAt entry.2)).

Definition closed_payload (id reason : string) : json :=
  JObj [("roomId", JStr id); ("reason", JStr reason)].

(** [_handleHostWire]: join and leave requests. *)
Definition handleHostWire (clock : Z) (m : manager) (r : room) (w : wire) (from : string)
    (payload : option json) : room * list output :=
  let reject (reason : string) :=
    sendWire from ROOM_JOIN_REJECT (JObj [("reason", JStr reason); ("roomId", JStr (roomId r))]) in
  match w with
  | ROOM_JOIN =>
      if Z.leb (maxPeers r) (Z.of_nat (length (members r))) then (r, reject "full")
      else if bool_decide (room_access r = INVITE) && negb (isInvited m from (roomId r)) then
        (r, reject "invite-required")
      else
        let name := if truthy (prop payload "name") then string_or_empty (prop payload "name") else from in
        let r1 := r <| members := set (members r) from (mk_member (Some (JStr name)) (Some (JNum clock))) |> in
        let joined := JObj [("peerId", JStr from); ("name", JStr name)] in
        (r1,
         sendWire from ROOM_JOIN_OK
           (JObj [("roomId", JStr (roomId r)); ("name", JStr (room_name r)); ("hostPeerId", JStr (hostPeerId r));
                  ("members", JArr (map member_json (members r1)))])
         ++ sendWireMany (base.filter (fun id => id <> from) (memberPeerIds r1)) ROOM_MSG
              (JObj [("type", JStr "peer-joined"); ("peerId", JStr from); ("name", JStr name)])
         ++ [Emit "peer-joined" joined]
         ++ (if bool_decide (room_access r = PUBLIC) then publishPresence clock r1 else [])
         ++ flat_map (fun d => sendWire from DOC_SYNC (sync_payload d.2 [])) (documents r1))
  | ROOM_LEAVE =>
      if has (members r) from then
        let r1 := r <| members := del (members r) from |> in
        (r1,
         [Emit "peer-left" (JObj [("peerId", JStr from)])]
         ++ room_broadcast r1 (JObj [("type", JStr "peer-left"); ("peerId", JStr from)])
         ++ (if bool_decide (room_access r = PUBLIC) then publishPresence clock r1 else []))
      else (r, [])
  | _ => (r, [])
  end.

(** The member list of a [room-join-ok]. *)
Definition joined_members (clock : Z) (payload : option json) : list (string * member) :=
  fold_left (fun acc item =>
      let id := prop (Some item) "peerId" in
      if truthy id then
        set acc (string_or_empty id)
          (mk_member (prop (Some item) "name")
             (if truthy (prop (Some item) "joinedAt") then prop (Some item) "joinedAt" else Some (JNum clock)))
      else acc)
    (default [] (as_array (prop payload "members"))) [].

(** [_handleClientWire]; [inr] is a room that [leave] has closed. *)
Definition handleClientWire (clock : Z) (m : manager) (r : room) (w : wire) (from : string)
    (payload : option json) : (room + manager) * list output :=
  let from_host := bool_decide (from = hostPeerId r) in
  if bool_decide (w = ROOM_JOIN_OK) && from_host then
    let r1 := r <| members := joined_members clock payload |> in
    (inl r1, [Emit "joined" (JObj [("roomId", JStr (roomId r)); ("members", JArr (map member_json (members r1)))])])
  else if bool_decide (w = ROOM_JOIN_REJECT) && from_host then
    let reason := if truthy (prop payload "reason") then default JNull (prop payload "reason") else JStr "unknown" in
    let '(m1, out) := leave clock m r in
    (inr m1, Emit "join-rejected" (JObj [("reason", reason)]) :: out)
  else if bool_decide (w = ROOM_CLOSED) && from_host then
    let '(m1, out) := leave clock m r in
    (inr m1, Emit "closed" (closed_payload (roomId r) "host-closed") :: out)
  else if bool_decide (w = ROOM_MSG) && bool_decide (prop payload "type" = Some (JStr "peer-joined")) then
    let id := string_or_empty (prop payload "peerId") in
    let name := if truthy (prop payload "name") then prop payload "name" else prop payload "peerId" in
    (inl (r <| members := set (members r) id (mk_member name (Some (JNum clock))) |>),
     [Emit "peer-joined" (JObj (with_optional "peerId" (prop payload "peerId") ++ with_optional "name" (prop payload "name")))])
  else if bool_decide (w = ROOM_MSG) && bool_decide (prop payload "type" = Some (JStr "peer-left")) then
    (inl (r <| members := del (members r) (string_or_empty (prop payload "peerId")) |>),
     [Emit "peer-left" (JObj (with_optional "peerId" (prop payload "peerId")))])
  else (inl r, []).

(** [_handleIncoming]. *)
Definition handleIncoming (clock : Z) (m : manager) (r : room) (w : wire) (from : string)
    (payload : option json) : manager * list output :=
  if room_closed r || bool_decide (from = "") then (m, [])
  else
    let '(docs, internal) := docs_handleWire r (documents r) w from payload in
    let r1 := r <| documents := docs |> in
    if bool_decide (w = ROOM_MSG) then
      (put_room m r1, internal ++ [Emit "message" (JObj (("from", JStr from) :: with_optional "payload" payload))])
    else if isHost r1 then
      let '(r2, out) := handleHostWire clock m r1 w from payload in (put_room m r2, internal ++ out)
    else
      let '(result, out) := handleClientWire clock (put_room m r1) r1 w from payload in
      (match result with inl r2 => put_room m r2 | inr m2 => m2 end, internal ++ out).

(** [_onPeerMessage]. *)
Definition onPeerMessage (clock : Z) (m : manager) (msg : json) : manager * list output :=
  match parseRealtimeMessage msg (pluginId m) with
  | None => (m, [])
  | Some p =>
      let payload := p_payload p in
      let id := p_room p in
      let from := default "" (p_from p) in
      if bool_decide (p_wire p = ROOM_PRESENCE) && truthy payload then
        if isPresenceStale clock (prop payload "timestamp") then (m, [])
        else
          let host := prop payload "hostPeerId" in
          let key := match host with Some h => to_string h | None => "undefined" end +:+ ":" +:+ id in
          let entry :=
            JObj [("roomId", JStr id);
                  ("hostPeerId", JStr (if truthy host then string_or_empty host else from));
                  ("name", JStr (if truthy (prop payload "name") then string_or_empty (prop payload "name") else "Room"));
                  ("memberCount", JNum (number_or_zero (prop payload "memberCount")));
                  ("timestamp", default JNull (prop payload "timestamp"))] in
          (m <| discovered := set (discovered m) key entry |>, [Emit "room-discovered" entry])
      else if bool_decide (p_wire p = ROOM_PRESENCE_CLEAR) then
        let host := if truthy (prop payload "hostPeerId") then string_or_empty (prop payload "hostPeerId") else from in
        (m <| discovered := del (discovered m) (host +:+ ":" +:+ id) |>,
         [Emit "room-closed" (JObj [("roomId", JStr id); ("hostPeerId", JStr host)])])
      else if bool_decide (p_wire p = ROOM_INVITE) && negb (bool_decide (from = "")) then
        (recordInvite m id from,
         [Emit "room-invite"
            (JObj ([("roomId", JStr id);
                    ("hostPeerId", if truthy (prop payload "hostPeerId")
                                   then default JNull (prop payload "hostPeerId") else JStr from)]
                   ++ with_optional "name" (prop payload "name") ++ [("from", JStr from)]))])
      else
        match get (rooms m) id with
        | Some r => handleIncoming clock m r (p_wire p) from payload
        | None => (m, [])
        end
  end.

(** [createRoom]; the id and the bounded fields are computed as there. *)
Definition createRoom (clock : Z) (m : manager) (id name : string) (a : access) (max : Z) : manager * list output :=
  if bool_decide (manager_self m = "") then (m, [])
  else if has (rooms m) id then (m, [])
  else
    let r := mk_room id (str_take 64 (if bool_decide (name = "") then "Room" else name)) a
               (Z.max 2 (Z.min 64 (if Z.eqb max 0 then 16 else max))) true (manager_self m) (manager_self m)
               [(manager_self m, mk_member (Some (JStr "host")) (Some (JNum clock)))] false [] in
    (put_room m r, if bool_decide (a = PUBLIC) then publishPresence clock r else []).

(** [joinRoom]: the client's side of the room, and the request. *)
Definition joinRoom (m : manager) (id host name : string) : manager * list output :=
  if bool_decide (manager_self m = "") || bool_decide (id = "") || bool_decide (host = "") then (m, [])
  else if has (rooms m) id then (m, [])
  else
    let r := mk_room id (str_take 64 (if bool_decide (name = "") then "Room" else name)) INVITE 16 false host
               (manager_self m) [] false [] in
    (put_room m r,
     sendWire host ROOM_JOIN
       (JObj [("roomId", JStr id); ("name", JStr (if bool_decide (name = "") then manager_self m else name));
              ("peerId", JStr (manager_self m))])).

(** [RealtimeRoom.invite]. *)
Definition invite (m : manager) (r : room) (peerId : string) : manager * bool * list output :=
  if negb (isHost r) || room_closed r || bool_decide (peerId = "") then (m, false, [])
  else
    (recordInvite m (roomId r) peerId, true,
     sendWire peerId ROOM_INVITE
       (JObj [("roomId", JStr (roomId r)); ("name", JStr (room_name r)); ("hostPeerId", JStr (hostPeerId r));
              ("access", JStr (access_name (room_access r)))])).

(** [createDocument]. *)
Definition createDocument (m : manager) (r : room) (id : string) (initial : option json) : manager * list output :=
  let docId := if bool_decide (id = "") then "default" else id in
  if has (documents r) docId then (m, [])
  else
    let d := new_document docId initial in
    if isHost r then
      let d1 := setState d (match initial with None | Some JNull => Some (JStr "") | _ => initial end) in
      let r1 := r <| documents := set (documents r) docId d1 |> in
      (put_room m r1, change_event d1 "local" :: broadcastSync r1 d1)
    else (put_room m (r <| documents := set (documents r) docId d |>), []).
