(* ===== verification/RealtimeFacts.v ===== *)
(** * Realtime rooms and shared documents: facts about [Realtime.v] *)

From S2P Require Import Prelude Json Realtime.

(** ** Text as a list of characters *)

Abbreviation chars := String.list_ascii_of_string.

Lemma chars_app a b : chars (a +:+ b) = chars a ++ chars b.
Proof.
  induction a as [|c a IH]; [done|].
  change (chars (String c a +:+ b)) with (c :: chars (a +:+ b)). by rewrite IH.
Qed.

Lemma chars_length s : length (chars s) = String.length s.
Proof. induction s; simpl; congruence. Qed.

Lemma chars_take n s : chars (str_take n s) = take n (chars s).
Proof. revert s. induction n; intros [|c s]; simpl; try done. by rewrite IHn. Qed.

Lemma chars_drop n s : chars (str_drop n s) = drop n (chars s).
Proof. revert s. induction n; intros [|c s]; simpl; done. Qed.

Lemma chars_inj a b : chars a = chars b -> a = b.
Proof. revert b. induction a; intros [|c b]; simpl; intros; simplify_eq; f_equal; auto. Qed.

Lemma length_append a b : String.length (a +:+ b) = (String.length a + String.length b)%nat.
Proof. by rewrite <- !chars_length, chars_app, length_app. Qed.

(** What an operation does to the characters. *)
Definition edit (op : text_op) (l : list ascii) : list ascii :=
  match op with
  | Insert pos text => take (Z.to_nat pos) l ++ chars text ++ drop (Z.to_nat pos) l
  | Delete pos len => take (Z.to_nat pos) l ++ drop (Z.to_nat (pos + len)) l
  end.

(** An operation that fits a text. *)
Definition fits_text (op : text_op) (l : list ascii) : Prop :=
  match op with
  | Insert pos _ => 0 <= pos <= Z.of_nat (length l)
  | Delete pos len => 0 <= pos /\ 0 <= len /\ pos + len <= Z.of_nat (length l)
  end.

Lemma applyTextOp_edit op text : fits_text op (chars text) ->
  chars (applyTextOp text (op_json op)) = edit op (chars text).
Proof.
  unfold fits_text. rewrite chars_length. intros H. destruct op as [pos ins|pos len]; simpl;
    unfold applyTextOp, type_of; simpl; rewrite ?chars_app, !chars_take, ?chars_drop.
  - replace (Z.max 0 (Z.min pos (Z.of_nat (String.length text)))) with pos by lia. done.
  - replace (Z.max 0 (Z.min pos (Z.of_nat (String.length text)))) with pos by lia.
    by replace (Z.max 0 len) with len by lia.
Qed.

(** Edits at explicit places. *)
Lemma edit_insert_at a b pos text : pos = Z.of_nat (length a) ->
  edit (Insert pos text) (a ++ b) = a ++ chars text ++ b.
Proof. intros ->. simpl. by rewrite Nat2Z.id, take_app_length, drop_app_length. Qed.

Lemma edit_delete_at a b c pos len : pos = Z.of_nat (length a) -> len = Z.of_nat (length b) ->
  edit (Delete pos len) (a ++ b ++ c) = a ++ c.
Proof.
  intros -> ->. simpl. rewrite Nat2Z.id, take_app_length. f_equal.
  rewrite app_assoc. apply drop_app_length'. rewrite length_app. lia.
Qed.

(** A text cut at two places, in order. *)
Lemma cut2 (l : list ascii) p q : 0 <= p <= q -> q <= Z.of_nat (length l) ->
  exists a b c, l = a ++ b ++ c /\ p = Z.of_nat (length a) /\ q = Z.of_nat (length a + length b).
Proof.
  intros Hp Hq. exists (take (Z.to_nat p) l), (drop (Z.to_nat p) (take (Z.to_nat q) l)), (drop (Z.to_nat q) l).
  split_and!.
  - rewrite app_assoc. rewrite <- (take_drop (Z.to_nat q) l) at 1. f_equal.
    rewrite <- (take_drop (Z.to_nat p) (take (Z.to_nat q) l)) at 1. by rewrite take_take, Nat.min_l by lia.
  - rewrite length_take. lia.
  - rewrite length_take, length_drop, length_take. lia.
Qed.

Lemma cut3 (l : list ascii) p q r : 0 <= p <= q -> q <= r -> r <= Z.of_nat (length l) ->
  exists a b c d, l = a ++ b ++ c ++ d /\ p = Z.of_nat (length a) /\
    q = Z.of_nat (length a + length b) /\ r = Z.of_nat (length a + length b + length c).
Proof.
  intros Hp Hq Hr. destruct (cut2 l p q) as (a & b & x & -> & -> & ->); [lia|lia|].
  rewrite !length_app in Hr.
  destruct (cut2 x 0 (r - Z.of_nat (length a + length b))) as (e & c & d & -> & He & Er); [lia|lia|].
  destruct e; [|done]. simpl in *. exists a, b, c, d. split_and!; try done; lia.
Qed.

Lemma cut4 (l : list ascii) p q r s : 0 <= p <= q -> q <= r <= s -> s <= Z.of_nat (length l) ->
  exists a b c d e, l = a ++ b ++ c ++ d ++ e /\ p = Z.of_nat (length a) /\
    q = Z.of_nat (length a + length b) /\ r = Z.of_nat (length a + length b + length c) /\
    s = Z.of_nat (length a + length b + length c + length d).
Proof.
  intros Hp Hq Hs. destruct (cut3 l p q r) as (a & b & c & x & -> & -> & -> & ->); [lia..|].
  rewrite !length_app in Hs.
  destruct (cut2 x 0 (s - Z.of_nat (length a + length b + length c))) as (y & d & e & -> & Hy & Er); [lia|lia|].
  destruct y; [|done]. simpl in *. exists a, b, c, d, e. split_and!; try done; lia.
Qed.

(** Two insertions at the same place. *)
Definition tie (a b : text_op) : bool :=
  match a, b with Insert p _, Insert q _ => Z.eqb p q | _, _ => false end.

(** An operation that the host has already applied, moved past an edit [mine] that is to come
    first: of two insertions at one place the applied one stays in front. *)
Definition past (mine o : text_op) : option text_op := if tie mine o then Some o else transformTextOp o mine.

(** Both orders of two concurrent operations. *)
Definition diamond (x y x' y' : text_op) (l : list ascii) : Prop :=
  edit x' (edit y l) = edit y' (edit x l) /\ fits_text x' (edit y l) /\ fits_text y' (edit x l).

Lemma diamond_sym x y x' y' l : diamond y x y' x' l -> diamond x y x' y' l.
Proof. unfold diamond. intros (?&?&?). done. Qed.

Ltac at_place :=
  repeat match goal with
  | |- context [edit (Insert ?p ?t) (?a ++ ?b)] => rewrite (edit_insert_at a b p t) by (rewrite ?length_app; lia)
  end.

Lemma diamond_insert_insert p s q t l : 0 <= p < q -> q <= Z.of_nat (length l) ->
  diamond (Insert p s) (Insert q t) (Insert p s) (Insert (q + Z.of_nat (String.length s)) t) l.
Proof.
  intros Hp Hq. destruct (cut2 l p q) as (a & b & c & -> & -> & ->); [lia|lia|].
  assert (edit (Insert (Z.of_nat (length a + length b)) t) (a ++ b ++ c) = a ++ b ++ chars t ++ c) as E1.
  { rewrite app_assoc, edit_insert_at by (rewrite length_app; lia). by rewrite <- app_assoc. }
  assert (edit (Insert (Z.of_nat (length a)) s) (a ++ b ++ c) = a ++ chars s ++ b ++ c) as E2
    by by apply edit_insert_at.
  unfold diamond. rewrite E1, E2, edit_insert_at by done.
  replace (a ++ chars s ++ b ++ c) with ((a ++ chars s ++ b) ++ c) by by rewrite <- !app_assoc.
  rewrite edit_insert_at by (rewrite !length_app, chars_length; lia).
  rewrite <- !app_assoc. split_and!; [done|..]; simpl; rewrite !length_app, ?chars_length; lia.
Qed.

Lemma diamond_insert_before_delete p s q m l : 0 <= p <= q -> 0 <= m -> q + m <= Z.of_nat (length l) ->
  diamond (Insert p s) (Delete q m) (Insert p s) (Delete (q + Z.of_nat (String.length s)) m) l.
Proof.
  intros Hp Hm Hq. destruct (cut3 l p q (q + m)) as (a & b & c & d & -> & -> & -> & Em); [lia..|].
  assert (m = Z.of_nat (length c)) as -> by lia. clear Em.
  assert (edit (Delete (Z.of_nat (length a + length b)) (Z.of_nat (length c))) (a ++ b ++ c ++ d) = a ++ b ++ d) as E1.
  { rewrite app_assoc, edit_delete_at by (rewrite ?length_app; lia). by rewrite <- app_assoc. }
  assert (edit (Insert (Z.of_nat (length a)) s) (a ++ b ++ c ++ d) = a ++ chars s ++ b ++ c ++ d) as E2
    by by apply edit_insert_at.
  unfold diamond. rewrite E1, E2, edit_insert_at by done.
  replace (a ++ chars s ++ b ++ c ++ d) with ((a ++ chars s ++ b) ++ c ++ d) by by rewrite <- !app_assoc.
  rewrite edit_delete_at by (rewrite ?length_app, ?chars_length; lia).
  rewrite <- !app_assoc. split_and!; [done|..]; simpl; rewrite !length_app, ?chars_length; lia.
Qed.

Lemma diamond_insert_after_delete p s q m l : 0 <= q -> 0 <= m -> q + m <= p <= Z.of_nat (length l) ->
  diamond (Insert p s) (Delete q m) (Insert (p - m) s) (Delete q m) l.
Proof.
  intros Hq Hm Hp. destruct (cut3 l q (q + m) p) as (a & b & c & d & -> & -> & Em & Ep); [lia..|].
  assert (m = Z.of_nat (length b)) as -> by lia. assert (p = Z.of_nat (length (a ++ b ++ c))) as -> by (rewrite !length_app; lia).
  clear Em Ep.
  assert (edit (Delete (Z.of_nat (length a)) (Z.of_nat (length b))) (a ++ b ++ c ++ d) = a ++ c ++ d) as E1
    by by apply edit_delete_at.
  assert (edit (Insert (Z.of_nat (length (a ++ b ++ c))) s) (a ++ b ++ c ++ d) = a ++ b ++ c ++ chars s ++ d) as E2.
  { replace (a ++ b ++ c ++ d) with ((a ++ b ++ c) ++ d) by by rewrite <- !app_assoc.
    rewrite edit_insert_at by done. by rewrite <- !app_assoc. }
  unfold diamond. rewrite E1, E2, edit_delete_at by done.
  rewrite (app_assoc a c d), edit_insert_at by (rewrite !length_app; lia).
  rewrite <- !app_assoc. split_and!; [done|..]; simpl; rewrite !length_app, ?chars_length; lia.
Qed.

Lemma diamond_delete_delete p n q m l : 0 <= p -> 0 <= n -> 0 <= m -> p + n <= q -> q + m <= Z.of_nat (length l) ->
  diamond (Delete p n) (Delete q m) (Delete p n) (Delete (q - n) m) l.
Proof.
  intros Hp Hn Hm Hq Hl. destruct (cut4 l p (p + n) q (q + m)) as (a & b & c & d & e & -> & -> & En & Eq & Em); [lia..|].
  assert (n = Z.of_nat (length b)) as -> by lia. assert (m = Z.of_nat (length d)) as -> by lia.
  assert (q = Z.of_nat (length (a ++ b ++ c))) as -> by (rewrite !length_app; lia). clear En Eq Em.
  assert (edit (Delete (Z.of_nat (length a)) (Z.of_nat (length b))) (a ++ b ++ c ++ d ++ e) = a ++ c ++ d ++ e) as E1
    by by apply edit_delete_at.
  assert (edit (Delete (Z.of_nat (length (a ++ b ++ c))) (Z.of_nat (length d))) (a ++ b ++ c ++ d ++ e)
          = a ++ b ++ c ++ e) as E2.
  { replace (a ++ b ++ c ++ d ++ e) with ((a ++ b ++ c) ++ d ++ e) by by rewrite <- !app_assoc.
    rewrite edit_delete_at by done. by rewrite <- !app_assoc. }
  unfold diamond. rewrite E1, E2, edit_delete_at by done.
  rewrite (app_assoc a c (d ++ e)), edit_delete_at by (rewrite ?length_app; lia).
  rewrite <- !app_assoc. split_and!; [done|..]; simpl; rewrite !length_app; lia.
Qed.

Lemma diamond_tie p s t l : 0 <= p <= Z.of_nat (length l) ->
  diamond (Insert p s) (Insert p t) (Insert (p + Z.of_nat (String.length t)) s) (Insert p t) l.
Proof.
  intros Hp. destruct (cut2 l p p) as (a & b & c & -> & -> & Eb); [lia|lia|].
  destruct b; [|simpl in Eb; lia]. simpl app in *. clear Eb Hp.
  assert (forall u b, edit (Insert (Z.of_nat (length a)) u) (a ++ b) = a ++ chars u ++ b) as E by (intros; by apply edit_insert_at).
  unfold diamond. rewrite !E, (app_assoc a (chars t) c), edit_insert_at by (rewrite length_app, chars_length; lia).
  rewrite <- !app_assoc. split_and!; [done|..]; simpl; rewrite !length_app, ?chars_length; lia.
Qed.

(** The diamond of an edit and an operation that was applied. *)
Lemma transform_diamond x y x' y' l :
  fits_text x l -> fits_text y l ->
  transformTextOp x y = Some x' -> past x y = Some y' -> diamond x y x' y' l.
Proof.
  unfold past. destruct x as [p s|p n], y as [q t|q m]; simpl; intros Hx Hy Ex Ey.
  - destruct (Z.eqb_spec p q) as [->|Hne].
    + rewrite Z.leb_refl in Ex. simplify_eq. by apply diamond_tie.
    + destruct (Z.leb_spec q p), (Z.leb_spec p q); simplify_eq; try lia.
      * apply diamond_sym, diamond_insert_insert; lia.
      * apply diamond_insert_insert; lia.
  - destruct (Z.leb_spec p q); simplify_eq; [by apply diamond_insert_before_delete; lia|].
    destruct (Z.leb_spec (q + m) p); simplify_eq. apply diamond_insert_after_delete; lia.
  - apply diamond_sym. destruct (Z.leb_spec q p); simplify_eq; [by apply diamond_insert_before_delete; lia|].
    destruct (Z.leb_spec (p + n) q); simplify_eq. apply diamond_insert_after_delete; lia.
  - destruct (Z.leb_spec (p + n) q), (Z.leb_spec (q + m) p); simplify_eq.
    + assert (n = 0) as -> by lia. assert (m = 0) as -> by lia. assert (p = q) as -> by lia.
      unfold diamond. destruct (cut2 l q q) as (a & b & c & -> & -> & Eb); [lia..|].
      destruct b; [|simpl in Eb; lia]. simpl app. clear Eb.
      assert (edit (Delete (Z.of_nat (length a)) 0) (a ++ c) = a ++ c) as -> by by apply (edit_delete_at a [] c).
      done.
    + apply diamond_delete_delete; lia.
    + apply diamond_sym, diamond_delete_delete; lia.
Qed.

(** An insertion inside a deleted range, or two deletions that overlap. *)
Definition overlap (a b : text_op) : bool :=
  match a, b with
  | Insert _ _, Insert _ _ => false
  | Insert p _, Delete q m | Delete q m, Insert p _ => Z.ltb q p && Z.ltb p (q + m)
  | Delete p n, Delete q m => Z.ltb q (p + n) && Z.ltb p (q + m)
  end.

Lemma transform_overlap x y : transformTextOp x y = None <-> overlap x y = true.
Proof.
  destruct x as [p s|p n], y as [q t|q m]; simpl; rewrite ?andb_true_iff, ?Z.ltb_lt;
    repeat (case_match; bool_cases); split; intros; try done; lia.
Qed.

Lemma past_overlap x y : past x y = None <-> overlap y x = true.
Proof.
  unfold past. destruct (tie x y) eqn:Ht; [|apply transform_overlap].
  destruct x, y; simpl in *; done.
Qed.

Lemma overlap_sym x y : overlap x y = overlap y x.
Proof. destruct x, y; simpl; try done. apply andb_comm. Qed.

(** ** Rebasing over several operations *)

Definition edits (ops : list text_op) (l : list ascii) : list ascii := fold_left (fun l o => edit o l) ops l.

(** The operations of the log as they read after [mine]. *)
Fixpoint dual (mine : text_op) (ops : list text_op) : list text_op :=
  match ops with
  | [] => []
  | o :: rest =>
      match past mine o, transformTextOp mine o with
      | Some o', Some mine' => o' :: dual mine' rest
      | _, _ => []
      end
  end.

(** [mine], moved past the operations before, overlaps one of them. *)
Fixpoint clashes (mine : text_op) (ops : list text_op) : bool :=
  match ops with
  | [] => false
  | o :: rest => overlap mine o || match transformTextOp mine o with Some mine' => clashes mine' rest | None => false end
  end.

(** Each operation fits the text it was applied to. *)
Fixpoint all_fit (ops : list text_op) (l : list ascii) : Prop :=
  match ops with
  | [] => True
  | o :: rest => fits_text o l /\ all_fit rest (edit o l)
  end.

Lemma rebase_none ops : rebase_over None ops = None.
Proof. by destruct ops. Qed.

Lemma rebase_dual ops : forall mine l, fits_text mine l -> all_fit ops l ->
  if clashes mine ops then rebase_over (Some mine) (map Some ops) = None
  else exists mine', rebase_over (Some mine) (map Some ops) = Some mine'
    /\ edit mine' (edits ops l) = edits (dual mine ops) (edit mine l) /\ fits_text mine' (edits ops l).
Proof.
  induction ops as [|o ops IH]; intros mine l Hf Hc; simpl in *; [by eauto|].
  destruct Hc as (Ho & Hc). destruct (overlap mine o) eqn:Eo; simpl.
  { apply transform_overlap in Eo as ->. by destruct ops. }
  destruct (transformTextOp mine o) as [m1|] eqn:E1; [|apply transform_overlap in E1; congruence].
  destruct (past mine o) as [o1|] eqn:E2; [|apply past_overlap in E2; rewrite overlap_sym in E2; congruence].
  destruct (transform_diamond mine o m1 o1 l) as (Hd & Hf1 & _); try done.
  specialize (IH m1 (edit o l) Hf1 Hc). destruct (clashes m1 ops); [done|].
  destruct IH as (mine' & E3 & E4 & Hf'). exists mine'. split; [done|]. split; [|done]. simpl. by rewrite E4, Hd.
Qed.

Lemma normalize_op_json op : (match op with Insert p _ => 0 <= p | Delete p n => 0 <= p /\ 0 <= n end) ->
  normalizeTextOp (Some (op_json op)) = Some op.
Proof.
  destruct op as [p s|p n]; intros H; unfold normalizeTextOp, type_of; simpl.
  - by rewrite Z.max_r by lia.
  - by rewrite !Z.max_r by lia.
Qed.

(** The documents a log of text operations describes: [base] characters at revision
    [revision d - length ops], then [ops]. *)
Definition logged_since (d : document) (base : list ascii) (ops : list text_op) : Prop :=
  exists text, doc_state d = Some (JStr text) /\ chars text = edits ops base /\
    base.filter (fun e : Z * option text_op => revision d - Z.of_nat (length ops) < e.1) (opLog d) =
      zip (seqZ (revision d - Z.of_nat (length ops) + 1) (Z.of_nat (length ops))) (map Some ops).

(** The sender has neither sent [opId] before nor had the operation that this one replaces applied. *)
Definition fresh_op (d : document) (from opId replacesOpId : string) : Prop :=
  let seen := default [] (get (seenOps d) from) in
  (opId = "" \/ has seen opId = false) /\ (replacesOpId = "" \/ get seen replacesOpId <> Some true).

Lemma remember_frame d from opId v :
  revision (rememberOp d from opId v) = revision d /\ doc_state (rememberOp d from opId v) = doc_state d
  /\ opLog (rememberOp d from opId v) = opLog d.
Proof. unfold rememberOp. by case_bool_decide. Qed.

(** C16: an edit made on an old revision takes effect as if it had come first, or not at all.
    The text was [base] at the revision the edit names, and [ops] were applied since.  When the
    edit, moved past them one by one, overlaps none of them (no insertion falls inside a
    deletion, no two deletions overlap), the host's new text is the one obtained by applying the
    edit to [base] and then those operations, each moved past the edit; of two insertions at one
    place the one applied already stays in front.  When it overlaps one, it is refused and text,
    revision and log stay.  Operations already answered for the same id are not covered. *)
Theorem stale_edit_as_if_first d base ops mine from opId replacesOpId :
  logged_since d base ops -> fits_text mine base -> all_fit ops base -> fresh_op d from opId replacesOpId ->
  let '(d', ok, changed) :=
    applyOpAsHost d (Some (op_json mine)) (revision d - Z.of_nat (length ops)) from opId replacesOpId in
  if clashes mine ops
  then ok = false /\ changed = false /\ doc_state d' = doc_state d /\ revision d' = revision d /\ opLog d' = opLog d
  else ok = true /\ changed = true /\ revision d' = revision d + 1 /\
    exists text', doc_state d' = Some (JStr text') /\ chars text' = edits (dual mine ops) (edit mine base).
Proof.
  intros (text & Hs & Ht & Hlog) Hf Hc [Hid Hrep]. pose proof (rebase_dual ops mine base Hf Hc) as Hreb.
  unfold applyOpAsHost. set (seen := default [] (get (seenOps d) from)) in *.
  replace (negb (bool_decide (opId = "")) && has seen opId) with false
    by (destruct Hid as [-> | ->]; [done|by rewrite andb_false_r]).
  replace (negb (bool_decide (replacesOpId = "")) && bool_decide (get seen replacesOpId = Some true)) with false
    by (destruct Hrep as [->|Hr]; [done|by rewrite (bool_decide_eq_false_2 _ Hr), andb_false_r]).
  set (d1 := if _ && _ then _ else d).
  assert (revision d1 = revision d /\ doc_state d1 = doc_state d /\ opLog d1 = opLog d) as (E2 & E1 & E3)
    by (subst d1; destruct (_ && _); [apply remember_frame|done]).
  clearbody d1. rewrite E1, E2, Hs. cbn [is_string].
  assert (rebaseOp d1 (Some (op_json mine)) (revision d - Z.of_nat (length ops)) = rebase_over (Some mine) (map Some ops)) as Er.
  { unfold rebaseOp. rewrite E2, E3, (proj2 (Z.ltb_ge _ _)) by lia. rewrite Hlog.
    assert (length (seqZ (revision d - Z.of_nat (length ops) + 1) (Z.of_nat (length ops))) = length (map (@Some text_op) ops))
      as Hl by (rewrite length_seqZ, length_map; lia).
    rewrite length_zip_with_r_eq, length_map by done.
    rewrite (proj2 (Z.eqb_eq _ _)) by lia. cbn [negb].
    rewrite normalize_op_json by (destruct mine; simpl in Hf; lia).
    by rewrite snd_zip by (rewrite Hl; done). }
  rewrite Er. replace (if Z.eqb _ _ then _ else _) with (option_map op_json (rebase_over (Some mine) (map Some ops))).
  2: { destruct (Z.eqb_spec (revision d - Z.of_nat (length ops)) (revision d)) as [Eq|]; [|done]. destruct ops; [done|simpl in Eq; lia]. }
  destruct (clashes mine ops).
  - rewrite Hreb. cbn [option_map effect_on]. destruct (remember_frame d1 from opId false) as (-> & -> & ->). by rewrite E1, Hs.
  - destruct Hreb as (mine' & -> & He & Hfit). cbn [option_map effect_on].
    assert (is_js_object (op_json mine') && truthy (type_of (op_json mine')) = true) as -> by by destruct mine'.
    match goal with |- context [rememberOp ?x from opId true] => destruct (remember_frame x from opId true) as (-> & -> & _) end.
    split_and!; [done..|]. eexists. split; [done|]. rewrite <- Ht in *. by rewrite applyTextOp_edit.
Qed.

(** ** Repetitions *)

(** [id] is remembered with answer [v], with at most [k] younger entries. *)
Definition remembered (id : string) (v : bool) (k : nat) (seen : list (string * bool)) : Prop :=
  exists older younger, seen = older ++ (id, v) :: younger /\ id ∉ map fst older /\ (length younger <= k)%nat.

Lemma get_app_notin {A} (l m : list (string * A)) id : id ∉ map fst l -> get (l ++ m) id = get m id.
Proof.
  induction l as [|[k v] l IH]; simpl; [done|]. rewrite not_elem_of_cons. intros [Hne Hn].
  rewrite bool_decide_eq_false_2 by congruence. auto.
Qed.

Lemma remembered_get id v k seen : remembered id v k seen -> get seen id = Some v.
Proof.
  intros (older & younger & -> & Hn & _). rewrite get_app_notin by done. simpl.
  by rewrite bool_decide_eq_true_2.
Qed.

Lemma set_app_in {A} (l m : list (string * A)) id v : id ∈ map fst l -> set (l ++ m) id v = set l id v ++ m.
Proof.
  induction l as [|[k x] l IH]; simpl; [by rewrite elem_of_nil|]. rewrite elem_of_cons. intros Hin.
  case_bool_decide as E; [done|]. rewrite IH; [done|]. destruct Hin; [congruence|done].
Qed.

Lemma set_app_notin {A} (l m : list (string * A)) id v : id ∉ map fst l -> set (l ++ m) id v = l ++ set m id v.
Proof.
  induction l as [|[k x] l IH]; simpl; [done|]. rewrite not_elem_of_cons. intros [Hne Hin].
  rewrite bool_decide_eq_false_2 by congruence. by rewrite IH.
Qed.

Lemma set_new {A} (l : list (string * A)) id v : id ∉ map fst l -> set l id v = l ++ [(id, v)].
Proof.
  induction l as [|[k x] l IH]; simpl; [done|]. rewrite not_elem_of_cons. intros [? ?].
  rewrite bool_decide_eq_false_2 by congruence. by rewrite IH.
Qed.

Lemma set_present_length {A} (l : list (string * A)) id v : id ∈ map fst l -> length (set l id v) = length l.
Proof.
  induction l as [|[k x] l IH]; simpl; [by rewrite elem_of_nil|].
  rewrite elem_of_cons. intros Hin. case_bool_decide; simpl; [done|]. rewrite IH; [done|].
  destruct Hin; [congruence|done].
Qed.

Lemma has_fst {A} (l : list (string * A)) id : has l id = true <-> id ∈ map fst l.
Proof.
  unfold has. destruct (get l id) eqn:E.
  - split; [|done]. intros _. apply dec_stable. rewrite <- get_None. congruence.
  - apply get_None in E. split; [done|]. done.
Qed.

(** Remembering another id leaves it at most one place older. *)
Lemma remembered_step id v k seen id' v' : remembered id v k seen -> (k < 15)%nat -> id' <> id ->
  remembered id v (S k)
    (set (if negb (has seen id') && Nat.leb SEEN_OPS_PER_PEER (length seen) then tail seen else seen) id' v').
Proof.
  intros (older & younger & -> & Hn & Hk) Hlt Hne.
  destruct (has (older ++ (id, v) :: younger) id') eqn:Eh; cbn [negb andb].
  - apply has_fst in Eh. destruct (decide (id' ∈ map fst older)) as [Hin|Hin].
    + rewrite set_app_in by done. exists (set older id' v'), younger. split_and!; [done| |lia].
      rewrite set_fst. naive_solver.
    + rewrite set_app_notin by done. simpl. rewrite bool_decide_eq_false_2 by congruence. exists older, (set younger id' v').
      split_and!; [done|done|]. rewrite set_present_length; [lia|].
      rewrite map_app, elem_of_app in Eh. simpl in Eh. rewrite elem_of_cons in Eh. tauto.
  - apply not_true_iff_false in Eh. rewrite has_fst, map_app, elem_of_app in Eh. simpl in Eh.
    rewrite elem_of_cons in Eh.
    assert (forall l, (forall x, x ∈ map fst l -> x ∈ map fst older) ->
      set (l ++ (id, v) :: younger) id' v' = l ++ (id, v) :: younger ++ [(id', v')]) as Hset.
    { intros l Hl. rewrite set_app_notin by (intros ?%Hl; tauto). simpl.
      rewrite bool_decide_eq_false_2 by congruence. rewrite set_new; [done|tauto]. }
    destruct (Nat.leb_spec SEEN_OPS_PER_PEER (length (older ++ (id, v) :: younger))) as [Hl|Hl].
    + rewrite length_app in Hl. unfold SEEN_OPS_PER_PEER in Hl. simpl in Hl.
      destruct older as [|o older]; [simpl in Hl; lia|]. simpl tail.
      exists older, (younger ++ [(id', v')]). simpl in Hn.
      rewrite not_elem_of_cons in Hn. split_and!; [|tauto|rewrite ?length_app; simpl; lia]. apply Hset. intros x Hx. simpl. by right.
    + exists older, (younger ++ [(id', v')]). split_and!; [|done|rewrite ?length_app; simpl; lia]. by apply Hset.
Qed.

Definition seen_by (d : document) (from : string) : list (string * bool) := default [] (get (seenOps d) from).

Lemma seen_by_remember d from opId v from' :
  seen_by (rememberOp d from' opId v) from =
  if decide (from' = from /\ opId <> "") then
    set (if negb (has (seen_by d from) opId) && Nat.leb SEEN_OPS_PER_PEER (length (seen_by d from))
         then tail (seen_by d from) else seen_by d from) opId v
  else seen_by d from.
Proof.
  unfold rememberOp, seen_by. case_bool_decide as E; [by rewrite decide_False by tauto|]. simpl.
  rewrite get_set. destruct (decide (from' = from)) as [->|Hne].
  - by rewrite decide_True.
  - by rewrite decide_False by tauto.
Qed.

Record call := mk_call {
  call_op : option json; call_base : Z; call_from : string; call_id : string; call_replaces : string
}.

Definition run_call (d : document) (c : call) : document * bool * bool :=
  applyOpAsHost d (call_op c) (call_base c) (call_from c) (call_id c) (call_replaces c).

Definition run_calls (d : document) (calls : list call) : document :=
  fold_left (fun d c => (run_call d c).1.1) calls d.

Lemma remember_keeps id v k d from id' v' :
  remembered id v k (seen_by d from) -> (k < 15)%nat -> id' <> id ->
  remembered id v (S k) (seen_by (rememberOp d from id' v') from).
Proof.
  intros Hr Hk Hd. rewrite seen_by_remember. destruct (decide _) as [[_ Hi]|Hi]; [by apply remembered_step|].
  destruct Hr as (o & y & -> & ? & ?). exists o, y. split_and!; [done|done|lia].
Qed.

Lemma remembered_weaken id v k k' seen : remembered id v k seen -> (k <= k')%nat -> remembered id v k' seen.
Proof. intros (o & y & -> & ? & ?) ?. exists o, y. split_and!; [done|done|lia]. Qed.

Lemma call_other d from c : call_from c <> from -> seen_by (run_call d c).1.1 from = seen_by d from.
Proof.
  intros Hne. unfold run_call, applyOpAsHost.
  assert (forall d' i b, seen_by (rememberOp d' (call_from c) i b) from = seen_by d' from) as Hr.
  { intros. by rewrite seen_by_remember, decide_False by tauto. }
  case_match; [done|]. case_match; [by rewrite <- (Hr d (call_id c) false)|].
  set (d1 := if _ && _ then _ else d).
  assert (seen_by d1 from = seen_by d from) as H1 by (unfold d1; case_match; [apply Hr|done]).
  destruct (effect_on _ _); simpl; rewrite Hr; done.
Qed.

Lemma call_keeps id v k d c : let from := call_from c in
  remembered id v k (seen_by d from) -> (k + 1 < 15)%nat ->
  remembered id v (k + 2) (seen_by (run_call d c).1.1 from).
Proof.
  intros from Hr Hk. unfold run_call, applyOpAsHost. fold from. fold (seen_by d from).
  set (oid := call_id c). set (rid := call_replaces c).
  assert (has (seen_by d from) id = true) as Hhas by (unfold has; by rewrite (remembered_get _ _ _ _ Hr)).
  destruct (negb (bool_decide (oid = "")) && has (seen_by d from) oid) eqn:E1.
  { eapply remembered_weaken; [done|lia]. }
  assert (oid = "" \/ oid <> id) as Hoid.
  { apply andb_false_iff in E1 as [E1|E1]; [apply negb_false_iff, bool_decide_eq_true_1 in E1; by left|].
    right. intros ->. congruence. }
  assert (forall d' b k', remembered id v k' (seen_by d' from) -> (k' < 15)%nat ->
    remembered id v (S k') (seen_by (rememberOp d' from oid b) from)) as Hrem.
  { intros d' b k' Hr' Hk'. destruct Hoid as [->|Hoid]; [|by apply remember_keeps].
    rewrite seen_by_remember, decide_False by tauto. eapply remembered_weaken; [done|lia]. }
  destruct (negb (bool_decide (rid = "")) && bool_decide (get (seen_by d from) rid = Some true)) eqn:E2.
  { simpl. eapply remembered_weaken; [apply (Hrem d false k); [done|lia]|lia]. }
  set (d1 := if _ && _ then _ else d).
  assert (remembered id v (S k) (seen_by d1 from)) as Hd1.
  { unfold d1. destruct (negb (bool_decide (rid = "")) && negb (has (seen_by d from) rid)) eqn:E3;
      [|eapply remembered_weaken; [exact Hr|lia]].
    apply remember_keeps; [done|lia|]. apply andb_true_iff in E3 as [_ E3]. apply negb_true_iff in E3.
    intros ->. congruence. }
  replace (k + 2)%nat with (S (S k)) by lia. destruct (effect_on _ _) as [state|]; simpl; apply Hrem; done || lia.
Qed.

Definition calls_from (from : string) (calls : list call) : nat :=
  length (base.filter (fun c => call_from c = from) calls).

Lemma calls_keep id v calls : forall k d from,
  remembered id v k (seen_by d from) -> (k + 2 * calls_from from calls < 16)%nat ->
  exists k', remembered id v k' (seen_by (run_calls d calls) from).
Proof.
  unfold calls_from. induction calls as [|c calls IH]; intros k d from Hr Hk; simpl in *; [eauto|].
  rewrite filter_cons in Hk. destruct (decide (call_from c = from)) as [<-|Hf]; simpl in Hk.
  - apply (IH (k + 2)%nat); [|lia]. apply call_keeps; [done|lia].
  - apply (IH k); [|done]. by rewrite call_other.
Qed.

(** What a call that is not a repetition leaves remembered. *)
Lemma call_remembers d c : call_id c <> "" -> has (seen_by d (call_from c)) (call_id c) = false ->
  call_replaces c <> call_id c ->
  remembered (call_id c) (run_call d c).1.2 0 (seen_by (run_call d c).1.1 (call_from c)).
Proof.
  intros Hid Hnew Hrepl.
  assert (forall d' b, has (seen_by d' (call_from c)) (call_id c) = false ->
    remembered (call_id c) b 0 (seen_by (rememberOp d' (call_from c) (call_id c) b) (call_from c))) as Hrem.
  { intros d' b Hn. rewrite seen_by_remember, decide_True by done. rewrite Hn. cbn [negb andb].
    apply not_true_iff_false in Hn. rewrite has_fst in Hn.
    set (s := if Nat.leb SEEN_OPS_PER_PEER (length (seen_by d' (call_from c)))
              then tail (seen_by d' (call_from c)) else seen_by d' (call_from c)).
    assert (call_id c ∉ map fst s) as Hs.
    { unfold s. case_match; [|done]. destruct (seen_by d' (call_from c)); simpl in *; set_solver. }
    exists s, []. split_and!; [by apply set_new|done|done]. }
  unfold run_call, applyOpAsHost. fold (seen_by d (call_from c)). rewrite Hnew, andb_false_r.
  destruct (negb (bool_decide (call_replaces c = "")) && _) eqn:E2; [by apply Hrem|].
  set (d1 := if _ && _ then _ else d).
  assert (has (seen_by d1 (call_from c)) (call_id c) = false) as Hd1.
  { unfold d1. case_match eqn:E3; [|done]. rewrite seen_by_remember.
    destruct (decide (call_from c = call_from c /\ call_replaces c <> "")); [|exact Hnew].
    apply not_true_iff_false. apply not_true_iff_false in Hnew. rewrite has_fst in *. rewrite set_fst.
    intros [?|Hin]; [congruence|]. apply Hnew. destruct (negb _ && Nat.leb _ _); [|done].
    destruct (seen_by d (call_from c)); [done|]. by right. }
  destruct (effect_on _ _) as [state|]; simpl; by apply Hrem.
Qed.

(** An operation is applied at most once: a client that repeats an operation under the
    same id, because the acknowledgement was lost, gets the answer of the first attempt and
    changes nothing, whatever other clients have done in between and after up to seven
    further operations of its own. *)
Theorem op_applied_at_most_once d c calls op' base' replaces' :
  call_id c <> "" -> has (seen_by d (call_from c)) (call_id c) = false -> call_replaces c <> call_id c ->
  (calls_from (call_from c) calls <= 7)%nat ->
  let d1 := run_calls (run_call d c).1.1 calls in
  run_call d1 (mk_call op' base' (call_from c) (call_id c) replaces') = (d1, (run_call d c).1.2, false).
Proof.
  intros Hid Hnew Hrepl Hn d1.
  destruct (calls_keep (call_id c) (run_call d c).1.2 calls 0 (run_call d c).1.1 (call_from c)) as [k Hk];
    [by apply call_remembers|lia|]. fold d1 in Hk. apply remembered_get in Hk.
  unfold run_call at 1, applyOpAsHost. simpl. fold (seen_by d1 (call_from c)).
  unfold has. rewrite Hk, (bool_decide_eq_false_2 _ Hid). simpl. f_equal. f_equal.
  by destruct (run_call d c).1.2.
Qed.

Definition hello_doc : document := setState (new_document "default" None) (Some (JStr "hello")).

Lemma op_applied_at_most_once_witness :
  let c := mk_call (Some (op_json (Insert 5 "!"))) 1 "bob" "op-1" "" in
  let other := mk_call (Some (op_json (Delete 0 1))) 2 "carol" "op-1" "" in
  let d1 := run_calls (run_call hello_doc c).1.1 [other] in
  run_call d1 c = (d1, true, false) /\ doc_state d1 = Some (JStr "ello!").
Proof.
  split; [|reflexivity].
  exact (op_applied_at_most_once hello_doc (mk_call (Some (op_json (Insert 5 "!"))) 1 "bob" "op-1" "")
    [mk_call (Some (op_json (Delete 0 1))) 2 "carol" "op-1" ""] (Some (op_json (Insert 5 "!"))) 1 ""
    ltac:(discriminate) eq_refl ltac:(discriminate) ltac:(vm_compute; lia)).
Defined.

(** ** Revisions and the log *)

Definition doc_ok (d : document) : Prop :=
  (length (opLog d) <= OP_LOG_LIMIT)%nat /\
  map fst (opLog d) = seqZ (revision d - Z.of_nat (length (opLog d)) + 1) (Z.of_nat (length (opLog d))) /\
  forall from, (length (seen_by d from) <= SEEN_OPS_PER_PEER)%nat.

Lemma seqZ_drop k m n : 0 <= k <= n -> drop (Z.to_nat k) (seqZ m n) = seqZ (m + k) (n - k).
Proof.
  intros Hk. apply list_eq. intros i. rewrite lookup_drop.
  destruct (decide (Z.of_nat i < n - k)) as [Hi|Hi].
  - rewrite !lookup_seqZ_lt by lia. f_equal. lia.
  - rewrite !lookup_seqZ_ge by lia. done.
Qed.

Lemma logOp_ok d op : doc_ok d -> doc_ok (logOp (d <| revision := revision d + 1 |>) op).
Proof.
  intros (Hl & Hr & Hs). unfold logOp, doc_ok. simpl.
  set (log := opLog d ++ [(revision d + 1, op)]).
  assert (length log = S (length (opLog d))) as Hlen by (unfold log; rewrite length_app; simpl; lia).
  assert (map fst log = seqZ (revision d + 1 - Z.of_nat (length log) + 1) (Z.of_nat (length log))) as Hm.
  { rewrite Hlen. unfold log. rewrite map_app, Hr, seqZ_S. cbn [map fst].
    f_equal; [f_equal; lia|]. f_equal. lia. }
  rewrite length_drop. split_and!.
  - unfold OP_LOG_LIMIT in *. lia.
  - rewrite <- skipn_map, Hm.
    rewrite <- (Nat2Z.id (length log - OP_LOG_LIMIT)), seqZ_drop by lia. f_equal; lia.
  - done.
Qed.

Lemma set_length {A} (l : list (string * A)) id v :
  length (set l id v) = if has l id then length l else S (length l).
Proof.
  destruct (has l id) eqn:E.
  - apply has_fst in E. by apply set_present_length.
  - apply not_true_iff_false in E. rewrite has_fst in E. rewrite set_new, length_app by done. simpl. lia.
Qed.

Lemma remember_ok d from opId v : doc_ok d -> doc_ok (rememberOp d from opId v).
Proof.
  intros (Hl & Hr & Hs). destruct (remember_frame d from opId v) as (E1 & E2 & E3).
  unfold doc_ok. rewrite E1, E3. split_and!; [done|done|]. intros f. rewrite seen_by_remember.
  specialize (Hs f). case_decide; [|done]. rewrite set_length.
  destruct (has (seen_by d f) opId) eqn:Eh; cbn [negb andb]; [by rewrite Eh|].
  destruct (Nat.leb_spec SEEN_OPS_PER_PEER (length (seen_by d f))).
  - destruct (seen_by d f) as [|x s]; cbn [tail length] in *; [case_match; unfold SEEN_OPS_PER_PEER in *; simpl in *; lia|].
    case_match; lia.
  - rewrite Eh. lia.
Qed.

Lemma doc_ok_state d state : doc_ok d -> doc_ok (d <| doc_state := state |>).
Proof. done. Qed.

Lemma call_effect d c :
  let '(d', ok, changed) := run_call d c in
  (changed = true -> ok = true /\ revision d' = revision d + 1) /\
  (changed = false -> doc_state d' = doc_state d /\ revision d' = revision d /\ opLog d' = opLog d) /\
  (doc_ok d -> doc_ok d').
Proof.
  unfold run_call, applyOpAsHost. destruct (negb (bool_decide (call_id c = "")) && _); [cbn iota beta; split_and!; [discriminate|done|done]|].
  destruct (negb (bool_decide (call_replaces c = "")) && bool_decide _).
  { cbn iota beta. destruct (remember_frame d (call_from c) (call_id c) false) as (?&?&?).
    split_and!; [discriminate|done|apply remember_ok]. }
  set (d1 := if _ && _ then _ else d).
  assert (revision d1 = revision d /\ doc_state d1 = doc_state d /\ opLog d1 = opLog d /\ (doc_ok d -> doc_ok d1))
    as (E1 & E2 & E3 & E4).
  { unfold d1. case_match; [|done].
    destruct (remember_frame d (call_from c) (call_replaces c) false) as (?&?&?). split_and!; try done.
    apply remember_ok. }
  clearbody d1. destruct (effect_on _ _) as [state|]; cbn iota beta.
  - match goal with |- context [rememberOp ?x (call_from c) (call_id c) true] => set (d3 := x) end.
    destruct (remember_frame d3 (call_from c) (call_id c) true) as (F1 & F2 & F3).
    split_and!; [|discriminate|].
    + intros _. split; [done|]. rewrite F1. unfold d3, logOp. simpl. lia.
    + intros Hd. apply remember_ok. unfold d3.
      exact (logOp_ok (d1 <| doc_state := state |>) _ (doc_ok_state d1 state (E4 Hd))).
  - destruct (remember_frame d1 (call_from c) (call_id c) false) as (F1 & F2 & F3).
    split_and!; [discriminate| |intros Hd; by apply remember_ok, E4].
    intros _. rewrite F1, F2, F3. done.
Qed.

(** The successive versions of a document at the host. *)
Fixpoint versions (d : document) (calls : list call) : list document :=
  match calls with
  | [] => [d]
  | c :: rest => d :: versions (run_call d c).1.1 rest
  end.

Lemma versions_spec calls : forall d v, v ∈ versions d calls ->
  revision d <= revision v <= revision (run_calls d calls) /\
  (revision v = revision d -> doc_state v = doc_state d) /\
  (revision v = revision (run_calls d calls) -> doc_state v = doc_state (run_calls d calls)) /\
  docId v = docId (run_calls d calls).
Proof.
  assert (forall d c, docId (run_call d c).1.1 = docId d) as Hid.
  { intros d c. assert (forall d f i b, docId (rememberOp d f i b) = docId d) as Hr.
    { intros. unfold rememberOp. by case_match. }
    unfold run_call, applyOpAsHost. repeat (case_match; simpl); rewrite ?Hr; simpl; rewrite ?Hr; done. }
  induction calls as [|c calls IH]; intros d v Hv; simpl in *.
  { apply list_elem_of_singleton in Hv as ->. split_and!; try done; lia. }
  pose proof (call_effect d c) as Hc. specialize (Hid d c).
  unfold run_calls in *. simpl. destruct (run_call d c) as [[d' ok] ch]. simpl in *.
  destruct Hc as (H1 & H2 & _).
  assert (revision d <= revision d' /\ (revision d' = revision d -> doc_state d' = doc_state d)) as [Hle Heq].
  { destruct ch; [destruct H1; [done|]; split; lia | destruct H2 as (?&?&?); [done|]; split; [lia|done]]. }
  assert (forall v, v ∈ versions d' calls -> docId v = docId (fold_left (fun d c => (run_call d c).1.1) calls d'))
    as Hids by (intros; by apply IH).
  assert (d' ∈ versions d' calls) as Hself by (destruct calls; by left).
  apply elem_of_cons in Hv as [->|Hv].
  - destruct (IH d' d' Hself) as (Hb & _ & Hs & He). split_and!; [lia|lia|done| |by rewrite <- Hid].
    intros E. assert (revision d' = revision d) as E' by lia. rewrite <- Heq by done. apply Hs. lia.
  - destruct (IH d' v Hv) as (Hb & Hs & Ht & He). split_and!; [lia|lia| |done|done].
    intros E. rewrite Hs by lia. apply Heq. lia.
Qed.

(** A shared document is a bounded, gap-free history: every accepted operation raises
    the revision by exactly one and every refused or repeated one changes neither text nor
    revision nor log; the log holds at most 128 entries, numbered without gaps up to the
    current revision, and at most 16 ids are remembered per peer. *)
Theorem document_history_ok d calls c : doc_ok d ->
  let d1 := run_calls d calls in
  doc_ok d1 /\
  (let '(d2, ok, changed) := run_call d1 c in
   (changed = true -> ok = true /\ revision d2 = revision d1 + 1) /\
   (changed = false -> doc_state d2 = doc_state d1 /\ revision d2 = revision d1 /\ opLog d2 = opLog d1)).
Proof.
  intros Hd d1. split.
  - unfold d1. revert d Hd d1. induction calls as [|c' calls IH]; intros d Hd d1; [done|].
    apply IH. pose proof (call_effect d c') as Hc. destruct (run_call d c') as [[d' ok] ch]. by apply Hc.
  - pose proof (call_effect d1 c) as Hc. destruct (run_call d1 c) as [[d' ok] ch]. tauto.
Qed.

Lemma new_doc_ok id initial : doc_ok (new_document id initial).
Proof. split_and!; [unfold OP_LOG_LIMIT; simpl; lia|done|]. intros from. unfold seen_by. simpl. lia. Qed.

Lemma document_history_ok_witness :
  doc_ok (run_calls (setState (new_document "default" None) (Some (JStr "")))
    [mk_call (Some (op_json (Insert 0 "hi"))) 1 "bob" "1" ""; mk_call (Some (op_json (Delete 0 1))) 1 "eve" "1" ""]).
Proof.
  refine (proj1 (document_history_ok _ _ (mk_call None 0 "" "" "") _)).
  exact (logOp_ok (new_document "default" None <| doc_state := Some (JStr "") |>) None
    (doc_ok_state _ _ (new_doc_ok "default" None))).
Defined.

(** ** Replicas *)

Lemma sync_payload_props d ack :
  prop (Some (sync_payload d ack)) "docId" = Some (JStr (docId d)) /\
  (get ack "state" = None -> prop (Some (sync_payload d ack)) "state" = doc_state d) /\
  prop (Some (sync_payload d ack)) "revision" = Some (JNum (revision d)).
Proof. unfold sync_payload, with_optional. by destruct (doc_state d). Qed.

(** A client that is handed some versions of the document, in some order. *)
Definition receive (r : room) (d : document) (host : string) (delivered : list document) : document :=
  fold_left (fun d v => (doc_handleWire r d DOC_SYNC host (Some (sync_payload v []))).1) delivered d.

Lemma receive_one r d host v : docId v = docId d ->
  (doc_handleWire r d DOC_SYNC host (Some (sync_payload v []))).1 =
  if Z.leb (revision d) (revision v) then d <| doc_state := doc_state v |> <| revision := revision v |> else d.
Proof.
  intros Hid. destruct (sync_payload_props v []) as (E1 & E2 & E3). unfold doc_handleWire.
  rewrite E1, E2, E3, Hid, !bool_decide_eq_true_2 by done.
  change (negb (truthy (Some (sync_payload v []))) || negb true) with false. cbv iota.
  change (number_or_zero (Some (JNum (revision v)))) with (revision v). by destruct (Z.leb _ _).
Qed.

(** Replicas catch up: whatever versions of a document a client receives, in whatever
    order and however often, once the host's last version is among them the client shows
    the host's text at the host's revision. *)
Theorem replica_catches_up r d0 calls host client delivered :
  docId client = docId (run_calls d0 calls) -> revision client <= revision d0 ->
  (revision client = revision d0 -> doc_state client = doc_state d0) ->
  (forall v, v ∈ delivered -> v ∈ versions d0 calls) -> run_calls d0 calls ∈ delivered ->
  doc_state (receive r client host delivered) = doc_state (run_calls d0 calls) /\
  revision (receive r client host delivered) = revision (run_calls d0 calls).
Proof.
  intros Hid Hrev Hst Hin Hlast. set (last := run_calls d0 calls) in *.
  assert (forall l c, (forall v, v ∈ l -> v ∈ versions d0 calls) -> docId c = docId last ->
    revision c <= revision last -> (revision c = revision last -> doc_state c = doc_state last) ->
    last ∈ l \/ revision c = revision last ->
    doc_state (receive r c host l) = doc_state last /\ revision (receive r c host l) = revision last) as Hgen.
  { induction l as [|v l IH]; intros c Hl Hc Hle Heq Hor.
    - destruct Hor as [Hn|Hr]; [by apply elem_of_nil in Hn|]. simpl. auto.
    - destruct (versions_spec calls d0 v) as (Hb & _ & Hv & Hvid); [apply Hl; by left|]. fold last in Hb, Hv, Hvid.
      unfold receive in *. cbn [fold_left]. rewrite receive_one by congruence.
      assert (forall v, v ∈ l -> v ∈ versions d0 calls) as Hl' by (intros w Hw; apply Hl; by right).
      destruct (Z.leb_spec (revision c) (revision v)); apply IH; simpl; auto; try lia.
      + destruct Hor as [[<-|?]%elem_of_cons|?]; [by right|by left|right; lia].
      + destruct Hor as [[<-|?]%elem_of_cons|?]; [lia|by left|right; lia]. }
  destruct (versions_spec calls d0 d0) as (Hb & _ & Hv & _); [destruct calls; by left|]. fold last in Hb, Hv.
  apply Hgen; auto; [lia|]. intros E. rewrite Hst by lia. apply Hv. lia.
Qed.

Lemma replica_catches_up_witness :
  let calls := [mk_call (Some (op_json (Insert 5 "!"))) 1 "bob" "1" ""] in
  let r := mk_room "r" "Room" INVITE 16 false "host" "bob" [] false [] in
  doc_state (receive r (new_document "default" None) "host" [run_calls hello_doc calls; hello_doc]) =
  Some (JStr "hello!").
Proof.
  intros calls r.
  refine (proj1 (replica_catches_up r hello_doc calls "host" (new_document "default" None)
    [run_calls hello_doc calls; hello_doc] eq_refl _ _ _ _)).
  - vm_compute. discriminate.
  - vm_compute. discriminate.
  - intros v Hv. rewrite !elem_of_cons, elem_of_nil in Hv. destruct Hv as [->|[->|[]]].
    + right. by left.
    + by left.
  - by left.
Defined.

(** ** Rooms *)

Definition room_ok (m : manager) (id : string) (r : room) : Prop :=
  roomId r = id /\ unique (members r) /\
  (isHost r = true -> Z.of_nat (length (members r)) <= maxPeers r).

Definition manager_ok (m : manager) : Prop :=
  forall id r, get (rooms m) id = Some r -> room_ok m id r.

Lemma put_room_ok m r : manager_ok m -> room_ok m (roomId r) r -> manager_ok (put_room m r).
Proof.
  intros Hm Hr id r' H. simpl in H. rewrite get_set in H. case_decide; [by simplify_eq|by apply Hm].
Qed.

Lemma put_room_frame m r docs closed : manager_ok m -> get (rooms m) (roomId r) = Some r ->
  manager_ok (put_room m (r <| documents := docs |> <| room_closed := closed |>)).
Proof. intros Hm Hr. apply put_room_ok; [done|]. by apply (Hm _ _ Hr). Qed.

Lemma removeRoom_ok m id : manager_ok m -> manager_ok (removeRoom m id).
Proof. intros Hm id' r H. simpl in H. rewrite get_del in H. case_decide; [done|by apply Hm]. Qed.

Lemma recordInvite_ok m id p : manager_ok m -> manager_ok (recordInvite m id p).
Proof. intros Hm. unfold recordInvite. case_match; [done|exact Hm]. Qed.

Lemma del_length {A} (l : list (string * A)) k : (length (del l k) <= length l)%nat.
Proof. induction l as [|[k' v] l IH]; simpl; [lia|]. case_bool_decide; simpl; lia. Qed.

Lemma set_length_le {A} (l : list (string * A)) k v : (length (set l k v) <= S (length l))%nat.
Proof. rewrite set_length. case_match; lia. Qed.

Lemma host_wire_ok clock m r w from payload : room_ok m (roomId r) r ->
  room_ok m (roomId r) (handleHostWire clock m r w from payload).1 /\
  roomId (handleHostWire clock m r w from payload).1 = roomId r.
Proof.
  intros (_ & Hu & Hl). unfold handleHostWire. destruct w; try done.
  - destruct (Z.leb_spec (maxPeers r) (Z.of_nat (length (members r)))); [done|].
    case_match; [done|]. simpl. split; [|done]. split_and!; [done|by apply set_unique|].
    intros _. cbn [members field_update maxPeers].
    match goal with |- context [length (set (members r) from ?x)] => pose proof (set_length_le (members r) from x) end.
    simpl. lia.
  - case_match; [|done]. simpl. split; [|done]. split_and!; [done|by apply del_unique|].
    intros Hh. pose proof (del_length (members r) from). specialize (Hl Hh). simpl. lia.
Qed.

Lemma joined_members_unique clock payload : unique (joined_members clock payload).
Proof.
  unfold joined_members.
  assert (forall (l : list json) (acc : list (string * member)), unique acc ->
    unique (fold_left (fun acc item =>
      let id := prop (Some item) "peerId" in
      if truthy id then
        set acc (string_or_empty id)
          (mk_member (prop (Some item) "name")
             (if truthy (prop (Some item) "joinedAt") then prop (Some item) "joinedAt" else Some (JNum clock)))
      else acc) l acc)) as H.
  { induction l as [|x l IH]; intros acc Ha; simpl; [done|]. apply IH. case_match; [by apply set_unique|done]. }
  apply H. constructor.
Qed.

Lemma client_wire_ok clock m r w from payload : manager_ok m -> isHost r = false -> unique (members r) ->
  match (handleClientWire clock m r w from payload).1 with
  | inl r' => room_ok m (roomId r) r' /\ roomId r' = roomId r /\ manager_ok m
  | inr m' => manager_ok m'
  end.
Proof.
  intros Hm Hh Hu. unfold handleClientWire, leave.
  assert (forall x, unique x -> room_ok m (roomId r) (r <| members := x |>)) as Hr.
  { intros x Hx. split_and!; [done|done|]. simpl. congruence. }
  destruct (bool_decide (w = ROOM_JOIN_OK) && _);
    [simpl; split_and!; [by apply Hr, joined_members_unique|done|done]|].
  destruct (bool_decide (w = ROOM_JOIN_REJECT) && _);
    [destruct (room_closed r); simpl; [done|by apply removeRoom_ok]|].
  destruct (bool_decide (w = ROOM_CLOSED) && _);
    [destruct (room_closed r); simpl; [done|by apply removeRoom_ok]|].
  destruct (bool_decide (w = ROOM_MSG) && bool_decide (prop payload "type" = Some (JStr "peer-joined")));
    [simpl; split_and!; [by apply Hr, set_unique|done|done]|].
  destruct (bool_decide (w = ROOM_MSG) && bool_decide (prop payload "type" = Some (JStr "peer-left")));
    [simpl; split_and!; [by apply Hr, del_unique|done|done]|].
  simpl. split_and!; [|done|done]. split_and!; [done|done|congruence].
Qed.

Lemma incoming_ok clock m r w from payload : manager_ok m -> get (rooms m) (roomId r) = Some r ->
  manager_ok (handleIncoming clock m r w from payload).1.
Proof.
  intros Hm Hr. unfold handleIncoming. case_match; [done|].
  destruct (docs_handleWire r (documents r) w from payload) as [docs internal].
  set (r1 := r <| documents := docs |>).
  assert (room_ok m (roomId r1) r1) as Hr1 by by apply (Hm _ _ Hr).
  case_match; [by apply put_room_ok|].
  destruct (isHost r1) eqn:Hh.
  - destruct (host_wire_ok clock m r1 w from payload Hr1) as [H1 H2].
    destruct (handleHostWire clock m r1 w from payload) as [r2 out]. simpl in *.
    apply put_room_ok; [done|]. by rewrite H2.
  - pose proof (client_wire_ok clock (put_room m r1) r1 w from payload) as Hc.
    destruct (handleClientWire clock (put_room m r1) r1 w from payload) as [[r2|m2] out]; simpl in *.
    + destruct Hc as (H1 & H2 & H3); [by apply put_room_ok|done|apply Hr1|].
      apply put_room_ok; [done|]. by rewrite H2.
    + apply Hc; [by apply put_room_ok|done|apply Hr1].
Qed.

(** Everything that happens to a manager: messages from peers and calls of the plugin. *)
Inductive manager_reach (plugin self : string) : manager -> Prop :=
| reach_new : manager_reach plugin self (mk_manager plugin self [] [] [])
| reach_message m clock msg :
    manager_reach plugin self m -> manager_reach plugin self (onPeerMessage clock m msg).1
| reach_create m clock id name a max :
    manager_reach plugin self m -> manager_reach plugin self (createRoom clock m id name a max).1
| reach_join m id host name :
    manager_reach plugin self m -> manager_reach plugin self (joinRoom m id host name).1
| reach_invite m id r peer :
    manager_reach plugin self m -> get (rooms m) id = Some r ->
    manager_reach plugin self (invite m r peer).1.1
| reach_document m id r doc initial :
    manager_reach plugin self m -> get (rooms m) id = Some r ->
    manager_reach plugin self (createDocument m r doc initial).1
| reach_leave m clock id r :
    manager_reach plugin self m -> get (rooms m) id = Some r ->
    manager_reach plugin self (leave clock m r).1.

(** A hosted room never holds more than its maximum of members, none twice: whatever
    messages arrive, in whatever order, and whatever the plugin does with its rooms. *)
Theorem room_never_overfull plugin self m id r :
  manager_reach plugin self m -> get (rooms m) id = Some r ->
  NoDup (map fst (members r)) /\ (isHost r = true -> Z.of_nat (length (members r)) <= maxPeers r).
Proof.
  intros Hm Hr. assert (manager_ok m) as Hok; [|by apply Hok in Hr as (_ & Hu & Hl)].
  clear Hr. induction Hm as [|m clock msg Hm IH|m clock i name a max Hm IH|m i host name Hm IH
    |m i r' peer Hm IH Hr|m i r' doc initial Hm IH Hr|m clock i r' Hm IH Hr].
  - done.
  - unfold onPeerMessage. destruct (parseRealtimeMessage msg (pluginId m)) as [p|]; [|done].
    case_match; [case_match; [done|exact IH]|]. case_match; [exact IH|]. case_match; [by apply recordInvite_ok|].
    destruct (get (rooms m) (p_room p)) as [r'|] eqn:E; [|done].
    apply incoming_ok; [done|]. destruct (IH _ _ E) as (-> & _). done.
  - unfold createRoom. case_match; [done|]. case_match; [done|]. apply put_room_ok; [exact IH|].
    split_and!; [done|apply NoDup_singleton|]. intros _. simpl. lia.
  - unfold joinRoom. case_match; [done|]. case_match; [done|]. apply put_room_ok; [exact IH|].
    split_and!; [done|constructor|done].
  - unfold invite. case_match; [done|]. by apply recordInvite_ok.
  - destruct (IH _ _ Hr) as (Hid & Hu & Hl). unfold createDocument. cbv zeta.
    destruct (has (documents r') _); [exact IH|].
    destruct (isHost r') eqn:Hh; (apply put_room_ok; [exact IH|]); (split_and!; [done|exact Hu|]); simpl; congruence || auto.
  - unfold leave. case_match; [done|]. by apply removeRoom_ok.
Qed.

Lemma room_never_overfull_witness :
  let m := (createRoom 5 (mk_manager "chess" "me" [] [] []) "room-1" "" PUBLIC 1).1 in
  exists r, get (rooms m) "room-1" = Some r /\ Z.of_nat (length (members r)) <= maxPeers r.
Proof.
  intros m.
  eexists. split; [vm_compute; reflexivity|].
  refine (proj2 (room_never_overfull "chess" "me" m "room-1" _ _ _) _).
  - apply reach_create. apply reach_new.
  - vm_compute. reflexivity.
  - reflexivity.
Defined.

(** ** Who may do what *)

Definition envelope_from (m : manager) (from : string) (id : string) (w : wire) (payload : json) : json :=
  match buildRealtimeEnvelope (pluginId m) id w payload with
  | JObj f => JObj (f ++ [("from", JStr from)])
  | j => j
  end.

(** The wires whose name on the wire leads back to them. *)
Lemma parse_envelope m from id w payload : wire_of (wire_name w) = w -> id <> "" -> wire_name w <> "" ->
  parseRealtimeMessage (envelope_from m from id w payload) (pluginId m) =
    Some (mk_parsed id w (Some payload) (Some from)).
Proof.
  intros Hw Hid Hn. set (msg := envelope_from m from id w payload).
  set (body := JObj [("pluginId", JStr (pluginId m)); ("roomId", JStr id); ("wire", JStr (wire_name w));
                     ("payload", payload)]).
  assert (prop (Some msg) "kind" = Some (JStr "plugin-realtime")) as K by reflexivity.
  assert (prop (Some msg) "pluginRealtime" = Some body) as B by reflexivity.
  assert (prop (Some msg) "from" = Some (JStr from)) as F by reflexivity.
  assert (is_js_object msg = true) as O by reflexivity.
  assert (forall s, s <> "" -> string_or_empty (Some (JStr s)) = s) as S.
  { intros s Hs. unfold string_or_empty, truthy. by rewrite bool_decide_eq_false_2. }
  unfold parseRealtimeMessage, isRealtimeMessage. rewrite K, B, F, O.
  change (prop (Some body) "pluginId") with (Some (JStr (pluginId m))).
  change (prop (Some body) "roomId") with (Some (JStr id)).
  change (prop (Some body) "wire") with (Some (JStr (wire_name w))).
  change (prop (Some body) "payload") with (Some payload).
  rewrite (bool_decide_eq_true_2 (Some (JStr (pluginId m)) = Some (JStr (pluginId m)))) by done.
  rewrite bool_decide_eq_true_2 by done. rewrite andb_false_r, !S, Hw by done. reflexivity.
Qed.

(** An invite-only room lets anyone in: a peer that was never invited sends the host a
    [room-invite] message for the host's own room, which the host records as an invitation
    of the sender, and its join request is then accepted. *)
Theorem self_invitation_opens_room clock m id r from payload payload' :
  get (rooms m) id = Some r -> roomId r = id -> id <> "" -> from <> "" ->
  isHost r = true -> room_closed r = false -> room_access r = INVITE ->
  Z.of_nat (length (members r)) < maxPeers r ->
  let m1 := (onPeerMessage clock m (envelope_from m from id ROOM_INVITE payload)).1 in
  let m2 := (onPeerMessage clock m1 (envelope_from m1 from id ROOM_JOIN payload')).1 in
  exists r2, get (rooms m2) id = Some r2 /\ has (members r2) from = true.
Proof.
  intros Hr Hid Hne Hfrom Hh Hc Ha Hl m1 m2.
  assert (m1 = recordInvite m id from) as Em1.
  { unfold m1, onPeerMessage. rewrite parse_envelope by done.
    cbn [p_wire p_payload p_from p_room default from_option Datatypes.id].
    rewrite (bool_decide_eq_false_2 (from = "")) by done. reflexivity. }
  assert (get (rooms m1) id = Some r /\ isInvited m1 from id = true /\ pluginId m1 = pluginId m) as (Hr1 & Hi & Hp).
  { rewrite Em1. unfold recordInvite. rewrite !bool_decide_eq_false_2 by done. simpl. split_and!; [done| |done].
    unfold isInvited. simpl. rewrite get_set, decide_True by done. simpl.
    apply bool_decide_eq_true_2. unfold includes.
    destruct (bool_decide _) eqn:E; [by apply bool_decide_eq_true_1 in E|].
    apply elem_of_app. right. by apply list_elem_of_singleton. }
  unfold m2, onPeerMessage. rewrite parse_envelope by done.
  cbn [p_wire p_payload p_from p_room default from_option Datatypes.id].
  rewrite (bool_decide_eq_false_2 (from = "")) by done.
  change (bool_decide (ROOM_JOIN = ROOM_PRESENCE)) with false.
  change (bool_decide (ROOM_JOIN = ROOM_PRESENCE_CLEAR)) with false.
  change (bool_decide (ROOM_JOIN = ROOM_INVITE)) with false. cbn [andb].
  rewrite Hr1. unfold handleIncoming.
  rewrite Hc, (bool_decide_eq_false_2 (from = "")) by done. cbn [orb].
  destruct (docs_handleWire r (documents r) ROOM_JOIN from (Some payload')) as [docs internal].
  change (bool_decide (ROOM_JOIN = ROOM_MSG)) with false. simpl. rewrite Hh.
  rewrite (proj2 (Z.leb_gt _ _)) by done. simpl.
  rewrite Hid, Hi, andb_false_r. simpl. rewrite get_set, decide_True by done.
  eexists. split; [done|]. simpl. unfold has. rewrite get_set, decide_True by done. done.
Qed.

Lemma self_invitation_opens_room_witness :
  let m := (createRoom 5 (mk_manager "chess" "host" [] [] []) "room-1" "" INVITE 4).1 in
  let m1 := (onPeerMessage 6 m (envelope_from m "eve" "room-1" ROOM_INVITE (JObj []))).1 in
  let m2 := (onPeerMessage 6 m1 (envelope_from m1 "eve" "room-1" ROOM_JOIN (JObj []))).1 in
  exists r2, get (rooms m2) "room-1" = Some r2 /\ has (members r2) "eve" = true.
Proof.
  refine (self_invitation_opens_room 6 (createRoom 5 (mk_manager "chess" "host" [] [] []) "room-1" "" INVITE 4).1
    "room-1" _ "eve" (JObj []) (JObj []) eq_refl eq_refl _ _ eq_refl eq_refl eq_refl _);
    [discriminate|discriminate|vm_compute; reflexivity].
Defined.

(** A shared document is writable by peers outside the room: the host applies an
    operation of any sender, member or not, and a client adopts a text from any sender, the
    host or not, if only its revision is not older than its own. *)
Theorem outsider_writes_document r d from text revision' :
  from <> "" -> isHost r = true -> doc_state d = Some (JStr text) ->
  (let op := JObj [("docId", JStr (docId d)); ("baseRevision", JNum (revision d));
                   ("op", op_json (Insert 0 "x"))] in
   doc_state (doc_handleWire r d DOC_OP from (Some op)).1 = Some (JStr ("x" +:+ text))) /\
  (let sync := JObj [("docId", JStr (docId d)); ("state", JStr "anything"); ("revision", JNum revision')] in
   revision d <= revision' ->
   doc_state (doc_handleWire r d DOC_SYNC from (Some sync)).1 = Some (JStr "anything")).
Proof.
  intros Hf Hh Hs. split; cbv zeta.
  - unfold doc_handleWire. simpl truthy. cbn [prop get]. simpl.
    rewrite bool_decide_eq_true_2 by done. simpl. rewrite Hh, (bool_decide_eq_false_2 (from = "")) by done.
    unfold applyOpAsHost. simpl. rewrite Z.eqb_refl, Hs. simpl.
    unfold rememberOp, logOp. simpl. unfold applyTextOp. simpl.
    by rewrite Z.max_l by lia.
  - intros Hr. unfold doc_handleWire. simpl. rewrite bool_decide_eq_true_2 by done. simpl.
    by rewrite (proj2 (Z.leb_le _ _)).
Qed.

Lemma outsider_writes_document_witness :
  let r := mk_room "r" "Room" INVITE 16 true "host" "host" [] false [] in
  let op := JObj [("docId", JStr "default"); ("baseRevision", JNum 1); ("op", op_json (Insert 0 "x"))] in
  doc_state (doc_handleWire r hello_doc DOC_OP "eve" (Some op)).1 = Some (JStr "xhello").
Proof.
  exact (proj1 (outsider_writes_document (mk_room "r" "Room" INVITE 16 true "host" "host" [] false [])
    hello_doc "eve" "hello" 0 ltac:(discriminate) eq_refl eq_refl)).
Defined.

(** Clients never learn who joined or left: the notifications the host sends for it
    are room messages, which are handed to the plugin before the branch that would update
    the member list, so a client's member list only changes when it joins. *)
Theorem client_members_frozen clock m r w from payload r' :
  isHost r = false -> w <> ROOM_JOIN_OK ->
  get (rooms (handleIncoming clock m r w from payload).1) (roomId r) = Some r' ->
  get (rooms m) (roomId r) = Some r -> members r' = members r.
Proof.
  intros Hh Hw Hr' Hr. unfold handleIncoming in Hr'. destruct (room_closed r || _); [simpl in Hr'; congruence|].
  destruct (docs_handleWire r (documents r) w from payload) as [docs internal].
  destruct (bool_decide (w = ROOM_MSG)) eqn:Em.
  { simpl in Hr'. rewrite get_set, decide_True in Hr' by done. by simplify_eq/=. }
  simpl in Hr'. rewrite Hh in Hr'. unfold handleClientWire in Hr'.
  rewrite (bool_decide_eq_false_2 (w = ROOM_JOIN_OK)), Em in Hr' by done. simpl in Hr'.
  unfold leave in Hr'. repeat (case_match; simpl in *); simplify_eq/=;
    rewrite ?get_del, ?get_set, ?decide_True in * by done; simplify_eq/=; try done.
Qed.

Lemma client_members_frozen_witness :
  let r := mk_room "r" "Room" INVITE 16 false "host" "me" [("host", mk_member None None)] false [] in
  let m := mk_manager "chess" "me" [("r", r)] [] [] in
  let joined := JObj [("type", JStr "peer-joined"); ("peerId", JStr "bob"); ("name", JStr "Bob")] in
  forall r', get (rooms (handleIncoming 7 m r ROOM_MSG "host" (Some joined)).1) "r" = Some r' ->
    members r' = [("host", mk_member None None)].
Proof.
  intros r m joined r' Hr'.
  exact (client_members_frozen 7 m r ROOM_MSG "host" (Some joined) r' eq_refl ltac:(discriminate) Hr' eq_refl).
Defined.

Definition edited_doc : document :=
  (run_call (run_call hello_doc (mk_call (Some (op_json (Insert 0 ">> "))) 1 "bob" "" "")).1.1
     (mk_call (Some (op_json (Delete 3 1))) 2 "bob" "" "")).1.1.

Lemma stale_edit_as_if_first_witness :
  (let '(d', ok, _) := applyOpAsHost edited_doc (Some (op_json (Insert 5 "!"))) 1 "carol" "c1" "" in
   ok = true /\ revision d' = 4 /\
   exists text', doc_state d' = Some (JStr text') /\ chars text' = chars ">> ello!")
  /\ (let '(d', ok, _) := applyOpAsHost edited_doc (Some (op_json (Insert 0 "A"))) 1 "carol" "c2" "c1" in
      ok = true /\ exists text', doc_state d' = Some (JStr text') /\ chars text' = chars ">> Aello")
  /\ let '(d', ok, _) := applyOpAsHost edited_doc (Some (op_json (Delete 0 2))) 1 "carol" "c3" "" in
     ok = false /\ doc_state d' = doc_state edited_doc.
Proof.
  assert (Hl : logged_since edited_doc (chars "hello") [Insert 0 ">> "; Delete 3 1]) by (exists ">> ello"; split_and!; reflexivity).
  assert (Ha : all_fit [Insert 0 ">> "; Delete 3 1] (chars "hello")) by (simpl; lia).
  assert (Hf : forall i r, fresh_op edited_doc "carol" i r) by (intros i r; split; right; vm_compute; [reflexivity|discriminate]).
  split; [|split].
  - pose proof (stale_edit_as_if_first edited_doc (chars "hello") [Insert 0 ">> "; Delete 3 1] (Insert 5 "!")
      "carol" "c1" "" Hl ltac:(simpl; lia) Ha (Hf _ _)) as (H1 & _ & H2 & H3). exact (conj H1 (conj H2 H3)).
  - pose proof (stale_edit_as_if_first edited_doc (chars "hello") [Insert 0 ">> "; Delete 3 1] (Insert 0 "A")
      "carol" "c2" "c1" Hl ltac:(simpl; lia) Ha (Hf _ _)) as (H1 & _ & _ & H2). exact (conj H1 H2).
  - pose proof (stale_edit_as_if_first edited_doc (chars "hello") [Insert 0 ">> "; Delete 3 1] (Delete 0 2)
      "carol" "c3" "" Hl ltac:(simpl; lia) Ha (Hf _ _)) as (H1 & _ & H2 & _). exact (conj H1 H2).
Defined.
