(* ===== verification/GroupChat.v ===== *)
(** * Group chats ([src/shared/group-chat.js])

    A group is replicated on its members: administrators issue invitations and updates
    that carry a snapshot of the group, members answer with accept and leave events.
    Snapshots and events arrive as JSON and are normalised; a normal group is a record, and
    [group_json] is the object it stands for.  [clock] stands for [Date.now()]; a thrown
    [Error] is [Err]. *)

From S2P Require Import Prelude Json.

Definition GROUP_MAX_NAME_CHARS : nat := 80.
Definition GROUP_MAX_IMAGE_CHARS : nat := Z.to_nat 532480.
Definition GROUP_EVENT_HISTORY_LIMIT : nat := 512.

Inductive member_state := invited | active | left_group | removed.
Inductive member_role := admin | plain_member.

#[export] Instance member_state_eq_dec : EqDecision member_state.
Proof. solve_decision. Defined.

#[export] Instance member_role_eq_dec : EqDecision member_role.
Proof. solve_decision. Defined.

Definition state_name (s : member_state) : string :=
  match s with invited => "invited" | active => "active" | left_group => "left" | removed => "removed" end.

Definition role_name (r : member_role) : string := match r with admin => "admin" | plain_member => "member" end.

(** [GROUP_MEMBER_STATES.has(v) ? v : 'invited'] and the same for roles. *)
Definition GROUP_MEMBER_STATES (v : option json) : member_state :=
  match v with
  | Some (JStr "active") => active
  | Some (JStr "left") => left_group
  | Some (JStr "removed") => removed
  | _ => invited
  end.

Definition GROUP_MEMBER_ROLES (v : option json) : member_role :=
  match v with Some (JStr "admin") => admin | _ => plain_member end.

Record group_member := mk_group_member {
  gm_peer : string;
  gm_name : string;
  gm_role : member_role;
  gm_state : member_state;
  gm_addedAt : Z;
  gm_joinedAt : option Z;
  gm_removedAt : option Z
}.

#[export] Instance group_member_rebuild : Rebuild group_member := fun m =>
  mk_group_member (gm_peer m) (gm_name m) (gm_role m) (gm_state m) (gm_addedAt m) (gm_joinedAt m) (gm_removedAt m).

Record group := mk_group {
  g_id : string;
  g_revision : Z;
  g_name : string;
  g_image : string;
  g_createdAt : Z;
  g_createdBy : string;
  g_updatedAt : Z;
  g_members : list group_member
}.

#[export] Instance group_rebuild : Rebuild group := fun g =>
  mk_group (g_id g) (g_revision g) (g_name g) (g_image g) (g_createdAt g) (g_createdBy g) (g_updatedAt g) (g_members g).

#[export] Instance group_member_eq_dec : EqDecision group_member.
Proof. solve_decision. Defined.

#[export] Instance group_eq_dec : EqDecision group.
Proof. solve_decision. Defined.

(** ** Normalisation *)

Definition is_id_char (c : ascii) : bool :=
  let n := Ascii.nat_of_ascii c in
  (Nat.leb 65 n && Nat.leb n 90) || (Nat.leb 97 n && Nat.leb n 122)
  || (Nat.leb 48 n && Nat.leb n 57) || Nat.eqb n 95 || Nat.eqb n 45.

(** [/^group:[A-Za-z0-9_-]{8,128}$/]. *)
Definition isGroupChatId (value : option json) : bool :=
  match value with
  | Some (JStr s) =>
      let rest := str_drop 6 s in
      bool_decide (str_take 6 s = "group:") && Nat.leb 8 (String.length rest)
      && Nat.leb (String.length rest) 128 && forallb is_id_char (String.list_ascii_of_string rest)
  | _ => false
  end.

(** [a || b]. *)
Definition or_else (a b : option json) : option json := if truthy a then a else b.

Definition cleanString (value : option json) (maxChars : nat) : string :=
  str_take maxChars (trim (string_or_empty value)).

(** [Number.isFinite(v) ? v : fallback]. *)
Definition finite (v : option json) (fallback : Z) : Z := match v with Some (JNum n) => n | _ => fallback end.

Definition finite_opt (v : option json) (fallback : option Z) : option Z :=
  match v with Some (JNum n) => Some n | _ => fallback end.

Definition normalizeMember (raw : json) (now : Z) : option group_member :=
  let r := Some raw in
  let peerId := cleanString (or_else (prop r "peerId") (prop r "id")) 96 in
  if bool_decide (peerId = "") then None
  else
    let state := GROUP_MEMBER_STATES (prop r "state") in
    Some (mk_group_member peerId
      (cleanString (or_else (or_else (prop r "displayName") (prop r "name")) (Some (JStr peerId))) 80)
      (GROUP_MEMBER_ROLES (prop r "role")) state
      (finite (prop r "addedAt") now)
      (finite_opt (prop r "joinedAt") (if bool_decide (state = active) then Some now else None))
      (finite_opt (prop r "removedAt") None)).

(** The member loop: unusable and repeated candidates are dropped. *)
Fixpoint normalizeMembers (raws : list json) (now : Z) (seen : list string) : list group_member :=
  match raws with
  | [] => []
  | raw :: rest =>
      match normalizeMember raw now with
      | None => normalizeMembers rest now seen
      | Some m =>
          if includes seen (gm_peer m) then normalizeMembers rest now seen
          else m :: normalizeMembers rest now (gm_peer m :: seen)
      end
  end.

(** The creator is an administrator and has joined. *)
Definition promote (createdBy : string) (m : group_member) : group_member :=
  if bool_decide (gm_peer m = createdBy)
  then m <| gm_role := admin |> <| gm_state := if bool_decide (gm_state m = invited) then active else gm_state m |>
  else m.

Definition normalizeGroup (clock : Z) (raw : option json) : res group :=
  if negb (truthy raw) || negb (isGroupChatId (prop raw "id")) then Err "invalid_group"
  else
    let createdAt := finite (prop raw "createdAt") clock in
    let members := normalizeMembers (default [] (as_array (prop raw "members"))) createdAt [] in
    let createdBy := cleanString (prop raw "createdBy") 96 in
    if bool_decide (createdBy = "") || negb (includes (map gm_peer members) createdBy)
    then Err "invalid_group_creator"
    else
      let name := cleanString (prop raw "name") GROUP_MAX_NAME_CHARS in
      Ok (mk_group (string_or_empty (prop raw "id")) (Z.max 1 (finite (prop raw "revision") 1))
            (if bool_decide (name = "") then "Neue Gruppe" else name)
            (cleanString (prop raw "image") GROUP_MAX_IMAGE_CHARS) createdAt createdBy
            (finite (prop raw "updatedAt") createdAt) (map (promote createdBy) members)).

(** The objects that records stand for; undefined properties are absent. *)
Definition opt_num (name : string) (v : option Z) : fields :=
  match v with Some n => [(name, JNum n)] | None => [] end.

Definition member_fields (m : group_member) : fields :=
  [("peerId", JStr (gm_peer m)); ("displayName", JStr (gm_name m)); ("role", JStr (role_name (gm_role m)));
   ("state", JStr (state_name (gm_state m))); ("addedAt", JNum (gm_addedAt m))]
  ++ opt_num "joinedAt" (gm_joinedAt m) ++ opt_num "removedAt" (gm_removedAt m).

Definition group_fields (g : group) (members : list json) : fields :=
  [("id", JStr (g_id g)); ("type", JStr "group"); ("protocolVersion", JNum 1); ("revision", JNum (g_revision g));
   ("name", JStr (g_name g)); ("image", JStr (g_image g)); ("createdAt", JNum (g_createdAt g));
   ("createdBy", JStr (g_createdBy g)); ("updatedAt", JNum (g_updatedAt g)); ("members", JArr members)].

Definition group_json (g : group) : json :=
  JObj (group_fields g (map (fun m => JObj (member_fields m)) (g_members g))).

(** ** Queries *)

Definition getGroupMember (g : group) (peerId : string) : option group_member :=
  find (fun m => bool_decide (gm_peer m = peerId)) (g_members g).

Definition isActiveGroupMember (g : group) (peerId : string) : bool :=
  match getGroupMember g peerId with Some m => bool_decide (gm_state m = active) | None => false end.

Definition isGroupAdmin (g : group) (peerId : string) : bool :=
  match getGroupMember g peerId with
  | Some m => bool_decide (gm_state m = active) && bool_decide (gm_role m = admin)
  | None => false
  end.

(** [[...new Set(list)]]. *)
Fixpoint unique_list (l seen : list string) : list string :=
  match l with
  | [] => []
  | x :: rest => if includes seen x then unique_list rest seen else x :: unique_list rest (x :: seen)
  end.

Definition groupPeerIds (g : group) (includeInvited : bool) (excludePeerId : string) : list string :=
  unique_list (map gm_peer
    (base.filter (fun m => gm_state m = active \/ (includeInvited = true /\ gm_state m = invited))
       (base.filter (fun m => gm_peer m <> excludePeerId) (g_members g)))) [].

Definition buildTargetedGroupRoute (g : group) (senderPeerId : string) (includeInvited : bool) : list string :=
  groupPeerIds g includeInvited senderPeerId.

(** A member that has been invited or has joined. *)
Definition in_group (m : group_member) : bool :=
  bool_decide (gm_state m = invited) || bool_decide (gm_state m = active).

(** ** Creating groups and events *)

(** A person as [createGroup] takes it. *)
Definition createGroup (clock : Z) (id : string) (name image : option json) (creator : json) (members : list json)
    (now : Z) : res group :=
  if negb (truthy (prop (Some creator) "peerId")) then Err "creator_required"
  else
    let optional (name : string) (v : option json) : fields := match v with Some j => [(name, j)] | None => [] end in
    let creatorId := prop (Some creator) "peerId" in
    let row (m : json) : json :=
      let m := Some m in
      let id := or_else (prop m "peerId") (prop m "id") in
      let is_active := bool_decide (prop m "state" = Some (JStr "active")) in
      JObj (optional "peerId" id
            ++ optional "displayName" (or_else (or_else (prop m "displayName") (prop m "name")) id)
            ++ [("role", JStr (if bool_decide (prop m "role" = Some (JStr "admin")) then "admin" else "member"));
                ("state", JStr (if is_active then "active" else "invited")); ("addedAt", JNum now)]
            ++ (if is_active then [("joinedAt", JNum now)] else [])) in
    let rows :=
      JObj (optional "peerId" creatorId ++ optional "displayName" (or_else (prop (Some creator) "displayName") creatorId)
            ++ [("role", JStr "admin"); ("state", JStr "active"); ("addedAt", JNum now); ("joinedAt", JNum now)])
      :: map row members in
    let? g := normalizeGroup clock (Some (JObj
      ([("id", JStr id)] ++ optional "name" name ++ optional "image" image
       ++ [("createdAt", JNum now); ("updatedAt", JNum now)] ++ optional "createdBy" creatorId
       ++ [("revision", JNum 1); ("members", JArr rows)]))) in
    if Nat.ltb (length (g_members g)) 2 then Err "group_member_required" else Ok g.

(** [eventBase]; the random event id is an argument. *)
Definition eventBase (eventId action groupId actorId : string) (now : Z) : fields :=
  [("kind", JStr "group-event-v1"); ("protocolVersion", JNum 1); ("eventId", JStr eventId); ("action", JStr action);
   ("groupId", JStr groupId); ("actorId", JStr actorId); ("timestamp", JNum now)].

(** The event constructors on a group.  (Called with a [{ groupId, actorId, ... }] object
    instead, they build the local mutations that [applyGroupEvent] recognises by
    [legacyMutation].) *)
Definition createGroupInviteEvent (clock : Z) (g : group) (eventId actorId recipientId : string) (now : Z) : res json :=
  if negb (isGroupAdmin g actorId) then Err "admin_required"
  else
    match getGroupMember g recipientId with
    | Some m =>
        if in_group m then
          let? snapshot := normalizeGroup clock (Some (group_json g)) in
          Ok (JObj (eventBase eventId "invite" (g_id g) actorId now
                    ++ [("recipientId", JStr recipientId); ("group", group_json snapshot)]))
        else Err "invalid_invitee"
    | None => Err "invalid_invitee"
    end.

Definition createGroupAcceptEvent (g : group) (eventId actorId : string) (now : Z) : res json :=
  match getGroupMember g actorId with
  | Some m =>
      if in_group m then
        Ok (JObj (eventBase eventId "accept" (g_id g) actorId now ++ [("inviteRevision", JNum (g_revision g))]))
      else Err "not_invited"
  | None => Err "not_invited"
  end.

Definition createGroupUpdateEvent (clock : Z) (previous : group) (next : option json)
    (eventId actorId : string) (reason : option json) (now : Z) : res json :=
  if negb (isGroupAdmin previous actorId) then Err "admin_required"
  else
    let? normalized := normalizeGroup clock next in
    if negb (bool_decide (g_id normalized = g_id previous)) then Err "group_id_mismatch"
    else if Z.leb (g_revision normalized) (g_revision previous) then Err "stale_group_revision"
    else
      let why := cleanString reason 40 in
      Ok (JObj (eventBase eventId "update" (g_id normalized) actorId now
                ++ [("reason", JStr (if bool_decide (why = "") then "metadata" else why));
                    ("group", group_json normalized)])).

Definition createGroupLeaveEvent (g : group) (eventId actorId : string) (now : Z) : res json :=
  if negb (isActiveGroupMember g actorId) then Err "active_member_required"
  else Ok (JObj (eventBase eventId "leave" (g_id g) actorId now ++ [("knownRevision", JNum (g_revision g))])).

(** ** Applying events *)

(** [{ ...group, revision: group.revision + 1, updatedAt: now, members }], normalised. *)
Definition next_revision (clock : Z) (g : group) (now : option json) (members : list json) : res group :=
  let f := set (group_fields g members) "revision" (JNum (g_revision g + 1)) in
  normalizeGroup clock (Some (JObj (match now with Some t => set f "updatedAt" t | None => del f "updatedAt" end))).

Definition set_opt (f : fields) (name : string) (v : option json) : fields :=
  match v with Some j => set f name j | None => del f name end.

Definition withAcceptedMember (clock : Z) (g : group) (peerId : string) (now : option json) : res group :=
  next_revision clock g now
    (map (fun m =>
       if bool_decide (gm_peer m = peerId) then
         let f := set (member_fields m) "state" (JStr "active") in
         JObj (del (set_opt f "joinedAt" (or_else (get f "joinedAt") now)) "removedAt")
       else JObj (member_fields m)) (g_members g)).

Definition withDepartedMember (clock : Z) (g : group) (peerId : string) (state : member_state) (now : option json)
    : res group :=
  next_revision clock g now
    (map (fun m =>
       if bool_decide (gm_peer m = peerId)
       then JObj (set_opt (set (member_fields m) "state" (JStr (state_name state))) "removedAt" now)
       else JObj (member_fields m)) (g_members g)).

(** The result of [applyGroupEvent]. *)
Inductive outcome :=
| Refused (error : string)
| Applied (g : group) (duplicate shouldAccept shouldBroadcast : bool).

Definition applied (g : res group) (shouldBroadcast : bool) : res outcome :=
  let? g := g in Ok (Applied g false false shouldBroadcast).

Definition is_str (v : option json) (s : string) : bool := bool_decide (v = Some (JStr s)).

(** A peer id of an event as [===] sees it: a value that is not a string equals no id, nor
    does [''], since member ids are not empty. *)
Definition as_id (v : option json) : string := match v with Some (JStr s) => s | _ => "" end.

Definition apply_invite (clock : Z) (localGroup : option json) (event : json) (self actor : string) : res outcome :=
  let ev := Some event in
  let invitee := prop ev "invitee" in
  if truthy (prop ev "legacyMutation") && truthy invitee && truthy localGroup then
    let? current := normalizeGroup clock localGroup in
    if negb (isGroupAdmin current actor) || negb (bool_decide (self = actor)) then Ok (Refused "admin_required")
    else
      match getGroupMember current (as_id (prop invitee "peerId")) with
      | Some _ => Ok (Applied current true false false)
      | None =>
          applied (next_revision clock current (prop ev "timestamp")
            (map (fun m => JObj (member_fields m)) (g_members current)
             ++ [JObj (set (set (default [] (as_object invitee)) "state" (JStr "invited")) "role" (JStr "member"))]))
            false
      end
  else if negb (is_str (prop ev "recipientId") self) then Ok (Refused "wrong_invitee")
  else
    match normalizeGroup clock (prop ev "group") with
    | Err _ => Ok (Refused "invalid_group_snapshot")
    | Ok snapshot =>
        if negb (is_str (prop ev "groupId") (g_id snapshot)) || negb (isGroupAdmin snapshot actor)
        then Ok (Refused "unauthorized_invite")
        else
          let accept :=
            match getGroupMember snapshot self with
            | Some m =>
                if in_group m then Ok (Applied snapshot false (negb (bool_decide (gm_state m = active))) false)
                else Ok (Refused "not_invited")
            | None => Ok (Refused "not_invited")
            end in
          if truthy localGroup then
            let? current := normalizeGroup clock localGroup in
            if negb (isGroupAdmin current actor) then Ok (Refused "admin_required")
            else if Z.leb (g_revision snapshot) (g_revision current) then Ok (Applied current true false false)
            else accept
          else accept
    end.

Definition apply_accept (clock : Z) (current : group) (event : json) (self actor : string) : res outcome :=
  let now := prop (Some event) "timestamp" in
  if truthy (prop (Some event) "legacyMutation") && bool_decide (actor = self) then
    match getGroupMember current actor with
    | Some m =>
        if negb (in_group m) then Ok (Refused "not_invited")
        else if bool_decide (gm_state m = active) then Ok (Applied current true false false)
        else applied (withAcceptedMember clock current actor now) false
    | None => Ok (Refused "not_invited")
    end
  else if bool_decide (actor = self) then Ok (Refused "self_accept_echo")
  else if negb (isGroupAdmin current self) then Ok (Refused "admin_required")
  else
    match getGroupMember current actor with
    | Some m =>
        if negb (in_group m) then Ok (Refused "not_invited")
        else if bool_decide (gm_state m = active) then Ok (Applied current true false false)
        else applied (withAcceptedMember clock current actor now) true
    | None => Ok (Refused "not_invited")
    end.

Definition apply_update (clock : Z) (current : group) (event : json) (self actor : string) : res outcome :=
  let ev := Some event in
  let patch := prop ev "patch" in
  if truthy (prop ev "legacyMutation") && truthy patch then
    if negb (isGroupAdmin current actor) || negb (bool_decide (self = actor)) then Ok (Refused "admin_required")
    else
      let members := map (fun m => JObj (member_fields m)) (g_members current) in
      let merged := fold_left (fun f kv => set f kv.1 kv.2) (default [] (as_object patch)) (group_fields current members) in
      let f := set (set (set (set merged "id" (JStr (g_id current))) "createdBy" (JStr (g_createdBy current)))
                      "members" (JArr members)) "revision" (JNum (g_revision current + 1)) in
      applied (normalizeGroup clock (Some (JObj (set_opt f "updatedAt" (prop ev "timestamp"))))) false
  else if negb (isGroupAdmin current actor) then Ok (Refused "admin_required")
  else
    match normalizeGroup clock (prop ev "group") with
    | Err _ => Ok (Refused "invalid_group_snapshot")
    | Ok next =>
        if negb (bool_decide (g_id next = g_id current)) || negb (bool_decide (g_createdBy next = g_createdBy current))
        then Ok (Refused "group_identity_changed")
        else if Z.leb (g_revision next) (g_revision current) then Ok (Applied current true false false)
        else Ok (Applied next false false false)
    end.

Definition apply_leave (clock : Z) (current : group) (event : json) (self actor : string) : res outcome :=
  if bool_decide (actor = self) then Ok (Refused "self_leave_echo")
  else if negb (isGroupAdmin current self) then Ok (Refused "admin_required")
  else if negb (isActiveGroupMember current actor) then Ok (Refused "active_member_required")
  else applied (withDepartedMember clock current actor left_group (prop (Some event) "timestamp")) true.

(** [applyGroupEvent], on a peer whose own id is not empty. *)
Definition applyGroupEvent (clock : Z) (localGroup : option json) (event : json) (self : string) : res outcome :=
  let ev := Some event in
  let actor := as_id (prop ev "actorId") in
  if negb (truthy ev) || negb (is_str (prop ev "kind") "group-event-v1")
     || negb (bool_decide (prop ev "protocolVersion" = Some (JNum 1)))
     || negb (isGroupChatId (prop ev "groupId")) || negb (truthy (prop ev "eventId"))
     || negb (truthy (prop ev "actorId"))
  then Ok (Refused "invalid_group_event")
  else if is_str (prop ev "action") "invite" then apply_invite clock localGroup event self actor
  else if negb (truthy localGroup) || negb (bool_decide (prop localGroup "id" = prop ev "groupId"))
  then Ok (Refused "unknown_group")
  else
    let? current := normalizeGroup clock localGroup in
    if is_str (prop ev "action") "accept" then apply_accept clock current event self actor
    else if is_str (prop ev "action") "update" then apply_update clock current event self actor
    else if is_str (prop ev "action") "leave" then apply_leave clock current event self actor
    else Ok (Refused "unsupported_group_action").

(** ** Messages, delivery and seen events *)

Definition GROUP_PAYLOAD_KINDS : list string := ["chat"; "file"; "sticker"; "contact-share"; "reaction"].

(** [None] is [{ ok: true }], [Some] the error. *)
Definition validateIncomingGroupMessage (g : group) (envelope : option json) (transportPeerId self : string)
    : option string :=
  if negb (truthy envelope) || negb (is_str (prop envelope "kind") "group-message-v1") then Some "invalid_group_message"
  else if negb (bool_decide (prop envelope "protocolVersion" = Some (JNum 1)))
          || negb (is_str (prop envelope "groupId") (g_id g)) then Some "group_mismatch"
  else if negb (truthy (prop envelope "messageId")) || negb (is_str (prop envelope "senderPeerId") transportPeerId)
  then Some "sender_mismatch"
  else if negb (isActiveGroupMember g transportPeerId) then Some "sender_not_member"
  else if negb (isActiveGroupMember g self) then Some "recipient_not_member"
  else
    let payload := prop envelope "payload" in
    if negb (truthy payload)
       || negb (existsb (fun k => is_str (prop payload "kind") k) GROUP_PAYLOAD_KINDS)
    then Some "unsupported_group_payload"
    else None.

(** [delivery[peerId]?.status || delivery[peerId] || 'offline']. *)
Definition delivery_status (delivery : fields) (peerId : string) : option json :=
  or_else (prop (get delivery peerId) "status") (or_else (get delivery peerId) (Some (JStr "offline"))).

Definition recipients_of (recipientIds : list string) : list string :=
  unique_list (base.filter (fun id => id <> "") recipientIds) [].

Definition is_delivered (status : option json) : bool := is_str status "delivered" || is_str status "seen".
Definition is_pending (status : option json) : bool := is_str status "sent" || is_str status "pending".

Definition deriveGroupDeliveryStatus (delivery : fields) (recipientIds : list string) : string :=
  let recipients := recipients_of recipientIds in
  if bool_decide (recipients = []) then "delivered"
  else
    let states := map (delivery_status delivery) recipients in
    let delivered := length (List.filter is_delivered states) in
    if Nat.eqb delivered (length recipients) then "delivered"
    else if Nat.ltb 0 delivered then "partial"
    else if existsb is_pending states then "pending"
    else "scheduled".

Record delivery_summary := mk_summary { total : nat; delivered : nat; pending : nat; offline : nat }.

Definition summarizeGroupDelivery (delivery : fields) (recipientIds : list string) : delivery_summary :=
  let recipients := recipients_of recipientIds in
  let '(d, p, o) :=
    fold_left (fun '(d, p, o) peerId =>
        let status := delivery_status delivery peerId in
        if is_delivered status then (S d, p, o)
        else if is_pending status then (d, S p, o)
        else (d, p, S o))
      recipients (0, 0, 0)%nat in
  mk_summary (length recipients) d p o.

(** [rememberGroupEventId]: whether the id was known, and the list kept. *)
Definition rememberGroupEventId (eventIds : list string) (eventId : string) (limit : Z) : bool * list string :=
  if bool_decide (eventId = "") || includes eventIds eventId
  then (negb (bool_decide (eventId = "")) && includes eventIds eventId, eventIds)
  else
    let all := eventIds ++ [eventId] in
    (false, drop (length all - Z.to_nat (Z.max 1 limit)) all).
