(* ===== verification/GroupChatFacts.v ===== *)
(** * Facts about group chats

    Normal groups, who may change a group and how, and the invitation round trip. *)

From S2P Require Import Prelude Json GroupChat.

(** ** Normal groups *)

Definition member_ok (m : group_member) : Prop :=
  gm_peer m <> "" /\ (String.length (gm_peer m) <= 96)%nat /\ (String.length (gm_name m) <= 80)%nat.

Definition creator_ok (g : group) : Prop :=
  exists m, m ∈ g_members g /\ gm_peer m = g_createdBy g /\ gm_role m = admin /\ gm_state m <> invited.

Record group_ok (g : group) : Prop := mk_group_ok {
  ok_members : NoDup (map gm_peer (g_members g)) /\ Forall member_ok (g_members g);
  ok_creator : creator_ok g;
  ok_revision : 1 <= g_revision g;
  ok_id : isGroupChatId (Some (JStr (g_id g))) = true;
  ok_name : g_name g <> "" /\ (String.length (g_name g) <= GROUP_MAX_NAME_CHARS)%nat;
  ok_image : (String.length (g_image g) <= GROUP_MAX_IMAGE_CHARS)%nat
}.

Lemma str_take_length n s : (String.length (str_take n s) <= n)%nat.
Proof. revert s. induction n as [|n IH]; intros [|c s]; simpl; try lia. specialize (IH s). lia. Qed.

Lemma cleanString_length v n : (String.length (cleanString v n) <= n)%nat.
Proof. apply str_take_length. Qed.

Lemma normalizeMember_ok raw now m : normalizeMember raw now = Some m -> member_ok m.
Proof.
  unfold normalizeMember. set (p := cleanString (or_else (prop (Some raw) "peerId") _) 96).
  case_bool_decide as Hp; [done|]. intros [= <-]. unfold member_ok. cbn [gm_peer gm_name].
  split; [done|]. split; apply cleanString_length.
Qed.

Lemma normalizeMembers_spec raws now seen :
  let l := normalizeMembers raws now seen in
  NoDup (map gm_peer l) /\ Forall member_ok l /\ Forall (fun p => p ∉ seen) (map gm_peer l).
Proof.
  revert seen. induction raws as [|raw raws IH]; intros seen; simpl; [split_and!; constructor|].
  destruct (normalizeMember raw now) as [m|] eqn:Em; [|apply IH].
  unfold includes. case_bool_decide as Es; [apply IH|]. simpl.
  destruct (IH (gm_peer m :: seen)) as (Hn & Hok & Hs). split_and!.
  - constructor; [|done]. rewrite Forall_forall in Hs. intros Hin. apply (Hs _ Hin). left.
  - constructor; [by eapply normalizeMember_ok|done].
  - constructor; [done|]. eapply Forall_impl; [exact Hs|]. intros p Hp Hin. apply Hp. by right.
Qed.

Lemma promote_peer c m : gm_peer (promote c m) = gm_peer m.
Proof. unfold promote. by case_bool_decide. Qed.

Lemma promote_peers c l : map gm_peer (map (promote c) l) = map gm_peer l.
Proof. rewrite map_map. apply map_ext. intros. apply promote_peer. Qed.

Lemma promote_ok c m : member_ok m -> member_ok (promote c m).
Proof. unfold promote. by case_bool_decide. Qed.

Lemma map_promote_ok c l : Forall member_ok l -> Forall member_ok (map (promote c) l).
Proof. rewrite !Forall_forall. intros H m [m' [-> Hm]]%list_elem_of_fmap. by apply promote_ok, H. Qed.

Lemma truthy_id v : isGroupChatId v = true -> v = Some (JStr (string_or_empty v)).
Proof.
  destruct v as [[| | |s| |]|]; try done. intros H. unfold string_or_empty, truthy.
  case_bool_decide as E; [subst s; discriminate H|]. done.
Qed.

Lemma normalizeGroup_spec clock raw g :
  normalizeGroup clock raw = Ok g ->
  prop raw "id" = Some (JStr (g_id g)) /\ g_createdBy g = cleanString (prop raw "createdBy") 96 /\
  g_revision g = Z.max 1 (finite (prop raw "revision") 1) /\ group_ok g.
Proof.
  unfold normalizeGroup. destruct (negb (truthy raw) || _) eqn:Ei; [done|]. bool_cases.
  apply truthy_id in H0 as Hid. set (ms := normalizeMembers _ _ _). set (c := cleanString (prop raw "createdBy") 96).
  destruct (bool_decide (c = "") || _) eqn:Ec; [done|]. bool_cases.
  unfold includes in H2. bool_cases. set (n := cleanString (prop raw "name") _).
  intros [= <-]. simpl. split; [done|]. split; [done|]. split; [done|].
  destruct (normalizeMembers_spec (default [] (as_array (prop raw "members"))) (finite (prop raw "createdAt") clock) [])
    as (Hn & Hok & _). fold ms in Hn, Hok.
  constructor; simpl.
  - rewrite promote_peers. split; [done|]. by apply map_promote_ok.
  - apply list_elem_of_fmap in H2 as (m & Hm & Hin). exists (promote c m). simpl.
    split; [by apply list_elem_of_fmap_2|]. rewrite promote_peer. split; [done|].
    unfold promote. rewrite bool_decide_eq_true_2 by done. simpl. split; [done|]. by case_bool_decide.
  - lia.
  - rewrite Hid in H0. exact H0.
  - case_bool_decide; [split; [discriminate|]; unfold GROUP_MAX_NAME_CHARS; simpl; lia|].
    split; [done|]. apply cleanString_length.
  - apply cleanString_length.
Qed.

(** Whatever value a peer sends as a group, what the code works with is well formed:
    no member twice, ids and names within their limits, the creator a joined administrator
    of the group, a group id and a positive revision. *)
Theorem normal_group_ok clock raw g : normalizeGroup clock raw = Ok g -> group_ok g.
Proof. intros H. by apply normalizeGroup_spec in H as (_ & _ & _ & Hok). Qed.

(** ** Who may change a group *)

Lemma getGroupMember_Some g p m : getGroupMember g p = Some m -> m ∈ g_members g /\ gm_peer m = p.
Proof.
  intros [Hin Hp]%find_some. bool_cases. split; [|done]. by apply list_elem_of_In.
Qed.

Lemma next_revision_spec clock g now ms g' :
  1 <= g_revision g -> next_revision clock g now ms = Ok g' -> group_ok g' /\ g_revision g' = g_revision g + 1.
Proof.
  unfold next_revision. intros Hg H.
  apply normalizeGroup_spec in H as (_ & _ & Hr & Hok). split; [done|]. rewrite Hr.
  destruct now; cbn [prop group_fields get set del bool_decide];
    rewrite ?get_set, ?get_del; simpl; lia.
Qed.

(** What an event does to a group: nothing if it is a repetition; otherwise the revision
    grows, and the actor is an administrator of the group, or one of its members whose
    acceptance or departure an administrator (or the actor itself) records. *)
Definition event_effect (current g : group) (actor self : string) (duplicate : bool) : Prop :=
  if duplicate then g = current
  else g_revision current < g_revision g /\
    (isGroupAdmin current actor = true \/
     exists m, getGroupMember current actor = Some m /\ in_group m = true /\
       (actor = self \/ isGroupAdmin current self = true)).

Lemma applied_Ok r b g d a b' : applied r b = Ok (Applied g d a b') -> r = Ok g /\ d = false.
Proof. unfold applied. by destruct r as [x|e]; simpl; [intros [= <- <- <- <-]|]. Qed.

Lemma next_effect clock current now ms b actor self g d a b' :
  group_ok current ->
  isGroupAdmin current actor = true \/
    (exists m, getGroupMember current actor = Some m /\ in_group m = true /\
       (actor = self \/ isGroupAdmin current self = true)) ->
  applied (next_revision clock current now ms) b = Ok (Applied g d a b') ->
  group_ok g /\ event_effect current g actor self d.
Proof.
  intros Hok Hauth [Hn ->]%applied_Ok. apply next_revision_spec in Hn as [? Hr]; [|apply Hok].
  split; [done|]. split; [lia|done].
Qed.

Lemma accept_effect clock current event self actor g d a b :
  group_ok current -> apply_accept clock current event self actor = Ok (Applied g d a b) ->
  group_ok g /\ event_effect current g actor self d.
Proof.
  intros Hok. unfold apply_accept.
  destruct (truthy _ && _) eqn:El.
  - bool_cases. destruct (getGroupMember current actor) as [m|] eqn:Em; [|done].
    destruct (in_group m) eqn:Ei; [|done]. cbn [negb]. case_bool_decide; [by intros [= <- <- <- <-]|].
    apply next_effect; [done|]. right. exists m. auto.
  - case_bool_decide as Es; [done|]. destruct (isGroupAdmin current self) eqn:Ea; [|done]. cbn [negb].
    destruct (getGroupMember current actor) as [m|] eqn:Em; [|done].
    destruct (in_group m) eqn:Ei; [|done]. cbn [negb]. case_bool_decide; [by intros [= <- <- <- <-]|].
    apply next_effect; [done|]. right. exists m. auto.
Qed.

Lemma active_in_group g p : isActiveGroupMember g p = true ->
  exists m, getGroupMember g p = Some m /\ in_group m = true.
Proof.
  unfold isActiveGroupMember, in_group. destruct (getGroupMember g p) as [m|]; [|done].
  intros H. exists m. by rewrite H, orb_true_r.
Qed.

Lemma leave_effect clock current event self actor g d a b :
  group_ok current -> apply_leave clock current event self actor = Ok (Applied g d a b) ->
  group_ok g /\ event_effect current g actor self d.
Proof.
  intros Hok. unfold apply_leave. case_bool_decide as Es; [done|].
  destruct (isGroupAdmin current self) eqn:Ea; [|done]. cbn [negb].
  destruct (isActiveGroupMember current actor) eqn:Em; [|done]. cbn [negb].
  apply active_in_group in Em as (m & Hm & Hi).
  apply next_effect; [done|]. right. exists m. auto.
Qed.

Lemma update_effect clock current event self actor g d a b :
  group_ok current -> apply_update clock current event self actor = Ok (Applied g d a b) ->
  group_ok g /\ event_effect current g actor self d.
Proof.
  intros Hok. unfold apply_update. set (merged := fold_left _ _ _).
  destruct (isGroupAdmin current actor) eqn:Ea.
  2:{ simpl. by destruct (truthy _ && _). }
  destruct (truthy _ && _); cbn [negb orb].
  - destruct (bool_decide (self = actor)); [|done]. cbn [negb].
    intros [Hn ->]%applied_Ok. apply normalizeGroup_spec in Hn as (_ & _ & Hr & Hg).
    split; [done|]. split; [|by left]. rewrite Hr.
    unfold set_opt. destruct (prop (Some event) "timestamp"); cbn [prop]; rewrite ?get_del, ?get_set; simpl;
      pose proof (ok_revision _ Hok); lia.
  - destruct (normalizeGroup clock (prop (Some event) "group")) as [next|] eqn:En; [|done].
    destruct (negb _ || _); [done|]. destruct (Z.leb _ _) eqn:El; [by intros [= <- <- <- <-]|].
    intros [= <- <- <- <-]. bool_cases. split; [apply (proj2 (proj2 (proj2 (normalizeGroup_spec _ _ _ En))))|]. split; [lia|by left].
Qed.

Lemma invite_effect clock local current event self actor g d a b :
  group_ok current -> truthy local = true -> normalizeGroup clock local = Ok current ->
  apply_invite clock local event self actor = Ok (Applied g d a b) ->
  group_ok g /\ event_effect current g actor self d.
Proof.
  intros Hok Hl Hc. unfold apply_invite. rewrite Hl, Hc. simpl res_bind.
  destruct (truthy _ && _ && _).
  - destruct (isGroupAdmin current actor) eqn:Ea; [|done].
    destruct (bool_decide (self = actor)); [|done]. cbn [negb orb].
    destruct (getGroupMember current _); [by intros [= <- <- <- <-]|].
    apply next_effect; [done|]. by left.
  - destruct (is_str _ self); [|done]. cbn [negb].
    destruct (normalizeGroup clock (prop (Some event) "group")) as [snapshot|] eqn:En; [|done].
    destruct (negb _ || _); [done|].
    destruct (isGroupAdmin current actor) eqn:Ea; [|done]. cbn [negb].
    destruct (Z.leb _ _) eqn:El; [by intros [= <- <- <- <-]|]. bool_cases.
    destruct (getGroupMember snapshot self) as [m|]; [|done]. destruct (in_group m); [|done].
    intros [= <- <- <- <-]. split; [apply (proj2 (proj2 (proj2 (normalizeGroup_spec _ _ _ En))))|]. split; [lia|by left].
Qed.

(** C28: an event of another peer, or of this one, changes a known group only if its actor
    may: an administrator of the group, or one of its members joining or leaving, whose
    event is recorded by an administrator or by the member itself.  Every change raises
    the revision, a repeated event leaves the group as it is, and the result is always a
    normal group, whatever snapshot the event carries. *)
Theorem group_changes_authorized clock local current event self g duplicate accept broadcast :
  truthy local = true -> normalizeGroup clock local = Ok current ->
  applyGroupEvent clock local event self = Ok (Applied g duplicate accept broadcast) ->
  group_ok g /\ event_effect current g (as_id (prop (Some event) "actorId")) self duplicate.
Proof.
  intros Hl Hc. pose proof (normalizeGroup_spec _ _ _ Hc) as (_ & _ & _ & Hok).
  unfold applyGroupEvent. set (actor := as_id _). rewrite Hl, Hc. cbn [negb orb res_bind].
  destruct (_ || _) eqn:Eg; [done|]. clear Eg.
  destruct (is_str _ "invite"); [by apply invite_effect|].
  destruct (negb _); [done|].
  destruct (is_str _ "accept"); [by apply accept_effect|].
  destruct (is_str _ "update"); [by apply update_effect|].
  destruct (is_str _ "leave"); [by apply leave_effect|done].
Qed.

(** ** Groups that normalisation leaves alone

    Cutting a name after trimming it can leave a trailing space, so normalisation is not
    idempotent on every value; it is on the groups whose texts are already trimmed. *)

Definition clean (n : nat) (s : string) : Prop := trim s = s /\ (String.length s <= n)%nat.

#[export] Instance clean_dec n s : Decision (clean n s).
Proof. unfold clean. apply _. Defined.

Record stable_member (m : group_member) : Prop := mk_stable_member {
  sm_peer : clean 96 (gm_peer m) /\ gm_peer m <> "";
  sm_name : clean 80 (gm_name m) /\ gm_name m <> "";
  sm_joined : gm_state m = active -> gm_joinedAt m <> None
}.

Record stable_group (g : group) : Prop := mk_stable_group {
  sg_ok : group_ok g;
  sg_members : Forall stable_member (g_members g);
  sg_texts : clean GROUP_MAX_NAME_CHARS (g_name g) /\ clean GROUP_MAX_IMAGE_CHARS (g_image g)
}.

Lemma str_take_all n s : (String.length s <= n)%nat -> str_take n s = s.
Proof. revert s. induction n as [|n IH]; intros [|c s]; simpl; try done; [lia|]. intros H. rewrite IH by lia. done. Qed.

Lemma cleanString_clean n s : clean n s -> cleanString (Some (JStr s)) n = s.
Proof.
  intros [Ht Hl]. unfold cleanString, string_or_empty, truthy.
  case_bool_decide as E; cbn [negb]; [subst s; by destruct n|].
  cbn [to_string]. by rewrite Ht, str_take_all.
Qed.

Lemma state_name_inv s : GROUP_MEMBER_STATES (Some (JStr (state_name s))) = s.
Proof. by destruct s. Qed.

Lemma role_name_inv r : GROUP_MEMBER_ROLES (Some (JStr (role_name r))) = r.
Proof. by destruct r. Qed.

Lemma or_else_text s v : s <> "" -> or_else (Some (JStr s)) v = Some (JStr s).
Proof. intros H. unfold or_else, truthy. by rewrite bool_decide_eq_false_2. Qed.

(** Reading a member from an object that holds its properties. *)
Lemma normalizeMember_fields f now m :
  stable_member m ->
  get f "peerId" = Some (JStr (gm_peer m)) -> get f "displayName" = Some (JStr (gm_name m)) ->
  get f "role" = Some (JStr (role_name (gm_role m))) -> get f "state" = Some (JStr (state_name (gm_state m))) ->
  get f "addedAt" = Some (JNum (gm_addedAt m)) ->
  finite_opt (get f "joinedAt") (if bool_decide (gm_state m = active) then Some now else None) = gm_joinedAt m ->
  finite_opt (get f "removedAt") None = gm_removedAt m ->
  normalizeMember (JObj f) now = Some m.
Proof.
  intros [[Hp Hp0] [Hn Hn0] _] H1 H2 H3 H4 H5 H6 H7. unfold normalizeMember. cbn [prop].
  rewrite H1, H2, H3, H4, H5, H7, or_else_text, cleanString_clean, bool_decide_eq_false_2 by done.
  rewrite or_else_text, or_else_text, cleanString_clean, role_name_inv, state_name_inv, H6 by done. by destruct m.
Qed.

Lemma normalizeMember_json now m : stable_member m -> normalizeMember (JObj (member_fields m)) now = Some m.
Proof.
  intros Hm. apply normalizeMember_fields; try done.
  - pose proof (sm_joined _ Hm). destruct m as [p n r s a [j|] [x|]]; simpl in *; try done;
      case_bool_decide; naive_solver.
  - by destruct m as [p n r s a [j|] [x|]].
Qed.

Lemma normalizeMembers_all raws ms now seen :
  Forall2 (fun raw m => normalizeMember raw now = Some m) raws ms ->
  NoDup (map gm_peer ms) -> Forall (fun p => p ∉ seen) (map gm_peer ms) ->
  normalizeMembers raws now seen = ms.
Proof.
  intros Hf. revert seen. induction Hf as [|raw m raws ms Hm Hf IH]; intros seen Hn Hs; [done|].
  simpl in *. rewrite Hm. apply NoDup_cons in Hn as [Hn1 Hn2]. apply Forall_cons in Hs as [Hs1 Hs2].
  unfold includes. rewrite bool_decide_eq_false_2 by done. f_equal. apply IH; [done|].
  rewrite Forall_forall in Hs2 |- *. intros p Hp [->|Hin]%elem_of_cons; [done|]. by apply (Hs2 p).
Qed.

Lemma member_unique g m m' :
  NoDup (map gm_peer (g_members g)) -> m ∈ g_members g -> m' ∈ g_members g -> gm_peer m = gm_peer m' -> m = m'.
Proof.
  generalize (g_members g). intros l. induction l as [|x l IH]; [set_solver|]. simpl.
  rewrite NoDup_cons, !elem_of_cons. intros [Hx Hn] [->|H1] [->|H2] He; auto; exfalso; apply Hx.
  - rewrite He. by apply list_elem_of_fmap_2.
  - rewrite <- He. by apply list_elem_of_fmap_2.
Qed.

Lemma getGroupMember_in g m :
  NoDup (map gm_peer (g_members g)) -> m ∈ g_members g -> getGroupMember g (gm_peer m) = Some m.
Proof.
  intros Hn Hm. destruct (getGroupMember g (gm_peer m)) as [m'|] eqn:E.
  - apply getGroupMember_Some in E as [? ?]. f_equal. by apply (member_unique g).
  - exfalso. apply list_elem_of_In in Hm. eapply find_none in E; [|exact Hm]. bool_cases. done.
Qed.

Lemma promote_id g : NoDup (map gm_peer (g_members g)) -> creator_ok g ->
  map (promote (g_createdBy g)) (g_members g) = g_members g.
Proof.
  intros Hn (c & Hc & Hp & Hr & Hs). rewrite <- (map_id (g_members g)) at 2. apply map_ext_in.
  intros m Hm%list_elem_of_In. unfold promote. case_bool_decide as E; [|done].
  assert (m = c) as -> by (apply (member_unique g); congruence).
  rewrite (bool_decide_eq_false_2 (gm_state c = invited)) by done. destruct c. simpl in *. by subst.
Qed.

Lemma truthy_text s : s <> "" -> truthy (Some (JStr s)) = true.
Proof. intros H. unfold truthy. by rewrite bool_decide_eq_false_2. Qed.

Lemma string_or_empty_text s : string_or_empty (Some (JStr s)) = s.
Proof. unfold string_or_empty, truthy. case_bool_decide; by subst. Qed.

Lemma creator_clean g : Forall stable_member (g_members g) -> creator_ok g ->
  clean 96 (g_createdBy g) /\ g_createdBy g <> "" /\ g_createdBy g ∈ map gm_peer (g_members g).
Proof.
  rewrite Forall_forall. intros Hs (c & Hc & <- & _). destruct (sm_peer _ (Hs c Hc)).
  split_and!; [done|done|]. by apply list_elem_of_fmap_2.
Qed.

(** Normalising an object that holds the properties of a stable group. *)
Lemma normalizeGroup_fields clock f raws g :
  stable_group g ->
  get f "id" = Some (JStr (g_id g)) -> get f "createdAt" = Some (JNum (g_createdAt g)) ->
  get f "createdBy" = Some (JStr (g_createdBy g)) -> get f "name" = Some (JStr (g_name g)) ->
  get f "image" = Some (JStr (g_image g)) -> get f "revision" = Some (JNum (g_revision g)) ->
  finite (get f "updatedAt") (g_createdAt g) = g_updatedAt g -> get f "members" = Some (JArr raws) ->
  Forall2 (fun raw m => normalizeMember raw (g_createdAt g) = Some m) raws (g_members g) ->
  normalizeGroup clock (Some (JObj f)) = Ok g.
Proof.
  intros [Hok Hs [Hn Hi]] H1 H2 H3 H4 H5 H6 H7 H8 Hm.
  destruct (creator_clean g Hs (ok_creator _ Hok)) as (Hc & Hc0 & Hin).
  unfold normalizeGroup. cbn [prop]. rewrite H1, H2, H3, H4, H5, H6, H8.
  rewrite (ok_id _ Hok). cbn [negb orb truthy finite as_array default id from_option]. rewrite H7.
  rewrite (normalizeMembers_all raws (g_members g)); [|done|apply Hok|].
  2:{ rewrite Forall_forall. intros p _. apply not_elem_of_nil. }
  rewrite !cleanString_clean by done.
  rewrite (bool_decide_eq_false_2 (g_createdBy g = "")) by done. unfold includes.
  rewrite bool_decide_eq_true_2 by done. cbn [negb orb].
  rewrite (bool_decide_eq_false_2 (g_name g = "")) by apply (ok_name _ Hok).
  rewrite promote_id, string_or_empty_text, Z.max_r; [by destruct g|apply Hok..].
Qed.

Lemma normalize_stable clock g : stable_group g -> normalizeGroup clock (Some (group_json g)) = Ok g.
Proof.
  intros Hg. apply normalizeGroup_fields with (map (fun m => JObj (member_fields m)) (g_members g)); try done.
  pose proof (sg_members _ Hg) as Hs. induction Hs as [|m l Hm Hs IH]; constructor; [|done].
  by apply normalizeMember_json.
Qed.

(** ** Joining and leaving *)

(** A new revision of a group with one member changed. *)
Definition with_member (g : group) (now : option json) (p : string) (f : group_member -> group_member) : group :=
  g <| g_revision := g_revision g + 1 |> <| g_updatedAt := finite now (g_createdAt g) |>
    <| g_members := map (fun m => if bool_decide (gm_peer m = p) then f m else m) (g_members g) |>.

Definition accepted (createdAt : Z) (now : option json) (m : group_member) : group_member :=
  m <| gm_state := active |> <| gm_removedAt := None |>
    <| gm_joinedAt := finite_opt (or_else (option_map JNum (gm_joinedAt m)) now) (Some createdAt) |>.

Definition departed (state : member_state) (now : option json) (m : group_member) : group_member :=
  m <| gm_state := state |> <| gm_removedAt := finite_opt now None |>.

(** What joining and leaving keep of a member. *)
Definition keeps_identity (f : group_member -> group_member) : Prop :=
  forall m, stable_member m ->
    stable_member (f m) /\ gm_peer (f m) = gm_peer m /\ gm_name (f m) = gm_name m /\
    gm_role (f m) = gm_role m /\ gm_state (f m) <> invited.

Lemma accepted_keeps c now : keeps_identity (accepted c now).
Proof.
  intros m Hm. split_and!; try done. destruct Hm. constructor; try done. simpl. intros _.
  unfold finite_opt. by repeat case_match.
Qed.

Lemma departed_keeps now : keeps_identity (departed left_group now).
Proof. intros m Hm. split_and!; try done. destruct Hm. by constructor. Qed.

Lemma with_member_peers g now p f :
  (forall m, m ∈ g_members g -> gm_peer (f m) = gm_peer m) ->
  map gm_peer (g_members (with_member g now p f)) = map gm_peer (g_members g).
Proof.
  intros Hf. simpl. rewrite map_map. apply map_ext_in. intros m Hm%list_elem_of_In.
  case_bool_decide; auto.
Qed.

Lemma stable_with_member g now p f :
  stable_group g -> keeps_identity f -> stable_group (with_member g now p f).
Proof.
  intros Hg Hf. pose proof (sg_members _ Hg) as Hs. rewrite Forall_forall in Hs.
  pose proof (sg_ok _ Hg) as Hok. destruct (ok_members _ Hok) as [Hn Hm]. rewrite Forall_forall in Hm.
  assert (Hp : forall m, m ∈ g_members g -> gm_peer (f m) = gm_peer m) by (intros m H; apply Hf, Hs, H).
  constructor; [constructor|..]; try apply Hok; try apply Hg.
  - rewrite with_member_peers by done. split; [done|]. rewrite Forall_forall. simpl.
    intros m' (m & -> & Hin)%list_elem_of_fmap. case_bool_decide; [|auto].
    destruct (Hf m (Hs m Hin)) as (_ & H1 & H2 & _). unfold member_ok. rewrite H1, H2. by apply Hm.
  - destruct (ok_creator _ Hok) as (c & Hin & Hc & Hr & Hi).
    exists (if bool_decide (gm_peer c = p) then f c else c). destruct (Hf c (Hs c Hin)) as (_ & H1 & _ & H3 & H4).
    split; [simpl; apply list_elem_of_fmap; by exists c|]. simpl. case_bool_decide; [|done].
    by rewrite H1, H3.
  - simpl. pose proof (ok_revision _ Hok). lia.
  - rewrite Forall_forall. simpl. intros m' (m & -> & Hin)%list_elem_of_fmap.
    case_bool_decide; [apply Hf|]; by apply Hs.
Qed.

(** [next_revision] on objects that stand for the changed members. *)
Lemma next_revision_member clock g now p f row :
  stable_group g -> keeps_identity f ->
  (forall m, m ∈ g_members g -> gm_peer m = p -> normalizeMember (row m) (g_createdAt g) = Some (f m)) ->
  next_revision clock g now
    (map (fun m => if bool_decide (gm_peer m = p) then row m else JObj (member_fields m)) (g_members g))
  = Ok (with_member g now p f).
Proof.
  intros Hg Hf Hrow. unfold next_revision. set (raws := map _ (g_members g)).
  assert (Hraws : Forall2 (fun raw m => normalizeMember raw (g_createdAt g) = Some m) raws
    (g_members (with_member g now p f))).
  { unfold raws. simpl. pose proof (sg_members _ Hg) as Hs. revert Hrow.
    induction Hs as [|m l Hm Hs IH]; intros Hrow; constructor; [|apply IH; set_solver].
    case_bool_decide; [apply Hrow; set_solver|by apply normalizeMember_json]. }
  apply normalizeGroup_fields with raws; [by apply stable_with_member|..|exact Hraws];
    destruct now; rewrite ?get_del, ?get_set; simpl; try done.
Qed.

Lemma withAcceptedMember_ok clock g p now :
  stable_group g -> withAcceptedMember clock g p now = Ok (with_member g now p (accepted (g_createdAt g) now)).
Proof.
  intros Hg. apply next_revision_member; [done|apply accepted_keeps|]. intros m Hm _.
  pose proof (sg_members _ Hg) as Hs. rewrite Forall_forall in Hs. specialize (Hs m Hm).
  assert (Ej : get (set (member_fields m) "state" (JStr "active")) "joinedAt" = option_map JNum (gm_joinedAt m)).
  { rewrite get_set. simpl. by destruct m as [????? [j|] [r|]]. }
  rewrite Ej. apply normalizeMember_fields; [by apply accepted_keeps|..];
    unfold set_opt; destruct (or_else _ now) as [j|] eqn:E; repeat (rewrite ?get_del, ?get_set; simpl); try done;
    by rewrite E.
Qed.

Lemma withDepartedMember_ok clock g p now :
  stable_group g ->
  withDepartedMember clock g p left_group now = Ok (with_member g now p (departed left_group now)).
Proof.
  intros Hg. apply next_revision_member; [done|apply departed_keeps|]. intros m Hm _.
  pose proof (sg_members _ Hg) as Hs. rewrite Forall_forall in Hs. specialize (Hs m Hm).
  apply normalizeMember_fields; [by apply departed_keeps|..];
    unfold set_opt; destruct now as [j|]; repeat (rewrite ?get_del, ?get_set; simpl); try done;
    by destruct m as [????? [k|] [r|]].
Qed.

(** A member that is no administrator can change nothing of a group but its own
    membership: its events leave the name, the image, the creator and every other member
    as they are, and only turn its own invitation into a membership or end it. *)
Theorem member_changes_only_itself clock current event self g accept broadcast :
  stable_group current ->
  applyGroupEvent clock (Some (group_json current)) event self = Ok (Applied g false accept broadcast) ->
  let actor := as_id (prop (Some event) "actorId") in
  isGroupAdmin current actor = false ->
  exists m f, getGroupMember current actor = Some m /\
    g = with_member current (prop (Some event) "timestamp") actor f /\ keeps_identity f /\
    (gm_state m = invited /\ gm_state (f m) = active \/ gm_state m = active /\ gm_state (f m) = left_group).
Proof.
  intros Hg. unfold applyGroupEvent. set (actor := as_id _). rewrite (normalize_stable clock current Hg).
  cbv zeta. intros H Hadmin. revert H. cbn [res_bind].
  destruct (_ || _) eqn:Eg; [done|]. clear Eg.
  destruct (is_str _ "invite").
  { unfold apply_invite. rewrite normalize_stable by done. cbn [res_bind]. rewrite Hadmin.
    destruct (truthy _ && _ && _); [done|]. destruct (is_str _ self); [|done]. cbn [negb orb].
    destruct (normalizeGroup clock _); [|done]. by destruct (negb _ || _). }
  cbn [orb]. destruct (negb (bool_decide _)); [done|].
  destruct (is_str _ "accept"); [|destruct (is_str _ "update"); [|destruct (is_str _ "leave"); [|done]]].
  - unfold apply_accept. rewrite withAcceptedMember_ok by done. set (f := accepted _ _).
    assert (Hin : forall m b, getGroupMember current actor = Some m -> in_group m = true -> gm_state m <> active ->
      applied (Ok (with_member current (prop (Some event) "timestamp") actor f)) b = Ok (Applied g false accept broadcast) ->
      exists m f, getGroupMember current actor = Some m /\
        g = with_member current (prop (Some event) "timestamp") actor f /\ keeps_identity f /\
        (gm_state m = invited /\ gm_state (f m) = active \/ gm_state m = active /\ gm_state (f m) = left_group)).
    { intros m b Hm Hi Ha [[= <-] _]%applied_Ok. exists m, f. split_and!; [done|done|apply accepted_keeps|].
      left. unfold in_group in Hi. bool_cases; done. }
    destruct (truthy _ && _); [|destruct (bool_decide (actor = self)); [done|];
      destruct (isGroupAdmin current self); [|done]]; cbn [negb];
      (destruct (getGroupMember current actor) as [m|] eqn:Em; [|done]);
      (destruct (in_group m) eqn:Ei; [|done]); cbn [negb]; case_bool_decide; try done; by apply (Hin m _ eq_refl).
  - unfold apply_update. rewrite Hadmin. by destruct (truthy _ && _).
  - unfold apply_leave. rewrite withDepartedMember_ok by done.
    case_bool_decide; [done|]. destruct (isGroupAdmin current self); [|done]. cbn [negb].
    destruct (isActiveGroupMember current actor) eqn:Ea; [|done]. cbn [negb].
    intros [[= <-] _]%applied_Ok. unfold isActiveGroupMember in Ea.
    destruct (getGroupMember current actor) as [m|]; [|done]. bool_cases.
    exists m, (departed left_group (prop (Some event) "timestamp")). split_and!; auto using departed_keeps.
Qed.

(** ** The invitation handshake *)

Lemma is_str_refl s : is_str (Some (JStr s)) s = true.
Proof. unfold is_str. by apply bool_decide_eq_true_2. Qed.

(** An event with the header of [eventBase] passes the checks of [applyGroupEvent]. *)
Lemma applyGroupEvent_base clock local id action g actor t rest self :
  let event := JObj (eventBase id action (g_id g) actor t ++ rest) in
  stable_group g -> id <> "" -> actor <> "" ->
  applyGroupEvent clock local event self =
    if bool_decide (action = "invite") then apply_invite clock local event self actor
    else if negb (truthy local) || negb (bool_decide (prop local "id" = Some (JStr (g_id g)))) then Ok (Refused "unknown_group")
    else
      let? current := normalizeGroup clock local in
      if bool_decide (action = "accept") then apply_accept clock current event self actor
      else if bool_decide (action = "update") then apply_update clock current event self actor
      else if bool_decide (action = "leave") then apply_leave clock current event self actor
      else Ok (Refused "unsupported_group_action").
Proof.
  intros event Hg Hid Ha.
  assert (Hs : forall x y, is_str (Some (JStr x)) y = bool_decide (x = y)).
  { intros x y. unfold is_str. apply bool_decide_ext. naive_solver. }
  assert (Hp : prop (Some event) "kind" = Some (JStr "group-event-v1") /\
    prop (Some event) "protocolVersion" = Some (JNum 1) /\ prop (Some event) "eventId" = Some (JStr id) /\
    prop (Some event) "action" = Some (JStr action) /\ prop (Some event) "groupId" = Some (JStr (g_id g)) /\
    prop (Some event) "actorId" = Some (JStr actor)) by (split_and!; reflexivity).
  destruct Hp as (H1 & H2 & H3 & H4 & H5 & H6). unfold applyGroupEvent. rewrite H1, H2, H3, H4, H5, H6, !Hs.
  rewrite !truthy_text by done. rewrite (ok_id g) by apply Hg. reflexivity.
Qed.

Lemma stable_in_group g p m :
  stable_group g -> getGroupMember g p = Some m -> p <> "" /\ m ∈ g_members g /\ gm_peer m = p.
Proof.
  intros Hg H. apply getGroupMember_Some in H as [Hm <-]. pose proof (sg_members _ Hg) as Hs.
  rewrite Forall_forall in Hs. split; [apply (sm_peer _ (Hs m Hm))|done].
Qed.

Lemma admin_member g p : isGroupAdmin g p = true ->
  exists m, getGroupMember g p = Some m /\ gm_state m = active /\ gm_role m = admin.
Proof. unfold isGroupAdmin. destruct (getGroupMember g p) as [m|]; [|done]. intros H. bool_cases. eauto. Qed.

Lemma find_map_member p a f (l : list group_member) :
  (forall m, m ∈ l -> gm_peer (f m) = gm_peer m) ->
  find (fun m => bool_decide (gm_peer m = p)) (map (fun m => if bool_decide (gm_peer m = a) then f m else m) l)
  = option_map (fun m => if bool_decide (gm_peer m = a) then f m else m)
      (find (fun m => bool_decide (gm_peer m = p)) l).
Proof.
  induction l as [|m l IH]; intros Hf; [done|]. simpl.
  assert (gm_peer (if bool_decide (gm_peer m = a) then f m else m) = gm_peer m) as ->.
  { case_bool_decide; [apply Hf; left|done]. }
  case_bool_decide; [done|]. apply IH. set_solver.
Qed.

Lemma getGroupMember_with g now p f q :
  stable_group g -> keeps_identity f ->
  getGroupMember (with_member g now p f) q
  = option_map (fun m => if bool_decide (gm_peer m = p) then f m else m) (getGroupMember g q).
Proof.
  intros Hg Hf. unfold getGroupMember. simpl. apply find_map_member. intros m Hm.
  pose proof (sg_members _ Hg) as Hs. rewrite Forall_forall in Hs. apply Hf, Hs, Hm.
Qed.

Lemma accept_by_admin clock g m a b e t :
  stable_group g -> isGroupAdmin g a = true -> getGroupMember g b = Some m -> gm_state m = invited ->
  prop (Some e) "legacyMutation" = None -> prop (Some e) "timestamp" = Some (JNum t) ->
  apply_accept clock g e a b
  = Ok (Applied (with_member g (Some (JNum t)) b (accepted (g_createdAt g) (Some (JNum t)))) false false true).
Proof.
  intros Hg Ha Hb Hm He Ht. unfold apply_accept. rewrite He, Ht. cbn [truthy andb].
  assert (b <> a).
  { intros ->. apply admin_member in Ha as (m' & Hm' & Hs & _). congruence. }
  rewrite bool_decide_eq_false_2 by done. rewrite Ha, Hb. cbn [negb].
  unfold in_group. rewrite Hm. simpl. by rewrite withAcceptedMember_ok.
Qed.

(** The invitation of a member by an administrator always completes.  The invited peer
    accepts the invitation event, the administrator accepts the answer and broadcasts an
    update, and the update leaves both with the same group, one revision on, of which the
    invited peer is an active member.  Neither refuses a step and neither clock matters. *)
Theorem invitation_handshake ca cb g a b m e1 e2 e3 t1 t2 t3 :
  stable_group g -> isGroupAdmin g a = true -> getGroupMember g b = Some m -> gm_state m = invited ->
  e1 <> "" -> e2 <> "" -> e3 <> "" ->
  exists inv acc upd g',
    createGroupInviteEvent ca g e1 a b t1 = Ok inv /\
    applyGroupEvent cb None inv b = Ok (Applied g false true false) /\
    createGroupAcceptEvent g e2 b t2 = Ok acc /\
    applyGroupEvent ca (Some (group_json g)) acc a = Ok (Applied g' false false true) /\
    createGroupUpdateEvent ca g (Some (group_json g')) e3 a (Some (JStr "member-accepted")) t3 = Ok upd /\
    applyGroupEvent cb (Some (group_json g)) upd b = Ok (Applied g' false false false) /\
    g_revision g' = g_revision g + 1 /\ isActiveGroupMember g' b = true /\ group_ok g'.
Proof.
  intros Hg Ha Hb Hm He1 He2 He3.
  destruct (admin_member _ _ Ha) as (ma & Hma & Hsa & Hra).
  destruct (stable_in_group _ _ _ Hg Hma) as (Ha0 & _ & _). destruct (stable_in_group _ _ _ Hg Hb) as (Hb0 & _ & Hp).
  assert (Hi : in_group m = true) by (unfold in_group; by rewrite Hm).
  set (g' := with_member g (Some (JNum t2)) b (accepted (g_createdAt g) (Some (JNum t2)))).
  assert (Hg' : stable_group g') by (apply stable_with_member; [done|apply accepted_keeps]).
  assert (Hl : forall h, stable_group h -> truthy (Some (group_json h)) = true) by done.
  eexists _, _, _, g'. split_and!.
  - unfold createGroupInviteEvent. rewrite Ha, Hb, Hi, normalize_stable by done. reflexivity.
  - rewrite applyGroupEvent_base by done. simpl bool_decide. unfold apply_invite.
    match goal with |- context [negb (is_str ?r b)] => change r with (Some (JStr b)) end.
    match goal with |- context [normalizeGroup cb ?r] => change r with (Some (group_json g)) end.
    rewrite is_str_refl, normalize_stable by done.
    match goal with |- context [is_str ?r (g_id g)] => change r with (Some (JStr (g_id g))) end.
    rewrite is_str_refl, Ha, Hb, Hi, Hm. by rewrite andb_false_r.
  - unfold createGroupAcceptEvent. rewrite Hb, Hi. reflexivity.
  - rewrite applyGroupEvent_base by done. rewrite normalize_stable, Hl by done.
    rewrite (bool_decide_eq_true_2 (prop (Some (group_json g)) "id" = _)) by done.
    simpl bool_decide. cbn [negb orb res_bind]. by apply accept_by_admin with m.
  - unfold createGroupUpdateEvent. rewrite Ha, normalize_stable by done. cbn [negb res_bind].
    rewrite bool_decide_eq_true_2 by done. cbn [negb].
    assert (Z.leb (g_revision g') (g_revision g) = false) as -> by (apply Z.leb_gt; simpl; lia).
    reflexivity.
  - change (g_id g') with (g_id g). rewrite applyGroupEvent_base by done. rewrite normalize_stable, Hl by done.
    rewrite (bool_decide_eq_true_2 (prop (Some (group_json g)) "id" = _)) by done.
    simpl bool_decide. cbn [negb orb res_bind]. unfold apply_update. rewrite Ha.
    match goal with |- context [truthy (prop ?e "legacyMutation")] =>
      change (prop e "legacyMutation") with (@None json) end. cbn [truthy andb].
    match goal with |- context [normalizeGroup cb ?r] => change r with (Some (group_json g')) end.
    rewrite normalize_stable by done. cbn [negb].
    rewrite (bool_decide_eq_true_2 (g_id g' = _)), (bool_decide_eq_true_2 (g_createdBy g' = _)) by done. cbn [negb orb].
    assert (Z.leb (g_revision g') (g_revision g) = false) as -> by (apply Z.leb_gt; simpl; lia). done.
  - done.
  - unfold isActiveGroupMember. unfold g'. rewrite getGroupMember_with, Hb by (done || apply accepted_keeps).
    simpl. rewrite (bool_decide_eq_true_2 (gm_peer m = b)) by done. by apply bool_decide_eq_true_2.
  - apply Hg'.
Qed.

(** ** Routes and messages *)

Lemma includes_spec (l : list string) x : includes l x = true <-> x ∈ l.
Proof. unfold includes. apply bool_decide_eq_true. Qed.

Lemma unique_list_spec l seen :
  NoDup (unique_list l seen) /\ forall x, x ∈ unique_list l seen <-> x ∈ l /\ x ∉ seen.
Proof.
  revert seen. induction l as [|y l IH]; intros seen; simpl; [split; [constructor|set_solver]|].
  destruct (includes seen y) eqn:E.
  - rewrite includes_spec in E. destruct (IH seen) as [Hn Hx]. split; [done|].
    intros x. rewrite Hx, elem_of_cons. naive_solver.
  - assert (y ∉ seen) by (rewrite <- includes_spec; congruence). destruct (IH (y :: seen)) as [Hn Hx]. split.
    + constructor; [|done]. rewrite Hx. set_solver.
    + intros x. rewrite elem_of_cons, Hx, !elem_of_cons.
      destruct (decide (x = y)); naive_solver.
Qed.

Lemma route_spec g sender includeInvited p :
  p ∈ buildTargetedGroupRoute g sender includeInvited <->
  p <> sender /\ exists m, m ∈ g_members g /\ gm_peer m = p /\
    (gm_state m = active \/ includeInvited = true /\ gm_state m = invited).
Proof.
  unfold buildTargetedGroupRoute, groupPeerIds. rewrite (proj2 (unique_list_spec _ _)).
  rewrite list_elem_of_fmap. setoid_rewrite list_elem_of_filter. setoid_rewrite list_elem_of_filter.
  pose proof (not_elem_of_nil p). naive_solver.
Qed.

Lemma active_member g p :
  NoDup (map gm_peer (g_members g)) ->
  isActiveGroupMember g p = true <-> exists m, m ∈ g_members g /\ gm_peer m = p /\ gm_state m = active.
Proof.
  intros Hn. unfold isActiveGroupMember. split.
  - destruct (getGroupMember g p) as [m|] eqn:E; [|done]. intros H. bool_cases.
    apply getGroupMember_Some in E as []. eauto.
  - intros (m & Hm & <- & Hs). rewrite getGroupMember_in by done. by apply bool_decide_eq_true_2.
Qed.

(** What a sender puts around a payload. *)
Definition message_of (g : group) (sender messageId kind : string) (payload : fields) : json :=
  JObj [("kind", JStr "group-message-v1"); ("protocolVersion", JNum 1); ("groupId", JStr (g_id g));
        ("messageId", JStr messageId); ("senderPeerId", JStr sender);
        ("payload", JObj (("kind", JStr kind) :: payload))].

Lemma validate_message g sender messageId kind payload transport p :
  messageId <> "" -> kind ∈ GROUP_PAYLOAD_KINDS ->
  validateIncomingGroupMessage g (Some (message_of g sender messageId kind payload)) transport p = None <->
  sender = transport /\ isActiveGroupMember g transport = true /\ isActiveGroupMember g p = true.
Proof.
  intros Hm Hk. unfold validateIncomingGroupMessage.
  assert (Hp : existsb (fun k => is_str (Some (JStr kind)) k) GROUP_PAYLOAD_KINDS = true).
  { apply existsb_exists. exists kind. split; [by apply list_elem_of_In|]. apply is_str_refl. }
  set (e := Some (message_of _ _ _ _ _)).
  assert (He : prop e "kind" = Some (JStr "group-message-v1") /\ prop e "protocolVersion" = Some (JNum 1) /\
    prop e "groupId" = Some (JStr (g_id g)) /\ prop e "messageId" = Some (JStr messageId) /\
    prop e "senderPeerId" = Some (JStr sender) /\ prop e "payload" = Some (JObj (("kind", JStr kind) :: payload)))
    by (split_and!; reflexivity).
  destruct He as (-> & -> & -> & -> & -> & ->).
  change (prop (Some (JObj (("kind", JStr kind) :: payload))) "kind") with (Some (JStr kind)).
  rewrite Hp, !is_str_refl, truthy_text, (bool_decide_eq_true_2 (Some (JNum 1) = _)) by done. cbn [truthy negb orb e].
  unfold is_str. case_bool_decide as E; [|naive_solver]. injection E as ->.
  destruct (isActiveGroupMember g transport), (isActiveGroupMember g p); simpl; naive_solver.
Qed.

(** A message of an active member is sent to each peer that accepts it and to no other
    and to none twice: the recipients of the route are the other peers for which the
    validation at the receiver succeeds, and a copy relayed by anyone but its sender is
    refused everywhere. *)
Theorem route_reaches_who_accepts g sender messageId kind payload :
  group_ok g -> isActiveGroupMember g sender = true -> messageId <> "" -> kind ∈ GROUP_PAYLOAD_KINDS ->
  let message := Some (message_of g sender messageId kind payload) in
  NoDup (buildTargetedGroupRoute g sender false) /\
  (forall p, p ∈ buildTargetedGroupRoute g sender false <->
     p <> sender /\ validateIncomingGroupMessage g message sender p = None) /\
  (forall relay p, relay <> sender -> validateIncomingGroupMessage g message relay p <> None).
Proof.
  intros Hok Hs Hm Hk message. unfold message. split_and!.
  - apply unique_list_spec.
  - intros p. rewrite route_spec, validate_message, (active_member g p) by (done || apply Hok). naive_solver.
  - intros relay p Hr. rewrite validate_message by done. naive_solver.
Qed.

(** ** Delivery *)

(** The counting loop of [summarizeGroupDelivery], from any counters. *)
Lemma count_statuses delivery ids : forall counts d p o,
  fold_left (fun '(d, p, o) peerId =>
      let status := delivery_status delivery peerId in
      if is_delivered status then (S d, p, o) else if is_pending status then (d, S p, o) else (d, p, S o))
    ids counts = (d, p, o) ->
  let states := map (delivery_status delivery) ids in
  d = (counts.1.1 + length (List.filter is_delivered states))%nat /\
  (d + p + o = counts.1.1 + counts.1.2 + counts.2 + length ids)%nat /\
  ((0 < p)%nat <-> (0 < counts.1.2)%nat \/ existsb is_pending states = true).
Proof.
  induction ids as [|id ids IH]; intros [[d0 p0] o0] d p o; simpl.
  - intros [= <- <- <-]. split_and!; [lia|lia|]. naive_solver.
  - intros E. apply IH in E as (Hd & Ht & Hp). clear IH.
    assert (He : is_delivered (delivery_status delivery id) = true -> is_pending (delivery_status delivery id) = false).
    { unfold is_delivered, is_pending, is_str. intros H.
      rewrite orb_false_iff, !bool_decide_eq_false. bool_cases; split; congruence. }
    destruct (is_delivered _); [rewrite He by done|destruct (is_pending _)]; simpl in *;
      (split_and!; [lia|lia|]); rewrite Hp; split; intros []; auto; try lia; by right.
Qed.

(** The status shown for a group message is the one its counters say: the counters of
    delivered, pending and offline recipients add up to the recipients, each counted once,
    and the status is delivered, partial, pending or scheduled by the first that is not zero. *)
Theorem delivery_status_matches_summary delivery ids :
  let s := summarizeGroupDelivery delivery ids in
  (delivered s + pending s + offline s = total s)%nat /\ total s = length (recipients_of ids) /\
  deriveGroupDeliveryStatus delivery ids =
    (if Nat.eqb (delivered s) (total s) then "delivered" else if Nat.ltb 0 (delivered s) then "partial"
     else if Nat.ltb 0 (pending s) then "pending" else "scheduled").
Proof.
  unfold summarizeGroupDelivery, deriveGroupDeliveryStatus. set (rs := recipients_of ids).
  destruct (fold_left _ rs _) as [[d p] o] eqn:E. apply count_statuses in E as (Hd & Ht & Hp). simpl in *.
  split_and!; [lia|done|]. rewrite <- Hd. case_bool_decide as Er.
  - rewrite Er in *. simpl in *. by subst d.
  - destruct (Nat.eqb d _), (Nat.ltb 0 d); [done..|].
    destruct (existsb is_pending _), (Nat.ltb_spec 0 p); try done; naive_solver lia.
Qed.

(** ** Seen events *)

Definition remember_all (limit : Z) (l : list string) (ids : list string) : list string :=
  fold_left (fun l id => (rememberGroupEventId l id limit).2) ids l.

(** The history of distinct ids, the last of which a given one is followed by. *)
Definition history (limit : Z) (e : string) (k : nat) (l : list string) : Prop :=
  NoDup l /\ (length l <= Z.to_nat (Z.max 1 limit))%nat /\
  exists pre post, l = pre ++ e :: post /\ (length post <= k)%nat.

Lemma remember_bounded limit l id :
  NoDup l -> (length l <= Z.to_nat (Z.max 1 limit))%nat ->
  let l' := (rememberGroupEventId l id limit).2 in
  NoDup l' /\ (length l' <= Z.to_nat (Z.max 1 limit))%nat.
Proof.
  intros Hn Hl. unfold rememberGroupEventId. destruct (_ || _) eqn:E; [done|]. simpl. bool_cases.
  unfold includes in *. bool_cases. rewrite length_drop. split; [|lia].
  apply (sublist_NoDup _ (l ++ [id])); [|apply sublist_drop]. apply NoDup_app. split_and!; [done| |apply NoDup_singleton].
  intros x Hx ->%list_elem_of_singleton. done.
Qed.

Lemma remember_history limit e k l id :
  (S k < Z.to_nat (Z.max 1 limit))%nat ->
  history limit e k l -> history limit e (S k) (rememberGroupEventId l id limit).2.
Proof.
  intros Hk (Hn & Hl & pre & post & -> & Hp).
  split; [|split]; [apply remember_bounded..|]; try done.
  unfold rememberGroupEventId. destruct (_ || _); [exists pre, post; split; [done|lia]|].
  simpl. set (n := (_ - _)%nat). exists (drop n pre), (post ++ [id]).
  rewrite <- app_assoc, drop_app_le, length_app; [split; [done|simpl; lia]|].
  unfold n. rewrite !length_app in *. simpl in *. lia.
Qed.

Lemma remember_all_history limit e others : forall k l,
  (k + length others < Z.to_nat (Z.max 1 limit))%nat -> history limit e k l ->
  history limit e (k + length others) (remember_all limit l others).
Proof.
  induction others as [|id others IH]; intros k l Hk Hl; simpl in *; [by rewrite Nat.add_0_r|].
  rewrite <- Nat.add_succ_comm. apply IH; [lia|]. apply remember_history; [lia|done].
Qed.

(** An event that is delivered a second time is recognised, as long as fewer others
    than the limit (512) came in between, and the history never holds an id twice or more
    ids than the limit. *)
Theorem repeated_event_recognised limit l e others :
  NoDup l -> (length l <= Z.to_nat (Z.max 1 limit))%nat -> e <> "" -> e ∉ l ->
  (length others < Z.to_nat (Z.max 1 limit))%nat ->
  let '(seen, l1) := rememberGroupEventId l e limit in
  let l' := remember_all limit l1 others in
  seen = false /\ (rememberGroupEventId l' e limit).1 = true /\
  NoDup l' /\ (length l' <= Z.to_nat (Z.max 1 limit))%nat.
Proof.
  intros Hn Hl He Hin Ho. destruct (rememberGroupEventId l e limit) as [seen l1] eqn:E.
  pose proof (remember_bounded limit l e Hn Hl) as [Hn1 Hl1]. rewrite E in Hn1, Hl1. simpl in Hn1, Hl1.
  assert (seen = false /\ l1 = drop (length (l ++ [e]) - Z.to_nat (Z.max 1 limit)) (l ++ [e])) as [-> Hl1e].
  { revert E. unfold rememberGroupEventId, includes. rewrite !bool_decide_eq_false_2 by done. by intros [= <- <-]. }
  assert (Hh : history limit e 0 l1).
  { split_and!; [done..|]. eexists _, []. split; [|done]. rewrite Hl1e, drop_app_le; [done|].
    rewrite length_app. simpl. lia. }
  apply (remember_all_history limit e others) in Hh as (Hn2 & Hl2 & pre & post & Hp & _); [|done].
  split_and!; [done| |done..]. rewrite Hp. unfold rememberGroupEventId, includes.
  rewrite (bool_decide_eq_false_2 (e = "")) by done.
  rewrite bool_decide_eq_true_2; [done|]. apply elem_of_app. right. left.
Qed.

(** ** Witnesses *)

Definition demo_group : group :=
  mk_group "group:abcdefgh" 3 "Chess club" "" 10 "alice" 12
    [mk_group_member "alice" "Alice" admin active 10 (Some 10) None;
     mk_group_member "bob" "Bob" plain_member invited 11 None None;
     mk_group_member "carol" "Carol" plain_member active 11 (Some 12) None].

Lemma demo_stable : stable_group demo_group.
Proof.
  constructor; [constructor|..].
  - split; [apply (bool_decide_unpack _); vm_compute; exact I|].
    repeat constructor; simpl; try lia; discriminate.
  - exists (mk_group_member "alice" "Alice" admin active 10 (Some 10) None). split_and!; try done. left.
  - simpl. lia.
  - reflexivity.
  - split; [discriminate|]. apply Nat.leb_le. reflexivity.
  - simpl. lia.
  - repeat constructor; simpl; try lia; try done; apply (bool_decide_unpack _); vm_compute; exact I.
  - split; (split; [reflexivity|]); apply Nat.leb_le; vm_compute; reflexivity.
Qed.

Lemma normal_group_ok_witness : group_ok demo_group.
Proof. apply (normal_group_ok 99 (Some (group_json demo_group))). vm_compute. reflexivity. Defined.

Lemma group_changes_authorized_witness :
  exists g, event_effect demo_group g "carol" "alice" false /\ g_revision g = 4.
Proof.
  set (leave := JObj (eventBase "e" "leave" "group:abcdefgh" "carol" 20 ++ [("knownRevision", JNum 3)])).
  eexists. split.
  - refine (proj2 (group_changes_authorized 99 (Some (group_json demo_group)) demo_group leave "alice" _ false false true
      eq_refl _ _)); vm_compute; reflexivity.
  - reflexivity.
Defined.

Lemma member_changes_only_itself_witness :
  exists g f, g = with_member demo_group (Some (JNum 20)) "carol" f /\ g_revision g = 4.
Proof.
  set (leave := JObj (eventBase "e" "leave" "group:abcdefgh" "carol" 20 ++ [("knownRevision", JNum 3)])).
  edestruct (member_changes_only_itself 99 demo_group leave "alice") as (m & f & _ & Hg & _);
    [exact demo_stable|vm_compute; reflexivity|reflexivity|].
  eexists _, f. split; [exact Hg|reflexivity].
Defined.

Lemma invitation_handshake_witness :
  exists g', g_revision g' = 4 /\ isActiveGroupMember g' "bob" = true.
Proof.
  destruct (invitation_handshake 1 2 demo_group "alice" "bob"
      (mk_group_member "bob" "Bob" plain_member invited 11 None None) "e1" "e2" "e3" 20 21 22
      demo_stable eq_refl eq_refl eq_refl ltac:(discriminate) ltac:(discriminate) ltac:(discriminate))
    as (_ & _ & _ & g' & _ & _ & _ & _ & _ & _ & Hr & Hb & _).
  exists g'. split; [exact Hr|exact Hb].
Defined.

Lemma route_reaches_who_accepts_witness :
  "carol" ∈ buildTargetedGroupRoute demo_group "alice" false /\ "bob" ∉ buildTargetedGroupRoute demo_group "alice" false.
Proof.
  destruct (route_reaches_who_accepts demo_group "alice" "m1" "chat" [] (sg_ok _ demo_stable) eq_refl
    ltac:(discriminate) ltac:(apply (bool_decide_unpack _); vm_compute; exact I)) as (_ & Hr & _).
  split; [apply Hr; split; [discriminate|reflexivity]|].
  intros [_ H]%Hr. discriminate H.
Defined.

Lemma repeated_event_recognised_witness :
  (rememberGroupEventId (remember_all 3 (rememberGroupEventId ["a"; "b"; "c"] "e" 3).2 ["f"; "g"]) "e" 3).1 = true.
Proof.
  assert (Hn : NoDup ["a"; "b"; "c"]) by (apply (bool_decide_unpack _); vm_compute; exact I).
  assert (He : "e" ∉ ["a"; "b"; "c"]) by (apply (bool_decide_unpack _); vm_compute; exact I).
  exact (proj1 (proj2 (repeated_event_recognised 3 ["a"; "b"; "c"] "e" ["f"; "g"] Hn ltac:(apply Nat.leb_le; reflexivity)
    ltac:(discriminate) He ltac:(apply Nat.ltb_lt; reflexivity)))).
Defined.
