(* ===== verification/Shuffle.v ===== *)
(** * The arrays of the card games: shuffling and sorting

    [shuffle] of [assets/bundled-plugins/poker/cards.js] and [assets/bundled-plugins/uno/deck.js]:
    the words of [crypto.getRandomValues] are an argument, and whatever they are, the result
    is a permutation. *)

From Stdlib Require Import Sorting.Sorted.
From S2P Require Import Prelude.

Section shuffle.
Context {A : Type}.

(** [t = a[i]; a[i] = a[j]; a[j] = t]. *)
Definition swap (a : list A) (i j : nat) : list A :=
  match a !! i, a !! j with
  | Some x, Some y => <[j := x]> (<[i := y]> a)
  | _, _ => a
  end.

(** The loop from index [i] down to 1; [buf] are the random words. *)
Fixpoint shuffle_from (i : nat) (a : list A) (buf : list Z) : list A :=
  match i with
  | O => a
  | S i' => shuffle_from i' (swap a i (Z.to_nat (Z.rem (nth i buf 0) (Z.of_nat i + 1)))) buf
  end.

Definition shuffle (arr : list A) (buf : list Z) : list A := shuffle_from (length arr - 1) arr buf.

Lemma swap_perm a i j : swap a i j ≡ₚ a.
Proof.
  unfold swap. destruct (a !! i) as [x|] eqn:Hi; [|done]. destruct (a !! j) as [y|] eqn:Hj; [|done].
  by apply Permutation_insert_swap.
Qed.

Lemma shuffle_from_perm i : forall a buf, shuffle_from i a buf ≡ₚ a.
Proof. induction i as [|i IH]; intros a buf; simpl; [done|]. by rewrite IH, swap_perm. Qed.

Lemma shuffle_perm a buf : shuffle a buf ≡ₚ a.
Proof. apply shuffle_from_perm. Qed.
End shuffle.

(** ** Sorting ([Array.prototype.sort] is stable) *)

Section sorting.
Context {A : Type} (before : A -> A -> bool).

Fixpoint sorted_insert (x : A) (l : list A) : list A :=
  match l with
  | [] => [x]
  | y :: rest => if before x y then x :: l else y :: sorted_insert x rest
  end.

Fixpoint sort_by (l : list A) : list A :=
  match l with
  | [] => []
  | x :: rest => sorted_insert x (sort_by rest)
  end.

Lemma sorted_insert_perm x l : sorted_insert x l ≡ₚ x :: l.
Proof.
  induction l as [|y l IH]; [done|]. simpl. destruct (before x y); [done|]. rewrite IH. apply perm_swap.
Qed.

Lemma sort_by_perm l : sort_by l ≡ₚ l.
Proof. induction l as [|x l IH]; [done|]. simpl. by rewrite sorted_insert_perm, IH. Qed.
End sorting.

(** On elements with [P] the comparison is a transitive relation [R], read both ways. *)
Section sorted.
Context {A : Type} (before : A -> A -> bool) (P : A -> Prop) (R : A -> A -> Prop).
Context (Htrans : forall a b c, R a b -> R b c -> R a c).
Context (Hyes : forall a b, P a -> P b -> before a b = true -> R a b).
Context (Hno : forall a b, P a -> P b -> before a b = false -> R b a).

Lemma insert_sorted x l : P x -> Forall P l -> StronglySorted R l -> StronglySorted R (sorted_insert before x l).
Proof using All.
  intros Hx Hl Hs. induction Hs as [|y l Hs IH Hy]; cbn; [by repeat constructor|].
  apply Forall_cons in Hl as [HPy Hl]. destruct (before x y) eqn:E.
  - constructor; [by constructor|]. constructor; [by apply Hyes|]. eapply Forall_impl; [exact Hy|].
    intros z Hz. eapply Htrans; [by apply Hyes|done].
  - constructor; [by apply IH|]. rewrite sorted_insert_perm. constructor; [by apply Hno|done].
Qed.

Lemma sort_by_sorted l : Forall P l -> StronglySorted R (sort_by before l).
Proof using All.
  induction 1 as [|x l Hx Hl IH]; cbn; [constructor|]. apply insert_sorted; [done| |done]. by rewrite sort_by_perm.
Qed.
End sorted.
