(* ===== verification/Cards.v ===== *)
(** * Poker: cards, hands and pots ([assets/bundled-plugins/poker/cards.js, handRank.js, betting.js])

    A card is a number from 0 to 51, its rank the remainder by 13 and its suit the quotient.
    The value of a hand is the tuple the code compares; [None] is a value that contains
    [NaN], which compares as neither greater nor equal. *)

From S2P Require Import Prelude Json Shuffle.

(** [sort((a, b) => a - b)] and [sort((a, b) => b - a)]. *)
Definition ascending : list Z -> list Z := sort_by Z.leb.
Definition descending : list Z -> list Z := sort_by Z.geb.

(** ** Cards *)

Definition rank (c : Z) : Z := Z.rem c 13.
Definition suit (c : Z) : Z := Z.quot c 13.

Definition makeDeck : list Z := flat_map (fun s => map (fun r => s * 13 + r) (seqZ 0 13)) (seqZ 0 4).

Definition POKER_BOT_PEER_ID : string := "__bt_poker_bot_debug__".
Definition isPokerBotId (id : string) : bool := bool_decide (id = POKER_BOT_PEER_ID).

(** ** Hands *)

(** How often each rank occurs: most frequent first, then by rank. *)
Definition by_frequency (ranks : list Z) : list (Z * nat) :=
  sort_by (fun a b => Nat.ltb b.2 a.2 || (Nat.eqb a.2 b.2 && Z.ltb b.1 a.1))
    (map (fun k => (k, count_occ Z.eq_dec ranks k))
       (List.filter (fun k => Nat.ltb 0 (count_occ Z.eq_dec ranks k)) (seqZ 0 13))).

Definition scoreFive (cards5 : list Z) : list Z :=
  let r := descending (map rank cards5) in
  let suits := map suit cards5 in
  let flush := forallb (fun x => Z.eqb x (nth 0 suits 0)) suits in
  let byFreq := by_frequency r in
  let uniq := descending (nodup Z.eq_dec r) in
  let k i := (nth i byFreq (0, O)).1 in
  let n i := (nth i byFreq (0, O)).2 in
  let u i := nth i uniq 0 in
  let straightHigh :=
    if Nat.eqb (length uniq) 5 then
      if Z.eqb (u 0%nat) 12 && Z.eqb (u 1%nat) 3 && Z.eqb (u 2%nat) 2 && Z.eqb (u 3%nat) 1 && Z.eqb (u 4%nat) 0 then 3
      else if Z.eqb (u 0%nat - u 4%nat) 4 then u 0%nat else -1
    else -1 in
  let others (skip : list Z) := List.filter (fun x => negb (includes skip x)) r in
  if flush && Z.leb 0 straightHigh then [8; straightHigh]
  else if Nat.eqb (n 0%nat) 4 then [7; k 0%nat; nth 0 (others [k 0%nat]) 0]
  else if Nat.eqb (n 0%nat) 3 && Nat.eqb (n 1%nat) 2 then [6; k 0%nat; k 1%nat]
  else if flush then 5 :: r
  else if Z.leb 0 straightHigh then [4; straightHigh]
  else if Nat.eqb (n 0%nat) 3 then 3 :: k 0%nat :: take 2 (descending (others [k 0%nat]))
  else if Nat.eqb (n 0%nat) 2 && Nat.eqb (n 1%nat) 2 then
    let p1 := Z.max (k 0%nat) (k 1%nat) in
    let p2 := Z.min (k 0%nat) (k 1%nat) in
    [2; p1; p2; nth 0 (others [p1; p2]) 0]
  else if Nat.eqb (n 0%nat) 2 then 1 :: k 0%nat :: take 3 (descending (others [k 0%nat]))
  else 0 :: r.

(** A missing component is 0. *)
Fixpoint cmpScore (a b : list Z) : Z :=
  let fix against_zero (a : list Z) : Z :=
    match a with
    | [] => 0
    | x :: a' => if Z.eqb x 0 then against_zero a' else x
    end in
  match a, b with
  | x :: a', y :: b' => if Z.eqb x y then cmpScore a' b' else x - y
  | _, [] => against_zero a
  | [], _ => - against_zero b
  end.

(** The index quintuples of the five nested loops of [best7], in their order. *)
Definition quintuples : list (list nat) :=
  let from i := List.seq (S i) (6 - i) in
  flat_map (fun a => flat_map (fun b => flat_map (fun c => flat_map (fun d =>
    map (fun e => [a; b; c; d; e]) (from d)) (from c)) (from b)) (from a)) (List.seq 0 7).

Definition pick (cards : list Z) (indices : list nat) : list Z := map (fun i => nth i cards 0) indices.

Definition better (best : option (list Z)) (s : list Z) : option (list Z) :=
  match best with
  | None => Some s
  | Some b => if Z.ltb 0 (cmpScore s b) then Some s else best
  end.

(** With fewer than seven cards the missing ones are [undefined], their ranks [NaN], and four
    of them always make a "four of a kind" of [NaN]: the value contains [NaN]. *)
Definition best7 (cards7 : list Z) : option (list Z) :=
  if Nat.ltb (length cards7) 7 then None
  else fold_left better (map (fun q => scoreFive (pick cards7 q)) quintuples) None.

Definition handLabel (score : option (list Z)) : string :=
  match score with
  | Some (8 :: _) => "Straight Flush"
  | Some (7 :: _) | None => "Vierling"
  | Some (6 :: _) => "Full House"
  | Some (5 :: _) => "Flush"
  | Some (4 :: _) => "Straight"
  | Some (3 :: _) => "Drilling"
  | Some (2 :: _) => "Zwei Paare"
  | Some (1 :: _) => "Paar"
  | Some (0 :: _) => "High Card"
  | Some _ => "Hand"
  end.

(** ** Pots *)

Record side_pot := mk_pot { amount : Z; eligible : list string }.

Fixpoint pots_from (prev : Z) (levels : list Z) (contrib : list (string * Z)) : list side_pot :=
  match levels with
  | [] => []
  | cap :: rest =>
      let elig := List.filter (fun c => Z.leb cap c.2) contrib in
      mk_pot ((cap - prev) * Z.of_nat (length elig)) (map fst elig) :: pots_from cap rest contrib
  end.

(** [contrib] has the peers in the order of the table. *)
Definition buildSidePots (contrib : list (string * Z)) : list side_pot :=
  let ids := List.filter (fun c => Z.ltb 0 c.2) contrib in
  let levels := ascending (nodup Z.eq_dec (map snd ids)) in
  pots_from 0 levels ids.
