(* ===== verification/Poker.v ===== *)
(** * Poker: the host's state machine ([assets/bundled-plugins/poker/engine.js])

    The table is a record, every operation of the host a function on it; messages, saves and
    state broadcasts are appended to [out].  Chips are integers; the one way an operation can
    produce [NaN] is a raise that is not a number, for which [applyAction] has no table
    ([None]).  The deck is kept with its top card ([deck.pop()]) first, and the random words
    of a shuffle are an argument. *)

From S2P Require Import Prelude Json Shuffle Cards.

(** ** Settings *)

Record settings := mk_settings {
  tableName : string;
  smallBlind : Z;
  bigBlind : Z;
  ante : Z;
  maxPlayers : Z;
  startingChips : Z;
  turnTimeSec : Z;
  minRaiseBB : Z;
  autoStart : bool;
  public_lobby : bool
}.

#[export] Instance settings_rebuild : Rebuild settings := fun s =>
  mk_settings (tableName s) (smallBlind s) (bigBlind s) (ante s) (maxPlayers s) (startingChips s) (turnTimeSec s)
    (minRaiseBB s) (autoStart s) (public_lobby s).

Definition defaultSettings : settings := mk_settings "Poker-Tisch" 10 20 0 6 2000 0 1 false false.

Definition clampInt (value : option Z) (min max fallback : Z) : Z :=
  match value with
  | None => fallback
  | Some parsed => Z.max min (Z.min max parsed)
  end.

(** [n || fallback]. *)
Definition or_num (n fallback : Z) : Z := if Z.eqb n 0 then fallback else n.

(** [sanitizeSettings] on a patch (an object) and settings. *)
Definition sanitizeSettings (input : fields) (fb : settings) (minSeats : Z) : settings :=
  let num (name : string) (v : Z) : option Z :=
    if has input name then to_number (get input name) else Some v in
  let name :=
    str_take 48 (trim (if has input "tableName"
      then (if truthy (get input "tableName") then string_or_empty (get input "tableName") else "Poker-Tisch")
      else if bool_decide (tableName fb = "") then "Poker-Tisch" else tableName fb)) in
  let sb := clampInt (num "smallBlind" (smallBlind fb)) 1 1000000 (or_num (smallBlind fb) 10) in
  let bb := clampInt (num "bigBlind" (bigBlind fb)) sb 2000000 (Z.max sb (or_num (bigBlind fb) 20)) in
  mk_settings (if bool_decide (name = "") then "Poker-Tisch" else name) sb bb
    (clampInt (num "ante" (ante fb)) 0 1000000 (ante fb))
    (clampInt (num "maxPlayers" (maxPlayers fb)) (Z.max 2 minSeats) 9 (Z.max 6 minSeats))
    (clampInt (num "startingChips" (startingChips fb)) (bb * 2) 1000000000 (or_num (startingChips fb) 2000))
    (clampInt (num "turnTimeSec" (turnTimeSec fb)) 0 300 (turnTimeSec fb))
    (clampInt (num "minRaiseBB" (minRaiseBB fb)) 1 10 (or_num (minRaiseBB fb) 1))
    (if has input "autoStart" then bool_decide (get input "autoStart" = Some (JBool true)) else autoStart fb)
    (if has input "lobbyAccess" then bool_decide (get input "lobbyAccess" = Some (JStr "public")) else public_lobby fb).

(** ** The table *)

Inductive poker_phase := lobby | between | preflop | flop | turn | river | in_showdown.
Inductive poker_street := idle | st_preflop | st_flop | st_turn | st_river | st_showdown.

#[export] Instance phase_eq_dec : EqDecision poker_phase.
Proof. solve_decision. Defined.

#[export] Instance street_eq_dec : EqDecision poker_street.
Proof. solve_decision. Defined.

Record player := mk_player {
  p_id : string;
  p_name : string;
  seat : Z;
  chips : Z;
  folded : bool;
  allIn : bool;
  roundBet : Z;
  totalBet : Z;
  hole : list Z;
  inHand : bool;
  isBot : bool;
  connected : bool;
  pendingChips : Z;
  handsPlayed : Z;
  handsWon : Z;
  chipsGranted : Z
}.

#[export] Instance player_rebuild : Rebuild player := fun p =>
  mk_player (p_id p) (p_name p) (seat p) (chips p) (folded p) (allIn p) (roundBet p) (totalBet p) (hole p) (inHand p)
    (isBot p) (connected p) (pendingChips p) (handsPlayed p) (handsWon p) (chipsGranted p).

Record win := mk_win { w_id : string; w_amount : Z; w_hand : string }.

(** What the host sends, saves and schedules. *)
Inductive output :=
| PushState (** [pushState]: the public state to every player *)
| SendHole (peerId : string) (cards : list Z)
| SendWire (peerId wire : string)
| Checkpoint (reason : string)
| SendInvite (peerId : string).

Record table := mk_table {
  selfId : string;
  cfg : settings;
  players : list player;
  phase : poker_phase;
  street : poker_street;
  dealerIdx : Z;
  deck : list Z;
  board : list Z;
  pot : Z;
  currentBet : Z;
  minRaise : Z;
  lastRaise : Z;
  toActIdx : Z;
  acted : list string;
  handNumber : Z;
  winners : list win;
  invitedPeers : list string;
  turnTimer : option string; (** the player the running turn timer folds *)
  startTimer : bool;         (** [autoStartTimer] *)
  nextTimer : bool;          (** [nextHandTimer] *)
  out : list output
}.

#[export] Instance table_rebuild : Rebuild table := fun t =>
  mk_table (selfId t) (cfg t) (players t) (phase t) (street t) (dealerIdx t) (deck t) (board t) (pot t) (currentBet t)
    (minRaise t) (lastRaise t) (toActIdx t) (acted t) (handNumber t) (winners t) (invitedPeers t) (turnTimer t)
    (startTimer t) (nextTimer t) (out t).

Definition emit (o : output) (t : table) : table := t <| out := out t ++ [o] |>.

Definition pushState : table -> table := emit PushState.
Definition checkpoint (reason : string) : table -> table := emit (Checkpoint reason).

Definition clearTurnTimer (t : table) : table := t <| turnTimer := None |>.
Definition clearAutoStartTimer (t : table) : table := t <| startTimer := false |> <| nextTimer := false |>.

(** No hand is running. *)
Definition isPokerLobbyJoinable (p : poker_phase) : bool := bool_decide (p = lobby) || bool_decide (p = between).

Definition scheduleAutoStart (t : table) : table :=
  let t := clearAutoStartTimer t in
  if negb (autoStart (cfg t)) || negb (bool_decide (phase t = lobby)) then t
  else if Nat.leb 2 (length (List.filter (fun p => Z.ltb 0 (chips p) && negb (isBot p)) (players t)))
  then t <| startTimer := true |> else t.

(** [players[i]]. *)
Definition player_at (ps : list player) (i : Z) : option player :=
  if Z.ltb i 0 then None else ps !! Z.to_nat i.

Definition live (p : player) : bool := inHand p && negb (folded p) && negb (allIn p).

Definition scheduleTurnTimer (t : table) : table :=
  let t := clearTurnTimer t in
  if Z.leb (turnTimeSec (cfg t)) 0 || isPokerLobbyJoinable (phase t) then t
  else
    match player_at (players t) (toActIdx t) with
    | Some actor =>
        if folded actor || allIn actor || isPokerBotId (p_id actor) then t else t <| turnTimer := Some (p_id actor) |>
    | None => t
    end.

Definition update_player (id : string) (f : player -> player) (ps : list player) : list player :=
  map (fun p => if bool_decide (p_id p = id) then f p else p) ps.

Definition has_player (id : string) (ps : list player) : bool := existsb (fun p => bool_decide (p_id p = id)) ps.

Definition find_player (id : string) (ps : list player) : option player :=
  List.find (fun p => bool_decide (p_id p = id)) ps.

Fixpoint index_of (id : string) (ps : list player) : option nat :=
  match ps with
  | [] => None
  | p :: rest => if bool_decide (p_id p = id) then Some O else option_map S (index_of id rest)
  end.

(** ** The betting order *)

Definition activeInHand (ps : list player) : list player := List.filter (fun p => inHand p && negb (folded p)) ps.

(** The first index after [from], round the table, whose player satisfies [ok]; [k] steps are left. *)
Fixpoint next_index (ok : player -> bool) (ps : list player) (from : Z) (k : nat) : Z :=
  match k with
  | O => -1
  | S k' =>
      let idx := Z.rem (from + Z.of_nat (length ps - k')) (Z.of_nat (length ps)) in
      match player_at ps idx with
      | Some p => if ok p then idx else next_index ok ps from k'
      | None => next_index ok ps from k'
      end
  end.

Definition nextLiveSeat (ps : list player) (from : Z) : Z := next_index live ps from (length ps).

(** [nextInHandIndex] of [startHand]: the modulus is taken of a sum one table length larger. *)
Definition nextInHandIndex (ps : list player) (from : Z) : Z :=
  next_index inHand ps (from + Z.of_nat (length ps)) (length ps).

Definition live_at (ps : list player) (i : Z) : bool :=
  match player_at ps i with Some p => live p | None => false end.

(** The loop after an action: on to the next live player. *)
Fixpoint skip_to_live (ps : list player) (guard : nat) (i : Z) : Z :=
  match guard with
  | O => i
  | S guard' => if live_at ps i then i else skip_to_live ps guard' (nextLiveSeat ps i)
  end.

(** The loop at the start of a street or hand, which gives up when it would not move. *)
Fixpoint first_live (ps : list player) (guard : nat) (i : Z) : Z :=
  match guard with
  | O => i
  | S guard' =>
      if live_at ps i then i
      else
        let nx := nextLiveSeat ps i in
        if Z.ltb nx 0 || Z.eqb nx i then i else first_live ps guard' nx
  end.

(** [Math.max(...active.map(p => p.currentRoundBet))] with bets that are not negative. *)
Definition max_bet (ps : list player) : Z := foldr (fun p m => Z.max (roundBet p) m) 0 (activeInHand ps).

Definition bettingComplete (t : table) : bool :=
  let live_ps := List.filter (fun p => negb (allIn p)) (activeInHand (players t)) in
  bool_decide (live_ps = [])
  || (forallb (fun p => Z.eqb (roundBet p) (max_bet (players t))) live_ps
      && forallb (fun p => includes (acted t) (p_id p)) live_ps).

(** ** Streets *)

(** [deck.pop()] [n] times after burning one card. *)
Definition deal_board (n : nat) (t : table) : table :=
  t <| board := board t ++ take n (drop 1 (deck t)) |> <| deck := drop (S n) (deck t) |>.

Definition next_street (t : table) : table :=
  match street t with
  | st_preflop => deal_board 3 (t <| street := st_flop |>)
  | st_flop => deal_board 1 (t <| street := st_turn |>)
  | st_turn => deal_board 1 (t <| street := st_river |>)
  | _ => t
  end.

(** [phase = street]. *)
Definition phase_of (s : poker_street) : poker_phase :=
  match s with
  | idle => lobby (** not reached *)
  | st_preflop => preflop | st_flop => flop | st_turn => turn | st_river => river | st_showdown => in_showdown
  end.

Definition reset_round (t : table) : table :=
  t <| players := map (fun p => if inHand p then p <| roundBet := 0 |> else p) (players t) |> <| currentBet := 0 |>.

(** The loop of [runoutBoard]; at most three streets are left. *)
Fixpoint run_streets (guard : nat) (t : table) : table :=
  match guard with
  | O => t
  | S guard' =>
      if bool_decide (street t = st_river) then t
      else
        let t := reset_round t in
        match street t with
        | st_preflop | st_flop | st_turn =>
            let t := next_street t in run_streets guard' (t <| phase := phase_of (street t) |>)
        | _ => t
        end
  end.

Definition runoutBoard (t : table) : table := run_streets 4 (clearTurnTimer t).

Definition min_raise_of (s : settings) : Z := bigBlind s * minRaiseBB s.

Definition advanceStreet (t : table) : table :=
  let t := reset_round (clearTurnTimer t) in
  let t := t <| minRaise := min_raise_of (cfg t) |> <| lastRaise := min_raise_of (cfg t) |> <| acted := [] |> in
  let t := next_street t in
  let ps := players t in
  let n := length ps in
  let start :=
    if Nat.leb (length (List.filter inHand ps)) 2 then Z.rem (dealerIdx t) (Z.of_nat n)
    else nextLiveSeat ps (dealerIdx t) in
  let t := t <| toActIdx := first_live ps (n + 3) start |> <| phase := phase_of (street t) |> in
  pushState (scheduleTurnTimer t).

(** ** The end of a hand *)

Definition add_chips (amount : Z) (p : player) : player := p <| chips := chips p + amount |>.

Definition in_play (ps : list player) (id : string) : bool :=
  match find_player id ps with Some p => inHand p && negb (folded p) | None => false end.

(** [share + (rem > 0 ? 1 : 0)] to each of [ids]; what each got. *)
Fixpoint pay_shares (ids : list string) (share rem : Z) (ps : list player) : list player * list (string * Z) :=
  match ids with
  | [] => (ps, [])
  | id :: rest =>
      if has_player id ps then
        let a := share + (if Z.ltb 0 rem then 1 else 0) in
        let '(ps', paid) := pay_shares rest share (Z.max 0 (rem - 1)) (update_player id (add_chips a) ps) in
        (ps', (id, a) :: paid)
      else pay_shares rest share rem ps
  end.

Definition split_pot (ids : list string) (total : Z) (ps : list player) : list player * list (string * Z) :=
  let n := Z.of_nat (length ids) in
  pay_shares ids (Z.div total n) (total - Z.div total n * n) ps.

(** [cmp > 0] and [cmp === 0] for [cmp = best ? cmpScore(sc, best) : 1]; a comparison with
    [NaN] is neither. *)
Definition beats (sc best : option (list Z)) : bool :=
  match sc, best with Some s, Some b => Z.ltb 0 (cmpScore s b) | _, _ => false end.

Definition ties (sc best : option (list Z)) : bool :=
  match sc, best with Some s, Some b => Z.eqb (cmpScore s b) 0 | _, _ => false end.

(** The winners among [ids], given the hand of each, and the best value. *)
Fixpoint pick_winners (hand : string -> option (list Z)) (ids : list string)
    (best : option (option (list Z))) (won : list string) : list string * option (list Z) :=
  match ids with
  | [] => (won, default None best)
  | id :: rest =>
      let sc := hand id in
      match best with
      | None => pick_winners hand rest (Some sc) [id]
      | Some b =>
          if beats sc b then pick_winners hand rest (Some sc) [id]
          else if ties sc b then pick_winners hand rest best (won ++ [id])
          else pick_winners hand rest best won
      end
  end.

Definition hand_of (ps : list player) (board : list Z) (id : string) : option (list Z) :=
  match find_player id ps with Some p => best7 (hole p ++ board) | None => None end.

(** One pot: to the best hands still in play, or back to those who paid it. *)
Definition settle_pot (board : list Z) (acc : list player * list win) (p : side_pot) : list player * list win :=
  let '(ps, results) := acc in
  let elig := List.filter (in_play ps) (eligible p) in
  match elig with
  | [] => ((split_pot (eligible p) (amount p) ps).1, results)
  | _ =>
      let '(won, best) := pick_winners (hand_of ps board) elig None [] in
      let '(ps', paid) := split_pot won (amount p) ps in
      (ps', results ++ map (fun w => mk_win w.1 w.2 (handLabel best)) paid)
  end.

(** One entry per winner, in the order of the first result. *)
Fixpoint add_win (l : list win) (w : win) : list win :=
  match l with
  | [] => [w]
  | x :: rest =>
      if bool_decide (w_id x = w_id w) then mk_win (w_id x) (w_amount x + w_amount w) (w_hand x) :: rest
      else x :: add_win rest w
  end.

Definition won_hand (p : player) : player := p <| handsWon := handsWon p + 1 |>.

(** The end of a hand, common to [showdown] and [awardUncontested]. *)
Definition finish_hand (t : table) : table :=
  let t := t <| phase := between |> <| street := idle |> <| toActIdx := -1 |> in
  let t := pushState (checkpoint "hand_complete" t) in
  if autoStart (cfg t) then t <| nextTimer := true |> else t.

Definition contributions (ps : list player) : list (string * Z) :=
  map (fun p => (p_id p, totalBet p)) (List.filter inHand ps).

Definition showdown (t : table) : table :=
  let t := clearTurnTimer t in
  let '(ps, results) := fold_left (settle_pot (board t)) (buildSidePots (contributions (players t))) (players t, []) in
  let wins := fold_left add_win results [] in
  let ps := fold_left (fun ps w => update_player (w_id w) won_hand ps) wins ps in
  finish_hand (t <| players := ps |> <| winners := wins |>).

(** The table with its turn timer stopped and [false], or the finished hand and [true]. *)
Definition awardUncontested (t : table) : bool * table :=
  let t := clearTurnTimer t in
  match activeInHand (players t) with
  | [w] =>
      let ps := update_player (p_id w) (fun p => won_hand (add_chips (pot t) p)) (players t) in
      let won := [mk_win (p_id w) (pot t) "Gewinn (alle anderen gefoldet)"] in
      (true, finish_hand (t <| players := ps |> <| winners := won |>))
  | _ => (false, t)
  end.

(** ** A new hand *)

Definition take_pending (p : player) : player :=
  if Z.ltb 0 (pendingChips p)
  then p <| chips := Z.min 1000000000 (chips p + pendingChips p) |> <| pendingChips := 0 |> else p.

Definition ready (p : player) : bool := Z.ltb 0 (chips p) && (connected p || isBot p).

Definition deal_in (p : player) : player :=
  let r := ready p in
  p <| folded := Z.leb (chips p) 0 |> <| allIn := false |> <| roundBet := 0 |> <| totalBet := 0 |>
    <| hole := [] |> <| inHand := r |> <| handsPlayed := if r then handsPlayed p + 1 else handsPlayed p |>.

(** Put up to [amount] chips into the pot. *)
Definition put_in (amount : Z) (p : player) : player :=
  let pay := Z.min amount (chips p) in
  p <| chips := chips p - pay |> <| roundBet := roundBet p + pay |> <| totalBet := totalBet p + pay |>
    <| allIn := allIn p || Z.eqb (chips p - pay) 0 |>.

(** An ante does not count as a bet of the round. *)
Definition put_ante (amount : Z) (p : player) : player :=
  if inHand p then put_in amount p <| roundBet := roundBet p |> else p.

Definition ante_paid (amount : Z) (p : player) : Z := if inHand p then Z.min amount (chips p) else 0.

(** The player at an index puts chips into the pot. *)
Definition put_in_at (i : Z) (amount : Z) (t : table) : table :=
  match player_at (players t) i with
  | Some p =>
      t <| players := alter (put_in amount) (Z.to_nat i) (players t) |> <| pot := pot t + Z.min amount (chips p) |>
  | None => t
  end.

(** Two cards for each player in the hand. *)
Fixpoint deal_holes (ps : list player) (d : list Z) : list player * list Z :=
  match ps with
  | [] => ([], d)
  | p :: rest =>
      if inHand p then
        let '(ps', d') := deal_holes rest (drop 2 d) in (p <| hole := take 2 d |> :: ps', d')
      else let '(ps', d') := deal_holes rest d in (p :: ps', d')
  end.

Definition send_holes (ps : list player) : list output :=
  flat_map (fun p => if inHand p && negb (isPokerBotId (p_id p)) then [SendHole (p_id p) (hole p)] else []) ps.

(** A fresh deck, everybody with chips dealt in, the next dealer. *)
Definition begin_hand (buf : list Z) (t : table) : table :=
  let ps := map deal_in (players t) in
  t <| handNumber := handNumber t + 1 |> <| deck := rev (shuffle makeDeck buf) |> <| board := [] |>
    <| currentBet := 0 |> <| minRaise := min_raise_of (cfg t) |> <| lastRaise := min_raise_of (cfg t) |>
    <| acted := [] |> <| players := ps |> <| dealerIdx := nextInHandIndex ps (dealerIdx t) |>.

Definition post_antes (t : table) : table :=
  let a := Z.max 0 (ante (cfg t)) in
  t <| pot := foldr (fun p s => ante_paid a p + s) 0 (players t) |> <| players := map (put_ante a) (players t) |>.

(** The small and the big blind, with [n] players in the hand. *)
Definition blind_seats (n : nat) (t : table) : Z * Z :=
  let d := dealerIdx t in
  let sbIdx := if Nat.eqb n 2 then d else nextInHandIndex (players t) d in
  (sbIdx, nextInHandIndex (players t) sbIdx).

Definition post_blinds (sbIdx bbIdx : Z) (t : table) : table :=
  let t := put_in_at bbIdx (bigBlind (cfg t)) (put_in_at sbIdx (smallBlind (cfg t)) t) in
  let bet i := match player_at (players t) i with Some p => roundBet p | None => 0 end in
  t <| currentBet := Z.max (bet sbIdx) (bet bbIdx) |>.

Definition deal_hand (t : table) : table :=
  let '(ps, dk) := deal_holes (players t) (deck t) in
  t <| players := ps |> <| deck := dk |> <| out := out t ++ send_holes ps |>
    <| phase := preflop |> <| street := st_preflop |>.

(** The first player to act, or a showdown when nobody can. *)
Definition open_betting (n : nat) (bbIdx : Z) (t : table) : table :=
  let first := if Nat.eqb n 2 then dealerIdx t else nextLiveSeat (players t) bbIdx in
  let t := t <| toActIdx := first_live (players t) (n + 3) first |> in
  match player_at (players t) (toActIdx t) with
  | Some p => if allIn p then showdown t else pushState (scheduleTurnTimer t)
  | None => showdown t
  end.

Definition startHand (buf : list Z) (t : table) : table :=
  if negb (isPokerLobbyJoinable (phase t)) then pushState t
  else
    let t := clearAutoStartTimer (clearTurnTimer t) in
    let t := t <| winners := [] |> <| players := map take_pending (players t) |> in
    let n := length (List.filter ready (players t)) in
    if Nat.ltb n 2 then pushState t
    else
      let t := post_antes (begin_hand buf t) in
      let '(sbIdx, bbIdx) := blind_seats n t in
      open_betting n bbIdx (deal_hand (post_blinds sbIdx bbIdx t)).

(** ** Actions *)

Inductive action :=
| Fold
| Call
| CheckAction
| Raise (target : option Z) (** [Math.round(requestedTarget)]; [None] is [NaN] *)
| AllIn
| OtherAction.

(** [requestedTarget] of the raise a peer asks for. *)
Definition requested_target (raiseTo amount : option json) (maxBet : Z) : option Z :=
  match to_number raiseTo with
  | Some n => if Z.eqb n 0 then option_map (Z.add maxBet) (to_number (if truthy amount then amount else Some (JNum 0)))
              else Some n
  | None => option_map (Z.add maxBet) (to_number (if truthy amount then amount else Some (JNum 0)))
  end.

Definition read_action (act : json) (maxBet : Z) : action :=
  let a := Some act in
  match prop a "type" with
  | Some (JStr "fold") => Fold
  | Some (JStr "check") => CheckAction
  | Some (JStr "call") => Call
  | Some (JStr "raise") => Raise (requested_target (prop a "raiseTo") (prop a "amount") maxBet)
  | Some (JStr "all_in") => AllIn
  | _ => OtherAction
  end.

(** A bet that may be a raise: a full one lets everybody act again. *)
Definition note_raise (id : string) (maxBet : Z) (t : table) : table :=
  match player_at (players t) (toActIdx t) with
  | Some p =>
      let raiseSize := roundBet p - maxBet in
      let t := t <| currentBet := Z.max (currentBet t) (roundBet p) |> in
      if Z.leb (minRaise t) raiseSize
      then t <| lastRaise := raiseSize |> <| minRaise := Z.max (min_raise_of (cfg t)) raiseSize |> <| acted := [id] |>
      else t <| acted := id :: acted t |>
  | None => t
  end.

Inductive verdict := Ignored | Moved (t : table) | NotANumber.

(** The branches of [applyAction] that move chips or cards. *)
Definition perform (p : player) (act : action) (t : table) : verdict :=
  let maxBet := max_bet (players t) in
  let toCall := maxBet - roundBet p in
  let did (t : table) := t <| acted := p_id p :: acted t |> in
  match act with
  | Fold => Moved (did (t <| players := alter (fun p => p <| folded := true |>) (Z.to_nat (toActIdx t)) (players t) |>))
  | CheckAction => if Z.eqb toCall 0 then Moved (did t) else Ignored
  | Call => Moved (did (put_in_at (toActIdx t) toCall t))
  | Raise requested =>
      let playerMax := roundBet p + chips p in
      if Z.leb playerMax maxBet then Ignored
      else
        match requested with
        | None => NotANumber
        | Some target =>
            let totalTarget := Z.min playerMax (Z.max (maxBet + minRaise t) target) in
            Moved (note_raise (p_id p) maxBet (put_in_at (toActIdx t) (totalTarget - roundBet p) t))
        end
  | AllIn => Moved (note_raise (p_id p) maxBet (put_in_at (toActIdx t) (chips p) t))
  | OtherAction => Moved t
  end.

(** What follows every action: the hand ends, the street ends, or the next player is up. *)
Definition proceed (t : table) : table :=
  let '(done, t) := awardUncontested t in
  if done then t
  else
    let anyLive := existsb (fun p => negb (allIn p)) (activeInHand (players t)) in
    let t :=
      if bettingComplete t then
        let t := if negb anyLive && negb (bool_decide (street t = st_river)) then runoutBoard t else t in
        if negb anyLive || bool_decide (street t = st_river) then showdown t else advanceStreet t
      else
        let next := nextLiveSeat (players t) (toActIdx t) in
        scheduleTurnTimer (t <| toActIdx := skip_to_live (players t) (length (players t) + 2) next |>) in
    pushState t.

(** [None]: chips, bets and the pot become [NaN]. *)
Definition applyAction (peerId : string) (act : json) (t : table) : option table :=
  match player_at (players t) (toActIdx t) with
  | Some p =>
      if negb (bool_decide (p_id p = peerId)) || negb (live p) then Some t
      else
        match perform p (read_action act (max_bet (players t))) t with
        | Ignored => Some t
        | Moved t' => Some (proceed t')
        | NotANumber => None
        end
  | None => Some t
  end.

Definition fold_action : json := JObj [("type", JStr "fold")].

(** ** Joining and leaving *)

Definition findSeat (t : table) : option Z :=
  List.find (fun s => negb (existsb (fun p => Z.eqb (seat p) s) (players t))) (seqZ 0 (maxPlayers (cfg t))).

Definition seat_order : list player -> list player := sort_by (fun a b => Z.leb (seat a) (seat b)).

Definition new_player (peerId : string) (name : option string) (s startingChips : Z) : player :=
  mk_player peerId (default (str_take 8 peerId) (truthy_str name)) s startingChips false false 0 0 [] false
    (isPokerBotId peerId) true 0 0 0 0.

Definition reconnect (name : option string) (p : player) : player :=
  p <| connected := true |>
    <| p_name := str_take 48 (default (if bool_decide (p_name p = "") then p_id p else p_name p) (truthy_str name)) |>.

Definition addPlayer (peerId : string) (name : option string) (t : table) : bool * table :=
  match find_player peerId (players t) with
  | Some existing =>
      let t := t <| players := update_player peerId (reconnect name) (players t) |> in
      let t := if negb (bool_decide (hole existing = [])) && negb (isPokerBotId peerId)
               then emit (SendHole peerId (hole existing)) t else t in
      (true, pushState t)
  | None =>
      if Z.leb (maxPlayers (cfg t)) (Z.of_nat (length (players t))) then (false, t)
      else
        match findSeat t with
        | None => (false, t)
        | Some s =>
            let ps := seat_order (players t ++ [new_player peerId name s (startingChips (cfg t))]) in
            (true, pushState (scheduleAutoStart (t <| players := ps |>)))
        end
  end.

Definition playing (t : table) : bool := negb (isPokerLobbyJoinable (phase t)).

Definition close_if_empty (t : table) : table :=
  if bool_decide (players t = []) then t <| phase := lobby |> <| street := idle |> else t.

Definition fold_out (p : player) : player := p <| folded := true |>.

Definition removePlayer (peerId : string) (t : table) : table :=
  match index_of peerId (players t), find_player peerId (players t) with
  | Some i, Some p =>
      if inHand p && playing t then
        let t := t <| players := update_player peerId (fun p => p <| connected := false |>) (players t) |> in
        if Z.eqb (Z.of_nat i) (toActIdx t) then default t (applyAction peerId fold_action t)
        else
          let t := t <| players := update_player peerId fold_out (players t) |> <| acted := peerId :: acted t |> in
          let '(done, t) := awardUncontested t in
          if done then t else pushState (close_if_empty t)
      else
        let t := t <| players := delete i (players t) |> in
        let t := if Z.ltb (Z.of_nat i) (dealerIdx t) then t <| dealerIdx := dealerIdx t - 1 |> else t in
        let n := Z.of_nat (length (players t)) in
        let t := if Z.leb n (dealerIdx t) then t <| dealerIdx := n - 1 |> else t in
        pushState (close_if_empty t)
  | _, _ => t
  end.

(** Take the player at an index off the table. *)
Definition drop_player (i : nat) (shift_turn : bool) (t : table) : table :=
  let idx := Z.of_nat i in
  let t := if Z.ltb idx (dealerIdx t) then t <| dealerIdx := dealerIdx t - 1 |> else t in
  let t := if shift_turn && Z.ltb idx (toActIdx t) then t <| toActIdx := toActIdx t - 1 |> else t in
  let t := t <| players := delete i (players t) |> in
  let n := Z.of_nat (length (players t)) in
  let t := if Z.leb n (dealerIdx t) then t <| dealerIdx := Z.max 0 (n - 1) |> else t in
  let t := if shift_turn && Z.leb n (toActIdx t) then t <| toActIdx := Z.max 0 (n - 1) |> else t in
  close_if_empty t.

Definition kickPlayer (peerId : string) (t : table) : bool * table :=
  if bool_decide (peerId = selfId t) then (false, t)
  else
    match index_of peerId (players t), find_player peerId (players t) with
    | Some i, Some p =>
        let t := emit (SendWire peerId "kicked") t in
        let gone (t : table) := (true, pushState (checkpoint "kick" t)) in
        if inHand p && playing t && negb (folded p) then
          let wasToAct :=
            match player_at (players t) (toActIdx t) with Some a => bool_decide (p_id a = peerId) | None => false end in
          let t := t <| players := update_player peerId fold_out (players t) |> <| acted := peerId :: acted t |> in
          let '(done, t) := awardUncontested t in
          if done then gone (drop_player i false t)
          else
            let t :=
              if wasToAct then
                let next := nextLiveSeat (players t) (toActIdx t) in
                scheduleTurnTimer (t <| toActIdx := skip_to_live (players t) (length (players t) + 2) next |>)
              else t in
            gone (drop_player i true t)
        else gone (drop_player i true t)
    | _, _ => (false, t)
    end.

Definition addDebugBot (t : table) : bool * table :=
  if has_player POKER_BOT_PEER_ID (players t) then (false, t) else addPlayer POKER_BOT_PEER_ID (Some "Debug-Bot") t.

Definition removeDebugBot (t : table) : table :=
  if has_player POKER_BOT_PEER_ID (players t) then removePlayer POKER_BOT_PEER_ID t else t.

(** [invitedPeers.has(from)] and the phase decide about a join; [None] as in [applyAction]. *)
Definition onWire (from wire : string) (body : json) (t : table) : option table :=
  let b := Some body in
  if bool_decide (from = selfId t) then Some t
  else if bool_decide (wire = "join") then
    if isPokerBotId from then Some t
    else if negb (isPokerLobbyJoinable (phase t)) then Some (emit (SendWire from "join_reject") t)
    else if negb (public_lobby (cfg t)) && negb (includes (invitedPeers t) from)
    then Some (emit (SendWire from "join_reject") t)
    else
      let '(joined, t) := addPlayer from (if truthy (prop b "name") then option_map to_string (prop b "name") else None) t in
      Some (emit (SendWire from (if joined then "join_ok" else "join_reject")) t)
  else if bool_decide (wire = "leave") then Some (removePlayer from t)
  else if bool_decide (wire = "action") then
    applyAction from (default (JObj []) (if truthy (prop b "action") then prop b "action" else None)) t
  else Some t.

(** ** Administration *)

Definition bootstrapHost (name : option string) (restored : bool) (t : table) : table :=
  checkpoint (if restored then "resumed" else "table_created")
    (addPlayer (selfId t) (Some (default "Host" (truthy_str name))) t).2.

Definition updateSettings (patch : fields) (t : table) : table :=
  let seats := foldr (fun p m => Z.max (seat p + 1) m) 2 (players t) in
  let t := t <| cfg := sanitizeSettings patch (cfg t) seats |> in
  let t :=
    if bool_decide (phase t = lobby) then scheduleAutoStart t
    else if bool_decide (phase t = between) then
      let t := clearAutoStartTimer t in if autoStart (cfg t) then t <| nextTimer := true |> else t
    else scheduleTurnTimer t in
  pushState (if playing t then t else checkpoint "settings" t).

Definition addChips (peerId : string) (value : option Z) (t : table) : bool * table :=
  let v := clampInt value 1 1000000000 0 in
  if negb (has_player peerId (players t)) || Z.leb v 0 then (false, t)
  else
    let grant (p : player) :=
      let p := if playing t then p <| pendingChips := Z.min 1000000000 (pendingChips p + v) |>
               else p <| chips := Z.min 1000000000 (chips p + v) |> in
      p <| chipsGranted := chipsGranted p + v |> in
    let t := t <| players := update_player peerId grant (players t) |> in
    (true, pushState (if playing t then t else checkpoint "admin_chips" t)).

Definition removeChips (peerId : string) (value : option Z) (t : table) : bool * table :=
  let v := clampInt value 1 1000000000 0 in
  if negb (has_player peerId (players t)) || Z.leb v 0 then (false, t)
  else if playing t then (false, pushState t)
  else
    let t := t <| players := update_player peerId (fun p => p <| chips := Z.max 0 (chips p - v) |>) (players t) |> in
    (true, pushState (checkpoint "admin_chips" t)).

(** [reachable] is whether the peer is connected and not blocked. *)
Definition invitePeer (peerId : string) (reachable : bool) (t : table) : bool * table :=
  if bool_decide (peerId = "") || has_player peerId (players t) || negb reachable then (false, t)
  else
    let invited := if includes (invitedPeers t) peerId then invitedPeers t else invitedPeers t ++ [peerId] in
    (true, pushState (emit (SendInvite peerId) (t <| invitedPeers := invited |>))).

Definition saveNow (t : table) : bool * table :=
  if playing t then (false, pushState t) else (true, pushState (checkpoint "manual" t)).

(** ** Timers *)

(** The turn timer folds the player it was started for. *)
Definition turn_timeout (t : table) : table :=
  match turnTimer t with
  | Some id => let t := t <| turnTimer := None |> in default t (applyAction id fold_action t)
  | None => t
  end.

Definition auto_start_timeout (buf : list Z) (t : table) : table :=
  if startTimer t then
    let t := t <| startTimer := false |> in if bool_decide (phase t = lobby) then startHand buf t else t
  else t.

Definition next_hand_timeout (buf : list Z) (t : table) : table :=
  if nextTimer t then
    let t := t <| nextTimer := false |> in if bool_decide (phase t = between) then startHand buf t else t
  else t.

Definition new_table (self : string) (s : settings) : table :=
  mk_table self s [] lobby idle (-1) [] [] 0 0 (bigBlind s) (bigBlind s) (-1) [] 0 [] [] None false false [].
