(* ===== verification/PokerFacts.v ===== *)
(** * Facts about the poker table

    Side pots, chips and the betting order: no chip is lost or created during a hand, the
    best hands win, and a hand always has a next player, with the operations that break this. *)

From Stdlib Require Import Sorting.Sorted.
From S2P Require Import Prelude Json Shuffle Cards Poker.

(** ** Sums over the players *)

Definition sum_of {A} (f : A -> Z) (l : list A) : Z := foldr (fun x s => f x + s) 0 l.

Lemma sum_app {A} (f : A -> Z) l1 l2 : sum_of f (l1 ++ l2) = sum_of f l1 + sum_of f l2.
Proof. induction l1; simpl; lia. Qed.

Lemma sum_ext {A} (f g : A -> Z) l : (forall x, x ∈ l -> f x = g x) -> sum_of f l = sum_of g l.
Proof. induction l as [|x l IH]; intros H; simpl; [done|]. rewrite H, IH; set_solver. Qed.

Lemma sum_map {A B} (f : B -> Z) (g : A -> B) l : sum_of f (map g l) = sum_of (fun x => f (g x)) l.
Proof. induction l; simpl; lia. Qed.

Lemma sum_plus {A} (f g : A -> Z) l : sum_of (fun x => f x + g x) l = sum_of f l + sum_of g l.
Proof. induction l; simpl; lia. Qed.

Lemma sum_nonneg {A} (f : A -> Z) l : Forall (fun x => 0 <= f x) l -> 0 <= sum_of f l.
Proof. induction 1; simpl; lia. Qed.

(** ** Side pots *)

Lemma ascending_sorted l : StronglySorted Z.le (ascending l).
Proof. apply (sort_by_sorted _ (fun _ => True)); [lia|lia|lia|by apply Forall_true]. Qed.

Definition excess (prev : Z) (c : string * Z) : Z := Z.max 0 (c.2 - prev).

(** The layers above [prev] hold what each contribution has above [prev]. *)
Lemma pots_from_total levels : forall prev contrib,
  StronglySorted Z.le levels -> NoDup levels -> Forall (fun l => prev < l) levels ->
  (forall c, c ∈ contrib -> prev < c.2 -> c.2 ∈ levels) ->
  sum_of amount (pots_from prev levels contrib) = sum_of (excess prev) contrib.
Proof.
  induction levels as [|cap rest IH]; intros prev contrib Hs Hn Hp Hc; simpl.
  - induction contrib as [|c contrib IHc]; [done|]. simpl. rewrite <- IHc by set_solver.
    unfold excess. destruct (Z.lt_ge_cases prev c.2) as [H|H]; [|lia].
    exfalso. apply (not_elem_of_nil c.2), Hc; [left|done].
  - apply NoDup_cons in Hn as [Hn1 Hn]. apply Forall_cons in Hp as [Hcap Hp].
    inversion Hs as [|? ? Hs' Hge]; subst. rewrite Forall_forall in Hge.
    rewrite IH; [|done|done|..].
    2:{ rewrite Forall_forall. intros x Hx. specialize (Hge x Hx).
        destruct (decide (x = cap)); [by subst|lia]. }
    2:{ intros c Hin Hlt. destruct (elem_of_cons rest c.2 cap) as [H _].
        destruct (H (Hc c Hin ltac:(lia))); [lia|done]. }
    assert (Hgap : forall c, c ∈ contrib -> c.2 <= prev \/ cap <= c.2).
    { intros c Hin. destruct (Z.lt_ge_cases prev c.2) as [H|H]; [right|by left].
      apply Hc in H; [|done]. apply elem_of_cons in H as [->|H]; [lia|by apply Hge]. }
    clear -Hgap Hcap. induction contrib as [|c contrib IHc]; simpl; [lia|].
    specialize (IHc ltac:(set_solver)). destruct (Hgap c ltac:(left)) as [H|H]; unfold excess at 1 3.
    + rewrite (proj2 (Z.leb_gt cap c.2)) by lia. rewrite !Z.max_l by lia. lia.
    + rewrite (proj2 (Z.leb_le cap c.2)) by lia. rewrite !Z.max_r by lia. simpl length. lia.
Qed.

Lemma pots_from_eligible levels contrib : forall prev p,
  (forall l, l ∈ levels -> exists c, c ∈ contrib /\ l <= c.2) -> prev ∉ levels ->
  StronglySorted Z.le levels -> NoDup levels -> Forall (fun l => prev <= l) levels ->
  p ∈ pots_from prev levels contrib ->
  0 <= amount p /\ eligible p <> [] /\ exists cap, eligible p = map fst (List.filter (fun c => Z.leb cap c.2) contrib).
Proof.
  induction levels as [|cap rest IH]; intros prev p Hl Hp Hs Hn Hge Hin; simpl in *; [by apply elem_of_nil in Hin|].
  apply Forall_cons in Hge as [Hcap Hge]. apply NoDup_cons in Hn as [Hn1 Hn].
  inversion Hs as [|? ? Hs' Hrest]; subst. apply elem_of_cons in Hin as [->|Hin]; simpl.
  - split; [nia|]. split; [|by exists cap]. destruct (Hl cap ltac:(left)) as (c & Hc & Hle).
    intros E. apply map_eq_nil in E. assert (H : In c []); [|done].
    rewrite <- E. apply filter_In. split; [by apply list_elem_of_In|]. by apply Z.leb_le.
  - apply (IH cap p); auto. intros l Hin'. apply Hl. by right.
Qed.

Lemma nodup_NoDup (l : list Z) : NoDup (nodup Z.eq_dec l).
Proof. apply NoDup_ListNoDup, NoDup_nodup. Qed.

Lemma levels_spec (contrib : list (string * Z)) :
  let ids := List.filter (fun c => Z.ltb 0 c.2) contrib in
  let levels := ascending (nodup Z.eq_dec (map snd ids)) in
  NoDup levels /\ forall l, l ∈ levels <-> exists c, c ∈ ids /\ c.2 = l.
Proof.
  simpl. split; [rewrite (sort_by_perm Z.leb); apply nodup_NoDup|].
  intros l. unfold ascending. rewrite (sort_by_perm Z.leb), list_elem_of_In, nodup_In, in_map_iff.
  setoid_rewrite list_elem_of_In. naive_solver.
Qed.

Lemma positive_ids (contrib : list (string * Z)) c :
  c ∈ List.filter (fun c => Z.ltb 0 c.2) contrib <-> c ∈ contrib /\ 0 < c.2.
Proof. by rewrite !list_elem_of_In, filter_In, Z.ltb_lt. Qed.

Lemma side_pots_total contrib :
  Forall (fun c => 0 <= c.2) contrib -> sum_of amount (buildSidePots contrib) = sum_of snd contrib.
Proof.
  intros Hc. unfold buildSidePots. destruct (levels_spec contrib) as [Hn Hl]. rewrite pots_from_total.
  - clear Hn Hl. induction Hc as [|c contrib Hc0 Hc IH]; [done|]. simpl.
    destruct (Z.ltb_spec 0 c.2); simpl; rewrite IH; [unfold excess|]; lia.
  - apply ascending_sorted.
  - done.
  - rewrite Forall_forall. intros l (c & Hin & <-)%Hl. apply positive_ids in Hin. lia.
  - intros c Hin _. apply Hl. eauto.
Qed.

Lemma side_pot_eligible contrib p :
  p ∈ buildSidePots contrib ->
  0 <= amount p /\ eligible p <> [] /\ exists cap, eligible p = map fst (List.filter (fun c => Z.leb cap c.2)
    (List.filter (fun c => Z.ltb 0 c.2) contrib)).
Proof.
  unfold buildSidePots. destruct (levels_spec contrib) as [Hn Hl]. apply pots_from_eligible.
  - intros l (c & Hin & <-)%Hl. exists c. split; [done|lia].
  - intros (c & Hin%positive_ids & H)%Hl. lia.
  - apply ascending_sorted.
  - done.
  - rewrite Forall_forall. intros l (c & Hin & <-)%Hl. apply positive_ids in Hin. lia.
Qed.

(** ** Paying players *)

Abbreviation ids ps := (map p_id ps).
Abbreviation chips_sum := (sum_of chips).

(** What a player has put into the pot of the hand. *)
Definition in_pot (p : player) : Z := if inHand p then totalBet p else 0.
Abbreviation bets_sum := (sum_of in_pot).

(** The same player with more chips and more hands won. *)
Definition richer (p p' : player) : Prop :=
  exists d w, 0 <= d /\ p' = p <| chips := chips p + d |> <| handsWon := handsWon p + w |>.

Lemma richer_refl p : richer p p.
Proof. exists 0, 0. split; [done|]. destruct p; simpl. by rewrite !Z.add_0_r. Qed.

Lemma richer_trans p q r : richer p q -> richer q r -> richer p r.
Proof.
  intros (d & w & Hd & ->) (d' & w' & Hd' & ->). exists (d + d'), (w + w'). split; [lia|].
  destruct p; simpl. by rewrite !Z.add_assoc.
Qed.

Definition all_richer : list player -> list player -> Prop := Forall2 richer.

#[export] Instance all_richer_preorder : PreOrder all_richer.
Proof.
  split.
  - intros ps. apply Forall2_same_length_lookup_2; [done|]. intros i p q Hp Hq.
    simplify_eq. apply richer_refl.
  - intros a b c Hab. revert c. induction Hab as [|p q a b Hpq Hab IH]; intros c Hc; [done|].
    inversion Hc; subst. constructor; [by eapply richer_trans|]. by apply IH.
Qed.

Lemma all_richer_map {B} (f : player -> B) ps ps' :
  (forall p d w, f (p <| chips := chips p + d |> <| handsWon := handsWon p + w |>) = f p) ->
  all_richer ps ps' -> map f ps' = map f ps.
Proof.
  intros Hf. induction 1 as [|p q ps ps' (d & w & _ & ->) _ IH]; cbn [map]; [done|]. by rewrite Hf, IH.
Qed.

Lemma richer_ids ps ps' : all_richer ps ps' -> ids ps' = ids ps.
Proof. by apply all_richer_map. Qed.

Lemma has_player_spec id ps : has_player id ps = true <-> id ∈ ids ps.
Proof.
  unfold has_player. rewrite existsb_exists, list_elem_of_fmap. setoid_rewrite bool_decide_eq_true.
  setoid_rewrite list_elem_of_In. naive_solver.
Qed.

Lemma update_absent id f ps : id ∉ ids ps -> update_player id f ps = ps.
Proof.
  induction ps as [|p ps IH]; [done|]. simpl. rewrite not_elem_of_cons. intros [Hp Hn].
  rewrite bool_decide_eq_false_2 by congruence. by rewrite IH.
Qed.

Lemma update_sum (g : player -> Z) id f ps d :
  NoDup (ids ps) -> id ∈ ids ps -> (forall p, p ∈ ps -> p_id p = id -> g (f p) = g p + d) ->
  sum_of g (update_player id f ps) = sum_of g ps + d.
Proof.
  induction ps as [|p ps IH]; simpl; [intros _ H; by apply elem_of_nil in H|].
  rewrite NoDup_cons, elem_of_cons. intros [Hp Hn] Hin Hf. case_bool_decide as E.
  - rewrite update_absent by congruence. rewrite (Hf p) by (left || done). lia.
  - rewrite IH; [lia|done|by destruct Hin as [->|]|]. intros q Hq. apply Hf. by right.
Qed.

Lemma update_same_sum (g : player -> Z) id f ps :
  (forall p, g (f p) = g p) -> sum_of g (update_player id f ps) = sum_of g ps.
Proof. intros Hf. induction ps as [|p ps IH]; simpl; [done|]. case_bool_decide; rewrite ?Hf; lia. Qed.

Lemma update_ids id f ps : (forall p, p_id (f p) = p_id p) -> ids (update_player id f ps) = ids ps.
Proof. intros Hf. induction ps as [|p ps IH]; simpl; [done|]. case_bool_decide; rewrite ?Hf, IH; done. Qed.

Lemma update_richer id f ps : (forall p, richer p (f p)) -> all_richer ps (update_player id f ps).
Proof.
  intros Hf. induction ps as [|p ps IH]; simpl; constructor; [|done].
  case_bool_decide; [done|apply richer_refl].
Qed.

Lemma add_chips_richer a p : 0 <= a -> richer p (add_chips a p).
Proof. intros Ha. exists a, 0. split; [done|]. unfold add_chips. destruct p; simpl. by rewrite Z.add_0_r. Qed.

Lemma pay_shares_spec l share rem ps : forall ps' paid,
  NoDup (ids ps) -> 0 <= share -> 0 <= rem -> Forall (fun id => id ∈ ids ps) l ->
  pay_shares l share rem ps = (ps', paid) ->
  all_richer ps ps' /\ chips_sum ps' = chips_sum ps + share * Z.of_nat (length l) + Z.min rem (Z.of_nat (length l)).
Proof.
  revert rem ps. induction l as [|id l IH]; intros rem ps ps' paid Hn Hs Hr Hl; simpl.
  - intros [= <- <-]. split; [done|]. lia.
  - apply Forall_cons in Hl as [Hid Hl]. rewrite (proj2 (has_player_spec id ps)) by done.
    set (a := share + _). assert (Ha : 0 <= a) by (unfold a; case_match; lia).
    destruct (pay_shares l share _ _) as [ps1 paid1] eqn:E. intros [= <- <-].
    assert (Hr1 : all_richer ps (update_player id (add_chips a) ps)).
    { apply update_richer. intros p. by apply add_chips_richer. }
    apply IH in E as [Hrich Hsum]; [| |done|lia|].
    + split; [by etrans|]. rewrite Hsum, (update_sum _ _ _ _ a) by done.
      unfold a. destruct (Z.ltb_spec 0 rem); lia.
    + by rewrite (richer_ids _ _ Hr1).
    + by rewrite (richer_ids _ _ Hr1).
Qed.

Lemma split_pot_spec l total ps ps' paid :
  NoDup (ids ps) -> l <> [] -> 0 <= total -> Forall (fun id => id ∈ ids ps) l ->
  split_pot l total ps = (ps', paid) ->
  all_richer ps ps' /\ chips_sum ps' = chips_sum ps + total.
Proof.
  intros Hn Hl Ht Hin. unfold split_pot. set (n := Z.of_nat (length l)).
  assert (Hn0 : 0 < n) by (unfold n; destruct l; [done|simpl; lia]).
  pose proof (Z.mod_pos_bound total n Hn0) as Hm. pose proof (Z.div_mod total n ltac:(lia)) as Hd.
  intros E. apply pay_shares_spec in E as [Hr Hs]; [|done|apply Z.div_pos; lia|lia|done].
  split; [done|]. rewrite Hs. fold n. rewrite Z.min_l; lia.
Qed.

(** ** The winners of a pot *)

Lemma pick_winners_subset hand l : forall best won w b,
  pick_winners hand l best won = (w, b) -> forall id, id ∈ w -> id ∈ won \/ id ∈ l.
Proof.
  induction l as [|id l IH]; intros best won w b; simpl; [intros [= <- <-]; auto|].
  intros E x Hx. destruct best as [best|]; [destruct (beats _ _); [|destruct (ties _ _)]|];
    destruct (IH _ _ _ _ E x Hx) as [H|H]; set_solver.
Qed.

Lemma pick_winners_some hand l : forall best won w b,
  pick_winners hand l best won = (w, b) -> won <> [] \/ (best = None /\ l <> []) -> w <> [].
Proof.
  induction l as [|id l IH]; intros best won w b; simpl; [intros [= <- <-]; naive_solver|].
  intros E H. destruct best as [best|]; [destruct (beats _ _); [|destruct (ties _ _)]|];
    apply IH in E; try done; left; try done; destruct H as [H|[? _]]; try done; by destruct won.
Qed.

Lemma in_play_ids ps id : in_play ps id = true -> id ∈ ids ps.
Proof.
  unfold in_play, find_player. destruct (find _ ps) as [p|] eqn:E; [|done]. intros _.
  apply find_some in E as [Hp Hid]. bool_cases. subst. apply list_elem_of_fmap_2. by apply list_elem_of_In.
Qed.

Lemma settle_pot_spec board ps results p ps' results' :
  NoDup (ids ps) -> 0 <= amount p -> eligible p <> [] -> Forall (fun id => id ∈ ids ps) (eligible p) ->
  settle_pot board (ps, results) p = (ps', results') ->
  all_richer ps ps' /\ chips_sum ps' = chips_sum ps + amount p.
Proof.
  intros Hn Ha He Hin. unfold settle_pot. destruct (List.filter (in_play ps) (eligible p)) as [|id l] eqn:El.
  - destruct (split_pot _ _ ps) as [ps1 paid] eqn:E. intros [= <- <-]. by eapply split_pot_spec.
  - destruct (pick_winners _ _ None []) as [won best] eqn:Ew.
    destruct (split_pot won _ ps) as [ps1 paid] eqn:E. intros [= <- <-]. eapply split_pot_spec; [..|exact E]; [done| |done|].
    + eapply pick_winners_some; [exact Ew|]. by right.
    + rewrite Forall_forall. intros x Hx. apply (pick_winners_subset _ _ _ _ _ _ Ew) in Hx as [Hx|Hx]; [by apply elem_of_nil in Hx|].
      rewrite <- El, list_elem_of_In, filter_In in Hx. apply in_play_ids, Hx.
Qed.

Lemma settle_pots_spec board pots : forall ps results ps' results',
  NoDup (ids ps) ->
  Forall (fun p => 0 <= amount p /\ eligible p <> [] /\ Forall (fun id => id ∈ ids ps) (eligible p)) pots ->
  fold_left (settle_pot board) pots (ps, results) = (ps', results') ->
  all_richer ps ps' /\ chips_sum ps' = chips_sum ps + sum_of amount pots.
Proof.
  induction pots as [|p pots IH]; intros ps results ps' results' Hn Hp; cbn [fold_left sum_of foldr].
  - intros [= <- <-]. split; [done|lia].
  - apply Forall_cons in Hp as [(Ha & He & Hi) Hp]. destruct (settle_pot board (ps, results) p) as [ps1 r1] eqn:E.
    apply settle_pot_spec in E as [Hr Hs]; [|done..]. intros E. pose proof (richer_ids _ _ Hr) as Hids.
    apply IH in E as [Hr' Hs']; [|by rewrite Hids|by rewrite Hids]. split; [by etrans|]. unfold sum_of in *. lia.
Qed.

Lemma won_hand_richer p : richer p (won_hand p).
Proof. exists 0, 1. split; [done|]. unfold won_hand. destruct p; simpl. by rewrite Z.add_0_r. Qed.

Lemma count_wins_spec wins ps :
  let ps' := fold_left (fun ps w => update_player (w_id w) won_hand ps) wins ps in
  all_richer ps ps' /\ chips_sum ps' = chips_sum ps.
Proof.
  revert ps. induction wins as [|w wins IH]; intros ps; simpl; [by split|].
  destruct (IH (update_player (w_id w) won_hand ps)) as [Hr Hs]. split.
  - etrans; [|exact Hr]. apply update_richer, won_hand_richer.
  - rewrite Hs. by apply update_same_sum.
Qed.

Lemma sum_contributions ps : sum_of snd (contributions ps) = bets_sum ps.
Proof.
  unfold contributions. rewrite sum_map. simpl. induction ps as [|p ps IH]; [done|].
  simpl. unfold in_pot at 1. destruct (inHand p); simpl; by rewrite IH.
Qed.

(** A showdown pays out what the players have put in, and touches nothing else of them. *)
Lemma showdown_spec t :
  NoDup (ids (players t)) -> Forall (fun p => 0 <= totalBet p) (players t) ->
  let t' := showdown t in
  all_richer (players t) (players t') /\ chips_sum (players t') = chips_sum (players t) + bets_sum (players t) /\
  phase t' = between /\ cfg t' = cfg t /\ dealerIdx t' = dealerIdx t.
Proof.
  intros Hn Hb. unfold showdown.
  change (players (clearTurnTimer t)) with (players t). change (board (clearTurnTimer t)) with (board t).
  destruct (fold_left (settle_pot (board t)) _ _) as [ps results] eqn:E.
  assert (Hc : Forall (fun c => 0 <= c.2) (contributions (players t))).
  { rewrite Forall_forall. intros c (p & -> & Hp)%list_elem_of_fmap. simpl.
    rewrite Forall_forall in Hb. apply Hb. rewrite list_elem_of_In, filter_In in Hp. apply list_elem_of_In, Hp. }
  apply settle_pots_spec in E as [Hr Hs]; [|done|].
  - rewrite side_pots_total, sum_contributions in Hs by done.
    destruct (count_wins_spec (fold_left add_win results []) ps) as [Hr' Hs'].
    unfold finish_hand. simpl. destruct (autoStart _); simpl; (split_and!; [by etrans|lia|done..]).
  - rewrite Forall_forall. intros p (Ha & He & cap & Hcap)%side_pot_eligible. split_and!; [done|done|].
    rewrite Hcap, Forall_forall. intros id (c & -> & Hin)%list_elem_of_fmap.
    rewrite list_elem_of_In, filter_In, filter_In in Hin. destruct Hin as [[Hin _] _].
    apply list_elem_of_In, list_elem_of_fmap in Hin as (q & -> & Hq). simpl. apply list_elem_of_fmap_2.
    rewrite list_elem_of_In, filter_In in Hq. apply list_elem_of_In, Hq.
Qed.

(** ** The betting order *)

Lemma player_at_Some ps i p : player_at ps i = Some p <-> 0 <= i /\ ps !! Z.to_nat i = Some p.
Proof. unfold player_at. destruct (Z.ltb_spec i 0); [|naive_solver lia]. split; [done|lia]. Qed.

Lemma player_at_elem ps i p : player_at ps i = Some p -> p ∈ ps.
Proof. intros [_ H]%player_at_Some. by eapply list_elem_of_lookup_2. Qed.

Lemma next_index_ok ok ps from k :
  next_index ok ps from k = -1 \/
  exists p, player_at ps (next_index ok ps from k) = Some p /\ ok p = true.
Proof.
  induction k as [|k IH]; simpl; [by left|].
  set (i := Z.rem (from + Z.of_nat (length ps - k)) (Z.of_nat (length ps))).
  destruct (player_at ps i) as [p|] eqn:E; [|done]. destruct (ok p) eqn:Eo; [right; eauto|done].
Qed.

Lemma next_index_found ok ps from p :
  0 <= from + 1 -> p ∈ ps -> ok p = true -> next_index ok ps from (length ps) <> -1.
Proof.
  intros Hf Hp Ho. set (n := Z.of_nat (length ps)).
  assert (Hstep : forall k (o : Z), (k <= length ps)%nat -> n - Z.of_nat k < o <= n ->
    player_at ps (Z.rem (from + o) n) = Some p -> next_index ok ps from k <> -1).
  { induction k as [|k IH]; intros o Hk Ho' Hat; [lia|]. simpl. fold n.
    destruct (player_at ps (Z.rem (from + Z.of_nat (length ps - k)) n)) as [q|] eqn:E.
    - destruct (ok q) eqn:Eq.
      + apply player_at_Some in E. lia.
      + apply (IH o); [lia| |done]. destruct (decide (o = Z.of_nat (length ps - k))) as [->|]; [congruence|lia].
    - apply (IH o); [lia| |done]. destruct (decide (o = Z.of_nat (length ps - k))) as [->|]; [congruence|lia]. }
  apply list_elem_of_lookup in Hp as [i Hi]. pose proof (lookup_lt_Some _ _ _ Hi) as Hlt.
  assert (Hn : 0 < n) by lia. set (o := (Z.of_nat i - from - 1) mod n + 1).
  pose proof (Z.mod_pos_bound (Z.of_nat i - from - 1) n Hn).
  apply (Hstep (length ps) o); [done|lia|].
  rewrite Z.rem_mod_nonneg by lia. unfold o.
  replace (from + ((Z.of_nat i - from - 1) mod n + 1)) with ((from + 1) + (Z.of_nat i - from - 1) mod n) by lia.
  rewrite Z.add_mod_idemp_r by lia. replace (from + 1 + (Z.of_nat i - from - 1)) with (Z.of_nat i) by lia.
  rewrite Z.mod_small by lia. apply player_at_Some. split; [lia|]. by rewrite Nat2Z.id.
Qed.

Definition someone_live (ps : list player) : Prop := exists p, p ∈ ps /\ live p = true.

Lemma nextLiveSeat_live ps from : 0 <= from + 1 -> someone_live ps -> live_at ps (nextLiveSeat ps from) = true.
Proof.
  intros Hf (p & Hp & Hl). unfold nextLiveSeat, live_at.
  destruct (next_index_ok live ps from (length ps)) as [E|(q & -> & ?)]; [|done].
  exfalso. by eapply next_index_found.
Qed.

Lemma skip_to_live_id ps guard i : live_at ps i = true -> skip_to_live ps guard i = i.
Proof. intros H. destruct guard; simpl; [done|]. by rewrite H. Qed.

Lemma first_live_live ps guard i :
  0 <= i + 1 -> someone_live ps -> (2 <= guard)%nat -> live_at ps (first_live ps guard i) = true.
Proof.
  intros Hi Hs Hg. pose proof (nextLiveSeat_live ps i Hi Hs) as Hn.
  destruct guard as [|[|guard]]; [lia|lia|]. cbn [first_live].
  destruct (live_at ps i) eqn:E; [done|].
  destruct (Z.ltb_spec (nextLiveSeat ps i) 0); simpl.
  - exfalso. unfold live_at, player_at in Hn. by rewrite (proj2 (Z.ltb_lt _ 0)) in Hn.
  - destruct (Z.eqb_spec (nextLiveSeat ps i) i) as [E'|]; [rewrite E' in Hn; congruence|]. by rewrite Hn.
Qed.

Lemma live_at_spec ps i : live_at ps i = true -> exists p, player_at ps i = Some p /\ live p = true.
Proof. unfold live_at. destruct (player_at ps i); [eauto|done]. Qed.

(** ** The table during a hand *)

Record sound (p : player) : Prop := mk_sound {
  s_chips : 0 <= chips p; s_total : 0 <= totalBet p; s_round : 0 <= roundBet p; s_pending : 0 <= pendingChips p
}.

Record settings_ok (s : settings) : Prop := mk_settings_ok {
  so_blinds : 1 <= smallBlind s <= bigBlind s; so_ante : 0 <= ante s; so_raise : 1 <= minRaiseBB s
}.

Definition hand_street (s : poker_street) : Prop := s = st_preflop \/ s = st_flop \/ s = st_turn \/ s = st_river.

(** Nobody sits twice, no amount is negative, the pot is what the players have put in. *)
Record hand_ok (t : table) : Prop := mk_hand_ok {
  h_ids : NoDup (ids (players t));
  h_sound : Forall sound (players t);
  h_settings : settings_ok (cfg t);
  h_pot : pot t = bets_sum (players t);
  h_street : hand_street (street t);
  h_raise : 0 <= minRaise t;
  h_dealer : 0 <= dealerIdx t < Z.of_nat (length (players t))
}.

Definition in_progress (t : table) : Prop := phase t = phase_of (street t) /\ live_at (players t) (toActIdx t) = true.

Record table_ok (t : table) : Prop := mk_table_ok {
  t_ids : NoDup (ids (players t));
  t_sound : Forall sound (players t);
  t_settings : settings_ok (cfg t);
  t_dealer : -1 <= dealerIdx t;
  t_hand : playing t = true -> hand_ok t /\ in_progress t
}.

(** All the chips on the table. *)
Definition money (t : table) : Z := chips_sum (players t) + (if playing t then pot t else 0).

Lemma hand_playing t : hand_street (street t) -> phase t = phase_of (street t) -> playing t = true.
Proof. intros H Hp. unfold playing, isPokerLobbyJoinable. rewrite Hp. by destruct H as [->|[->|[->| ->]]]. Qed.

Lemma hand_table t : hand_ok t -> in_progress t -> table_ok t /\ money t = chips_sum (players t) + pot t.
Proof.
  intros H [Hp Hl]. pose proof (hand_playing t (h_street _ H) Hp) as Hpl.
  split; [constructor; try apply H; [destruct (h_dealer _ H); lia|done]|]. unfold money. by rewrite Hpl.
Qed.

Lemma richer_sound p p' : richer p p' -> sound p -> sound p'.
Proof. intros (d & w & Hd & ->) []. constructor; simpl; lia. Qed.

Lemma all_richer_sound ps ps' : all_richer ps ps' -> Forall sound ps -> Forall sound ps'.
Proof.
  induction 1 as [|p q ps ps' Hr _ IH]; [done|]. rewrite !Forall_cons. intros [H1 H2].
  split; [by eapply richer_sound|auto].
Qed.

Lemma over_table t : phase t = between -> -1 <= dealerIdx t -> NoDup (ids (players t)) -> Forall sound (players t) -> settings_ok (cfg t) ->
  table_ok t /\ money t = chips_sum (players t).
Proof.
  intros Hp Hd Hn Hs Hc. assert (playing t = false) as E by (unfold playing; by rewrite Hp).
  split; [constructor; try done; by rewrite E|]. unfold money. rewrite E. lia.
Qed.

Lemma sound_total ps : Forall sound ps -> Forall (fun p => 0 <= totalBet p) ps.
Proof. intros H. eapply Forall_impl; [exact H|]. intros p Hp. apply Hp. Qed.

(** The hand ends with a showdown: its pot is on the players' stacks. *)
Lemma showdown_ok t : hand_ok t -> table_ok (showdown t) /\ money (showdown t) = chips_sum (players t) + pot t.
Proof.
  intros H. destruct (showdown_spec t (h_ids _ H) (sound_total _ (h_sound _ H))) as (Hr & Hs & Hp & Hc & Hd).
  destruct (over_table (showdown t)) as [Ht Hm]; [done|rewrite Hd; pose proof (h_dealer _ H); lia|..|].
  - rewrite (richer_ids _ _ Hr). apply H.
  - eapply all_richer_sound; [exact Hr|apply H].
  - rewrite Hc. apply H.
  - split; [done|]. rewrite Hm, Hs, (h_pot _ H). done.
Qed.

Lemma active_elem ps p : p ∈ activeInHand ps <-> p ∈ ps /\ inHand p = true /\ folded p = false.
Proof.
  unfold activeInHand. rewrite list_elem_of_In, filter_In, <- list_elem_of_In.
  rewrite andb_true_iff, negb_true_iff. done.
Qed.

Lemma award_ok t t' :
  hand_ok t -> awardUncontested t = (true, t') -> table_ok t' /\ money t' = chips_sum (players t) + pot t.
Proof.
  intros H. unfold awardUncontested. simpl. destruct (activeInHand (players t)) as [|w [|]] eqn:E; try done.
  assert (Hw : w ∈ players t) by (apply active_elem; rewrite E; left).
  assert (Hpot : 0 <= pot t).
  { rewrite (h_pot _ H). apply sum_nonneg. eapply Forall_impl; [apply (h_sound _ H)|]. intros p []. unfold in_pot.
    by destruct (inHand p). }
  set (f := fun p => won_hand (add_chips (pot t) p)). set (ps := update_player (p_id w) f (players t)).
  assert (Hr : all_richer (players t) ps).
  { apply update_richer. intros p. eapply richer_trans; [by apply add_chips_richer|apply won_hand_richer]. }
  assert (Hs : chips_sum ps = chips_sum (players t) + pot t).
  { apply update_sum; [apply H|by apply list_elem_of_fmap_2|done]. }
  intros [= <-]. unfold finish_hand. simpl.
  destruct (autoStart (cfg t)); (rewrite <- Hs; apply over_table; simpl; [done|pose proof (h_dealer _ H); lia|..|apply H];
    [rewrite (richer_ids _ _ Hr); apply H|eapply all_richer_sound; [exact Hr|apply H]]).
Qed.

(** ** Streets *)

(** The chips of two tables in the same hand agree. *)
Definition same_chips (t t' : table) : Prop :=
  chips_sum (players t') + pot t' = chips_sum (players t) + pot t.

Lemma reset_round_ok t :
  hand_ok t -> hand_ok (reset_round t) /\ same_chips t (reset_round t) /\
  (someone_live (players t) -> someone_live (players (reset_round t))).
Proof.
  intros H. set (f := fun p => if inHand p then p <| roundBet := 0 |> else p).
  assert (Hids : ids (map f (players t)) = ids (players t)).
  { rewrite map_map. apply map_ext. intros p. unfold f. by destruct (inHand p). }
  assert (Hbets : bets_sum (map f (players t)) = bets_sum (players t)).
  { rewrite sum_map. apply sum_ext. intros p _. unfold f, in_pot. by destruct (inHand p) eqn:E; simpl; rewrite ?E. }
  assert (Hchips : chips_sum (map f (players t)) = chips_sum (players t)).
  { rewrite sum_map. apply sum_ext. intros p _. unfold f. by destruct (inHand p). }
  assert (Hps : players (reset_round t) = map f (players t)) by done.
  split_and!.
  - constructor; rewrite ?Hps; try apply H; [by rewrite Hids; apply H| |by rewrite Hbets; apply H|].
    + rewrite Forall_forall. intros p (q & -> & Hq)%list_elem_of_fmap.
      pose proof (h_sound _ H) as Hs. rewrite Forall_forall in Hs. destruct (Hs q Hq).
      unfold f. destruct (inHand q); constructor; simpl; lia.
    + rewrite length_map. apply H.
  - unfold same_chips. by rewrite Hps, Hchips.
  - intros (p & Hp & Hl). rewrite Hps. exists (f p). split; [by apply list_elem_of_fmap_2|].
    unfold f. by destruct (inHand p).
Qed.

Lemma next_street_ok t : hand_ok t -> hand_ok (next_street t) /\ players (next_street t) = players t /\ pot (next_street t) = pot t.
Proof.
  intros H. unfold next_street, deal_board.
  destruct (street t) eqn:E; (split; [constructor; simpl; try apply H; rewrite ?E; unfold hand_street; auto|done]).
  all: by destruct (h_street _ H) as [?|[?|[?|?]]]; congruence.
Qed.

Lemma with_phase_ok t p : hand_ok t -> hand_ok (t <| phase := p |>).
Proof. intros []. by constructor. Qed.

Lemma run_streets_ok guard : forall t, hand_ok t -> hand_ok (run_streets guard t) /\ same_chips t (run_streets guard t).
Proof.
  induction guard as [|guard IH]; intros t H; cbn [run_streets]; [done|].
  case_bool_decide; [done|]. destruct (reset_round_ok t H) as (H1 & Hc & _).
  set (t1 := reset_round t) in *. destruct (next_street_ok t1 H1) as (H2 & Hp & Hpot).
  set (t2 := next_street t1) in *.
  destruct (IH (t2 <| phase := phase_of (street t2) |>) (with_phase_ok _ _ H2)) as [H3 Hc3].
  assert (same_chips t (run_streets guard (t2 <| phase := phase_of (street t2) |>))).
  { unfold same_chips in *. rewrite Hc3. simpl. rewrite Hp, Hpot. done. }
  by destruct (street t1).
Qed.

Lemma scheduleTurnTimer_frame t :
  exists r, scheduleTurnTimer t = t <| turnTimer := r |>.
Proof.
  unfold scheduleTurnTimer, clearTurnTimer. cbv zeta. destruct (_ || _); [by exists None|].
  simpl. destruct (player_at _ _) as [a|]; [|by exists None].
  destruct (_ || _); [by exists None|by exists (Some (p_id a))].
Qed.

Lemma progress_ok t t' :
  players t' = players t -> cfg t' = cfg t -> pot t' = pot t -> street t' = street t -> minRaise t' = minRaise t ->
  dealerIdx t' = dealerIdx t -> hand_ok t -> hand_ok t'.
Proof. intros E1 E2 E3 E4 E5 E6 []. constructor; by rewrite ?E1, ?E2, ?E3, ?E4, ?E5, ?E6. Qed.

Lemma min_raise_nonneg s : settings_ok s -> 0 <= min_raise_of s.
Proof. intros [? _ ?]. unfold min_raise_of. nia. Qed.

(** A street that starts with somebody who can act is in progress. *)
Lemma advanceStreet_ok t :
  hand_ok t -> someone_live (players t) ->
  table_ok (advanceStreet t) /\ money (advanceStreet t) = chips_sum (players t) + pot t.
Proof.
  intros H Hl. unfold advanceStreet. cbv zeta.
  assert (H0 : hand_ok (clearTurnTimer t)) by (eapply progress_ok; [..|exact H]; done).
  destruct (reset_round_ok _ H0) as (H1 & Hc1 & Hl1). specialize (Hl1 Hl).
  set (t1 := reset_round (clearTurnTimer t)) in *.
  set (t2 := t1 <| minRaise := _ |> <| lastRaise := _ |> <| acted := _ |>).
  assert (H2 : hand_ok t2) by (destruct H1; constructor; simpl; auto; by apply min_raise_nonneg).
  destruct (next_street_ok t2 H2) as (H3 & Hp3 & Hpot3). set (t3 := next_street t2) in *.
  set (i := first_live _ _ _). set (t4 := t3 <| toActIdx := i |> <| phase := _ |>).
  destruct (scheduleTurnTimer_frame t4) as [r ->].
  assert (Hc : chips_sum (players t3) + pot t3 = chips_sum (players t) + pot t).
  { rewrite Hp3, Hpot3. exact Hc1. }
  rewrite <- Hc. refine (hand_table (pushState (t4 <| turnTimer := r |>)) _ _).
  - eapply progress_ok; [..|exact H3]; done.
  - split; [done|]. change (live_at (players t3) i = true). apply first_live_live; [|by rewrite Hp3|lia].
    pose proof (h_dealer _ H3) as Hd. destruct (Nat.leb _ 2).
    + pose proof (Z.rem_bound_pos (dealerIdx t3) (Z.of_nat (length (players t3)))). lia.
    + destruct (next_index_ok live (players t3) (dealerIdx t3) (length (players t3))) as [E|(q & E & _)];
        unfold nextLiveSeat; [rewrite E; lia|]. apply player_at_Some in E. lia.
Qed.

(** ** Actions *)

Lemma alter_sum (g : player -> Z) f ps i p :
  ps !! i = Some p -> sum_of g (alter f i ps) = sum_of g ps - g p + g (f p).
Proof.
  revert i. induction ps as [|q ps IH]; intros [|i] Hi; simplify_eq/=; [lia|].
  change (alter f (S i) (q :: ps)) with (q :: alter f i ps). simpl. rewrite (IH i) by done. lia.
Qed.

Lemma alter_ids f ps i : (forall p, p_id (f p) = p_id p) -> ids (alter f i ps) = ids ps.
Proof. intros Hf. revert i. induction ps as [|q ps IH]; intros [|i]; csimpl; rewrite ?Hf, ?IH; done. Qed.

Lemma alter_sound f ps i p :
  ps !! i = Some p -> sound (f p) -> Forall sound ps -> Forall sound (alter f i ps).
Proof.
  revert i. induction ps as [|q ps IH]; intros [|i] Hi Hf Hs; simplify_eq/=; apply Forall_cons in Hs as [Hq Hs];
    csimpl; constructor; auto.
Qed.

Lemma put_in_at_ok i a t p :
  hand_ok t -> player_at (players t) i = Some p -> inHand p = true -> 0 <= a ->
  hand_ok (put_in_at i a t) /\ same_chips t (put_in_at i a t) /\
  player_at (players (put_in_at i a t)) i = Some (put_in a p).
Proof.
  intros H Hp Hin Ha. unfold put_in_at. rewrite Hp. apply player_at_Some in Hp as [Hi Hp].
  pose proof (h_sound _ H) as Hs. rewrite Forall_forall in Hs. destruct (Hs p) as [? ? ? ?]; [by eapply list_elem_of_lookup_2|].
  assert (Hchips := alter_sum chips (put_in a) _ _ _ Hp). assert (Hbets := alter_sum in_pot (put_in a) _ _ _ Hp).
  simpl in Hchips. unfold in_pot at 3 4 in Hbets. simpl in Hbets. rewrite Hin in Hbets. split_and!.
  - constructor; cbn [players cfg pot street minRaise dealerIdx field_update]; try apply H; simpl.
    + rewrite alter_ids by done. apply H.
    + eapply alter_sound; [done| |apply H]. constructor; simpl; lia.
    + rewrite (h_pot _ H). unfold sum_of in *. lia.
    + rewrite length_alter. apply H.
  - unfold same_chips. simpl. unfold sum_of in *. lia.
  - apply player_at_Some. split; [done|]. simpl. by rewrite list_lookup_alter_eq, Hp.
Qed.

Lemma note_raise_ok id m t : hand_ok t -> hand_ok (note_raise id m t) /\ same_chips t (note_raise id m t).
Proof.
  intros H. unfold note_raise. destruct (player_at _ _) as [p|]; [|by split]. cbv zeta.
  destruct (Z.leb _ _); (split; [|done]).
  - destruct H. constructor; simpl; auto. pose proof (min_raise_nonneg _ h_settings0). lia.
  - eapply progress_ok; [..|exact H]; done.
Qed.

Lemma max_bet_ge ps p : p ∈ activeInHand ps -> roundBet p <= max_bet ps.
Proof.
  unfold max_bet. induction (activeInHand ps) as [|q l IH]; [intros H; by apply elem_of_nil in H|].
  simpl. intros [->|H]%elem_of_cons; [lia|]. specialize (IH H). lia.
Qed.

Lemma live_active ps p : p ∈ ps -> live p = true -> p ∈ activeInHand ps /\ inHand p = true /\ allIn p = false.
Proof. unfold live. rewrite active_elem. intros Hp H. bool_cases. by split_and!. Qed.

Lemma perform_ok p act t t' :
  hand_ok t -> player_at (players t) (toActIdx t) = Some p -> live p = true -> perform p act t = Moved t' ->
  hand_ok t' /\ same_chips t t'.
Proof.
  intros H Hp Hl. pose proof (player_at_elem _ _ _ Hp) as Hin.
  destruct (live_active _ _ Hin Hl) as (Hact & Hih & _). pose proof (max_bet_ge _ _ Hact) as Hmax.
  pose proof (h_sound _ H) as Hs. rewrite Forall_forall in Hs. destruct (Hs p Hin) as [Hc ? ? ?].
  unfold perform. destruct act as [| | |target| |].
  - intros [= <-]. apply player_at_Some in Hp as [_ Hp]. split.
    + constructor; simpl; try apply H; [by rewrite alter_ids; [apply H|]| | |by rewrite length_alter; apply H].
      * eapply alter_sound; [done| |apply H]. by constructor.
      * rewrite (alter_sum _ _ _ _ p), (h_pot _ H) by done.
        symmetry. exact (Z.sub_add (in_pot p) _).
    + unfold same_chips. simpl. rewrite (alter_sum _ _ _ _ p) by done. simpl. lia.
  - intros [= <-]. destruct (put_in_at_ok (toActIdx t) (max_bet (players t) - roundBet p) t p) as (Hp1 & Hp2 & _);
      [done..|lia|]. split; [|exact Hp2]. eapply progress_ok; [..|exact Hp1]; done.
  - destruct (Z.eqb _ 0); [|done]. intros [= <-]. split; [|done]. eapply progress_ok; [..|exact H]; done.
  - destruct (Z.leb_spec (roundBet p + chips p) (max_bet (players t))); [done|].
    destruct target as [target|]; [|done]. pose proof (h_raise _ H). set (total := Z.min _ _). intros [= <-].
    destruct (put_in_at_ok (toActIdx t) (total - roundBet p) t p) as (Hp1 & Hp2 & _); [done..|unfold total; lia|].
    destruct (note_raise_ok (p_id p) (max_bet (players t)) _ Hp1) as [Hn1 Hn2]. split; [done|].
    unfold same_chips in *. lia.
  - intros [= <-]. destruct (put_in_at_ok (toActIdx t) (chips p) t p) as (Hp1 & Hp2 & _); [done..|].
    destruct (note_raise_ok (p_id p) (max_bet (players t)) _ Hp1) as [Hn1 Hn2]. split; [done|].
    unfold same_chips in *. lia.
  - by intros [= <-].
Qed.

Lemma incomplete_live t : bettingComplete t = false -> someone_live (players t).
Proof.
  unfold bettingComplete. set (l := List.filter _ _). case_bool_decide as E; [done|]. intros _.
  destruct l as [|p l'] eqn:El; [done|]. exists p. assert (Hp : p ∈ l) by (rewrite El; left).
  unfold l in Hp. rewrite list_elem_of_In, filter_In, <- list_elem_of_In, active_elem in Hp.
  destruct Hp as [(? & Hi & Hf) Ha]. split; [done|]. unfold live. by rewrite Hi, Hf.
Qed.

Lemma any_live t : existsb (fun p => negb (allIn p)) (activeInHand (players t)) = true -> someone_live (players t).
Proof.
  intros (p & Hp & Ha)%existsb_exists. apply list_elem_of_In, active_elem in Hp as (? & Hi & Hf).
  exists p. split; [done|]. unfold live. by rewrite Hi, Hf.
Qed.

Lemma runoutBoard_ok t : hand_ok t -> hand_ok (runoutBoard t) /\ same_chips t (runoutBoard t).
Proof.
  intros H. assert (H0 : hand_ok (clearTurnTimer t)) by (eapply progress_ok; [..|exact H]; done).
  exact (run_streets_ok 4 _ H0).
Qed.

Lemma proceed_ok t :
  hand_ok t -> phase t = phase_of (street t) -> 0 <= toActIdx t + 1 ->
  table_ok (proceed t) /\ money (proceed t) = chips_sum (players t) + pot t.
Proof.
  intros H Hp Ht. unfold proceed. destruct (awardUncontested t) as [done t1] eqn:Ea. destruct done.
  { by apply award_ok in Ea. }
  assert (t1 = clearTurnTimer t) as ->.
  { unfold awardUncontested in Ea. by destruct (activeInHand _) as [|? [|]]; simplify_eq. }
  assert (H1 : hand_ok (clearTurnTimer t)) by (eapply progress_ok; [..|exact H]; done).
  set (t1 := clearTurnTimer t) in *. set (anyLive := existsb _ _). set (t2 := if bettingComplete t1 then _ else _).
  assert (Hgoal : table_ok t2 /\ money t2 = chips_sum (players t1) + pot t1).
  2:{ destruct Hgoal as [[] Hm]. split; [constructor; simpl; auto|exact Hm].
      intros Hpl. destruct (t_hand0 Hpl) as [Hh Hprog]. split; [|exact Hprog]. eapply progress_ok; [..|exact Hh]; done. }
  unfold t2. destruct (bettingComplete t1) eqn:Ec.
  - destruct anyLive eqn:El; cbn [negb andb orb].
    + case_bool_decide; [by apply showdown_ok|]. apply advanceStreet_ok; [done|]. by apply any_live.
    + case_bool_decide; cbn [negb]; [by apply showdown_ok|].
      destruct (runoutBoard_ok t1 H1) as [H2 Hc]. destruct (showdown_ok _ H2) as [H3 Hm]. split; [done|].
      rewrite Hm. exact Hc.
  - apply incomplete_live in Ec. set (next := nextLiveSeat _ _).
    assert (Hn : live_at (players t1) next = true) by (by apply nextLiveSeat_live).
    rewrite skip_to_live_id by done.
    destruct (scheduleTurnTimer_frame (t1 <| toActIdx := next |>)) as [r ->].
    refine (hand_table (t1 <| toActIdx := next |> <| turnTimer := r |>) _ _).
    + eapply progress_ok; [..|exact H1]; done.
    + by split.
Qed.

Lemma note_raise_frame id m t :
  phase (note_raise id m t) = phase t /\ street (note_raise id m t) = street t /\ toActIdx (note_raise id m t) = toActIdx t.
Proof. unfold note_raise. destruct (player_at _ _); [|done]. cbv zeta. by destruct (Z.leb _ _). Qed.

Lemma put_in_at_frame i a t :
  phase (put_in_at i a t) = phase t /\ street (put_in_at i a t) = street t /\ toActIdx (put_in_at i a t) = toActIdx t.
Proof. unfold put_in_at. by destruct (player_at _ _). Qed.

Lemma perform_frame p act t t' :
  perform p act t = Moved t' -> phase t' = phase t /\ street t' = street t /\ toActIdx t' = toActIdx t.
Proof.
  unfold perform. destruct act as [| | |target| |]; try (by intros [= <-]).
  - intros [= <-]. by destruct (put_in_at_frame (toActIdx t) (max_bet (players t) - roundBet p) t) as (? & ? & ?).
  - by destruct (Z.eqb _ 0); [intros [= <-]|].
  - destruct (Z.leb _ _); [done|]. destruct target as [target|]; [|done]. intros [= <-].
    set (u := put_in_at _ _ t). destruct (note_raise_frame (p_id p) (max_bet (players t)) u) as (-> & -> & ->).
    apply put_in_at_frame.
  - intros [= <-]. set (u := put_in_at _ _ t).
    destruct (note_raise_frame (p_id p) (max_bet (players t)) u) as (-> & -> & ->). apply put_in_at_frame.
Qed.

Lemma applyAction_ok id act t t' :
  table_ok t -> playing t = true -> applyAction id act t = Some t' -> table_ok t' /\ money t' = money t.
Proof.
  intros Ht Hpl. destruct (t_hand _ Ht Hpl) as [H [Hp Hl]]. unfold applyAction.
  destruct (live_at_spec _ _ Hl) as (p & Hat & Hlp). rewrite Hat, Hlp.
  destruct (bool_decide (p_id p = id)); cbn [negb orb]; [|by intros [= <-]].
  destruct (perform p _ t) as [|t1|] eqn:E; [by intros [= <-]| |done]. intros [= <-].
  destruct (perform_ok _ _ _ _ H Hat Hlp E) as [H1 Hc]. apply perform_frame in E as (Ep & Es & Et).
  apply player_at_Some in Hat as [Hi _].
  destruct (proceed_ok t1 H1) as [Hok Hm]; [congruence|lia|]. split; [done|].
  rewrite Hm. destruct (hand_table t H (conj Hp Hl)) as [_ ->]. exact Hc.
Qed.

(** ** A new hand *)

Lemma clampInt_bounds v lo hi fb : lo <= hi -> lo <= fb -> lo <= clampInt v lo hi fb.
Proof. intros H1 H2. unfold clampInt. destruct v; lia. Qed.

Lemma sanitizeSettings_ok input fb seats : settings_ok fb -> settings_ok (sanitizeSettings input fb seats).
Proof.
  intros [[Hs Hb] Ha Hr]. unfold sanitizeSettings.
  assert (Hor : forall n d, 1 <= n -> or_num n d = n).
  { intros n d Hn. unfold or_num. by rewrite (proj2 (Z.eqb_neq n 0)) by lia. }
  rewrite !Hor by lia. set (v := if has input "smallBlind" then _ else _).
  assert (H1 : 1 <= clampInt v 1 1000000 (smallBlind fb) <= 2000000 \/
               1 <= clampInt v 1 1000000 (smallBlind fb) /\ clampInt v 1 1000000 (smallBlind fb) = smallBlind fb).
  { unfold clampInt. destruct v; [left|right]; lia. }
  set (sb := clampInt v 1 1000000 (smallBlind fb)) in *.
  constructor; cbn [smallBlind bigBlind ante minRaiseBB].
  - split; [lia|]. set (w := if has input "bigBlind" then _ else _). unfold clampInt. destruct w; lia.
  - apply clampInt_bounds; lia.
  - apply clampInt_bounds; rewrite ?Hor by lia; lia.
Qed.

(** Players that differ in their cards only. *)
Definition dealt (p p' : player) : Prop := exists h, p' = p <| hole := h |>.

Lemma deal_holes_dealt ps : forall d, Forall2 dealt ps (deal_holes ps d).1.
Proof.
  induction ps as [|p ps IH]; intros d; [constructor|]. cbn [deal_holes].
  destruct (inHand p).
  - specialize (IH (drop 2 d)). destruct (deal_holes ps (drop 2 d)) as [ps' d']. constructor; [by exists (take 2 d)|done].
  - specialize (IH d). destruct (deal_holes ps d) as [ps' d']. constructor; [|done].
    exists (hole p). by destruct p.
Qed.

Lemma dealt_map {B} (f : player -> B) ps ps' :
  (forall p h, f (p <| hole := h |>) = f p) -> Forall2 dealt ps ps' -> map f ps' = map f ps.
Proof. intros Hf. induction 1 as [|p q ps ps' [h ->] _ IH]; cbn [map]; [done|]. by rewrite Hf, IH. Qed.

Lemma dealt_sum (g : player -> Z) ps ps' :
  (forall p h, g (p <| hole := h |>) = g p) -> Forall2 dealt ps ps' -> sum_of g ps' = sum_of g ps.
Proof. intros Hg. induction 1 as [|p q ps ps' [h ->] _ IH]; cbn [sum_of foldr]; [done|]. rewrite Hg. unfold sum_of in IH. lia. Qed.

Lemma dealt_forall (P : player -> Prop) ps ps' :
  (forall p h, P p -> P (p <| hole := h |>)) -> Forall2 dealt ps ps' -> Forall P ps -> Forall P ps'.
Proof.
  intros HP. induction 1 as [|p q ps ps' [h ->] _ IH]; [done|]. rewrite !Forall_cons. intros [H1 H2]. auto.
Qed.

(** Who is in a hand has not folded when it starts. *)
Definition fresh (p : player) : Prop := inHand p = true -> folded p = false.

Lemma fresh_stuck ps i p :
  Forall fresh ps -> player_at ps i = Some p -> inHand p = true -> live_at ps i = false -> allIn p = true.
Proof.
  intros Hf Hat Hi. unfold live_at. rewrite Hat. rewrite Forall_forall in Hf.
  specialize (Hf p (player_at_elem _ _ _ Hat) Hi). unfold live. rewrite Hi, Hf. by destruct (allIn p).
Qed.

(** The table while a hand is set up, when its street is not set yet. *)
Definition setting_up (t : table) : Prop := hand_ok (t <| street := st_preflop |>) /\ Forall fresh (players t).

Lemma take_pending_ok p : sound p -> sound (take_pending p) /\ p_id (take_pending p) = p_id p.
Proof.
  intros []. unfold take_pending. destruct (Z.ltb_spec 0 (pendingChips p)); [|done].
  split; [constructor; simpl; lia|done].
Qed.

Lemma map_sound (f : player -> player) ps :
  (forall p, sound p -> sound (f p) /\ p_id (f p) = p_id p) -> Forall sound ps ->
  Forall sound (map f ps) /\ ids (map f ps) = ids ps.
Proof.
  intros Hf. induction 1 as [|p ps Hp _ [IH1 IH2]]; simpl; [done|]. destruct (Hf p Hp) as [H1 H2].
  split; [by constructor|]. by rewrite H2, IH2.
Qed.

Lemma deal_in_sum (g : player -> Z) ps : (forall p, g (deal_in p) = 0) -> sum_of g (map deal_in ps) = 0.
Proof. intros Hg. induction ps as [|p ps IH]; cbn [map sum_of foldr]; [done|]. rewrite Hg. unfold sum_of in IH. lia. Qed.

Lemma next_in_hand ps from p :
  -1 <= from -> p ∈ ps -> inHand p = true ->
  exists d, player_at ps (nextInHandIndex ps from) = Some d /\ inHand d = true.
Proof.
  intros Hf Hp Hi. unfold nextInHandIndex.
  destruct (next_index_ok inHand ps (from + Z.of_nat (length ps)) (length ps)) as [E|(q & Hq & Ho)]; [|by exists q].
  exfalso. eapply (next_index_found inHand ps); [|exact Hp|exact Hi|exact E]. lia.
Qed.

Lemma begin_hand_ok buf t :
  table_ok t -> (0 < length (List.filter ready (players t)))%nat ->
  let t' := begin_hand buf t in
  setting_up (t' <| pot := 0 |>) /\ chips_sum (players t') = chips_sum (players t) /\
  exists d, player_at (players t') (dealerIdx t') = Some d /\ inHand d = true.
Proof.
  intros Ht Hn. cbv zeta. pose proof (t_settings _ Ht) as Hset. unfold begin_hand. cbv zeta.
  set (ps := map deal_in (players t)). set (d := nextInHandIndex ps (dealerIdx t)).
  generalize (rev (shuffle makeDeck buf)). intros dk.
  assert (Hs : Forall sound ps /\ ids ps = ids (players t)).
  { apply map_sound; [|apply Ht]. intros p []. split; [constructor; simpl; lia|done]. }
  destruct Hs as [Hs Hids].
  assert (Hd : exists q, player_at ps d = Some q /\ inHand q = true).
  { destruct (List.filter ready (players t)) as [|p l] eqn:E; [simpl in Hn; lia|].
    assert (Hp : In p (p :: l)) by (by left). rewrite <- E in Hp. apply filter_In in Hp as [Hp Hr].
    eapply (next_in_hand _ _ (deal_in p)); [apply Ht| |exact Hr]. apply list_elem_of_fmap_2. by apply list_elem_of_In. }
  split_and!; [split|..|exact Hd].
  - destruct Hd as (q & Hd & _). apply player_at_Some in Hd as [? Hd%lookup_lt_Some].
    constructor; try done.
    + change (NoDup (ids ps)). rewrite Hids. apply Ht.
    + symmetry. apply (deal_in_sum in_pot). intros p. unfold in_pot, deal_in. simpl. by destruct (ready p).
    + by left.
    + by apply min_raise_nonneg.
    + change (0 <= d < Z.of_nat (length ps)). lia.
  - change (Forall fresh ps). unfold ps. rewrite Forall_forall.
    intros p (q & -> & _)%list_elem_of_fmap. unfold fresh, deal_in, ready. simpl. intros H. bool_cases; lia.
  - change (chips_sum ps = chips_sum (players t)). unfold ps. rewrite sum_map. by apply sum_ext.
Qed.

Lemma post_antes_ok t :
  setting_up (t <| pot := 0 |>) ->
  let t' := post_antes t in
  setting_up t' /\ chips_sum (players t') + pot t' = chips_sum (players t) /\
  forall i p, player_at (players t) i = Some p -> inHand p = true ->
    exists q, player_at (players t') i = Some q /\ inHand q = true.
Proof.
  intros [H Hf] t'. set (a := Z.max 0 (ante (cfg t))). set (f := put_ante a).
  change (Forall fresh (players t)) in Hf. pose proof (h_sound _ H) as Hs. simpl in Hs.
  assert (Hmap : Forall sound (map f (players t)) /\ ids (map f (players t)) = ids (players t)).
  { apply map_sound; [|done]. intros p []. unfold f, put_ante. destruct (inHand p); [|done].
    split; [|done]. constructor; simpl; lia. }
  destruct Hmap as [Hs' Hids].
  assert (Hsum : bets_sum (map f (players t)) = bets_sum (players t) + pot t' /\
                 chips_sum (map f (players t)) + pot t' = chips_sum (players t)).
  { change (pot t') with (sum_of (ante_paid a) (players t)). rewrite !sum_map.
    split; [rewrite <- sum_plus|rewrite <- sum_plus]; apply sum_ext; intros p _;
      unfold in_pot, ante_paid, f, put_ante; destruct (inHand p) eqn:E; simpl; rewrite ?E; lia. }
  destruct Hsum as [Hb Hc]. pose proof (h_pot _ H) as Hp. simpl in Hp.
  split_and!; [split|..].
  - constructor; try apply H; simpl.
    + change (NoDup (ids (map f (players t)))). rewrite Hids. apply H.
    + done.
    + change (pot t' = bets_sum (map f (players t))). lia.
    + rewrite length_map. apply H.
  - change (Forall fresh (map f (players t))). rewrite Forall_forall in *.
    intros p (q & -> & Hq)%list_elem_of_fmap. specialize (Hf q Hq). unfold fresh, f, put_ante in *.
    destruct (inHand q) eqn:E; [|by rewrite E]. simpl. by rewrite E.
  - exact Hc.
  - intros i p [Hi Hat]%player_at_Some Hin. exists (f p). split.
    + apply player_at_Some. split; [done|]. change (players t') with (f <$> players t). by rewrite list_lookup_fmap, Hat.
    + unfold f, put_ante. by rewrite Hin.
Qed.

Lemma put_in_at_setup i a t p :
  setting_up t -> player_at (players t) i = Some p -> inHand p = true -> 0 <= a ->
  setting_up (put_in_at i a t) /\ same_chips t (put_in_at i a t) /\
  forall j q, player_at (players t) j = Some q -> inHand q = true ->
    exists q', player_at (players (put_in_at i a t)) j = Some q' /\ inHand q' = true.
Proof.
  intros [H Hf] Hp Hin Ha.
  assert (Hst : put_in_at i a t <| street := st_preflop |> = put_in_at i a (t <| street := st_preflop |>)).
  { unfold put_in_at. simpl. by rewrite Hp. }
  destruct (put_in_at_ok i a (t <| street := st_preflop |>) p) as (H1 & H2 & _); [done..|].
  split_and!.
  - split; [by rewrite Hst|]. unfold put_in_at. rewrite Hp. simpl. apply player_at_Some in Hp as [_ Hp].
    clear -Hp Hf Hin. revert Hp. generalize (Z.to_nat i). induction Hf as [|q ps Hq Hf IH]; intros [|k] Hk; csimpl; simplify_eq/=;
      constructor; auto.
  - unfold same_chips in *. rewrite <- Hst in H2. exact H2.
  - intros j q Hq Hqi. unfold put_in_at. rewrite Hp. apply player_at_Some in Hq as [Hj Hq].
    apply player_at_Some in Hp as [Hi Hp]. destruct (decide (Z.to_nat i = Z.to_nat j)) as [E|E].
    + exists (put_in a q). split; [|done]. apply player_at_Some. split; [done|]. simpl.
      by rewrite E, list_lookup_alter_eq, Hq.
    + exists q. split; [|done]. apply player_at_Some. split; [done|]. simpl. by rewrite list_lookup_alter_ne.
Qed.

Lemma put_in_at_dealer i a t : dealerIdx (put_in_at i a t) = dealerIdx t.
Proof. unfold put_in_at. by destruct (player_at _ _). Qed.

Lemma post_blinds_ok sb bb t p q :
  setting_up t -> player_at (players t) sb = Some p -> inHand p = true ->
  player_at (players t) bb = Some q -> inHand q = true ->
  let t' := post_blinds sb bb t in
  setting_up t' /\ same_chips t t' /\
  forall j r, player_at (players t) j = Some r -> inHand r = true ->
    exists r', player_at (players t') j = Some r' /\ inHand r' = true.
Proof.
  intros H Hp Hpi Hq Hqi t'. destruct (so_blinds _ (h_settings _ (proj1 H))) as [Hb1 Hb2]. simpl in Hb1, Hb2.
  destruct (put_in_at_setup sb (smallBlind (cfg t)) t p) as (H1 & H2 & H3); [done..|lia|].
  destruct (H3 bb q Hq Hqi) as (q' & Hq' & Hqi').
  set (t1 := put_in_at sb (smallBlind (cfg t)) t) in *.
  destruct (put_in_at_setup bb (bigBlind (cfg t)) t1 q') as (H4 & H5 & H6); [done..|lia|].
  split_and!.
  - destruct H4 as [H4 Hf4]. split; [|exact Hf4]. eapply progress_ok; [..|exact H4]; done.
  - unfold same_chips in *. etrans; [exact H5|exact H2].
  - intros j r Hr Hri. destruct (H3 j r Hr Hri) as (r' & Hr' & Hri'). exact (H6 j r' Hr' Hri').
Qed.

Lemma deal_hand_ok t :
  setting_up t ->
  let t' := deal_hand t in
  hand_ok t' /\ same_chips t t' /\ Forall fresh (players t') /\ phase t' = preflop /\ street t' = st_preflop /\
  dealerIdx t' = dealerIdx t /\
  forall j r, player_at (players t) j = Some r -> inHand r = true ->
    exists r', player_at (players t') j = Some r' /\ inHand r' = true.
Proof.
  intros [H Hf]. unfold deal_hand. pose proof (deal_holes_dealt (players t) (deck t)) as Hd.
  destruct (deal_holes (players t) (deck t)) as [ps dk]. cbn [fst] in Hd. cbv zeta. split_and!; try done.
  - constructor; try apply H; simpl.
    + rewrite (dealt_map p_id _ _ ltac:(done) Hd). apply H.
    + eapply (dealt_forall sound); [|exact Hd|apply H]. intros p h []. by constructor.
    + rewrite (dealt_sum in_pot _ _ ltac:(done) Hd). apply H.
    + rewrite <- (Forall2_length _ _ _ Hd). apply H.
  - unfold same_chips. simpl. by rewrite (dealt_sum chips _ _ ltac:(done) Hd).
  - simpl. by eapply (dealt_forall fresh).
  - intros j r [Hj Hr]%player_at_Some Hi. destruct (Forall2_lookup_l _ _ _ _ _ Hd Hr) as (r' & Hr' & h & ->).
    eexists. split; [apply player_at_Some; split; [done|exact Hr']|done].
Qed.

Lemma someone_live_dec ps : someone_live ps \/ forall i, live_at ps i = false.
Proof.
  destruct (existsb live ps) eqn:E.
  - left. apply existsb_exists in E as (p & Hp & Hl). exists p. by rewrite list_elem_of_In.
  - right. intros i. unfold live_at. destruct (player_at ps i) as [p|] eqn:Hp; [|done].
    destruct (live p) eqn:Hl; [|done]. assert (existsb live ps = true); [|congruence].
    apply existsb_exists. exists p. split; [|done]. apply list_elem_of_In. by eapply player_at_elem.
Qed.

Lemma first_live_stuck ps guard i : (forall j, live_at ps j = false) -> first_live ps guard i = i.
Proof.
  intros H. destruct guard; simpl; [done|]. rewrite H.
  assert (nextLiveSeat ps i = -1) as ->.
  { unfold nextLiveSeat. destruct (next_index_ok live ps i (length ps)) as [E|(q & Hq & Hl)]; [done|].
    specialize (H (next_index live ps i (length ps))). unfold live_at in H. rewrite Hq in H. congruence. }
  done.
Qed.

Lemma open_betting_ok n bb t d :
  hand_ok t -> Forall fresh (players t) -> phase t = preflop -> street t = st_preflop -> -1 <= bb ->
  player_at (players t) (dealerIdx t) = Some d -> inHand d = true ->
  table_ok (open_betting n bb t) /\ money (open_betting n bb t) = chips_sum (players t) + pot t.
Proof.
  intros H Hf Hp Hs Hb Hd Hdi. unfold open_betting. cbv zeta. set (first := if Nat.eqb n 2 then _ else _).
  set (i := first_live _ _ first). set (t1 := t <| toActIdx := i |>).
  assert (H1 : hand_ok t1) by (eapply progress_ok; [..|exact H]; done).
  change (players t1) with (players t). change (toActIdx t1) with i.
  assert (Hfirst : 0 <= first + 1).
  { unfold first. destruct (Nat.eqb n 2); [pose proof (h_dealer _ H); lia|].
    unfold nextLiveSeat. destruct (next_index_ok live (players t) bb (length (players t))) as [->|(q & Hq & _)]; [done|].
    apply player_at_Some in Hq. lia. }
  assert (Hopen : live_at (players t) i = true ->
    table_ok (pushState (scheduleTurnTimer t1)) /\ money (pushState (scheduleTurnTimer t1)) = chips_sum (players t) + pot t).
  { intros Hl. destruct (scheduleTurnTimer_frame t1) as [r ->].
    refine (hand_table (pushState (t1 <| turnTimer := r |>)) _ _); [eapply progress_ok; [..|exact H1]; done|].
    split; [simpl; by rewrite Hp, Hs|exact Hl]. }
  pose proof (showdown_ok t1 H1) as Hshow.
  destruct (someone_live_dec (players t)) as [Hl|Hl].
  - assert (Hi : live_at (players t) i = true) by (apply first_live_live; [lia|done|lia]).
    destruct (player_at (players t) i) as [p|] eqn:Ep; [|done]. by destruct (allIn p); [|apply Hopen].
  - assert (i = first) as Hi by (by apply first_live_stuck). rewrite Hi. unfold first.
    destruct (Nat.eqb n 2); [by rewrite Hd, (fresh_stuck _ _ _ Hf Hd Hdi (Hl _))|].
    unfold nextLiveSeat. destruct (next_index_ok live (players t) bb (length (players t))) as [->|(q & Hq & Hlq)]; [done|].
    specialize (Hl (next_index live (players t) bb (length (players t)))). unfold live_at in Hl.
    rewrite Hq in Hl. congruence.
Qed.

(** The blinds, the deal and the first turn of a hand whose antes are to be posted. *)
Definition open_hand (n : nat) (t : table) : table :=
  let t := post_antes t in
  let '(sbIdx, bbIdx) := blind_seats n t in
  open_betting n bbIdx (deal_hand (post_blinds sbIdx bbIdx t)).

Lemma open_hand_ok n t d :
  setting_up (t <| pot := 0 |>) -> player_at (players t) (dealerIdx t) = Some d -> inHand d = true ->
  table_ok (open_hand n t) /\ money (open_hand n t) = chips_sum (players t).
Proof.
  intros H2 Hd Hdi. unfold open_hand. cbv zeta.
  destruct (post_antes_ok t H2) as (H3 & Hc3 & Hkeep3). destruct (Hkeep3 _ d Hd Hdi) as (d3 & Hd3 & Hdi3).
  assert (Hdealer3 : dealerIdx (post_antes t) = dealerIdx t) by done. rewrite <- Hdealer3 in Hd3.
  set (t3 := post_antes t) in *. clearbody t3. unfold blind_seats. cbv zeta.
  assert (Hdlow : 0 <= dealerIdx t3) by (apply player_at_Some in Hd3; lia).
  set (sb := if Nat.eqb n 2 then _ else _). set (bb := nextInHandIndex (players t3) sb).
  assert (Hsb : exists p, player_at (players t3) sb = Some p /\ inHand p = true).
  { unfold sb. destruct (Nat.eqb n 2); [by exists d3|]. apply next_in_hand with d3; [lia| |done]. by eapply player_at_elem. }
  destruct Hsb as (p & Hp & Hpi). assert (Hsb0 : 0 <= sb) by (apply player_at_Some in Hp; lia).
  destruct (next_in_hand (players t3) sb p) as (q & Hq & Hqi); [lia|by eapply player_at_elem|done|].
  destruct (post_blinds_ok sb bb t3 p q) as (H4 & Hc4 & Hkeep4); [done..|].
  destruct (Hkeep4 _ d3 Hd3 Hdi3) as (d4 & Hd4 & Hdi4).
  assert (Hdealer4 : dealerIdx (post_blinds sb bb t3) = dealerIdx t3).
  { change (dealerIdx (put_in_at bb (bigBlind (cfg t3)) (put_in_at sb (smallBlind (cfg t3)) t3)) = dealerIdx t3).
    by rewrite !put_in_at_dealer. }
  rewrite <- Hdealer4 in Hd4. set (t4 := post_blinds sb bb t3) in *. clearbody t4.
  destruct (deal_hand_ok t4 H4) as (H5 & Hc5 & Hf5 & Hp5 & Hs5 & Hdealer5 & Hkeep5).
  destruct (Hkeep5 _ d4 Hd4 Hdi4) as (d5 & Hd5 & Hdi5). rewrite <- Hdealer5 in Hd5.
  set (t5 := deal_hand t4) in *. clearbody t5.
  destruct (open_betting_ok n bb t5 d5) as [H6 Hm6]; [done..|apply player_at_Some in Hq; fold bb in Hq; lia|done|done|].
  split; [done|]. rewrite Hm6. unfold same_chips in *. lia.
Qed.

(** A table whose pending chips have been taken, between two hands. *)
Lemma taken_ok t :
  table_ok t -> playing t = false -> table_ok (t <| winners := [] |> <| players := map take_pending (players t) |>).
Proof.
  intros Ht Hpl. destruct (map_sound take_pending (players t) take_pending_ok (t_sound _ Ht)) as [Hs Hids].
  constructor; [|exact Hs|apply Ht|apply Ht|].
  - change (NoDup (ids (map take_pending (players t)))). rewrite Hids. apply Ht.
  - intros Hx. change (playing t = true) in Hx. congruence.
Qed.

Lemma idle_ok t : table_ok t -> playing t = false -> table_ok (clearAutoStartTimer (clearTurnTimer t)).
Proof.
  intros Ht Hpl. constructor; [apply Ht..|]. intros Hx. change (playing t = true) in Hx. congruence.
Qed.

Lemma push_between_ok t : table_ok t -> playing t = false -> table_ok (pushState t).
Proof.
  intros Ht Hpl. constructor; [apply Ht..|]. intros Hx. change (playing t = true) in Hx. congruence.
Qed.

Lemma startHand_joinable buf t :
  isPokerLobbyJoinable (phase t) = true ->
  let t1 := clearAutoStartTimer (clearTurnTimer t) <| winners := [] |> <| players := map take_pending (players t) |> in
  let n := length (List.filter ready (players t1)) in
  startHand buf t = if Nat.ltb n 2 then pushState t1 else open_hand n (begin_hand buf t1).
Proof. intros H. unfold startHand. rewrite H. reflexivity. Qed.

(** A new hand, or none: the chips on the table are the stacks with the pending chips. *)
Lemma startHand_ok buf t :
  table_ok t -> playing t = false ->
  table_ok (startHand buf t) /\ money (startHand buf t) = chips_sum (map take_pending (players t)).
Proof.
  intros Ht Hpl. assert (Hj : isPokerLobbyJoinable (phase t) = true).
  { unfold playing in Hpl. by destruct (isPokerLobbyJoinable (phase t)). }
  rewrite (startHand_joinable buf t Hj). cbv zeta.
  pose proof (taken_ok (clearAutoStartTimer (clearTurnTimer t))) as H1.
  assert (Hq : playing (clearAutoStartTimer (clearTurnTimer t) <| winners := [] |>
    <| players := map take_pending (players t) |>) = false) by exact Hpl.
  assert (Hps : map take_pending (players t) = players (clearAutoStartTimer (clearTurnTimer t) <| winners := [] |>
    <| players := map take_pending (players t) |>)) by reflexivity.
  assert (H2 : table_ok (clearAutoStartTimer (clearTurnTimer t) <| winners := [] |>
    <| players := map take_pending (players t) |>)).
  { apply H1; [|exact Hpl]. by apply idle_ok. }
  clear H1. revert Hq Hps H2.
  generalize (clearAutoStartTimer (clearTurnTimer t) <| winners := [] |> <| players := map take_pending (players t) |>).
  intros t1 Hq Hps H2. rewrite Hps.
  destruct (Nat.ltb_spec (length (List.filter ready (players t1))) 2) as [Hn|Hn].
  - split; [by apply push_between_ok|]. unfold money. change (playing (pushState t1)) with (playing t1). rewrite Hq.
    change (players (pushState t1)) with (players t1). lia.
  - destruct (begin_hand_ok buf t1 H2) as (H3 & Hc & d & Hd & Hdi); [lia|].
    destruct (open_hand_ok (length (List.filter ready (players t1))) _ d H3 Hd Hdi) as [H4 Hm].
    split; [done|lia].
Qed.

(** ** What can happen during a hand *)

(** An operation during a hand: actions of any peer, the turn timer, a player of the hand who
    leaves or comes back, and the administration of the table. *)
Inductive hand_step (t : table) : table -> Prop :=
| step_action peerId act t' : applyAction peerId act t = Some t' -> hand_step t t'
| step_timeout : hand_step t (turn_timeout t)
| step_leave peerId p : find_player peerId (players t) = Some p -> inHand p = true -> hand_step t (removePlayer peerId t)
| step_rejoin peerId p name : find_player peerId (players t) = Some p -> hand_step t (addPlayer peerId name t).2
| step_settings patch : hand_step t (updateSettings patch t)
| step_grant peerId v : hand_step t (addChips peerId v t).2
| step_revoke peerId v : hand_step t (removeChips peerId v t).2
| step_invite peerId reachable : hand_step t (invitePeer peerId reachable t).2
| step_save : hand_step t (saveNow t).2.

Lemma find_player_spec id ps p : find_player id ps = Some p -> p ∈ ps /\ p_id p = id.
Proof. intros [Hp Hi]%find_some. bool_cases. split; [by apply list_elem_of_In|done]. Qed.

(** A change of the players that neither moves chips nor takes anybody out of the hand. *)
Lemma update_hand f id t :
  (forall p, sound p -> sound (f p)) ->
  (forall p, p_id (f p) = p_id p /\ chips (f p) = chips p /\ in_pot (f p) = in_pot p) ->
  hand_ok t -> hand_ok (t <| players := update_player id f (players t) |>) /\
    same_chips t (t <| players := update_player id f (players t) |>).
Proof.
  intros Hsf Hf H. split.
  - constructor; try apply H; simpl.
    + rewrite update_ids by apply Hf. apply H.
    + pose proof (h_sound _ H) as Hs. rewrite Forall_forall in *. intros p (q & -> & Hq)%list_elem_of_fmap.
      case_bool_decide; auto.
    + rewrite update_same_sum by apply Hf. apply H.
    + unfold update_player. rewrite length_map. apply H.
  - unfold same_chips. simpl. by rewrite update_same_sum by apply Hf.
Qed.

Lemma update_player_at f id ps i p :
  player_at ps i = Some p -> player_at (update_player id f ps) i = Some (if bool_decide (p_id p = id) then f p else p).
Proof.
  intros [Hi Hp]%player_at_Some. apply player_at_Some. split; [done|].
  change (update_player id f ps) with ((fun p => if bool_decide (p_id p = id) then f p else p) <$> ps).
  by rewrite list_lookup_fmap, Hp.
Qed.

Lemma table_ok_ext t t' :
  players t' = players t -> cfg t' = cfg t -> pot t' = pot t -> street t' = street t -> minRaise t' = minRaise t ->
  dealerIdx t' = dealerIdx t -> phase t' = phase t -> toActIdx t' = toActIdx t ->
  table_ok t -> table_ok t' /\ money t' = money t.
Proof.
  intros E1 E2 E3 E4 E5 E6 E7 E8 [].
  assert (Epl : playing t' = playing t) by (unfold playing; by rewrite E7).
  split; [|unfold money; by rewrite E1, E3, Epl].
  constructor; rewrite ?E1, ?E2, ?E6, ?Epl; try done. intros Hpl. destruct (t_hand0 Hpl) as [Hh [Hp Hl]].
  split; [by eapply progress_ok|]. split; by rewrite ?E1, ?E4, ?E7, ?E8.
Qed.

(** Changing players in a hand so that the next player can still act. *)
Lemma update_table f id t :
  (forall p, sound p -> sound (f p)) ->
  (forall p, p_id (f p) = p_id p /\ chips (f p) = chips p /\ in_pot (f p) = in_pot p) ->
  (forall p, player_at (players t) (toActIdx t) = Some p -> p_id p = id -> live p = true -> live (f p) = true) ->
  table_ok t -> playing t = true ->
  let t' := t <| players := update_player id f (players t) |> in table_ok t' /\ money t' = money t /\ playing t' = true.
Proof.
  intros Hs Hf Hl Ht Hpl. destruct (t_hand _ Ht Hpl) as [H [Hp Hlive]].
  destruct (update_hand f id t Hs Hf H) as [H1 Hc]. cbv zeta.
  destruct (hand_table _ H1) as [H2 Hm].
  - split; [done|]. simpl. destruct (live_at_spec _ _ Hlive) as (p & Hat & Hlp). unfold live_at.
    rewrite (update_player_at f id _ _ p) by done. case_bool_decide; [by apply Hl|done].
  - split_and!; [done| |exact Hpl]. rewrite Hm. destruct (hand_table t H (conj Hp Hlive)) as [_ ->]. exact Hc.
Qed.

Lemma index_of_spec id ps i : index_of id ps = Some i -> exists p, ps !! i = Some p /\ p_id p = id.
Proof.
  revert i. induction ps as [|p ps IH]; intros i; simpl; [done|]. case_bool_decide as E.
  - intros [= <-]. by exists p.
  - destruct (index_of id ps) as [j|]; [|done]. intros [= <-]. by apply IH.
Qed.

Lemma removePlayer_ok id p t :
  table_ok t -> playing t = true -> find_player id (players t) = Some p -> inHand p = true ->
  table_ok (removePlayer id t) /\ money (removePlayer id t) = money t.
Proof.
  intros Ht Hpl Hp Hi. unfold removePlayer. rewrite Hp, Hi, Hpl.
  destruct (index_of id (players t)) as [i|] eqn:Ei; [|done]. cbn [andb]. cbv zeta.
  destruct (update_table (fun p => p <| connected := false |>) id t) as (H1 & Hm1 & Hpl1);
    [by intros q []|done|done|done|done|].
  set (t1 := t <| players := update_player id (fun p => p <| connected := false |>) (players t) |>) in *.
  change (toActIdx t1) with (toActIdx t). destruct (Z.eqb_spec (Z.of_nat i) (toActIdx t)) as [E|E].
  { destruct (applyAction id fold_action t1) as [t2|] eqn:Ea; [|done].
    apply applyAction_ok in Ea as [? Hm]; [|done|done]. split; [done|]. simpl. by rewrite Hm. }
  destruct (update_table fold_out id t1) as (H2 & Hm2 & Hpl2); [by intros q []|done| |done|done|].
  { intros q Hq Hid _. exfalso. apply E. apply player_at_Some in Hq as [Hpos Hq]. change (toActIdx t1) with (toActIdx t) in *.
    apply index_of_spec in Ei as (r & Hr & Hrid).
    assert (i = Z.to_nat (toActIdx t)); [|lia].
    assert (Hn : NoDup (ids (players t1))) by apply H1.
    assert (Hr1 : ids (players t1) !! i = Some id).
    { assert (ids (players t1) = ids (players t)) as -> by (by apply update_ids).
      change (ids (players t)) with (p_id <$> players t). by rewrite list_lookup_fmap, Hr, <- Hrid. }
    eapply NoDup_lookup; [exact Hn|exact Hr1|]. change (ids (players t1)) with (p_id <$> players t1).
    by rewrite list_lookup_fmap, Hq, <- Hid. }
  set (t2 := t1 <| players := update_player id fold_out (players t1) |>) in *.
  set (t3 := t2 <| acted := _ |>). change (t1 <| players := _ |> <| acted := _ |>) with t3.
  destruct (table_ok_ext t2 t3) as [H3 Hm3]; [done..|].
  assert (Hm : money t3 = money t) by congruence.
  destruct (t_hand _ H3 Hpl2) as [Hh3 Hprog3].
  destruct (awardUncontested t3) as [done t4] eqn:Ea. destruct done.
  - apply award_ok in Ea as [? Hm4]; [|done]. split; [done|]. rewrite Hm4, <- Hm.
    by destruct (hand_table _ Hh3 Hprog3) as [_ ->].
  - assert (t4 = clearTurnTimer t3) as ->.
    { unfold awardUncontested in Ea. by destruct (activeInHand _) as [|? [|]]; simplify_eq. }
    destruct (live_at_spec _ _ (proj2 Hprog3)) as (a & Ha & _). apply player_at_elem in Ha.
    unfold close_if_empty. rewrite bool_decide_eq_false_2.
    + destruct (table_ok_ext t3 (pushState (clearTurnTimer t3))) as [? ?]; [done..|]. split; [done|congruence].
    + change (players (clearTurnTimer t3)) with (players t3). intros En. rewrite En in Ha. by apply elem_of_nil in Ha.
Qed.

Lemma addPlayer_rejoin id name p t :
  table_ok t -> playing t = true -> find_player id (players t) = Some p ->
  table_ok (addPlayer id name t).2 /\ money (addPlayer id name t).2 = money t.
Proof.
  intros Ht Hpl Hp. unfold addPlayer. rewrite Hp. cbv zeta. cbn [snd].
  destruct (update_table (reconnect name) id t) as (H1 & Hm1 & _); [by intros q []|done|done|done|done|].
  rewrite <- Hm1. destruct (_ && _); by apply table_ok_ext.
Qed.

Lemma updateSettings_ok patch t :
  table_ok t -> playing t = true -> table_ok (updateSettings patch t) /\ money (updateSettings patch t) = money t.
Proof.
  intros Ht Hpl. unfold updateSettings. cbv zeta. set (s := sanitizeSettings _ _ _).
  assert (Hs : settings_ok s) by (apply sanitizeSettings_ok, Ht).
  assert (phase t <> lobby /\ phase t <> between) as [Hp1 Hp2].
  { unfold playing, isPokerLobbyJoinable in Hpl. by split; intros E; rewrite E in Hpl. }
  set (t1 := t <| cfg := s |>). change (phase t1) with (phase t).
  rewrite (bool_decide_eq_false_2 (phase t = lobby)), (bool_decide_eq_false_2 (phase t = between)) by done.
  assert (H1 : table_ok t1 /\ money t1 = money t).
  { split; [|done]. destruct Ht. constructor; try done. intros H. destruct (t_hand0 H) as [[] Hp]. split; [by constructor|done]. }
  destruct H1 as [H1 Hm1]. destruct (scheduleTurnTimer_frame t1) as [r ->]. change (playing _) with (playing t).
  rewrite Hpl, <- Hm1. by apply table_ok_ext.
Qed.

Lemma addChips_ok id v t :
  table_ok t -> playing t = true -> table_ok (addChips id v t).2 /\ money (addChips id v t).2 = money t.
Proof.
  intros Ht Hpl. unfold addChips. cbv zeta. rewrite Hpl. set (w := clampInt v 1 1000000000 0).
  destruct (negb _ || _) eqn:E; [done|]. bool_cases. cbn [snd].
  match goal with |- context [update_player id ?f] => set (grant := f) end.
  destruct (update_table grant id t) as (H1 & Hm1 & Hpl1); [|done..|].
  - intros q []. unfold grant. constructor; simpl; lia.
  - rewrite Hpl1, <- Hm1. by apply table_ok_ext.
Qed.

Lemma hand_step_ok t t' : table_ok t -> playing t = true -> hand_step t t' -> table_ok t' /\ money t' = money t.
Proof.
  intros Ht Hpl [id act t1 Ha| |id p Hp Hi|id p name Hp|patch|id v|id v|id r|].
  - by eapply applyAction_ok.
  - unfold turn_timeout. destruct (turnTimer t) as [id|]; [|done]. cbv zeta.
    destruct (table_ok_ext t (t <| turnTimer := None |>)) as [H1 Hm1]; [done..|].
    destruct (applyAction id fold_action _) as [t1|] eqn:Ea; [|done].
    apply applyAction_ok in Ea as [? Hm]; [|done|done]. split; [done|]. simpl. by rewrite Hm.
  - by eapply removePlayer_ok.
  - by eapply addPlayer_rejoin.
  - by apply updateSettings_ok.
  - by apply addChips_ok.
  - unfold removeChips. cbv zeta. destruct (_ || _); [done|]. rewrite Hpl. by apply table_ok_ext.
  - unfold invitePeer. cbv zeta. destruct (_ || _); [done|]. by apply table_ok_ext.
  - unfold saveNow. rewrite Hpl. by apply table_ok_ext.
Qed.

(** A hand, from its start: steps as long as it runs. *)
Inductive hand_run : table -> table -> Prop :=
| run_nil t : hand_run t t
| run_step t t1 t2 : playing t = true -> hand_step t t1 -> hand_run t1 t2 -> hand_run t t2.

Lemma hand_run_ok t t' : hand_run t t' -> table_ok t -> table_ok t' /\ money t' = money t.
Proof.
  induction 1 as [t|t t1 t2 Hpl Hs _ IH]; intros Ht; [done|].
  destruct (hand_step_ok _ _ Ht Hpl Hs) as [H1 Hm]. destruct (IH H1) as [H2 Hm2]. split; [done|congruence].
Qed.

(** C11: no chip is lost or created in a hand by the steps of [hand_step]: actions of the peers
    whose raises are numbers, turns that time out, players of the running hand who leave, players
    who come back, and the host's settings, grants and revocations.  From the start of a hand the
    stacks and the pot together are the stacks of the start (with the chips granted during the
    last hand); when the hand is over they are the stacks alone, all side pots paid out, and
    nobody ever has less than nothing.  New players, who
    bring chips, are not among the steps; others are left out because they break the claim or the
    order of play: a raise that is not a number ([any_peer_poisons_the_pot]), a kick ([kick_destroys_chips]), and a
    player outside the hand who leaves the table ([leaver_stalls_hand]). *)
Theorem hand_conserves_chips buf t t' :
  table_ok t -> playing t = false -> hand_run (startHand buf t) t' ->
  sum_of chips (players t') + (if playing t' then pot t' else 0) = sum_of chips (map take_pending (players t)) /\
  Forall (fun p => 0 <= chips p) (players t').
Proof.
  intros Ht Hpl Hr. destruct (startHand_ok buf t Ht Hpl) as [H1 Hm1].
  destruct (hand_run_ok _ _ Hr H1) as [H2 Hm2]. split; [fold (money t'); congruence|].
  eapply Forall_impl; [apply H2|]. intros p Hp. apply Hp.
Qed.

(** ** A hand can always be finished *)

(** The player whose turn it is folds. *)
Definition fold_turn (t : table) : table :=
  match player_at (players t) (toActIdx t) with
  | Some p => default t (applyAction (p_id p) fold_action t)
  | None => t
  end.

Definition contests (p : player) : Z := if inHand p && negb (folded p) then 1 else 0.

Lemma contests_length ps : sum_of contests ps = Z.of_nat (length (activeInHand ps)).
Proof.
  induction ps as [|p ps IH]; [done|]. cbn [sum_of foldr]. unfold sum_of in IH. unfold contests at 1. rewrite IH.
  unfold activeInHand. cbn [List.filter]. destruct (inHand p && negb (folded p)); cbn [length]; lia.
Qed.

Lemma reset_contests ps :
  sum_of contests (map (fun p => if inHand p then p <| roundBet := 0 |> else p) ps) = sum_of contests ps.
Proof.
  rewrite sum_map. apply sum_ext. intros p _. unfold contests. destruct (inHand p) eqn:E; simpl; by rewrite ?E.
Qed.

Lemma next_street_players t : players (next_street t) = players t.
Proof. unfold next_street, deal_board. by destruct (street t). Qed.

Lemma advanceStreet_contests t : sum_of contests (players (advanceStreet t)) = sum_of contests (players t).
Proof.
  unfold advanceStreet. cbv zeta. set (t1 := reset_round _). set (t2 := next_street _).
  destruct (scheduleTurnTimer_frame (t2 <| toActIdx := first_live (players t2) (length (players t2) + 3)
    (if Nat.leb (length (List.filter inHand (players t2))) 2 then Z.rem (dealerIdx t2) (Z.of_nat (length (players t2)))
     else nextLiveSeat (players t2) (dealerIdx t2)) |> <| phase := phase_of (street t2) |>)) as [r ->].
  change (sum_of contests (players t2) = sum_of contests (players t)).
  unfold t2. rewrite next_street_players. apply reset_contests.
Qed.

Lemma between_not_playing t : phase t = between -> playing t = false.
Proof. intros H. unfold playing. by rewrite H. Qed.

Lemma showdown_over t : hand_ok t -> playing (showdown t) = false.
Proof.
  intros H. apply between_not_playing.
  destruct (showdown_spec t (h_ids _ H) (sound_total _ (h_sound _ H))) as (_ & _ & Hp & _). exact Hp.
Qed.

Lemma push_playing t : playing (pushState t) = playing t.
Proof. done. Qed.

Lemma push_players t : players (pushState t) = players t.
Proof. done. Qed.

Lemma proceed_contests t :
  hand_ok t -> playing (proceed t) = false \/ sum_of contests (players (proceed t)) = sum_of contests (players t).
Proof.
  intros H. unfold proceed. destruct (awardUncontested t) as [done t1] eqn:Ea. destruct done.
  { left. apply between_not_playing. revert Ea. unfold awardUncontested.
    destruct (activeInHand _) as [|w [|]]; try done. intros [= <-]. unfold finish_hand. simpl. by destruct (autoStart _). }
  assert (t1 = clearTurnTimer t) as ->.
  { unfold awardUncontested in Ea. by destruct (activeInHand _) as [|? [|]]; simplify_eq. }
  assert (H1 : hand_ok (clearTurnTimer t)) by (eapply progress_ok; [..|exact H]; done).
  cbv zeta. rewrite push_playing, push_players. set (anyLive := existsb _ _). clearbody anyLive.
  destruct (bettingComplete (clearTurnTimer t)).
  - destruct anyLive; cbn [negb orb andb].
    + case_bool_decide; [left; by apply showdown_over|right; exact (advanceStreet_contests (clearTurnTimer t))].
    + left. apply showdown_over. case_bool_decide; [exact H1|exact (proj1 (runoutBoard_ok _ H1))].
  - right. set (t2 := clearTurnTimer t <| toActIdx := _ |>).
    destruct (scheduleTurnTimer_frame t2) as [r ->]. reflexivity.
Qed.

Lemma applyAction_fold t p :
  player_at (players t) (toActIdx t) = Some p -> live p = true ->
  let folds := alter (fun p => p <| folded := true |>) (Z.to_nat (toActIdx t)) (players t) in
  applyAction (p_id p) fold_action t = Some (proceed (t <| players := folds |> <| acted := p_id p :: acted t |>)).
Proof. intros Hat Hl. unfold applyAction. by rewrite Hat, Hl, bool_decide_eq_true_2 by done. Qed.

Lemma fold_turn_shrinks t :
  table_ok t -> playing t = true ->
  table_ok (fold_turn t) /\
  (playing (fold_turn t) = false \/ (length (activeInHand (players (fold_turn t))) < length (activeInHand (players t)))%nat).
Proof.
  intros Ht Hpl. destruct (t_hand _ Ht Hpl) as [H [Hp Hl]].
  destruct (live_at_spec _ _ Hl) as (p & Hat & Hlp). unfold fold_turn. rewrite Hat.
  pose proof (applyAction_fold t p Hat Hlp) as Ea. cbv zeta in Ea. set (t1 := t <| players := _ |> <| acted := _ |>) in Ea.
  destruct (applyAction_ok _ _ _ _ Ht Hpl Ea) as [Hok _]. rewrite Ea. cbn [default id from_option]. split; [done|].
  assert (H1 : hand_ok t1) by (apply (perform_ok p Fold t); done).
  destruct (proceed_contests t1 H1) as [?|Hc]; [by left|right].
  rewrite !contests_length in Hc. apply Nat2Z.inj_lt. rewrite Hc, <- !contests_length.
  destruct (live_active _ _ (player_at_elem _ _ _ Hat) Hlp) as (Ha & Hi & _). apply active_elem in Ha as (_ & _ & Hf).
  apply player_at_Some in Hat as [_ Hat]. pose proof (alter_sum contests (fun p => p <| folded := true |>) _ _ _ Hat) as Hs.
  unfold contests at 3 4 in Hs. simpl in Hs. rewrite Hi, Hf in Hs. simpl in Hs.
  change (players t1) with (alter (fun p => p <| folded := true |>) (Z.to_nat (toActIdx t)) (players t)). simpl. lia.
Qed.

(** C12: a hand that took only the steps of [hand_step] (actions whose raises are numbers,
    time-outs, players of the hand who leave, players who come back, the host's settings, grants
    and revocations; no kick, nobody new, and nobody outside the hand leaves) is never stuck: as long as it
    runs there is a player to act who can, and if each player folds when it is their turn, the
    hand is over after at most as many turns as there are players in it.  When a player outside
    the hand leaves, it can get stuck ([leaver_stalls_hand]). *)
Theorem hand_never_stalls buf t t' :
  table_ok t -> playing t = false -> hand_run (startHand buf t) t' -> playing t' = true ->
  (exists p, player_at (players t') (toActIdx t') = Some p /\ live p = true) /\
  exists k, (k <= length (activeInHand (players t')))%nat /\ playing (Nat.iter k fold_turn t') = false.
Proof.
  intros Ht Hpl Hr Hpl'. destruct (startHand_ok buf t Ht Hpl) as [H1 _].
  destruct (hand_run_ok _ _ Hr H1) as [H2 _].
  split; [apply live_at_spec, (t_hand _ H2 Hpl')|]. clear -H2 Hpl'.
  remember (length (activeInHand (players t'))) as n eqn:En. assert (Hn : (length (activeInHand (players t')) <= n)%nat) by lia.
  clear En. revert t' H2 Hpl' Hn. induction n as [|n IH]; intros t' H2 Hpl' Hn.
  - destruct (fold_turn_shrinks t' H2 Hpl') as [_ [Hover|?]]; [|lia].
    destruct (t_hand _ H2 Hpl') as [_ [_ (p & Hat & Hl)%live_at_spec]].
    destruct (live_active _ _ (player_at_elem _ _ _ Hat) Hl) as (Ha & _).
    destruct (activeInHand (players t')); [by apply elem_of_nil in Ha|simpl in Hn; lia].
  - destruct (fold_turn_shrinks t' H2 Hpl') as [Hok Hor].
    destruct (playing (fold_turn t')) eqn:E; [|exists 1%nat; split; [lia|done]].
    destruct Hor as [?|Hlt]; [done|]. destruct (IH (fold_turn t') Hok E) as (k & Hk & Hover); [lia|].
    exists (S k). split; [lia|]. by rewrite Nat.iter_succ_r.
Qed.
