(* ===== verification/PokerHands.v ===== *)
(** * Poker hands and pots

    The order of hand values, the best five of seven cards, and who is paid from a pot. *)

From S2P Require Import Prelude Json Shuffle Cards Poker PokerFacts.

(** ** The best hands win *)

Definition hd0 (a : list Z) : Z := match a with [] => 0 | x :: _ => x end.

Lemma cmpScore_unfold a b :
  cmpScore a b = if Z.eqb (hd0 a) (hd0 b) then cmpScore (tl a) (tl b) else hd0 a - hd0 b.
Proof.
  destruct a as [|x a], b as [|y b]; cbn [hd0 tl]; try done.
  - destruct (Z.eqb_spec 0 y) as [<-|Hy]; [by destruct b|]. simpl. destruct (Z.eqb_spec y 0); lia.
  - destruct (Z.eqb_spec x 0) as [->|Hx]; [by destruct a|]. simpl. destruct (Z.eqb_spec x 0); lia.
Qed.

Lemma cmpScore_antisym n : forall a b, (length a <= n)%nat -> (length b <= n)%nat -> cmpScore a b = - cmpScore b a.
Proof.
  induction n as [|n IH]; intros a b Ha Hb.
  - destruct a, b; simpl in *; try done; lia.
  - rewrite (cmpScore_unfold a b), (cmpScore_unfold b a), Z.eqb_sym.
    destruct (Z.eqb _ _); [|lia]. apply IH; [destruct a|destruct b]; simpl in *; lia.
Qed.

Lemma cmpScore_trans n : forall a b c, (length a <= n)%nat -> (length b <= n)%nat -> (length c <= n)%nat ->
  0 <= cmpScore a b -> 0 <= cmpScore b c ->
  0 <= cmpScore a c /\ (cmpScore a c = 0 -> cmpScore a b = 0 /\ cmpScore b c = 0).
Proof.
  induction n as [|n IH]; intros a b c Ha Hb Hc.
  - destruct a, b, c; simpl in *; try done; lia.
  - rewrite (cmpScore_unfold a b), (cmpScore_unfold b c), (cmpScore_unfold a c).
    assert (Ht : forall l : list Z, (length l <= S n)%nat -> (length (tl l) <= n)%nat).
    { intros l Hl. destruct l; simpl in *; lia. }
    destruct (Z.eqb_spec (hd0 a) (hd0 b)), (Z.eqb_spec (hd0 b) (hd0 c)), (Z.eqb_spec (hd0 a) (hd0 c)); try lia.
    apply IH; auto.
Qed.

(** [a] is at least as good as [b]. *)
Definition at_least (a b : list Z) : Prop := 0 <= cmpScore a b.

Lemma at_least_trans a b c : at_least a b -> at_least b c -> at_least a c.
Proof.
  intros H1 H2. destruct (cmpScore_trans (length a + length b + length c) a b c) as [H _]; [lia..|done|done|done].
Qed.

Lemma cmpScore_opp a b : cmpScore a b = - cmpScore b a.
Proof. apply (cmpScore_antisym (length a + length b)); lia. Qed.

Lemma at_least_refl a : at_least a a.
Proof. unfold at_least. pose proof (cmpScore_opp a a). lia. Qed.

Lemma at_least_total a b : at_least a b \/ at_least b a.
Proof. unfold at_least. pose proof (cmpScore_opp a b). lia. Qed.

Lemma better_max l : forall best,
  match fold_left better l best with
  | Some b => (b ∈ l \/ best = Some b) /\ (forall s, s ∈ l \/ best = Some s -> at_least b s)
  | None => l = [] /\ best = None
  end.
Proof.
  induction l as [|s l IH]; intros best; cbn [fold_left].
  - destruct best as [b|]; [|done]. split; [by right|]. intros s [H|[= ->]]; [by apply elem_of_nil in H|apply at_least_refl].
  - specialize (IH (better best s)). destruct (fold_left better l (better best s)) as [b|].
    + destruct IH as [Hin Hmax]. unfold better in *. destruct best as [b0|].
      * destruct (Z.ltb_spec 0 (cmpScore s b0)) as [Hlt|Hge].
        -- split; [destruct Hin as [?|[= ->]]; left; set_solver|].
           intros x [[->|Hx]%elem_of_cons|[= ->]]; [apply Hmax; by right|apply Hmax; by left|].
           apply at_least_trans with s; [apply Hmax; by right|]. unfold at_least. lia.
        -- split; [destruct Hin as [?|?]; [left; set_solver|by right]|].
           intros x [[->|Hx]%elem_of_cons|[= ->]]; [|apply Hmax; by left|apply Hmax; by right].
           apply at_least_trans with b0; [apply Hmax; by right|]. unfold at_least. rewrite cmpScore_opp. lia.
      * split; [destruct Hin as [?|[= ->]]; left; set_solver|].
        intros x [[->|Hx]%elem_of_cons|?]; [apply Hmax; by right|apply Hmax; by left|done].
    + destruct IH as [_ IH]. unfold better in IH. by destruct best; [destruct (Z.ltb _ _)|].
Qed.

(** The five-card hands of seven cards. *)
Definition fives (cards : list Z) : list (list Z) := map (pick cards) quintuples.

Lemma best7_spec cards :
  (7 <= length cards)%nat ->
  exists b, best7 cards = Some b /\ (exists five, five ∈ fives cards /\ scoreFive five = b) /\
    forall five, five ∈ fives cards -> at_least b (scoreFive five).
Proof.
  intros Hl. unfold best7. rewrite (proj2 (Nat.ltb_ge _ _)) by done.
  assert (map (fun q => scoreFive (pick cards q)) quintuples = map scoreFive (fives cards)) as ->.
  { unfold fives. by rewrite map_map. }
  pose proof (better_max (map scoreFive (fives cards)) None) as H.
  destruct (fold_left better _ None) as [b|].
  - destruct H as [[Hin|?] Hmax]; [|done]. exists b. split; [done|]. split.
    + apply list_elem_of_fmap in Hin as (five & -> & Hin). by exists five.
    + intros five Hf. apply Hmax. left. by apply list_elem_of_fmap_2.
  - by destruct H as [H _].
Qed.

(** [pick_winners] keeps the best value of those seen and everybody who has it. *)
Lemma pick_winners_best (score : string -> list Z) hand (l : list string) : forall (pre : list string) b (won : list string),
  (forall id, id ∈ pre \/ id ∈ l -> hand id = Some (score id)) ->
  (exists id, id ∈ pre /\ score id = b) -> (forall id, id ∈ pre -> at_least b (score id)) ->
  (forall id, id ∈ won <-> id ∈ pre /\ at_least (score id) b) ->
  exists w b', pick_winners hand l (Some (Some b)) won = (w, Some b') /\
    (forall id, id ∈ w <-> (id ∈ pre \/ id ∈ l) /\ forall id', id' ∈ pre \/ id' ∈ l -> at_least (score id) (score id')).
Proof.
  induction l as [|id l IH]; intros pre b won Hh (m & Hm & Hmb) Hmax Hw; cbn [pick_winners].
  - exists won, b. split; [done|]. intros id. rewrite Hw. split.
    + intros [Hp Hge]. split; [by left|]. intros id' [Hp'|H]; [|by apply elem_of_nil in H].
      eapply at_least_trans; [exact Hge|]. by apply Hmax.
    + intros [[Hp|H] Hge]; [|by apply elem_of_nil in H]. split; [done|]. rewrite <- Hmb. apply Hge. by left.
  - assert (Hext : forall b' won',
      (exists x, x ∈ pre ++ [id] /\ score x = b') -> (forall x, x ∈ pre ++ [id] -> at_least b' (score x)) ->
      (forall x, x ∈ won' <-> x ∈ pre ++ [id] /\ at_least (score x) b') ->
      exists w b'', pick_winners hand l (Some (Some b')) won' = (w, Some b'') /\
        (forall x, x ∈ w <-> (x ∈ pre \/ x ∈ id :: l) /\
           forall x', x' ∈ pre \/ x' ∈ id :: l -> at_least (score x) (score x'))).
    { intros b' won' H1 H2 H3. destruct (IH (pre ++ [id]) b' won') as (w & b'' & E & Hspec); [|done..|].
      { intros x Hx. apply Hh. set_solver. }
      assert (Hiff : forall x, (x ∈ pre ++ [id] \/ x ∈ l) <-> (x ∈ pre \/ x ∈ id :: l)) by set_solver.
      exists w, b''. split; [done|]. intros x. rewrite Hspec, Hiff. by setoid_rewrite Hiff. }
    rewrite Hh by (right; left). unfold beats, ties.
    destruct (Z.ltb_spec 0 (cmpScore (score id) b)) as [Hlt|Hge]; [|destruct (Z.eqb_spec (cmpScore (score id) b) 0) as [He|He]].
    + assert (Hlow : forall x, x ∈ pre -> at_least (score id) (score x) /\ ~ at_least (score x) (score id)).
      { intros x Hx. split; [apply at_least_trans with b; [unfold at_least; lia|auto]|].
        intros H. assert (at_least b (score id)) as Hb; [|unfold at_least in Hb; rewrite cmpScore_opp in Hb; lia].
        apply at_least_trans with (score x); auto. }
      apply Hext.
      * exists id. split; [set_solver|done].
      * intros x [Hx| ->%list_elem_of_singleton]%elem_of_app; [by apply Hlow|apply at_least_refl].
      * intros x. rewrite list_elem_of_singleton, elem_of_app, list_elem_of_singleton.
        split; [intros ->; split; [by right|apply at_least_refl]|]. intros [[Hx|?] Hge]; [|done].
        by destruct (Hlow x Hx).
    + assert (Hid : at_least (score id) b /\ at_least b (score id)).
      { unfold at_least. rewrite (cmpScore_opp b). lia. }
      apply Hext.
      * exists m. split; [set_solver|done].
      * intros x [Hx| ->%list_elem_of_singleton]%elem_of_app; [by apply Hmax|apply Hid].
      * intros x. rewrite !elem_of_app, Hw, list_elem_of_singleton. naive_solver.
    + assert (Hid : ~ at_least (score id) b /\ at_least b (score id)).
      { unfold at_least. rewrite (cmpScore_opp b). lia. }
      apply Hext.
      * exists m. split; [set_solver|done].
      * intros x [Hx| ->%list_elem_of_singleton]%elem_of_app; [by apply Hmax|apply Hid].
      * intros x. rewrite elem_of_app, Hw, list_elem_of_singleton. naive_solver.
Qed.

Lemma pick_winners_spec (score : string -> list Z) hand (l : list string) :
  l <> [] -> (forall id, id ∈ l -> hand id = Some (score id)) ->
  exists w b, pick_winners hand l None [] = (w, Some b) /\
    (forall id, id ∈ w <-> id ∈ l /\ forall id', id' ∈ l -> at_least (score id) (score id')).
Proof.
  destruct l as [|id l]; [done|]. intros _ Hh. cbn [pick_winners]. rewrite (Hh id) by left.
  destruct (pick_winners_best score hand l [id] (score id) [id]) as (w & b & E & Hw).
  - intros x Hx. apply Hh. set_solver.
  - exists id. split; [left|done].
  - intros x ->%list_elem_of_singleton. apply at_least_refl.
  - intros x. rewrite list_elem_of_singleton. split; [intros ->; split; [done|apply at_least_refl]|naive_solver].
  - exists w, b. split; [done|]. assert (Hiff : forall x, (x ∈ [id] \/ x ∈ l) <-> x ∈ id :: l) by set_solver.
    intros x. rewrite Hw, Hiff. by setoid_rewrite Hiff.
Qed.

Lemma pay_shares_paid l share rem ps : Forall (fun id => id ∈ ids ps) l ->
  let paid := (pay_shares l share rem ps).2 in
  map fst paid = l /\ Forall (fun w => share <= w.2 <= share + 1) paid.
Proof.
  revert rem ps. induction l as [|id l IH]; intros rem ps Hl; [by split|]. cbn [pay_shares]. cbv zeta.
  apply Forall_cons in Hl as [Hid Hl]. rewrite (proj2 (has_player_spec id ps)) by done.
  set (a := share + _). specialize (IH (Z.max 0 (rem - 1)) (update_player id (add_chips a) ps)).
  destruct (pay_shares l share _ _) as [ps' paid]. cbn [snd] in *. destruct IH as [H1 H2].
  - by rewrite update_ids.
  - split; [simpl; by rewrite H1|]. constructor; [|done]. simpl. unfold a. case_match; lia.
Qed.

(** What [paid] gives to the player [id]. *)
Definition share_of (paid : list (string * Z)) (id : string) : Z :=
  foldr (fun w n => (if bool_decide (w.1 = id) then w.2 else 0) + n) 0 paid.

(** Everybody who is paid gets it on the own stack, and nothing else of a seat changes. *)
Lemma pay_shares_players l share : forall rem ps, Forall (fun id => id ∈ ids ps) l ->
  (pay_shares l share rem ps).1 = map (fun p => add_chips (share_of (pay_shares l share rem ps).2 (p_id p)) p) ps.
Proof.
  induction l as [|id l IH]; intros rem ps Hl; cbn [pay_shares].
  - cbn [fst snd share_of foldr]. induction ps as [|p ps IHp]; [done|]. cbn [map]. rewrite <- IHp by constructor. f_equal.
    destruct p. unfold add_chips. cbn. f_equal. lia.
  - cbv zeta. apply Forall_cons in Hl as [Hid Hl]. rewrite (proj2 (has_player_spec id ps)) by done.
    set (a := share + _). specialize (IH (Z.max 0 (rem - 1)) (update_player id (add_chips a) ps)).
    destruct (pay_shares l share _ _) as [ps' paid]. cbn [fst snd] in *. rewrite IH by by rewrite update_ids.
    unfold update_player. rewrite map_map. apply map_ext. intros p. cbn [share_of foldr fst snd].
    case_bool_decide as Hp; [|by rewrite bool_decide_eq_false_2 by congruence].
    rewrite bool_decide_eq_true_2 by done. destruct p. unfold add_chips. cbn in *. f_equal. unfold share_of. lia.
Qed.

(** The best five of seven cards of one player against those of the others. *)
Definition best_of (cards : string -> list Z) (contenders : list string) (id : string) : Prop :=
  exists five, five ∈ fives (cards id) /\
    forall id' five', id' ∈ contenders -> five' ∈ fives (cards id') -> at_least (scoreFive five) (scoreFive five').

(** C37: every pot goes to the best hands.  Among the players who paid for a pot and have not
    folded, those are paid, and only those, who have five cards of their seven that no five
    cards of another's seven beat; they share the whole pot, their shares differ by at most
    one chip, and the stack of every player grows by what the results say that player has won
    and by nothing else, nor does anything else of a player change. *)
Theorem pot_goes_to_best_hands board ps results p ps' results' (cards : string -> list Z) :
  NoDup (ids ps) -> 0 <= amount p ->
  let contenders := List.filter (in_play ps) (eligible p) in
  contenders <> [] ->
  (forall id, id ∈ contenders -> exists q, find_player id ps = Some q /\ cards id = hole q ++ board /\
     (7 <= length (cards id))%nat) ->
  settle_pot board (ps, results) p = (ps', results') ->
  exists won share, results' = results ++ won /\
    (forall id, id ∈ map w_id won <-> id ∈ contenders /\ best_of cards contenders id) /\
    Forall (fun w => share <= w_amount w <= share + 1) won /\
    ps' = map (fun q => add_chips (share_of (map (fun w => (w_id w, w_amount w)) won) (p_id q)) q) ps /\
    chips_sum ps' = chips_sum ps + amount p.
Proof.
  intros Hn Ha contenders Hc Hcards. unfold settle_pot. fold contenders.
  assert (Hids : forall id, id ∈ contenders -> id ∈ ids ps).
  { intros id Hid. unfold contenders in Hid. rewrite list_elem_of_In, filter_In in Hid. apply in_play_ids, Hid. }
  set (score := fun id => default [] (best7 (cards id))).
  assert (Hscore : forall id, id ∈ contenders -> hand_of ps board id = Some (score id) /\
    (exists five, five ∈ fives (cards id) /\ scoreFive five = score id) /\
    (forall five, five ∈ fives (cards id) -> at_least (score id) (scoreFive five))).
  { intros id (q & Hq & Hcq & Hl)%Hcards. destruct (best7_spec _ Hl) as (b & Hb & Hex & Hall).
    unfold hand_of, score. rewrite Hq, <- Hcq, Hb. by split_and!. }
  destruct (pick_winners_spec score (hand_of ps board) contenders Hc) as (w & b & Ew & Hw).
  { intros id Hid. apply (Hscore id Hid). }
  assert (Hne : w <> []) by (eapply pick_winners_some; [exact Ew|by right]). rewrite Ew.
  assert (Hwin : Forall (fun id => id ∈ ids ps) w).
  { rewrite Forall_forall. intros id Hid. by apply Hids, Hw. }
  assert (Hbest : forall id, id ∈ contenders ->
    (forall id', id' ∈ contenders -> at_least (score id) (score id')) <-> best_of cards contenders id).
  { intros id Hid. destruct (Hscore id Hid) as (_ & (five & Hf & Hfs) & Hall). split.
    - intros H. exists five. split; [done|]. intros id' five' Hid' Hf'. rewrite Hfs.
      apply at_least_trans with (score id'); [by apply H|]. by apply (proj2 (proj2 (Hscore id' Hid'))).
    - intros (f & Hfin & H) id' Hid'. destruct (Hscore id' Hid') as (_ & (five' & Hf' & <-) & _).
      apply at_least_trans with (scoreFive f); [by apply Hall|by apply (H id')]. }
  destruct (split_pot w (amount p) ps) as [ps1 paid] eqn:E. 
  assert (Hm : forall A (x y : A), match contenders with [] => x | _ => y end = y)
    by (clear -Hc; clearbody contenders; by destruct contenders).
  rewrite Hm. intros [= <- <-]. pose proof (pay_shares_paid w (Z.div (amount p) (Z.of_nat (length w)))
    (amount p - Z.div (amount p) (Z.of_nat (length w)) * Z.of_nat (length w)) ps Hwin) as [Hp1 Hp2].
  pose proof (pay_shares_players w (Z.div (amount p) (Z.of_nat (length w)))
    (amount p - Z.div (amount p) (Z.of_nat (length w)) * Z.of_nat (length w)) ps Hwin) as Hp3.
  pose proof E as E'. unfold split_pot in E. rewrite E in Hp1, Hp2, Hp3. cbn [fst snd] in Hp1, Hp2, Hp3.
  exists (map (fun x => mk_win x.1 x.2 (handLabel (Some b))) paid), (Z.div (amount p) (Z.of_nat (length w))). split_and!.
  - done.
  - intros id. rewrite map_map. cbn [w_id]. change (fun x => x.1) with (@fst string Z). rewrite Hp1, Hw.
    split; intros [H1 H2]; (split; [done|]); by apply Hbest.
  - apply Forall_forall. intros x (y & -> & Hy)%list_elem_of_fmap. exact (proj1 (Forall_forall _ _) Hp2 y Hy).
  - rewrite map_map, Hp3. apply map_ext. intros q. do 2 f_equal. rewrite <- (map_id paid) at 1. apply map_ext. by intros [].
  - by eapply split_pot_spec.
Qed.
