(* ===== verification/PokerLimits.v ===== *)
(** * What the poker table does not guarantee

    The operations outside the hand ([hand_step]) and the inputs that break what
    [PokerFacts] shows of it, each with a concrete table, and the witnesses of the theorems
    about hands. *)

From S2P Require Import Prelude Json Shuffle Cards Poker PokerFacts PokerHands.

(** ** Tables to evaluate *)

Definition seated (id : string) (s c : Z) : player :=
  mk_player id id s c false false 0 0 [] false false true 0 0 0 0.

Definition table_of (ps : list player) : table := new_table "a" defaultSettings <| players := ps |>.

Definition demo_buf : list Z := map (fun i => i * 7919 + 13) (seqZ 0 52).

Definition simple (kind : string) : json := JObj [("type", JStr kind)].

Definition acts (l : list (string * json)) (t : table) : table :=
  fold_left (fun t a => default t (applyAction a.1 a.2 t)) l t.

Definition trio : table := table_of [seated "a" 0 2000; seated "b" 1 2000; seated "c" 2 2000].

Lemma default_settings_ok : settings_ok defaultSettings.
Proof. constructor; simpl; lia. Qed.

Lemma table_of_ok ps : NoDup (ids ps) -> Forall (fun p => 0 <= chips p /\ totalBet p = 0 /\ roundBet p = 0 /\ pendingChips p = 0) ps ->
  table_ok (table_of ps).
Proof.
  intros Hn Hp. constructor; [exact Hn| |apply default_settings_ok|done|done].
  eapply Forall_impl; [exact Hp|]. intros p (? & ? & ? & ?). constructor; lia.
Qed.

Lemma trio_ok : table_ok trio.
Proof.
  apply table_of_ok; [apply (bool_decide_unpack _); vm_compute; exact I|].
  repeat constructor; simpl; lia.
Qed.

(** A hand of three calls and checks to the river and ends in a showdown. *)
Definition checked_down : list (string * json) :=
  [("a", simple "call"); ("b", simple "call"); ("c", simple "check");
   ("b", simple "check"); ("c", simple "check"); ("a", simple "check");
   ("b", simple "check"); ("c", simple "check"); ("a", simple "check");
   ("b", simple "check"); ("c", simple "check"); ("a", simple "check")].

Example showdown_pays :
  let t := acts checked_down (startHand demo_buf trio) in
  phase t = between /\ sum_of chips (players t) = 6000 /\ map w_amount (winners t) = [60].
Proof. vm_compute. done. Qed.

Lemma hand_conserves_chips_witness :
  exists t', hand_run (startHand demo_buf trio) t' /\ playing t' = true /\ sum_of chips (players t') + pot t' = 6000.
Proof.
  set (t0 := startHand demo_buf trio).
  assert (Hp : playing t0 = true) by (vm_compute; reflexivity).
  assert (Hrun : hand_run t0 (acts [("a", simple "call")] t0)).
  { eapply run_step; [exact Hp| |apply run_nil].
    apply (step_action t0 "a" (simple "call")). vm_compute. reflexivity. }
  exists (acts [("a", simple "call")] t0). split; [exact Hrun|]. split; [vm_compute; reflexivity|].
  destruct (hand_conserves_chips demo_buf trio _ trio_ok eq_refl Hrun) as [H _].
  assert (Hp' : playing (acts [("a", simple "call")] t0) = true) by (vm_compute; reflexivity).
  rewrite Hp' in H. rewrite H. vm_compute. reflexivity.
Defined.

Lemma hand_never_stalls_witness :
  exists k, (k <= 3)%nat /\ playing (Nat.iter k fold_turn (startHand demo_buf trio)) = false.
Proof.
  assert (Hp : playing (startHand demo_buf trio) = true) by (vm_compute; reflexivity).
  destruct (hand_never_stalls demo_buf trio (startHand demo_buf trio) trio_ok eq_refl (run_nil _) Hp) as [_ (k & Hk & Hover)].
  exists k. split; [|exact Hover].
  assert (Hl : length (activeInHand (players (startHand demo_buf trio))) = 3%nat) by (vm_compute; reflexivity).
  rewrite Hl in Hk. exact Hk.
Defined.

(** Ann has a pair of aces, Bob a pair of deuces, on a board of unpaired cards. *)
Definition aces_and_deuces : list player :=
  [seated "ann" 0 0 <| inHand := true |> <| hole := [12; 25] |>; seated "bob" 1 0 <| inHand := true |> <| hole := [0; 13] |>].

Lemma pot_goes_to_best_hands_witness :
  exists won share, map w_id won = ["ann"] /\ Forall (fun w => share <= w_amount w <= share + 1) won.
Proof.
  set (board := [2; 17; 32; 47; 9]).
  set (cards := fun id => if bool_decide (id = "ann") then [12; 25] ++ board else [0; 13] ++ board).
  destruct (pot_goes_to_best_hands board aces_and_deuces [] (mk_pot 40 ["ann"; "bob"])
    (settle_pot board (aces_and_deuces, []) (mk_pot 40 ["ann"; "bob"])).1
    (settle_pot board (aces_and_deuces, []) (mk_pot 40 ["ann"; "bob"])).2 cards) as (won & share & Hw & _ & Hs & _ & _).
  - apply (bool_decide_unpack _). vm_compute. exact I.
  - discriminate.
  - vm_compute. discriminate.
  - intros id Hid. assert (H : id = "ann" \/ id = "bob") by (vm_compute in Hid; set_solver).
    destruct H as [-> | ->]; (eexists; split; [reflexivity|]; split; [reflexivity|]; apply Nat.leb_le; reflexivity).
  - reflexivity.
  - exists won, share. split; [|exact Hs]. simpl app in Hw. rewrite <- Hw. vm_compute. reflexivity.
Defined.

(** ** A player who leaves the table can stop the hand of the others *)

(** A player who is not in the hand (broke, or seated after it began) and leaves while
    the last player of the table is to act, takes the turn away from everybody: the index of
    the turn is not moved with the players.  No action of any peer has an effect any more, no
    new hand can be started, and the hand never ends. *)
Theorem leaver_stalls_hand t id p i :
  table_ok t -> playing t = true -> find_player id (players t) = Some p -> inHand p = false ->
  index_of id (players t) = Some i -> toActIdx t = Z.of_nat (length (players t)) - 1 ->
  let t' := removePlayer id t in
  playing t' = true /\ (forall peer act, applyAction peer act t' = Some t') /\
  (forall buf, startHand buf t' = pushState t') /\ turn_timeout t' = t' <| turnTimer := None |>.
Proof.
  intros Ht Hpl Hp Hi Hidx Hact. unfold removePlayer. rewrite Hidx, Hp, Hi. cbn [andb]. cbv zeta.
  destruct (index_of_spec _ _ _ Hidx) as (q & Hq & _). pose proof (lookup_lt_Some _ _ _ Hq) as Hlt.
  destruct (t_hand _ Ht Hpl) as [_ [_ Hl]]. destruct (live_at_spec _ _ Hl) as (a & Ha & Hla).
  set (t1 := t <| players := delete i (players t) |>).
  set (t2 := if Z.ltb (Z.of_nat i) (dealerIdx t1) then _ else t1).
  set (t3 := if Z.leb _ (dealerIdx t2) then _ else t2).
  assert (H2 : players t2 = delete i (players t) /\ toActIdx t2 = toActIdx t /\ phase t2 = phase t).
  { unfold t2. by destruct (Z.ltb _ _). }
  assert (H3 : players t3 = delete i (players t) /\ toActIdx t3 = toActIdx t /\ phase t3 = phase t).
  { unfold t3. by destruct (Z.leb _ _). }
  clearbody t3. clear t1 t2 H2. destruct H3 as (Hps & Hta & Hph).
  assert (Hlen : length (players t3) = (length (players t) - 1)%nat) by (rewrite Hps; by apply length_delete).
  assert (Hne : players t3 <> []).
  { intros E. assert (Hone : length (players t) = 1%nat) by (rewrite E in Hlen; simpl in Hlen; lia).
    apply player_at_Some in Ha as [_ Ha]. rewrite Hact, Hone in Ha. assert (i = 0%nat) as -> by lia.
    change (Z.to_nat (Z.of_nat 1 - 1)) with 0%nat in Ha. rewrite Hq in Ha. injection Ha as ->.
    destruct (find_player_spec _ _ _ Hp) as [Hin Hid]. destruct (players t) as [|x [|]]; try done.
    apply list_elem_of_singleton in Hin. subst x. injection Hq as ->. unfold live in Hla. by rewrite Hi in Hla. }
  unfold close_if_empty. rewrite bool_decide_eq_false_2 by done.
  assert (Hnone : player_at (players t3) (toActIdx t3) = None).
  { unfold player_at. destruct (Z.ltb _ 0); [done|]. apply lookup_ge_None. rewrite Hlen, Hta, Hact. lia. }
  assert (Hpl3 : playing (pushState t3) = true) by (unfold playing; simpl; by rewrite Hph).
  assert (Hno : forall peer act t'', players t'' = players t3 -> toActIdx t'' = toActIdx t3 ->
    applyAction peer act t'' = Some t'') by (intros peer act t'' E1 E2; unfold applyAction; by rewrite E1, E2, Hnone).
  split_and!; [exact Hpl3|intros; by apply Hno| |].
  - intros buf. unfold startHand. unfold playing in Hpl3. apply negb_true_iff in Hpl3. by rewrite Hpl3.
  - unfold turn_timeout. destruct (turnTimer (pushState t3)) eqn:E; [by rewrite Hno|].
    destruct t3. simpl in *. by subst.
Qed.

(** Ann is broke; Bob and Cid play. *)
Definition broke_first : table := table_of [seated "ann" 0 0; seated "bob" 1 2000; seated "cid" 2 2000].

Definition cids_turn : table := acts [("bob", simple "call")] (startHand demo_buf broke_first).

Lemma broke_first_ok : table_ok broke_first.
Proof.
  apply table_of_ok; [apply (bool_decide_unpack _); vm_compute; exact I|].
  repeat constructor; simpl; lia.
Qed.

Lemma cids_turn_ok : table_ok cids_turn.
Proof.
  assert (Hp : playing (startHand demo_buf broke_first) = true) by (vm_compute; reflexivity).
  refine (proj1 (hand_run_ok (startHand demo_buf broke_first) _ _ _)).
  - eapply run_step; [exact Hp| |apply run_nil].
    apply (step_action _ "bob" (simple "call")). vm_compute. reflexivity.
  - by apply (startHand_ok demo_buf broke_first broke_first_ok).
Qed.

Lemma leaver_stalls_hand_witness :
  let t' := removePlayer "ann" cids_turn in
  playing t' = true /\ forall peer act, applyAction peer act t' = Some t'.
Proof.
  edestruct (leaver_stalls_hand cids_turn "ann") as (H1 & H2 & _);
    [apply cids_turn_ok|vm_compute; reflexivity..|]. split; [exact H1|exact H2].
Defined.

(** ** A kick destroys the chips the player has bet *)

Lemma delete_sum {A} (g : A -> Z) (l : list A) i x : l !! i = Some x -> sum_of g (delete i l) = sum_of g l - g x.
Proof.
  revert i. induction l as [|y l IH]; intros [|i] Hi; simplify_eq/=; [lia|].
  change (delete (S i) (y :: l)) with (y :: delete i l). simpl. rewrite (IH i) by done. lia.
Qed.

Lemma find_index id ps p i : find_player id ps = Some p -> index_of id ps = Some i -> ps !! i = Some p.
Proof.
  unfold find_player. revert i. induction ps as [|q ps IH]; intros i; simpl; [done|].
  case_bool_decide; [by intros [= ->] [= <-]|]. destruct (index_of id ps); [|done].
  intros Hp [= <-]. by apply IH.
Qed.

(** A player off the table: the pot keeps what the others can no longer win. *)
Lemma drop_player_frame i b t :
  players (drop_player i b t) = delete i (players t) /\ pot (drop_player i b t) = pot t /\
  (delete i (players t) <> [] -> phase (drop_player i b t) = phase t).
Proof.
  unfold drop_player. cbv zeta.
  set (t1 := if Z.ltb _ (dealerIdx t) then _ else t). assert (H1 : players t1 = players t /\ pot t1 = pot t /\ phase t1 = phase t).
  { unfold t1. by destruct (Z.ltb _ _). } clearbody t1. destruct H1 as (<- & <- & <-).
  set (t2 := if b && _ then _ else t1). assert (H2 : players t2 = players t1 /\ pot t2 = pot t1 /\ phase t2 = phase t1).
  { unfold t2. by destruct (b && _). } clearbody t2. destruct H2 as (<- & <- & <-).
  set (t3 := t2 <| players := _ |>). set (t4 := if Z.leb _ (dealerIdx t3) then _ else t3).
  assert (H4 : players t4 = delete i (players t2) /\ pot t4 = pot t2 /\ phase t4 = phase t2).
  { unfold t4. by destruct (Z.leb _ _). } clearbody t4. destruct H4 as (<- & <- & <-).
  set (t5 := if b && _ then _ else t4). assert (H5 : players t5 = players t4 /\ pot t5 = pot t4 /\ phase t5 = phase t4).
  { unfold t5. by destruct (b && _). } clearbody t5. destruct H5 as (<- & <- & <-).
  unfold close_if_empty. case_bool_decide as E; [|done]. by rewrite E.
Qed.

(** Kicking a player during a hand that goes on takes what the player has put into the
    pot out of the game: the pot still shows it, but a showdown pays only what the players
    who are still seated have put in. *)
Theorem kick_destroys_chips t id p i :
  table_ok t -> playing t = true -> id <> selfId t ->
  find_player id (players t) = Some p -> index_of id (players t) = Some i -> inHand p = true -> folded p = false ->
  (2 < length (activeInHand (players t)))%nat ->
  let t' := (kickPlayer id t).2 in
  playing t' = true /\ pot t' = pot t /\ sum_of chips (players t') = sum_of chips (players t) - chips p /\
  sum_of chips (players (showdown t')) = sum_of chips (players t') + pot t' - totalBet p.
Proof.
  intros Ht Hpl Hself Hp Hidx Hi Hf Hactive. unfold kickPlayer.
  rewrite bool_decide_eq_false_2, Hidx, Hp by done. cbv zeta.
  change (playing (emit _ t)) with (playing t). rewrite Hi, Hf, Hpl. cbn [andb negb].
  set (t1 := emit _ t <| players := _ |> <| acted := _ |>).
  destruct (t_hand _ Ht Hpl) as [H [Hph _]]. pose proof (find_index _ _ _ _ Hp Hidx) as Hat.
  destruct (update_hand fold_out id t) as [H1 Hc1]; [by intros q []|done|done|].
  destruct (find_player_spec _ _ _ Hp) as [Hin Hid].
  assert (Hcount : sum_of contests (players t1) = sum_of contests (players t) + -1).
  { apply update_sum; [apply H|rewrite <- Hid; by apply list_elem_of_fmap_2|]. intros q Hq Hqid.
    assert (q = p) as ->; [|by unfold contests, fold_out; simpl; rewrite Hi, Hf].
    apply list_elem_of_lookup in Hq as [j Hj]. assert (j = i) as ->; [|congruence].
    apply (NoDup_lookup (p_id <$> players t) j i id (h_ids _ H)); rewrite list_lookup_fmap, ?Hj, ?Hat; simpl; congruence. }
  rewrite !contests_length in Hcount.
  assert (Ha1 : awardUncontested t1 = (false, clearTurnTimer t1)).
  { unfold awardUncontested. change (players (clearTurnTimer t1)) with (players t1).
    destruct (activeInHand (players t1)) as [|x [|y l]] eqn:E; try done. simpl in Hcount. lia. }
  rewrite Ha1. cbn [snd]. set (t2 := if _ : bool then _ else clearTurnTimer t1).
  assert (H2 : players t2 = players t1 /\ pot t2 = pot t /\ phase t2 = phase t).
  { unfold t2. destruct (match player_at _ _ with Some _ => _ | None => _ end); [|done].
    match goal with |- context [scheduleTurnTimer ?x] => destruct (scheduleTurnTimer_frame x) as [r ->] end. done. }
  clearbody t2. destruct H2 as (Hp2 & Hpot2 & Hph2). destruct (drop_player_frame i true t2) as (Hp3 & Hpot3 & Hph3).
  set (t3 := drop_player i true t2) in *. clearbody t3.
  assert (Hat1 : players t1 !! i = Some (fold_out p)).
  { change (players t1) with ((fun q => if bool_decide (p_id q = id) then fold_out q else q) <$> players t).
    by rewrite list_lookup_fmap, Hat, <- Hid; simpl; rewrite bool_decide_eq_true_2. }
  assert (Hps : players t3 = delete i (players t1)) by (by rewrite Hp3, Hp2).
  assert (Hlen : (2 <= length (players t1))%nat).
  { assert (length (activeInHand (players t1)) <= length (players t1))%nat by apply List.filter_length_le. lia. }
  assert (Hne : delete i (players t2) <> []).
  { rewrite Hp2. intros E.
    assert (Hd : length (delete i (players t1)) = (length (players t1) - 1)%nat) by (apply length_delete; eauto).
    rewrite E in Hd. change (length (@nil player)) with 0%nat in Hd. lia. }
  assert (Hchips : sum_of chips (players t3) = sum_of chips (players t) - chips p).
  { rewrite Hps, (delete_sum _ _ _ _ Hat1). f_equal. by apply update_same_sum. }
  assert (Hbets : bets_sum (players t3) = pot t - totalBet p).
  { rewrite Hps, (delete_sum _ _ _ _ Hat1), (h_pot _ H). unfold in_pot at 2. simpl. rewrite Hi. f_equal.
    by apply update_same_sum. }
  destruct (showdown_spec (pushState (checkpoint "kick" t3))) as (_ & Hs & _).
  - change (NoDup (ids (players t3))). rewrite Hps.
    eapply (sublist_NoDup _ (ids (players t1))); [apply (h_ids _ H1)|]. apply (fmap_sublist p_id), sublist_delete.
  - change (Forall (fun q => 0 <= totalBet q) (players t3)). rewrite Hps. apply Forall_delete, sound_total, H1.
  - cbn [snd]. split_and!.
    + unfold playing. simpl. rewrite Hph3, Hph2 by done. exact Hpl.
    + simpl. by rewrite Hpot3.
    + exact Hchips.
    + etrans; [exact Hs|].
      change (sum_of chips (players t3) + bets_sum (players t3) = sum_of chips (players t3) + pot t3 - totalBet p). lia.
Qed.

(** Bob, who owes the small blind, is kicked: the others play for 20 of the 30 chips. *)
Lemma kick_destroys_chips_witness :
  let t' := (kickPlayer "b" (startHand demo_buf trio)).2 in
  pot t' = 30 /\ sum_of chips (players t') = 3980 /\ sum_of chips (players (showdown t')) = 4000.
Proof.
  set (t := startHand demo_buf trio).
  assert (Hok : table_ok t) by (by apply (startHand_ok demo_buf trio trio_ok)).
  edestruct (kick_destroys_chips t "b") as (_ & H2 & H3 & H4); [exact Hok|vm_compute..|];
    [reflexivity|discriminate|reflexivity|reflexivity|reflexivity|reflexivity|apply Nat.leb_le; reflexivity|].
  split; [rewrite H2; vm_compute; reflexivity|]. split; [rewrite H3; vm_compute; reflexivity|].
  rewrite H4, H3, H2. vm_compute. reflexivity.
Defined.

(** ** A showdown without a board *)

Lemma pick_winners_nan hand id l won :
  (forall x, x ∈ l -> hand x = None) -> pick_winners hand l (Some None) (id :: won) = (id :: won, None).
Proof.
  induction l as [|x l IH]; intros H; [done|]. cbn [pick_winners]. rewrite H by left. apply IH. set_solver.
Qed.

(** When the blinds put everybody all-in, the showdown is reached before any card is on
    the board; every value of a hand contains NaN then, nothing beats or ties anything, and
    the first player of the table who paid for a pot gets all of it, whatever the cards. *)
Theorem first_seat_wins_without_board ps results p c contenders :
  List.filter (in_play ps) (eligible p) = c :: contenders ->
  (forall id, id ∈ c :: contenders -> exists q, find_player id ps = Some q /\ (length (hole q) <= 2)%nat) ->
  (settle_pot [] (ps, results) p).2 = results ++ [mk_win c (amount p) "Vierling"].
Proof.
  intros He Hh. unfold settle_pot. rewrite He. cbn [pick_winners].
  assert (Hnone : forall id, id ∈ c :: contenders -> hand_of ps [] id = None).
  { intros id (q & Hq & Hl)%Hh. unfold hand_of, best7. rewrite Hq, app_nil_r. by rewrite (proj2 (Nat.ltb_lt _ 7)) by lia. }
  rewrite (Hnone c) by left. rewrite pick_winners_nan by (intros x Hx; apply Hnone; by right).
  unfold split_pot. cbn [length pay_shares]. change (Z.of_nat 1) with 1. rewrite Z.div_1_r, Z.mul_1_r, Z.sub_diag.
  assert (has_player c ps = true) as ->.
  { apply has_player_spec, in_play_ids. assert (Hin : In c (c :: contenders)) by (by left).
    rewrite <- He in Hin. apply filter_In in Hin. apply Hin. }
  simpl. by rewrite Z.add_0_r.
Qed.

(** Ann has ten chips for the small blind of ten, Bob twenty for the big blind. *)
Definition short_stacks : table := table_of [seated "ann" 0 10; seated "bob" 1 20].

Example ann_wins_whatever_the_cards :
  forallb (fun buf => bool_decide (map (fun w => (w_id w, w_amount w)) (winners (startHand buf short_stacks))
                                   = [("ann", 20); ("bob", 10)]))
    [demo_buf; replicate 52 1; replicate 52 17; seqZ 0 52] = true.
Proof. vm_compute. reflexivity. Qed.

Lemma first_seat_wins_without_board_witness :
  (settle_pot [] (aces_and_deuces, []) (mk_pot 40 ["bob"; "ann"])).2 = [mk_win "bob" 40 "Vierling"].
Proof.
  apply (first_seat_wins_without_board aces_and_deuces [] (mk_pot 40 ["bob"; "ann"]) "bob" ["ann"]); [reflexivity|].
  intros id Hid. apply elem_of_cons in Hid as [-> | ->%list_elem_of_singleton];
    (eexists; split; [reflexivity|apply Nat.leb_le; reflexivity]).
Defined.

(** ** A raise that is not a number *)

(** A raise to an amount that is not a number turns the chips of the player, the bet and the
    pot into [NaN]; the host does not check what a peer sends. *)
Lemma raise_not_a_number t p :
  player_at (players t) (toActIdx t) = Some p -> live p = true -> max_bet (players t) < roundBet p + chips p ->
  applyAction (p_id p) (JObj [("type", JStr "raise"); ("amount", JStr "x")]) t = None.
Proof.
  intros Hp Hl Hm. unfold applyAction. rewrite Hp, Hl, bool_decide_eq_true_2 by done. cbn [negb orb].
  change (read_action _ _) with (Raise None). unfold perform. by rewrite (proj2 (Z.leb_gt _ _)).
Qed.

Example any_peer_poisons_the_pot :
  onWire "b" "action" (JObj [("action", JObj [("type", JStr "raise"); ("amount", JStr "x")])])
    (acts [("a", simple "call")] (startHand demo_buf trio)) = None.
Proof. vm_compute. reflexivity. Qed.

(** ** The turn timer *)

(** Somebody else leaving stops the timer of the player to act, for the rest of the turn. *)
Example leaver_stops_the_clock :
  let t := startHand demo_buf (trio <| cfg := defaultSettings <| turnTimeSec := 30 |> |>) in
  turnTimer t = Some "a" /\ turnTimer (removePlayer "c" t) = None /\ toActIdx (removePlayer "c" t) = 0.
Proof. vm_compute. done. Qed.

(** An action of an unknown kind passes the turn. *)
Example unknown_action_passes :
  let t := startHand demo_buf trio in
  toActIdx t = 0 /\ option_map toActIdx (applyAction "a" (simple "think") t) = Some 1.
Proof. vm_compute. done. Qed.
