(* ===== verification/Uno.v ===== *)
(** * UNO: cards, rules and the host's state machine ([assets/bundled-plugins/uno/*.js])

    The piles are kept with their top card first ([pop] takes the head), a shuffle takes its
    random words from [entropy], the list of what the platform will deliver, and messages,
    saves and events are appended to [out].  The texts shown to the players are not modelled. *)

From stdpp Require Import pretty.
From S2P Require Import Prelude Json Shuffle.

(** ** Cards ([deck.js]) *)

Inductive color := Red | Yellow | Green | Blue | WildColor.
Inductive value := Number (n : Z) | Skip | Reverse | Draw2 | Wild | Wild4.

#[export] Instance color_eq_dec : EqDecision color.
Proof. solve_decision. Defined.

#[export] Instance value_eq_dec : EqDecision value.
Proof. solve_decision. Defined.

Record card := mk_card { card_id : string; card_color : color; card_value : value }.

#[export] Instance card_eq_dec : EqDecision card.
Proof. solve_decision. Defined.

Definition COLORS : list color := [Red; Yellow; Green; Blue].
Definition ACTION_VALUES : list value := [Skip; Reverse; Draw2].

(** [color[0]]. *)
Definition color_letter (c : color) : string :=
  match c with Red => "r" | Yellow => "y" | Green => "g" | Blue => "b" | WildColor => "w" end.

Definition value_name (v : value) : string :=
  match v with
  | Number n => pretty n
  | Skip => "skip" | Reverse => "reverse" | Draw2 => "draw2" | Wild => "wild" | Wild4 => "wild4"
  end.

(** The cards of one colour; [seq] numbers the cards of the deck. *)
Definition color_cards (c : color) (seq : Z) : list card :=
  let pair (k : Z) (v : value) :=
    [mk_card (color_letter c +:+ "_" +:+ value_name v +:+ "_a_" +:+ pretty (seq + 2 * k - 1)) c v;
     mk_card (color_letter c +:+ "_" +:+ value_name v +:+ "_b_" +:+ pretty (seq + 2 * k)) c v] in
  mk_card (color_letter c +:+ "_0_" +:+ pretty seq) c (Number 0)
  :: flat_map (fun n => pair n (Number n)) (seqZ 1 9) ++ pair 10 Skip ++ pair 11 Reverse ++ pair 12 Draw2.

Definition wild_cards (seq : Z) : list card :=
  flat_map (fun i =>
    [mk_card ("wild_" +:+ pretty i +:+ "_" +:+ pretty (seq + 2 * i)) WildColor Wild;
     mk_card ("wild4_" +:+ pretty i +:+ "_" +:+ pretty (seq + 2 * i + 1)) WildColor Wild4]) (seqZ 0 4).

Definition buildDeck : list card :=
  color_cards Red 0 ++ color_cards Yellow 25 ++ color_cards Green 50 ++ color_cards Blue 75 ++ wild_cards 100.

Definition is_wild (c : card) : bool := bool_decide (card_color c = WildColor).

Definition isSpecialStartCard (c : card) : bool := is_wild c || includes ACTION_VALUES (card_value c).

Definition cardPoints (c : card) : Z :=
  match card_value c with
  | Wild | Wild4 => 50
  | Skip | Reverse | Draw2 => 20
  | Number n => n
  end.

(** ** Rules ([rules.js]) *)

Record settings := mk_settings {
  tableName : string;
  maxPlayers : Z;
  turnTimeSec : Z;
  autoStart : bool;
  points_mode : bool;   (** [gameMode === 'points'] *)
  casual : bool;        (** [houseRules === 'casual'] *)
  targetScore : Z;
  penaltyCards : Z;
  public_lobby : bool
}.

Definition defaultSettings : settings := mk_settings "UNO-Tisch" 4 0 false false false 500 2 false.

Definition clampInt (value : option Z) (min max fallback : Z) : Z :=
  match value with
  | None => fallback
  | Some parsed => Z.max min (Z.min max parsed)
  end.

(** [sanitizeSettings] on a patch and settings. *)
Definition sanitizeSettings (input : fields) (fb : settings) (minSeats : Z) : settings :=
  let num (name : string) (v : Z) : option Z :=
    if has input name then to_number (get input name) else Some v in
  let text (name : string) (v : bool) (s : string) : bool :=
    if has input name then bool_decide (get input name = Some (JStr s)) else v in
  let or_num (n d : Z) := if Z.eqb n 0 then d else n in
  let name :=
    str_take 48 (trim (if has input "tableName"
      then (if truthy (get input "tableName") then string_or_empty (get input "tableName") else "UNO-Tisch")
      else if bool_decide (tableName fb = "") then "UNO-Tisch" else tableName fb)) in
  mk_settings (if bool_decide (name = "") then "UNO-Tisch" else name)
    (clampInt (num "maxPlayers" (maxPlayers fb)) (Z.max 2 minSeats) 8 (Z.max 4 minSeats))
    (clampInt (num "turnTimeSec" (turnTimeSec fb)) 0 300 (turnTimeSec fb))
    (if has input "autoStart" then bool_decide (get input "autoStart" = Some (JBool true)) else autoStart fb)
    (text "gameMode" (points_mode fb) "points")
    (text "houseRules" (casual fb) "casual")
    (clampInt (num "targetScore" (targetScore fb)) 100 10000 (or_num (targetScore fb) 500))
    (clampInt (num "penaltyCards" (penaltyCards fb)) 1 10 (or_num (penaltyCards fb) 2))
    (text "lobbyAccess" (public_lobby fb) "public").

(** The colour to follow: of the top card, or the one chosen for a wild card. *)
Definition topEffectiveColor (top : option card) (active : option color) : option color :=
  match top with
  | None => active
  | Some t => if is_wild t then active else Some (card_color t)
  end.

Definition hasMatchingColor (hand : list card) (c : option color) : bool :=
  match c with
  | None | Some WildColor => false
  | Some c => existsb (fun x => bool_decide (card_color x = c)) hand
  end.

Definition canPlay (c : card) (top : option card) (active : option color) (casual : bool) (hand : list card) : bool :=
  match top with
  | None => false
  | Some t =>
      if is_wild c then
        if bool_decide (card_value c = Wild4) && negb casual
        then negb (hasMatchingColor hand (topEffectiveColor top active)) else true
      else if bool_decide (Some (card_color c) = topEffectiveColor top active) then true
      else bool_decide (card_value c = card_value t)
  end.

(** [pendingDrawType]. *)
Inductive draw_kind := DrawTwo | DrawFour.

#[export] Instance draw_kind_eq_dec : EqDecision draw_kind.
Proof. solve_decision. Defined.

Definition canStackDraw (c : card) (pending : option draw_kind) (casual : bool) : bool :=
  casual && match pending with
  | Some DrawTwo => bool_decide (card_value c = Draw2) || bool_decide (card_value c = Wild4)
  | Some DrawFour => bool_decide (card_value c = Wild4)
  | None => false
  end.

(** [isValidColor] on a text that a peer sent. *)
Definition read_color (s : string) : option color :=
  if bool_decide (s = "red") then Some Red
  else if bool_decide (s = "yellow") then Some Yellow
  else if bool_decide (s = "green") then Some Green
  else if bool_decide (s = "blue") then Some Blue
  else None.

(** ** The game ([engine.js]) *)

Inductive uno_phase := lobby | in_play | roundOver | matchOver.

#[export] Instance uno_phase_eq_dec : EqDecision uno_phase.
Proof. solve_decision. Defined.

Record player := mk_player {
  p_id : string;
  p_name : string;
  seat : Z;
  hand : list card;
  saidUno : bool;
  score : Z;
  connected : bool
}.

#[export] Instance player_rebuild : Rebuild player := fun p =>
  mk_player (p_id p) (p_name p) (seat p) (hand p) (saidUno p) (score p) (connected p).

Inductive event_kind := StartEvent | PlayEvent | ColorEvent | DrawEvent | PenaltyEvent.

Inductive output :=
| PushState                       (** [pushState]: the public state, and to each player their hand *)
| SendWire (peerId wire : string)
| SendHand (peerId : string)
| Checkpoint (reason : string)
| SendInvite (peerId : string)
| Event (kind : event_kind) (peerId : string) (c : option card) (col : option color).

Record game := mk_game {
  selfId : string;
  cfg : settings;
  players : list player;
  phase : uno_phase;
  direction : Z;
  activeColor : option color;
  drawPile : list card;
  discardPile : list card;
  toActIdx : Z;
  dealerIdx : Z;
  roundNumber : Z;
  roundWinner : option string;
  matchWinner : option string;
  pendingColorChoice : option string;
  pendingDrawStack : Z;
  pendingDrawType : option draw_kind;
  drewCanPass : option string;
  pendingUnoPeer : option string;
  turnTimer : bool;
  startTimer : bool;
  invitedPeers : list string;
  entropy : list (list Z);
  out : list output
}.

#[export] Instance game_rebuild : Rebuild game := fun g =>
  mk_game (selfId g) (cfg g) (players g) (phase g) (direction g) (activeColor g) (drawPile g) (discardPile g)
    (toActIdx g) (dealerIdx g) (roundNumber g) (roundWinner g) (matchWinner g) (pendingColorChoice g)
    (pendingDrawStack g) (pendingDrawType g) (drewCanPass g) (pendingUnoPeer g) (turnTimer g) (startTimer g)
    (invitedPeers g) (entropy g) (out g).

Definition emit (o : output) (g : game) : game := g <| out := out g ++ [o] |>.
Definition pushState : game -> game := emit PushState.
Definition checkpoint (reason : string) : game -> game := emit (Checkpoint reason).
Definition emitEvent (k : event_kind) (peerId : string) (c : option card) (col : option color) : game -> game :=
  emit (Event k peerId c col).

Definition clearTurnTimer (g : game) : game := g <| turnTimer := false |>.
Definition clearAutoStartTimer (g : game) : game := g <| startTimer := false |>.

(** The next random words. *)
Definition next_words (g : game) : list Z * game := (default [] (head (entropy g)), g <| entropy := tail (entropy g) |>).

Definition activePlayers (ps : list player) : list player := List.filter connected ps.

Definition player_at (ps : list player) (i : Z) : option player := if Z.ltb i 0 then None else ps !! Z.to_nat i.

Definition find_player (id : string) (ps : list player) : option player :=
  List.find (fun p => bool_decide (p_id p = id)) ps.

Fixpoint index_of (id : string) (ps : list player) : option nat :=
  match ps with
  | [] => None
  | p :: rest => if bool_decide (p_id p = id) then Some O else option_map S (index_of id rest)
  end.

(** [playerIndex]. *)
Definition playerIndex (id : string) (ps : list player) : Z :=
  match index_of id ps with Some i => Z.of_nat i | None => -1 end.

Definition update_player (id : string) (f : player -> player) (g : game) : game :=
  g <| players := map (fun p => if bool_decide (p_id p = id) then f p else p) (players g) |>.

(** One seat on in the direction of play. *)
Definition step_index (n dir idx : Z) : Z := Z.rem (idx + dir + n) n.

Definition offline_at (ps : list player) (i : Z) : bool :=
  match player_at ps i with Some p => negb (connected p) | None => false end.

Fixpoint skip_offline (ps : list player) (dir : Z) (guard : nat) (idx : Z) : Z :=
  match guard with
  | O => idx
  | S guard' =>
      if offline_at ps idx then skip_offline ps dir guard' (step_index (Z.of_nat (length ps)) dir idx) else idx
  end.

Fixpoint nextIndex (ps : list player) (dir from : Z) (steps : nat) : Z :=
  match ps with
  | [] => -1
  | _ =>
      match steps with
      | O => from
      | S steps' =>
          nextIndex ps dir (skip_offline ps dir (length ps) (step_index (Z.of_nat (length ps)) dir from)) steps'
      end
  end.

Definition advance (steps : nat) (g : game) : game :=
  g <| toActIdx := nextIndex (players g) (direction g) (toActIdx g) steps |>.

Definition scheduleAutoStart (g : game) : game :=
  let g := clearAutoStartTimer g in
  if autoStart (cfg g) && bool_decide (phase g = lobby) && Nat.leb 2 (length (activePlayers (players g)))
  then g <| startTimer := true |> else g.

Definition scheduleTurnTimer (g : game) : game :=
  let g := clearTurnTimer g in
  if Z.leb (turnTimeSec (cfg g)) 0 || negb (bool_decide (phase g = in_play)) then g
  else
    match player_at (players g) (toActIdx g) with
    | Some actor => if connected actor then g <| turnTimer := true |> else g
    | None => g
    end.

(** ** Piles *)

(** [shuffle] of [deck.js] on an array: fewer than two elements take no random words. *)
Definition shuffle_pile (arr : list card) (g : game) : list card * game :=
  if Nat.ltb (length arr) 2 then (arr, g)
  else let '(words, g) := next_words g in (shuffle arr words, g).

Definition ensureDrawPile (g : game) : bool * game :=
  match drawPile g with
  | _ :: _ => (true, g)
  | [] =>
      match discardPile g with
      | top :: (_ :: _) as rest =>
          let '(pile, g) := shuffle_pile (rev (tail (discardPile g))) g in
          let g := g <| drawPile := rev pile |> <| discardPile := [top] |> in
          (negb (bool_decide (drawPile g = [])), g)
      | _ => (false, g)
      end
  end.

Definition add_card (c : card) (p : player) : player := p <| hand := hand p ++ [c] |>.

Fixpoint drawCardsFor (id : string) (count : nat) (g : game) : list card * game :=
  match count with
  | O => ([], g)
  | S count' =>
      let '(ok, g) := ensureDrawPile g in
      if negb ok then ([], g)
      else
        match drawPile g with
        | [] => ([], g)
        | c :: rest =>
            let '(drawn, g) := drawCardsFor id count' (update_player id (add_card c) (g <| drawPile := rest |>)) in
            (c :: drawn, g)
        end
  end.

Definition topCard (g : game) : option card := head (discardPile g).

(** ** The end of a round *)

Definition checkUnoPenalty (peerId : string) (g : game) : game :=
  match find_player peerId (players g) with
  | Some p =>
      if negb (Nat.eqb (length (hand p)) 1) || saidUno p then g
      else emitEvent PenaltyEvent peerId None None (drawCardsFor peerId (Z.to_nat (penaltyCards (cfg g))) g).2
  | None => g
  end.

Definition hand_points (p : player) : Z := foldr (fun c s => cardPoints c + s) 0 (hand p).

Definition applyPointsForRound (winner : string) (g : game) : game :=
  match points_mode (cfg g), find_player winner (players g) with
  | true, Some w =>
      let points := foldr (fun p s => (if bool_decide (p_id p = winner) then 0 else hand_points p) + s) 0 (players g) in
      let g := update_player winner (fun p => p <| score := score p + points |>) g in
      if Z.leb (targetScore (cfg g)) (score w + points)
      then g <| matchWinner := Some winner |> <| phase := matchOver |> else g
  | _, _ => g
  end.

Definition finishRound (winner : string) (g : game) : game :=
  let g := g <| roundWinner := Some winner |> <| pendingColorChoice := None |> <| pendingDrawStack := 0 |>
             <| pendingDrawType := None |> <| drewCanPass := None |> <| pendingUnoPeer := None |> in
  let g := applyPointsForRound winner g in
  let g := if bool_decide (phase g = matchOver) then g else g <| phase := roundOver |> in
  checkpoint "round_end" (clearTurnTimer g).

(** ** The effects of cards *)

Definition resolveSkip : game -> game := advance 2.

Definition resolveReverse (g : game) : game :=
  if Nat.eqb (length (players g)) 2 then resolveSkip g
  else advance 1 (g <| direction := direction g * -1 |>).

(** [resolveDrawTwo] and [resolveDrawFour]. *)
Definition resolveDraw (kind : draw_kind) (g : game) : game :=
  let n := match kind with DrawTwo => 2 | DrawFour => 4 end in
  if casual (cfg g) then
    advance 1 (g <| pendingDrawStack := pendingDrawStack g + n |> <| pendingDrawType := Some kind |>)
  else
    let nextIdx := nextIndex (players g) (direction g) (toActIdx g) 1 in
    match player_at (players g) nextIdx with
    | Some p =>
        let g := emitEvent DrawEvent (p_id p) None None (drawCardsFor (p_id p) (Z.to_nat n) g).2 in
        g <| toActIdx := nextIndex (players g) (direction g) nextIdx 1 |>
    | None => g
    end.

Definition forceDrawStack (peerId : string) (g : game) : game :=
  match find_player peerId (players g) with
  | Some p =>
      if Z.leb (pendingDrawStack g) 0 then g
      else
        let g := (drawCardsFor peerId (Z.to_nat (pendingDrawStack g)) g).2 in
        let g := g <| pendingDrawStack := 0 |> <| pendingDrawType := None |> <| drewCanPass := None |> in
        let g := emitEvent DrawEvent peerId None None g in
        scheduleTurnTimer
          (g <| toActIdx := nextIndex (players g) (direction g) (playerIndex peerId (players g)) 1 |>)
  | None => g
  end.

(** Whether the round is over, and the game. *)
Definition afterCardPlayed (peerId : string) (c : card) (g : game) : bool * game :=
  match find_player peerId (players g) with
  | Some p =>
      let n := length (hand p) in
      let g := if Nat.eqb n 1 then g <| pendingUnoPeer := Some peerId |> else g in
      let g := update_player peerId (fun p => p <| saidUno := false |>) g in
      if Nat.eqb n 0 then (true, finishRound peerId g)
      else
        (false,
         match card_value c with
         | Skip => resolveSkip g
         | Reverse => resolveReverse g
         | Draw2 => resolveDraw DrawTwo g
         | _ => advance 1 g
         end)
  | None => (false, g)
  end.

(** ** Actions *)

Definition is_turn (peerId : string) (g : game) : bool :=
  match index_of peerId (players g) with
  | Some i => Z.eqb (toActIdx g) (Z.of_nat i) && bool_decide (phase g = in_play)
  | None => false
  end.

(** The waiting penalty of another player. *)
Definition settle_uno (peerId : string) (g : game) : game :=
  match pendingUnoPeer g with
  | Some other => if bool_decide (other = peerId) then g else checkUnoPenalty other g
  | None => g
  end.

(** [hand.findIndex(c => c.id === cardId)] and [splice]: the card and the rest of the hand. *)
Fixpoint take_card (cardId : string) (hand : list card) : option (card * list card) :=
  match hand with
  | [] => None
  | c :: rest =>
      if bool_decide (card_id c = cardId) then Some (c, rest)
      else match take_card cardId rest with Some (x, rest') => Some (x, c :: rest') | None => None end
  end.

Definition may_play (c : card) (p : player) (g : game) : bool :=
  if Z.ltb 0 (pendingDrawStack g) then
    if casual (cfg g) then canStackDraw c (pendingDrawType g) (casual (cfg g)) else false
  else canPlay c (topCard g) (activeColor g) (casual (cfg g)) (hand p).

(** The card of an accepted play goes from the hand to the pile, after the penalty that
    another player owes. *)
Definition lay (peerId cardId : string) (c : card) (g : game) : game :=
  let g := settle_uno peerId g in
  let g := g <| pendingUnoPeer := None |> <| drewCanPass := None |> in
  let g := update_player peerId
    (fun p => match take_card cardId (hand p) with Some (_, rest) => p <| hand := rest |> | None => p end) g in
  emitEvent PlayEvent peerId (Some c) None (g <| discardPile := c :: discardPile g |>).

Definition playCard (peerId cardId : string) (g : game) : bool * game :=
  match find_player peerId (players g) with
  | Some p =>
      if negb (is_turn peerId g) || bool_decide (pendingColorChoice g <> None) then (false, g)
      else
        match take_card cardId (hand p) with
        | None => (false, g)
        | Some (c, _) =>
            if negb (may_play c p g) then (false, g)
            else
              let g := lay peerId cardId c g in
              if is_wild c then (true, pushState (g <| pendingColorChoice := Some peerId |>))
              else
                let '(over, g) := afterCardPlayed peerId c (g <| activeColor := Some (card_color c) |>) in
                (true, pushState (if over then g else scheduleTurnTimer g))
        end
  | None => (false, g)
  end.

Definition is_wild4 (c : option card) : bool :=
  match c with Some c => bool_decide (card_value c = Wild4) | None => false end.

(** The rest of [chooseColor]: the effect of a +4, and the end of the round with the last card. *)
Definition after_color (peerId : string) (played : option card) (g : game) : game :=
  let empty := match find_player peerId (players g) with Some p => bool_decide (hand p = []) | None => false end in
  if empty then pushState (finishRound peerId (if is_wild4 played then resolveDraw DrawFour g else g))
  else pushState (scheduleTurnTimer (if is_wild4 played then resolveDraw DrawFour g else advance 1 g)).

Definition chooseColor (peerId : string) (col : string) (g : game) : bool * game :=
  match read_color col with
  | Some c =>
      if negb (bool_decide (pendingColorChoice g = Some peerId)) then (false, g)
      else
        let played := topCard g in
        let g := g <| activeColor := Some c |> <| pendingColorChoice := None |> in
        (true, after_color peerId played (emitEvent ColorEvent peerId played (Some c) g))
  | None => (false, g)
  end.

(** The penalty another player owes, before a draw. *)
Definition settle_before_draw (peerId : string) (g : game) : game :=
  match pendingUnoPeer g with
  | Some other => if bool_decide (other = peerId) then g else checkUnoPenalty other g <| pendingUnoPeer := None |>
  | None => g
  end.

(** The turn passes on. *)
Definition move_on (g : game) : game := pushState (scheduleTurnTimer (advance 1 (g <| drewCanPass := None |>))).

(** The drawn card is kept for a decision when it can be played. *)
Definition after_draw (peerId : string) (drawn : list card) (g : game) : game :=
  match drawn, find_player peerId (players g) with
  | c :: _, Some p =>
      let g := emitEvent DrawEvent peerId (Some c) None g in
      if canPlay c (topCard g) (activeColor g) (casual (cfg g)) (hand p)
      then pushState (g <| drewCanPass := Some peerId |>) else move_on g
  | _, _ => move_on g
  end.

Definition drawCard (peerId : string) (g : game) : bool * game :=
  if negb (is_turn peerId g) || bool_decide (pendingColorChoice g <> None) then (false, g)
  else
    let g := settle_before_draw peerId g in
    if Z.ltb 0 (pendingDrawStack g) then (true, pushState (forceDrawStack peerId g))
    else let '(drawn, g) := drawCardsFor peerId 1 g in (true, after_draw peerId drawn g).

Definition passTurn (peerId : string) (g : game) : bool * game :=
  if negb (bool_decide (drewCanPass g = Some peerId)) then (false, g)
  else
    let g := settle_uno peerId (g <| drewCanPass := None |>) in
    (true, move_on (g <| pendingUnoPeer := None |>)).

Definition callUno (peerId : string) (g : game) : bool * game :=
  match find_player peerId (players g) with
  | Some p =>
      if negb (Nat.eqb (length (hand p)) 1) then (false, g)
      else
        let g := update_player peerId (fun p => p <| saidUno := true |>) g in
        (true, pushState (if bool_decide (pendingUnoPeer g = Some peerId) then g <| pendingUnoPeer := None |> else g))
  | None => (false, g)
  end.

(** What [sanitizeIncomingAction] leaves of a message. *)
Inductive action :=
| Play (cardId : string)
| ChooseColor (col : string)
| DrawAction
| Pass
| CallUno
| OtherAction.

Definition text_of (v : option json) : string := match v with Some (JStr s) => s | _ => "" end.

Definition sanitizeIncomingAction (body : option json) : option action :=
  match prop body "type" with
  | Some (JStr t) =>
      Some (if bool_decide (t = "play") then Play (text_of (prop body "cardId"))
            else if bool_decide (t = "chooseColor") then ChooseColor (text_of (prop body "color"))
            else if bool_decide (t = "draw") then DrawAction
            else if bool_decide (t = "pass") then Pass
            else if bool_decide (t = "callUno") then CallUno
            else OtherAction)
  | _ => None
  end.

Definition applyAction (peerId : string) (a : action) (g : game) : bool * game :=
  match a with
  | Play cardId => playCard peerId cardId g
  | ChooseColor col => chooseColor peerId col g
  | DrawAction => drawCard peerId g
  | Pass => passTurn peerId g
  | CallUno => callUno peerId g
  | OtherAction => (false, g)
  end.

(** ** Seats *)

(** [sanitizeName]. *)
Definition sanitizeName (name : option json) (fallback : string) : string :=
  let s := match name with None | Some JNull => "" | Some j => str_take 48 (trim (to_string j)) end in
  if bool_decide (s = "") then fallback else s.

Definition findSeat (g : game) : option Z :=
  List.find (fun s => negb (existsb (fun p => Z.eqb (seat p) s) (players g))) (seqZ 0 (maxPlayers (cfg g))).

Definition seat_order : list player -> list player := sort_by (fun a b => Z.leb (seat a) (seat b)).

Definition come_back (name : option json) (p : player) : player :=
  p <| connected := true |> <| p_name := sanitizeName name (p_name p) |>.

Definition addPlayer (peerId : string) (name : option json) (g : game) : bool * game :=
  match find_player peerId (players g) with
  | Some _ => (true, pushState (update_player peerId (come_back name) g))
  | None =>
      if Z.leb (maxPlayers (cfg g)) (Z.of_nat (length (players g))) then (false, g)
      else
        match findSeat g with
        | None => (false, g)
        | Some s =>
            let p := mk_player peerId (sanitizeName name peerId) s [] false 0 true in
            let g := g <| players := seat_order (players g ++ [p]) |> in
            let g := if bool_decide (phase g = lobby) then scheduleAutoStart g else g in
            (true, pushState (checkpoint "join" g))
        end
  end.

Definition forget_choices (peerId : string) (g : game) : game :=
  let keep (o : option string) := if bool_decide (o = Some peerId) then None else o in
  g <| pendingColorChoice := keep (pendingColorChoice g) |> <| drewCanPass := keep (drewCanPass g) |>
    <| pendingUnoPeer := keep (pendingUnoPeer g) |>.

(** The indexes after the player at [idx] has gone. *)
Definition remove_at (idx : nat) (g : game) : game :=
  let g := if Z.ltb (Z.of_nat idx) (toActIdx g) then g <| toActIdx := toActIdx g - 1 |> else g in
  let g := g <| players := delete idx (players g) |> in
  let n := Z.of_nat (length (players g)) in
  let g := if Z.leb n (toActIdx g) then g <| toActIdx := 0 |> else g in
  if Z.leb n (dealerIdx g) then g <| dealerIdx := Z.max 0 (n - 1) |> else g.

(** The phase and the turn after a player has gone. *)
Definition after_drop (wasActor : bool) (g : game) : game :=
  if bool_decide (phase g = in_play) && Nat.ltb (length (activePlayers (players g))) 2
  then clearTurnTimer (g <| phase := lobby |>)
  else if bool_decide (phase g = in_play) && wasActor then
    scheduleTurnTimer (if offline_at (players g) (toActIdx g) then advance 1 g else g)
  else g.

Definition dropPlayer (peerId : string) (g : game) : game :=
  match index_of peerId (players g) with
  | None => g
  | Some idx =>
      if bool_decide (peerId = selfId g) then g
      else
        let wasActor := Z.eqb (Z.of_nat idx) (toActIdx g) in
        pushState (checkpoint "leave" (after_drop wasActor (forget_choices peerId (remove_at idx g))))
  end.

(** The open obligations of a player who has just gone offline. *)
Definition settle_obligations (peerId : string) (idx : nat) (g : game) : game :=
  if bool_decide (pendingColorChoice g = Some peerId) then
    let g := g <| pendingColorChoice := None |> <| activeColor := Some (default Red (activeColor g)) |> in
    if is_wild4 (topCard g) && negb (casual (cfg g)) then resolveDraw DrawFour g else advance 1 g
  else if Z.eqb (Z.of_nat idx) (toActIdx g) then
    let g := g <| pendingDrawStack := 0 |> <| pendingDrawType := None |> in
    if Nat.leb 2 (length (activePlayers (players g))) then advance 1 g else g
  else g.

Definition forget_draw (peerId : string) (g : game) : game :=
  let keep (o : option string) := if bool_decide (o = Some peerId) then None else o in
  g <| drewCanPass := keep (drewCanPass g) |> <| pendingUnoPeer := keep (pendingUnoPeer g) |>.

Definition wait_or_run (g : game) : game :=
  if Nat.ltb (length (activePlayers (players g))) 2 then clearTurnTimer g else scheduleTurnTimer g.

Definition handleDisconnect (peerId : string) (g : game) : game :=
  if bool_decide (peerId = selfId g) then g
  else
    match index_of peerId (players g), find_player peerId (players g) with
    | Some idx, Some p =>
        if negb (bool_decide (phase g = in_play)) then dropPlayer peerId g
        else if negb (connected p) then g
        else
          let g := update_player peerId (fun p => p <| connected := false |>) g in
          let g := forget_draw peerId (settle_obligations peerId idx g) in
          pushState (checkpoint "disconnect" (wait_or_run g))
    | _, _ => g
    end.

Definition reconnectPlayer (peerId : string) (g : game) : bool * game :=
  if bool_decide (peerId = selfId g) || negb (bool_decide (is_Some (find_player peerId (players g)))) then (false, g)
  else
    let g := update_player peerId (fun p => p <| connected := true |>) g in
    let g := emit (SendHand peerId) (emit (SendWire peerId "state") g) in
    let g := if bool_decide (phase g = in_play) then scheduleTurnTimer g else g in
    (true, pushState (checkpoint "reconnect" g)).

Definition kickPlayer (peerId : string) (g : game) : bool * game :=
  if bool_decide (peerId = selfId g) || negb (bool_decide (is_Some (find_player peerId (players g)))) then (false, g)
  else (true, pushState (checkpoint "kick" (dropPlayer peerId (emit (SendWire peerId "kicked") g)))).

(** ** A round *)

(** The loop of [pickStarterCard]; [skipped] are the special cards above, in the order they
    were drawn. *)
Fixpoint pick_starter (pile skipped : list card) : option (card * list card) * list card :=
  match pile with
  | [] => (None, skipped)
  | c :: rest => if isSpecialStartCard c then pick_starter rest (skipped ++ [c]) else (Some (c, rest), skipped)
  end.

(** [drawPile = shuffle(arr)]. *)
Definition restock (arr : list card) (g : game) : game :=
  let '(pile, g) := shuffle_pile arr g in g <| drawPile := rev pile |>.

Definition pickStarterCard (g : game) : game :=
  match pick_starter (drawPile g) [] with
  | (Some (c, rest), skipped) =>
      let g := g <| drawPile := rest |> <| discardPile := c :: discardPile g |> <| activeColor := Some (card_color c) |> in
      match skipped with
      | [] => g
      | _ => restock (rev rest ++ skipped) g
      end
  | (None, c :: others) =>
      let g := g <| discardPile := c :: discardPile g |> in
      let '(words, g) := if is_wild c then next_words g else ([], g) in
      restock others
        (g <| activeColor := if is_wild c then COLORS !! Z.to_nat (Z.rem (nth 0 words 0) 4) else Some (card_color c) |>)
  | (None, []) => g <| drawPile := [] |>
  end.

Definition deal (g : game) : game :=
  foldl (fun g p => (drawCardsFor (p_id p) 7 g).2) g (players g).

(** A round without cards, before the deck is shuffled. *)
Definition clear_round (g : game) : game :=
  clearAutoStartTimer (clearTurnTimer g) <| roundWinner := None |> <| pendingColorChoice := None |>
    <| pendingDrawStack := 0 |> <| pendingDrawType := None |> <| drewCanPass := None |> <| pendingUnoPeer := None |>
    <| direction := 1 |> <| discardPile := [] |>.

Definition empty_hands (g : game) : game :=
  g <| players := map (fun p => p <| hand := [] |> <| saidUno := false |>) (players g) |>.

(** The dealer moves on, and the player after the dealer begins. *)
Definition open_round (top : card) (g : game) : game :=
  let g := g <| roundNumber := roundNumber g + 1 |> in
  let g := g <| dealerIdx := if Z.ltb (dealerIdx g) 0 then 0
                             else nextIndex (players g) (direction g) (dealerIdx g) 1 |> in
  let g := g <| toActIdx := nextIndex (players g) (direction g) (dealerIdx g) 1 |> <| phase := in_play |> in
  emitEvent StartEvent "" (Some top) (activeColor g) g.

Definition launch (g : game) : bool * game :=
  match topCard g with
  | None => (false, pushState (g <| phase := lobby |>))
  | Some top => (true, pushState (scheduleTurnTimer (checkpoint "round_start" (open_round top g))))
  end.

Definition startGame (g : game) : bool * game :=
  if negb (bool_decide (phase g = lobby)) && negb (bool_decide (phase g = roundOver)) then (false, g)
  else if Nat.ltb (length (players g)) 2 || Nat.ltb (length (activePlayers (players g))) 2 then (false, pushState g)
  else launch (pickStarterCard (deal (empty_hands (restock buildDeck (clear_round g))))).

(** ** Timers *)

(** The callback of [scheduleAutoStart]. *)
Definition auto_start (g : game) : game :=
  let g := clearAutoStartTimer g in if bool_decide (phase g = lobby) then (startGame g).2 else g.

Definition color_name (c : color) : string :=
  match c with Red => "red" | Yellow => "yellow" | Green => "green" | Blue => "blue" | WildColor => "wild" end.

(** The callback of [scheduleTurnTimer]; a timer that has fired is no longer pending. *)
Definition turn_timeout (g : game) : game :=
  let g := clearTurnTimer g in
  match player_at (players g) (toActIdx g) with
  | Some current =>
      if negb (bool_decide (phase g = in_play)) then g
      else if bool_decide (pendingColorChoice g = Some (p_id current))
      then (chooseColor (p_id current) (color_name (default Red (activeColor g))) g).2
      else if Z.ltb 0 (pendingDrawStack g) && negb (casual (cfg g)) then forceDrawStack (p_id current) g
      else (drawCard (p_id current) g).2
  | None => g
  end.

(** ** Messages of the players *)

Definition onWire (from wire : string) (same_game : bool) (body : json) (g : game) : game :=
  if bool_decide (wire = "join") && same_game then
    match find_player from (players g) with
    | Some _ =>
        let g := update_player from (come_back (prop (Some body) "name")) g in
        let g := if bool_decide (phase g = lobby) then scheduleAutoStart g
                 else if bool_decide (phase g = in_play) then scheduleTurnTimer g else g in
        pushState (checkpoint "rejoin" (emit (SendHand from) (emit (SendWire from "join_ok") g)))
    | None =>
        if negb (bool_decide (phase g = lobby)) && negb (bool_decide (phase g = roundOver))
        then emit (SendWire from "join_reject") g
        else if negb (public_lobby (cfg g)) && negb (bool_decide (from = selfId g)) && negb (includes (invitedPeers g) from)
        then emit (SendWire from "join_reject") g
        else
          let '(ok, g) := addPlayer from (prop (Some body) "name") g in
          if ok then emit (SendHand from) (emit (SendWire from "join_ok") g) else emit (SendWire from "join_reject") g
    end
  else if bool_decide (wire = "leave") then dropPlayer from g
  else if bool_decide (wire = "action") && same_game then
    match sanitizeIncomingAction (prop (Some body) "action") with
    | Some a => (applyAction from a g).2
    | None => g
    end
  else g.

(** ** Administration *)

(** A row of a saved game; [online] are the connected peers. *)
Definition restore_row (selfId : string) (seats : Z) (online : list string) (ps : list player) (row : json) : list player :=
  let r := Some row in
  let id := string_or_empty (prop r "peerId") in
  if negb (truthy (prop r "peerId")) || bool_decide (is_Some (find_player id ps)) then ps
  else
    ps ++ [mk_player id (sanitizeName (prop r "name") id)
      (clampInt (to_number (prop r "seat")) 0 (seats - 1) (Z.of_nat (length ps))) [] false
      (clampInt (to_number (prop r "score")) 0 1000000 0)
      (bool_decide (id = selfId) || includes online id)].

(** [createHost] with the settings asked for and the fields of a saved game. *)
Definition createHost (selfId : string) (settings : fields) (saved_settings : Uno.settings)
    (rows : list json) (round : option json) (invited online : list string) (entropy : list (list Z)) : game :=
  let seat_of row := match to_number (prop (Some row) "seat") with Some n => n + 1 | None => 0 end in
  let cfg := sanitizeSettings settings saved_settings (foldr (fun row m => Z.max (seat_of row) m) 2 rows) in
  mk_game selfId cfg (seat_order (foldl (restore_row selfId (maxPlayers cfg) online) [] rows)) lobby 1 None [] []
    (-1) (-1) (clampInt (to_number round) 0 1000000 0) None None None 0 None None None false false invited entropy [].

Definition bootstrapHost (name : option json) (restored : bool) (g : game) : game :=
  let name := if truthy name then name else Some (JStr "Host") in
  checkpoint (if restored then "resumed" else "game_created") (addPlayer (selfId g) name g).2.

Definition updateSettings (patch : fields) (g : game) : game :=
  let seats := foldr (fun p m => Z.max (seat p + 1) m) 2 (players g) in
  let g := g <| cfg := sanitizeSettings patch (cfg g) seats |> in
  let g := if bool_decide (phase g = lobby) then scheduleAutoStart g else g in
  pushState (checkpoint "settings" g).

(** [online]: connected and not blocked. *)
Definition invitePeer (peerId : string) (online : bool) (g : game) : bool * game :=
  if bool_decide (peerId = "") || bool_decide (is_Some (find_player peerId (players g))) || negb online then (false, g)
  else
    (true, pushState (emit (SendInvite peerId)
       (if includes (invitedPeers g) peerId then g else g <| invitedPeers := invitedPeers g ++ [peerId] |>))).

Definition saveNow (g : game) : bool * game :=
  if bool_decide (phase g = in_play) then (false, pushState g) else (true, pushState (checkpoint "manual" g)).

Definition destroy (g : game) : game := clearAutoStartTimer (clearTurnTimer g).

(** ** The events of a table *)

Inductive event :=
| Wire (from wire : string) (same_game : bool) (body : json)
| Act (peerId : string) (a : action)      (** the host's own page *)
| Disconnect (peerId : string)
| Reconnect (peerId : string)
| Remove (peerId : string)
| Kick (peerId : string)
| Start
| TurnTimeout
| AutoStart
| Settings (patch : fields)
| Invite (peerId : string) (online : bool)
| Save.

Definition step (e : event) (g : game) : game :=
  match e with
  | Wire from wire same_game body => onWire from wire same_game body g
  | Act peerId a => (applyAction peerId a g).2
  | Disconnect peerId => handleDisconnect peerId g
  | Reconnect peerId => (reconnectPlayer peerId g).2
  | Remove peerId => dropPlayer peerId g
  | Kick peerId => (kickPlayer peerId g).2
  | Start => (startGame g).2
  | TurnTimeout => if turnTimer g then turn_timeout g else g
  | AutoStart => if startTimer g then auto_start g else g
  | Settings patch => updateSettings patch g
  | Invite peerId online => (invitePeer peerId online g).2
  | Save => (saveNow g).2
  end.

Definition run (es : list event) (g : game) : game := foldl (fun g e => step e g) g es.
