(* ===== verification/UnoFacts.v ===== *)
(** * UNO: what the host guarantees

    No card is ever lost or copied while the players stay, the top of the discard pile only
    changes by a legal card of the player to act, the player to act can always end their
    turn, and a game whose player to act went offline last does not resume. *)

From S2P Require Import Prelude Json Shuffle Uno.

Definition ids (g : game) : list string := map p_id (players g).
Definition hands (ps : list player) : list card := concat (map hand ps).

(** Every card on the table. *)
Definition cards_of (g : game) : list card := drawPile g ++ discardPile g ++ hands (players g).

(** Nothing of the turn has changed. *)
Definition same_turn (g g' : game) : Prop :=
  ids g' = ids g /\ direction g' = direction g /\ phase g' = phase g /\ toActIdx g' = toActIdx g /\
  pendingColorChoice g' = pendingColorChoice g /\ drewCanPass g' = drewCanPass g.

(** The same players, cards and top card. *)
Definition kept (g g' : game) : Prop :=
  ids g' = ids g /\ cards_of g' ≡ₚ cards_of g /\ topCard g' = topCard g /\ cfg g' = cfg g.

#[export] Instance same_turn_preorder : PreOrder same_turn.
Proof. split; [by intros g|]. intros a b c (?&?&?&?&?&?) (?&?&?&?&?&?). repeat split; congruence. Qed.

#[export] Instance kept_preorder : PreOrder kept.
Proof.
  split; [by intros g|]. intros a b c (?&Hb&?&?) (?&Hc&?&?). repeat split; try congruence. by rewrite Hc.
Qed.

Ltac calm := repeat split; try reflexivity.

Lemma emit_calm o g : kept g (emit o g) /\ same_turn g (emit o g).
Proof. done. Qed.

Lemma saved_calm r g : kept g (pushState (checkpoint r g)) /\ same_turn g (pushState (checkpoint r g)).
Proof. done. Qed.

Lemma kept_push g g' : kept g g' -> kept g (pushState g').
Proof. intros H. transitivity g'; [done|]. apply emit_calm. Qed.

(** ** Players *)

Lemma update_seat_ids id f g : (forall p, p_id (f p) = p_id p) -> ids (update_player id f g) = ids g.
Proof.
  intros Hf. unfold ids, update_player. simpl. rewrite map_map. apply map_ext. intros p.
  case_bool_decide; [apply Hf|done].
Qed.

Lemma update_hands id f ps :
  (forall p, hand (f p) = hand p) -> hands (map (fun p => if bool_decide (p_id p = id) then f p else p) ps) = hands ps.
Proof.
  intros Hf. unfold hands. f_equal. rewrite map_map. apply map_ext. intros p. case_bool_decide; [apply Hf|done].
Qed.

(** An update of one player that leaves identity and hand alone. *)
Lemma update_calm id f g :
  (forall p, p_id (f p) = p_id p) -> (forall p, hand (f p) = hand p) ->
  kept g (update_player id f g) /\ same_turn g (update_player id f g).
Proof.
  intros Hi Hh. repeat split; try apply update_seat_ids, Hi; try done.
  unfold cards_of. simpl. by rewrite update_hands.
Qed.

Lemma update_other id f ps :
  id ∉ map p_id ps -> map (fun p => if bool_decide (p_id p = id) then f p else p) ps = ps.
Proof.
  intros Hid. rewrite <- (map_id ps) at 2. apply map_ext_in. intros p Hp%list_elem_of_In. case_bool_decide as E; [|done].
  destruct Hid. apply list_elem_of_fmap. by exists p.
Qed.

(** Changing the hand of one player of the table. *)
Lemma update_hand_perm id f ps p extra rest :
  NoDup (map p_id ps) -> p ∈ ps -> p_id p = id -> extra ++ hand (f p) ≡ₚ rest ++ hand p ->
  extra ++ hands (map (fun p => if bool_decide (p_id p = id) then f p else p) ps) ≡ₚ rest ++ hands ps.
Proof.
  intros Hn Hp <- Hf. induction ps as [|q ps IH]; [by apply elem_of_nil in Hp|]. simpl in Hn.
  apply NoDup_cons in Hn as [Hq Hn]. unfold hands. simpl. fold (hands ps).
  apply elem_of_cons in Hp as [->|Hp].
  - rewrite bool_decide_eq_true_2 by done. rewrite (update_other _ _ _ Hq). fold (hands ps).
    by rewrite !(assoc_L (++)), Hf.
  - rewrite bool_decide_eq_false_2 by (intros E; destruct Hq; rewrite E; apply list_elem_of_fmap; by exists p).
    fold (hands (map (fun q => if bool_decide (p_id q = p_id p) then f q else q) ps)).
    specialize (IH Hn Hp). rewrite !(Permutation_app_comm (hand q)), !(assoc_L (++)), IH. done.
Qed.

Lemma find_seat_spec id ps p : find_player id ps = Some p -> p ∈ ps /\ p_id p = id.
Proof. unfold find_player. intros H%find_some. destruct H as [Hp%list_elem_of_In H]. by bool_cases. Qed.

Lemma seat_index_spec id ps :
  match index_of id ps with
  | Some i => map p_id ps !! i = Some id
  | None => id ∉ map p_id ps
  end.
Proof.
  induction ps as [|p ps IH]; simpl; [apply not_elem_of_nil|]. case_bool_decide as E; simpl; [by rewrite E|].
  destruct (index_of id ps); simpl; [done|]. apply not_elem_of_cons. done.
Qed.

Lemma player_at_id ps i p : player_at ps i = Some p -> map p_id ps !! Z.to_nat i = Some (p_id p).
Proof. unfold player_at. destruct (Z.ltb i 0); [done|]. intros H. by rewrite list_lookup_fmap, H. Qed.

Lemma seat_at_elem ps i p : player_at ps i = Some p -> p ∈ ps.
Proof. unfold player_at. destruct (Z.ltb i 0); [done|]. apply list_elem_of_lookup_2. Qed.

(** ** Drawing cards *)

Lemma shuffle_pile_spec arr g :
  (shuffle_pile arr g).1 ≡ₚ arr /\ exists e, (shuffle_pile arr g).2 = g <| entropy := e |>.
Proof.
  unfold shuffle_pile, next_words. destruct (Nat.ltb _ 2); simpl; split; try apply shuffle_perm; [done|by exists (entropy g); destruct g|].
  by eexists.
Qed.

Lemma ensureDrawPile_calm g : kept g (ensureDrawPile g).2 /\ same_turn g (ensureDrawPile g).2.
Proof.
  unfold ensureDrawPile. destruct (drawPile g) as [|d ds] eqn:Hd; [|done].
  destruct (discardPile g) as [|top [|c rest]] eqn:Hp; [done..|].
  assert (Hs := shuffle_pile_spec (rev (tail (top :: c :: rest))) g).
  destruct (shuffle_pile _ g) as [pile g']. destruct Hs as [Hs [e He]]. simpl in Hs, He. subst g'. calm.
  - unfold cards_of. simpl. rewrite Hd, Hp. simpl. rewrite <- (Permutation_rev pile), Hs.
    rewrite <- (Permutation_rev rest), <- Permutation_middle, <- (assoc_L (++)). simpl.
    by rewrite <- Permutation_middle.
  - unfold topCard. simpl. by rewrite Hp.
Qed.

Lemma give_card id c rest g :
  NoDup (ids g) -> id ∈ ids g -> drawPile g = c :: rest ->
  let g' := update_player id (add_card c) (g <| drawPile := rest |>) in kept g g' /\ same_turn g g'.
Proof.
  intros Hn Hid Hd g'. assert (Hi : ids g' = ids g) by exact (update_seat_ids id (add_card c) (g <| drawPile := rest |>) (fun _ => eq_refl)).
  enough (Hc : cards_of g' ≡ₚ cards_of g) by (split; [split; [exact Hi|done]|split; [exact Hi|done]]).
  apply list_elem_of_fmap in Hid as (p & -> & Hp).
  assert (E : hands (players g') ≡ₚ c :: hands (players g)).
  { apply (update_hand_perm _ _ _ p [] [c] Hn Hp eq_refl). apply (Permutation_app_comm (hand p) [c]). }
  unfold cards_of. rewrite E, Hd. simpl. by rewrite <- !Permutation_middle.
Qed.

Lemma drawCardsFor_calm id n : forall g,
  NoDup (ids g) -> id ∈ ids g -> kept g (drawCardsFor id n g).2 /\ same_turn g (drawCardsFor id n g).2.
Proof.
  induction n as [|n IH]; intros g Hn Hid; [done|]. simpl.
  destruct (ensureDrawPile_calm g) as [Hk Ht]. destruct (ensureDrawPile g) as [ok g1]. simpl in *.
  destruct (negb ok); [done|]. destruct (drawPile g1) as [|c rest] eqn:Hd; [done|].
  rewrite <- (proj1 Hk) in Hn, Hid. destruct (give_card id c rest g1 Hn Hid Hd) as [Hk2 Ht2].
  set (g2 := update_player _ _ _) in *. specialize (IH g2).
  assert (Hi : ids g2 = ids g1) by apply Hk2. rewrite Hi in IH.
  destruct (drawCardsFor id n g2) as [drawn g3]. destruct (IH Hn Hid) as [Hk3 Ht3].
  split; repeat (etransitivity; [eassumption|]); reflexivity.
Qed.

(** ** The turn *)

(** The open choices belong to player [id]. *)
Definition duty (id : string) (g : game) : Prop :=
  (pendingColorChoice g = None \/ pendingColorChoice g = Some id) /\
  (drewCanPass g = None \/ drewCanPass g = Some id).

Definition actor_id (g : game) : option string :=
  if Z.ltb (toActIdx g) 0 then None else ids g !! Z.to_nat (toActIdx g).

Record turn_ok (g : game) : Prop := {
  turn_ids : NoDup (ids g);
  turn_direction : direction g = 1 \/ direction g = -1;
  turn_choice : pendingColorChoice g = None \/ drewCanPass g = None;
  turn_actor : phase g = in_play -> exists id, actor_id g = Some id /\ duty id g
}.

(** No open choice. *)
Definition free (g : game) : Prop := turn_ok g /\ pendingColorChoice g = None /\ drewCanPass g = None.

Lemma same_turn_ok g g' : same_turn g g' -> turn_ok g -> turn_ok g'.
Proof.
  intros (Hi & Hd & Hp & Ha & Hc & Hw) [Hn Hdir Hch Hact].
  split; [by rewrite Hi|by rewrite Hd|by rewrite Hc, Hw|].
  unfold actor_id, duty. rewrite Hi, Hp, Ha, Hc, Hw. exact Hact.
Qed.

Lemma push_turn_ok g : turn_ok g -> turn_ok (pushState g).
Proof. apply same_turn_ok, emit_calm. Qed.

Lemma same_turn_free g g' : same_turn g g' -> free g -> free g'.
Proof. intros H [Ht [Hc Hd]]. split; [by eapply same_turn_ok|]. destruct H as (_&_&_&_&->&->). done. Qed.

Lemma step_index_range n dir i : (dir = 1 \/ dir = -1) -> 0 <= i < n -> 0 <= step_index n dir i < n.
Proof. intros Hd Hi. unfold step_index. apply Z.rem_bound_pos; lia. Qed.

Lemma skip_offline_range ps dir guard : forall i,
  (dir = 1 \/ dir = -1) -> 0 <= i < Z.of_nat (length ps) -> 0 <= skip_offline ps dir guard i < Z.of_nat (length ps).
Proof.
  induction guard as [|guard IH]; intros i Hd Hi; simpl; [done|]. destruct (offline_at ps i); [|done].
  by apply IH, step_index_range.
Qed.

Lemma nextIndex_range ps dir k : forall i,
  (dir = 1 \/ dir = -1) -> 0 <= i < Z.of_nat (length ps) -> 0 <= nextIndex ps dir i k < Z.of_nat (length ps).
Proof.
  induction k as [|k IH]; intros i Hd Hi; destruct ps as [|p ps]; try (simpl in *; lia).
  apply IH; [done|]. by apply skip_offline_range, step_index_range.
Qed.

Lemma actor_range g id : actor_id g = Some id -> 0 <= toActIdx g < Z.of_nat (length (players g)).
Proof.
  unfold actor_id, ids. destruct (Z.ltb_spec (toActIdx g) 0); [done|]. intros Hl%lookup_lt_Some.
  rewrite length_map in Hl. lia.
Qed.

Lemma range_actor g : 0 <= toActIdx g < Z.of_nat (length (players g)) -> exists id, actor_id g = Some id.
Proof.
  intros H. unfold actor_id, ids. destruct (Z.ltb_spec (toActIdx g) 0); [lia|].
  apply lookup_lt_is_Some. rewrite length_map. lia.
Qed.

(** The turn moves to a seat of the table. *)
Lemma move_free i g :
  free g -> (phase g = in_play -> 0 <= i < Z.of_nat (length (players g))) -> free (g <| toActIdx := i |>).
Proof.
  intros [[Hn Hd Hch _] [Hc Hw]] Hi. split; [|done]. split; [done..|]. intros Hp.
  destruct (range_actor (g <| toActIdx := i |>)) as [id Hid]; [exact (Hi Hp)|]. exists id. split; [done|]. by split; left.
Qed.

Lemma free_range g : free g -> phase g = in_play -> 0 <= toActIdx g < Z.of_nat (length (players g)).
Proof. intros [[_ _ _ Ha] _] Hp. destruct (Ha Hp) as (id & Hid & _). by eapply actor_range. Qed.

Lemma advance_free k g : free g -> free (advance k g).
Proof.
  intros Hf. apply move_free; [done|]. intros Hp. apply nextIndex_range; [apply Hf|by apply free_range].
Qed.

Lemma same_length g g' : ids g' = ids g -> length (players g') = length (players g).
Proof. unfold ids. intros H. by rewrite <- (length_map p_id), H, length_map. Qed.

Lemma scheduleTurnTimer_calm g : kept g (scheduleTurnTimer g) /\ same_turn g (scheduleTurnTimer g).
Proof. unfold scheduleTurnTimer. repeat case_match; calm. Qed.

Lemma scheduleAutoStart_calm g : kept g (scheduleAutoStart g) /\ same_turn g (scheduleAutoStart g).
Proof. unfold scheduleAutoStart. repeat case_match; calm. Qed.

(** ** The penalty and the end of a round *)

Lemma checkUnoPenalty_calm id g :
  NoDup (ids g) -> kept g (checkUnoPenalty id g) /\ same_turn g (checkUnoPenalty id g).
Proof.
  intros Hn. unfold checkUnoPenalty. destruct (find_player id (players g)) as [p|] eqn:Hf; [|done].
  destruct (_ || _); [done|]. apply find_seat_spec in Hf as [Hp <-].
  assert (Hid : p_id p ∈ ids g) by (apply list_elem_of_fmap; by exists p).
  destruct (drawCardsFor_calm (p_id p) (Z.to_nat (penaltyCards (cfg g))) g Hn Hid) as [Hk Ht].
  split; (etransitivity; [eassumption|]); calm.
Qed.

Lemma settle_uno_calm id g : NoDup (ids g) -> kept g (settle_uno id g) /\ same_turn g (settle_uno id g).
Proof.
  intros Hn. unfold settle_uno. destruct (pendingUnoPeer g); [|done]. case_bool_decide; [done|].
  by apply checkUnoPenalty_calm.
Qed.

Lemma applyPoints_kept w g :
  let g' := applyPointsForRound w g in
  kept g g' /\ direction g' = direction g /\ pendingColorChoice g' = pendingColorChoice g /\
  drewCanPass g' = drewCanPass g.
Proof.
  unfold applyPointsForRound. destruct (points_mode (cfg g)), (find_player w (players g)) as [p|]; try done.
  set (f := fun q : player => q <| score := _ |>). cbv zeta.
  destruct (update_calm w f g (fun _ => eq_refl) (fun _ => eq_refl)) as [Hk (_ & Hd & _ & _ & Hc & Hw)].
  case_match; (split; [exact Hk|done]).
Qed.

Lemma finishRound_ok w g :
  NoDup (ids g) -> (direction g = 1 \/ direction g = -1) ->
  kept g (finishRound w g) /\ free (finishRound w g) /\ phase (finishRound w g) <> in_play.
Proof.
  intros Hn Hd. unfold finishRound.
  set (g1 := g <| roundWinner := Some w |> <| pendingColorChoice := None |> <| pendingDrawStack := 0 |>
               <| pendingDrawType := None |> <| drewCanPass := None |> <| pendingUnoPeer := None |>).
  destruct (applyPoints_kept w g1) as ((Hi & Hc & Htop & Hcfg) & Hdir & Hpc & Hdc).
  set (g2 := applyPointsForRound w g1) in *.
  set (g3 := checkpoint "round_end" (clearTurnTimer (if bool_decide (phase g2 = matchOver) then g2 else g2 <| phase := roundOver |>))).
  assert (H : kept g2 g3 /\ phase g3 <> in_play /\ direction g3 = direction g2 /\
              pendingColorChoice g3 = pendingColorChoice g2 /\ drewCanPass g3 = drewCanPass g2).
  { unfold g3. case_bool_decide as E; [|done]. simpl. by rewrite E. }
  clearbody g3. clearbody g2. destruct H as (Hk & Hph & Hd3 & Hp3 & Hw3).
  split; [by transitivity g2|]. split; [|done]. split; [|by rewrite Hp3, Hw3]. split; [|by rewrite Hd3, Hdir|by left; rewrite Hp3|done].
  rewrite (proj1 Hk), Hi. done.
Qed.

(** ** The effects of cards *)

Lemma advance_kept k g : kept g (advance k g).
Proof. done. Qed.

Lemma resolveDraw_ok kind g : free g -> kept g (resolveDraw kind g) /\ free (resolveDraw kind g).
Proof.
  intros Hf. unfold resolveDraw. destruct (casual (cfg g)).
  { split; [done|]. apply advance_free. by eapply same_turn_free, Hf. }
  destruct (player_at _ _) as [p|] eqn:Hp; [|done].
  assert (Hid : p_id p ∈ ids g) by (apply list_elem_of_fmap; exists p; split; [done|by eapply seat_at_elem]).
  set (n := Z.to_nat _). set (i := nextIndex (players g) _ _ 1) in *.
  destruct (drawCardsFor_calm (p_id p) n g (turn_ids _ (proj1 Hf)) Hid) as [Hk Ht].
  set (g1 := (drawCardsFor (p_id p) n g).2) in *. clearbody g1.
  split; [by transitivity g1|].
  assert (Hf1 : free g1) by by eapply same_turn_free.
  apply (move_free _ (emitEvent DrawEvent (p_id p) None None g1)); [by eapply same_turn_free, Hf1|].
  intros Hph. change (phase g1 = in_play) in Hph. change (players (emitEvent _ _ _ _ g1)) with (players g1).
  apply nextIndex_range; [apply Hf1|]. rewrite (same_length _ _ (proj1 Hk)).
  apply nextIndex_range; [apply Hf|]. apply free_range; [done|]. destruct Ht as (_ & _ & <- & _). done.
Qed.

Lemma resolveReverse_ok g : free g -> kept g (resolveReverse g) /\ free (resolveReverse g).
Proof.
  intros Hf. unfold resolveReverse, resolveSkip. case_match; (split; [done|]); apply advance_free; [done|].
  destruct Hf as [[Hn Hd Hch Ha] Hp]. split; [|done]. split; [done| |done..]. simpl. lia.
Qed.

Lemma afterCardPlayed_ok id c g : free g ->
  let '(over, g') := afterCardPlayed id c g in kept g g' /\ free g' /\ (over = true -> phase g' <> in_play).
Proof.
  intros Hf. unfold afterCardPlayed. destruct (find_player id (players g)) as [p|]; [|done].
  set (g1 := if Nat.eqb _ 1 then _ else _).
  assert (H1 : kept g g1 /\ same_turn g g1) by (unfold g1; case_match; calm). clearbody g1.
  set (f := fun q : player => q <| saidUno := false |>).
  destruct (update_calm id f g1 (fun _ => eq_refl) (fun _ => eq_refl)) as [Hk2 Ht2].
  set (g2 := update_player id f g1) in *. clearbody g2.
  assert (Hk : kept g g2) by (etransitivity; [apply H1|done]).
  assert (Hf2 : free g2) by (eapply same_turn_free; [exact Ht2|]; eapply same_turn_free; [apply H1|done]).
  assert (Hr : forall g', kept g2 g' /\ free g' -> kept g g' /\ free g' /\ (false = true -> phase g' <> in_play)).
  { intros g' [Hk' Hf']. split; [by transitivity g2|done]. }
  destruct (Nat.eqb _ 0).
  - destruct (finishRound_ok id g2) as (Hk3 & Hf3 & Hp3); [apply Hf2..|]. split; [by transitivity g2|done].
  - destruct (card_value c); apply Hr; try (by split; [|apply advance_free]).
    + by apply resolveReverse_ok.
    + by apply resolveDraw_ok.
Qed.

(** ** Actions *)

(** The rules let the player put this card on the pile now. *)
Definition legal_play (peerId cardId : string) (c : card) (g : game) : Prop :=
  is_turn peerId g = true /\ pendingColorChoice g = None /\
  exists p, find_player peerId (players g) = Some p /\ c ∈ hand p /\ card_id c = cardId /\ may_play c p g = true.

(** The rules of the game as the players know them: a draw card is answered with a draw card
    (house rule), otherwise a card follows the colour or the value of the card on the pile, a
    wild card goes on everything, and the wild draw-four (unless the house rule is on) only
    when no card of the hand has the colour to follow. *)
Definition goes_on (c : card) (cards : list card) (g : game) : Prop :=
  (0 < pendingDrawStack g /\ casual (cfg g) = true /\
   (card_value c = Wild4 \/ card_value c = Draw2 /\ pendingDrawType g = Some DrawTwo)) \/
  (pendingDrawStack g <= 0 /\ exists top, topCard g = Some top /\
   let follow := topEffectiveColor (Some top) (activeColor g) in
   (is_wild c = true /\
      (card_value c = Wild4 -> casual (cfg g) = false ->
       forall x, x ∈ cards -> card_color x <> WildColor -> Some (card_color x) <> follow) \/
    is_wild c = false /\ (Some (card_color c) = follow \/ card_value c = card_value top))).

Lemma no_matching_color cards follow :
  hasMatchingColor cards follow = false ->
  forall x, x ∈ cards -> card_color x <> WildColor -> Some (card_color x) <> follow.
Proof.
  intros H x Hx Hc Heq. subst follow. unfold hasMatchingColor in H.
  assert (Ht : existsb (fun y => bool_decide (card_color y = card_color x)) cards = true).
  { apply existsb_exists. exists x. split; [by apply list_elem_of_In|by apply bool_decide_eq_true_2]. }
  destruct (card_color x); congruence.
Qed.

Lemma may_play_goes_on c p g : may_play c p g = true -> goes_on c (hand p) g.
Proof.
  unfold may_play, canStackDraw, canPlay, goes_on. intros H.
  destruct (Z.ltb_spec 0 (pendingDrawStack g)) as [Hs|Hs].
  - left. split; [done|]. destruct (casual (cfg g)); [|done]. split; [done|]. simpl in H.
    destruct (pendingDrawType g) as [[]|]; bool_cases; auto. done.
  - right. split; [done|]. destruct (topCard g) as [top|]; [|done]. exists top. split; [done|]. cbv zeta.
    destruct (is_wild c).
    + left. split; [done|]. intros Hv Hcas. rewrite Hcas, bool_decide_eq_true_2 in H by done. cbn [andb negb] in H.
      apply negb_true_iff in H. by apply no_matching_color.
    + right. split; [done|]. case_bool_decide as Hcol; [by left|]. right. by apply bool_decide_eq_true_1 in H.
Qed.

(** What every accepted action leaves as it was, and the only way it can change the top card. *)
Definition fair (peerId : string) (a : action) (g g' : game) : Prop :=
  turn_ok g' /\ ids g' = ids g /\ cards_of g' ≡ₚ cards_of g /\
  (topCard g' = topCard g \/
   exists cardId c, a = Play cardId /\ legal_play peerId cardId c g /\ topCard g' = Some c).

Lemma kept_fair id a g g' : turn_ok g' -> kept g g' -> fair id a g g'.
Proof. intros Ht (Hi & Hc & Htop & _). repeat split; try done; try apply Ht. by left. Qed.

Lemma calm_fair id a g g' : turn_ok g -> kept g g' /\ same_turn g g' -> fair id a g g'.
Proof. intros Ht [Hk Hs]. apply kept_fair; [by eapply same_turn_ok|done]. Qed.

Lemma pushed_fair id a g g' : fair id a g g' -> fair id a g (pushState g').
Proof. intros ([Hn Hd Hch Ha] & Hi & Hc & Ht). by split; [split|]. Qed.

Lemma take_card_spec cardId h c rest :
  take_card cardId h = Some (c, rest) -> c ∈ h /\ card_id c = cardId /\ h ≡ₚ c :: rest.
Proof.
  revert c rest. induction h as [|x h IH]; intros c rest; simpl; [done|]. case_bool_decide as E.
  - intros [= -> ->]. split; [by left|done].
  - destruct (take_card cardId h) as [[y rest']|]; [|done]. intros [= -> <-].
    destruct (IH c rest' eq_refl) as (Hc & Hi & Hp). split; [by right|]. split; [done|]. rewrite Hp. apply perm_swap.
Qed.

(** A card moves from a hand to the top of the discard pile. *)
Lemma lay_card id cardId p c rest g :
  NoDup (ids g) -> find_player id (players g) = Some p -> take_card cardId (hand p) = Some (c, rest) ->
  let drop := fun q => match take_card cardId (hand q) with Some (_, rest) => q <| hand := rest |> | None => q end in
  let g' := update_player id drop g in
  ids g' = ids g /\ c :: cards_of g' ≡ₚ cards_of g.
Proof.
  intros Hn Hp Ht drop g'. apply find_seat_spec in Hp as [Hp Hid].
  assert (Hi : forall q, p_id (drop q) = p_id q) by (intros q; unfold drop; by case_match; [case_match|]).
  split; [by apply update_seat_ids|]. unfold cards_of. simpl.
  assert (E : [c] ++ hands (players g') ≡ₚ [] ++ hands (players g)).
  { apply (update_hand_perm id drop (players g) p [c] [] Hn Hp Hid). unfold drop. rewrite Ht. simpl.
    symmetry. by apply (take_card_spec cardId). }
  simpl in E. rewrite <- E. by rewrite <- !Permutation_middle.
Qed.

Lemma is_turn_spec id g :
  is_turn id g = true -> phase g = in_play /\ actor_id g = Some id /\
    index_of id (players g) = Some (Z.to_nat (toActIdx g)) /\ id ∈ ids g.
Proof.
  unfold is_turn. pose proof (seat_index_spec id (players g)) as H. destruct (index_of id (players g)) as [i|]; [|done].
  intros Ht. bool_cases. split; [done|]. unfold actor_id, ids. rewrite (proj2 (Z.ltb_ge _ _)) by lia.
  replace (Z.to_nat (toActIdx g)) with i by lia. split; [done|]. split; [done|]. by eapply list_elem_of_lookup_2.
Qed.

(** What one player draws leaves the others alone. *)
Lemma find_update_other id other f ps :
  other <> id -> (forall p, p_id (f p) = p_id p) ->
  find_player id (map (fun p => if bool_decide (p_id p = other) then f p else p) ps) = find_player id ps.
Proof.
  intros Hne Hf. unfold find_player. induction ps as [|p ps IH]; [done|]. simpl. rewrite IH.
  destruct (decide (p_id p = other)) as [E|E]; [|by rewrite (bool_decide_eq_false_2 _ E)].
  rewrite (bool_decide_eq_true_2 _ E), Hf, E. by rewrite bool_decide_eq_false_2.
Qed.

Lemma drawCardsFor_other id other n : forall g,
  other <> id -> find_player id (players (drawCardsFor other n g).2) = find_player id (players g).
Proof.
  induction n as [|n IH]; intros g Hne; [done|]. simpl.
  assert (He : players (ensureDrawPile g).2 = players g).
  { unfold ensureDrawPile, shuffle_pile, next_words. repeat case_match; simplify_eq/=; done. }
  destruct (ensureDrawPile g) as [ok g1]. simpl in He. rewrite <- He.
  destruct (negb ok); [done|]. destruct (drawPile g1) as [|c rest]; [done|].
  set (g2 := update_player _ _ _). specialize (IH g2 Hne). destruct (drawCardsFor other n g2) as [d g3].
  simpl in *. rewrite IH. by apply find_update_other.
Qed.

Lemma settle_uno_self id g : find_player id (players (settle_uno id g)) = find_player id (players g).
Proof.
  unfold settle_uno. destruct (pendingUnoPeer g) as [o|]; [|done]. case_bool_decide; [done|].
  unfold checkUnoPenalty. destruct (find_player o (players g)); [|done]. destruct (_ || _); [done|].
  by apply drawCardsFor_other.
Qed.

(** Without a colour to choose, forgetting the drawn card leaves no open choice. *)
Lemma forget_draw_free g : turn_ok g -> pendingColorChoice g = None -> free (g <| drewCanPass := None |>).
Proof.
  intros [Hn Hd _ Ha] Hc. split; [|done]. split; [done|done|by left|]. intros Hp. destruct (Ha Hp) as (id & Hid & _).
  exists id. split; [done|]. by split; left.
Qed.

Lemma lay_ok id cardId p c rest g :
  turn_ok g -> pendingColorChoice g = None ->
  find_player id (players g) = Some p -> take_card cardId (hand p) = Some (c, rest) ->
  let g' := lay id cardId c g in
  ids g' = ids g /\ cards_of g' ≡ₚ cards_of g /\ topCard g' = Some c /\ free g' /\ actor_id g' = actor_id g.
Proof.
  intros Hok Hpc Hp Htc. unfold lay.
  destruct (settle_uno_calm id g (turn_ids _ Hok)) as [Hk1 Ht1]. pose proof (settle_uno_self id g) as Hself.
  set (g1 := settle_uno id g) in *. clearbody g1.
  assert (Hf2 : free (g1 <| pendingUnoPeer := None |> <| drewCanPass := None |>)).
  { apply (forget_draw_free (g1 <| pendingUnoPeer := None |>)).
    - by apply (same_turn_ok g1), (same_turn_ok g).
    - destruct Ht1 as (_ & _ & _ & _ & E & _). simpl. congruence. }
  set (g2 := g1 <| pendingUnoPeer := None |> <| drewCanPass := None |>) in *.
  assert (Hp2 : find_player id (players g2) = Some p) by (simpl; congruence).
  destruct (lay_card id cardId p c rest g2 (turn_ids _ (proj1 Hf2)) Hp2 Htc) as [Hi3 Hc3].
  set (drop := fun q : player => _) in *. set (g3 := update_player id drop g2) in *.
  set (g4 := emitEvent PlayEvent id (Some c) None (g3 <| discardPile := c :: discardPile g3 |>)).
  assert (Hi : ids g4 = ids g) by exact (eq_trans Hi3 (proj1 Hk1)).
  split; [exact Hi|]. split; [|split; [done|split]].
  - rewrite <- (proj1 (proj2 Hk1)). change (cards_of g1) with (cards_of g2). rewrite <- Hc3. unfold cards_of. simpl.
    by rewrite <- Permutation_middle.
  - eapply same_turn_free; [|exact Hf2]. split; [exact Hi3|done].
  - destruct Ht1 as (_ & _ & _ & Eto & _). unfold actor_id. rewrite Hi.
    by change (toActIdx g4) with (toActIdx g1); rewrite Eto.
Qed.

(** What follows once the card lies on the pile. *)
Lemma laid_fair id cardId c g g4 :
  legal_play id cardId c g -> ids g4 = ids g -> cards_of g4 ≡ₚ cards_of g -> topCard g4 = Some c ->
  free g4 -> actor_id g4 = Some id ->
  let '(ok, g') :=
    (if is_wild c then (true, pushState (g4 <| pendingColorChoice := Some id |>))
     else let '(over, g5) := afterCardPlayed id c (g4 <| activeColor := Some (card_color c) |>) in
          (true, pushState (if over then g5 else scheduleTurnTimer g5))) in
  (ok = false -> g' = g) /\ fair id (Play cardId) g g'.
Proof.
  intros Hl Hi4 Hc4 Htop4 Hf4 Ha4.
  assert (Hdone : forall g', turn_ok g' -> kept g4 g' -> (true = false -> g' = g) /\ fair id (Play cardId) g g').
  { intros g' Ht (Hi' & Hc' & Htop' & _). split; [done|].
    split; [done|]. split; [congruence|]. split; [by rewrite Hc'|]. right. exists cardId, c.
    split; [done|]. split; [done|]. congruence. }
  destruct (is_wild c).
  - apply Hdone; [|done]. destruct Hf4 as [[Hn Hd _ _] [_ Hw4]]. split; [done|done|by right|]. intros _.
    exists id. split; [exact Ha4|]. by split; [right|left].
  - assert (Hf5 : free (g4 <| activeColor := Some (card_color c) |>)) by by eapply same_turn_free, Hf4.
    pose proof (afterCardPlayed_ok id c _ Hf5) as Ha. destruct (afterCardPlayed id c _) as [over g5].
    destruct Ha as (Hk5 & Hf6 & _). destruct (scheduleTurnTimer_calm g5) as [Hk6 Ht6]. apply Hdone.
    + destruct over; eapply (same_turn_ok g5); try apply Hf6; [done|exact Ht6].
    + transitivity g5; [exact Hk5|]. by destruct over.
Qed.

Lemma playCard_fair id cardId g :
  turn_ok g -> let '(ok, g') := playCard id cardId g in
  (ok = false -> g' = g) /\ fair id (Play cardId) g g'.
Proof.
  intros Hok. unfold playCard.
  assert (Hno : forall g', g' = g -> (false = false -> g' = g) /\ fair id (Play cardId) g g').
  { intros g' ->. split; [done|]. by apply kept_fair. }
  destruct (find_player id (players g)) as [p|] eqn:Hp; [|by apply Hno].
  destruct (negb (is_turn id g) || _) eqn:Hg; [by apply Hno|].
  destruct (take_card cardId (hand p)) as [[c rest]|] eqn:Htc; [|by apply Hno].
  destruct (negb (may_play c p g)) eqn:Hm; [by apply Hno|]. bool_cases.
  assert (Hpc : pendingColorChoice g = None) by (by destruct (pendingColorChoice g) eqn:E; [destruct H0|]).
  destruct (take_card_spec _ _ _ _ Htc) as (Hc & Hcid & _).
  destruct (lay_ok id cardId p c rest g Hok Hpc Hp Htc) as (Hi4 & Hc4 & Htop4 & Hf4 & Ha4).
  destruct (is_turn_spec id g) as (_ & Hact & _); [done|]. apply laid_fair; try done; [|congruence].
  split; [done|]. split; [done|]. by exists p.
Qed.

Lemma chosen_free c g : turn_ok g -> pendingColorChoice g <> None ->
  free (g <| activeColor := Some c |> <| pendingColorChoice := None |>).
Proof.
  intros [Hn Hd Hch Ha] Hc. split; [|by destruct Hch]. split; [done|done|by left|]. intros Hp.
  destruct (Ha Hp) as (id & Hid & Hdut). exists id. split; [exact Hid|]. split; [by left|]. left. by destruct Hch.
Qed.

Lemma after_color_ok id played g :
  free g -> turn_ok (after_color id played g) /\ kept g (after_color id played g).
Proof.
  intros Hf. destruct (resolveDraw_ok DrawFour g Hf) as [Hk Hf'].
  assert (H : forall g1, kept g g1 -> free g1 -> turn_ok (pushState (finishRound id g1)) /\ kept g (pushState (finishRound id g1))).
  { intros g1 Hk1 Hf1. destruct (finishRound_ok id g1) as (Hk2 & Hf2 & _); [apply Hf1..|].
    split; [apply push_turn_ok, Hf2|]. apply kept_push. by transitivity g1. }
  assert (H' : forall g1, kept g g1 -> free g1 -> turn_ok (pushState (scheduleTurnTimer g1)) /\ kept g (pushState (scheduleTurnTimer g1))).
  { intros g1 Hk1 Hf1. destruct (scheduleTurnTimer_calm g1) as [Hk2 Ht2].
    split; [apply push_turn_ok, (same_turn_ok g1 _ Ht2), Hf1|]. apply kept_push. by transitivity g1. }
  unfold after_color. destruct (match find_player id (players g) with Some p => _ | None => _ end).
  - apply H; by destruct (is_wild4 played).
  - apply H'; destruct (is_wild4 played); try done. by apply advance_free.
Qed.

Lemma chooseColor_fair id col g :
  turn_ok g -> let '(ok, g') := chooseColor id col g in
  (ok = false -> g' = g) /\ fair id (ChooseColor col) g g'.
Proof.
  intros Hok. unfold chooseColor.
  assert (Hno : (false = false -> g = g) /\ fair id (ChooseColor col) g g) by (split; [done|by apply kept_fair]).
  destruct (read_color col) as [c|]; [|done]. destruct (negb _) eqn:E; [done|]. bool_cases.
  assert (Hf : free (emitEvent ColorEvent id (topCard g) (Some c)
                       (g <| activeColor := Some c |> <| pendingColorChoice := None |>))).
  { apply (same_turn_free (g <| activeColor := Some c |> <| pendingColorChoice := None |>)); [done|].
    apply chosen_free; [done|]. by rewrite E. }
  destruct (after_color_ok id (topCard g) _ Hf) as [Ht Hk]. split; [done|]. apply kept_fair; [done|].
  refine (transitivity _ Hk). exact (proj1 (emit_calm _ _)).
Qed.

(** The turn passes on after a draw or a pass. *)
Lemma move_on_ok g :
  turn_ok g -> pendingColorChoice g = None ->
  turn_ok (move_on g) /\ kept g (move_on g).
Proof.
  intros Hok Hc. unfold move_on. pose proof (advance_free 1 _ (forget_draw_free g Hok Hc)) as Hf.
  destruct (scheduleTurnTimer_calm (advance 1 (g <| drewCanPass := None |>))) as [Hk Ht].
  split; [apply push_turn_ok, (same_turn_ok _ _ Ht), Hf|]. apply kept_push. refine (transitivity _ Hk). done.
Qed.

Lemma playerIndex_range id g : id ∈ ids g -> 0 <= playerIndex id (players g) < Z.of_nat (length (players g)).
Proof.
  intros Hid. unfold playerIndex. pose proof (seat_index_spec id (players g)) as H.
  destruct (index_of id (players g)); [|done]. apply lookup_lt_Some in H. rewrite length_map in H. lia.
Qed.

Lemma forceDrawStack_ok id g :
  turn_ok g -> pendingColorChoice g = None -> turn_ok (forceDrawStack id g) /\ kept g (forceDrawStack id g).
Proof.
  intros Hok Hc. unfold forceDrawStack. destruct (find_player id (players g)) as [p|] eqn:Hp; [|done].
  destruct (Z.leb _ 0); [done|]. apply find_seat_spec in Hp as [Hp <-].
  assert (Hid : p_id p ∈ ids g) by (apply list_elem_of_fmap; by exists p).
  destruct (drawCardsFor_calm (p_id p) (Z.to_nat (pendingDrawStack g)) g (turn_ids _ Hok) Hid) as [Hk Ht].
  set (g1 := (drawCardsFor (p_id p) (Z.to_nat (pendingDrawStack g)) g).2) in *. cbv zeta.
  set (g2 := emitEvent _ _ _ _ (g1 <| pendingDrawStack := 0 |> <| pendingDrawType := None |> <| drewCanPass := None |>)).
  assert (Hf2 : free g2).
  { apply (same_turn_free (g1 <| drewCanPass := None |>)); [done|]. apply forget_draw_free; [by eapply same_turn_ok|].
    destruct Ht as (_ & _ & _ & _ & -> & _). done. }
  assert (Hk2 : kept g1 g2) by done.
  set (g3 := g2 <| toActIdx := _ |>).
  assert (Hf3 : free g3).
  { apply move_free; [done|]. intros _. apply nextIndex_range; [apply Hf2|]. apply playerIndex_range.
    rewrite (proj1 Hk2), (proj1 Hk). done. }
  destruct (scheduleTurnTimer_calm g3) as [Hk3 Ht3]. split; [apply (same_turn_ok _ _ Ht3), Hf3|].
  transitivity g1; [done|]. transitivity g2; [done|]. refine (transitivity _ Hk3). done.
Qed.

Lemma settle_before_draw_calm id g :
  NoDup (ids g) -> kept g (settle_before_draw id g) /\ same_turn g (settle_before_draw id g).
Proof.
  intros Hn. unfold settle_before_draw. destruct (pendingUnoPeer g) as [o|]; [|done]. case_bool_decide; [done|].
  exact (checkUnoPenalty_calm o g Hn).
Qed.

Lemma after_draw_ok id drawn g :
  turn_ok g -> pendingColorChoice g = None -> actor_id g = Some id ->
  turn_ok (after_draw id drawn g) /\ kept g (after_draw id drawn g).
Proof.
  intros Hok Hc Ha. unfold after_draw. destruct drawn as [|c ds]; [by apply move_on_ok|].
  destruct (find_player id (players g)) as [p|]; [|by apply move_on_ok].
  set (g1 := emitEvent _ _ _ _ g). assert (Hok1 : turn_ok g1) by by apply (same_turn_ok g).
  destruct (canPlay _ _ _ _ _); [|exact (move_on_ok g1 Hok1 Hc)].
  split; [|apply kept_push; done]. apply push_turn_ok. destruct Hok1 as [Hn Hd _ _]. split; [done|done|by left|].
  intros _. exists id. split; [exact Ha|]. by split; [left|right].
Qed.

Lemma calm_actor g g' : same_turn g g' -> actor_id g' = actor_id g.
Proof. intros (Hi & _ & _ & Ha & _). unfold actor_id. by rewrite Hi, Ha. Qed.

Lemma drawCard_fair id g :
  turn_ok g -> ((drawCard id g).1 = false -> (drawCard id g).2 = g) /\ fair id DrawAction g (drawCard id g).2.
Proof.
  intros Hok. unfold drawCard. destruct (negb (is_turn id g) || _) eqn:Hg; [by split; [|apply kept_fair]|]. bool_cases.
  destruct (is_turn_spec id g) as (_ & Ha & _ & Hid); [done|].
  assert (Hc : pendingColorChoice g = None) by (by destruct (pendingColorChoice g) eqn:E; [destruct H0|]).
  destruct (settle_before_draw_calm id g (turn_ids _ Hok)) as [Hk1 Ht1].
  set (g1 := settle_before_draw id g) in *. assert (Hok1 : turn_ok g1) by by eapply same_turn_ok.
  assert (Hc1 : pendingColorChoice g1 = None) by (destruct Ht1 as (_&_&_&_&->&_); done).
  destruct (Z.ltb 0 (pendingDrawStack g1)).
  - split; [done|]. destruct (forceDrawStack_ok id g1 Hok1 Hc1) as [Ht Hk]. apply kept_fair; [by apply push_turn_ok|].
    apply kept_push. by transitivity g1.
  - rewrite <- (proj1 Hk1) in Hid.
    destruct (drawCardsFor_calm id 1 g1 (turn_ids _ Hok1) Hid) as [Hk2 Ht2].
    destruct (drawCardsFor id 1 g1) as [drawn g2]. simpl in Hk2, Ht2.
    destruct (after_draw_ok id drawn g2) as [Ht3 Hk3].
    + by apply (same_turn_ok g1).
    + by destruct Ht2 as (_&_&_&_&->&_).
    + by rewrite (calm_actor _ _ Ht2), (calm_actor _ _ Ht1).
    + split; [done|]. apply kept_fair; [exact Ht3|]. transitivity g1; [done|]. by transitivity g2.
Qed.

Lemma passTurn_fair id g :
  turn_ok g -> ((passTurn id g).1 = false -> (passTurn id g).2 = g) /\ fair id Pass g (passTurn id g).2.
Proof.
  intros Hok. unfold passTurn. destruct (negb _) eqn:E; [by split; [|apply kept_fair]|]. bool_cases.
  assert (Hc : pendingColorChoice g = None) by (destruct (turn_choice _ Hok); congruence).
  pose proof (forget_draw_free g Hok Hc) as [Hok1 _].
  destruct (settle_uno_calm id (g <| drewCanPass := None |>) (turn_ids _ Hok1)) as [Hk1 Ht1].
  set (g1 := settle_uno id _) in *. split; [done|].
  destruct (move_on_ok (g1 <| pendingUnoPeer := None |>)) as [Ht2 Hk2].
  - apply (same_turn_ok g1); [done|]. by eapply same_turn_ok.
  - destruct Ht1 as (_&_&_&_&Hc1&_). exact (eq_trans Hc1 Hc).
  - apply kept_fair; [exact Ht2|]. refine (transitivity _ Hk2). exact Hk1.
Qed.

Lemma callUno_fair id g :
  turn_ok g -> ((callUno id g).1 = false -> (callUno id g).2 = g) /\ fair id CallUno g (callUno id g).2.
Proof.
  intros Hok. unfold callUno. destruct (find_player id (players g)) as [p|]; [|by split; [|apply kept_fair]].
  destruct (negb _); [by split; [|apply kept_fair]|]. split; [done|].
  set (f := fun q : player => q <| saidUno := true |>).
  destruct (update_calm id f g (fun _ => eq_refl) (fun _ => eq_refl)) as [Hk Ht].
  apply pushed_fair, calm_fair; [done|]. by case_bool_decide.
Qed.

Lemma applyAction_fair id a g :
  turn_ok g -> ((applyAction id a g).1 = false -> (applyAction id a g).2 = g) /\ fair id a g (applyAction id a g).2.
Proof.
  intros Hok. destruct a as [cardId|col| | | |].
  - pose proof (playCard_fair id cardId g Hok) as H. simpl. by destruct (playCard id cardId g).
  - pose proof (chooseColor_fair id col g Hok) as H. simpl. by destruct (chooseColor id col g).
  - by apply drawCard_fair.
  - by apply passTurn_fair.
  - by apply callUno_fair.
  - split; [done|]. by apply kept_fair.
Qed.

(** ** Players come and go *)

Lemma hands_perm ps qs : ps ≡ₚ qs -> hands ps ≡ₚ hands qs.
Proof.
  induction 1 as [|p ps qs _ IH|p q ps|ps qs rs _ IH1 _ IH2]; unfold hands in *; simpl; [done| | |by etransitivity].
  - by apply Permutation_app_head.
  - rewrite !(assoc_L (++)). apply Permutation_app_tail, Permutation_app_comm.
Qed.

Lemma ids_of_index id g i : index_of id (players g) = Some i -> exists p, players g !! i = Some p /\ p_id p = id.
Proof.
  intros H. pose proof (seat_index_spec id (players g)) as Hi. rewrite H in Hi.
  apply list_lookup_fmap_Some in Hi as (p & -> & Hp). by exists p.
Qed.

Lemma delete_hands i ps p : ps !! i = Some p -> hand p ++ hands (delete i ps) ≡ₚ hands ps.
Proof. intros H. apply (hands_perm (p :: delete i ps)). symmetry. by apply delete_Permutation. Qed.

(** The index of the turn after the player at [i] of [n] has gone. *)
Definition after_removal (n i : nat) (t : Z) : Z :=
  let t1 := if Z.ltb (Z.of_nat i) t then t - 1 else t in if Z.leb (Z.of_nat (n - 1)) t1 then 0 else t1.

Lemma after_removal_spec {A} i (l : list A) t :
  (i < length l)%nat -> 0 <= t < Z.of_nat (length l) -> (2 <= length l)%nat ->
  exists a, 0 <= after_removal (length l) i t /\
    delete i l !! Z.to_nat (after_removal (length l) i t) = Some a /\
    (t <> Z.of_nat i -> l !! Z.to_nat t = Some a).
Proof.
  intros Hi Ht Hl. unfold after_removal.
  assert (Hd : forall k : nat, (k < length l - 1)%nat -> exists a, (delete i l : list A) !! k = Some a).
  { intros k Hk. apply lookup_lt_is_Some. rewrite length_delete; [lia|]. by apply lookup_lt_is_Some. }
  destruct (Z.ltb_spec (Z.of_nat i) t) as [Hlt|Hge];
    [destruct (Z.leb_spec (Z.of_nat (length l - 1)) (t - 1))|destruct (Z.leb_spec (Z.of_nat (length l - 1)) t)]; try lia.
  - destruct (Hd (Z.to_nat (t - 1))) as [a Ha]; [lia|]. exists a. split; [lia|]. split; [done|]. intros _.
    rewrite list_lookup_delete_ge in Ha by lia. rewrite <- Ha. f_equal. lia.
  - destruct (Hd 0%nat) as [a Ha]; [lia|]. exists a. split; [lia|]. split; [done|]. lia.
  - destruct (Hd (Z.to_nat t)) as [a Ha]; [lia|]. exists a. split; [lia|]. split; [done|]. intros Hne.
    by rewrite list_lookup_delete_lt in Ha by lia.
Qed.

(** The indexes still point at the players they pointed at. *)
Lemma remove_at_spec i p g :
  players g !! i = Some p -> NoDup (ids g) ->
  let g' := remove_at i g in
  hand p ++ cards_of g' ≡ₚ cards_of g /\ NoDup (ids g') /\ topCard g' = topCard g /\
  direction g' = direction g /\ phase g' = phase g /\ pendingColorChoice g' = pendingColorChoice g /\
  drewCanPass g' = drewCanPass g /\ players g' = delete i (players g) /\
  (0 <= toActIdx g < Z.of_nat (length (players g)) -> (2 <= length (players g))%nat ->
   exists a, actor_id g' = Some a /\ (toActIdx g <> Z.of_nat i -> actor_id g = Some a)).
Proof.
  intros Hp Hn g'.
  assert (Hps : players g' = delete i (players g)) by (unfold g', remove_at; repeat case_match; done).
  assert (Hc : hand p ++ cards_of g' ≡ₚ cards_of g).
  { unfold cards_of. rewrite Hps, <- (delete_hands i (players g) p Hp).
    replace (drawPile g') with (drawPile g) by (unfold g', remove_at; repeat case_match; done).
    replace (discardPile g') with (discardPile g) by (unfold g', remove_at; repeat case_match; done).
    rewrite (assoc_L (++) (hand p)), (Permutation_app_comm (hand p)), <- (assoc_L (++)).
    apply Permutation_app_head. rewrite (assoc_L (++) (hand p)), (Permutation_app_comm (hand p)). by rewrite <- (assoc_L (++)). }
  split; [exact Hc|]. split.
  { unfold ids. rewrite Hps. change (NoDup (p_id <$> delete i (players g))). rewrite list_fmap_delete.
    eapply sublist_NoDup, sublist_delete. exact Hn. }
  unfold topCard. do 5 (split; [unfold g', remove_at; repeat case_match; done|]). split; [exact Hps|].
  intros Hr Hlen. assert (Hi : (i < length (players g))%nat) by by eapply lookup_lt_Some.
  assert (Hl : length (delete i (players g)) = (length (players g) - 1)%nat) by (rewrite length_delete by done; lia).
  assert (Hids : ids g' = delete i (ids g)).
  { unfold ids. rewrite Hps. change (p_id <$> delete i (players g) = delete i (p_id <$> players g)).
    by rewrite list_fmap_delete. }
  rewrite <- (length_map p_id) in Hr, Hlen, Hi. fold (ids g) in Hr, Hlen, Hi.
  assert (Ht : toActIdx g' = after_removal (length (ids g)) i (toActIdx g)).
  { unfold after_removal, g', remove_at, ids. rewrite length_map.
    destruct (Z.ltb (Z.of_nat i) (toActIdx g)); simpl; rewrite Hl; repeat case_match; done. }
  unfold actor_id. rewrite Hids, Ht. destruct (after_removal_spec i (ids g) (toActIdx g) Hi Hr Hlen) as (a & H0 & Ha & Hsame).
  exists a. rewrite (proj2 (Z.ltb_ge _ _)) by lia. rewrite (proj2 (Z.ltb_ge _ _)) by lia. done.
Qed.

(** The choices left after those of one player are dropped. *)
Lemma keep_choice (o : option string) id :
  (if bool_decide (o = Some id) then None else o) = None \/ (if bool_decide (o = Some id) then None else o) = o.
Proof. case_bool_decide; [by left|by right]. Qed.

Lemma forget_choices_kept id g : kept g (forget_choices id g) /\ actor_id (forget_choices id g) = actor_id g.
Proof. done. Qed.

Lemma active_length ps : (length (activePlayers ps) <= length ps)%nat.
Proof. unfold activePlayers. induction ps as [|p ps IH]; simpl; [lia|]. destruct (connected p); simpl; lia. Qed.

(** What remains of the turn when the player at [i] is gone and their choices are dropped. *)
Lemma removed_ok id i p g :
  turn_ok g -> index_of id (players g) = Some i -> players g !! i = Some p ->
  let g2 := forget_choices id (remove_at i g) in
  hand p ++ cards_of g2 ≡ₚ cards_of g /\ topCard g2 = topCard g /\ phase g2 = phase g /\ direction g2 = direction g /\
  NoDup (ids g2) /\ (pendingColorChoice g2 = None \/ drewCanPass g2 = None) /\
  (phase g = in_play -> (2 <= length (players g2))%nat ->
   turn_ok g2 /\ (toActIdx g = Z.of_nat i -> free g2)).
Proof.
  intros Hok Hi Hp g2. destruct (remove_at_spec i p g Hp (turn_ids _ Hok)) as (Hc & Hn & Htop & Hd & Hph & Hpc & Hw & Hps & Ha).
  set (g1 := remove_at i g) in *. destruct (forget_choices_kept id g1) as ((Hik & Hck & Htopk & _) & Hak).
  fold g2 in Hik, Hck, Htopk, Hak.
  assert (Hch : pendingColorChoice g2 = None \/ drewCanPass g2 = None).
  { unfold g2. simpl. rewrite Hpc, Hw. destruct (turn_choice _ Hok) as [-> | ->]; [left|right]; done. }
  split; [exact Hc|]. split; [exact Htop|]. split; [exact Hph|]. split; [exact Hd|]. split; [by rewrite Hik|]. split; [exact Hch|].
  intros Hpl Hlen. destruct (turn_actor _ Hok Hpl) as (a & Haa & Hdut & Hdw).
  assert (Hl : length (players g2) = (length (players g) - 1)%nat).
  { change (players g2) with (players g1). rewrite Hps. apply length_delete. by eexists. }
  destruct (Ha (actor_range g a Haa)) as (b & Hb & Hsame); [lia|].
  assert (Hdir : direction g2 = 1 \/ direction g2 = -1) by (change (direction g2) with (direction g1); rewrite Hd; apply Hok).
  assert (Hdrop : forall o, o = None \/ o = Some a -> toActIdx g = Z.of_nat i -> (if bool_decide (o = Some id) then None else o) = None).
  { intros o Ho Ht. assert (a = id) as ->.
    { pose proof (seat_index_spec id (players g)) as Hx. rewrite Hi in Hx. revert Haa. unfold actor_id, ids. rewrite Ht.
      rewrite (proj2 (Z.ltb_ge _ _)), Nat2Z.id by lia. congruence. }
    destruct Ho as [-> | ->]; [done|]. by rewrite bool_decide_eq_true_2. }
  assert (Hfree : toActIdx g = Z.of_nat i -> pendingColorChoice g2 = None /\ drewCanPass g2 = None).
  { intros Ht. unfold g2. simpl. rewrite Hpc, Hw. split; by apply Hdrop. }
  assert (Hok2 : turn_ok g2).
  { split; [by rewrite Hik|done|done|]. intros _. exists b. split; [congruence|].
    destruct (decide (toActIdx g = Z.of_nat i)) as [E|E]; [destruct (Hfree E) as [Ec Ew]; unfold duty; rewrite Ec, Ew; by split; left|].
    assert (a = b) as <- by (pose proof (Hsame E); congruence). unfold duty, g2. simpl. rewrite Hpc, Hw.
    destruct (keep_choice (pendingColorChoice g) id) as [-> | ->], (keep_choice (drewCanPass g) id) as [-> | ->]; auto. }
  split; [done|]. intros E. split; [done|]. by apply Hfree.
Qed.

Lemma after_drop_ok was g :
  NoDup (ids g) -> (direction g = 1 \/ direction g = -1) -> (pendingColorChoice g = None \/ drewCanPass g = None) ->
  (phase g = in_play -> (2 <= length (players g))%nat -> turn_ok g /\ (was = true -> free g)) ->
  turn_ok (after_drop was g) /\ kept g (after_drop was g).
Proof.
  intros Hn Hd Hch Ht. unfold after_drop. case_bool_decide as Epl; cbn [andb]; [|by split; [split|]].
  destruct (Nat.ltb_spec (length (activePlayers (players g))) 2) as [Hlt|Hge]; [by split; [split|]|].
  pose proof (active_length (players g)). destruct (Ht Epl) as [Hok Hf]; [lia|]. destruct was; [|done].
  assert (Hf3 : free (if offline_at (players g) (toActIdx g) then advance 1 g else g)).
  { case_match; [apply advance_free|]; by apply Hf. }
  assert (Hk3 : kept g (if offline_at (players g) (toActIdx g) then advance 1 g else g)) by by case_match.
  destruct (scheduleTurnTimer_calm (if offline_at (players g) (toActIdx g) then advance 1 g else g)) as [Hk4 Ht4].
  split; [by eapply same_turn_ok, Hf3|]. by etransitivity.
Qed.

Lemma dropPlayer_ok id g :
  turn_ok g ->
  let g' := dropPlayer id g in
  turn_ok g' /\ topCard g' = topCard g /\ exists lost, lost ++ cards_of g' ≡ₚ cards_of g.
Proof.
  intros Hok g'. unfold g', dropPlayer. destruct (index_of id (players g)) as [i|] eqn:Hi; [|by split; [|split; [|exists []]]].
  case_bool_decide; [by split; [|split; [|exists []]]|].
  destruct (ids_of_index id g i Hi) as (p & Hp & _).
  destruct (removed_ok id i p g Hok Hi Hp) as (Hc & Htop & Hph & Hd & Hn & Hch & Hturn). cbv zeta.
  destruct (after_drop_ok (Z.eqb (Z.of_nat i) (toActIdx g)) (forget_choices id (remove_at i g))) as [Hok3 Hk3]; [done|
    rewrite Hd; apply Hok|done| |].
  { intros Hpl Hlen. destruct Hturn as [Hok2 Hf2]; [congruence|done|]. split; [done|]. intros E. apply Hf2. bool_cases. done. }
  destruct (saved_calm "leave" (after_drop (Z.eqb (Z.of_nat i) (toActIdx g)) (forget_choices id (remove_at i g)))) as [Hk4 Ht4].
  split; [by eapply same_turn_ok|]. destruct (transitivity Hk3 Hk4) as (_ & Hc4 & Htop4 & _).
  split; [by rewrite Htop4|]. exists (hand p). rewrite <- Hc. by apply Permutation_app_head.
Qed.

(** ** A player goes offline and comes back *)

Lemma forget_draw_turn id g :
  drewCanPass g = None \/ drewCanPass g = Some id -> same_turn (g <| drewCanPass := None |>) (forget_draw id g).
Proof. intros H. unfold same_turn, forget_draw. simpl. repeat split. by destruct H as [-> | ->]; [|rewrite bool_decide_eq_true_2]. Qed.

Lemma forget_draw_ok id g : turn_ok g -> turn_ok (forget_draw id g).
Proof.
  intros [Hn Hd Hch Ha]. destruct (keep_choice (drewCanPass g) id) as [E|E]; unfold forget_draw; rewrite E.
  - split; [done|done|by right|]. intros Hp. destruct (Ha Hp) as (a & Haa & Hc & _). exists a. split; [done|]. by split; [|left].
  - by split.
Qed.

Lemma settled_ok id i g :
  turn_ok g -> phase g = in_play -> index_of id (players g) = Some i ->
  turn_ok (forget_draw id (settle_obligations id i g)) /\ kept g (settle_obligations id i g).
Proof.
  intros Hok Hp Hi. unfold settle_obligations. case_bool_decide as Ec.
  - pose proof (chosen_free (default Red (activeColor g)) g Hok) as Hf. rewrite Ec in Hf. specialize (Hf ltac:(done)).
    set (g1 := g <| pendingColorChoice := None |> <| activeColor := _ |>).
    assert (Hf1 : free g1) by exact Hf. cbv zeta.
    destruct (_ && _).
    + destruct (resolveDraw_ok DrawFour g1 Hf1) as [Hk [Hok2 _]]. split; [by apply forget_draw_ok|exact Hk].
    + split; [apply forget_draw_ok, (advance_free 1 g1 Hf1)|done].
  - destruct (Z.eqb_spec (Z.of_nat i) (toActIdx g)) as [Et|_]; [|split; [by apply forget_draw_ok|done]].
    destruct (turn_actor _ Hok Hp) as (a & Haa & Hc & Hw).
    assert (a = id) as ->.
    { pose proof (seat_index_spec id (players g)) as Hx. rewrite Hi in Hx. revert Haa. unfold actor_id, ids. rewrite <- Et.
      rewrite (proj2 (Z.ltb_ge _ _)), Nat2Z.id by lia. congruence. }
    assert (Hc0 : pendingColorChoice g = None) by (destruct Hc; congruence).
    set (g1 := g <| pendingDrawStack := 0 |> <| pendingDrawType := None |>). cbv zeta.
    assert (Hf1 : free (g1 <| drewCanPass := None |>)) by by apply forget_draw_free; [apply (same_turn_ok g)|].
    split; [|by case_match].
    assert (Hf2 : free ((if Nat.leb 2 (length (activePlayers (players g1))) then advance 1 g1 else g1) <| drewCanPass := None |>)).
    { case_match; [exact (advance_free 1 _ Hf1)|exact Hf1]. }
    eapply same_turn_ok; [|exact (proj1 Hf2)]. apply forget_draw_turn. by case_match.
Qed.

Lemma offline_calm id c g : let g' := update_player id (fun p => p <| connected := c |>) g in kept g g' /\ same_turn g g'.
Proof. by apply update_calm. Qed.

Lemma index_of_ids id ps qs : map p_id ps = map p_id qs -> index_of id ps = index_of id qs.
Proof.
  revert qs. induction ps as [|p ps IH]; intros [|q qs] H; simplify_eq/=; [done|].
  replace (p_id q) with (p_id p) by congruence. by rewrite (IH qs) by congruence.
Qed.

Lemma wait_or_run_calm g : kept g (wait_or_run g) /\ same_turn g (wait_or_run g).
Proof. unfold wait_or_run. case_match; [done|apply scheduleTurnTimer_calm]. Qed.

Lemma forget_draw_kept id g : kept g (forget_draw id g).
Proof. done. Qed.

(** An event loses at most the cards of one hand. *)
Definition shrinks (g g' : game) : Prop :=
  turn_ok g' /\ topCard g' = topCard g /\ exists lost, lost ++ cards_of g' ≡ₚ cards_of g.

Lemma kept_shrinks g g' : turn_ok g' -> kept g g' -> shrinks g g'.
Proof. intros Ht (_ & Hc & Htop & _). split; [done|]. split; [done|]. by exists []. Qed.

Lemma handleDisconnect_ok id g :
  turn_ok g -> shrinks g (handleDisconnect id g) /\ (phase g = in_play -> kept g (handleDisconnect id g)).
Proof.
  intros Hok. unfold handleDisconnect.
  assert (Hsame : shrinks g g /\ (phase g = in_play -> kept g g)) by (split; [by apply kept_shrinks|done]).
  case_bool_decide; [done|]. destruct (index_of id (players g)) as [i|] eqn:Hi; [|done].
  destruct (find_player id (players g)) as [p|]; [|done]. case_bool_decide as Hp; cbn [negb].
  2: { split; [by apply dropPlayer_ok|]. done. }
  destruct (negb (connected p)); [done|].
  destruct (offline_calm id false g) as [Hk1 Ht1]. set (g1 := update_player _ _ g) in *. cbv zeta.
  assert (Hi1 : index_of id (players g1) = Some i).
  { rewrite <- Hi. apply index_of_ids. exact (proj1 Hk1). }
  destruct (settled_ok id i g1) as [Hok2 Hk2]; [by eapply same_turn_ok|by destruct Ht1 as (_&_&->&_)|done|].
  pose proof (forget_draw_kept id (settle_obligations id i g1)) as Hk3.
  destruct (wait_or_run_calm (forget_draw id (settle_obligations id i g1))) as [Hk4 Ht4].
  destruct (saved_calm "disconnect" (wait_or_run (forget_draw id (settle_obligations id i g1)))) as [Hk5 Ht5].
  assert (Hk : kept g (pushState (checkpoint "disconnect" (wait_or_run (forget_draw id (settle_obligations id i g1)))))).
  { repeat (etransitivity; [eassumption|]). done. }
  split; [|done]. apply kept_shrinks; [|done]. exact (same_turn_ok _ _ Ht5 (same_turn_ok _ _ Ht4 Hok2)).
Qed.

Lemma reconnectPlayer_calm id g : kept g (reconnectPlayer id g).2 /\ same_turn g (reconnectPlayer id g).2.
Proof.
  unfold reconnectPlayer. destruct (_ || _); [done|]. destruct (offline_calm id true g) as [Hk1 Ht1].
  set (g1 := update_player _ _ g) in *. cbv zeta.
  set (g2 := emit (SendHand id) (emit (SendWire id "state") g1)).
  assert (H2 : kept g1 g2 /\ same_turn g1 g2) by done.
  assert (H3 : kept g2 (if bool_decide (phase g2 = in_play) then scheduleTurnTimer g2 else g2) /\
               same_turn g2 (if bool_decide (phase g2 = in_play) then scheduleTurnTimer g2 else g2)).
  { case_bool_decide; [apply scheduleTurnTimer_calm|done]. }
  destruct (saved_calm "reconnect" (if bool_decide (phase g2 = in_play) then scheduleTurnTimer g2 else g2)) as [Hk4 Ht4].
  destruct H2, H3. split; (etransitivity; [|eassumption]); (etransitivity; [|eassumption]); by transitivity g1.
Qed.

Lemma kickPlayer_ok id g : turn_ok g -> shrinks g (kickPlayer id g).2.
Proof.
  intros Hok. unfold kickPlayer. destruct (_ || _); [by apply kept_shrinks|]. cbn [snd].
  destruct (dropPlayer_ok id (emit (SendWire id "kicked") g)) as (Ht & Htop & lost & Hl); [by apply (same_turn_ok g)|].
  destruct (saved_calm "kick" (dropPlayer id (emit (SendWire id "kicked") g))) as [(_ & Hc4 & Htop4 & _) Ht4].
  split; [exact (same_turn_ok _ _ Ht4 Ht)|]. split; [exact (eq_trans Htop4 Htop)|]. exists lost. rewrite Hc4. exact Hl.
Qed.

(** ** New players, settings and saves *)

Lemma rejoin_calm id name g : kept g (update_player id (come_back name) g) /\ same_turn g (update_player id (come_back name) g).
Proof. by apply update_calm. Qed.

(** A new player has no cards and takes no part in a running round. *)
Lemma addPlayer_ok id name g :
  turn_ok g -> phase g <> in_play \/ id ∈ ids g ->
  turn_ok (addPlayer id name g).2 /\ topCard (addPlayer id name g).2 = topCard g /\
  cards_of (addPlayer id name g).2 ≡ₚ cards_of g.
Proof.
  intros Hok Hwhen. unfold addPlayer. destruct (find_player id (players g)) as [p|] eqn:Hf; cbn [snd].
  { destruct (rejoin_calm id name g) as [Hk Ht]. set (g1 := update_player _ _ g) in *.
    split; [by apply push_turn_ok, (same_turn_ok g)|]. split; [apply Hk|apply Hk]. }
  assert (Hnew : id ∉ ids g).
  { intros (p & -> & Hp)%list_elem_of_fmap. apply list_elem_of_In in Hp.
    pose proof (find_none _ _ Hf p Hp) as H. simpl in H. bool_cases. done. }
  destruct (Z.leb _ _); [done|]. destruct (findSeat g) as [s|]; [|done]. cbn [snd].
  destruct Hwhen as [Hp|]; [|done]. set (newp := mk_player id _ s [] false 0 true).
  assert (Hperm : seat_order (players g ++ [newp]) ≡ₚ newp :: players g).
  { unfold seat_order. rewrite sort_by_perm. by rewrite Permutation_app_comm. }
  set (g1 := g <| players := seat_order (players g ++ [newp]) |>).
  assert (Hok1 : turn_ok g1).
  { destruct Hok as [Hn Hd Hch _]. split; [|done|done|done]. unfold ids, g1. simpl. rewrite Hperm. simpl.
    by apply NoDup_cons. }
  assert (Hc1 : cards_of g1 ≡ₚ cards_of g).
  { unfold cards_of, g1. simpl. do 2 apply Permutation_app_head. by rewrite (hands_perm _ _ Hperm). }
  assert (H2 : kept g1 (if bool_decide (phase g1 = lobby) then scheduleAutoStart g1 else g1) /\
               same_turn g1 (if bool_decide (phase g1 = lobby) then scheduleAutoStart g1 else g1)).
  { case_bool_decide; [apply scheduleAutoStart_calm|done]. }
  destruct H2 as [(_ & Hc2 & Htop2 & _) Ht2].
  destruct (saved_calm "join" (if bool_decide (phase g1 = lobby) then scheduleAutoStart g1 else g1)) as [(_ & Hc3 & Htop3 & _) Ht3].
  split; [exact (same_turn_ok _ _ Ht3 (same_turn_ok _ _ Ht2 Hok1))|].
  split; [exact (eq_trans Htop3 Htop2)|]. by rewrite Hc3, Hc2.
Qed.

Lemma updateSettings_calm patch g :
  ids (updateSettings patch g) = ids g /\ cards_of (updateSettings patch g) ≡ₚ cards_of g /\
  topCard (updateSettings patch g) = topCard g /\ same_turn g (updateSettings patch g).
Proof.
  unfold updateSettings. cbv zeta.
  set (g1 := g <| cfg := _ |>).
  assert (H1 : ids g1 = ids g /\ cards_of g1 = cards_of g /\ topCard g1 = topCard g /\ same_turn g g1) by done.
  destruct H1 as (Hi1 & Hc1 & Htop1 & Ht1).
  assert (H2 : kept g1 (if bool_decide (phase g1 = lobby) then scheduleAutoStart g1 else g1) /\
               same_turn g1 (if bool_decide (phase g1 = lobby) then scheduleAutoStart g1 else g1)).
  { case_bool_decide; [apply scheduleAutoStart_calm|done]. }
  destruct H2 as [Hk2 Ht2].
  destruct (saved_calm "settings" (if bool_decide (phase g1 = lobby) then scheduleAutoStart g1 else g1)) as [Hk3 Ht3].
  destruct (transitivity Hk2 Hk3) as (Hi & Hc & Htop & _).
  split; [congruence|]. split; [by rewrite Hc, Hc1|]. split; [congruence|]. transitivity g1; [done|]. by etransitivity.
Qed.

(** ** A new round *)

Lemma restock_spec arr g :
  let g' := restock arr g in
  same_turn g g' /\ players g' = players g /\ discardPile g' = discardPile g /\ drawPile g' ≡ₚ arr /\ dealerIdx g' = dealerIdx g.
Proof.
  unfold restock. destruct (shuffle_pile_spec arr g) as [Hs [e He]]. destruct (shuffle_pile arr g) as [pile g1].
  simpl in Hs, He. subst g1. split; [done|]. split; [done|]. split; [done|]. split; [|done]. simpl. by rewrite <- Permutation_rev.
Qed.

Lemma pick_starter_spec pile : forall skipped,
  match pick_starter pile skipped with
  | (Some (c, rest), skipped') => skipped' ++ c :: rest ≡ₚ skipped ++ pile
  | (None, skipped') => skipped' = skipped ++ pile
  end.
Proof.
  induction pile as [|c pile IH]; intros sk; simpl; [by rewrite app_nil_r|].
  destruct (isSpecialStartCard c); [|done]. specialize (IH (sk ++ [c])). by rewrite <- (assoc_L (++)) in IH.
Qed.

(** The starter card moves to the discard pile, and the skipped cards back into the deck. *)
Lemma pickStarterCard_spec g :
  let g' := pickStarterCard g in
  same_turn g g' /\ players g' = players g /\ drawPile g' ++ discardPile g' ≡ₚ drawPile g ++ discardPile g /\
  dealerIdx g' = dealerIdx g.
Proof.
  unfold pickStarterCard. pose proof (pick_starter_spec (drawPile g) []) as Hp. simpl in Hp.
  destruct (pick_starter (drawPile g) []) as [[[c rest]|] skipped].
  - set (g1 := g <| drawPile := rest |> <| discardPile := c :: discardPile g |> <| activeColor := Some (card_color c) |>). cbv zeta.
    destruct skipped as [|s skipped].
    { split; [done|]. split; [done|]. split; [|done]. rewrite <- Hp. simpl. by rewrite <- Permutation_middle. }
    destruct (restock_spec (rev rest ++ s :: skipped) g1) as (Ht & Hps & Hd & Hdr & Hde).
    split; [transitivity g1; [done|exact Ht]|]. split; [exact Hps|]. split; [|exact Hde].
    rewrite Hd, Hdr, <- Hp, <- Permutation_rev. simpl. rewrite <- !(assoc_L (++)). simpl.
    rewrite (Permutation_app_comm rest). simpl. rewrite <- !(assoc_L (++)), <- !Permutation_middle. simpl.
    rewrite <- !Permutation_middle. do 2 constructor. apply Permutation_app_head, Permutation_app_comm.
  - destruct skipped as [|c others].
    { split; [done|]. split; [done|]. split; [|done]. by rewrite <- Hp. }
    set (g1 := g <| discardPile := c :: discardPile g |>).
    assert (H : exists g2, (let '(words, g) := if is_wild c then next_words g1 else ([], g1) in
        restock others (g <| activeColor := if is_wild c then COLORS !! Z.to_nat (Z.rem (nth 0 words 0) 4) else Some (card_color c) |>))
        = restock others g2 /\ same_turn g1 g2 /\ players g2 = players g1 /\ discardPile g2 = discardPile g1 /\ dealerIdx g2 = dealerIdx g1).
    { unfold next_words. destruct (is_wild c); eexists; (split; [reflexivity|]); done. }
    cbv zeta. destruct H as (g2 & -> & Ht2 & Hps2 & Hd2 & Hde2).
    destruct (restock_spec others g2) as (Ht & Hps & Hd & Hdr & Hde).
    split; [transitivity g1; [done|by transitivity g2]|]. split; [by rewrite Hps, Hps2|]. split; [|by rewrite Hde, Hde2].
    rewrite Hd, Hd2, Hdr, <- Hp. simpl. by rewrite <- Permutation_middle.
Qed.

Lemma deal_calm g : NoDup (ids g) -> kept g (deal g) /\ same_turn g (deal g).
Proof.
  intros Hn. unfold deal.
  assert (H : forall ps g1, (forall p, p ∈ ps -> p_id p ∈ ids g1) -> NoDup (ids g1) ->
    kept g1 (foldl (fun g p => (drawCardsFor (p_id p) 7 g).2) g1 ps) /\ same_turn g1 (foldl (fun g p => (drawCardsFor (p_id p) 7 g).2) g1 ps)).
  { induction ps as [|p ps IH]; intros g1 Hin Hn1; [done|]. cbn [foldl].
    destruct (drawCardsFor_calm (p_id p) 7 g1 Hn1) as [Hk Ht]; [apply Hin; by left|].
    destruct (IH (drawCardsFor (p_id p) 7 g1).2) as [Hk2 Ht2].
    - intros q Hq. rewrite (proj1 Hk). apply Hin. by right.
    - by rewrite (proj1 Hk).
    - split; by etransitivity. }
  apply H; [|done]. intros p Hp. apply list_elem_of_fmap. by exists p.
Qed.

Lemma step_index_in n dir i : 0 < n -> 0 <= i -> (dir = 1 \/ dir = -1) -> 0 <= step_index n dir i < n.
Proof. intros. unfold step_index. apply Z.rem_bound_pos; lia. Qed.

Lemma nextIndex_in ps dir i : ps <> [] -> 0 <= i -> (dir = 1 \/ dir = -1) -> 0 <= nextIndex ps dir i 1 < Z.of_nat (length ps).
Proof.
  intros Hne Hi Hd. destruct ps as [|p ps]; [done|]. apply skip_offline_range; [done|]. apply step_index_in; [simpl; lia|done|done].
Qed.

(** The round opens on a seat of the table. *)
Lemma open_round_ok top g :
  NoDup (ids g) -> players g <> [] -> direction g = 1 -> pendingColorChoice g = None -> drewCanPass g = None ->
  turn_ok (open_round top g) /\ kept g (open_round top g) /\ phase (open_round top g) = in_play.
Proof.
  intros Hn Hne Hd Hc Hw. split; [|done].
  set (d := if Z.ltb (dealerIdx g) 0 then 0 else nextIndex (players g) (direction g) (dealerIdx g) 1).
  assert (Hdl : 0 <= d).
  { unfold d. destruct (Z.ltb_spec (dealerIdx g) 0); [lia|]. by apply nextIndex_in; [| |left]. }
  assert (Hi : 0 <= nextIndex (players g) (direction g) d 1 < Z.of_nat (length (players g))) by by apply nextIndex_in; [| |left].
  split; [done|by left|by left|]. intros _. destruct (range_actor (open_round top g)) as [id Hid]; [exact Hi|].
  exists id. split; [done|]. by split; left.
Qed.

Lemma empty_hands_spec g :
  same_turn g (empty_hands g) /\ cards_of (empty_hands g) = drawPile g ++ discardPile g.
Proof.
  assert (Hi : ids (empty_hands g) = ids g).
  { unfold ids, empty_hands. simpl. rewrite map_map. by apply map_ext. }
  split; [split; [exact Hi|done]|]. unfold cards_of. change (drawPile (empty_hands g)) with (drawPile g).
  change (discardPile (empty_hands g)) with (discardPile g).
  enough (E : hands (players (empty_hands g)) = []) by (by rewrite E, app_nil_r).
  unfold hands, empty_hands. simpl. induction (players g) as [|p ps IH]; [done|]. exact IH.
Qed.

(** All the cards of a shuffled deck are dealt, on the discard pile or still in the deck. *)
Lemma deal_round_ok deck g :
  NoDup (ids g) -> drawPile g ≡ₚ deck -> discardPile g = [] ->
  let g' := pickStarterCard (deal (empty_hands g)) in same_turn g g' /\ cards_of g' ≡ₚ deck.
Proof.
  intros Hn Hdr Hdis. destruct (empty_hands_spec g) as [Ht2 Hc2].
  destruct (deal_calm (empty_hands g)) as [Hk3 Ht3]; [by rewrite (proj1 Ht2)|].
  destruct (pickStarterCard_spec (deal (empty_hands g))) as (Ht4 & Hps4 & Hc4 & _).
  split; [repeat (etransitivity; [eassumption|]); done|].
  unfold cards_of. rewrite Hps4, (assoc_L (++)), Hc4, <- (assoc_L (++)). fold (cards_of (deal (empty_hands g))).
  by rewrite (proj1 (proj2 Hk3)), Hc2, Hdis, app_nil_r.
Qed.

Lemma launch_ok g :
  NoDup (ids g) -> players g <> [] -> direction g = 1 -> pendingColorChoice g = None -> drewCanPass g = None ->
  turn_ok (launch g).2 /\ kept g (launch g).2.
Proof.
  intros Hn Hne Hd Hc Hw. unfold launch. destruct (topCard g) as [top|]; cbn [snd].
  - destruct (open_round_ok top g Hn Hne Hd Hc Hw) as (Hok & Hk & _).
    destruct (emit_calm (Checkpoint "round_start") (open_round top g)) as [Hk2 Ht2].
    destruct (scheduleTurnTimer_calm (checkpoint "round_start" (open_round top g))) as [Hk3 Ht3].
    split; [exact (push_turn_ok _ (same_turn_ok _ _ Ht3 (same_turn_ok _ _ Ht2 Hok)))|].
    apply kept_push. repeat (etransitivity; [eassumption|]). done.
  - split; [|done]. split; [done|by left|by left|done].
Qed.

(** Starting a round, or refusing to. *)
Lemma startGame_ok g :
  turn_ok g ->
  turn_ok (startGame g).2 /\ ids (startGame g).2 = ids g /\
  (kept g (startGame g).2 \/ cards_of (startGame g).2 ≡ₚ buildDeck).
Proof.
  intros Hok. unfold startGame. destruct (_ && _); [by split; [|split; [|left]]|].
  destruct (_ || _) eqn:Hlen; [split; [by apply push_turn_ok|]; split; [done|]; by left|]. bool_cases.
  destruct (restock_spec buildDeck (clear_round g)) as ((Hi1 & Hd1 & Hp1 & _ & Hc1 & Hw1) & _ & Hdis1 & Hdr1 & _).
  destruct (deal_round_ok buildDeck (restock buildDeck (clear_round g))) as ((Hi & Hd & Hp & _ & Hc & Hw) & Hcards);
    [rewrite Hi1; apply Hok|exact Hdr1|exact Hdis1|].
  set (g4 := pickStarterCard (deal (empty_hands (restock buildDeck (clear_round g))))) in *. clearbody g4.
  assert (Hi4 : ids g4 = ids g) by exact (eq_trans Hi Hi1).
  destruct (launch_ok g4) as [Hok5 (Hi5 & Hc5 & _)];
    [rewrite Hi4; apply Hok| |exact (eq_trans Hd Hd1)|exact (eq_trans Hc Hc1)|exact (eq_trans Hw Hw1)|].
  { intros E. pose proof (same_length _ _ Hi4) as Hl. rewrite E in Hl. simpl in Hl. lia. }
  split; [done|]. split; [by rewrite Hi5|]. right. by rewrite Hc5.
Qed.

(** ** Every event *)

(** Who asks to play which card with an event. *)
Definition asks_play (e : event) (peerId cardId : string) : Prop :=
  match e with
  | Act p a => p = peerId /\ a = Play cardId
  | Wire from wire same_game body =>
      from = peerId /\ wire = "action" /\ same_game = true /\
      sanitizeIncomingAction (prop (Some body) "action") = Some (Play cardId)
  | _ => False
  end.

(** The events that may start a round, and those that may take a player from the table. *)
Definition starts (e : event) : bool := match e with Start | AutoStart => true | _ => false end.

Definition parts (e : event) (g : game) : bool :=
  match e with
  | Wire _ wire _ _ => bool_decide (wire = "leave")
  | Disconnect _ => negb (bool_decide (phase g = in_play))
  | Remove _ | Kick _ => true
  | _ => false
  end.

Record good_step (e : event) (g g' : game) : Prop := {
  good_turn : turn_ok g';
  good_cards : (exists lost, lost ++ cards_of g' ≡ₚ cards_of g /\ (parts e g = false -> lost = [])) \/
               (starts e = true /\ cards_of g' ≡ₚ buildDeck);
  good_top : topCard g' = topCard g \/ starts e = true \/
             exists peerId cardId c, asks_play e peerId cardId /\ legal_play peerId cardId c g /\ topCard g' = Some c
}.

Lemma kept_good e g g' : turn_ok g' -> kept g g' -> good_step e g g'.
Proof. intros Ht (_ & Hc & Htop & _). split; [done|left; by exists []|by left]. Qed.

Lemma calm_good e g g' : turn_ok g -> kept g g' /\ same_turn g g' -> good_step e g g'.
Proof. intros Ht [Hk Hs]. apply kept_good; [by eapply same_turn_ok|done]. Qed.

Lemma shrinks_good e g g' : parts e g = true -> shrinks g g' -> good_step e g g'.
Proof. intros Hp (Ht & Htop & lost & Hl). split; [done|left; exists lost; split; [done|congruence]|by left]. Qed.

Lemma fair_good e id a g g' :
  (forall cardId, a = Play cardId -> asks_play e id cardId) -> fair id a g g' -> good_step e g g'.
Proof.
  intros Ha (Ht & _ & Hc & Htop). split; [done|left; by exists []|].
  destruct Htop as [Htop|(cardId & c & Hp & Hl & Htop)]; [by left|]. right; right. exists id, cardId, c.
  split; [by apply Ha|done].
Qed.

Lemma joined_ok id name g :
  turn_ok g -> phase g <> in_play \/ id ∈ ids g -> forall e, good_step e g (addPlayer id name g).2.
Proof.
  intros Hok Hw e. destruct (addPlayer_ok id name g Hok Hw) as (Ht & Htop & Hc).
  split; [done|left; by exists []|by left].
Qed.

Lemma good_emit e o g g' : good_step e g g' -> good_step e g (emit o g').
Proof. intros [Ht Hc Htop]. split; [exact (same_turn_ok _ _ (proj2 (emit_calm o g')) Ht)|exact Hc|exact Htop]. Qed.

Lemma welcome_calm from wire name g :
  let g1 := update_player from (come_back name) g in
  let g2 := if bool_decide (phase g1 = lobby) then scheduleAutoStart g1
            else if bool_decide (phase g1 = in_play) then scheduleTurnTimer g1 else g1 in
  let g3 := pushState (checkpoint "rejoin" (emit (SendHand from) (emit (SendWire from wire) g2))) in
  kept g g3 /\ same_turn g g3.
Proof.
  destruct (rejoin_calm from name g) as [Hk1 Ht1]. set (g1 := update_player _ _ g) in *. cbv zeta.
  assert (H2 : forall g2, kept g1 g2 /\ same_turn g1 g2 ->
    kept g (pushState (checkpoint "rejoin" (emit (SendHand from) (emit (SendWire from wire) g2)))) /\
    same_turn g (pushState (checkpoint "rejoin" (emit (SendHand from) (emit (SendWire from wire) g2))))).
  { intros g2 [Hk2 Ht2]. assert (H : kept g2 (pushState (checkpoint "rejoin" (emit (SendHand from) (emit (SendWire from wire) g2)))) /\
      same_turn g2 (pushState (checkpoint "rejoin" (emit (SendHand from) (emit (SendWire from wire) g2))))) by done.
    destruct H as [Hk Ht]. split; (etransitivity; [|eassumption]); by transitivity g1. }
  apply H2. repeat case_bool_decide; [apply scheduleAutoStart_calm|apply scheduleTurnTimer_calm|done].
Qed.

Lemma onWire_good from wire same_game body g :
  turn_ok g -> good_step (Wire from wire same_game body) g (onWire from wire same_game body g).
Proof.
  intros Hok. assert (Hsame : good_step (Wire from wire same_game body) g g) by by apply kept_good.
  unfold onWire. destruct (_ && same_game) eqn:E1.
  { destruct (find_player from (players g)); [apply calm_good; [done|]; apply (welcome_calm from "join_ok")|].
    destruct (negb (bool_decide (phase g = lobby)) && _) eqn:E2; [by apply good_emit|].
    destruct (negb (public_lobby _) && _ && _); [by apply good_emit|].
    assert (Hp : phase g <> in_play) by (intros E; rewrite E in E2; done).
    pose proof (joined_ok from (prop (Some body) "name") g Hok (or_introl Hp) (Wire from wire same_game body)) as H.
    destruct (addPlayer _ _ g) as [[] g1]; by repeat apply good_emit. }
  destruct (bool_decide (wire = "leave")) eqn:E2; [apply shrinks_good; [exact E2|by apply dropPlayer_ok]|].
  destruct (bool_decide (wire = "action") && same_game) eqn:E3; [|done]. clear E1. bool_cases.
  destruct (sanitizeIncomingAction _) as [a|] eqn:Ea; [|done].
  apply (fair_good _ from a); [|by apply applyAction_fair]. intros cardId ->. done.
Qed.

Lemma player_at_actor g p : player_at (players g) (toActIdx g) = Some p -> actor_id g = Some (p_id p).
Proof.
  intros H. unfold actor_id, ids. rewrite <- (player_at_id _ _ _ H). revert H. unfold player_at.
  by destruct (Z.ltb (toActIdx g) 0).
Qed.

Lemma turn_timeout_good g : turn_ok g -> good_step TurnTimeout g (turn_timeout g).
Proof.
  intros Hok. unfold turn_timeout. set (g1 := clearTurnTimer g).
  assert (Hok1 : turn_ok g1) by by apply (same_turn_ok g).
  assert (Hk1 : kept g g1) by done.
  destruct (player_at _ _) as [p|] eqn:Hat; [|by apply kept_good]. destruct (negb _) eqn:Hp; [by apply kept_good|]. bool_cases.
  assert (Hf : forall a, (forall cardId, a <> Play cardId) -> fair (p_id p) a g1 (applyAction (p_id p) a g1).2 ->
    good_step TurnTimeout g (applyAction (p_id p) a g1).2).
  { intros a Ha (Ht & Hi & Hc & [Htop|(cardId & c & E & _)]); [|by destruct (Ha cardId)].
    split; [done|left; by exists []|by left]. }
  case_bool_decide as Ec.
  { apply (Hf (ChooseColor (color_name (default Red (activeColor g1))))); [done|]. by apply applyAction_fair. }
  destruct (_ && _).
  - assert (Hc : pendingColorChoice g1 = None).
    { destruct (turn_actor _ Hok1 Hp) as (a & Haa & [Hc|Hc] & _); [done|]. rewrite (player_at_actor _ _ Hat) in Haa. congruence. }
    destruct (forceDrawStack_ok (p_id p) g1 Hok1 Hc) as [Ht Hk]. apply kept_good; [done|by transitivity g1].
  - apply (Hf DrawAction); [done|]. by apply applyAction_fair.
Qed.

Lemma started_good e g : starts e = true -> turn_ok g -> good_step e g (startGame g).2.
Proof.
  intros He Hok. destruct (startGame_ok g Hok) as (Ht & _ & [Hk|Hc]); [by apply kept_good|].
  split; [done|by right|by right; left].
Qed.

Lemma step_good e g : turn_ok g -> good_step e g (step e g).
Proof.
  intros Hok. destruct e as [from wire same body|id a|id|id|id|id| | | |patch|id online|]; cbn [step].
  - by apply onWire_good.
  - apply (fair_good _ id a); [by intros ? ->|by apply applyAction_fair].
  - destruct (handleDisconnect_ok id g Hok) as [Hs Hk]. destruct (decide (phase g = in_play)) as [E|E].
    + apply kept_good; [apply Hs|by apply Hk].
    + apply shrinks_good; [|done]. simpl. by rewrite bool_decide_eq_false_2.
  - apply calm_good; [done|apply reconnectPlayer_calm].
  - by apply shrinks_good; [|apply dropPlayer_ok].
  - by apply shrinks_good; [|apply kickPlayer_ok].
  - by apply started_good.
  - destruct (turnTimer g); [by apply turn_timeout_good|by apply kept_good].
  - destruct (startTimer g); [|by apply kept_good]. unfold auto_start.
    assert (Hok1 : turn_ok (clearAutoStartTimer g)) by by apply (same_turn_ok g).
    case_bool_decide; [|by apply kept_good]. destruct (started_good AutoStart (clearAutoStartTimer g) eq_refl Hok1). by split.
  - destruct (updateSettings_calm patch g) as (_ & Hc & Htop & Ht).
    split; [by eapply same_turn_ok|left; by exists []|by left].
  - apply calm_good; [done|]. unfold invitePeer. destruct (_ || _); [done|]. cbn [snd]. by case_match.
  - apply calm_good; [done|]. unfold saveNow. by case_match.
Qed.
