(* ===== verification/UnoGame.v ===== *)
(** * UNO: the theorems about a table

    The cards of the deck are conserved, the top card only changes by a legal play of the
    player to act, the player to act can always end the turn, and the limits of the code:
    a table whose last actor went offline does not resume, and a timed-out draw can stop
    the clock. *)

From S2P Require Import Prelude Json Shuffle Uno UnoFacts.

(** ** Who is connected *)

Definition flags (g : game) : list bool := map connected (players g).

Lemma update_flags id f g : (forall p, connected (f p) = connected p) -> flags (update_player id f g) = flags g.
Proof.
  intros Hf. unfold flags, update_player. simpl. rewrite map_map. apply map_ext. intros p.
  case_bool_decide; [apply Hf|done].
Qed.

Lemma give_flags id c rest g : flags (update_player id (add_card c) (g <| drawPile := rest |>)) = flags g.
Proof. by rewrite update_flags. Qed.

Lemma drawCardsFor_flags id n : forall g, flags (drawCardsFor id n g).2 = flags g.
Proof.
  induction n as [|n IH]; intros g; [done|]. simpl.
  assert (He : flags (ensureDrawPile g).2 = flags g).
  { unfold ensureDrawPile, shuffle_pile, next_words. repeat case_match; simplify_eq/=; done. }
  destruct (ensureDrawPile g) as [ok g1]. simpl in He. destruct (negb ok); [done|].
  destruct (drawPile g1) as [|c rest]; [done|].
  set (g2 := update_player _ _ _). specialize (IH g2).
  destruct (drawCardsFor id n g2) as [drawn g3]. simpl in *. rewrite IH, <- He. apply give_flags.
Qed.

Lemma checkUnoPenalty_flags id g : flags (checkUnoPenalty id g) = flags g.
Proof.
  unfold checkUnoPenalty. destruct (find_player id (players g)); [|done]. destruct (_ || _); [done|].
  apply drawCardsFor_flags.
Qed.

Lemma settle_uno_flags id g : flags (settle_uno id g) = flags g.
Proof. unfold settle_uno. destruct (pendingUnoPeer g); [|done]. case_bool_decide; [done|]. apply checkUnoPenalty_flags. Qed.

Lemma settle_before_draw_flags id g : flags (settle_before_draw id g) = flags g.
Proof.
  unfold settle_before_draw. destruct (pendingUnoPeer g); [|done]. case_bool_decide; [done|]. apply checkUnoPenalty_flags.
Qed.

Lemma scheduleTurnTimer_flags g : flags (scheduleTurnTimer g) = flags g /\ toActIdx (scheduleTurnTimer g) = toActIdx g /\
  phase (scheduleTurnTimer g) = phase g.
Proof. unfold scheduleTurnTimer. by repeat case_match. Qed.

(** The next seat only depends on who is connected. *)
Lemma offline_at_flags ps qs i : map connected ps = map connected qs -> offline_at ps i = offline_at qs i.
Proof.
  intros H. unfold offline_at, player_at. destruct (Z.ltb i 0); [done|].
  assert (E : connected <$> ps !! Z.to_nat i = connected <$> qs !! Z.to_nat i).
  { rewrite <- !list_lookup_fmap. change (map connected ps !! Z.to_nat i = map connected qs !! Z.to_nat i). by rewrite H. }
  destruct (ps !! Z.to_nat i), (qs !! Z.to_nat i); simplify_eq/=; congruence.
Qed.

Lemma skip_offline_flags ps qs dir guard : forall i,
  map connected ps = map connected qs -> skip_offline ps dir guard i = skip_offline qs dir guard i.
Proof.
  induction guard as [|guard IH]; intros i H; [done|]. simpl. rewrite (offline_at_flags ps qs i H).
  assert (length ps = length qs) as <- by (by rewrite <- (length_map connected ps), H, length_map).
  destruct (offline_at qs i); [|done]. by apply IH.
Qed.

Lemma nextIndex_flags ps qs dir k : forall i,
  map connected ps = map connected qs -> nextIndex ps dir i k = nextIndex qs dir i k.
Proof.
  induction k as [|k IH]; intros i H.
  - destruct ps, qs; done.
  - assert (Hl : length ps = length qs) by (by rewrite <- (length_map connected ps), H, length_map).
    destruct ps as [|p ps], qs as [|q qs]; try done.
    change (nextIndex (p :: ps) dir (skip_offline (p :: ps) dir (length (p :: ps)) (step_index (Z.of_nat (length (p :: ps))) dir i)) k
          = nextIndex (q :: qs) dir (skip_offline (q :: qs) dir (length (q :: qs)) (step_index (Z.of_nat (length (q :: qs))) dir i)) k).
    rewrite Hl, (skip_offline_flags _ _ dir _ _ H). by apply IH.
Qed.

(** ** The next seat is connected *)

Lemma skip_offline_all ps dir guard : forall i,
  offline_at ps (skip_offline ps dir guard i) = true ->
  forall k, (k <= guard)%nat -> offline_at ps (Nat.iter k (step_index (Z.of_nat (length ps)) dir) i) = true.
Proof.
  induction guard as [|guard IH]; intros i H k Hk; simpl in H.
  - by replace k with 0%nat by lia.
  - destruct (offline_at ps i) eqn:E; [|congruence]. destruct k as [|k]; [done|].
    rewrite Nat.iter_succ_r. apply IH; [done|lia].
Qed.

Lemma iter_step n dir i k :
  (dir = 1 \/ dir = -1) -> 0 <= i < n -> Nat.iter k (step_index n dir) i = (i + Z.of_nat k * dir) mod n.
Proof.
  intros Hd Hi. induction k as [|k IH]; [simpl; rewrite Z.mod_small; lia|].
  cbn [Nat.iter nat_rect]. change (nat_rect (fun _ => Z) i (fun _ => step_index n dir) k) with (Nat.iter k (step_index n dir) i).
  rewrite IH. unfold step_index. pose proof (Z.mod_pos_bound (i + Z.of_nat k * dir) n ltac:(lia)).
  rewrite Z.rem_mod_nonneg by lia.
  replace ((i + Z.of_nat k * dir) mod n + dir + n) with ((i + Z.of_nat k * dir) mod n + (dir + 1 * n)) by lia.
  rewrite Zplus_mod_idemp_l. replace (i + Z.of_nat k * dir + (dir + 1 * n)) with (i + Z.of_nat (S k) * dir + 1 * n) by lia.
  by rewrite Z.mod_add by lia.
Qed.

(** Going round the table reaches every seat. *)
Lemma reach_seat n dir i j :
  (dir = 1 \/ dir = -1) -> 0 <= i < n -> 0 <= j < n ->
  exists k, (k <= Z.to_nat n)%nat /\ Nat.iter k (step_index n dir) i = j.
Proof.
  intros Hd Hi Hj. exists (Z.to_nat (((j - i) * dir) mod n)).
  pose proof (Z.mod_pos_bound ((j - i) * dir) n ltac:(lia)). split; [lia|]. rewrite iter_step, Z2Nat.id by lia.
  rewrite Z.add_comm, <- Zplus_mod_idemp_l, Z.mul_mod_idemp_l, Zplus_mod_idemp_l by lia.
  replace ((j - i) * dir * dir + i) with j by (destruct Hd as [-> | ->]; lia). by rewrite Z.mod_small.
Qed.

Lemma nextIndex_connected ps dir i k :
  (dir = 1 \/ dir = -1) -> 0 <= i < Z.of_nat (length ps) -> existsb connected ps = true ->
  offline_at ps (nextIndex ps dir i (S k)) = false.
Proof.
  intros Hd Hi Hex. apply existsb_exists in Hex as (p & Hp%list_elem_of_In & Hc).
  apply list_elem_of_lookup in Hp as [j Hj]. pose proof (lookup_lt_Some _ _ _ Hj) as Hjl.
  assert (Hskip : forall i, 0 <= i < Z.of_nat (length ps) -> offline_at ps (skip_offline ps dir (length ps) i) = false).
  { intros i' Hi'. apply not_true_is_false. intros H.
    destruct (reach_seat (Z.of_nat (length ps)) dir i' (Z.of_nat j) Hd Hi') as (m & Hm & Hj'); [lia|].
    pose proof (skip_offline_all ps dir (length ps) i' H m ltac:(lia)) as Ho. rewrite Hj' in Ho. revert Ho.
    unfold offline_at, player_at. rewrite (proj2 (Z.ltb_ge _ _)), Nat2Z.id, Hj by lia. by rewrite Hc. }
  revert i Hi. induction k as [|k IH]; intros i Hi; (destruct ps as [|q ps]; [simpl in Hi; lia|]).
  - apply Hskip. by apply step_index_range.
  - apply IH. apply skip_offline_range; [done|]. by apply step_index_range.
Qed.

(** ** Ending a turn *)

(** What a player who is to act can do to end the turn: choose a colour when one is due, and
    otherwise draw, and pass when the drawn card could be played. *)
Definition end_turn (id : string) (g : game) : game :=
  if bool_decide (pendingColorChoice g = Some id) then (chooseColor id "red" g).2
  else
    let g := (drawCard id g).2 in
    if bool_decide (drewCanPass g = Some id) then (passTurn id g).2 else g.

(** A fresh turn [k] seats on from the one of [g]. *)
Definition turn_after (k : nat) (g g' : game) : Prop :=
  pendingColorChoice g' = None /\ drewCanPass g' = None /\ flags g' = flags g /\ direction g' = direction g /\
  toActIdx g' = nextIndex (players g) (direction g) (toActIdx g) k.

Lemma turn_after_scheduled k g g' : turn_after k g g' -> turn_after k g (pushState (scheduleTurnTimer g')).
Proof.
  intros (Hc & Hw & Hf & Hd & Ht). destruct (scheduleTurnTimer_flags g') as (Hf' & Ht' & _).
  destruct (scheduleTurnTimer_calm g') as [_ (_ & Hd' & _ & _ & Hc' & Hw')].
  unfold turn_after. change (flags (pushState (scheduleTurnTimer g'))) with (flags (scheduleTurnTimer g')).
  repeat split; [exact (eq_trans Hc' Hc)|exact (eq_trans Hw' Hw)|congruence|exact (eq_trans Hd' Hd)|exact (eq_trans Ht' Ht)].
Qed.

(** The state before the turn moves may have changed in anything but the turn. *)
Lemma turn_after_from k g1 g g' :
  same_turn g1 g -> flags g = flags g1 -> turn_after k g g' -> turn_after k g1 g'.
Proof.
  intros (_ & Hd & _ & Ht & _) Hf (Hc & Hw & Hf' & Hd' & Ht'). repeat split; try congruence.
  rewrite Ht', Hd, Ht. by apply nextIndex_flags.
Qed.

Lemma move_on_after g : pendingColorChoice g = None -> turn_after 1 g (move_on g).
Proof. intros Hc. apply turn_after_scheduled. by repeat split. Qed.

Lemma forceDrawStack_after id g :
  turn_ok g -> pendingColorChoice g = None -> actor_id g = Some id -> 0 < pendingDrawStack g ->
  turn_after 1 g (pushState (forceDrawStack id g)).
Proof.
  intros Hok Hc Ha Hs. unfold forceDrawStack. pose proof (actor_range g id Ha) as Hr.
  assert (Hid : ids g !! Z.to_nat (toActIdx g) = Some id) by (revert Ha; unfold actor_id; by case_match).
  destruct (find_player id (players g)) as [p|] eqn:Hp.
  2: { apply list_elem_of_lookup_2, list_elem_of_fmap in Hid as (p & -> & Hin%list_elem_of_In).
       pose proof (find_none _ _ Hp p Hin) as H. simpl in H. bool_cases. done. }
  rewrite (proj2 (Z.leb_gt _ _)) by done. cbv zeta.
  assert (Hin : id ∈ ids g) by by eapply list_elem_of_lookup_2.
  destruct (drawCardsFor_calm id (Z.to_nat (pendingDrawStack g)) g (turn_ids _ Hok) Hin) as [Hk Ht].
  pose proof (drawCardsFor_flags id (Z.to_nat (pendingDrawStack g)) g) as Hf.
  set (g1 := (drawCardsFor id (Z.to_nat (pendingDrawStack g)) g).2) in *.
  assert (Hi : playerIndex id (players g1) = toActIdx g).
  { unfold playerIndex. rewrite (index_of_ids id (players g1) (players g)) by apply Hk.
    pose proof (seat_index_spec id (players g)) as Hx. destruct (index_of id (players g)) as [i|]; [|done].
    assert (i = Z.to_nat (toActIdx g)) as -> by (eapply NoDup_lookup; [apply (turn_ids _ Hok)|done..]). lia. }
  destruct Ht as (_ & Hd & _ & _ & Hc1 & _). clearbody g1. apply turn_after_scheduled.
  repeat split; try done; [exact (eq_trans Hc1 Hc)|].
  change (nextIndex (players g1) (direction g1) (playerIndex id (players g1)) 1 = nextIndex (players g) (direction g) (toActIdx g) 1).
  rewrite Hi, Hd. by apply nextIndex_flags.
Qed.

Lemma passTurn_after id g :
  turn_ok g -> drewCanPass g = Some id -> turn_after 1 g (passTurn id g).2.
Proof.
  intros Hok Hw. unfold passTurn. rewrite Hw, bool_decide_eq_true_2 by done. cbn [negb snd]. cbv zeta.
  assert (Hc : pendingColorChoice g = None) by (destruct (turn_choice _ Hok); congruence).
  pose proof (forget_draw_free g Hok Hc) as [Hok1 _].
  destruct (settle_uno_calm id (g <| drewCanPass := None |>) (turn_ids _ Hok1)) as [_ Ht1].
  pose proof (settle_uno_flags id (g <| drewCanPass := None |>)) as Hf1.
  set (g1 := settle_uno id _) in *. clearbody g1.
  destruct (move_on_after (g1 <| pendingUnoPeer := None |>)) as (Hc2 & Hw2 & Hf2 & Hd2 & Ht2).
  { destruct Ht1 as (_&_&_&_&Hc1&_). exact (eq_trans Hc1 Hc). }
  destruct Ht1 as (_ & Hd1 & _ & Hto & _). split; [done|]. split; [done|]. split; [exact (eq_trans Hf2 Hf1)|].
  split; [exact (eq_trans Hd2 Hd1)|]. rewrite Ht2.
  change (nextIndex (players g1) (direction g1) (toActIdx g1) 1 = nextIndex (players g) (direction g) (toActIdx g) 1).
  rewrite Hd1, Hto. by apply nextIndex_flags.
Qed.

Lemma after_draw_ends id drawn g :
  turn_ok g -> pendingColorChoice g = None -> actor_id g = Some id ->
  turn_after 1 g (if bool_decide (drewCanPass (after_draw id drawn g) = Some id)
                  then (passTurn id (after_draw id drawn g)).2 else after_draw id drawn g).
Proof.
  intros Hok Hc Ha. destruct (after_draw_ok id drawn g Hok Hc Ha) as [Hok2 _].
  assert (Hmove : forall g', pendingColorChoice g' = None -> turn_after 1 g' (move_on g') /\ drewCanPass (move_on g') <> Some id).
  { intros g' Hc'. pose proof (move_on_after g' Hc') as H. split; [done|]. by rewrite (proj1 (proj2 H)). }
  revert Hok2. unfold after_draw. destruct drawn as [|c ds].
  { intros _. destruct (Hmove g Hc) as [H H']. by rewrite bool_decide_eq_false_2. }
  destruct (find_player id (players g)) as [p|].
  2: { intros _. destruct (Hmove g Hc) as [H H']. by rewrite bool_decide_eq_false_2. }
  cbv zeta. set (g1 := emitEvent DrawEvent id (Some c) None g).
  destruct (canPlay _ _ _ _ _); intros Hok2.
  - rewrite bool_decide_eq_true_2 by done.
    destruct (passTurn_after id (pushState (g1 <| drewCanPass := Some id |>)) Hok2 eq_refl) as (?&?&?&?&?). by repeat split.
  - destruct (Hmove g1 Hc) as [H H']. rewrite bool_decide_eq_false_2 by done. eapply turn_after_from; [| |exact H]; done.
Qed.

Lemma actor_is_turn id g :
  NoDup (ids g) -> phase g = in_play -> actor_id g = Some id -> is_turn id g = true.
Proof.
  intros Hn Hp Ha. unfold is_turn.
  assert (Hid : ids g !! Z.to_nat (toActIdx g) = Some id) by (revert Ha; unfold actor_id; by case_match).
  pose proof (seat_index_spec id (players g)) as Hx. pose proof (actor_range g id Ha). destruct (index_of id (players g)) as [i|].
  - assert (i = Z.to_nat (toActIdx g)) as -> by (eapply NoDup_lookup; [exact Hn|done..]).
    rewrite Z2Nat.id, Z.eqb_refl by lia. by rewrite bool_decide_eq_true_2.
  - destruct Hx. by eapply list_elem_of_lookup_2.
Qed.

(** Drawing, and passing if the card could be played. *)
Lemma draw_ends_turn id g :
  turn_ok g -> phase g = in_play -> actor_id g = Some id -> pendingColorChoice g = None ->
  let g1 := (drawCard id g).2 in
  turn_after 1 g (if bool_decide (drewCanPass g1 = Some id) then (passTurn id g1).2 else g1).
Proof.
  intros Hok Hp Ha Hc. pose proof (actor_is_turn id g (turn_ids _ Hok) Hp Ha) as Hturn.
  assert (Hg : negb (is_turn id g) || bool_decide (pendingColorChoice g <> None) = false) by by rewrite Hturn, Hc.
  unfold drawCard. rewrite Hg.
  destruct (settle_before_draw_calm id g (turn_ids _ Hok)) as [Hk1 Ht1]. pose proof (settle_before_draw_flags id g) as Hf1.
  set (g1 := settle_before_draw id g) in *. clearbody g1. cbv zeta.
  assert (Hok1 : turn_ok g1) by by eapply same_turn_ok.
  assert (Hc1 : pendingColorChoice g1 = None) by (destruct Ht1 as (_&_&_&_&->&_); done).
  assert (Ha1 : actor_id g1 = Some id) by by rewrite (calm_actor _ _ Ht1).
  destruct (Z.ltb_spec 0 (pendingDrawStack g1)) as [Hs|_].
  - pose proof (forceDrawStack_after id g1 Hok1 Hc1 Ha1 Hs) as Hafter. cbn [snd].
    rewrite bool_decide_eq_false_2 by (rewrite (proj1 (proj2 Hafter)); done).
    by eapply turn_after_from.
  - assert (Hin : id ∈ ids g1) by (revert Ha1; unfold actor_id; case_match; [done|]; by intros ?%list_elem_of_lookup_2).
    destruct (drawCardsFor_calm id 1 g1 (turn_ids _ Hok1) Hin) as [Hk2 Ht2]. pose proof (drawCardsFor_flags id 1 g1) as Hf2.
    destruct (drawCardsFor id 1 g1) as [drawn g2]. cbn [snd] in *. apply (turn_after_from 1 g g1); [done|done|].
    apply (turn_after_from 1 g1 g2); [done|done|]. apply after_draw_ends; [by eapply same_turn_ok| |].
    + destruct Ht2 as (_&_&_&_&->&_). done.
    + by rewrite (calm_actor _ _ Ht2).
Qed.

Lemma push_phase g : phase (pushState g) = phase g.
Proof. done. Qed.

Lemma nextIndex_two ps dir i : nextIndex ps dir i 2 = nextIndex ps dir (nextIndex ps dir i 1) 1.
Proof. by destruct ps. Qed.

(** A wild +4 of the official rules also skips the player who draws. *)
Definition color_steps (g : game) : nat := if is_wild4 (topCard g) && negb (casual (cfg g)) then 2 else 1.

Lemma resolveDraw_after g :
  free g -> phase g = in_play -> turn_after (if casual (cfg g) then 1 else 2) g (resolveDraw DrawFour g).
Proof.
  intros Hf Hp. destruct (resolveDraw_ok DrawFour g Hf) as [_ [_ [Hc' Hw']]]. revert Hc' Hw'. unfold resolveDraw.
  pose proof (free_range g Hf Hp) as Hr.
  destruct (casual (cfg g)); [by intros|].
  pose proof (nextIndex_range (players g) (direction g) 1 (toActIdx g) (turn_direction _ (proj1 Hf)) Hr) as Hn.
  set (i := nextIndex _ _ _ 1) in *. destruct (player_at (players g) i) as [p|] eqn:Hat.
  2: { revert Hat. unfold player_at. rewrite (proj2 (Z.ltb_ge _ _)) by lia. intros H%lookup_ge_None. lia. }
  assert (Hid : p_id p ∈ ids g) by (apply list_elem_of_fmap; exists p; split; [done|by eapply seat_at_elem]).
  destruct (drawCardsFor_calm (p_id p) (Z.to_nat 4) g (turn_ids _ (proj1 Hf)) Hid) as [_ (_ & Hd & _)].
  pose proof (drawCardsFor_flags (p_id p) (Z.to_nat 4) g) as Hfl.
  set (g1 := (drawCardsFor (p_id p) (Z.to_nat 4) g).2) in *. clearbody g1. intros Hc' Hw'.
  split; [exact Hc'|]. split; [exact Hw'|]. split; [exact Hfl|]. split; [exact Hd|]. rewrite nextIndex_two. fold i.
  change (nextIndex (players g1) (direction g1) i 1 = nextIndex (players g) (direction g) i 1).
  rewrite Hd. by apply nextIndex_flags.
Qed.

Lemma choose_ends_turn id g :
  turn_ok g -> phase g = in_play -> pendingColorChoice g = Some id ->
  let g' := (chooseColor id "red" g).2 in phase g' = in_play -> turn_after (color_steps g) g g'.
Proof.
  intros Hok Hp Hc. unfold chooseColor, color_steps. rewrite Hc, bool_decide_eq_true_2 by done. cbn [negb read_color].
  change (read_color "red") with (Some Red). cbv zeta. cbn [snd].
  pose proof (chosen_free Red g Hok ltac:(by rewrite Hc)) as Hf.
  set (g1 := emitEvent ColorEvent id (topCard g) (Some Red) (g <| activeColor := Some Red |> <| pendingColorChoice := None |>)).
  assert (Hf1 : free g1) by (by eapply same_turn_free, Hf).
  assert (Hafter : turn_after (if is_wild4 (topCard g) && negb (casual (cfg g)) then 2 else 1) g1
            (if is_wild4 (topCard g) then resolveDraw DrawFour g1 else advance 1 g1)).
  { destruct (is_wild4 (topCard g)); cbn [andb].
    - pose proof (resolveDraw_after g1 Hf1 Hp) as H. change (cfg g1) with (cfg g) in H. by destruct (casual (cfg g)).
    - destruct Hf1 as (_ & ? & ?). by repeat split. }
  assert (Heq : forall k g2, turn_after k g1 g2 -> turn_after k g g2) by by intros k g2 (?&?&?&?&?).
  assert (Hfin : forall g2, free g2 -> phase (pushState (finishRound id g2)) <> in_play).
  { intros g2 [[Hn Hd _ _] _]. rewrite push_phase. exact (proj2 (proj2 (finishRound_ok id g2 Hn Hd))). }
  assert (Hf2 : free (if is_wild4 (topCard g) then resolveDraw DrawFour g1 else g1)).
  { destruct (is_wild4 _); [by apply resolveDraw_ok|done]. }
  clearbody g1. unfold after_color. destruct (match find_player id (players g1) with Some p => _ | None => _ end).
  - intros H. by destruct (Hfin _ Hf2).
  - intros _. apply Heq. by apply turn_after_scheduled.
Qed.

(** The player to act is never stuck: choosing a colour when one is due, or drawing and
    passing, is accepted, and afterwards the round is over or a fresh turn has begun at the
    next connected seat in the direction of play (two seats on after a +4 of the official
    rules), as long as anybody at the table is connected. *)
Theorem actor_can_end_turn g p :
  turn_ok g -> phase g = in_play -> player_at (players g) (toActIdx g) = Some p ->
  let g' := end_turn (p_id p) g in
  turn_ok g' /\
  (phase g' = in_play ->
   turn_after (if bool_decide (pendingColorChoice g = None) then 1 else color_steps g) g g' /\
   (existsb connected (players g) = true -> offline_at (players g') (toActIdx g') = false)).
Proof.
  intros Hok Hp Hat. pose proof (player_at_actor _ _ Hat) as Ha. cbv zeta.
  assert (Hok' : turn_ok (end_turn (p_id p) g)).
  { unfold end_turn. case_match; [apply (applyAction_fair (p_id p) (ChooseColor "red") g Hok)|].
    destruct (drawCard_fair (p_id p) g Hok) as [_ (Hok1 & _)]. case_match; [|done]. by apply passTurn_fair. }
  split; [done|]. intros Hp'.
  assert (Hafter : turn_after (if bool_decide (pendingColorChoice g = None) then 1 else color_steps g) g (end_turn (p_id p) g)).
  { revert Hp'. unfold end_turn. destruct (turn_actor _ Hok Hp) as (a & Haa & [Hc|Hc] & _).
    - rewrite (bool_decide_eq_false_2 (pendingColorChoice g = Some (p_id p))) by congruence.
      rewrite (bool_decide_eq_true_2 (pendingColorChoice g = None)) by done. intros _. by apply draw_ends_turn.
    - assert (a = p_id p) as -> by congruence. rewrite (bool_decide_eq_true_2 (pendingColorChoice g = Some (p_id p))) by done.
      rewrite (bool_decide_eq_false_2 (pendingColorChoice g = None)) by congruence.
      by apply choose_ends_turn. }
  split; [done|]. intros Hex. destruct Hafter as (_ & _ & Hfl & _ & ->).
  rewrite (offline_at_flags _ (players g)) by done. pose proof (actor_range g _ Ha) as Hr.
  set (k := if bool_decide _ then 1%nat else _). assert (exists j, k = S j) as [j ->].
  { unfold k, color_steps. repeat case_match; by eexists. }
  by apply nextIndex_connected; [apply Hok| |].
Qed.

(** ** A table that waits for somebody offline *)

(** It is the turn of a player who is offline, no choice is open, and no timer runs. *)
Definition waits_for (id : string) (g : game) : Prop :=
  phase g = in_play /\ pendingColorChoice g = None /\ drewCanPass g = None /\ turnTimer g = false /\
  exists p, player_at (players g) (toActIdx g) = Some p /\ p_id p = id /\ connected p = false.

Definition piles (g : game) : list card * list card * list (list card) :=
  (drawPile g, discardPile g, map hand (players g)).

(** Nothing moves. *)
Definition frozen (id : string) (g g' : game) : Prop := waits_for id g' /\ piles g' = piles g.

(** What the other players and the platform can do short of removing a player. *)
Definition by_others (id : string) (e : event) : Prop :=
  match e with
  | Wire from wire _ _ => from <> id /\ wire <> "leave"
  | Act peerId _ | Disconnect peerId | Reconnect peerId => peerId <> id
  | Remove _ | Kick _ => False
  | Start | TurnTimeout | AutoStart | Settings _ | Invite _ _ | Save => True
  end.

Lemma frozen_emit id o g g' : frozen id g g' -> frozen id g (emit o g').
Proof. done. Qed.

Lemma frozen_pending id x g g' : frozen id g g' -> frozen id g (g' <| pendingUnoPeer := x |>).
Proof. by intros [(?&?&?&?&?) ?]. Qed.

Lemma frozen_clear id g g' : frozen id g g' -> frozen id g (clearTurnTimer g').
Proof. by intros [(?&?&?&?&?) ?]. Qed.

Lemma frozen_schedule id g g' : frozen id g g' -> frozen id g (scheduleTurnTimer g').
Proof.
  intros H. pose proof (frozen_clear id g g' H) as Hc. destruct H as [(_&_&_&_&p&Hp&_&Hoff) _].
  unfold scheduleTurnTimer. destruct (_ || _); [done|]. change (players (clearTurnTimer g')) with (players g').
  change (toActIdx (clearTurnTimer g')) with (toActIdx g'). by rewrite Hp, Hoff.
Qed.

Lemma frozen_update id other f g g' :
  other <> id -> (forall p, hand (f p) = hand p) -> frozen id g g' -> frozen id g (update_player other f g').
Proof.
  intros Hne Hf [(Hp & Hc & Hw & Ht & p & Hat & Hid & Hoff) Hpi]. split.
  - repeat split; try done. exists p. split; [|done]. revert Hat. unfold player_at, update_player. simpl.
    destruct (Z.ltb _ 0); [done|]. intros Hat.
    change (((fun q => if bool_decide (p_id q = other) then f q else q) <$> players g') !! Z.to_nat (toActIdx g') = Some p).
    rewrite list_lookup_fmap, Hat. simpl. by rewrite bool_decide_eq_false_2 by congruence.
  - rewrite <- Hpi. unfold piles, update_player. simpl. rewrite map_map. f_equal. apply map_ext. intros q.
    case_bool_decide; [apply Hf|done].
Qed.

Lemma frozen_not_turn id other g : waits_for id g -> other <> id -> is_turn other g = false.
Proof.
  intros (_&_&_&_&p&Hat&Hid&_) Hne. apply not_true_is_false. intros (_ & Ha & _)%is_turn_spec.
  rewrite (player_at_actor _ _ Hat) in Ha. congruence.
Qed.

Lemma frozen_action id other a g g' :
  other <> id -> frozen id g g' -> frozen id g (applyAction other a g').2.
Proof.
  intros Hne H. pose proof (frozen_not_turn id other g' (proj1 H) Hne) as Hturn.
  destruct (proj1 H) as (_ & Hc & Hw & _). destruct a as [cardId|col| | | |]; cbn [applyAction].
  - unfold playCard. destruct (find_player _ _); [|done]. by rewrite Hturn.
  - unfold chooseColor. destruct (read_color col); [|done]. by rewrite Hc.
  - unfold drawCard. by rewrite Hturn.
  - unfold passTurn. by rewrite Hw.
  - unfold callUno. destruct (find_player _ _); [|done]. destruct (negb _); [done|]. cbn [snd]. apply frozen_emit.
    set (f := fun q : player => q <| saidUno := true |>).
    pose proof (frozen_update id other f g g' Hne (fun _ => eq_refl) H) as H1.
    case_bool_decide; [exact (frozen_pending id None _ _ H1)|exact H1].
  - done.
Qed.

Lemma frozen_saved id r g g' : frozen id g g' -> frozen id g (pushState (checkpoint r g')).
Proof. intros H. by apply frozen_emit, frozen_emit. Qed.

Lemma frozen_step id e g g' : by_others id e -> frozen id g g' -> frozen id g (step e g').
Proof.
  intros He H. destruct (proj1 H) as (Hp & Hc & Hw & Ht & p & Hat & Hid & Hoff).
  destruct e as [from wire same body|q a|q|q|q|q| | | |patch|q online|]; cbn [step by_others] in *; try done.
  - unfold onWire. destruct He as [Hne Hnl]. destruct (bool_decide (wire = "join") && same).
    { destruct (find_player from (players g')).
      - pose proof (frozen_update id from (come_back (prop (Some body) "name")) g g' Hne (fun _ => eq_refl) H) as H1.
        rewrite (bool_decide_eq_false_2 (phase _ = lobby)) by (simpl; by rewrite Hp).
        rewrite (bool_decide_eq_true_2 (phase _ = in_play)) by done. by apply frozen_saved, frozen_emit, frozen_emit, frozen_schedule.
      - by rewrite Hp. }
    rewrite bool_decide_eq_false_2 by done. destruct (bool_decide (wire = "action") && same); [|done].
    destruct (sanitizeIncomingAction _); [by apply frozen_action|done].
  - by apply frozen_action.
  - unfold handleDisconnect. case_bool_decide; [done|]. destruct (index_of q (players g')) as [i|] eqn:Hi; [|done].
    destruct (find_player q (players g')); [|done]. rewrite bool_decide_eq_true_2 by done. cbn [negb].
    destruct (negb (connected _)); [done|].
    set (f := fun p : player => p <| connected := false |>).
    pose proof (frozen_update id q f g g' He (fun _ => eq_refl) H) as H1.
    set (g1 := update_player _ _ g') in *. apply frozen_saved.
    assert (Hset : settle_obligations q i g1 = g1).
    { unfold settle_obligations. change (pendingColorChoice g1) with (pendingColorChoice g'). rewrite Hc.
      rewrite bool_decide_eq_false_2 by done. change (toActIdx g1) with (toActIdx g').
      destruct (Z.eqb_spec (Z.of_nat i) (toActIdx g')) as [E|]; [|done]. exfalso.
      pose proof (seat_index_spec q (players g')) as Hx. rewrite Hi in Hx. pose proof (player_at_id _ _ _ Hat) as Hy.
      rewrite <- E, Nat2Z.id in Hy. congruence. }
    rewrite Hset.
    assert (H2 : frozen id g (forget_draw q g1)).
    { destruct H1 as [(?&?&?&?&?) ?]. split; [|done]. split; [done|]. split; [done|]. split; [|done].
      unfold forget_draw. simpl. change (drewCanPass g1) with (drewCanPass g'). by rewrite Hw. }
    unfold wait_or_run. case_match; [by apply frozen_clear|by apply frozen_schedule].
  - unfold reconnectPlayer. destruct (_ || _); [done|]. cbn [snd].
    set (f := fun p : player => p <| connected := true |>).
    pose proof (frozen_update id q f g g' He (fun _ => eq_refl) H) as H1.
    apply frozen_saved. rewrite bool_decide_eq_true_2 by done. by apply frozen_schedule, frozen_emit, frozen_emit.
  - unfold startGame. by rewrite Hp.
  - by rewrite Ht.
  - destruct (startTimer g'); [|done]. unfold auto_start. by rewrite bool_decide_eq_false_2 by (simpl; by rewrite Hp).
  - unfold updateSettings. cbv zeta. rewrite bool_decide_eq_false_2 by (simpl; by rewrite Hp). by apply frozen_saved.
  - unfold invitePeer. destruct (_ || _); [done|]. cbn [snd]. apply frozen_emit, frozen_emit. by case_match.
  - unfold saveNow. by rewrite bool_decide_eq_true_2.
Qed.

(** ** Whole games *)

Lemma run_ok es : forall g, turn_ok g -> turn_ok (run es g).
Proof. induction es as [|e es IH]; intros g Hok; [done|]. apply IH. by destruct (step_good e g Hok). Qed.

(** No event of the list takes a player from the table. *)
Fixpoint all_stay (es : list event) (g : game) : bool :=
  match es with
  | [] => true
  | e :: es => negb (parts e g) && all_stay es (step e g)
  end.

Lemma deck_unique : NoDup buildDeck.
Proof. apply (bool_decide_unpack _). vm_compute. exact I. Qed.

(** C13: cards are conserved: whatever messages, timeouts, disconnections, kicks and new
    rounds happen, the hands, the draw pile and the discard pile together never hold a card
    twice nor a card that is not in the deck, and as long as no player is removed they are
    exactly the 108 cards of the deck. *)
Theorem cards_conserved es g :
  turn_ok g -> cards_of g ⊆+ buildDeck ->
  cards_of (run es g) ⊆+ buildDeck /\ NoDup (cards_of (run es g)) /\
  (all_stay es g = true -> cards_of g ≡ₚ buildDeck -> cards_of (run es g) ≡ₚ buildDeck).
Proof.
  intros Hok Hsub.
  assert (H : cards_of (run es g) ⊆+ buildDeck /\
              (all_stay es g = true -> cards_of g ≡ₚ buildDeck -> cards_of (run es g) ≡ₚ buildDeck)).
  { revert g Hok Hsub. induction es as [|e es IH]; intros g Hok Hsub; [done|].
    destruct (step_good e g Hok) as [Hok' Hc _]. destruct (IH (step e g) Hok') as [IH1 IH2].
    - destruct Hc as [(lost & Hl & _)|[_ Hc]]; [|by rewrite Hc]. rewrite <- Hsub, <- Hl. apply submseteq_inserts_l. done.
    - split; [exact IH1|]. simpl. intros Hst Hall. bool_cases. apply IH2; [done|].
      destruct Hc as [(lost & Hl & Hn)|[_ Hc]]; [|done]. rewrite (Hn ltac:(done)) in Hl. simpl in Hl. by rewrite Hl. }
  destruct H as [H1 H2]. split; [done|]. split; [|done].
  apply submseteq_Permutation in H1 as [rest Hr]. pose proof deck_unique as Hd. rewrite Hr in Hd.
  by apply NoDup_app in Hd as [? _].
Qed.

(** C14: every event keeps the turn in order (one seat to act, whose player the open choices
    belong to), and unless it deals a new round, the top of the discard pile only ever changes
    by a play that somebody asked for, of a card in their hand, on their turn, with no colour
    to choose, and that goes on the card below it by the rules of the game. *)
Theorem top_changes_by_legal_play e g :
  turn_ok g ->
  turn_ok (step e g) /\
  (starts e = false -> topCard (step e g) <> topCard g ->
   exists peerId cardId c, asks_play e peerId cardId /\ legal_play peerId cardId c g /\ topCard (step e g) = Some c /\
     exists p, find_player peerId (players g) = Some p /\ goes_on c (hand p) g).
Proof.
  intros Hok. destruct (step_good e g Hok) as [Ht _ Htop]. split; [exact Ht|]. intros Hs Hne.
  destruct Htop as [H|[H|(peerId & cardId & c & Ha & Hl & Hc)]]; [done|congruence|].
  exists peerId, cardId, c. do 3 (split; [done|]). destruct Hl as (_ & _ & p & Hp & _ & _ & Hm).
  exists p. split; [exact Hp|by apply may_play_goes_on].
Qed.

(** A table can wait for ever although enough players are back: when the player to act
    went offline last, with fewer than two players left, nobody else's action, timer,
    reconnection or rejoining moves the turn or a card. *)
Theorem late_return_stalls es id g :
  waits_for id g -> Forall (by_others id) es -> waits_for id (run es g) /\ piles (run es g) = piles g.
Proof.
  intros Hw Hes. enough (H : forall g', frozen id g g' -> frozen id g (run es g')) by by apply H.
  induction Hes as [|e es He _ IH]; intros g' H; [exact H|]. apply IH. by apply frozen_step.
Qed.

Lemma drawn_player ps i p c :
  NoDup (map p_id ps) -> player_at ps i = Some p ->
  find_player (p_id p) (map (fun q => if bool_decide (p_id q = p_id p) then add_card c q else q) ps) = Some (add_card c p).
Proof.
  intros Hn Hat%seat_at_elem. unfold find_player. induction ps as [|q ps IH]; [by apply elem_of_nil in Hat|]. simpl in *.
  apply NoDup_cons in Hn as [Hq Hn]. destruct (decide (p_id q = p_id p)) as [E|E].
  - rewrite (bool_decide_eq_true_2 _ E). simpl. rewrite E, bool_decide_eq_true_2 by done.
    apply elem_of_cons in Hat as [->|Hat]; [done|]. destruct Hq. rewrite E. apply list_elem_of_fmap. by exists p.
  - rewrite (bool_decide_eq_false_2 _ E), (bool_decide_eq_false_2 _ E). apply IH; [done|].
    apply elem_of_cons in Hat as [->|Hat]; [done|done].
Qed.

Lemma drawCardsFor_one id c rest g :
  drawPile g = c :: rest -> drawCardsFor id 1 g = ([c], update_player id (add_card c) (g <| drawPile := rest |>)).
Proof. intros Hd. unfold drawCardsFor, ensureDrawPile. rewrite Hd. cbn [negb]. by rewrite Hd. Qed.

(** A turn that times out on a playable card stops the clock: the card is drawn for the
    player, who keeps the turn to play it or pass, and no timer runs any more. *)
Theorem timed_out_draw_stops_clock g p c rest :
  phase g = in_play -> pendingColorChoice g = None -> pendingDrawStack g = 0 -> pendingUnoPeer g = None ->
  NoDup (ids g) -> player_at (players g) (toActIdx g) = Some p -> drawPile g = c :: rest ->
  canPlay c (topCard g) (activeColor g) (casual (cfg g)) (hand p ++ [c]) = true ->
  let g' := turn_timeout g in
  turnTimer g' = false /\ phase g' = in_play /\ toActIdx g' = toActIdx g /\ drewCanPass g' = Some (p_id p) /\
  step TurnTimeout g' = g'.
Proof.
  intros Hp Hc Hs Hu Hn Hat Hd Hplay.
  assert (H : turnTimer (turn_timeout g) = false /\ phase (turn_timeout g) = in_play /\
              toActIdx (turn_timeout g) = toActIdx g /\ drewCanPass (turn_timeout g) = Some (p_id p)).
  { set (g1 := clearTurnTimer g). pose proof (player_at_actor _ _ Hat) as Ha.
    pose proof (actor_is_turn (p_id p) g1 Hn Hp Ha) as Hturn.
    assert (Hg : negb (is_turn (p_id p) g1) || bool_decide (pendingColorChoice g1 <> None) = false)
      by (rewrite Hturn; change (pendingColorChoice g1) with (pendingColorChoice g); by rewrite Hc).
    unfold turn_timeout. fold g1. change (players g1) with (players g). change (toActIdx g1) with (toActIdx g). rewrite Hat.
    change (phase g1) with (phase g). rewrite bool_decide_eq_true_2 by done. cbn [negb].
    change (pendingColorChoice g1) with (pendingColorChoice g). rewrite Hc, bool_decide_eq_false_2 by done.
    change (pendingDrawStack g1) with (pendingDrawStack g). rewrite Hs. cbn [Z.ltb Z.compare andb].
    unfold drawCard. rewrite Hg. unfold settle_before_draw. change (pendingUnoPeer g1) with (pendingUnoPeer g). rewrite Hu.
    change (pendingDrawStack g1) with (pendingDrawStack g). rewrite Hs. cbn [Z.ltb Z.compare].
    rewrite (drawCardsFor_one (p_id p) c rest g1 Hd). set (g2 := update_player (p_id p) (add_card c) (g1 <| drawPile := rest |>)).
    cbn [snd]. unfold after_draw.
    assert (Hp2 : find_player (p_id p) (players g2) = Some (add_card c p))
      by exact (drawn_player (players g) (toActIdx g) p c Hn Hat).
    rewrite Hp2. change (hand (add_card c p)) with (hand p ++ [c]). cbv zeta.
    set (g3 := emitEvent DrawEvent (p_id p) (Some c) None g2).
    change (topCard g3) with (topCard g). change (activeColor g3) with (activeColor g). change (cfg g3) with (cfg g).
    rewrite Hplay. done. }
  destruct H as (Ht & H). split; [done|]. repeat (split; [apply H|]). cbn [step]. by rewrite Ht.
Qed.

(** ** Witnesses *)

(** A table of three: Ann is the host, Bob and Cid have been invited. *)
Definition seated (words : list Z) : game :=
  run [Wire "bob" "join" true (JObj []); Wire "cid" "join" true (JObj [])]
    (bootstrapHost (Some (JStr "Ann")) false
       (createHost "ann" [("turnTimeSec", JNum 30)] defaultSettings [] None ["bob"; "cid"] ["bob"; "cid"] [words])).

(** The words of the shuffle, and the table with Bob to act on a blue 6. *)
Definition words : list Z := seqZ 7 108.
Definition dealt : game := run [Start] (seated words).

Definition play_message (cardId : string) : json :=
  JObj [("action", JObj [("type", JStr "play"); ("cardId", JStr cardId)])].

Lemma seated_ok : turn_ok (seated words).
Proof.
  split; [apply (bool_decide_unpack _); vm_compute; exact I|left; vm_compute; reflexivity|left; vm_compute; reflexivity|].
  intros H. vm_compute in H. discriminate.
Qed.

Lemma dealt_ok : turn_ok dealt.
Proof. apply run_ok, seated_ok. Qed.

Lemma cards_conserved_witness :
  let es := [Start; Wire "bob" "action" true (play_message "b_draw2_b_99"); TurnTimeout; Disconnect "bob"] in
  (length (discardPile (run es (seated words))) = 2)%nat /\ length (cards_of (run es (seated words))) = 108%nat /\
  NoDup (cards_of (run es (seated words))).
Proof.
  intros es. split; [vm_compute; reflexivity|]. split; [vm_compute; reflexivity|].
  apply (cards_conserved es (seated words)); [apply seated_ok|].
  replace (cards_of (seated words)) with (@nil card) by (vm_compute; reflexivity). apply submseteq_nil_l.
Defined.

Lemma top_changes_by_legal_play_witness :
  let e := Wire "bob" "action" true (play_message "b_draw2_b_99") in
  topCard (step e dealt) <> topCard dealt /\
  exists peerId cardId c, asks_play e peerId cardId /\ legal_play peerId cardId c dealt /\ topCard (step e dealt) = Some c /\
    exists p, find_player peerId (players dealt) = Some p /\ goes_on c (hand p) dealt.
Proof.
  intros e. assert (H : topCard (step e dealt) <> topCard dealt) by (apply (bool_decide_unpack _); vm_compute; exact I).
  split; [exact H|]. exact (proj2 (top_changes_by_legal_play e dealt dealt_ok) eq_refl H).
Defined.

Lemma actor_can_end_turn_witness :
  exists p, player_at (players dealt) (toActIdx dealt) = Some p /\ p_id p = "bob" /\
            phase (end_turn "bob" dealt) = in_play /\ toActIdx (end_turn "bob" dealt) = 2 /\
            turn_after 1 dealt (end_turn "bob" dealt).
Proof.
  destruct (player_at (players dealt) (toActIdx dealt)) as [p|] eqn:Hp; [|vm_compute in Hp; discriminate].
  assert (Hid : p_id p = "bob") by (vm_compute in Hp; injection Hp as <-; reflexivity).
  assert (Hin : phase (end_turn "bob" dealt) = in_play) by (vm_compute; reflexivity).
  exists p. split; [reflexivity|]. split; [exact Hid|]. split; [exact Hin|]. split; [vm_compute; reflexivity|].
  destruct (actor_can_end_turn dealt p dealt_ok) as [_ H]; [vm_compute; reflexivity|exact Hp|].
  rewrite Hid in H. exact (proj1 (H Hin)).
Defined.

(** Bob and then Cid, whose turn it has become, lose the connection, and Bob comes back. *)
Definition deserted : game := run [Disconnect "bob"; Disconnect "cid"; Reconnect "bob"] dealt.

Lemma late_return_stalls_witness :
  let es := [Act "bob" DrawAction; TurnTimeout; Wire "bob" "join" true (JObj []); Act "ann" Pass; Start] in
  map connected (players deserted) = [true; true; false] /\
  waits_for "cid" (run es deserted) /\ piles (run es deserted) = piles deserted.
Proof.
  intros es. split; [vm_compute; reflexivity|]. apply late_return_stalls.
  - repeat split; try (vm_compute; reflexivity). eexists. split; [vm_compute; reflexivity|split; reflexivity].
  - repeat constructor; discriminate.
Defined.

Lemma timed_out_draw_stops_clock_witness :
  turnTimer dealt = true /\
  turnTimer (turn_timeout dealt) = false /\ toActIdx (turn_timeout dealt) = toActIdx dealt.
Proof.
  split; [vm_compute; reflexivity|].
  destruct (player_at (players dealt) (toActIdx dealt)) as [p|] eqn:Hp; [|vm_compute in Hp; discriminate].
  destruct (drawPile dealt) as [|c rest] eqn:Hd; [vm_compute in Hd; discriminate|].
  destruct (timed_out_draw_stops_clock dealt p c rest) as (H1 & _ & H2 & _);
    [vm_compute; reflexivity..|apply dealt_ok|exact Hp|exact Hd| |split; [exact H1|exact H2]].
  vm_compute in Hp, Hd. injection Hp as <-. injection Hd as <- <-. vm_compute. reflexivity.
Defined.
