(* ===== verification/Chess.v ===== *)
(** * Chess: positions, moves and rules ([assets/bundled-plugins/chess/board.js, moves.js, rules.js])

    A board is the list of its eight rows, from black's home row down, a cell the piece on it;
    [sq(r, c)] is a pair.  A FEN is a string. *)

From stdpp Require Import pretty.
From S2P Require Import Prelude Json.

(** ** Pieces and squares ([board.js]) *)

Inductive color := White | Black.

#[export] Instance color_eq_dec : EqDecision color.
Proof. solve_decision. Defined.

(** The type of a piece; a letter of a FEN that names none is kept. *)
Inductive kind := Pawn | Knight | Bishop | Rook | Queen | King | Unknown (letter : ascii).

#[export] Instance kind_eq_dec : EqDecision kind.
Proof. solve_decision. Defined.

Record piece := mk_piece { p_color : color; p_kind : kind }.

#[export] Instance piece_eq_dec : EqDecision piece.
Proof. solve_decision. Defined.

Abbreviation square := (Z * Z)%type.
Abbreviation board := (list (list (option piece))).

Definition emptyBoard : board := replicate 8 (replicate 8 None).

Definition opponent (c : color) : color := match c with White => Black | Black => White end.

Definition inBounds (s : square) : bool := Z.leb 0 s.1 && Z.ltb s.1 8 && Z.leb 0 s.2 && Z.ltb s.2 8.

(** [board[r][c]]; [None] is [null] or [undefined]. *)
Definition cell (b : board) (s : square) : option piece :=
  if inBounds s then default None (default [] (b !! Z.to_nat s.1) !! Z.to_nat s.2) else None.

(** [board[r][c] = x] on the board. *)
Definition put (b : board) (s : square) (x : option piece) : board :=
  alter (fun row => <[Z.to_nat s.2 := x]> row) (Z.to_nat s.1) b.

(** The squares in the order of the loops over rows and columns. *)
Definition squares : list square := List.list_prod (seqZ 0 8) (seqZ 0 8).

Definition findKing (b : board) (c : color) : option square :=
  List.find (fun s => bool_decide (cell b s = Some (mk_piece c King))) squares.

Record castling := mk_castling { wK : bool; wQ : bool; bK : bool; bQ : bool }.

#[export] Instance castling_eq_dec : EqDecision castling.
Proof. solve_decision. Defined.

#[export] Instance rebuild_castling : Rebuild castling := fun c => mk_castling (wK c) (wQ c) (bK c) (bQ c).

Record position := mk_position {
  pos_board : board;
  pos_turn : color;
  pos_castling : castling;
  pos_enPassant : option square;
  halfMoveClock : Z;
  fullMoveNumber : Z
}.

#[export] Instance position_eq_dec : EqDecision position.
Proof. solve_decision. Defined.

(** *** Notation of squares *)

Definition file_char (c : Z) : ascii := Ascii.ascii_of_nat (Z.to_nat (97 + c)).

Definition sqToAlg (s : square) : string := String (file_char s.2) (pretty (8 - s.1)).

Definition algToSq (alg : string) : option square :=
  match alg with
  | EmptyString | String _ EmptyString => None
  | String f rest =>
      match to_number (Some (JStr rest)) with
      | Some rank =>
          let s := (8 - rank, Z.of_nat (Ascii.nat_of_ascii f) - 97) in
          if inBounds s then Some s else None
      | None => None
      end
  end.

(** *** FEN *)

Definition START_FEN : string := "rnbqkbnr/pppppppp/8/8/8/8/PPPPPPPP/RNBQKBNR w KQkq - 0 1".

Definition clampInt (value : option Z) (min max fallback : Z) : Z :=
  match value with Some parsed => Z.max min (Z.min max parsed) | None => fallback end.

(** [s.split(sep)] for a character. *)
Fixpoint split_char (sep : ascii) (s : string) : list string :=
  match s with
  | EmptyString => [""]
  | String c rest =>
      if bool_decide (c = sep) then "" :: split_char sep rest
      else match split_char sep rest with
           | first :: more => String c first :: more
           | [] => [String c ""]
           end
  end.

(** [s.split(/\s+/)]; the flag is set after a space. *)
Fixpoint split_spaces (after : bool) (s : string) : list string :=
  match s with
  | EmptyString => [""]
  | String c rest =>
      if is_js_space c then (if after then split_spaces true rest else "" :: split_spaces true rest)
      else match split_spaces false rest with
           | first :: more => String c first :: more
           | [] => [String c ""]
           end
  end.

(** [ch.toUpperCase()] in the range where it stays there. *)
Definition upper_char (c : ascii) : ascii :=
  let n := Ascii.nat_of_ascii c in
  if (Nat.leb 97 n && Nat.leb n 122) || (Nat.leb 224 n && Nat.leb n 254 && negb (Nat.eqb n 247))
  then Ascii.ascii_of_nat (n - 32) else c.

Definition kind_of_letter (c : ascii) : kind :=
  if bool_decide (c = "P"%char) then Pawn else if bool_decide (c = "N"%char) then Knight
  else if bool_decide (c = "B"%char) then Bishop else if bool_decide (c = "R"%char) then Rook
  else if bool_decide (c = "Q"%char) then Queen else if bool_decide (c = "K"%char) then King else Unknown c.

Definition letter_of_kind (k : kind) : ascii :=
  match k with
  | Pawn => "P" | Knight => "N" | Bishop => "B" | Rook => "R" | Queen => "Q" | King => "K" | Unknown c => c
  end%char.

(** [row[c] = x]: an index beyond the end extends the array. *)
Definition row_set (row : list (option piece)) (c : nat) (x : option piece) : list (option piece) :=
  if Nat.ltb c (length row) then <[c := x]> row else row ++ replicate (c - length row) None ++ [x].

Definition piece_of_char (ch : ascii) : piece :=
  mk_piece (if bool_decide (ch = upper_char ch) then White else Black) (kind_of_letter (upper_char ch)).

(** The digit of a run of empty cells. *)
Definition empty_run (ch : ascii) : option nat :=
  let n := Ascii.nat_of_ascii ch in if Nat.leb 49 n && Nat.leb n 56 then Some (n - 48)%nat else None.

Fixpoint parse_row (text : string) (c : nat) (row : list (option piece)) : list (option piece) :=
  match text with
  | EmptyString => row
  | String ch rest =>
      match empty_run ch with
      | Some n => parse_row rest (c + n) row
      | None => parse_row rest (c + 1) (row_set row c (Some (piece_of_char ch)))
      end
  end.

Fixpoint str_includes (ch : ascii) (s : string) : bool :=
  match s with EmptyString => false | String c rest => bool_decide (c = ch) || str_includes ch rest end.

(** [parts[i] || fallback]. *)
Definition part_or (parts : list string) (i : nat) (fallback : string) : string :=
  match parts !! i with Some s => if bool_decide (s = "") then fallback else s | None => fallback end.

Definition part_number (parts : list string) (i : nat) : option Z := to_number (option_map JStr (parts !! i)).

Definition parseFen (fen : string) : position :=
  let parts := split_spaces false (trim (if bool_decide (fen = "") then START_FEN else fen)) in
  let rows := split_char "/" (part_or parts 0 "rnbqkbnr/pppppppp/8/8/8/8/PPPPPPPP/RNBQKBNR") in
  let row r := parse_row (default "" (rows !! r)) 0 (replicate 8 None) in
  let castlingStr := part_or parts 2 "KQkq" in
  let ep := default "" (parts !! 3%nat) in
  mk_position (map row (List.seq 0 8))
    (if bool_decide (parts !! 1%nat = Some "b") then Black else White)
    (mk_castling (str_includes "K" castlingStr) (str_includes "Q" castlingStr)
       (str_includes "k" castlingStr) (str_includes "q" castlingStr))
    (if bool_decide (ep = "") || bool_decide (ep = "-") then None else algToSq ep)
    (clampInt (part_number parts 4) 0 1000 0) (clampInt (part_number parts 5) 1 100000 1).

Definition piece_char (p : piece) : ascii :=
  let ch := letter_of_kind (p_kind p) in
  match p_color p with White => ch | Black => lower_char ch end.

(** The text of a row whose first cells ended with [empty] empty ones. *)
Fixpoint row_text (cells : list (option piece)) (empty : nat) : string :=
  let run := if Nat.eqb empty 0 then "" else pretty (Z.of_nat empty) in
  match cells with
  | [] => run
  | None :: rest => row_text rest (empty + 1)
  | Some p :: rest => run +:+ String (piece_char p) (row_text rest 0)
  end.

Definition castling_text (c : castling) : string :=
  let castle := (if wK c then "K" else "") +:+ (if wQ c then "Q" else "") +:+ (if bK c then "k" else "")
                +:+ (if bQ c then "q" else "") in
  if bool_decide (castle = "") then "-" else castle.

Definition boardToFen (st : position) : string :=
  let row r := row_text (map (fun c => cell (pos_board st) (r, c)) (seqZ 0 8)) 0 in
  join " " [join "/" (map row (seqZ 0 8));
            match pos_turn st with White => "w" | Black => "b" end;
            castling_text (pos_castling st);
            match pos_enPassant st with Some s => sqToAlg s | None => "-" end;
            pretty (halfMoveClock st); pretty (fullMoveNumber st)].

Definition createInitialState : position := parseFen START_FEN.

(** *** Settings *)

Record settings := mk_settings { tableName : string; public_lobby : bool; timeControlSec : Z }.

Definition defaultSettings : settings := mk_settings "Schach-Partie" false 0.

(** [sanitizeSettings]; a patch without a property keeps the value of the fallback.  The time
    control may be any number of seconds up to 7200. *)
Definition sanitizeSettings (input : fields) (fb : settings) : settings :=
  let name := str_take 48 (trim (if has input "tableName"
    then (if truthy (get input "tableName") then string_or_empty (get input "tableName") else "Schach-Partie")
    else if bool_decide (tableName fb = "") then "Schach-Partie" else tableName fb)) in
  mk_settings (if bool_decide (name = "") then "Schach-Partie" else name)
    (if has input "lobbyAccess" then bool_decide (get input "lobbyAccess" = Some (JStr "public")) else public_lobby fb)
    (clampInt (if has input "timeControlSec" then to_number (get input "timeControlSec") else Some (timeControlSec fb))
       0 7200 (timeControlSec fb)).

Definition colorForSeat (seat : Z) : color := if Z.eqb seat 0 then White else Black.

Example initial_fen : boardToFen createInitialState = START_FEN.
Proof. vm_compute. reflexivity. Qed.

(** ** Moves ([moves.js]) *)

Inductive side := KingSide | QueenSide.

#[export] Instance side_eq_dec : EqDecision side.
Proof. solve_decision. Defined.

Record move := mk_move {
  m_from : square;
  m_to : square;
  m_promotion : option kind;
  m_enPassant : bool;
  m_castle : option side
}.

#[export] Instance move_eq_dec : EqDecision move.
Proof. solve_decision. Defined.

Definition PROMOTION_PIECES : list kind := [Queen; Rook; Bishop; Knight].

Definition shift (s d : square) : square := (s.1 + d.1, s.2 + d.2).

Definition occupied (b : board) (s : square) : bool := match cell b s with Some _ => true | None => false end.

Definition of_color (c : color) (p : option piece) : bool :=
  match p with Some p => bool_decide (p_color p = c) | None => false end.

(** [add]: the move, unless the target is off the board or holds a piece of the same colour. *)
Definition add_move (b : board) (c : color) (m : move) : list move :=
  if inBounds (m_to m) && negb (of_color c (cell b (m_to m))) then [m] else [].

Definition simple (from to : square) : move := mk_move from to None false None.

Definition pawn_dir (c : color) : Z := match c with White => -1 | Black => 1 end.
Definition start_rank (c : color) : Z := match c with White => 6 | Black => 1 end.
Definition promo_rank (c : color) : Z := match c with White => 0 | Black => 7 end.

(** A pawn's step to [to], with the promotions on the last rank. *)
Definition pawn_step (b : board) (c : color) (from to : square) : list move :=
  if Z.eqb to.1 (promo_rank c)
  then concat (map (fun k => add_move b c (mk_move from to (Some k) false None)) PROMOTION_PIECES)
  else add_move b c (simple from to).

Definition pawn_moves (b : board) (ep : option square) (c : color) (from : square) : list move :=
  let one := shift from (pawn_dir c, 0) in
  let two := shift from (2 * pawn_dir c, 0) in
  (if inBounds one && negb (occupied b one)
   then pawn_step b c from one ++
        (if Z.eqb from.1 (start_rank c) && negb (occupied b two) then add_move b c (simple from two) else [])
   else []) ++
  concat (map (fun dc =>
    let cap := shift from (pawn_dir c, dc) in
    if negb (inBounds cap) then []
    else if occupied b cap && negb (of_color c (cell b cap)) then pawn_step b c from cap
    else if bool_decide (ep = Some cap) then add_move b c (mk_move from cap None true None)
    else []) [-1; 1]).

Definition KNIGHT_JUMPS : list square := [(-2, -1); (-2, 1); (-1, -2); (-1, 2); (1, -2); (1, 2); (2, -1); (2, 1)].
Definition KING_STEPS : list square := [(-1, -1); (-1, 0); (-1, 1); (0, -1); (0, 1); (1, -1); (1, 0); (1, 1)].
Definition RAYS : list square := [(-1, -1); (-1, 1); (1, -1); (1, 1)].
Definition LINES : list square := [(-1, 0); (1, 0); (0, -1); (0, 1)].

(** The loop along a direction; a line has at most seven squares. *)
Fixpoint slide (fuel : nat) (b : board) (c : color) (from d next : square) : list move :=
  match fuel with
  | O => []
  | S fuel' =>
      if negb (inBounds next) then []
      else match cell b next with
           | None => add_move b c (simple from next) ++ slide fuel' b c from d (shift next d)
           | Some p => if bool_decide (p_color p = c) then [] else add_move b c (simple from next)
           end
  end.

(** [pieceMoves] of a knight, bishop, rook or queen. *)
Definition officer_moves (b : board) (c : color) (k : kind) (from : square) : list move :=
  match k with
  | Knight => concat (map (fun d => add_move b c (simple from (shift from d))) KNIGHT_JUMPS)
  | _ =>
      let rays := match k with Bishop | Queen => RAYS | _ => [] end in
      let lines := match k with Rook | Queen => LINES | _ => [] end in
      concat (map (fun d => slide 8 b c from d (shift from d)) (rays ++ lines))
  end.

(** Whether the piece on [from] attacks [target]: the body of the loop of [isSquareAttacked]. *)
Definition attacks (b : board) (from : square) (p : piece) (target : square) : bool :=
  match p_kind p with
  | Pawn => existsb (fun dc => bool_decide (shift from (pawn_dir (p_color p), dc) = target)) [-1; 1]
  | King => existsb (fun d => bool_decide (shift from d = target)) KING_STEPS
  | k => existsb (fun m => bool_decide (m_to m = target)) (officer_moves b (p_color p) k from)
  end.

Definition isSquareAttacked (b : board) (target : square) (byColor : color) : bool :=
  existsb (fun s => match cell b s with
                    | Some p => bool_decide (p_color p = byColor) && attacks b s p target
                    | None => false
                    end) squares.

Definition may_castle (c : castling) (col : color) (sd : side) : bool :=
  match col, sd with White, KingSide => wK c | White, QueenSide => wQ c | Black, KingSide => bK c | Black, QueenSide => bQ c end.

Definition home_rank (c : color) : Z := match c with White => 7 | Black => 0 end.
Definition rook_file (sd : side) : Z := match sd with KingSide => 7 | QueenSide => 0 end.

(** The files that must be empty, and those that must not be attacked. *)
Definition empty_files (sd : side) : list Z := match sd with KingSide => [5; 6] | QueenSide => [1; 2; 3] end.
Definition safe_files (sd : side) : list Z := match sd with KingSide => [5; 6] | QueenSide => [2; 3] end.

Definition castle_move (b : board) (rights : castling) (c : color) (from : square) (sd : side) : list move :=
  let h := home_rank c in
  if may_castle rights c sd && forallb (fun f => negb (occupied b (h, f))) (empty_files sd)
     && bool_decide (cell b (h, rook_file sd) = Some (mk_piece c Rook))
     && forallb (fun f => negb (isSquareAttacked b (h, f) (opponent c))) (safe_files sd)
  then [mk_move from (h, match sd with KingSide => 6 | QueenSide => 2 end) None false (Some sd)] else [].

Definition king_moves (b : board) (st : position) (c : color) (from : square) : list move :=
  concat (map (fun d => add_move b c (simple from (shift from d))) KING_STEPS) ++
  (if isSquareAttacked b from (opponent c) then []
   else if bool_decide (from = (home_rank c, 4))
   then castle_move b (pos_castling st) c from KingSide ++ castle_move b (pos_castling st) c from QueenSide
   else []).

(** [pieceMoves] with [forAttackOnly = false]. *)
Definition pieceMoves (b : board) (from : square) (st : position) : list move :=
  match cell b from with
  | None => []
  | Some p =>
      match p_kind p with
      | Pawn => pawn_moves b (pos_enPassant st) (p_color p) from
      | King => king_moves b st (p_color p) from
      | k => officer_moves b (p_color p) k from
      end
  end.

Definition getPseudoLegalMoves (st : position) (c : color) : list move :=
  concat (map (fun s => if of_color c (cell (pos_board st) s) then pieceMoves (pos_board st) s st else []) squares).

(** ** Rules ([rules.js]) *)

Definition isInCheck (st : position) (c : color) : bool :=
  match findKing (pos_board st) c with
  | Some king => isSquareAttacked (pos_board st) king (opponent c)
  | None => false
  end.

(** [board[rank][to] = board[rank][from]; board[rank][from] = null]. *)
Definition shift_rook (b : board) (rank from to : Z) : board := put (put b (rank, to) (cell b (rank, from))) (rank, from) None.

(** The board after the piece [p] has made the move. *)
Definition moved_board (b : board) (p : piece) (m : move) : board :=
  let b := put b (m_from m) None in
  let b := if m_enPassant m then put b ((m_to m).1 - pawn_dir (p_color p), (m_to m).2) None else b in
  let b := match m_castle m with
           | Some KingSide => shift_rook b (home_rank (p_color p)) 7 5
           | Some QueenSide => shift_rook b (home_rank (p_color p)) 0 3
           | None => b
           end in
  let placed := match p_kind p, m_promotion m with Pawn, Some k => mk_piece (p_color p) k | _, _ => p end in
  put b (m_to m) (Some placed).

(** The rights that are left: a king that moves, a rook that leaves a rook's file, and a move
    to a rook's corner end them. *)
Definition rights_after (c : castling) (p : piece) (m : move) : castling :=
  let c := match p_kind p, p_color p with
           | King, White => c <| wK := false |> <| wQ := false |>
           | King, Black => c <| bK := false |> <| bQ := false |>
           | Rook, White => if Z.eqb (m_from m).2 0 then c <| wQ := false |>
                            else if Z.eqb (m_from m).2 7 then c <| wK := false |> else c
           | Rook, Black => if Z.eqb (m_from m).2 0 then c <| bQ := false |>
                            else if Z.eqb (m_from m).2 7 then c <| bK := false |> else c
           | _, _ => c
           end in
  let c := if bool_decide (m_to m = (7, 0)) then c <| wQ := false |> else c in
  let c := if bool_decide (m_to m = (7, 7)) then c <| wK := false |> else c in
  let c := if bool_decide (m_to m = (0, 0)) then c <| bQ := false |> else c in
  if bool_decide (m_to m = (0, 7)) then c <| bK := false |> else c.

Definition is_pawn (p : piece) : bool := bool_decide (p_kind p = Pawn).

Definition applyMove (st : position) (m : move) : option position :=
  match cell (pos_board st) (m_from m) with
  | None => None
  | Some p =>
      Some (mk_position (moved_board (pos_board st) p m) (opponent (pos_turn st)) (rights_after (pos_castling st) p m)
        (if is_pawn p && Z.eqb (Z.abs ((m_to m).1 - (m_from m).1)) 2
         then Some (((m_from m).1 + (m_to m).1) / 2, (m_from m).2) else None)
        (if is_pawn p || occupied (pos_board st) (m_to m) then 0 else halfMoveClock st + 1)
        (match pos_turn st with Black => fullMoveNumber st + 1 | White => fullMoveNumber st end))
  end.

Definition getLegalMoves (st : position) (c : color) : list move :=
  List.filter (fun m => match applyMove st m with Some after => negb (isInCheck after c) | None => false end)
    (getPseudoLegalMoves st c).

Definition hasLegalMove (st : position) (c : color) : bool := Nat.ltb 0 (length (getLegalMoves st c)).
Definition isCheckmate (st : position) (c : color) : bool := isInCheck st c && negb (hasLegalMove st c).
Definition isStalemate (st : position) (c : color) : bool := negb (isInCheck st c) && negb (hasLegalMove st c).

(** The pieces on the board with their squares. *)
Definition pieces_of (b : board) : list (square * piece) :=
  concat (map (fun s => match cell b s with Some p => [(s, p)] | None => [] end) squares).

Definition piece_value (k : kind) : Z :=
  match k with Pawn => 1 | Knight => 3 | Bishop => 3 | Rook => 5 | Queen => 9 | _ => 0 end.

Definition material (c : color) (b : board) : Z :=
  foldr (fun sp n => (if bool_decide (p_color sp.2 = c) then piece_value (p_kind sp.2) else 0) + n) 0 (pieces_of b).

Definition countMaterial (b : board) : Z * Z := (material White b, material Black b).

Definition is_bishop (sp : square * piece) : bool := bool_decide (p_kind sp.2 = Bishop).

Definition isInsufficientMaterial (st : position) : bool :=
  let pieces := pieces_of (pos_board st) in
  let nonKings := List.filter (fun sp => negb (bool_decide (p_kind sp.2 = King))) pieces in
  if Nat.ltb 4 (length pieces) then false
  else match nonKings with
       | [] => true
       | [sp] => is_bishop sp || bool_decide (p_kind sp.2 = Knight)
       | [a; b] =>
           is_bishop a && is_bishop b && negb (bool_decide (p_color a.2 = p_color b.2)) &&
           match map (fun sp => (sp.1.1 + sp.1.2) mod 2) (List.filter is_bishop pieces) with
           | [x; y] => Z.eqb x y
           | _ => false
           end
       | _ => false
       end.

Definition isFiftyMoveDraw (st : position) : bool := Z.leb 100 (halfMoveClock st).

Definition char_text (c : ascii) : string := String c "".

(** [moveToSan]. *)
Definition moveToSan (st : position) (m : move) : string :=
  match cell (pos_board st) (m_from m) with
  | None => ""
  | Some p =>
      match m_castle m with
      | Some KingSide => "O-O"
      | Some QueenSide => "O-O-O"
      | None =>
          let isCapture := occupied (pos_board st) (m_to m) || m_enPassant m in
          match p_kind p with
          | Pawn =>
              (if isCapture then char_text (file_char (m_from m).2) +:+ "x" else "") +:+ sqToAlg (m_to m) +:+
              (match m_promotion m with Some k => "=" +:+ char_text (letter_of_kind k) | None => "" end)
          | k =>
              let rivals := List.filter (fun r =>
                negb (bool_decide (m_from r = m_from m)) && bool_decide (m_to r = m_to m) &&
                match cell (pos_board st) (m_from r) with Some q => bool_decide (p_kind q = k) | None => false end)
                (getLegalMoves st (p_color p)) in
              let sameFile := existsb (fun r => Z.eqb (m_from r).2 (m_from m).2) rivals in
              let sameRank := existsb (fun r => Z.eqb (m_from r).1 (m_from m).1) rivals in
              char_text (letter_of_kind k) +:+
              (match rivals with
               | [] => ""
               | _ => if negb sameFile then char_text (file_char (m_from m).2)
                      else if negb sameRank then pretty (8 - (m_from m).1) else sqToAlg (m_from m)
               end) +:+ (if isCapture then "x" else "") +:+ sqToAlg (m_to m)
          end
      end
  end.

(** *** Moves as messages *)

(** [PROMOTION_PIECES.includes(String(input.promotion).toLowerCase()[0])]. *)
Definition read_promotion (v : option json) : option kind :=
  if truthy v then
    match string_or_empty v with
    | String ch _ =>
        let k := kind_of_letter (upper_char (lower_char ch)) in
        if bool_decide (k ∈ PROMOTION_PIECES) then Some k else None
    | EmptyString => None
    end
  else None.

(** A square of a message, in notation or as an object.  (An object whose [r] and [c] are not
    numbers equals no square of a legal move and is refused here.) *)
Definition read_square (v : option json) : option square :=
  match v with
  | Some (JStr alg) => algToSq alg
  | Some (JObj f) =>
      match get f "r", get f "c" with
      | Some (JNum r), Some (JNum c) => Some (r, c)
      | _, _ => None
      end
  | _ => None
  end.

(** The move a message asks for, and what it says about castling. *)
Definition normalizeMove (input : option json) : option (move * option json) :=
  match read_square (prop input "from"), read_square (prop input "to") with
  | Some from, Some to =>
      Some (mk_move from to (read_promotion (prop input "promotion"))
              (bool_decide (prop input "enPassant" = Some (JBool true))) None,
            prop input "castle")
  | _, _ => None
  end.

Definition castle_name (s : option side) : string :=
  match s with Some KingSide => "K" | Some QueenSide => "Q" | None => "" end.

(** [movesEqual] of a legal move and a requested one. *)
Definition movesEqual (a : move) (b : move * option json) : bool :=
  bool_decide (m_from a = m_from b.1) && bool_decide (m_to a = m_to b.1) &&
  bool_decide (m_promotion a = m_promotion b.1) && Bool.eqb (m_enPassant a) (m_enPassant b.1) &&
  bool_decide ((if truthy b.2 then b.2 else Some (JStr "")) = Some (JStr (castle_name (m_castle a)))).

Record wire_move := mk_wire {
  w_from : string; w_to : string; w_promotion : option kind; w_castle : option side; w_enPassant : bool
}.

Definition moveToWire (m : move) : wire_move :=
  mk_wire (sqToAlg (m_from m)) (sqToAlg (m_to m)) (m_promotion m) (m_castle m) (m_enPassant m).

Definition movesToWire (ms : list move) : list wire_move := map moveToWire ms.

Example twenty_first_moves : length (getLegalMoves createInitialState White) = 20%nat.
Proof. vm_compute. reflexivity. Qed.
