(* ===== verification/ChessFacts.v ===== *)
(** * Facts about chess positions

    The board as a map from squares, what a move does to it, and the invariant of the
    positions that legal play reaches: one king of each colour, which is never captured. *)

From S2P Require Import Prelude Json Chess.

(** ** Boards *)

Definition wf_board (b : board) : Prop := length b = 8%nat /\ Forall (fun row => length row = 8%nat) b.

Lemma in_bounds s : inBounds s = true <-> 0 <= s.1 < 8 /\ 0 <= s.2 < 8.
Proof. unfold inBounds. rewrite !andb_true_iff, !Z.leb_le, !Z.ltb_lt. lia. Qed.

Lemma elem_squares s : s ∈ squares <-> inBounds s = true.
Proof.
  unfold squares. rewrite in_bounds, list_elem_of_In, (surjective_pairing s), in_prod_iff, <- !list_elem_of_In, !elem_of_seqZ.
  simpl. lia.
Qed.

Lemma cell_in b s p : cell b s = Some p -> inBounds s = true.
Proof. unfold cell. by destruct (inBounds s). Qed.

Lemma put_wf b s x : wf_board b -> wf_board (put b s x).
Proof.
  intros [Hl Hr]. unfold put. split; [by rewrite length_alter|]. apply Forall_alter; [done|].
  intros row _ Hrow. by rewrite length_insert.
Qed.

Lemma cell_put b s x t : wf_board b -> inBounds s = true ->
  cell (put b s x) t = if decide (s = t) then x else cell b t.
Proof.
  intros [Hl Hr] Hs. unfold cell, put. destruct (inBounds t) eqn:Ht; [|case_decide; [congruence|done]].
  apply in_bounds in Hs, Ht. destruct s as [r c], t as [r' c']. simpl in *.
  destruct (lookup_lt_is_Some_2 b (Z.to_nat r)) as [row Hrow]; [lia|].
  assert (Hlen : length row = 8%nat) by (rewrite Forall_forall in Hr; apply Hr; by eapply list_elem_of_lookup_2).
  destruct (decide (r = r')) as [<-|Hne].
  - rewrite list_lookup_alter_eq, Hrow. simpl. destruct (decide (c = c')) as [<-|Hc].
    + rewrite list_lookup_insert_eq by lia. by rewrite decide_True.
    + rewrite list_lookup_insert_ne by lia. rewrite decide_False by congruence. done.
  - rewrite list_lookup_alter_ne by lia. by rewrite decide_False by congruence.
Qed.

(** The king of a colour, and the only one, stands on [k]. *)
Definition king_at (b : board) (c : color) (k : square) : Prop :=
  inBounds k = true /\ forall s, cell b s = Some (mk_piece c King) <-> s = k.

Lemma find_king b c k : king_at b c k -> findKing b c = Some k.
Proof.
  intros [Hk H]. unfold findKing.
  destruct (List.find _ squares) as [s|] eqn:Hf.
  - apply find_some in Hf as [_ Hs]. apply bool_decide_eq_true_1, H in Hs. congruence.
  - apply find_none with (x := k) in Hf; [|by apply list_elem_of_In, elem_squares].
    apply bool_decide_eq_false_1 in Hf. destruct Hf. by apply H.
Qed.

Lemma king_by_list b c k :
  List.filter (fun s => bool_decide (cell b s = Some (mk_piece c King))) squares = [k] -> king_at b c k.
Proof.
  intros Hf. assert (H : forall s, (s ∈ squares /\ cell b s = Some (mk_piece c King)) <-> s = k).
  { intros s. rewrite <- (list_elem_of_singleton s k), <- Hf, !list_elem_of_In, filter_In, bool_decide_eq_true. done. }
  split; [apply elem_squares, H; done|]. intros s. rewrite <- H. split; [|by intros [_ ?]].
  intros Hs. split; [|done]. apply elem_squares. by eapply cell_in.
Qed.

(** ** What moves look like *)

Definition standard (k : kind) : Prop := match k with Unknown _ => False | _ => True end.

(** A pseudo-legal move of the piece [p]. *)
Inductive shaped (b : board) (st : position) (p : piece) (m : move) : Prop :=
| ordinary :
    m_enPassant m = false -> m_castle m = None ->
    inBounds (m_to m) = true -> of_color (p_color p) (cell b (m_to m)) = false ->
    (m_promotion m = None \/ exists k, m_promotion m = Some k /\ k ∈ PROMOTION_PIECES) ->
    (p_kind p = Pawn -> (m_to m).1 = (m_from m).1 + pawn_dir (p_color p) \/
       m_to m = shift (m_from m) (2 * pawn_dir (p_color p), 0) /\ m_promotion m = None) ->
    (forall q, cell b (m_to m) = Some q -> attacks b (m_from m) p (m_to m) = true) ->
    shaped b st p m
| en_passant :
    m_enPassant m = true -> m_castle m = None -> m_promotion m = None ->
    p_kind p = Pawn -> inBounds (m_to m) = true -> cell b (m_to m) = None -> pos_enPassant st = Some (m_to m) ->
    (m_to m).1 = (m_from m).1 + pawn_dir (p_color p) ->
    shaped b st p m
| castles sd :
    m_enPassant m = false -> m_castle m = Some sd -> m_promotion m = None ->
    p_kind p = King -> m_from m = (home_rank (p_color p), 4) ->
    m_to m = (home_rank (p_color p), match sd with KingSide => 6 | QueenSide => 2 end) ->
    may_castle (pos_castling st) (p_color p) sd = true ->
    (forall f, f ∈ empty_files sd -> cell b (home_rank (p_color p), f) = None) ->
    cell b (home_rank (p_color p), rook_file sd) = Some (mk_piece (p_color p) Rook) ->
    shaped b st p m.

Lemma elem_concat_map {A B} (f : A -> list B) l y : y ∈ concat (map f l) <-> exists x, x ∈ l /\ y ∈ f x.
Proof. rewrite !list_elem_of_In, in_concat. setoid_rewrite in_map_iff. setoid_rewrite list_elem_of_In. naive_solver. Qed.

Lemma elem_add b c m y : y ∈ add_move b c m <-> y = m /\ inBounds (m_to m) = true /\ of_color c (cell b (m_to m)) = false.
Proof.
  unfold add_move. destruct (inBounds (m_to m)), (of_color c (cell b (m_to m))); simpl;
    rewrite ?list_elem_of_singleton; split; try set_solver; naive_solver.
Qed.

Lemma slide_shape fuel b c from d : forall next m, m ∈ slide fuel b c from d next ->
  exists to, m = simple from to /\ inBounds to = true /\ of_color c (cell b to) = false.
Proof.
  induction fuel as [|fuel IH]; intros next m; simpl; [set_solver|].
  destruct (negb (inBounds next)); [set_solver|]. destruct (cell b next) as [q|].
  - destruct (bool_decide (p_color q = c)); [set_solver|]. rewrite elem_add. intros (-> & H1 & H2). eauto.
  - rewrite elem_of_app, elem_add. intros [(-> & H1 & H2)|H]; eauto.
Qed.

Lemma officer_shape b c k from m : m ∈ officer_moves b c k from ->
  exists to, m = simple from to /\ inBounds to = true /\ of_color c (cell b to) = false.
Proof.
  unfold officer_moves. destruct k; rewrite elem_concat_map; intros (d & _ & H);
    try (by apply slide_shape in H); rewrite elem_add in H; destruct H as (-> & H1 & H2); eauto.
Qed.

Lemma existsb_elem {A} (f : A -> bool) l x : x ∈ l -> f x = true -> existsb f l = true.
Proof. intros H Hf. apply existsb_exists. exists x. split; [by apply list_elem_of_In|done]. Qed.

Lemma elem_pawn_step b c from to y : y ∈ pawn_step b c from to ->
  exists promo, y = mk_move from to promo false None /\ inBounds to = true /\ of_color c (cell b to) = false /\
    (promo = None \/ exists k, promo = Some k /\ k ∈ PROMOTION_PIECES).
Proof.
  unfold pawn_step. destruct (Z.eqb _ _).
  - rewrite elem_concat_map. intros (k & Hk & H). rewrite elem_add in H. destruct H as (-> & H1 & H2). simpl in *. eauto 10.
  - rewrite elem_add. intros (-> & H1 & H2). simpl in *. eexists. split; [done|]. auto.
Qed.

Lemma occupied_false b s : occupied b s = false -> cell b s = None.
Proof. unfold occupied. by destruct (cell b s). Qed.

Lemma pawn_shape b st from p m : p_kind p = Pawn ->
  m ∈ pawn_moves b (pos_enPassant st) (p_color p) from -> shaped b st p m /\ m_from m = from.
Proof.
  intros Hk. unfold pawn_moves. set (c := p_color p). rewrite elem_of_app. intros [H|H].
  - destruct (inBounds _ && negb (occupied b _)) eqn:Ho; [|by apply elem_of_nil in H].
    apply andb_prop in Ho as [_ Ho]. apply negb_true_iff, occupied_false in Ho.
    apply elem_of_app in H as [H|H].
    + apply elem_pawn_step in H as (promo & -> & Hb & Hc & Hp). split; [|done]. apply ordinary; try done; [by left|].
      intros q Hq. cbn [m_to] in Hq. congruence.
    + destruct (Z.eqb_spec from.1 (start_rank c)) as [Hr|]; [|by apply elem_of_nil in H].
      destruct (negb (occupied b _)) eqn:Ht; [|by apply elem_of_nil in H].
      apply negb_true_iff, occupied_false in Ht. apply elem_add in H as (-> & Hb & Hc). split; [|done].
      apply ordinary; try done; [by left|by right|]. intros q Hq. cbn [m_to simple] in Hq. congruence.
  - apply elem_concat_map in H as (dc & Hdc & H). destruct (inBounds (shift from (pawn_dir c, dc))) eqn:Hb; [|by apply elem_of_nil in H].
    cbn [negb] in H. destruct (occupied b _ && negb (of_color c _)) eqn:Ho.
    + apply elem_pawn_step in H as (promo & -> & _ & Hc & Hp). split; [|done]. apply ordinary; try done; [by left|].
      intros q Hq. cbn [m_to m_from]. unfold attacks. rewrite Hk. apply existsb_elem with dc; [done|]. by apply bool_decide_eq_true_2.
    + case_bool_decide as Hep; [|by apply elem_of_nil in H]. apply elem_add in H as (-> & _ & Hc). simpl in Hc. split; [|done].
      apply en_passant; try done. simpl. unfold occupied in Ho. rewrite Hc in Ho. cbn [negb] in Ho.
      by destruct (cell b _).
Qed.

Lemma castle_shape b st from p sd m : p_kind p = King -> from = (home_rank (p_color p), 4) ->
  m ∈ castle_move b (pos_castling st) (p_color p) from sd -> shaped b st p m /\ m_from m = from.
Proof.
  intros Hk Hf. unfold castle_move. destruct (_ && _ && _ && _) eqn:H; [|intros Hm; by apply elem_of_nil in Hm].
  apply andb_prop in H as [H _]. apply andb_prop in H as [H Hr]. apply andb_prop in H as [Hc He].
  apply bool_decide_eq_true_1 in Hr. rewrite forallb_forall in He.
  intros ->%list_elem_of_singleton. split; [|done]. apply castles with sd; try done.
  intros f Hff. apply occupied_false, negb_true_iff, He. by apply list_elem_of_In.
Qed.

Lemma king_shape b st from p m : p_kind p = King -> m ∈ king_moves b st (p_color p) from -> shaped b st p m /\ m_from m = from.
Proof.
  intros Hk. unfold king_moves. rewrite elem_of_app. intros [H|H].
  - apply elem_concat_map in H as (d & Hd & H). apply elem_add in H as (-> & Hb & Hc). split; [|done].
    apply ordinary; try done; [by left|intros; congruence|].
    intros q _. cbn [m_to m_from simple]. unfold attacks. rewrite Hk. apply existsb_elem with d; [done|]. by apply bool_decide_eq_true_2.
  - destruct (isSquareAttacked _ _ _); [by apply elem_of_nil in H|]. case_bool_decide as Hf; [|by apply elem_of_nil in H].
    apply elem_of_app in H as [H|H]; by eapply castle_shape.
Qed.

Lemma pieceMoves_shape b st from p m :
  cell b from = Some p -> m ∈ pieceMoves b from st -> shaped b st p m /\ m_from m = from.
Proof.
  intros Hp. unfold pieceMoves. rewrite Hp.
  assert (Ho : p_kind p <> Pawn -> p_kind p <> King -> m ∈ officer_moves b (p_color p) (p_kind p) from ->
    shaped b st p m /\ m_from m = from).
  { intros H1 H2 H. pose proof (officer_shape _ _ _ _ _ H) as (to & -> & Hb & Hc). split; [|done]. apply ordinary; try done; [by left|].
    intros q _. cbn [m_to m_from simple]. unfold attacks. assert (Hx : existsb (fun m => bool_decide (m_to m = to)) (officer_moves b (p_color p) (p_kind p) from) = true).
    { apply existsb_elem with (simple from to); [done|]. by apply bool_decide_eq_true_2. }
    by destruct (p_kind p). }
  destruct (p_kind p) eqn:Hk; try (apply Ho; done); [by apply pawn_shape|by apply king_shape].
Qed.

Lemma legal_shape st c m : m ∈ getLegalMoves st c ->
  exists p st', cell (pos_board st) (m_from m) = Some p /\ p_color p = c /\ inBounds (m_from m) = true /\
    shaped (pos_board st) st p m /\ applyMove st m = Some st' /\ isInCheck st' c = false.
Proof.
  unfold getLegalMoves. rewrite list_elem_of_In, filter_In, <- list_elem_of_In. intros [H Hf].
  unfold getPseudoLegalMoves in H. apply elem_concat_map in H as (s & Hs & H).
  destruct (cell (pos_board st) s) as [p|] eqn:Hp; simpl in H; [|by apply elem_of_nil in H].
  case_bool_decide as Hc; [|by apply elem_of_nil in H].
  destruct (pieceMoves_shape _ _ _ _ _ Hp H) as [Hsh Hfrom]. rewrite Hfrom.
  destruct (applyMove st m) as [st'|]; [|done]. exists p, st'. split_and!; try done; [by eapply cell_in|].
  by apply negb_true_iff in Hf.
Qed.

(** ** The board after a move *)

Definition behind (p : piece) (m : move) : square := ((m_to m).1 - pawn_dir (p_color p), (m_to m).2).

Definition placed (p : piece) (m : move) : piece :=
  match p_kind p, m_promotion m with Pawn, Some k => mk_piece (p_color p) k | _, _ => p end.

(** The two squares of the rook that castles. *)
Definition rook_from (p : piece) (sd : side) : square := (home_rank (p_color p), rook_file sd).
Definition rook_to (p : piece) (sd : side) : square :=
  (home_rank (p_color p), match sd with KingSide => 5 | QueenSide => 3 end).

Lemma rook_squares p sd : inBounds (rook_from p sd) = true /\ inBounds (rook_to p sd) = true.
Proof. by destruct p as [[] k], sd. Qed.

Lemma moved_board_eq b p m :
  moved_board b p m =
  let b := put b (m_from m) None in
  let b := if m_enPassant m then put b (behind p m) None else b in
  let b := match m_castle m with
           | Some sd => put (put b (rook_to p sd) (cell b (rook_from p sd))) (rook_from p sd) None
           | None => b
           end in
  put b (m_to m) (Some (placed p m)).
Proof. unfold moved_board, shift_rook, rook_from, rook_to. by destruct (m_castle m) as [[]|]. Qed.

Section moved.
Context (b : board) (p : piece) (m : move).
Hypothesis Hwf : wf_board b.
Hypothesis Hfrom : inBounds (m_from m) = true.
Hypothesis Hto : inBounds (m_to m) = true.
Hypothesis Hbehind : m_enPassant m = true -> inBounds (behind p m) = true.

Lemma moved_wf : wf_board (moved_board b p m).
Proof.
  rewrite moved_board_eq. cbv zeta. apply put_wf. destruct (m_enPassant m), (m_castle m); repeat apply put_wf; done.
Qed.

Lemma moved_to : cell (moved_board b p m) (m_to m) = Some (placed p m).
Proof.
  rewrite moved_board_eq. cbv zeta. rewrite cell_put; [by rewrite decide_True| |done].
  destruct (m_enPassant m), (m_castle m); repeat apply put_wf; done.
Qed.

(** The board before the piece is put down, on any square. *)
Lemma moved_cell s : s <> m_to m ->
  cell (moved_board b p m) s =
  let before := if decide (m_enPassant m = true /\ s = behind p m) then None
                else if decide (s = m_from m) then None else cell b s in
  match m_castle m with
  | Some sd =>
      if decide (s = rook_from p sd) then None
      else if decide (s = rook_to p sd)
      then (if decide (m_enPassant m = true /\ rook_from p sd = behind p m) then None
            else if decide (rook_from p sd = m_from m) then None else cell b (rook_from p sd))
      else before
  | None => before
  end.
Proof.
  intros Hs. rewrite moved_board_eq. cbv zeta.
  set (b1 := put b (m_from m) None). set (b2 := if m_enPassant m then put b1 (behind p m) None else b1).
  assert (H1 : wf_board b1) by by apply put_wf.
  assert (H2 : wf_board b2) by (unfold b2; destruct (m_enPassant m); [by apply put_wf|done]).
  assert (Hb2 : forall t, cell b2 t = if decide (m_enPassant m = true /\ t = behind p m) then None
                else if decide (t = m_from m) then None else cell b t).
  { intros t. unfold b2. destruct (m_enPassant m) eqn:He.
    - rewrite cell_put by auto. destruct (decide (behind p m = t)) as [<-|]; [by rewrite decide_True|].
      rewrite decide_False by naive_solver. unfold b1. rewrite cell_put by done. repeat case_decide; congruence.
    - rewrite decide_False by naive_solver. unfold b1. rewrite cell_put by done. repeat case_decide; congruence. }
  destruct (m_castle m) as [sd|].
  - destruct (rook_squares p sd) as [Hrf Hrt].
    rewrite cell_put by (repeat apply put_wf; done). rewrite decide_False by done.
    rewrite cell_put by (repeat apply put_wf; done). destruct (decide (rook_from p sd = s)) as [<-|Hne]; [by rewrite decide_True|].
    rewrite decide_False by done. rewrite cell_put by done. destruct (decide (rook_to p sd = s)) as [<-|Hne'].
    + rewrite decide_True by done. apply Hb2.
    + rewrite decide_False by done. apply Hb2.
  - rewrite cell_put by done. rewrite decide_False by done. apply Hb2.
Qed.
End moved.

(** The squares that a move leaves alone. *)
Definition undisturbed (p : piece) (m : move) (s : square) : Prop :=
  s <> m_to m /\ s <> m_from m /\ (m_enPassant m = true -> s <> behind p m) /\
  (forall sd, m_castle m = Some sd -> s <> rook_from p sd /\ s <> rook_to p sd).

Lemma moved_keeps b p m s : wf_board b -> inBounds (m_from m) = true -> inBounds (m_to m) = true ->
  (m_enPassant m = true -> inBounds (behind p m) = true) ->
  undisturbed p m s -> cell (moved_board b p m) s = cell b s.
Proof.
  intros Hwf Hf Ht Hb (H1 & H2 & H3 & H4). rewrite moved_cell by done. cbv zeta.
  rewrite (decide_False (P := m_enPassant m = true /\ s = behind p m)) by naive_solver.
  rewrite (decide_False (P := s = m_from m)) by done.
  destruct (m_castle m) as [sd|]; [|done]. destruct (H4 sd eq_refl). by rewrite !decide_False.
Qed.

(** A piece on a square other than the target was there before, unless it is the rook of a
    castling king. *)
Lemma moved_new b p m s q : wf_board b -> inBounds (m_from m) = true -> inBounds (m_to m) = true ->
  (m_enPassant m = true -> inBounds (behind p m) = true) ->
  s <> m_to m -> cell (moved_board b p m) s = Some q ->
  (cell b s = Some q /\ s <> m_from m) \/ exists sd, m_castle m = Some sd /\ cell b (rook_from p sd) = Some q.
Proof.
  intros Hwf Hf Ht Hb Hs. rewrite moved_cell by done. cbv zeta.
  destruct (m_castle m) as [sd|]; repeat case_decide; try done; intros Hq; eauto.
Qed.

(** ** The invariant of legal play *)

Record pos_ok (st : position) : Prop := mk_pos_ok {
  po_wf : wf_board (pos_board st);
  po_kinds : forall s p, cell (pos_board st) s = Some p -> standard (p_kind p);
  po_kings : forall c, exists k, king_at (pos_board st) c k;
  po_safe : isInCheck st (opponent (pos_turn st)) = false;
  po_ep : forall e, pos_enPassant st = Some e -> inBounds e = true /\
    cell (pos_board st) (e.1 - pawn_dir (pos_turn st), e.2) = Some (mk_piece (opponent (pos_turn st)) Pawn);
  po_rights : forall c sd, may_castle (pos_castling st) c sd = true ->
    cell (pos_board st) (home_rank c, 4) = Some (mk_piece c King) /\
    cell (pos_board st) (home_rank c, rook_file sd) = Some (mk_piece c Rook);
  po_clocks : 0 <= halfMoveClock st /\ 1 <= fullMoveNumber st
}.

Lemma opponent_opponent c : opponent (opponent c) = c. Proof. by destruct c. Qed.
Lemma opponent_ne c : opponent c <> c. Proof. by destruct c. Qed.

Lemma attacked_by b from p target : cell b from = Some p -> attacks b from p target = true ->
  isSquareAttacked b target (p_color p) = true.
Proof.
  intros Hp Ha. unfold isSquareAttacked. apply existsb_elem with from.
  - apply elem_squares. by eapply cell_in.
  - rewrite Hp, bool_decide_eq_true_2 by done. done.
Qed.

(** What a legal move of the side to move looks like in a sound position. *)
Record legal_step (st : position) (m : move) (p : piece) : Prop := mk_legal_step {
  ls_ok : pos_ok st;
  ls_piece : cell (pos_board st) (m_from m) = Some p;
  ls_turn : p_color p = pos_turn st;
  ls_shape : shaped (pos_board st) st p m
}.

Lemma move_in_bounds st m p : legal_step st m p ->
  inBounds (m_from m) = true /\ inBounds (m_to m) = true.
Proof.
  intros Hstep. pose proof Hstep as [Hok Hp Hturn Hshape].
  split; [by eapply cell_in|]. destruct Hshape as [| |sd _ _ _ _ _ ->]; try done. by destruct p as [[] k], sd.
Qed.

(** The opponent's king is not captured: its square would be attacked. *)
Lemma target_no_king st m p c : legal_step st m p ->
  cell (pos_board st) (m_to m) <> Some (mk_piece c King).
Proof.
  intros Hstep. pose proof Hstep as [Hok Hp Hturn Hshape].
  intros Hk. destruct Hshape as [_ _ Hb Hc _ _ Hatt|_ _ _ _ _ Hn _ _|sd _ _ _ Hkind Hf Hto Hr He Hrook].
  - rewrite Hk in Hc. simpl in Hc. apply bool_decide_eq_false_1 in Hc. simpl in Hc.
    assert (c = opponent (pos_turn st)) as -> by (rewrite Hturn in Hc; destruct c, (pos_turn st); done).
    pose proof (attacked_by (pos_board st) _ p _ Hp (Hatt _ Hk)) as Ha. pose proof (po_safe _ Hok) as Hs.
    unfold isInCheck in Hs. destruct (po_kings _ Hok (opponent (pos_turn st))) as [k Hat].
    rewrite (find_king _ _ _ Hat), opponent_opponent in Hs. apply Hat in Hk. rewrite Hk, Hturn in Ha. congruence.
  - congruence.
  - rewrite Hto, He in Hk; [done|]. destruct sd; simpl; set_solver.
Qed.

Lemma target_not_own st m p q : legal_step st m p ->
  cell (pos_board st) (m_to m) = Some q -> p_color q <> p_color p.
Proof.
  intros Hstep. pose proof Hstep as [Hok Hp Hturn Hshape].
  intros Hq. destruct Hshape as [_ _ Hb Hc _ _ Hatt|_ _ _ _ _ Hn _ _|sd _ _ _ Hkind Hf Hto Hr He Hrook].
  - rewrite Hq in Hc. by apply bool_decide_eq_false_1 in Hc.
  - congruence.
  - rewrite Hto, He in Hq; [done|]. destruct sd; simpl; set_solver.
Qed.

Lemma behind_pawn st m p : legal_step st m p ->
  m_enPassant m = true -> cell (pos_board st) (behind p m) = Some (mk_piece (opponent (pos_turn st)) Pawn).
Proof.
  intros Hstep. pose proof Hstep as [Hok Hp Hturn Hshape].
  intros He. destruct Hshape as [| _ _ _ Hk Hb Hn Hep Hd |]; try congruence. unfold behind.
  rewrite Hturn. by apply (po_ep _ Hok).
Qed.

Lemma behind_in st m p : legal_step st m p ->
  m_enPassant m = true -> inBounds (behind p m) = true.
Proof.
  intros Hstep. pose proof Hstep as [Hok Hp Hturn Hshape]. intros He. eapply cell_in. by apply (behind_pawn _ _ _ Hstep). Qed.

Lemma rook_castles st m p sd : legal_step st m p ->
  m_castle m = Some sd ->
  p = mk_piece (pos_turn st) King /\ m_from m = (home_rank (pos_turn st), 4) /\
  cell (pos_board st) (rook_from p sd) = Some (mk_piece (pos_turn st) Rook) /\
  cell (pos_board st) (rook_to p sd) = None /\ may_castle (pos_castling st) (pos_turn st) sd = true.
Proof.
  intros Hstep. pose proof Hstep as [Hok Hp Hturn Hshape].
  intros Hc. destruct Hshape as [| |sd' _ Hsd _ Hkind Hf Hto Hr He Hrook]; try congruence.
  assert (sd' = sd) as -> by congruence.
  unfold rook_from, rook_to. rewrite Hturn in *. split_and!; try done.
  - destruct p as [c k]. simpl in *. by subst.
  - apply He. destruct sd; simpl; set_solver.
Qed.

Lemma placed_color p m : p_color (placed p m) = p_color p.
Proof. unfold placed. destruct (p_kind p), (m_promotion m); done. Qed.

Lemma placed_kind st m p : legal_step st m p ->
  placed p m = p \/ p_kind p = Pawn /\ p_kind (placed p m) ∈ PROMOTION_PIECES.
Proof.
  intros Hstep. pose proof Hstep as [Hok Hp Hturn Hshape].
  unfold placed. destruct Hshape as [_ _ _ _ [->|(k & -> & Hk)] _ _|_ _ -> _ _ _ _ _|sd _ _ -> _ _ _ _ _ _];
    try (destruct (p_kind p); by left).
  destruct (p_kind p) eqn:Hpk; try by left. by right.
Qed.

(** A king of the mover's or of the other colour is undisturbed, unless it is the mover. *)
Lemma other_king_undisturbed st m p c k : legal_step st m p ->
  king_at (pos_board st) c k -> p <> mk_piece c King ->
  undisturbed p m k.
Proof.
  intros Hstep. pose proof Hstep as [Hok Hp Hturn Hshape].
  intros [Hk Hat] Hne. assert (Hcell : cell (pos_board st) k = Some (mk_piece c King)) by by apply Hat.
  split; [|split; [|split]].
  - intros ->. by apply (target_no_king _ _ _ c Hstep).
  - intros ->. congruence.
  - intros He ->. pose proof (behind_pawn _ _ _ Hstep He). congruence.
  - intros sd Hc. destruct (rook_castles _ _ _ sd Hstep Hc) as (_ & _ & Hr & Hn & _). split; intros ->; congruence.
Qed.

Lemma promoted_no_king k : k ∈ PROMOTION_PIECES -> k <> King /\ standard k.
Proof. unfold PROMOTION_PIECES. rewrite !elem_of_cons. intros [->|[->|[->|[->|H]]]]; try done. by apply elem_of_nil in H. Qed.

Lemma moved_kings st m p c : legal_step st m p ->
  exists k, king_at (moved_board (pos_board st) p m) c k.
Proof.
  intros Hstep. pose proof Hstep as [Hok Hp Hturn Hshape].
  destruct (move_in_bounds _ _ _ Hstep) as [Hf Ht]. pose proof (po_wf _ Hok) as Hwf. pose proof (behind_in _ _ _ Hstep) as Hb.
  destruct (po_kings _ Hok c) as [k Hk]. destruct (decide (p = mk_piece c King)) as [->|Hne].
  - exists (m_to m). split; [done|]. intros s. split.
    + intros Hs. destruct (decide (s = m_to m)) as [|Hst]; [done|]. exfalso.
      destruct (moved_new _ _ _ _ _ Hwf Hf Ht Hb Hst Hs) as [[Hc Hsf]|(sd & Hc & Hr)].
      * apply Hk in Hc, Hp. congruence.
      * destruct (rook_castles _ _ _ sd Hstep Hc) as (_ & _ & Hr' & _). congruence.
    + intros ->. rewrite moved_to by done. unfold placed. done.
  - exists k. pose proof (other_king_undisturbed _ _ _ c k Hstep Hk Hne) as Hu. split; [apply Hk|]. intros s. split.
    + intros Hs. destruct (decide (s = m_to m)) as [->|Hst].
      * rewrite moved_to in Hs by done. injection Hs as Hs. destruct (placed_kind _ _ _ Hstep) as [Hpl|[_ Hpl]]; [congruence|].
        rewrite Hs in Hpl. by apply promoted_no_king in Hpl as [? _].
      * destruct (moved_new _ _ _ _ _ Hwf Hf Ht Hb Hst Hs) as [[Hc Hsf]|(sd & Hc & Hr)]; [by apply Hk|].
        destruct (rook_castles _ _ _ sd Hstep Hc) as (_ & _ & Hr' & _). congruence.
    + intros ->. rewrite moved_keeps by done. by apply Hk.
Qed.

Lemma moved_kinds st m p s q : legal_step st m p ->
  cell (moved_board (pos_board st) p m) s = Some q -> standard (p_kind q).
Proof.
  intros Hstep. pose proof Hstep as [Hok Hp Hturn Hshape].
  destruct (move_in_bounds _ _ _ Hstep) as [Hf Ht]. pose proof (po_wf _ Hok) as Hwf. pose proof (behind_in _ _ _ Hstep) as Hb.
  intros Hs. destruct (decide (s = m_to m)) as [->|Hst].
  - rewrite moved_to in Hs by done. injection Hs as <-. destruct (placed_kind _ _ _ Hstep) as [->|[_ Hpl]].
    + by eapply (po_kinds _ Hok).
    + by apply promoted_no_king in Hpl as [_ ?].
  - destruct (moved_new _ _ _ _ _ Hwf Hf Ht Hb Hst Hs) as [[Hc Hsf]|(sd & Hc & Hr)]; by eapply (po_kinds _ Hok).
Qed.

(** *** The en-passant square and the castling rights *)

Definition double_step (p : piece) (m : move) : bool :=
  is_pawn p && Z.eqb (Z.abs ((m_to m).1 - (m_from m).1)) 2.

Lemma moved_ep st m p : legal_step st m p -> double_step p m = true ->
  let e := (((m_from m).1 + (m_to m).1) / 2, (m_from m).2) in
  inBounds e = true /\
  cell (moved_board (pos_board st) p m) (e.1 - pawn_dir (opponent (pos_turn st)), e.2) = Some (mk_piece (pos_turn st) Pawn).
Proof.
  intros Hstep Hd. pose proof Hstep as [Hok Hp Hturn Hshape]. destruct (move_in_bounds _ _ _ Hstep) as [Hf Ht].
  unfold double_step in Hd. apply andb_prop in Hd as [Hpawn Hd]. apply bool_decide_eq_true_1 in Hpawn.
  assert (H : m_to m = shift (m_from m) (2 * pawn_dir (p_color p), 0) /\ m_promotion m = None).
  { destruct Hshape as [_ _ _ _ _ Hg _|_ _ _ _ _ _ _ Hg|sd _ _ _ Hk _ _ _ _ _]; [|exfalso|congruence].
    - destruct (Hg Hpawn) as [H|H]; [|done]. exfalso. rewrite H in Hd. destruct (p_color p); simpl in Hd; lia.
    - rewrite Hg in Hd. destruct (p_color p); simpl in Hd; lia. }
  destruct H as [Hto Hpr]. rewrite Hturn in *.
  assert (He : ((m_from m).1 + (m_to m).1) / 2 = (m_from m).1 + pawn_dir (pos_turn st)).
  { rewrite Hto. unfold shift. cbn [fst snd].
    replace ((m_from m).1 + ((m_from m).1 + 2 * pawn_dir (pos_turn st))) with (((m_from m).1 + pawn_dir (pos_turn st)) * 2) by lia.
    by apply Z.div_mul. }
  cbv zeta. rewrite He. cbn [fst snd]. apply in_bounds in Hf, Ht.
  assert (Hb : (m_to m).1 = (m_from m).1 + 2 * pawn_dir (pos_turn st) /\ (m_to m).2 = (m_from m).2)
    by (rewrite Hto; simpl; lia).
  split; [apply in_bounds; simpl; destruct (pos_turn st); simpl in *; lia|].
  assert (Hsq : ((m_from m).1 + pawn_dir (pos_turn st) - pawn_dir (opponent (pos_turn st)), (m_from m).2) = m_to m).
  { rewrite Hto. unfold shift. cbn [fst snd]. f_equal; [|lia]. destruct (pos_turn st); simpl; lia. }
  rewrite Hsq, moved_to; [|apply Hok|by apply in_bounds..|by apply (behind_in _ _ _ Hstep)].
  f_equal. unfold placed. rewrite Hpr. destruct p as [c k]. simpl in *. subst. done.
Qed.

Lemma rights_left r p m c sd : may_castle (rights_after r p m) c sd = true ->
  may_castle r c sd = true /\ p <> mk_piece c King /\ (p = mk_piece c Rook -> (m_from m).2 <> rook_file sd) /\
  m_to m <> (home_rank c, rook_file sd).
Proof.
  destruct r as [b1 b2 b3 b4], p as [pc pk]. unfold rights_after. simpl.
  destruct c, sd, pk, pc; simpl; repeat case_bool_decide; simpl; repeat case_match; simpl;
    intros H'; bool_cases; split_and!; try congruence; try (intros [=]; lia); try lia; intros Hx; congruence.
Qed.

Lemma moved_rights st m p c sd : legal_step st m p ->
  may_castle (rights_after (pos_castling st) p m) c sd = true ->
  cell (moved_board (pos_board st) p m) (home_rank c, 4) = Some (mk_piece c King) /\
  cell (moved_board (pos_board st) p m) (home_rank c, rook_file sd) = Some (mk_piece c Rook).
Proof.
  intros Hstep Hr. pose proof Hstep as [Hok Hp Hturn Hshape]. destruct (move_in_bounds _ _ _ Hstep) as [Hf Ht].
  destruct (rights_left _ _ _ _ _ Hr) as (Hmay & Hnk & Hnr & Hto). destruct (po_rights _ Hok _ _ Hmay) as [Hk Hrook].
  pose proof (po_wf _ Hok) as Hwf. pose proof (behind_in _ _ _ Hstep) as Hb.
  rewrite !moved_keeps; try done.
  - split; [|split; [|split]]; [congruence|intros Hq; rewrite <- Hq in Hp|intros He Hq|intros sd' Hc].
    + rewrite Hp in Hrook. injection Hrook as ->. apply (Hnr eq_refl). by rewrite <- Hq.
    + pose proof (behind_pawn _ _ _ Hstep He). congruence.
    + destruct (rook_castles _ _ _ sd' Hstep Hc) as (-> & _). unfold rook_from, rook_to. cbn [p_color].
      assert (Hcol : c <> pos_turn st) by congruence. split; intros [=]; destruct c, (pos_turn st); done.
  - split; [|split; [|split]]; [intros Hq|intros Hq; congruence|intros He Hq|intros sd' Hc].
    + rewrite Hq in Hk. by apply (target_no_king _ _ _ c Hstep).
    + pose proof (behind_pawn _ _ _ Hstep He). congruence.
    + destruct (rook_castles _ _ _ sd' Hstep Hc) as (-> & _). unfold rook_from, rook_to. cbn [p_color].
      assert (Hcol : c <> pos_turn st) by congruence. split; intros [=]; destruct c, (pos_turn st); done.
Qed.

(** A legal move of the side to move keeps the position sound. *)
Lemma legal_move_ok st m : pos_ok st -> m ∈ getLegalMoves st (pos_turn st) ->
  exists st', applyMove st m = Some st' /\ pos_ok st' /\ pos_turn st' = opponent (pos_turn st).
Proof.
  intros Hok Hm. destruct (legal_shape _ _ _ Hm) as (p & st' & Hp & Hc & _ & Hsh & Happ & Hsafe).
  exists st'. split; [done|]. assert (Hstep : legal_step st m p) by by constructor.
  destruct (move_in_bounds _ _ _ Hstep) as [Hf Ht].
  unfold applyMove in Happ. rewrite Hp in Happ. injection Happ as <-. split; [|done].
  constructor; cbn [pos_board pos_turn pos_castling pos_enPassant halfMoveClock fullMoveNumber].
  - apply moved_wf; [apply Hok|done..|by apply (behind_in _ _ _ Hstep)].
  - intros s q. by apply (moved_kinds _ _ _ _ _ Hstep).
  - intros c. by apply (moved_kings _ _ _ _ Hstep).
  - by rewrite opponent_opponent.
  - intros e. destruct (is_pawn p && _) eqn:Hd; [|done]. intros [= <-]. rewrite opponent_opponent. by apply (moved_ep _ _ _ Hstep).
  - intros c sd. by apply (moved_rights _ _ _ _ _ Hstep).
  - pose proof (po_clocks _ Hok) as [? ?]. destruct (_ || _), (pos_turn st); lia.
Qed.

Lemma initial_ok : pos_ok createInitialState.
Proof.
  constructor.
  - split; [done|]. apply (bool_decide_unpack _). vm_compute. exact I.
  - intros s p Hs. pose proof (cell_in _ _ _ Hs) as Hb. apply elem_squares in Hb.
    assert (H : forallb (fun s => match cell (pos_board createInitialState) s with
      | Some p => match p_kind p with Unknown _ => false | _ => true end | None => true end) squares = true) by (vm_compute; reflexivity).
    rewrite forallb_forall in H. specialize (H s). rewrite Hs in H. specialize (H ltac:(by apply list_elem_of_In)).
    by destruct (p_kind p).
  - intros []; [exists (7, 4)|exists (0, 4)]; apply king_by_list; vm_compute; reflexivity.
  - vm_compute. reflexivity.
  - intros e He. vm_compute in He. discriminate.
  - intros [] [] _; vm_compute; split; reflexivity.
  - vm_compute. split; congruence.
Qed.
