(* ===== verification/ChessHost.v ===== *)
(** * Chess: the host of a game ([assets/bundled-plugins/chess/engine.js])

    [createHost] keeps the position, the seats and the clocks, and validates what the guest
    sends.  [now] is [Date.now()]; messages and saves are appended to [out]. *)

From stdpp Require Import pretty.
From S2P Require Import Prelude Json Chess.

Inductive game_phase := Lobby | Playing | GameOver.

#[export] Instance game_phase_eq_dec : EqDecision game_phase.
Proof. solve_decision. Defined.

Inductive game_result :=
| Checkmate (winner : color)
| Stalemate
| Draw (reason : string)
| Resign (loser winner : color)
| Timeout (winner : color)
| OpponentLeft (winner : option color).

#[export] Instance game_result_eq_dec : EqDecision game_result.
Proof. solve_decision. Defined.

Record seat := mk_seat {
  s_peer : string;
  s_name : string;
  s_seat : Z;
  s_color : color;
  s_connected : bool
}.

Record played_move := mk_played { h_san : string; h_color : color; h_from : string; h_to : string }.

(** What [checkpoint] stores. *)
Record saved_game := mk_saved {
  sv_reason : string;
  sv_phase : game_phase;
  sv_settings : settings;
  sv_players : list (string * string * Z);
  sv_fen : string;
  sv_lastMove : option wire_move;
  sv_history : list played_move;
  sv_result : option game_result;
  sv_drawOffer : option color;
  sv_clocks : Z * Z;
  sv_invited : list string;
  sv_message : string
}.

(** [publicState()]. *)
Record public_state := mk_public {
  pu_phase : game_phase;
  pu_players : list seat;
  pu_fen : string;
  pu_turn : color;
  pu_lastMove : option wire_move;
  pu_history : list played_move;
  pu_message : string;
  pu_result : option game_result;
  pu_drawOffer : option color;
  pu_inCheck : bool;
  pu_clocks : option (Z * Z)
}.

Inductive output :=
| Saved (game : saved_game)
| StateTo (peerId : string) (public : public_state) (legalMoves : list wire_move)
| JoinOk (peerId : string) (public : public_state)
| JoinReject (peerId : string) (reason : string)
| Kicked (peerId : string)
| InviteTo (peerId : string)
| Ticked.

Record host := mk_host {
  selfId : string;
  gameId : string;
  cfg : settings;
  players : list seat;
  phase : game_phase;
  chessState : position;
  lastMove : option wire_move;
  moveHistory : list played_move;
  message : string;
  gameResult : option game_result;
  drawOffer : option color;
  whiteMs : Z;
  blackMs : Z;
  clockLastTick : Z;
  clockTimer : bool;
  invitedPeers : list string;
  out : list output
}.

#[export] Instance rebuild_host : Rebuild host := fun h =>
  mk_host (selfId h) (gameId h) (cfg h) (players h) (phase h) (chessState h) (lastMove h) (moveHistory h) (message h)
    (gameResult h) (drawOffer h) (whiteMs h) (blackMs h) (clockLastTick h) (clockTimer h) (invitedPeers h) (out h).

#[export] Instance rebuild_seat : Rebuild seat := fun s =>
  mk_seat (s_peer s) (s_name s) (s_seat s) (s_color s) (s_connected s).

(** ** Views of the state *)

Definition emit (o : output) (h : host) : host := h <| out := out h ++ [o] |>.

Definition find_seat (peerId : string) (ps : list seat) : option seat :=
  List.find (fun p => bool_decide (s_peer p = peerId)) ps.

Definition timed (h : host) : bool := Z.ltb 0 (timeControlSec (cfg h)).

Definition publicState (h : host) : public_state :=
  mk_public (phase h) (players h) (boardToFen (chessState h)) (pos_turn (chessState h)) (lastMove h) (moveHistory h)
    (message h) (gameResult h) (drawOffer h)
    (bool_decide (phase h = Playing) && isInCheck (chessState h) (pos_turn (chessState h)))
    (if timed h then Some (whiteMs h, blackMs h) else None).

(** A player may act: seated, in a running game without a result. *)
Definition acting (peerId : string) (h : host) : option seat :=
  match find_seat peerId (players h) with
  | Some p => if bool_decide (phase h = Playing) && bool_decide (gameResult h = None) then Some p else None
  | None => None
  end.

Definition getLegalMovesForPeer (peerId : string) (h : host) : list wire_move :=
  match acting peerId h with
  | Some p => if bool_decide (s_color p = pos_turn (chessState h)) then movesToWire (getLegalMoves (chessState h) (s_color p)) else []
  | None => []
  end.

(** [sqToAlg] of a text: its [r] and [c] are [undefined], so the file is the character of
    [NaN], which is [NUL], and the rank the text ["NaN"]. *)
Definition NOT_A_SQUARE : string := String "000" "NaN".

(** [moveToWire] of a move in wire form. *)
Definition rewire (m : wire_move) : wire_move :=
  mk_wire NOT_A_SQUARE NOT_A_SQUARE (w_promotion m) (w_castle m) (w_enPassant m).

Definition checkpoint (reason : string) (h : host) : host :=
  emit (Saved (mk_saved reason (phase h) (cfg h) (map (fun p => (s_peer p, s_name p, s_seat p)) (players h))
                 (boardToFen (chessState h)) (lastMove h) (moveHistory h) (gameResult h) (drawOffer h)
                 (whiteMs h, blackMs h) (invitedPeers h) (message h))) h.

(** The part of [pushState] after [tickClocks]: the state to every other player, wire moves
    included (they are converted a second time). *)
Definition broadcast (h : host) : host :=
  let pub := publicState h in
  let states := map (fun p => StateTo (s_peer p) pub (map rewire (getLegalMovesForPeer (s_peer p) h)))
                  (List.filter (fun p => negb (bool_decide (s_peer p = selfId h))) (players h)) in
  h <| out := out h ++ states ++ [Ticked] |>.

(** ** The end of a game and the clocks *)

Definition color_name (c : color) : string := match c with White => "Weiß" | Black => "Schwarz" end.

Definition end_message (r : game_result) : string :=
  match r with
  | Checkmate w => "Schachmatt — " +:+ color_name w +:+ " gewinnt."
  | Stalemate => "Patt — Remis."
  | Draw reason => if bool_decide (reason = "") then "Remis." else reason
  | Resign l w => color_name l +:+ " gibt auf — " +:+ color_name w +:+ " gewinnt."
  | Timeout w => "Zeit abgelaufen — " +:+ color_name w +:+ " gewinnt."
  | OpponentLeft (Some w) => "Gegner offline — " +:+ color_name w +:+ " gewinnt."
  | OpponentLeft None => "Partie beendet."
  end.

(** [endGame]; the clocks do not tick in the [pushState] at its end, the game being over. *)
Definition endGame (r : game_result) (h : host) : host :=
  broadcast (checkpoint "game_over"
    (h <| phase := GameOver |> <| gameResult := Some r |> <| drawOffer := None |> <| clockTimer := false |>
       <| message := end_message r |>)).

Definition tickClocks (now : Z) (h : host) : host :=
  if negb (bool_decide (phase h = Playing)) || negb (timed h) || negb (bool_decide (gameResult h = None)) then h
  else
    let elapsed := now - clockLastTick h in
    let h := h <| clockLastTick := now |> in
    let h := match pos_turn (chessState h) with
             | White => h <| whiteMs := Z.max 0 (whiteMs h - elapsed) |>
             | Black => h <| blackMs := Z.max 0 (blackMs h - elapsed) |>
             end in
    if Z.leb (whiteMs h) 0 || Z.leb (blackMs h) 0
    then endGame (Timeout (if Z.leb (whiteMs h) 0 then Black else White)) h else h.

Definition pushState (now : Z) (h : host) : host := broadcast (tickClocks now h).

Definition scheduleClockTimer (h : host) : host :=
  h <| clockTimer := bool_decide (phase h = Playing) && timed h |>.

(** ** Seats *)

(** [players.sort((a, b) => a.seat - b.seat)]: two seats at most, a stable sort. *)
Fixpoint insert_seat (p : seat) (ps : list seat) : list seat :=
  match ps with
  | [] => [p]
  | q :: rest => if Z.ltb (s_seat p) (s_seat q) then p :: ps else q :: insert_seat p rest
  end.

Definition sort_seats (ps : list seat) : list seat := fold_left (fun acc p => insert_seat p acc) ps [].

(** [String(name || peerId)]. *)
Definition name_or (name : option json) (peerId : string) : string :=
  if truthy name then string_or_empty name else peerId.

Definition addPlayer (now : Z) (peerId : string) (name : option json) (h : host) : bool * host :=
  if bool_decide (peerId ∈ map s_peer (players h)) then (true, h)
  else if Nat.leb 2 (length (players h)) then (false, h)
  else
    let n := if Nat.eqb (length (players h)) 0 then 0 else 1 in
    let p := mk_seat peerId (str_take 48 (name_or name peerId)) n (colorForSeat n) true in
    let h := h <| players := sort_seats (players h ++ [p]) |>
               <| message := name_or name peerId +:+ " ist der Partie beigetreten (" +:+
                             (if Z.eqb n 0 then "Weiß" else "Schwarz") +:+ ")." |> in
    (true, pushState now (checkpoint "join" h)).

Fixpoint remove_seat (peerId : string) (ps : list seat) : list seat :=
  match ps with
  | [] => []
  | p :: rest => if bool_decide (s_peer p = peerId) then rest else p :: remove_seat peerId rest
  end.

Definition removePlayer (now : Z) (peerId : string) (h : host) : host :=
  match find_seat peerId (players h) with
  | None => h
  | Some p =>
      let h := h <| players := remove_seat peerId (players h) |>
                 <| invitedPeers := List.filter (fun id => negb (bool_decide (id = peerId))) (invitedPeers h) |> in
      if bool_decide (phase h = Playing) && Nat.ltb (length (players h)) 2
      then endGame (OpponentLeft (option_map s_color (head (players h)))) h
      else
        let h := h <| message := s_name p +:+ " hat die Partie verlassen." |>
                   <| phase := if bool_decide (phase h = Playing) then Lobby else phase h |>
                   <| clockTimer := false |> in
        pushState now (checkpoint "leave" h)
  end.

(** ** The game *)

Definition full_clock (h : host) : Z := if timed h then timeControlSec (cfg h) * 1000 else 0.

Definition connected_seats (ps : list seat) : nat := length (List.filter s_connected ps).

Definition startGame (now : Z) (h : host) : host :=
  if negb (bool_decide (phase h = Lobby)) then h
  else if Nat.ltb (length (players h)) 2
  then pushState now (h <| message := "Es werden genau 2 Spieler benötigt." |>)
  else if Nat.ltb (connected_seats (players h)) 2
  then pushState now (h <| message := "Beide Spieler müssen verbunden sein." |>)
  else
    let h := h <| chessState := createInitialState |> <| lastMove := None |> <| moveHistory := [] |>
               <| gameResult := None |> <| drawOffer := None |> <| phase := Playing |>
               <| whiteMs := full_clock h |> <| blackMs := full_clock h |> <| clockLastTick := now |>
               <| message := "Partie gestartet — Weiß zieht." |> in
    pushState now (scheduleClockTimer (checkpoint "start" h)).

(** [evaluateDrawConditions]. *)
Definition draw_condition (st : position) : option string :=
  if isFiftyMoveDraw st then Some "Remis (50-Züge-Regel)."
  else if isInsufficientMaterial st then Some "Remis (unzureichendes Material)."
  else None.

(** The position and the record of the move, once it has been accepted. *)
Definition play (now : Z) (m : move) (after : position) (h : host) : host :=
  let mover := pos_turn (chessState h) in
  let next := opponent mover in
  let suffix := if isCheckmate after next then "#" else if isInCheck after next then "+" else "" in
  let wire := moveToWire m in
  h <| moveHistory := moveHistory h ++
         [mk_played (moveToSan (chessState h) m +:+ suffix) mover (w_from wire) (w_to wire)] |>
    <| chessState := after |> <| lastMove := Some wire |> <| drawOffer := None |> <| clockLastTick := now |>.

(** What the position on the board means for the game. *)
Definition conclude (now : Z) (mover : color) (h : host) : host :=
  let next := opponent mover in
  if isCheckmate (chessState h) next then endGame (Checkmate mover) h
  else if isStalemate (chessState h) next then endGame Stalemate h
  else match draw_condition (chessState h) with
       | Some reason => endGame (Draw reason) h
       | None =>
           let t := pos_turn (chessState h) in
           let h := h <| message := color_name t +:+ (if isInCheck (chessState h) t then " ist im Schach." else " ist am Zug.") |> in
           pushState now (checkpoint "move" h)
       end.

Definition makeMove (now : Z) (peerId : string) (rawMove : option json) (h : host) : bool * host :=
  match acting peerId h with
  | None => (false, h)
  | Some p =>
      if negb (bool_decide (s_color p = pos_turn (chessState h))) then (false, h)
      else
        match normalizeMove rawMove with
        | None => (false, h)
        | Some requested =>
            match List.find (fun m => movesEqual m requested) (getLegalMoves (chessState h) (s_color p)) with
            | None => (false, h)
            | Some m =>
                let h := tickClocks now h in
                match applyMove (chessState h) m with
                | Some after => (true, conclude now (pos_turn (chessState h)) (play now m after h))
                | None => (false, h)
                end
            end
        end
  end.

Definition resign (peerId : string) (h : host) : bool * host :=
  match acting peerId h with
  | Some p => (true, endGame (Resign (s_color p) (opponent (s_color p))) h)
  | None => (false, h)
  end.

Definition offerDraw (now : Z) (peerId : string) (h : host) : bool * host :=
  match acting peerId h with
  | Some p => (true, pushState now (h <| drawOffer := Some (s_color p) |> <| message := s_name p +:+ " bietet Remis an." |>))
  | None => (false, h)
  end.

(** The other side has offered a draw. *)
Definition answerable (c : color) (h : host) : bool :=
  match drawOffer h with Some o => negb (bool_decide (o = c)) | None => false end.

Definition acceptDraw (peerId : string) (h : host) : bool * host :=
  match find_seat peerId (players h) with
  | Some p =>
      if bool_decide (phase h = Playing) && answerable (s_color p) h
      then (true, endGame (Draw "Remis (vereinbart).") h) else (false, h)
  | None => (false, h)
  end.

Definition declineDraw (now : Z) (peerId : string) (h : host) : bool * host :=
  match find_seat peerId (players h) with
  | Some p =>
      if answerable (s_color p) h
      then (true, pushState now (h <| drawOffer := None |> <| message := "Remis-Angebot abgelehnt." |>)) else (false, h)
  | None => (false, h)
  end.

(** ** What others ask for *)

Definition is_text (v : option json) (s : string) : bool := bool_decide (v = Some (JStr s)).

Definition applyAction (now : Z) (peerId : string) (action : option json) (h : host) : bool * host :=
  let type := prop action "type" in
  if is_text type "move" then makeMove now peerId action h
  else if is_text type "resign" then resign peerId h
  else if is_text type "offerDraw" then offerDraw now peerId h
  else if is_text type "acceptDraw" then acceptDraw peerId h
  else if is_text type "declineDraw" then declineDraw now peerId h
  else (false, h).

Definition kickPlayer (now : Z) (peerId : string) (h : host) : bool * host :=
  if bool_decide (peerId = selfId h) then (false, h)
  else match find_seat peerId (players h) with
       | None => (false, h)
       | Some p =>
           let h := removePlayer now peerId (emit (Kicked peerId) h) in
           (true, pushState now (checkpoint "kick" (h <| message := s_name p +:+ " wurde entfernt." |>)))
       end.

Definition handle_join (now : Z) (from : string) (name : option json) (h : host) : host :=
  if negb (bool_decide (phase h = Lobby)) then emit (JoinReject from "Partie läuft bereits.") h
  else if negb (public_lobby (cfg h)) && negb (bool_decide (from = selfId h)) && negb (bool_decide (from ∈ invitedPeers h))
  then emit (JoinReject from "Nur auf Einladung — bitte zuerst eine Einladung im Chat erhalten.") h
  else
    let '(ok, h) := addPlayer now from name h in
    emit (if ok then JoinOk from (publicState h) else JoinReject from "Partie voll oder Beitritt fehlgeschlagen.") h.

Definition onWire (now : Z) (from : string) (body : option json) (h : host) : host :=
  let wire := prop body "wire" in
  let ours := is_text (prop body "gameId") (gameId h) in
  if is_text wire "join" && ours then handle_join now from (prop body "name") h
  else if is_text wire "leave" then removePlayer now from h
  else if is_text wire "action" && ours then snd (applyAction now from (prop body "action") h)
  else h.

Definition updateSettings (now : Z) (patch : fields) (h : host) : host :=
  if negb (bool_decide (phase h = Lobby))
  then pushState now (h <| message := "Einstellungen können nur in der Lobby geändert werden." |>)
  else
    let h := h <| cfg := sanitizeSettings patch (cfg h) |> in
    let h := h <| whiteMs := full_clock h |> <| blackMs := full_clock h |> <| message := "Einstellungen aktualisiert." |> in
    pushState now (checkpoint "settings" h).

(** [invitePeer]; whether the peer is connected and not blocked is the caller's. *)
Definition invitePeer (now : Z) (peerId : string) (reachable : bool) (h : host) : bool * host :=
  if bool_decide (peerId = "") || bool_decide (peerId ∈ map s_peer (players h)) || negb reachable then (false, h)
  else
    let h := emit (InviteTo peerId)
               (h <| invitedPeers := if bool_decide (peerId ∈ invitedPeers h) then invitedPeers h else invitedPeers h ++ [peerId] |>) in
    (true, pushState now (h <| message := "Einladung wurde im Chat gesendet." |>)).

Definition saveNow (now : Z) (h : host) : host :=
  pushState now (checkpoint "manual" h
    <| message := if bool_decide (phase h = Playing) then "Partie gespeichert." else "Spielstand gespeichert." |>).

(** ** Creation *)

(** The seats of a saved game, each peer once; the one of the host is connected. *)
Fixpoint restore_seats (self : string) (online : string -> bool) (rows : list (string * string * Z)) (ps : list seat) : list seat :=
  match rows with
  | [] => ps
  | (peerId, name, n) :: rows =>
      if bool_decide (peerId = "") || bool_decide (peerId ∈ map s_peer ps) then restore_seats self online rows ps
      else
        let n := clampInt (Some n) 0 1 (Z.of_nat (length ps)) in
        restore_seats self online rows
          (ps ++ [mk_seat peerId (str_take 48 (if bool_decide (name = "") then peerId else name)) n (colorForSeat n)
                    (bool_decide (peerId = self) || online peerId)])
  end.

(** [createHost] from a saved game, with settings of its own. *)
Definition restoreHost (now : Z) (self id : string) (online : string -> bool) (input : fields) (sv : saved_game) : host :=
  mk_host self id (sanitizeSettings input (sv_settings sv)) (sort_seats (restore_seats self online (sv_players sv) [])) (sv_phase sv)
    (parseFen (sv_fen sv)) (sv_lastMove sv) (sv_history sv) (sv_message sv) (sv_result sv) (sv_drawOffer sv)
    (fst (sv_clocks sv)) (snd (sv_clocks sv)) now false (sv_invited sv) [].

Definition newHost (now : Z) (self id : string) (input : fields) : host :=
  let c := sanitizeSettings input defaultSettings in
  let full := if Z.ltb 0 (timeControlSec c) then timeControlSec c * 1000 else 0 in
  mk_host self id c [] Lobby createInitialState None [] "" None None full full now false [] [].

Definition bootstrapHost (now : Z) (name : string) (reason : string) (h : host) : host :=
  checkpoint reason (snd (addPlayer now (selfId h) (Some (JStr (if bool_decide (name = "") then "Host" else name))) h)).

(** ** Histories *)

Inductive event :=
| Wire (from : string) (body : option json)
| Act (peerId : string) (action : option json)
| Start
| Leave (peerId : string)
| Kick (peerId : string)
| Settings (patch : fields)
| Invite (peerId : string) (reachable : bool)
| SaveNow
| ClockTick.

Definition step (now : Z) (e : event) (h : host) : host :=
  match e with
  | Wire from body => onWire now from body h
  | Act peerId action => snd (applyAction now peerId action h)
  | Start => startGame now h
  | Leave peerId => removePlayer now peerId h
  | Kick peerId => snd (kickPlayer now peerId h)
  | Settings patch => updateSettings now patch h
  | Invite peerId reachable => snd (invitePeer now peerId reachable h)
  | SaveNow => saveNow now h
  | ClockTick => if clockTimer h then pushState now h else h
  end.

Definition run (es : list (Z * event)) (h : host) : host := fold_left (fun h te => step te.1 te.2 h) es h.

(** ** The page of a game ([ChessGamePage.jsx]) *)

Definition coordsToAlg (s : square) : string := String (file_char s.2) (pretty (8 - s.1)).

(** The letter a promotion has in a move. *)
Definition promotion_json (k : kind) : json := JStr (String (lower_char (letter_of_kind k)) "").

(** [{ type: 'move', from, to, promotion }]: neither [castle] nor [enPassant] is sent. *)
Definition page_message (from to : square) (promotion : option kind) : json :=
  JObj ([("type", JStr "move"); ("from", JStr (coordsToAlg from)); ("to", JStr (coordsToAlg to))] ++
        match promotion with Some k => [("promotion", promotion_json k)] | None => [] end).

Inductive page_reply := NoMove | AskPromotion (options : list wire_move) | Send (action : json).

(** [tryMove]. *)
Definition tryMove (myLegalMoves : list wire_move) (from to : square) (promotion : option kind) : page_reply :=
  let candidates := List.filter (fun m => bool_decide (w_from m = coordsToAlg from) && bool_decide (w_to m = coordsToAlg to))
                      myLegalMoves in
  match candidates with
  | [] => NoMove
  | first :: _ =>
      match promotion with
      | Some k => Send (page_message from to (Some k))
      | None => if existsb (fun m => match w_promotion m with Some _ => true | None => false end) candidates
                then AskPromotion candidates
                else Send (page_message from to (w_promotion first))
      end
  end.
