(* ===== verification/ChessFen.v ===== *)
(** * The notation of chess positions

    [boardToFen] and [parseFen] of [assets/bundled-plugins/chess/board.js] are inverse on the
    positions that legal play reaches: a saved game resumes where it was left. *)

From stdpp Require Import pretty.
From S2P Require Import Prelude Json Chess ChessFacts.

(** ** Splitting what was joined *)

Lemma split_char_app sep s t : string_forallb (fun c => negb (bool_decide (c = sep))) s = true ->
  split_char sep (s +:+ String sep t) = s :: split_char sep t.
Proof.
  induction s as [|c s IH]; simpl; [by rewrite bool_decide_eq_true_2|].
  intros [Hc Hs]%andb_prop. apply negb_true_iff in Hc. by rewrite Hc, IH.
Qed.

Lemma split_char_single sep s : string_forallb (fun c => negb (bool_decide (c = sep))) s = true ->
  split_char sep s = [s].
Proof.
  induction s as [|c s IH]; simpl; [done|].
  intros [Hc Hs]%andb_prop. apply negb_true_iff in Hc. by rewrite Hc, IH.
Qed.

Lemma split_char_join sep rows : rows <> [] ->
  Forall (fun s => string_forallb (fun c => negb (bool_decide (c = sep))) s = true) rows ->
  split_char sep (join (String sep "") rows) = rows.
Proof.
  intros Hne Hr. induction Hr as [|s rest Hs Hr IH]; [done|].
  destruct rest as [|s' rest]; [by apply split_char_single|].
  change (join (String sep "") (s :: s' :: rest)) with (s +:+ String sep (join (String sep "") (s' :: rest))).
  by rewrite split_char_app, IH.
Qed.

Definition no_space (s : string) : bool := string_forallb (fun c => negb (is_js_space c)) s.

(** A part of a FEN: a text without a space. *)
Definition is_part (s : string) : Prop := s <> "" /\ no_space s = true.

Lemma split_spaces_app after s t : is_part s ->
  split_spaces after (s +:+ String " " t) = s :: split_spaces true t.
Proof.
  intros [Hne Hs]. unfold no_space in Hs. destruct s as [|c s]; [done|]. simpl in *.
  apply andb_prop in Hs as [Hc Hs]. apply negb_true_iff in Hc. rewrite Hc.
  assert (H : split_spaces false (s +:+ String " " t) = s :: split_spaces true t); [|by rewrite H].
  clear c Hc Hne. induction s as [|c s IH]; simpl in *; [done|].
  apply andb_prop in Hs as [Hc Hs]. apply negb_true_iff in Hc. by rewrite Hc, IH.
Qed.

Lemma split_spaces_single after s : is_part s -> split_spaces after s = [s].
Proof.
  intros [Hne Hs]. unfold no_space in Hs. destruct s as [|c s]; [done|]. simpl in *.
  apply andb_prop in Hs as [Hc Hs]. apply negb_true_iff in Hc. rewrite Hc.
  assert (H : split_spaces false s = [s]); [|by rewrite H].
  clear c Hc Hne. induction s as [|c s IH]; simpl in *; [done|].
  apply andb_prop in Hs as [Hc Hs]. apply negb_true_iff in Hc. by rewrite Hc, IH.
Qed.

Lemma split_spaces_join after parts : parts <> [] -> Forall is_part parts ->
  split_spaces after (join " " parts) = parts.
Proof.
  intros Hne Hp. revert after. induction Hp as [|s rest Hs Hp IH]; intros after; [done|].
  destruct rest as [|s' rest]; [by apply split_spaces_single|].
  change (join " " (s :: s' :: rest)) with (s +:+ String " " (join " " (s' :: rest))).
  by rewrite split_spaces_app, IH.
Qed.

Lemma app_char ch x : String ch "" +:+ x = String ch x.
Proof. done. Qed.

Lemma app_nonempty_r a b : b <> "" -> a +:+ b <> "".
Proof. by destruct a. Qed.

Lemma trim_end_app a b : b <> "" -> trim_end b = b -> trim_end (a +:+ b) = a +:+ b.
Proof.
  intros Hne Hb. induction a as [|c a IH]; [done|]. simpl. rewrite IH.
  change (String c a +:+ b) with (String c (a +:+ b)). pose proof (app_nonempty_r a b Hne). by destruct (a +:+ b).
Qed.

Lemma trim_join parts : parts <> [] -> Forall is_part parts -> trim (join " " parts) = join " " parts /\ join " " parts <> "".
Proof.
  intros Hne Hp.
  assert (He : trim_end (join " " parts) = join " " parts /\ join " " parts <> "").
  { induction Hp as [|s rest [Hs Hns] Hp IH]; [done|]. destruct rest as [|s' rest].
    - split; [by apply trim_end_id|done].
    - destruct IH as [IH1 IH2]; [done|].
      change (join " " (s :: s' :: rest)) with (s +:+ (" " +:+ join " " (s' :: rest))).
      split; [|by apply app_nonempty_r]. by repeat (apply trim_end_app; [done|]). }
  split; [|apply He]. unfold trim.
  assert (Hs : trim_start (join " " parts) = join " " parts); [|rewrite Hs; apply He].
  destruct Hp as [|s rest [Hs Hns] Hp]; [done|]. unfold no_space in Hns. destruct s as [|c s]; [done|].
  simpl in Hns. apply andb_prop in Hns as [Hc _]. apply negb_true_iff in Hc.
  destruct rest; simpl; by rewrite Hc.
Qed.

(** ** Rows *)

Lemma piece_chars p : standard (p_kind p) ->
  piece_of_char (piece_char p) = p /\ empty_run (piece_char p) = None /\
  is_js_space (piece_char p) = false /\ piece_char p <> "/"%char.
Proof. by destruct p as [[] []]. Qed.

Lemma run_digit n : (1 <= n <= 8)%nat -> exists ch, pretty (Z.of_nat n) = String ch "" /\ empty_run ch = Some n /\
  is_js_space ch = false /\ ch <> "/"%char.
Proof. intros H. do 9 (destruct n as [|n]; [try lia; eexists; split_and!; done|]). lia. Qed.

Definition row_ok (cells : list (option piece)) : Prop := Forall (fun x => forall p, x = Some p -> standard (p_kind p)) cells.

Lemma row_set_at pre (n k : nat) x :
  row_set (pre ++ replicate n None ++ replicate (S k) None) (length pre + n) x
  = (pre ++ replicate n None ++ [x]) ++ replicate k None.
Proof.
  unfold row_set. destruct (Nat.ltb_spec (length pre + n) (length (pre ++ replicate n None ++ replicate (S k) (@None piece)))) as [|H].
  2: { rewrite !length_app, !length_replicate in H. lia. }
  rewrite insert_app_r_alt by lia. replace (length pre + n - length pre)%nat with n by lia.
  rewrite insert_app_r_alt by (rewrite length_replicate; lia). rewrite length_replicate, Nat.sub_diag. simpl.
  by rewrite <- !app_assoc.
Qed.

Lemma parse_row_text cells : forall n pre, (n + length cells <= 8)%nat -> row_ok cells ->
  parse_row (row_text cells n) (length pre) (pre ++ replicate n None ++ replicate (length cells) None)
  = pre ++ replicate n None ++ cells.
Proof.
  induction cells as [|[p|] cells IH]; intros n pre Hn Hok; simpl in Hn.
  - simpl. destruct (Nat.eqb_spec n 0) as [->|Hn0]; [done|].
    destruct (run_digit n) as (ch & -> & Hr & _); [lia|]. simpl. by rewrite Hr.
  - apply Forall_cons in Hok as [Hp Hok]. specialize (Hp p eq_refl). destruct (piece_chars p Hp) as (Hpc & Hnr & _ & _).
    assert (Hstep : parse_row (String (piece_char p) (row_text cells 0)) (length pre + n)
      (pre ++ replicate n None ++ replicate (S (length cells)) None) = pre ++ replicate n None ++ Some p :: cells).
    { cbn [parse_row]. rewrite Hnr, row_set_at, Hpc.
      replace (length pre + n + 1)%nat with (length (pre ++ replicate n None ++ [Some p]))
        by (rewrite !length_app, length_replicate; simpl; lia).
      rewrite (IH 0%nat) by (done || lia). simpl. by rewrite <- !app_assoc. }
    cbn [row_text length]. destruct (Nat.eqb_spec n 0) as [->|Hn0].
    + rewrite Nat.add_0_r in Hstep. exact Hstep.
    + destruct (run_digit n) as (ch & -> & Hr & _); [lia|]. rewrite app_char. cbn [parse_row]. by rewrite Hr.
  - apply Forall_cons in Hok as [_ Hok]. cbn [row_text length].
    specialize (IH (n + 1)%nat pre ltac:(lia) Hok). rewrite !replicate_add, <- !app_assoc in IH. exact IH.
Qed.

(** A row of a FEN has neither a space nor a slash, and is not empty. *)
Lemma row_text_chars cells : forall n, (n + length cells <= 8)%nat -> row_ok cells ->
  no_space (row_text cells n) = true /\ string_forallb (fun c => negb (bool_decide (c = "/"%char))) (row_text cells n) = true /\
  ((1 <= n + length cells)%nat -> row_text cells n <> "").
Proof.
  induction cells as [|[p|] cells IH]; intros n Hn Hok; simpl in Hn.
  - simpl. destruct (Nat.eqb_spec n 0) as [->|Hn0]; [split_and!; [done|done|lia]|].
    destruct (run_digit n) as (ch & -> & Hr & Hsp & Hsl); [lia|]. unfold no_space. simpl.
    by rewrite Hsp, bool_decide_eq_false_2.
  - apply Forall_cons in Hok as [Hp Hok]. destruct (piece_chars p (Hp p eq_refl)) as (_ & _ & Hsp & Hsl).
    destruct (IH 0%nat ltac:(lia) Hok) as (H1 & H2 & _). unfold no_space in *. cbn [row_text].
    destruct (Nat.eqb_spec n 0) as [->|Hn0].
    + simpl. by rewrite Hsp, bool_decide_eq_false_2, H1, H2.
    + destruct (run_digit n) as (ch & -> & Hr & Hsp' & Hsl'); [lia|]. simpl.
      by rewrite Hsp, Hsp', !bool_decide_eq_false_2, H1, H2.
  - apply Forall_cons in Hok as [_ Hok]. cbn [row_text length]. destruct (IH (n + 1)%nat ltac:(lia) Hok) as (H1 & H2 & H3).
    split_and!; [done..|]. intros _. apply H3. lia.
Qed.

(** ** The parts of a FEN *)

Lemma board_cells b : wf_board b -> map (fun r => map (fun c => cell b (r, c)) (seqZ 0 8)) (seqZ 0 8) = b.
Proof.
  intros [Hl Hr].
  assert (Hrow : forall row, length row = 8%nat -> map (fun c => default None (row !! Z.to_nat c)) (seqZ 0 8) = row :> list (option piece)).
  { intros row H. do 9 (destruct row as [|? row]; try done). }
  do 9 (destruct b as [|? b]; try done). repeat (apply Forall_cons in Hr as [? Hr]).
  transitivity (map (fun row => map (fun c => default None (row !! Z.to_nat c)) (seqZ 0 8)) [l; l0; l1; l2; l3; l4; l5; l6]);
    [reflexivity|]. cbn [map]. by rewrite !Hrow.
Qed.

Lemma map_seq_lookup {A} (f : string -> A) (rows : list string) : length rows = 8%nat ->
  map (fun r => f (default "" (rows !! r))) (List.seq 0 8) = map f rows.
Proof. intros H. do 9 (destruct rows as [|? rows]; try done). Qed.

Lemma castling_chars c :
  is_part (castling_text c) /\
  mk_castling (str_includes "K" (castling_text c)) (str_includes "Q" (castling_text c))
    (str_includes "k" (castling_text c)) (str_includes "q" (castling_text c)) = c.
Proof. destruct c as [[] [] [] []]; vm_compute; repeat split; congruence. Qed.

Lemma square_text s : inBounds s = true ->
  algToSq (sqToAlg s) = Some s /\ is_part (sqToAlg s) /\ sqToAlg s <> "-".
Proof.
  intros Hs. apply elem_squares in Hs.
  assert (H : forallb (fun s => bool_decide (algToSq (sqToAlg s) = Some s) && no_space (sqToAlg s) &&
    bool_decide (sqToAlg s <> "-")) squares = true) by (vm_compute; reflexivity).
  rewrite forallb_forall in H. specialize (H s). rewrite <- list_elem_of_In in H. specialize (H Hs). bool_cases. done.
Qed.

Definition ep_text (ep : option square) : string := match ep with Some s => sqToAlg s | None => "-" end.

Lemma ep_chars ep : (forall s, ep = Some s -> inBounds s = true) ->
  is_part (ep_text ep) /\ (if bool_decide (ep_text ep = "") || bool_decide (ep_text ep = "-") then None else algToSq (ep_text ep)) = ep.
Proof.
  intros Hep. destruct ep as [s|]; [|done]. destruct (square_text s (Hep s eq_refl)) as (H1 & H2 & H3). unfold ep_text.
  split; [done|]. by rewrite !bool_decide_eq_false_2 by (done || apply H2).
Qed.

Lemma number_part n : 0 <= n -> is_part (pretty n).
Proof.
  intros Hn. split; [by apply pretty_nonempty|]. eapply string_forallb_impl; [|by apply digits_pretty].
  intros c Hc. by rewrite digit_no_space.
Qed.

Lemma join_no_space rows : Forall (fun s => no_space s = true) rows -> no_space (join "/" rows) = true.
Proof.
  intros H. induction H as [|s rest Hs H IH]; [done|]. destruct rest as [|s' rest]; [done|].
  change (join "/" (s :: s' :: rest)) with (s +:+ ("/" +:+ join "/" (s' :: rest))). unfold no_space in *.
  rewrite string_forallb_app, Hs. exact IH.
Qed.

(** The rows of the board of a position, as texts. *)
Definition fen_rows (b : board) : list string := map (fun r => row_text (map (fun c => cell b (r, c)) (seqZ 0 8)) 0) (seqZ 0 8).

Section board.
Context (b : board).
Hypothesis Hwf : wf_board b.
Hypothesis Hkinds : forall s p, cell b s = Some p -> standard (p_kind p).

Lemma rows_ok : Forall (fun cells => row_ok cells /\ length cells = 8%nat) b.
Proof.
  rewrite <- (board_cells b) by done. apply Forall_forall. intros cells Hc.
  apply list_elem_of_fmap in Hc as (r & -> & _). split; [|done].
  apply Forall_forall. intros x Hx p ->. apply list_elem_of_fmap in Hx as (c & Hp & _). by eapply Hkinds.
Qed.

Lemma fen_rows_eq : fen_rows b = map (fun cells => row_text cells 0) b.
Proof. rewrite <- (board_cells b) at 2 by done. unfold fen_rows. by rewrite map_map. Qed.

Lemma fen_rows_text : Forall (fun s => no_space s = true) (fen_rows b) /\
  Forall (fun s => string_forallb (fun c => negb (bool_decide (c = "/"%char))) s = true) (fen_rows b) /\
  Forall (fun s => s <> "") (fen_rows b).
Proof.
  rewrite fen_rows_eq, !Forall_map.
  split_and!; eapply Forall_impl; try exact rows_ok; intros cells [Hok Hl]; simpl;
    destruct (row_text_chars cells 0 ltac:(lia) Hok) as (H1 & H2 & H3); [done..|]. apply H3. lia.
Qed.

Lemma fen_board : is_part (join "/" (fen_rows b)) /\
  map (fun r => parse_row (default "" (split_char "/" (join "/" (fen_rows b)) !! r)) 0 (replicate 8 None)) (List.seq 0 8) = b.
Proof.
  destruct fen_rows_text as (Hsp & Hsl & Hne).
  assert (Hl : length (fen_rows b) = 8%nat) by done. split; [split; [|by apply join_no_space]|].
  - destruct (fen_rows b) as [|s [|s' rest]]; try done. by inversion Hne as [|? ? Hs]; destruct s.
  - rewrite split_char_join by (done || by destruct (fen_rows b)).
    rewrite (map_seq_lookup (fun text => parse_row text 0 (replicate 8 None))) by done.
    rewrite fen_rows_eq, map_map. pose proof rows_ok as Hok. clear Hwf Hkinds Hsp Hsl Hne Hl. induction Hok as [|cells rest [Hc Hl] Hok IH]; [done|].
    simpl. f_equal; [|exact IH]. pose proof (parse_row_text cells 0 [] ltac:(lia) Hc) as H. rewrite Hl in H. exact H.
Qed.
End board.

Lemma fen_parse st :
  wf_board (pos_board st) -> (forall s p, cell (pos_board st) s = Some p -> standard (p_kind p)) ->
  (forall s, pos_enPassant st = Some s -> inBounds s = true) ->
  0 <= halfMoveClock st <= 1000 -> 1 <= fullMoveNumber st <= 100000 ->
  parseFen (boardToFen st) = st.
Proof.
  intros Hwf Hkinds Hep Hh Hf. destruct st as [b t c ep h f]. cbn [pos_board pos_enPassant halfMoveClock fullMoveNumber] in *.
  destruct (fen_board b Hwf Hkinds) as [Hp0 Hb]. destruct (castling_chars c) as [Hp2 Hc]. destruct (ep_chars ep Hep) as [Hp3 He].
  set (parts := [join "/" (fen_rows b); match t with White => "w" | Black => "b" end; castling_text c; ep_text ep;
                 pretty h; pretty f]).
  assert (Hparts : Forall is_part parts).
  { unfold parts. repeat (apply Forall_cons; split); try done; [by destruct t|by apply number_part; lia..]. }
  destruct (trim_join parts ltac:(done) Hparts) as [Htrim Hne].
  change (boardToFen _) with (join " " parts). unfold parseFen.
  rewrite (bool_decide_eq_false_2 (join " " parts = "")), Htrim, split_spaces_join by done.
  unfold parts, part_or, part_number. cbn [lookup list_lookup default from_option id option_map].
  rewrite (bool_decide_eq_false_2 (join "/" (fen_rows b) = "")) by apply Hp0.
  rewrite (bool_decide_eq_false_2 (castling_text c = "")) by apply Hp2.
  rewrite Hb, Hc, He, !to_number_pretty by lia. unfold clampInt. f_equal; [by destruct t|lia..].
Qed.

(** C31: parsing the notation of a position gives the position back: board, side to move,
    castling rights, en-passant square and clocks, whenever the board is eight rows of eight
    cells with chess pieces, the en-passant square lies on it and the clocks are within the
    limits that [parseFen] enforces. *)
Theorem fen_roundtrip st :
  wf_board (pos_board st) -> (forall s p, cell (pos_board st) s = Some p -> standard (p_kind p)) ->
  (forall s, pos_enPassant st = Some s -> inBounds s = true) ->
  0 <= halfMoveClock st <= 1000 -> 1 <= fullMoveNumber st <= 100000 ->
  parseFen (boardToFen st) = st.
Proof. apply fen_parse. Qed.

Lemma fen_roundtrip_witness :
  let st := mk_position (pos_board createInitialState) Black (mk_castling true false false true) (Some (5, 4)) 7 31 in
  parseFen (boardToFen st) = st.
Proof.
  intros st. apply (fen_roundtrip st).
  - split; [done|]. apply (bool_decide_unpack _). vm_compute. exact I.
  - apply initial_ok.
  - intros s [= <-]. reflexivity.
  - split; vm_compute; congruence.
  - split; vm_compute; congruence.
Defined.
