(* ===== verification/ChessPlay.v ===== *)
(** * Legal play from the start

    The positions a game can reach, what holds of all of them, and why the fifty-move rule
    ends every game ([assets/bundled-plugins/chess/rules.js]). *)

From S2P Require Import Prelude Json Chess ChessFacts.

(** [played n st]: [st] is reached by [n] legal moves, each of the side to move, and the
    fifty-move rule had not ended the game before the last of them. *)
Inductive played : nat -> position -> Prop :=
| no_move : played 0 createInitialState
| one_more n st m st' :
    played n st -> isFiftyMoveDraw st = false -> m ∈ getLegalMoves st (pos_turn st) -> applyMove st m = Some st' ->
    played (S n) st'.

Lemma played_ok n st : played n st -> pos_ok st.
Proof.
  induction 1 as [|n st m st' _ IH _ Hm Ha]; [exact initial_ok|].
  destruct (legal_move_ok st m IH Hm) as (st'' & Ha' & Hok & _). congruence.
Qed.

(** ** What is left to play

    Every piece counts one, a pawn also the ranks it still has before it. *)

Definition weight (s : square) (x : option piece) : Z :=
  match x with
  | Some p => 1 + (if is_pawn p then Z.abs (s.1 - promo_rank (p_color p)) else 0)
  | None => 0
  end.

Definition total_over (b : board) (ss : list square) : Z := foldr (fun s n => weight s (cell b s) + n) 0 ss.

Definition total (b : board) : Z := total_over b squares.

Lemma weight_nonneg s x : 0 <= weight s x.
Proof. destruct x as [p|]; simpl; [destruct (is_pawn p)|]; lia. Qed.

Lemma total_nonneg b : 0 <= total b.
Proof.
  unfold total, total_over. induction squares as [|s ss IH]; simpl; [lia|]. pose proof (weight_nonneg s (cell b s)). lia.
Qed.

Lemma total_over_put b s x ss : wf_board b -> inBounds s = true -> NoDup ss ->
  total_over (put b s x) ss = total_over b ss + (if decide (s ∈ ss) then weight s x - weight s (cell b s) else 0).
Proof.
  intros Hwf Hs. induction 1 as [|t ss Ht Hnd IH]; [done|]. unfold total_over in *. simpl. rewrite IH, cell_put by done.
  destruct (decide (s = t)) as [->|Hne].
  - rewrite (decide_False (P := t ∈ ss)), (decide_True (P := t ∈ t :: ss)) by set_solver. lia.
  - destruct (decide (s ∈ ss)); [rewrite (decide_True (P := s ∈ t :: ss)) by set_solver|
      rewrite (decide_False (P := s ∈ t :: ss)) by set_solver]; lia.
Qed.

Lemma squares_nodup : NoDup squares.
Proof. apply (bool_decide_unpack _). vm_compute. exact I. Qed.

Lemma total_put b s x : wf_board b -> inBounds s = true ->
  total (put b s x) = total b + weight s x - weight s (cell b s).
Proof.
  intros Hwf Hs. unfold total. rewrite total_over_put by (done || apply squares_nodup).
  rewrite decide_True by by apply elem_squares. lia.
Qed.

(** Taking off what stands behind a target never adds. *)
Lemma total_clear b s : wf_board b -> inBounds s = true -> total (put b s None) <= total b.
Proof. intros Hwf Hs. rewrite total_put by done. pose proof (weight_nonneg s (cell b s)). simpl. lia. Qed.

Definition zeroing (st : position) (m : move) (p : piece) : bool := is_pawn p || occupied (pos_board st) (m_to m).

Section step.
Context (st : position) (m : move) (p : piece).
Hypothesis Hstep : legal_step st m p.
Let b := pos_board st.

Lemma step_bounds : wf_board b /\ inBounds (m_from m) = true /\ inBounds (m_to m) = true.
Proof. split; [apply (po_wf _ (ls_ok _ _ _ Hstep))|]. by eapply move_in_bounds. Qed.

Lemma from_not_to : m_from m <> m_to m.
Proof.
  intros He. pose proof (ls_piece _ _ _ Hstep) as Hp. rewrite He in Hp.
  by apply (target_not_own _ _ _ _ Hstep Hp).
Qed.

(** What the move takes from its square and puts on the target. *)
Lemma total_moved :
  total (moved_board b p m) <= total b - weight (m_from m) (Some p) - weight (m_to m) (cell b (m_to m))
                               + weight (m_to m) (Some (placed p m)).
Proof.
  destruct step_bounds as (Hwf & Hf & Ht). pose proof from_not_to as Hne. pose proof (ls_piece _ _ _ Hstep) as Hp.
  fold b in Hp. rewrite moved_board_eq. cbv zeta.
  assert (H1 : wf_board (put b (m_from m) None)) by by apply put_wf.
  assert (Ht1 : total (put b (m_from m) None) = total b - weight (m_from m) (Some p))
    by (rewrite total_put, Hp by done; simpl; lia).
  assert (Hc1 : forall s, s <> m_from m -> cell (put b (m_from m) None) s = cell b s)
    by (intros s Hs; rewrite cell_put, decide_False by done; done).
  destruct (m_castle m) as [sd|] eqn:Hc.
  - destruct (rook_castles _ _ _ sd Hstep Hc) as (Hking & Hfrom & Hr & Hn & _). destruct (rook_squares p sd) as [Hrf Hrt].
    assert (He : m_enPassant m = false)
      by (destruct (ls_shape _ _ _ Hstep) as [| |]; congruence).
    rewrite He, (Hc1 (rook_from p sd)) by (rewrite Hking, Hfrom; destruct sd, (pos_turn st); done).
    assert (Hto : m_to m = (home_rank (p_color p), match sd with KingSide => 6 | QueenSide => 2 end))
      by (destruct (ls_shape _ _ _ Hstep) as [| |sd' _ Hsd]; [congruence..|]; by assert (sd' = sd) as -> by congruence).
    rewrite total_put by (repeat apply put_wf; done). rewrite !cell_put by (repeat apply put_wf; done).
    rewrite (decide_False (P := rook_from p sd = m_to m)), (decide_False (P := rook_to p sd = m_to m)), (decide_False (P := m_from m = m_to m))
      by (done || (rewrite Hto; destruct sd; intros [=])).
    rewrite !total_put by (repeat apply put_wf; done). rewrite !cell_put by (repeat apply put_wf; done).
    rewrite (decide_False (P := rook_to p sd = rook_from p sd)) by (destruct sd; intros [=]).
    rewrite !decide_False by (rewrite Hfrom, Hking; destruct sd, (pos_turn st); done).
    rewrite Hp. fold b in Hr, Hn. rewrite Hr, Hn. cbn [weight]. unfold is_pawn at 2 3. cbn [p_kind]. simpl. lia.
  - destruct (m_enPassant m) eqn:He.
    + pose proof (behind_in _ _ _ Hstep He) as Hb. assert (H2 : wf_board (put (put b (m_from m) None) (behind p m) None)) by by apply put_wf.
      pose proof (total_clear (put b (m_from m) None) (behind p m) H1 Hb). rewrite total_put by done.
      rewrite !cell_put by done. rewrite (decide_False (P := m_from m = m_to m)) by done.
      rewrite decide_False. 2: { intros Hq. pose proof (behind_pawn _ _ _ Hstep He) as Hbp. rewrite Hq in Hbp.
        destruct (ls_shape _ _ _ Hstep); congruence. }
      lia.
    + rewrite total_put by done. rewrite Hc1 by done. lia.
Qed.

(** A pawn comes nearer to the last rank, or is one no more. *)
Lemma pawn_nearer : p_kind p = Pawn -> weight (m_to m) (Some (placed p m)) < weight (m_from m) (Some p).
Proof.
  intros Hk. destruct step_bounds as (_ & Hf & Ht). apply in_bounds in Hf, Ht.
  assert (Hd : Z.abs ((m_to m).1 - promo_rank (p_color p)) < Z.abs ((m_from m).1 - promo_rank (p_color p))).
  { destruct (ls_shape _ _ _ Hstep) as [_ _ _ _ _ Hg _|_ _ _ _ _ _ _ Hg|sd _ _ _ Hk' _ _ _ _ _]; [| |congruence].
    - destruct (Hg Hk) as [H|[H _]]; rewrite H in *; destruct (p_color p); simpl in *; lia.
    - rewrite Hg in *. destruct (p_color p); simpl in *; lia. }
  destruct (placed_kind _ _ _ Hstep) as [->|[_ Hpl]]; simpl; unfold is_pawn; rewrite Hk.
  - rewrite bool_decide_eq_true_2 by done. lia.
  - rewrite (bool_decide_eq_true_2 (Pawn = Pawn)) by done. rewrite bool_decide_eq_false_2; [lia|].
    intros Hq. rewrite Hq in Hpl. by repeat (apply elem_of_cons in Hpl as [Hpl|Hpl]; [done|]); apply elem_of_nil in Hpl.
Qed.

Lemma officer_keeps : p_kind p <> Pawn -> weight (m_to m) (Some (placed p m)) = weight (m_from m) (Some p).
Proof.
  intros Hk. destruct (placed_kind _ _ _ Hstep) as [->|[? _]]; [|done]. simpl. unfold is_pawn. by rewrite bool_decide_eq_false_2.
Qed.

Lemma total_step :
  total (moved_board b p m) <= total b - (if zeroing st m p then 1 else 0).
Proof.
  pose proof total_moved as H. pose proof (weight_nonneg (m_to m) (cell b (m_to m))) as Hw.
  unfold zeroing. destruct (decide (p_kind p = Pawn)) as [Hk|Hk].
  - pose proof (pawn_nearer Hk). unfold is_pawn. rewrite bool_decide_eq_true_2 by done. simpl. lia.
  - pose proof (officer_keeps Hk). unfold is_pawn. rewrite (bool_decide_eq_false_2 (p_kind p = Pawn)) by done. cbn [orb].
    unfold occupied. fold b. destruct (cell b (m_to m)) as [q|]; [|lia].
    assert (1 <= weight (m_to m) (Some q)) by (simpl; destruct (is_pawn q); lia). lia.
Qed.
End step.

(** ** Termination *)

Definition measure (st : position) : Z := 100 * total (pos_board st) + (100 - halfMoveClock st).

Lemma played_bounded n st : played n st ->
  Z.of_nat n + measure st <= 12900 /\ halfMoveClock st <= 100 /\ fullMoveNumber st <= 1 + Z.of_nat n.
Proof.
  induction 1 as [|n st m st' Hpl (IH & _ & IHf) Hd Hm Ha]; [vm_compute; split_and!; congruence|].
  pose proof (played_ok _ _ Hpl) as Hok. destruct (legal_shape _ _ _ Hm) as (p & st'' & Hp & Hc & _ & Hsh & Ha' & _).
  assert (Hstep : legal_step st m p) by by constructor. pose proof (total_step st m p Hstep) as Htot.
  unfold isFiftyMoveDraw in Hd. apply Z.leb_gt in Hd. pose proof (po_clocks _ Hok) as [Hh _].
  unfold applyMove in Ha. rewrite Hp in Ha. injection Ha as <-. unfold measure, zeroing in *.
  cbn [pos_board halfMoveClock fullMoveNumber]. destruct (is_pawn p || occupied (pos_board st) (m_to m)), (pos_turn st); lia.
Qed.

(** C21: a game of chess played by these rules ends.  However the two sides choose among their
    legal moves, no game has more than 12900 of them before the fifty-move rule stops it:
    captures and pawn moves use up the pieces and the ranks before the pawns, and between two
    of them the clock admits at most a hundred moves. *)
Theorem chess_terminates n st : played n st -> Z.of_nat n <= 12900.
Proof.
  intros H. destruct (played_bounded _ _ H) as (Hn & Hh & _). pose proof (total_nonneg (pos_board st)). unfold measure in Hn. lia.
Qed.

(** C20: in every position that legal play reaches each side has exactly one king, the side that
    has moved has not left its king attacked, no legal move captures a king, an en-passant
    square is the one behind a pawn that has just passed it, and a castling right belongs to a
    king and a rook on their squares. *)
Theorem legal_play_sound n st : played n st ->
  (forall c, exists k, king_at (pos_board st) c k) /\ isInCheck st (opponent (pos_turn st)) = false /\
  (forall m c, m ∈ getLegalMoves st (pos_turn st) -> cell (pos_board st) (m_to m) <> Some (mk_piece c King)) /\
  (forall e, pos_enPassant st = Some e ->
     cell (pos_board st) (e.1 - pawn_dir (pos_turn st), e.2) = Some (mk_piece (opponent (pos_turn st)) Pawn)) /\
  (forall c sd, may_castle (pos_castling st) c sd = true ->
     cell (pos_board st) (home_rank c, 4) = Some (mk_piece c King) /\
     cell (pos_board st) (home_rank c, rook_file sd) = Some (mk_piece c Rook)).
Proof.
  intros H. pose proof (played_ok _ _ H) as Hok. split_and!; try apply Hok.
  - intros m c Hm. destruct (legal_shape _ _ _ Hm) as (p & st' & Hp & Hc & _ & Hsh & _ & _).
    by apply (target_no_king st m p).
Qed.

Lemma legal_play_sound_witness :
  exists st, played 1 st /\ pos_turn st = Black /\ isInCheck st White = false.
Proof.
  destruct (legal_shape createInitialState White (simple (6, 4) (4, 4)) ltac:(apply (bool_decide_unpack _); vm_compute; exact I))
    as (_ & st & _ & _ & _ & _ & Ha & _).
  assert (Hp : played 1 st).
  { apply one_more with createInitialState (simple (6, 4) (4, 4)); [exact no_move|reflexivity| |exact Ha].
    apply (bool_decide_unpack _). vm_compute. exact I. }
  exists st. split; [exact Hp|]. assert (Ht : pos_turn st = Black) by (injection Ha as <-; reflexivity).
  split; [exact Ht|]. destruct (legal_play_sound 1 st Hp) as (_ & Hs & _). rewrite Ht in Hs. exact Hs.
Defined.

Lemma chess_terminates_witness : played 0 createInitialState /\ Z.of_nat 0 <= 12900.
Proof. split; [exact no_move|]. exact (chess_terminates 0 createInitialState no_move). Defined.
