(* ===== verification/ChessGame.v ===== *)
(** * Facts about hosted games of chess ([assets/bundled-plugins/chess/engine.js])

    The position of a host changes only by legal moves of the player whose turn it is, its
    verdicts are true of the board, and a saved game resumes where it was left. *)

From stdpp Require Import pretty.
From S2P Require Import Prelude Json Chess ChessFacts ChessFen ChessPlay ChessHost.

(** ** What the operations leave alone *)

(** The clocks tick in a running timed game only, and may end it. *)
Lemma tick_cases now h :
  tickClocks now h = h \/
  phase h = Playing /\ timed h = true /\ gameResult h = None /\
  exists w b, (whiteMs h = w \/ 0 <= w) /\ (blackMs h = b \/ 0 <= b) /\
    let ticked := h <| clockLastTick := now |> <| whiteMs := w |> <| blackMs := b |> in
    tickClocks now h = ticked \/ exists c, tickClocks now h = endGame (Timeout c) ticked.
Proof.
  unfold tickClocks. destruct (_ || _ || _) eqn:Hr; [by left|]. right. apply orb_false_elim in Hr as [Hr Hg].
  apply orb_false_elim in Hr as [Hp Ht]. bool_cases. split_and!; [done..|]. cbv zeta.
  change (pos_turn (chessState (h <| clockLastTick := now |>))) with (pos_turn (chessState h)).
  destruct (pos_turn (chessState h)).
  - exists (0 `max` (whiteMs h - (now - clockLastTick h))), (blackMs h). split_and!; [right; lia|by left|].
    destruct (Z.leb _ 0 || _); [right; eexists|left]; by destruct h.
  - exists (whiteMs h), (0 `max` (blackMs h - (now - clockLastTick h))). split_and!; [by left|right; lia|].
    destruct (Z.leb _ 0 || _); [right; eexists|left]; by destruct h.
Qed.

Lemma tick_position now h : chessState (tickClocks now h) = chessState h.
Proof. by destruct (tick_cases now h) as [->|(_ & _ & _ & w & b & _ & _ & [->|[c ->]])]. Qed.

Lemma push_position now h : chessState (pushState now h) = chessState h.
Proof. apply tick_position. Qed.

(** The state after [pushState] of a state with the same position. *)
Ltac pushed := cbn [snd]; rewrite ?push_position; reflexivity.

Lemma conclude_position now c h : chessState (conclude now c h) = chessState h.
Proof. unfold conclude. repeat case_match; try done; pushed. Qed.

Lemma add_position now peer name h : chessState (snd (addPlayer now peer name h)) = chessState h.
Proof.
  unfold addPlayer. destruct (bool_decide _); [done|]. destruct (Nat.leb _ _); [done|]. pushed.
Qed.

Lemma remove_position now peer h : chessState (removePlayer now peer h) = chessState h.
Proof.
  unfold removePlayer. destruct (find_seat _ _); [|done]. destruct (_ && _); [done|]. pushed.
Qed.

Lemma kick_position now peer h : chessState (snd (kickPlayer now peer h)) = chessState h.
Proof.
  unfold kickPlayer. destruct (bool_decide _); [done|]. destruct (find_seat _ _); [|done]. cbn [snd]. rewrite push_position.
  apply (remove_position now peer (emit (Kicked peer) h)).
Qed.

Lemma join_position now from name h : chessState (handle_join now from name h) = chessState h.
Proof.
  unfold handle_join. destruct (negb _); [done|]. destruct (_ && _ && _); [done|].
  pose proof (add_position now from name h) as H. by destruct (addPlayer now from name h).
Qed.

(** The players who make a move: what [makeMove] does when it accepts one. *)
Definition accepted (now : Z) (peer : string) (h : host) (p : seat) (m : move) (after : position) : Prop :=
  acting peer h = Some p /\ s_color p = pos_turn (chessState h) /\
  m ∈ getLegalMoves (chessState h) (pos_turn (chessState h)) /\ applyMove (chessState h) m = Some after.

Lemma find_elem {A} (f : A -> bool) l x : List.find f l = Some x -> x ∈ l /\ f x = true.
Proof. intros H. apply find_some in H as [H ?]. by rewrite <- list_elem_of_In in H. Qed.

Lemma makeMove_spec now peer raw h :
  makeMove now peer raw h = (false, h) \/
  exists p m after, accepted now peer h p m after /\
    makeMove now peer raw h =
      (true, conclude now (pos_turn (chessState h)) (play now m after (tickClocks now h))).
Proof.
  unfold makeMove. destruct (acting peer h) as [p|] eqn:Hp; [|by left].
  destruct (negb _) eqn:Hc; [by left|]. bool_cases.
  destruct (normalizeMove raw) as [req|]; [|by left].
  destruct (List.find _ _) as [m|] eqn:Hf; [|by left]. apply find_elem in Hf as [Hm _]. rewrite Hc in Hm.
  right. exists p, m. rewrite !tick_position. destruct (legal_shape _ _ _ Hm) as (_ & st' & _ & _ & _ & _ & Ha & _).
  rewrite Ha. by exists st'.
Qed.

Lemma acting_spec peer h p : acting peer h = Some p ->
  find_seat peer (players h) = Some p /\ phase h = Playing /\ gameResult h = None.
Proof.
  unfold acting. destruct (find_seat peer (players h)) as [q|]; [|done].
  destruct (_ && _) eqn:Hc; [|done]. intros [= ->]. bool_cases. done.
Qed.

(** The event as a move of a player. *)
Definition actor (e : event) : option string :=
  match e with Wire from _ => Some from | Act peerId _ => Some peerId | _ => None end.

Lemma action_cases now peer action h :
  chessState (snd (applyAction now peer action h)) = chessState h \/
  exists p m after, accepted now peer h p m after /\ chessState (snd (applyAction now peer action h)) = after.
Proof.
  unfold applyAction. destruct (is_text _ "move").
  - destruct (makeMove_spec now peer action h) as [->|(p & m & after & Hacc & ->)]; [by left|right].
    exists p, m, after. split; [done|]. cbn [snd]. by rewrite conclude_position.
  - left. unfold resign, offerDraw, acceptDraw, declineDraw.
    destruct (is_text _ "resign"); [by destruct (acting peer h)|].
    destruct (is_text _ "offerDraw"); [destruct (acting peer h); [pushed|done]|].
    destruct (is_text _ "acceptDraw"); [destruct (find_seat peer (players h)); [by destruct (_ && _)|done]|].
    destruct (is_text _ "declineDraw"); [|done].
    destruct (find_seat peer (players h)); [|done]. destruct (answerable _ h); [pushed|done].
Qed.

(** C32: the position of a hosted game changes in two ways only: a game that starts in the lobby
    gets the initial position, and in a running game without a result the seated player whose
    turn it is makes one of the legal moves.  Whatever else arrives, from whomever, leaves the
    position alone. *)
Theorem position_changes_legally now e h :
  chessState (step now e h) = chessState h \/
  (e = Start /\ phase h = Lobby /\ chessState (step now e h) = createInitialState) \/
  exists peer p m, actor e = Some peer /\ find_seat peer (players h) = Some p /\ phase h = Playing /\
    gameResult h = None /\ s_color p = pos_turn (chessState h) /\
    m ∈ getLegalMoves (chessState h) (pos_turn (chessState h)) /\
    applyMove (chessState h) m = Some (chessState (step now e h)).
Proof.
  assert (Hact : forall peer action, actor e = Some peer -> step now e h = snd (applyAction now peer action h) ->
    chessState (step now e h) = chessState h \/ exists peer p m, actor e = Some peer /\ find_seat peer (players h) = Some p /\
      phase h = Playing /\ gameResult h = None /\ s_color p = pos_turn (chessState h) /\
      m ∈ getLegalMoves (chessState h) (pos_turn (chessState h)) /\ applyMove (chessState h) m = Some (chessState (step now e h))).
  { intros peer action He ->. destruct (action_cases now peer action h) as [|(p & m & after & (Hp & Hc & Hm & Ha) & Heq)]; [by left|right].
    apply acting_spec in Hp as (Hs & Hph & Hr). exists peer, p, m. rewrite Heq. done. }
  destruct e as [from body|peer action| |peer|peer|patch|peer reachable| |]; cbn [step] in *.
  - specialize (Hact from (prop body "action") eq_refl). unfold onWire in *.
    destruct (_ && _); [left; apply join_position|]. destruct (is_text _ "leave"); [left; apply remove_position|].
    destruct (_ && _); [|by left]. specialize (Hact eq_refl). tauto.
  - specialize (Hact peer action eq_refl eq_refl). tauto.
  - unfold startGame. destruct (negb _) eqn:Hp; [by left|]. bool_cases.
    repeat case_match; [left; pushed..|]. right; left. split_and!; [done..|pushed].
  - left. apply remove_position.
  - left. apply kick_position.
  - left. unfold updateSettings. case_match; pushed.
  - left. unfold invitePeer. destruct (_ || _ || _); [done|]. pushed.
  - left. unfold saveNow. pushed.
  - left. case_match; [pushed|done].
Qed.

(** ** The invariant of a host *)

(** What a result says of the position. *)
Definition verdict (r : game_result) (st : position) : Prop :=
  match r with
  | Checkmate w => pos_turn st = opponent w /\ isCheckmate st (opponent w) = true
  | Stalemate => isStalemate st (pos_turn st) = true
  | _ => True
  end.

(** What holds at every point of a step. *)
Record base (h : host) : Prop := mk_base {
  b_played : played (length (moveHistory h)) (chessState h);
  b_seats : (length (players h) <= 2)%nat;
  b_clocks : 0 <= whiteMs h /\ 0 <= blackMs h;
  b_cfg : 0 <= timeControlSec (cfg h) <= 7200
}.

(** A game in play goes on: the side to move has a move, and no draw is due. *)
Definition live (h : host) : Prop :=
  hasLegalMove (chessState h) (pos_turn (chessState h)) = true /\ draw_condition (chessState h) = None.

Record inv (h : host) : Prop := mk_inv {
  i_base : base h;
  i_over : phase h = GameOver <-> gameResult h <> None;
  i_live : phase h = Playing -> live h;
  i_verdict : forall r, gameResult h = Some r -> verdict r (chessState h)
}.

(** The part of the state the invariant speaks of. *)
Definition core (h : host) := (cfg h, players h, phase h, chessState h, moveHistory h, gameResult h, whiteMs h, blackMs h).

Lemma inv_core h h' : core h = core h' -> inv h -> inv h'.
Proof.
  unfold core. intros [= H1 H2 H3 H4 H5 H6 H7 H8] [[Hb1 Hb2 Hb3 Hb4] Ho Hl Hv]. unfold live in Hl.
  rewrite ?H1, ?H2, ?H3, ?H4, ?H5, ?H6, ?H7, ?H8 in *. constructor; [by constructor|done..].
Qed.

Lemma base_over r h : base h -> verdict r (chessState h) -> inv (endGame r h).
Proof.
  intros [Hb1 Hb2 Hb3 Hb4] Hv. constructor; [by constructor|done|done|]. by intros r' [= <-].
Qed.

Lemma ticked_base h w b now : base h -> (whiteMs h = w \/ 0 <= w) -> (blackMs h = b \/ 0 <= b) ->
  base (h <| clockLastTick := now |> <| whiteMs := w |> <| blackMs := b |>).
Proof. intros [Hb1 Hb2 Hb3 Hb4] Hw Hb. constructor; try done. simpl. lia. Qed.

Lemma tick_inv now h : inv h -> inv (tickClocks now h).
Proof.
  intros H. destruct (tick_cases now h) as [->|(Hp & _ & Hr & w & b & Hw & Hb & Hc)]; [done|].
  pose proof (ticked_base h w b now (i_base _ H) Hw Hb) as Hbase. destruct Hc as [->|[c ->]]; [|by apply base_over].
  constructor; [done|apply H..].
Qed.

Lemma push_inv now h h' : core h = core h' -> inv h -> inv (pushState now h').
Proof. intros Hc H. apply (inv_core (tickClocks now h')); [done|]. apply tick_inv. by apply (inv_core h). Qed.

(** A state that differs in what the invariant does not speak of. *)
Ltac same_core := match goal with H : inv ?h |- _ => first [apply (push_inv _ h) | apply (inv_core h)]; [reflexivity|exact H] end.

Lemma insert_seat_length p ps : length (insert_seat p ps) = S (length ps).
Proof. induction ps as [|q ps IH]; simpl; [done|]. destruct (Z.ltb _ _); simpl; lia. Qed.

Lemma sort_seats_length ps : length (sort_seats ps) = length ps.
Proof.
  unfold sort_seats. assert (H : forall acc, length (fold_left (fun acc p => insert_seat p acc) ps acc) = (length ps + length acc)%nat);
    [|rewrite H; simpl; lia].
  induction ps as [|p ps IH]; intros acc; simpl; [done|]. rewrite IH, insert_seat_length. lia.
Qed.

Lemma remove_seat_length peer ps : (length (remove_seat peer ps) <= length ps)%nat.
Proof. induction ps as [|p ps IH]; simpl; [lia|]. case_bool_decide; simpl; lia. Qed.

Lemma remove_seat_found peer ps p : find_seat peer ps = Some p -> S (length (remove_seat peer ps)) = length ps.
Proof.
  unfold find_seat. induction ps as [|q ps IH]; simpl; [done|]. case_bool_decide; simpl; [done|]. intros H'. by rewrite IH.
Qed.

Lemma players_inv ps h : inv h -> (length ps <= 2)%nat -> inv (h <| players := ps |>).
Proof. intros [[Hb1 Hb2 Hb3 Hb4] Ho Hlv Hv] Hps. constructor; [by constructor|done..]. Qed.

Lemma add_inv now peer name h : inv h -> inv (snd (addPlayer now peer name h)).
Proof.
  intros H. unfold addPlayer. destruct (bool_decide _); [done|]. destruct (Nat.leb 2 _) eqn:Hl; [done|]. bool_cases. cbn [snd].
  assert (Hlen : forall p, (length (sort_seats (players h ++ [p])) <= 2)%nat)
    by (intros p; rewrite sort_seats_length, length_app; simpl; lia).
  eapply (push_inv _ (h <| players := _ |>)); [reflexivity|]. apply players_inv; [done|]. apply Hlen.
Qed.

Lemma remove_inv now peer h : inv h -> inv (removePlayer now peer h).
Proof.
  intros H. unfold removePlayer. destruct (find_seat peer (players h)) as [p|] eqn:Hf; [|done].
  pose proof (remove_seat_found _ _ _ Hf) as Hl. pose proof (b_seats _ (i_base _ H)) as Hle.
  pose proof (players_inv (remove_seat peer (players h)) h H ltac:(lia)) as H'. cbv zeta.
  change (phase (h <| players := _ |> <| invitedPeers := _ |>)) with (phase h).
  change (players (h <| players := _ |> <| invitedPeers := _ |>)) with (remove_seat peer (players h)).
  destruct (bool_decide (phase h = Playing)) eqn:Hp; cbn [andb].
  - assert (Nat.ltb (length (remove_seat peer (players h))) 2 = true) as -> by (apply Nat.ltb_lt; lia).
    apply base_over; [|done]. destruct (i_base _ H') as [H1 H2 H3 H4]. by constructor.
  - by eapply push_inv; [|exact H'].
Qed.

Lemma full_clock_nonneg h : 0 <= full_clock h.
Proof. unfold full_clock, timed. destruct (Z.ltb_spec 0 (timeControlSec (cfg h))); lia. Qed.

Lemma start_inv now h : inv h -> inv (startGame now h).
Proof.
  intros H. unfold startGame. destruct (negb _); [done|]. destruct (Nat.ltb (length (players h)) 2); [same_core|].
  destruct (Nat.ltb (connected_seats (players h)) 2); [same_core|].
  pose proof (full_clock_nonneg h) as Hc. destruct (i_base _ H) as [H1 H2 H3 H4].
  eapply push_inv; [reflexivity|].
  constructor; [|done| |done]; [constructor; [exact no_move|done|done|done]|].
  intros _. split; vm_compute; reflexivity.
Qed.

(** A move keeps the base, whether or not the clock has just ended the game. *)
Lemma play_base now peer p m after h : inv h -> accepted now peer h p m after -> base (play now m after (tickClocks now h)).
Proof.
  intros H (Hp & _ & Hm & Ha). apply acting_spec in Hp as (_ & Hph & _). destruct (i_live _ H Hph) as [_ Hd].
  pose proof (tick_inv now h H) as Ht. pose proof (tick_position now h) as Hpos.
  assert (Hhist : moveHistory (tickClocks now h) = moveHistory h)
    by (destruct (tick_cases now h) as [->|(_ & _ & _ & w & b & _ & _ & [->|[c ->]])]; done).
  destruct (i_base _ Ht) as [H1 H2 H3 H4]. constructor; try done.
  change (moveHistory (play _ _ _ ?g)) with (moveHistory g ++ [mk_played
    (moveToSan (chessState g) m +:+ (if isCheckmate after (opponent (pos_turn (chessState g))) then "#"
       else if isInCheck after (opponent (pos_turn (chessState g))) then "+" else "")) (pos_turn (chessState g))
    (w_from (moveToWire m)) (w_to (moveToWire m))]).
  change (chessState (play _ _ _ _)) with after. rewrite Hhist, length_app, Nat.add_comm. simpl.
  refine (one_more _ (chessState h) m _ (b_played _ (i_base _ H)) _ Hm Ha).
  unfold draw_condition in Hd. by destruct (isFiftyMoveDraw _).
Qed.

Lemma play_phase now m after h : phase (play now m after (tickClocks now h)) = phase (tickClocks now h) /\
  gameResult (play now m after (tickClocks now h)) = gameResult (tickClocks now h) /\
  chessState (play now m after (tickClocks now h)) = after.
Proof. done. Qed.

(** After a move either the game is over with a result that is true of the board, or the next
    player can move. *)
Lemma conclude_inv now c h : base h -> pos_turn (chessState h) = opponent c ->
  (phase h = Playing /\ gameResult h = None \/ phase h = GameOver /\ exists w, gameResult h = Some (Timeout w)) ->
  inv (conclude now c h).
Proof.
  intros Hb Ht Hp. unfold conclude. destruct (isCheckmate _ _) eqn:Hm; [by apply base_over|].
  destruct (isStalemate _ _) eqn:Hs; [apply base_over; [done|]; simpl; by rewrite Ht|].
  destruct (draw_condition _) as [reason|] eqn:Hd; [by apply base_over|].
  apply (push_inv _ h); [reflexivity|]. constructor; [done| | |].
  - by destruct Hp as [[-> ->]|[-> [w ->]]].
  - intros _. split; [|done]. rewrite Ht. unfold isCheckmate, isStalemate in *.
    destruct (isInCheck _ _), (hasLegalMove _ _); done.
  - intros r Hr. destruct Hp as [[_ Hn]|[_ [w Hn]]]; rewrite Hr in Hn; [done|]. by injection Hn as ->.
Qed.

Lemma move_inv now peer raw h : inv h -> inv (snd (makeMove now peer raw h)).
Proof.
  intros H. destruct (makeMove_spec now peer raw h) as [->|(p & m & after & Hacc & ->)]; [done|]. cbn [snd].
  pose proof (play_base _ _ _ _ _ _ H Hacc) as Hb. destruct Hacc as (Hp & _ & Hm & Ha).
  destruct (acting_spec _ _ _ Hp) as (_ & Hph & Hr). destruct (play_phase now m after h) as (Hph' & Hr' & Hst).
  apply conclude_inv; [done| |].
  - rewrite Hst. destruct (legal_move_ok _ m (played_ok _ _ (b_played _ (i_base _ H))) Hm) as (st' & Ha' & _ & Ht). congruence.
  - rewrite Hph', Hr'. destruct (tick_cases now h) as [->|(_ & _ & _ & w & b & _ & _ & [->|[c ->]])]; [by left..|].
    right. split; [done|]. by exists c.
Qed.

Lemma answer_inv now peer h : inv h ->
  inv (snd (resign peer h)) /\ inv (snd (offerDraw now peer h)) /\ inv (snd (acceptDraw peer h)) /\ inv (snd (declineDraw now peer h)).
Proof.
  intros H. pose proof (i_base _ H) as Hb. unfold resign, offerDraw, acceptDraw, declineDraw.
  destruct (acting peer h); cbn [snd]; (split; [|split; [|split]]); try done; try (by apply base_over); try same_core;
    (destruct (find_seat peer (players h)); [|done]).
  all: first [destruct (_ && _); [by apply base_over|done] | destruct (answerable _ h); [same_core|done]].
Qed.

Lemma action_inv now peer action h : inv h -> inv (snd (applyAction now peer action h)).
Proof.
  intros H. destruct (answer_inv now peer h H) as (H1 & H2 & H3 & H4). unfold applyAction.
  repeat (destruct (is_text _ _); [first [done | by apply move_inv]|]). done.
Qed.

Lemma join_inv now from name h : inv h -> inv (handle_join now from name h).
Proof.
  intros H. unfold handle_join. destruct (negb _); [same_core|]. destruct (_ && _ && _); [same_core|].
  pose proof (add_inv now from name h H) as Ha. destruct (addPlayer now from name h) as [ok h']. cbn [snd] in Ha.
  by apply (inv_core h').
Qed.

Lemma kick_inv now peer h : inv h -> inv (snd (kickPlayer now peer h)).
Proof.
  intros H. unfold kickPlayer. destruct (bool_decide _); [done|]. destruct (find_seat _ _); [|done]. cbn [snd].
  eapply push_inv; [|apply (remove_inv now peer (emit (Kicked peer) h)); same_core]. reflexivity.
Qed.

Lemma sanitize_time patch fb : 0 <= timeControlSec fb <= 7200 -> 0 <= timeControlSec (sanitizeSettings patch fb) <= 7200.
Proof. intros H. unfold sanitizeSettings. cbn [timeControlSec]. unfold clampInt. case_match; lia. Qed.

Lemma settings_inv now patch h : inv h -> inv (updateSettings now patch h).
Proof.
  intros H. unfold updateSettings. destruct (negb _); [same_core|].
  set (c := sanitizeSettings patch (cfg h)). pose proof (full_clock_nonneg (h <| cfg := c |>)) as Hc.
  eapply (push_inv _ (h <| cfg := c |> <| whiteMs := full_clock (h <| cfg := c |>) |> <| blackMs := full_clock (h <| cfg := c |>) |>));
    [reflexivity|].
  destruct H as [[H1 H2 H3 H4] Ho Hl Hv]. constructor; [|done..]. constructor; [done|done|done|]. by apply sanitize_time.
Qed.

Lemma step_inv now e h : inv h -> inv (step now e h).
Proof.
  intros H. destruct e as [from body|peer action| |peer|peer|patch|peer reachable| |]; cbn [step].
  - unfold onWire. destruct (_ && _); [by apply join_inv|]. destruct (is_text _ _); [by apply remove_inv|].
    destruct (_ && _); [by apply action_inv|done].
  - by apply action_inv.
  - by apply start_inv.
  - by apply remove_inv.
  - by apply kick_inv.
  - by apply settings_inv.
  - unfold invitePeer. destruct (_ || _ || _); [done|]. cbn [snd]. same_core.
  - unfold saveNow. same_core.
  - destruct (clockTimer h); [same_core|done].
Qed.

Lemma new_inv now self id input : inv (newHost now self id input).
Proof.
  pose proof (sanitize_time input defaultSettings ltac:(vm_compute; split; congruence)) as Hs. unfold newHost.
  set (c := sanitizeSettings input defaultSettings) in *.
  constructor; [|done|done|done]. constructor; [exact no_move|simpl; lia| |done].
  cbn [whiteMs blackMs]. destruct (Z.ltb_spec 0 (timeControlSec c)); lia.
Qed.

(** The states of a host that is created and then works through a list of events. *)
Definition hosted (now : Z) (self id : string) (input : fields) (es : list (Z * event)) : host :=
  run es (newHost now self id input).

Lemma hosted_inv now self id input es : inv (hosted now self id input es).
Proof.
  unfold hosted, run. assert (H : forall h, inv h -> inv (fold_left (fun h te => step te.1 te.2 h) es h)); [|apply H, new_inv].
  induction es as [|[t e] es IH]; intros h H; simpl; [done|]. apply IH. by apply step_inv.
Qed.

(** In every state a host reaches, whatever is sent to it: a game is over exactly when it has
    a result; a checkmate is a checkmate of the loser on the board and a stalemate one of the
    side to move; a game in play has a legal move for the side whose turn it is and no draw is
    due; it has at most 12900 moves; neither clock is negative and at most two players sit. *)
Theorem host_verdicts now self id input es : let h := hosted now self id input es in
  (phase h = GameOver <-> gameResult h <> None) /\
  (forall w, gameResult h = Some (Checkmate w) -> isCheckmate (chessState h) (opponent w) = true) /\
  (gameResult h = Some Stalemate -> isStalemate (chessState h) (pos_turn (chessState h)) = true) /\
  (phase h = Playing -> hasLegalMove (chessState h) (pos_turn (chessState h)) = true /\ draw_condition (chessState h) = None) /\
  Z.of_nat (length (moveHistory h)) <= 12900 /\ 0 <= whiteMs h /\ 0 <= blackMs h /\ (length (players h) <= 2)%nat.
Proof.
  cbv zeta. destruct (hosted_inv now self id input es) as [[Hp Hs [Hw Hb] Hc] Ho Hl Hv].
  split_and!; try done.
  - intros w Hr. by destruct (Hv _ Hr).
  - intros Hr. by apply (Hv _ Hr).
  - destruct (played_bounded _ _ Hp) as (Hn & Hh & _). pose proof (total_nonneg (pos_board (chessState (hosted now self id input es)))).
    unfold measure in Hn. lia.
Qed.

Lemma hosted_fen h : inv h -> parseFen (boardToFen (chessState h)) = chessState h.
Proof.
  intros H. pose proof (b_played _ (i_base _ H)) as Hp. pose proof (played_ok _ _ Hp) as Hok.
  destruct (played_bounded _ _ Hp) as (Hn & Hh & Hf). pose proof (po_clocks _ Hok) as [H0 H1]. unfold measure in Hn.
  pose proof (total_nonneg (pos_board (chessState h))).
  apply fen_parse; [apply Hok|apply Hok| |lia|lia]. intros s Hs. by apply (po_ep _ Hok).
Qed.

(** Whatever a host has been through, the game it saves resumes on another host where it was
    left: the same position with its rights and counters, and with it the same legal moves, the
    same phase, result, history, draw offer and clocks. *)
Theorem saved_game_resumes now self id input es reason sv now' self' id' online input' :
  let h := hosted now self id input es in
  last (out (checkpoint reason h)) = Some (Saved sv) ->
  let h' := restoreHost now' self' id' online input' sv in
  chessState h' = chessState h /\ phase h' = phase h /\ gameResult h' = gameResult h /\ moveHistory h' = moveHistory h /\
  lastMove h' = lastMove h /\ drawOffer h' = drawOffer h /\ whiteMs h' = whiteMs h /\ blackMs h' = blackMs h /\
  invitedPeers h' = invitedPeers h /\
  (forall c, getLegalMoves (chessState h') c = getLegalMoves (chessState h) c).
Proof.
  cbv zeta. pose proof (hosted_fen _ (hosted_inv now self id input es)) as Hfen. set (h := hosted now self id input es) in *.
  unfold checkpoint, emit. change (out (h <| out := ?x |>)) with x. rewrite last_snoc. intros [= <-].
  assert (Hst : chessState (restoreHost now' self' id' online input' (mk_saved reason (phase h) (cfg h)
    (map (fun p => (s_peer p, s_name p, s_seat p)) (players h)) (boardToFen (chessState h)) (lastMove h) (moveHistory h)
    (gameResult h) (drawOffer h) (whiteMs h, blackMs h) (invitedPeers h) (message h))) = chessState h) by exact Hfen.
  split_and!; try done. intros c. by rewrite Hst.
Qed.

Lemma saved_game_resumes_witness :
  let start := hosted 0 "a" "g" [] [(0, Wire "a" None)] in
  let sv := mk_saved "manual" (phase start) (cfg start) [] (boardToFen (chessState start)) None [] None None (0, 0) [] "" in
  chessState (restoreHost 9 "z" "g" (fun _ => false) [] sv) = chessState start /\
  length (getLegalMoves (chessState (restoreHost 9 "z" "g" (fun _ => false) [] sv)) White) = 20%nat.
Proof.
  intros start sv.
  destruct (saved_game_resumes 0 "a" "g" [] [(0, Wire "a" None)] "manual" sv 9 "z" "g" (fun _ => false) [] ltac:(vm_compute; reflexivity))
    as (Hst & _ & _ & _ & _ & _ & _ & _ & _ & Hm).
  split; [exact Hst|]. rewrite Hm. vm_compute. reflexivity.
Defined.
