(* ===== verification/ChessPage.v ===== *)
(** * Moves made on the page of a chess game ([ChessGamePage.jsx], [chess/engine.js])

    Which of the legal moves a player can make: what the page sends is compared with the legal
    moves of the host, and the guest's page is sent squares that are none. *)

From stdpp Require Import pretty.
From S2P Require Import Prelude Json Chess ChessFacts ChessFen ChessPlay ChessHost ChessGame.

(** A move without a flag: neither castling nor en passant. *)
Definition plain (m : move) : bool := negb (m_enPassant m) && bool_decide (m_castle m = None).

Lemma legal_source st c m : m ∈ getLegalMoves st c ->
  exists p, cell (pos_board st) (m_from m) = Some p /\ p_color p = c /\ m ∈ pieceMoves (pos_board st) (m_from m) st.
Proof.
  unfold getLegalMoves. rewrite list_elem_of_In, filter_In, <- list_elem_of_In. intros [H _].
  unfold getPseudoLegalMoves in H. apply elem_concat_map in H as (s & Hs & H).
  destruct (cell (pos_board st) s) as [p|] eqn:Hp; simpl in H; [|by apply elem_of_nil in H].
  case_bool_decide as Hc; [|by apply elem_of_nil in H].
  destruct (pieceMoves_shape _ _ _ _ _ Hp H) as [_ Hfrom]. rewrite Hfrom. by exists p.
Qed.

Lemma legal_in_bounds st c m : m ∈ getLegalMoves st c -> inBounds (m_from m) = true /\ inBounds (m_to m) = true.
Proof.
  intros H. destruct (legal_shape _ _ _ H) as (p & st' & Hp & Hc & Hf & Hsh & _). split; [done|].
  destruct Hsh as [| |sd _ _ _ _ _ ->]; try done. by destruct p as [[] k], sd.
Qed.

(** A king without the flag goes one step; a pawn without the flag changes its file only to
    capture. *)
Lemma king_plain b st c from m : m ∈ king_moves b st c from -> m_castle m = None -> exists d, d ∈ KING_STEPS /\ m_to m = shift from d.
Proof.
  unfold king_moves. rewrite elem_of_app. intros [H|H] Hc.
  - apply elem_concat_map in H as (d & Hd & H). apply elem_add in H as (-> & _). by exists d.
  - exfalso. destruct (isSquareAttacked _ _ _); [by apply elem_of_nil in H|]. destruct (bool_decide _); [|by apply elem_of_nil in H].
    apply elem_of_app in H as [H|H]; unfold castle_move in H; (destruct (_ && _ && _ && _); [|by apply elem_of_nil in H]);
      apply list_elem_of_singleton in H; by rewrite H in Hc.
Qed.

Lemma pawn_files b ep c from m : m ∈ pawn_moves b ep c from ->
  if m_enPassant m then (m_to m).2 <> from.2 /\ occupied b (m_to m) = false
  else (m_to m).2 = from.2 \/ occupied b (m_to m) = true.
Proof.
  unfold pawn_moves. rewrite elem_of_app. intros [H|H].
  - destruct (_ && _); [|by apply elem_of_nil in H]. apply elem_of_app in H as [H|H].
    + apply elem_pawn_step in H as (promo & -> & _). left. simpl. lia.
    + destruct (_ && _); [|by apply elem_of_nil in H]. apply elem_add in H as (-> & _). left. simpl. lia.
  - apply elem_concat_map in H as (dc & Hdc & H). destruct (negb _); [by apply elem_of_nil in H|].
    destruct (occupied b _ && _) eqn:Ho.
    + apply elem_pawn_step in H as (promo & -> & _). right. cbn [m_to m_enPassant]. by apply andb_prop in Ho as [? _].
    + destruct (bool_decide _); [|by apply elem_of_nil in H]. apply elem_add in H as (-> & _ & Hc). cbn [m_to m_enPassant] in *.
      rewrite Hc, andb_true_r in Ho. split; [|done]. simpl. rewrite !elem_of_cons, elem_of_nil in Hdc. lia.
Qed.

(** No plain move has the squares of a move with a flag. *)
Lemma special_squares st c m m' : m ∈ getLegalMoves st c -> m' ∈ getLegalMoves st c ->
  plain m = false -> plain m' = true -> m_from m = m_from m' -> m_to m = m_to m' -> False.
Proof.
  intros Hm Hm' Hs Hp Hf Ht. destruct (legal_shape _ _ _ Hm) as (p & st' & Hcell & Hcol & _ & Hsh & _).
  destruct (legal_source _ _ _ Hm) as (p1 & Hc1 & _ & Hsrc). destruct (legal_source _ _ _ Hm') as (p2 & Hc2 & _ & Hsrc').
  rewrite <- Hf in Hc2, Hsrc'. assert (p1 = p) as -> by congruence. assert (p2 = p) as -> by congruence.
  unfold plain in Hp, Hs. apply andb_prop in Hp as [He' Hk']. apply negb_true_iff in He'. apply bool_decide_eq_true_1 in Hk'.
  unfold pieceMoves in Hsrc, Hsrc'. rewrite Hcell in Hsrc, Hsrc'.
  destruct Hsh as [He Hc|He Hc _ Hk _ _ _ _|sd He Hc _ Hk Hfrom Hto _ _ _].
  - rewrite He, Hc in Hs. by rewrite bool_decide_eq_true_2 in Hs.
  - rewrite Hk in Hsrc, Hsrc'. pose proof (pawn_files _ _ _ _ _ Hsrc) as H1. pose proof (pawn_files _ _ _ _ _ Hsrc') as H2.
    rewrite He in H1. rewrite He' in H2. rewrite Ht in H1. destruct H1 as [H1 Ho], H2 as [H2|H2]; congruence.
  - rewrite Hk in Hsrc'. destruct (king_plain _ _ _ _ _ Hsrc' Hk') as (d & Hd & Hd').
    rewrite <- Ht, Hto, Hfrom in Hd'. unfold KING_STEPS in Hd. rewrite !elem_of_cons, elem_of_nil in Hd.
    destruct sd; unfold shift in Hd'; injection Hd' as Hr Hfile; repeat destruct Hd as [->|Hd]; simpl in Hfile; (lia || done).
Qed.

(** ** What the host reads *)

Lemma read_page_square s : inBounds s = true -> read_square (Some (JStr (coordsToAlg s))) = Some s.
Proof. apply square_text. Qed.

Lemma normalize_page from to promo : inBounds from = true -> inBounds to = true ->
  (promo = None \/ exists k, promo = Some k /\ k ∈ PROMOTION_PIECES) ->
  normalizeMove (Some (page_message from to promo)) = Some (mk_move from to promo false None, None).
Proof.
  intros Hf Ht Hp. unfold normalizeMove, page_message.
  assert (H : forall extra, read_square (prop (Some (JObj ([("type", JStr "move"); ("from", JStr (coordsToAlg from));
     ("to", JStr (coordsToAlg to))] ++ extra))) "from") = Some from /\
    read_square (prop (Some (JObj ([("type", JStr "move"); ("from", JStr (coordsToAlg from));
     ("to", JStr (coordsToAlg to))] ++ extra))) "to") = Some to) by (intros extra; split; by apply read_page_square).
  destruct (H match promo with Some k => [("promotion", promotion_json k)] | None => [] end) as [-> ->].
  f_equal. destruct Hp as [->|(k & -> & Hk)]; [done|].
  unfold PROMOTION_PIECES in Hk. rewrite !elem_of_cons, elem_of_nil in Hk. by repeat destruct Hk as [->|Hk].
Qed.

Lemma equal_page m from to promo :
  movesEqual m (mk_move from to promo false None, None) = true <->
  plain m = true /\ m_from m = from /\ m_to m = to /\ m_promotion m = promo.
Proof.
  unfold movesEqual, plain. cbn [fst snd m_from m_to m_promotion m_enPassant truthy].
  rewrite !andb_true_iff, !bool_decide_eq_true, eqb_true_iff, negb_true_iff.
  destruct (m_castle m) as [[]|]; simpl; naive_solver.
Qed.

Lemma find_first {A} (f : A -> bool) l x : x ∈ l -> f x = true -> (forall y, y ∈ l -> f y = true -> y = x) -> List.find f l = Some x.
Proof.
  intros Hx Hf Hu. destruct (List.find f l) as [y|] eqn:H.
  - apply find_elem in H as [Hy Hfy]. by rewrite (Hu y).
  - apply list_elem_of_In in Hx. by rewrite (find_none _ _ H x Hx) in Hf.
Qed.

Lemma move_ext (a b : move) : m_from a = m_from b -> m_to a = m_to b -> m_promotion a = m_promotion b ->
  plain a = true -> plain b = true -> a = b.
Proof.
  unfold plain. destruct a, b. simpl. intros -> -> ->. rewrite !andb_true_iff, !bool_decide_eq_true, !negb_true_iff.
  by intros [-> ->] [-> ->].
Qed.

Lemma legal_promotion st c m : m ∈ getLegalMoves st c ->
  m_promotion m = None \/ exists k, m_promotion m = Some k /\ k ∈ PROMOTION_PIECES.
Proof. intros H. destruct (legal_shape _ _ _ H) as (p & st' & _ & _ & _ & [_ _ _ _ Hp|_ _ Hp|sd _ _ Hp] & _); auto. Qed.

(** The player whose turn it is can make every legal move on the page, and the host then
    plays just that move, except castling and en passant: the page does not send the flags by
    which the host tells them from other moves, and the host refuses each of them. *)
Theorem page_moves now peer h p m :
  acting peer h = Some p -> s_color p = pos_turn (chessState h) ->
  m ∈ getLegalMoves (chessState h) (pos_turn (chessState h)) ->
  let '(ok, h') := makeMove now peer (Some (page_message (m_from m) (m_to m) (m_promotion m))) h in
  if plain m then ok = true /\ applyMove (chessState h) m = Some (chessState h')
  else ok = false /\ h' = h.
Proof.
  intros Hp Hc Hm. destruct (legal_in_bounds _ _ _ Hm) as [Hf Ht]. pose proof (legal_promotion _ _ _ Hm) as Hpr.
  unfold makeMove. rewrite Hp, bool_decide_eq_true_2 by done. cbn [negb]. rewrite normalize_page by done. rewrite Hc.
  destruct (plain m) eqn:Hpl.
  - rewrite (find_first _ _ m); [|done|by apply equal_page|].
    + rewrite tick_position. destruct (legal_shape _ _ _ Hm) as (_ & st' & _ & _ & _ & _ & Ha & _). rewrite Ha.
      by rewrite conclude_position.
    + intros y Hy (Hy1 & Hy2 & Hy3 & Hy4)%equal_page. by apply move_ext.
  - destruct (List.find _ _) as [y|] eqn:Hy; [|done]. exfalso. apply find_elem in Hy as [Hy (Hy1 & Hy2 & Hy3 & _)%equal_page].
    by eapply (special_squares _ _ m y).
Qed.

(** A game in which white may castle. *)
Definition castling_game : host :=
  newHost 0 "a" "g" [] <| players := [mk_seat "a" "A" 0 White true; mk_seat "b" "B" 1 Black true] |> <| phase := Playing |>
    <| chessState := parseFen "r3k2r/8/8/8/8/8/8/R3K2R w KQkq - 0 1" |>.

Lemma page_moves_witness :
  fst (makeMove 0 "a" (Some (page_message (7, 0) (6, 0) None)) castling_game) = true /\
  makeMove 0 "a" (Some (page_message (7, 4) (7, 6) None)) castling_game = (false, castling_game).
Proof.
  split.
  - pose proof (page_moves 0 "a" castling_game (mk_seat "a" "A" 0 White true) (simple (7, 0) (6, 0)) ltac:(reflexivity) ltac:(reflexivity)
      ltac:(apply (bool_decide_unpack _); vm_compute; exact I)) as H.
    change (m_from _) with (7, 0) in H. change (m_to _) with (6, 0) in H. change (m_promotion _) with (@None kind) in H.
    destruct (makeMove _ _ _ _) as [ok h']. by destruct H as [-> _].
  - pose proof (page_moves 0 "a" castling_game (mk_seat "a" "A" 0 White true) (mk_move (7, 4) (7, 6) None false (Some KingSide))
      ltac:(reflexivity) ltac:(reflexivity) ltac:(apply (bool_decide_unpack _); vm_compute; exact I)) as H.
    change (m_from _) with (7, 4) in H. change (m_to _) with (7, 6) in H. change (m_promotion _) with (@None kind) in H.
    destruct (makeMove _ _ _ _) as [ok h']. by destruct H as [-> ->].
Defined.

(** ** The page of the guest *)

(** The page of the guest can make no move at all.  The host converts the legal moves it
    sends twice, so that their squares are no squares of the board, and whatever two squares
    the guest picks, the page finds no move between them. *)
Theorem guest_cannot_move h o from to promo :
  o ∈ drop (length (out h)) (out (broadcast h)) -> inBounds from = true ->
  match o with StateTo _ _ legalMoves => tryMove legalMoves from to promo = NoMove | _ => True end.
Proof.
  intros Ho Hf. unfold broadcast in Ho. change (out (h <| out := ?x |>)) with x in Ho. rewrite drop_app_length in Ho.
  apply elem_of_app in Ho as [Ho|Ho]; [|by apply list_elem_of_singleton in Ho as ->].
  apply list_elem_of_fmap in Ho as (q & -> & _). unfold tryMove.
  assert (Hne : NOT_A_SQUARE <> coordsToAlg from).
  { apply elem_squares in Hf. assert (H : forallb (fun s => bool_decide (NOT_A_SQUARE <> coordsToAlg s)) squares = true)
      by (vm_compute; reflexivity).
    rewrite forallb_forall in H. specialize (H from). rewrite <- list_elem_of_In in H. by specialize (H Hf); bool_cases. }
  induction (getLegalMovesForPeer (s_peer q) h) as [|m ms IH]; [done|]. simpl.
  rewrite (bool_decide_eq_false_2 (NOT_A_SQUARE = _)) by done. exact IH.
Qed.

Lemma guest_cannot_move_witness :
  let h := castling_game <| chessState := parseFen "4k3/8/8/8/8/8/8/4K3 b - - 0 1" |> in
  exists legal, StateTo "b" (publicState h) legal ∈ drop (length (out h)) (out (broadcast h)) /\
    length legal = 5%nat /\ tryMove legal (0, 4) (1, 4) None = NoMove.
Proof.
  intros h. exists (map rewire (getLegalMovesForPeer "b" h)).
  assert (H : StateTo "b" (publicState h) (map rewire (getLegalMovesForPeer "b" h)) ∈ drop (length (out h)) (out (broadcast h))) by left.
  split; [exact H|split; [vm_compute; reflexivity|]].
  exact (guest_cannot_move h _ (0, 4) (1, 4) None H ltac:(reflexivity)).
Defined.

(** ** Moves after the clock has run out *)

Lemma tick_over now h r : gameResult h = None -> gameResult (tickClocks now h) = Some r -> phase (tickClocks now h) = GameOver.
Proof.
  intros Hn. destruct (tick_cases now h) as [->|(_ & _ & _ & a & b & _ & _ & [->|[c ->]])]; [congruence| |done].
  change (gameResult (_ <| blackMs := _ |>)) with (gameResult h). congruence.
Qed.

(** A move that arrives when the mover's time is up is still played: the host ends the game
    by time-out first and then goes on with the move, so that a mate, a stalemate or a draw on
    the board replaces the result, and otherwise the time-out stays while the position is the
    one after the move. *)
Theorem late_move_counts now peer raw h w :
  fst (makeMove now peer raw h) = true -> gameResult (tickClocks now h) = Some (Timeout w) ->
  let h' := snd (makeMove now peer raw h) in
  exists m, m ∈ getLegalMoves (chessState h) (pos_turn (chessState h)) /\
    applyMove (chessState h) m = Some (chessState h') /\ phase h' = GameOver /\
    gameResult h' = Some
      (if isCheckmate (chessState h') (opponent (pos_turn (chessState h))) then Checkmate (pos_turn (chessState h))
       else if isStalemate (chessState h') (opponent (pos_turn (chessState h))) then Stalemate
       else match draw_condition (chessState h') with Some reason => Draw reason | None => Timeout w end).
Proof.
  intros Hok Hr. destruct (makeMove_spec now peer raw h) as [Hm|(p & m & after & (Hp & _ & Hleg & Ha) & Hm)];
    rewrite Hm in *; [done|]. cbn [fst snd]. exists m. rewrite conclude_position.
  change (chessState (play now m after _)) with after. split_and!; [done..| |].
  all: assert (Hph : phase (tickClocks now h) = GameOver)
    by (eapply tick_over; [by apply (acting_spec _ _ _ Hp)|exact Hr]).
  all: unfold conclude; change (chessState (play now m after _)) with after.
  all: destruct (isCheckmate _ _); [done|]; destruct (isStalemate _ _); [done|]; destruct (draw_condition _); [done|].
  all: unfold pushState, tickClocks at 1; change (phase (checkpoint _ (play now m after (tickClocks now h) <| message := _ |>))) with (phase (tickClocks now h));
    rewrite Hph; cbn [negb orb]; done.
Qed.

(** Black mates one minute after his time has run out. *)
Definition overtime_game : host :=
  newHost 0 "a" "g" [("timeControlSec", JNum 60)] <| players := [mk_seat "a" "A" 0 White true; mk_seat "b" "B" 1 Black true] |>
    <| phase := Playing |> <| chessState := parseFen "rnbqkbnr/pppp1ppp/8/4p3/6P1/5P2/PPPPP2P/RNBQKBNR b KQkq - 0 2" |>.

Lemma late_move_counts_witness :
  gameResult (tickClocks 120000 overtime_game) = Some (Timeout White) /\
  gameResult (snd (makeMove 120000 "b" (Some (page_message (0, 3) (4, 7) None)) overtime_game)) = Some (Checkmate Black).
Proof.
  assert (Ht : gameResult (tickClocks 120000 overtime_game) = Some (Timeout White)) by (vm_compute; reflexivity).
  split; [exact Ht|].
  destruct (late_move_counts 120000 "b" (Some (page_message (0, 3) (4, 7) None)) overtime_game White ltac:(vm_compute; reflexivity) Ht)
    as (m & _ & _ & _ & ->).
  vm_compute. reflexivity.
Defined.
