(* ===== verification/Grid.v ===== *)
(** * Boards of discs

    What connect four and tic-tac-toe share ([connect-four/board.js, rules.js],
    [tic-tac-toe/board.js, rules.js]): a board is the list of its rows, a cell the number of
    the disc on it, 0 when it is empty.  The walk that both [checkWin] make from the last disc
    is defined here, and shown to find a line exactly when the whole board has one. *)

From S2P Require Import Prelude.

Abbreviation grid := (list (list Z)).

(** [board[r][c]] for integers; [None] is [undefined]. *)
Definition disc_at (g : grid) (s : Z * Z) : option Z :=
  if Z.leb 0 s.1 && Z.leb 0 s.2 then default [] (g !! Z.to_nat s.1) !! Z.to_nat s.2 else None.

(** [board[r][c] = x] on the board. *)
Definition put_disc (g : grid) (s : Z * Z) (x : Z) : grid :=
  alter (fun row => <[Z.to_nat s.2 := x]> row) (Z.to_nat s.1) g.

Definition directions : list (Z * Z) := [(0, 1); (1, 0); (1, 1); (1, -1)].

(** The cell [k] steps from [s] in the direction [d]. *)
Definition along (s d : Z * Z) (k : Z) : Z * Z := (s.1 + k * d.1, s.2 + k * d.2).

(** The [while] loop: the cells of [player] one after the other, from the step [k] on, [k] growing
    by [sign].  The fuel is more than a line of the board has cells. *)
Fixpoint walk (fuel : nat) (g : grid) (player : Z) (s d : Z * Z) (sign k : Z) : list (Z * Z) :=
  match fuel with
  | O => []
  | S fuel =>
      if bool_decide (disc_at g (along s d k) = Some player)
      then along s d k :: walk fuel g player s d sign (k + sign) else []
  end.

(** [cells] in one direction. *)
Definition cells_through (fuel : nat) (g : grid) (player : Z) (s d : Z * Z) : list (Z * Z) :=
  s :: walk fuel g player s d (-1) (-1) ++ walk fuel g player s d 1 1.

(** ** Lines of a board *)

Definition shape (rows cols : nat) (g : grid) : Prop := length g = rows /\ Forall (fun row => length row = cols) g.

(** [need] discs of [player] in a row anywhere on the board: from some cell on, going on to one of
    the eight cells around it in every step. *)
Definition has_line (g : grid) (player need : Z) : Prop :=
  exists r c dr dc, -1 <= dr <= 1 /\ -1 <= dc <= 1 /\ ~ (dr = 0 /\ dc = 0) /\
    forall i, 0 <= i < need -> disc_at g (r + i * dr, c + i * dc) = Some player.

(** The same by looking at every cell and around it. *)
Definition cells_of (g : grid) : list (Z * Z) :=
  concat (imap (fun r row => imap (fun c _ => (Z.of_nat r, Z.of_nat c)) row) g).

Definition around : list (Z * Z) := [(-1, -1); (-1, 0); (-1, 1); (0, -1); (0, 1); (1, -1); (1, 0); (1, 1)].

Definition scan (g : grid) (player need : Z) : bool :=
  existsb (fun s : Z * Z => existsb (fun d : Z * Z =>
    forallb (fun i => bool_decide (disc_at g (s.1 + i * d.1, s.2 + i * d.2) = Some player)) (seqZ 0 need)) around) (cells_of g).

(** A line that starts in one of the four directions of the walk. *)
Definition dir_line (g : grid) (player need : Z) : Prop :=
  exists s d, d ∈ directions /\ forall i, 0 <= i < need -> disc_at g (along s d i) = Some player.

(** The four directions are enough: a line read from its other end is a line. *)
Lemma has_line_dir g player need : has_line g player need <-> dir_line g player need.
Proof.
  split.
  - intros (r & c & dr & dc & Hr & Hc & Hz & Hl).
    assert (Hd : (dr, dc) ∈ directions \/ (- dr, - dc) ∈ directions).
    { unfold directions. rewrite !elem_of_cons. assert (dr = -1 \/ dr = 0 \/ dr = 1) as Hr' by lia. assert (dc = -1 \/ dc = 0 \/ dc = 1) as Hc' by lia.
      destruct Hr' as [->|[->| ->]], Hc' as [->|[->| ->]]; simpl; tauto. }
    destruct Hd as [Hd|Hd].
    + exists (r, c), (dr, dc). split; [done|]. exact Hl.
    + exists (r + (need - 1) * dr, c + (need - 1) * dc), (- dr, - dc). split; [done|]. intros i Hi.
      rewrite <- (Hl (need - 1 - i)) by lia. unfold along. simpl. f_equal. f_equal; lia.
  - intros (s & d & Hd & Hl). exists s.1, s.2, d.1, d.2. unfold directions in Hd. rewrite !elem_of_cons, elem_of_nil in Hd.
    split_and!; [..|exact Hl]; repeat destruct Hd as [->|Hd]; simpl; lia || done.
Qed.

Section shaped.
Context (rows cols : nat).

Lemma disc_at_inside g s x : shape rows cols g -> disc_at g s = Some x -> 0 <= s.1 < Z.of_nat rows /\ 0 <= s.2 < Z.of_nat cols.
Proof.
  intros [Hl Hr]. unfold disc_at. destruct (Z.leb_spec 0 s.1), (Z.leb_spec 0 s.2); simpl; try done.
  destruct (g !! Z.to_nat s.1) as [row|] eqn:Hrow; simpl; [|done]. intros Hx.
  assert (length row = cols) by (rewrite Forall_forall in Hr; apply Hr; by eapply list_elem_of_lookup_2).
  apply lookup_lt_Some in Hrow, Hx. lia.
Qed.

Lemma disc_at_some g s : shape rows cols g -> 0 <= s.1 < Z.of_nat rows -> 0 <= s.2 < Z.of_nat cols -> is_Some (disc_at g s).
Proof.
  intros [Hl Hr] H1 H2. unfold disc_at. destruct (Z.leb_spec 0 s.1), (Z.leb_spec 0 s.2); simpl; try lia.
  destruct (lookup_lt_is_Some_2 g (Z.to_nat s.1)) as [row Hrow]; [lia|]. rewrite Hrow. simpl.
  apply lookup_lt_is_Some_2. rewrite Forall_forall in Hr. rewrite (Hr row); [lia|]. by eapply list_elem_of_lookup_2.
Qed.

Lemma put_shape g s x : shape rows cols g -> shape rows cols (put_disc g s x).
Proof.
  intros [Hl Hr]. unfold put_disc. split; [by rewrite length_alter|]. apply Forall_alter; [done|].
  intros row _ Hrow. by rewrite length_insert.
Qed.

Lemma disc_at_put g s x t : shape rows cols g -> 0 <= s.1 < Z.of_nat rows -> 0 <= s.2 < Z.of_nat cols ->
  disc_at (put_disc g s x) t = if decide (s = t) then Some x else disc_at g t.
Proof.
  intros [Hl Hr] H1 H2. destruct s as [r c], t as [r' c']. unfold disc_at, put_disc. simpl in *.
  destruct (Z.leb_spec 0 r'), (Z.leb_spec 0 c'); simpl; try (rewrite decide_False by (intros [= -> ->]; lia); done).
  destruct (lookup_lt_is_Some_2 g (Z.to_nat r)) as [row Hrow]; [lia|].
  assert (Hlen : length row = cols) by (rewrite Forall_forall in Hr; apply Hr; by eapply list_elem_of_lookup_2).
  destruct (decide (r = r')) as [<-|Hne].
  - rewrite list_lookup_alter_eq, Hrow. simpl. destruct (decide (c = c')) as [<-|Hc].
    + rewrite list_lookup_insert_eq by lia. by rewrite decide_True.
    + rewrite list_lookup_insert_ne by lia. by rewrite decide_False by congruence.
  - rewrite list_lookup_alter_ne by lia. by rewrite decide_False by congruence.
Qed.

Lemma along_0 s d : along s d 0 = s.
Proof. destruct s. unfold along. simpl. f_equal; lia. Qed.

Lemma along_along s d j k : along (along s d j) d k = along s d (j + k).
Proof. unfold along. simpl. f_equal; lia. Qed.

(** ** The walk *)

Lemma walk_cells fuel g p s d sign : forall k i, 0 <= i < Z.of_nat (length (walk fuel g p s d sign k)) ->
  disc_at g (along s d (k + i * sign)) = Some p.
Proof.
  induction fuel as [|fuel IH]; intros k i Hi; simpl in Hi; [lia|]. case_bool_decide as Hd; [|simpl in Hi; lia].
  destruct (decide (i = 0)) as [->|Hne]; [by replace (k + 0 * sign) with k by lia|].
  simpl in Hi. replace (k + i * sign) with (k + sign + (i - 1) * sign) by lia. apply IH. lia.
Qed.

Lemma walk_stops fuel g p s d sign : forall k, (length (walk fuel g p s d sign k) < fuel)%nat ->
  disc_at g (along s d (k + Z.of_nat (length (walk fuel g p s d sign k)) * sign)) <> Some p.
Proof.
  induction fuel as [|fuel IH]; intros k Hk; simpl in Hk |- *; [lia|]. case_bool_decide as Hd.
  - simpl in *. replace (k + _ * sign) with (k + sign + Z.of_nat (length (walk fuel g p s d sign (k + sign))) * sign) by lia.
    apply IH. lia.
  - cbn [length]. by replace (k + Z.of_nat 0 * sign) with k by lia.
Qed.

(** No line is longer than the board: the fuel is enough. *)
Lemma walk_short fuel g p s d sign k : shape rows cols g -> d ∈ directions -> sign = 1 \/ sign = -1 ->
  (rows + cols < fuel)%nat -> (length (walk fuel g p s d sign k) < fuel)%nat.
Proof.
  intros Hg Hd Hs Hf. apply Nat.nle_gt. intros Hle.
  assert (Hin : forall i, 0 <= i < Z.of_nat fuel -> 0 <= (along s d (k + i * sign)).1 < Z.of_nat rows /\ 0 <= (along s d (k + i * sign)).2 < Z.of_nat cols).
  { intros i Hi. apply (disc_at_inside g _ p); [done|]. apply (walk_cells fuel). lia. }
  destruct (Hin 0 ltac:(lia)) as [H1 H2]. destruct (Hin (Z.of_nat fuel - 1) ltac:(lia)) as [H3 H4].
  unfold along in *. simpl in *. unfold directions in Hd. rewrite !elem_of_cons, elem_of_nil in Hd.
  repeat destruct Hd as [->|Hd]; try done; simpl in *; destruct Hs; subst sign; lia.
Qed.

(** The cells through [s] are a line of [need] when some line of [need] runs through [s]. *)
Lemma through_line fuel g p s d need : shape rows cols g -> d ∈ directions -> (rows + cols < fuel)%nat ->
  disc_at g s = Some p -> 1 <= need ->
  need <= Z.of_nat (length (cells_through fuel g p s d)) <->
  exists j, 0 <= j < need /\ forall i, 0 <= i < need -> disc_at g (along s d (i - j)) = Some p.
Proof.
  intros Hg Hd Hf Hs Hn. unfold cells_through. cbn [length]. rewrite length_app.
  set (back := walk fuel g p s d (-1) (-1)). set (ahead := walk fuel g p s d 1 1).
  assert (Hb : (length back < fuel)%nat) by (apply walk_short; auto).
  assert (Ha : (length ahead < fuel)%nat) by (apply walk_short; auto).
  split.
  - intros Hle. exists (Z.min (Z.of_nat (length back)) (need - 1)). split; [lia|]. intros i Hi.
    set (j := Z.min _ _) in *. destruct (Z.lt_trichotomy i j) as [Hij|[->|Hij]].
    + replace (i - j) with (-1 + (j - i - 1) * -1) by lia. apply (walk_cells fuel). fold back. lia.
    + by rewrite Z.sub_diag, along_0.
    + replace (i - j) with (1 + (i - j - 1) * 1) by lia. apply (walk_cells fuel). fold ahead. lia.
  - intros (j & Hj & Hline).
    assert (j <= Z.of_nat (length back)).
    { apply Z.nlt_ge. intros Hlt. apply (walk_stops fuel g p s d (-1) (-1) Hb). fold back.
      replace (-1 + _ * -1) with ((j - 1 - Z.of_nat (length back)) - j) by lia. apply Hline. lia. }
    assert (need - 1 - j <= Z.of_nat (length ahead)).
    { apply Z.nlt_ge. intros Hlt. apply (walk_stops fuel g p s d 1 1 Ha). fold ahead.
      replace (1 + _ * 1) with ((1 + Z.of_nat (length ahead) + j) - j) by lia. apply Hline. lia. }
    lia.
Qed.

Lemma some_through fuel g p s need : shape rows cols g -> (rows + cols < fuel)%nat -> disc_at g s = Some p -> 1 <= need ->
  (exists d, d ∈ directions /\ need <= Z.of_nat (length (cells_through fuel g p s d))) <->
  exists s' d i, d ∈ directions /\ 0 <= i < need /\ along s' d i = s /\
    forall i, 0 <= i < need -> disc_at g (along s' d i) = Some p.
Proof.
  intros Hg Hf Hs Hn. split.
  - intros (d & Hd & Hle). apply through_line in Hle as (j & Hj & Hline); [|done..].
    exists (along s d (- j)), d, j. split_and!; try done; try lia.
    + rewrite along_along, Z.add_opp_diag_l. apply along_0.
    + intros i Hi. rewrite along_along. replace (- j + i) with (i - j) by lia. by apply Hline.
  - intros (s' & d & j & Hd & Hj & <- & Hline). exists d. split; [done|]. apply through_line; try done.
    exists j. split; [done|]. intros i Hi. rewrite along_along. replace (j + (i - j)) with i by lia. by apply Hline.
Qed.

(** ** The last disc decides *)

(** A line of [p] after [p] has put a disc on [s] runs through [s], if there was none before. *)
Lemma line_after_put fuel g p s need : shape rows cols g -> (rows + cols < fuel)%nat -> 1 <= need ->
  0 <= s.1 < Z.of_nat rows -> 0 <= s.2 < Z.of_nat cols -> ~ has_line g p need ->
  has_line (put_disc g s p) p need <->
  exists d, d ∈ directions /\ need <= Z.of_nat (length (cells_through fuel (put_disc g s p) p s d)).
Proof.
  intros Hg Hf Hn H1 H2 Hno.
  rewrite has_line_dir in Hno |- *. rewrite (some_through fuel (put_disc g s p) p s need); [|by apply put_shape|done| |done].
  2: { rewrite disc_at_put by done. by rewrite decide_True. }
  split; [|intros (s' & d & i & Hd & _ & _ & Hline); by exists s', d].
  intros (s' & d & Hd & Hline).
  assert (Hx : exists i, 0 <= i < need /\ along s' d i = s).
  { destruct (existsb (fun i => bool_decide (along s' d i = s)) (seqZ 0 need)) eqn:He.
    - apply existsb_exists in He as (i & Hi & Heq). apply bool_decide_eq_true_1 in Heq.
      apply list_elem_of_In, elem_of_seqZ in Hi. exists i. split; [lia|done].
    - exfalso. apply Hno. exists s', d. split; [done|]. intros i Hi. specialize (Hline i Hi).
      rewrite disc_at_put in Hline by done. rewrite decide_False in Hline; [done|]. intros Heq.
      assert (existsb (fun i => bool_decide (along s' d i = s)) (seqZ 0 need) = true); [|congruence].
      apply existsb_exists. exists i. split; [apply list_elem_of_In, elem_of_seqZ; lia|by apply bool_decide_eq_true_2]. }
  destruct Hx as (i & Hi & Heq). by exists s', d, i.
Qed.

(** A disc of another player makes no line of [p]. *)
Lemma line_other g p q s need : shape rows cols g -> 0 <= s.1 < Z.of_nat rows -> 0 <= s.2 < Z.of_nat cols ->
  p <> q -> has_line (put_disc g s q) p need -> has_line g p need.
Proof.
  intros Hg H1 H2 Hne. rewrite !has_line_dir. intros (s' & d & Hd & Hline). exists s', d. split; [done|]. intros i Hi. specialize (Hline i Hi).
  rewrite disc_at_put in Hline by done. case_decide; [congruence|done].
Qed.

Lemma elem_cells_of g s : shape rows cols g -> s ∈ cells_of g <-> 0 <= s.1 < Z.of_nat rows /\ 0 <= s.2 < Z.of_nat cols.
Proof.
  intros Hg. pose proof Hg as [Hl Hr]. unfold cells_of. rewrite list_elem_of_In, in_concat. split.
  - intros (l & Hin & Hs). apply list_elem_of_In in Hin, Hs. apply elem_of_lookup_imap in Hin as (r & row & -> & Hrow).
    apply elem_of_lookup_imap in Hs as (c & x & -> & Hx). simpl.
    assert (length row = cols) by (rewrite Forall_forall in Hr; apply Hr; by eapply list_elem_of_lookup_2).
    apply lookup_lt_Some in Hrow, Hx. lia.
  - intros [H1 H2]. destruct (lookup_lt_is_Some_2 g (Z.to_nat s.1)) as [row Hrow]; [lia|].
    assert (Hlen : length row = cols) by (rewrite Forall_forall in Hr; apply Hr; by eapply list_elem_of_lookup_2).
    destruct (lookup_lt_is_Some_2 row (Z.to_nat s.2)) as [x Hx]; [lia|].
    exists (imap (fun c _ => (Z.of_nat (Z.to_nat s.1), Z.of_nat c)) row). rewrite <- !list_elem_of_In. split.
    + apply elem_of_lookup_imap. exists (Z.to_nat s.1), row. done.
    + apply elem_of_lookup_imap. exists (Z.to_nat s.2), x. split; [|done]. destruct s. simpl in *. f_equal; lia.
Qed.

Lemma scan_spec g p need : shape rows cols g -> 1 <= need -> scan g p need = true <-> has_line g p need.
Proof.
  intros Hg Hn. unfold scan. rewrite existsb_exists. split.
  - intros (s & Hs & He). apply existsb_exists in He as (d & Hd & Hf). rewrite forallb_forall in Hf. exists s.1, s.2, d.1, d.2.
    unfold around in Hd. cbn [In] in Hd.
    split_and!; [repeat destruct Hd as [<-|Hd]; simpl; lia || done..|]. intros i Hi. specialize (Hf i). rewrite <- list_elem_of_In, elem_of_seqZ in Hf.
    specialize (Hf ltac:(lia)). by apply bool_decide_eq_true_1 in Hf.
  - intros (r & c & dr & dc & Hr & Hc & Hz & Hline). exists (r, c). split.
    + apply list_elem_of_In, elem_cells_of; [done|]. specialize (Hline 0 ltac:(lia)).
      replace (r + 0 * dr, c + 0 * dc) with (r, c) in Hline by (f_equal; lia). by eapply disc_at_inside.
    + apply existsb_exists. exists (dr, dc). split.
      * assert (dr = -1 \/ dr = 0 \/ dr = 1) as Hr' by lia. assert (dc = -1 \/ dc = 0 \/ dc = 1) as Hc' by lia. unfold around. cbn [In].
        destruct Hr' as [->|[->| ->]], Hc' as [->|[->| ->]]; tauto.
      * apply forallb_forall. intros i Hi. apply list_elem_of_In, elem_of_seqZ in Hi. apply bool_decide_eq_true_2, Hline. lia.
Qed.
End shaped.
