(* ===== verification/ConnectFour.v ===== *)
(** * Connect four ([assets/bundled-plugins/connect-four/board.js, rules.js, engine.js])

    The board, the search for four in a row from the last disc, and the host of a game. *)

From S2P Require Import Prelude Json Grid.

(** ** The board ([board.js]) *)

Definition ROWS : Z := 6.
Definition COLS : Z := 7.
Definition MAX_PLAYERS : nat := 2.

Definition createEmptyBoard : grid := replicate (Z.to_nat ROWS) (replicate (Z.to_nat COLS) 0).

(** [board[row][col] === 0]. *)
Definition is_free (b : grid) (s : Z * Z) : bool := bool_decide (disc_at b s = Some 0).

(** The board with the disc and where it came to lie. *)
Definition dropDisc (b : grid) (col player : Z) : option (grid * (Z * Z)) :=
  if Z.ltb col 0 || Z.leb COLS col || Z.ltb player 1 || Z.ltb 2 player then None
  else match List.find (fun row => is_free b (row, col)) (rev (seqZ 0 ROWS)) with
       | Some row => Some (put_disc b (row, col) player, (row, col))
       | None => None
       end.

Definition isColumnFull (b : grid) (col : Z) : bool := negb (is_free b (0, col)).

Definition isBoardFull (b : grid) : bool := forallb (isColumnFull b) (seqZ 0 COLS).

Definition isValidBoardShape (b : grid) : bool :=
  Z.eqb (Z.of_nat (length b)) ROWS && forallb (fun row => Z.eqb (Z.of_nat (length row)) COLS) b.

(** ** Four in a row ([rules.js]) *)

Definition WALK_FUEL : nat := 14.

Definition checkWin (b : grid) (s : Z * Z) (player : Z) : option (list (Z * Z)) :=
  List.find (fun cells => Nat.leb 4 (length cells)) (map (cells_through WALK_FUEL b player s) directions).

(** ** The host of a game ([engine.js]) *)

Record settings := mk_settings { tableName : string; public_lobby : bool }.

Definition defaultSettings : settings := mk_settings "Vier-gewinnt-Tisch" false.

Definition sanitizeSettings (input : fields) (fb : settings) : settings :=
  let name := str_take 48 (trim (if has input "tableName"
    then (if truthy (get input "tableName") then string_or_empty (get input "tableName") else "Vier-gewinnt-Tisch")
    else if bool_decide (tableName fb = "") then "Vier-gewinnt-Tisch" else tableName fb)) in
  mk_settings (if bool_decide (name = "") then "Vier-gewinnt-Tisch" else name)
    (if has input "lobbyAccess" then bool_decide (get input "lobbyAccess" = Some (JStr "public")) else public_lobby fb).

Inductive game_phase := Lobby | Playing | Finished.

#[export] Instance game_phase_eq_dec : EqDecision game_phase.
Proof. solve_decision. Defined.

Record seat := mk_seat { s_peer : string; s_name : string; s_seat : Z; s_disc : Z; s_connected : bool }.

(** What [checkpoint] stores. *)
Record saved_game := mk_saved {
  sv_settings : settings;
  sv_players : list (string * string * Z * bool);
  sv_phase : game_phase;
  sv_board : grid;
  sv_toActIdx : Z;
  sv_winnerPeerId : option string;
  sv_winCells : option (list (Z * Z));
  sv_message : string;
  sv_invited : list string
}.

(** [publicState()]. *)
Record public_state := mk_public {
  pu_phase : game_phase;
  pu_board : grid;
  pu_toAct : option string;
  pu_winnerPeerId : option string;
  pu_winCells : option (list (Z * Z));
  pu_message : string;
  pu_players : list seat
}.

Inductive output :=
| Saved (game : saved_game)
| StateTo (peerIds : list string) (public : public_state)
| JoinOk (peerId : string) (public : public_state)
| JoinReject (peerId : string) (reason : string)
| Kicked (peerId : string)
| InviteTo (peerId : string).

Record host := mk_host {
  selfId : string;
  gameId : string;
  cfg : settings;
  players : list seat;
  phase : game_phase;
  board : grid;
  toActIdx : Z;
  winnerPeerId : option string;
  winCells : option (list (Z * Z));
  message : string;
  invitedPeers : list string;
  out : list output
}.

#[export] Instance rebuild_host : Rebuild host := fun h =>
  mk_host (selfId h) (gameId h) (cfg h) (players h) (phase h) (board h) (toActIdx h) (winnerPeerId h) (winCells h)
    (message h) (invitedPeers h) (out h).

#[export] Instance rebuild_seat : Rebuild seat := fun s =>
  mk_seat (s_peer s) (s_name s) (s_seat s) (s_disc s) (s_connected s).

Definition emit (o : output) (h : host) : host := h <| out := out h ++ [o] |>.

(** [players[i]]. *)
Definition seat_at (ps : list seat) (i : Z) : option seat := if Z.leb 0 i then ps !! Z.to_nat i else None.

(** [players.findIndex((p) => p.peerId === peerId)]. *)
Fixpoint playerIndex (peerId : string) (ps : list seat) : Z :=
  match ps with
  | [] => -1
  | p :: rest => if bool_decide (s_peer p = peerId) then 0
                 else let i := playerIndex peerId rest in if Z.ltb i 0 then -1 else i + 1
  end.

Definition publicState (h : host) : public_state :=
  mk_public (phase h) (board h) (option_map s_peer (seat_at (players h) (toActIdx h))) (winnerPeerId h) (winCells h)
    (message h) (players h).

Definition checkpoint (h : host) : host :=
  emit (Saved (mk_saved (cfg h) (map (fun p => (s_peer p, s_name p, s_seat p, s_connected p)) (players h)) (phase h)
                 (board h) (toActIdx h) (winnerPeerId h) (winCells h) (message h) (invitedPeers h))) h.

(** [peerIds()]. *)
Definition peerIds (h : host) : list string := List.filter (fun id => negb (bool_decide (id = ""))) (map s_peer (players h)).

Definition pushState (h : host) : host := emit (StateTo (peerIds h) (publicState h)) h.

Definition findSeat (ps : list seat) : option Z :=
  List.find (fun s => negb (bool_decide (s ∈ map s_seat ps))) (seqZ 0 (Z.of_nat MAX_PLAYERS)).

(** [players.sort((a, b) => a.seat - b.seat)]. *)
Fixpoint insert_seat (p : seat) (ps : list seat) : list seat :=
  match ps with
  | [] => [p]
  | q :: rest => if Z.ltb (s_seat p) (s_seat q) then p :: ps else q :: insert_seat p rest
  end.

Definition sort_seats (ps : list seat) : list seat := fold_left (fun acc p => insert_seat p acc) ps [].

(** [String(name || fallback).slice(0, 48)]. *)
Definition name_or (name : option json) (fb : string) : string :=
  str_take 48 (if truthy name then string_or_empty name else fb).

Definition addPlayer (peerId : string) (name : option json) (h : host) : bool * host :=
  if bool_decide (peerId ∈ map s_peer (players h)) then
    (true, pushState (h <| players := map (fun p => if bool_decide (s_peer p = peerId)
       then p <| s_connected := true |> <| s_name := name_or name (s_name p) |> else p) (players h) |>))
  else if Nat.leb MAX_PLAYERS (length (players h)) then (false, h)
  else match findSeat (players h) with
       | None => (false, h)
       | Some seat =>
           (true, pushState (checkpoint
              (h <| players := sort_seats (players h ++ [mk_seat peerId (name_or name peerId) seat (seat + 1) true]) |>)))
       end.

Definition removePlayer (peerId : string) (h : host) : host :=
  let idx := playerIndex peerId (players h) in
  if Z.ltb idx 0 || bool_decide (peerId = selfId h) then h
  else
    let h := if Z.ltb idx (toActIdx h) then h <| toActIdx := toActIdx h - 1 |> else h in
    let h := h <| players := delete (Z.to_nat idx) (players h) |> in
    let h := if Z.leb (Z.of_nat (length (players h))) (toActIdx h) then h <| toActIdx := 0 |> else h in
    let h := if bool_decide (phase h = Playing) && Nat.ltb (length (players h)) 2
             then h <| phase := Lobby |> <| board := createEmptyBoard |> <| winnerPeerId := None |> <| winCells := None |>
                    <| message := "Zu wenige Spieler — zurück in die Lobby." |>
             else h in
    pushState (checkpoint h).

Definition kickPlayer (peerId : string) (h : host) : bool * host :=
  let idx := playerIndex peerId (players h) in
  if bool_decide (peerId = selfId h) || Z.ltb idx 0 then (false, h)
  else
    let name := match seat_at (players h) idx with Some p => s_name p | None => "" end in
    (true, pushState (checkpoint (removePlayer peerId (emit (Kicked peerId) h) <| message := name +:+ " wurde vom Host entfernt." |>))).

(** The name of the player to act. *)
Definition actor_name (h : host) (fb : string) : string :=
  match seat_at (players h) (toActIdx h) with
  | Some p => if bool_decide (s_name p = "") then fb else s_name p
  | None => fb
  end.

(** The board of a new game. *)
Definition deal (h : host) : host :=
  h <| board := createEmptyBoard |> <| toActIdx := 0 |> <| winnerPeerId := None |> <| winCells := None |> <| phase := Playing |>.

Definition startGame (h : host) : bool * host :=
  if negb (bool_decide (phase h = Lobby)) then (false, h)
  else if Nat.ltb (length (players h)) 2 then (false, pushState (h <| message := "Genau 2 Spieler nötig." |>))
  else
    let h := deal h in
    (true, pushState (checkpoint (h <| message := actor_name h "Spieler 1" +:+ " beginnt (Rot)." |>))).

(** [rematch]; neither who asks nor how many players are left is looked at. *)
Definition rematch (h : host) : bool * host :=
  if negb (bool_decide (phase h = Finished)) then (false, h)
  else
    let h := deal h in
    (true, pushState (checkpoint (h <| message := "Revanche — " +:+ actor_name h "Spieler 1" +:+ " beginnt." |>))).

Definition drop (peerId : string) (column : option json) (h : host) : bool * host :=
  let idx := playerIndex peerId (players h) in
  if Z.ltb idx 0 || negb (Z.eqb (toActIdx h) idx) || negb (bool_decide (phase h = Playing)) then (false, h)
  else
    match to_number column, seat_at (players h) idx with
    | Some col, Some player =>
        if Z.ltb col 0 || Z.leb COLS col || isColumnFull (board h) col then (false, h)
        else
          match dropDisc (board h) col (s_disc player) with
          | None => (false, h)
          | Some (b, placed) =>
              let h := h <| board := b |> in
              match checkWin b placed (s_disc player) with
              | Some cells =>
                  (true, pushState (checkpoint (h <| winnerPeerId := Some peerId |> <| winCells := Some cells |>
                     <| phase := Finished |> <| message := s_name player +:+ " gewinnt!" |>)))
              | None =>
                  if isBoardFull b then
                    (true, pushState (checkpoint (h <| winnerPeerId := None |> <| winCells := None |> <| phase := Finished |>
                       <| message := "Unentschieden — das Brett ist voll." |>)))
                  else
                    let h := h <| toActIdx := if Z.eqb (toActIdx h) 0 then 1 else 0 |> in
                    (true, pushState (checkpoint (h <| message := actor_name h "Spieler" +:+ " ist am Zug." |>)))
              end
          end
    | _, _ => (false, h)
    end.

Definition is_text (v : option json) (s : string) : bool := bool_decide (v = Some (JStr s)).

Definition applyAction (peerId : string) (action : option json) (h : host) : bool * host :=
  let type := prop action "type" in
  if is_text type "drop" then drop peerId (prop action "column") h
  else if is_text type "rematch" then rematch h
  else (false, h).

Definition handle_join (from : string) (name : option json) (h : host) : host :=
  if negb (bool_decide (phase h = Lobby)) then emit (JoinReject from "Spiel läuft bereits.") h
  else if negb (public_lobby (cfg h)) && negb (bool_decide (from = selfId h)) && negb (bool_decide (from ∈ invitedPeers h))
  then emit (JoinReject from "Nur auf Einladung — bitte zuerst eine Einladung im Chat erhalten.") h
  else
    let '(ok, h) := addPlayer from name h in
    emit (if ok then JoinOk from (publicState h) else JoinReject from "Tisch voll oder Beitritt fehlgeschlagen.") h.

Definition onWire (from : string) (body : option json) (h : host) : host :=
  let wire := prop body "wire" in
  let ours := is_text (prop body "gameId") (gameId h) in
  if is_text wire "join" && ours then handle_join from (prop body "name") h
  else if is_text wire "leave" then removePlayer from h
  else if is_text wire "action" && ours then snd (applyAction from (prop body "action") h)
  else h.

Definition updateSettings (patch : fields) (h : host) : host :=
  let h := h <| cfg := sanitizeSettings patch (cfg h) |> in
  pushState (checkpoint (h <| message := if bool_decide (phase h = Lobby) then "Einstellungen aktualisiert."
                                         else "Einstellungen gespeichert — gelten ab der nächsten Partie." |>)).

(** [invitePeer]; whether the peer is connected and not blocked is the caller's. *)
Definition invitePeer (peerId : string) (reachable : bool) (h : host) : bool * host :=
  if bool_decide (peerId = "") || bool_decide (peerId ∈ map s_peer (players h)) || negb reachable then (false, h)
  else
    let h := emit (InviteTo peerId)
               (h <| invitedPeers := if bool_decide (peerId ∈ invitedPeers h) then invitedPeers h else invitedPeers h ++ [peerId] |>) in
    (true, pushState (h <| message := "Einladung wurde im Chat gesendet." |>)).

Definition saveNow (h : host) : bool * host :=
  if bool_decide (phase h = Playing)
  then (false, pushState (h <| message := "Während einer laufenden Partie wird automatisch gespeichert." |>))
  else (true, pushState (checkpoint h <| message := "Spielstand gespeichert." |>)).

(** ** Creation *)

(** [Number(row.seat) || players.length]. *)
Definition seat_or (n : Z) (ps : list seat) : Z := if Z.eqb n 0 then Z.of_nat (length ps) else n.

Fixpoint restore_seats (rows : list (string * string * Z * bool)) (ps : list seat) : list seat :=
  match rows with
  | [] => ps
  | (peerId, name, n, connected) :: rows =>
      if bool_decide (peerId = "") || bool_decide (peerId ∈ map s_peer ps) then restore_seats rows ps
      else restore_seats rows (ps ++ [mk_seat peerId (str_take 48 (if bool_decide (name = "") then peerId else name))
                                        (seat_or n ps) (seat_or n ps + 1) connected])
  end.

(** [createHost] from a saved game, with settings of its own. *)
Definition restoreHost (self id : string) (input : fields) (sv : saved_game) : host :=
  mk_host self id (sanitizeSettings input (sv_settings sv)) (sort_seats (restore_seats (sv_players sv) [])) (sv_phase sv)
    (if isValidBoardShape (sv_board sv) then sv_board sv else createEmptyBoard) (sv_toActIdx sv)
    (match sv_winnerPeerId sv with Some w => if bool_decide (w = "") then None else Some w | None => None end)
    (sv_winCells sv) (sv_message sv) (sv_invited sv) [].

Definition newHost (self id : string) (input : fields) : host :=
  mk_host self id (sanitizeSettings input defaultSettings) [] Lobby createEmptyBoard 0 None None "" [] [].

Definition bootstrapHost (name : string) (h : host) : host :=
  checkpoint (snd (addPlayer (selfId h) (Some (JStr (if bool_decide (name = "") then "Host" else name))) h)).

(** ** Histories *)

Inductive event :=
| Wire (from : string) (body : option json)
| Act (peerId : string) (action : option json)
| Start
| Rematch
| Leave (peerId : string)
| Kick (peerId : string)
| Settings (patch : fields)
| Invite (peerId : string) (reachable : bool)
| SaveNow.

Definition step (e : event) (h : host) : host :=
  match e with
  | Wire from body => onWire from body h
  | Act peerId action => snd (applyAction peerId action h)
  | Start => snd (startGame h)
  | Rematch => snd (rematch h)
  | Leave peerId => removePlayer peerId h
  | Kick peerId => snd (kickPlayer peerId h)
  | Settings patch => updateSettings patch h
  | Invite peerId reachable => snd (invitePeer peerId reachable h)
  | SaveNow => snd (saveNow h)
  end.

Definition run (es : list event) (h : host) : host := fold_left (fun h e => step e h) es h.
