(* ===== verification/ConnectFourFacts.v ===== *)
(** * Facts about connect four

    The last disc decides: [checkWin] agrees with a search of the whole board.  The invariant of
    a hosted game, its progress, and the rematch that leaves a player alone. *)

From S2P Require Import Prelude Json Grid ConnectFour.

(** ** Dropping a disc *)

Abbreviation c4_shape := (shape 6 7).

Lemma empty_shape : c4_shape createEmptyBoard.
Proof. split; [done|]. apply (bool_decide_unpack _). vm_compute. exact I. Qed.

Lemma is_free_spec b s : is_free b s = true <-> disc_at b s = Some 0.
Proof. apply bool_decide_eq_true. Qed.

Lemma find_lowest (f : Z -> bool) row : List.find f (rev (seqZ 0 6)) = Some row ->
  f row = true /\ 0 <= row < 6 /\ forall r, row < r < 6 -> f r = false.
Proof.
  change (rev (seqZ 0 6)) with [5; 4; 3; 2; 1; 0]. cbn [List.find].
  destruct (f 5) eqn:E5, (f 4) eqn:E4, (f 3) eqn:E3, (f 2) eqn:E2, (f 1) eqn:E1, (f 0) eqn:E0; intros [= <-];
    (split; [done|split; [lia|]]); intros r Hr; (assert (r = 5 \/ r = 4 \/ r = 3 \/ r = 2 \/ r = 1) as Hc by lia);
    repeat destruct Hc as [->|Hc]; subst; first [done | lia].
Qed.

(** The disc lies on the lowest free cell of its column. *)
Lemma drop_spec b col p b' s : dropDisc b col p = Some (b', s) ->
  1 <= p <= 2 /\ s.2 = col /\ 0 <= col < COLS /\ 0 <= s.1 < ROWS /\ b' = put_disc b s p /\ disc_at b s = Some 0 /\
  (forall r, s.1 < r < ROWS -> disc_at b (r, col) <> Some 0).
Proof.
  unfold dropDisc, COLS, ROWS. destruct (_ || _ || _ || _) eqn:Hg; [done|]. bool_cases.
  destruct (List.find _ _) as [row|] eqn:Hf; [|done]. intros [= <- <-]. apply find_lowest in Hf as (Hrow & Hr & Hlow).
  cbn [fst snd]. split_and!; try lia; try done; [by apply is_free_spec|].
  intros r Hrr Hz. apply is_free_spec in Hz. by rewrite Hlow in Hz.
Qed.

(** A column that is not full takes a disc. *)
Lemma drop_total b col p : isColumnFull b col = false -> 0 <= col < COLS -> 1 <= p <= 2 -> is_Some (dropDisc b col p).
Proof.
  unfold isColumnFull, dropDisc, COLS. intros Hfree%negb_false_iff Hc Hp.
  destruct (_ || _ || _ || _) eqn:Hg; [bool_cases; lia|].
  destruct (List.find _ _) as [row|] eqn:Hf; [by eexists|]. exfalso.
  apply find_none with (x := 0) in Hf; [congruence|]. by vm_compute; tauto.
Qed.

(** ** The last disc decides *)

Lemma checkWin_some b s p cells : checkWin b s p = Some cells ->
  4 <= Z.of_nat (length cells) /\ exists d, d ∈ directions /\ cells = cells_through WALK_FUEL b p s d.
Proof.
  unfold checkWin. intros H. apply find_some in H as [Hin Hl]. bool_cases. split; [lia|].
  apply in_map_iff in Hin as (d & <- & Hd). exists d. split; [by apply list_elem_of_In|done].
Qed.

Lemma checkWin_none b s p : checkWin b s p = None -> forall d, d ∈ directions -> Z.of_nat (length (cells_through WALK_FUEL b p s d)) < 4.
Proof.
  unfold checkWin. intros H d Hd. apply find_none with (x := cells_through WALK_FUEL b p s d) in H; [bool_cases; lia|].
  apply in_map. by apply list_elem_of_In.
Qed.

Lemma checkWin_line b s p : c4_shape b -> 0 <= s.1 < ROWS -> 0 <= s.2 < COLS -> ~ has_line b p 4 ->
  (checkWin (put_disc b s p) s p <> None <-> has_line (put_disc b s p) p 4).
Proof.
  intros Hb Hr Hc Hno.
  rewrite (line_after_put 6 7 WALK_FUEL b p s 4) by (done || (unfold WALK_FUEL; lia)). split.
  - destruct (checkWin _ _ _) as [cells|] eqn:H; [|done]. intros _.
    apply checkWin_some in H as (Hl & d & Hd & ->). exists d. split; [done|lia].
  - intros (d & Hd & Hl) Hn. pose proof (checkWin_none _ _ _ Hn d Hd). lia.
Qed.

(** The cells that [checkWin] returns all hold the player's disc. *)
Lemma cells_through_disc fuel b p s d c : disc_at b s = Some p -> c ∈ cells_through fuel b p s d -> disc_at b c = Some p.
Proof.
  intros Hs. unfold cells_through. rewrite elem_of_cons, elem_of_app. intros [->|H]; [done|].
  assert (Hw : forall fuel sign k, c ∈ walk fuel b p s d sign k -> disc_at b c = Some p); [|destruct H as [H|H]; by apply Hw in H].
  clear fuel H. induction fuel as [|fuel IH]; intros sign k; simpl; [by intros H%elem_of_nil|].
  case_bool_decide as Hd; [|by intros H%elem_of_nil]. rewrite elem_of_cons. intros [->|H]; [done|]. by eapply IH.
Qed.

(** C29: looking along the four lines through the last disc is as good as searching the whole
    board from every cell in all eight directions ([scan], [has_line], which know nothing of the
    directions of the code): if the player had no four in a row before, [checkWin] finds cells
    after the drop exactly when the board has four of the player's discs in a row anywhere, and
    then it returns at least four cells that all hold the player's disc. *)
Theorem checkWin_equals_scan b col p b' s :
  c4_shape b -> scan b p 4 = false -> dropDisc b col p = Some (b', s) ->
  scan b' p 4 = match checkWin b' s p with Some _ => true | None => false end /\
  (scan b' p 4 = true <-> has_line b' p 4) /\
  forall cells, checkWin b' s p = Some cells -> (4 <= length cells)%nat /\ forall c, c ∈ cells -> disc_at b' c = Some p.
Proof.
  intros Hb Hno Hd. destruct (drop_spec _ _ _ _ _ Hd) as (Hp & <- & Hc & Hr & -> & Hz & _).
  assert (Hn : ~ has_line b p 4) by (rewrite <- (scan_spec 6 7) by done; congruence).
  pose proof (checkWin_line b s p Hb Hr Hc Hn) as Hline. pose proof (put_shape 6 7 b s p Hb) as Hb'. split.
  - destruct (checkWin _ _ _); [by apply (scan_spec 6 7), Hline|]. apply not_true_iff_false.
    rewrite (scan_spec 6 7) by done. intros H. by apply Hline in H.
  - split; [by apply (scan_spec 6 7)|]. intros cells Hcells. apply checkWin_some in Hcells as (Hl & d & Hdir & ->). split; [lia|].
    intros c. apply cells_through_disc. rewrite (disc_at_put 6 7) by done. by rewrite decide_True.
Qed.

(** Three of four, the fourth dropped between them. *)
Definition gap_board : grid :=
  [[0; 0; 0; 0; 0; 0; 0]; [0; 0; 0; 0; 0; 0; 0]; [0; 0; 0; 0; 0; 0; 0]; [0; 0; 0; 0; 0; 0; 0]; [0; 0; 0; 0; 0; 0; 0];
   [1; 1; 0; 1; 2; 2; 2]].

Lemma checkWin_equals_scan_witness :
  scan gap_board 1 4 = false /\ scan (put_disc gap_board (5, 2) 1) 1 4 = true.
Proof.
  assert (Hs : scan gap_board 1 4 = false) by (vm_compute; reflexivity). split; [exact Hs|].
  destruct (checkWin_equals_scan gap_board 2 1 (put_disc gap_board (5, 2) 1) (5, 2)) as [-> _].
  - split; [done|]. apply (bool_decide_unpack _). vm_compute. exact I.
  - exact Hs.
  - vm_compute. reflexivity.
  - vm_compute. reflexivity.
Defined.

(** ** Counting discs *)

Definition count (q : Z) (row : list Z) : Z := Z.of_nat (length (filter (fun x => x = q) row)).

Definition discs (b : grid) (q : Z) : Z := foldr (fun row n => count q row + n) 0 b.

Lemma count_cons q x row : count q (x :: row) = (if decide (x = q) then 1 else 0) + count q row.
Proof. unfold count. rewrite filter_cons. case_decide; simpl; lia. Qed.

Lemma count_insert q row : forall j x y, row !! j = Some y ->
  count q (<[j := x]> row) = count q row + (if decide (x = q) then 1 else 0) - (if decide (y = q) then 1 else 0).
Proof.
  induction row as [|z row IH]; intros [|j] x y; simpl; try done.
  - intros [= ->]. rewrite !count_cons. lia.
  - intros H. change (list_insert j x row) with (<[j := x]> row). rewrite !count_cons, (IH _ _ _ H). lia.
Qed.

Lemma discs_alter q f b : forall i row, b !! i = Some row -> discs (alter f i b) q = discs b q + count q (f row) - count q row.
Proof.
  induction b as [|r b IH]; intros [|i] row; simpl; try done.
  - intros [= ->]. lia.
  - intros H. change (list_alter f i b) with (alter f i b). rewrite (IH _ _ H). lia.
Qed.

Lemma discs_put b s x q : disc_at b s = Some 0 ->
  discs (put_disc b s x) q = discs b q + (if decide (x = q) then 1 else 0) - (if decide (0 = q) then 1 else 0).
Proof.
  unfold disc_at, put_disc. destruct (_ && _); [|done]. destruct (b !! Z.to_nat s.1) as [row|] eqn:Hrow; simpl; [|done].
  intros Hx. rewrite (discs_alter q _ b _ _ Hrow), (count_insert q row _ _ _ Hx). lia.
Qed.

Lemma discs_nonneg b q : 0 <= discs b q.
Proof. induction b as [|row b IH]; simpl; [lia|]. unfold count. lia. Qed.

(** ** The invariant of a hosted game *)

(** The seats: the host with the first disc, and perhaps a guest with the second. *)
Definition seats_ok (self : string) (ps : list seat) : Prop :=
  exists p, s_peer p = self /\ s_seat p = 0 /\ s_disc p = 1 /\
    (ps = [p] \/ exists q, ps = [p; q] /\ s_peer q <> self /\ s_seat q = 1 /\ s_disc q = 2).

(** Discs rest on others. *)
Definition gravity (b : grid) : Prop :=
  forall r c, 0 <= r -> r + 1 < ROWS -> disc_at b (r, c) <> None -> disc_at b (r, c) <> Some 0 -> disc_at b (r + 1, c) <> Some 0.

(** A game that goes on: no line, a free cell, the discs as the turns put them. *)
Definition open_game (b : grid) (turn : Z) : Prop :=
  ~ has_line b 1 4 /\ ~ has_line b 2 4 /\ isBoardFull b = false /\ discs b 1 = discs b 2 + turn /\ discs b 0 + discs b 1 + discs b 2 = 42.

(** What the result of a finished game says of its board. *)
Definition result_ok (self : string) (b : grid) (winner : option string) (cells : option (list (Z * Z))) : Prop :=
  match winner with
  | Some w =>
      let p := if bool_decide (w = self) then 1 else 2 in
      has_line b p 4 /\ exists l, cells = Some l /\ (4 <= length l)%nat /\ forall c, c ∈ l -> disc_at b c = Some p
  | None => ~ has_line b 1 4 /\ ~ has_line b 2 4 /\ isBoardFull b = true
  end.

Record inv (h : host) : Prop := mk_inv {
  i_shape : c4_shape (board h);
  i_seats : seats_ok (selfId h) (players h);
  i_turn : 0 <= toActIdx h <= 1;
  i_gravity : gravity (board h);
  i_playing : phase h = Playing -> open_game (board h) (toActIdx h);
  i_finished : phase h = Finished -> result_ok (selfId h) (board h) (winnerPeerId h) (winCells h)
}.

(** The part of the state the invariant speaks of. *)
Definition core (h : host) := (selfId h, players h, phase h, board h, toActIdx h, winnerPeerId h, winCells h).

Lemma c4_inv_core h h' : core h = core h' -> inv h -> inv h'.
Proof.
  unfold core. intros [= H1 H2 H3 H4 H5 H6 H7] [Ha Hb Hc Hd He Hf].
  rewrite ?H1, ?H2, ?H3, ?H4, ?H5, ?H6, ?H7 in *. by constructor.
Qed.

(** Messages, saves and settings are not part of the core. *)
Ltac same_core := match goal with H : inv ?h |- _ => apply (c4_inv_core h); [reflexivity|exact H] end.

Lemma playerIndex_spec peer ps : playerIndex peer ps = -1 \/
  exists p, seat_at ps (playerIndex peer ps) = Some p /\ s_peer p = peer /\ 0 <= playerIndex peer ps.
Proof.
  induction ps as [|p ps IH]; simpl; [by left|]. case_bool_decide as Hp; [right; by exists p|].
  destruct IH as [->|(q & Hq & Hpq & Hi)]; [by left|]. right. destruct (Z.ltb_spec (playerIndex peer ps) 0) as [|_]; [lia|].
  exists q. split_and!; [|done|lia]. unfold seat_at in *. destruct (Z.leb_spec 0 (playerIndex peer ps)); [|lia].
  destruct (Z.leb_spec 0 (playerIndex peer ps + 1)); [|lia].
  by replace (Z.to_nat (playerIndex peer ps + 1)) with (S (Z.to_nat (playerIndex peer ps))) by lia.
Qed.

(** The place of a peer at the table. *)
Lemma index_cases h peer : inv h ->
  playerIndex peer (players h) = -1 \/
  (exists p, playerIndex peer (players h) = 0 /\ seat_at (players h) 0 = Some p /\ s_disc p = 1 /\ peer = selfId h) \/
  (exists p q, playerIndex peer (players h) = 1 /\ players h = [p; q] /\ s_disc q = 2 /\ peer = s_peer q /\ peer <> selfId h).
Proof.
  intros H. destruct (i_seats _ H) as (p & Hp & Hs & Hd & [->|(q & -> & Hq & Hsq & Hdq)]); cbn [playerIndex].
  - case_bool_decide as Hb; [right; left; exists p; by rewrite <- Hp|by left].
  - case_bool_decide as Hb; [right; left; exists p; by rewrite <- Hp|].
    case_bool_decide as Hc; [|by left]. right; right. exists p, q. subst. by split_and!.
Qed.

Lemma scan_no_line b p : c4_shape b -> scan b p 4 = false -> ~ has_line b p 4.
Proof. intros Hb Hs. rewrite <- (scan_spec 6 7) by done. congruence. Qed.

Lemma empty_open : open_game createEmptyBoard 0 /\ gravity createEmptyBoard.
Proof.
  split; [split_and!; try (apply scan_no_line; [exact empty_shape|]); vm_compute; reflexivity|].
  intros r c Hr Hr' Hn Hz. exfalso. destruct (disc_at createEmptyBoard (r, c)) as [x|] eqn:Hx; [|done]. apply Hz. f_equal.
  unfold disc_at in Hx. destruct (_ && _); [|done]. simpl in Hx.
  destruct (createEmptyBoard !! Z.to_nat r) as [row|] eqn:Hrow; [|done].
  apply lookup_replicate_1 in Hrow as [-> _]. by apply lookup_replicate_1 in Hx as [-> _].
Qed.

Lemma deal_inv h : inv h -> inv (deal h).
Proof. intros [Ha Hb Hc Hd He Hf]. constructor; try done; [exact empty_shape|apply empty_open|]. intros _. apply empty_open. Qed.

(** ** A drop *)

Lemma gravity_put b s p : c4_shape b -> gravity b -> 0 <= s.1 < ROWS -> 0 <= s.2 < COLS -> p <> 0 -> disc_at b s = Some 0 ->
  (forall r, s.1 < r < ROWS -> disc_at b (r, s.2) <> Some 0) -> gravity (put_disc b s p).
Proof.
  intros Hb Hg Hr Hc Hp Hz Hlow r c Hr0 Hr1 Hn Hnz. rewrite !(disc_at_put 6 7) in * by done.
  destruct (decide (s = (r + 1, c))) as [->|Hne]; [congruence|].
  destruct (decide (s = (r, c))) as [->|Hne']; [by apply Hlow; simpl in *; lia|]. by apply Hg.
Qed.

Definition other (p : Z) : Z := 3 - p.

(** The board after a drop in a game that goes on. *)
Lemma drop_board b turn col b' s : c4_shape b -> gravity b -> open_game b turn -> 0 <= turn <= 1 -> dropDisc b col (turn + 1) = Some (b', s) ->
  c4_shape b' /\ gravity b' /\ ~ has_line b' (other (turn + 1)) 4 /\
  (checkWin b' s (turn + 1) <> None <-> has_line b' (turn + 1) 4) /\ disc_at b' s = Some (turn + 1) /\
  discs b' 1 = discs b' 2 + (1 - turn) /\ discs b' 0 = discs b 0 - 1 /\ discs b' 0 + discs b' 1 + discs b' 2 = 42.
Proof.
  intros Hb Hg (Hn1 & Hn2 & Hfull & Hcount & Hsum) Ht Hd.
  destruct (drop_spec _ _ _ _ _ Hd) as (Hp & <- & Hc & Hr & -> & Hz & Hlow).
  assert (Hno : ~ has_line b (turn + 1) 4 /\ ~ has_line b (other (turn + 1)) 4)
    by (assert (turn = 0 \/ turn = 1) as [-> | ->] by lia; done).
  destruct Hno as [Hno Hoth]. split_and!.
  - by apply put_shape.
  - apply gravity_put; try done. lia.
  - intros Hl. apply Hoth. eapply (line_other 6 7); [done..| |exact Hl]. unfold other. lia.
  - by apply checkWin_line.
  - rewrite (disc_at_put 6 7) by done. by rewrite decide_True.
  - rewrite !discs_put by done. assert (turn = 0 \/ turn = 1) as [-> | ->] by lia; simpl; lia.
  - rewrite !discs_put by done. assert (turn = 0 \/ turn = 1) as [-> | ->] by lia; simpl; lia.
  - rewrite !discs_put by done. assert (turn = 0 \/ turn = 1) as [-> | ->] by lia; simpl; lia.
Qed.

(** What an accepted drop does, by its three outcomes. *)
Definition dropped (h : host) (peer : string) (col : Z) (h' : host) : Prop :=
  exists b s, playerIndex peer (players h) = toActIdx h /\ phase h = Playing /\ dropDisc (board h) col (toActIdx h + 1) = Some (b, s) /\
    board h' = b /\ players h' = players h /\ selfId h' = selfId h /\
    match checkWin b s (toActIdx h + 1) with
    | Some cells => phase h' = Finished /\ winnerPeerId h' = Some peer /\ winCells h' = Some cells /\ toActIdx h' = toActIdx h
    | None =>
        if isBoardFull b then phase h' = Finished /\ winnerPeerId h' = None /\ toActIdx h' = toActIdx h
        else phase h' = Playing /\ toActIdx h' = 1 - toActIdx h
    end.

Lemma drop_cases peer column h : inv h ->
  drop peer column h = (false, h) \/
  exists col, to_number column = Some col /\ fst (drop peer column h) = true /\ dropped h peer col (snd (drop peer column h)).
Proof.
  intros H. unfold drop. destruct (Z.ltb (playerIndex peer (players h)) 0 || _ || _) eqn:Hg; [by left|]. bool_cases.
  destruct (to_number column) as [col|]; [|by left].
  destruct (seat_at (players h) (playerIndex peer (players h))) as [p|] eqn:Hp; [|by left].
  assert (Hd : s_disc p = toActIdx h + 1).
  { destruct (index_cases _ peer H) as [Hi|[(q & Hi & Hq & Hqd & _)|(q1 & q & Hi & Hps & Hqd & _)]]; [lia| |].
    - rewrite Hi in *. assert (q = p) as -> by congruence. lia.
    - rewrite Hi, Hps in Hp. injection Hp as <-. lia. }
  destruct (Z.ltb col 0 || _ || _) eqn:Hc; [by left|].
  destruct (dropDisc (board h) col (s_disc p)) as [[b s]|] eqn:Hdrop; [|by left].
  right. exists col. split; [done|]. rewrite Hd in *. unfold dropped.
  destruct (checkWin b s (toActIdx h + 1)) as [cells|] eqn:Hw.
  - split; [done|]. exists b, s. rewrite Hw. by split_and!.
  - destruct (isBoardFull b) eqn:Hfull.
    + split; [done|]. exists b, s. rewrite Hw, Hfull. by split_and!.
    + split; [done|]. exists b, s. rewrite Hw, Hfull. split_and!; try done. cbn [snd].
      pose proof (i_turn _ H). change (toActIdx (pushState (checkpoint (_ <| toActIdx := ?t |> <| message := _ |>)))) with t.
      change (toActIdx (h <| board := b |>)) with (toActIdx h). destruct (Z.eqb_spec (toActIdx h) 0); lia.
Qed.

Lemma dropped_inv h peer col h' : inv h -> dropped h peer col h' -> inv h'.
Proof.
  intros H (b & s & Hi & Hph & Hd & Hb & Hps & Hself & Hout). pose proof (i_turn _ H) as Ht.
  destruct (drop_board _ _ _ _ _ (i_shape _ H) (i_gravity _ H) (i_playing _ H Hph) Ht Hd)
    as (Hshape & Hgrav & Hoth & Hline & Hs & Hcount & _ & Hsum).
  assert (Hseats : seats_ok (selfId h') (players h')) by (rewrite Hself, Hps; apply H).
  rewrite <- Hb in *. destruct (checkWin (board h') s (toActIdx h + 1)) as [cells|] eqn:Hw.
  - destruct Hout as (Hph' & Hwin & Hcells & Hact). constructor; try done; [lia|congruence|]. intros _. rewrite Hwin, Hself.
    assert (Hp : (if bool_decide (peer = selfId h) then 1 else 2) = toActIdx h + 1).
    { destruct (index_cases _ peer H) as [Hx|[(q & Hx & _ & _ & ->)|(q1 & q & Hx & _ & _ & _ & Hne)]]; [lia| |].
      - rewrite bool_decide_eq_true_2 by done. lia.
      - rewrite bool_decide_eq_false_2 by done. lia. }
    unfold result_ok. rewrite Hp. split; [by apply Hline|]. exists cells. destruct (checkWin_some _ _ _ _ Hw) as (Hl & d & Hd' & ->).
    split_and!; [done|lia|]. intros c. by apply cells_through_disc.
  - assert (Hno : ~ has_line (board h') (toActIdx h + 1) 4) by (intros Hx; by apply Hline in Hx).
    assert (Hlines : ~ has_line (board h') 1 4 /\ ~ has_line (board h') 2 4)
      by (assert (toActIdx h = 0 \/ toActIdx h = 1) as [E|E] by lia; rewrite E in *; done).
    destruct Hlines as [Hn1 Hn2]. destruct (isBoardFull (board h')) eqn:Hfull.
    + destruct Hout as (Hph' & Hwin & Hact). constructor; try done; [lia|congruence|]. intros _. by rewrite Hwin.
    + destruct Hout as (Hph' & Hact). constructor; try done; [lia| |congruence]. intros _. unfold open_game.
      rewrite Hact. by split_and!.
Qed.

(** ** The other operations *)

Lemma c4_add_inv peer name h : inv h -> inv (snd (addPlayer peer name h)).
Proof.
  intros H. pose proof H as [Ha Hb Hc Hd He Hf]. unfold addPlayer. destruct (bool_decide (peer ∈ _)) eqn:Hin; cbn [snd].
  - set (f := fun p => if bool_decide (s_peer p = peer) then p <| s_connected := true |> <| s_name := name_or name (s_name p) |> else p).
    assert (Hps : seats_ok (selfId h) (map f (players h))).
    { assert (Hk : forall p, s_peer (f p) = s_peer p /\ s_seat (f p) = s_seat p /\ s_disc (f p) = s_disc p)
        by (intros p; unfold f; destruct (bool_decide (s_peer p = peer)); repeat split).
      destruct Hb as (p & H1 & H2 & H3 & Hp). destruct (Hk p) as (K1 & K2 & K3). exists (f p). rewrite K1, K2, K3.
      destruct Hp as [->|(q & -> & H4 & H5 & H6)]; split_and!; try done; [by left|right].
      destruct (Hk q) as (K4 & K5 & K6). exists (f q). by rewrite K4, K5, K6. }
    apply (c4_inv_core (h <| players := map f (players h) |>)); [reflexivity|]. by constructor.
  - bool_cases. destruct Hb as (p & H1 & H2 & H3 & Hp). destruct Hp as [Hps|(q & Hps & _)]; rewrite Hps; [|done].
    rewrite Hps in Hin. assert (Hne : peer <> selfId h) by (intros ->; apply Hin; simpl; rewrite H1; by left).
    cbn [length MAX_PLAYERS Nat.leb]. unfold findSeat. cbn [map]. rewrite H2. cbn [snd].
    change (List.find _ (seqZ 0 (Z.of_nat MAX_PLAYERS))) with (Some 1). cbn [snd app].
    set (q := mk_seat peer (name_or name peer) 1 (1 + 1) true).
    assert (Hsort : sort_seats [p; q] = [p; q]) by (unfold sort_seats, q; simpl; by rewrite H2).
    rewrite Hsort. apply (c4_inv_core (h <| players := [p; q] |>)); [reflexivity|]. constructor; try done.
    exists p. split_and!; try done. right. exists q. by split_and!.
Qed.

Lemma c4_remove_inv peer h : inv h -> inv (removePlayer peer h).
Proof.
  intros H. unfold removePlayer. destruct (_ || _) eqn:Hg; [done|]. bool_cases.
  destruct (index_cases _ peer H) as [Hi|[(p & _ & _ & _ & ->)|(p & q & Hi & Hps & Hd & -> & Hne)]]; [lia|done|].
  rewrite Hi. pose proof H as [Ha (p' & Hp1 & Hp2 & Hp3 & Hp4) Hc Hgr He Hf]. cbv zeta.
  assert (p' = p) as -> by (destruct Hp4 as [Hx|(q' & Hx & _)]; rewrite Hps in Hx; congruence).
  destruct (Z.ltb_spec 1 (toActIdx h)); [lia|]. change (players (h <| players := ?x |>)) with x.
  rewrite Hps. change (delete (Z.to_nat 1) [p; q]) with [p].
  assert (Hseats : seats_ok (selfId h) [p]) by (exists p; split_and!; try done; by left).
  change (toActIdx (h <| players := _ |>)) with (toActIdx h). cbn [length].
  set (h1 := if Z.leb (Z.of_nat 1) (toActIdx h) then h <| players := [p] |> <| toActIdx := 0 |> else h <| players := [p] |>).
  assert (Hh1 : phase h1 = phase h /\ players h1 = [p] /\ board h1 = board h /\ selfId h1 = selfId h /\
    winnerPeerId h1 = winnerPeerId h /\ winCells h1 = winCells h /\ 0 <= toActIdx h1 <= 1)
    by (unfold h1; destruct (Z.leb _ _); repeat split; try reflexivity; simpl; lia).
  clearbody h1. destruct Hh1 as (E1 & E2 & E3 & E4 & E5 & E6 & E7). rewrite E1, E2. cbn [length Nat.ltb].
  rewrite andb_true_r. case_bool_decide as Hph.
  - apply (c4_inv_core (h1 <| phase := Lobby |> <| board := createEmptyBoard |> <| winnerPeerId := None |> <| winCells := None |>)); [reflexivity|].
    constructor; try done; [exact empty_shape| |apply empty_open]. cbn [selfId players]. 
    change (seats_ok (selfId h1) (players h1)). by rewrite E2, E4.
  - apply (c4_inv_core h1); [reflexivity|]. constructor; rewrite ?E1, ?E2, ?E3, ?E4, ?E5, ?E6; done.
Qed.

Lemma c4_kick_inv peer h : inv h -> inv (snd (kickPlayer peer h)).
Proof.
  intros H. unfold kickPlayer. destruct (_ || _); [done|]. cbn [snd].
  apply (c4_inv_core (removePlayer peer (emit (Kicked peer) h))); [reflexivity|]. apply c4_remove_inv. same_core.
Qed.

Lemma rematch_inv h : inv h -> inv (snd (rematch h)).
Proof.
  intros H. unfold rematch. destruct (negb _); [done|]. cbn [snd].
  apply (c4_inv_core (deal h)); [reflexivity|]. by apply deal_inv.
Qed.

Lemma drop_inv peer column h : inv h -> inv (snd (drop peer column h)).
Proof. intros H. destruct (drop_cases peer column h H) as [->|(col & _ & _ & Hd)]; [done|]. by eapply dropped_inv. Qed.

Lemma c4_action_inv peer action h : inv h -> inv (snd (applyAction peer action h)).
Proof. intros H. unfold applyAction. destruct (is_text _ _); [by apply drop_inv|]. destruct (is_text _ _); [by apply rematch_inv|done]. Qed.

Lemma c4_join_inv from name h : inv h -> inv (handle_join from name h).
Proof.
  intros H. unfold handle_join. destruct (negb _); [same_core|]. destruct (_ && _ && _); [same_core|].
  pose proof (c4_add_inv from name h H) as Ha. destruct (addPlayer from name h) as [ok h']. cbn [snd] in Ha. by apply (c4_inv_core h').
Qed.

Lemma c4_step_inv e h : inv h -> inv (step e h).
Proof.
  intros H. destruct e as [from body|peer action| | |peer|peer|patch|peer reachable|]; cbn [step].
  - unfold onWire. destruct (_ && _); [by apply c4_join_inv|]. destruct (is_text _ _); [by apply c4_remove_inv|].
    destruct (_ && _); [by apply c4_action_inv|done].
  - by apply c4_action_inv.
  - unfold startGame. destruct (negb _); [done|]. destruct (Nat.ltb _ _); cbn [snd]; [same_core|].
    apply (c4_inv_core (deal h)); [reflexivity|]. by apply deal_inv.
  - by apply rematch_inv.
  - by apply c4_remove_inv.
  - by apply c4_kick_inv.
  - unfold updateSettings. same_core.
  - unfold invitePeer. destruct (_ || _ || _); [done|]. cbn [snd]. same_core.
  - unfold saveNow. destruct (bool_decide _); cbn [snd]; same_core.
Qed.

(** A host that sits down at its new table and then works through a list of events. *)
Definition hosted (self id name : string) (input : fields) (es : list event) : host :=
  run es (bootstrapHost name (newHost self id input)).

Lemma bootstrap_inv self id name input : inv (bootstrapHost name (newHost self id input)).
Proof.
  constructor; try done; [exact empty_shape| |apply empty_open].
  eexists. split_and!; [..|by left]; done.
Qed.

Lemma run_inv es h : inv h -> inv (run es h).
Proof. revert h. induction es as [|e es IH]; intros h H; [done|]. apply (IH (step e h)). by apply c4_step_inv. Qed.

Lemma c4_hosted_inv self id name input es : inv (hosted self id name input es).
Proof. apply run_inv, bootstrap_inv. Qed.

Lemma no_line_scan b p : c4_shape b -> ~ has_line b p 4 -> scan b p 4 = false.
Proof. intros Hb Hn. apply not_true_iff_false. by rewrite (scan_spec 6 7). Qed.

(** In every state a host reaches, whatever is sent to it: discs rest on the floor or on
    other discs; while a game is on nobody has four in a row anywhere on the board, a column is
    free, and the host has dropped as many discs as the guest, or one more when the guest is to
    act; a finished game with a winner has four of the winner's discs in a row, shown by the
    cells it names, and one without a winner has a full board and no four in a row. *)
Theorem verdicts_match_board self id name input es : let h := hosted self id name input es in
  gravity (board h) /\
  (phase h = Playing -> scan (board h) 1 4 = false /\ scan (board h) 2 4 = false /\ isBoardFull (board h) = false /\
     discs (board h) 1 = discs (board h) 2 + toActIdx h) /\
  (phase h = Finished -> match winnerPeerId h with
     | Some w => let p := if bool_decide (w = selfId h) then 1 else 2 in
         scan (board h) p 4 = true /\
         exists cells, winCells h = Some cells /\ (4 <= length cells)%nat /\ forall c, c ∈ cells -> disc_at (board h) c = Some p
     | None => scan (board h) 1 4 = false /\ scan (board h) 2 4 = false /\ isBoardFull (board h) = true
     end).
Proof.
  cbv zeta. destruct (c4_hosted_inv self id name input es) as [Ha Hb Hc Hd He Hf]. split_and!; [done| |].
  - intros Hp. destruct (He Hp) as (H1 & H2 & H3 & H4 & _). split_and!; try done; by apply no_line_scan.
  - intros Hp. specialize (Hf Hp). unfold result_ok in Hf. destruct (winnerPeerId _) as [w|].
    + destruct Hf as [Hl Hcells]. split; [by apply (scan_spec 6 7)|done].
    + destruct Hf as (H1 & H2 & H3). split_and!; try done; by apply no_line_scan.
Qed.

(** ** Progress *)

Lemma full_columns b : isBoardFull b = false -> exists col, 0 <= col < COLS /\ isColumnFull b col = false.
Proof.
  unfold isBoardFull. intros H. destruct (existsb (fun col => negb (isColumnFull b col)) (seqZ 0 COLS)) eqn:He.
  - apply existsb_exists in He as (col & Hc & Hf). apply list_elem_of_In, elem_of_seqZ in Hc. apply negb_true_iff in Hf.
    exists col. split; [unfold COLS in *; lia|done].
  - apply not_true_iff_false in H. destruct H. apply forallb_forall. intros col Hc.
    destruct (isColumnFull b col) eqn:Hf; [done|]. apply not_true_iff_false in He. destruct He.
    apply existsb_exists. exists col. by rewrite Hf.
Qed.

Lemma drop_accepts h p col : inv h -> phase h = Playing -> seat_at (players h) (toActIdx h) = Some p ->
  0 <= col < COLS -> isColumnFull (board h) col = false -> fst (drop (s_peer p) (Some (JNum col)) h) = true.
Proof.
  intros H Hph Hp Hc Hfree. pose proof (i_turn _ H) as Ht.
  assert (Hi : playerIndex (s_peer p) (players h) = toActIdx h /\ s_disc p = toActIdx h + 1).
  { destruct (i_seats _ H) as (q & Hq & Hs & Hd & Hps). unfold seat_at in Hp. destruct (Z.leb_spec 0 (toActIdx h)); [|done].
    assert (toActIdx h = 0 \/ toActIdx h = 1) as [Ez | Ez] by lia; rewrite Ez in *; destruct Hps as [Hps|(q' & Hps & Hne & _ & Hd')];
      rewrite Hps in *; simpl in Hp; try done; injection Hp as <-; cbn [playerIndex].
    - by rewrite bool_decide_eq_true_2.
    - by rewrite bool_decide_eq_true_2.
    - rewrite bool_decide_eq_false_2 by congruence. by rewrite bool_decide_eq_true_2. }
  destruct Hi as [Hi Hd]. unfold drop. rewrite Hi. destruct (Z.ltb_spec (toActIdx h) 0); [lia|].
  rewrite Z.eqb_refl, bool_decide_eq_true_2 by done. cbn [orb negb to_number]. rewrite Hp.
  destruct (Z.ltb_spec col 0); [lia|]. destruct (Z.leb_spec COLS col); [lia|]. rewrite Hfree. cbn [orb].
  destruct (drop_total (board h) col (s_disc p) Hfree Hc) as [[b s] ->]; [lia|].
  destruct (checkWin _ _ _); [done|]. by destruct (isBoardFull b).
Qed.

(** A running game goes on and ends.  The player to act always has a column whose drop the
    host accepts; every accepted drop, of whomever, takes one of the free cells, and after it the
    game is over or the other player is to act.  So a game has at most as many drops as the board
    had free cells, which are at most forty-two. *)
Theorem game_goes_on self id name input es p : let h := hosted self id name input es in
  phase h = Playing -> seat_at (players h) (toActIdx h) = Some p ->
  (exists col, 0 <= col < COLS /\ fst (drop (s_peer p) (Some (JNum col)) h) = true) /\
  (forall peer column, fst (drop peer column h) = true ->
     let h' := snd (drop peer column h) in
     peer = s_peer p /\ 0 <= discs (board h') 0 /\ discs (board h') 0 = discs (board h) 0 - 1 /\
     (phase h' = Finished \/ phase h' = Playing /\ toActIdx h' = 1 - toActIdx h)) /\
  discs (board h) 0 <= 42.
Proof.
  cbv zeta. pose proof (c4_hosted_inv self id name input es) as H. set (h := hosted self id name input es) in *. intros Hph Hp.
  destruct (i_playing _ H Hph) as (_ & _ & Hfull & _ & Hsum). split_and!.
  - destruct (full_columns _ Hfull) as (col & Hc & Hfree). exists col. split; [done|]. by apply drop_accepts.
  - intros peer column Hok. destruct (drop_cases peer column h H) as [Hx|(col & _ & _ & Hd)]; [by rewrite Hx in Hok|].
    destruct Hd as (b & s & Hi & _ & Hd & Hb & _ & _ & Hout).
    destruct (drop_board _ _ _ _ _ (i_shape _ H) (i_gravity _ H) (i_playing _ H Hph) (i_turn _ H) Hd) as (_ & _ & _ & _ & _ & _ & Hz & _).
    rewrite Hb. split_and!; [|apply discs_nonneg|done|].
    + destruct (playerIndex_spec peer (players h)) as [Hx|(q & Hq & <- & _)]; [pose proof (i_turn _ H); lia|].
      rewrite Hi in Hq. congruence.
    + destruct (checkWin _ _ _); [left; tauto|]. destruct (isBoardFull b); [left|right]; tauto.
  - pose proof (discs_nonneg (board h) 1). pose proof (discs_nonneg (board h) 2). lia.
Qed.

(** A guest joins an open table and the host starts. *)
Definition seated : list event := [Settings [("lobbyAccess", JStr "public")];
  Wire "guest" (Some (JObj [("wire", JStr "join"); ("gameId", JStr "g")])); Start].

Lemma game_goes_on_witness :
  let h := hosted "host" "g" "Host" [] seated in
  phase h = Playing /\ discs (board h) 0 <= 42 /\
  exists col, 0 <= col < COLS /\ fst (drop "host" (Some (JNum col)) h) = true.
Proof.
  intros h. assert (Hp : phase h = Playing) by (vm_compute; reflexivity). split; [exact Hp|].
  destruct (game_goes_on "host" "g" "Host" [] seated (mk_seat "host" "Host" 0 1 true) Hp ltac:(vm_compute; reflexivity)) as (H1 & _ & H2).
  split; [exact H2|exact H1].
Defined.

(** ** A rematch alone *)

(** The host alone at the table, in a running game, and it is the turn of the empty seat. *)
Definition stalled (h : host) : Prop :=
  exists p, players h = [p] /\ s_peer p = selfId h /\ phase h = Playing /\ toActIdx h = 1.

Lemma stalled_step e h : stalled h -> stalled (step e h) /\ board (step e h) = board h.
Proof.
  intros (p & Hps & Hself & Hph & Ht).
  assert (Hst : forall h', selfId h' = selfId h -> players h' = players h -> phase h' = phase h -> toActIdx h' = toActIdx h ->
    board h' = board h -> stalled h' /\ board h' = board h)
    by (intros h' E1 E2 E3 E4 E5; split; [exists p; by rewrite E1, E2, E3, E4|done]).
  assert (Hidx : forall peer, playerIndex peer (players h) = 0 /\ peer = selfId h \/ playerIndex peer (players h) = -1 /\ peer <> selfId h).
  { intros peer. rewrite Hps. cbn [playerIndex]. case_bool_decide as Hq; [left|right]; (split; [done|congruence]). }
  assert (Hdrop : forall peer column, drop peer column h = (false, h)).
  { intros peer column. unfold drop. destruct (Hidx peer) as [[-> _]|[-> _]]; [rewrite Ht|]; done. }
  assert (Hrm : forall peer, removePlayer peer h = h).
  { intros peer. unfold removePlayer. destruct (Hidx peer) as [[_ ->]|[-> _]]; [|done].
    by rewrite bool_decide_eq_true_2, orb_true_r by done. }
  assert (Hre : rematch h = (false, h)) by (unfold rematch; by rewrite Hph).
  assert (Hact : forall peer action, applyAction peer action h = (false, h)).
  { intros peer action. unfold applyAction. by rewrite Hdrop, Hre; repeat destruct (is_text _ _). }
  destruct e as [from body|peer action| | |peer|peer|patch|peer reachable|]; cbn [step].
  - unfold onWire, handle_join. rewrite Hph, Hrm, Hact. destruct (_ && _); [by apply Hst|].
    destruct (is_text _ _); [by apply Hst|]. by destruct (_ && _); apply Hst.
  - rewrite Hact. by apply Hst.
  - unfold startGame. rewrite Hph. by apply Hst.
  - rewrite Hre. by apply Hst.
  - rewrite Hrm. by apply Hst.
  - unfold kickPlayer. destruct (Hidx peer) as [[_ ->]|[-> _]].
    + rewrite bool_decide_eq_true_2 by done. by apply Hst.
    + rewrite orb_true_r. by apply Hst.
  - by apply Hst.
  - unfold invitePeer. destruct (_ || _ || _); by apply Hst.
  - unfold saveNow. rewrite Hph. by apply Hst.
Qed.

(** Once the guest has left a finished game, a rematch, which neither counts the players nor
    looks who asks, leaves the host in a game that never ends: after the host's first drop it is
    the turn of an empty seat, and no event whatever, a new guest, a settings change or another
    rematch, changes the board or the phase again. *)
Theorem lonely_rematch_stalls es h : stalled h ->
  phase (run es h) = Playing /\ pu_toAct (publicState (run es h)) = None /\ board (run es h) = board h.
Proof.
  intros H. assert (Hr : stalled (run es h) /\ board (run es h) = board h).
  { revert h H. induction es as [|e es IH]; intros h H; [done|]. destruct (stalled_step e h H) as [Hs Hb].
    destruct (IH (step e h) Hs) as [Hs' Hb']. split; [exact Hs'|]. unfold run in *. simpl. congruence. }
  destruct Hr as [(p & Hps & _ & Hph & Ht) Hb]. split_and!; [done| |done]. unfold publicState. cbn [pu_toAct].
  by rewrite Hps, Ht.
Qed.

Definition drop_in (peer : string) (col : Z) : event := Act peer (Some (JObj [("type", JStr "drop"); ("column", JNum col)])).

(** The host wins in the first column, the guest leaves, a stranger asks for the rematch. *)
Definition abandoned : list event :=
  seated ++ [drop_in "host" 0; drop_in "guest" 1; drop_in "host" 0; drop_in "guest" 1; drop_in "host" 0; drop_in "guest" 1;
             drop_in "host" 0; Wire "guest" (Some (JObj [("wire", JStr "leave")]));
             Wire "stranger" (Some (JObj [("wire", JStr "action"); ("gameId", JStr "g"); ("action", JObj [("type", JStr "rematch")])]));
             drop_in "host" 3].

Lemma lonely_rematch_stalls_witness :
  let h := hosted "host" "g" "Host" [] abandoned in
  winnerPeerId (hosted "host" "g" "Host" [] (take 10 abandoned)) = Some "host" /\
  pu_toAct (publicState (run [Start; Rematch; Leave "host"; Wire "guest" (Some (JObj [("wire", JStr "join"); ("gameId", JStr "g")]))] h)) = None.
Proof.
  intros h. split; [vm_compute; reflexivity|].
  apply (lonely_rematch_stalls _ h). exists (mk_seat "host" "Host" 0 1 true). vm_compute. repeat split.
Defined.
