(* ===== verification/TicTacToe.v ===== *)
(** * Tic-tac-toe: board, rules and the computer opponent
    ([assets/bundled-plugins/tic-tac-toe/board.js, rules.js, ai.js])

    Boards are square.  [Math.random()] is a list of drawn numbers that the functions consume;
    the values of a trained model are rationals, as floating-point numbers are. *)

From Stdlib Require Import QArith.QArith QArith.Qround.
From S2P Require Import Prelude Json Grid.

#[local] Open Scope Z_scope.

(** ** The board ([board.js]) *)

Definition AI_PEER_ID : string := "__ttt_ai__".
Definition BOARD_SIZES : list Z := [3; 5; 7].
Definition WIN_LENGTHS : list Z := [3; 4; 5].

(** [Number(size) || 3]. *)
Definition createEmptyBoard (size : Z) : grid :=
  let n := Z.to_nat (if Z.eqb size 0 then 3 else size) in replicate n (replicate n 0).

Definition applyMove (b : grid) (s : Z * Z) (player : Z) : option grid :=
  let size := Z.of_nat (length b) in
  if Z.ltb s.1 0 || Z.ltb s.2 0 || Z.leb size s.1 || Z.leb size s.2 then None
  else if negb (bool_decide (disc_at b s = Some 0)) || Z.ltb player 1 || Z.ltb 4 player then None
  else Some (put_disc b s player).

Definition isBoardFull (b : grid) : bool := forallb (forallb (fun x => negb (Z.eqb x 0))) b.

(** In the order of the loops over rows and columns. *)
Definition listEmptyCells (b : grid) : list (Z * Z) :=
  List.filter (fun s => bool_decide (disc_at b s = Some 0)) (cells_of b).

Definition isValidBoardShape (b : grid) (size : Z) : bool :=
  Z.eqb (Z.of_nat (length b)) size && forallb (fun row => Z.eqb (Z.of_nat (length row)) size) b.

(** ** Lines ([rules.js]) *)

(** More steps than a line of the board has cells. *)
Definition walk_fuel (b : grid) : nat := S (length b + length b).

Record win := mk_win { winner : Z; win_cells : list (Z * Z) }.

Definition checkWin (b : grid) (winLength : Z) (last : Z * Z) : option win :=
  match disc_at b last with
  | None => None
  | Some player =>
      if Z.eqb player 0 then None
      else
        let need := Z.max 2 (if Z.eqb winLength 0 then 3 else winLength) in
        match List.find (fun cells => Z.leb need (Z.of_nat (length cells))) (map (cells_through (walk_fuel b) b player last) directions) with
        | Some cells => Some (mk_win player (take (Z.to_nat need) cells))
        | None => None
        end
  end.

Definition findWinningMove (b : grid) (winLength player : Z) : option (Z * Z) :=
  List.find (fun s => match applyMove b s player with
                      | Some next => match checkWin next winLength s with Some _ => true | None => false end
                      | None => false
                      end) (listEmptyCells b).

(** ** The algorithm ([ai.js]) *)

(** Numbers with the two infinities. *)
Inductive score := NegInf | Fin (z : Z) | PosInf.

Definition sleb (a b : score) : bool :=
  match a, b with
  | NegInf, _ | _, PosInf => true
  | Fin x, Fin y => Z.leb x y
  | _, _ => false
  end.

Definition sltb (a b : score) : bool := negb (sleb b a).
Definition smax (a b : score) : score := if sleb a b then b else a.
Definition smin (a b : score) : score := if sleb a b then a else b.

(** The score of one line of [need] cells: none if it leaves the board or holds another disc. *)
Definition line_score (b : grid) (need player opponent : Z) (s d : Z * Z) : Z :=
  let cells := map (fun i => disc_at b (along s d i)) (seqZ 0 need) in
  if forallb (fun x => bool_decide (x = Some player) || bool_decide (x = Some opponent) || bool_decide (x = Some 0)) cells then
    let mine := Z.of_nat (length (List.filter (fun x => bool_decide (x = Some player)) cells)) in
    let theirs := Z.of_nat (length (List.filter (fun x => negb (bool_decide (x = Some player)) && bool_decide (x = Some opponent)) cells)) in
    (if Z.eqb theirs 0 && Z.ltb 0 mine then 10 ^ mine else 0) - (if Z.eqb mine 0 && Z.ltb 0 theirs then 10 ^ theirs else 0)
  else 0.

Definition sum (l : list Z) : Z := foldr Z.add 0 l.

Definition scoreLine (b : grid) (winLength player opponent : Z) : Z :=
  sum (map (fun sd => line_score b (Z.max 2 winLength) player opponent sd.1 sd.2) (List.list_prod (cells_of b) directions)).

Section minimax.
Context (winLength player opponent : Z).

(** The disc of the side that searches. *)
Definition mover (maximizing : bool) : Z := if maximizing then player else opponent.

(** [result?.winner === player && maximizing], and the same for the other side. *)
Definition wins (maximizing : bool) (b : grid) (s : Z * Z) : bool :=
  match checkWin b winLength s with Some w => Z.eqb (winner w) (mover maximizing) | None => false end.

Definition win_score (maximizing : bool) (depth : Z) : score :=
  Fin (if maximizing then 100000 - depth else -100000 + depth).

Definition best_start (maximizing : bool) : score := if maximizing then NegInf else PosInf.

(** [score > bestScore], or [<]. *)
Definition better (maximizing : bool) (new old : score) : bool := if maximizing then sltb old new else sltb new old.

(** The loop over the free cells; [child] searches the board after a move. *)
Fixpoint try_cells (child : grid -> score -> score -> score) (maximizing : bool) (depth : Z) (b : grid)
    (cells : list (Z * Z)) (alpha beta best : score) (bestMove : option (Z * Z)) : score * option (Z * Z) :=
  match cells with
  | [] => (best, bestMove)
  | cell :: cells =>
      match applyMove b cell (mover maximizing) with
      | None => try_cells child maximizing depth b cells alpha beta best bestMove
      | Some next =>
          if wins maximizing next cell then (win_score maximizing depth, Some cell)
          else
            let score := child next alpha beta in
            let improves := better maximizing score best in
            let best := if improves then score else best in
            let bestMove := if improves then Some cell else bestMove in
            let alpha := if maximizing then smax alpha score else alpha in
            let beta := if maximizing then beta else smin beta score in
            if sleb beta alpha then (best, bestMove) else try_cells child maximizing depth b cells alpha beta best bestMove
      end
  end.

(** [minimax] with [n = maxDepth - depth] more levels to search; the score and the move. *)
Fixpoint minimax (n : nat) (maximizing : bool) (depth : Z) (b : grid) (alpha beta : score) : score * option (Z * Z) :=
  match n with
  | O => (Fin (scoreLine b winLength player opponent), None)
  | S n =>
      if isBoardFull b then (Fin (scoreLine b winLength player opponent), None)
      else try_cells (fun next alpha beta => fst (minimax n (negb maximizing) (depth + 1) next alpha beta))
             maximizing depth b (listEmptyCells b) alpha beta (best_start maximizing) None
  end.
End minimax.

Inductive difficulty := Easy | Medium | Hard | Trained.

#[export] Instance difficulty_eq_dec : EqDecision difficulty.
Proof. solve_decision. Defined.

Definition aiSearchDepth (boardSize : Z) (d : difficulty) : nat :=
  match d with
  | Hard => if Z.eqb boardSize 3 then 9 else if Z.eqb boardSize 5 then 4 else 3
  | Medium => if Z.eqb boardSize 3 then 3 else 2
  | _ => 1
  end.

(** *** Random numbers *)

(** [Math.random()]: the next of the drawn numbers, 0 when there are none. *)
Definition random (draws : list Q) : Q * list Q := match draws with q :: rest => (q, rest) | [] => (0%Q, []) end.

(** The floating-point numbers written 0.7 and 0.15. *)
Definition seven_tenths : Q := 3152519739159347 # 4503599627370496.
Definition fifteen_hundredths : Q := 5404319552844595 # 36028797018963968.

(** [Math.random() < bound]. *)
Definition chance (bound : Q) (draws : list Q) : bool * list Q :=
  let '(q, draws) := random draws in (negb (Qle_bool bound q), draws).

Definition randomCell (empties : list (Z * Z)) (draws : list Q) : option (Z * Z) * list Q :=
  let '(q, draws) := random draws in
  (empties !! Z.to_nat (Qfloor (q * inject_Z (Z.of_nat (length empties)))), draws).

(** *** The trained opponent *)

(** The values of a model by key. *)
Abbreviation values := (string -> option Q).

Definition isTrainableBoard (b : grid) (winLength : Z) : bool := Z.eqb (Z.of_nat (length b)) 3 && Z.eqb winLength 3.

Definition modelKey (b : grid) (moverDisc oppDisc : Z) : string :=
  foldr (fun v s => String (if Z.eqb v moverDisc then "2" else if Z.eqb v oppDisc then "1" else "0")%char s) ""%string (concat b).

(** The value of the cell, and whether the model knew the position after it. *)
Definition trained_score (b : grid) (winLength aiDisc humanDisc : Z) (V : values) (cell : Z * Z) : option (Q * bool) :=
  match applyMove b cell aiDisc with
  | None => None
  | Some next =>
      match checkWin next winLength cell with
      | Some _ => Some (1%Q, false)
      | None =>
          if isBoardFull next then Some (0%Q, false)
          else match V (modelKey next humanDisc aiDisc) with Some v => Some ((- v)%Q, true) | None => Some (0%Q, false) end
      end
  end.

(** The loop over the free cells. *)
Fixpoint best_trained (scores : list ((Z * Z) * option (Q * bool))) (best : option ((Z * Z) * Q)) (known : bool) : option (Z * Z) * bool :=
  match scores with
  | [] => (option_map fst best, known)
  | (_, None) :: rest => best_trained rest best known
  | (cell, Some (v, k)) :: rest =>
      let improves := match best with None => true | Some (_, old) => negb (Qle_bool v old) end in
      best_trained rest (if improves then Some (cell, v) else best) (known || k)
  end.

(** [chooseTrainedMove] as it is called: without exploration. *)
Definition chooseTrainedMove (b : grid) (winLength aiDisc humanDisc : Z) (model : option values) : option (Z * Z) :=
  match model with
  | None => None
  | Some V =>
      if negb (isTrainableBoard b winLength) then None
      else match listEmptyCells b with
           | [] => None
           | empties =>
               match findWinningMove b winLength aiDisc with
               | Some cell => Some cell
               | None =>
                   let '(best, known) := best_trained (map (fun c => (c, trained_score b winLength aiDisc humanDisc V c)) empties) None false in
                   if known then best else None
               end
           end
  end.

(** *** Learning

    A model is its values with counters of its games.  [round] rounds a rational to a
    floating-point number. *)

Record model := mk_model { V : gmap string Q; games : Z; wins_count : Z; losses : Z; draws_count : Z }.

Definition emptyModel : model := mk_model ∅ 0 0 0 0.

(** The values as the choice of a move reads them. *)
Definition values_of (m : model) : values := fun key => V m !! key.

(** One position of the game and the disc that moved from it. *)
Definition learn_step (round : Q -> Q) (winnerDisc : option Z) (values : gmap string Q) (step : string * Z) : gmap string Q :=
  let z := match winnerDisc with None => 0%Q | Some w => if Z.eqb step.2 w then 1%Q else (-1 # 1)%Q end in
  let cur := default 0%Q (values !! step.1) in
  <[step.1 := round (cur + round (fifteen_hundredths * round (z - cur)))%Q]> values.

Definition learnFromGame (round : Q -> Q) (m : model) (history : list (string * Z)) (winnerDisc : option Z) : model :=
  match history with
  | [] => m
  | _ => mk_model (fold_left (learn_step round winnerDisc) history (V m)) (games m + 1) (wins_count m) (losses m)
           (match winnerDisc with None => draws_count m + 1 | Some _ => draws_count m end)
  end.

(** *** The choice of a move *)

Definition center (b : grid) : Z * Z := let c := Z.of_nat (length b) / 2 in (c, c).

Definition is_free (b : grid) (s : Z * Z) : bool := bool_decide (disc_at b s = Some 0).

Definition easy_move (b : grid) (winLength aiDisc humanDisc : Z) (draws : list Q) : option (Z * Z) * list Q :=
  let empties := listEmptyCells b in
  let winMove := findWinningMove b winLength aiDisc in
  let '(take_win, draws) := match winMove with Some _ => chance seven_tenths draws | None => (false, draws) end in
  if take_win then (winMove, draws)
  else
    let '(wander, draws) := chance (1 # 2) draws in
    if wander then randomCell empties draws
    else
      let blockMove := findWinningMove b winLength humanDisc in
      let '(block, draws) := match blockMove with Some _ => chance (1 # 2) draws | None => (false, draws) end in
      if block then (blockMove, draws)
      else
        let '(middle, draws) := if is_free b (center b) then chance (1 # 2) draws else (false, draws) in
        if middle then (Some (center b), draws) else randomCell empties draws.

(** Medium and hard: win, block, then search. *)
Definition search_move (b : grid) (winLength aiDisc humanDisc : Z) (level : difficulty) (draws : list Q) : option (Z * Z) * list Q :=
  let empties := listEmptyCells b in
  match findWinningMove b winLength aiDisc with
  | Some cell => (Some cell, draws)
  | None =>
      match findWinningMove b winLength humanDisc with
      | Some cell => (Some cell, draws)
      | None =>
          match snd (minimax winLength aiDisc humanDisc (aiSearchDepth (Z.of_nat (length b)) level) true 0 b NegInf PosInf) with
          | Some cell =>
              let '(vary, draws) := match level with Medium => chance fifteen_hundredths draws | _ => (false, draws) end in
              if vary then randomCell empties draws else (Some cell, draws)
          | None => (if is_free b (center b) then Some (center b) else head empties, draws)
          end
      end
  end.

Definition chooseAiMove (b : grid) (winLength aiDisc humanDisc : Z) (level : difficulty) (model : option values) (draws : list Q)
  : option (Z * Z) * list Q :=
  match listEmptyCells b with
  | [] => (None, draws)
  | _ =>
      match level with
      | Trained =>
          match chooseTrainedMove b winLength aiDisc humanDisc model with
          | Some cell => (Some cell, draws)
          | None => search_move b winLength aiDisc humanDisc Medium draws
          end
      | Easy => easy_move b winLength aiDisc humanDisc draws
      | _ => search_move b winLength aiDisc humanDisc level draws
      end
  end.

Example hard_takes_a_corner_first : fst (chooseAiMove [[1; 1; 0]; [2; 0; 0]; [0; 0; 2]] 3 1 2 Hard None []) = Some (0, 2).
Proof. vm_compute. reflexivity. Qed.
