(* ===== verification/TicTacToeSearch.v ===== *)
(** * The search of the tic-tac-toe opponent

    Cutting off branches changes neither the score nor the quality of the move that [minimax]
    finds, and on the classic board the hard opponent never loses
    ([assets/bundled-plugins/tic-tac-toe/ai.js]). *)

From S2P Require Import Prelude Json Grid TicTacToe.

(** ** The order of scores *)

Lemma sle_refl a : sleb a a = true.
Proof. destruct a; simpl; [done|apply Z.leb_refl|done]. Qed.

Lemma sle_trans a b c : sleb a b = true -> sleb b c = true -> sleb a c = true.
Proof. destruct a, b, c; simpl; rewrite ?Z.leb_le; try done. lia. Qed.

Lemma slt_le a b : sltb a b = true -> sleb a b = true.
Proof. unfold sltb. destruct a, b; simpl; rewrite ?negb_true_iff, ?Z.leb_gt, ?Z.leb_le; try done. lia. Qed.

Lemma not_slt a b : sltb a b = false <-> sleb b a = true.
Proof. unfold sltb. apply negb_false_iff. Qed.

Lemma slt_le_trans a b c : sltb a b = true -> sleb b c = true -> sltb a c = true.
Proof. unfold sltb. rewrite !negb_true_iff. intros H1 H2. apply not_true_iff_false. intros H3. apply not_true_iff_false in H1. destruct H1. by eapply sle_trans. Qed.

Lemma sle_lt_trans a b c : sleb a b = true -> sltb b c = true -> sltb a c = true.
Proof. unfold sltb. rewrite !negb_true_iff. intros H1 H2. apply not_true_iff_false. intros H3. apply not_true_iff_false in H2. destruct H2. by eapply sle_trans. Qed.

Lemma slt_irrefl a : sltb a a = false.
Proof. apply not_slt, sle_refl. Qed.

Lemma sle_antisym a b : sleb a b = true -> sleb b a = true -> a = b.
Proof. destruct a, b; simpl; rewrite ?Z.leb_le; try done. intros. f_equal. lia. Qed.

Lemma smax_lub a b c : sleb (smax a b) c = sleb a c && sleb b c.
Proof. apply eq_true_iff_eq. rewrite andb_true_iff. unfold smax. destruct (sleb a b) eqn:H; split; try tauto.
  - intros Hb. split; [by eapply sle_trans|done].
  - intros Ha. split; [done|]. eapply sle_trans; [|done]. apply slt_le. unfold sltb. by rewrite H.
Qed.

Lemma smin_glb a b c : sleb c (smin a b) = sleb c a && sleb c b.
Proof. apply eq_true_iff_eq. rewrite andb_true_iff. unfold smin. destruct (sleb a b) eqn:H; split; try tauto.
  - intros Hb. split; [done|by eapply sle_trans].
  - intros Ha. split; [|done]. eapply sle_trans; [done|]. apply slt_le. unfold sltb. by rewrite H.
Qed.

Lemma smax_cases a b : smax a b = a \/ smax a b = b.
Proof. unfold smax. destruct (sleb a b); auto. Qed.

Lemma smin_cases a b : smin a b = a \/ smin a b = b.
Proof. unfold smin. destruct (sleb a b); auto. Qed.

Lemma smax_ge a b : sleb a (smax a b) = true /\ sleb b (smax a b) = true.
Proof. apply andb_true_iff. rewrite <- smax_lub. apply sle_refl. Qed.

Lemma smin_le a b : sleb (smin a b) a = true /\ sleb (smin a b) b = true.
Proof. apply andb_true_iff. rewrite <- smin_glb. apply sle_refl. Qed.

(** ** The search without cut-offs *)

Section search.
Context (winLength player opponent : Z).

Definition pick (maximizing : bool) (a b : score) : score := if maximizing then smax a b else smin a b.

(** The value of a cell, given the value of the board after a move. *)
Definition cell_value (child : grid -> score) (maximizing : bool) (depth : Z) (b : grid) (cell : Z * Z) : option score :=
  match applyMove b cell (mover player opponent maximizing) with
  | None => None
  | Some next => Some (if wins winLength player opponent maximizing next cell then win_score maximizing depth else child next)
  end.

(** The best of all free cells. *)
Definition best_of (maximizing : bool) (vs : list score) : score := foldr (pick maximizing) (best_start maximizing) vs.

Fixpoint value (n : nat) (maximizing : bool) (depth : Z) (b : grid) : score :=
  match n with
  | O => Fin (scoreLine b winLength player opponent)
  | S n =>
      if isBoardFull b then Fin (scoreLine b winLength player opponent)
      else best_of maximizing (omap (cell_value (value n (negb maximizing) (depth + 1)) maximizing depth b) (listEmptyCells b))
  end.

(** *** Both sides at once

    The order as the side that searches sees it, and its window: [near] is the bound it raises,
    [far] the one at which it stops. *)

Definition le (m : bool) (a b : score) : bool := if m then sleb a b else sleb b a.
Definition lt (m : bool) (a b : score) : bool := negb (le m b a).

Definition alpha_of (m : bool) (near far : score) : score := if m then near else far.
Definition beta_of (m : bool) (near far : score) : score := if m then far else near.

Lemma le_refl m a : le m a a = true.
Proof. destruct m; apply sle_refl. Qed.

Lemma le_trans m a b c : le m a b = true -> le m b c = true -> le m a c = true.
Proof. destruct m; simpl; intros; by eapply sle_trans. Qed.

Lemma not_lt m a b : lt m a b = false <-> le m b a = true.
Proof. unfold lt. apply negb_false_iff. Qed.

Lemma lt_le m a b : lt m a b = true -> le m a b = true.
Proof. unfold lt, le. destruct m; apply slt_le. Qed.

Lemma lt_not_le m a b : lt m a b = true <-> le m b a = false.
Proof. unfold lt. apply negb_true_iff. Qed.

Lemma le_lt_trans m a b c : le m a b = true -> lt m b c = true -> lt m a c = true.
Proof. rewrite !lt_not_le. intros H1 H2. apply not_true_iff_false. intros H3. apply not_true_iff_false in H2. destruct H2. by eapply le_trans. Qed.

Lemma lt_le_trans m a b c : lt m a b = true -> le m b c = true -> lt m a c = true.
Proof. rewrite !lt_not_le. intros H1 H2. apply not_true_iff_false. intros H3. apply not_true_iff_false in H1. destruct H1. by eapply le_trans. Qed.

Lemma pick_lub m a b c : le m (pick m a b) c = true <-> le m a c = true /\ le m b c = true.
Proof. rewrite <- andb_true_iff. destruct m; simpl; [by rewrite smax_lub|by rewrite smin_glb]. Qed.

Lemma pick_ge m a b : le m a (pick m a b) = true /\ le m b (pick m a b) = true.
Proof. apply pick_lub, le_refl. Qed.

Lemma pick_cases m a b : pick m a b = a \/ pick m a b = b.
Proof. destruct m; [apply smax_cases|apply smin_cases]. Qed.

Lemma start_least m a : le m (best_start m) a = true.
Proof. by destruct m, a. Qed.

(** [r] is as good as the value [v] within the window. *)
Definition approximates (m : bool) (near far r v : score) : Prop :=
  (lt m near r = true -> le m r v = true) /\ (lt m r far = true -> le m v r = true).

Lemma approximates_flip m near far r v : approximates m near far r v <-> approximates (negb m) far near r v.
Proof. unfold approximates, lt, le. destruct m; simpl; tauto. Qed.

Lemma best_of_ge m vs v : v ∈ vs -> le m v (best_of m vs) = true.
Proof.
  induction vs as [|w vs IH]; [by intros H%elem_of_nil|]. rewrite elem_of_cons. cbn [best_of foldr]. fold (best_of m vs).
  destruct (pick_ge m w (best_of m vs)) as [H1 H2]. intros [->|H]; [done|]. eapply le_trans; [by apply IH|done].
Qed.

Lemma best_of_lub m vs c : le m (best_of m vs) c = true <-> forall v, v ∈ vs -> le m v c = true.
Proof.
  induction vs as [|w vs IH].
  - split; [by intros _ v H%elem_of_nil|intros _; apply start_least].
  - cbn [best_of foldr]. fold (best_of m vs). rewrite pick_lub, IH. setoid_rewrite elem_of_cons. split; [intros [H1 H2] v [->|Hv]; auto|auto].
Qed.

Lemma best_of_in m vs : best_of m vs = best_start m \/ best_of m vs ∈ vs.
Proof.
  induction vs as [|w vs IH]; [by left|]. cbn [best_of foldr]. fold (best_of m vs).
  destruct (pick_cases m w (best_of m vs)) as [-> | ->]; [right; by left|]. destruct IH as [IH|IH]; [by left|right; by right].
Qed.

(** ** The loop *)

Section cells.
Context (m : bool) (depth : Z) (b : grid) (near0 far : score).
Context (child : grid -> score -> score -> score) (exact : grid -> score).

(** The search of a board after a move is as good as its value, and no value beats a win now. *)
Hypothesis Hchild : forall cell next near, applyMove b cell (mover player opponent m) = Some next -> lt m near far = true ->
  approximates m near far (child next (alpha_of m near far) (beta_of m near far)) (exact next).
Hypothesis Hcap : forall cell next, applyMove b cell (mover player opponent m) = Some next ->
  le m (exact next) (win_score m depth) = true.

Let values (cells : list (Z * Z)) : list score := omap (cell_value exact m depth b) cells.
Let try := try_cells winLength player opponent child m depth b.

Lemma values_capped cells v : v ∈ values cells -> le m v (win_score m depth) = true.
Proof.
  unfold values. rewrite list_elem_of_omap. intros (cell & _ & Hv). unfold cell_value in Hv.
  destruct (applyMove _ _ _) as [next|] eqn:Hm; [|done]. injection Hv as <-.
  destruct (wins _ _ _ _ _ _); [apply le_refl|by eapply Hcap].
Qed.

(** The state of the loop: [done] is the best value of the cells so far. *)
Record loop_ok (near best done : score) : Prop := mk_loop_ok {
  lo_lower : le m near0 near = true;
  lo_upper : le m near (pick m near0 best) = true;
  lo_open : lt m near far = true;
  lo_best : approximates m near0 far best done;
  lo_cap : le m done (win_score m depth) = true
}.

Lemma loop_step near best done cell next :
  loop_ok near best done -> applyMove b cell (mover player opponent m) = Some next ->
  let s := child next (alpha_of m near far) (beta_of m near far) in
  let best' := if better m s best then s else best in
  le m (pick m near s) (pick m near0 best') = true /\ approximates m near0 far best' (pick m done (exact next)).
Proof.
  intros [Hl Hu Ho [Hb1 Hb2] Hc] Hm s best'. destruct (Hchild cell next near Hm Ho) as [Hs1 Hs2]. fold s in Hs1, Hs2.
  assert (Hbetter : better m s best = lt m best s) by (unfold better, lt, le, sltb; by destruct m).
  assert (Hge : le m best best' = true /\ le m s best' = true).
  { unfold best'. rewrite Hbetter. destruct (lt m best s) eqn:H; [split; [by apply lt_le|apply le_refl]|].
    split; [apply le_refl|by apply not_lt]. }
  destruct Hge as [Hg1 Hg2]. destruct (pick_ge m near0 best') as [P1 P2]. split.
  - apply pick_lub. split; [|by eapply le_trans]. eapply le_trans; [done|]. apply pick_lub. split; [done|by eapply le_trans].
  - destruct (pick_ge m done (exact next)) as [Q1 Q2]. split.
    + intros Hn. unfold best' in *. rewrite Hbetter in *. destruct (lt m best s) eqn:H.
      * eapply le_trans; [|exact Q2]. apply Hs1. eapply le_lt_trans; [exact Hu|].
        destruct (pick_cases m near0 best) as [-> | ->]; done.
      * eapply le_trans; [by apply Hb1|done].
    + intros Hf. apply pick_lub. split.
      * eapply le_trans; [|exact Hg1]. apply Hb2. by eapply le_lt_trans.
      * eapply le_trans; [|exact Hg2]. apply Hs2. by eapply le_lt_trans.
Qed.

Lemma pick_start_r a : pick m a (best_start m) = a.
Proof. by destruct m, a. Qed.

Lemma pick_assoc_le a c d : le m (pick m (pick m a c) d) (pick m a (pick m c d)) = true /\
  le m (pick m a (pick m c d)) (pick m (pick m a c) d) = true.
Proof.
  destruct (pick_ge m a (pick m c d)) as [A1 A2], (pick_ge m c d) as [A3 A4].
  destruct (pick_ge m (pick m a c) d) as [B1 B2], (pick_ge m a c) as [B3 B4].
  split; repeat (apply pick_lub; split); eauto using le_trans.
Qed.

Lemma approximates_le r v v' : le m v v' = true -> le m v' v = true -> approximates m near0 far r v -> approximates m near0 far r v'.
Proof. intros H1 H2 [A B]. split; intros H; [by eapply le_trans; [apply A|]|by eapply le_trans; [|apply B]]. Qed.

Lemma try_approximates cells : forall near best bestMove done, loop_ok near best done ->
  approximates m near0 far (fst (try cells (alpha_of m near far) (beta_of m near far) best bestMove))
    (pick m done (best_of m (values cells))).
Proof.
  induction cells as [|cell cells IH]; intros near best bestMove done Hok.
  - cbn. rewrite pick_start_r. apply Hok.
  - unfold try, values in *. cbn [try_cells omap list_omap]. unfold cell_value at 1.
    destruct (applyMove b cell (mover player opponent m)) as [next|] eqn:Hm; [|by apply IH].
    destruct (wins winLength player opponent m next cell) eqn:Hw; cbn [best_of foldr]; fold (best_of m (omap (cell_value exact m depth b) cells)).
    + cbn [fst]. set (rest := best_of m _). destruct (pick_ge m done (pick m (win_score m depth) rest)) as [_ P].
      destruct (pick_ge m (win_score m depth) rest) as [P' _]. split; intros _; [by eapply le_trans|].
      repeat (apply pick_lub; split); [apply Hok|apply le_refl|]. apply best_of_lub, values_capped.
    + destruct (loop_step near best done cell next Hok Hm) as [Hup Hap]. set (s := child next _ _) in *. cbv zeta.
      set (best' := if better m s best then s else best) in *. set (bm' := if better m s best then Some cell else bestMove).
      set (rest := best_of m _). destruct (pick_assoc_le done (exact next) rest) as [A1 A2].
      apply (approximates_le _ (pick m (pick m done (exact next)) rest)); [done|done|].
      assert (Hab : (if m then smax (alpha_of m near far) s else alpha_of m near far) = alpha_of m (pick m near s) far /\
                    (if m then beta_of m near far else smin (beta_of m near far) s) = beta_of m (pick m near s) far) by by destruct m.
      destruct Hab as [-> ->].
      assert (Hcut : sleb (beta_of m (pick m near s) far) (alpha_of m (pick m near s) far) = le m far (pick m near s)) by by destruct m.
      rewrite Hcut. pose proof Hok as [Hl Hu Ho _ Hc]. destruct (le m far (pick m near s)) eqn:Hf.
      * cbn [fst]. destruct Hap as [Ha1 Ha2]. split.
        -- intros Hn. eapply le_trans; [by apply Ha1|]. by apply pick_ge.
        -- intros Hn. exfalso. assert (Hlt : lt m (pick m near0 best') far = true).
           { destruct (pick_cases m near0 best') as [-> | ->]; [|done]. by eapply le_lt_trans. }
           apply (not_true_iff_false (le m far (pick m near0 best'))); [by apply lt_not_le|]. by eapply le_trans.
      * apply (IH (pick m near s) best' bm' (pick m done (exact next))). constructor.
        -- eapply le_trans; [exact Hl|]. by apply pick_ge.
        -- exact Hup.
        -- by apply lt_not_le.
        -- exact Hap.
        -- apply pick_lub. split; [done|by eapply Hcap].
Qed.

(** The move that is returned has at least the score that is returned, above the window. *)
Lemma try_move cells : forall near best bestMove done, loop_ok near best done ->
  let res := try cells (alpha_of m near far) (beta_of m near far) best bestMove in
  res = (best, bestMove) \/
  exists cell w, cell ∈ cells /\ cell_value exact m depth b cell = Some w /\ snd res = Some cell /\
    (lt m near0 (fst res) = true -> le m (fst res) w = true).
Proof.
  induction cells as [|cell cells IH]; intros near best bestMove done Hok; [by left|].
  assert (Hrest : forall near best bestMove done, loop_ok near best done ->
    let res := try cells (alpha_of m near far) (beta_of m near far) best bestMove in
    res = (best, bestMove) \/ exists c w, c ∈ cell :: cells /\ cell_value exact m depth b c = Some w /\ snd res = Some c /\
      (lt m near0 (fst res) = true -> le m (fst res) w = true)).
  { intros n' b' bm' d' Hok'. destruct (IH n' b' bm' d' Hok') as [H|(c & w & Hc & H)]; [by left|right].
    exists c, w. split; [by right|done]. }
  unfold try in *. cbn [try_cells]. destruct (applyMove b cell (mover player opponent m)) as [next|] eqn:Hm; [|by eapply Hrest].
  assert (Hv : cell_value exact m depth b cell =
    Some (if wins winLength player opponent m next cell then win_score m depth else exact next)) by (unfold cell_value; by rewrite Hm).
  destruct (wins winLength player opponent m next cell) eqn:Hw.
  { right. exists cell, (win_score m depth). split_and!; [by left|done|done|intros _; apply le_refl]. }
  destruct (loop_step near best done cell next Hok Hm) as [Hup Hap]. pose proof Hok as [Hl Hu Ho Hb Hc].
  destruct (Hchild cell next near Hm Ho) as [Hs1 _]. set (s := child next _ _) in *. cbv zeta.
  set (best' := if better m s best then s else best) in *. set (bm' := if better m s best then Some cell else bestMove).
  assert (Hab : (if m then smax (alpha_of m near far) s else alpha_of m near far) = alpha_of m (pick m near s) far /\
                (if m then beta_of m near far else smin (beta_of m near far) s) = beta_of m (pick m near s) far) by by destruct m.
  destruct Hab as [-> ->].
  assert (Hnew : (best', bm') = (best, bestMove) \/ (best', bm') = (s, Some cell) /\ (lt m near0 s = true -> le m s (exact next) = true)).
  { unfold best', bm'. destruct (better m s best) eqn:Hbt; [right|by left]. split; [done|]. intros Hn. apply Hs1.
    assert (Hlt : lt m best s = true) by (unfold better, lt, le, sltb in *; by destruct m).
    eapply le_lt_trans; [exact Hu|]. by destruct (pick_cases m near0 best) as [-> | ->]. }
  assert (Hcut : sleb (beta_of m (pick m near s) far) (alpha_of m (pick m near s) far) = le m far (pick m near s)) by by destruct m.
  rewrite Hcut. destruct (le m far (pick m near s)) eqn:Hf.
  - destruct Hnew as [->|[Heq Hle]]; [by left|right]. exists cell, (exact next). rewrite Heq. split_and!; [by left|done..].
  - assert (Hok' : loop_ok (pick m near s) best' (pick m done (exact next))).
    { constructor; [eapply le_trans; [exact Hl|]; by apply pick_ge|exact Hup|by apply lt_not_le|exact Hap|].
      apply pick_lub. split; [done|by eapply Hcap]. }
    destruct (Hrest _ best' bm' _ Hok') as [H|H]; [|by right].
    destruct Hnew as [Heq|[Heq Hle]]; rewrite Heq in H; [by left|right].
    exists cell, (exact next). rewrite H. split_and!; [by left|done..].
Qed.
End cells.

(** ** The whole search *)

Context (ok : grid -> Prop) (limit levels : Z).
Hypothesis Hok : forall b cell m next, ok b -> applyMove b cell (mover player opponent m) = Some next -> ok next.
Hypothesis Hfree : forall b m, ok b -> isBoardFull b = false ->
  exists cell next, cell ∈ listEmptyCells b /\ applyMove b cell (mover player opponent m) = Some next.
Hypothesis Hlimit : forall b, ok b -> - limit <= scoreLine b winLength player opponent <= limit.
Hypothesis Hlevels : limit + levels <= 100000.

Lemma in_omap {A B} (f : A -> option B) l x y : x ∈ l -> f x = Some y -> y ∈ (omap f l : list B).
Proof. intros Hx Hy. apply list_elem_of_omap. by exists x. Qed.

(** Values lie between a loss and a win at this depth. *)
Lemma value_bounds n : forall m depth b, ok b -> 0 <= depth -> depth + Z.of_nat n <= levels ->
  exists z, value n m depth b = Fin z /\ -100000 + depth <= z <= 100000 - depth.
Proof.
  induction n as [|n IH]; intros m depth b Hb Hd Hn; cbn [value].
  - pose proof (Hlimit b Hb). eexists. split; [done|]. lia.
  - pose proof (Hlimit b Hb) as Hlim. destruct (isBoardFull b) eqn:Hf; [eexists; split; [done|]; lia|].
    set (vs := omap (M := list) _ _). assert (Hvs : forall v, v ∈ vs -> exists z, v = Fin z /\ -100000 + depth <= z <= 100000 - depth).
    { intros v Hv. apply list_elem_of_omap in Hv as (cell & _ & Hv). unfold cell_value in Hv.
      destruct (applyMove _ _ _) as [next|] eqn:Hm; [|done]. injection Hv as <-. destruct (wins _ _ _ _ _ _).
      - unfold win_score. destruct m; eexists; (split; [done|lia]).
      - destruct (IH (negb m) (depth + 1) next) as (z & -> & Hz); [by eapply Hok|lia|lia|]. eexists. split; [done|lia]. }
    destruct (best_of_in m vs) as [Hs|Hin]; [|by apply Hvs]. exfalso.
    destruct (Hfree b m Hb Hf) as (cell & next & Hc & Hm).
    assert (Hin : (if wins winLength player opponent m next cell then win_score m depth else value n (negb m) (depth + 1) next) ∈ vs).
    { eapply in_omap; [exact Hc|]. unfold cell_value. by rewrite Hm. }
    pose proof (best_of_ge m vs _ Hin) as Hge. destruct (Hvs _ Hin) as (z & Hz & _). rewrite Hz, Hs in Hge. by destruct m.
Qed.

Lemma value_cap n m depth b cell next : ok b -> 0 <= depth -> depth + Z.of_nat (S n) <= levels ->
  applyMove b cell (mover player opponent m) = Some next ->
  le m (value n (negb m) (depth + 1) next) (win_score m depth) = true.
Proof.
  intros Hb Hd Hn Hm. destruct (value_bounds n (negb m) (depth + 1) next) as (z & -> & Hz); [by eapply Hok|lia|lia|].
  destruct m; simpl; apply Z.leb_le; lia.
Qed.

Lemma start_ok m depth near far : lt m near far = true -> loop_ok m depth near far near (best_start m) (best_start m).
Proof.
  intros Hw. constructor; [apply le_refl|apply pick_ge|done|by split; intros _; apply le_refl|apply start_least].
Qed.

Lemma pick_start_l m a : le m (pick m (best_start m) a) a = true /\ le m a (pick m (best_start m) a) = true.
Proof. split; [apply pick_lub; split; [apply start_least|apply le_refl]|apply pick_ge]. Qed.

Lemma minimax_approximates n : forall m depth b near far, ok b -> 0 <= depth -> depth + Z.of_nat n <= levels -> lt m near far = true ->
  approximates m near far (fst (minimax winLength player opponent n m depth b (alpha_of m near far) (beta_of m near far)))
    (value n m depth b).
Proof.
  induction n as [|n IH]; intros m depth b near far Hb Hd Hn Hw; cbn [minimax value]; [by split; intros _; apply le_refl|].
  destruct (isBoardFull b); [by split; intros _; apply le_refl|].
  destruct (pick_start_l m (best_of m (omap (cell_value (value n (negb m) (depth + 1)) m depth b) (listEmptyCells b)))) as [P1 P2].
  eapply approximates_le; [exact P1|exact P2|]. apply try_approximates; [| |by apply start_ok].
  - intros cell next near' Hm Hw'. apply approximates_flip.
    assert (Hw'' : lt (negb m) far near' = true) by (unfold lt, le in *; by destruct m).
    pose proof (IH (negb m) (depth + 1) next far near' ltac:(by eapply Hok) ltac:(lia) ltac:(lia) Hw'') as H. by destruct m.
  - intros cell next. by apply value_cap.
Qed.

(** The widest window gives the value, to either side. *)
Lemma minimax_both n m b : ok b -> Z.of_nat n <= levels ->
  fst (minimax winLength player opponent n m 0 b NegInf PosInf) = value n m 0 b.
Proof.
  intros Hb Hn. destruct (value_bounds n m 0 b Hb) as (z & Hz & _); [lia|lia|].
  assert (H : approximates m (if m then NegInf else PosInf) (if m then PosInf else NegInf)
    (fst (minimax winLength player opponent n m 0 b NegInf PosInf)) (value n m 0 b)).
  { pose proof (minimax_approximates n m 0 b (if m then NegInf else PosInf) (if m then PosInf else NegInf) Hb ltac:(lia) ltac:(lia)) as H.
    destruct m; by apply H. }
  destruct H as [H1 H2]. rewrite Hz in *. destruct m; cbn in H1, H2; destruct (fst _) as [|r|];
    try (by specialize (H1 eq_refl)); try (by specialize (H2 eq_refl)); apply sle_antisym; auto.
Qed.

(** Searching with the widest window gives the value and a move that has it. *)
Lemma minimax_exact n b : ok b -> Z.of_nat n <= levels ->
  let res := minimax winLength player opponent n true 0 b NegInf PosInf in
  fst res = value n true 0 b /\
  (n <> 0%nat -> isBoardFull b = false -> exists cell, snd res = Some cell /\ cell ∈ listEmptyCells b /\
     cell_value (value (pred n) false 1) true 0 b cell = Some (value n true 0 b)).
Proof.
  intros Hb Hn. cbv zeta. destruct (value_bounds n true 0 b Hb) as (z & Hz & _); [lia|lia|].
  assert (Heq : fst (minimax winLength player opponent n true 0 b NegInf PosInf) = value n true 0 b).
  { destruct (minimax_approximates n true 0 b NegInf PosInf Hb) as [H1 H2]; [lia|lia|done|]. rewrite Hz in *.
    cbn [alpha_of beta_of] in H1, H2. destruct (fst _) as [|r|]; [by specialize (H2 eq_refl)| |by specialize (H1 eq_refl)].
    apply sle_antisym; [by apply H1|by apply H2]. }
  split; [done|]. intros Hn0 Hf. destruct n as [|n]; [done|]. cbn [pred]. cbn [minimax] in *. rewrite Hf in *.
  destruct (try_move true 0 b NegInf PosInf (fun next alpha beta => fst (minimax winLength player opponent n (negb true) (0 + 1) next alpha beta))
    (value n false 1)) with (listEmptyCells b) NegInf (best_start true) (@None (Z * Z)) (best_start true) as [H|(cell & w & Hc & Hw & Hmv & Hle)].
  - intros cell next near Hm Hw. apply approximates_flip.
    pose proof (minimax_approximates n false 1 next PosInf near ltac:(by eapply (Hok _ _ true)) ltac:(lia) ltac:(lia)) as H.
    by apply H.
  - intros cell next. apply (value_cap n true 0); [done|lia|lia].
  - by apply start_ok.
  - cbn [alpha_of beta_of] in H. rewrite H, Hz in Heq. done.
  - exists cell. cbn [alpha_of beta_of] in Hmv, Hle. split_and!; [exact Hmv|done|]. rewrite Hw. f_equal. symmetry.
    assert (Hin : w ∈ omap (cell_value (value n false 1) true 0 b) (listEmptyCells b)) by by eapply in_omap.
    pose proof (best_of_ge true _ _ Hin) as Hge. cbn [le] in Hge.
    assert (Hv : value (S n) true 0 b = best_of true (omap (cell_value (value n false 1) true 0 b) (listEmptyCells b)))
      by (cbn [value]; by rewrite Hf).
    rewrite Hv in *. apply sle_antisym; [|done]. rewrite <- Heq. apply Hle. cbn [negb Z.add] in *. rewrite Heq, Hz. done.
Qed.
End search.
