(* ===== verification/TicTacToeRules.v ===== *)
(** * Facts about the rules of tic-tac-toe

    Moves and free cells of square boards, and what [checkWin] of
    [assets/bundled-plugins/tic-tac-toe/rules.js] says of the whole board. *)

From S2P Require Import Prelude Json Grid TicTacToe.

Section size.
Context (k : nat).

Abbreviation square := (shape k k).

Lemma empty_square : square (replicate k (replicate k 0)).
Proof. split; [by rewrite length_replicate|]. apply Forall_forall. intros row H. apply elem_of_replicate in H as [-> _]. by rewrite length_replicate. Qed.

Lemma applyMove_spec b s p b' : square b -> applyMove b s p = Some b' <->
  0 <= s.1 < Z.of_nat k /\ 0 <= s.2 < Z.of_nat k /\ disc_at b s = Some 0 /\ 1 <= p <= 4 /\ b' = put_disc b s p.
Proof.
  intros Hb. pose proof Hb as [Hl _]. unfold applyMove. rewrite Hl. split.
  - destruct (_ || _ || _ || _) eqn:H1; [done|]. destruct (negb _ || _ || _) eqn:H2; [done|]. intros [= <-]. bool_cases. split_and!; (done || lia).
  - intros (H1 & H2 & H3 & H4 & ->).
    destruct (Z.ltb_spec s.1 0), (Z.ltb_spec s.2 0), (Z.leb_spec (Z.of_nat k) s.1), (Z.leb_spec (Z.of_nat k) s.2); try lia.
    rewrite bool_decide_eq_true_2 by done. by destruct (Z.ltb_spec p 1), (Z.ltb_spec 4 p); try lia.
Qed.

Lemma applyMove_shape b s p b' : square b -> applyMove b s p = Some b' -> square b'.
Proof. intros Hb (_ & _ & _ & _ & ->)%applyMove_spec; [|done]. by apply put_shape. Qed.

Lemma elem_empty b s : square b -> s ∈ listEmptyCells b <-> disc_at b s = Some 0.
Proof.
  intros Hb. unfold listEmptyCells. rewrite list_elem_of_In, filter_In, <- list_elem_of_In, bool_decide_eq_true.
  split; [by intros [_ ?]|]. intros H. split; [|done]. rewrite (elem_cells_of k k) by done. by eapply disc_at_inside.
Qed.

Lemma full_spec b : square b -> isBoardFull b = true <-> forall s x, disc_at b s = Some x -> x <> 0.
Proof.
  intros Hb. unfold isBoardFull. rewrite forallb_forall. split.
  - intros H s x. unfold disc_at. destruct (_ && _); [|done]. destruct (b !! Z.to_nat s.1) as [row|] eqn:Hr; simpl; [|done].
    intros Hx. specialize (H row). rewrite <- list_elem_of_In in H. specialize (H ltac:(by eapply list_elem_of_lookup_2)).
    rewrite forallb_forall in H. specialize (H x). rewrite <- list_elem_of_In in H. specialize (H ltac:(by eapply list_elem_of_lookup_2)).
    bool_cases. done.
  - intros H row Hrow. apply list_elem_of_In, list_elem_of_lookup in Hrow as [r Hr]. apply forallb_forall.
    intros x Hx. apply list_elem_of_In, list_elem_of_lookup in Hx as [c Hc]. apply negb_true_iff, Z.eqb_neq.
    apply (H (Z.of_nat r, Z.of_nat c)). unfold disc_at. simpl. destruct (Z.leb_spec 0 (Z.of_nat r)), (Z.leb_spec 0 (Z.of_nat c)); try lia.
    simpl. by rewrite !Nat2Z.id, Hr.
Qed.

Lemma free_cell b : square b -> isBoardFull b = false -> exists s, disc_at b s = Some 0 /\ s ∈ listEmptyCells b.
Proof.
  intros Hb Hf. destruct (listEmptyCells b) as [|s cells] eqn:He.
  - exfalso. apply not_true_iff_false in Hf. destruct Hf. apply full_spec; [done|]. intros s x Hx ->.
    apply elem_empty in Hx; [|done]. rewrite He in Hx. by apply elem_of_nil in Hx.
  - exists s. assert (Hs : s ∈ listEmptyCells b) by (rewrite He; by left). split; [by apply elem_empty|by left].
Qed.

Lemma free_move b p : square b -> isBoardFull b = false -> 1 <= p <= 4 ->
  exists cell next, cell ∈ listEmptyCells b /\ applyMove b cell p = Some next.
Proof.
  intros Hb Hf Hp. destruct (free_cell b Hb Hf) as (s & Hs & Hin). exists s, (put_disc b s p). split; [done|].
  apply applyMove_spec; [done|]. destruct (disc_at_inside k k b s 0 Hb Hs). split_and!; (done || lia).
Qed.

(** ** Winning *)

Definition need_of (winLength : Z) : Z := Z.max 2 (if Z.eqb winLength 0 then 3 else winLength).

(** After a move that made no line of the mover's before, [checkWin] sees a line exactly when
    the board has one, and the winner is the mover. *)
Lemma checkWin_put b s p winLength : square b -> 0 <= s.1 < Z.of_nat k -> 0 <= s.2 < Z.of_nat k -> p <> 0 ->
  ~ has_line b p (need_of winLength) ->
  (checkWin (put_disc b s p) winLength s <> None <-> has_line (put_disc b s p) p (need_of winLength)) /\
  forall w, checkWin (put_disc b s p) winLength s = Some w -> winner w = p.
Proof.
  intros Hb Hr Hc Hp Hno. pose proof (put_shape k k b s p Hb) as Hb'.
  assert (Hd : disc_at (put_disc b s p) s = Some p) by (rewrite (disc_at_put k k) by done; by rewrite decide_True).
  rewrite (line_after_put k k (walk_fuel (put_disc b s p)) b p s (need_of winLength));
    [|done|unfold walk_fuel; destruct Hb' as [-> _]; lia|unfold need_of; lia|done|done|done].
  unfold checkWin. rewrite Hd. destruct (Z.eqb_spec p 0); [done|]. fold (need_of winLength). split.
  - destruct (List.find _ _) as [cells|] eqn:Hf.
    + apply find_some in Hf as [Hin Hl]. apply in_map_iff in Hin as (d & <- & Hin). split; [|done]. intros _.
      exists d. split; [by apply list_elem_of_In|]. bool_cases. done.
    + split; [done|]. intros (d & Hin & Hl) _. apply find_none with (x := cells_through (walk_fuel (put_disc b s p)) (put_disc b s p) p s d) in Hf.
      * bool_cases. lia.
      * apply in_map. by apply list_elem_of_In.
  - intros w. destruct (List.find _ _); [|done]. by intros [= <-].
Qed.

Lemma wins_spec winLength player opponent m b cell next : square b -> 1 <= mover player opponent m <= 4 ->
  ~ has_line b (mover player opponent m) (need_of winLength) -> applyMove b cell (mover player opponent m) = Some next ->
  (wins winLength player opponent m next cell = true <-> has_line next (mover player opponent m) (need_of winLength)) /\
  (wins winLength player opponent m next cell = true <-> checkWin next winLength cell <> None).
Proof.
  intros Hb Hp Hno Hm. apply applyMove_spec in Hm as (Hr & Hc & Hz & _ & ->); [|done].
  destruct (checkWin_put b cell (mover player opponent m) winLength Hb Hr Hc ltac:(lia) Hno) as [Hline Hw].
  unfold wins. rewrite <- Hline. destruct (checkWin _ _ _) as [w|]; [|done]. rewrite (Hw w eq_refl), Z.eqb_refl. done.
Qed.

(** ** The number of free cells *)

Definition free (b : grid) : nat := length (listEmptyCells b).

Lemma cells_nodup b : NoDup (cells_of b).
Proof.
  unfold cells_of. rewrite <- (app_nil_r (concat _)).
  assert (H : forall b (r0 : nat), NoDup (concat (imap (fun r row => imap (fun c (_ : Z) => (Z.of_nat (r0 + r), Z.of_nat c)) row) b)) /\
    forall s, s ∈ concat (imap (fun r row => imap (fun c (_ : Z) => (Z.of_nat (r0 + r), Z.of_nat c)) row) b) -> Z.of_nat r0 <= s.1).
  { clear b. induction b as [|row b IH]; intros r0; [by split; [constructor|intros s H%elem_of_nil]|].
    rewrite imap_cons. cbn [concat]. destruct (IH (S r0)) as [IH1 IH2].
    assert (Heq : imap ((fun r row => imap (fun c (_ : Z) => (Z.of_nat (r0 + r), Z.of_nat c)) row) ∘ S) b =
      imap (fun r row => imap (fun c (_ : Z) => (Z.of_nat (S r0 + r), Z.of_nat c)) row) b)
      by (apply imap_ext; intros i x _; simpl; apply imap_ext; intros; f_equal; lia).
    rewrite Heq. split.
    - apply NoDup_app. split_and!; [|intros s Hs Hs'|exact IH1].
      + apply NoDup_alt. intros i j s. rewrite !list_lookup_imap. destruct (row !! i), (row !! j); simpl; try done.
        intros [= <-] [=]. lia.
      + apply IH2 in Hs'. apply elem_of_lookup_imap in Hs as (c & x & -> & _). simpl in Hs'. lia.
    - intros s [Hs|Hs]%elem_of_app; [|apply IH2 in Hs; lia]. apply elem_of_lookup_imap in Hs as (c & x & -> & _). simpl. lia. }
  rewrite app_nil_r. apply (H b 0%nat).
Qed.

Lemma empties_nodup b : NoDup (listEmptyCells b).
Proof. apply NoDup_ListNoDup, List.NoDup_filter, NoDup_ListNoDup, cells_nodup. Qed.

Lemma free_after b cell p next : square b -> applyMove b cell p = Some next -> S (free next) = free b.
Proof.
  intros Hb Hm. pose proof (applyMove_shape _ _ _ _ Hb Hm) as Hn. apply applyMove_spec in Hm as (Hr & Hc & Hz & Hp & ->); [|done].
  unfold free. assert (Hperm : listEmptyCells b ≡ₚ cell :: listEmptyCells (put_disc b cell p)); [|by rewrite Hperm].
  apply NoDup_Permutation.
  - apply empties_nodup.
  - constructor; [|apply empties_nodup].
    rewrite elem_empty by done. rewrite (disc_at_put k k) by done. rewrite decide_True by done. intros [=]. lia.
  - intros s. rewrite elem_of_cons, !elem_empty by done. rewrite (disc_at_put k k) by done.
    destruct (decide (cell = s)) as [->|Hne]; [tauto|]. split; [by right|]. by intros [->|?].
Qed.
End size.
