(* ===== verification/TicTacToeHard.v ===== *)
(** * The opponents of tic-tac-toe

    The search with cut-offs is exact, and the hard opponent never loses on the classic board
    ([assets/bundled-plugins/tic-tac-toe/ai.js]). *)

From Stdlib Require Import QArith.QArith.
From S2P Require Import Prelude Json Grid TicTacToe TicTacToeSearch TicTacToeRules.

#[local] Open Scope Z_scope.

(** ** Exactness of the search *)

Lemma line_score_small b need player opponent s d : 0 <= need ->
  - 10 ^ need <= line_score b need player opponent s d <= 10 ^ need.
Proof.
  intros Hn. unfold line_score. set (cells := map _ _).
  assert (Hlen : Z.of_nat (length cells) = need) by (unfold cells; rewrite length_map, length_seqZ; lia).
  assert (Hf : forall f : option Z -> bool, 0 <= Z.of_nat (length (List.filter f cells)) <= need)
    by (intros f; pose proof (filter_length_le f cells); lia).
  pose proof (Z.pow_pos_nonneg 10 need ltac:(lia) Hn).
  assert (Hpow : forall n, 0 <= n <= need -> 0 < 10 ^ n <= 10 ^ need)
    by (intros n Hx; split; [apply Z.pow_pos_nonneg; lia|apply Z.pow_le_mono_r; lia]).
  destruct (forallb _ _); [|lia]. set (mine := Z.of_nat _). set (theirs := Z.of_nat (length (List.filter _ _))).
  pose proof (Hpow mine (Hf _)). pose proof (Hpow theirs (Hf _)).
  destruct (Z.eqb theirs 0 && Z.ltb 0 mine) eqn:E1, (Z.eqb mine 0 && Z.ltb 0 theirs) eqn:E2; lia.
Qed.

Lemma sum_bounds l bound : 0 <= bound -> (forall x, x ∈ l -> - bound <= x <= bound) ->
  - (Z.of_nat (length l) * bound) <= sum l <= Z.of_nat (length l) * bound.
Proof.
  intros Hb. induction l as [|x l IH]; intros Hl; cbn [sum foldr length]; [lia|].
  pose proof (Hl x ltac:(by left)). fold (sum l). specialize (IH ltac:(intros y Hy; apply Hl; by right)). lia.
Qed.

Lemma cells_of_length rows cols b : shape rows cols b -> length (cells_of b) = (rows * cols)%nat.
Proof.
  intros [Hl Hr]. subst rows. unfold cells_of. rewrite length_concat.
  assert (H : forall b (f : nat -> nat -> Z * Z), Forall (fun row => length row = cols) b ->
    sum_list (length <$> imap (fun r row => imap (fun c (_ : Z) => f r c) row) b) = (length b * cols)%nat).
  { clear b Hr. induction b as [|row b IH]; intros f Hf; [done|]. apply Forall_cons in Hf as [H1 H2].
    rewrite imap_cons. cbn [fmap list_fmap sum_list length]. rewrite length_imap, H1.
    specialize (IH (fun r c => f (S r) c) H2). unfold compose. simpl in IH. rewrite IH. unfold id. lia. }
  by apply (H b (fun r c => (Z.of_nat r, Z.of_nat c))).
Qed.

Lemma scoreLine_small k b winLength player opponent : shape k k b -> 0 <= winLength ->
  let limit := Z.of_nat (4 * k * k) * 10 ^ Z.max 2 winLength in
  - limit <= scoreLine b winLength player opponent <= limit.
Proof.
  intros Hb Hw. cbv zeta. unfold scoreLine. set (l := map _ _).
  assert (Hl : length l = (4 * k * k)%nat)
    by (unfold l; rewrite length_map, length_prod, (cells_of_length k k) by done; simpl; lia).
  rewrite <- Hl. apply sum_bounds; [apply Z.pow_nonneg; lia|]. intros x Hx. unfold l in Hx. apply list_elem_of_fmap in Hx as (sd & -> & _).
  apply line_score_small. lia.
Qed.

(** C30: cutting off branches loses nothing.  On a board of any size whose evaluations stay below
    the score of a win, [minimax] with its alpha-beta window returns the value of the full
    search, and the move it names is a free cell with that value. *)
Theorem alpha_beta_exact k winLength player opponent n limit b :
  shape k k b -> 1 <= player <= 4 -> 1 <= opponent <= 4 ->
  (forall b', shape k k b' -> - limit <= scoreLine b' winLength player opponent <= limit) -> limit + Z.of_nat n <= 100000 ->
  let '(score, move) := minimax winLength player opponent n true 0 b NegInf PosInf in
  score = value winLength player opponent n true 0 b /\
  (n <> 0%nat -> isBoardFull b = false -> exists cell, move = Some cell /\ cell ∈ listEmptyCells b /\
     cell_value winLength player opponent (value winLength player opponent (pred n) false 1) true 0 b cell
     = Some (value winLength player opponent n true 0 b)).
Proof.
  intros Hb Hp Ho Hlim Hn.
  pose proof (minimax_exact winLength player opponent (shape k k) limit (Z.of_nat n)) as H.
  specialize (H ltac:(intros b1 cell m next H1 H2; by eapply applyMove_shape)).
  specialize (H ltac:(intros b1 m H1 H2; apply (free_move k); [done|done|by destruct m])).
  specialize (H Hlim Hn n b Hb ltac:(lia)). cbv zeta in H. by destruct (minimax _ _ _ _ _ _ _ _ _).
Qed.

(** A position of the classic board, searched three levels deep. *)
Definition midgame : grid := [[2; 1; 0]; [0; 1; 0]; [0; 0; 0]].

Lemma alpha_beta_exact_witness :
  fst (minimax 3 2 1 3 true 0 midgame NegInf PosInf) = value 3 2 1 3 true 0 midgame.
Proof.
  assert (Hs : shape 3 3 midgame) by (split; [done|]; apply (bool_decide_unpack _); vm_compute; exact I).
  pose proof (alpha_beta_exact 3 3 2 1 3 36000 midgame Hs ltac:(lia) ltac:(lia)
    (fun b' Hb' => scoreLine_small 3 b' 3 2 1 Hb' ltac:(lia)) ltac:(lia)) as H.
  destruct (minimax _ _ _ _ _ _ _ _ _) as [s mv]. by destruct H.
Defined.

(** ** Games that are not lost

    [holds n m b]: the player to move ([m] the opponent of the human) on [b] can keep the
    human from a line for [n] moves. *)

Section holds.
Context (winLength player opponent : Z).

Fixpoint holds (n : nat) (m : bool) (b : grid) : bool :=
  match n with
  | O => true
  | S n =>
      if isBoardFull b then true
      else if m then existsb (fun cell => match applyMove b cell player with
                                | Some next => wins winLength player opponent true next cell || holds n false next
                                | None => false
                                end) (listEmptyCells b)
      else forallb (fun cell => match applyMove b cell opponent with
                     | Some next => negb (wins winLength player opponent false next cell) && holds n true next
                     | None => true
                     end) (listEmptyCells b)
  end.
End holds.

(** A board without a finished line of either side. *)
Record fair (winLength p q : Z) (k : nat) (b : grid) : Prop := mk_fair {
  f_shape : shape k k b;
  f_player : ~ has_line b p (need_of winLength);
  f_opponent : ~ has_line b q (need_of winLength);
  f_discs : forall s x, disc_at b s = Some x -> x = 0 \/ x = p \/ x = q
}.

Section classic.
Context (k : nat) (winLength p q : Z).
Hypothesis Hp : 1 <= p <= 4.
Hypothesis Hq : 1 <= q <= 4.
Hypothesis Hpq : p <> q.
Hypothesis Hlength : 3 <= winLength.

Lemma need_is : need_of winLength = Z.max 2 winLength.
Proof. unfold need_of. destruct (Z.eqb_spec winLength 0); lia. Qed.

Lemma mover_disc m : 1 <= mover p q m <= 4.
Proof. by destruct m. Qed.

Lemma fair_next m b cell next : fair winLength p q k b -> applyMove b cell (mover p q m) = Some next ->
  wins winLength p q m next cell = false -> fair winLength p q k next.
Proof.
  intros [Hb Hnp Hnq Hd] Hm Hw. pose proof (applyMove_shape k _ _ _ _ Hb Hm) as Hn.
  destruct (wins_spec k winLength p q m b cell next Hb (mover_disc m) ltac:(by destruct m) Hm) as [Hwin _].
  apply (applyMove_spec k) in Hm as (Hr & Hc & Hz & _ & ->); [|done]. apply not_true_iff_false in Hw. constructor.
  - done.
  - destruct m; [intros Hl; by apply Hw, Hwin|]. intros Hl. by apply (line_other k k) in Hl.
  - destruct m; [|intros Hl; by apply Hw, Hwin]. intros Hl. apply (line_other k k) in Hl; [done..|]. done.
  - intros s x. rewrite (disc_at_put k k) by done. case_decide; [intros [= <-]; destruct m; auto|apply Hd].
Qed.

(** A full board without a line is worth nothing to either side. *)
Lemma full_worthless b : fair winLength p q k b -> isBoardFull b = true -> scoreLine b winLength p q = 0.
Proof.
  intros [Hb Hnp Hnq Hd] Hf. unfold scoreLine.
  assert (H : forall l, (forall x, x ∈ l -> x = 0) -> sum l = 0).
  { induction l as [|x l IH]; intros Hl; [done|]. cbn [sum foldr]. rewrite (Hl x) by by left. apply IH.
    intros y Hy. apply Hl. by right. }
  apply H. intros x Hx. apply list_elem_of_fmap in Hx as ((s & d) & -> & Hin). apply list_elem_of_In, in_prod_iff in Hin as [_ Hin].
  apply list_elem_of_In in Hin. cbn [fst snd]. unfold line_score. destruct (forallb _ _) eqn:Hall; [|done].
  rewrite forallb_forall in Hall. setoid_rewrite <- list_elem_of_In in Hall.
  assert (Hcells : forall i, 0 <= i < Z.max 2 winLength -> disc_at b (along s d i) = Some p \/ disc_at b (along s d i) = Some q).
  { intros i Hi. assert (Hel : disc_at b (along s d i) ∈ map (fun i => disc_at b (along s d i)) (seqZ 0 (Z.max 2 winLength)))
      by (apply list_elem_of_fmap; exists i; split; [done|]; apply elem_of_seqZ; lia).
    specialize (Hall _ Hel). bool_cases; try tauto. exfalso.
    by apply (proj1 (full_spec k b Hb) Hf _ _ H0). }
  assert (Hex : forall r, (r = p \/ r = q) -> exists i, 0 <= i < Z.max 2 winLength /\ disc_at b (along s d i) = Some r).
  { intros r Hr. destruct (existsb (fun i => bool_decide (disc_at b (along s d i) = Some r)) (seqZ 0 (Z.max 2 winLength))) eqn:He.
    - apply existsb_exists in He as (i & Hi & Heq). bool_cases. apply list_elem_of_In, elem_of_seqZ in Hi. exists i. split; [lia|done].
    - exfalso. assert (Hno : forall i, 0 <= i < Z.max 2 winLength -> disc_at b (along s d i) <> Some r).
      { intros i Hi Heq. apply not_true_iff_false in He. destruct He. apply existsb_exists. exists i.
        split; [apply list_elem_of_In, elem_of_seqZ; lia|by apply bool_decide_eq_true_2]. }
      rewrite need_is in *. destruct Hr as [-> | ->]; [apply Hnq|apply Hnp]; apply has_line_dir; exists s, d; (split; [done|]); intros i Hi;
        specialize (Hno i Hi); destruct (Hcells i Hi); congruence. }
  set (cells := map _ _).
  assert (Hpos : forall (f : option Z -> bool) r, (r = p \/ r = q) -> f (Some r) = true -> 0 < Z.of_nat (length (List.filter f cells))).
  { intros f r Hr Hfr. destruct (Hex r Hr) as (i & Hi & Heq).
    assert (Hel : Some r ∈ List.filter f cells).
    { apply list_elem_of_In, filter_In. split; [|done]. apply list_elem_of_In, list_elem_of_fmap. exists i. split; [done|]. apply elem_of_seqZ. lia. }
    destruct (List.filter f cells); [by apply elem_of_nil in Hel|simpl; lia]. }
  pose proof (Hpos (fun x => bool_decide (x = Some p)) p ltac:(auto) ltac:(by apply bool_decide_eq_true_2)) as H1.
  pose proof (Hpos (fun x => negb (bool_decide (x = Some p)) && bool_decide (x = Some q)) q ltac:(auto)
    ltac:(cbv beta; rewrite (bool_decide_eq_false_2 (Some q = Some p)) by congruence; by rewrite bool_decide_eq_true_2)) as H2.
  destruct (Z.eqb_spec (Z.of_nat (length (List.filter (fun x => negb (bool_decide (x = Some p)) && bool_decide (x = Some q)) cells))) 0); [lia|].
  destruct (Z.eqb_spec (Z.of_nat (length (List.filter (fun x => bool_decide (x = Some p)) cells))) 0); [lia|]. done.
Qed.

Abbreviation fair_board := (fair winLength p q k).

Lemma fair_full_free b : fair_board b -> free b = 0%nat -> isBoardFull b = true.
Proof.
  intros Hb Hz. destruct (isBoardFull b) eqn:Hf; [done|]. destruct (free_cell k b (f_shape _ _ _ _ _ Hb) Hf) as (s & _ & Hs).
  unfold free in Hz. destruct (listEmptyCells b); [by apply elem_of_nil in Hs|done].
Qed.

(** Once the board can be filled, more moves make no difference. *)
Lemma holds_stable n : forall n' m b, shape k k b -> (free b <= n)%nat -> (free b <= n')%nat ->
  holds winLength p q n m b = holds winLength p q n' m b.
Proof.
  assert (Hfull : forall n b m, shape k k b -> free b = 0%nat -> holds winLength p q n m b = true).
  { intros n0 b m Hb Hz. destruct n0; [done|]. cbn [holds]. destruct (isBoardFull b) eqn:Hf; [done|].
    destruct (free_cell k b Hb Hf) as (s & _ & Hs). unfold free in Hz. destruct (listEmptyCells b); [by apply elem_of_nil in Hs|done]. }
  induction n as [|n IH]; intros n' m b Hb Hn Hn'; [by rewrite !Hfull by (done || lia)|].
  destruct n' as [|n']; [by rewrite !Hfull by (done || lia)|]. cbn [holds]. destruct (isBoardFull b); [done|].
  assert (Hnext : forall m m' cell next, applyMove b cell (mover p q m) = Some next ->
    holds winLength p q n m' next = holds winLength p q n' m' next).
  { intros m0 m' cell next Hm. pose proof (free_after k b cell _ next Hb Hm). pose proof (applyMove_shape k _ _ _ _ Hb Hm). apply IH; (done || lia). }
  destruct m.
  - induction (listEmptyCells b) as [|cell cells IHc]; [done|]. cbn [existsb]. rewrite IHc.
    destruct (applyMove b cell p) as [next|] eqn:Hm; [|done]. by rewrite (Hnext true false cell next Hm).
  - induction (listEmptyCells b) as [|cell cells IHc]; [done|]. cbn [forallb]. rewrite IHc.
    destruct (applyMove b cell q) as [next|] eqn:Hm; [|done]. by rewrite (Hnext false true cell next Hm).
Qed.

(** ** The value of a position *)

Context (limit levels : Z).
Hypothesis Hlimit : forall b, shape k k b -> - limit <= scoreLine b winLength p q <= limit.
Hypothesis Hlevels : limit + levels < 100000.

Abbreviation V := (value winLength p q).

Lemma V_bounds n m depth b : shape k k b -> 0 <= depth -> depth + Z.of_nat n <= levels ->
  exists z, V n m depth b = Fin z /\ -100000 + depth <= z <= 100000 - depth.
Proof.
  apply (value_bounds winLength p q (shape k k) limit levels); try done; try lia.
  - intros b1 cell m1 next H1 H2. by eapply applyMove_shape.
  - intros b1 m1 H1 H2. apply (free_move k); [done|done|by destruct m1].
Qed.

Lemma best_of_sign m vs : (forall v, v ∈ vs -> exists z, v = Fin z) -> vs <> [] ->
  sleb (Fin 0) (best_of m vs) = true <-> if m then exists v, v ∈ vs /\ sleb (Fin 0) v = true else forall v, v ∈ vs -> sleb (Fin 0) v = true.
Proof.
  intros Hfin Hne. destruct m.
  - split.
    + intros Hle. destruct (best_of_in true vs) as [Hs|Hin]; [by rewrite Hs in Hle|]. eauto.
    + intros (v & Hv & Hle). eapply sle_trans; [exact Hle|]. by apply (best_of_ge true).
  - rewrite <- (best_of_lub false vs (Fin 0)). done.
Qed.

(** The value is at least a draw exactly when the side of the opponent can hold the game. *)
Lemma value_sign n : forall m depth b z, fair_board b -> (free b <= n)%nat -> 0 <= depth -> depth + Z.of_nat n <= levels ->
  V n m depth b = Fin z -> holds winLength p q n m b = true <-> 0 <= z.
Proof.
  induction n as [|n IH]; intros m depth b z Hb Hn Hd Hl Hz; pose proof (f_shape _ _ _ _ _ Hb) as Hs; pose proof (Hlimit b Hs); cbn [value holds] in *.
  - rewrite full_worthless in Hz; [|done|apply fair_full_free; [done|lia]]. injection Hz as <-. done.
  - destruct (isBoardFull b) eqn:Hf; [rewrite full_worthless in Hz by done; injection Hz as <-; done|].
    assert (Hfin : forall v, v ∈ omap (M := list) (cell_value winLength p q (V n (negb m) (depth + 1)) m depth b) (listEmptyCells b) -> exists z, v = Fin z).
    { intros v Hv. apply list_elem_of_omap in Hv as (cell & _ & Hv). unfold cell_value in Hv. destruct (applyMove _ _ _) as [next|] eqn:Hm; [|done].
      injection Hv as <-. destruct (wins _ _ _ _ _ _); [by eexists|]. pose proof (applyMove_shape k _ _ _ _ Hs Hm).
      destruct (V_bounds n (negb m) (depth + 1) next) as (z' & -> & _); [done|lia|lia|by eexists]. }
    assert (Hne : omap (M := list) (cell_value winLength p q (V n (negb m) (depth + 1)) m depth b) (listEmptyCells b) <> []).
    { destruct (free_move k b (mover p q m) Hs Hf (mover_disc m)) as (cell & next & Hc & Hm). intros Hnil.
      assert (Hin : (if wins winLength p q m next cell then win_score m depth else V n (negb m) (depth + 1) next) ∈
        omap (M := list) (cell_value winLength p q (V n (negb m) (depth + 1)) m depth b) (listEmptyCells b))
        by (eapply in_omap; [exact Hc|]; unfold cell_value; by rewrite Hm).
      rewrite Hnil in Hin. by apply elem_of_nil in Hin. }
    pose proof (best_of_sign m _ Hfin Hne) as Hsign. rewrite Hz in Hsign.
    assert (Hzero : sleb (Fin 0) (Fin z) = true <-> 0 <= z) by apply Z.leb_le. rewrite <- Hzero, Hsign. clear Hsign Hzero Hfin Hne Hz.
    assert (Hcell : forall cell next, applyMove b cell (mover p q m) = Some next -> wins winLength p q m next cell = false ->
      holds winLength p q n (negb m) next = true <-> sleb (Fin 0) (V n (negb m) (depth + 1) next) = true).
    { intros cell next Hm Hw. pose proof (fair_next m b cell next Hb Hm Hw) as Hfair. pose proof (free_after k b cell _ next Hs Hm).
      destruct (V_bounds n (negb m) (depth + 1) next (f_shape _ _ _ _ _ Hfair)) as (z' & Hz' & _); [lia|lia|].
      pose proof (Hlimit b Hs). rewrite Hz', (IH (negb m) (depth + 1) next z' Hfair) by (done || lia). symmetry. apply Z.leb_le. }
    destruct m; cbn [mover negb] in *.
    + rewrite existsb_exists. split.
      * intros (cell & Hc & Ht). destruct (applyMove b cell p) as [next|] eqn:Hm; [|done]. apply list_elem_of_In in Hc.
        eexists. split; [eapply in_omap; [exact Hc|]; unfold cell_value, mover; by rewrite Hm|].
        destruct (wins winLength p q true next cell) eqn:Hw; [apply Z.leb_le; lia|]. by apply (Hcell _ _ Hm Hw).
      * intros (v & Hv & Ht). apply list_elem_of_omap in Hv as (cell & Hc & Hv). unfold cell_value, mover in Hv.
        destruct (applyMove b cell p) as [next|] eqn:Hm; [|done]. injection Hv as <-. exists cell. split; [by apply list_elem_of_In|].
        rewrite Hm. destruct (wins winLength p q true next cell) eqn:Hw; [done|]. by apply (Hcell _ _ Hm Hw).
    + rewrite forallb_forall. split.
      * intros Hall v Hv. apply list_elem_of_omap in Hv as (cell & Hc & Hv). specialize (Hall cell ltac:(by apply list_elem_of_In)).
        unfold cell_value, mover in Hv. destruct (applyMove b cell q) as [next|] eqn:Hm; [|done]. injection Hv as <-.
        destruct (wins winLength p q false next cell) eqn:Hw; [done|]. by apply (Hcell _ _ Hm Hw).
      * intros Hall cell Hc. apply list_elem_of_In in Hc. destruct (applyMove b cell q) as [next|] eqn:Hm; [|done].
        assert (Hv : (if wins winLength p q false next cell then win_score false depth else V n true (depth + 1) next) ∈
          omap (M := list) (cell_value winLength p q (V n true (depth + 1)) false depth b) (listEmptyCells b))
          by (eapply in_omap; [exact Hc|]; unfold cell_value, mover; by rewrite Hm).
        specialize (Hall _ Hv). destruct (wins winLength p q false next cell) eqn:Hw.
        -- cbn in Hall. apply Z.leb_le in Hall. lia.
        -- by apply (Hcell _ _ Hm Hw).
Qed.

(** ** The choice of a move *)

Lemma find_winning b r : (r = p \/ r = q) -> fair_board b ->
  match findWinningMove b winLength r with
  | Some cell => cell ∈ listEmptyCells b /\ has_line (put_disc b cell r) r (need_of winLength)
  | None => forall cell next, applyMove b cell r = Some next -> ~ has_line next r (need_of winLength)
  end.
Proof.
  intros Hr [Hb Hnp Hnq Hd]. assert (Hno : ~ has_line b r (need_of winLength)) by (destruct Hr as [-> | ->]; done).
  assert (Hr4 : 1 <= r <= 4) by (destruct Hr as [-> | ->]; done).
  assert (Hcw : forall cell next, applyMove b cell r = Some next -> (checkWin next winLength cell <> None <-> has_line next r (need_of winLength))).
  { intros cell next Hm. apply (applyMove_spec k) in Hm as (H1 & H2 & _ & _ & ->); [|done]. apply (checkWin_put k); (done || lia). }
  unfold findWinningMove. destruct (List.find _ _) as [cell|] eqn:Hf.
  - apply find_some in Hf as [Hin Ht]. split; [by apply list_elem_of_In|]. destruct (applyMove b cell r) as [next|] eqn:Hm; [|done].
    assert (Hl : has_line next r (need_of winLength)) by (apply (Hcw _ _ Hm); by destruct (checkWin _ _ _)).
    apply (applyMove_spec k) in Hm as (_ & _ & _ & _ & ->); done.
  - intros cell next Hm Hl. assert (Hc : cell ∈ listEmptyCells b).
    { apply (applyMove_spec k) in Hm as (_ & _ & Hz & _ & _); [|done]. by apply (elem_empty k). }
    apply find_none with (x := cell) in Hf; [|by apply list_elem_of_In]. rewrite Hm in Hf. apply (Hcw _ _ Hm) in Hl.
    by destruct (checkWin _ _ _).
Qed.

(** The human's threat at [x] stays when the opponent plays elsewhere. *)
Lemma threat_stays b x c : shape k k b -> 0 <= x.1 < Z.of_nat k -> 0 <= x.2 < Z.of_nat k -> 0 <= c.1 < Z.of_nat k -> 0 <= c.2 < Z.of_nat k ->
  x <> c -> disc_at b c = Some 0 -> has_line (put_disc b x q) q (need_of winLength) ->
  has_line (put_disc (put_disc b c p) x q) q (need_of winLength).
Proof.
  intros Hb Hx1 Hx2 Hc1 Hc2 Hne Hz (s & d & Hd & Hline)%has_line_dir. apply has_line_dir. exists s, d. split; [done|]. intros i Hi. specialize (Hline i Hi).
  pose proof (put_shape k k b c p Hb). rewrite !(disc_at_put k k) in * by done. case_decide; [done|].
  case_decide as Hc; [|done]. rewrite <- Hc, Hz in Hline. injection Hline as Hline. lia.
Qed.

(** If the opponent can hold the game and has no winning move, the human's winning cell has to
    be taken. *)
Lemma must_block n b x : fair_board b -> holds winLength p q (S n) true b = true -> isBoardFull b = false -> (free b <= S n)%nat ->
  findWinningMove b winLength p = None -> findWinningMove b winLength q = Some x ->
  exists next, applyMove b x p = Some next /\ wins winLength p q true next x = false /\ holds winLength p q n false next = true.
Proof.
  intros Hb Hh Hf Hn Hwin Hblock. pose proof (f_shape _ _ _ _ _ Hb) as Hs. cbn [holds] in Hh. rewrite Hf in Hh.
  apply existsb_exists in Hh as (c & Hc & Hh). apply list_elem_of_In in Hc. destruct (applyMove b c p) as [next|] eqn:Hm; [|done].
  pose proof (find_winning b p ltac:(by left) Hb) as Hnw. rewrite Hwin in Hnw.
  pose proof (find_winning b q ltac:(by right) Hb) as Hthreat. rewrite Hblock in Hthreat. destruct Hthreat as [Hx Hl].
  destruct (wins_spec k winLength p q true b c next Hs (mover_disc true) (f_player _ _ _ _ _ Hb) Hm) as [Hw _].
  assert (Hnowin : wins winLength p q true next c = false) by (apply not_true_iff_false; intros H; by apply (Hnw _ _ Hm), Hw).
  rewrite Hnowin in Hh. cbn [orb] in Hh. destruct (decide (x = c)) as [->|Hne]; [by exists next|]. exfalso.
  pose proof (fair_next true b c next Hb Hm Hnowin) as Hfair. pose proof (free_after k b c p next Hs Hm) as Hfree.
  apply (elem_empty k) in Hx, Hc; [|done..].
  apply (applyMove_spec k) in Hm as (Hr & Hcol & Hz & _ & ->); [|done]. destruct (disc_at_inside k k b x 0 Hs Hx) as [Hx1 Hx2].
  pose proof (threat_stays b x c Hs Hx1 Hx2 Hr Hcol Hne Hz Hl) as Hl'.
  assert (Hmove : applyMove (put_disc b c p) x q = Some (put_disc (put_disc b c p) x q)).
  { apply (applyMove_spec k); [apply Hfair|]. rewrite (disc_at_put k k) by done. rewrite decide_False by done. split_and!; (done || lia). }
  destruct (wins_spec k winLength p q false _ x _ (f_shape _ _ _ _ _ Hfair) (mover_disc false) (f_opponent _ _ _ _ _ Hfair) Hmove) as [Hwq _].
  destruct n as [|n]; [unfold free in Hfree, Hn|].
  - assert (Hnil : listEmptyCells (put_disc b c p) = []) by (destruct (listEmptyCells (put_disc b c p)); [done|simpl in *; lia]).
    assert (Hin : x ∈ listEmptyCells (put_disc b c p)).
    { apply (elem_empty k); [apply Hfair|]. rewrite (disc_at_put k k) by done. by rewrite decide_False. }
    rewrite Hnil in Hin. by apply elem_of_nil in Hin.
  - assert (Hin : x ∈ listEmptyCells (put_disc b c p)).
    { apply (elem_empty k); [apply Hfair|]. rewrite (disc_at_put k k) by done. by rewrite decide_False. }
    cbn [holds] in Hh. assert (Hnf : isBoardFull (put_disc b c p) = false).
    { apply not_true_iff_false. intros Hfull. apply (elem_empty k) in Hin; [|apply Hfair].
      by apply (proj1 (full_spec k _ (f_shape _ _ _ _ _ Hfair)) Hfull x 0 Hin). }
    rewrite Hnf in Hh. rewrite forallb_forall in Hh. specialize (Hh x ltac:(by apply list_elem_of_In)). rewrite Hmove in Hh.
    apply andb_prop in Hh as [Hh _]. apply negb_true_iff in Hh. apply not_true_iff_false in Hh. by apply Hh, Hwq.
Qed.
End classic.

(** ** The hard opponent on the classic board *)

Abbreviation classic := (fair 3 2 1 3).
Abbreviation keeps := (holds 3 2 1 9).

Lemma classic_limit b : shape 3 3 b -> - 36000 <= scoreLine b 3 2 1 <= 36000.
Proof. intros Hb. apply (scoreLine_small 3 b 3 2 1 Hb). lia. Qed.

Lemma classic_free b : classic b -> (free b <= 9)%nat.
Proof.
  intros Hb. unfold free, listEmptyCells. pose proof (List.filter_length_le (fun s => bool_decide (disc_at b s = Some 0)) (cells_of b)).
  rewrite (cells_of_length 3 3) in H by apply Hb. lia.
Qed.

(** The lemmas above, for the discs of a solo game. *)
Lemma disc_2 : 1 <= 2 <= 4. Proof. lia. Qed.
Lemma disc_1 : 1 <= 1 <= 4. Proof. lia. Qed.
Lemma discs_differ : 2 <> 1. Proof. lia. Qed.
Lemma three : 3 <= 3. Proof. lia. Qed.
Lemma levels_fit : 36000 + 9 < 100000. Proof. lia. Qed.

Definition classic_next := fair_next 3 3 2 1 disc_2 disc_1 discs_differ.
Definition classic_block := must_block 3 3 2 1 disc_2 disc_1 discs_differ.
Definition classic_bounds := V_bounds 3 3 2 1 disc_2 disc_1 36000 9 classic_limit levels_fit.
Definition classic_sign := value_sign 3 3 2 1 disc_2 disc_1 discs_differ three 36000 9 classic_limit levels_fit.

(** The exactness of the search, for either side. *)
Lemma alpha_beta_both n m b : shape 3 3 b -> (n <= 9)%nat ->
  fst (minimax 3 2 1 n m 0 b NegInf PosInf) = value 3 2 1 n m 0 b.
Proof.
  intros Hb Hn. pose proof (minimax_both 3 2 1 (shape 3 3) 36000 9) as H.
  specialize (H ltac:(intros b1 cell m1 next H1 H2; by eapply applyMove_shape)).
  specialize (H ltac:(intros b1 m1 H1 H2; apply (free_move 3); [done|done|destruct m1; simpl; lia])).
  apply (H classic_limit ltac:(lia) n m b Hb). lia.
Qed.

Lemma alpha_beta_small n b : shape 3 3 b -> (n <= 9)%nat ->
  let res := minimax 3 2 1 n true 0 b NegInf PosInf in
  fst res = value 3 2 1 n true 0 b /\
  (n <> 0%nat -> isBoardFull b = false -> exists cell, snd res = Some cell /\ cell ∈ listEmptyCells b /\
     cell_value 3 2 1 (value 3 2 1 (pred n) false 1) true 0 b cell = Some (value 3 2 1 n true 0 b)).
Proof.
  intros Hb Hn. apply (minimax_exact 3 2 1 (shape 3 3) 36000 9).
  - intros b1 cell m1 next H1 H2. by eapply applyMove_shape.
  - intros b1 m1 H1 H2. apply (free_move 3); [done|done|destruct m1; simpl; lia].
  - apply classic_limit.
  - lia.
  - done.
  - lia.
Qed.

Lemma keeps_next b cell m next : classic b -> applyMove b cell (mover 2 1 m) = Some next -> holds 3 2 1 8 (negb m) next = true ->
  keeps (negb m) next = true.
Proof.
  intros Hb Hm Hh. pose proof (free_after 3 b cell _ next (f_shape _ _ _ _ _ Hb) Hm). pose proof (classic_free b Hb).
  rewrite (holds_stable 3 3 2 1 9 8); [done|eapply applyMove_shape; [apply Hb|exact Hm]|lia|lia].
Qed.

(** The hard opponent wins or keeps the game, if it can be kept at all. *)
Lemma hard_choice b model draws : classic b -> keeps true b = true -> isBoardFull b = false ->
  exists cell next, fst (chooseAiMove b 3 2 1 Hard model draws) = Some cell /\ applyMove b cell 2 = Some next /\
    (wins 3 2 1 true next cell = true \/ wins 3 2 1 true next cell = false /\ keeps false next = true).
Proof.
  intros Hb Hh Hf. pose proof (f_shape _ _ _ _ _ Hb) as Hs. destruct (free_cell 3 b Hs Hf) as (s & _ & Hin).
  unfold chooseAiMove. destruct (listEmptyCells b) as [|e es] eqn:He; [by apply elem_of_nil in Hin|]. unfold search_move.
  pose proof (find_winning 3 3 2 1 disc_2 disc_1 b 2 ltac:(by left) Hb) as Hwin.
  destruct (findWinningMove b 3 2) as [cell|] eqn:Ew.
  - destruct Hwin as [Hc Hl]. apply (elem_empty 3) in Hc; [|done]. destruct (disc_at_inside 3 3 b cell 0 Hs Hc) as [Hr Hcol].
    assert (Hm : applyMove b cell 2 = Some (put_disc b cell 2)) by (apply (applyMove_spec 3); [done|]; split_and!; (done || lia)).
    exists cell, (put_disc b cell 2). split_and!; [done|done|left].
    destruct (wins_spec 3 3 2 1 true b cell _ Hs disc_2 (f_player _ _ _ _ _ Hb) Hm) as [Hw _]. by apply Hw.
  - destruct (findWinningMove b 3 1) as [cell|] eqn:Eb.
    + destruct (classic_block 8 b cell Hb Hh Hf (classic_free b Hb) Ew Eb) as (next & Hm & Hw & Hk).
      exists cell, next. split_and!; [done|done|right]. split; [done|]. by apply (keeps_next b cell true next Hb Hm).
    + assert (Hlen : Z.of_nat (length b) = 3) by (by destruct Hs as [-> _]). rewrite Hlen. cbn [aiSearchDepth Z.eqb Pos.eqb].
      pose proof (alpha_beta_small 9 b Hs ltac:(lia)) as Hab.
      destruct Hab as [_ Hab]. destruct (Hab ltac:(done) Hf) as (cell & -> & Hc & Hv). cbn [fst].
      unfold cell_value, mover in Hv. destruct (applyMove b cell 2) as [next|] eqn:Hm; [|done]. exists cell, next.
      split_and!; [done|done|]. destruct (wins 3 2 1 true next cell) eqn:Hw; [by left|right]. split; [done|].
      apply (keeps_next b cell true next Hb Hm). cbn [negb pred] in *. apply (inj Some) in Hv.
      destruct (classic_bounds 9 true 0 b Hs) as (z & Hz & _); [lia|lia|].
      pose proof (proj1 (classic_sign 9 true 0 b z Hb
        (classic_free b Hb) ltac:(lia) ltac:(lia) Hz) Hh) as Hpos.
      pose proof (free_after 3 b cell 2 next Hs Hm). pose proof (classic_free b Hb).
      apply (classic_sign 8 false 1 next z); try lia.
      * by apply (classic_next true b cell).
      * transitivity (value 3 2 1 9 true 0 b); [exact Hv|exact Hz].
Qed.

(** Whoever begins, the empty board can be kept. *)
Lemma empty_classic : classic (createEmptyBoard 3).
Proof.
  assert (Hs : shape 3 3 (createEmptyBoard 3)) by apply (empty_square 3).
  constructor; [done|rewrite <- (scan_spec 3 3) by (done || (unfold need_of; simpl; lia)); vm_compute; done..|].
  intros s x Hx. left. revert Hx. unfold disc_at. destruct (_ && _); [|done].
  destruct (createEmptyBoard 3 !! Z.to_nat s.1) as [row|] eqn:Hr; simpl; [|done].
  apply lookup_replicate_1 in Hr as [-> _]. by intros [-> _]%lookup_replicate_1.
Qed.

Lemma empty_kept m : keeps m (createEmptyBoard 3) = true.
Proof.
  destruct (classic_bounds 9 m 0 (createEmptyBoard 3) (f_shape _ _ _ _ _ empty_classic))
    as (z & Hz & _); [lia|lia|].
  apply (classic_sign 9 m 0 _ z empty_classic
    (classic_free _ empty_classic) ltac:(lia) ltac:(lia) Hz).
  pose proof (alpha_beta_both 9 m _ (f_shape _ _ _ _ _ empty_classic) ltac:(lia)) as Hab. rewrite Hz in Hab.
  assert (H : fst (minimax 3 2 1 9 m 0 (createEmptyBoard 3) NegInf PosInf) = Fin 0) by (destruct m; vm_compute; reflexivity).
  rewrite H in Hab. injection Hab as <-. lia.
Qed.

(** A move of the human on a kept board makes no line and leaves it kept. *)
Lemma human_kept b cell next : classic b -> keeps false b = true -> applyMove b cell 1 = Some next ->
  checkWin next 3 cell = None /\ classic next /\ keeps true next = true.
Proof.
  intros Hb Hk Hm. cbn [holds] in Hk. pose proof (f_shape _ _ _ _ _ Hb) as Hs.
  assert (Hz : disc_at b cell = Some 0) by (by apply (applyMove_spec 3) in Hm as (_ & _ & Hz & _ & _)).
  assert (Hf : isBoardFull b = false) by (apply not_true_iff_false; intros Hf; by apply (proj1 (full_spec 3 b Hs) Hf cell 0 Hz)).
  rewrite Hf, forallb_forall in Hk. specialize (Hk cell ltac:(by apply list_elem_of_In, (elem_empty 3))).
  rewrite Hm in Hk. apply andb_prop in Hk as [Hw Hk]. apply negb_true_iff in Hw.
  destruct (wins_spec 3 3 2 1 false b cell next Hs disc_1 (f_opponent _ _ _ _ _ Hb) Hm) as [_ Hcw].
  split_and!; [|by apply (classic_next false b cell)|by apply (keeps_next b cell false next Hb Hm)].
  destruct (checkWin next 3 cell); [|done]. by rewrite (proj2 Hcw) in Hw.
Qed.

(** The answer of the opponent wins or leaves the board kept. *)
Lemma opponent_kept b model draws cell next : classic b -> keeps true b = true ->
  fst (chooseAiMove b 3 2 1 Hard model draws) = Some cell -> applyMove b cell 2 = Some next -> checkWin next 3 cell = None ->
  classic next /\ keeps false next = true.
Proof.
  intros Hb Hk Hc Hm Hw. pose proof (f_shape _ _ _ _ _ Hb) as Hs.
  assert (Hz : disc_at b cell = Some 0) by (by apply (applyMove_spec 3) in Hm as (_ & _ & Hz & _ & _)).
  assert (Hf : isBoardFull b = false) by (apply not_true_iff_false; intros Hf; by apply (proj1 (full_spec 3 b Hs) Hf cell 0 Hz)).
  destruct (hard_choice b model draws Hb Hk Hf) as (cell' & next' & Hc' & Hm' & Hout).
  rewrite Hc in Hc'. injection Hc' as <-. rewrite Hm in Hm'. injection Hm' as <-.
  destruct (wins_spec 3 3 2 1 true b cell next Hs disc_2 (f_player _ _ _ _ _ Hb) Hm) as [_ Hcw].
  destruct Hout as [Hwin|[Hnw Hk']]; [by apply Hcw in Hwin|]. split; [by apply (classic_next true b cell)|done].
Qed.

(** A game of the hard opponent (disc 2) against any human (disc 1), either beginning; the flag
    says that the opponent is to move.  A game stops at a line or a full board. *)
Inductive hard_game (model : option values) (draws : grid -> list Q) : bool -> grid -> Prop :=
| game_start m : hard_game model draws m (createEmptyBoard 3)
| opponent_moves b cell next :
    hard_game model draws true b -> isBoardFull b = false ->
    fst (chooseAiMove b 3 2 1 Hard model (draws b)) = Some cell -> applyMove b cell 2 = Some next ->
    checkWin next 3 cell = None -> hard_game model draws false next
| human_moves b cell next :
    hard_game model draws false b -> applyMove b cell 1 = Some next ->
    checkWin next 3 cell = None -> hard_game model draws true next.

Lemma hard_kept model draws m b : hard_game model draws m b -> classic b /\ keeps m b = true.
Proof.
  induction 1 as [m|b cell next _ [Hb Hk] Hf Hc Hm Hw|b cell next _ [Hb Hk] Hm Hw].
  - split; [exact empty_classic|apply empty_kept].
  - by apply (opponent_kept b model (draws b) cell).
  - by apply (human_kept b cell).
Qed.

(** The hard opponent never loses on the classic board: in no game against it, whoever
    begins and whatever the human plays, does a move of the human make three in a row; and while
    a cell is free the opponent always has a move that the board accepts. *)
Theorem hard_never_loses model draws b :
  (hard_game model draws false b -> forall cell next, applyMove b cell 1 = Some next -> checkWin next 3 cell = None) /\
  (hard_game model draws true b -> isBoardFull b = false ->
     exists cell next, fst (chooseAiMove b 3 2 1 Hard model (draws b)) = Some cell /\ applyMove b cell 2 = Some next).
Proof.
  split.
  - intros Hg cell next Hm. destruct (hard_kept _ _ _ _ Hg) as [Hb Hk]. by apply (human_kept b cell next Hb Hk).
  - intros Hg Hf. destruct (hard_kept _ _ _ _ Hg) as [Hb Hk]. destruct (hard_choice b model (draws b) Hb Hk Hf) as (cell & next & H1 & H2 & _).
    by exists cell, next.
Qed.

(** The human begins in a corner, the opponent takes the middle. *)
Lemma hard_never_loses_witness :
  checkWin [[1; 0; 0]; [0; 2; 0]; [0; 0; 1]] 3 (2, 2) = None.
Proof.
  apply (proj1 (hard_never_loses None (fun _ => []) [[1; 0; 0]; [0; 2; 0]; [0; 0; 0]])); [|reflexivity].
  apply opponent_moves with [[1; 0; 0]; [0; 0; 0]; [0; 0; 0]] (1, 1);
    [|reflexivity|vm_compute; reflexivity|reflexivity|reflexivity].
  apply human_moves with (createEmptyBoard 3) (0, 0); [apply game_start|reflexivity..].
Defined.
