(* ===== verification/TicTacToeModels.v ===== *)
(** * The named models of the tic-tac-toe opponent ([assets/bundled-plugins/tic-tac-toe/models.js])

    A store holds the models and the id of the active one.  Ids of new models come from a list
    ([newModelId] is the time and a random number); [now] is [Date.now()]. *)

From stdpp Require Import pretty.
From S2P Require Import Prelude Json Grid TicTacToe.

#[local] Open Scope Z_scope.

Definition MAX_MODELS : nat := 8.
Definition MAX_NAME_LEN : nat := 32.

Definition newModelId (ids : list string) : string * list string :=
  match ids with id :: rest => (id, rest) | [] => ("m_", []) end.

Definition sanitizeModelName (name fallback : string) : string :=
  let trimmed := str_take MAX_NAME_LEN (trim name) in if bool_decide (trimmed = "") then fallback else trimmed.

Record row := mk_row { r_id : string; r_name : string; createdAt : Z; r_model : model }.

Record store := mk_store { activeId : string; models : list row }.

#[export] Instance rebuild_store : Rebuild store := fun s => mk_store (activeId s) (models s).
#[export] Instance rebuild_row : Rebuild row := fun r => mk_row (r_id r) (r_name r) (createdAt r) (r_model r).

Definition emptyStore : store := mk_store "" [].

(** [normalizeRow] of a stored row; a row without an id gets a new one. *)
Definition normalizeRow (r : row) (ids : list string) : row * list string :=
  let '(id, ids) := if bool_decide (r_id r = "") then newModelId ids else (r_id r, ids) in
  (mk_row id (sanitizeModelName (r_name r) "Modell") (createdAt r) (r_model r), ids).

Fixpoint normalizeRows (rs : list row) (ids : list string) : list row * list string :=
  match rs with
  | [] => ([], ids)
  | r :: rs => let '(r', ids) := normalizeRow r ids in let '(rs', ids) := normalizeRows rs ids in (r' :: rs', ids)
  end.

Definition getModelRow (s : store) (id : string) : option row := List.find (fun r => bool_decide (r_id r = id)) (models s).

Definition getActiveModelRow (s : store) : option row :=
  match getModelRow s (activeId s) with Some r => Some r | None => head (models s) end.

Definition first_id (s : store) : string := match head (models s) with Some r => r_id r | None => "" end.

(** What storage holds: the store and the model of the old format. *)
Record storage := mk_storage { stored : option store; legacy : option model }.

Definition saveModelStore (s : store) (st : storage) : storage := mk_storage (Some s) (legacy st).

(** [loadModelStore]: the store, the ids left and the storage after it. *)
Definition loadModelStore (now : Z) (st : storage) (ids : list string) : store * list string * storage :=
  match stored st with
  | Some s =>
      let '(rows, ids) := normalizeRows (models s) ids in
      let rows := take MAX_MODELS rows in
      let active := if existsb (fun r => bool_decide (r_id r = activeId s)) rows then activeId s
                    else first_id (mk_store "" rows) in
      (mk_store active rows, ids, st)
  | None =>
      match legacy st with
      | Some m =>
          if bool_decide (V m = ∅) then (emptyStore, ids, st)
          else
            let '(id, ids) := newModelId ids in
            let s := mk_store id [mk_row id "Modell 1" now m] in
            (s, ids, saveModelStore s st)
      | None => (emptyStore, ids, st)
      end
  end.

(** [createModel]; [None] when there are too many. *)
Definition createModel (now : Z) (s : store) (name : string) (ids : list string) : option row * store * list string :=
  if Nat.leb MAX_MODELS (length (models s)) then (None, s, ids)
  else
    let '(id, ids) := newModelId ids in
    let r := mk_row id (sanitizeModelName name ("Modell " +:+ pretty (Z.of_nat (length (models s)) + 1))) now emptyModel in
    (Some r, mk_store id (models s ++ [r]), ids).

(** A change of the first row with the id. *)
Fixpoint change_row (id : string) (f : row -> row) (rs : list row) : list row :=
  match rs with
  | [] => []
  | r :: rs => if bool_decide (r_id r = id) then f r :: rs else r :: change_row id f rs
  end.

Definition renameModel (s : store) (id name : string) : bool * store :=
  match getModelRow s id with
  | None => (false, s)
  | Some _ => (true, s <| models := change_row id (fun r => r <| r_name := sanitizeModelName name (r_name r) |>) (models s) |>)
  end.

Fixpoint remove_row (id : string) (rs : list row) : list row :=
  match rs with
  | [] => []
  | r :: rs => if bool_decide (r_id r = id) then rs else r :: remove_row id rs
  end.

Definition deleteModel (s : store) (id : string) : bool * store :=
  match getModelRow s id with
  | None => (false, s)
  | Some _ =>
      let rows := remove_row id (models s) in
      (true, mk_store (if bool_decide (activeId s = id) then first_id (mk_store "" rows) else activeId s) rows)
  end.

Definition selectModel (s : store) (id : string) : bool * store :=
  match getModelRow s id with None => (false, s) | Some _ => (true, s <| activeId := id |>) end.

(** The operations of the settings page. *)
Inductive model_op :=
| Create (name : string)
| Rename (id name : string)
| Delete (id : string)
| Select (id : string).

Definition apply_op (now : Z) (op : model_op) (s : store) (ids : list string) : bool * store * list string :=
  match op with
  | Create name => let '(r, s, ids) := createModel now s name ids in (match r with Some _ => true | None => false end, s, ids)
  | Rename id name => (renameModel s id name, ids)
  | Delete id => (deleteModel s id, ids)
  | Select id => (selectModel s id, ids)
  end.

(** ** The store is well formed *)

(** At most eight models, and the active one is among them. *)
Definition store_ok (s : store) : Prop :=
  (length (models s) <= MAX_MODELS)%nat /\
  (models s = [] -> activeId s = "") /\ (models s <> [] -> exists r, r ∈ models s /\ r_id r = activeId s).

Lemma find_row rs id : match List.find (fun r => bool_decide (r_id r = id)) rs with
  | Some r => r ∈ rs /\ r_id r = id
  | None => forall r, r ∈ rs -> r_id r <> id
  end.
Proof.
  destruct (List.find _ rs) as [r|] eqn:H.
  - apply find_some in H as [H1 H2]. split; [by apply list_elem_of_In|by apply bool_decide_eq_true_1 in H2].
  - intros r Hr Hid. apply list_elem_of_In in Hr. by apply (find_none _ _ H), bool_decide_eq_false_1 in Hr.
Qed.

Lemma change_row_ids id f rs : (forall r, r_id (f r) = r_id r) -> map r_id (change_row id f rs) = map r_id rs.
Proof. intros Hf. induction rs as [|r rs IH]; [done|]. simpl. case_bool_decide; simpl; [by rewrite Hf|by rewrite IH]. Qed.

Lemma remove_row_length id rs : (length (remove_row id rs) <= length rs)%nat.
Proof. induction rs as [|r rs IH]; simpl; [lia|]. case_bool_decide; simpl; lia. Qed.

Lemma remove_row_elem id rs r : r ∈ rs -> r_id r <> id -> r ∈ remove_row id rs.
Proof.
  induction rs as [|q rs IH]; simpl; [done|]. rewrite elem_of_cons. intros [->|H] Hne; case_bool_decide; try done; [by left|right; by apply IH].
Qed.

Lemma first_ok rs : store_ok (mk_store (first_id (mk_store "" rs)) rs) <-> (length rs <= MAX_MODELS)%nat.
Proof.
  unfold store_ok, first_id. cbn [models activeId]. split; [by intros [? _]|]. intros Hl. split; [done|]. destruct rs as [|r rs]; simpl; [done|].
  split; [done|]. intros _. exists r. split; [by left|done].
Qed.

Lemma ids_ok rs rs' active : map r_id rs = map r_id rs' -> store_ok (mk_store active rs) -> store_ok (mk_store active rs').
Proof.
  unfold store_ok. cbn [models activeId]. intros Heq (Hl & He & Ha).
  assert (length rs = length rs') as Hlen by (rewrite <- (length_map r_id rs), <- (length_map r_id rs'); congruence).
  split_and!; [lia|intros ->; apply He; by destruct rs|]. intros Hne.
  destruct (Ha ltac:(by destruct rs, rs')) as (r & Hr & <-).
  assert (Hin : r_id r ∈ map r_id rs') by (rewrite <- Heq; by apply list_elem_of_fmap_2).
  apply list_elem_of_fmap in Hin as (r' & Hid & Hr'). by exists r'.
Qed.

(** The store of the models stays well formed: creating, renaming, deleting and selecting
    keep at most eight models and an active one among them, and whatever storage holds, loading
    gives such a store. *)
Theorem model_store_ok now op s ids st :
  (store_ok s -> store_ok (snd (fst (apply_op now op s ids)))) /\ store_ok (fst (fst (loadModelStore now st ids))).
Proof.
  split.
  - intros Hs. pose proof Hs as (Hl & He & Ha). destruct op as [name|id name|id|id]; cbn [apply_op fst snd].
    + unfold createModel. destruct (Nat.leb_spec MAX_MODELS (length (models s))); [done|]. destruct (newModelId ids) as [id ids'].
      cbn [fst snd]. unfold store_ok. cbn [models activeId]. rewrite length_app. simpl. split_and!; [lia|by destruct (models s)|].
      intros _. eexists. split; [apply elem_of_app; right; by left|done].
    + unfold renameModel. destruct (getModelRow s id); [|done]. cbn [fst snd]. destruct s as [active rs].
      apply (ids_ok rs); [|done]. symmetry. by apply change_row_ids.
    + unfold deleteModel, getModelRow. pose proof (find_row (models s) id) as Hf. destruct (List.find _ _) as [r|]; [|done]. cbn [fst snd].
      pose proof (remove_row_length id (models s)). case_bool_decide as Hact; [apply first_ok; lia|].
      destruct (Ha ltac:(destruct Hf; by destruct (models s); [apply elem_of_nil in H0|])) as (q & Hq & Hid).
      assert (Hin : q ∈ remove_row id (models s)) by (apply remove_row_elem; [done|congruence]).
      unfold store_ok. cbn [models activeId]. split_and!; [lia| |by exists q]. intros Hnil. rewrite Hnil in Hin. by apply elem_of_nil in Hin.
    + unfold selectModel, getModelRow. pose proof (find_row (models s) id) as Hf. destruct (List.find _ _) as [r|]; [|done]. cbn [fst snd].
      split_and!; [done| |intros _; by exists r]. cbn [models activeId]. intros Hnil. destruct Hf as [Hr _].
      change (models (s <| activeId := id |>)) with (models s) in Hnil. rewrite Hnil in Hr. by apply elem_of_nil in Hr.
  - unfold loadModelStore. destruct (stored st) as [s0|].
    + destruct (normalizeRows (models s0) ids) as [rows ids']. cbn [fst].
      assert (Hl : (length (take MAX_MODELS rows) <= MAX_MODELS)%nat) by (rewrite length_take; lia).
      destruct (existsb _ _) eqn:He; [|by apply first_ok]. apply existsb_exists in He as (r & Hr & Hid). bool_cases.
      apply list_elem_of_In in Hr. unfold store_ok. cbn [models activeId]. split_and!; [done| |by exists r].
      intros Hnil. rewrite Hnil in Hr. by apply elem_of_nil in Hr.
    + assert (Hempty : store_ok emptyStore) by (split_and!; [cbn; lia|done|done]).
      destruct (legacy st) as [m|]; [|done]. case_bool_decide; [done|]. destruct (newModelId ids) as [id ids'].
      cbn [fst]. unfold store_ok. cbn. unfold MAX_MODELS. split_and!; [lia|done|]. intros _. eexists. split; [by left|done].
Qed.

Lemma model_store_ok_witness :
  store_ok (snd (fst (apply_op 0 (Delete "b") (mk_store "b" [mk_row "a" "A" 0 emptyModel; mk_row "b" "B" 0 emptyModel]) []))).
Proof.
  apply (model_store_ok 0 (Delete "b") _ [] (mk_storage None None)). split_and!; [vm_compute; lia|done|].
  intros _. exists (mk_row "b" "B" 0 emptyModel). split; [right; by left|done].
Defined.
