(* ===== verification/TicTacToeHost.v ===== *)
(** * Tic-tac-toe: the host of a game ([assets/bundled-plugins/tic-tac-toe/engine.js])

    [createHost] with its seats, board, models and the moves of the computer opponent, which run
    as microtasks.  [now] is [Date.now()]; messages and saves are appended to [out]. *)

From Stdlib Require Import QArith.QArith.
From stdpp Require Import pretty.
From S2P Require Import Prelude Json Grid TicTacToe TicTacToeModels.

#[local] Open Scope Z_scope.

(** ** Settings *)

Inductive play_mode := Solo | Online.

#[export] Instance play_mode_eq_dec : EqDecision play_mode.
Proof. solve_decision. Defined.

Record settings := mk_settings {
  tableName : string;
  playMode : play_mode;
  boardSize : Z;
  winLength : Z;
  maxPlayers : Z;
  aiDifficulty : difficulty;
  aiAutoplay : bool;
  public_lobby : bool
}.

#[export] Instance rebuild_settings : Rebuild settings := fun s =>
  mk_settings (tableName s) (playMode s) (boardSize s) (winLength s) (maxPlayers s) (aiDifficulty s) (aiAutoplay s) (public_lobby s).

Definition defaultSettings : settings := mk_settings "Tic-Tac-Toe" Solo 3 3 2 Medium false false.

Definition read_difficulty (v : option json) : difficulty :=
  if bool_decide (v = Some (JStr "easy")) then Easy else if bool_decide (v = Some (JStr "hard")) then Hard
  else if bool_decide (v = Some (JStr "trained")) then Trained else Medium.

(** [Number(v)] if it is one of the options. *)
Definition one_of (options : list Z) (v : option Z) : option Z :=
  match v with Some n => if bool_decide (n ∈ options) then Some n else None | None => None end.

(** [sanitizeSettings]; a patch without a property keeps the value of the fallback. *)
Definition sanitizeSettings (input : fields) (fb : settings) : settings :=
  let name := str_take 48 (trim (if has input "tableName"
    then (if truthy (get input "tableName") then string_or_empty (get input "tableName") else "Tic-Tac-Toe")
    else if bool_decide (tableName fb = "") then "Tic-Tac-Toe" else tableName fb)) in
  let mode := if has input "playMode" then (if bool_decide (get input "playMode" = Some (JStr "online")) then Online else Solo)
              else playMode fb in
  let size := default 3 (one_of BOARD_SIZES (if has input "boardSize" then to_number (get input "boardSize") else Some (boardSize fb))) in
  let len := Z.min (default 3 (one_of WIN_LENGTHS (if has input "winLength" then to_number (get input "winLength") else Some (winLength fb)))) size in
  let wanted := default 0 (if has input "maxPlayers" then to_number (get input "maxPlayers") else Some (maxPlayers fb)) in
  let level := if has input "aiDifficulty" then read_difficulty (get input "aiDifficulty") else aiDifficulty fb in
  let auto := bool_decide (mode = Online) && (if has input "aiAutoplay" then bool_decide (get input "aiAutoplay" = Some (JBool true)) else aiAutoplay fb) in
  let classic := bool_decide (mode = Solo) && bool_decide (level = Trained) || auto in
  mk_settings (if bool_decide (name = "") then "Tic-Tac-Toe" else name) mode
    (if classic then 3 else size) (if classic then 3 else len)
    (if bool_decide (mode = Solo) || auto then 2 else Z.min 4 (Z.max 2 (if Z.eqb wanted 0 then 2 else wanted)))
    level auto
    (if has input "lobbyAccess" then bool_decide (get input "lobbyAccess" = Some (JStr "public")) else public_lobby fb).

(** ** The state *)

Inductive game_phase := Lobby | Playing | Finished.

#[export] Instance game_phase_eq_dec : EqDecision game_phase.
Proof. solve_decision. Defined.

Record seat := mk_seat { s_peer : string; s_name : string; s_seat : Z; s_disc : Z; s_ai : bool; s_connected : bool }.

(** What [checkpoint] stores. *)
Record saved_game := mk_saved {
  sv_settings : settings;
  sv_players : list seat;
  sv_phase : game_phase;
  sv_board : grid;
  sv_toActIdx : Z;
  sv_winnerPeerId : option string;
  sv_winnerDisc : option Z;
  sv_winCells : option (list (Z * Z));
  sv_message : string;
  sv_invited : list string
}.

(** [publicState()] without the summary of the models. *)
Record public_state := mk_public {
  pu_phase : game_phase;
  pu_board : grid;
  pu_toAct : option string;
  pu_winnerPeerId : option string;
  pu_winnerDisc : option Z;
  pu_winCells : option (list (Z * Z));
  pu_message : string;
  pu_players : list seat
}.

Inductive output :=
| Saved (game : saved_game)
| StateTo (peerIds : list string) (public : public_state)
| JoinOk (peerId : string) (public : public_state)
| JoinReject (peerId : string) (reason : string)
| Kicked (peerId : string)
| InviteTo (peerId : string).

(** A queued move of the computer: what [maybeAiMove] captures. *)
Record task := mk_task { t_mover : string; t_actor : Z; t_opponent : Z; t_level : difficulty }.

Record host := mk_host {
  selfId : string;
  gameId : string;
  cfg : settings;
  players : list seat;
  phase : game_phase;
  board : grid;
  toActIdx : Z;
  winnerPeerId : option string;
  winnerDisc : option Z;
  winCells : option (list (Z * Z));
  message : string;
  invitedPeers : list string;
  aiModel : option model;
  aiModelRowId : string;
  moveHistory : list (string * Z);
  disk : storage;
  ids : list string;
  draws : list Q;
  tasks : list task;
  out : list output
}.

#[export] Instance rebuild_host : Rebuild host := fun h =>
  mk_host (selfId h) (gameId h) (cfg h) (players h) (phase h) (board h) (toActIdx h) (winnerPeerId h) (winnerDisc h) (winCells h)
    (message h) (invitedPeers h) (aiModel h) (aiModelRowId h) (moveHistory h) (disk h) (ids h) (draws h) (tasks h) (out h).

#[export] Instance rebuild_seat : Rebuild seat := fun s =>
  mk_seat (s_peer s) (s_name s) (s_seat s) (s_disc s) (s_ai s) (s_connected s).

Definition emit (o : output) (h : host) : host := h <| out := out h ++ [o] |>.

(** ** Models *)

Definition ensureModel (now : Z) (h : host) : host :=
  let '(s, ids', d) := loadModelStore now (disk h) (ids h) in
  let '(row, ids', d) :=
    match getActiveModelRow s with
    | Some r => (Some r, ids', d)
    | None => let '(r, s, ids') := createModel now s "Modell 1" ids' in (r, ids', saveModelStore s d)
    end in
  let h := h <| ids := ids' |> <| disk := d |> in
  match row with
  | None => h
  | Some r =>
      match aiModel h with
      | Some _ => if bool_decide (aiModelRowId h = r_id r) then h else h <| aiModel := Some (r_model r) |> <| aiModelRowId := r_id r |>
      | None => h <| aiModel := Some (r_model r) |> <| aiModelRowId := r_id r |>
      end
  end.

Definition saveModel (now : Z) (h : host) : host :=
  match aiModel h with
  | None => h
  | Some m =>
      if bool_decide (aiModelRowId h = "") then h
      else
        let '(s, ids', d) := loadModelStore now (disk h) (ids h) in
        let h := h <| ids := ids' |> <| disk := d |> in
        match getModelRow s (aiModelRowId h) with
        | None => h
        | Some _ => h <| disk := saveModelStore (s <| models := change_row (aiModelRowId h) (fun r => r <| r_model := m |>) (models s) |>) d |>
        end
  end.

Definition isLearningGame (h : host) : bool :=
  Z.eqb (boardSize (cfg h)) 3 && Z.eqb (winLength (cfg h)) 3 && Nat.eqb (length (players h)) 2 &&
  bool_decide (playMode (cfg h) = Solo) && bool_decide (aiDifficulty (cfg h) = Trained).

(** ** Views *)

(** [players[i]]. *)
Definition seat_at (ps : list seat) (i : Z) : option seat := if Z.leb 0 i then ps !! Z.to_nat i else None.

Fixpoint playerIndex (peerId : string) (ps : list seat) : Z :=
  match ps with
  | [] => -1
  | p :: rest => if bool_decide (s_peer p = peerId) then 0
                 else let i := playerIndex peerId rest in if Z.ltb i 0 then -1 else i + 1
  end.

Definition peerIds (h : host) : list string :=
  List.filter (fun id => negb (bool_decide (id = "")) && negb (bool_decide (id = AI_PEER_ID))) (map s_peer (players h)).

Definition resetBoard (h : host) : host := h <| board := createEmptyBoard (boardSize (cfg h)) |>.

Definition checkpoint (h : host) : host :=
  emit (Saved (mk_saved (cfg h) (players h) (phase h) (board h) (toActIdx h) (winnerPeerId h) (winnerDisc h) (winCells h)
                 (message h) (invitedPeers h))) h.

Definition publicState (h : host) : public_state :=
  mk_public (phase h) (board h) (option_map s_peer (seat_at (players h) (toActIdx h))) (winnerPeerId h) (winnerDisc h) (winCells h)
    (message h) (players h).

Definition pushState (h : host) : host := emit (StateTo (peerIds h) (publicState h)) h.

(** ** Seats *)

Definition findSeat (h : host) : option Z :=
  List.find (fun s => negb (bool_decide (s ∈ map s_seat (players h)))) (seqZ 0 (maxPlayers (cfg h))).

Fixpoint insert_seat (p : seat) (ps : list seat) : list seat :=
  match ps with
  | [] => [p]
  | q :: rest => if Z.ltb (s_seat p) (s_seat q) then p :: ps else q :: insert_seat p rest
  end.

Definition sort_seats (ps : list seat) : list seat := fold_left (fun acc p => insert_seat p acc) ps [].

(** The players who are not the computer. *)
Definition humans (ps : list seat) : list seat := List.filter (fun p => negb (s_ai p)) ps.

Definition ensureAiPlayer (h : host) : host :=
  if negb (bool_decide (playMode (cfg h) = Solo)) then h
  else if bool_decide (AI_PEER_ID ∈ map s_peer (players h)) then h
  else
    let n := if Nat.ltb 0 (length (players h)) then 1 else 0 in
    h <| players := sort_seats (players h ++ [mk_seat AI_PEER_ID "Algorithmus" n (n + 1) true true]) |>.

(** [String(name || fallback).slice(0, 48)]. *)
Definition name_or (name : option json) (fb : string) : string :=
  str_take 48 (if truthy name then string_or_empty name else fb).

Definition addPlayer (peerId : string) (name : option json) (h : host) : bool * host :=
  if bool_decide (playMode (cfg h) = Solo) && negb (bool_decide (peerId = selfId h)) then (false, h)
  else if bool_decide (peerId ∈ map s_peer (players h)) then
    (true, pushState (h <| players := map (fun p => if bool_decide (s_peer p = peerId)
       then p <| s_connected := true |> <| s_name := name_or name (s_name p) |> else p) (players h) |>))
  else if Z.leb (maxPlayers (cfg h)) (Z.of_nat (length (humans (players h)))) then (false, h)
  else if Z.leb (maxPlayers (cfg h)) (Z.of_nat (length (players h))) then (false, h)
  else match findSeat h with
       | None => (false, h)
       | Some n =>
           (true, pushState (checkpoint
              (h <| players := sort_seats (players h ++ [mk_seat peerId (name_or name peerId) n (n + 1) false true]) |>)))
       end.

Definition clear_result (h : host) : host := h <| winnerPeerId := None |> <| winnerDisc := None |> <| winCells := None |>.

Definition removePlayer (peerId : string) (h : host) : host :=
  let idx := playerIndex peerId (players h) in
  if bool_decide (peerId = AI_PEER_ID) || Z.ltb idx 0 || bool_decide (peerId = selfId h) then h
  else
    let h := if Z.ltb idx (toActIdx h) then h <| toActIdx := toActIdx h - 1 |> else h in
    let h := h <| players := delete (Z.to_nat idx) (players h) |> in
    let h := if Z.leb (Z.of_nat (length (players h))) (toActIdx h) then h <| toActIdx := 0 |> else h in
    let h := if bool_decide (phase h = Playing) && Nat.ltb (length (humans (players h))) 2 && bool_decide (playMode (cfg h) = Online)
             then clear_result (resetBoard (h <| phase := Lobby |>)) <| message := "Zu wenige Spieler — zurück in die Lobby." |>
             else h in
    pushState (checkpoint h).

Definition kickPlayer (peerId : string) (h : host) : bool * host :=
  let idx := playerIndex peerId (players h) in
  if bool_decide (peerId = selfId h) || bool_decide (peerId = AI_PEER_ID) || Z.ltb idx 0 then (false, h)
  else
    let name := match seat_at (players h) idx with Some p => s_name p | None => "" end in
    (true, pushState (checkpoint (removePlayer peerId (emit (Kicked peerId) h) <| message := name +:+ " wurde vom Host entfernt." |>))).

(** ** The game *)

Definition actor_name (h : host) (fb : string) : string :=
  match seat_at (players h) (toActIdx h) with
  | Some p => if bool_decide (s_name p = "") then fb else s_name p
  | None => fb
  end.

Definition PLAYER_MARKS : list string := ["X"; "O"; "△"; "□"].

(** [PLAYER_MARKS[(players[toActIdx]?.disc || 1) - 1]] in a message. *)
Definition actor_mark (h : host) : string :=
  let disc := match seat_at (players h) (toActIdx h) with Some p => if Z.eqb (s_disc p) 0 then 1 else s_disc p | None => 1 end in
  if Z.leb 1 disc then default "undefined" (PLAYER_MARKS !! Z.to_nat (disc - 1)) else "undefined".

(** The other player that [maybeAiMove] and [place] find: the first with another disc. *)
Definition rival (disc : Z) (ps : list seat) : option seat := List.find (fun p => negb (Z.eqb (s_disc p) disc)) ps.

(** Whether the host's seat is played by the trained model. *)
Definition autopilot (h : host) (actor : seat) : bool :=
  bool_decide (playMode (cfg h) = Online) && aiAutoplay (cfg h) && bool_decide (s_peer actor = selfId h) &&
  isTrainableBoard (board h) (winLength (cfg h)) && Nat.eqb (length (players h)) 2.

Definition maybeAiMove (now : Z) (h : host) : host :=
  if negb (bool_decide (phase h = Playing)) then h
  else match seat_at (players h) (toActIdx h) with
       | None => h
       | Some actor =>
           let soloAi := bool_decide (playMode (cfg h) = Solo) && s_ai actor in
           if negb soloAi && negb (autopilot h actor) then h
           else match rival (s_disc actor) (players h) with
                | None => h
                | Some opponent =>
                    let level := if autopilot h actor then Trained else aiDifficulty (cfg h) in
                    let h := if bool_decide (level = Trained) then ensureModel now h else h in
                    h <| tasks := tasks h ++ [mk_task (if soloAi then AI_PEER_ID else s_peer actor) (s_disc actor) (s_disc opponent) level] |>
                end
       end.

(** The board of a new game. *)
Definition deal (h : host) : host :=
  clear_result (resetBoard h <| moveHistory := [] |> <| toActIdx := 0 |>) <| phase := Playing |>.

Definition startGame (now : Z) (h : host) : bool * host :=
  if negb (bool_decide (phase h = Lobby)) then (false, h)
  else
    let h := ensureAiPlayer h in
    let active := length (humans (players h)) in
    if Nat.ltb active (if bool_decide (playMode (cfg h) = Solo) then 1 else 2)
    then (false, pushState (h <| message := if bool_decide (playMode (cfg h) = Solo) then "Solo-Spiel konnte nicht starten."
                                            else "Mindestens 2 Spieler nötig." |>))
    else
      let h := deal h in
      (true, maybeAiMove now (pushState (checkpoint (h <| message := actor_name h "Spieler 1" +:+ " beginnt." |>)))).

Definition rematch (now : Z) (h : host) : bool * host :=
  if negb (bool_decide (phase h = Finished)) then (false, h)
  else
    let h := deal h in
    (true, maybeAiMove now (pushState (checkpoint (h <| message := "Revanche — " +:+ actor_name h "Spieler 1" +:+ " beginnt." |>)))).

Definition advanceTurn (h : host) : host :=
  match players h with [] => h | ps => h <| toActIdx := (toActIdx h + 1) mod Z.of_nat (length ps) |> end.

Section round.
Context (round : Q -> Q).

Definition absorbGameIntoModel (now : Z) (resultDisc : option Z) (h : host) : host :=
  if negb (isLearningGame h) then h
  else match moveHistory h with
       | [] => h
       | history =>
           let h := ensureModel now h in
           match aiModel h with
           | None => h
           | Some m => saveModel now (h <| aiModel := Some (learnFromGame round m history resultDisc) |> <| moveHistory := [] |>)
           end
       end.

Definition finishWithWin (now : Z) (player : seat) (cells : list (Z * Z)) (h : host) : host :=
  pushState (checkpoint (absorbGameIntoModel now (Some (s_disc player))
    (h <| winnerPeerId := Some (s_peer player) |> <| winnerDisc := Some (s_disc player) |> <| winCells := Some cells |>
       <| phase := Finished |> <| message := s_name player +:+ " gewinnt!" |>))).

Definition finishDraw (now : Z) (h : host) : host :=
  pushState (checkpoint (absorbGameIntoModel now None
    (clear_result h <| phase := Finished |> <| message := "Unentschieden — das Feld ist voll." |>))).

(** The position as the mover sees it, kept for learning. *)
Definition remember (now : Z) (player : seat) (h : host) : host :=
  if negb (isLearningGame h) then h
  else
    let h := ensureModel now h in
    match rival (s_disc player) (players h) with
    | Some other => h <| moveHistory := moveHistory h ++ [(modelKey (board h) (s_disc player) (s_disc other), s_disc player)] |>
    | None => h
    end.

Definition place (now : Z) (peerId : string) (rowArg colArg : option Z) (h : host) : bool * host :=
  let idx := playerIndex peerId (players h) in
  if Z.ltb idx 0 || negb (Z.eqb (toActIdx h) idx) || negb (bool_decide (phase h = Playing)) then (false, h)
  else
    match seat_at (players h) idx with
    | None => (false, h)
    | Some player =>
        if s_ai player && negb (bool_decide (peerId = AI_PEER_ID)) then (false, h)
        else if bool_decide (peerId = AI_PEER_ID) && negb (bool_decide (s_peer player = AI_PEER_ID)) then (false, h)
        else
          match rowArg, colArg with
          | Some row, Some col =>
              match applyMove (board h) (row, col) (s_disc player) with
              | None => (false, h)
              | Some nextBoard =>
                  let h := remember now player h <| board := nextBoard |> in
                  match checkWin nextBoard (winLength (cfg h)) (row, col) with
                  | Some w => (true, finishWithWin now player (win_cells w) h)
                  | None =>
                      if isBoardFull nextBoard then (true, finishDraw now h)
                      else
                        let h := advanceTurn h in
                        (true, maybeAiMove now (pushState (checkpoint (h <| message := actor_name h "Spieler" +:+ " ist am Zug (" +:+ actor_mark h +:+ ")." |>))))
                  end
              end
          | _, _ => (false, h)
          end
    end.

(** A queued move: the computer chooses on the board as it is now. *)
Definition run_task (now : Z) (h : host) : host :=
  match tasks h with
  | [] => h
  | t :: rest =>
      let h := h <| tasks := rest |> in
      let model := if bool_decide (t_level t = Trained) then option_map values_of (aiModel h) else None in
      let '(choice, draws') := chooseAiMove (board h) (winLength (cfg h)) (t_actor t) (t_opponent t) (t_level t) model (draws h) in
      let h := h <| draws := draws' |> in
      match choice with
      | Some cell => snd (place now (t_mover t) (Some cell.1) (Some cell.2) h)
      | None => h
      end
  end.

Definition resetAiModel (now : Z) (h : host) : host :=
  let h := ensureModel now h in
  pushState (saveModel now (h <| aiModel := Some emptyModel |> <| moveHistory := [] |>)
    <| message := "Aktives KI-Modell wurde zurückgesetzt." |>).

Definition op_message (op : model_op) : string :=
  match op with
  | Create _ => "Neues Modell angelegt und aktiviert."
  | Select _ => "Modell aktiviert."
  | Delete _ => "Modell gelöscht."
  | Rename _ _ => "Modell umbenannt."
  end.

Definition manageAiModels (now : Z) (op : model_op) (h : host) : bool * host :=
  let '(s, ids', d) := loadModelStore now (disk h) (ids h) in
  let '(ok, s, ids') := apply_op now op s ids' in
  let h := h <| ids := ids' |> <| disk := d |> in
  let h := match op with Create _ => if ok then h else h <| message := "Maximale Anzahl an Modellen erreicht." |> | _ => h end in
  if ok
  then (true, pushState (ensureModel now (h <| disk := saveModelStore s d |> <| aiModel := None |> <| aiModelRowId := "" |>)
                           <| message := op_message op |>))
  else (false, pushState h).

(** ** What others ask for *)

Definition is_text (v : option json) (s : string) : bool := bool_decide (v = Some (JStr s)).

Definition applyAction (now : Z) (peerId : string) (action : option json) (h : host) : bool * host :=
  let type := prop action "type" in
  if is_text type "place" then place now peerId (to_number (prop action "row")) (to_number (prop action "col")) h
  else if is_text type "rematch" then rematch now h
  else (false, h).

Definition handle_join (from : string) (name : option json) (h : host) : host :=
  if bool_decide (playMode (cfg h) = Solo) then emit (JoinReject from "Solo-Spiel — kein Online-Beitritt.") h
  else if negb (bool_decide (phase h = Lobby)) then emit (JoinReject from "Spiel läuft bereits.") h
  else if negb (public_lobby (cfg h)) && negb (bool_decide (from = selfId h)) && negb (bool_decide (from ∈ invitedPeers h))
  then emit (JoinReject from "Nur auf Einladung — bitte zuerst eine Einladung im Chat erhalten.") h
  else
    let '(ok, h) := addPlayer from name h in
    emit (if ok then JoinOk from (publicState h) else JoinReject from "Tisch voll oder Beitritt fehlgeschlagen.") h.

Definition onWire (now : Z) (from : string) (body : option json) (h : host) : host :=
  let wire := prop body "wire" in
  let ours := is_text (prop body "gameId") (gameId h) in
  if is_text wire "join" && ours then handle_join from (prop body "name") h
  else if is_text wire "leave" then removePlayer from h
  else if is_text wire "action" && ours then snd (applyAction now from (prop body "action") h)
  else h.

(** The guests leave a table that becomes a solo game; the loop ends with the extra humans. *)
Fixpoint drop_extras (fuel : nat) (h : host) : host :=
  match fuel with
  | O => h
  | S fuel =>
      if Nat.leb (length (humans (players h))) 1 then h
      else match List.find (fun p => negb (s_ai p) && negb (bool_decide (s_peer p = selfId h))) (players h) with
           | None => h
           | Some extra => drop_extras fuel (removePlayer (s_peer extra) h)
           end
  end.

Definition updateSettings (patch : fields) (h : host) : host :=
  if negb (bool_decide (phase h = Lobby))
  then pushState (h <| message := "Einstellungen können nur in der Lobby geändert werden." |>)
  else
    let h := h <| cfg := sanitizeSettings patch (cfg h) |> in
    let h := if bool_decide (playMode (cfg h) = Solo)
             then let h := ensureAiPlayer h in drop_extras (length (players h)) h
             else let i := playerIndex AI_PEER_ID (players h) in
                  if Z.ltb i 0 then h else h <| players := delete (Z.to_nat i) (players h) |> in
    pushState (checkpoint (resetBoard h <| message := "Einstellungen aktualisiert." |>)).

(** [invitePeer]; whether the peer is connected and not blocked is the caller's. *)
Definition invitePeer (peerId : string) (reachable : bool) (h : host) : bool * host :=
  if bool_decide (playMode (cfg h) = Solo) then (false, h)
  else if bool_decide (peerId = "") || bool_decide (peerId ∈ map s_peer (players h)) || negb reachable then (false, h)
  else
    let h := emit (InviteTo peerId)
               (h <| invitedPeers := if bool_decide (peerId ∈ invitedPeers h) then invitedPeers h else invitedPeers h ++ [peerId] |>) in
    (true, pushState (h <| message := "Einladung wurde im Chat gesendet." |>)).

Definition saveNow (h : host) : bool * host :=
  if bool_decide (phase h = Playing)
  then (false, pushState (h <| message := "Während einer laufenden Partie wird automatisch gespeichert." |>))
  else (true, pushState (checkpoint h <| message := "Spielstand gespeichert." |>)).

(** ** Creation and histories *)

Definition newHost (self id : string) (input : fields) (disk : storage) (ids : list string) (draws : list Q) : host :=
  let c := sanitizeSettings input defaultSettings in
  mk_host self id c [] Lobby (createEmptyBoard (boardSize c)) 0 None None None "" [] None "" [] disk ids draws [] [].

(** [Number(row.seat) || players.length]. *)
Fixpoint restore_seats (rows : list seat) (ps : list seat) : list seat :=
  match rows with
  | [] => ps
  | r :: rows =>
      if bool_decide (s_peer r = "") || bool_decide (s_peer r ∈ map s_peer ps) then restore_seats rows ps
      else
        let n := if Z.eqb (s_seat r) 0 then Z.of_nat (length ps) else s_seat r in
        restore_seats rows (ps ++ [mk_seat (s_peer r) (str_take 48 (if bool_decide (s_name r = "") then s_peer r else s_name r))
                                     n (n + 1) (bool_decide (s_peer r = AI_PEER_ID) || s_ai r) (s_connected r)])
  end.

(** [createHost] from a saved game, with settings of its own. *)
Definition restoreHost (self id : string) (input : fields) (disk : storage) (ids : list string) (draws : list Q) (sv : saved_game) : host :=
  let c := sanitizeSettings input (sv_settings sv) in
  mk_host self id c (sort_seats (restore_seats (sv_players sv) [])) (sv_phase sv)
    (if isValidBoardShape (sv_board sv) (boardSize c) then sv_board sv else createEmptyBoard (boardSize c)) (sv_toActIdx sv)
    (sv_winnerPeerId sv) (sv_winnerDisc sv) (sv_winCells sv) (sv_message sv) (sv_invited sv) None "" [] disk ids draws [] [].

Definition bootstrapHost (name : string) (h : host) : host :=
  checkpoint (ensureAiPlayer (snd (addPlayer (selfId h) (Some (JStr (if bool_decide (name = "") then "Host" else name))) h))).

Inductive event :=
| Wire (from : string) (body : option json)
| Act (peerId : string) (action : option json)
| Start
| Rematch
| Leave (peerId : string)
| Kick (peerId : string)
| Settings (patch : fields)
| Invite (peerId : string) (reachable : bool)
| SaveNow
| ResetModel
| Manage (op : model_op)
| Microtask.

Definition step (now : Z) (e : event) (h : host) : host :=
  match e with
  | Wire from body => onWire now from body h
  | Act peerId action => snd (applyAction now peerId action h)
  | Start => snd (startGame now h)
  | Rematch => snd (rematch now h)
  | Leave peerId => removePlayer peerId h
  | Kick peerId => snd (kickPlayer peerId h)
  | Settings patch => updateSettings patch h
  | Invite peerId reachable => snd (invitePeer peerId reachable h)
  | SaveNow => snd (saveNow h)
  | ResetModel => resetAiModel now h
  | Manage op => snd (manageAiModels now op h)
  | Microtask => run_task now h
  end.

Definition run (es : list (Z * event)) (h : host) : host := fold_left (fun h te => step te.1 te.2 h) es h.
End round.
