(* ===== verification/TicTacToeHostFacts.v ===== *)
(** * Facts about the host of tic-tac-toe

    The computer opponent behind the host: in a hosted solo game on the classic board at the
    hard level the human never wins, whatever arrives in which order. *)

From Stdlib Require Import QArith.QArith.
From S2P Require Import Prelude Json Grid TicTacToe TicTacToeRules TicTacToeHard TicTacToeModels TicTacToeHost.

#[local] Open Scope Z_scope.

(** ** The invariant *)

Definition solo (h : host) : Prop := playMode (cfg h) = Solo.

(** The settings [hard_never_loses] speaks of. *)
Definition hard_table (c : settings) : Prop := playMode c = Solo /\ boardSize c = 3 /\ winLength c = 3 /\ aiDifficulty c = Hard.

Record host_seat (self : string) (p : seat) : Prop := mk_host_seat {
  hs_peer : s_peer p = self; hs_seat : s_seat p = 0; hs_disc : s_disc p = 1; hs_ai : s_ai p = false }.

Record guest_seat (self : string) (p : seat) : Prop := mk_guest_seat {
  gs_self : s_peer p <> self; gs_peer : s_peer p <> AI_PEER_ID; gs_seat : 0 < s_seat p; gs_ai : s_ai p = false }.

Record ai_seat (p : seat) : Prop := mk_ai_seat {
  as_peer : s_peer p = AI_PEER_ID; as_seat : s_seat p = 1; as_disc : s_disc p = 2; as_ai : s_ai p = true }.

(** The host sits first; against it the computer, or online any number of guests. *)
Definition seating (self : string) (mode : play_mode) (ps : list seat) : Prop :=
  exists p rest, ps = p :: rest /\ host_seat self p /\
    match mode with Solo => exists a, rest = [a] /\ ai_seat a | Online => Forall (guest_seat self) rest end.

(** The queued moves of the computer opponent. *)
Definition ai_tasks (h : host) : list task := List.filter (fun t => bool_decide (t_mover t = AI_PEER_ID)) (tasks h).

(** The board of a hard game in progress can be kept by the opponent. *)
Definition kept (h : host) : Prop :=
  classic (board h) /\ (toActIdx h = 0 \/ toActIdx h = 1) /\ keeps (Z.eqb (toActIdx h) 1) (board h) = true.

Record ttt_inv (h : host) : Prop := mk_ttt_inv {
  t_self : selfId h <> AI_PEER_ID;
  t_seats : seating (selfId h) (playMode (cfg h)) (players h);
  t_tasks : ai_tasks h = [] \/
    phase h = Playing /\ solo h /\ toActIdx h = 1 /\ ai_tasks h = [mk_task AI_PEER_ID 2 1 (aiDifficulty (cfg h))];
  t_lobby : phase h = Lobby -> winnerDisc h = None;
  t_playing : phase h = Playing -> winnerDisc h = None /\ (hard_table (cfg h) -> kept h);
  t_finished : phase h = Finished -> hard_table (cfg h) -> winnerDisc h <> Some 1
}.

Definition ttt_core (h : host) := (selfId h, cfg h, players h, phase h, board h, toActIdx h, winnerDisc h, tasks h).

Lemma ttt_inv_core h h' : ttt_core h = ttt_core h' -> ttt_inv h -> ttt_inv h'.
Proof.
  unfold ttt_core. intros [= H1 H2 H3 H4 H5 H6 H7 H8] [Ha Hb Hc Hd He Hf].
  unfold kept, ai_tasks, solo in *. rewrite ?H1, ?H2, ?H3, ?H4, ?H5, ?H6, ?H7, ?H8 in *. by constructor.
Qed.

Lemma core_ai_tasks h h' : ttt_core h = ttt_core h' -> ai_tasks h = ai_tasks h'.
Proof. unfold ttt_core, ai_tasks. by intros [= _ _ _ _ _ _ _ ->]. Qed.

(** Messages, saves and models are not part of the core. *)
Ltac ttt_same_core := match goal with H : ttt_inv ?h |- _ => apply (ttt_inv_core h); [reflexivity|exact H] end.

Lemma push_core h : ttt_core (pushState (checkpoint h)) = ttt_core h.
Proof. reflexivity. Qed.

Lemma ensureModel_core now h : ttt_core (ensureModel now h) = ttt_core h.
Proof.
  unfold ensureModel. destruct (loadModelStore _ _ _) as [[s ids'] d].
  destruct (getActiveModelRow s); [|destruct (createModel _ _ _ _) as [[[r|] s'] ids'']]; try reflexivity;
    by destruct (aiModel _); [destruct (bool_decide _)|].
Qed.

Lemma saveModel_core now h : ttt_core (saveModel now h) = ttt_core h.
Proof.
  unfold saveModel. destruct (aiModel h); [|done]. destruct (bool_decide _); [done|].
  destruct (loadModelStore _ _ _) as [[s ids'] d]. by destruct (getModelRow _ _).
Qed.

Lemma remember_core now p h : ttt_core (remember now p h) = ttt_core h.
Proof.
  unfold remember. destruct (negb _); [done|]. destruct (rival _ _); [|apply ensureModel_core].
  by rewrite <- (ensureModel_core now h).
Qed.

Lemma absorb_core round now d h : ttt_core (absorbGameIntoModel round now d h) = ttt_core h.
Proof.
  unfold absorbGameIntoModel. destruct (negb _); [done|]. destruct (moveHistory h); [done|].
  destruct (aiModel _); [|apply ensureModel_core]. rewrite saveModel_core. by rewrite <- (ensureModel_core now h).
Qed.

(** ** Seats *)

Lemma solo_players h : ttt_inv h -> solo h -> exists p a, players h = [p; a] /\ host_seat (selfId h) p /\ ai_seat a.
Proof. intros H Hs. destruct (t_seats _ H) as (p & rest & -> & Hp & Hr). rewrite Hs in Hr. destruct Hr as (a & -> & Ha). by exists p, a. Qed.

Lemma ttt_index peer ps : 0 <= playerIndex peer ps ->
  exists p, seat_at ps (playerIndex peer ps) = Some p /\ s_peer p = peer.
Proof.
  induction ps as [|p ps IH]; simpl; [done|]. case_bool_decide as Hp; [by exists p|].
  destruct (Z.ltb_spec (playerIndex peer ps) 0); [done|]. intros _. destruct (IH ltac:(done)) as (q & Hq & Hpq).
  exists q. split; [|done]. unfold seat_at in *. destruct (Z.leb_spec 0 (playerIndex peer ps)); [|done].
  destruct (Z.leb_spec 0 (playerIndex peer ps + 1)); [|lia].
  by replace (Z.to_nat (playerIndex peer ps + 1)) with (S (Z.to_nat (playerIndex peer ps))) by lia.
Qed.

(** In a solo game the only players are the host and the computer. *)
Lemma solo_index peer self p a : self <> AI_PEER_ID -> host_seat self p -> ai_seat a -> 0 <= playerIndex peer [p; a] ->
  (peer = self /\ playerIndex peer [p; a] = 0) \/ (peer = AI_PEER_ID /\ playerIndex peer [p; a] = 1).
Proof.
  intros Hne [Hp _ _ _] [Ha _ _ _]. cbn [playerIndex]. rewrite Hp, Ha. repeat case_bool_decide; subst; simpl; [auto|auto|lia].
Qed.

Lemma ttt_insert_perm p ps : insert_seat p ps ≡ₚ p :: ps.
Proof. induction ps as [|r ps IH]; simpl; [done|]. destruct (Z.ltb _ _); [done|]. rewrite IH. by constructor. Qed.

(** Sorting leaves the host first. *)
Lemma sort_first p rest : s_seat p = 0 -> Forall (fun q => 0 < s_seat q) rest -> exists l, sort_seats (p :: rest) = p :: l /\ l ≡ₚ rest.
Proof.
  intros Hp Hr. assert (H : forall acc, exists l, fold_left (fun acc p => insert_seat p acc) rest (p :: acc) = p :: l /\ l ≡ₚ rest ++ acc).
  { induction Hr as [|q rest Hq _ IH]; intros acc; simpl; [by exists acc|].
    destruct (Z.ltb_spec (s_seat q) (s_seat p)) as [Hlt|_]; [lia|].
    destruct (IH (insert_seat q acc)) as (l & -> & Hl). exists l. split; [done|].
    rewrite Hl, ttt_insert_perm. by rewrite Permutation_middle. }
  destruct (H []) as (l & Hl & He). exists l. split; [exact Hl|]. by rewrite app_nil_r in He.
Qed.

(** ** The computer moves *)

Lemma ai_tasks_push h t : ai_tasks (h <| tasks := tasks h ++ [t] |>) = ai_tasks h ++ (if bool_decide (t_mover t = AI_PEER_ID) then [t] else []).
Proof. unfold ai_tasks. cbn [tasks field_update]. change (tasks (h <| tasks := ?x |>)) with x. rewrite List.filter_app. simpl. by destruct (bool_decide _). Qed.

Lemma seat_at_bound ps i p : seat_at ps i = Some p -> 0 <= i < Z.of_nat (length ps).
Proof. unfold seat_at. destruct (Z.leb_spec 0 i); [|done]. intros Hl%lookup_lt_Some. lia. Qed.

Lemma maybe_inv now h : ttt_inv h -> ai_tasks h = [] -> ttt_inv (maybeAiMove now h).
Proof.
  intros H Hno. unfold maybeAiMove. destruct (bool_decide (phase h = Playing)) eqn:Hph; [|done]. cbn [negb]. bool_cases.
  destruct (seat_at (players h) (toActIdx h)) as [actor|] eqn:Hact; [|done].
  destruct (_ && _) eqn:Hg; [done|]. destruct (rival _ _) as [opp|] eqn:Hopp; [|done].
  set (level := if autopilot h actor then Trained else aiDifficulty (cfg h)).
  set (h0 := if bool_decide (level = Trained) then ensureModel now h else h).
  assert (Hc : ttt_core h0 = ttt_core h) by (unfold h0; destruct (bool_decide (level = Trained)); [apply ensureModel_core|done]).
  assert (H0 : ttt_inv h0) by (by apply (ttt_inv_core h)).
  assert (Hno0 : ai_tasks h0 = []) by (by rewrite (core_ai_tasks _ _ Hc)).
  set (soloAi := bool_decide (playMode (cfg h) = Solo) && s_ai actor) in *.
  set (t := mk_task (if soloAi then AI_PEER_ID else s_peer actor) (s_disc actor) (s_disc opp) level).
  clearbody h0. pose proof H0 as [Ha Hb Hcc Hd He Hf]. constructor; try done.
  rewrite ai_tasks_push, Hno0. cbn [app].
  change (phase (h0 <| tasks := ?x |>)) with (phase h0). change (solo (h0 <| tasks := ?x |>)) with (solo h0).
  change (toActIdx (h0 <| tasks := ?x |>)) with (toActIdx h0). change (cfg (h0 <| tasks := ?x |>)) with (cfg h0).
  case_bool_decide as Hm; [right|by left]. unfold ttt_core in Hc. unfold solo. injection Hc as _ -> _ -> _ -> _ _.
  assert (Hs : solo h).
  { destruct soloAi eqn:Es; [unfold soloAi in Es; by bool_cases|]. simpl in Hg. apply negb_false_iff in Hg. unfold autopilot in Hg.
    bool_cases. exfalso. apply (t_self _ H). simpl in Hm. congruence. }
  destruct (solo_players h H Hs) as (p & a & Hps & Hp & Has). rewrite Hps in *. pose proof (seat_at_bound _ _ _ Hact) as Hbd. cbn [length] in Hbd.
  assert (Hauto : autopilot h actor = false) by (unfold autopilot; unfold solo in Hs; by rewrite Hs).
  assert (Hcase : toActIdx h = 0 \/ toActIdx h = 1) by lia. destruct Hcase as [E|E]; rewrite E in Hact; injection Hact as <-.
  - exfalso. unfold soloAi in Hg. rewrite (hs_ai _ _ Hp), Hauto, andb_false_r in Hg. done.
  - split_and!; try done. unfold t, level, soloAi. rewrite Hauto, (as_ai _ Has), (as_disc _ Has).
    unfold solo in Hs. rewrite (bool_decide_eq_true_2 _ Hs). unfold rival in Hopp. cbn [List.find] in Hopp.
    rewrite (hs_disc _ _ Hp), (as_disc _ Has) in Hopp. cbn in Hopp. injection Hopp as <-. by rewrite (hs_disc _ _ Hp).
Qed.

(** A fresh board. *)
Lemma ttt_deal_inv h : ttt_inv h -> ai_tasks h = [] -> ttt_inv (deal h).
Proof.
  intros [Ha Hb Hc Hd He Hf] Hno. constructor; try done; [by left|]. intros _. split; [done|]. intros (_ & Hs & _ & _).
  unfold kept. change (board (deal h)) with (createEmptyBoard (boardSize (cfg h))). change (toActIdx (deal h)) with 0.
  change (boardSize (cfg h) = 3) in Hs. rewrite Hs.
  split_and!; [exact empty_classic|by left|apply empty_kept].
Qed.

(** ** A move *)

(** What a move to [next] must leave behind on a hard table. *)
Definition leaves (h : host) (next : grid) (cell : Z * Z) (disc : Z) : Prop :=
  hard_table (cfg h) ->
  match checkWin next 3 cell with
  | Some _ => disc <> 1
  | None => classic next /\ (toActIdx h = 0 \/ toActIdx h = 1) /\ keeps (Z.eqb (1 - toActIdx h) 1) next = true
  end.

Lemma win_inv round now player cells next h h0 : ttt_inv h -> ai_tasks h = [] -> ttt_core h0 = ttt_core h ->
  (hard_table (cfg h) -> s_disc player <> 1) -> ttt_inv (finishWithWin round now player cells (h0 <| board := next |>)).
Proof.
  intros [Ha Hb Hc Hd He Hf] Hno Hcore Hdisc. unfold ttt_core in Hcore.
  apply (ttt_inv_core (h <| board := next |> <| phase := Finished |> <| winnerDisc := Some (s_disc player) |>)).
  - unfold finishWithWin. rewrite push_core, absorb_core. unfold ttt_core. simpl. congruence.
  - constructor; try done; [by left|]. intros _ Ht. change (winnerDisc (_ <| winnerDisc := ?x |>)) with x.
    intros [= E]. by apply Hdisc.
Qed.

Lemma draw_inv round now next h h0 : ttt_inv h -> ai_tasks h = [] -> ttt_core h0 = ttt_core h -> ttt_inv (finishDraw round now (h0 <| board := next |>)).
Proof.
  intros [Ha Hb Hc Hd He Hf] Hno Hcore. unfold ttt_core in Hcore.
  apply (ttt_inv_core (h <| board := next |> <| phase := Finished |> <| winnerDisc := None |>)).
  - unfold finishDraw. rewrite push_core, absorb_core. unfold ttt_core. simpl. congruence.
  - constructor; try done. by left.
Qed.

Lemma advance_inv next cell disc h h0 : ttt_inv h -> ai_tasks h = [] -> phase h = Playing -> ttt_core h0 = ttt_core h ->
  leaves h next cell disc -> checkWin next 3 cell = None \/ ~ hard_table (cfg h) ->
  ttt_inv (advanceTurn (h0 <| board := next |>)) /\ ai_tasks (advanceTurn (h0 <| board := next |>)) = [].
Proof.
  intros H Hno Hph Hcore Hl Hnw. pose proof H as [Ha Hb Hc Hd He Hf].
  set (t := (toActIdx h + 1) mod Z.of_nat (length (players h))).
  assert (Hadv : ttt_core (advanceTurn (h0 <| board := next |>)) = ttt_core (h <| board := next |> <| toActIdx := t |>)).
  { unfold ttt_core in Hcore. injection Hcore as E1 E2 E3 E4 E5 E6 E7 E8. unfold advanceTurn.
    change (players (h0 <| board := next |>)) with (players h0). change (toActIdx (h0 <| board := next |>)) with (toActIdx h0). rewrite E3.
    destruct Hb as (p & rest & Hps & _). unfold t. rewrite Hps. unfold ttt_core. simpl. congruence. }
  split; [|by rewrite (core_ai_tasks _ _ Hadv)].
  apply (ttt_inv_core (h <| board := next |> <| toActIdx := t |>)); [done|].
  constructor; try done; [by left|]. intros _. split; [by apply He|]. intros Ht. change (hard_table (cfg h)) in Ht. unfold kept.
  change (board (_ <| board := next |> <| toActIdx := t |>)) with next. change (toActIdx (_ <| toActIdx := t |>)) with t.
  destruct Hnw as [Hnw|]; [|done]. specialize (Hl Ht). rewrite Hnw in Hl. destruct Hl as (Hcl & Hi & Hk).
  destruct (solo_players h H ltac:(by destruct Ht)) as (p & a & Hps & _). unfold t. rewrite Hps.
  destruct Hi as [E|E]; rewrite E in *; split_and!; try done; [by right|by left].
Qed.

#[local] Instance hard_table_dec c : Decision (hard_table c).
Proof. unfold hard_table. apply _. Defined.

(** A cell the hard opponent would choose on the board of the table. *)
Definition chosen (h : host) (row col : option Z) : Prop :=
  hard_table (cfg h) -> forall r c, row = Some r -> col = Some c ->
    exists model draws, fst (chooseAiMove (board h) 3 2 1 Hard model draws) = Some (r, c).

Lemma place_leaves peer r c player next h : ttt_inv h -> phase h = Playing -> toActIdx h = playerIndex peer (players h) ->
  seat_at (players h) (playerIndex peer (players h)) = Some player -> applyMove (board h) (r, c) (s_disc player) = Some next ->
  (peer = AI_PEER_ID -> chosen h (Some r) (Some c)) -> leaves h next (r, c) (s_disc player).
Proof.
  intros H Hph Hidx Hp Hm Hai Ht. destruct (t_playing _ H Hph) as [_ Hk]. destruct (Hk Ht) as (Hb & _ & Hkeep).
  destruct (solo_players h H ltac:(by destruct Ht)) as (p & a & Hps & Hhost & Ha). rewrite Hps in *.
  destruct (solo_index peer (selfId h) p a (t_self _ H) Hhost Ha) as [[-> Hi]|[-> Hi]];
    [by pose proof (seat_at_bound _ _ _ Hp); lia|..]; rewrite Hi in *; rewrite Hidx in *; injection Hp as <-.
  - rewrite (hs_disc _ _ Hhost) in *. destruct (human_kept _ _ _ Hb Hkeep Hm) as (-> & Hc & Hk'). split_and!; [done|by left|done].
  - rewrite (as_disc _ Ha) in *. destruct (checkWin next 3 (r, c)) eqn:Hw; [done|].
    destruct (Hai eq_refl Ht r c eq_refl eq_refl) as (model & draws & Hc).
    destruct (opponent_kept _ _ _ _ _ Hb Hkeep Hc Hm Hw) as [H1 H2]. split_and!; [done|by right|done].
Qed.

Lemma place_inv round now peer row col h : ttt_inv h -> (peer = AI_PEER_ID -> ai_tasks h = [] /\ chosen h row col) ->
  ttt_inv (snd (place round now peer row col h)).
Proof.
  intros H Hai. unfold place. destruct (Z.ltb (playerIndex peer (players h)) 0 || _ || _) eqn:Hg; [done|]. bool_cases.
  destruct (seat_at _ _) as [player|] eqn:Hp; [|done]. destruct (s_ai player && _) eqn:Hg1; [done|].
  destruct (bool_decide (peer = AI_PEER_ID) && _) eqn:Hg2; [done|].
  destruct row as [r|]; [|done]. destruct col as [c|]; [|done]. destruct (applyMove _ _ _) as [next|] eqn:Hm; [|done].
  pose proof (place_leaves peer r c player next h H ltac:(done) ltac:(lia) Hp Hm ltac:(intros E; by apply Hai)) as Hl.
  assert (Hno : ai_tasks h = []).
  { destruct (t_tasks _ H) as [|(_ & Hs & Hi & _)]; [done|]. apply Hai. destruct (solo_players h H Hs) as (p & a & Hps & Hh & Ha).
    rewrite Hps in *. destruct (solo_index peer (selfId h) p a (t_self _ H) Hh Ha) as [[_ ?]|[? _]]; [lia|lia|done]. }
  pose proof (remember_core now player h) as Hcore. clear Hai Hm. set (h0 := remember now player h) in *. clearbody h0.
  assert (Hcfg : cfg (h0 <| board := next |>) = cfg h) by (by unfold ttt_core in Hcore; simpl; congruence).
  rewrite Hcfg. clear Hcfg. destruct (checkWin next (winLength (cfg h)) (r, c)) as [w|] eqn:Hw; cbn [snd].
  - apply (win_inv _ _ _ _ _ h); try done. intros Ht. specialize (Hl Ht). destruct Ht as (_ & _ & Hwl & _). by rewrite Hwl in Hw; rewrite Hw in Hl.
  - destruct (isBoardFull next); cbn [snd]; [by apply (draw_inv _ _ _ h)|].
    destruct (advance_inv next (r, c) (s_disc player) h h0 H Hno ltac:(done) Hcore Hl) as [Ha Hna].
    { destruct (decide (hard_table (cfg h))) as [(_ & _ & Hwl & _)|]; [left; by rewrite Hwl in Hw|by right]. }
    set (h1 := advanceTurn _) in *. clearbody h1. apply maybe_inv; [by apply (ttt_inv_core h1)|done].
Qed.

Lemma task_inv round now h : ttt_inv h -> ttt_inv (run_task round now h).
Proof.
  intros H. unfold run_task. destruct (tasks h) as [|t rest] eqn:Hts; [done|].
  set (h1 := h <| tasks := rest |>).
  assert (Hai : ai_tasks h = (if bool_decide (t_mover t = AI_PEER_ID) then [t] else []) ++ ai_tasks h1).
  { unfold ai_tasks. rewrite Hts. simpl. by destruct (bool_decide _). }
  assert (H1 : ttt_inv h1 /\ (t_mover t = AI_PEER_ID -> ai_tasks h1 = [] /\ solo h1 /\ t = mk_task AI_PEER_ID 2 1 (aiDifficulty (cfg h1)))).
  { pose proof H as [Ha Hb Hc Hd He Hf]. rewrite Hai in Hc. case_bool_decide as Hmv.
    - destruct Hc as [|(Hph & Hs & Hi & Hl)]; [done|]. injection Hl as -> Hl. split; [constructor; try done; by left|done].
    - split; [|done]. constructor; done. }
  destruct H1 as [H1 Hmv]. cbv zeta. clearbody h1. clear Hai Hts H h.
  destruct (chooseAiMove _ _ _ _ _ _ _) as [choice draws'] eqn:Hch.
  set (h2 := h1 <| draws := draws' |>).
  assert (H2 : ttt_inv h2) by (by apply (ttt_inv_core h1)). destruct choice as [cell|]; [|done].
  apply place_inv; [done|]. intros E. destruct (Hmv E) as (Hno & Hs & Ht). split; [done|].
  intros (_ & Hsz & Hwl & Hlev) r c [= <-] [= <-]. change (cfg h2) with (cfg h1) in *. change (board h2) with (board h1).
  rewrite Ht, Hwl, Hlev in Hch. cbn [t_actor t_opponent t_level] in Hch. eexists _, (draws h1).
  rewrite <- surjective_pairing. by rewrite Hch.
Qed.

(** ** Players come and go *)

Lemma update_guest self f p : (forall q, s_peer (f q) = s_peer q /\ s_seat (f q) = s_seat q /\ s_disc (f q) = s_disc q /\ s_ai (f q) = s_ai q) ->
  (host_seat self p -> host_seat self (f p)) /\ (guest_seat self p -> guest_seat self (f p)) /\ (ai_seat p -> ai_seat (f p)).
Proof. intros Hf. destruct (Hf p) as (H1 & H2 & H3 & H4). split_and!; intros []; constructor; congruence. Qed.

Lemma seating_map self mode f ps : (forall q, s_peer (f q) = s_peer q /\ s_seat (f q) = s_seat q /\ s_disc (f q) = s_disc q /\ s_ai (f q) = s_ai q) ->
  seating self mode ps -> seating self mode (map f ps).
Proof.
  intros Hf (p & rest & -> & Hp & Hr). exists (f p), (map f rest). split; [done|]. split; [by apply (update_guest self f p Hf)|].
  destruct mode; [destruct Hr as (a & -> & Ha); exists (f a); split; [done|by apply (update_guest self f a Hf)]|].
  apply Forall_map. eapply Forall_impl; [exact Hr|]. intros q. apply (update_guest self f q Hf).
Qed.

Lemma findSeat_pos h n p : findSeat h = Some n -> p ∈ players h -> s_seat p = 0 -> 0 < n.
Proof.
  unfold findSeat. intros [Hin Hf]%find_some Hp Hs. apply list_elem_of_In, elem_of_seqZ in Hin. bool_cases.
  destruct (decide (n = 0)) as [->|]; [|lia]. exfalso. apply Hf. rewrite <- Hs. by apply list_elem_of_fmap_2.
Qed.

Lemma ttt_add_inv peer name h : ttt_inv h -> peer <> AI_PEER_ID -> ttt_inv (snd (addPlayer peer name h)).
Proof.
  intros H Hne. unfold addPlayer. destruct (bool_decide (playMode (cfg h) = Solo) && _) eqn:Hg; [done|].
  destruct (bool_decide (peer ∈ _)) eqn:Hin; cbn [snd].
  - apply (ttt_inv_core (h <| players := map (fun p => if bool_decide (s_peer p = peer)
       then p <| s_connected := true |> <| s_name := name_or name (s_name p) |> else p) (players h) |>)); [reflexivity|].
    pose proof H as [Ha Hb Hc Hd He Hf]. constructor; try done. apply seating_map; [|exact Hb]. intros q. destruct (bool_decide (s_peer q = peer)); repeat split.
  - destruct (Z.leb _ _); [done|]. destruct (Z.leb _ _); [done|]. destruct (findSeat h) as [n|] eqn:Hn; [|done]. cbn [snd].
    pose proof H as [Ha (p & rest & Hps & Hp & Hr) Hc Hd He Hf]. bool_cases;
      [|exfalso; subst; apply Hin; rewrite Hps; simpl; rewrite (hs_peer _ _ Hp); by left].
    destruct (playMode (cfg h)) eqn:Hmode; [done|].
    pose proof (findSeat_pos h n p Hn ltac:(rewrite Hps; by left) (hs_seat _ _ Hp)) as Hpos.
    set (g := mk_seat peer (name_or name peer) n (n + 1) false true).
    assert (Hg : guest_seat (selfId h) g).
    { constructor; try done. simpl. intros ->. apply Hin. rewrite Hps. simpl. rewrite (hs_peer _ _ Hp). by left. }
    rewrite Hps. destruct (sort_first p (rest ++ [g]) (hs_seat _ _ Hp)) as (l & Hl & Hperm).
    { apply Forall_app. split; [|by constructor]. eapply Forall_impl; [exact Hr|]. by intros q []. }
    change ((p :: rest) ++ [g]) with (p :: rest ++ [g]). rewrite Hl.
    apply (ttt_inv_core (h <| players := p :: l |>)); [reflexivity|]. constructor; try done.
    change (seating (selfId h) (playMode (cfg h)) (p :: l)). exists p, l. rewrite Hmode. split_and!; [done..|].
    rewrite Hperm. apply Forall_app. split; [done|by constructor].
Qed.

(** The guest with the peer id leaves. *)
Lemma guest_index peer self p rest : host_seat self p -> peer <> self -> 0 <= playerIndex peer (p :: rest) ->
  exists i, Z.to_nat (playerIndex peer (p :: rest)) = S i /\ Z.of_nat (S i) = playerIndex peer (p :: rest) /\
    exists q, rest !! i = Some q /\ s_peer q = peer.
Proof.
  intros Hp Hne Hi. destruct (ttt_index _ _ Hi) as (q & Hq & Hqp). pose proof (seat_at_bound _ _ _ Hq) as Hb.
  unfold seat_at in Hq. destruct (Z.leb_spec 0 (playerIndex peer (p :: rest))); [|done].
  destruct (Z.to_nat (playerIndex peer (p :: rest))) as [|i] eqn:E.
  - injection Hq as <-. by rewrite (hs_peer _ _ Hp) in Hqp.
  - exists i. split_and!; [done|lia|]. by exists q.
Qed.

Lemma leave_online h : ttt_inv h -> ~ solo h ->
  ttt_inv (clear_result (resetBoard (h <| phase := Lobby |>)) <| message := "Zu wenige Spieler — zurück in die Lobby." |>).
Proof.
  intros [Ha Hb Hc Hd He Hf] Hs. constructor; try done. destruct Hc as [|(_ & ? & _)]; [by left|done].
Qed.

Lemma ttt_remove_inv peer h : ttt_inv h -> ttt_inv (removePlayer peer h).
Proof.
  intros H. unfold removePlayer. destruct (_ || _) eqn:Hg; [done|]. bool_cases.
  destruct (t_seats _ H) as (p & rest & Hps & Hp & Hr).
  destruct (playMode (cfg h)) eqn:Hmode.
  { exfalso. destruct Hr as (a & -> & Hai). rewrite Hps in *.
    destruct (solo_index peer (selfId h) p a (t_self _ H) Hp Hai) as [[? _]|[? _]]; [lia|done|done]. }
  rewrite Hps in *. destruct (guest_index peer (selfId h) p rest Hp ltac:(done) ltac:(lia)) as (i & Hi & _ & q & Hq & _).
  rewrite Hi. cbv zeta.
  set (h1 := if Z.ltb _ (toActIdx h) then h <| toActIdx := toActIdx h - 1 |> else h).
  assert (Hns : ~ solo h) by (unfold solo; congruence).
  assert (Hno : ai_tasks h = []) by (destruct (t_tasks _ H) as [|(_ & ? & _)]; done).
  assert (E1 : (selfId h1, cfg h1, players h1, phase h1, winnerDisc h1, tasks h1) = (selfId h, cfg h, players h, phase h, winnerDisc h, tasks h))
    by (unfold h1; by destruct (Z.ltb _ _)).
  clearbody h1. injection E1 as E1 E2 E3 E4 E5 E6. rewrite E3, Hps. change (delete (S i) (p :: rest)) with (p :: delete i rest).
  set (h2 := h1 <| players := p :: delete i rest |>).
  set (h3 := if Z.leb _ _ then h2 <| toActIdx := 0 |> else h2).
  assert (E : (selfId h3, cfg h3, players h3, phase h3, winnerDisc h3, tasks h3) = (selfId h, cfg h, p :: delete i rest, phase h, winnerDisc h, tasks h))
    by (unfold h3, h2; destruct (Z.leb _ _); simpl; congruence).
  clearbody h3. clear h1 h2 E1 E2 E3 E4 E5 E6. injection E as E1 E2 E3 E4 E5 E6.
  assert (H3 : ttt_inv h3).
  { pose proof H as [Ha Hb Hc Hd He Hf]. assert (Hns3 : ~ hard_table (cfg h3)) by (rewrite E2; intros [? _]; congruence).
    constructor; rewrite ?E1, ?E2, ?E3, ?E4, ?E5; try done.
    - rewrite Hmode. exists p, (delete i rest). split_and!; [done..|]. by apply Forall_delete.
    - left. unfold ai_tasks. by rewrite E6.
    - intros Hph. split; [by apply He|]. intros Ht. by rewrite E2 in Hns3.
  }
  assert (Hns3 : ~ solo h3) by (unfold solo; rewrite E2; congruence).
  apply (ttt_inv_core _ _ (eq_sym (push_core _))). destruct (_ && _); [by apply leave_online|done].
Qed.

Lemma ttt_kick_inv peer h : ttt_inv h -> ttt_inv (snd (kickPlayer peer h)).
Proof.
  intros H. unfold kickPlayer. destruct (_ || _); [done|]. cbn [snd].
  apply (ttt_inv_core (removePlayer peer (emit (Kicked peer) h))); [reflexivity|]. apply ttt_remove_inv. ttt_same_core.
Qed.

(** In a solo game the computer already has its seat. *)
Lemma ensure_ai_solo h : ttt_inv h -> ensureAiPlayer h = h.
Proof.
  intros H. unfold ensureAiPlayer. destruct (negb _) eqn:Hm; [done|]. bool_cases.
  destruct (solo_players h H Hm) as (p & a & Hps & _ & Ha). rewrite Hps. simpl map.
  rewrite bool_decide_eq_true_2; [done|]. rewrite (as_peer _ Ha). right. by left.
Qed.

Lemma idle_tasks h : ttt_inv h -> phase h <> Playing -> ai_tasks h = [].
Proof. intros H Hp. destruct (t_tasks _ H) as [|(? & _)]; done. Qed.

Lemma ttt_start_inv now h : ttt_inv h -> ttt_inv (snd (startGame now h)).
Proof.
  intros H. unfold startGame. destruct (negb _) eqn:Hp; [done|]. bool_cases. rewrite ensure_ai_solo by done. cbv zeta.
  destruct (Nat.ltb _ _); cbn [snd]; [ttt_same_core|].
  assert (Hno : ai_tasks h = []) by (apply idle_tasks; [done|congruence]).
  apply maybe_inv; [|exact Hno]. apply (ttt_inv_core (deal h)); [reflexivity|]. by apply ttt_deal_inv.
Qed.

Lemma ttt_rematch_inv now h : ttt_inv h -> ttt_inv (snd (rematch now h)).
Proof.
  intros H. unfold rematch. destruct (negb _) eqn:Hp; [done|]. bool_cases. cbn [snd].
  assert (Hno : ai_tasks h = []) by (apply idle_tasks; [done|congruence]).
  apply maybe_inv; [|exact Hno]. apply (ttt_inv_core (deal h)); [reflexivity|]. by apply ttt_deal_inv.
Qed.

Lemma ttt_action_inv round now peer action h : ttt_inv h -> peer <> AI_PEER_ID -> ttt_inv (snd (applyAction round now peer action h)).
Proof.
  intros H Hne. unfold applyAction. destruct (is_text _ _); [by apply place_inv|].
  destruct (is_text _ _); [by apply ttt_rematch_inv|done].
Qed.

Lemma ttt_join_inv from name h : ttt_inv h -> from <> AI_PEER_ID -> ttt_inv (handle_join from name h).
Proof.
  intros H Hne. unfold handle_join. destruct (bool_decide _); [ttt_same_core|]. destruct (negb _); [ttt_same_core|]. destruct (_ && _ && _); [ttt_same_core|].
  pose proof (ttt_add_inv from name h H Hne) as Ha. destruct (addPlayer from name h) as [ok h']. cbn [snd] in Ha. by apply (ttt_inv_core h').
Qed.

(** ** Settings *)

(** Between the two steps of a change to a solo game: the computer and guests. *)
Record changing (h : host) : Prop := mk_changing {
  c_self : selfId h <> AI_PEER_ID;
  c_seats : exists p rest a, players h = p :: rest /\ host_seat (selfId h) p /\ ai_seat a /\ List.filter s_ai rest = [a] /\
              Forall (fun q => s_ai q = true \/ guest_seat (selfId h) q) rest;
  c_phase : phase h = Lobby
}.

Lemma filter_nil_all {A} (f : A -> bool) l : List.filter (fun x => negb (f x)) l = [] -> List.filter f l = l.
Proof. induction l as [|x l IH]; simpl; [done|]. destruct (f x); simpl; [|done]. intros H. by rewrite IH. Qed.

Lemma filter_delete {A} (f : A -> bool) l i x : l !! i = Some x -> f x = false -> List.filter f (delete i l) = List.filter f l.
Proof.
  revert i. induction l as [|y l IH]; intros [|i]; simpl; try done; [intros [= ->] ->; done|].
  intros Hi Hf. by rewrite (IH i Hi Hf).
Qed.

(** What a player who leaves the lobby does not touch. *)
Definition frame (h : host) := (selfId h, cfg h, phase h, winnerDisc h, tasks h).

Lemma remove_lobby peer h : phase h = Lobby -> peer <> AI_PEER_ID -> peer <> selfId h -> 0 <= playerIndex peer (players h) ->
  players (removePlayer peer h) = delete (Z.to_nat (playerIndex peer (players h))) (players h) /\ frame (removePlayer peer h) = frame h.
Proof.
  intros Hph H1 H2 H3. unfold removePlayer. rewrite (bool_decide_eq_false_2 _ H1), (bool_decide_eq_false_2 _ H2).
  destruct (Z.ltb_spec (playerIndex peer (players h)) 0); [lia|]. cbn [orb]. cbv zeta.
  set (h1 := if Z.ltb _ (toActIdx h) then h <| toActIdx := toActIdx h - 1 |> else h).
  assert (E1 : players h1 = players h /\ frame h1 = frame h) by (unfold h1; by destruct (Z.ltb _ _)).
  clearbody h1. destruct E1 as [Ep Ef]. rewrite Ep.
  set (h2 := h1 <| players := delete (Z.to_nat (playerIndex peer (players h))) (players h) |>).
  assert (E2 : players h2 = delete (Z.to_nat (playerIndex peer (players h))) (players h) /\ frame h2 = frame h) by done.
  clearbody h2. clear h1 Ep Ef.
  set (h3 := if Z.leb _ _ then h2 <| toActIdx := 0 |> else h2).
  assert (E3 : players h3 = players h2 /\ frame h3 = frame h2) by (unfold h3; by destruct (Z.leb _ _)).
  clearbody h3. destruct E2 as [Ep Ef], E3 as [Ep' Ef']. rewrite Ef in Ef'. rewrite Ep in Ep'. pose proof Ef' as Efr. unfold frame in Efr.
  injection Efr as _ _ E3 _ _. rewrite E3, Hph. by rewrite (bool_decide_eq_false_2 (Lobby = Playing)).
Qed.

Lemma humans_rest self p rest : host_seat self p -> length (humans (p :: rest)) = S (length (humans rest)).
Proof. intros []. unfold humans. cbn [List.filter]. by rewrite hs_ai0. Qed.

Lemma index_found peer ps p : p ∈ ps -> s_peer p = peer -> 0 <= playerIndex peer ps.
Proof.
  intros Hin Hp. induction ps as [|q l IH]; [by apply elem_of_nil in Hin|]. simpl. case_bool_decide; [lia|].
  apply elem_of_cons in Hin as [->|Hin]; [done|]. specialize (IH Hin). destruct (Z.ltb_spec (playerIndex peer l) 0); lia.
Qed.

Lemma humans_delete l i q : l !! i = Some q -> s_ai q = false -> S (length (humans (delete i l))) = length (humans l).
Proof.
  intros Hi Hq. revert i Hi. induction l as [|x l IH]; intros [|i]; simpl; try done; [by intros [= ->]; rewrite Hq|].
  intros Hi. destruct (s_ai x); simpl; by rewrite (IH i).
Qed.

(** While there are two humans one of them is a guest. *)
Lemma find_extra h : changing h -> (2 <= length (humans (players h)))%nat ->
  exists extra, List.find (fun p => negb (s_ai p) && negb (bool_decide (s_peer p = selfId h))) (players h) = Some extra /\
    extra ∈ players h /\ guest_seat (selfId h) extra.
Proof.
  intros [Hself (p & rest & a & Hps & Hp & Ha & Hfil & Hall) Hph] Hgt. rewrite Forall_forall in Hall.
  destruct (List.find _ _) as [extra|] eqn:Hf.
  - exists extra. split; [done|]. apply find_some in Hf as [Hin Hx]. bool_cases. apply list_elem_of_In in Hin. split; [done|].
    rewrite Hps in Hin. apply elem_of_cons in Hin as [->|Hin]; [by destruct Hp|]. destruct (Hall _ Hin); [congruence|done].
  - exfalso. rewrite Hps, (humans_rest _ _ _ Hp) in Hgt. destruct (humans rest) as [|q l] eqn:Hh; [simpl in *; lia|].
    assert (Hq : q ∈ humans rest) by (rewrite Hh; by left). unfold humans in Hq. apply list_elem_of_In, filter_In in Hq as [Hq Hai].
    apply negb_true_iff in Hai. destruct (Hall q ltac:(by apply list_elem_of_In)) as [|[Hqs _ _ _]]; [congruence|].
    apply (find_none _ _) with (x := q) in Hf; [|rewrite Hps; by right]. by rewrite Hai, bool_decide_eq_false_2 in Hf.
Qed.

Lemma drop_one extra h : changing h -> extra ∈ players h -> guest_seat (selfId h) extra ->
  changing (removePlayer (s_peer extra) h) /\ frame (removePlayer (s_peer extra) h) = frame h /\
  S (length (humans (players (removePlayer (s_peer extra) h)))) = length (humans (players h)).
Proof.
  intros [Hself (p & rest & a & Hps & Hp & Ha & Hfil & Hall) Hph] Hin [Hg1 Hg2 _ _].
  pose proof (index_found _ _ _ Hin eq_refl) as Hix. destruct (remove_lobby _ h Hph Hg2 Hg1 Hix) as [Hpl Hfr]. rewrite Hps in Hpl, Hix.
  destruct (guest_index _ _ p rest Hp Hg1 Hix) as (i & Hi & _ & q & Hq & Hqp). rewrite Hi in Hpl.
  change (delete (S i) (p :: rest)) with (p :: delete i rest) in Hpl.
  assert (Hqg : s_ai q = false).
  { destruct (s_ai q) eqn:Hqa; [|done]. exfalso. apply Hg2. rewrite <- Hqp.
    assert (Hqin : q ∈ List.filter s_ai rest) by (apply list_elem_of_In, filter_In; split; [apply list_elem_of_In; by eapply list_elem_of_lookup_2|done]).
    rewrite Hfil in Hqin. apply list_elem_of_singleton in Hqin as ->. apply Ha. }
  split_and!; [|done|].
  - unfold frame in Hfr. injection Hfr as F1 F2 F3 _ _. constructor; rewrite ?F1, ?F3; try done.
    exists p, (delete i rest), a. rewrite (filter_delete _ _ _ q) by done. split_and!; try done. by apply Forall_delete.
  - rewrite Hpl, Hps, !(humans_rest _ _ _ Hp). by rewrite (humans_delete rest i q).
Qed.

(** The loop over the extra humans ends with the host against the computer. *)
Lemma drop_extras_done fuel : forall h, changing h -> (length (humans (players h)) <= S fuel)%nat ->
  seating (selfId h) Solo (players (drop_extras fuel h)) /\ frame (drop_extras fuel h) = frame h.
Proof.
  assert (Hlast : forall h, changing h -> (length (humans (players h)) <= 1)%nat -> seating (selfId h) Solo (players h)).
  { intros h [_ (p & rest & a & Hps & Hp & Ha & Hfil & _) _]. rewrite Hps, (humans_rest _ _ _ Hp). intros Hl.
    assert (Hnil : humans rest = []) by (destruct (humans rest); [done|simpl in *; lia]).
    apply filter_nil_all in Hnil. exists p, rest. split_and!; [done..|]. exists a. split; [congruence|done]. }
  induction fuel as [|fuel IH]; intros h Hc Hn; cbn [drop_extras]; [by split; [apply Hlast|]|].
  destruct (Nat.leb_spec (length (humans (players h))) 1) as [Hle|Hgt]; [by split; [apply Hlast|]|].
  destruct (find_extra h Hc Hgt) as (extra & -> & Hin & Hg). destruct (drop_one extra h Hc Hin Hg) as (Hc' & Hfr & Hlen).
  destruct (IH _ Hc' ltac:(lia)) as [Hs Hf]. unfold frame in Hfr. injection Hfr as F1 F2 F3 F4 F5.
  split; [by rewrite <- F1|]. rewrite Hf. unfold frame. congruence.
Qed.

Lemma lobby_inv h : selfId h <> AI_PEER_ID -> seating (selfId h) (playMode (cfg h)) (players h) -> tasks h = [] \/ ai_tasks h = [] ->
  phase h = Lobby -> winnerDisc h = None -> ttt_inv h.
Proof.
  intros H1 H2 H3 H4 H5. constructor; try done; [|congruence..]. left. destruct H3 as [H3|H3]; [|done]. unfold ai_tasks. by rewrite H3.
Qed.

Lemma lobby_board b h : ttt_inv h -> phase h = Lobby -> ttt_inv (h <| board := b |>).
Proof.
  intros [Ha Hb Hc Hd He Hf] Hp. constructor; try done. change (phase h = Playing -> winnerDisc h = None /\ (hard_table (cfg h) -> kept (h <| board := b |>))).
  congruence.
Qed.

(** The computer joins the guests of a table that was online. *)
Lemma ensure_ai_changing h : selfId h <> AI_PEER_ID -> seating (selfId h) Online (players h) -> phase h = Lobby -> playMode (cfg h) = Solo ->
  changing (ensureAiPlayer h) /\ frame (ensureAiPlayer h) = frame h /\
  (length (humans (players (ensureAiPlayer h))) <= length (players (ensureAiPlayer h)))%nat.
Proof.
  intros Hself (p & rest & Hps & Hp & Hr) Hph Hmode. unfold ensureAiPlayer. rewrite (bool_decide_eq_true_2 _ Hmode). cbn [negb].
  rewrite bool_decide_eq_false_2.
  2:{ rewrite Hps. simpl. rewrite elem_of_cons, (hs_peer _ _ Hp). intros [|Hin]; [by apply Hself|].
      apply list_elem_of_fmap in Hin as (q & Hq & Hin). rewrite Forall_forall in Hr. by destruct (Hr q Hin). }
  rewrite Hps. cbn [length Nat.ltb Nat.leb]. set (a := mk_seat AI_PEER_ID _ _ _ _ _).
  assert (Ha : ai_seat a) by done.
  destruct (sort_first p (rest ++ [a]) (hs_seat _ _ Hp)) as (l & Hl & Hperm).
  { apply Forall_app. split; [|by constructor]. eapply Forall_impl; [exact Hr|]. by intros q []. }
  change ((p :: rest) ++ [a]) with (p :: rest ++ [a]). cbv zeta. rewrite Hl. split_and!; [|done|apply List.filter_length_le].
  constructor; [done| |done]. exists p, l, a. split_and!; try done.
  - assert (Hf : List.filter s_ai (rest ++ [a]) = [a]).
    { rewrite List.filter_app. simpl. clear -Hr. induction Hr as [|q rest Hq _ IH]; [done|]. simpl. by destruct Hq as [_ _ _ ->]. }
    assert (Hpf : List.filter s_ai l ≡ₚ [a]); [|by apply Permutation_singleton_r in Hpf].
    rewrite <- Hf. clear -Hperm. induction Hperm; simpl; repeat match goal with |- context [s_ai ?x] => destruct (s_ai x) end; 
      [done|by constructor|done|by constructor|done..|by etransitivity].
  - rewrite Hperm. apply Forall_app. split; [|constructor; [by left|done]]. eapply Forall_impl; [exact Hr|]. by right.
Qed.

Lemma no_ai_guest self p rest : self <> AI_PEER_ID -> host_seat self p -> Forall (guest_seat self) rest -> playerIndex AI_PEER_ID (p :: rest) < 0.
Proof.
  intros Hself Hp Hr. apply Z.lt_nge. intros Hi. destruct (ttt_index _ _ Hi) as (q & Hq & Hqp).
  unfold seat_at in Hq. destruct (Z.leb_spec 0 (playerIndex AI_PEER_ID (p :: rest))); [|done]. apply list_elem_of_lookup_2 in Hq.
  apply elem_of_cons in Hq as [->|Hq]; [by rewrite (hs_peer _ _ Hp) in Hqp|]. rewrite Forall_forall in Hr. by destruct (Hr q Hq).
Qed.

(** Changing to a solo game and to an online game. *)
Lemma to_solo mode h : selfId h <> AI_PEER_ID -> phase h = Lobby -> playMode (cfg h) = Solo -> seating (selfId h) mode (players h) ->
  let h' := ensureAiPlayer h in
  seating (selfId h) Solo (players (drop_extras (length (players h')) h')) /\ frame (drop_extras (length (players h')) h') = frame h.
Proof.
  intros Hself Hph Hmode Hseats. cbv zeta. destruct mode.
  - destruct Hseats as (p & rest & Hps & Hp & a & -> & Ha).
    assert (Hens : ensureAiPlayer h = h).
    { unfold ensureAiPlayer. rewrite (bool_decide_eq_true_2 _ Hmode), Hps. simpl map.
      rewrite bool_decide_eq_true_2; [done|]. rewrite (as_peer _ Ha). right. by left. }
    rewrite Hens. rewrite Hps. cbn [length drop_extras]. rewrite Hps. unfold humans. cbn [List.filter].
    rewrite (hs_ai _ _ Hp), (as_ai _ Ha). cbn. split; [|done]. exists p, [a]. rewrite Hps. split_and!; [done..|]. by exists a.
  - destruct (ensure_ai_changing h) as (Hc & Hf & Hl); [done..|]. set (h1 := ensureAiPlayer h) in *. clearbody h1.
    destruct (drop_extras_done (length (players h1)) _ Hc ltac:(lia)) as [Hs Hf2].
    rewrite Hf2, Hf. split; [|done]. unfold frame in Hf. injection Hf as F1 _ _ _ _. by rewrite F1 in Hs.
Qed.

Definition without_ai (h : host) : host :=
  let i := playerIndex AI_PEER_ID (players h) in if Z.ltb i 0 then h else h <| players := delete (Z.to_nat i) (players h) |>.

Lemma to_online mode h : selfId h <> AI_PEER_ID -> seating (selfId h) mode (players h) ->
  seating (selfId h) Online (players (without_ai h)) /\ frame (without_ai h) = frame h.
Proof.
  intros Hself Hseats. unfold without_ai. destruct mode.
  - destruct Hseats as (p & rest & Hps & Hp & a & -> & Ha). rewrite Hps. cbn [playerIndex].
    rewrite bool_decide_eq_false_2 by (rewrite (hs_peer _ _ Hp); done). rewrite bool_decide_eq_true_2 by apply Ha.
    split; [|done]. change (seating (selfId h) Online [p]). by exists p, [].
  - pose proof Hseats as (p & rest & Hps & Hp & Hr). pose proof (no_ai_guest _ _ _ Hself Hp Hr) as Hi. rewrite <- Hps in Hi.
    cbv zeta. destruct (Z.ltb_spec (playerIndex AI_PEER_ID (players h)) 0); [|lia]. by split.
Qed.

Lemma ttt_settings_inv patch h : ttt_inv h -> ttt_inv (updateSettings patch h).
Proof.
  intros H. unfold updateSettings. destruct (negb _) eqn:Hph; [ttt_same_core|]. bool_cases.
  pose proof (idle_tasks h H ltac:(congruence)) as Hno. pose proof (t_lobby _ H Hph) as Hw.
  pose proof H as [Hself Hseats _ _ _ _]. cbv zeta. set (h1 := h <| cfg := sanitizeSettings patch (cfg h) |>).
  assert (H1 : frame h1 = (selfId h, cfg h1, phase h, winnerDisc h, tasks h) /\ players h1 = players h) by done. clearbody h1.
  destruct H1 as [F1 Hp1]. fold (without_ai h1). set (h2 := if bool_decide (playMode (cfg h1) = Solo) then _ else _).
  assert (Hh : seating (selfId h) (playMode (cfg h1)) (players h2) /\ frame h2 = frame h1).
  { unfold frame in F1. injection F1 as E1 E3 _ _. rewrite <- E1, <- Hp1 in *. unfold h2. case_bool_decide as Hm.
    - rewrite Hm. apply (to_solo (playMode (cfg h))); congruence.
    - destruct (playMode (cfg h1)); [done|]. by apply (to_online (playMode (cfg h))). }
  clearbody h2. destruct Hh as [Hs Hf]. rewrite F1 in Hf. unfold frame in Hf. injection Hf as G1 G2 G3 G4 G5.
  assert (H2 : ttt_inv h2).
  { apply lobby_inv; rewrite ?G1, ?G2, ?G3, ?G4; try done. right. unfold ai_tasks. by rewrite G5. }
  apply (ttt_inv_core (resetBoard h2)); [reflexivity|]. apply lobby_board; [done|congruence].
Qed.

(** ** Every history *)

Lemma reset_core now h : ttt_core (resetAiModel now h) = ttt_core h.
Proof.
  unfold resetAiModel. cbv zeta. pose proof (ensureModel_core now h) as Hc. set (h1 := ensureModel now h) in *. clearbody h1.
  rewrite <- Hc. pose proof (saveModel_core now (h1 <| aiModel := Some emptyModel |> <| moveHistory := [] |>)) as Hs.
  set (h2 := saveModel _ _) in *. clearbody h2. by transitivity (ttt_core h2).
Qed.

Lemma manage_core now op h : ttt_core (snd (manageAiModels now op h)) = ttt_core h.
Proof.
  unfold manageAiModels. destruct (loadModelStore _ _ _) as [[s ids'] d]. destruct (apply_op _ _ _ _) as [[ok s'] ids''].
  cbv zeta. set (h1 := match op with Create _ => _ | _ => _ end).
  assert (H1 : ttt_core h1 = ttt_core h) by (unfold h1; by destruct op; [destruct ok|..]).
  clearbody h1. destruct ok; cbn [snd]; [|done].
  pose proof (ensureModel_core now (h1 <| disk := saveModelStore s' d |> <| aiModel := None |> <| aiModelRowId := "" |>)) as He.
  set (h2 := ensureModel _ _) in *. clearbody h2. transitivity (ttt_core h2); [done|]. by rewrite He.
Qed.

(** Nobody speaks with the id of the computer. *)
Definition honest (e : event) : Prop :=
  match e with Wire from _ => from <> AI_PEER_ID | Act peer _ => peer <> AI_PEER_ID | _ => True end.

Lemma ttt_step_inv round now e h : ttt_inv h -> honest e -> ttt_inv (step round now e h).
Proof.
  intros H Hok. destruct e as [from body|peer action| | |peer|peer|patch|peer reachable| | |op|]; cbn [step honest] in *.
  - unfold onWire. destruct (_ && _); [by apply ttt_join_inv|]. destruct (is_text _ _); [by apply ttt_remove_inv|].
    destruct (_ && _); [by apply ttt_action_inv|done].
  - by apply ttt_action_inv.
  - by apply ttt_start_inv.
  - by apply ttt_rematch_inv.
  - by apply ttt_remove_inv.
  - by apply ttt_kick_inv.
  - by apply ttt_settings_inv.
  - unfold invitePeer. destruct (bool_decide _); [done|]. destruct (_ || _); [done|]. cbn [snd]. ttt_same_core.
  - unfold saveNow. destruct (bool_decide _); cbn [snd]; ttt_same_core.
  - apply (ttt_inv_core h); [by rewrite reset_core|done].
  - apply (ttt_inv_core h); [by rewrite manage_core|done].
  - by apply task_inv.
Qed.

Lemma maxPlayers_pos input fb : 2 <= maxPlayers (sanitizeSettings input fb).
Proof. unfold sanitizeSettings. cbv zeta. cbn [maxPlayers]. destruct (_ || _); lia. Qed.

Lemma bootstrap_ttt self id input disk ids draws name : self <> AI_PEER_ID ->
  ttt_inv (bootstrapHost name (newHost self id input disk ids draws)).
Proof.
  intros Hself. unfold bootstrapHost. set (h := newHost self id input disk ids draws).
  change (selfId h) with self. set (nm := Some (JStr _)).
  pose proof (maxPlayers_pos input defaultSettings) as Hmax. fold (cfg h) in Hmax. change (sanitizeSettings input defaultSettings) with (cfg h) in Hmax.
  assert (Hh : selfId h = self /\ players h = [] /\ phase h = Lobby /\ winnerDisc h = None /\ tasks h = []) by done.
  clearbody h nm. destruct Hh as (E1 & E2 & E3 & E4 & E5).
  set (p := mk_seat self (name_or nm self) 0 (0 + 1) false true).
  assert (Hadd : ttt_core (snd (addPlayer self nm h)) = ttt_core (h <| players := [p] |>)).
  { unfold addPlayer. rewrite E1, (bool_decide_eq_true_2 (self = self)), andb_false_r, E2 by done.
    rewrite (bool_decide_eq_false_2 (self ∈ map s_peer [])) by apply not_elem_of_nil. unfold humans. cbn [List.filter length].
    destruct (Z.leb_spec (maxPlayers (cfg h)) (Z.of_nat 0)); [lia|]. unfold findSeat. rewrite E2. cbn [map].
    rewrite seqZ_cons by lia. cbn [List.find]. by rewrite bool_decide_eq_false_2 by apply not_elem_of_nil. }
  set (h1 := snd (addPlayer self nm h)) in *. clearbody h1. unfold ttt_core in Hadd. cbn in Hadd. injection Hadd as F1 F2 F3 F4 F5 F6 F7 F8.
  apply (ttt_inv_core (ensureAiPlayer h1)); [reflexivity|].
  assert (Hfr : frame (ensureAiPlayer h1) = frame h1) by (unfold ensureAiPlayer; destruct (negb _); [done|]; by destruct (bool_decide _)).
  assert (Hs : seating self (playMode (cfg h1)) (players (ensureAiPlayer h1))).
  { unfold ensureAiPlayer. destruct (playMode (cfg h1)); cbn [negb]; [|rewrite bool_decide_eq_false_2 by done; cbn [negb]; rewrite F3; by exists p, []].
    rewrite bool_decide_eq_true_2 by done. cbn [negb]. rewrite F3. cbn [map]. rewrite bool_decide_eq_false_2.
    - cbn. eexists p, _. split; [done|]. split; [done|]. by eexists.
    - rewrite list_elem_of_singleton. intros E. by apply Hself. }
  set (h2 := ensureAiPlayer h1) in *. clearbody h2. unfold frame in Hfr. injection Hfr as G1 G2 G3 G4 G5.
  apply lobby_inv; [congruence| |left; congruence|congruence|congruence]. rewrite G1, G2, F1, E1. exact Hs.
Qed.

Lemma run_ttt round es : forall h, ttt_inv h -> Forall (fun te => honest te.2) es -> ttt_inv (run round es h).
Proof.
  induction es as [|[now e] es IH]; intros h H Hes; [done|]. apply Forall_cons in Hes as [He Hes]. cbn [run fold_left fst snd].
  apply IH; [by apply ttt_step_inv|done].
Qed.

(** C22: the hard opponent behind the host is unbeaten: whatever the human plays and whatever
    others send, start, restart or change, in any order of the events and of the computer's
    queued moves, a solo table on the classic board at the hard level seats the human (disc 1)
    against the computer (disc 2) and is never won by the human. *)
Theorem solo_hard_unbeaten round self id input disk ids draws name es :
  self <> AI_PEER_ID -> Forall (fun te => honest te.2) es ->
  let h := run round es (bootstrapHost name (newHost self id input disk ids draws)) in
  hard_table (cfg h) ->
  (exists p a, players h = [p; a] /\ s_peer p = selfId h /\ s_disc p = 1 /\ s_peer a = AI_PEER_ID /\ s_disc a = 2) /\ winnerDisc h <> Some 1.
Proof.
  intros Hself Hes h Ht. assert (H : ttt_inv h) by (apply run_ttt; [by apply bootstrap_ttt|done]). clearbody h.
  destruct (solo_players h H ltac:(by destruct Ht)) as (p & a & Hps & [] & []). split; [by exists p, a; split_and!|].
  destruct (phase h) eqn:Hph.
  - by rewrite (t_lobby _ H Hph).
  - destruct (t_playing _ H Hph) as [-> _]. done.
  - by apply (t_finished _ H Hph).
Qed.

(** A game in which the human leaves a line open, and loses. *)
Definition lost_game : list (Z * event) :=
  let move r c := (0, Act "me" (Some (JObj [("type", JStr "place"); ("row", JNum r); ("col", JNum c)]))) in
  [(0, Settings [("aiDifficulty", JStr "hard")]); (0, Start); move 0 1; (0, Microtask); move 2 1; (0, Microtask); move 1 0; (0, Microtask);
   move 2 2; (0, Microtask)].

Lemma solo_hard_unbeaten_witness :
  winnerDisc (run (fun q => q) lost_game (bootstrapHost "" (newHost "me" "g" [] (mk_storage None None) [] []))) <> Some 1.
Proof.
  eapply (solo_hard_unbeaten (fun q => q) "me" "g" [] (mk_storage None None) [] [] "" lost_game).
  - done.
  - apply Forall_forall. intros te Hte. repeat (apply elem_of_cons in Hte as [->|Hte]; [done|]). by apply elem_of_nil in Hte.
  - vm_compute. done.
Defined.
