(* ===== verification/ChatFeatures.v ===== *)
(** * Features of chats ([src/shared/chat-features.js, chat-typing.js],
    [renderer/app/messageReactions.js])

    What both sides of a chat compute from messages: which messages may be edited and how an
    edit that arrives is judged, reactions, mentions, search, drafts and pins.  A message is an
    object; lists may hold anything JSON can.  [now] is [Date.now()]. *)

From stdpp Require Import pretty.
From S2P Require Import Prelude Json.

Definition MESSAGE_EDIT_KIND : string := "message-edit".
Definition MESSAGE_EDIT_WINDOW_MS : Z := 24 * 60 * 60 * 1000.
Definition PEER_FEATURE_MESSAGE_EDIT : string := "message-edit".

Definition OWN_PEER_FEATURES : list string := ["message-edit"; "mentions"; "pins"; "video-call"].

(** ** Features of a peer *)

Fixpoint known_features (items : list json) (out : list string) : list string :=
  match items with
  | [] => out
  | item :: rest =>
      let id := trim (string_or_empty (Some item)) in
      if negb (includes OWN_PEER_FEATURES id) || includes out id then known_features rest out
      else known_features rest (out ++ [id])
  end.

Definition normalizePeerFeatures (v : option json) : list string :=
  match as_array v with Some items => known_features items [] | None => [] end.

Definition contactHasPeerFeature (contact : option fields) (feature : string) : bool :=
  includes (normalizePeerFeatures (match contact with Some c => get c "features" | None => None end)) feature.

(** [new Map(rows)]: the last contact with the id. *)
Definition contact_of (contacts : list fields) (id : string) : option fields :=
  List.find (fun c => truthy (get c "id") && bool_decide (get c "id" = Some (JStr id))) (rev contacts).

Definition selectFeatureCapablePeerIds (peerIds : list string) (contacts : list fields) (feature : string) : list string :=
  List.filter (fun id => contactHasPeerFeature (contact_of contacts id) feature) peerIds.

Definition legacyEditNotice (displayName : string) : string :=
  let name := trim displayName in
  (if bool_decide (name = "") then "Dieser Kontakt" else name) +:+ " nutzt eine ältere BlueTalk-Version — die Änderung sieht nur du".

Definition isStoreableChatKind (kind : option json) : bool :=
  existsb (fun k => bool_decide (kind = Some (JStr k))) ["chat"; "file"; "sticker"; "contact-share"].

(** ** Editing *)

Definition is_chat (message : fields) : bool := bool_decide (get message "kind" = Some (JStr "chat")).
Definition from_self (message : fields) : bool := bool_decide (get message "from" = Some (JStr "self")).

Definition canEditOwnTextMessage (message : option fields) (now : Z) (own : bool) : bool :=
  match message with
  | None => false
  | Some m =>
      is_chat m && own && truthy (get m "messageId") &&
      match to_number (get m "timestamp") with
      | Some ts => Z.ltb 0 ts && Z.leb (now - ts) MESSAGE_EDIT_WINDOW_MS
      | None => false
      end
  end.

Definition findLastEditableOwnMessage (messages : list fields) (now : Z) : option fields :=
  List.find (fun m => canEditOwnTextMessage (Some m) now (from_self m)) (rev messages).

Definition MAX_EDIT_CHARS : nat := Z.to_nat 131072.

(** A payload that passed: the id it refers to, the text and the time. *)
Record edit := mk_edit { e_ref : string; e_content : string; e_at : Z }.

Definition validateMessageEditPayload (payload : fields) : res edit :=
  if negb (bool_decide (get payload "kind" = Some (JStr MESSAGE_EDIT_KIND))) then Err "invalid_kind"
  else
    let refMessageId := trim (string_or_empty (get payload "refMessageId")) in
    if bool_decide (refMessageId = "") then Err "missing_ref"
    else match get payload "content" with
         | Some (JStr content) =>
             if bool_decide (trim content = "") then Err "empty"
             else if Nat.ltb MAX_EDIT_CHARS (String.length content) then Err "too_long"
             else match to_number (get payload "editedAt") with
                  | Some editedAt => if Z.leb editedAt 0 then Err "invalid_edited_at" else Ok (mk_edit refMessageId content editedAt)
                  | None => Err "invalid_edited_at"
                  end
         | _ => Err "invalid_content"
         end.

(** The changes an edit makes to a message. *)
Definition edit_patch (e : edit) : fields :=
  [("content", JStr (e_content e)); ("editedAt", JNum (e_at e)); ("edited", JBool true)].

(** What comes of an edit: it is passed over or the message changes. *)
Inductive applied := Skipped (ref : string) | Changed (e : edit).

(** Five minutes that clocks may differ. *)
Definition CLOCK_TOLERANCE : Z := 5 * 60 * 1000.

Definition too_new (now : Z) (e : edit) : bool := Z.ltb (now + CLOCK_TOLERANCE) (e_at e).

(** The judgement on an existing message. *)
Definition judge_edit (m : fields) (now : Z) (e : edit) : res applied :=
  if negb (is_chat m) then Err "not_text"
  else match to_number (get m "timestamp") with
       | None => Err "no_timestamp"
       | Some ts =>
           if Z.leb ts 0 then Err "no_timestamp"
           else if Z.ltb MESSAGE_EDIT_WINDOW_MS (e_at e - ts) then Err "window_expired"
           else
             let stale := match to_number (get m "editedAt") with Some prev => Z.ltb 0 prev && Z.leb (e_at e) prev | None => false end in
             if stale then Ok (Skipped (e_ref e)) else if too_new now e then Err "edited_in_future" else Ok (Changed e)
       end.

Definition applyInboundMessageEdit (existing : option fields) (payload : fields) (now : Z) (editorIsOriginalSender : bool) : res applied :=
  let? e := validateMessageEditPayload payload in
  if negb editorIsOriginalSender then Err "sender_mismatch"
  else match existing with
       | Some m => judge_edit m now e
       | None => if too_new now e then Err "edited_in_future" else Ok (Changed e)
       end.

Definition buildMessageEditInner (refMessageId content : string) (editedAt : Z) (sender messageId : string) : fields :=
  [("kind", JStr MESSAGE_EDIT_KIND); ("refMessageId", JStr refMessageId); ("content", JStr content); ("editedAt", JNum editedAt);
   ("sender", JStr sender); ("messageId", JStr messageId); ("timestamp", JNum editedAt)].

(** ** Reactions ([messageReactions.js]) *)

Definition REACTION_EMOJIS : list string := ["👍"; "❤️"; "😂"; "😮"; "😢"; "🔥"; "👏"; "🎉"].

Definition isAllowedReactionEmoji (emoji : string) : bool := includes REACTION_EMOJIS emoji.

Definition reactorHasEmoji (reactions : fields) (reactorId emoji : string) : bool :=
  match as_array (get reactions emoji) with Some ids => bool_decide (JStr reactorId ∈ ids) | None => false end.

(** The ids of an emoji without the reactor; [None] when nobody is left. *)
Definition others (reactorId : string) (kv : string * json) : option (string * json) :=
  match kv.2 with
  | JArr ids =>
      if isAllowedReactionEmoji kv.1 then
        match List.filter (fun id => truthy (Some id) && negb (bool_decide (id = JStr reactorId))) ids with
        | [] => None
        | l => Some (kv.1, JArr l)
        end
      else None
  | _ => None
  end.

Definition setReactorEmoji (reactions : fields) (emoji reactorId : string) (active : bool) : fields :=
  let next := omap (M := list) (others reactorId) reactions in
  if active && isAllowedReactionEmoji emoji && negb (bool_decide (reactorId = ""))
  then set next emoji (JArr (default [] (as_array (get next emoji)) ++ [JStr reactorId]))
  else next.

Definition reactionEntries (reactions : fields) : list (string * list json) :=
  omap (M := list) (fun emoji =>
    match List.filter (fun id => truthy (Some id)) (default [] (as_array (get reactions emoji))) with
    | [] => None
    | ids => Some (emoji, ids)
    end) REACTION_EMOJIS.

(** ** Mentions *)

Definition opens_word (c : ascii) : bool := is_js_space c || includes ["("; "["; "{"]%char c.
Definition closes_word (c : ascii) : bool := is_js_space c || includes ["."; ","; "!"; "?"; ";"; ":"; ")"; "]"; "}"]%char c.

(** The end of the text, read backwards: the query and what stands before its [@]. *)
Fixpoint query_before (backwards : list ascii) (query : string) : option (string * list ascii) :=
  match backwards with
  | [] => None
  | c :: rest =>
      if bool_decide (c = "@"%char) then Some (query, rest)
      else if is_js_space c then None else query_before rest (String c query)
  end.

(** The query at the cursor with its start and end. *)
Definition getMentionQueryAtCursor (text : string) (cursor : Z) : option (string * Z * Z) :=
  let pos := Z.max 0 (Z.min cursor (Z.of_nat (String.length text))) in
  let before := str_take (Z.to_nat pos) text in
  match query_before (rev (String.list_ascii_of_string before)) "" with
  | Some (query, rest) =>
      if match rest with [] => true | c :: _ => opens_word c end
      then Some (query, pos - Z.of_nat (String.length query) - 1, pos) else None
  | None => None
  end.

(** [haystack.includes(needle)]. *)
Definition str_includes (needle haystack : string) : bool :=
  match String.index 0 needle haystack with Some _ => true | None => false end.

Definition member_peer (m : json) : string := string_or_empty (prop (Some m) "peerId").

Definition member_name (m : json) : string :=
  string_or_empty (if truthy (prop (Some m) "displayName") then prop (Some m) "displayName" else prop (Some m) "name").

Definition filterMentionMembers (members : list json) (query ownPeerId : string) : list json :=
  let q := lower (trim query) in
  List.filter (fun m =>
    negb (bool_decide (member_peer m = "")) && negb (bool_decide (member_peer m = ownPeerId)) &&
    negb (bool_decide (prop (Some m) "state" = Some (JStr "left"))) && negb (bool_decide (prop (Some m) "state" = Some (JStr "removed"))) &&
    (bool_decide (q = "") || str_includes q (lower (member_name m)) || str_includes q (lower (member_peer m)))) members.

(** [text[i]]. *)
Definition char_at (text : string) (i : nat) : option ascii := String.get i text.

Definition mentionBoundaryOk (text : string) (index tokenLength : nat) : bool :=
  (Nat.eqb index 0 || match char_at text (index - 1) with Some c => opens_word c | None => false end) &&
  match char_at text (index + tokenLength) with Some c => closes_word c | None => true end.

Record mention := mk_mention { mn_peer : string; mn_name : string; mn_index : nat }.

(** The longest names first. *)
Fixpoint insert_name (m : string * string) (l : list (string * string)) : list (string * string) :=
  match l with
  | [] => [m]
  | x :: rest => if Nat.ltb (String.length x.2) (String.length m.2) then m :: l else x :: insert_name m rest
  end.

Definition mention_names (members : list json) : list (string * string) :=
  fold_left (fun acc m => insert_name m acc)
    (List.filter (fun m => negb (bool_decide (m.1 = "")) && negb (bool_decide (m.2 = "")))
       (map (fun m => (member_peer m, trim (member_name m))) members)) [].

(** The first place of the token, from [idx] on, that stands as a word; the search goes on
    behind each place. *)
Fixpoint find_mention (fuel : nat) (text token : string) (idx : nat) : option nat :=
  match fuel with
  | O => None
  | S fuel =>
      if Nat.leb (String.length text) idx then None
      else match String.index idx token text with
           | None => None
           | Some at_ => if mentionBoundaryOk text at_ (String.length token) then Some at_
                         else find_mention fuel text token (at_ + String.length token)
           end
  end.

Fixpoint parse_names (text : string) (names : list (string * string)) (seen : list string) : list mention :=
  match names with
  | [] => []
  | (peer, name) :: rest =>
      match (if includes seen peer then None else find_mention (S (String.length text)) text ("@" +:+ name) 0) with
      | Some at_ => mk_mention peer name at_ :: parse_names text rest (peer :: seen)
      | None => parse_names text rest seen
      end
  end.

Definition parseMentions (text : string) (members : list json) : list mention := parse_names text (mention_names members) [].

Definition applyMentionReplacement (text : string) (start stop : Z) (name : string) : string * Z :=
  let from := Z.max 0 start in
  let to := Z.max from stop in
  let insertion := "@" +:+ name +:+ " " in
  (str_take (Z.to_nat from) text +:+ insertion +:+ str_drop (Z.to_nat to) text, from + Z.of_nat (String.length insertion)).

Definition messageMentionsPeer (text : string) (members : list json) (peerId : string) : bool :=
  negb (bool_decide (peerId = "")) && existsb (fun m => bool_decide (mn_peer m = peerId)) (parseMentions text members).

Definition collectMentionPeerIds (text : string) (members : list json) (extraIds : list string) : list string :=
  fold_left (fun ids id => if includes ids id then ids else ids ++ [id])
    (List.filter (fun id => negb (bool_decide (id = ""))) extraIds ++ map mn_peer (parseMentions text members)) [].

Example mention_at_cursor : getMentionQueryAtCursor "hallo @an" 9 = Some ("an"%string, 6, 9).
Proof. reflexivity. Qed.

(** [encodeURIComponent] of characters up to 255, which are one or two bytes of UTF-8. *)
Definition hex_digit (n : nat) : string := default "" (["0"; "1"; "2"; "3"; "4"; "5"; "6"; "7"; "8"; "9"; "A"; "B"; "C"; "D"; "E"; "F"] !! n).
Definition percent (n : nat) : string := "%" +:+ hex_digit (n / 16) +:+ hex_digit (n mod 16).

Definition unreserved (c : ascii) : bool :=
  let n := Ascii.nat_of_ascii c in
  (Nat.leb 65 n && Nat.leb n 90) || (Nat.leb 97 n && Nat.leb n 122) || (Nat.leb 48 n && Nat.leb n 57)
  || includes ["-"; "_"; "."; "!"; "~"; "*"; "'"; "("; ")"]%char c.

Fixpoint encodeURIComponent (s : string) : string :=
  match s with
  | EmptyString => ""
  | String c rest =>
      let n := Ascii.nat_of_ascii c in
      (if unreserved c then String c "" else if Nat.ltb n 128 then percent n else percent (192 + n / 64) +:+ percent (128 + n mod 64))
      +:+ encodeURIComponent rest
  end.

(** The last mention first. *)
Fixpoint insert_mention (m : mention) (l : list mention) : list mention :=
  match l with
  | [] => [m]
  | x :: rest => if Nat.ltb (mn_index x) (mn_index m) then m :: l else x :: insert_mention m rest
  end.

Definition wrap_mention (text : string) (m : mention) : string :=
  str_take (mn_index m) text +:+ "[@" +:+ mn_name m +:+ "](mention://" +:+ encodeURIComponent (mn_peer m) +:+ ")"
  +:+ str_drop (mn_index m + String.length ("@" +:+ mn_name m)) text.

Definition wrapMentionTokensForMarkdown (text : string) (members : list json) : string :=
  fold_left wrap_mention (fold_left (fun acc m => insert_mention m acc) (parseMentions text members) []) text.

(** ** Search *)

Definition normalizeSearchQuery (query : string) : string := lower (trim query).

Definition newline : string := String (Ascii.ascii_of_nat 10) "".

Definition messageSearchHaystack (message : fields) : string :=
  let parts := [get message "content"; get message "fileName"; get message "sender";
                prop (get message "replyTo") "preview"; prop (get message "sharedContact") "displayName"] in
  lower (join newline (map string_or_empty (List.filter truthy parts))).

(** Ids and places of the messages that match. *)
Definition findSearchHits (messages : list fields) (query : string) : list (json * nat) :=
  let q := normalizeSearchQuery query in
  if bool_decide (q = "") then []
  else omap (M := list) (fun im : nat * fields =>
    match get im.2 "messageId" with
    | Some id => if truthy (Some id) && str_includes q (messageSearchHaystack im.2) then Some (id, im.1) else None
    | None => None
    end) (imap (fun i m => (i, m)) messages).

Definition stepSearchHit (count : Z) (currentIndex : option Z) (direction : Z) : Z :=
  if Z.eqb count 0 then -1
  else
    let dir := if Z.ltb direction 0 then -1 else 1 in
    match currentIndex with
    | None => if Z.ltb 0 dir then 0 else count - 1
    | Some current =>
        if Z.ltb current 0 then (if Z.ltb 0 dir then 0 else count - 1)
        else
          let next := current + dir in
          if Z.ltb next 0 then count - 1 else if Z.leb count next then 0 else next
    end.

(** ** Drafts *)

Record draft := mk_draft { d_text : string; d_updatedAt : Z }.

Definition read_draft (value : json) : option draft :=
  let text := match value with JStr s => s | _ => match prop (Some value) "text" with Some (JStr s) => s | _ => "" end end in
  if bool_decide (trim text = "") then None
  else Some (mk_draft text (match value with JObj _ => default 0 (to_number (prop (Some value) "updatedAt")) | _ => 0 end)).

Definition normalizeDraftMap (stored : option json) : list (string * draft) :=
  match as_object stored with
  | None => []
  | Some f => omap (M := list) (fun kv : string * json =>
      if bool_decide (kv.1 = "") then None else option_map (pair kv.1) (read_draft kv.2)) f
  end.

Definition setDraftInMap (drafts : list (string * draft)) (peerId text : string) (now : Z) : list (string * draft) :=
  if bool_decide (peerId = "") then drafts
  else if bool_decide (trim text = "") then del drafts peerId
  else set drafts peerId (mk_draft text now).

Definition getDraftText (drafts : list (string * draft)) (peerId : string) : string :=
  match get drafts peerId with Some d => d_text d | None => "" end.

(** [replace(/\s+/g, ' ')]. *)
Fixpoint squeeze (s : string) (space : bool) : string :=
  match s with
  | EmptyString => ""
  | String c rest => if is_js_space c then (if space then squeeze rest true else String " " (squeeze rest true)) else String c (squeeze rest false)
  end.

Definition formatDraftPreview (text : string) (max : nat) : string :=
  let body := trim (squeeze text false) in
  if bool_decide (body = "") then ""
  else "Entwurf: " +:+ (if Nat.ltb max (String.length body) then str_take (Nat.max 1 (max - 1)) body +:+ "…" else body).

(** ** Unread and pinned messages *)

Fixpoint first_index {A} (f : A -> bool) (l : list A) : Z :=
  match l with
  | [] => -1
  | x :: rest => if f x then 0 else let i := first_index f rest in if Z.ltb i 0 then -1 else i + 1
  end.

Definition firstUnreadIndex (messages : list fields) (lastViewedTs : option json) : Z :=
  let bound := match lastViewedTs with Some (JNum n) => n | _ => 0 end in
  first_index (fun m => negb (from_self m) && match get m "timestamp" with Some (JNum ts) => Z.ltb bound ts | _ => false end) messages.

Definition pinned_at (m : fields) : Z := default 0 (to_number (get m "pinnedAt")).

Fixpoint insert_pinned (m : fields) (l : list fields) : list fields :=
  match l with
  | [] => [m]
  | x :: rest => if Z.ltb (pinned_at m) (pinned_at x) then m :: l else x :: insert_pinned m rest
  end.

Definition collectPinnedMessages (messages : list fields) : list fields :=
  fold_left (fun acc m => insert_pinned m acc)
    (List.filter (fun m => bool_decide (get m "pinned" = Some (JBool true)) && truthy (get m "messageId")) messages) [].

Definition nextPinnedIndex (length : Z) (current : option Z) (direction : Z) : Z :=
  if Z.leb length 0 then 0
  else Z.rem (default 0 current + (if Z.ltb direction 0 then -1 else 1) + length) length.

(** ** Typing ([chat-typing.js]) *)

Definition TYPING_EXPIRE_MS : Z := 4000.

Definition typingExpiresAt (message : fields) (now : Z) : Z :=
  if bool_decide (get message "active" = Some (JBool false)) then 0
  else (match get message "timestamp" with Some (JNum t) => t | _ => now end) + TYPING_EXPIRE_MS.

Definition isTypingActive (expiresAt now : Z) : bool := Z.ltb now expiresAt.

Example mentions_wrapped :
  wrapMentionTokensForMarkdown "hi @Ana Lee, @Bo" [JObj [("peerId", JStr "b/1"); ("name", JStr "Bo")]; JObj [("peerId", JStr "a"); ("displayName", JStr "Ana Lee")]]
  = "hi [@Ana Lee](mention://a), [@Bo](mention://b%2F1)".
Proof. vm_compute. reflexivity. Qed.
