(* ===== verification/ChatEdits.v ===== *)
(** * Edits of sent messages ([renderer/app/applyInboundChatEdit.js, sendMessageEdit.js],
    [messageReactions.js, hooks/useChatData.js], [webBridge/idbStore.js])

    A device keeps the messages of a chat twice: in the list that is shown (the cache, which may
    hold only the last ones) and in the rows of the store.  An edit names a message by its id;
    it is judged on the message found in the cache or among the last rows, and then written to
    both and to the preview of the chat.  The sender of an edit applies it to its own copy
    first and sends it to the peer, or to the members of the group whose client knows edits.
    [chat_step] is what happens to the messages of a device otherwise: they arrive, are sent,
    reacted to, loaded and deleted. *)

From S2P Require Import Prelude Json Sync GroupChat ChatFeatures.

Record chats := mk_chats {
  ch_cache : gmap string (list fields);
  ch_rows : list Sync.row;
  ch_last : gmap string fields
}.

#[export] Instance rebuild_chats : Rebuild chats := fun s => mk_chats (ch_cache s) (ch_rows s) (ch_last s).

(** [validatePeerId] and [validateMessageId] accept the trimmed text. *)
Definition valid_id (s : string) : bool :=
  let t := trim s in
  negb (bool_decide (t = "")) && Nat.leb (String.length t) 192 &&
  string_forallb (fun c => negb (includes [0; 10; 13]%nat (Ascii.nat_of_ascii c))) t.

(** ** Looking for a message *)

Definition has_id (id : string) (m : fields) : bool := bool_decide (get m "messageId" = Some (JStr id)).

Definition cached (s : chats) (chatId : string) : list fields := default [] (ch_cache s !! chatId).

Definition findCachedMessage (s : chats) (chatId messageId : string) : option fields :=
  if bool_decide (chatId = "") || bool_decide (messageId = "") then None else List.find (has_id messageId) (cached s chatId).

(** The values of the rows of a chat. *)
Definition chat_rows (rows : list Sync.row) (chatId : string) : list fields :=
  map row_value (List.filter (fun r => bool_decide (row_peer r = chatId)) rows).

Definition getBatch (rows : list Sync.row) (peerId : string) (skip limit : nat) : list fields :=
  let l := chat_rows rows (trim peerId) in
  let stop := (length l - skip)%nat in
  let start := (stop - Nat.max 1 (Nat.min 100 limit))%nat in
  take (stop - start) (drop start l).

Definition findMessageForReaction (s : chats) (chatId messageId : string) : option fields :=
  match findCachedMessage s chatId messageId with
  | Some m => Some m
  | None => if bool_decide (chatId = "") || bool_decide (messageId = "") || negb (valid_id chatId) then None
            else List.find (has_id messageId) (getBatch (ch_rows s) chatId 0 80)
  end.

(** ** Writing a change *)

(** [{ ...message, ...patch }]. *)
Definition spread_patch (m p : fields) : fields := fold_left (fun m kv => set m kv.1 kv.2) p m.

Fixpoint patch_first (messageId : string) (p : fields) (l : list fields) : list fields :=
  match l with
  | [] => []
  | m :: rest => if has_id messageId m then spread_patch m p :: rest else m :: patch_first messageId p rest
  end.

(** The update of the shown list. *)
Definition patch_cache (chatId messageId : string) (p : fields) (s : chats) : chats :=
  match ch_cache s !! chatId with
  | Some l => s <| ch_cache := <[chatId := patch_first messageId p l]> (ch_cache s) |>
  | None => s
  end.

Definition applyMessagePatch (chatId messageId : string) (p : fields) (s : chats) : res chats :=
  if bool_decide (chatId = "") || bool_decide (messageId = "") then Ok s
  else if negb (valid_id chatId) then Err "invalid peer or conversation id"
  else if negb (valid_id messageId) then Err "invalid message id"
  else Ok (patch_cache chatId messageId p (s <| ch_rows := Sync.patch (ch_rows s) (trim chatId) (trim messageId) p |>)).

Definition patchChatMetaLastMessage (chatId messageId : string) (p : fields) (s : chats) : chats :=
  match ch_last s !! chatId with
  | Some m => if has_id messageId m then s <| ch_last := <[chatId := spread_patch m p]> (ch_last s) |> else s
  | None => s
  end.

(** The three places an edit is written to. *)
Definition write_edit (chatId : string) (e : edit) (s : chats) : res chats :=
  let p := edit_patch e in
  let? s := applyMessagePatch chatId (e_ref e) p s in
  Ok (patch_cache chatId (e_ref e) p (patchChatMetaLastMessage chatId (e_ref e) p s)).

(** ** An edit arrives *)

Definition is_from (v : option json) (id : string) : bool := bool_decide (v = Some (JStr id)).

Definition editorOwnsOriginal (existing : option fields) (fromId : string) (isGroup : bool) : bool :=
  match existing with
  | None => false
  | Some m =>
      if bool_decide (fromId = "") || from_self m then false
      else if isGroup then is_from (get m "senderPeerId") fromId || is_from (get m "from") fromId
      else is_from (get m "from") fromId
  end.

(** The message an edit is judged on. *)
Definition find_original (s : chats) (chatId messageId : string) : option fields :=
  match List.find (has_id messageId) (cached s chatId) with
  | Some m => Some m
  | None => findMessageForReaction s chatId messageId
  end.

(** The answer ([Err] when the promise rejects) and the messages after it. *)
Definition applyInboundChatEdit (now : Z) (chatId fromId : string) (payload : fields) (isGroup : bool) (s : chats) : res bool * chats :=
  match applyInboundMessageEdit None payload now true with
  | Ok (Changed v) =>
      match find_original s chatId (e_ref v) with
      | None => (Ok false, s)
      | Some m =>
          match applyInboundMessageEdit (Some m) payload now (editorOwnsOriginal (Some m) fromId isGroup) with
          | Err _ => (Ok false, s)
          | Ok (Skipped _) => (Ok true, s)
          | Ok (Changed e) => match write_edit chatId e s with Ok s => (Ok true, s) | Err x => (Err x, s) end
          end
      end
  | _ => (Ok false, s)
  end.

(** A reaction of a peer ([peerMessageHandler.js]). *)
Definition applyInboundReaction (chatId fromId : string) (payload : fields) (s : chats) : res chats :=
  match get payload "emoji", get payload "refMessageId" with
  | Some (JStr emoji), Some (JStr ref) =>
      if negb (isAllowedReactionEmoji emoji) || bool_decide (ref = "") then Ok s
      else match findMessageForReaction s chatId ref with
           | None => Ok s
           | Some m =>
               let on := negb (bool_decide (get payload "active" = Some (JBool false))) in
               let reactions := setReactorEmoji (default [] (as_object (get m "reactions"))) emoji fromId on in
               applyMessagePatch chatId ref [("reactions", JObj reactions)] s
           end
  | _, _ => Ok s
  end.

(** ** An edit is sent *)

Definition contactLabel (contacts : list fields) (peerId fallback : string) : string :=
  let c := List.find (fun c => is_from (get c "id") peerId) contacts in
  let name k := match c with Some c => string_or_empty (get c k) | None => "" end in
  if negb (bool_decide (name "nickname" = "")) then name "nickname"
  else if negb (bool_decide (name "name" = "")) then name "name"
  else if negb (bool_decide (fallback = "")) then fallback else peerId.

Record edit_result := mk_result { er_ok : bool; er_error : string; er_localOnly : bool; er_hint : string }.

Definition refused (error : string) : edit_result := mk_result false error false "".

(** A packet to one recipient. *)
Inductive packet := ToMember (recipient : string) (envelope : fields) | ToPeer (recipient : string) (inner : fields).

Definition group_envelope (g : group) (self displayName messageId : string) (e : edit) : fields :=
  [("kind", JStr "group-message-v1"); ("protocolVersion", JNum 1); ("groupId", JStr (g_id g)); ("groupRevision", JNum (g_revision g));
   ("messageId", JStr messageId); ("senderPeerId", JStr self); ("sender", JStr displayName); ("timestamp", JNum (e_at e));
   ("payload", JObj [("kind", JStr MESSAGE_EDIT_KIND); ("refMessageId", JStr (e_ref e)); ("content", JStr (e_content e)); ("editedAt", JNum (e_at e))])].

Definition group_hint (g : group) (contacts : list fields) (skipped : list string) : string :=
  match skipped with
  | [] => ""
  | [id] => legacyEditNotice (match getGroupMember g id with
                              | Some m => if bool_decide (gm_name m = "") then contactLabel contacts id "" else gm_name m
                              | None => contactLabel contacts id ""
                              end)
  | _ => "Einige Mitglieder nutzen eine ältere BlueTalk-Version — die Änderung sieht dort nur du"
  end.

(** What the sender knows. *)
Record sender := mk_sender { own_id : string; displayName : string; contacts : list fields; groups : list group }.

Definition send_to_group (u : sender) (g : group) (messageId : string) (e : edit) : edit_result * list packet :=
  let recipients := buildTargetedGroupRoute g (own_id u) false in
  let capable := selectFeatureCapablePeerIds recipients (contacts u) PEER_FEATURE_MESSAGE_EDIT in
  let skipped := List.filter (fun id => negb (includes capable id)) recipients in
  (mk_result true "" (match skipped with [] => false | _ => bool_decide (capable = []) end) (group_hint g (contacts u) skipped),
   map (fun id => ToMember id (group_envelope g (own_id u) (displayName u) messageId e)) capable).

(** [sent] is whether the peer could be reached. *)
Definition send_to_peer (u : sender) (peerId : string) (sent : bool) (inner : fields) : edit_result * list packet :=
  if negb (contactHasPeerFeature (List.find (fun c => is_from (get c "id") peerId) (contacts u)) PEER_FEATURE_MESSAGE_EDIT)
  then (mk_result true "" true (legacyEditNotice (contactLabel (contacts u) peerId "")), [])
  else (mk_result sent (if sent then "" else "send_failed") false "", [ToPeer peerId inner]).

Definition sendMessageEdit (u : sender) (now : Z) (messageId peerId refMessageId text : string) (sent : bool) (s : chats)
  : edit_result * list packet * chats :=
  let original := List.find (has_id refMessageId) (cached s peerId) in
  match original with
  | Some m =>
      if negb (canEditOwnTextMessage original now (from_self m)) then (refused "not_editable", [], s)
      else
        let inner := buildMessageEditInner refMessageId text (Z.max now (number_or_zero (get m "editedAt") + 1)) (displayName u) messageId in
        match applyInboundMessageEdit original inner now true with
        | Err error => (refused error, [], s)
        | Ok (Skipped _) => (refused "stale", [], s)
        | Ok (Changed e) =>
            let e := mk_edit refMessageId (e_content e) (e_at e) in
            let local k := match write_edit peerId e s with Ok s => let '(r, ps) := k in (r, ps, s) | Err error => (refused error, [], s) end in
            if isGroupChatId (Some (JStr peerId)) then
              match List.find (fun g => bool_decide (g_id g = peerId)) (groups u) with
              | Some g => if bool_decide (own_id u = "") || negb (isActiveGroupMember g (own_id u))
                          then (refused "not_group_member", [], s)
                          else local (send_to_group u g messageId e)
              | None => (refused "not_group_member", [], s)
              end
            else local (send_to_peer u peerId sent inner)
        end
  | None => (refused "not_editable", [], s)
  end.

(** ** How messages come into a chat and leave it *)

(** What the preview of a chat holds of a message. *)
Definition summarizeMessage (m : fields) : fields := del (del m "fileData") "localPreviewUrl".

(** [append] of the store: the rows, and whether the message is new.  One without an id always
    is: it gets a random one for the index only. *)
Definition append_row (chatId : string) (m : fields) (rows : list Sync.row) : res (list Sync.row * bool) :=
  if negb (valid_id chatId) then Err "invalid peer or conversation id"
  else if negb (truthy (get m "messageId")) then Ok (rows ++ [Sync.mk_row (trim chatId) "" m], true)
  else
    let id := string_or_empty (get m "messageId") in
    if negb (valid_id id) then Err "invalid message id"
    else if existsb (same_message (trim chatId) (trim id)) rows then Ok (rows, false)
    else Ok (rows ++ [Sync.mk_row (trim chatId) (trim id) m], true).

(** The last message that [chatMeta] reports. *)
Definition chatMeta (rows : list Sync.row) (chatId : string) : option fields :=
  option_map summarizeMessage (last (chat_rows rows (trim chatId))).

Definition show_message (chatId : string) (m preview : fields) (s : chats) : chats :=
  s <| ch_cache := <[chatId := cached s chatId ++ [m]]> (ch_cache s) |> <| ch_last := <[chatId := preview]> (ch_last s) |>.

(** A message of a peer ([direct]) or of a group arrives: it is kept unless its id is shown (only
    looked at for a peer) or stored already. *)
Definition receive_message (direct : bool) (chatId : string) (m : fields) (s : chats) : res chats :=
  if direct && truthy (get m "messageId") && existsb (fun x => bool_decide (get x "messageId" = get m "messageId")) (cached s chatId)
  then Ok s
  else if negb (isStoreableChatKind (get m "kind")) then Ok s
  else
    let? kept := append_row chatId m (ch_rows s) in
    let '(rows, appended) := kept in
    if appended then Ok (show_message chatId m (default m (chatMeta rows chatId)) (s <| ch_rows := rows |>)) else Ok s.

(** An own message is shown at once ([light] leaves out the data of a file) and then stored.  The
    row of a file is written only after it was sent; here it is written at once. *)
Definition own_message (chatId : string) (light full : fields) (s : chats) : chats :=
  let s := show_message chatId light light s in
  match append_row chatId full (ch_rows s) with
  | Ok (rows, _) =>
      s <| ch_rows := rows |> <| ch_last := <[chatId := default light (chatMeta rows chatId)]> (ch_last s) |>
  | Err _ => s
  end.

Definition loadChatMessages (reset : bool) (chatId : string) (limit : nat) (s : chats) : chats :=
  if bool_decide (chatId = "") || negb (valid_id chatId) then s
  else
    let shown := if reset then [] else cached s chatId in
    s <| ch_cache := <[chatId := getBatch (ch_rows s) chatId (length shown) limit ++ shown]> (ch_cache s) |>.

(** [getMeta]: the previews when the application starts; nothing is shown yet. *)
Definition start_up (s : chats) : chats :=
  s <| ch_cache := ∅ |>
    <| ch_last := list_to_map (rev (map (fun r => (row_peer r, summarizeMessage (row_value r)))
                          (List.filter (fun r => negb (bool_decide (row_peer r = "self"))) (ch_rows s)))) |>.

Definition deleteMessage (chatId messageId : string) (s : chats) : chats :=
  if bool_decide (chatId = "") || bool_decide (messageId = "") || negb (valid_id chatId) || negb (valid_id messageId) then s
  else if negb (existsb (same_message (trim chatId) (trim messageId)) (ch_rows s)) then s
  else
    s <| ch_rows := Sync.deleteMessage (ch_rows s) (trim chatId) (trim messageId) |>
      <| ch_cache := <[chatId := List.filter (fun m => negb (has_id messageId m)) (cached s chatId)]> (ch_cache s) |>
      <| ch_last := match ch_last s !! chatId with
                    | Some m => if has_id messageId m then delete chatId (ch_last s) else ch_last s
                    | None => ch_last s
                    end |>.

Definition deleteChat (chatId : string) (s : chats) : chats :=
  if bool_decide (chatId = "") || negb (valid_id chatId) then s
  else s <| ch_rows := Sync.deleteChat (ch_rows s) (trim chatId) |> <| ch_cache := delete chatId (ch_cache s) |>
         <| ch_last := delete chatId (ch_last s) |>.

(** ** Histories *)

(** What says whose message it is; a patch names none of it. *)
Definition origin_names : list string := ["messageId"; "from"; "senderPeerId"].

Inductive chat_step (s : chats) : chats -> Prop :=
| step_receive direct c m s' : trim c = c -> receive_message direct c m s = Ok s' -> chat_step s s'
| step_own c light full id : trim c = c -> valid_id c = true -> trim id = id -> valid_id id = true ->
    (forall k, k ∈ origin_names -> get light k = get full k) -> get full "messageId" = Some (JStr id) ->
    existsb (same_message c id) (ch_rows s) = false -> chat_step s (own_message c light full s)
| step_edit now c f payload g : chat_step s (snd (applyInboundChatEdit now c f payload g s))
| step_own_edit u now mid c ref text sent : chat_step s (snd (sendMessageEdit u now mid c ref text sent s))
| step_reaction c f payload s' : applyInboundReaction c f payload s = Ok s' -> chat_step s s'
| step_patch c id p s' : Forall (fun kv : string * json => kv.1 ∉ origin_names) p -> applyMessagePatch c id p s = Ok s' -> chat_step s s'
| step_load reset c limit : trim c = c -> chat_step s (loadChatMessages reset c limit s)
| step_delete c id m : m ∈ cached s c -> has_id id m = true -> chat_step s (deleteMessage c id s)
| step_delete_chat c : trim c = c -> chat_step s (deleteChat c s)
| step_start : chat_step s (start_up s).

(** The chats after any history, from an empty store. *)
Inductive chats_reach : chats -> Prop :=
| reach_empty : chats_reach (mk_chats ∅ [] ∅)
| reach_next s s' : chats_reach s -> chat_step s s' -> chats_reach s'.
