(* ===== verification/ChatEditsFacts.v ===== *)
(** * Facts about edits of messages

    Only the sender of a message can change it, and the copies of the two sides of a chat agree
    again once the edits have arrived, in any order and any number of times. *)

From S2P Require Import Prelude Json Sync GroupChat ChatFeatures ChatEdits.

(** ** Changed messages *)

Definition edit_names : list string := ["content"; "editedAt"; "edited"].

Lemma id_kept : "messageId" ∉ edit_names.
Proof. by apply (bool_decide_unpack _). Qed.

(** What an edit leaves alone. *)
Definition same_but_text (m m' : fields) : Prop := forall k, k ∉ edit_names -> get m' k = get m k.

Lemma get_edit m e k : get (spread_patch m (edit_patch e)) k =
  if decide ("edited" = k) then Some (JBool true) else if decide ("editedAt" = k) then Some (JNum (e_at e))
  else if decide ("content" = k) then Some (JStr (e_content e)) else get m k.
Proof. unfold spread_patch, edit_patch. cbn [fold_left fst snd]. by rewrite !get_set. Qed.

Lemma edit_same_but_text m e : same_but_text m (spread_patch m (edit_patch e)).
Proof.
  intros k Hk. rewrite get_edit. unfold edit_names in Hk. rewrite !not_elem_of_cons in Hk. destruct Hk as (H1 & H2 & H3 & _).
  by rewrite !decide_False by congruence.
Qed.

Lemma edit_has_id m e id : has_id id (spread_patch m (edit_patch e)) = has_id id m.
Proof. unfold has_id. by rewrite (edit_same_but_text m e "messageId") by exact id_kept. Qed.

Lemma patch_value_edit m e : patch_value m (edit_patch e) = spread_patch m (edit_patch e).
Proof. reflexivity. Qed.

(** ** Rows *)

Definition row_key (r : Sync.row) : string * string := (row_peer r, row_message_id r).

(** The rows of messages with an id are found by it, and no two have the same. *)
Record tidy (rows : list Sync.row) : Prop := mk_tidy {
  tidy_keys : forall r, r ∈ rows -> row_message_id r = trim (string_or_empty (get (row_value r) "messageId"));
  tidy_unique : forall i j r q, rows !! i = Some r -> rows !! j = Some q -> row_message_id r <> "" -> row_key r = row_key q -> i = j
}.

Definition change_row (p : fields) (r : Sync.row) : Sync.row := Sync.mk_row (row_peer r) (row_message_id r) (patch_value (row_value r) p).

Definition patched (c id : string) (p : fields) (r : Sync.row) : Sync.row := if same_message c id r then change_row p r else r.

Lemma same_message_key c id r : same_message c id r = true <-> row_key r = (c, id).
Proof.
  unfold same_message, row_key. rewrite andb_true_iff, !bool_decide_eq_true. split; [intros [-> ->]; done|by intros [= -> ->]].
Qed.

(** With unique keys the change of the first row is a change of all of them. *)
Lemma patch_is_map rows c id p : tidy rows -> id <> "" -> Sync.patch rows c id p = map (patched c id p) rows.
Proof.
  intros [_ Hu] Hid. induction rows as [|r rows IH]; [done|]. cbn [Sync.patch map]. unfold patched at 1.
  destruct (same_message c id r) eqn:Hs; f_equal.
  - apply same_message_key in Hs. symmetry. transitivity (map (fun q => q) rows); [|apply map_id].
    apply map_ext_in. intros q Hq. unfold patched. destruct (same_message c id q) eqn:Hq2; [|done]. exfalso.
    apply list_elem_of_In, list_elem_of_lookup in Hq as [j Hj]. apply same_message_key in Hq2.
    specialize (Hu 0%nat (S j) r q eq_refl Hj). unfold row_key in *. rewrite Hs, Hq2 in Hu. injection Hs as _ Hs. rewrite Hs in Hu. by specialize (Hu Hid eq_refl).
  - apply IH. intros i j r1 q1 H1 H2 H3 H4. specialize (Hu (S i) (S j) r1 q1 H1 H2 H3 H4). lia.
Qed.

Lemma patched_key c id p r : row_key (patched c id p r) = row_key r.
Proof. unfold patched. by destruct (same_message c id r). Qed.

Lemma patched_id c id e r : get (row_value (patched c id (edit_patch e) r)) "messageId" = get (row_value r) "messageId".
Proof.
  unfold patched. destruct (same_message c id r); [|done]. cbn [change_row row_value]. rewrite patch_value_edit.
  apply edit_same_but_text, id_kept.
Qed.

Lemma tidy_patched rows c id e : tidy rows -> tidy (map (patched c id (edit_patch e)) rows).
Proof.
  intros [Hk Hu]. constructor.
  - intros r' Hr. apply list_elem_of_fmap in Hr as (r & -> & Hr). rewrite patched_id, <- (Hk r Hr).
    pose proof (patched_key c id (edit_patch e) r) as H. unfold row_key in H. congruence.
  - intros i j r q Hi Hj. rewrite list_lookup_fmap in Hi, Hj. apply fmap_Some in Hi as (r0 & Hi & ->), Hj as (q0 & Hj & ->).
    rewrite !patched_key. intros Hne Heq. apply (Hu i j r0 q0 Hi Hj); [|done].
    pose proof (patched_key c id (edit_patch e) r0) as H. unfold row_key in H. congruence.
Qed.

(** ** Looking a message up *)

Lemma find_map_same {A B} (f : A -> A) (g : A -> B) (P : B -> bool) l : (forall x, P (g (f x)) = P (g x)) ->
  List.find P (map g (map f l)) = option_map (fun x => g (f x)) (List.find (fun x => P (g x)) l).
Proof. intros Hf. induction l as [|x l IH]; [done|]. cbn [map List.find]. rewrite Hf. by destruct (P (g x)). Qed.

(** The rows behind a batch. *)
Definition batch_rows (rows : list Sync.row) (peerId : string) (skip limit : nat) : list Sync.row :=
  let l := List.filter (fun r => bool_decide (row_peer r = trim peerId)) rows in
  let stop := (length l - skip)%nat in
  let start := (stop - Nat.max 1 (Nat.min 100 limit))%nat in
  take (stop - start) (drop start l).

Lemma getBatch_rows rows c skip limit : getBatch rows c skip limit = map row_value (batch_rows rows c skip limit).
Proof. unfold getBatch, batch_rows, chat_rows. cbv zeta. by rewrite length_map, <- firstn_map, <- skipn_map. Qed.

Lemma batch_patched rows c d id p skip limit : batch_rows (map (patched d id p) rows) c skip limit = map (patched d id p) (batch_rows rows c skip limit).
Proof.
  unfold batch_rows. cbv zeta.
  assert (Hf : List.filter (fun r => bool_decide (row_peer r = trim c)) (map (patched d id p) rows)
    = map (patched d id p) (List.filter (fun r => bool_decide (row_peer r = trim c)) rows)).
  { induction rows as [|r rows IH]; [done|]. cbn [map List.filter]. pose proof (patched_key d id p r) as Hk. unfold row_key in Hk.
    injection Hk as Hk _. rewrite Hk. destruct (bool_decide _); cbn [map]; by rewrite IH. }
  rewrite Hf, length_map. by rewrite skipn_map, firstn_map.
Qed.

Lemma batch_elem rows c skip limit r : r ∈ batch_rows rows c skip limit -> r ∈ rows /\ row_peer r = trim c.
Proof.
  intros Hr. apply elem_of_take in Hr as (i & Hi & _). rewrite lookup_drop in Hi. apply list_elem_of_lookup_2, list_elem_of_In, filter_In in Hi as [Hi Hp].
  split; [by apply list_elem_of_In|by apply bool_decide_eq_true_1 in Hp].
Qed.

(** ** Writing an edit *)

Lemma valid_nonempty s : valid_id s = true -> trim s <> "".
Proof. unfold valid_id. cbv zeta. intros H. by bool_cases. Qed.

Lemma patch_cache_rows c id p s : ch_rows (patch_cache c id p s) = ch_rows s.
Proof. unfold patch_cache. by destruct (ch_cache s !! c). Qed.

Lemma cached_patch c id p s d : cached (patch_cache c id p s) d = if decide (d = c) then patch_first id p (cached s c) else cached s d.
Proof.
  unfold patch_cache, cached. destruct (ch_cache s !! c) as [l|] eqn:Hc.
  - change (ch_cache (s <| ch_cache := ?x |>)) with x. destruct (decide (d = c)) as [->|Hne].
    + by rewrite lookup_insert_eq.
    + by rewrite lookup_insert_ne.
  - destruct (decide (d = c)) as [->|]; [|done]. by rewrite ?Hc.
Qed.

Lemma meta_rows c id p s : ch_rows (patchChatMetaLastMessage c id p s) = ch_rows s.
Proof. unfold patchChatMetaLastMessage. destruct (ch_last s !! c); [|done]. by destruct (has_id _ _). Qed.

Lemma cached_meta c id p s d : cached (patchChatMetaLastMessage c id p s) d = cached s d.
Proof. unfold patchChatMetaLastMessage. destruct (ch_last s !! c); [|done]. by destruct (has_id _ _). Qed.

(** The rows and the shown lists after an edit. *)
Lemma write_edit_spec c e s s' : tidy (ch_rows s) -> write_edit c e s = Ok s' -> c <> "" -> e_ref e <> "" ->
  ch_rows s' = map (patched (trim c) (trim (e_ref e)) (edit_patch e)) (ch_rows s) /\
  (forall d, cached s' d = if decide (d = c) then patch_first (e_ref e) (edit_patch e) (patch_first (e_ref e) (edit_patch e) (cached s c)) else cached s d) /\
  valid_id c = true /\ valid_id (e_ref e) = true.
Proof.
  intros Ht Hw Hc He. unfold write_edit in Hw. apply res_bind_ok in Hw as (s1 & Hw & [= <-]). unfold applyMessagePatch in Hw.
  rewrite !bool_decide_eq_false_2 in Hw by done. cbn [orb] in Hw.
  destruct (valid_id c) eqn:Hv; [|done]. destruct (valid_id (e_ref e)) eqn:Hve; [|done]. cbn [negb] in Hw. injection Hw as <-.
  split_and!; [| |done|done].
  - rewrite patch_cache_rows, meta_rows, patch_cache_rows. apply patch_is_map; [done|]. by apply valid_nonempty.
  - intros d. rewrite cached_patch, !cached_meta, !cached_patch. rewrite (decide_True (P := c = c)) by done. by destruct (decide (d = c)).
Qed.

Lemma find_patch_first id e l : List.find (has_id id) (patch_first id (edit_patch e) l)
  = option_map (fun m => spread_patch m (edit_patch e)) (List.find (has_id id) l).
Proof.
  induction l as [|m l IH]; [done|]. cbn [patch_first List.find]. destruct (has_id id m) eqn:H; cbn [List.find]; [by rewrite edit_has_id, H|by rewrite H].
Qed.

(** The text of a message and when it was changed. *)
Definition agrees (m m' : fields) : Prop := forall k, get m' k = get m k.

Lemma twice m e : agrees (spread_patch m (edit_patch e)) (spread_patch (spread_patch m (edit_patch e)) (edit_patch e)).
Proof. intros k. rewrite !get_edit. by repeat case_decide. Qed.

(** After the edit the message that is found has the new text. *)
Lemma find_after_edit c e s s' m : tidy (ch_rows s) -> c <> "" -> e_ref e <> "" -> write_edit c e s = Ok s' -> find_original s c (e_ref e) = Some m ->
  exists m', find_original s' c (e_ref e) = Some m' /\ agrees (spread_patch m (edit_patch e)) m'.
Proof.
  intros Ht Hc He Hw Hf. destruct (write_edit_spec c e s s' Ht Hw Hc He) as (Hrows & Hcache & Hv & Hve).
  unfold find_original in *. rewrite Hcache, decide_True by done. rewrite !find_patch_first.
  destruct (List.find (has_id (e_ref e)) (cached s c)) as [m0|] eqn:Hf0.
  - injection Hf as ->. eexists. split; [done|]. apply twice.
  - cbn [option_map]. unfold findMessageForReaction, findCachedMessage in *. rewrite !bool_decide_eq_false_2 in * by done. cbn [orb] in *.
    rewrite Hf0 in Hf. rewrite Hcache, decide_True, !find_patch_first, Hf0 by done. cbn [option_map]. rewrite Hv in *. cbn [negb] in *.
    rewrite getBatch_rows in *. rewrite Hrows, batch_patched, (find_map_same _ row_value).
    2:{ intros r. unfold has_id. by rewrite patched_id. }
    assert (Hx : exists r, List.find (fun r => has_id (e_ref e) (row_value r)) (batch_rows (ch_rows s) c 0 80) = Some r /\ row_value r = m).
    { clear -Hf. induction (batch_rows (ch_rows s) c 0 80) as [|r l IH]; [done|]. cbn [map List.find] in *.
      destruct (has_id (e_ref e) (row_value r)); [injection Hf as <-; by exists r|by apply IH]. }
    destruct Hx as (r & Hr & <-). rewrite Hr. eexists. split; [done|]. apply find_some in Hr as [Hin Hid].
    apply list_elem_of_In, batch_elem in Hin as [Hin Hp]. unfold patched.
    assert (Hs : same_message (trim c) (trim (e_ref e)) r = true).
    { apply same_message_key. unfold row_key. rewrite Hp, (tidy_keys _ Ht r Hin). unfold has_id in Hid. apply bool_decide_eq_true_1 in Hid.
      rewrite Hid. cbn [string_or_empty truthy to_string]. by rewrite bool_decide_eq_false_2. }
    rewrite Hs. by intros k.
Qed.

(** ** Only the sender changes a message *)

(** *** Whose message it is *)

Definition same_origin (m m' : fields) : Prop := forall k, k ∈ origin_names -> get m' k = get m k.

#[local] Instance same_origin_preorder : PreOrder same_origin.
Proof. split; [done|]. intros m1 m2 m3 H1 H2 k Hk. rewrite H2, H1; done. Qed.

Lemma same_origin_id m m' id : same_origin m m' -> has_id id m' = has_id id m.
Proof. intros H. unfold has_id. rewrite (H "messageId"); [done|]. by left. Qed.

Lemma spread_origin p m : Forall (fun kv : string * json => kv.1 ∉ origin_names) p -> same_origin m (spread_patch m p).
Proof.
  unfold spread_patch. intros Hp. revert m. induction Hp as [|[k v] p Hk _ IH]; intros m; [done|]. cbn [fold_left fst snd].
  etrans; [|apply IH]. intros x Hx. rewrite get_set. case_decide; [subst; by destruct Hk|done].
Qed.

Lemma edit_origin e : Forall (fun kv : string * json => kv.1 ∉ origin_names) (edit_patch e).
Proof. repeat constructor; by apply (bool_decide_unpack _). Qed.

Lemma patch_value_origin p m : Forall (fun kv : string * json => kv.1 ∉ origin_names) p -> same_origin m (patch_value m p).
Proof.
  unfold patch_value. intros Hp. revert m. induction Hp as [|[k v] p Hk _ IH]; intros m; [done|]. cbn [fold_left fst snd].
  etrans; [|apply IH]. intros x Hx. case_bool_decide; [done|]. rewrite get_set. case_decide; [subst; by destruct Hk|done].
Qed.

Lemma summary_origin m : same_origin m (summarizeMessage m).
Proof.
  intros k Hk. unfold summarizeMessage. rewrite !get_del. unfold origin_names in Hk. rewrite !elem_of_cons in Hk.
  by destruct Hk as [->|[->|[->|Hk%elem_of_nil]]].
Qed.

(** A message is shown in a chat: in its list or as its preview. *)
Definition shown (s : chats) (chatId : string) (m : fields) : Prop := m ∈ cached s chatId \/ ch_last s !! chatId = Some m.

(** Rows are found by their ids, and every message that is shown has a row of the same origin. *)
Record sound (s : chats) : Prop := mk_sound {
  sound_tidy : tidy (ch_rows s);
  sound_peers : forall r, r ∈ ch_rows s -> trim (row_peer r) = row_peer r;
  sound_chats : forall c m, shown s c m -> trim c = c;
  sound_backed : forall c m id, shown s c m -> has_id id m = true -> trim id <> "" ->
    exists r, r ∈ ch_rows s /\ row_key r = (c, trim id) /\ same_origin (row_value r) m
}.

Definition same_row (r r' : Sync.row) : Prop := row_key r' = row_key r /\ same_origin (row_value r) (row_value r').

#[local] Instance same_row_preorder : PreOrder same_row.
Proof. split; [done|]. intros x y z [K1 O1] [K2 O2]. split; [congruence|by etrans]. Qed.

(** A step that adds and removes nothing and leaves the origin of everything. *)
Definition keeps (s s' : chats) : Prop :=
  Forall2 same_row (ch_rows s) (ch_rows s')
  /\ forall c m', shown s' c m' -> exists m, shown s c m /\ same_origin m m'.

#[local] Instance keeps_preorder : PreOrder keeps.
Proof.
  split.
  - intros s. split; [done|by intros c m' H; exists m'].
  - intros s1 s2 s3 [R1 M1] [R2 M2]. split; [by etrans|].
    intros c m3 H3. destruct (M2 _ _ H3) as (m2 & H2 & O2), (M1 _ _ H2) as (m1 & H1 & O1). exists m1. split; [done|by etrans].
Qed.

Lemma sound_keeps s s' : keeps s s' -> sound s -> sound s'.
Proof.
  intros [Hr Hm] [[Tk Tu] Hp Hc Hb]. constructor; [constructor|..].
  - intros r' Hr'. apply list_elem_of_lookup in Hr' as [i Hi]. destruct (Forall2_lookup_r _ _ _ _ _ Hr Hi) as (r & Hir & Hk & Ho).
    rewrite (Ho "messageId") by by left. rewrite <- (Tk r) by by eapply list_elem_of_lookup_2. unfold row_key in Hk. congruence.
  - intros i j r' q' Hi Hj. destruct (Forall2_lookup_r _ _ _ _ _ Hr Hi) as (r & Hir & Hk & _), (Forall2_lookup_r _ _ _ _ _ Hr Hj) as (q & Hjq & Hq & _).
    rewrite Hk, Hq. intros Hne. apply (Tu i j r q Hir Hjq). unfold row_key in Hk. congruence.
  - intros r' Hr'. apply list_elem_of_lookup in Hr' as [i Hi]. destruct (Forall2_lookup_r _ _ _ _ _ Hr Hi) as (r & Hir & Hk & _).
    unfold row_key in Hk. assert (row_peer r' = row_peer r) as -> by congruence. apply Hp. by eapply list_elem_of_lookup_2.
  - intros c m' (m & H & _)%Hm. by eapply Hc.
  - intros c m' id Hs Hid Hne. destruct (Hm _ _ Hs) as (m & H & Ho). rewrite (same_origin_id _ _ _ Ho) in Hid.
    destruct (Hb c m id H Hid Hne) as (r & Hin & Hk & Hrm). apply list_elem_of_lookup in Hin as [i Hi].
    destruct (Forall2_lookup_l _ _ _ _ _ Hr Hi) as (r' & Hi' & Hk' & Hrr). exists r'. split; [by eapply list_elem_of_lookup_2|].
    split; [congruence|]. intros k Hkn. by rewrite (Ho k Hkn), (Hrm k Hkn), (Hrr k Hkn).
Qed.

(** The message came from the peer, in a group perhaps under its member id; it is not the owner's. *)
Definition sent_by (fromId : string) (isGroup : bool) (m : fields) : Prop :=
  fromId <> "" /\ get m "from" <> Some (JStr "self") /\
  (get m "from" = Some (JStr fromId) \/ isGroup = true /\ get m "senderPeerId" = Some (JStr fromId)).

Lemma owns_sent_by f g m : editorOwnsOriginal (Some m) f g = true -> sent_by f g m.
Proof.
  unfold editorOwnsOriginal, sent_by, from_self, is_from. destruct (bool_decide (f = "") || _) eqn:H; [done|]. bool_cases.
  destruct g; intros Ho; bool_cases; by split_and!; auto.
Qed.

(** A message as it was, or one of the editor with another text. *)
Definition own_change (fromId : string) (isGroup : bool) (m m' : fields) : Prop :=
  m' = m \/ sent_by fromId isGroup m /\ same_but_text m m'.

Lemma owns_ext m m' f g : get m' "from" = get m "from" -> get m' "senderPeerId" = get m "senderPeerId" ->
  editorOwnsOriginal (Some m') f g = editorOwnsOriginal (Some m) f g.
Proof. intros H1 H2. unfold editorOwnsOriginal, from_self. by rewrite H1, H2. Qed.

Lemma patch_twice_changes id e l f g :
  (forall m, List.find (has_id id) l = Some m -> editorOwnsOriginal (Some m) f g = true) ->
  Forall2 (own_change f g) l (patch_first id (edit_patch e) (patch_first id (edit_patch e) l)).
Proof.
  induction l as [|m l IH]; cbn [patch_first List.find]; intros Hown; [constructor|].
  destruct (has_id id m) eqn:H; cbn [patch_first]; [rewrite edit_has_id, H|rewrite H].
  - constructor; [|apply Forall2_same_length_lookup_2; [done|]; intros i x y Hx Hy; left; congruence].
    right. split; [by apply owns_sent_by, Hown|]. intros k Hk. rewrite (edit_same_but_text _ e k Hk). by apply edit_same_but_text.
  - constructor; [by left|]. by apply IH.
Qed.

(** A row as it was, or a message of the editor in the chat with another text. *)
Definition own_row_change (chatId fromId : string) (isGroup : bool) (r r' : Sync.row) : Prop :=
  row_key r' = row_key r /\ (r' = r \/ row_peer r = trim chatId /\ sent_by fromId isGroup (row_value r) /\
    same_but_text (row_value r) (row_value r')).

Lemma find_original_row s c id m : find_original s c id = Some m -> List.find (has_id id) (cached s c) = None ->
  exists r, r ∈ ch_rows s /\ row_peer r = trim c /\ row_value r = m /\ has_id id m = true.
Proof.
  unfold find_original, findMessageForReaction, findCachedMessage. intros Hf Hc. rewrite Hc in Hf.
  destruct (_ || _); cbn [orb] in Hf; [done|]. rewrite ?Hc in Hf. destruct (negb _); [done|].
  rewrite getBatch_rows in Hf. apply find_some in Hf as [Hin Hid]. apply in_map_iff in Hin as (r & <- & Hr).
  apply list_elem_of_In, batch_elem in Hr as [Hr Hp]. by exists r.
Qed.

(** *** Every history keeps the origins in step *)

Lemma patch_rows_keeps rows c id p : Forall (fun kv : string * json => kv.1 ∉ origin_names) p ->
  Forall2 same_row rows (Sync.patch rows c id p).
Proof.
  intros Hp. induction rows as [|r rows IH]; [constructor|]. cbn [Sync.patch]. destruct (same_message c id r).
  - constructor; [split; [done|by apply patch_value_origin]|done].
  - by constructor.
Qed.

Lemma patch_first_origin id p l m' : Forall (fun kv : string * json => kv.1 ∉ origin_names) p -> m' ∈ patch_first id p l ->
  exists m, m ∈ l /\ same_origin m m'.
Proof.
  intros Hp. induction l as [|m l IH]; cbn [patch_first]; [by intros ?%elem_of_nil|]. destruct (has_id id m).
  - intros [->|H]%elem_of_cons; [exists m; split; [by left|by apply spread_origin]|exists m'; split; [by right|done]].
  - intros [->|H]%elem_of_cons; [exists m; split; [by left|done]|]. destruct (IH H) as (x & Hx & Ho). exists x. split; [by right|done].
Qed.

Lemma patch_cache_keeps c id p s : Forall (fun kv : string * json => kv.1 ∉ origin_names) p -> keeps s (patch_cache c id p s).
Proof.
  intros Hp. split; [by rewrite patch_cache_rows|]. intros d m' [H|H].
  - rewrite cached_patch in H. case_decide as E; [|by exists m'; split; [left|]].
    apply patch_first_origin in H as (m & Hm & Ho); [|done]. exists m. split; [left; by rewrite E|done].
  - exists m'. split; [right|done]. revert H. unfold patch_cache. by destruct (ch_cache s !! c).
Qed.

Lemma meta_keeps c id p s : Forall (fun kv : string * json => kv.1 ∉ origin_names) p -> keeps s (patchChatMetaLastMessage c id p s).
Proof.
  intros Hp. split; [by rewrite meta_rows|]. intros d m' [H|H].
  - rewrite cached_meta in H. exists m'. split; [by left|done].
  - revert H. unfold patchChatMetaLastMessage. destruct (ch_last s !! c) as [m|] eqn:Hl; [|intros H; exists m'; split; [by right|done]].
    destruct (has_id id m); [|intros H; exists m'; split; [by right|done]]. cbn. destruct (decide (d = c)) as [->|Hne].
    + rewrite lookup_insert_eq. intros [= <-]. exists m. split; [by right|by apply spread_origin].
    + rewrite lookup_insert_ne by done. intros H. exists m'. split; [by right|done].
Qed.

Lemma applyMessagePatch_keeps c id p s s' : Forall (fun kv : string * json => kv.1 ∉ origin_names) p ->
  applyMessagePatch c id p s = Ok s' -> keeps s s'.
Proof.
  intros Hp. unfold applyMessagePatch. destruct (_ || _); [by intros [= <-]|]. destruct (negb _); [done|]. destruct (negb _); [done|].
  intros [= <-]. etrans; [|by apply patch_cache_keeps]. split; [by apply patch_rows_keeps|by intros d m' H; exists m'].
Qed.

Lemma write_edit_keeps c e s s' : write_edit c e s = Ok s' -> keeps s s'.
Proof.
  unfold write_edit. intros H. apply res_bind_ok in H as (s1 & H & [= <-]).
  etrans; [exact (applyMessagePatch_keeps _ _ _ _ _ (edit_origin e) H)|].
  etrans; [exact (meta_keeps c (e_ref e) _ s1 (edit_origin e))|exact (patch_cache_keeps c (e_ref e) _ _ (edit_origin e))].
Qed.

Lemma inbound_edit_keeps now c f payload g s : keeps s (snd (applyInboundChatEdit now c f payload g s)).
Proof.
  unfold applyInboundChatEdit. destruct (applyInboundMessageEdit None _ _ _) as [[|v]|]; try done.
  destruct (find_original s c (e_ref v)); [|done]. destruct (applyInboundMessageEdit _ _ _ _) as [[|e]|]; try done.
  destruct (write_edit c e s) eqn:E; [|done]. by apply (write_edit_keeps c e).
Qed.

Lemma own_edit_keeps u now mid c ref text sent s : keeps s (snd (sendMessageEdit u now mid c ref text sent s)).
Proof.
  unfold sendMessageEdit. destruct (List.find _ _); [|done]. destruct (negb _); [done|]. cbv zeta.
  destruct (applyInboundMessageEdit _ _ _ _) as [[|e]|]; try done.
  destruct (isGroupChatId _); [destruct (List.find _ (groups u)); [|done]; destruct (_ || _); [done|]; destruct (send_to_group _ _ _ _)|destruct (send_to_peer _ _ _ _)];
    (destruct (write_edit _ _ _) eqn:E; [|done]); by apply write_edit_keeps in E.
Qed.

Lemma reaction_keeps c f payload s s' : applyInboundReaction c f payload s = Ok s' -> keeps s s'.
Proof.
  unfold applyInboundReaction. destruct (get payload "emoji") as [[]|]; try by intros [= <-].
  destruct (get payload "refMessageId") as [[]|]; try by intros [= <-]. destruct (_ || _); [by intros [= <-]|].
  destruct (findMessageForReaction _ _ _); [|by intros [= <-]]. apply applyMessagePatch_keeps.
  repeat constructor. by apply (bool_decide_unpack _).
Qed.

(** A row of the chat stands behind a message. *)
Definition backs (rows : list Sync.row) (chatId : string) (m : fields) : Prop :=
  forall id, has_id id m = true -> trim id <> "" ->
    exists r, r ∈ rows /\ row_key r = (chatId, trim id) /\ same_origin (row_value r) m.

Lemma row_backs rows r m : tidy rows -> r ∈ rows -> same_origin (row_value r) m -> backs rows (row_peer r) m.
Proof.
  intros Ht Hr Ho id Hid Hne. exists r. split; [done|]. split; [|done]. rewrite (same_origin_id _ _ _ Ho) in Hid.
  unfold has_id in Hid. apply bool_decide_eq_true_1 in Hid. unfold row_key. rewrite (tidy_keys _ Ht r Hr), Hid.
  cbn [string_or_empty truthy to_string]. rewrite bool_decide_eq_false_2; [done|]. intros ->. by destruct Hne.
Qed.

Lemma backs_more rows rows' c m : (forall r, r ∈ rows -> r ∈ rows') -> backs rows c m -> backs rows' c m.
Proof. intros Hsub Hb id Hid Hne. destruct (Hb id Hid Hne) as (r & Hr & H). exists r. split; [by apply Hsub|done]. Qed.

Lemma sound_more s s' : sound s -> tidy (ch_rows s') -> (forall r, r ∈ ch_rows s' -> trim (row_peer r) = row_peer r) ->
  (forall r, r ∈ ch_rows s -> r ∈ ch_rows s') ->
  (forall d x, shown s' d x -> shown s d x \/ trim d = d /\ backs (ch_rows s') d x) -> sound s'.
Proof.
  intros [T P C B] Ht Hp Hsub Hs. constructor; [done|done|..].
  - intros d x [H|[H _]]%Hs; [by eapply C|done].
  - intros d x id [H|[_ H]]%Hs Hid Hne; [|by apply H]. apply (backs_more (ch_rows s) _ d x Hsub); [|done..].
    intros i Hi Hni. by apply (B d x i).
Qed.

Lemma append_row_new c m rows rows' : tidy rows -> trim c = c -> append_row c m rows = Ok (rows', true) ->
  exists r, rows' = rows ++ [r] /\ row_peer r = c /\ row_value r = m /\ tidy rows'.
Proof.
  intros [Tk Tu] Hc. unfold append_row. destruct (negb (valid_id c)); [done|].
  assert (Hnew : forall id, id = trim (string_or_empty (get m "messageId")) -> (id <> "" -> existsb (same_message c id) rows = false) ->
    tidy (rows ++ [Sync.mk_row c id m])).
  { intros id Hid Hn. constructor.
    - intros r [Hr|Hr]%elem_of_app; [by apply Tk|]. by apply list_elem_of_singleton in Hr as ->.
    - assert (Hfresh : forall r, r ∈ rows -> row_message_id r <> "" -> row_key r <> (c, id)).
      { intros r Hr Hne Hk. assert (Hid' : id <> "") by (unfold row_key in Hk; congruence). specialize (Hn Hid').
        assert (existsb (same_message c id) rows = true); [|congruence].
        apply existsb_exists. exists r. split; [by apply list_elem_of_In|by apply same_message_key]. }
      intros i j r q Hi Hj Hne Hk. apply lookup_app_Some in Hi as [Hi|[Hli Hi]], Hj as [Hj|[Hlj Hj]].
      + by apply (Tu i j r q).
      + apply list_lookup_singleton_Some in Hj as [_ <-]. exfalso. by apply (Hfresh r); [eapply list_elem_of_lookup_2|..].
      + apply list_lookup_singleton_Some in Hi as [_ <-]. exfalso. apply (Hfresh q); [by eapply list_elem_of_lookup_2| |done].
        unfold row_key in Hk. cbn in *. congruence.
      + apply list_lookup_singleton_Some in Hi as [Hi _], Hj as [Hj _]. lia. }
  rewrite Hc. destruct (truthy (get m "messageId")) eqn:Ht; cbn [negb].
  - cbv zeta. destruct (negb (valid_id _)); [done|]. destruct (existsb _ rows) eqn:He; [done|]. intros [= <-].
    eexists. split_and!; [done..|]. by apply Hnew.
  - intros [= <-]. eexists. split_and!; [done..|]. apply Hnew; [|done].
    unfold string_or_empty. destruct (get m "messageId") as [j|]; [by rewrite Ht|done].
Qed.

Lemma meta_backed rows c p : tidy rows -> trim c = c -> chatMeta rows c = Some p -> backs rows c p.
Proof.
  intros Ht Hc. unfold chatMeta, chat_rows. rewrite Hc. destruct (last _) as [m|] eqn:Hl; [|done]. intros [= <-].
  apply last_Some_elem_of, list_elem_of_In, in_map_iff in Hl as (r & <- & Hr).
  apply filter_In in Hr as [Hr Hp]. apply bool_decide_eq_true_1 in Hp as <-. apply list_elem_of_In in Hr.
  apply row_backs; [done|done|apply summary_origin].
Qed.

Lemma shown_show c m p s d x : shown (show_message c m p s) d x -> shown s d x \/ d = c /\ (x = m \/ x = p).
Proof.
  unfold shown, show_message, cached. cbn. destruct (decide (d = c)) as [->|Hne].
  - rewrite !lookup_insert_eq. cbn. intros [[H|H]%elem_of_app|[= ->]]; [by left; left| |by right; auto].
    apply list_elem_of_singleton in H as ->. right. auto.
  - rewrite !lookup_insert_ne by done. by left.
Qed.

Lemma receive_sound direct c m s s' : trim c = c -> receive_message direct c m s = Ok s' -> sound s -> sound s'.
Proof.
  intros Hc. unfold receive_message. destruct (direct && _ && _); [by intros [= <-]|]. destruct (negb _); [by intros [= <-]|].
  intros H Hs. apply res_bind_ok in H as ([rows appended] & Ha & H). destruct appended; [|by injection H as <-]. injection H as <-.
  destruct (append_row_new c m (ch_rows s) rows (sound_tidy _ Hs) Hc Ha) as (r & -> & Hp & Hv & Ht).
  assert (Hin : r ∈ ch_rows s ++ [r]) by (apply elem_of_app; right; by left).
  assert (Hm : backs (ch_rows s ++ [r]) c m) by (rewrite <- Hp, <- Hv; by apply row_backs).
  apply (sound_more s); [done|done| |intros q Hq; apply elem_of_app; by left|].
  - intros q [Hq|Hq]%elem_of_app; [by apply (sound_peers _ Hs)|]. apply list_elem_of_singleton in Hq as ->. by rewrite Hp.
  - intros d x [Hx|[-> Hx]]%shown_show; [by left|right]. split; [done|]. destruct Hx as [->| ->]; [done|].
    destruct (chatMeta _ c) as [p|] eqn:Hm'; [|done]. by apply meta_backed.
Qed.

Lemma own_sound c light full id s : trim c = c -> valid_id c = true -> trim id = id -> valid_id id = true ->
  (forall k, k ∈ origin_names -> get light k = get full k) -> get full "messageId" = Some (JStr id) ->
  existsb (same_message c id) (ch_rows s) = false -> sound s -> sound (own_message c light full s).
Proof.
  intros Hc Hvc Hti Hvi Ho Hid Hfresh Hs. unfold own_message. cbv zeta.
  assert (Hne : id <> "") by (intros ->; by apply valid_nonempty in Hvi).
  assert (Ha : append_row c full (ch_rows s) = Ok (ch_rows s ++ [Sync.mk_row c id full], true)).
  { unfold append_row. rewrite Hvc, Hid. cbn [negb truthy string_or_empty to_string]. rewrite bool_decide_eq_false_2 by done. cbn [negb].
    by rewrite Hvi, Hti, Hc, Hfresh. }
  change (ch_rows (show_message c light light s)) with (ch_rows s). rewrite Ha.
  destruct (append_row_new c full _ _ (sound_tidy _ Hs) Hc Ha) as (_ & _ & _ & _ & Ht).
  assert (Hin : Sync.mk_row c id full ∈ ch_rows s ++ [Sync.mk_row c id full]) by (apply elem_of_app; right; by left).
  assert (Hm : backs (ch_rows s ++ [Sync.mk_row c id full]) c light) by exact (row_backs _ (Sync.mk_row c id full) light Ht Hin Ho).
  apply (sound_more s); [done|done| |intros q Hq; apply elem_of_app; by left|].
  - intros q [Hq|Hq]%elem_of_app; [by apply (sound_peers _ Hs)|]. by apply list_elem_of_singleton in Hq as ->.
  - intros d x Hx. assert (Hcase : shown (show_message c light light s) d x \/ d = c /\ x = default light (chatMeta (ch_rows s ++ [Sync.mk_row c id full]) c)).
    { destruct Hx as [Hx|Hx]; [by left; left|]. cbn in Hx. destruct (decide (d = c)) as [->|Hd].
      - rewrite lookup_insert_eq in Hx. right. split; [done|congruence].
      - rewrite lookup_insert_ne in Hx by done. left. right. exact Hx. }
    clear Hx. destruct Hcase as [[Hx|[-> Hx]]%shown_show|[-> ->]]; [by left|right; split; [done|by destruct Hx as [->| ->]]|].
    right. split; [done|]. destruct (chatMeta _ c) as [p|] eqn:Hm'; [|done]. by apply meta_backed.
Qed.

Lemma load_sound reset c limit s : trim c = c -> sound s -> sound (loadChatMessages reset c limit s).
Proof.
  intros Hc Hs. unfold loadChatMessages. destruct (_ || _); [done|]. cbv zeta. set (old := if reset then [] else cached s c).
  apply (sound_more s); [done|apply Hs|by apply Hs|done|]. intros d x [Hx|Hx]; [|left; by right].
  unfold cached in Hx. cbn in Hx. destruct (decide (d = c)) as [->|Hne].
  - rewrite lookup_insert_eq in Hx. cbn in Hx. apply elem_of_app in Hx as [Hx|Hx].
    + right. split; [done|]. rewrite getBatch_rows in Hx. apply list_elem_of_In, in_map_iff in Hx as (r & <- & Hr).
      apply list_elem_of_In, batch_elem in Hr as [Hr Hp]. rewrite Hc in Hp. subst c. apply row_backs; [apply Hs|done|done].
    + left. left. subst old. by destruct reset; [apply elem_of_nil in Hx|].
  - rewrite lookup_insert_ne in Hx by done. left. by left.
Qed.

Lemma start_sound s : sound s -> sound (start_up s).
Proof.
  intros Hs. apply (sound_more s); [done|apply Hs|by apply Hs|done|]. intros d x [Hx|Hx].
  - unfold cached, start_up in Hx. cbn in Hx. rewrite lookup_empty in Hx. by apply elem_of_nil in Hx.
  - right. cbn in Hx. apply elem_of_list_to_map_2, list_elem_of_In, in_rev in Hx.
    apply in_map_iff in Hx as (r & [= <- <-] & Hr). rewrite rev_involutive in Hr || idtac. apply filter_In in Hr as [Hr _]. apply list_elem_of_In in Hr.
    split; [by apply (sound_peers _ Hs)|]. apply row_backs; [apply Hs|done|apply summary_origin].
Qed.

Lemma tidy_filter (f : Sync.row -> Prop) `{forall r, Decision (f r)} rows : tidy rows -> tidy (base.filter f rows).
Proof.
  intros [Tk Tu]. constructor; [intros r [_ Hr]%list_elem_of_filter; by apply Tk|].
  intros i j r q Hi Hj Hne Hk. induction rows as [|x rows IH] in i, j, Hi, Hj, Tu |- *; [done|].
  assert (Hrest : forall i j r q, rows !! i = Some r -> rows !! j = Some q -> row_message_id r <> "" -> row_key r = row_key q -> i = j).
  { intros i' j' r' q' H1 H2 H3 H4. specialize (Tu (S i') (S j') r' q' H1 H2 H3 H4). lia. }
  assert (Hone : forall k y, base.filter f rows !! k = Some y -> row_message_id y <> "" -> row_key y <> row_key x).
  { intros k y [_ Hy]%list_elem_of_lookup_2%list_elem_of_filter Hny Heq. apply list_elem_of_lookup in Hy as [l Hl].
    specialize (Tu (S l) 0%nat y x Hl eq_refl Hny Heq). lia. }
  rewrite filter_cons in Hi, Hj. case_decide; [|by eapply IH].
  destruct i as [|i], j as [|j]; cbn in Hi, Hj; [done|..].
  - injection Hi as ->. exfalso. apply (Hone _ _ Hj); [|done]. unfold row_key in Hk. congruence.
  - injection Hj as ->. by destruct (Hone _ _ Hi).
  - f_equal. by eapply IH.
Qed.

Lemma deleted_shown c id rows s d x :
  shown (s <| ch_rows := rows |>
           <| ch_cache := <[c := List.filter (fun m => negb (has_id id m)) (cached s c)]> (ch_cache s) |>
           <| ch_last := match ch_last s !! c with
                         | Some m => if has_id id m then delete c (ch_last s) else ch_last s
                         | None => ch_last s
                         end |>) d x -> shown s d x /\ ~ (d = c /\ has_id id x = true).
Proof.
  intros [Hx|Hx].
  - unfold cached in Hx. cbn in Hx. destruct (decide (d = c)) as [->|Hne].
    + rewrite lookup_insert_eq in Hx. cbn in Hx. apply list_elem_of_In, filter_In in Hx as [Hx Hi]. apply list_elem_of_In in Hx.
      split; [by left|]. intros [_ E]. by rewrite E in Hi.
    + rewrite lookup_insert_ne in Hx by done. split; [by left|tauto].
  - cbn in Hx. assert (Hl : ch_last s !! d = Some x /\ ~ (d = c /\ has_id id x = true)); [|by split; [right|]; destruct Hl].
    destruct (ch_last s !! c) as [m|] eqn:Hc; [|split; [done|intros [-> _]; congruence]]. destruct (has_id id m) eqn:Hi.
    + apply lookup_delete_Some in Hx as [Hne Hx]. split; [done|]. by intros [-> _].
    + split; [done|]. intros [-> E]. congruence.
Qed.

Lemma delete_sound c id m s : m ∈ cached s c -> has_id id m = true -> sound s -> sound (deleteMessage c id s).
Proof.
  intros Hm Hid Hs. unfold deleteMessage. destruct (_ || negb (valid_id id)) eqn:Hv; [done|]. destruct (negb (existsb _ _)); [done|].
  assert (Hc : trim c = c) by (eapply sound_chats; [done|by left]).
  assert (Hti : trim id <> "") by (apply valid_nonempty; by bool_cases).
  destruct (sound_backed _ Hs c m id (or_introl Hm) Hid Hti) as (r & Hr & Hk & Ho). rewrite Hc.
  assert (Hleft : forall d x i, shown s d x -> has_id i x = true -> trim i <> "" -> ~ (d = c /\ has_id id x = true) ->
    exists q, q ∈ Sync.deleteMessage (ch_rows s) c (trim id) /\ row_key q = (d, trim i) /\ same_origin (row_value q) x).
  { intros d x i Hx Hi Hni Hnot. destruct (sound_backed _ Hs d x i Hx Hi Hni) as (q & Hq & Hkq & Hoq). exists q. split; [|done].
    apply list_elem_of_filter. split; [|done]. apply not_true_iff_false. intros Hsame. apply same_message_key in Hsame. apply Hnot.
    assert (Eq : q = r).
    { apply list_elem_of_lookup in Hq as [j Hj], Hr as [k Hk']. assert (j = k) as ->; [|congruence].
      apply (tidy_unique _ (sound_tidy _ Hs) j k q r Hj Hk'); [unfold row_key in Hsame; congruence|congruence]. }
    subst q. split; [congruence|]. by rewrite (same_origin_id _ _ _ Hoq), <- (same_origin_id _ _ _ Ho). }
  constructor; [by apply tidy_filter, Hs|..].
  - intros q [_ Hq]%list_elem_of_filter. by apply (sound_peers _ Hs).
  - intros d x Hx. apply (sound_chats _ Hs d x). revert Hx. apply deleted_shown.
  - intros d x i Hx Hi Hni. apply deleted_shown in Hx as [Hx Hnot]. by apply (Hleft d x i).
Qed.

Lemma delete_chat_sound c s : trim c = c -> sound s -> sound (deleteChat c s).
Proof.
  intros Hc Hs. unfold deleteChat. destruct (_ || _); [done|]. rewrite Hc.
  assert (Hsh : forall d x, shown (s <| ch_rows := Sync.deleteChat (ch_rows s) c |> <| ch_cache := delete c (ch_cache s) |>
    <| ch_last := delete c (ch_last s) |>) d x -> d <> c /\ shown s d x).
  { intros d x [Hx|Hx].
    - unfold cached in Hx. cbn in Hx. destruct (decide (d = c)) as [->|Hne]; [by rewrite lookup_delete_eq in Hx; apply elem_of_nil in Hx|].
      rewrite lookup_delete_ne in Hx by done. split; [done|by left].
    - cbn in Hx. apply lookup_delete_Some in Hx as [Hne Hx]. split; [done|by right]. }
  constructor; [by apply tidy_filter, Hs|..].
  - intros q [_ Hq]%list_elem_of_filter. by apply (sound_peers _ Hs).
  - intros d x [_ Hx]%Hsh. by apply (sound_chats _ Hs d x).
  - intros d x i [Hne Hx]%Hsh Hi Hni. destruct (sound_backed _ Hs d x i Hx Hi Hni) as (q & Hq & Hk & Ho).
    exists q. split; [|done]. apply list_elem_of_filter. split; [unfold row_key in Hk; congruence|done].
Qed.

(** After every history the rows are tidy and the copies of a message have one origin. *)
Lemma chats_reach_sound s : chats_reach s -> sound s.
Proof.
  induction 1 as [|s s' _ IH Hstep].
  - constructor; [constructor|..]; cbn; try by intros ? ?%elem_of_nil.
    + intros i j r q Hi. by rewrite lookup_nil in Hi.
    + intros c m [H|H]; [by apply elem_of_nil in H|done].
    + intros c m id [H|H]; [by apply elem_of_nil in H|done].
  - destruct Hstep as [direct c m s' Hc H|c light full id|now c f payload g|u now mid c ref text sent|c f payload s' H|c id p s' Hp H
      |reset c limit|c id m|c|].
    + by eapply receive_sound.
    + by eapply own_sound.
    + eapply sound_keeps; [apply inbound_edit_keeps|done].
    + eapply sound_keeps; [apply own_edit_keeps|done].
    + eapply sound_keeps; [by eapply reaction_keeps|done].
    + eapply sound_keeps; [by eapply applyMessagePatch_keeps|done].
    + by apply load_sound.
    + by eapply delete_sound.
    + by apply delete_chat_sound.
    + by apply start_sound.
Qed.

(** The row or message with the id of a message that the editor owns belongs to the editor. *)
Lemma owned_copy s c id m r f g : sound s -> find_original s c id = Some m -> editorOwnsOriginal (Some m) f g = true ->
  trim c = c -> trim id <> "" -> r ∈ ch_rows s -> row_key r = (c, trim id) -> editorOwnsOriginal (Some (row_value r)) f g = true.
Proof.
  intros Hs Hf Ho Hc Hne Hr Hk.
  assert (Hq : exists q, q ∈ ch_rows s /\ row_key q = (c, trim id) /\ same_origin (row_value q) m).
  { destruct (List.find (has_id id) (cached s c)) as [m0|] eqn:Hf0.
    - unfold find_original in Hf. rewrite Hf0 in Hf. injection Hf as ->. apply find_some in Hf0 as [Hin Hid]. apply list_elem_of_In in Hin.
      by apply (sound_backed _ Hs c m id); [left|..].
    - destruct (find_original_row _ _ _ _ Hf Hf0) as (q & Hq & Hp & Hv & Hid). rewrite Hc in Hp. subst c m.
      by apply (row_backs (ch_rows s) q (row_value q) (sound_tidy _ Hs)). }
  destruct Hq as (q & Hq & Hkq & Hoq).
  assert (q = r) as ->.
  { apply list_elem_of_lookup in Hq as [j Hj], Hr as [k Hk']. assert (j = k) as ->; [|congruence].
    apply (tidy_unique _ (sound_tidy _ Hs) j k q r Hj Hk'); [unfold row_key in Hkq; congruence|congruence]. }
  rewrite <- Ho. symmetry. by apply owns_ext; apply Hoq; unfold origin_names; rewrite !elem_of_cons; auto.
Qed.

Lemma owned_shown s c id m x f g : sound s -> find_original s c id = Some m -> editorOwnsOriginal (Some m) f g = true ->
  trim id <> "" -> shown s c x -> has_id id x = true -> editorOwnsOriginal (Some x) f g = true.
Proof.
  intros Hs Hf Ho Hne Hx Hid. destruct (sound_backed _ Hs c x id Hx Hid Hne) as (r & Hr & Hk & Hor).
  rewrite <- (owned_copy s c id m r f g Hs Hf Ho (sound_chats _ Hs c x Hx) Hne Hr Hk).
  by apply owns_ext; apply Hor; unfold origin_names; rewrite !elem_of_cons; auto.
Qed.

Lemma refl_changes f g l : Forall2 (own_change f g) l l.
Proof. apply Forall2_same_length_lookup_2; [done|]. intros i x y Hx Hy. left. congruence. Qed.

Lemma refl_rows c f g l : Forall2 (own_row_change c f g) l l.
Proof. apply Forall2_same_length_lookup_2; [done|]. intros i x y Hx Hy. assert (x = y) as -> by congruence. split; [done|by left]. Qed.

Lemma write_edit_last c e s s' : write_edit c e s = Ok s' ->
  ch_last s' = match ch_last s !! c with
               | Some m => if has_id (e_ref e) m then <[c := spread_patch m (edit_patch e)]> (ch_last s) else ch_last s
               | None => ch_last s
               end.
Proof.
  assert (Hpc : forall d id p s, ch_last (patch_cache d id p s) = ch_last s) by (intros d id p x; unfold patch_cache; by destruct (ch_cache x !! d)).
  unfold write_edit. intros H. apply res_bind_ok in H as (s1 & H & [= <-]). rewrite Hpc.
  assert (El : ch_last s1 = ch_last s).
  { unfold applyMessagePatch in H. destruct (_ || _); [by injection H as <-|]. destruct (negb _); [done|]. destruct (negb _); [done|].
    injection H as <-. by rewrite Hpc. }
  unfold patchChatMetaLastMessage. rewrite El. destruct (ch_last s !! c) as [m|]; [|done]. by destruct (has_id _ m).
Qed.

(** What an edit that is carried out says, and whose message it was judged on. *)
Lemma judged_owned m now f g payload v : applyInboundMessageEdit None payload now true = Ok (Changed v) ->
  forall e, applyInboundMessageEdit (Some m) payload now (editorOwnsOriginal (Some m) f g) = Ok (Changed e) ->
  e = v /\ editorOwnsOriginal (Some m) f g = true /\ e_ref v <> "".
Proof.
  intros Hv e Ha. unfold applyInboundMessageEdit in Hv, Ha. destruct (validateMessageEditPayload payload) as [e0|] eqn:Hp; [|done].
  cbn [res_bind negb] in Hv, Ha. destruct (too_new now e0); [done|]. injection Hv as <-.
  destruct (editorOwnsOriginal _ _ _); [|done]. cbn [negb] in Ha. split_and!; [|done|].
  - unfold judge_edit in Ha. by repeat case_match; simplify_eq.
  - clear -Hp. unfold validateMessageEditPayload in Hp. destruct (negb _); [done|]. destruct (bool_decide (trim _ = "")) eqn:Hr; [done|].
    apply bool_decide_eq_false_1 in Hr. by repeat case_match; simplify_eq.
Qed.

(** The preview of a chat as it was, or with another text. *)
Definition own_preview (f : string) (g : bool) (p p' : option fields) : Prop :=
  match p, p' with
  | None, None => True
  | Some m, Some m' => own_change f g m m'
  | _, _ => False
  end.

(** C24: only its sender changes a message.  After any history of messages that come, are sent,
    edited, reacted to, loaded and deleted, an edit that arrives from [f] for a chat, whatever it
    says, leaves every row, every message of the shown list and the preview of that chat as it
    was, or gives a message of that chat that [f] sent (never one of the owner's) another text
    and time of change.  The lists and previews of the other chats stay, and nothing is added
    or removed. *)
Theorem only_sender_edits now c f payload g s : chats_reach s -> trim c = c -> c <> "" ->
  let s' := snd (applyInboundChatEdit now c f payload g s) in
  Forall2 (own_row_change c f g) (ch_rows s) (ch_rows s') /\
  (forall d, if decide (d = c) then Forall2 (own_change f g) (cached s d) (cached s' d) else cached s' d = cached s d) /\
  (forall d, if decide (d = c) then own_preview f g (ch_last s !! d) (ch_last s' !! d) else ch_last s' !! d = ch_last s !! d).
Proof.
  intros Hreach Htc Hc. pose proof (chats_reach_sound s Hreach) as Hs. cbv zeta.
  assert (Hsame : Forall2 (own_row_change c f g) (ch_rows s) (ch_rows s) /\
    (forall d, if decide (d = c) then Forall2 (own_change f g) (cached s d) (cached s d) else cached s d = cached s d) /\
    (forall d, if decide (d = c) then own_preview f g (ch_last s !! d) (ch_last s !! d) else ch_last s !! d = ch_last s !! d)).
  { split; [apply refl_rows|]. split; [intros d; case_decide; [apply refl_changes|done]|].
    intros d; case_decide; [|done]. destruct (ch_last s !! d); [by left|done]. }
  unfold applyInboundChatEdit. destruct (applyInboundMessageEdit None payload now true) as [[ref|v]|] eqn:Hv; [done| |done].
  destruct (find_original s c (e_ref v)) as [m|] eqn:Hf; [|done].
  destruct (applyInboundMessageEdit (Some m) payload now _) as [[ref|e]|] eqn:Ha; [done| |done].
  destruct (judged_owned m now f g payload v Hv e Ha) as (-> & Ho & Hne). destruct (write_edit c v s) as [s'|] eqn:Hw; [|done]. cbn [snd].
  destruct (write_edit_spec c v s s' (sound_tidy _ Hs) Hw Hc Hne) as (Hrows & Hcache & _ & Hvalid). apply valid_nonempty in Hvalid.
  rewrite Htc in Hrows. split_and!.
  - rewrite Hrows. apply Forall2_fmap_r. apply Forall2_same_length_lookup_2; [done|]. intros i r q Hr Hq. assert (q = r) as -> by congruence.
    split; [apply patched_key|]. unfold patched. destruct (same_message _ _ r) eqn:Hsm; [right|by left]. apply same_message_key in Hsm.
    split_and!; [rewrite Htc; unfold row_key in Hsm; congruence| |apply edit_same_but_text].
    apply owns_sent_by, (owned_copy s c (e_ref v) m r f g Hs Hf Ho Htc Hvalid); [by eapply list_elem_of_lookup_2|done].
  - intros d. rewrite Hcache. case_decide as Hd; [|done]. rewrite Hd. apply patch_twice_changes. intros x Hx. apply find_some in Hx as [Hx Hid].
    apply list_elem_of_In in Hx. apply (owned_shown s c (e_ref v) m x f g Hs Hf Ho Hvalid); [by left|done].
  - intros d. rewrite (write_edit_last c v s s' Hw). case_decide as Hd.
    + subst d. destruct (ch_last s !! c) as [x|] eqn:Hx; [|by rewrite Hx]. destruct (has_id (e_ref v) x) eqn:Hid; [|rewrite Hx; by left].
      rewrite lookup_insert_eq. right. split; [|apply edit_same_but_text].
      apply owns_sent_by, (owned_shown s c (e_ref v) m x f g Hs Hf Ho Hvalid); [by right|done].
    + destruct (ch_last s !! c) as [x|]; [|done]. destruct (has_id _ x); [|done]. by rewrite lookup_insert_ne.
Qed.

(** ** Both sides agree *)

Lemma validate_edit payload e : validateMessageEditPayload payload = Ok e -> e_ref e <> "" /\ 0 < e_at e.
Proof.
  unfold validateMessageEditPayload. destruct (negb _); [done|]. destruct (bool_decide (trim _ = "")) eqn:Hr; [done|].
  apply bool_decide_eq_false_1 in Hr. intros H. repeat case_match; simplify_eq. bool_cases. cbn. split; [done|lia].
Qed.

Lemma inner_edit id text at_ sender messageId e : trim id = id -> id <> "" ->
  validateMessageEditPayload (buildMessageEditInner id text at_ sender messageId) = Ok e -> e = mk_edit id text at_.
Proof.
  intros Ht Hid. set (p := buildMessageEditInner _ _ _ _ _).
  assert (H : get p "kind" = Some (JStr MESSAGE_EDIT_KIND) /\ get p "refMessageId" = Some (JStr id) /\ get p "content" = Some (JStr text) /\
    get p "editedAt" = Some (JNum at_)) by done.
  clearbody p. destruct H as (H1 & H2 & H3 & H4). unfold validateMessageEditPayload. rewrite H1, H2, H3, H4. cbv zeta.
  cbn [string_or_empty truthy to_string to_number]. rewrite (bool_decide_eq_false_2 (id = "")) by done. cbn [negb]. rewrite Ht.
  intros H. by repeat case_match; simplify_eq.
Qed.

Lemma write_edit_ok c e s : valid_id c = true -> valid_id (e_ref e) = true -> c <> "" -> e_ref e <> "" -> exists s', write_edit c e s = Ok s'.
Proof.
  intros H1 H2 H3 H4. unfold write_edit, applyMessagePatch. rewrite !bool_decide_eq_false_2 by done. rewrite H1, H2. by eexists.
Qed.

Lemma write_edit_tidy c e s s' : tidy (ch_rows s) -> write_edit c e s = Ok s' -> c <> "" -> e_ref e <> "" -> tidy (ch_rows s').
Proof. intros Ht Hw Hc He. destruct (write_edit_spec c e s s' Ht Hw Hc He) as (-> & _). by apply tidy_patched. Qed.

(** A text message of that time. *)
Definition text_of (ts : Z) (m : fields) : Prop := is_chat m = true /\ to_number (get m "timestamp") = Some ts /\ 0 < ts.

Lemma text_of_edit ts m m' e : text_of ts m -> agrees (spread_patch m (edit_patch e)) m' -> text_of ts m'.
Proof.
  intros (H1 & H2 & H3) Ha. unfold text_of, is_chat. rewrite !Ha.
  rewrite !(edit_same_but_text m e) by by apply (bool_decide_unpack _). by split_and!.
Qed.

(** The text and the time of change of a message. *)
Definition version (m : fields) : option json * option json := (get m "content", get m "editedAt").

Lemma version_edit m m' e : agrees (spread_patch m (edit_patch e)) m' -> version m' = (Some (JStr (e_content e)), Some (JNum (e_at e))).
Proof. intros Ha. unfold version. rewrite !Ha, !get_edit. by repeat case_decide. Qed.

(** Edits that follow each other. *)
Fixpoint ascending (t : Z) (es : list edit) : Prop :=
  match es with [] => True | e :: rest => t < e_at e /\ ascending (e_at e) rest end.

Lemma ascending_above t es e : ascending t es -> e ∈ es -> t < e_at e.
Proof.
  revert t. induction es as [|x es IH]; intros t; [intros _ H; by apply elem_of_nil in H|]. intros [Hx Hes] [->|He]%elem_of_cons; [done|].
  specialize (IH _ Hes He). lia.
Qed.

(** The last edit has the latest time, alone. *)
Lemma ascending_last t es l e : ascending t es -> last es = Some l -> e ∈ es -> e = l \/ e_at e < e_at l.
Proof.
  revert t. induction es as [|x es IH]; intros t; [done|]. intros [Hx Hes] Hl He. destruct es as [|y es].
  - injection Hl as <-. apply list_elem_of_singleton in He. by left.
  - change (last (y :: es) = Some l) in Hl. apply elem_of_cons in He as [->|He]; [|by eapply IH]. right.
    apply (ascending_above _ _ _ Hes). by apply last_Some_elem_of.
Qed.

Section both_sides.
Context (ts : Z) (id : string).
Hypothesis Hid : id <> "".
Hypothesis Htrim : trim id = id.
Hypothesis Hvid : valid_id id = true.

(** A payload of an edit of the message, within the time for edits. *)
Definition timely (p : fields) (e : edit) : Prop :=
  validateMessageEditPayload p = Ok e /\ e_ref e = id /\ e_at e - ts <= MESSAGE_EDIT_WINDOW_MS.

Lemma judge_timely m now p e : text_of ts m -> timely p e -> e_at e <= now + CLOCK_TOLERANCE ->
  judge_edit m now e = if match to_number (get m "editedAt") with Some prev => Z.ltb 0 prev && Z.leb (e_at e) prev | None => false end
                       then Ok (Skipped id) else Ok (Changed e).
Proof.
  intros (H1 & H2 & H3) (Hv & Hr & Hw) Ht. unfold judge_edit. rewrite H1, H2. cbn [negb].
  destruct (Z.leb_spec ts 0); [lia|]. destruct (Z.ltb_spec MESSAGE_EDIT_WINDOW_MS (e_at e - ts)); [lia|].
  cbv zeta. rewrite Hr. destruct (match to_number _ with Some _ => _ | None => _ end); [done|].
  unfold too_new. by destruct (Z.ltb_spec (now + CLOCK_TOLERANCE) (e_at e)); [lia|].
Qed.

(** *** The side of the author *)

Section author.
Context (u : sender) (b : string).
Hypothesis Hb : valid_id b = true.
Hypothesis Hb0 : b <> "".
Hypothesis Hpair : isGroupChatId (Some (JStr b)) = false.
Hypothesis Hknows : contactHasPeerFeature (List.find (fun c => is_from (get c "id") b) (contacts u)) PEER_FEATURE_MESSAGE_EDIT = true.

Lemma author_step now mid text sent s m r ps s1 : tidy (ch_rows s) -> text_of ts m -> List.find (has_id id) (cached s b) = Some m ->
  0 <= number_or_zero (get m "editedAt") -> sendMessageEdit u now mid b id text sent s = (r, ps, s1) ->
  ps = [] /\ s1 = s \/
  exists p e m1, ps = [ToPeer b p] /\ timely p e /\ number_or_zero (get m "editedAt") < e_at e /\ tidy (ch_rows s1) /\
    List.find (has_id id) (cached s1 b) = Some m1 /\ agrees (spread_patch m (edit_patch e)) m1.
Proof.
  intros Htd Hm Hf H0 Hs. unfold sendMessageEdit in Hs. rewrite Hf in Hs. destruct (negb _); [injection Hs as _ <- <-; by left|].
  set (at_ := Z.max now (number_or_zero (get m "editedAt") + 1)) in *. set (p := buildMessageEditInner id text at_ (displayName u) mid) in *.
  unfold applyInboundMessageEdit in Hs. destruct (validateMessageEditPayload p) as [e|] eqn:Hv; [|injection Hs as _ <- <-; by left].
  cbn [res_bind negb] in Hs. destruct (judge_edit m now e) as [[|e']|] eqn:Hj; [injection Hs as _ <- <-; by left| |injection Hs as _ <- <-; by left].
  assert (He : e = mk_edit id text at_)
    by (by apply (inner_edit id text at_ (displayName u) mid)).
  assert (Hje : e' = e /\ e_at e - ts <= MESSAGE_EDIT_WINDOW_MS).
  { clear -Hj Hm. unfold judge_edit in Hj. destruct Hm as (H1 & H2 & H3). rewrite H1, H2 in Hj. cbn [negb] in Hj.
    destruct (Z.leb ts 0); [done|]. destruct (Z.ltb_spec MESSAGE_EDIT_WINDOW_MS (e_at e - ts)); [done|]. cbv zeta in Hj.
    destruct (match to_number _ with Some _ => _ | None => _ end); [done|]. destruct (too_new now e); [done|]. injection Hj as <-. by split. }
  destruct Hje as [-> Hw]. rewrite Hpair in Hs. cbv zeta in Hs.
  assert (Hee : mk_edit id (e_content e) (e_at e) = e) by (by rewrite He). rewrite Hee in Hs.
  destruct (write_edit_ok b e s Hb ltac:(by rewrite He) Hb0 ltac:(by rewrite He)) as [s' Hwr]. rewrite Hwr in Hs.
  unfold send_to_peer in Hs. rewrite Hknows in Hs. cbn [negb] in Hs. injection Hs as _ <- <-. right.
  assert (Hne : e_ref e <> "") by (by rewrite He). destruct (write_edit_spec b e s s' Htd Hwr Hb0 Hne) as (_ & Hca & _ & _).
  eexists p, e, _. split_and!; [done| | | |rewrite Hca, decide_True by done; rewrite He; cbn [e_ref]; rewrite !find_patch_first, Hf; reflexivity|].
  - split_and!; [done|by rewrite He|done].
  - rewrite He. cbn [e_at]. unfold at_. lia.
  - by apply (write_edit_tidy b e s).
  - rewrite He. apply twice.
Qed.

(** The edits of the author one after the other, with the payloads that are sent. *)
Fixpoint author_run (edits : list (Z * string * string * bool)) (s : chats) : list fields * chats :=
  match edits with
  | [] => ([], s)
  | (now, mid, text, sent) :: rest =>
      let '(_, ps, s) := sendMessageEdit u now mid b id text sent s in
      let '(qs, s) := author_run rest s in
      (map (fun p => match p with ToPeer _ inner => inner | ToMember _ envelope => envelope end) ps ++ qs, s)
  end.

Lemma author_edits edits : forall s m, tidy (ch_rows s) -> text_of ts m -> List.find (has_id id) (cached s b) = Some m ->
  0 <= number_or_zero (get m "editedAt") ->
  exists es m', Forall2 timely (fst (author_run edits s)) es /\ ascending (number_or_zero (get m "editedAt")) es /\
    List.find (has_id id) (cached (snd (author_run edits s)) b) = Some m' /\
    version m' = match last es with Some e => (Some (JStr (e_content e)), Some (JNum (e_at e))) | None => version m end.
Proof.
  induction edits as [|[[[now mid] text] sent] edits IH]; intros s m Htd Hm Hf H0; cbn [author_run].
  - exists [], m. by split_and!.
  - destruct (sendMessageEdit u now mid b id text sent s) as [[r ps] s1] eqn:Hs.
    destruct (author_step _ _ _ _ _ _ _ _ _ Htd Hm Hf H0 Hs) as [[-> ->]|(p & e & m1 & -> & Hp & Hlt & Htd1 & Hf1 & Ha)].
    + destruct (IH s m Htd Hm Hf H0) as (es & m' & H1 & H2 & H3 & H4). destruct (author_run edits s) as [qs s2]. by exists es, m'.
    + assert (Hn1 : number_or_zero (get m1 "editedAt") = e_at e) by (rewrite Ha, get_edit; by repeat case_decide).
      destruct (IH s1 m1 Htd1 (text_of_edit _ _ _ _ Hm Ha) Hf1 ltac:(lia)) as (es & m' & H1 & H2 & H3 & H4).
      destruct (author_run edits s1) as [qs s2]. exists (e :: es), m'. rewrite Hn1 in H2. split; [by constructor|]. split; [by split|]. split; [done|].
      rewrite H4. destruct es as [|x es]; [by apply (version_edit m)|]. change (last (e :: x :: es)) with (last (x :: es)).
      destruct (last (x :: es)) eqn:Hl; [done|]. by apply last_None in Hl.
Qed.
End author.

(** *** The side of the receiver *)

Section receiver.
Context (a : string).
Hypothesis Ha : valid_id a = true.
Hypothesis Ha0 : a <> "".
Hypothesis Hself : a <> "self".

(** Payloads that arrive from the author, each at a time of the receiver's clock. *)
Definition deliver (ds : list (Z * fields)) (s : chats) : chats :=
  fold_left (fun s d => snd (applyInboundChatEdit d.1 a a d.2 false s)) ds s.

(** The message as the receiver finds it. *)
Record received (s : chats) (m : fields) : Prop := mk_received {
  rv_tidy : tidy (ch_rows s);
  rv_text : text_of ts m;
  rv_found : find_original s a id = Some m;
  rv_from : get m "from" = Some (JStr a)
}.

Lemma receiver_step now p e s m : received s m -> timely p e -> e_at e <= now + CLOCK_TOLERANCE ->
  exists m', received (snd (applyInboundChatEdit now a a p false s)) m' /\
    if Z.ltb (number_or_zero (get m "editedAt")) (e_at e) then version m' = (Some (JStr (e_content e)), Some (JNum (e_at e))) else version m' = version m.
Proof.
  intros [Ht Hm Hf Hfrom] Hp Hnow. pose proof (judge_timely m now p e Hm Hp Hnow) as Hj. destruct Hp as (Hv & Hr & Hw).
  destruct (validate_edit _ _ Hv) as [Hne Hpos]. unfold applyInboundChatEdit, applyInboundMessageEdit. rewrite Hv. cbn [res_bind negb].
  unfold too_new. destruct (Z.ltb_spec (now + CLOCK_TOLERANCE) (e_at e)); [lia|]. rewrite Hr, Hf.
  assert (Ho : editorOwnsOriginal (Some m) a false = true).
  { unfold editorOwnsOriginal, from_self, is_from. rewrite Hfrom, !bool_decide_eq_false_2 by (done || congruence). by rewrite bool_decide_eq_true_2. }
  rewrite Ho. cbn [negb]. rewrite Hj. unfold number_or_zero.
  destruct (match to_number (get m "editedAt") with Some prev => Z.ltb 0 prev && Z.leb (e_at e) prev | None => false end) eqn:Hst.
  - exists m. split; [done|]. destruct (to_number (get m "editedAt")) as [prev|]; [|done]. bool_cases. change (default 0 (Some prev)) with prev.
    by destruct (Z.ltb_spec prev (e_at e)); [lia|].
  - assert (Hlt : Z.ltb (default 0 (to_number (get m "editedAt"))) (e_at e) = true).
    { apply Z.ltb_lt. destruct (to_number (get m "editedAt")) as [prev|]; [change (default 0 (Some prev)) with prev|exact Hpos]. bool_cases; lia. }
    rewrite Hlt. destruct (write_edit_ok a e s Ha ltac:(by rewrite Hr) Ha0 Hne) as [s' Hwr]. rewrite Hwr. cbn [snd].
    rewrite <- Hr in Hf. destruct (find_after_edit a e s s' m Ht Ha0 Hne Hwr Hf) as (m' & Hf' & Hag). exists m'. split; [|by apply (version_edit m)].
    constructor; [by apply (write_edit_tidy a e s)|by eapply text_of_edit|by rewrite Hr in Hf'|].
    rewrite Hag, (edit_same_but_text m e "from"); [done|]. by apply (bool_decide_unpack _).
Qed.

(** The newest of the edits that have arrived, or the message as it was. *)
Definition newest (m0 : fields) (seen : list edit) (m : fields) : Prop :=
  seen = [] /\ version m = version m0 \/
  exists e, e ∈ seen /\ version m = (Some (JStr (e_content e)), Some (JNum (e_at e))) /\ forall x, x ∈ seen -> e_at x <= e_at e.

Lemma receiver_run m0 ds : forall s m seen es, received s m -> newest m0 seen m ->
  Forall2 (fun (d : Z * fields) e => timely d.2 e /\ e_at e <= d.1 + CLOCK_TOLERANCE /\ number_or_zero (get m0 "editedAt") < e_at e) ds es ->
  exists m', received (deliver ds s) m' /\ newest m0 (seen ++ es) m'.
Proof.
  induction ds as [|[now p] ds IH]; intros s m seen es Hr Hn Hd; [apply Forall2_nil_inv_l in Hd as ->; exists m; by rewrite app_nil_r|].
  apply Forall2_cons_inv_l in Hd as (e & es' & (Hp & Hnow & Hlt) & Hd & ->). cbn [fst snd] in *.
  destruct (receiver_step now p e s m Hr Hp Hnow) as (m1 & Hr1 & Hv).
  assert (Hn1 : newest m0 (seen ++ [e]) m1).
  { right. destruct Hn as [[-> Hv0]|(x & Hx & Hvx & Hmax)].
    - assert (Hv0' : get m "editedAt" = get m0 "editedAt") by (unfold version in Hv0; congruence). rewrite Hv0' in Hv.
      destruct (Z.ltb_spec (number_or_zero (get m0 "editedAt")) (e_at e)); [|lia]. exists e. split_and!; [by left|done|].
      intros x Hx. apply list_elem_of_singleton in Hx as ->. lia.
    - assert (Hvx' : get m "editedAt" = Some (JNum (e_at x))) by (unfold version in Hvx; congruence). rewrite Hvx' in Hv. cbn in Hv.
      destruct (Z.ltb_spec (e_at x) (e_at e)); [exists e|exists x]; (split; [apply elem_of_app; (by left) || (right; by left)|]);
        (split; [congruence|]); intros y Hy; apply elem_of_app in Hy as [Hy|Hy]; try (apply list_elem_of_singleton in Hy as ->);
        try (specialize (Hmax _ Hy)); lia. }
  destruct (IH _ m1 (seen ++ [e]) es' Hr1 Hn1 Hd) as (m' & Hr' & Hn'). exists m'. split; [done|]. by rewrite <- app_assoc in Hn'.
Qed.
End receiver.
End both_sides.

Lemma validate_time p e : validateMessageEditPayload p = Ok e -> number_or_zero (get p "editedAt") = e_at e.
Proof.
  unfold validateMessageEditPayload. destruct (negb _); [done|]. destruct (bool_decide (trim _ = "")); [done|]. intros H.
  repeat case_match; simplify_eq. unfold number_or_zero. by match goal with E : to_number _ = Some _ |- _ => rewrite E end.
Qed.

(** The edits behind the payloads that arrive. *)
Lemma delivered_edits ts id t0 sent es ds : Forall2 (timely ts id) sent es -> ascending t0 es ->
  (forall d, d ∈ ds -> d.2 ∈ sent /\ number_or_zero (get d.2 "editedAt") <= d.1 + CLOCK_TOLERANCE) ->
  exists ds_es, Forall2 (fun (d : Z * fields) e => timely ts id d.2 e /\ e_at e <= d.1 + CLOCK_TOLERANCE /\ t0 < e_at e) ds ds_es /\
    forall e, e ∈ ds_es -> e ∈ es.
Proof.
  intros Hse Hasc. induction ds as [|d ds IH]; intros Hd; [exists []; split; [constructor|]; by intros e He%elem_of_nil|].
  destruct IH as (l & Hl & Hin); [intros x Hx; apply Hd; by right|].
  destruct (Hd d ltac:(by left)) as [Hs Ht]. apply list_elem_of_lookup in Hs as [i Hi].
  destruct (Forall2_lookup_l _ _ _ _ _ Hse Hi) as (e & He & Hte). exists (e :: l). split.
  - constructor; [|done]. destruct Hte as (Hv & Hr & Hw). rewrite (validate_time _ _ Hv) in Ht. split_and!; try done.
    apply (ascending_above _ _ _ Hasc). by eapply list_elem_of_lookup_2.
  - intros x [->|Hx]%elem_of_cons; [by eapply list_elem_of_lookup_2|by apply Hin].
Qed.

(** C25: both sides of a chat agree on an edited message.  The author edits a message it has sent
    any number of times; once every payload it sent has arrived, in any order and however often,
    the message the peer finds has the text and the time of change of the author's own copy,
    provided that the peer's clock is at most five minutes behind. *)
Theorem edits_converge u a b id ts edits ds sa sb ma mb :
  valid_id a = true -> valid_id b = true -> valid_id id = true -> trim id = id -> a <> "" -> a <> "self" -> b <> "" -> id <> "" ->
  isGroupChatId (Some (JStr b)) = false ->
  contactHasPeerFeature (List.find (fun c => is_from (get c "id") b) (contacts u)) PEER_FEATURE_MESSAGE_EDIT = true ->
  tidy (ch_rows sa) -> text_of ts ma -> List.find (has_id id) (cached sa b) = Some ma -> 0 <= number_or_zero (get ma "editedAt") ->
  received ts id a sb mb -> version mb = version ma ->
  let '(sent, sa') := author_run id u b edits sa in
  (forall d, d ∈ ds -> d.2 ∈ sent /\ number_or_zero (get d.2 "editedAt") <= d.1 + CLOCK_TOLERANCE) ->
  (forall p, p ∈ sent -> exists t, (t, p) ∈ ds) ->
  exists ma' mb', List.find (has_id id) (cached sa' b) = Some ma' /\ find_original (deliver a ds sb) a id = Some mb' /\ version mb' = version ma'.
Proof.
  intros Ha Hb Hvid Htrim Ha0 Hself Hb0 Hid Hpair Hknows Htd Hm Hf H0 Hr Hv.
  destruct (author_edits ts id Hid Htrim Hvid u b Hb Hb0 Hpair Hknows edits sa ma Htd Hm Hf H0) as (es & ma' & Hes & Hasc & Hfa & Hva).
  destruct (author_run id u b edits sa) as [sent sa']. cbn [fst snd] in *. intros Hin Hall.
  assert (Hed : get mb "editedAt" = get ma "editedAt") by (unfold version in Hv; congruence).
  destruct (delivered_edits ts id _ sent es ds Hes Hasc Hin) as (des & Hds & Hsub). rewrite <- Hed in Hds.
  destruct (receiver_run ts id Hvid a Ha Ha0 Hself mb ds sb mb [] des Hr ltac:(by left) Hds) as (mb' & Hr' & Hn).
  exists ma', mb'. split_and!; [done|by apply Hr'|]. rewrite Hva. cbn [app] in Hn.
  assert (Hback : forall e, e ∈ es -> e ∈ des).
  { intros e He. apply list_elem_of_lookup in He as [i Hi]. destruct (Forall2_lookup_r _ _ _ _ _ Hes Hi) as (p & Hp & (Hvp & _)).
    destruct (Hall p ltac:(by eapply list_elem_of_lookup_2)) as [t Ht]. apply list_elem_of_lookup in Ht as [j Hj].
    destruct (Forall2_lookup_l _ _ _ _ _ Hds Hj) as (e' & He' & ((Hvp' & _) & _)). cbn [snd] in Hvp'.
    assert (e' = e) as <- by congruence. by eapply list_elem_of_lookup_2. }
  destruct (last es) as [l|] eqn:Hl.
  - assert (Hlin : l ∈ des) by (apply Hback; by apply last_Some_elem_of).
    destruct Hn as [[-> _]|(e & He & -> & Hmax)]; [by apply elem_of_nil in Hlin|].
    destruct (ascending_last _ _ _ _ Hasc Hl (Hsub e He)) as [->|Hlt]; [done|]. specialize (Hmax l Hlin). lia.
  - apply last_None in Hl as ->. destruct Hn as [[_ Hn]|(e & He & _)]; [congruence|]. by apply Hsub, elem_of_nil in He.
Qed.

(** *** Two sides of a chat: ann has written to bob. *)

Definition hello (from : string) : fields :=
  [("kind", JStr "chat"); ("messageId", JStr "m1"); ("from", JStr from); ("timestamp", JNum 1000); ("content", JStr "helo")].

Definition side (chat from : string) : chats :=
  mk_chats {[chat := [hello from]]} [Sync.mk_row chat "m1" (hello from)] {[chat := hello from]}.

Definition ann : sender := mk_sender "ann" "Ann" [[("id", JStr "bob"); ("features", JArr [JStr "message-edit"])]] [].

Definition corrections : list (Z * string * string * bool) :=
  [(2000, "e1", "hello", true); (2000, "e2", "hello!", false)].

(** The second edit arrives first, and again after the first. *)
Definition arrivals : list (Z * fields) :=
  let sent := fst (author_run "m1" ann "bob" corrections (side "bob" "self")) in
  map (pair 0) (rev sent ++ rev sent).

Lemma side_tidy chat from : trim chat = chat -> tidy (ch_rows (side chat from)).
Proof.
  intros Hc. constructor.
  - intros r Hr. by apply list_elem_of_singleton in Hr as ->.
  - intros [|i] [|j] r q Hi Hj; try done.
Qed.

(** Bob's device after ann's and its own message, and a forged edit of its own by ann. *)
Definition own_hi : fields := [("kind", JStr "chat"); ("messageId", JStr "m2"); ("from", JStr "self"); ("timestamp", JNum 1200); ("content", JStr "hi")].

Definition bobs_chats : chats :=
  own_message "ann" own_hi own_hi
    (match receive_message true "ann" (hello "ann") (mk_chats ∅ [] ∅) with Ok s => s | Err _ => mk_chats ∅ [] ∅ end).

Lemma bobs_reach : chats_reach bobs_chats.
Proof.
  eapply reach_next; [eapply reach_next; [apply reach_empty|]|].
  - by apply (step_receive _ true "ann" (hello "ann")).
  - by apply (step_own _ "ann" own_hi own_hi "m2").
Qed.

Definition edit_by_ann (id text : string) : chats :=
  snd (applyInboundChatEdit 2000 "ann" "ann" (buildMessageEditInner id text 1500 "Ann" "e9") false bobs_chats).

Lemma only_sender_edits_witness :
  Forall2 (own_row_change "ann" "ann" false) (ch_rows bobs_chats) (ch_rows (edit_by_ann "m2" "forged")) /\
  own_preview "ann" false (ch_last bobs_chats !! "ann") (ch_last (edit_by_ann "m2" "forged") !! "ann") /\
  edit_by_ann "m2" "forged" = bobs_chats /\ edit_by_ann "m1" "hello" <> bobs_chats.
Proof.
  destruct (only_sender_edits 2000 "ann" "ann" (buildMessageEditInner "m2" "forged" 1500 "Ann" "e9") false bobs_chats bobs_reach eq_refl)
    as (H1 & _ & H2); [discriminate|].
  split; [exact H1|]. split; [exact (H2 "ann")|]. split; [vm_compute; reflexivity|].
  intros E. apply (f_equal (fun s => map (fun r => get (row_value r) "content") (ch_rows s))) in E. vm_compute in E. discriminate E.
Defined.

Lemma edits_converge_witness :
  exists ma' mb', List.find (has_id "m1") (cached (snd (author_run "m1" ann "bob" corrections (side "bob" "self"))) "bob") = Some ma' /\
    find_original (deliver "ann" arrivals (side "ann" "ann")) "ann" "m1" = Some mb' /\ version mb' = version ma'.
Proof.
  pose proof (edits_converge ann "ann" "bob" "m1" 1000 corrections arrivals (side "bob" "self") (side "ann" "ann") (hello "self") (hello "ann")) as H.
  assert (Hrec : received 1000 "m1" "ann" (side "ann" "ann") (hello "ann")) by (constructor; [by apply side_tidy|by split_and!|done|done]).
  specialize (H eq_refl eq_refl eq_refl eq_refl ltac:(done) ltac:(done) ltac:(done) ltac:(done) eq_refl eq_refl
    (side_tidy "bob" "self" eq_refl) ltac:(by split_and!) eq_refl ltac:(done) Hrec eq_refl).
  destruct (author_run "m1" ann "bob" corrections (side "bob" "self")) as [sent sa'] eqn:E. cbn [snd].
  assert (Hs : sent = fst (author_run "m1" ann "bob" corrections (side "bob" "self"))) by (by rewrite E).
  assert (Har : arrivals = map (pair 0) (rev sent ++ rev sent)) by (by rewrite Hs).
  apply H.
  - intros d Hd. rewrite Har in Hd. apply list_elem_of_fmap in Hd as (p & -> & Hp). cbn [fst snd].
    assert (Hp' : p ∈ sent) by (apply elem_of_app in Hp as [Hp|Hp]; by apply list_elem_of_In, in_rev, list_elem_of_In in Hp). split; [done|].
    assert (Hb : Forall (fun p => number_or_zero (get p "editedAt") <= 0 + CLOCK_TOLERANCE) sent)
      by (rewrite Hs; apply (bool_decide_unpack _); vm_compute; exact I).
    rewrite Forall_forall in Hb. by apply Hb.
  - intros p Hp. exists 0. rewrite Har. apply list_elem_of_fmap. exists p. split; [done|]. apply elem_of_app. left.
    by apply list_elem_of_In, in_rev; rewrite rev_involutive; apply list_elem_of_In.
Defined.
