(* ===== verification/JsonText.v ===== *)
(** * The text of JSON values ([JSON.stringify] and [JSON.parse])

    What the standard library of JavaScript does with the values of [Json]: the text of a
    value without spaces, and a recursive-descent reader of texts.  Texts are lists of
    characters.  A text with a fraction, an exponent, or a character above 255 has no value
    here and is refused like a malformed one.  [parse_stringify]: reading gives back what was
    written. *)

From stdpp Require Import pretty.
From S2P Require Import Prelude Bytes Json.

Definition str (s : string) : list ascii := String.list_ascii_of_string s.
Definition quote_char : ascii := "034"%char.
Definition backslash : ascii := "092"%char.

(** ** Writing *)

Definition code (c : ascii) : Z := Z.of_nat (Ascii.nat_of_ascii c).

(** A character of a string literal. *)
Definition escape (c : ascii) : list ascii :=
  if bool_decide (c = quote_char) then [backslash; quote_char]
  else if bool_decide (c = backslash) then [backslash; backslash]
  else if Z.eqb (code c) 8 then [backslash; "b"%char]
  else if Z.eqb (code c) 9 then [backslash; "t"%char]
  else if Z.eqb (code c) 10 then [backslash; "n"%char]
  else if Z.eqb (code c) 12 then [backslash; "f"%char]
  else if Z.eqb (code c) 13 then [backslash; "r"%char]
  else if Z.ltb (code c) 32 then [backslash; "u"%char; "0"%char; "0"%char; hex_digit (code c / 16); hex_digit (code c mod 16)]
  else [c].

Definition quoted (s : string) : list ascii := quote_char :: flat_map escape (str s) ++ [quote_char].

Definition number_text (n : Z) : list ascii := str (pretty n).

(** Items separated by commas. *)
Fixpoint commas (l : list (list ascii)) : list ascii :=
  match l with
  | [] => []
  | [x] => x
  | x :: rest => x ++ ","%char :: commas rest
  end.

Fixpoint stringify (v : json) : list ascii :=
  match v with
  | JNull => str "null"
  | JBool true => str "true"
  | JBool false => str "false"
  | JNum n => number_text n
  | JStr s => quoted s
  | JArr items => "["%char :: commas (map stringify items) ++ ["]"%char]
  | JObj f => "{"%char :: commas (map (fun kv => quoted kv.1 ++ ":"%char :: stringify kv.2) f) ++ ["}"%char]
  end.

(** ** Reading *)

Definition is_space (c : ascii) : bool :=
  Z.eqb (code c) 32 || Z.eqb (code c) 9 || Z.eqb (code c) 10 || Z.eqb (code c) 13.

Fixpoint skip (s : list ascii) : list ascii :=
  match s with c :: rest => if is_space c then skip rest else s | [] => [] end.

(** [s] without the prefix [p]. *)
Fixpoint expect (p s : list ascii) : option (list ascii) :=
  match p, s with
  | [], _ => Some s
  | c :: p', d :: s' => if bool_decide (c = d) then expect p' s' else None
  | _ :: _, [] => None
  end.

(** The character that two or four hexadecimal digits stand for, up to 255. *)
Definition hex4 (a b c d : ascii) : option ascii :=
  match hex_value a, hex_value b, hex_value c, hex_value d with
  | Some 0, Some 0, Some h, Some l => Some (Ascii.ascii_of_nat (Z.to_nat (16 * h + l)))
  | _, _, _, _ => None
  end.

Definition unescape (c : ascii) : option ascii :=
  if bool_decide (c = quote_char) then Some quote_char
  else if bool_decide (c = backslash) then Some backslash
  else if bool_decide (c = "/"%char) then Some "/"%char
  else if bool_decide (c = "b"%char) then Some "008"%char
  else if bool_decide (c = "t"%char) then Some "009"%char
  else if bool_decide (c = "n"%char) then Some "010"%char
  else if bool_decide (c = "f"%char) then Some "012"%char
  else if bool_decide (c = "r"%char) then Some "013"%char
  else None.

(** The rest of a string literal after its opening quote. *)
Fixpoint read_string (s : list ascii) : option (list ascii * list ascii) :=
  match s with
  | [] => None
  | c :: rest =>
      if bool_decide (c = quote_char) then Some ([], rest)
      else if Z.ltb (code c) 32 then None
      else if bool_decide (c = backslash) then
        match rest with
        | e :: rest' =>
            if bool_decide (e = "u"%char) then
              match rest' with
              | h1 :: h2 :: h3 :: h4 :: rest'' =>
                  match hex4 h1 h2 h3 h4, read_string rest'' with
                  | Some x, Some (t, r) => Some (x :: t, r)
                  | _, _ => None
                  end
              | _ => None
              end
            else
              match unescape e, read_string rest' with
              | Some x, Some (t, r) => Some (x :: t, r)
              | _, _ => None
              end
        | [] => None
        end
      else match read_string rest with Some (t, r) => Some (c :: t, r) | None => None end
  end.

(** The longest run of digits. *)
Fixpoint read_digits (s : list ascii) : list ascii * list ascii :=
  match s with
  | c :: rest => if is_digit c then let '(d, r) := read_digits rest in (c :: d, r) else ([], s)
  | [] => ([], [])
  end.

Definition unstr (l : list ascii) : string := String.string_of_list_ascii l.

(** No fraction or exponent follows. *)
Definition integer_ends (rest : list ascii) : bool :=
  match rest with
  | c :: _ => negb (bool_decide (c = "."%char) || bool_decide (c = "e"%char) || bool_decide (c = "E"%char))
  | [] => true
  end.

Definition natural (s : list ascii) : option (Z * list ascii) :=
  let '(digits, rest) := read_digits s in
  match digits with
  | [] => None
  | c :: more =>
      if bool_decide (c = "0"%char) && negb (bool_decide (more = [])) then None
      else if integer_ends rest then
        match decimal (unstr digits) 0 with Some n => Some (n, rest) | None => None end
      else None
  end.

Definition read_number (s : list ascii) : option (Z * list ascii) :=
  match s with
  | c :: rest =>
      if bool_decide (c = "-"%char) then
        match natural rest with Some (n, r) => Some (- n, r) | None => None end
      else natural s
  | [] => None
  end.

(** A value, the items of an array after its bracket, the fields of an object after its brace.
    Every call reads a character or ends a list, so that the length of the text is fuel enough
    ([parse_stringify] for the texts that are written). *)
Fixpoint read_value (fuel : nat) (s0 : list ascii) : option (json * list ascii) :=
  match fuel with
  | O => None
  | S fuel' =>
      let s := skip s0 in
      match s with
      | [] => None
      | c :: rest =>
          if bool_decide (c = quote_char) then
            match read_string rest with Some (t, r) => Some (JStr (unstr t), r) | None => None end
          else if bool_decide (c = "["%char) then
            match expect (str "]") (skip rest) with
            | Some r => Some (JArr [], r)
            | None => match read_items fuel' rest with Some (l, r) => Some (JArr l, r) | None => None end
            end
          else if bool_decide (c = "{"%char) then
            match expect (str "}") (skip rest) with
            | Some r => Some (JObj [], r)
            | None => match read_fields fuel' [] rest with Some (f, r) => Some (JObj f, r) | None => None end
            end
          else if bool_decide (c = "n"%char) then option_map (pair JNull) (expect (str "null") s)
          else if bool_decide (c = "t"%char) then option_map (pair (JBool true)) (expect (str "true") s)
          else if bool_decide (c = "f"%char) then option_map (pair (JBool false)) (expect (str "false") s)
          else match read_number s with Some (n, r) => Some (JNum n, r) | None => None end
      end
  end
with read_items (fuel : nat) (s : list ascii) : option (list json * list ascii) :=
  match fuel with
  | O => None
  | S fuel' =>
      match read_value fuel' s with
      | None => None
      | Some (v, r) =>
          match skip r with
          | c :: r' =>
              if bool_decide (c = "]"%char) then Some ([v], r')
              else if bool_decide (c = ","%char) then
                match read_items fuel' r' with Some (l, r'') => Some (v :: l, r'') | None => None end
              else None
          | [] => None
          end
      end
  end
with read_fields (fuel : nat) (acc : list (string * json)) (s : list ascii) : option (list (string * json) * list ascii) :=
  match fuel with
  | O => None
  | S fuel' =>
      match expect [quote_char] (skip s) with
      | None => None
      | Some r0 =>
          match read_string r0 with
          | None => None
          | Some (k, r1) =>
              match expect (str ":") (skip r1) with
              | None => None
              | Some r2 =>
                  match read_value fuel' r2 with
                  | None => None
                  | Some (v, r3) =>
                      let acc' := Json.set acc (unstr k) v in
                      match skip r3 with
                      | c :: r4 =>
                          if bool_decide (c = "}"%char) then Some (acc', r4)
                          else if bool_decide (c = ","%char) then read_fields fuel' acc' r4
                          else None
                      | [] => None
                      end
                  end
              end
          end
      end
  end.

(** [JSON.parse(text)]; [None] is the [SyntaxError]. *)
Definition parse (s : list ascii) : option json :=
  match read_value (S (length s)) s with
  | Some (v, rest) => if bool_decide (skip rest = []) then Some v else None
  | None => None
  end.

Example parse_sample : parse (str "[ 1 , -20, true , null]") =
  Some (JArr [JNum 1; JNum (-20); JBool true; JNull]).
Proof. vm_compute. reflexivity. Qed.

(** ** Reading what was written *)

(** No object has a name twice. *)
Fixpoint well_formed (v : json) : Prop :=
  match v with
  | JArr items => fold_right (fun P Q => P /\ Q) True (map well_formed items)
  | JObj f => unique f /\ fold_right (fun P Q => P /\ Q) True (map (fun kv => well_formed kv.2) f)
  | _ => True
  end.

(** The three forms of an escaped character. *)
Definition escape_form (c : ascii) : bool :=
  match escape c with
  | [x] => bool_decide (x = c) && negb (bool_decide (c = quote_char)) && negb (Z.ltb (code c) 32) && negb (bool_decide (c = backslash))
  | [x; e] => bool_decide (x = backslash) && negb (bool_decide (e = "u"%char)) && bool_decide (unescape e = Some c)
  | [x; u; h1; h2; h3; h4] => bool_decide (x = backslash) && bool_decide (u = "u"%char) && bool_decide (hex4 h1 h2 h3 h4 = Some c)
  | _ => false
  end.

Lemma escape_form_all c : escape_form c = true.
Proof. by destruct c as [[] [] [] [] [] [] [] []]. Qed.

(** One escaped character is read back. *)
Lemma read_escaped c s : read_string (escape c ++ s) =
  match read_string s with Some (t, r) => Some (c :: t, r) | None => None end.
Proof.
  pose proof (escape_form_all c) as Hc. unfold escape_form in Hc.
  destruct (escape c) as [|x [|e [|h1 [|h2 [|h3 [|h4 [|]]]]]]]; try discriminate Hc; bool_cases; subst; cbn [app read_string].
  - by rewrite bool_decide_eq_false_2, (proj2 (Z.ltb_ge _ _)), bool_decide_eq_false_2 by done.
  - replace (code backslash <? 32) with false by done. rewrite (bool_decide_eq_false_2 (e = "u"%char)) by done.
    by match goal with H : unescape e = _ |- _ => rewrite H end.
  - replace (code backslash <? 32) with false by done.
    by match goal with H : hex4 _ _ _ _ = _ |- _ => rewrite H end.
Qed.

Lemma read_quoted l rest : read_string (flat_map escape l ++ quote_char :: rest) = Some (l, rest).
Proof.
  induction l as [|c l IH]; [done|]. cbn [flat_map]. by rewrite <- app_assoc, read_escaped, IH.
Qed.

Lemma unstr_str s : unstr (str s) = s.
Proof. apply String.string_of_list_ascii_of_string. Qed.

(** *** Numbers *)

Lemma string_forallb_str f s : string_forallb f s = true -> forallb f (str s) = true.
Proof. induction s as [|c s IH]; [done|]. cbn. rewrite !andb_true_iff. intros [? ?]. split; [done|by apply IH]. Qed.

(** What may follow a number. *)
Definition boundary (rest : list ascii) : bool :=
  integer_ends rest && match rest with c :: _ => negb (is_digit c) | [] => true end.

Lemma read_digits_all d rest : forallb is_digit d = true -> boundary rest = true -> read_digits (d ++ rest) = (d, rest).
Proof.
  intros Hd [_ Hr]%andb_true_iff. induction d as [|c d IH]; cbn.
  - destruct rest as [|c rest]; [done|]. cbn. by destruct (is_digit c).
  - cbn in Hd. apply andb_true_iff in Hd as [Hc Hd]. by rewrite Hc, IH.
Qed.

(** The first digit of a positive number is not zero. *)
Lemma pretty_go_head x : forall s, (0 < x)%N -> exists c t, pretty_N_go x s = String c t /\ c <> "0"%char.
Proof.
  induction (N.lt_wf_0 x) as [x _ IH]. intros s Hx. rewrite pretty_N_go_step by done.
  destruct (decide (x < 10)%N) as [Hs|Hs].
  - assert (Hd : (x `div` 10 = 0)%N) by by apply N.div_small. rewrite Hd, N.mod_small by done.
    change (pretty_N_go 0 (String (pretty_N_char x) s)) with (String (pretty_N_char x) s). do 2 eexists. split; [done|].
    assert (Hin : x ∈ [1; 2; 3; 4; 5; 6; 7; 8; 9]%N) by (rewrite !elem_of_cons; lia). clear -Hin.
    rewrite !elem_of_cons, elem_of_nil in Hin. by repeat destruct Hin as [->|Hin].
  - apply IH; [by apply N.div_lt|]. apply N.div_str_pos. lia.
Qed.

Lemma pretty_head n : 0 <= n -> exists c t, (pretty n : string) = String c t /\ (c = "0"%char -> t = "").
Proof.
  intros Hn. rewrite pretty_nonneg by done. unfold pretty, pretty_N. case_decide as H.
  - by exists "0"%char, "".
  - destruct (pretty_go_head (Z.to_N n) "") as (c & t & -> & Hc); [lia|]. by exists c, t.
Qed.

Lemma natural_pretty n rest : 0 <= n -> boundary rest = true -> natural (str (pretty n) ++ rest) = Some (n, rest).
Proof.
  intros Hn Hb. unfold natural. rewrite read_digits_all by (done || by apply string_forallb_str, digits_pretty).
  pose proof (decimal_pretty_Z n Hn) as Hd. destruct (pretty_head n Hn) as (c & t & E & Hc). rewrite E in *.
  change (str (String c t)) with (c :: str t). cbv iota.
  replace (bool_decide (c = "0"%char) && negb (bool_decide (str t = []))) with false.
  - apply andb_true_iff in Hb as [-> _]. change (c :: str t) with (str (String c t)). by rewrite unstr_str, Hd.
  - symmetry. case_bool_decide as Hz; [|done]. by rewrite Hc.
Qed.

Lemma pretty_neg n : n < 0 -> (pretty n : string) = String "-" (pretty (- n)).
Proof. by destruct n. Qed.

Lemma digit_not_minus c : is_digit c = true -> c <> "-"%char.
Proof. by intros H ->. Qed.

Lemma read_number_text n rest : boundary rest = true -> read_number (number_text n ++ rest) = Some (n, rest).
Proof.
  intros Hb. unfold number_text. destruct (decide (0 <= n)) as [Hn|Hn].
  - destruct (pretty_head n Hn) as (c & t & E & _). pose proof (digits_pretty n Hn) as Hd. rewrite E in Hd. cbn in Hd.
    apply andb_true_iff in Hd as [Hd%digit_not_minus _].
    pose proof (natural_pretty n rest Hn Hb) as Hnat. rewrite E in *. cbn [str String.list_ascii_of_string app read_number] in *.
    by rewrite bool_decide_eq_false_2.
  - rewrite pretty_neg by lia. cbn [str String.list_ascii_of_string app read_number].
    rewrite bool_decide_eq_true_2 by done. fold (str (pretty (- n))). rewrite natural_pretty by (done || lia).
    by rewrite Z.opp_involutive.
Qed.

(** *** Values *)

Lemma expect_app p s : expect p (p ++ s) = Some s.
Proof. induction p as [|c p IH]; [done|]. cbn. by rewrite bool_decide_eq_true_2. Qed.

(** How the text of a value starts: not with a space, and not with a bracket or brace that closes. *)
Definition starts (c : ascii) : bool :=
  negb (is_space c) && negb (bool_decide (c = "]"%char)) && negb (bool_decide (c = "}"%char)).

Lemma number_starts n : exists c t, number_text n = c :: t /\ starts c = true
  /\ bool_decide (c = quote_char) = false /\ bool_decide (c = "["%char) = false /\ bool_decide (c = "{"%char) = false
  /\ bool_decide (c = "n"%char) = false /\ bool_decide (c = "t"%char) = false /\ bool_decide (c = "f"%char) = false.
Proof.
  assert (Hdig : forall c, is_digit c = true -> starts c = true
    /\ bool_decide (c = quote_char) = false /\ bool_decide (c = "["%char) = false /\ bool_decide (c = "{"%char) = false
    /\ bool_decide (c = "n"%char) = false /\ bool_decide (c = "t"%char) = false /\ bool_decide (c = "f"%char) = false)
    by (intros c; by destruct c as [[] [] [] [] [] [] [] []]).
  unfold number_text. destruct (decide (0 <= n)) as [Hn|Hn].
  - destruct (pretty_head n Hn) as (c & t & E & _). pose proof (digits_pretty n Hn) as Hd. rewrite E in Hd. cbn in Hd.
    apply andb_true_iff in Hd as [Hd _]. exists c, (str t). rewrite E. split; [done|by apply Hdig].
  - rewrite pretty_neg by lia. by exists "-"%char, (str (pretty (- n))).
Qed.

Lemma stringify_starts v : exists c t, stringify v = c :: t /\ starts c = true.
Proof.
  destruct v as [|[]|n|s|l|f]; cbn [stringify]; try by do 2 eexists.
  destruct (number_starts n) as (c & t & E & Hc & _). by exists c, t.
Qed.

Lemma starts_skip c t : starts c = true -> skip (c :: t) = c :: t.
Proof. unfold starts. rewrite !andb_true_iff, negb_true_iff. intros [[Hs _] _]. cbn. by rewrite Hs. Qed.

Lemma skip_value v rest : skip (stringify v ++ rest) = stringify v ++ rest.
Proof. destruct (stringify_starts v) as (c & t & -> & Hc). by apply starts_skip. Qed.

Lemma skip_quoted s rest : skip (quoted s ++ rest) = quoted s ++ rest.
Proof. done. Qed.

Lemma set_absent (f : list (string * json)) k v : k ∉ map fst f -> Json.set f k v = f ++ [(k, v)].
Proof.
  induction f as [|[k' w] f IH]; cbn; [done|]. rewrite not_elem_of_cons. intros [Hne Hn].
  rewrite bool_decide_eq_false_2 by congruence. by rewrite IH.
Qed.

Definition reads_back (v : json) : Prop :=
  forall fuel rest, (length (stringify v) < fuel)%nat -> boundary rest = true ->
    read_value fuel (stringify v ++ rest) = Some (v, rest).

Lemma commas_cons x y l : commas (x :: y :: l) = x ++ ","%char :: commas (y :: l).
Proof. done. Qed.

Lemma read_items_written l : forall fuel rest, l <> [] -> Forall reads_back l ->
  (length (commas (map stringify l)) + 2 <= fuel)%nat ->
  read_items fuel (commas (map stringify l) ++ "]"%char :: rest) = Some (l, rest).
Proof.
  induction l as [|v l IH]; intros fuel rest Hne Hl Hf; [done|]. apply Forall_cons in Hl as [Hv Hl].
  destruct fuel as [|fuel]; [lia|]. cbn [read_items]. destruct l as [|w l].
  - cbn [map commas] in *. by rewrite Hv by (done || lia).
  - cbn [map] in *. rewrite commas_cons in Hf |- *. rewrite length_app in Hf. cbn [length] in Hf.
    rewrite <- app_assoc. cbn [app]. rewrite Hv by (done || lia).
    change (skip (","%char :: ?s)) with (","%char :: s). cbv iota.
    rewrite (bool_decide_eq_false_2 (","%char = "]"%char)), (bool_decide_eq_true_2 (","%char = ","%char)) by done.
    rewrite IH; [done..|lia].
Qed.

Definition field_text (kv : string * json) : list ascii := quoted kv.1 ++ ":"%char :: stringify kv.2.

Lemma field_text_length kv : (length (stringify kv.2) < length (field_text kv))%nat.
Proof. unfold field_text, quoted. repeat (cbn [length app]; rewrite ?length_app). lia. Qed.

Lemma commas_head x l : (length x <= length (commas (x :: l)))%nat.
Proof. destruct l; [done|]. rewrite commas_cons, length_app. lia. Qed.

Lemma read_fields_written f : forall fuel acc rest, f <> [] -> Forall (fun kv => reads_back kv.2) f ->
  NoDup (map fst (acc ++ f)) -> (length (commas (map field_text f)) + 2 <= fuel)%nat ->
  read_fields fuel acc (commas (map field_text f) ++ "}"%char :: rest) = Some (acc ++ f, rest).
Proof.
  induction f as [|[k v] f IH]; intros fuel acc rest Hne Hl Hd Hf; [done|]. apply Forall_cons in Hl as [Hv Hl].
  assert (Hk : Json.set acc k v = acc ++ [(k, v)]).
  { apply set_absent. rewrite map_app in Hd. apply NoDup_app in Hd as (_ & Hd & _). intros Hin. apply (Hd k Hin). left. }
  destruct fuel as [|fuel]; [lia|].
  assert (Hgo : forall s, boundary s = true ->
    read_fields (S fuel) acc (field_text (k, v) ++ s) =
    match skip s with
    | c :: r4 => if bool_decide (c = "}"%char) then Some (acc ++ [(k, v)], r4)
                 else if bool_decide (c = ","%char) then read_fields fuel (acc ++ [(k, v)]) r4 else None
    | [] => None
    end).
  { intros s Hs. unfold field_text. cbn [fst snd]. rewrite <- app_assoc. cbn [app read_fields].
    rewrite skip_quoted. unfold quoted. cbn [app]. rewrite <- app_assoc. cbn [app].
    change (expect [quote_char] (quote_char :: ?x)) with (Some x). cbv iota.
    rewrite read_quoted. change (skip (":"%char :: ?x)) with (":"%char :: x).
    change (expect (str ":") (":"%char :: ?x)) with (Some x). cbv iota.
    rewrite Hv; [|pose proof (field_text_length (k, v)); pose proof (commas_head (field_text (k, v)) (map field_text f));
      cbn [map snd] in *; lia|done].
    cbn [snd]. by rewrite unstr_str, Hk. }
  destruct f as [|w f].
  - cbn [map commas] in *. by rewrite Hgo.
  - cbn [map] in *. rewrite commas_cons in Hf |- *. rewrite <- app_assoc. cbn [app]. rewrite Hgo by done.
    change (skip (","%char :: ?s)) with (","%char :: s). cbv iota.
    rewrite (bool_decide_eq_false_2 (","%char = "}"%char)), (bool_decide_eq_true_2 (","%char = ","%char)) by done.
    rewrite length_app in Hf. cbn [length] in Hf.
    rewrite IH; [by rewrite <- app_assoc|done|done|by rewrite <- app_assoc|].
    cbn [map]. pose proof (field_text_length (k, v)). lia.
Qed.

Lemma well_formed_list l : fold_right (fun P Q => P /\ Q) True (map well_formed l) <-> Forall well_formed l.
Proof. induction l as [|v l IH]; cbn; [done|]. by rewrite Forall_cons, IH. Qed.

Lemma well_formed_fields (f : list (string * json)) :
  fold_right (fun P Q => P /\ Q) True (map (fun kv => well_formed kv.2) f) <-> Forall (fun kv => well_formed kv.2) f.
Proof. induction f as [|v l IH]; cbn; [done|]. by rewrite Forall_cons, IH. Qed.

Lemma commas_starts x l c t : x = c :: t -> exists u, commas (x :: l) = c :: u.
Proof. intros ->. destruct l; [by eexists|]. rewrite commas_cons. by eexists. Qed.

(** Reading a written value leaves what follows it. *)
Lemma read_written v : well_formed v -> reads_back v.
Proof.
  induction v as [|[]|n|s|l IH|f IH] using json_nested_ind; intros Hw fuel rest Hf Hb;
    (destruct fuel as [|fuel]; [lia|]); cbn [read_value]; rewrite skip_value.
  1-3: done.
  - cbn [stringify]. destruct (number_starts n) as (c & t & E & _ & H1 & H2 & H3 & H4 & H5 & H6).
    pose proof (read_number_text n rest Hb) as Hn. rewrite E in *. cbn [app] in *.
    by rewrite H1, H2, H3, H4, H5, H6, Hn.
  - cbn [stringify]. unfold quoted. cbn [app]. rewrite <- app_assoc. cbn [app].
    rewrite bool_decide_eq_true_2 by done. by rewrite read_quoted, unstr_str.
  - cbn [well_formed] in Hw. apply well_formed_list in Hw. cbn [stringify app] in Hf |- *. rewrite <- app_assoc. cbn [app].
    rewrite (bool_decide_eq_false_2 ("["%char = quote_char)), (bool_decide_eq_true_2 ("["%char = "["%char)) by done.
    destruct l as [|v l]; [done|]. destruct (stringify_starts v) as (c & t & E & Hc).
    destruct (commas_starts (stringify v) (map stringify l) c t E) as [u Hu].
    assert (Hno : expect (str "]") (skip (commas (map stringify (v :: l)) ++ "]"%char :: rest)) = None).
    { cbn [map]. rewrite Hu. cbn [app]. rewrite starts_skip by done. cbn. rewrite bool_decide_eq_false_2; [done|].
      intros <-. by rewrite ?andb_false_r in Hc. }
    rewrite Hno. cbn [length] in Hf. rewrite length_app in Hf. cbn [length] in Hf.
    rewrite read_items_written; [done|done| |lia].
    rewrite Forall_forall in IH, Hw |- *. naive_solver.
  - cbn [well_formed] in Hw. destruct Hw as [Hu Hw]. apply well_formed_fields in Hw. cbn [stringify app] in Hf |- *.
    change (map (fun kv => quoted kv.1 ++ ":"%char :: stringify kv.2) f) with (map field_text f) in *.
    rewrite <- app_assoc. cbn [app].
    rewrite (bool_decide_eq_false_2 ("{"%char = quote_char)), (bool_decide_eq_false_2 ("{"%char = "["%char)),
      (bool_decide_eq_true_2 ("{"%char = "{"%char)) by done.
    destruct f as [|kv f]; [done|].
    destruct (commas_starts (field_text kv) (map field_text f) quote_char
      (flat_map escape (str kv.1) ++ [quote_char] ++ ":"%char :: stringify kv.2)) as [u Hq].
    { unfold field_text, quoted. cbn [app]. by rewrite <- app_assoc. }
    assert (Hno : expect (str "}") (skip (commas (map field_text (kv :: f)) ++ "}"%char :: rest)) = None)
      by (cbn [map]; by rewrite Hq).
    rewrite Hno. cbn [length] in Hf. rewrite length_app in Hf. cbn [length] in Hf.
    rewrite (read_fields_written (kv :: f)); [done|done| |done|lia].
    rewrite Forall_forall in IH, Hw |- *. naive_solver.
Qed.

(** Writing a value whose objects have no name twice and reading the text gives it back. *)
Theorem parse_stringify v : well_formed v -> parse (stringify v) = Some v.
Proof.
  intros Hw. unfold parse. pose proof (read_written v Hw (S (length (stringify v))) [] ltac:(lia) eq_refl) as H.
  rewrite app_nil_r in H. by rewrite H.
Qed.

(** *** What is read is well formed *)

Lemma set_values (P : json -> Prop) (f : list (string * json)) k v :
  P v -> Forall (fun kv => P kv.2) f -> Forall (fun kv => P kv.2) (Json.set f k v).
Proof.
  intros Hv. induction f as [|[k' w] f IH]; cbn; intros Hf; [by repeat constructor|].
  apply Forall_cons in Hf as [Hw Hf]. case_bool_decide; constructor; auto.
Qed.

Lemma read_well_formed fuel :
  (forall s v r, read_value fuel s = Some (v, r) -> well_formed v) /\
  (forall s l r, read_items fuel s = Some (l, r) -> Forall well_formed l) /\
  (forall acc s f r, read_fields fuel acc s = Some (f, r) -> unique acc -> Forall (fun kv => well_formed kv.2) acc ->
     unique f /\ Forall (fun kv => well_formed kv.2) f).
Proof.
  induction fuel as [|fuel (IHv & IHi & IHf)]; [done|]. split; [|split].
  - intros s v r. cbn [read_value]. destruct (skip s) as [|c rest]; [done|].
    case_bool_decide; [destruct (read_string rest) as [[t u]|]; intros; by simplify_eq|].
    case_bool_decide.
    { destruct (expect (str "]") (skip rest)); [intros; by simplify_eq|].
      destruct (read_items fuel rest) as [[l u]|] eqn:E; intros; simplify_eq. apply IHi in E. by apply well_formed_list. }
    case_bool_decide.
    { destruct (expect (str "}") (skip rest)); [intros; simplify_eq; split; [apply NoDup_nil_2|done]|].
      destruct (read_fields fuel [] rest) as [[f u]|] eqn:E; intros; simplify_eq.
      apply IHf in E as [Hu Hw]; [|apply NoDup_nil_2|done]. split; [done|]. by apply well_formed_fields. }
    do 3 (case_bool_decide; [destruct (expect _ _); intros; by simplify_eq/=|]).
    destruct (read_number _) as [[n u]|]; intros; by simplify_eq.
  - intros s l r. cbn [read_items]. destruct (read_value fuel s) as [[v u]|] eqn:E; [|done].
    apply IHv in E. destruct (skip u) as [|c u']; [done|]. case_bool_decide; [intros; simplify_eq; by repeat constructor|].
    case_bool_decide; [|done]. destruct (read_items fuel u') as [[l' u'']|] eqn:E'; [|done].
    intros; simplify_eq. constructor; [done|]. by eapply IHi.
  - intros acc s f r. cbn [read_fields]. destruct (expect _ _) as [r0|]; [|done].
    destruct (read_string r0) as [[k r1]|]; [|done]. destruct (expect _ _) as [r2|]; [|done].
    destruct (read_value fuel r2) as [[v r3]|] eqn:E; [|done]. apply IHv in E. intros H Hu Hw.
    assert (unique (Json.set acc (unstr k) v) /\ Forall (fun kv => well_formed kv.2) (Json.set acc (unstr k) v)) as [Hu' Hw']
      by (split; [by apply set_unique|by apply set_values]).
    destruct (skip r3) as [|c r4]; [done|]. case_bool_decide; [by simplify_eq|]. case_bool_decide; [|done]. by eapply IHf.
Qed.

Lemma parse_well_formed s v : parse s = Some v -> well_formed v.
Proof.
  unfold parse. destruct (read_value _ s) as [[w r]|] eqn:E; [|done]. case_bool_decide; [|done]. intros; simplify_eq.
  by eapply (proj1 (read_well_formed _)).
Qed.
