(* ===== verification/Identity.v ===== *)
(** * The identity of a device ([src/bridge/webBridge/peerProtocol/identity.js])

    An identity is an Ed25519 key pair; its peer id is the hash of the public key.  The
    signature scheme is a package outside the repository: the class [Ed25519]. *)

From stdpp Require Import pretty.
From S2P Require Import Prelude Bytes Frames Records.

(** [ed25519.getPublicKey(secret)], [sign(message, secret)] and
    [verify(signature, message, publicKey)]; a call of the latter that throws is [None]. *)
Class Ed25519 := {
  ed25519_public : bytes -> bytes;
  ed25519_sign : bytes -> bytes -> bytes;
  ed25519_verify : bytes -> bytes -> bytes -> option bool
}.

Record identity := mk_identity {
  seed : bytes;
  publicKey : bytes;
  peerId : string;
  publicKeyB64 : string;
  seedB64 : string
}.

Section identity.
Context `{Crypto} `{Ed25519}.

Definition peerIdForPublicKey (publicKey : bytes) : string := "bt2_" +:+ bytesToHex (sha256 publicKey).

Definition identityFromSeed (secret : bytes) : res identity :=
  if negb (Nat.eqb (length secret) 32) then Err "identity seed must contain exactly 32 bytes"
  else
    let publicKey := ed25519_public secret in
    Ok (mk_identity secret publicKey (peerIdForPublicKey publicKey) (bytesToB64 publicKey) (bytesToB64 secret)).

(** The random bytes are an argument. *)
Definition generateIdentity (random32 : bytes) : res identity := identityFromSeed random32.

Definition sign (me : identity) (message : bytes) : bytes := ed25519_sign message (seed me).

Definition newline : string := String "010" "".

Definition signRelayAuth (me : identity) (nonce host : string) : bytes :=
  sign me (utf8 ("bluetalk-relay-auth-v1" +:+ newline +:+ nonce +:+ newline +:+ host)).

Definition verifySignature (publicKey message signature : bytes) : bool :=
  default false (ed25519_verify signature message publicKey).

Definition randomHex (random : bytes) : string := bytesToHex random.

Definition invalid_length (label : string) (got expected : nat) : string :=
  "invalid " +:+ label +:+ " length " +:+ pretty got +:+ "; expected " +:+ pretty expected.

Definition decodeB64Array (encoded : string) (expected : nat) (label : string) : res bytes :=
  let? value := b64ToBytes encoded in
  if negb (Nat.eqb (length value) expected) then Err (invalid_length label (length value) expected)
  else Ok value.

(** What is decoded is what was encoded, if it has the expected length. *)
Lemma decodeB64Array_ok b n label : wf_bytes b -> length b = n -> decodeB64Array (bytesToB64 b) n label = Ok b.
Proof.
  intros Hb <-. unfold decodeB64Array. rewrite b64_roundtrip by done. cbn. by rewrite Nat.eqb_refl.
Qed.

Lemma decodeB64Array_length s n label b : decodeB64Array s n label = Ok b -> length b = n.
Proof.
  unfold decodeB64Array. intros (v & E & Hv)%res_bind_ok.
  destruct (Nat.eqb _ _) eqn:Hn; simpl in Hv; simplify_eq. by apply Nat.eqb_eq.
Qed.

End identity.
