(* ===== verification/Wire.v ===== *)
(** * Text and wire frames ([utf8], [utf8Decode] of [peerProtocol/bytes.js];
      [encodeWireFrame], [decodeWireFrame] of [peerProtocol/frames.js])

    The plaintext of an encrypted record is the UTF-8 text of a JSON object.  A JavaScript
    object is its list of properties; a property whose value is [undefined] is left out,
    as [JSON.stringify] leaves it out.  Texts are sequences of code points up to 255, the
    characters of a [string]; a byte sequence that stands for another code point has no
    value here and is refused like a malformed one. *)

From stdpp Require Import pretty.
From S2P Require Import Prelude Bytes Json JsonText Frames.

(** ** UTF-8 *)

Definition encode_char (c : ascii) : bytes :=
  if Z.ltb (code c) 128 then [code c]
  else [Z.lor 192 (Z.shiftr (code c) 6); Z.lor 128 (Z.land (code c) 63)].

Definition utf8_encode (text : list ascii) : bytes := flat_map encode_char text.

(** A byte order mark at the start is not part of the text. *)
Definition strip_bom (b : bytes) : bytes :=
  match b with
  | x :: y :: z :: rest => if Z.eqb x 239 && Z.eqb y 187 && Z.eqb z 191 then rest else b
  | _ => b
  end.

Definition char_of (n : Z) : ascii := Ascii.ascii_of_nat (Z.to_nat n).

(** Of the sequences of two bytes those that start with 194 or 195 stand for 128 to 255. *)
Fixpoint decode_chars (b : bytes) : option (list ascii) :=
  match b with
  | [] => Some []
  | x :: rest =>
      if Z.leb 0 x && Z.ltb x 128 then option_map (cons (char_of x)) (decode_chars rest)
      else
        match rest with
        | y :: rest' =>
            if (Z.eqb x 194 || Z.eqb x 195) && Z.leb 128 y && Z.ltb y 192 then
              option_map (cons (char_of (Z.lor (Z.shiftl (Z.land x 31) 6) (Z.land y 63)))) (decode_chars rest')
            else None
        | [] => None
        end
  end.

(** [None] is the [TypeError] of the decoder. *)
Definition utf8Decode (b : bytes) : option (list ascii) := decode_chars (strip_bom b).

(** ** Frames *)

(** [a ?? b]. *)
Definition coalesce (a b : option json) : option json :=
  match a with None | Some JNull => b | _ => a end.

(** An object literal. *)
Definition object (props : list (string * option json)) : fields :=
  omap (M := list) (fun p => option_map (pair p.1) p.2) props.

Definition wireFrameJson (frame : fields) : res fields :=
  let ty := get frame "type" in
  if bool_decide (ty = Some (JStr "message")) then
    Ok (object [("type", Some (JStr "message"));
                ("message_id", coalesce (get frame "messageId") (get frame "message_id"));
                ("sent_at_ms", coalesce (get frame "sentAtMs") (get frame "sent_at_ms"));
                ("payload", get frame "payload")])
  else if bool_decide (ty = Some (JStr "ping")) || bool_decide (ty = Some (JStr "pong")) then
    Ok (object [("type", ty); ("nonce", get frame "nonce")])
  else if bool_decide (ty = Some (JStr "close")) then
    Ok (object [("type", Some (JStr "close")); ("reason", get frame "reason")])
  else Err "invalid wire frame".

Definition json_bytes (f : fields) : bytes := utf8_encode (stringify (JObj f)).

Definition encodeWireFrame (frame : fields) (maximum : Z) : res bytes :=
  let? body := wireFrameJson frame in
  let b := json_bytes body in
  let len := Z.of_nat (length b) in
  if Z.ltb maximum len then Err (frame_too_large len maximum) else Ok b.

(** Can [String(value)] be computed?  An object with a [toString] of its own that is not
    a function cannot be turned into a text. *)
Fixpoint coerces (v : json) : bool :=
  match v with
  | JObj f => negb (has f "toString")
  | JArr l => forallb (fun i => coerces i) l
  | _ => true
  end.

Definition NO_PRIMITIVE : string := "Cannot convert object to primitive value".

(** [String(value || '').length > maximum] throws [error]. *)
Definition check_text (v : option json) (maximum : nat) (error : string) : res unit :=
  match v with
  | Some j => if truthy v && negb (coerces j) then Err NO_PRIMITIVE
              else if Nat.ltb maximum (String.length (string_or_empty v)) then Err error else Ok tt
  | None => Ok tt
  end.

(** The engine's part of the message is left out. *)
Definition INVALID_FRAME : string := "invalid wire frame: ".

Definition decodeWireFrame (b : bytes) (maximum : Z) : res fields :=
  let len := Z.of_nat (length b) in
  if Z.ltb maximum len then Err (frame_too_large len maximum)
  else
    match utf8Decode b ≫= parse with
    | None => Err INVALID_FRAME
    | Some parsed =>
        let field := prop (Some parsed) in
        match field "type" with
        | Some (JStr ty) =>
            if bool_decide (ty = "message") then
              let messageId := coalesce (field "message_id") (field "messageId") in
              let sentAtMs := coalesce (field "sent_at_ms") (field "sentAtMs") in
              let? _ := check_text messageId 128 "message id exceeds 128 bytes" in
              Ok (object [("type", Some (JStr "message")); ("messageId", messageId); ("sentAtMs", sentAtMs);
                          ("payload", field "payload")])
            else if bool_decide (ty = "ping") || bool_decide (ty = "pong") then
              let? _ := check_text (field "nonce") 128 "heartbeat nonce exceeds 128 bytes" in
              Ok (object [("type", Some (JStr ty)); ("nonce", field "nonce")])
            else if bool_decide (ty = "close") then
              let? _ := check_text (field "reason") 512 "close reason exceeds 512 bytes" in
              Ok (object [("type", Some (JStr "close")); ("reason", field "reason")])
            else Err "invalid wire frame: unknown type"
        | _ => Err "invalid wire frame: missing type"
        end
    end.

(** ** Text *)

Lemma decode_encoded_char c rest : decode_chars (encode_char c ++ rest) = option_map (cons c) (decode_chars rest).
Proof. by destruct c as [[] [] [] [] [] [] [] []]. Qed.

Lemma decode_encoded text : decode_chars (utf8_encode text) = Some text.
Proof. induction text as [|c text IH]; [done|]. cbn [utf8_encode flat_map]. rewrite decode_encoded_char. unfold utf8_encode in IH. by rewrite IH. Qed.

Lemma encode_char_head c : exists x l, encode_char c = x :: l /\ Z.eqb x 239 = false.
Proof. destruct c as [[] [] [] [] [] [] [] []]; by do 2 eexists. Qed.

Lemma strip_encoded text : strip_bom (utf8_encode text) = utf8_encode text.
Proof.
  destruct text as [|c text]; [done|]. cbn [utf8_encode flat_map]. destruct (encode_char_head c) as (x & l & -> & Hx).
  unfold strip_bom. cbn [app]. destruct (l ++ _) as [|y [|z r]]; [done..|]. by rewrite Hx.
Qed.

(** Every text is read back from its bytes. *)
Lemma utf8_roundtrip text : utf8Decode (utf8_encode text) = Some text.
Proof. unfold utf8Decode. by rewrite strip_encoded, decode_encoded. Qed.

Lemma utf8_encode_inj a b : utf8_encode a = utf8_encode b -> a = b.
Proof. intros E. apply (f_equal utf8Decode) in E. rewrite !utf8_roundtrip in E. by simplify_eq. Qed.

Lemma json_bytes_parse f : well_formed (JObj f) -> utf8Decode (json_bytes f) ≫= parse = Some (JObj f).
Proof. intros Hw. unfold json_bytes. rewrite utf8_roundtrip. by apply (parse_stringify (JObj f)). Qed.

(** Two objects with the same bytes are the same object. *)
Lemma json_bytes_inj f g : well_formed (JObj f) -> well_formed (JObj g) -> json_bytes f = json_bytes g -> f = g.
Proof.
  intros Hf Hg E. apply json_bytes_parse in Hf, Hg. rewrite E, Hg in Hf. by simplify_eq.
Qed.

(** ** The round trip *)

(** The frames that a session sends: a message, a heartbeat and the end. *)
Definition message_frame (messageId : string) (sentAtMs : Z) (payload : option json) : fields :=
  object [("type", Some (JStr "message")); ("messageId", Some (JStr messageId)); ("sentAtMs", Some (JNum sentAtMs));
          ("payload", payload)].

Definition ping_frame (nonce : string) : fields :=
  object [("type", Some (JStr "ping")); ("nonce", Some (JStr nonce))].

Definition pong_frame (nonce : option json) : fields := object [("type", Some (JStr "pong")); ("nonce", nonce)].

Definition close_frame (reason : string) : fields :=
  object [("type", Some (JStr "close")); ("reason", Some (JStr reason))].

Definition optional_well_formed (v : option json) : Prop := match v with Some j => well_formed j | None => True end.

(** The frames whose texts keep within the limits of the reader. *)
Inductive sendable : fields -> Prop :=
| sendable_message id t payload :
    (String.length id <= 128)%nat -> optional_well_formed payload -> sendable (message_frame id t payload)
| sendable_ping nonce : (String.length nonce <= 128)%nat -> sendable (ping_frame nonce)
| sendable_pong nonce : check_text nonce 128 "heartbeat nonce exceeds 128 bytes" = Ok tt -> optional_well_formed nonce ->
    sendable (pong_frame nonce)
| sendable_close reason : (String.length reason <= 512)%nat -> sendable (close_frame reason).

Lemma check_short s maximum error : (String.length s <= maximum)%nat -> check_text (Some (JStr s)) maximum error = Ok tt.
Proof.
  intros Hs. unfold check_text. rewrite andb_false_r.
  rewrite (proj2 (Nat.ltb_ge _ _)); [done|]. unfold string_or_empty. cbn [truthy to_string].
  destruct (bool_decide (s = "")); cbn; lia.
Qed.

Lemma checked v maximum error (f : fields) :
  check_text v maximum error = Ok tt -> (let? _ := check_text v maximum error in Ok f) = Ok f.
Proof. by intros ->. Qed.

(** What the reader makes of an object, whatever its bytes. *)
Lemma decode_json f maximum : well_formed (JObj f) -> Z.of_nat (length (json_bytes f)) <= maximum ->
  decodeWireFrame (json_bytes f) maximum =
  match get f "type" with
  | Some (JStr ty) =>
      if bool_decide (ty = "message") then
        let messageId := coalesce (get f "message_id") (get f "messageId") in
        let sentAtMs := coalesce (get f "sent_at_ms") (get f "sentAtMs") in
        let? _ := check_text messageId 128 "message id exceeds 128 bytes" in
        Ok (object [("type", Some (JStr "message")); ("messageId", messageId); ("sentAtMs", sentAtMs);
                    ("payload", get f "payload")])
      else if bool_decide (ty = "ping") || bool_decide (ty = "pong") then
        let? _ := check_text (get f "nonce") 128 "heartbeat nonce exceeds 128 bytes" in
        Ok (object [("type", Some (JStr ty)); ("nonce", get f "nonce")])
      else if bool_decide (ty = "close") then
        let? _ := check_text (get f "reason") 512 "close reason exceeds 512 bytes" in
        Ok (object [("type", Some (JStr "close")); ("reason", get f "reason")])
      else Err "invalid wire frame: unknown type"
  | _ => Err "invalid wire frame: missing type"
  end.
Proof.
  intros Hw Hl. unfold decodeWireFrame. rewrite (proj2 (Z.ltb_ge _ _)) by done. by rewrite json_bytes_parse.
Qed.

Lemma encode_ok frame maximum b : encodeWireFrame frame maximum = Ok b ->
  exists body, wireFrameJson frame = Ok body /\ b = json_bytes body /\ Z.of_nat (length b) <= maximum.
Proof.
  unfold encodeWireFrame. intros (body & E & H)%res_bind_ok. exists body. cbv zeta in H.
  destruct (Z.ltb_spec maximum (Z.of_nat (length (json_bytes body)))); [done|]. by simplify_eq.
Qed.

(** What is written of each frame. *)
Lemma message_json id t payload : wireFrameJson (message_frame id t payload) =
  Ok (object [("type", Some (JStr "message")); ("message_id", Some (JStr id)); ("sent_at_ms", Some (JNum t)); ("payload", payload)]).
Proof. by destruct payload. Qed.

Lemma pong_json nonce : wireFrameJson (pong_frame nonce) = Ok (pong_frame nonce).
Proof. by destruct nonce. Qed.

(** The names of an object literal are different and its values well formed. *)
Ltac literal_ok := split; [apply (bool_decide_unpack _); vm_compute; exact I | repeat split; try assumption].

(** C40: a frame that was written is read back: its kind, its id and time, and any payload. *)
Theorem wire_roundtrip frame maximum b :
  sendable frame -> encodeWireFrame frame maximum = Ok b -> decodeWireFrame b maximum = Ok frame.
Proof.
  intros Hs (body & E & -> & Hl)%encode_ok. destruct Hs as [id t payload Hid Hp|nonce Hn|nonce Hn Hw|reason Hr].
  - rewrite message_json in E. injection E as <-. destruct payload as [p|]; (rewrite decode_json by (done || literal_ok));
      apply (checked _ _ _ _ (check_short id 128 _ Hid)).
  - injection E as <-. rewrite decode_json by (done || literal_ok). apply (checked _ _ _ _ (check_short nonce 128 _ Hn)).
  - rewrite pong_json in E. injection E as <-. destruct nonce as [p|]; (rewrite decode_json by (done || literal_ok));
      [apply (checked _ _ _ _ Hn)|done].
  - injection E as <-. rewrite decode_json by (done || literal_ok). apply (checked _ _ _ _ (check_short reason 512 _ Hr)).
Qed.

Definition sample_frame : fields :=
  message_frame "id-1" 1700000000000 (Some (JObj [("text", JStr "a quoted line"); ("list", JArr [JNum (-5); JNull; JBool true])])).

Definition sample_bytes : bytes := match encodeWireFrame sample_frame 4096 with Ok b => b | Err _ => [] end.

Lemma wire_roundtrip_witness : decodeWireFrame sample_bytes 4096 = Ok sample_frame.
Proof.
  apply (wire_roundtrip sample_frame 4096 sample_bytes).
  - constructor; [cbn; lia|]. literal_ok.
  - vm_compute. reflexivity.
Defined.
