(* ===== verification/Handshake.v ===== *)
(** * The handshake of two devices ([src/bridge/webBridge/peerProtocol/handshake.js])

    The initiator sends a signed client hello, the responder answers with a signed server
    hello that names the hash of the client hello, both derive their ciphers from the two
    ephemeral keys and the two texts, and each proves with a first encrypted record that it
    has the same keys and has seen the same texts.

    A hello is a JSON object.  The functions are asynchronous: [script] is what such a
    function does with its transport, the frames it writes and the reads it waits for, and
    [perform] runs it on the bytes that arrive.  ([transport_fifo] of [Frames] shows that
    the reads of the transport are frames of the byte stream, however it is cut into
    chunks.)  A write that the relay client refuses is left out.  Random numbers and the
    clock are arguments, the record [secrets]. *)

From stdpp Require Import pretty.
From S2P Require Import Prelude Bytes Json JsonText Frames Records Identity Wire.

(** ** Functions that wait for the network *)

Inductive script (A : Type) : Type :=
| Return (a : A)
| Throw (error : string)
| Write (b : bytes) (next : script A)
| Read (maximum : Z) (next : bytes -> script A).

Arguments Return {A}.
Arguments Throw {A}.
Arguments Write {A}.
Arguments Read {A}.

Fixpoint script_bind {A B} (s : script A) (k : A -> script B) : script B :=
  match s with
  | Return a => k a
  | Throw e => Throw e
  | Write b next => Write b (script_bind next k)
  | Read m next => Read m (fun b => script_bind (next b) k)
  end.

Notation "'let!' x := m 'in' k" := (script_bind m (fun x => k))
  (at level 200, x binder, m at level 100, k at level 200, right associativity).

(** A synchronous call. *)
Definition call {A} (r : res A) : script A := match r with Ok a => Return a | Err e => Throw e end.

Inductive outcome (A : Type) : Type :=
| Done (a : A)
| Failed (error : string)
| Waiting.

Arguments Done {A}.
Arguments Failed {A}.
Arguments Waiting {A}.

(** What is written, how it ends, and the bytes that are left, when [input] is all that arrives. *)
Fixpoint perform {A} (s : script A) (input : bytes) : list bytes * outcome A * bytes :=
  match s with
  | Return a => ([], Done a, input)
  | Throw e => ([], Failed e, input)
  | Write b next => let '(written, o, rest) := perform next input in (b :: written, o, rest)
  | Read m next =>
      match nextFrame input m with
      | Ok (Some frame, rest) => perform (next frame) rest
      | Ok (None, rest) => ([], Waiting, rest)
      | Err e => ([], Failed e, input)
      end
  end.

(** ** Hellos *)

Definition HANDSHAKE_MAGIC : string := "BLUETALK_SECURE_SESSION".
Definition HANDSHAKE_ENVELOPE_VERSION : Z := 1.
Definition PROTOCOL_VERSION : Z := 2.
Definition MAX_HANDSHAKE_BYTES : Z := 64 * 1024.
Definition MAX_HANDSHAKE_CLOCK_SKEW_MS : Z := 5 * 60 * 1000.
Definition MAX_FRAME_BYTES : Z := 8 * 1024 * 1024.
Definition CLIENT_SIGNATURE_DOMAIN : bytes := utf8 ("BlueTalk/v2/client-hello" +:+ nul).
Definition SERVER_SIGNATURE_DOMAIN : bytes := utf8 ("BlueTalk/v2/server-hello" +:+ nul).

Definition CLIENT_FIELDS : list string :=
  ["magic"; "envelopeVersion"; "protocolVersion"; "timestampMs"; "nonce"; "identityKey"; "ephemeralKey"; "displayName"].

Definition SERVER_FIELDS : list string := CLIENT_FIELDS ++ ["clientHelloHash"].

(** [{ a: hello.a, b: hello.b, ... }]. *)
Definition pick (names : list string) (hello : fields) : fields :=
  object (map (fun n => (n, get hello n)) names).

Definition clientSignatureInput (hello : fields) : bytes :=
  concatBytes [CLIENT_SIGNATURE_DOMAIN; json_bytes (pick CLIENT_FIELDS hello)].

Definition serverSignatureInput (hello : fields) : bytes :=
  concatBytes [SERVER_SIGNATURE_DOMAIN; json_bytes (pick SERVER_FIELDS hello)].

Definition clientHelloBytes (hello : fields) : bytes := json_bytes hello.
Definition serverHelloBytes (hello : fields) : bytes := json_bytes hello.

(** The random numbers and the times a handshake uses; [now] is the clock when the remote
    hello is checked, [None] when the check is skipped. *)
Record secrets := mk_secrets {
  ephemeralSeed : bytes;
  nonceHex : string;
  timestampMs : Z;
  now : option Z
}.

Section hello.
Context `{Crypto} `{Ed25519}.

Definition hello_fields (me : identity) (displayName : string) (timestampMs : Z) (nonceHex : string)
    (ephemeralPublic : bytes) : fields :=
  [("magic", JStr HANDSHAKE_MAGIC);
   ("envelopeVersion", JNum HANDSHAKE_ENVELOPE_VERSION);
   ("protocolVersion", JNum PROTOCOL_VERSION);
   ("timestampMs", JNum timestampMs);
   ("nonce", JStr nonceHex);
   ("identityKey", JStr (publicKeyB64 me));
   ("ephemeralKey", JStr (bytesToB64 ephemeralPublic));
   ("displayName", JStr displayName)].

Definition makeClientHello (me : identity) (displayName : string) (timestampMs : Z) (nonceHex : string)
    (ephemeralPublic : bytes) : fields :=
  let hello := hello_fields me displayName timestampMs nonceHex ephemeralPublic ++ [("signature", JStr "")] in
  Json.set hello "signature" (JStr (bytesToB64 (sign me (clientSignatureInput hello)))).

Definition makeServerHello (me : identity) (displayName : string) (clientBytes : bytes) (timestampMs : Z)
    (nonceHex : string) (ephemeralPublic : bytes) : fields :=
  let hello := hello_fields me displayName timestampMs nonceHex ephemeralPublic
    ++ [("clientHelloHash", JStr (bytesToHex (sha256 clientBytes))); ("signature", JStr "")] in
  Json.set hello "signature" (JStr (bytesToB64 (sign me (serverSignatureInput hello)))).

End hello.

(** ** Checks *)

(** [`${value}`]. *)
Definition template (v : option json) : res string :=
  match v with
  | None => Ok "undefined"
  | Some j => if coerces j then Ok (to_string j) else Err NO_PRIMITIVE
  end.

(** [utf8(value)] of any value. *)
Definition value_bytes (v : option json) : res bytes :=
  match v with
  | None => Ok []
  | Some j => if coerces j then Ok (utf8_encode (str (to_string j))) else Err NO_PRIMITIVE
  end.

Definition BAD_NAME : string := "display name must contain 1..=128 UTF-8 bytes".

Definition validateDisplayName (displayName : option json) : res unit :=
  let? b := value_bytes displayName in
  if Nat.eqb (length b) 0 || Nat.ltb 128 (length b) then Err BAD_NAME else Ok tt.

(** [String(value || '')]. *)
Definition text_of (v : option json) : res string :=
  match v with
  | Some j => if truthy v && negb (coerces j) then Err NO_PRIMITIVE else Ok (string_or_empty v)
  | None => Ok ""
  end.

(** [!Number.isNaN(Number.parseInt(c, 16))]. *)
Definition is_hex_digit (c : ascii) : bool := match hex_value c with Some _ => true | None => false end.

Definition hexToLen (hex : string) : Z :=
  if negb (Nat.even (String.length hex)) then -1
  else if string_forallb is_hex_digit hex
  then Z.of_nat (String.length hex / 2) else -1.

(** [Number(value)]; [None] is [NaN].  (A number in a text is a decimal integer here.) *)
Definition number_of (v : option json) : res (option Z) :=
  match v with
  | Some (JObj _ as j) => if coerces j then Ok None else Err NO_PRIMITIVE
  | Some (JArr _ as j) => if coerces j then Ok (to_number (Some (JStr (to_string j)))) else Err NO_PRIMITIVE
  | _ => Ok (to_number v)
  end.

(** A difference that is not a number is not outside the permitted skew. *)
Definition check_clock (now : option Z) (timestamp : option json) : res unit :=
  match now with
  | None => Ok tt
  | Some t =>
      let? sent := number_of timestamp in
      match sent with
      | Some s => if Z.ltb MAX_HANDSHAKE_CLOCK_SKEW_MS (Z.abs (t - s))
                  then Err "handshake timestamp is outside the permitted clock skew" else Ok tt
      | None => Ok tt
      end
  end.

Definition NULL_HELLO : string := "Cannot read properties of null (reading 'magic')".

Definition validateCommonHello (hello : json) (now : option Z) : res unit :=
  let field := prop (Some hello) in
  if bool_decide (hello = JNull) then Err NULL_HELLO
  else if negb (bool_decide (field "magic" = Some (JStr HANDSHAKE_MAGIC))) then Err "incorrect protocol magic"
  else if negb (bool_decide (field "envelopeVersion" = Some (JNum HANDSHAKE_ENVELOPE_VERSION))) then
    let? v := template (field "envelopeVersion") in Err ("unsupported handshake envelope " +:+ v)
  else if negb (bool_decide (field "protocolVersion" = Some (JNum PROTOCOL_VERSION))) then
    let? v := template (field "protocolVersion") in Err ("unsupported protocol version " +:+ v)
  else
    let? _ := check_clock now (field "timestampMs") in
    let? nonce := text_of (field "nonce") in
    if negb (Nat.eqb (String.length nonce) 64) || negb (Z.eqb (hexToLen nonce) 32)
    then Err "handshake nonce must be 32 random bytes"
    else validateDisplayName (field "displayName").

(** The engine's part of the message is left out. *)
Definition parseHello (b : bytes) (label : string) : res json :=
  match utf8Decode b ≫= parse with Some v => Ok v | None => Err ("invalid " +:+ label +:+ ": ") end.

(** [decodeB64Array] of a property. *)
Definition decode_field (v : option json) (expected : nat) (label : string) : res bytes :=
  let? encoded := text_of v in decodeB64Array encoded expected label.

(** The properties of a hello that has passed [validateCommonHello]. *)
Definition hello_object (v : json) : fields := default [] (as_object (Some v)).

(** ** Sessions *)

Record session := mk_session {
  remotePeerId : string;
  remoteDisplayName : option json;
  connectionId : string;
  s_transcript : bytes;
  s_send : cipher;
  s_receive : cipher
}.

#[export] Instance session_rebuild : Rebuild session := fun s =>
  mk_session (remotePeerId s) (remoteDisplayName s) (connectionId s) (s_transcript s) (s_send s) (s_receive s).

Definition finished_body (role : string) (transcript : bytes) : fields :=
  [("marker", JStr "finished"); ("role", JStr role); ("transcriptHash", JStr (bytesToHex transcript))].

Section handshake.
Context `{Crypto} `{Ed25519}.

Definition establishFromHellos (clientBytes serverBytes localSecret : bytes) (initiator : bool) (maxFrameBytes : Z)
    : res session :=
  let? client := parseHello clientBytes "client hello" in
  let? server := parseHello serverBytes "server hello" in
  let remoteHello := if initiator then server else client in
  let? remoteIdentity := decode_field (prop (Some remoteHello) "identityKey") 32
    (if initiator then "server identity key" else "client identity key") in
  let? remoteEph := decode_field (prop (Some remoteHello) "ephemeralKey") 32
    (if initiator then "server ephemeral key" else "client ephemeral key") in
  let? shared := sharedSecret localSecret remoteEph in
  let transcript := transcriptHash clientBytes serverBytes in
  let ciphers := deriveSessionCiphers shared transcript initiator maxFrameBytes in
  Ok (mk_session (peerIdForPublicKey remoteIdentity) (prop (Some remoteHello) "displayName")
        (bytesToHex (take 16 transcript)) transcript ciphers.1 ciphers.2).

Definition sendFinished (sendCipher : cipher) (role : string) (transcript : bytes) (maxFrameBytes : Z) : script cipher :=
  let finished := json_bytes (finished_body role transcript) in
  let! sealed := call (encrypt sendCipher finished) in
  let! frame := call (encodePrefixed sealed.2 (maxFrameBytes + 8 + 16)) in
  Write frame (Return sealed.1).

Definition is_finished (v : json) (role : string) (transcript : bytes) : bool :=
  bool_decide (prop (Some v) "marker" = Some (JStr "finished"))
  && bool_decide (prop (Some v) "role" = Some (JStr role))
  && bool_decide (prop (Some v) "transcriptHash" = Some (JStr (bytesToHex transcript))).

Definition receiveFinished (receiveCipher : cipher) (expectedRole : string) (transcript : bytes) (maxFrameBytes : Z)
    : script cipher :=
  Read (maxFrameBytes + 8 + 16) (fun record =>
    let! opened := call (decrypt receiveCipher record) in
    match utf8Decode opened.2 ≫= parse with
    | None => Throw "SyntaxError"
    | Some JNull => Throw "Cannot read properties of null (reading 'marker')"
    | Some finished =>
        if is_finished finished expectedRole transcript then Return opened.1
        else Throw "finished record does not match the negotiated transcript"
    end).

Definition identity_mismatch (expected got : string) : string :=
  "peer identity mismatch: expected " +:+ expected +:+ ", got " +:+ got.

(** What the initiator checks of the server hello, before it derives the keys. *)
Definition check_server (clientBytes serverBytes : bytes) (expectedPeerId : option string) (now : option Z) : res unit :=
  let? server := parseHello serverBytes "server hello" in
  let? _ := validateCommonHello server now in
  let hello := hello_object server in
  let? _ := decode_field (get hello "identityKey") 32 "server identity key" in
  let? _ := decode_field (get hello "ephemeralKey") 32 "server ephemeral key" in
  let? serverSig := decode_field (get hello "signature") 64 "server signature" in
  if negb (bool_decide (get hello "clientHelloHash" = Some (JStr (bytesToHex (sha256 clientBytes))))) then
    Err "server response is not bound to this client hello"
  else
    let? serverIdentity := decode_field (get hello "identityKey") 32 "server identity key" in
    if negb (verifySignature serverIdentity (serverSignatureInput hello) serverSig) then Err "server signature is invalid"
    else
      let remote := peerIdForPublicKey serverIdentity in
      match truthy_str expectedPeerId with
      | Some expected => if bool_decide (expected = remote) then Ok tt else Err (identity_mismatch expected remote)
      | None => Ok tt
      end.

Definition check_client (clientBytes : bytes) (now : option Z) : res unit :=
  let? client := parseHello clientBytes "client hello" in
  let? _ := validateCommonHello client now in
  let hello := hello_object client in
  let? clientIdentity := decode_field (get hello "identityKey") 32 "client identity key" in
  let? _ := decode_field (get hello "ephemeralKey") 32 "client ephemeral key" in
  let? clientSig := decode_field (get hello "signature") 64 "client signature" in
  if negb (verifySignature clientIdentity (clientSignatureInput hello) clientSig) then Err "client signature is invalid"
  else Ok tt.

Definition initiatorHandshake (me : identity) (displayName : string) (expectedPeerId : option string)
    (maxFrameBytes : Z) (x : secrets) : script session :=
  let! _ := call (validateDisplayName (Some (JStr displayName))) in
  let! eph := call (ephemeralFromSeed (ephemeralSeed x)) in
  let hello := makeClientHello me displayName (timestampMs x) (nonceHex x) eph.2 in
  let clientBytes := clientHelloBytes hello in
  let! frame := call (encodePrefixed clientBytes MAX_HANDSHAKE_BYTES) in
  Write frame (Read MAX_HANDSHAKE_BYTES (fun serverBytes =>
    let! _ := call (check_server clientBytes serverBytes expectedPeerId (now x)) in
    let! session := call (establishFromHellos clientBytes serverBytes eph.1 true maxFrameBytes) in
    let! send := sendFinished (s_send session) "initiator" (s_transcript session) maxFrameBytes in
    let! receive := receiveFinished (s_receive session) "responder" (s_transcript session) maxFrameBytes in
    Return (session <| s_send := send |> <| s_receive := receive |>))).

Definition responderHandshake (me : identity) (displayName : string) (maxFrameBytes : Z) (x : secrets)
    : script session :=
  let! _ := call (validateDisplayName (Some (JStr displayName))) in
  Read MAX_HANDSHAKE_BYTES (fun clientBytes =>
    let! _ := call (check_client clientBytes (now x)) in
    let! eph := call (ephemeralFromSeed (ephemeralSeed x)) in
    let hello := makeServerHello me displayName clientBytes (timestampMs x) (nonceHex x) eph.2 in
    let serverBytes := serverHelloBytes hello in
    let! frame := call (encodePrefixed serverBytes MAX_HANDSHAKE_BYTES) in
    Write frame (
      let! session := call (establishFromHellos clientBytes serverBytes eph.1 false maxFrameBytes) in
      let! receive := receiveFinished (s_receive session) "initiator" (s_transcript session) maxFrameBytes in
      let! send := sendFinished (s_send session) "responder" (s_transcript session) maxFrameBytes in
      Return (session <| s_receive := receive |> <| s_send := send |>))).
End handshake.
