(* ===== verification/HandshakeFacts.v ===== *)
(** * What the handshake guarantees

    [handshake_completes]: two devices that follow [Handshake] end with matching ciphers
    and know each other's identity.  [initiator_authenticates]: a session with an expected
    peer exists only if the owner of that identity has signed an answer to this very hello
    with the key the secret was made from.  Signatures and curves are parameters: their
    documented behaviour is the class [KeyLaws]. *)

From stdpp Require Import pretty.
From S2P Require Import Prelude Bytes Json JsonText Frames Records Identity Wire Handshake.

(** ** Running scripts *)

Lemma perform_bind {A B} (s : script A) (k : A -> script B) input :
  perform (script_bind s k) input =
  match perform s input with
  | (w, Done a, rest) => let '(w', o, rest') := perform (k a) rest in (w ++ w', o, rest')
  | (w, Failed e, rest) => (w, Failed e, rest)
  | (w, Waiting, rest) => (w, Waiting, rest)
  end.
Proof.
  revert input. induction s as [a|e|b s IH|m s IH]; intros input; cbn [script_bind perform].
  - by destruct (perform (k a) input) as [[w o] r].
  - done.
  - rewrite IH. destruct (perform s input) as [[w [a|e|]] r]; [|done..]. by destruct (perform (k a) r) as [[w' o] r'].
  - destruct (nextFrame input m) as [[[f|] r]|e]; [apply IH|done..].
Qed.

Lemma perform_call {A B} (r : res A) a (k : A -> script B) : r = Ok a -> script_bind (call r) k = k a.
Proof. by intros ->. Qed.

Lemma nextFrame_encoded f m b rest : encodePrefixed f m = Ok b -> nextFrame (b ++ rest) m = Ok (Some f, rest).
Proof.
  unfold encodePrefixed. destruct (_ || _) eqn:E; intros H; simplify_eq. apply orb_false_iff in E as [H1 H2].
  unfold nextFrame.
  match goal with |- context [tryReadPrefixed ?b m] => replace b with (u32Be (Z.of_nat (length f)) ++ f ++ rest) by done end.
  rewrite tryReadPrefixed_frame by lia. done.
Qed.

Lemma nextFrame_nothing m : nextFrame [] m = Ok (None, []).
Proof. done. Qed.

(** ** Sizes of texts *)

Lemma escape_length c : (length (escape c) <= 6)%nat.
Proof. apply Nat.leb_le. by destruct c as [[] [] [] [] [] [] [] []]. Qed.

Lemma str_length s : length (str s) = String.length s.
Proof. induction s as [|c s IH]; [done|]. cbn. by rewrite <- IH. Qed.

Lemma quoted_length s : (length (quoted s) <= 2 + 6 * String.length s)%nat.
Proof.
  unfold quoted. cbn [length]. rewrite length_app, <- str_length. cbn [length].
  induction (str s) as [|c l IH]; cbn [flat_map length]; [lia|].
  rewrite length_app. pose proof (escape_length c). lia.
Qed.

Lemma utf8_length l : (length (utf8_encode l) <= 2 * length l)%nat.
Proof.
  induction l as [|c l IH]; [done|]. cbn [utf8_encode flat_map length]. rewrite length_app. unfold utf8_encode in IH.
  assert (length (encode_char c) <= 2)%nat by (unfold encode_char; case_match; cbn; lia). lia.
Qed.

Definition value_size (v : json) : nat :=
  match v with
  | JStr s => 2 + 6 * String.length s
  | JNum n => String.length (pretty n)
  | _ => length (stringify v)
  end.

Definition field_size (kv : string * json) : nat := 6 * String.length kv.1 + value_size kv.2 + 4.

Lemma json_bytes_length f : (length (json_bytes f) <= 4 + 2 * sum_list (map field_size f))%nat.
Proof.
  unfold json_bytes. etransitivity; [apply utf8_length|]. cbn [stringify length]. rewrite length_app. cbn [length].
  enough (length (commas (map field_text f)) <= sum_list (map field_size f))%nat as H by (unfold field_text in H; lia).
  induction f as [|kv f IH]; [done|].
  assert (length (field_text kv) + 1 <= field_size kv)%nat.
  { unfold field_text, field_size. rewrite length_app. cbn [length]. pose proof (quoted_length kv.1).
    assert (length (stringify kv.2) <= value_size kv.2)%nat; [|lia].
    destruct kv.2; cbn [value_size]; try done; [unfold stringify, number_text; by rewrite str_length|apply quoted_length]. }
  cbn [map]. destruct f as [|w f].
  - change (length (field_text kv) <= field_size kv + 0)%nat. lia.
  - cbn [map] in *. rewrite commas_cons, length_app. cbn [length].
    change (sum_list (field_size kv :: ?l)) with (field_size kv + sum_list l)%nat. lia.
Qed.

Lemma b64_length n : forall b, (length b <= n)%nat -> (String.length (bytesToB64 b) <= 2 * length b + 4)%nat.
Proof.
  induction n as [|n IH]; intros b Hb.
  { destruct b; cbn in *; lia. }
  destruct b as [|x [|y [|z b]]]; try (cbn; lia). cbn [bytesToB64].
  destruct (quad _) as [[[p q] r] s]. cbn [String.length length] in *. specialize (IH b). lia.
Qed.

(** ** Texts in a hello *)

Lemma text_of_str s : text_of (Some (JStr s)) = Ok s.
Proof. unfold text_of. rewrite andb_false_r. unfold string_or_empty. cbn. by case_bool_decide; subst. Qed.

Lemma decode_encoded_field b n label : wf_bytes b -> length b = n -> decode_field (Some (JStr (bytesToB64 b))) n label = Ok b.
Proof. intros Hb Hn. unfold decode_field. rewrite text_of_str. cbn. by apply decodeB64Array_ok. Qed.

Lemma hex_digits b : wf_bytes b -> string_forallb is_hex_digit (bytesToHex b) = true.
Proof.
  induction 1 as [|x b Hx Hb IH]; [done|].
  assert (all_below 256 (fun x => string_forallb is_hex_digit (byte_hex x)) = true) as H by (vm_compute; reflexivity).
  apply (all_below_spec _ _ H) in Hx. change (bytesToHex (x :: b)) with (byte_hex x +:+ bytesToHex b).
  by rewrite string_forallb_app, Hx, IH.
Qed.

Lemma hexToLen_hex b : wf_bytes b -> hexToLen (bytesToHex b) = Z.of_nat (length b).
Proof.
  intros Hb. unfold hexToLen. rewrite bytesToHex_length, Nat.even_mul. cbn [negb Nat.even orb].
  rewrite hex_digits by done. rewrite Nat.mul_comm, Nat.div_mul by done. done.
Qed.

(** ** What the primitives promise *)

Class KeyLaws `{Crypto} `{Ed25519} : Prop := {
  sha256_size b : length (sha256 b) = 32%nat /\ wf_bytes (sha256 b);
  x25519_public_size secret : length secret = 32%nat -> wf_bytes secret ->
    length (x25519_public secret) = 32%nat /\ wf_bytes (x25519_public secret);
  ed25519_public_size secret : length secret = 32%nat -> wf_bytes secret ->
    length (ed25519_public secret) = 32%nat /\ wf_bytes (ed25519_public secret);
  ed25519_sign_size message secret : length (ed25519_sign message secret) = 64%nat /\ wf_bytes (ed25519_sign message secret);
  ed25519_verifies message secret : ed25519_verify (ed25519_sign message secret) message (ed25519_public secret) = Some true
}.

(** The random values of a device that follows the protocol. *)
Record fresh (x : secrets) : Prop := {
  fresh_seed : length (ephemeralSeed x) = 32%nat /\ wf_bytes (ephemeralSeed x);
  fresh_nonce : exists r, nonceHex x = bytesToHex r /\ length r = 32%nat /\ wf_bytes r;
  fresh_time : (String.length (pretty (timestampMs x)) <= 100)%nat
}.

(** The clocks agree: the reader's [now] and the writer's [timestampMs]. *)
Definition in_time (reader writer : secrets) : Prop :=
  match now reader with Some t => Z.abs (t - timestampMs writer) <= MAX_HANDSHAKE_CLOCK_SKEW_MS | None => True end.

Definition valid_name (name : string) : Prop := validateDisplayName (Some (JStr name)) = Ok tt.

(** An identity made from a seed of 32 bytes. *)
Definition real_identity `{Crypto} `{Ed25519} (me : identity) : Prop :=
  wf_bytes (seed me) /\ identityFromSeed (seed me) = Ok me.

Lemma valid_name_length name : valid_name name -> (String.length name <= 128)%nat.
Proof.
  unfold valid_name, validateDisplayName, value_bytes. cbn [coerces res_bind to_string].
  destruct (_ || _) eqn:E; [done|]. intros _. apply orb_false_iff in E as [_ E%Nat.ltb_ge].
  etransitivity; [|exact E]. rewrite <- str_length. clear E.
  induction (str name) as [|c l IH]; [done|]. cbn [utf8_encode flat_map length]. rewrite length_app.
  assert (1 <= length (encode_char c))%nat by (unfold encode_char; case_match; cbn; lia). unfold utf8_encode in IH. lia.
Qed.

Section facts.
Context `{HC : Crypto} `{HE : Ed25519} `{HL : !CryptoLaws} `{HK : !KeyLaws}.

Lemma real_identity_ok me : real_identity me ->
  length (seed me) = 32%nat /\ publicKey me = ed25519_public (seed me) /\ publicKeyB64 me = bytesToB64 (publicKey me)
  /\ peerId me = peerIdForPublicKey (publicKey me) /\ length (publicKey me) = 32%nat /\ wf_bytes (publicKey me).
Proof.
  intros [Hw E]. unfold identityFromSeed in E. destruct (Nat.eqb_spec (length (seed me)) 32) as [Hl|]; [|done].
  cbn in E. destruct me as [sd pk pid b64 sb]. injection E as <- <- <- <-. cbn in *.
  destruct (ed25519_public_size sd Hl Hw). done.
Qed.

(** A hello is well formed, and its parts are what was put in. *)
Lemma hello_parsed f label : well_formed (JObj f) -> parseHello (json_bytes f) label = Ok (JObj f).
Proof. intros Hw. unfold parseHello. by rewrite json_bytes_parse. Qed.

Definition common_part (f : fields) (displayName : string) (t : Z) (nonce : string) : Prop :=
  get f "magic" = Some (JStr HANDSHAKE_MAGIC) /\ get f "envelopeVersion" = Some (JNum HANDSHAKE_ENVELOPE_VERSION)
  /\ get f "protocolVersion" = Some (JNum PROTOCOL_VERSION) /\ get f "timestampMs" = Some (JNum t)
  /\ get f "nonce" = Some (JStr nonce) /\ get f "displayName" = Some (JStr displayName).

Lemma common_valid f displayName x y :
  common_part f displayName (timestampMs x) (nonceHex x) -> fresh x -> valid_name displayName -> in_time y x ->
  validateCommonHello (JObj f) (now y) = Ok tt.
Proof.
  intros (E1 & E2 & E3 & E4 & E5 & E6) [_ (r & Hr & Hl & Hw) _] Hn Ht. unfold validateCommonHello. cbn [prop].
  rewrite bool_decide_eq_false_2 by done. rewrite E1, E2, E3, E4, E5, E6, !bool_decide_eq_true_2 by done. cbn [negb].
  assert (check_clock (now y) (Some (JNum (timestampMs x))) = Ok tt) as ->.
  { unfold check_clock, in_time in *. destruct (now y) as [t|]; [|done]. cbn. by rewrite (proj2 (Z.ltb_ge _ _)). }
  rewrite text_of_str. cbn [res_bind]. rewrite Hr, bytesToHex_length, hexToLen_hex, Hl by done. exact Hn.
Qed.

(** The two hellos of devices that follow the protocol. *)
Definition client_hello (me : identity) (name : string) (x : secrets) : fields :=
  makeClientHello me name (timestampMs x) (nonceHex x) (x25519_public (ephemeralSeed x)).

Definition server_hello (me : identity) (name : string) (clientBytes : bytes) (x : secrets) : fields :=
  makeServerHello me name clientBytes (timestampMs x) (nonceHex x) (x25519_public (ephemeralSeed x)).

Lemma client_hello_eq me name x : client_hello me name x =
  hello_fields me name (timestampMs x) (nonceHex x) (x25519_public (ephemeralSeed x))
  ++ [("signature", JStr (bytesToB64 (sign me (clientSignatureInput (client_hello me name x)))))].
Proof. reflexivity. Qed.

Lemma server_hello_eq me name b x : server_hello me name b x =
  hello_fields me name (timestampMs x) (nonceHex x) (x25519_public (ephemeralSeed x))
  ++ [("clientHelloHash", JStr (bytesToHex (sha256 b)));
      ("signature", JStr (bytesToB64 (sign me (serverSignatureInput (server_hello me name b x)))))].
Proof. reflexivity. Qed.

Lemma client_hello_ok me name x : well_formed (JObj (client_hello me name x)).
Proof.
  rewrite client_hello_eq. generalize (clientSignatureInput (client_hello me name x)). intros m. literal_ok.
Qed.

Lemma server_hello_ok me name b x : well_formed (JObj (server_hello me name b x)).
Proof.
  rewrite server_hello_eq. generalize (serverSignatureInput (server_hello me name b x)). intros m. literal_ok.
Qed.

Lemma client_check me name x y : real_identity me -> fresh x -> valid_name name -> in_time y x ->
  check_client (json_bytes (client_hello me name x)) (now y) = Ok tt.
Proof.
  intros Hm Hx Hn Ht. destruct (real_identity_ok me Hm) as (Hs & Hp & Hb & _ & Hpl & Hpw).
  destruct (x25519_public_size (ephemeralSeed x)) as [He Hew]; [apply Hx..|].
  unfold check_client. rewrite hello_parsed by apply client_hello_ok. cbn [res_bind].
  rewrite (common_valid _ name x y) by done. cbn [res_bind].
  change (get (hello_object (JObj (client_hello me name x))) "identityKey") with (Some (JStr (publicKeyB64 me))).
  change (get (hello_object (JObj (client_hello me name x))) "ephemeralKey") with (Some (JStr (bytesToB64 (x25519_public (ephemeralSeed x))))).
  set (m := clientSignatureInput (hello_object (JObj (client_hello me name x)))).
  change (get (hello_object (JObj (client_hello me name x))) "signature") with (Some (JStr (bytesToB64 (sign me m)))).
  rewrite Hb, !decode_encoded_field by (try apply ed25519_sign_size; done). cbn [res_bind].
  unfold verifySignature, sign. by rewrite Hp, ed25519_verifies.
Qed.

Lemma server_check me name x y clientBytes expected :
  real_identity me -> fresh x -> valid_name name -> in_time y x ->
  expected = None \/ expected = Some (peerId me) ->
  check_server clientBytes (json_bytes (server_hello me name clientBytes x)) expected (now y) = Ok tt.
Proof.
  intros Hm Hx Hn Ht Hexp. destruct (real_identity_ok me Hm) as (Hs & Hp & Hb & Hid & Hpl & Hpw).
  destruct (x25519_public_size (ephemeralSeed x)) as [He Hew]; [apply Hx..|].
  unfold check_server. rewrite hello_parsed by apply server_hello_ok. cbn [res_bind].
  rewrite (common_valid _ name x y) by done. cbn [res_bind].
  set (h := hello_object (JObj (server_hello me name clientBytes x))).
  change (get h "identityKey") with (Some (JStr (publicKeyB64 me))).
  change (get h "ephemeralKey") with (Some (JStr (bytesToB64 (x25519_public (ephemeralSeed x))))).
  change (get h "clientHelloHash") with (Some (JStr (bytesToHex (sha256 clientBytes)))).
  change (get h "signature") with (Some (JStr (bytesToB64 (sign me (serverSignatureInput h))))).
  rewrite Hb, !decode_encoded_field by (try apply ed25519_sign_size; done). cbn [res_bind].
  rewrite bool_decide_eq_true_2 by done. unfold verifySignature, sign. rewrite Hp, ed25519_verifies. cbn [negb default].
  rewrite <- Hp, <- Hid. destruct Hexp as [->| ->]; [done|]. cbn [truthy_str].
  change (truthy_str (Some (peerId me))) with (match peerId me with "" => None | _ => Some (peerId me) end).
  destruct (peerId me); [done|]. by rewrite bool_decide_eq_true_2.
Qed.

(** The session that a side builds from the two hellos. *)
Definition built (pk : bytes) (name : string) (transcript : bytes) (ciphers : cipher * cipher) : session :=
  mk_session (peerIdForPublicKey pk) (Some (JStr name)) (bytesToHex (take 16 transcript)) transcript ciphers.1 ciphers.2.

Lemma establish_ok f g secret (initiator : bool) maximum pk eph name shared :
  well_formed (JObj f) -> well_formed (JObj g) ->
  get (if initiator then g else f) "identityKey" = Some (JStr (bytesToB64 pk)) -> length pk = 32%nat -> wf_bytes pk ->
  get (if initiator then g else f) "ephemeralKey" = Some (JStr (bytesToB64 eph)) -> length eph = 32%nat -> wf_bytes eph ->
  get (if initiator then g else f) "displayName" = Some (JStr name) -> sharedSecret secret eph = Ok shared ->
  establishFromHellos (json_bytes f) (json_bytes g) secret initiator maximum =
    Ok (built pk name (transcriptHash (json_bytes f) (json_bytes g))
          (deriveSessionCiphers shared (transcriptHash (json_bytes f) (json_bytes g)) initiator maximum)).
Proof.
  intros Hf Hg E1 L1 W1 E2 L2 W2 E3 Hs. unfold establishFromHellos. rewrite !hello_parsed by done. cbn [res_bind].
  destruct initiator; cbn [prop] in *; rewrite E1, E2, E3, !decode_encoded_field by done; cbn [res_bind]; by rewrite Hs.
Qed.

Lemma derive_swap shared transcript maximum :
  deriveSessionCiphers shared transcript false maximum =
    ((deriveSessionCiphers shared transcript true maximum).2, (deriveSessionCiphers shared transcript true maximum).1).
Proof. done. Qed.

(** *** The finished records *)

Lemma same_channel_refl c : same_channel c c.
Proof. done. Qed.

Lemma finished_length role b : (String.length role <= 20)%nat ->
  (length (json_bytes (finished_body role (sha256 b))) <= 4000)%nat.
Proof.
  intros Hr. etransitivity; [apply json_bytes_length|]. unfold finished_body, field_size. cbn [map sum_list fst snd value_size].
  rewrite bytesToHex_length. destruct (sha256_size b) as [-> _]. cbn [String.length sum_list foldr]. cbn. lia.
Qed.

Lemma finished_sent c role b maximum :
  (String.length role <= 20)%nat -> nextSequence c = 0 -> maxPlaintextBytes c = maximum -> 4096 <= maximum ->
  exists frame record,
    sendFinished c role (sha256 b) maximum = Write frame (Return (c <| nextSequence := 1 |>))
    /\ encodePrefixed record (maximum + 8 + 16) = Ok frame
    /\ record = record_at c 0 (json_bytes (finished_body role (sha256 b))).
Proof.
  intros Hr Hn Hm H. pose proof (finished_length role b Hr) as Hl. unfold sendFinished.
  set (p := json_bytes (finished_body role (sha256 b))) in *.
  assert (E : encrypt c p = Ok (c <| nextSequence := 1 |>, record_at c 0 p)).
  { apply encrypt_ok. rewrite Hn. split_and!; try done; lia. }
  assert (Hlen : Z.of_nat (length (record_at c 0 p)) <= 4024).
  { unfold record_at. rewrite length_app, u64Be_length, aead_tag. lia. }
  rewrite E. cbn [call script_bind fst snd].
  destruct (encodePrefixed (record_at c 0 p) (maximum + 8 + 16)) as [frame|e] eqn:Ep.
  - exists frame, (record_at c 0 p). done.
  - unfold encodePrefixed in Ep. rewrite !(proj2 (Z.ltb_ge _ _)) in Ep by lia. done.
Qed.

Lemma finished_received c r role b maximum frame rest :
  (String.length role <= 20)%nat -> same_channel c r -> nextSequence r = 0 -> maxPlaintextBytes r = maximum -> 4096 <= maximum ->
  encodePrefixed (record_at c 0 (json_bytes (finished_body role (sha256 b)))) (maximum + 8 + 16) = Ok frame ->
  perform (receiveFinished r role (sha256 b) maximum) (frame ++ rest) = ([], Done (r <| nextSequence := 1 |>), rest).
Proof.
  intros Hr Hc Hn Hm H Ef. pose proof (finished_length role b Hr) as Hl. unfold receiveFinished. cbn [perform].
  rewrite (nextFrame_encoded _ _ _ _ Ef). rewrite (decrypt_record_at c r) by (done || lia). rewrite Hn.
  cbn [decide call script_bind fst snd]. rewrite decide_True by done. cbn [call script_bind fst snd].
  rewrite json_bytes_parse by literal_ok. cbn [mbind option_bind].
  unfold is_finished, finished_body. cbn [prop]. by rewrite !bool_decide_eq_true_2.
Qed.

(** *** The size of a hello *)

Lemma encodePrefixed_ok b m : Z.of_nat (length b) <= m -> m <= 4294967295 -> encodePrefixed b m = Ok (u32Be (Z.of_nat (length b)) ++ b).
Proof. intros H Hm. unfold encodePrefixed. by rewrite !(proj2 (Z.ltb_ge _ _)) by lia. Qed.

(** The lengths of the literals in a goal. *)
Ltac literal_lengths :=
  repeat match goal with
  | |- context [String.length ?s] =>
      let n := eval vm_compute in (String.length s) in
      match n with context [String.length] => fail 1 | context [match _ with _ => _ end] => fail 1 | _ => idtac end;
      progress change (String.length s) with n
  end.

Lemma hello_part_size me name x : real_identity me -> fresh x -> valid_name name ->
  (sum_list (map field_size (hello_fields me name (timestampMs x) (nonceHex x) (x25519_public (ephemeralSeed x)))) <= 5000)%nat.
Proof.
  intros Hm Hx Hn. destruct (real_identity_ok me Hm) as (_ & _ & Hb & _ & Hpl & _).
  destruct (x25519_public_size (ephemeralSeed x)) as [He _]; [apply Hx..|]. destruct Hx as [_ (r & Hr & Hrl & _) Ht].
  pose proof (valid_name_length name Hn) as Hnl. pose proof (b64_length 32 (publicKey me) ltac:(lia)) as H1.
  pose proof (b64_length 32 _ ltac:(rewrite He; done)) as H2. rewrite <- Hb, Hpl in H1. rewrite He in H2.
  pose proof (bytesToHex_length r) as H3. rewrite <- Hr, Hrl in H3.
  unfold hello_fields, field_size. cbn [map fst snd value_size]. rewrite H3.
  revert H1 H2 Ht Hnl. generalize (String.length (publicKeyB64 me)), (String.length (bytesToB64 (x25519_public (ephemeralSeed x)))),
    (String.length (pretty (timestampMs x))), (String.length name). intros a b c d ????.
  literal_lengths. cbn [sum_list]. unfold id. lia.
Qed.

Lemma signature_size me m : (String.length (bytesToB64 (sign me m)) <= 132)%nat.
Proof. destruct (ed25519_sign_size m (seed me)) as [Hl _]. unfold sign. pose proof (b64_length 64 (ed25519_sign m (seed me)) ltac:(lia)). lia. Qed.

Lemma hello_fits f extra n : (sum_list (map field_size f) <= n)%nat -> (sum_list (map field_size extra) <= 5000)%nat -> (n <= 5000)%nat ->
  (length (json_bytes (f ++ extra)) <= 25 * 1000)%nat.
Proof.
  intros H1 H2 H3. etransitivity; [apply json_bytes_length|]. rewrite map_app, sum_list_with_app. lia.
Qed.

Lemma client_hello_fits me name x : real_identity me -> fresh x -> valid_name name ->
  (length (json_bytes (client_hello me name x)) <= 25 * 1000)%nat.
Proof.
  intros Hm Hx Hn. rewrite client_hello_eq. eapply hello_fits; [by apply hello_part_size| |done].
  unfold field_size. cbn [map fst snd value_size]. pose proof (signature_size me (clientSignatureInput (client_hello me name x))) as H.
  revert H. generalize (String.length (bytesToB64 (sign me (clientSignatureInput (client_hello me name x))))). intros n H.
  literal_lengths. cbn [sum_list]. unfold id. lia.
Qed.

Lemma server_hello_fits me name b x : real_identity me -> fresh x -> valid_name name ->
  (length (json_bytes (server_hello me name b x)) <= 25 * 1000)%nat.
Proof.
  intros Hm Hx Hn. rewrite server_hello_eq. eapply hello_fits; [by apply hello_part_size| |done].
  unfold field_size. cbn [map fst snd value_size]. pose proof (signature_size me (serverSignatureInput (server_hello me name b x))) as H.
  rewrite bytesToHex_length. destruct (sha256_size b) as [-> _].
  revert H. generalize (String.length (bytesToB64 (sign me (serverSignatureInput (server_hello me name b x))))). intros n H.
  literal_lengths. cbn [sum_list]. unfold id. lia.
Qed.

Lemma client_hello_framed me name x : real_identity me -> fresh x -> valid_name name ->
  exists m, encodePrefixed (json_bytes (client_hello me name x)) MAX_HANDSHAKE_BYTES = Ok m.
Proof.
  intros Hm Hx Hn. pose proof (client_hello_fits me name x Hm Hx Hn). eexists. apply encodePrefixed_ok; unfold MAX_HANDSHAKE_BYTES; lia.
Qed.

Lemma server_hello_framed me name b x : real_identity me -> fresh x -> valid_name name ->
  exists m, encodePrefixed (json_bytes (server_hello me name b x)) MAX_HANDSHAKE_BYTES = Ok m.
Proof.
  intros Hm Hx Hn. pose proof (server_hello_fits me name b x Hm Hx Hn). eexists. apply encodePrefixed_ok; unfold MAX_HANDSHAKE_BYTES; lia.
Qed.

(** *** Both sides, step by step *)

Lemma seed_ok x : fresh x -> ephemeralFromSeed (ephemeralSeed x) = Ok (ephemeralSeed x, x25519_public (ephemeralSeed x)).
Proof. intros [[Hl _] _ _]. unfold ephemeralFromSeed. by rewrite Hl. Qed.

(** What the initiator does with whatever bytes arrive, up to the end of its finished record. *)
Lemma initiator_performs me name expected maximum x m1 serverBytes m2 s sent frame rest :
  fresh x -> valid_name name ->
  let C := json_bytes (client_hello me name x) in
  encodePrefixed C MAX_HANDSHAKE_BYTES = Ok m1 -> encodePrefixed serverBytes MAX_HANDSHAKE_BYTES = Ok m2 ->
  check_server C serverBytes expected (now x) = Ok tt ->
  establishFromHellos C serverBytes (ephemeralSeed x) true maximum = Ok s ->
  sendFinished (s_send s) "initiator" (s_transcript s) maximum = Write frame (Return sent) ->
  perform (initiatorHandshake me name expected maximum x) [] = ([m1], Waiting, []) /\
  perform (initiatorHandshake me name expected maximum x) (m2 ++ rest) =
    match perform (receiveFinished (s_receive s) "responder" (s_transcript s) maximum) rest with
    | (w, Done r, rest') => (m1 :: frame :: w, Done (s <| s_send := sent |> <| s_receive := r |>), rest')
    | (w, Failed e, rest') => (m1 :: frame :: w, Failed e, rest')
    | (w, Waiting, rest') => (m1 :: frame :: w, Waiting, rest')
    end.
Proof.
  intros Hx Hn C E1 E2 Hc He Hf. unfold initiatorHandshake.
  rewrite (perform_call _ _ _ Hn), (perform_call _ _ _ (seed_ok x Hx)). cbn [fst snd].
  fold (client_hello me name x). unfold clientHelloBytes. fold C. rewrite (perform_call _ _ _ E1). cbn [perform].
  split; [done|]. rewrite (nextFrame_encoded _ _ _ _ E2).
  rewrite (perform_call _ _ _ Hc), (perform_call _ _ _ He), Hf. cbn [script_bind perform]. rewrite perform_bind.
  destruct (perform (receiveFinished _ _ _ _) rest) as [[w [r|e|]] rest']; [|done..]. cbn [perform]. by rewrite app_nil_r.
Qed.

Lemma responder_performs me name maximum y m1 clientBytes m2 s rest :
  fresh y -> valid_name name ->
  let S := json_bytes (server_hello me name clientBytes y) in
  encodePrefixed clientBytes MAX_HANDSHAKE_BYTES = Ok m1 -> encodePrefixed S MAX_HANDSHAKE_BYTES = Ok m2 ->
  check_client clientBytes (now y) = Ok tt ->
  establishFromHellos clientBytes S (ephemeralSeed y) false maximum = Ok s ->
  perform (responderHandshake me name maximum y) (m1 ++ rest) =
    match perform (receiveFinished (s_receive s) "initiator" (s_transcript s) maximum) rest with
    | (w, Done r, rest') =>
        match perform (sendFinished (s_send s) "responder" (s_transcript s) maximum) rest' with
        | (w', Done sent, rest'') => (m2 :: w ++ w', Done (s <| s_receive := r |> <| s_send := sent |>), rest'')
        | (w', Failed e, rest'') => (m2 :: w ++ w', Failed e, rest'')
        | (w', Waiting, rest'') => (m2 :: w ++ w', Waiting, rest'')
        end
    | (w, Failed e, rest') => (m2 :: w, Failed e, rest')
    | (w, Waiting, rest') => (m2 :: w, Waiting, rest')
    end.
Proof.
  intros Hy Hn S E1 E2 Hc He. unfold responderHandshake.
  rewrite (perform_call _ _ _ Hn). cbn [perform]. rewrite (nextFrame_encoded _ _ _ _ E1).
  rewrite (perform_call _ _ _ Hc), (perform_call _ _ _ (seed_ok y Hy)). cbn [fst snd].
  fold (server_hello me name clientBytes y). unfold serverHelloBytes. fold S. rewrite (perform_call _ _ _ E2). cbn [perform].
  rewrite (perform_call _ _ _ He), perform_bind.
  destruct (perform (receiveFinished _ _ _ _) rest) as [[w [r|e|]] rest']; [|done..]. rewrite perform_bind.
  destruct (perform (sendFinished _ _ _ _) rest') as [[w' [c|e|]] rest'']; [|done..]. cbn [perform]. by rewrite app_nil_r.
Qed.

(** C7: two devices that follow the protocol, whose clocks agree and whose keys give a
    usable secret, complete the handshake: each step writes what the other waits for, both
    end without leftover bytes, each knows the identity and the name of the other, and the
    cipher one sends with is the cipher the other receives with. *)
Theorem handshake_completes me you nameI nameR expected maximum x y shared :
  real_identity me -> real_identity you -> valid_name nameI -> valid_name nameR -> fresh x -> fresh y ->
  in_time x y -> in_time y x -> expected = None \/ expected = Some (peerId you) -> 4096 <= maximum ->
  sharedSecret (ephemeralSeed x) (x25519_public (ephemeralSeed y)) = Ok shared ->
  let I := initiatorHandshake me nameI expected maximum x in
  let R := responderHandshake you nameR maximum y in
  exists m1 f1 m2 f2 sI sR,
    perform I [] = ([m1], Waiting, []) /\
    perform R m1 = ([m2], Waiting, []) /\
    perform I m2 = ([m1; f1], Waiting, []) /\
    perform R (m1 ++ f1) = ([m2; f2], Done sR, []) /\
    perform I (m2 ++ f2) = ([m1; f1], Done sI, []) /\
    (remotePeerId sI, remoteDisplayName sI) = (peerId you, Some (JStr nameR)) /\
    (remotePeerId sR, remoteDisplayName sR) = (peerId me, Some (JStr nameI)) /\
    connectionId sI = connectionId sR /\ s_send sI = s_receive sR /\ s_send sR = s_receive sI /\
    maxPlaintextBytes (s_send sI) = maximum /\ maxPlaintextBytes (s_send sR) = maximum /\
    nextSequence (s_send sI) = 1 /\ nextSequence (s_send sR) = 1.
Proof.
  intros Hme Hyou HnI HnR Hx Hy Txy Tyx Hexp Hmax Hs I R.
  set (C := json_bytes (client_hello me nameI x)). set (S := json_bytes (server_hello you nameR C y)).
  destruct (client_hello_framed me nameI x Hme Hx HnI) as [m1 E1]. destruct (server_hello_framed you nameR C y Hyou Hy HnR) as [m2 E2].
  destruct (real_identity_ok me Hme) as (_ & _ & HbI & HidI & HlI & HwI).
  destruct (real_identity_ok you Hyou) as (_ & _ & HbR & HidR & HlR & HwR).
  destruct (x25519_public_size (ephemeralSeed x)) as [LeI WeI]; [apply Hx..|].
  destruct (x25519_public_size (ephemeralSeed y)) as [LeR WeR]; [apply Hy..|].
  assert (Hs' : sharedSecret (ephemeralSeed y) (x25519_public (ephemeralSeed x)) = Ok shared).
  { unfold sharedSecret in *. by rewrite (dh_commutes (ephemeralSeed y)). }
  pose proof (client_hello_ok me nameI x) as WC. pose proof (server_hello_ok you nameR C y) as WS.
  pose proof (establish_ok _ _ (ephemeralSeed x) true maximum (publicKey you) _ nameR shared WC WS
    ltac:(by rewrite <- HbR) HlR HwR eq_refl LeR WeR eq_refl Hs) as EI.
  pose proof (establish_ok _ _ (ephemeralSeed y) false maximum (publicKey me) _ nameI shared WC WS
    ltac:(by rewrite <- HbI) HlI HwI eq_refl LeI WeI eq_refl Hs') as ER.
  fold C S in EI, ER. rewrite derive_swap in ER. unfold transcriptHash in EI, ER. set (T := sha256 _) in *.
  set (k := deriveSessionCiphers shared T true maximum) in *.
  destruct (finished_sent k.1 "initiator" (concatBytes [TRANSCRIPT_DOMAIN; u64Be (Z.of_nat (length C)); C; u64Be (Z.of_nat (length S)); S]) maximum)
    as (f1 & r1 & F1 & G1 & ->); [cbn; lia|done|done|done|].
  destruct (finished_sent k.2 "responder" (concatBytes [TRANSCRIPT_DOMAIN; u64Be (Z.of_nat (length C)); C; u64Be (Z.of_nat (length S)); S]) maximum)
    as (f2 & r2 & F2 & G2 & ->); [cbn; lia|done|done|done|].
  fold T in F1, F2, G1, G2.
  pose proof (fun rest => finished_received k.1 k.1 "initiator" _ maximum f1 rest ltac:(cbn; lia) (same_channel_refl _) eq_refl eq_refl Hmax G1) as R1.
  pose proof (fun rest => finished_received k.2 k.2 "responder" _ maximum f2 rest ltac:(cbn; lia) (same_channel_refl _) eq_refl eq_refl Hmax G2) as R2.
  fold T in R1, R2.
  pose proof (client_check me nameI x y Hme Hx HnI Tyx) as CC. fold C in CC.
  pose proof (server_check you nameR y x C expected Hyou Hy HnR Txy Hexp) as CS. fold S in CS.
  pose proof (fun rest => initiator_performs me nameI expected maximum x m1 S m2 _ _ f1 rest Hx HnI E1 E2 CS EI F1) as PI.
  pose proof (fun rest => responder_performs you nameR maximum y m1 C m2 _ rest Hy HnR E1 E2 CC ER) as PR.
  exists m1, f1, m2, f2. do 2 eexists.
  pose proof (PI []) as [P0 P1]. pose proof (PI f2) as [_ P2]. rewrite <- (app_nil_r f2) in P2 at 2.
  cbn [built s_receive s_send s_transcript fst snd] in *. rewrite R2 in P2.
  pose proof (PR []) as Q1. pose proof (PR f1) as Q2. rewrite <- (app_nil_r f1) in Q2 at 2. rewrite R1, F2 in Q2.
  rewrite app_nil_r in P1, Q1.
  split; [exact P0|]. split; [exact Q1|]. split; [exact P1|]. split; [exact Q2|]. split; [exact P2|].
  rewrite HidI, HidR. clear. repeat split.
Qed.

(** ** Who has signed what *)

(** The messages that a device which follows the protocol signs with its identity: its
    client hellos, its answers and its logins at a relay. *)
Inductive honest_message (you : identity) : bytes -> Prop :=
| signed_client name t nonce eph : honest_message you (clientSignatureInput (makeClientHello you name t nonce eph))
| signed_server name clientBytes t nonce secret : length secret = 32%nat -> wf_bytes secret ->
    honest_message you (serverSignatureInput (makeServerHello you name clientBytes t nonce (x25519_public secret)))
| signed_login nonce host :
    honest_message you (utf8 ("bluetalk-relay-auth-v1" +:+ newline +:+ nonce +:+ newline +:+ host)).

(** The three domains differ in a byte of their first nineteen. *)
Lemma domains_differ a b : serverSignatureInput a <> clientSignatureInput b.
Proof.
  intros E. apply (f_equal (fun l : bytes => nth 12 l 0)) in E. unfold serverSignatureInput, clientSignatureInput in E.
  vm_compute in E. discriminate.
Qed.

Lemma login_differs a nonce host :
  serverSignatureInput a <> utf8 ("bluetalk-relay-auth-v1" +:+ newline +:+ nonce +:+ newline +:+ host).
Proof.
  intros E. apply (f_equal (fun l : bytes => nth 0 l 0)) in E. unfold serverSignatureInput in E. vm_compute in E. discriminate.
Qed.

Lemma honest_server you m f : honest_message you m -> m = serverSignatureInput f ->
  exists name C t nonce secret, length secret = 32%nat /\ wf_bytes secret /\
    serverSignatureInput f = serverSignatureInput (makeServerHello you name C t nonce (x25519_public secret)).
Proof.
  intros [name t nonce eph|name C t nonce secret Hl Hw|nonce host] E.
  - by edestruct domains_differ.
  - by exists name, C, t, nonce, secret.
  - by edestruct login_differs.
Qed.

(** *** The signed properties of a hello *)

Lemma pick_cons n names f : pick (n :: names) f =
  match get f n with Some v => (n, v) :: pick names f | None => pick names f end.
Proof. unfold pick, object. cbn. by destruct (get f n). Qed.

Lemma get_pick names f k : get (pick names f) k = if decide (k ∈ names) then get f k else None.
Proof.
  induction names as [|n names IH]; [done|]. rewrite pick_cons.
  destruct (get f n) as [v|] eqn:E; cbn [get]; [case_bool_decide as H; [subst; rewrite decide_True by set_solver; by rewrite E|]|].
  - rewrite IH. repeat case_decide; set_solver.
  - rewrite IH. destruct (decide (k = n)) as [->|Hne]; [rewrite E; by repeat case_decide|]. repeat case_decide; set_solver.
Qed.

Lemma pick_well_formed names f : NoDup names -> well_formed (JObj f) -> well_formed (JObj (pick names f)).
Proof.
  intros Hn [Hu Hw]. split; [|apply well_formed_fields; apply well_formed_fields in Hw];
    (induction names as [|n names IH]; [try apply NoDup_nil_2; done|]; apply NoDup_cons in Hn as [Hni Hn]; rewrite pick_cons;
     destruct (get f n) as [v|] eqn:E; [|by apply IH]).
  - unfold unique. cbn [map fst]. apply NoDup_cons. split; [|by apply IH].
    rewrite <- get_None, get_pick. by rewrite decide_False.
  - constructor; [|by apply IH]. apply get_Some_elem in E; [|done]. rewrite Forall_forall in Hw. by apply (Hw _ E).
Qed.

Lemma concatBytes_inj (p a b : bytes) : concatBytes [p; a] = concatBytes [p; b] -> a = b.
Proof. unfold concatBytes. cbn [concat]. rewrite !app_nil_r. apply app_inv_head. Qed.

(** Hellos with the same signed text agree on what is signed. *)
Lemma server_input_inj f g : well_formed (JObj f) -> well_formed (JObj g) ->
  serverSignatureInput f = serverSignatureInput g -> forall k, k ∈ SERVER_FIELDS -> get f k = get g k.
Proof.
  intros Hf Hg E%concatBytes_inj k Hk.
  assert (Hn : NoDup SERVER_FIELDS) by (apply (bool_decide_unpack _); vm_compute; exact I).
  apply json_bytes_inj in E; [|by apply pick_well_formed..]. apply (f_equal (fun l => get l k)) in E.
  rewrite !get_pick in E. by rewrite !decide_True in E.
Qed.

Lemma client_input_inj f g : well_formed (JObj f) -> well_formed (JObj g) ->
  clientSignatureInput f = clientSignatureInput g -> forall k, k ∈ CLIENT_FIELDS -> get f k = get g k.
Proof.
  intros Hf Hg E%concatBytes_inj k Hk.
  assert (Hn : NoDup CLIENT_FIELDS) by (apply (bool_decide_unpack _); vm_compute; exact I).
  apply json_bytes_inj in E; [|by apply pick_well_formed..]. apply (f_equal (fun l => get l k)) in E.
  rewrite !get_pick in E. by rewrite !decide_True in E.
Qed.

(** *** What a completed handshake has checked *)

Lemma perform_call_done {A B} (r : res A) (k : A -> script B) input w b rest :
  perform (script_bind (call r) k) input = (w, Done b, rest) -> exists a, r = Ok a /\ perform (k a) input = (w, Done b, rest).
Proof. destruct r as [a|e]; [by exists a|done]. Qed.

Lemma perform_bind_done {A B} (s : script A) (k : A -> script B) input w b rest :
  perform (script_bind s k) input = (w, Done b, rest) ->
  exists w1 a mid w2, perform s input = (w1, Done a, mid) /\ perform (k a) mid = (w2, Done b, rest).
Proof.
  rewrite perform_bind. destruct (perform s input) as [[w1 [a|e|]] mid]; [|done..].
  destruct (perform (k a) mid) as [[w2 o] r] eqn:E. intros; simplify_eq. exists w1, a, mid, w2. by rewrite E.
Qed.

Lemma parsed_well_formed b label v : parseHello b label = Ok v -> well_formed v.
Proof.
  unfold parseHello. destruct (utf8Decode b) as [t|]; [|done]. cbn. destruct (parse t) as [w|] eqn:E; [|done].
  intros; simplify_eq. by eapply parse_well_formed.
Qed.

Lemma common_object v t : validateCommonHello v t = Ok tt -> exists f, v = JObj f.
Proof.
  assert (Hno : forall e r, @Err unit e = r -> r = Ok tt -> exists f, v = JObj f) by (by intros e r <-).
  destruct v as [|b|n|s|l|f]; intros H; [| | | | |by exists f]; by (eapply Hno; [|exact H]).
Qed.

(** A checked server hello: an object whose signature is valid for the expected identity. *)
Lemma check_server_ok C S expected t : check_server C S (Some expected) t = Ok tt -> expected <> "" ->
  exists f pk sig, parseHello S "server hello" = Ok (JObj f) /\ decode_field (get f "identityKey") 32 "server identity key" = Ok pk
    /\ get f "clientHelloHash" = Some (JStr (bytesToHex (sha256 C)))
    /\ verifySignature pk (serverSignatureInput f) sig = true /\ peerIdForPublicKey pk = expected.
Proof.
  unfold check_server. intros (v & Hv & H)%res_bind_ok Hne. apply res_bind_ok in H as ([] & Hc & H).
  apply common_object in Hc as [f ->].
  unfold hello_object in H. cbn [as_object default from_option id] in H.
  apply res_bind_ok in H as (pk & Hpk & H). apply res_bind_ok in H as (eph & _ & H).
  apply res_bind_ok in H as (sig & _ & H). case_bool_decide as Hh; cbn [negb] in H; [|done].
  apply res_bind_ok in H as (pk' & Hpk' & H). rewrite Hpk in Hpk'. simplify_eq.
  destruct (verifySignature pk' (serverSignatureInput f) sig) eqn:Hs; cbn [negb] in H; [|done].
  exists f, pk', sig. repeat split; try done.
  destruct expected as [|c e]; [done|]. cbn [truthy_str] in H. by case_bool_decide.
Qed.

Lemma finished_sent_done c role T maximum input w c' rest :
  perform (sendFinished c role T maximum) input = (w, Done c', rest) -> c' = c <| nextSequence := nextSequence c + 1 |>.
Proof.
  intros ([c1 r] & E & H)%perform_call_done. apply perform_call_done in H as (fr & _ & H). cbn in H.
  simplify_eq. by apply encrypt_ok in E as (_ & _ & -> & _).
Qed.

Lemma decrypt_ok c record c' p : decrypt c record = Ok (c', p) -> c' = c <| nextSequence := nextSequence c + 1 |>.
Proof. unfold decrypt. repeat case_match; try done. intros (a & _ & ?)%res_bind_ok. by simplify_eq. Qed.

Lemma finished_received_done c role T maximum input w c' rest :
  perform (receiveFinished c role T maximum) input = (w, Done c', rest) -> c' = c <| nextSequence := nextSequence c + 1 |>.
Proof.
  unfold receiveFinished. cbn [perform]. destruct (nextFrame input _) as [[[f|] r]|e]; [|done..].
  intros ([c1 p] & E & H)%perform_call_done. apply decrypt_ok in E. cbn [fst snd] in *. subst c1.
  destruct (utf8Decode p ≫= parse) as [v|]; [|done].
  assert (forall o : script cipher, perform o r = (w, Done c', rest) -> o = Return (c <| nextSequence := nextSequence c + 1 |>)
    \/ (exists e, o = Throw e) -> c' = c <| nextSequence := nextSequence c + 1 |>) as Hend.
  { intros o Ho [->|[e ->]]; cbn in Ho; by simplify_eq. }
  eapply Hend; [exact H|]. destruct v; [right; by eexists|..]; destruct (is_finished _ _ _); [by left|right; by eexists|..];
    try (by left); right; by eexists.
Qed.

(** A completed handshake of the initiator, taken apart. *)
Lemma initiator_done me name expected maximum x input w s rest :
  let C := json_bytes (client_hello me name x) in
  perform (initiatorHandshake me name expected maximum x) input = (w, Done s, rest) ->
  exists serverBytes more s0, nextFrame input MAX_HANDSHAKE_BYTES = Ok (Some serverBytes, more)
    /\ check_server C serverBytes expected (now x) = Ok tt
    /\ establishFromHellos C serverBytes (ephemeralSeed x) true maximum = Ok s0
    /\ s = s0 <| s_send := s_send s0 <| nextSequence := nextSequence (s_send s0) + 1 |> |>
              <| s_receive := s_receive s0 <| nextSequence := nextSequence (s_receive s0) + 1 |> |>.
Proof.
  intros C. unfold initiatorHandshake. intros ([] & _ & H)%perform_call_done. apply perform_call_done in H as (eph & He & H).
  unfold ephemeralFromSeed in He. destruct (negb _); [done|]. injection He as <-. cbn [fst snd] in H.
  fold (client_hello me name x) in H. unfold clientHelloBytes in H. fold C in H.
  apply perform_call_done in H as (m1 & _ & H). cbn [perform] in H.
  destruct (nextFrame input _) as [[[S|] r]|e] eqn:Ef; [|done..].
  destruct (perform _ r) as [[w' o] r'] eqn:E in H. injection H as <- -> ->.
  apply perform_call_done in E as ([] & Hc & E). apply perform_call_done in E as (s0 & Hs & E).
  apply perform_bind_done in E as (w1 & c1 & mid & w2 & E1 & E). apply finished_sent_done in E1 as ->.
  apply perform_bind_done in E as (w3 & c2 & mid2 & w4 & E2 & E). apply finished_received_done in E2 as ->.
  cbn [perform] in E. injection E as _ <- _. exists S, r, s0. repeat split; done.
Qed.

Lemma establish_inv C S secret f maximum s :
  parseHello S "server hello" = Ok (JObj f) -> establishFromHellos C S secret true maximum = Ok s ->
  exists pk eph shared, decode_field (get f "identityKey") 32 "server identity key" = Ok pk
    /\ decode_field (get f "ephemeralKey") 32 "server ephemeral key" = Ok eph /\ sharedSecret secret eph = Ok shared
    /\ s = mk_session (peerIdForPublicKey pk) (get f "displayName") (bytesToHex (take 16 (transcriptHash C S))) (transcriptHash C S)
        (deriveSessionCiphers shared (transcriptHash C S) true maximum).1 (deriveSessionCiphers shared (transcriptHash C S) true maximum).2.
Proof.
  intros HS. unfold establishFromHellos. intros (c & _ & H)%res_bind_ok. rewrite HS in H. cbn [res_bind] in H.
  apply res_bind_ok in H as (pk & Hpk & H). apply res_bind_ok in H as (eph & He & H). apply res_bind_ok in H as (sh & Hsh & H).
  exists pk, eph, sh. injection H as <-. done.
Qed.

Lemma hash_text_inj a b : bytesToHex (sha256 a) = bytesToHex (sha256 b) -> sha256 a = sha256 b.
Proof.
  intros E. destruct (sha256_size a) as [_ Ha], (sha256_size b) as [_ Hb].
  apply hex_roundtrip in Ha, Hb. rewrite E, Hb in Ha. by simplify_eq.
Qed.

(** C6: a session with an expected peer is a session with the owner of that identity: when
    the initiator's handshake completes, whatever bytes the network delivered, the remote peer
    id is the expected one, and the first frame was a hello with a valid signature under a key
    behind that id.  If [you], a device that follows the protocol, is who has signed it, then
    it was signed in answer to a client hello with the hash of this one, under the name the
    session shows, and the keys of the session come from the ephemeral key of that answer and
    the initiator's own. *)
Theorem initiator_authenticates you me name expected maximum x input w s rest :
  expected <> "" ->
  perform (initiatorHandshake me name (Some expected) maximum x) input = (w, Done s, rest) ->
  remotePeerId s = expected /\
  exists serverBytes more hello pk sig,
    s_transcript s = transcriptHash (json_bytes (client_hello me name x)) serverBytes /\
    nextFrame input MAX_HANDSHAKE_BYTES = Ok (Some serverBytes, more) /\
    parseHello serverBytes "server hello" = Ok (JObj hello) /\
    peerIdForPublicKey pk = expected /\ verifySignature pk (serverSignatureInput hello) sig = true /\
    (honest_message you (serverSignatureInput hello) ->
     exists nameR clientBytes t nonce secret shared,
       serverSignatureInput hello = serverSignatureInput (makeServerHello you nameR clientBytes t nonce (x25519_public secret)) /\
       sha256 clientBytes = sha256 (json_bytes (client_hello me name x)) /\
       remoteDisplayName s = Some (JStr nameR) /\
       sharedSecret (ephemeralSeed x) (x25519_public secret) = Ok shared /\
       let k := deriveSessionCiphers shared (s_transcript s) true maximum in
       s_send s = k.1 <| nextSequence := 1 |> /\ s_receive s = k.2 <| nextSequence := 1 |>).
Proof.
  intros Hne (S & more & s0 & Hin & Hc & He & ->)%initiator_done.
  apply check_server_ok in Hc as (f & pk & sig & Hf & Hpk & Hh & Hv & Hid); [|done].
  destruct (establish_inv _ _ _ _ _ _ Hf He) as (pk' & eph & shared & Hpk' & Hep & Hsh & ->). rewrite Hpk in Hpk'. injection Hpk' as <-.
  split; [exact Hid|]. exists S, more, f, pk, sig. do 5 (split; [done|]). intros Hm.
  destruct (honest_server you _ f Hm eq_refl) as (nameR & C' & t & nonce & secret & Hl & Hw & Hi).
  set (g := makeServerHello you nameR C' t nonce (x25519_public secret)) in *.
  assert (Hg : well_formed (JObj g)).
  { apply (server_hello_ok you nameR C' (mk_secrets secret nonce t None)). }
  assert (Hall : forall k, k ∈ SERVER_FIELDS -> get f k = get g k)
    by (apply server_input_inj; [by eapply parsed_well_formed|done|done]).
  rewrite (Hall "clientHelloHash") in Hh by (apply (bool_decide_unpack _); vm_compute; exact I).
  rewrite (Hall "ephemeralKey") in Hep by (apply (bool_decide_unpack _); vm_compute; exact I).
  destruct (x25519_public_size secret Hl Hw) as [Hel Hew].
  change (get g "ephemeralKey") with (Some (JStr (bytesToB64 (x25519_public secret)))) in Hep.
  rewrite decode_encoded_field in Hep by done. injection Hep as <-.
  change (get g "clientHelloHash") with (Some (JStr (bytesToHex (sha256 C')))) in Hh. injection Hh as Hh%hash_text_inj.
  exists nameR, C', t, nonce, secret, shared. split; [done|]. split; [done|]. split; [|done].
  apply (Hall "displayName"). apply (bool_decide_unpack _); vm_compute; exact I.
Qed.

End facts.

(** ** A concrete instance

    A transparent signature: a checksum of the message and of the key. *)

#[export] Instance toy_ed25519 : Ed25519 := {|
  ed25519_public := fun secret => secret;
  ed25519_sign := fun m secret => checksum m ++ checksum secret ++ checksum m ++ checksum secret;
  ed25519_verify := fun sig m pk => Some (bool_decide (sig = checksum m ++ checksum pk ++ checksum m ++ checksum pk))
|}.

Lemma checksum_ok b : length (checksum b) = 16%nat /\ wf_bytes (checksum b).
Proof.
  unfold checksum. split; [apply length_replicate|]. apply Forall_replicate. unfold is_byte.
  apply Z.mod_pos_bound. lia.
Qed.

#[export] Instance toy_key_laws : KeyLaws (H := toy_crypto) (H0 := toy_ed25519).
Proof.
  split.
  - intros b. destruct (checksum_ok b) as [_ Hw]. split; [done|]. by apply (Forall_app_2 is_byte (checksum b)).
  - done.
  - done.
  - intros m sk. destruct (checksum_ok m) as [_ Hw], (checksum_ok sk) as [_ Hw']. split; [done|].
    by repeat apply Forall_app_2.
  - intros m sk. change (Some (bool_decide (ed25519_sign m sk = ed25519_sign m sk)) = Some true).
    by rewrite bool_decide_eq_true_2.
Qed.

Definition toy_identity (n : Z) : identity :=
  let s := replicate 32 n in mk_identity s s (peerIdForPublicKey s) (bytesToB64 s) (bytesToB64 s).

Definition toy_secrets (n t : Z) : secrets :=
  mk_secrets (replicate 32 n) (bytesToHex (replicate 32 n)) t (Some 1700000000000).

Lemma toy_real n : 0 <= n < 256 -> real_identity (toy_identity n).
Proof. intros Hn. split; [by apply Forall_replicate|reflexivity]. Qed.

Lemma toy_fresh n t : 0 <= n < 256 -> (String.length (pretty t) <= 100)%nat -> fresh (toy_secrets n t).
Proof.
  intros Hn Ht. split; [|exists (replicate 32 n)|done]; repeat split; by apply Forall_replicate.
Qed.

Definition toy_run (bytes_in : bytes) : list bytes * outcome session * bytes :=
  perform (initiatorHandshake (toy_identity 1) "Ann" (Some (peerId (toy_identity 2))) 4096 (toy_secrets 3 1700000000007)) bytes_in.

Definition toy_answer (bytes_in : bytes) : list bytes * outcome session * bytes :=
  perform (responderHandshake (toy_identity 2) "Bob" 4096 (toy_secrets 4 1699999999999)) bytes_in.

Lemma handshake_completes_witness :
  exists m1 f1 m2 f2 sI sR,
    toy_run [] = ([m1], Waiting, []) /\ toy_answer (m1 ++ f1) = ([m2; f2], Done sR, []) /\
    toy_run (m2 ++ f2) = ([m1; f1], Done sI, []) /\ s_send sI = s_receive sR /\ s_send sR = s_receive sI.
Proof.
  assert (H1 : fresh (toy_secrets 3 1700000000007)) by (apply toy_fresh; [lia|by apply Nat.leb_le; vm_compute]).
  assert (H2 : fresh (toy_secrets 4 1699999999999)) by (apply toy_fresh; [lia|by apply Nat.leb_le; vm_compute]).
  assert (H3 : in_time (toy_secrets 3 1700000000007) (toy_secrets 4 1699999999999)) by (by apply Z.leb_le; vm_compute).
  assert (H4 : in_time (toy_secrets 4 1699999999999) (toy_secrets 3 1700000000007)) by (by apply Z.leb_le; vm_compute).
  destruct (handshake_completes (HL := toy_laws) (HK := toy_key_laws) (toy_identity 1) (toy_identity 2) "Ann" "Bob"
    (Some (peerId (toy_identity 2))) 4096 (toy_secrets 3 1700000000007) (toy_secrets 4 1699999999999) (replicate 32 7)
    (toy_real 1 ltac:(lia)) (toy_real 2 ltac:(lia)) eq_refl eq_refl H1 H2 H3 H4 (or_intror eq_refl) ltac:(lia) eq_refl)
    as (m1 & f1 & m2 & f2 & sI & sR & R1 & _ & _ & R2 & R3 & _ & _ & _ & R4 & R5 & _).
  exists m1, f1, m2, f2, sI, sR. repeat split; assumption.
Defined.

(** The bytes that the responder sends in that run. *)
Definition toy_first : bytes := concat (toy_run []).1.1.
Definition toy_server : bytes := concat (toy_answer toy_first).1.1.
Definition toy_finished : bytes := concat (drop 1 (toy_run toy_server).1.1).
Definition toy_input : bytes := concat (toy_answer (toy_first ++ toy_finished)).1.1.

Definition toy_hello : fields :=
  makeServerHello (toy_identity 2) "Bob" (json_bytes (client_hello (toy_identity 1) "Ann" (toy_secrets 3 1700000000007)))
    1699999999999 (bytesToHex (replicate 32 4)) (x25519_public (replicate 32 4)).

Definition done_session (r : list bytes * outcome session * bytes) : option session :=
  match r with (_, Done s, _) => Some s | _ => None end.

Lemma toy_done : exists w s rest, toy_run toy_input = (w, Done s, rest).
Proof. do 3 eexists. vm_compute. reflexivity. Qed.

Lemma toy_honest : honest_message (toy_identity 2) (serverSignatureInput toy_hello).
Proof. apply signed_server; [done|]. apply Forall_replicate. unfold is_byte. lia. Qed.

Lemma toy_first_frame : exists S more, nextFrame toy_input MAX_HANDSHAKE_BYTES = Ok (Some S, more) /\
  parseHello S "server hello" = Ok (JObj toy_hello).
Proof.
  exists (json_bytes toy_hello), (drop (4 + length (json_bytes toy_hello)) toy_input). split; vm_compute; reflexivity.
Qed.

Lemma initiator_authenticates_witness :
  exists s secret shared nameR, done_session (toy_run toy_input) = Some s /\ remotePeerId s = peerId (toy_identity 2) /\
    remoteDisplayName s = Some (JStr nameR) /\
    sharedSecret (replicate 32 3) (x25519_public secret) = Ok shared /\
    s_send s = (deriveSessionCiphers shared (s_transcript s) true 4096).1 <| nextSequence := 1 |>.
Proof.
  destruct toy_done as (w & s & rest & E), toy_first_frame as (S' & more' & Hf' & Hp').
  destruct (initiator_authenticates (HL := toy_laws) (HK := toy_key_laws) (toy_identity 2) (toy_identity 1) "Ann"
    (peerId (toy_identity 2)) 4096 (toy_secrets 3 1700000000007) toy_input w s rest ltac:(discriminate) E)
    as (Hid & S & more & hello & pk & sig & _ & Hf & Hp & _ & _ & Honest).
  rewrite Hf in Hf'. injection Hf' as <- <-. rewrite Hp in Hp'. injection Hp' as ->.
  destruct (Honest toy_honest) as (nameR & C & t & nonce & secret & shared & _ & _ & Hn & Hsh & Hk & _).
  exists s, secret, shared, nameR. rewrite E. repeat (split; [first [exact Hid|exact Hn|exact Hsh|reflexivity]|]). exact Hk.
Defined.
