(* ===== verification/PeerSession.v ===== *)
(** * An open session ([src/bridge/webBridge/peerProtocol/session.js])

    [PeerSession] sends and receives the frames of [Wire] as encrypted records over the
    stream transport.  The class is asynchronous: what happens to a session is an [event]
    (a call of one of its methods, a timer, a chunk from the tunnel, the continuation of the
    read loop after the read it waits for has settled), and [peer_step] is the code that
    runs until the next wait.  Random bytes and the clock are arguments of the events.  What
    a session does to the outside is its log.  A [sendPayload] is logged as settled when its
    write begins; a write that the tunnel refuses later is left out, but for pings. *)

From stdpp Require Import pretty.
From S2P Require Import Prelude Bytes Json JsonText Frames Records Identity Wire Handshake.

(** What the session does: a write with the frame it encodes, [onMessage] with the frame,
    [onClose], and how the promise of a [sendPayload] settles. *)
Inductive action :=
| Wrote (frame : fields) (b : bytes)
| Delivered (frame : fields)
| OnClose (reason : json)
| SendSettled (r : res bool).

(** The read loop: it waits for the read number [id], its read has settled, or it has returned. *)
Inductive reader_state :=
| Awaiting (id : nat)
| Settled (r : res bytes)
| Returned.

Record peer := mk_peer {
  p_transport : transport;
  p_send : cipher;
  p_receive : cipher;
  maxFrameBytes : Z;
  p_closed : bool;
  idleTimer : bool;
  heartbeatTimer : bool;
  reader : reader_state;
  next_read : nat;
  closing : option json;
  p_log : list action
}.

#[export] Instance peer_rebuild : Rebuild peer := fun p =>
  mk_peer (p_transport p) (p_send p) (p_receive p) (maxFrameBytes p) (p_closed p) (idleTimer p) (heartbeatTimer p)
    (reader p) (next_read p) (closing p) (p_log p).

Definition log (a : action) (p : peer) : peer := p <| p_log := p_log p ++ [a] |>.

(** ** The transport *)

(** The settlement of the read the loop waits for. *)
Definition settled_read (id : nat) (out : list settlement) : option (res bytes) :=
  option_map snd (list_find (fun s : settlement => s.1 = id) out ≫= fun f => Some f.2).

Definition notice (out : list settlement) (p : peer) : peer :=
  match reader p with
  | Awaiting id => match settled_read id out with Some r => p <| reader := Settled r |> | None => p end
  | _ => p
  end.

Definition with_transport (r : transport * list settlement) (p : peer) : peer :=
  notice r.2 (p <| p_transport := r.1 |>).

(** [await this.transport.readPrefixed(this.session.receive.maximumRecordBytes())]. *)
Definition start_read (p : peer) : peer :=
  let id := next_read p in
  with_transport (readPrefixed (p_transport p) id (maximumRecordBytes (p_receive p)))
    (p <| reader := Awaiting id |> <| next_read := S id |>).

(** ** Methods *)

Section session.
Context `{Crypto}.

Definition armIdle (p : peer) : peer := p <| idleTimer := true |>.

(** The frame as a record on the wire; the cipher has advanced also when the last step throws. *)
Definition seal (frame : fields) (p : peer) : res bytes * peer :=
  match encodeWireFrame frame (maxFrameBytes p) with
  | Err e => (Err e, p)
  | Ok encoded =>
      match encrypt (p_send p) encoded with
      | Err e => (Err e, p)
      | Ok (c, record) => (encodePrefixed record (maxPlaintextBytes c + 8 + 16), p <| p_send := c |>)
      end
  end.

(** [sendFrame] up to the end of its write. *)
Definition sendFrame (frame : fields) (p : peer) : res bool * peer :=
  if p_closed p then (Ok false, p)
  else
    match seal frame p with
    | (Ok b, p1) => (Ok true, log (Wrote frame b) p1)
    | (Err e, p1) => (Err e, p1)
    end.

Definition sendPayload (random12 : bytes) (now : Z) (payload : option json) (p : peer) : peer :=
  if p_closed p then log (SendSettled (Ok false)) p
  else
    let '(r, p1) := sendFrame (message_frame (bytesToHex random12) now payload) p in log (SendSettled r) p1.

(** The end of [close]. *)
Definition close_end (reason : json) (p : peer) : peer :=
  log (OnClose reason) (with_transport (transport_close (p_transport p)) (p <| closing := None |>)).

(** The object of a close frame with any reason. *)
Definition close_object (reason : json) : fields := object [("type", Some (JStr "close")); ("reason", Some reason)].

(** [close(reason, { notifyRemote })] up to its write; [CloseWritten] is the rest. *)
Definition close (reason : json) (notifyRemote : bool) (p : peer) : peer :=
  if p_closed p then p
  else
    let p := p <| p_closed := true |> <| idleTimer := false |> <| heartbeatTimer := false |> in
    if notifyRemote then
      match seal (close_object reason) p with
      | (Ok b, p1) => log (Wrote (close_object reason) b) (p1 <| closing := Some reason |>)
      | (Err _, p1) => close_end reason p1
      end
    else close_end reason p.

Definition sendPing (random8 : bytes) (p : peer) : peer :=
  match sendFrame (ping_frame (randomHex random8)) p with
  | (Err _, p1) => close (JStr "heartbeat write failed") true p1
  | (_, p1) => p1
  end.

(** [frame.reason || 'closed by peer']. *)
Definition reason_of (frame : fields) : json :=
  let reason := get frame "reason" in
  if truthy reason then default JNull reason else JStr "closed by peer".

Definition type_of (frame : fields) : option string :=
  match get frame "type" with Some (JStr s) => Some s | _ => None end.

(** The head of the loop. *)
Definition loop_head (p : peer) : peer := if p_closed p then p <| reader := Returned |> else start_read p.

Definition dispatch (frame : fields) (p : peer) : peer :=
  if bool_decide (type_of frame = Some "message") then loop_head (log (Delivered frame) p)
  else if bool_decide (type_of frame = Some "ping") then loop_head (snd (sendFrame (pong_frame (get frame "nonce")) p))
  else if bool_decide (type_of frame = Some "pong") then loop_head p
  else if bool_decide (type_of frame = Some "close") then
    close (reason_of frame) false (p <| reader := Returned |>)
  else loop_head p.

(** [error?.message || 'connection closed']. *)
Definition error_reason (e : string) : json := JStr (default "connection closed" (truthy_str (Some e))).

Definition loop_catch (e : string) (p : peer) : peer := close (error_reason e) false (p <| reader := Returned |>).

(** The loop after its read has settled, up to its next read. *)
Definition reader_turn (p : peer) : peer :=
  match reader p with
  | Settled (Err e) => loop_catch e p
  | Settled (Ok record) =>
      let p := armIdle p in
      match decrypt (p_receive p) record with
      | Err e => loop_catch e p
      | Ok (c, plaintext) =>
          let p := p <| p_receive := c |> in
          match decodeWireFrame plaintext (maxFrameBytes p) with
          | Err e => loop_catch e p
          | Ok frame => dispatch frame p
          end
      end
  | _ => p
  end.

(** The constructor: the loop runs up to its first read. *)
Definition new_peer (t : transport) (s : session) (maxFrameBytes : Z) : peer :=
  let p := mk_peer t (s_send s) (s_receive s) maxFrameBytes false false false Returned 0 None [] in
  (armIdle (start_read p)) <| heartbeatTimer := true |>.

(** [transport.push] has left in the buffer what the handshake did not read. *)
Definition finishOpen (handshake : script session) (input : bytes) (maxFrameBytes : Z) : list bytes * outcome peer :=
  match perform handshake input with
  | (w, Done s, rest) => (w, Done (new_peer (createStreamTransport <| buffer := rest |>) s maxFrameBytes))
  | (w, Failed e, _) => (w, Failed e)
  | (w, Waiting, _) => (w, Waiting)
  end.

Definition openInitiatorSession `{Ed25519} (me : identity) (displayName : string) (expectedPeerId : option string)
    (maxFrameBytes : Z) (x : secrets) (input : bytes) : list bytes * outcome peer :=
  finishOpen (initiatorHandshake me displayName expectedPeerId maxFrameBytes x) input maxFrameBytes.

Definition openResponderSession `{Ed25519} (me : identity) (displayName : string) (maxFrameBytes : Z) (x : secrets)
    (input : bytes) : list bytes * outcome peer :=
  finishOpen (responderHandshake me displayName maxFrameBytes x) input maxFrameBytes.

(** [Date.now()] is an argument. *)
Definition peerInfoFromSession (s : session) (remoteAddress direction : string) (now : Z) : fields :=
  object
    [("id", Some (JStr (remotePeerId s))); ("name", remoteDisplayName s); ("address", Some (JStr remoteAddress));
     ("port", Some (JNum 0)); ("ports", Some (JArr [])); ("connectedAt", Some (JNum now));
     ("direction", Some (JStr direction)); ("encrypted", Some (JBool true)); ("supportsHeartbeat", Some (JBool true));
     ("transport", Some (JStr (if starts_with "relay://" remoteAddress then "relay" else "direct")))].

(** ** Events *)

(** [PingRefused]: the write of a ping was refused by the tunnel. *)
Inductive event :=
| SendPayload (random12 : bytes) (now : Z) (payload : option json)
| HeartbeatDue (random8 : bytes)
| PingRefused
| IdleTimeout
| Arrived (chunk : bytes)
| TransportFails (error : string)
| TransportCloses
| ReaderTurn
| CloseCalled (reason : string)
| CloseWritten.

Definition peer_step (p : peer) (e : event) : peer :=
  match e with
  | SendPayload random now payload => sendPayload random now payload p
  | HeartbeatDue random => if heartbeatTimer p then sendPing random p else p
  | PingRefused => close (JStr "heartbeat write failed") true p
  | IdleTimeout => if idleTimer p then close (JStr "idle timeout") true (p <| idleTimer := false |>) else p
  | Arrived chunk => with_transport (transport_push (p_transport p) chunk) p
  | TransportFails error => with_transport (transport_fail (p_transport p) error) p
  | TransportCloses => with_transport (transport_close (p_transport p)) p
  | ReaderTurn => reader_turn p
  | CloseCalled reason => close (JStr reason) true p
  | CloseWritten => match closing p with Some reason => close_end reason p | None => p end
  end.

Definition peer_run (p : peer) (es : list event) : peer := fold_left peer_step es p.

End session.

(** What a log shows. *)
Definition written (l : list action) : bytes := concat (omap (M := list) (fun a => match a with Wrote _ b => Some b | _ => None end) l).
Definition frames_written (l : list action) : list fields := omap (M := list) (fun a => match a with Wrote f _ => Some f | _ => None end) l.
Definition delivered (l : list action) : list fields := omap (M := list) (fun a => match a with Delivered f => Some f | _ => None end) l.
Definition closes (l : list action) : list json := omap (M := list) (fun a => match a with OnClose r => Some r | _ => None end) l.
Definition is_message (f : fields) : bool := bool_decide (type_of f = Some "message").

(** The bytes that arrive in a list of events. *)
Definition arrived (es : list event) : bytes := concat (omap (M := list) (fun e => match e with Arrived c => Some c | _ => None end) es).
