(* ===== verification/PeerSessionFacts.v ===== *)
(** * What an open session guarantees

    The frames one side writes reach the other side whole, in order and once, whatever the
    tunnel does to the boundaries of its chunks and whatever else happens to both sides
    ([messages_in_order]); a closed session is silent ([closed_session_is_silent]). *)

From stdpp Require Import pretty.
From S2P Require Import Prelude Bytes Json JsonText Frames Records Identity Wire Handshake HandshakeFacts PeerSession.

(** ** Logs *)

Lemma delivered_app l l' : delivered (l ++ l') = delivered l ++ delivered l'.
Proof. unfold delivered. apply omap_app. Qed.

Lemma frames_written_app l l' : frames_written (l ++ l') = frames_written l ++ frames_written l'.
Proof. unfold frames_written. apply omap_app. Qed.

Lemma written_app l l' : written (l ++ l') = written l ++ written l'.
Proof. unfold written. by rewrite omap_app, concat_app. Qed.

Lemma arrived_app l l' : arrived (l ++ l') = arrived l ++ arrived l'.
Proof. unfold arrived. by rewrite omap_app, concat_app. Qed.

Lemma log_log a p : p_log (log a p) = p_log p ++ [a].
Proof. done. Qed.

(** ** What a session writes *)

(** The events whose arguments keep within the limits of the reader: random ids as the
    class makes them, payloads that are JSON values, reasons of at most 512 characters. *)
Definition event_ok (e : event) : Prop :=
  match e with
  | SendPayload random _ payload => length random = 12%nat /\ optional_well_formed payload
  | HeartbeatDue random => length random = 8%nat
  | CloseCalled reason => (String.length reason <= 512)%nat
  | _ => True
  end.

(** What the reader accepts of a ping can be sent back. *)
Lemma decoded_nonce b maximum f : decodeWireFrame b maximum = Ok f -> type_of f = Some "ping" ->
  sendable (pong_frame (get f "nonce")).
Proof.
  unfold decodeWireFrame. destruct (Z.ltb _ _); [done|].
  destruct (utf8Decode b ≫= parse) as [v|] eqn:Ep; [|done].
  assert (Hw : well_formed v).
  { destruct (utf8Decode b) as [t|]; [|done]. by eapply parse_well_formed. }
  destruct (prop (Some v) "type") as [[| | |ty| |]|]; try done.
  destruct (bool_decide (ty = "message")); [intros (? & _ & ?)%res_bind_ok; by simplify_eq|].
  destruct (bool_decide (ty = "ping") || bool_decide (ty = "pong")).
  - intros ([] & Hc & H)%res_bind_ok _. assert (f = object [("type", Some (JStr ty)); ("nonce", prop (Some v) "nonce")]) as -> by congruence.
    assert (Hg : get (object [("type", Some (JStr ty)); ("nonce", prop (Some v) "nonce")]) "nonce" = prop (Some v) "nonce")
      by (by destruct (prop (Some v) "nonce")).
    rewrite Hg. constructor; [done|]. destruct v as [| | | | |g]; try done. cbn [prop] in *.
    destruct (get g "nonce") as [n|] eqn:En; [|done]. destruct Hw as [Hu Hw]. apply well_formed_fields in Hw.
    apply get_Some_elem in En; [|done]. rewrite Forall_forall in Hw. by apply (Hw _ En).
  - destruct (bool_decide (ty = "close")); [|done]. intros (? & _ & ?)%res_bind_ok; by simplify_eq.
Qed.

Lemma message_sendable random now payload : length random = 12%nat -> optional_well_formed payload ->
  sendable (message_frame (bytesToHex random) now payload).
Proof. intros Hr Hp. constructor; [rewrite bytesToHex_length, Hr; cbn; lia|done]. Qed.

Lemma ping_sendable random : length random = 8%nat -> sendable (ping_frame (randomHex random)).
Proof. intros Hr. constructor. unfold randomHex. rewrite bytesToHex_length, Hr. cbn. lia. Qed.

Section sender.
Context `{HC : Crypto} `{HL : !CryptoLaws} (s0 : cipher) (maximum : Z).
Hypothesis (Hs0 : maxPlaintextBytes s0 = maximum) (Hn0 : 0 <= nextSequence s0 <= 2 ^ 64 - 1) (Hmax : maximum + 24 <= 4294967295).

(** The records of a list of plaintexts. *)
Definition records (plain : list bytes) : list bytes :=
  zip_with (record_at s0) (seqZ (nextSequence s0) (Z.of_nat (length plain))) plain.

Lemma records_snoc plain b :
  records (plain ++ [b]) = records plain ++ [record_at s0 (nextSequence s0 + Z.of_nat (length plain)) b].
Proof.
  unfold records. rewrite length_app. cbn [length].
  replace (Z.of_nat (length plain + 1)) with (Z.of_nat (length plain) + 1) by lia. rewrite seqZ_app by lia.
  rewrite zip_with_app by (rewrite length_seqZ; lia). done.
Qed.

Definition sent_as (f : fields) (b : bytes) : Prop := encodeWireFrame f maximum = Ok b /\ sendable f.

(** What has been written are the records of the frames, one after the other. *)
Definition sender_ok (p : peer) : Prop :=
  maxFrameBytes p = maximum /\
  exists plain, Forall2 sent_as (frames_written (p_log p)) plain /\ written (p_log p) = stream (records plain) /\
    p_send p = s0 <| nextSequence := nextSequence s0 + Z.of_nat (length plain) |> /\
    nextSequence s0 + Z.of_nat (length plain) <= 2 ^ 64 - 1.

(** What the sender's side of a session is: its cipher, its limit and what it has written. *)
Definition same_sender (p q : peer) : Prop :=
  p_send q = p_send p /\ maxFrameBytes q = maxFrameBytes p /\ written (p_log q) = written (p_log p)
  /\ frames_written (p_log q) = frames_written (p_log p).

Lemma same_sender_ok p q : same_sender p q -> sender_ok p -> sender_ok q.
Proof. unfold sender_ok. by intros (-> & -> & -> & ->). Qed.

Lemma same_sender_refl p : same_sender p p.
Proof. done. Qed.

Lemma same_sender_trans p q r : same_sender p q -> same_sender q r -> same_sender p r.
Proof. intros (A1 & A2 & A3 & A4) (B1 & B2 & B3 & B4). repeat split; congruence. Qed.

Lemma quiet_log a p : match a with Wrote _ _ => False | _ => True end -> same_sender p (log a p).
Proof.
  intros Ha. unfold same_sender. rewrite log_log, written_app, frames_written_app.
  split; [done|]. split; [done|]. destruct a; [done|..]; split; apply app_nil_r.
Qed.

Lemma quiet_transport r p : same_sender p (with_transport r p).
Proof. unfold with_transport, notice. cbn. destruct (reader p); [|done..]. by destruct (settled_read _ _). Qed.

Lemma quiet_read p : same_sender p (start_read p).
Proof. unfold start_read. eapply same_sender_trans; [|apply quiet_transport]. done. Qed.

Lemma quiet_head p : same_sender p (loop_head p).
Proof. unfold loop_head. destruct (p_closed p); [done|apply quiet_read]. Qed.

Lemma quiet_close_end reason p : same_sender p (close_end reason p).
Proof.
  unfold close_end. eapply same_sender_trans; [|by apply quiet_log].
  eapply same_sender_trans; [|apply quiet_transport]. done.
Qed.

(** A sealed frame is the next record. *)
Lemma seal_ok frame p b p1 : sender_ok p -> seal frame p = (Ok b, p1) -> sendable frame -> sender_ok (log (Wrote frame b) p1).
Proof.
  intros (Hm & plain & Hf & Hw & Hs & Hb) E Hok. unfold seal in E.
  destruct (encodeWireFrame frame (maxFrameBytes p)) as [enc|e] eqn:Ee; [|done].
  destruct (encrypt (p_send p) enc) as [[c record]|e] eqn:Er; [|done]. injection E as Eb Ep.
  assert (L1 : p_log p1 = p_log p) by (by rewrite <- Ep). assert (L2 : p_send p1 = c) by (by rewrite <- Ep).
  assert (L3 : maxFrameBytes p1 = maxFrameBytes p) by (by rewrite <- Ep). clear Ep.
  rewrite Hs in Er. apply encrypt_ok in Er as (Hl & Hne & -> & ->).
  split; [by rewrite <- Hm, <- L3|]. exists (plain ++ [enc]). rewrite log_log, L1.
  rewrite frames_written_app, written_app, Hw, records_snoc, stream_app, length_app. cbn [length].
  change (p_send (log (Wrote frame b) p1)) with (p_send p1). rewrite L2.
  split; [|split; [|split]].
  - apply Forall2_app; [done|]. constructor; [|done]. split; [by rewrite <- Hm|done].
  - f_equal. unfold encodePrefixed in Eb. destruct (_ || _); [done|]. injection Eb as <-.
    unfold written, stream. cbn [omap list_omap concat map]. by rewrite !app_nil_r.
  - cbn. f_equal. lia.
  - cbn in Hne. lia.
Qed.

Lemma seal_error frame p e p1 : sender_ok p -> seal frame p = (Err e, p1) -> p1 = p.
Proof.
  intros (Hm & plain & Hf & Hw & Hs & Hb) E. unfold seal in E.
  destruct (encodeWireFrame frame (maxFrameBytes p)) as [enc|?] eqn:Ee; [|by injection E].
  destruct (encrypt (p_send p) enc) as [[c record]|?] eqn:Er; [|by injection E]. exfalso.
  apply encrypt_ok in Er as (Hl & _ & -> & ->). injection E as E _. rewrite Hs in E, Hl. cbn in E, Hl.
  rewrite encodePrefixed_ok in E; [done|..]; unfold record_at; rewrite ?length_app, ?u64Be_length, ?aead_tag; cbn; lia.
Qed.

Lemma sendFrame_ok f p : sender_ok p -> sendable f -> sender_ok (snd (sendFrame f p)).
Proof.
  intros Hp Hf. unfold sendFrame. destruct (p_closed p); [done|].
  destruct (seal f p) as [[b|e] p1] eqn:E; [by eapply seal_ok|]. by apply seal_error in E as ->.
Qed.

Lemma close_ok reason (notify : bool) p : sender_ok p -> (notify = true -> sendable (close_object reason)) ->
  sender_ok (close reason notify p).
Proof.
  intros Hp Hr. unfold close. destruct (p_closed p); [done|]. cbv zeta.
  set (q := p <| p_closed := true |> <| idleTimer := false |> <| heartbeatTimer := false |>).
  assert (Hq : sender_ok q) by (by apply (same_sender_ok p)). clearbody q. destruct notify.
  - destruct (seal (close_object reason) q) as [[b|e] p1] eqn:E.
    + eapply same_sender_ok; [|eapply (seal_ok _ _ _ _ Hq E); by apply Hr]. done.
    + apply seal_error in E as ->; [|done]. eapply same_sender_ok; [apply quiet_close_end|done].
  - eapply same_sender_ok; [apply quiet_close_end|done].
Qed.

Lemma short_reason_sendable reason : (String.length reason <= 512)%nat -> sendable (close_object (JStr reason)).
Proof. exact (sendable_close reason). Qed.

Lemma sendPayload_ok random now payload p : sender_ok p -> length random = 12%nat -> optional_well_formed payload ->
  sender_ok (sendPayload random now payload p).
Proof.
  intros Hp Hr Hw. unfold sendPayload. destruct (p_closed p); [by eapply same_sender_ok; [apply quiet_log|]|].
  pose proof (sendFrame_ok _ p Hp (message_sendable random now payload Hr Hw)) as H.
  destruct (sendFrame _ p) as [r p1]. by eapply same_sender_ok; [apply quiet_log|].
Qed.

Lemma sendPing_ok random p : sender_ok p -> length random = 8%nat -> sender_ok (sendPing random p).
Proof.
  intros Hp Hr. unfold sendPing. pose proof (sendFrame_ok _ p Hp (ping_sendable random Hr)) as H.
  destruct (sendFrame _ p) as [[b|e] p1]; [done|]. apply close_ok; [done|]. intros _. apply short_reason_sendable. cbn. lia.
Qed.

Lemma dispatch_ok f p : sender_ok p -> (type_of f = Some "ping" -> sendable (pong_frame (get f "nonce"))) -> sender_ok (dispatch f p).
Proof.
  intros Hp Hpong. unfold dispatch. case_bool_decide.
  { eapply same_sender_ok; [apply quiet_head|]. by eapply same_sender_ok; [apply quiet_log|]. }
  case_bool_decide; [eapply same_sender_ok; [apply quiet_head|]; apply sendFrame_ok; auto|].
  case_bool_decide; [by eapply same_sender_ok; [apply quiet_head|]|].
  case_bool_decide; [|by eapply same_sender_ok; [apply quiet_head|]]. by apply close_ok.
Qed.

Lemma reader_turn_ok p : sender_ok p -> sender_ok (reader_turn p).
Proof.
  intros Hp. unfold reader_turn. destruct (reader p) as [id|[record|e]|]; [done| |by apply close_ok|done].
  cbv zeta. destruct (decrypt (p_receive (armIdle p)) record) as [[c plaintext]|e]; [|by apply close_ok].
  destruct (decodeWireFrame _ _) as [f|e] eqn:E; [|by apply close_ok]. apply dispatch_ok; [done|]. by eapply decoded_nonce.
Qed.

Lemma step_sender_ok p e : sender_ok p -> event_ok e -> sender_ok (peer_step p e).
Proof.
  intros Hp He. destruct e as [random now payload|random| | |chunk|error| | |reason|]; cbn [peer_step event_ok] in *.
  - destruct He. by apply sendPayload_ok.
  - destruct (heartbeatTimer p); [by apply sendPing_ok|done].
  - apply close_ok; [done|]. intros _. apply short_reason_sendable. cbn. lia.
  - destruct (idleTimer p); [|done]. apply close_ok; [done|]. intros _. apply short_reason_sendable. cbn. lia.
  - by eapply same_sender_ok; [apply quiet_transport|].
  - by eapply same_sender_ok; [apply quiet_transport|].
  - by eapply same_sender_ok; [apply quiet_transport|].
  - by apply reader_turn_ok.
  - apply close_ok; [done|]. intros _. by apply short_reason_sendable.
  - destruct (closing p); [|done]. by eapply same_sender_ok; [apply quiet_close_end|].
Qed.

Lemma run_sender_ok es : forall p, sender_ok p -> Forall event_ok es -> sender_ok (peer_run p es).
Proof.
  induction es as [|e es IH]; intros p Hp Hes; [done|]. apply Forall_cons in Hes as [He Hes].
  apply IH; [by apply step_sender_ok|done].
Qed.
End sender.

(** ** What a session reads *)

Section receiver.
Context `{HC : Crypto} `{HL : !CryptoLaws} (s0 r0 : cipher) (maximum : Z) (fs : list fields) (plain : list bytes).
Hypothesis (Hch : same_channel s0 r0) (Hseq : nextSequence r0 = nextSequence s0) (Hs0 : maxPlaintextBytes s0 = maximum)
  (Hn0 : 0 <= nextSequence s0) (Hlast : nextSequence s0 + Z.of_nat (length plain) <= 2 ^ 64 - 1)
  (Hmax : maximum + 24 <= 4294967295) (Hplain : Forall2 (sent_as maximum) fs plain).

Let rs := records s0 plain.
Let limit := maximum + 8 + 16.

Lemma sent_length f b : sent_as maximum f b -> Z.of_nat (length b) <= maximum.
Proof. intros [(body & _ & -> & H)%encode_ok _]. done. Qed.

Lemma records_lookup j rec : rs !! j = Some rec ->
  exists f b, fs !! j = Some f /\ plain !! j = Some b /\ sent_as maximum f b /\ rec = record_at s0 (nextSequence s0 + Z.of_nat j) b.
Proof.
  unfold rs, records. intros (n & b & -> & Hn & Hb)%lookup_zip_with_Some. apply lookup_seqZ in Hn as [-> _].
  destruct (Forall2_lookup_r _ _ _ _ _ Hplain Hb) as (f & Hf & Hs). by exists f, b.
Qed.

Lemma records_length : length rs = length fs.
Proof. unfold rs, records. rewrite length_zip_with, length_seqZ. apply Forall2_length in Hplain. lia. Qed.

Lemma records_fit : Forall (fits limit) rs.
Proof.
  apply Forall_forall. intros rec [j Hj]%list_elem_of_lookup. apply records_lookup in Hj as (f & b & _ & _ & Hs & ->).
  apply sent_length in Hs. unfold fits, record_at, limit. rewrite length_app, u64Be_length, aead_tag. lia.
Qed.

Definition messages (l : list fields) : list fields := List.filter is_message l.

(** The session has handled [j] frames and taken [k] out of the buffer. *)
Definition waits_for (k j : nat) (p : peer) : Prop :=
  match reader p with
  | Awaiting id => k = j /\ pending (p_transport p) = [(id, limit)]
      /\ nextFrame (buffer (p_transport p)) limit = Ok (None, buffer (p_transport p))
  | Settled (Ok rec) => k = S j /\ pending (p_transport p) = [] /\ rs !! j = Some rec
  | _ => pending (p_transport p) = []
  end.

Definition handled (j : nat) (p : peer) : Prop :=
  maxFrameBytes p = maximum /\ (j <= length fs)%nat /\ delivered (p_log p) = messages (take j fs)
  /\ p_receive p = r0 <| nextSequence := nextSequence r0 + Z.of_nat j |>.

Definition receiver_ok (pushed : bytes) (p : peer) : Prop :=
  exists k j, handled j p /\ pushed = stream (take k rs) ++ buffer (p_transport p) /\ waits_for k j p.

(** What the receiver's side of a session is. *)
Definition same_receiver (p q : peer) : Prop :=
  p_transport q = p_transport p /\ p_receive q = p_receive p /\ maxFrameBytes q = maxFrameBytes p
  /\ reader q = reader p /\ delivered (p_log q) = delivered (p_log p).

Lemma same_receiver_ok pushed p q : same_receiver p q -> receiver_ok pushed p -> receiver_ok pushed q.
Proof. unfold receiver_ok, handled, waits_for. by intros (-> & -> & -> & -> & ->). Qed.

Lemma same_receiver_handled j p q : same_receiver p q -> handled j p -> handled j q.
Proof. unfold handled. by intros (_ & -> & -> & _ & ->). Qed.

Lemma same_receiver_trans p q r : same_receiver p q -> same_receiver q r -> same_receiver p r.
Proof. intros (A1 & A2 & A3 & A4 & A5) (B1 & B2 & B3 & B4 & B5). repeat split; congruence. Qed.

Lemma still_log a p : match a with Delivered _ => False | _ => True end -> same_receiver p (log a p).
Proof.
  intros Ha. unfold same_receiver. rewrite log_log, delivered_app. do 4 (split; [done|]).
  destruct a; [|done|..]; apply app_nil_r.
Qed.

Lemma still_seal f p : same_receiver p (seal f p).2.
Proof.
  unfold seal. destruct (encodeWireFrame _ _); [|done]. by destruct (encrypt _ _) as [[c r]|].
Qed.

Lemma still_sendFrame f p : same_receiver p (snd (sendFrame f p)).
Proof.
  unfold sendFrame. destruct (p_closed p); [done|]. pose proof (still_seal f p) as H.
  destruct (seal f p) as [[b|e] p1]; cbn [snd] in *; [|done]. eapply same_receiver_trans; [exact H|]. by apply still_log.
Qed.

Lemma settled_read_one id (r : res bytes) : settled_read id [(id, r)] = Some r.
Proof. unfold settled_read. cbn. by rewrite decide_True. Qed.

(** Closing and failing: the waiting read is rejected or goes on waiting. *)
Lemma settle_cases t : (settle t).1 = t /\ (settle t).2 = [] \/
  exists e, (settle t).1 = t <| pending := [] |> /\ (settle t).2 = reject_all (pending t) e.
Proof.
  unfold settle. destruct (failed t) as [e|]; [right; by exists e|].
  destruct (closed t && bool_decide (buffer t = [])); [right; by eexists|by left].
Qed.

Lemma settle_receiver pushed p t : receiver_ok pushed p -> buffer t = buffer (p_transport p) -> pending t = pending (p_transport p) ->
  receiver_ok pushed (with_transport (settle t) p).
Proof.
  intros (k & j & Hh & Hp & Hw) Hb Hpe. unfold with_transport.
  destruct (settle_cases t) as [[-> ->]|(e & -> & ->)].
  - exists k, j. unfold notice, waits_for in *. cbn [fst snd] in *. cbn.
    destruct (reader p) as [id|[rec|e]|] eqn:E; cbn; rewrite ?E, Hb, ?Hpe; done.
  - unfold notice, waits_for in *. cbn [fst snd]. rewrite Hpe. cbn.
    destruct (reader p) as [id|[rec|e']|] eqn:E.
    + destruct Hw as (-> & Hpd & _). rewrite Hpd. cbn [reject_all map fst]. rewrite settled_read_one.
      exists j, j. unfold waits_for. cbn. by rewrite Hb.
    + destruct Hw as (? & _ & ?). exists k, j. unfold waits_for. cbn. rewrite ?E, Hb. done.
    + exists k, j. unfold waits_for. cbn. by rewrite ?E, Hb.
    + exists k, j. unfold waits_for. cbn. by rewrite ?E, Hb.
Qed.

Lemma close_end_receiver pushed reason p : receiver_ok pushed p -> receiver_ok pushed (close_end reason p).
Proof.
  intros H. unfold close_end. eapply same_receiver_ok; [by apply still_log|].
  apply (settle_receiver pushed (p <| closing := None |>) (p_transport p <| Frames.closed := true |>)); [|done..].
  by eapply same_receiver_ok; [|exact H].
Qed.

Lemma close_receiver pushed reason notify p : receiver_ok pushed p -> receiver_ok pushed (close reason notify p).
Proof.
  intros Hp. unfold close. destruct (p_closed p); [done|]. cbv zeta.
  set (q := p <| p_closed := true |> <| idleTimer := false |> <| heartbeatTimer := false |>).
  assert (Hq : receiver_ok pushed q) by (by eapply same_receiver_ok; [|exact Hp]). clearbody q.
  destruct notify; [|by apply close_end_receiver]. pose proof (still_seal (close_object reason) q) as H.
  destruct (seal _ q) as [[b|e] p1]; cbn [snd] in H.
  - eapply same_receiver_ok; [|exact Hq]. eapply same_receiver_trans; [exact H|].
    eapply same_receiver_trans; [|by apply still_log]. done.
  - apply close_end_receiver. by eapply same_receiver_ok.
Qed.

(** Between two reads. *)
Definition between (pushed : bytes) (j : nat) (p : peer) : Prop :=
  handled j p /\ pushed = stream (take j rs) ++ buffer (p_transport p) /\ pending (p_transport p) = [].

Lemma drop_prefix (pushed : bytes) k (b : bytes) : pushed `prefix_of` stream rs -> pushed = stream (take k rs) ++ b ->
  b `prefix_of` stream (drop k rs).
Proof.
  intros Hp ->. rewrite <- (take_drop k rs) in Hp at 2. rewrite stream_app in Hp. by apply prefix_app_inv in Hp.
Qed.

Lemma take_more j (f : bytes) l : drop j rs = f :: l -> rs !! j = Some f /\ stream (take (S j) rs) = stream (take j rs) ++ u32Be (Z.of_nat (length f)) ++ f.
Proof.
  intros E. assert (Hj : rs !! j = Some f) by (rewrite <- (Nat.add_0_r j), <- lookup_drop; by rewrite E).
  split; [done|]. rewrite (take_S_r _ _ _ Hj), stream_app. f_equal. unfold stream. cbn. by rewrite !app_nil_r.
Qed.

(** What a transport can tell a loop that waits. *)
Definition tells (pushed : bytes) (j id : nat) (t : transport) (out : list settlement) : Prop :=
  (out = [] /\ pending t = [(id, limit)] /\ nextFrame (buffer t) limit = Ok (None, buffer t)
     /\ pushed = stream (take j rs) ++ buffer t) \/
  (exists f, out = [(id, Ok f)] /\ pending t = [] /\ rs !! j = Some f /\ pushed = stream (take (S j) rs) ++ buffer t) \/
  (exists e, out = [(id, Err e)] /\ pending t = [] /\ pushed = stream (take j rs) ++ buffer t).

Lemma told_receiver pushed j id q r : handled j q -> reader q = Awaiting id -> tells pushed j id r.1 r.2 ->
  receiver_ok pushed (with_transport r q).
Proof.
  intros Hh Hr Ht. destruct r as [t out]. unfold with_transport, notice. cbn [fst snd] in *.
  change (reader (q <| p_transport := t |>)) with (reader q). rewrite Hr.
  destruct Ht as [(-> & Hpd & Hnf & Hp)|[(f & -> & Hpd & Hl & Hp)|(e & -> & Hpd & Hp)]]; rewrite ?settled_read_one.
  - exists j, j. unfold waits_for. cbn. by rewrite Hr.
  - exists (S j), j. done.
  - exists j, j. done.
Qed.

(** Bytes that reach the head of a read. *)
Lemma served pushed j buf : pushed `prefix_of` stream rs -> pushed = stream (take j rs) ++ buf ->
  (nextFrame buf limit = Ok (None, buf)) \/
  exists f buf', nextFrame buf limit = Ok (Some f, buf') /\ rs !! j = Some f /\ pushed = stream (take (S j) rs) ++ buf'.
Proof.
  intros Hpre Hp. pose proof (drop_prefix _ _ _ Hpre Hp) as Hb.
  destruct (nextFrame_stream limit (drop j rs) buf (Forall_drop _ j _ records_fit) Hb) as [E|(f & l & b' & El & Eb & Hb' & E)];
    [by left|]. right. exists f, b'. destruct (take_more j f l El) as [Hl Es]. split; [done|]. split; [done|].
  by rewrite Es, Hp, Eb, <- !app_assoc.
Qed.

Lemma start_read_receiver pushed j p : pushed `prefix_of` stream rs -> between pushed j p -> receiver_ok pushed (start_read p).
Proof.
  intros Hpre (Hh & Hp & Hpd). unfold start_read.
  assert (Hlim : maximumRecordBytes (p_receive p) = limit).
  { destruct Hh as (_ & _ & _ & ->). unfold maximumRecordBytes, limit. cbn. destruct Hch as (_ & _ & _ & <-). by rewrite Hs0. }
  rewrite Hlim. apply (told_receiver pushed j (next_read p)); [done|done|]. unfold readPrefixed, tells.
  destruct (served pushed j (buffer (p_transport p)) Hpre Hp) as [E|(f & b' & E & Hl & Hp')]; rewrite E.
  - destruct (failed (p_transport p)) as [e|]; [right; right; by exists e|].
    destruct (closed (p_transport p)); [right; right; by eexists|]. left. cbn. by rewrite Hpd.
  - right. left. by exists f.
Qed.

Lemma loop_head_receiver pushed j p : pushed `prefix_of` stream rs -> between pushed j p -> receiver_ok pushed (loop_head p).
Proof.
  intros Hpre Hb. unfold loop_head. destruct (p_closed p); [|by eapply start_read_receiver].
  destruct Hb as (Hh & Hp & Hpd). exists j, j. done.
Qed.

Lemma arrived_receiver pushed chunk p : pushed ++ chunk `prefix_of` stream rs -> receiver_ok pushed p ->
  receiver_ok (pushed ++ chunk) (with_transport (transport_push (p_transport p) chunk) p).
Proof.
  intros Hpre (k & j & Hh & Hp & Hw). unfold transport_push, assembler_push.
  assert (Hp' : pushed ++ chunk = stream (take k rs) ++ (buffer (p_transport p) ++ chunk)) by (by rewrite Hp, app_assoc).
  unfold waits_for in Hw. destruct (reader p) as [id|r|] eqn:E.
  - destruct Hw as (-> & Hpd & _). rewrite Hpd. cbn [serve].
    destruct (served _ j _ Hpre Hp') as [En|(f & b' & En & Hl & Hp'')]; rewrite En; (apply (told_receiver _ j id); [done|done|]);
      unfold tells; cbn [fst snd]; [by left|right; left; by exists f].
  - assert (Hpd : pending (p_transport p) = []) by (destruct r; tauto). rewrite Hpd. cbn [serve].
    exists k, j. unfold with_transport, notice. cbn. rewrite E. unfold waits_for. cbn. rewrite ?E.
    split; [done|]. split; [done|]. destruct r; tauto.
  - rewrite Hw. cbn [serve]. exists k, j. unfold with_transport, notice. cbn. rewrite E. unfold waits_for. cbn. by rewrite ?E.
Qed.

Lemma messages_snoc j f : fs !! j = Some f -> messages (take (S j) fs) = messages (take j fs) ++ (if is_message f then [f] else []).
Proof. intros Hf. unfold messages. rewrite (take_S_r _ _ _ Hf), List.filter_app. cbn. by destruct (is_message f). Qed.

Lemma dispatch_receiver pushed j f p : pushed `prefix_of` stream rs -> fs !! j = Some f ->
  maxFrameBytes p = maximum -> delivered (p_log p) = messages (take j fs) ->
  p_receive p = r0 <| nextSequence := nextSequence r0 + Z.of_nat (S j) |> ->
  pushed = stream (take (S j) rs) ++ buffer (p_transport p) -> pending (p_transport p) = [] ->
  receiver_ok pushed (dispatch f p).
Proof.
  intros Hpre Hf Hm Hd Hr Hp Hpd. pose proof (lookup_lt_Some _ _ _ Hf) as Hlt.
  assert (Hother : is_message f = false -> between pushed (S j) p).
  { intros Hn. split; [|done]. split; [done|]. split; [lia|]. split; [|done]. by rewrite (messages_snoc _ _ Hf), Hn, app_nil_r. }
  unfold dispatch. case_bool_decide as Ht.
  { apply (loop_head_receiver pushed (S j)); [done|]. split; [|done]. split; [done|]. split; [lia|]. split; [|done].
    rewrite log_log, delivered_app, Hd, (messages_snoc _ _ Hf). unfold is_message. by rewrite bool_decide_eq_true_2. }
  assert (Hn : is_message f = false) by (unfold is_message; by rewrite bool_decide_eq_false_2). apply Hother in Hn as Hb.
  case_bool_decide.
  { apply (loop_head_receiver pushed (S j)); [done|]. destruct Hb as (Hh & Hb & Hbp).
    pose proof (still_sendFrame (pong_frame (get f "nonce")) p) as Hs. split; [by eapply same_receiver_handled|].
    destruct Hs as (-> & _). done. }
  case_bool_decide; [by apply (loop_head_receiver pushed (S j))|].
  case_bool_decide; [|by apply (loop_head_receiver pushed (S j))].
  apply close_receiver. exists (S j), (S j). destruct Hb as (Hh & _). done.
Qed.

Lemma turn_receiver pushed p : pushed `prefix_of` stream rs -> receiver_ok pushed p -> receiver_ok pushed (reader_turn p).
Proof.
  intros Hpre (k & j & Hh & Hp & Hw). unfold reader_turn. unfold waits_for in Hw.
  destruct (reader p) as [id|[rec|e]|] eqn:E; try (exists k, j; unfold waits_for; by rewrite E).
  - destruct Hw as (-> & Hpd & Hrec). destruct (records_lookup _ _ Hrec) as (f & b & Hf & Hb & Hsent & ->).
    destruct Hh as (Hm & Hj & Hd & Hr). cbv zeta. change (p_receive (armIdle p)) with (p_receive p). rewrite Hr.
    pose proof (sent_length _ _ Hsent) as Hl. pose proof (lookup_lt_Some _ _ _ Hb) as Hlt.
    rewrite (decrypt_record_at s0).
    2: { destruct Hch as (? & ? & ? & ?). done. }
    2: lia.
    2: { cbn. destruct Hch as (_ & _ & _ & <-). by rewrite Hs0. }
    cbn [nextSequence]. rewrite decide_True by (cbn; lia).
    change (maxFrameBytes (armIdle p <| p_receive := ?c |>)) with (maxFrameBytes p).
    match goal with |- context [decodeWireFrame b ?m] => change m with (maxFrameBytes p) end. rewrite Hm.
    destruct Hsent as [He Hs]. rewrite (wire_roundtrip _ _ _ Hs He).
    apply (dispatch_receiver pushed j); try done. cbn. f_equal. lia.
  - apply close_receiver. exists k, j. done.
Qed.

Lemma step_receiver pushed p e : pushed ++ arrived [e] `prefix_of` stream rs -> receiver_ok pushed p ->
  receiver_ok (pushed ++ arrived [e]) (peer_step p e).
Proof.
  intros Hpre Hp. destruct e as [random now payload|random| | |chunk|error| | |reason|];
    unfold arrived in *; cbn [omap list_omap concat] in *; rewrite ?app_nil_r in *; cbn [peer_step].
  - unfold sendPayload. destruct (p_closed p); [by eapply same_receiver_ok; [apply still_log|]|].
    pose proof (still_sendFrame (message_frame (bytesToHex random) now payload) p) as Hs.
    destruct (sendFrame _ p) as [r p1]. eapply same_receiver_ok; [|exact Hp].
    eapply same_receiver_trans; [exact Hs|by apply still_log].
  - destruct (heartbeatTimer p); [|done]. unfold sendPing. pose proof (still_sendFrame (ping_frame (randomHex random)) p) as Hs.
    destruct (sendFrame _ p) as [[b|e] p1]; cbn [snd] in Hs; [|apply close_receiver]; by eapply same_receiver_ok.
  - by apply close_receiver.
  - destruct (idleTimer p); [|done]. apply close_receiver. by eapply same_receiver_ok; [|exact Hp].
  - by apply arrived_receiver.
  - by apply (settle_receiver pushed p (p_transport p <| failed := Some error |>)).
  - by apply (settle_receiver pushed p (p_transport p <| Frames.closed := true |>)).
  - by apply turn_receiver.
  - by apply close_receiver.
  - destruct (closing p); [|done]. by apply close_end_receiver.
Qed.

Lemma run_receiver es : forall pushed p, pushed ++ arrived es `prefix_of` stream rs -> receiver_ok pushed p ->
  receiver_ok (pushed ++ arrived es) (peer_run p es).
Proof.
  induction es as [|e es IH]; intros pushed p Hpre Hp.
  { unfold arrived. cbn. by rewrite app_nil_r. }
  change (e :: es) with ([e] ++ es) in Hpre |- *. rewrite arrived_app, app_assoc in Hpre |- *.
  change (peer_run p ([e] ++ es)) with (peer_run (peer_step p e) es).
  apply IH; [done|]. apply step_receiver; [|done]. by eapply prefix_app_l.
Qed.

(** A receiver has delivered the first messages; when everything has arrived and its loop
    waits, all of them. *)
Lemma receiver_delivered pushed p : receiver_ok pushed p ->
  delivered (p_log p) `prefix_of` messages fs /\
  (pushed = stream rs -> (exists id, reader p = Awaiting id) -> delivered (p_log p) = messages fs).
Proof.
  intros (k & j & (Hm & Hj & Hd & Hr) & Hp & Hw). split.
  - rewrite Hd. exists (messages (drop j fs)). unfold messages. by rewrite <- List.filter_app, take_drop.
  - intros Hall [id Hid]. unfold waits_for in Hw. rewrite Hid in Hw. destruct Hw as (-> & _ & Hnf).
    destruct (decide (length rs <= j)%nat) as [Hl|Hl].
    + rewrite records_length in Hl. by rewrite Hd, take_ge.
    + exfalso. assert (Hb : buffer (p_transport p) = stream (drop j rs)).
      { rewrite Hall, <- (take_drop j rs) in Hp at 1. rewrite stream_app in Hp. by apply app_inv_head in Hp. }
      destruct (drop j rs) as [|f l] eqn:E; [apply (f_equal length) in E; rewrite length_drop in E; cbn in E; lia|].
      pose proof records_fit as Hfit. apply (Forall_drop _ j) in Hfit. rewrite E in Hfit. apply Forall_cons in Hfit as [[Hf1 Hf2] _].
      rewrite Hb, stream_cons in Hnf. unfold nextFrame in Hnf. by rewrite tryReadPrefixed_frame in Hnf.
Qed.

Lemma new_receiver t s : s_receive s = r0 -> pending t = [] -> buffer t `prefix_of` stream rs ->
  receiver_ok (buffer t) (new_peer t s maximum).
Proof.
  intros Hr Hpd Hpre. unfold new_peer.
  set (p := mk_peer t (s_send s) (s_receive s) maximum false false false Returned 0 None []).
  eapply same_receiver_ok; [|apply (start_read_receiver (buffer t) 0 p)]; [done|done|].
  split; [|done]. split; [done|]. split; [lia|]. split; [done|]. unfold p. cbn. rewrite Hr, Z.add_0_r. by destruct r0.
Qed.
End receiver.

(** ** Properties *)

Section session.
Context `{HC : Crypto} `{HL : !CryptoLaws}.

(** C5: what one side of a session sends is what the other side hands to the application, in
    order and once.  Both sides may do anything else meanwhile (send, ping, time out, close,
    read whatever comes to [A]), the tunnel may cut the bytes from [A] to [B] into any chunks
    and deliver any first part of them: [B] has delivered the first messages that [A] has
    written, and all of them as soon as all the bytes are there and the read loop waits for
    more. *)
Theorem messages_in_order sA sB tA tB evA evB maximum :
  same_channel (s_send sA) (s_receive sB) -> nextSequence (s_receive sB) = nextSequence (s_send sA) ->
  0 <= nextSequence (s_send sA) <= 2 ^ 64 - 1 -> maxPlaintextBytes (s_send sA) = maximum -> maximum + 24 <= 4294967295 ->
  pending tB = [] -> Forall event_ok evA ->
  let A := peer_run (new_peer tA sA maximum) evA in
  let B := peer_run (new_peer tB sB maximum) evB in
  let sent := messages (frames_written (p_log A)) in
  buffer tB ++ arrived evB `prefix_of` written (p_log A) ->
  delivered (p_log B) `prefix_of` sent /\
  (buffer tB ++ arrived evB = written (p_log A) -> (exists id, reader B = Awaiting id) -> delivered (p_log B) = sent).
Proof.
  intros Hch Hseq Hn Hm Hmax Hpd Hev A B sent Hpre.
  assert (HA : sender_ok (s_send sA) maximum A).
  { apply run_sender_ok; try done. eapply same_sender_ok; [eapply same_sender_trans; [apply quiet_read|]|].
    { instantiate (1 := mk_peer tA (s_send sA) (s_receive sA) maximum false false false Returned 0 None []). done. }
    split; [done|]. exists []. cbn. rewrite Z.add_0_r. split; [constructor|]. split; [done|]. split; [by destruct (s_send sA)|lia]. }
  destruct HA as (_ & plain & Hplain & Hw & _ & Hb). unfold sent. rewrite Hw in Hpre |- *.
  eapply (receiver_delivered (s_send sA) (s_receive sB) maximum _ plain); try done; try lia.
  apply run_receiver; try done; try lia. apply new_receiver; try done; try lia. by eapply prefix_app_l.
Qed.

(** ** The loop comes to rest *)

Definition weight (p : peer) : nat :=
  2 * length (buffer (p_transport p)) + match reader p with Settled (Ok _) => 2 | Settled (Err _) => 1 | _ => 0 end.

Definition at_rest (p : peer) : Prop := forall r, reader p <> Settled r.

Lemma notice_returned out p : reader p = Returned -> reader (notice out p) = Returned.
Proof. intros E. unfold notice. by rewrite E. Qed.

Lemma settle_buffer t : buffer (settle t).1 = buffer t.
Proof. by destruct (settle_cases t) as [[-> _]|(e & -> & _)]. Qed.

Lemma close_weight reason notify p : reader p = Returned ->
  reader (close reason notify p) = Returned /\ buffer (p_transport (close reason notify p)) = buffer (p_transport p).
Proof.
  assert (Hend : forall q, reader q = Returned -> reader (close_end reason q) = Returned
    /\ buffer (p_transport (close_end reason q)) = buffer (p_transport q)).
  { intros q Hq. unfold close_end, with_transport, transport_close.
    change (reader (log (OnClose reason) ?x)) with (reader x). split.
    - by apply notice_returned.
    - unfold notice. cbn. rewrite Hq. cbn. by rewrite settle_buffer. }
  intros Hr. unfold close. destruct (p_closed p); [done|]. cbv zeta.
  set (q := p <| p_closed := true |> <| idleTimer := false |> <| heartbeatTimer := false |>).
  assert (Hq : reader q = Returned) by done. change (p_transport p) with (p_transport q). clearbody q.
  destruct notify; [|by apply Hend].
  pose proof (still_seal (close_object reason) q) as (Ht & _ & _ & Hrd & _).
  destruct (seal _ q) as [[b|e] p1]; cbn [snd] in *.
  - change (reader p1 = Returned /\ buffer (p_transport p1) = buffer (p_transport q)). by rewrite Hrd, Ht.
  - destruct (Hend p1) as [H1 H2]; [by rewrite Hrd|]. by rewrite H1, H2, Ht.
Qed.

(** A started read takes a frame out of the buffer, or fails, or waits. *)
Lemma start_read_weight p : (weight (start_read p) <= 2 * length (buffer (p_transport p)) + 1)%nat.
Proof.
  unfold start_read. set (m := maximumRecordBytes (p_receive p)). set (id := next_read p).
  set (q := p <| reader := Awaiting id |> <| next_read := S id |>). assert (Hq : reader q = Awaiting id) by done. clearbody q.
  assert (Hw : forall t out, (length (buffer t) <= length (buffer (p_transport p)))%nat ->
    (forall f, settled_read id out = Some (Ok f) -> (length (buffer t) < length (buffer (p_transport p)))%nat) ->
    (weight (with_transport (t, out) q) <= 2 * length (buffer (p_transport p)) + 1)%nat).
  { intros t out Hl Hf. unfold weight, with_transport, notice. cbn [fst snd].
    change (reader (q <| p_transport := t |>)) with (reader q). rewrite Hq.
    destruct (settled_read id out) as [[f|e]|] eqn:E; cbn; rewrite ?Hq; [specialize (Hf f eq_refl)|..]; lia. }
  unfold readPrefixed. destruct (nextFrame (buffer (p_transport p)) m) as [[[f|] b]|e] eqn:E.
  - unfold nextFrame, tryReadPrefixed in E. destruct (readU32Be (buffer (p_transport p)) 0) as [n|] eqn:Er; [|done].
    destruct (Z.ltb m n); [done|]. destruct (Z.ltb _ (4 + n)); [done|]. injection E as _ <-.
    assert (4 <= length (buffer (p_transport p)))%nat.
    { destruct (decide (length (buffer (p_transport p)) < 4)%nat) as [Hs|]; [|lia]. apply readU32Be_short in Hs. congruence. }
    apply Hw; cbn [buffer]; [|intros _ _]; change (buffer (?t <| buffer := ?x |>)) with x; cbn; rewrite length_drop; lia.
  - destruct (failed (p_transport p)); [apply Hw; [done|]; intros f; rewrite settled_read_one; done|].
    destruct (closed (p_transport p)); [apply Hw; [done|]; intros f; rewrite settled_read_one; done|]. by apply Hw.
  - apply Hw; [done|]. intros f; rewrite settled_read_one; done.
Qed.

Lemma loop_head_weight p : (weight (loop_head p) <= 2 * length (buffer (p_transport p)) + 1)%nat.
Proof. unfold loop_head. destruct (p_closed p); [unfold weight; cbn; lia|apply start_read_weight]. Qed.

Lemma dispatch_weight f p : (weight (dispatch f p) <= 2 * length (buffer (p_transport p)) + 1)%nat.
Proof.
  unfold dispatch. case_bool_decide; [apply (loop_head_weight (log (Delivered f) p))|].
  case_bool_decide.
  { destruct (still_sendFrame (pong_frame (get f "nonce")) p) as (Ht & _). rewrite <- Ht. apply loop_head_weight. }
  case_bool_decide; [apply loop_head_weight|]. case_bool_decide; [|apply loop_head_weight].
  destruct (close_weight (reason_of f) false (p <| reader := Returned |>) ltac:(done)) as [Hr Hb].
  unfold weight. rewrite Hr, Hb. cbn. lia.
Qed.

Lemma turn_weight p r : reader p = Settled r -> (weight (reader_turn p) < weight p)%nat.
Proof.
  intros E. assert (Hcatch : forall e q, p_transport q = p_transport p -> (weight (loop_catch e q) < weight p)%nat).
  { intros e q Hq. unfold loop_catch. destruct (close_weight (error_reason e) false (q <| reader := Returned |>) ltac:(done)) as [H1 H2].
    unfold weight. rewrite H1, H2, E. change (p_transport (q <| reader := Returned |>)) with (p_transport q). rewrite Hq. destruct r; lia. }
  unfold reader_turn. rewrite E. destruct r as [rec|e]; [|by apply Hcatch]. cbv zeta.
  destruct (decrypt _ rec) as [[c b]|e]; [|by apply Hcatch]. destruct (decodeWireFrame b _) as [f|e]; [|by apply Hcatch].
  match goal with |- (weight (dispatch f ?q) < _)%nat => pose proof (dispatch_weight f q) as H; change (p_transport q) with (p_transport p) in H end.
  unfold weight at 2. rewrite E. lia.
Qed.

(** C39: the read loop always comes to rest: after at most two turns for each buffered byte
    and two more it waits for bytes or has returned, whatever the peer has sent. *)
Theorem read_loop_rests p : exists n, (n <= 2 * length (buffer (p_transport p)) + 2)%nat /\ at_rest (peer_run p (replicate n ReaderTurn)).
Proof.
  assert (Hw : forall w q, (weight q <= w)%nat -> exists n, (n <= w)%nat /\ at_rest (peer_run q (replicate n ReaderTurn))).
  { induction w as [|w IH]; intros q Hq.
    - exists 0%nat. split; [done|]. intros r E. cbn in E. unfold weight in Hq. rewrite E in Hq. destruct r; lia.
    - destruct (reader q) as [id|r|] eqn:E; [exists 0%nat; split; [lia|]; intros r Hr; cbn in Hr; congruence| |
        exists 0%nat; split; [lia|]; intros r Hr; cbn in Hr; congruence].
      pose proof (turn_weight q r E) as Ht. destruct (IH (reader_turn q)) as (n & Hn & Hr); [lia|].
      exists (S n). split; [lia|]. exact Hr. }
  destruct (Hw (weight p) p (le_n _)) as (n & Hn & Hr). exists n. split; [|done].
  unfold weight in Hn. destruct (reader p) as [id|[|]|]; lia.
Qed.

(** ** Closing *)

Lemma closes_app l l' : closes (l ++ l') = closes l ++ closes l'.
Proof. unfold closes. apply omap_app. Qed.

(** An open session has not called [onClose]; one that is closing waits for a write; a closed
    one has called it once. *)
Definition phase_ok (p : peer) : Prop :=
  if p_closed p then match closing p with Some _ => closes (p_log p) = [] | None => length (closes (p_log p)) = 1%nat end
  else closing p = None /\ closes (p_log p) = [].

Definition same_phase (p q : peer) : Prop :=
  p_closed q = p_closed p /\ closing q = closing p /\ closes (p_log q) = closes (p_log p).

Lemma same_phase_ok p q : same_phase p q -> phase_ok p -> phase_ok q.
Proof. unfold phase_ok. by intros (-> & -> & ->). Qed.

Lemma same_phase_trans p q r : same_phase p q -> same_phase q r -> same_phase p r.
Proof. intros (A1 & A2 & A3) (B1 & B2 & B3). repeat split; congruence. Qed.

Lemma phase_log a p : match a with OnClose _ => False | _ => True end -> same_phase p (log a p).
Proof.
  intros Ha. unfold same_phase. rewrite log_log, closes_app. do 2 (split; [done|]). destruct a; try done; apply app_nil_r.
Qed.

Lemma phase_transport r p : same_phase p (with_transport r p).
Proof. unfold with_transport, notice. cbn. destruct (reader p); [|done..]. by destruct (settled_read _ _). Qed.

Lemma phase_seal f p : same_phase p (seal f p).2.
Proof. unfold seal. destruct (encodeWireFrame _ _); [|done]. by destruct (encrypt _ _) as [[c r]|]. Qed.

Lemma phase_send f p : same_phase p (snd (sendFrame f p)).
Proof.
  unfold sendFrame. destruct (p_closed p); [done|]. pose proof (phase_seal f p) as H.
  destruct (seal f p) as [[b|e] p1]; cbn [snd] in *; [|done]. eapply same_phase_trans; [exact H|]. by apply phase_log.
Qed.

Lemma phase_head p : same_phase p (loop_head p).
Proof.
  unfold loop_head. destruct (p_closed p); [done|]. unfold start_read. eapply same_phase_trans; [|apply phase_transport]. done.
Qed.

(** The rest of [close] of a session that is closing. *)
Lemma close_end_phase reason p : p_closed p = true -> closes (p_log p) = [] -> phase_ok (close_end reason p).
Proof.
  intros Hc Hn. unfold close_end. set (q := with_transport _ _).
  assert (Hq : same_phase (p <| closing := None |>) q) by apply phase_transport.
  destruct Hq as (H1 & H2 & H3). unfold phase_ok. rewrite log_log, closes_app, H3. clearbody q.
  change (p_closed (log (OnClose reason) q)) with (p_closed q). change (closing (log (OnClose reason) q)) with (closing q).
  rewrite H1, H2. change (p_closed (p <| closing := None |>)) with (p_closed p). rewrite Hc.
  change (closing (p <| closing := None |>)) with (@None json). change (p_log (p <| closing := None |>)) with (p_log p). by rewrite Hn.
Qed.

Lemma close_phase reason notify p : phase_ok p -> phase_ok (close reason notify p).
Proof.
  intros Hp. unfold close. destruct (p_closed p) eqn:E; [done|]. unfold phase_ok in Hp. rewrite E in Hp. destruct Hp as [Hc Hn].
  cbv zeta. set (q := p <| p_closed := true |> <| idleTimer := false |> <| heartbeatTimer := false |>).
  assert (Hq : p_closed q = true /\ closes (p_log q) = []) by done. clearbody q. destruct Hq as [Hq1 Hq2].
  destruct notify; [|by apply close_end_phase]. pose proof (phase_seal (close_object reason) q) as (H1 & H2 & H3).
  destruct (seal _ q) as [[b|e] p1]; cbn [snd] in *.
  - eapply same_phase_ok; [by apply phase_log|]. unfold phase_ok.
    change (p_closed (p1 <| closing := Some reason |>)) with (p_closed p1). rewrite H1, Hq1.
    change (closes (p_log p1) = []). by rewrite H3.
  - apply close_end_phase; congruence.
Qed.

Lemma turn_phase p : phase_ok p -> phase_ok (reader_turn p).
Proof.
  intros Hp. unfold reader_turn, loop_catch. destruct (reader p) as [id|[rec|e]|]; [done| |by apply close_phase|done].
  cbv zeta. destruct (decrypt _ rec) as [[c b]|e]; [|by apply close_phase].
  destruct (decodeWireFrame b _) as [f|e]; [|by apply close_phase].
  match goal with |- phase_ok (dispatch f ?q) => assert (Hq : phase_ok q) by done; generalize dependent q end. intros q Hq.
  unfold dispatch. case_bool_decide; [eapply same_phase_ok; [apply phase_head|]; by eapply same_phase_ok; [apply phase_log|]|].
  case_bool_decide; [eapply same_phase_ok; [apply phase_head|]; by eapply same_phase_ok; [apply phase_send|]|].
  case_bool_decide; [by eapply same_phase_ok; [apply phase_head|]|].
  case_bool_decide; [by apply close_phase|by eapply same_phase_ok; [apply phase_head|]].
Qed.

Lemma step_phase p e : phase_ok p -> phase_ok (peer_step p e).
Proof.
  intros Hp. destruct e as [random now payload|random| | |chunk|error| | |reason|]; cbn [peer_step];
    try (by eapply same_phase_ok; [apply phase_transport|]); try (by apply close_phase).
  - unfold sendPayload. destruct (p_closed p); [by eapply same_phase_ok; [apply phase_log|]|].
    pose proof (phase_send (message_frame (bytesToHex random) now payload) p) as Hs. destruct (sendFrame _ p) as [r p1].
    eapply same_phase_ok; [by apply phase_log|]. by eapply same_phase_ok.
  - destruct (heartbeatTimer p); [|done]. unfold sendPing. pose proof (phase_send (ping_frame (randomHex random)) p) as Hs.
    destruct (sendFrame _ p) as [[b|e] p1]; cbn [snd] in Hs; [|apply close_phase]; by eapply same_phase_ok.
  - destruct (idleTimer p); [|done]. by apply close_phase.
  - by apply turn_phase.
  - destruct (closing p) as [reason|] eqn:E; [|done]. unfold phase_ok in Hp. rewrite E in Hp.
    destruct (p_closed p) eqn:Ec; [by apply close_end_phase|]. by destruct Hp.
Qed.

Lemma run_phase es : forall p, phase_ok p -> phase_ok (peer_run p es).
Proof. induction es as [|e es IH]; intros p Hp; [done|]. apply IH. by apply step_phase. Qed.

(** What a closed session can still do. *)
Definition silent (p q : peer) : Prop :=
  p_closed q = true /\ frames_written (p_log q) = frames_written (p_log p) /\ written (p_log q) = written (p_log p).

Lemma silent_sender p q : p_closed q = true -> same_sender p q -> silent p q.
Proof. by intros H (_ & _ & ? & ?). Qed.

Lemma closed_head p : p_closed p = true -> loop_head p = p <| reader := Returned |>.
Proof. intros E. unfold loop_head. by rewrite E. Qed.

Lemma closed_send f p : p_closed p = true -> sendFrame f p = (Ok false, p).
Proof. intros E. unfold sendFrame. by rewrite E. Qed.

Lemma closed_close reason notify p : p_closed p = true -> close reason notify p = p.
Proof. intros E. unfold close. by rewrite E. Qed.

Lemma closed_turn p : p_closed p = true -> silent p (reader_turn p).
Proof.
  intros E. unfold reader_turn, loop_catch. destruct (reader p) as [id|[rec|e]|]; [done| |by rewrite closed_close|done].
  cbv zeta. destruct (decrypt _ rec) as [[c b]|e]; [|by rewrite closed_close].
  destruct (decodeWireFrame b _) as [f|e]; [|by rewrite closed_close].
  match goal with |- silent p (dispatch f ?q) => assert (Hq : silent p q /\ p_closed q = true) by done; generalize dependent q end.
  intros q [Hq Eq]. unfold dispatch. case_bool_decide.
  { rewrite closed_head by done. destruct Hq as (_ & H1 & H2), (quiet_log (Delivered f) q I) as (_ & _ & H3 & H4).
    split; [done|]. change (p_log (log (Delivered f) q <| reader := Returned |>)) with (p_log (log (Delivered f) q)).
    by rewrite H3, H4. }
  rewrite closed_send by done. cbn [snd]. rewrite closed_head by done.
  case_bool_decide; [done|]. case_bool_decide; [done|]. case_bool_decide; [by rewrite closed_close|done].
Qed.

(** C19: a session closes once: whatever happens to it, [onClose] is called at most once, not
    before the session is closed, and exactly once when a closed session waits for no write;
    and a closed session writes nothing more and stays closed. *)
Theorem closed_session_is_silent t s maximum es e :
  let p := peer_run (new_peer t s maximum) es in
  phase_ok p /\ (length (closes (p_log p)) <= 1)%nat /\ (p_closed p = true -> silent p (peer_step p e)).
Proof.
  assert (Hp : phase_ok (peer_run (new_peer t s maximum) es)).
  { apply run_phase. unfold new_peer.
    set (p := mk_peer t (s_send s) (s_receive s) maximum false false false Returned 0 None []).
    assert (Hs : same_phase p (start_read p)) by (unfold start_read; eapply same_phase_trans; [|apply phase_transport]; done).
    by apply (same_phase_ok p). }
  intros p. fold p in Hp. clearbody p. split; [done|]. split.
  { unfold phase_ok in Hp. destruct (p_closed p); [destruct (closing p)|destruct Hp as [_ Hp]]; rewrite ?Hp; cbn; lia. }
  intros E. destruct e as [random now payload|random| | |chunk|error| | |reason|]; cbn [peer_step];
    try (by rewrite closed_close).
  - unfold sendPayload. rewrite E. apply silent_sender; [done|by apply quiet_log].
  - destruct (heartbeatTimer p); [|done]. unfold sendPing. by rewrite closed_send.
  - destruct (idleTimer p); [|done]. by rewrite closed_close.
  - apply silent_sender; [|apply quiet_transport]. destruct (phase_transport (transport_push (p_transport p) chunk) p) as (-> & _). done.
  - apply silent_sender; [|apply quiet_transport]. destruct (phase_transport (transport_fail (p_transport p) error) p) as (-> & _). done.
  - apply silent_sender; [|apply quiet_transport]. destruct (phase_transport (transport_close (p_transport p)) p) as (-> & _). done.
  - by apply closed_turn.
  - destruct (closing p) as [reason|]; [|done]. apply silent_sender; [|apply quiet_close_end].
    unfold close_end. change (p_closed (log ?a ?x)) with (p_closed x).
    destruct (phase_transport (transport_close (p_transport p)) (p <| closing := None |>)) as (H & _).
    change (p_closed (with_transport (transport_close (p_transport p)) (p <| closing := None |>)) = true). by rewrite H.
Qed.
End session.

(** ** Examples *)

Definition toy_end (send receive : cipher) : session := mk_session "bt2_x" (Some (JStr "Ann")) "" [6] send receive.
Definition up : cipher := new_cipher [1] [2; 3; 4; 5] [6] 4096.
Definition down : cipher := new_cipher [7] [2; 3; 4; 9] [6] 4096.
Definition ann_end : session := toy_end up down.
Definition bob_end : session := toy_end down up.

(** Ann sends two messages with a ping between them. *)
Definition ann_events : list event :=
  [SendPayload (replicate 12 1) 100 (Some (JStr "hello")); HeartbeatDue (replicate 8 2);
   SendPayload (replicate 12 3) 200 (Some (JArr [JNum 1; JNull]))].

Definition ann_after : peer := peer_run (new_peer createStreamTransport ann_end 4096) ann_events.

(** Bob's tunnel cuts the bytes in the middle of a frame. *)
Lemma messages_in_order_witness :
  let bob := peer_run (new_peer createStreamTransport bob_end 4096)
    [Arrived (take 130 (written (p_log ann_after))); ReaderTurn; Arrived (drop 130 (written (p_log ann_after)));
     ReaderTurn; ReaderTurn; ReaderTurn] in
  delivered (p_log bob) = messages (frames_written (p_log ann_after)) /\
  delivered (p_log bob) =
    [message_frame (bytesToHex (replicate 12 1)) 100 (Some (JStr "hello"));
     message_frame (bytesToHex (replicate 12 3)) 200 (Some (JArr [JNum 1; JNull]))].
Proof.
  intros bob. split; [|vm_compute; reflexivity].
  refine (proj2 (messages_in_order (HL := toy_laws) ann_end bob_end createStreamTransport createStreamTransport ann_events
    [Arrived (take 130 (written (p_log ann_after))); ReaderTurn; Arrived (drop 130 (written (p_log ann_after)));
     ReaderTurn; ReaderTurn; ReaderTurn] 4096 _ _ _ _ _ _ _ _) _ _).
  - done.
  - done.
  - cbn. lia.
  - done.
  - lia.
  - done.
  - repeat constructor; done.
  - change (arrived _) with (take 130 (written (p_log ann_after)) ++ drop 130 (written (p_log ann_after)) ++ []).
    rewrite app_nil_r, take_drop. reflexivity.
  - change (arrived _) with (take 130 (written (p_log ann_after)) ++ drop 130 (written (p_log ann_after)) ++ []).
    by rewrite app_nil_r, take_drop.
  - exists 3%nat. vm_compute. reflexivity.
Defined.

Lemma read_loop_rests_witness :
  exists n, (n <= 2 * length (buffer (p_transport ann_after)) + 2)%nat /\ at_rest (peer_run ann_after (replicate n ReaderTurn)).
Proof. exact (read_loop_rests ann_after). Defined.

Lemma closed_session_is_silent_witness :
  silent (peer_run (new_peer createStreamTransport ann_end 4096) [CloseCalled "bye"])
    (peer_step (peer_run (new_peer createStreamTransport ann_end 4096) [CloseCalled "bye"]) (HeartbeatDue (replicate 8 2))).
Proof.
  apply (closed_session_is_silent createStreamTransport ann_end 4096 [CloseCalled "bye"] (HeartbeatDue (replicate 8 2))).
  vm_compute. reflexivity.
Defined.
