(* ===== verification/CallLimits.v ===== *)
(** * What a call accepts from the peer ([src/renderer/calls/callLimits.js])

    Every packet and signal of a call is rebuilt from the fields it may have, each within its
    limit, before the call looks at it.  The messages are JSON values, so that the payload of
    a packet is a text.  A number is read as [Json.to_number] reads it; an object that
    overrides [toString] to break its conversion to a text is left out.

    [sanitize_again]: what a sanitizer returns passes it unchanged. *)

From S2P Require Import Prelude Json CallState CallMedia Wire.

Definition CALL_ID_MAX_LEN : nat := 128.
Definition CALL_REASON_MAX_LEN : nat := 64.
Definition CALL_DEVICE_KEY_MAX_LEN : nat := 256.
Definition CALL_SENDER_MAX_LEN : nat := 128.
Definition CALL_MAX_CODECS : nat := 8.
Definition CALL_MAX_CODEC_LEN : nat := 32.
Definition CALL_KEY_B64_MAX_LEN : nat := 64.

Definition AUDIO_MAX_PACKET_BYTES : Z := 8 * 1024.
Definition AUDIO_GCM_OVERHEAD : Z := 16.

(** [Math.ceil(n * 4 / 3) + 8]. *)
Definition b64_limit (n : Z) : Z := (n * 4 + 2) / 3 + 8.

Definition AUDIO_MAX_PACKET_B64 : Z := b64_limit (AUDIO_MAX_PACKET_BYTES + AUDIO_GCM_OVERHEAD).
Definition VIDEO_FRAGMENT_OVERHEAD : Z := 64.
Definition VIDEO_MAX_CIPHER_BYTES : Z := VIDEO_MAX_FRAGMENT_BYTES + VIDEO_FRAGMENT_OVERHEAD.
Definition VIDEO_MAX_PACKET_B64 : Z := b64_limit VIDEO_MAX_CIPHER_BYTES.
Definition VIDEO_MAX_DESC_B64 : Z := b64_limit VIDEO_MAX_DESC_BYTES.

Definition CALL_SIGNAL_OPS : list string :=
  ["ringing"; "accept"; "reject"; "busy"; "cancel"; "end"; "video-on"; "video-off"; "screen-on"; "screen-off";
   "keyframe"; "ping"; "pong"].

Definition CALL_AUDIO_CODECS : list string := ["opus"; "pcm16"].
Definition MAX_SAFE_INTEGER : Z := 9007199254740991.

Definition boundedString (v : option json) (maxLen : nat) : string :=
  match v with Some (JStr s) => if Nat.leb (String.length s) maxLen then s else "" | _ => "" end.

Definition isSafeSeq (seq : option json) : bool :=
  match to_number seq with Some n => Z.leb 0 n && Z.leb n MAX_SAFE_INTEGER | None => false end.

(** [payloadWithin] of a JSON value. *)
Definition payloadWithin (data : option json) (maxB64 : Z) : bool :=
  match data with
  | Some (JStr s) => Nat.ltb 0 (String.length s) && Z.leb (Z.of_nat (String.length s)) maxB64
  | _ => false
  end.

(** A property that is set only if the text is not empty. *)
Definition nonempty (s : string) : option json := if bool_decide (s = "") then None else Some (JStr s).

Definition NO_CAPABILITIES : json := JObj [("video", JArr []); ("screen", JBool false)].

Definition sanitizeCapabilities (raw : option json) : json :=
  match raw with
  | Some (JObj f) =>
      let items := match get f "video" with Some (JArr l) => take CALL_MAX_CODECS l | _ => [] end in
      let video := normalizeCapabilityList (map (fun i => string_or_empty (Some i)) items) in
      JObj [("video", JArr (map JStr video));
            ("screen", JBool (bool_decide (get f "screen" = Some (JBool true)) && Nat.ltb 0 (length video)))]
  | _ => NO_CAPABILITIES
  end.

Definition push_codec (out : list string) (item : json) : list string :=
  let value := string_or_empty (Some item) in
  if bool_decide (value = "") || Nat.ltb CALL_MAX_CODEC_LEN (String.length value) then out
  else if negb (includes CALL_AUDIO_CODECS value) || includes out value then out
  else out ++ [value].

Definition sanitizeCodecList (v : option json) : list string :=
  match v with Some (JArr l) => fold_left push_codec (take CALL_MAX_CODECS l) [] | _ => [] end.

(** [msg.stream === 'screen' ? 'screen' : 'camera']. *)
Definition stream_json (v : option json) : json := JStr (streamKey v).

Definition op_of (msg : option json) : string := match prop msg "op" with Some (JStr s) => s | _ => "" end.

(** A number that is set only if it is within its limits. *)
Definition limited (v : option Z) (ok : Z -> bool) : option json :=
  match v with Some n => if ok n then Some (JNum n) else None | None => None end.

Definition STREAM_OPS : list string := ["video-on"; "video-off"; "screen-on"; "screen-off"; "keyframe"].

(** [typeof value === 'object'] of a truthy value. *)
Definition object_value (v : option json) : bool := match v with Some j => is_js_object j | None => false end.

Definition sanitizeCallSignal (msg : option json) : option fields :=
  let field := prop msg in
  let op := op_of msg in
  let callId := boundedString (field "callId") CALL_ID_MAX_LEN in
  if negb (includes CALL_SIGNAL_OPS op) then None
  else if bool_decide (callId = "") then None
  else
    let codec := boundedString (field "codec") CALL_MAX_CODEC_LEN in
    Some (object
      [("kind", Some (JStr "call-signal")); ("op", Some (JStr op)); ("callId", Some (JStr callId));
       ("fromDevice", nonempty (boundedString (field "fromDevice") CALL_DEVICE_KEY_MAX_LEN));
       ("codec", if bool_decide (op = "accept") && includes CALL_AUDIO_CODECS codec then Some (JStr codec) else None);
       ("reason", if bool_decide (op = "cancel") then nonempty (boundedString (field "reason") CALL_REASON_MAX_LEN) else None);
       ("t", if includes ["ping"; "pong"] op
             then limited (to_number (field "t")) (fun n => Z.leb (Z.abs n) MAX_SAFE_INTEGER) else None);
       ("stream", if includes STREAM_OPS op then Some (stream_json (field "stream")) else None);
       ("capabilities", if includes ["ringing"; "accept"] op && object_value (field "capabilities")
                        then Some (sanitizeCapabilities (field "capabilities")) else None)]).

Definition sanitizeCallOffer (msg : option json) : option fields :=
  let field := prop msg in
  let callId := boundedString (field "callId") CALL_ID_MAX_LEN in
  let callKeyB64 := boundedString (field "callKeyB64") CALL_KEY_B64_MAX_LEN in
  if bool_decide (callId = "") || bool_decide (callKeyB64 = "") then None
  else
    Some (object
      [("kind", Some (JStr "call-offer")); ("callId", Some (JStr callId)); ("callKeyB64", Some (JStr callKeyB64));
       ("codecs", Some (JArr (map JStr (sanitizeCodecList (field "codecs")))));
       ("media", Some (JObj [("video", JBool (bool_decide (prop (field "media") "video" = Some (JBool true))))]));
       ("capabilities", Some (sanitizeCapabilities (field "capabilities")));
       ("timestamp", limited (to_number (field "timestamp")) (fun n => Z.leb 0 n));
       ("sender", nonempty (boundedString (field "sender") CALL_SENDER_MAX_LEN));
       ("fromDevice", nonempty (boundedString (field "fromDevice") CALL_DEVICE_KEY_MAX_LEN))]).

(** [Number(value)] as a property; a value that is not a number is not set. *)
Definition number_prop (v : option json) : option json := option_map JNum (to_number v).

Definition sanitizeCallAudio (msg : option json) : option fields :=
  let field := prop msg in
  let callId := boundedString (field "callId") CALL_ID_MAX_LEN in
  if bool_decide (callId = "") || negb (isSafeSeq (field "seq")) then None
  else if negb (payloadWithin (field "data") AUDIO_MAX_PACKET_B64) then None
  else
    Some (object
      [("kind", Some (JStr "call-audio")); ("callId", Some (JStr callId)); ("seq", number_prop (field "seq"));
       ("data", field "data"); ("fromDevice", nonempty (boundedString (field "fromDevice") CALL_DEVICE_KEY_MAX_LEN))]).

(** The decoder description of a JSON message: a text within the limit, or a value without a
    length, which passes. *)
Definition desc_within (desc : option json) : bool :=
  match desc with Some (JStr s) => Z.leb (Z.of_nat (String.length s)) VIDEO_MAX_DESC_B64 | _ => true end.

Definition frag_within (frags frag : option Z) : bool :=
  match frags, frag with
  | Some n, Some i => Z.leb 1 n && Z.leb n VIDEO_MAX_FRAGS && Z.leb 0 i && Z.ltb i n
  | _, _ => false
  end.

(** A property that is kept unless it is [null]. *)
Definition unless_null (v : option json) : option json := if nullish v then None else v.

Definition sanitizeCallVideo (msg : option json) : option fields :=
  let field := prop msg in
  let callId := boundedString (field "callId") CALL_ID_MAX_LEN in
  if bool_decide (callId = "") || negb (isSafeSeq (field "seq")) then None
  else if negb (frag_within (to_number (field "frags")) (to_number (field "frag"))) then None
  else if negb (payloadWithin (field "data") VIDEO_MAX_PACKET_B64) then None
  else if negb (nullish (field "codec")) && negb (isAllowedVideoCodec (field "codec")) then None
  else if Nat.ltb CALL_MAX_CODEC_LEN (String.length (string_or_empty (field "codec"))) then None
  else if negb (isPlausibleVideoSize (field "w") (field "h")) then None
  else if negb (nullish (field "desc")) && negb (desc_within (field "desc")) then None
  else
    Some (object
      [("kind", Some (JStr "call-video")); ("callId", Some (JStr callId)); ("stream", Some (stream_json (field "stream")));
       ("seq", number_prop (field "seq")); ("frag", number_prop (field "frag")); ("frags", number_prop (field "frags"));
       ("key", Some (JBool (bool_decide (field "key" = Some (JBool true))))); ("data", field "data");
       ("codec", option_map (fun c => JStr (to_string c)) (unless_null (field "codec")));
       ("w", number_prop (field "w")); ("h", number_prop (field "h")); ("ts", number_prop (field "ts"));
       ("desc", unless_null (field "desc"));
       ("fromDevice", nonempty (boundedString (field "fromDevice") CALL_DEVICE_KEY_MAX_LEN))]).

(** [handleInbound] of [CallManager.js] up to the handler of each kind: the device of the
    sender must be the one the call is bound to, and the message must pass. *)
Inductive inbound := Audio (f : fields) | Video (f : fields) | Offer (f : fields) | Signal (f : fields).

Definition handleInbound (remoteDevice : option string) (fromId : string) (msg : json) : option inbound :=
  let field := prop (Some msg) in
  let fromDevice := field "fromDevice" in
  let bound := boundedString fromDevice CALL_DEVICE_KEY_MAX_LEN in
  if bool_decide (fromId = "") || negb (truthy (Some msg)) then None
  else if negb (nullish fromDevice) && negb (bool_decide (fromDevice = Some (JStr "")))
          && (bool_decide (bound = "") || shouldDropBoundMessage remoteDevice (Some bound)) then None
  else
    let kind := field "kind" in
    if bool_decide (kind = Some (JStr "call-audio")) then option_map Audio (sanitizeCallAudio (Some msg))
    else if bool_decide (kind = Some (JStr "call-video")) then option_map Video (sanitizeCallVideo (Some msg))
    else if bool_decide (kind = Some (JStr "call-offer")) then option_map Offer (sanitizeCallOffer (Some msg))
    else if bool_decide (kind = Some (JStr "call-signal")) then option_map Signal (sanitizeCallSignal (Some msg))
    else None.

(** ** Lemmas *)

(** The value of a property of an object literal. *)
Fixpoint literal (l : list (string * option json)) (k : string) : option json :=
  match l with [] => None | (n, v) :: l' => if String.eqb n k then v else literal l' k end.

Lemma get_object l k : NoDup (map fst l) -> get (object l) k = literal l k.
Proof.
  induction l as [|[n v] l IH]; [done|]. cbn [map fst]. rewrite NoDup_cons. intros [Hn Hl].
  assert (Hout : n ∉ map fst l -> get (object l) n = None).
  { clear. intros Hn. apply get_None. intros (p & -> & Hp)%list_elem_of_fmap. apply Hn. unfold object in Hp.
    apply list_elem_of_omap in Hp as ([m w] & Hin & Hw). destruct w; cbn in Hw; [|done]. injection Hw as <-.
    apply list_elem_of_fmap. by exists (m, Some j). }
  cbn [literal]. destruct (String.eqb_spec n k) as [->|Hne].
  - destruct v as [j|]; [|by apply Hout]. change (object ((k, Some j) :: l)) with ((k, j) :: object l). cbn. by rewrite bool_decide_eq_true_2.
  - destruct v as [j|]; [|by apply IH]. change (object ((n, Some j) :: l)) with ((n, j) :: object l). cbn.
    rewrite bool_decide_eq_false_2 by done. by apply IH.
Qed.

Lemma bounded_bounded v n : boundedString (nonempty (boundedString v n)) n = boundedString v n.
Proof.
  unfold nonempty. case_bool_decide as E; [by rewrite E|]. unfold boundedString in *. destruct v as [[| | |s| |]|]; try done.
  destruct (Nat.leb (String.length s) n) eqn:L; [|done]. by rewrite L.
Qed.

Lemma bounded_text v n : boundedString (Some (JStr (boundedString v n))) n = boundedString v n.
Proof.
  unfold boundedString. destruct v as [[| | |s| |]|]; try (by destruct n).
  destruct (Nat.leb (String.length s) n) eqn:L; [by rewrite L|by destruct n].
Qed.

Lemma bounded_length v n : (String.length (boundedString v n) <= n)%nat.
Proof. unfold boundedString. destruct v as [[| | |s| |]|]; cbn; try lia. destruct (Nat.leb_spec (String.length s) n); cbn; lia. Qed.

(** The lists that the two normalisations can give. *)
Definition capability_lists : list (list string) := [[]; ["vp8"]; ["avc1"]; ["vp8"; "avc1"]; ["avc1"; "vp8"]].
Definition codec_lists : list (list string) := [[]; ["opus"]; ["pcm16"]; ["opus"; "pcm16"]; ["pcm16"; "opus"]].

Lemma normalized_lists items : normalizeCapabilityList items ∈ capability_lists.
Proof.
  unfold normalizeCapabilityList. assert (H : [] ∈ capability_lists) by (unfold capability_lists; set_solver).
  revert H. generalize (@nil string). induction items as [|i items IH]; intros out H; [done|]. cbn [fold_left]. apply IH.
  unfold push_capability. unfold capability_lists in *. rewrite !elem_of_cons, elem_of_nil in H.
  destruct (starts_with "vp8" (lower i)), (starts_with "avc1" (lower i)); destruct_or!; subst; cbn; set_solver.
Qed.

Lemma codecs_lists v : sanitizeCodecList v ∈ codec_lists.
Proof.
  unfold sanitizeCodecList. assert (H : [] ∈ codec_lists) by (unfold codec_lists; set_solver).
  destruct v as [[| | | |l|]|]; try done. revert H. generalize (@nil string).
  induction (take CALL_MAX_CODECS l) as [|i items IH]; intros out H; [done|]. cbn [fold_left]. apply IH.
  unfold push_codec. cbv zeta. destruct (_ || _); [done|]. destruct (negb _ || _) eqn:E; [done|].
  apply orb_false_iff in E as [E1 E2]. apply negb_false_iff in E1.
  generalize dependent (string_or_empty (Some i)). intros value E1 E2.
  assert (Hv : value = "opus" \/ value = "pcm16").
  { unfold includes, CALL_AUDIO_CODECS in E1. apply bool_decide_eq_true in E1. set_solver. }
  unfold codec_lists in *. rewrite !elem_of_cons, elem_of_nil in H.
  destruct Hv as [-> | ->]; destruct_or!; subst; try (vm_compute in E2; discriminate); cbn; set_solver.
Qed.

Lemma capabilities_again v : sanitizeCapabilities (Some (sanitizeCapabilities v)) = sanitizeCapabilities v.
Proof.
  destruct v as [[| | | | |f]|]; try done. unfold sanitizeCapabilities at 2 3. set (items := match get f "video" with Some (JArr l) => _ | _ => _ end).
  pose proof (normalized_lists (map (fun i => string_or_empty (Some i)) items)) as H. revert H.
  generalize (normalizeCapabilityList (map (fun i => string_or_empty (Some i)) items)). intros l H.
  generalize (bool_decide (get f "screen" = Some (JBool true))). intros b.
  unfold capability_lists in H. rewrite !elem_of_cons, elem_of_nil in H. destruct_or!; subst; by destruct b.
Qed.

Lemma codecs_again v : sanitizeCodecList (Some (JArr (map JStr (sanitizeCodecList v)))) = sanitizeCodecList v.
Proof.
  pose proof (codecs_lists v) as H. revert H. generalize (sanitizeCodecList v). intros l H.
  unfold codec_lists in H. rewrite !elem_of_cons, elem_of_nil in H. destruct_or!; by subst.
Qed.

Lemma stream_again v : stream_json (Some (stream_json v)) = stream_json v.
Proof. unfold stream_json, streamKey. by destruct (bool_decide (v = Some (JStr "screen"))). Qed.

Lemma data_again (data : option json) limit : payloadWithin data limit = true -> exists s, data = Some (JStr s).
Proof. destruct data as [[| | |s| |]|]; try done. by exists s. Qed.

Lemma number_again v : to_number (number_prop v) = to_number v.
Proof. unfold number_prop. by destruct (to_number v). Qed.

Lemma safe_again v : isSafeSeq (number_prop v) = isSafeSeq v.
Proof. unfold isSafeSeq. by rewrite number_again. Qed.

Lemma number_prop_again v : number_prop (number_prop v) = number_prop v.
Proof. unfold number_prop at 1. by rewrite number_again. Qed.

(** The properties of a rebuilt message. *)
Ltac read_back :=
  cbv zeta; cbn [prop];
  rewrite ?get_object by (apply (bool_decide_unpack _); vm_compute; exact I); cbn [literal String.eqb Ascii.eqb Bool.eqb].

(** Takes [Some (object l) = Some f] apart. *)
Ltac rebuilt :=
  match goal with |- Some (object ?l) = Some ?f -> _ =>
    let E := fresh in let x := fresh in set (x := l); intros E; assert (f = object x) as -> by congruence; subst x; clear E
  end.

(** What the conditional properties of a signal become the second time. *)
Lemma codec_again (c : bool) codec :
  (if c && includes CALL_AUDIO_CODECS (boundedString (if c && includes CALL_AUDIO_CODECS (boundedString codec CALL_MAX_CODEC_LEN)
     then Some (JStr (boundedString codec CALL_MAX_CODEC_LEN)) else None) CALL_MAX_CODEC_LEN)
   then Some (JStr (boundedString (if c && includes CALL_AUDIO_CODECS (boundedString codec CALL_MAX_CODEC_LEN)
     then Some (JStr (boundedString codec CALL_MAX_CODEC_LEN)) else None) CALL_MAX_CODEC_LEN)) else None) =
  (if c && includes CALL_AUDIO_CODECS (boundedString codec CALL_MAX_CODEC_LEN)
   then Some (JStr (boundedString codec CALL_MAX_CODEC_LEN)) else None).
Proof.
  destruct c; [|done]. cbn [andb]. destruct (includes CALL_AUDIO_CODECS (boundedString codec CALL_MAX_CODEC_LEN)) eqn:E; [|done].
  by rewrite bounded_text, E.
Qed.

Lemma reason_again (c : bool) v n : (if c then nonempty (boundedString (if c then nonempty (boundedString v n) else None) n) else None) =
  (if c then nonempty (boundedString v n) else None).
Proof. destruct c; [|done]. by rewrite bounded_bounded. Qed.

Lemma limited_again v ok : limited (to_number (limited v ok)) ok = limited v ok.
Proof. destruct v as [n|]; [|done]. cbn. destruct (ok n) eqn:E; [|done]. cbn. by rewrite E. Qed.

Lemma limited_set_again (c : bool) v ok :
  (if c then limited (to_number (if c then limited v ok else None)) ok else None) = (if c then limited v ok else None).
Proof. destruct c; [apply limited_again|done]. Qed.

Lemma stream_set_again (c : bool) v :
  (if c then Some (stream_json (if c then Some (stream_json v) else None)) else None) = (if c then Some (stream_json v) else None).
Proof. destruct c; [by rewrite stream_again|done]. Qed.

Lemma capabilities_set_again (c : bool) v :
  (if c && object_value (if c && object_value v then Some (sanitizeCapabilities v) else None)
   then Some (sanitizeCapabilities (if c && object_value v then Some (sanitizeCapabilities v) else None)) else None) =
  (if c && object_value v then Some (sanitizeCapabilities v) else None).
Proof.
  destruct c; [|done]. cbn [andb]. destruct (object_value v) eqn:E; [|done]. rewrite capabilities_again.
  by destruct v as [[| | | | |f]|].
Qed.

Lemma signal_again m f : sanitizeCallSignal m = Some f -> sanitizeCallSignal (Some (JObj f)) = Some f.
Proof.
  unfold sanitizeCallSignal at 1. cbv zeta. destruct (negb (includes CALL_SIGNAL_OPS (op_of m))) eqn:Eop; [done|].
  case_bool_decide as Eid; [done|]. rebuilt.
  assert (Hop : forall op l, literal l "op" = Some (JStr op) -> NoDup (map fst l) -> op_of (Some (JObj (object l))) = op)
    by (intros op l Hl Hn; unfold op_of; cbn [prop]; by rewrite get_object, Hl).
  unfold sanitizeCallSignal. rewrite (Hop (op_of m)) by (reflexivity || (apply (bool_decide_unpack _); vm_compute; exact I)).
  generalize dependent (op_of m). intros op Eop. read_back.
  rewrite Eop, bounded_text, bool_decide_eq_false_2, !bounded_bounded by done.
  by rewrite codec_again, reason_again, limited_set_again, stream_set_again, capabilities_set_again.
Qed.

Lemma offer_again m f : sanitizeCallOffer m = Some f -> sanitizeCallOffer (Some (JObj f)) = Some f.
Proof.
  unfold sanitizeCallOffer at 1. cbv zeta. destruct (bool_decide _ || bool_decide _) eqn:E; [done|]. rebuilt.
  unfold sanitizeCallOffer. read_back. rewrite !bounded_text, E, !bounded_bounded, codecs_again, capabilities_again, limited_again.
  cbn [prop get]. rewrite (bool_decide_eq_true_2 ("video" = "video")) by done.
  by destruct (bool_decide (prop (prop m "media") "video" = Some (JBool true))).
Qed.

Lemma audio_again m f : sanitizeCallAudio m = Some f -> sanitizeCallAudio (Some (JObj f)) = Some f.
Proof.
  unfold sanitizeCallAudio at 1. cbv zeta. destruct (bool_decide _ || negb _) eqn:E; [done|].
  destruct (negb (payloadWithin _ _)) eqn:Ep; [done|]. rebuilt. unfold sanitizeCallAudio. read_back.
  by rewrite bounded_text, safe_again, E, Ep, !bounded_bounded, number_prop_again.
Qed.

Lemma size_again w h : w <> Some JNull -> h <> Some JNull -> isPlausibleVideoSize w h = true ->
  isPlausibleVideoSize (number_prop w) (number_prop h) = true.
Proof.
  unfold isPlausibleVideoSize. intros Hw Hh. rewrite !number_again. destruct (nullish w && nullish h) eqn:E.
  - intros _. apply andb_true_iff in E as [Ew Eh]. by destruct w as [[]|], h as [[]|].
  - destruct (to_number w) as [a|] eqn:Ea, (to_number h) as [b|] eqn:Eb; try done. unfold number_prop. by rewrite Ea, Eb.
Qed.

(** The codec, as a text. *)
Definition codec_text (v : option json) : option json := option_map (fun c => JStr (to_string c)) (unless_null v).

Lemma allowed_truthy v : isAllowedVideoCodec v = true -> truthy v = true.
Proof. unfold isAllowedVideoCodec, string_or_empty. by destruct v as [j|], (truthy _). Qed.

Lemma codec_text_again v : negb (nullish v) && negb (isAllowedVideoCodec v) = false ->
  nullish (codec_text v) = nullish v /\ isAllowedVideoCodec (codec_text v) = isAllowedVideoCodec v
  /\ string_or_empty (codec_text v) = string_or_empty v /\ codec_text (codec_text v) = codec_text v.
Proof.
  unfold codec_text, unless_null. destruct (nullish v) eqn:E; [intros _; destruct v as [[]|]; done|].
  destruct v as [j|]; [|done]. cbn [negb andb option_map]. intros Ha%negb_false_iff. apply allowed_truthy in Ha as Ht.
  assert (Hs : string_or_empty (Some (JStr (to_string j))) = string_or_empty (Some j)).
  { unfold string_or_empty. rewrite Ht. cbn. case_bool_decide as Es; cbn; by rewrite ?Es. }
  split; [done|]. split; [unfold isAllowedVideoCodec; by rewrite Hs|]. done.
Qed.

Lemma unless_null_again v : unless_null (unless_null v) = unless_null v.
Proof. unfold unless_null. destruct (nullish v) eqn:E; [done|]. by rewrite E. Qed.

Lemma desc_again v : negb (nullish v) && negb (desc_within v) = false ->
  negb (nullish (unless_null v)) && negb (desc_within (unless_null v)) = false.
Proof. unfold unless_null. by destruct (nullish v) eqn:E; [|rewrite E]. Qed.

Lemma video_again m f : prop m "w" <> Some JNull -> prop m "h" <> Some JNull ->
  sanitizeCallVideo m = Some f -> sanitizeCallVideo (Some (JObj f)) = Some f.
Proof.
  intros Hw Hh. unfold sanitizeCallVideo at 1. cbv zeta. destruct (bool_decide _ || negb _) eqn:E1; [done|].
  destruct (negb (frag_within _ _)) eqn:E2; [done|]. destruct (negb (payloadWithin _ _)) eqn:E3; [done|].
  destruct (negb (nullish (prop m "codec")) && _) eqn:E4; [done|]. destruct (Nat.ltb _ _) eqn:E5; [done|].
  destruct (negb (isPlausibleVideoSize _ _)) eqn:E6; [done|]. destruct (negb (nullish (prop m "desc")) && _) eqn:E7; [done|]. rebuilt.
  destruct (codec_text_again _ E4) as (C1 & C2 & C3 & C4). unfold codec_text in C1, C2, C3, C4.
  apply negb_false_iff in E6. pose proof (size_again _ _ Hw Hh E6) as E6'.
  unfold sanitizeCallVideo. read_back. rewrite bounded_text, safe_again, E1, !number_again, E2, E3, C1, C2, E4, C3, E5, E6'.
  rewrite (desc_again _ E7), stream_again, !number_prop_again, C4, unless_null_again, bounded_bounded. cbn [negb].
  by destruct (bool_decide (prop m "key" = Some (JBool true))).
Qed.

(** ** Properties *)

(** What a sanitizer of a call returns passes the same sanitizer unchanged, so that a message
    that has passed is within every limit: for signals, offers and audio packets always, for
    video packets unless the width or the height is [null]. *)
Theorem sanitize_again m f :
  (sanitizeCallSignal m = Some f -> sanitizeCallSignal (Some (JObj f)) = Some f) /\
  (sanitizeCallOffer m = Some f -> sanitizeCallOffer (Some (JObj f)) = Some f) /\
  (sanitizeCallAudio m = Some f -> sanitizeCallAudio (Some (JObj f)) = Some f) /\
  (prop m "w" <> Some JNull -> prop m "h" <> Some JNull ->
   sanitizeCallVideo m = Some f -> sanitizeCallVideo (Some (JObj f)) = Some f).
Proof. split; [apply signal_again|split; [apply offer_again|split; [apply audio_again|apply video_again]]]. Qed.

Definition null_size_video : json :=
  JObj [("callId", JStr "c1"); ("seq", JNum 7); ("frag", JNum 0); ("frags", JNum 1); ("data", JStr "AAAA");
        ("w", JNull); ("h", JNull)].

(** A video packet whose width and height are [null] passes as a packet without a size, but
    is given the size 0 x 0, which the reassembler refuses. *)
Theorem null_size_becomes_zero :
  exists f, sanitizeCallVideo (Some null_size_video) = Some f /\ get f "w" = Some (JNum 0) /\ get f "h" = Some (JNum 0)
    /\ isPlausibleVideoSize (get f "w") (get f "h") = false.
Proof. eexists. split; [vm_compute; reflexivity|]. done. Qed.

(** The device an accepted packet comes from is the one the call is bound to, and every kind
    goes to its own sanitizer. *)
Theorem inbound_from_bound_device remoteDevice fromId msg d :
  handleInbound (Some remoteDevice) fromId msg <> None -> remoteDevice <> "" ->
  prop (Some msg) "fromDevice" = Some (JStr d) -> d <> "" -> d = remoteDevice /\ (String.length d <= 256)%nat.
Proof.
  intros H Hr Hd Hne. unfold handleInbound in H. cbv zeta in H. destruct (bool_decide (fromId = "") || _); [done|].
  rewrite Hd in H. cbn [nullish negb andb] in H. rewrite (bool_decide_eq_false_2 (Some (JStr d) = Some (JStr ""))) in H by congruence.
  cbn [negb andb] in H. destruct (bool_decide _ || shouldDropBoundMessage _ _) eqn:E; [done|].
  apply orb_false_iff in E as [E1%bool_decide_eq_false E2].
  unfold boundedString in E1, E2. destruct (Nat.leb (String.length d) CALL_DEVICE_KEY_MAX_LEN) eqn:L; [|done].
  apply Nat.leb_le in L. split; [|exact L]. unfold shouldDropBoundMessage in E2.
  destruct remoteDevice as [|a r]; [done|]. destruct d as [|b d]; [done|]. cbn [truthy_str] in E2.
  apply negb_false_iff, bool_decide_eq_true in E2. done.
Qed.
