(* ===== verification/Presence.v ===== *)
(** * Presence of users and games ([src/shared/user-presence.js], [src/shared/game-presence.js])

    A status is one of three words, a game presence is a JSON object that the host of a game
    sends to its contacts and that decides whether they see a lobby they can join. *)

From S2P Require Import Prelude Json ChatFeatures Wire.

(** ** Users *)

Definition USER_PRESENCE_KIND : string := "user-presence".
Definition STATUS_ONLINE : string := "online".
Definition STATUS_DND : string := "dnd".
Definition STATUS_OFFLINE : string := "offline".

Definition normalizeUserPresenceStatus (value : option json) : string :=
  if bool_decide (value = Some (JStr STATUS_DND)) then STATUS_DND
  else if bool_decide (value = Some (JStr STATUS_OFFLINE)) then STATUS_OFFLINE
  else STATUS_ONLINE.

Definition resolveUserPresenceStatus (settings : option json) : string :=
  if truthy (prop settings "presenceStatus") then normalizeUserPresenceStatus (prop settings "presenceStatus")
  else if bool_decide (prop settings "doNotDisturb" = Some (JBool true)) then STATUS_DND
  else STATUS_ONLINE.

Definition presenceSettingsPatch (status : option json) : fields :=
  let resolved := normalizeUserPresenceStatus status in
  [("presenceStatus", JStr resolved); ("doNotDisturb", JBool (bool_decide (resolved = STATUS_DND)))].

Definition shouldSuppressNotifications (settings : option json) : bool :=
  let status := resolveUserPresenceStatus settings in
  bool_decide (status = STATUS_DND) || bool_decide (status = STATUS_OFFLINE).

(** [Date.now()] is an argument. *)
Definition buildUserPresencePayload (settings : option json) (now : Z) : fields :=
  [("kind", JStr USER_PRESENCE_KIND); ("status", JStr (resolveUserPresenceStatus settings));
   ("sender", if truthy (prop settings "displayName") then default JNull (prop settings "displayName") else JStr "");
   ("timestamp", JNum now); ("features", JArr (map JStr OWN_PEER_FEATURES))].

Definition parseIncomingUserPresenceStatus (status : option json) : string := normalizeUserPresenceStatus status.

Definition isPeerDoNotDisturb (presence : option json) : bool :=
  bool_decide (prop presence "status" = Some (JStr STATUS_DND)).

Definition isPeerAppearingOffline (presence : option json) : bool :=
  bool_decide (prop presence "status" = Some (JStr STATUS_OFFLINE)).

Definition formatUserPresenceLabel (presence : option json) : string :=
  if isPeerAppearingOffline presence then "Offline"
  else if isPeerDoNotDisturb presence then "Nicht st" +:+ String "246" "ren"
  else "Online".

Definition formatOwnPresenceLabel (settings : option json) : string :=
  formatUserPresenceLabel (Some (JObj [("status", JStr (resolveUserPresenceStatus settings))])).

(** ** Games *)

Definition GAME_PRESENCE_KIND : string := "game-presence".

Definition normalizeLobbyAccess (value : option json) : string :=
  if bool_decide (value = Some (JStr "public")) then "public" else "invite".

Definition gameInviteKey (game hostPeerId sessionId : string) : string :=
  game +:+ ":" +:+ hostPeerId +:+ ":" +:+ sessionId.

Definition isLobbyPhaseJoinable (game phase : option json) : bool :=
  let named (v : option json) (s : string) := bool_decide (v = Some (JStr s)) in
  if named game "poker" then named phase "lobby" || named phase "between"
  else if named game "uno" then named phase "lobby" || named phase "roundOver"
  else if named game "connect-four" || named game "chess" || named game "tic-tac-toe" || named game "kart" then named phase "lobby"
  else false.

(** [Number(value) || fallback]. *)
Definition number_or (v : option json) (fallback : Z) : Z :=
  match to_number v with Some n => if Z.eqb n 0 then fallback else n | None => fallback end.

Definition default_table (game : option json) : string :=
  let named (s : string) := bool_decide (game = Some (JStr s)) in
  if named "poker" then "Poker-Tisch" else if named "connect-four" then "Vier-gewinnt-Tisch" else if named "chess" then "Schach-Partie"
  else if named "tic-tac-toe" then "Tic-Tac-Toe" else if named "kart" then "Kart-Rennen" else "UNO-Tisch".

(** [value || fallback] of two texts. *)
Definition text_or (v : option json) (fallback : string) : json :=
  if truthy v then default JNull v else JStr fallback.

(** The arguments are the properties of the object that is passed. *)
Definition buildGamePresencePayload (params : fields) : fields :=
  let field := get params in
  let safeMax := Z.max 2 (number_or (match field "maxPlayers" with None => Some (JNum 4) | v => v end) 4) in
  let safeCount := Z.max 0 (number_or (match field "playerCount" with None => Some (JNum 0) | v => v end) 0) in
  let joinable := bool_decide (field "role" = Some (JStr "host")) && isLobbyPhaseJoinable (field "game") (field "phase")
    && Z.ltb safeCount safeMax in
  object
    [("kind", Some (JStr GAME_PRESENCE_KIND)); ("game", field "game"); ("sessionId", field "sessionId");
     ("tableName", Some (JStr (str_take 48 (to_string (text_or (field "tableName") (default_table (field "game")))))));
     ("phase", Some (text_or (field "phase") "lobby"));
     ("lobbyAccess", Some (JStr (normalizeLobbyAccess (field "lobbyAccess"))));
     ("role", field "role"); ("hostPeerId", field "hostPeerId");
     ("playerCount", Some (JNum safeCount)); ("maxPlayers", Some (JNum safeMax)); ("joinable", Some (JBool joinable))].

Definition isInviteSessionActive (presence : option json) (hostPeerId sessionId game : string) (hostOnline : bool) : bool :=
  if negb hostOnline || negb (truthy presence) then false
  else if negb (bool_decide (prop presence "game" = Some (JStr game))) then false
  else if negb (bool_decide (prop presence "sessionId" = Some (JStr sessionId))) then false
  else if negb (bool_decide (prop presence "hostPeerId" = Some (JStr hostPeerId))) then false
  else
    isLobbyPhaseJoinable (Some (JStr game)) (Some (JStr (string_or_empty (prop presence "phase"))))
    && Z.ltb (number_or_zero (prop presence "playerCount")) (number_or_zero (prop presence "maxPlayers")).

(** [`${value}`]. *)
Definition spelled (v : option json) : string := match v with None => "undefined" | Some j => to_string j end.

Definition canJoinGameViaPresence (presence : option json) (gameInvites : gset string) (hostPeerId : string) : bool :=
  if negb (truthy (prop presence "joinable")) then false
  else if negb (bool_decide (prop presence "hostPeerId" = Some (JStr hostPeerId))) then false
  else if bool_decide (prop presence "lobbyAccess" = Some (JStr "public")) then true
  else bool_decide (gameInviteKey (spelled (prop presence "game")) hostPeerId (string_or_empty (prop presence "sessionId")) ∈ gameInvites).

Definition invite_game (kind : string) : option string :=
  get [("poker-invite", "poker"); ("uno-invite", "uno"); ("connect-four-invite", "connect-four"); ("chess-invite", "chess");
       ("tic-tac-toe-invite", "tic-tac-toe"); ("kart-invite", "kart")] kind.

Definition settings_field (game : string) : string :=
  default "" (get [("poker", "pokerSettings"); ("uno", "unoSettings"); ("connect-four", "connectFourSettings");
                   ("chess", "chessSettings"); ("tic-tac-toe", "ticTacToeSettings"); ("kart", "kartSettings")] game).

(** The entry that is built from an invitation. *)
Definition invite_entry (game sessionId hostPeerId fromId tableName lobbyAccess : string) (maxPlayers now : Z) : fields :=
  [("kind", JStr GAME_PRESENCE_KIND); ("game", JStr game); ("sessionId", JStr sessionId); ("tableName", JStr tableName);
   ("phase", JStr "lobby"); ("lobbyAccess", JStr lobbyAccess); ("role", JStr "host"); ("hostPeerId", JStr hostPeerId);
   ("peerId", JStr fromId); ("playerCount", JNum 1); ("maxPlayers", JNum maxPlayers); ("joinable", JBool true);
   ("fromInvite", JBool true); ("updatedAt", JNum now)].

Definition presenceFromInvite (message : option json) (fromId : string) (now : Z) : option fields :=
  match invite_game (string_or_empty (prop message "kind")) with
  | None => None
  | Some game =>
      let sessionId := string_or_empty (prop message (if bool_decide (game = "poker") then "tableId" else "gameId")) in
      let hostPeerId := to_string (text_or (prop message "hostPeerId") fromId) in
      if bool_decide (sessionId = "") || bool_decide (hostPeerId = "") then None
      else
        let maxPlayers := Z.max 2 (number_or (prop (prop message (settings_field game)) "maxPlayers") 4) in
        Some (invite_entry game sessionId hostPeerId fromId (str_take 48 (string_or_empty (prop message "tableName")))
                (normalizeLobbyAccess (prop message "lobbyAccess")) maxPlayers now)
  end.

Definition game_label (game : option json) : string :=
  let named (s : string) := bool_decide (game = Some (JStr s)) in
  if named "poker" then "Poker" else if named "connect-four" then "Vier gewinnt" else if named "chess" then "Schach"
  else if named "tic-tac-toe" then "Tic-Tac-Toe" else if named "kart" then "BlueKart" else "UNO".

Definition formatGamePresenceLabel (presence : option json) : string :=
  let game := prop presence "game" in
  if negb (truthy game) then ""
  else
    let label := game_label game in
    let name := to_string (text_or (prop presence "tableName") label) in
    if truthy (prop presence "joinable") && bool_decide (prop presence "role" = Some (JStr "host")) then "Lobby: " +:+ name
    else if isLobbyPhaseJoinable game (Some (JStr (string_or_empty (prop presence "phase"))))
    then "Wartet auf " +:+ label +:+ ": " +:+ name
    else "Spielt " +:+ label +:+ ": " +:+ name.

Definition isPresenceStale (presence : option json) (now : Z) : bool :=
  if negb (truthy presence) then true
  else
    match to_number (coalesce (prop presence "updatedAt") (prop presence "timestamp")) with
    | Some ts => Z.ltb 90000 (now - ts)
    | None => false
    end.

(** ** What they show *)

Lemma status_cases v : normalizeUserPresenceStatus v = STATUS_ONLINE \/ normalizeUserPresenceStatus v = STATUS_DND
  \/ normalizeUserPresenceStatus v = STATUS_OFFLINE.
Proof. unfold normalizeUserPresenceStatus. repeat case_bool_decide; auto. Qed.

(** Choosing a status is what is stored, sent, read by the peer and shown; notifications are
    off for every status but online. *)
Theorem chosen_status_is_shown status sender now :
  let settings := Some (JObj (presenceSettingsPatch status ++ [("displayName", JStr sender)])) in
  let payload := Some (JObj (buildUserPresencePayload settings now)) in
  resolveUserPresenceStatus settings = normalizeUserPresenceStatus status /\
  parseIncomingUserPresenceStatus (prop payload "status") = normalizeUserPresenceStatus status /\
  formatUserPresenceLabel payload = formatOwnPresenceLabel settings /\
  shouldSuppressNotifications settings = negb (bool_decide (normalizeUserPresenceStatus status = STATUS_ONLINE)).
Proof.
  unfold presenceSettingsPatch, buildUserPresencePayload. cbv zeta.
  destruct (status_cases status) as [-> |[-> | ->]]; repeat split.
Qed.

Lemma invite_game_known kind g : invite_game kind = Some g -> g ∈ ["poker"; "uno"; "connect-four"; "chess"; "tic-tac-toe"; "kart"].
Proof. unfold invite_game. cbn [get]. intros H. repeat case_bool_decide; simplify_eq; set_solver. Qed.

Lemma lobby_joinable g : g ∈ ["poker"; "uno"; "connect-four"; "chess"; "tic-tac-toe"; "kart"] ->
  isLobbyPhaseJoinable (Some (JStr g)) (Some (JStr "lobby")) = true.
Proof. rewrite !elem_of_cons, elem_of_nil. intros H. destruct_or!; by subst. Qed.

Lemma entry_joinable game sid host fromId table access mx now :
  canJoinGameViaPresence (Some (JObj (invite_entry game sid host fromId table access mx now))) {[ gameInviteKey game host sid ]} host = true.
Proof.
  unfold canJoinGameViaPresence. set (p := Some (JObj _)).
  change (prop p "joinable") with (Some (JBool true)). change (prop p "hostPeerId") with (Some (JStr host)).
  cbn [truthy negb]. rewrite bool_decide_eq_true_2 by done. cbn [negb]. case_bool_decide; [done|].
  apply bool_decide_eq_true_2. change (spelled (prop p "game")) with game. change (prop p "sessionId") with (Some (JStr sid)).
  assert (string_or_empty (Some (JStr sid)) = sid) as -> by (unfold string_or_empty; cbn; by case_bool_decide; subst). set_solver.
Qed.

Lemma entry_active game sid host fromId table access mx now :
  game ∈ ["poker"; "uno"; "connect-four"; "chess"; "tic-tac-toe"; "kart"] -> 2 <= mx ->
  isInviteSessionActive (Some (JObj (invite_entry game sid host fromId table access mx now))) host sid game true = true.
Proof.
  intros Hg Hm. unfold isInviteSessionActive. set (p := Some (JObj _)). change (truthy p) with true.
  change (prop p "game") with (Some (JStr game)). change (prop p "sessionId") with (Some (JStr sid)).
  change (prop p "hostPeerId") with (Some (JStr host)). cbn [negb orb]. rewrite !bool_decide_eq_true_2 by done. cbn [negb].
  change (string_or_empty (prop p "phase")) with "lobby". rewrite lobby_joinable by done.
  change (number_or_zero (prop p "playerCount")) with 1. change (number_or_zero (prop p "maxPlayers")) with mx.
  by apply Z.ltb_lt; lia.
Qed.

(** An invitation gives a lobby that the invited peer can join (its key is known), that counts
    as active, and that is stale ninety seconds later. *)
Theorem invitation_opens_lobby message fromId now f :
  presenceFromInvite message fromId now = Some f ->
  exists game sessionId hostPeerId,
    prop (Some (JObj f)) "hostPeerId" = Some (JStr hostPeerId) /\
    canJoinGameViaPresence (Some (JObj f)) {[ gameInviteKey game hostPeerId sessionId ]} hostPeerId = true /\
    isInviteSessionActive (Some (JObj f)) hostPeerId sessionId game true = true /\
    (forall later, isPresenceStale (Some (JObj f)) later = Z.ltb 90000 (later - now)).
Proof.
  unfold presenceFromInvite. destruct (invite_game _) as [g|] eqn:Eg; [|done]. cbv zeta.
  destruct (_ || _); [done|]. apply invite_game_known in Eg.
  match goal with |- Some ?e = Some f -> _ => intros H; assert (f = e) as -> by congruence; clear H end.
  do 3 eexists. split; [reflexivity|]. split; [apply entry_joinable|]. split; [apply entry_active; [exact Eg|lia]|]. done.
Qed.

(** A host's presence is joinable exactly when the phase lets players in and a seat is free. *)
Theorem joinable_means_free_seat params :
  prop (Some (JObj (buildGamePresencePayload params))) "joinable" = Some (JBool (
    bool_decide (get params "role" = Some (JStr "host")) && isLobbyPhaseJoinable (get params "game") (get params "phase")
    && Z.ltb (number_or_zero (prop (Some (JObj (buildGamePresencePayload params))) "playerCount"))
             (number_or_zero (prop (Some (JObj (buildGamePresencePayload params))) "maxPlayers")))).
Proof.
  cbn [prop]. unfold buildGamePresencePayload. cbv zeta.
  by destruct (get params "game"), (get params "sessionId"), (get params "role"), (get params "hostPeerId").
Qed.
