(* ===== verification/RelaySend.v ===== *)
(** * Sending through the relay ([src/bridge/webBridge/relayClient.js], upper part)

    The frames that carry tunnel bytes, and the two queues of a relay client: control
    messages, which go first, and tunnel data, which waits while the socket has too much
    unsent.  A [WebSocket] is its ready state, its [bufferedAmount] and what was passed to
    [send]; it is a parameter of the program, and the steps [OpDrain] and [OpState] are what
    the browser does to it.  Sending is asynchronous only while it waits for the socket to
    drain: [flushing] is then true and [flush_poll] is the timer that looks again. *)

From S2P Require Import Prelude Bytes.

Definition MAX_TUNNEL_PAYLOAD : nat := 65536.
Definition SEND_BUFFER_HIGH : Z := 1024 * 1024.

(** ** Frames of a tunnel *)

Definition encodeTunnelFrame (tunnelId : Z) (payload : bytes) : bytes := u32Be tunnelId ++ payload.

Definition decodeTunnelFrame (data : bytes) : option (Z * bytes) :=
  if Nat.ltb (length data) 4 then None
  else
    match readU32Be data 0 with
    | Some tunnelId => if Z.eqb tunnelId 0 then None else Some (tunnelId, drop 4 data)
    | None => None
    end.

(** The payloads of the loop of [sendBinary]. *)
Fixpoint chunk_loop (fuel : nat) (payload : bytes) : list bytes :=
  match fuel, payload with
  | S fuel', _ :: _ => take MAX_TUNNEL_PAYLOAD payload :: chunk_loop fuel' (drop MAX_TUNNEL_PAYLOAD payload)
  | _, _ => []
  end.

Definition chunks (payload : bytes) : list bytes := chunk_loop (length payload) payload.

(** ** The socket and the queues *)

Inductive ready_state := CONNECTING | OPEN | CLOSING | CLOSED.

#[export] Instance ready_state_eq_dec : EqDecision ready_state.
Proof. solve_decision. Defined.

Inductive frame (C : Type) := Text (c : C) | Binary (b : bytes).
Arguments Text {C} _.
Arguments Binary {C} _.

(** [readyState] is [None] when [this.ws] is null. *)
Record sender (C : Type) := mk_sender {
  readyState : option ready_state;
  bufferedAmount : Z;
  wire : list (frame C);
  controlQ : list C;
  dataQ : list bytes;
  flushing : bool
}.
Arguments mk_sender {C} _ _ _ _ _ _.
Arguments readyState {C} _.
Arguments bufferedAmount {C} _.
Arguments wire {C} _.
Arguments controlQ {C} _.
Arguments dataQ {C} _.
Arguments flushing {C} _.

#[export] Instance rebuild_sender C : Rebuild (sender C) := fun s =>
  mk_sender (readyState s) (bufferedAmount s) (wire s) (controlQ s) (dataQ s) (flushing s).

Definition STACK_OVERFLOW : string := "Maximum call stack size exceeded".
Definition NULL_SOCKET : string := "Cannot read properties of null (reading 'readyState')".

Section sender.
Context {C : Type} (text_size : C -> Z).

Definition is_open (s : sender C) : bool := bool_decide (readyState s = Some OPEN).

Definition has_queued (s : sender C) : bool :=
  match controlQ s, dataQ s with [], [] => false | _, _ => true end.

Definition frame_size (f : frame C) : Z :=
  match f with Text c => text_size c | Binary b => Z.of_nat (length b) end.

(** [ws.send(data)]: the data counts as buffered until the network has taken it. *)
Definition ws_send (f : frame C) (s : sender C) : sender C :=
  s <| wire := wire s ++ [f] |> <| bufferedAmount := bufferedAmount s + frame_size f |>.

(** The loop of [flushSends] up to its end ([false]) or to the wait for the socket to drain
    ([true]). *)
Fixpoint flush_loop (fuel : nat) (s : sender C) : bool * sender C :=
  match fuel with
  | O => (false, s)
  | S fuel' =>
      if negb (is_open s) then (false, s)
      else
        match controlQ s, dataQ s with
        | c :: q, _ => flush_loop fuel' (ws_send (Text c) (s <| controlQ := q |>))
        | [], [] => (false, s)
        | [], d :: q =>
            if Z.ltb SEND_BUFFER_HIGH (bufferedAmount s) then (true, s)
            else flush_loop fuel' (ws_send (Binary d) (s <| dataQ := q |>))
        end
  end.

Definition flush_fuel (s : sender C) : nat := S (length (controlQ s) + length (dataQ s)).

(** [stack] is how deep calls may nest.  The result is the error the call throws, if any.  A
    call while another one is waiting only joins it. *)
Fixpoint flushSends (stack : nat) (s : sender C) : option string * sender C :=
  match stack with
  | O => (Some STACK_OVERFLOW, s)
  | S stack' =>
      if flushing s then (None, s)
      else
        match flush_loop (flush_fuel s) (s <| flushing := true |>) with
        | (true, s1) => (None, s1)
        | (false, s1) =>
            let s2 := s1 <| flushing := false |> in
            if has_queued s2 then flushSends stack' s2 else (None, s2)
        end
  end.

(** The timer of a waiting [flushSends] fires. *)
Definition flush_poll (stack : nat) (s : sender C) : option string * sender C :=
  if negb (flushing s) then (None, s)
  else
    match readyState s with
    | None => (Some NULL_SOCKET, s <| flushing := false |>)
    | Some _ =>
        match flush_loop (flush_fuel s) s with
        | (true, s1) => (None, s1)
        | (false, s1) =>
            let s2 := s1 <| flushing := false |> in
            if has_queued s2 then flushSends stack s2 else (None, s2)
        end
    end.

Definition sendJson (stack : nat) (c : C) (s : sender C) : sender C :=
  if negb (is_open s) then s
  else snd (flushSends stack (s <| controlQ := controlQ s ++ [c] |>)).

Definition sendBinary (stack : nat) (tunnelId : Z) (payload : bytes) (s : sender C)
    : option string * sender C :=
  if negb (is_open s) then (None, s)
  else flushSends stack (s <| dataQ := dataQ s ++ map (encodeTunnelFrame tunnelId) (chunks payload) |>).

(** [this.ws = new WebSocket(...)]. *)
Definition new_socket (s : sender C) : sender C :=
  s <| readyState := Some CONNECTING |> <| bufferedAmount := 0 |> <| wire := [] |>.

(** [this.ws = null]. *)
Definition drop_socket (s : sender C) : sender C := s <| readyState := None |>.

(** The end of [tearDownTunnels]. *)
Definition clear_queues (s : sender C) : sender C := s <| controlQ := [] |> <| dataQ := [] |>.

(** ** What the loop does *)

Fixpoint texts (l : list (frame C)) : list C :=
  match l with [] => [] | Text c :: l' => c :: texts l' | Binary _ :: l' => texts l' end.

Fixpoint binaries (l : list (frame C)) : list bytes :=
  match l with [] => [] | Text _ :: l' => binaries l' | Binary b :: l' => b :: binaries l' end.

Lemma texts_app l l' : texts (l ++ l') = texts l ++ texts l'.
Proof. induction l as [|[c|b] l IH]; simpl; [done| |done]. by rewrite IH. Qed.

Lemma binaries_app l l' : binaries (l ++ l') = binaries l ++ binaries l'.
Proof. induction l as [|[c|b] l IH]; simpl; [done|done|]. by rewrite IH. Qed.

(** What was sent and what is still queued, per queue. *)
Definition all_texts (s : sender C) : list C := texts (wire s) ++ controlQ s.
Definition all_binaries (s : sender C) : list bytes := binaries (wire s) ++ dataQ s.

(** A step that moves frames from the queues to the wire and nothing else. *)
Definition moves (s s' : sender C) : Prop :=
  all_texts s' = all_texts s /\ all_binaries s' = all_binaries s /\ readyState s' = readyState s
  /\ wire s `prefix_of` wire s'.

#[export] Instance moves_preorder : PreOrder moves.
Proof.
  split; [intros s; by repeat split|].
  intros s1 s2 s3 (H1 & H2 & H3 & H4) (H1' & H2' & H3' & H4'). repeat split; try congruence.
  by etrans.
Qed.

Lemma moves_text s c q : controlQ s = c :: q -> moves s (ws_send (Text c) (s <| controlQ := q |>)).
Proof.
  intros H. unfold moves, all_texts, all_binaries, ws_send. simpl. rewrite texts_app, binaries_app, H. simpl.
  rewrite ?app_nil_r, <- ?app_assoc. repeat split. by exists [Text c].
Qed.

Lemma moves_data s d q : dataQ s = d :: q -> moves s (ws_send (Binary d) (s <| dataQ := q |>)).
Proof.
  intros H. unfold moves, all_texts, all_binaries, ws_send. simpl. rewrite texts_app, binaries_app, H. simpl.
  rewrite ?app_nil_r, <- ?app_assoc. repeat split. by exists [Binary d].
Qed.

Lemma moves_flag b s : moves s (s <| flushing := b |>).
Proof. by repeat split. Qed.

Lemma flush_loop_moves fuel : forall s, moves s (flush_loop fuel s).2.
Proof.
  induction fuel as [|fuel IH]; intros s; simpl; [done|]. destruct (is_open s); simpl; [|done].
  destruct (controlQ s) as [|c q] eqn:Hc.
  - destruct (dataQ s) as [|d q] eqn:Hd; [done|]. case_match; [done|].
    pose proof (moves_data s d q Hd) as Hm. simpl in Hm. rewrite Hc in Hm. by etrans.
  - pose proof (moves_text s c q Hc) as Hm. simpl in Hm. by etrans.
Qed.

Lemma flushSends_moves stack : forall s, moves s (flushSends stack s).2.
Proof.
  induction stack as [|stack IH]; intros s; [done|]. cbn [flushSends]. destruct (flushing s); [done|].
  pose proof (flush_loop_moves (flush_fuel s) (s <| flushing := true |>)) as H.
  destruct (flush_loop _ _) as [[] s1]; cbn in H.
  - etrans; [apply (moves_flag true)|done].
  - assert (Hm : moves s (s1 <| flushing := false |>)).
    { etrans; [apply (moves_flag true)|]. etrans; [exact H|]. apply moves_flag. }
    destruct (has_queued _); [|done]. etrans; [exact Hm|apply IH].
Qed.

Lemma flush_poll_moves stack s : moves s (flush_poll stack s).2.
Proof.
  unfold flush_poll. destruct (flushing s); cbn [negb]; [|done]. destruct (readyState s); [|apply moves_flag].
  pose proof (flush_loop_moves (flush_fuel s) s) as H. destruct (flush_loop _ s) as [[] s1]; cbn in H; [done|].
  assert (Hm : moves s (s1 <| flushing := false |>)) by (etrans; [exact H|apply moves_flag]).
  destruct (has_queued _); [|done]. etrans; [exact Hm|apply flushSends_moves].
Qed.

Lemma sent_control s c q (s' := ws_send (Text c) (s <| controlQ := q |>)) :
  controlQ s' = q /\ dataQ s' = dataQ s /\ wire s' = wire s ++ [Text c] /\ flushing s' = flushing s
  /\ is_open s' = is_open s.
Proof. done. Qed.

Lemma sent_data s d q (s' := ws_send (Binary d) (s <| dataQ := q |>)) :
  controlQ s' = controlQ s /\ dataQ s' = q /\ wire s' = wire s ++ [Binary d] /\ flushing s' = flushing s
  /\ is_open s' = is_open s.
Proof. done. Qed.

(** The loop sends every control message and then data while the socket takes it, and has
    fuel enough for both queues. *)
Lemma flush_loop_spec fuel : forall s, (flush_fuel s <= fuel)%nat -> is_open s = true ->
  exists sent rest, dataQ s = sent ++ rest
    /\ wire (flush_loop fuel s).2 = wire s ++ map Text (controlQ s) ++ map Binary sent
    /\ controlQ (flush_loop fuel s).2 = [] /\ dataQ (flush_loop fuel s).2 = rest
    /\ flushing (flush_loop fuel s).2 = flushing s
    /\ ((flush_loop fuel s).1 = true <-> rest <> [])
    /\ (rest <> [] -> SEND_BUFFER_HIGH < bufferedAmount (flush_loop fuel s).2).
Proof.
  induction fuel as [|fuel IH]; intros s Hf Ho; [unfold flush_fuel in Hf; lia|].
  cbn [flush_loop]. rewrite Ho. cbn [negb]. unfold flush_fuel in *.
  destruct (controlQ s) as [|c q] eqn:Hc; [destruct (dataQ s) as [|d q] eqn:Hd|].
  - exists [], []. cbn. rewrite Hc, Hd, app_nil_r. done.
  - destruct (SEND_BUFFER_HIGH <? bufferedAmount s) eqn:Hb.
    + apply Z.ltb_lt in Hb. exists [], (d :: q). cbn. rewrite Hc, Hd, app_nil_r. done.
    + destruct (sent_data s d q) as (E1 & E2 & E3 & E4 & E5). revert E1 E2 E3 E4 E5.
      generalize (ws_send (Binary d) (s <| dataQ := q |>)). intros s1 E1 E2 E3 E4 E5.
      destruct (IH s1) as (sent & rest & Hq & Hw & H1 & H2 & H3 & H4 & H5); [rewrite E1, E2, Hc; cbn in *; lia|congruence|].
      exists (d :: sent), rest. rewrite H1, H2, H3, H4, Hw, E1, E3, E4, Hc. rewrite E2 in Hq. rewrite Hq.
      cbn. rewrite <- app_assoc. repeat split; try done; naive_solver.
  - destruct (sent_control s c q) as (E1 & E2 & E3 & E4 & E5). revert E1 E2 E3 E4 E5.
    generalize (ws_send (Text c) (s <| controlQ := q |>)). intros s1 E1 E2 E3 E4 E5.
    destruct (IH s1) as (sent & rest & Hq & Hw & H1 & H2 & H3 & H4 & H5); [rewrite E1, E2; cbn in *; lia|congruence|].
    exists sent, rest. rewrite H1, H2, H3, H4, Hw, E1, E3, E4. rewrite E2 in Hq.
    cbn. rewrite <- app_assoc. repeat split; try done; naive_solver.
Qed.

(** On an open socket a call sends all control messages at once, never throws, and waits
    exactly if data is left. *)
Lemma flushSends_open stack s : is_open s = true -> flushing s = false ->
  exists sent rest, dataQ s = sent ++ rest /\ (flushSends (S stack) s).1 = None
    /\ wire (flushSends (S stack) s).2 = wire s ++ map Text (controlQ s) ++ map Binary sent
    /\ controlQ (flushSends (S stack) s).2 = [] /\ dataQ (flushSends (S stack) s).2 = rest
    /\ (flushing (flushSends (S stack) s).2 = true <-> rest <> []).
Proof.
  intros Ho Hf. cbn [flushSends]. rewrite Hf.
  destruct (flush_loop_spec (flush_fuel s) (s <| flushing := true |>)) as (sent & rest & Hq & Hw & H1 & H2 & H3 & H4 & H5); [done|done|].
  destruct (flush_loop _ _) as [b s1]. cbn [fst snd] in *. cbn in Hq, Hw, H3.
  exists sent, rest. destruct b.
  - cbn [fst snd]. rewrite Hw, H1, H2, H3. repeat split; try done; naive_solver.
  - assert (rest = []) as ->. { destruct rest; [done|]. by destruct H4 as [_ H4]; discriminate H4. }
    assert (Hn : has_queued (s1 <| flushing := false |>) = false) by (unfold has_queued; cbn; by rewrite H1, H2).
    rewrite Hn. cbn. rewrite Hw, H1, H2. done.
Qed.

(** Away from an open socket the loop does nothing, and the call that ends it nests for ever. *)
Lemma flushSends_overflow stack s : is_open s = false -> flushing s = false -> has_queued s = true ->
  flushSends stack s = (Some STACK_OVERFLOW, s).
Proof.
  intros Ho Hf Hq. induction stack as [|stack IH]; [done|]. cbn [flushSends flush_loop flush_fuel].
  rewrite Hf. change (is_open (s <| flushing := true |>)) with (is_open s). rewrite Ho. cbn [negb].
  replace (s <| flushing := true |> <| flushing := false |>) with s by (destruct s; cbn in *; by subst).
  by rewrite Hq.
Qed.

(** ** Histories of a socket *)

(** [history s cs ws]: the client has come to [s] on one socket, having been given the control
    messages [cs] and the tunnel data [ws] to send while the socket was open.  The browser may
    drain the socket and change its state, and the client may give it up, at any time. *)
Inductive history (stack : nat) : sender C -> list C -> list (Z * bytes) -> Prop :=
| history_new s : wire s = [] -> controlQ s = [] -> dataQ s = [] -> history stack s [] []
| history_json s cs ws c : history stack s cs ws -> is_open s = true ->
    history stack (sendJson stack c s) (cs ++ [c]) ws
| history_binary s cs ws id payload : history stack s cs ws -> is_open s = true ->
    history stack (sendBinary stack id payload s).2 cs (ws ++ [(id, payload)])
| history_json_closed s cs ws c : history stack s cs ws -> is_open s = false ->
    history stack (sendJson stack c s) cs ws
| history_binary_closed s cs ws id payload : history stack s cs ws -> is_open s = false ->
    history stack (sendBinary stack id payload s).2 cs ws
| history_poll s cs ws : history stack s cs ws -> history stack (flush_poll stack s).2 cs ws
| history_drain s cs ws amount : history stack s cs ws -> history stack (s <| bufferedAmount := amount |>) cs ws
| history_state s cs ws st : history stack s cs ws -> history stack (s <| readyState := st |>) cs ws.

Definition frames_of (w : Z * bytes) : list bytes := map (encodeTunnelFrame w.1) (chunks w.2).

Lemma history_all stack s cs ws : history stack s cs ws ->
  all_texts s = cs /\ all_binaries s = concat (map frames_of ws).
Proof.
  induction 1 as [s Hw Hc Hd|s cs ws c H [IH1 IH2] Ho|s cs ws id payload H [IH1 IH2] Ho
    |s cs ws c H [IH1 IH2] Ho|s cs ws id payload H [IH1 IH2] Ho|s cs ws H [IH1 IH2]
    |s cs ws amount H [IH1 IH2]|s cs ws st H [IH1 IH2]]; try done.
  - unfold all_texts, all_binaries. by rewrite Hw, Hc, Hd.
  - unfold sendJson. rewrite Ho. cbn [negb].
    destruct (flushSends_moves stack (s <| controlQ := controlQ s ++ [c] |>)) as (H1 & H2 & _).
    rewrite H1, H2. split; [|done]. rewrite <- IH1. unfold all_texts. cbn. by rewrite app_assoc.
  - unfold sendBinary. rewrite Ho. cbn [negb].
    destruct (flushSends_moves stack (s <| dataQ := dataQ s ++ map (encodeTunnelFrame id) (chunks payload) |>)) as (H1 & H2 & _).
    rewrite H1, H2. split; [done|]. rewrite map_app, concat_app, <- IH2. unfold all_binaries. cbn.
    by rewrite app_nil_r, app_assoc.
  - unfold sendJson. by rewrite Ho.
  - unfold sendBinary. by rewrite Ho.
  - destruct (flush_poll_moves stack s) as (H1 & H2 & _). by rewrite H1, H2.
Qed.

End sender.

(** ** The bytes of a tunnel *)

Lemma decode_encode id payload : 0 < id < 2 ^ 32 ->
  decodeTunnelFrame (encodeTunnelFrame id payload) = Some (id, payload).
Proof.
  intros H. unfold decodeTunnelFrame, encodeTunnelFrame. rewrite length_app, u32Be_length.
  replace (Nat.ltb (4 + length payload) 4) with false by (symmetry; apply Nat.ltb_ge; lia).
  rewrite readU32Be_u32Be by lia. replace (Z.eqb id 0) with false by (symmetry; apply Z.eqb_neq; lia).
  by rewrite drop_app_length'.
Qed.

Lemma chunk_loop_spec fuel : forall p, (length p <= fuel)%nat ->
  concat (chunk_loop fuel p) = p
  /\ Forall (fun c => (0 < length c <= MAX_TUNNEL_PAYLOAD)%nat) (chunk_loop fuel p).
Proof.
  assert (HM : (0 < MAX_TUNNEL_PAYLOAD)%nat) by (apply Nat.ltb_lt; vm_compute; reflexivity).
  induction fuel as [|fuel IH]; intros [|b p] Hf; try by split. { cbn in Hf. lia. }
  change (chunk_loop (S fuel) (b :: p))
    with (take MAX_TUNNEL_PAYLOAD (b :: p) :: chunk_loop fuel (drop MAX_TUNNEL_PAYLOAD (b :: p))).
  revert HM IH. generalize MAX_TUNNEL_PAYLOAD as M. intros M HM IH.
  destruct (IH (drop M (b :: p))) as [H1 H2]; [rewrite length_drop; cbn in *; lia|].
  split.
  - cbn [concat]. rewrite H1. apply take_drop.
  - constructor; [|done]. rewrite length_take. cbn [length]. lia.
Qed.

Lemma chunks_concat p : concat (chunks p) = p.
Proof. by apply chunk_loop_spec. Qed.

Lemma chunks_bound p : Forall (fun c => (0 < length c <= MAX_TUNNEL_PAYLOAD)%nat) (chunks p).
Proof. by apply chunk_loop_spec. Qed.

(** What the other end of tunnel [id] reads from the frames. *)
Fixpoint tunnel_bytes (id : Z) (frames : list bytes) : bytes :=
  match frames with
  | [] => []
  | f :: rest =>
      match decodeTunnelFrame f with
      | Some (i, payload) => if Z.eqb i id then payload ++ tunnel_bytes id rest else tunnel_bytes id rest
      | None => tunnel_bytes id rest
      end
  end.

(** What was written to tunnel [id]. *)
Fixpoint written (id : Z) (ws : list (Z * bytes)) : bytes :=
  match ws with
  | [] => []
  | (i, payload) :: rest => if Z.eqb i id then payload ++ written id rest else written id rest
  end.

Lemma tunnel_bytes_app id l l' : tunnel_bytes id (l ++ l') = tunnel_bytes id l ++ tunnel_bytes id l'.
Proof.
  induction l as [|f l IH]; simpl; [done|]. destruct (decodeTunnelFrame f) as [[i q]|]; [|done].
  destruct (i =? id); [|done]. by rewrite IH, app_assoc.
Qed.

Lemma tunnel_bytes_chunks id i l : 0 < i < 2 ^ 32 ->
  tunnel_bytes id (map (encodeTunnelFrame i) l) = if Z.eqb i id then concat l else [].
Proof.
  intros Hi. induction l as [|c l IH]; [by case_match|]. cbn [map tunnel_bytes]. rewrite decode_encode by done.
  rewrite IH. by destruct (i =? id).
Qed.

Lemma tunnel_bytes_frames id ws : Forall (fun w : Z * bytes => 0 < w.1 < 2 ^ 32) ws ->
  tunnel_bytes id (concat (map frames_of ws)) = written id ws.
Proof.
  induction 1 as [|[i p] ws Hi Hws IH]; [done|]. cbn [map concat written]. rewrite tunnel_bytes_app, IH.
  unfold frames_of. cbn [fst snd] in *. rewrite tunnel_bytes_chunks by done. destruct (i =? id); [|done].
  by rewrite chunks_concat.
Qed.

Lemma frames_bound ws : Forall (fun f => (4 < length f <= 4 + MAX_TUNNEL_PAYLOAD)%nat) (concat (map frames_of ws)).
Proof.
  apply Forall_concat, Forall_map, Forall_forall. intros [i p] _. apply Forall_map.
  eapply Forall_impl; [apply chunks_bound|]. intros c Hc. unfold encodeTunnelFrame. rewrite length_app.
  generalize dependent MAX_TUNNEL_PAYLOAD. rewrite u32Be_length. lia.
Qed.

(** However sends, timers, draining and the end of the socket follow each other, the
    control messages on the wire and in the queue are those given to an open socket, in order;
    the frames on the wire are those of the tunnel protocol, none over its limit; and what the
    other end of a tunnel reads from the wire, followed by what is queued, is exactly what was
    written to the tunnel. *)
Theorem relay_streams_in_order {C} (text_size : C -> Z) stack s cs ws :
  history text_size stack s cs ws -> Forall (fun w => 0 < w.1 < 2 ^ 32) ws ->
  texts (wire s) ++ controlQ s = cs
  /\ Forall (fun f => (4 < length f <= 4 + MAX_TUNNEL_PAYLOAD)%nat) (binaries (wire s))
  /\ forall id, tunnel_bytes id (binaries (wire s)) ++ tunnel_bytes id (dataQ s) = written id ws.
Proof.
  intros H Hws. apply history_all in H as [H1 H2]. split; [exact H1|]. unfold all_binaries in H2. split.
  - pose proof (frames_bound ws) as Hb. rewrite <- H2 in Hb. by apply Forall_app in Hb as [? _].
  - intros id. by rewrite <- tunnel_bytes_app, H2, tunnel_bytes_frames.
Qed.

Definition sample_sender : sender string := mk_sender (Some OPEN) 0 [] [] [] false.
Definition sample_size (c : string) : Z := Z.of_nat (String.length c).

(** A full socket makes the second write wait; the control message overtakes it. *)
Definition sample_run : sender string :=
  let s1 := (sendBinary sample_size 100 5 [1; 2] sample_sender).2 in
  let s2 := s1 <| bufferedAmount := 2000000 |> in
  let s3 := (sendBinary sample_size 100 7 [3] s2).2 in
  let s4 := sendJson sample_size 100 "accept" s3 in
  let s5 := (flush_poll sample_size 100 s4).2 in
  s5.

Lemma relay_streams_in_order_witness :
  texts (wire sample_run) ++ controlQ sample_run = ["accept"]
  /\ Forall (fun f => (4 < length f <= 4 + MAX_TUNNEL_PAYLOAD)%nat) (binaries (wire sample_run))
  /\ forall id, tunnel_bytes id (binaries (wire sample_run)) ++ tunnel_bytes id (dataQ sample_run)
       = written id [(5, [1; 2]); (7, [3])].
Proof.
  apply (relay_streams_in_order sample_size 100 sample_run).
  - unfold sample_run. cbv zeta. apply history_poll. apply (history_json _ _ _ []); [|by vm_compute].
    apply (history_binary _ _ _ _ [(5, [1; 2])]); [|by vm_compute]. apply history_drain.
    apply (history_binary _ _ _ _ []); [|by vm_compute]. by apply history_new.
  - repeat constructor.
Defined.

(** C38: A send that waits for the socket to drain does not survive the socket: when the client
    has meanwhile given it up, the timer throws a [TypeError]; when it is closing, the call that
    ends the loop nests until the stack overflows, however deep the stack is. *)
Theorem lost_socket_breaks_waiting_send {C} (text_size : C -> Z) stack s :
  flushing s = true -> has_queued s = true -> is_open s = false ->
  flush_poll text_size stack s
    = (Some (match readyState s with None => NULL_SOCKET | Some _ => STACK_OVERFLOW end), s <| flushing := false |>).
Proof.
  intros Hf Hq Ho. unfold flush_poll. rewrite Hf. cbn [negb]. destruct (readyState s) as [st|] eqn:Hr; [|done].
  unfold flush_fuel. cbn [flush_loop]. rewrite Ho. cbn [negb].
  replace (has_queued (s <| flushing := false |>)) with true by exact (eq_sym Hq).
  by apply flushSends_overflow.
Qed.

Lemma lost_socket_breaks_waiting_send_witness :
  let waiting := (sendBinary sample_size 100 7 [3] (sample_sender <| bufferedAmount := 2000000 |>)).2 in
  (flush_poll sample_size 100 (drop_socket waiting)).1 = Some NULL_SOCKET
  /\ (flush_poll sample_size 100 (waiting <| readyState := Some CLOSING |>)).1 = Some STACK_OVERFLOW.
Proof.
  split.
  - rewrite lost_socket_breaks_waiting_send by by vm_compute. by vm_compute.
  - rewrite lost_socket_breaks_waiting_send by by vm_compute. by vm_compute.
Defined.
