(* ===== verification/Relay.v ===== *)
(** * The relay client ([src/bridge/webBridge/relayClient.js])

    A client keeps one connection to the relay alive, announces itself, opens and accepts
    tunnels to the devices of its contacts, carries their bytes, and posts and receives mail.
    [client] is the object, in parts: the connection loop ([loop_state]), the status shown to
    the user ([snapshot]), the mailbox, the socket with its queues ([RelaySend]) and the
    [table] of tunnels.  Handles of tunnels are objects shared with the sessions on them: they
    live in a heap, and [tunnels] maps a tunnel id to its handle.  Promises are numbers; what
    happens to them and to the callbacks is the [log].

    An event is what the environment does: a call of a method, a message or the end of the
    socket, a timer, progress of [attachTunnel].  [env] is what the client asks its
    environment for during the event.  The messages of the relay are JSON values; fields that
    are not of the type the protocol gives them count as missing.  The queue of [wsMessages]
    is empty between events, because every handler runs to its end. *)

From S2P Require Import Prelude Bytes Json Records Identity SessionMap RelaySend.

Definition BACKOFF_MIN_MS : Z := 1000.
Definition BACKOFF_MAX_MS : Z := 60000.
Definition MAX_WATCH_PEERS : nat := 2000.
Definition MAX_TUNNELS : Z := 64.
Definition MAX_PENDING_OPENS : nat := 8.
Definition CLIENT_LABEL : string := "BlueTalk/2.2.0".
Definition DEFAULT_MAX_MAIL_BODY : Z := 1024 * 1024.

(** ** Control messages *)

Inductive control :=
| CAuth (publicKey signature name : string) (device deviceName : option string)
| CWatch (peers : list string)
| CPing (n : Z)
| COpen (tunnel : Z) (to : string) (device : option string)
| CAccept (tunnel : Z)
| CReject (tunnel : option Z)
| CClose (tunnel : Z)
| CPost (id to : string) (body : option json)
| CAck (ids : list string).

Definition optional {A} (name : string) (f : A -> json) (v : option A) : list (string * json) :=
  match v with Some a => [(name, f a)] | None => [] end.

(** The object given to [sendJson]; [Number.NaN] is written as null. *)
Definition control_json (c : control) : json :=
  match c with
  | CAuth publicKey signature name device deviceName =>
      JObj ([("t", JStr "auth"); ("publicKey", JStr publicKey); ("signature", JStr signature);
             ("name", JStr name); ("client", JStr CLIENT_LABEL)]
            ++ optional "device" JStr device ++ optional "deviceName" JStr deviceName)
  | CWatch peers => JObj [("t", JStr "watch"); ("peers", JArr (map JStr peers))]
  | CPing n => JObj [("t", JStr "ping"); ("n", JNum n)]
  | COpen tunnel to device =>
      JObj ([("t", JStr "open"); ("tunnel", JNum tunnel); ("to", JStr to)] ++ optional "device" JStr device)
  | CAccept tunnel => JObj [("t", JStr "accept"); ("tunnel", JNum tunnel)]
  | CReject tunnel =>
      JObj [("t", JStr "reject"); ("tunnel", match tunnel with Some n => JNum n | None => JNull end)]
  | CClose tunnel => JObj [("t", JStr "close"); ("tunnel", JNum tunnel)]
  | CPost id to body => JObj ([("t", JStr "post"); ("id", JStr id); ("to", JStr to)] ++ optional "body" (fun b => b) body)
  | CAck ids => JObj [("t", JStr "ack"); ("ids", JArr (map JStr ids))]
  end.

(** ** The environment *)

(** A parsed URL, as [new URL(text)] gives it. *)
Record url := mk_url { url_protocol : string; url_hostname : string; url_host : string }.

Record env := mk_env {
  new_URL : string -> option url;
  defaultRelayUrl : string;
  getIdentity : option identity;
  getDisplayName : string;
  getDeviceId : string;
  getDeviceName : string;
  getWatchIds : list string;
  isBlocked : string -> bool;
  hasSession : option (string -> string -> bool);
  hasPeer : option (string -> bool);
  now : Z;
  randomUUID : string;
  random53 : Z;                 (* [Math.random()] is [random53 / 2 ^ 53] *)
  json_bytes : json -> Z;       (* the length of [JSON.stringify(value)] in UTF-8 *)
  stack_depth : nat
}.

Definition parseRelayUrl (e : env) (raw : string) : res url :=
  let trimmed := trim raw in
  if bool_decide (trimmed = "") || Nat.ltb 512 (String.length trimmed)
  then Err "Relay-URL fehlt oder ist zu lang."
  else
    match new_URL e trimmed with
    | None => Err "Relay-URL ist ungültig."
    | Some u =>
        if bool_decide (url_protocol u = "wss:") then Ok u
        else if bool_decide (url_protocol u = "ws:") then
          if bool_decide (url_hostname u <> "localhost") && bool_decide (url_hostname u <> "127.0.0.1")
             && bool_decide (url_hostname u <> "::1")
          then Err "ws:// ist nur für localhost erlaubt."
          else Ok u
        else Err "Nur wss:// ist erlaubt (ws:// nur lokal)."
    end.

Definition authHost (u : url) : string := lower (url_host u).

Definition is_mail_id (id : string) : bool :=
  bool_decide (id <> "") && Nat.leb (String.length id) 128 && string_forallb is_device_char id.

Definition mailPostId (e : env) (id : string) : string :=
  let trimmed := trim id in if is_mail_id trimmed then trimmed else randomUUID e.

(** ** The state *)

Inductive rstate := Connecting | Disabled | Online | Offline | Replaced | ErrorState.

#[export] Instance rstate_eq_dec : EqDecision rstate.
Proof. solve_decision. Defined.

Record snapshot := mk_snapshot {
  s_enabled : bool;
  s_relayUrl : string;
  s_state : rstate;
  s_peerId : string;
  s_device : string;
  lastError : option string;
  latencyMs : option Z;
  connectedAt : option Z;
  s_tunnels : nat;
  onlinePeers : list string;
  ownDevices : list device;
  s_yielded : bool
}.

#[export] Instance snapshot_rebuild : Rebuild snapshot := fun s =>
  mk_snapshot (s_enabled s) (s_relayUrl s) (s_state s) (s_peerId s) (s_device s) (lastError s) (latencyMs s)
    (connectedAt s) (s_tunnels s) (onlinePeers s) (ownDevices s) (s_yielded s).

(** Where [runLoop] is suspended. *)
Inductive phase :=
| NotStarted
| WaitingForWake
| Sleeping (wait : Z)
| AwaitHello (me : identity)
| AwaitReady (me : identity)
| InSession
| Finished
| LoopHead.   (* never left standing: [run_loop_settles] *)

Record loop_state := mk_loop {
  at_phase : phase;
  enabled : bool;
  relayUrl : string;
  backoffMs : Z;
  replaced : bool;
  yielded : bool;
  stopped : bool;
  reconfigure : bool
}.

#[export] Instance loop_rebuild : Rebuild loop_state := fun l =>
  mk_loop (at_phase l) (enabled l) (relayUrl l) (backoffMs l) (replaced l) (yielded l) (stopped l) (reconfigure l).

Record mail_item := mk_mail { mail_id : string; mail_from : string; mail_ts : Z; mail_body : json }.

Record mailbox := mk_mailbox { mail : list mail_item; inFlight : gmap string mail_item }.

#[export] Instance mailbox_rebuild : Rebuild mailbox := fun b => mk_mailbox (mail b) (inFlight b).

(** [h_tunnel] is the id that its [send] was made with.  [h_ready]: [push] and [closeSession]
    are set; [h_pushed] is what [push] was called with. *)
Record handle := mk_handle {
  h_tunnel : Z;
  h_peer : string;
  h_device : string;
  h_name : string;
  h_ready : bool;
  h_queue : list bytes;
  h_pushed : list bytes
}.

#[export] Instance handle_rebuild : Rebuild handle := fun h =>
  mk_handle (h_tunnel h) (h_peer h) (h_device h) (h_name h) (h_ready h) (h_queue h) (h_pushed h).

Record pending := mk_pending { p_peer : string; p_device : string; p_promise : nat }.

(** A running [attachTunnel]: the tunnel id of its handle, and the promise of [openPeer] that
    waits for it. *)
Record attachment := mk_attachment { a_tunnel : Z; a_promise : option nat }.

Record table := mk_table {
  handles : gmap nat handle;
  tunnels : gmap Z nat;
  pendingOpen : gmap Z pending;
  openingKeys : gset string;
  attaching : gmap nat attachment;
  remoteDevices : gmap string (list device);
  pendingPost : gmap string nat;
  nextTunnelId : Z;
  nextHandle : nat;
  nextOpen : nat;
  nextPost : nat;
  maxTunnels : Z
}.

#[export] Instance table_rebuild : Rebuild table := fun t =>
  mk_table (handles t) (tunnels t) (pendingOpen t) (openingKeys t) (attaching t) (remoteDevices t)
    (pendingPost t) (nextTunnelId t) (nextHandle t) (nextOpen t) (nextPost t) (maxTunnels t).

Inductive effect :=
| Status (s : snapshot)
| PresenceChanged (peer : string) (online : bool) (devices : list device)
| MailArrived (id from : string) (ts : Z)
| SyncAnnounced (latestSeq : json)
| AttachTunnel (handle : nat) (tunnelId : Z) (peer deviceKey deviceName : string) (initiator : bool)
| CloseSession (handle : nat)
| OpenResolved (promise : nat)
| OpenRejected (promise : nat) (error : string)
| PostResolved (promise : nat) (status : string)
| PostRejected (promise : nat) (error : string).

Record client := mk_client {
  loop : loop_state;
  snap : snapshot;
  box : mailbox;
  out : sender control;
  tab : table;
  ourPeerId : string;
  ourDeviceId : string;
  host : string;
  maxMailBody : Z;
  pingN : Z;
  pingSent : option (Z * Z);
  log : list effect
}.

#[export] Instance client_rebuild : Rebuild client := fun c =>
  mk_client (loop c) (snap c) (box c) (out c) (tab c) (ourPeerId c) (ourDeviceId c) (host c) (maxMailBody c)
    (pingN c) (pingSent c) (log c).

Definition snapshotFromConfig (enabled : bool) (relayUrl : string) : snapshot :=
  mk_snapshot enabled relayUrl (if enabled then Connecting else Disabled) "" "" None None None 0 [] [] false.

Definition empty_table : table := mk_table ∅ ∅ ∅ ∅ ∅ ∅ ∅ 1 0 0 0 MAX_TUNNELS.

(** The constructor. *)
Definition new_client (e : env) : client :=
  mk_client (mk_loop NotStarted true (defaultRelayUrl e) BACKOFF_MIN_MS false false false false)
    (snapshotFromConfig true (defaultRelayUrl e)) (mk_mailbox [] ∅) (mk_sender None 0 [] [] [] false)
    empty_table "" "" "" DEFAULT_MAX_MAIL_BODY 1 None [].

Definition emit (l : list effect) (c : client) : client := c <| log := log c ++ l |>.

(** ** Status *)

Definition getStatus (c : client) : snapshot := snap c <| s_yielded := yielded (loop c) |>.

Definition emitStatus (c : client) : client := emit [Status (getStatus c)] c.

Definition offline_fields (st : rstate) (s : snapshot) : snapshot :=
  if bool_decide (st = Online) then s
  else s <| connectedAt := None |> <| s_tunnels := 0%nat |> <| onlinePeers := [] |>.

Definition error_fields (st : rstate) (error : string) (s : snapshot) : snapshot :=
  if bool_decide (st = Online) || bool_decide (st = Disabled) then s <| lastError := None |>
  else if bool_decide (error <> "") then s <| lastError := Some error |>
  else s.

(** [error] is empty when the argument is missing. *)
Definition setState (st : rstate) (error : string) (c : client) : client :=
  let s1 := snap c <| s_state := st |> <| s_yielded := yielded (loop c) |> in
  emitStatus (c <| snap := error_fields st error (offline_fields st s1) |>).

(** ** Sending *)

Section client.
Context `{Crypto} `{Ed25519}.

Definition control_size (e : env) (c : control) : Z := json_bytes e (control_json c).

(** [this.sendJson(value)]: what its flush throws goes to nobody. *)
Definition send (e : env) (m : control) (c : client) : client :=
  c <| out := sendJson (control_size e) (stack_depth e) m (out c) |>.

Definition closeSocket (c : client) : client := c <| out := drop_socket (out c) |>.

Definition sendWatch (e : env) (c : client) : client :=
  send e (CWatch (take MAX_WATCH_PEERS (getWatchIds e))) c.

Definition refreshWatch (e : env) (c : client) : client :=
  if bool_decide (s_state (snap c) = Online) then sendWatch e c else c.

(** ** Tunnels *)

Definition ownDeviceKey (c : client) : string :=
  if isValidDeviceId (Some (ourDeviceId c)) then ourDeviceId c else LEGACY_DEVICE_KEY.

(** A tunnel of the map belongs to the device. *)
Definition has_tunnel (t : table) (peer key : string) : bool :=
  existsb (fun entry : Z * nat =>
    match handles t !! entry.2 with
    | Some h => bool_decide (h_peer h = peer) && bool_decide (h_device h = key)
    | None => false
    end) (map_to_list (tunnels t)).

Definition hasBoundSession (e : env) (t : table) (peer deviceKey : string) : bool :=
  match hasSession e with
  | Some f => f peer deviceKey
  | None => match hasPeer e with Some f => f peer | None => false end
  end
  || has_tunnel t peer (normalizeDeviceKey (Some deviceKey)).

Definition sessionOccupied (e : env) (t : table) (peer deviceKey : string) : bool :=
  bool_decide (sessionKey peer (Some deviceKey) ∈ openingKeys t) || hasBoundSession e t peer deviceKey.

Definition known_devices (t : table) (peer : string) : list device := default [] (remoteDevices t !! peer).

Definition deviceNameOf (t : table) (peer deviceKey : string) : string :=
  let key := normalizeDeviceKey (Some deviceKey) in
  match find (fun d => bool_decide (device_id d = key)) (known_devices t peer) with
  | Some d => device_name d
  | None => ""
  end.

Definition rememberRemoteDevice (peer deviceKey deviceName : string) (t : table) : table :=
  let key := normalizeDeviceKey (Some deviceKey) in
  if bool_decide (key = LEGACY_DEVICE_KEY) then t
  else
    let list := known_devices t peer in
    if existsb (fun d => bool_decide (device_id d = key)) list then t
    else t <| remoteDevices := <[peer := list ++ [mk_device key deviceName]]> (remoteDevices t) |>.

Definition count_tunnels (c : client) : client :=
  emitStatus (c <| snap := snap c <| s_tunnels := size (tunnels (tab c)) |> |>).

(** [bindTunnel] up to the call of [attachTunnel]; [promise] is resolved or rejected with it. *)
Definition bindTunnel (tunnelId : Z) (peer : string) (initiator : bool) (deviceKey deviceName : string)
    (promise : option nat) (c : client) : client :=
  let key := normalizeDeviceKey (Some deviceKey) in
  let t := tab c in
  let uid := nextHandle t in
  let t' := t <| handles := <[uid := mk_handle tunnelId peer key deviceName false [] []]> (handles t) |>
              <| tunnels := <[tunnelId := uid]> (tunnels t) |>
              <| attaching := <[uid := mk_attachment tunnelId promise]> (attaching t) |>
              <| nextHandle := S uid |> in
  emit [AttachTunnel uid tunnelId peer key deviceName initiator] (count_tunnels (c <| tab := t' |>)).

Definition closeSession (c : client) (uid : nat) : list effect :=
  match handles (tab c) !! uid with
  | Some h => if h_ready h then [CloseSession uid] else []
  | None => []
  end.

Definition closeLocalTunnel (tunnelId : Z) (c : client) : client :=
  match tunnels (tab c) !! tunnelId with
  | None => c
  | Some uid =>
      let c' := c <| tab := tab c <| tunnels := delete tunnelId (tunnels (tab c)) |> |> in
      count_tunnels (emit (closeSession c uid) c')
  end.

(** [onReady] of [bindTunnel]: the handle is ready, whether or not it is still in the map. *)
Definition attach_ready (uid : nat) (c : client) : client :=
  match handles (tab c) !! uid with
  | None => c
  | Some h =>
      let h' := h <| h_ready := true |> <| h_pushed := h_pushed h ++ h_queue h |> <| h_queue := [] |> in
      c <| tab := tab c <| handles := <[uid := h']> (handles (tab c)) |> |>
  end.

(** [attachTunnel] has returned, or has thrown. *)
Definition attach_done (uid : nat) (c : client) : client :=
  match attaching (tab c) !! uid with
  | None => c
  | Some a =>
      let c1 := c <| tab := tab c <| attaching := delete uid (attaching (tab c)) |> |> in
      match a_promise a with Some p => emit [OpenResolved p] c1 | None => c1 end
  end.

Definition attach_failed (uid : nat) (error : string) (c : client) : client :=
  match attaching (tab c) !! uid with
  | None => c
  | Some a =>
      let c1 := c <| tab := tab c <| attaching := delete uid (attaching (tab c)) |> |> in
      let c2 := closeLocalTunnel (a_tunnel a) c1 in
      match a_promise a with Some p => emit [OpenRejected p error] c2 | None => c2 end
  end.

Definition handleBinary (data : bytes) (c : client) : client :=
  match decodeTunnelFrame data with
  | None => c
  | Some (tunnelId, payload) =>
      if Nat.ltb MAX_TUNNEL_PAYLOAD (length payload) then closeLocalTunnel tunnelId c
      else
        match tunnels (tab c) !! tunnelId with
        | None => c
        | Some uid =>
            match handles (tab c) !! uid with
            | None => c
            | Some h =>
                let h' := if h_ready h then h <| h_pushed := h_pushed h ++ [payload] |>
                          else h <| h_queue := h_queue h ++ [payload] |> in
                c <| tab := tab c <| handles := <[uid := h']> (handles (tab c)) |> |>
            end
        end
  end.

Definition id_free (t : table) (id : Z) : bool :=
  negb (Z.eqb id 0) && bool_decide (tunnels t !! id = None) && bool_decide (pendingOpen t !! id = None).

(** [(n + 1) || 1] *)
Definition successor (n : Z) : Z := if Z.eqb (n + 1) 0 then 1 else n + 1.

(** The loop of [allocTunnelId]: the id and the next one to try. *)
Fixpoint alloc_loop (tries : nat) (t : table) (next : Z) : Z * Z :=
  match tries with
  | O => (1, next)
  | S tries' => if id_free t next then (next, successor next) else alloc_loop tries' t (successor next)
  end.

(** The code tries 2^32 - 1 ids; [alloc_fresh] shows that one more than are taken is enough. *)
Definition alloc_tries (t : table) : nat := S (size (tunnels t) + size (pendingOpen t)).

Definition allocTunnelId (t : table) : Z * table :=
  let '(id, next) := alloc_loop (alloc_tries t) t (nextTunnelId t) in (id, t <| nextTunnelId := next |>).

(** The promise that is returned, or the error it is rejected with at once. *)
Definition startOpen (e : env) (target deviceKey : string) (c : client) : res nat * client :=
  let remoteKey := normalizeDeviceKey (Some deviceKey) in
  if Nat.leb MAX_PENDING_OPENS (size (pendingOpen (tab c)))
     || Z.leb (maxTunnels (tab c)) (Z.of_nat (size (tunnels (tab c))))
  then (Err "Zu viele Cloud-Tunnel.", c)
  else if sessionOccupied e (tab c) target remoteKey
  then (Err "Cloud-Tunnel zu diesem Gerät läuft bereits.", c)
  else
    let '(id, t) := allocTunnelId (tab c) in
    let promise := nextOpen t in
    let t' := t <| openingKeys := {[ sessionKey target (Some remoteKey) ]} ∪ openingKeys t |>
                <| pendingOpen := <[id := mk_pending target remoteKey promise]> (pendingOpen t) |>
                <| nextOpen := S promise |> in
    let device := if bool_decide (remoteKey <> LEGACY_DEVICE_KEY) then Some remoteKey else None in
    (Ok promise, send e (COpen id target device) (c <| tab := t' |>)).

Definition maybeOpen (e : env) (peer deviceKey : string) (c : client) : client :=
  let remoteKey := normalizeDeviceKey (Some deviceKey) in
  if sessionOccupied e (tab c) peer remoteKey then c
  else if negb (shouldOpenTunnel (ourPeerId c) (Some (ownDeviceKey c)) peer (Some remoteKey)) then c
  else snd (startOpen e peer remoteKey c).

(** The devices of [openPeer] that are not occupied, in order; the promise of the first. *)
Fixpoint open_devices (e : env) (target : string) (known : list device) (first : option (res nat)) (c : client)
    : option (res nat) * client :=
  match known with
  | [] => (first, c)
  | d :: rest =>
      if sessionOccupied e (tab c) target (device_id d) then open_devices e target rest first c
      else
        let '(opened, c1) := startOpen e target (device_id d) c in
        open_devices e target rest (match first with Some f => Some f | None => Some opened end) c1
  end.

(** [Ok None] is a promise of null. *)
Definition one_open (e : env) (target key : string) (c : client) : res (option nat) * client :=
  if sessionOccupied e (tab c) target key then (Ok None, c)
  else
    match startOpen e target key c with
    | (Ok p, c') => (Ok (Some p), c')
    | (Err m, c') => (Err m, c')
    end.

Definition openPeer (e : env) (peerId deviceId : string) (c : client) : res (option nat) * client :=
  let target := trim peerId in
  if bool_decide (target = "") then (Err "peerId fehlt", c)
  else if negb (bool_decide (s_state (snap c) = Online)) then (Err "Cloud ist nicht online.", c)
  else if bool_decide (deviceId = "") then
    match remoteDevices (tab c) !! target with
    | Some (d :: known) =>
        match open_devices e target (d :: known) None c with
        | (None, c') => (Ok None, c')
        | (Some (Ok p), c') => (Ok (Some p), c')
        | (Some (Err m), c') => (Err m, c')
        end
    | _ => one_open e target LEGACY_DEVICE_KEY c
    end
  else one_open e target (normalizeDeviceKey (Some deviceId)) c.

(** A [pendingOpen] entry that ends. *)
Definition forget_pending (tunnelId : Z) (p : pending) (t : table) : table :=
  t <| pendingOpen := delete tunnelId (pendingOpen t) |>
    <| openingKeys := openingKeys t ∖ {[ sessionKey (p_peer p) (Some (p_device p)) ]} |>.

(** ** Messages of the relay *)

(** A non-empty string field. *)
Definition text_field (v : json) (name : string) : option string :=
  match prop (Some v) name with Some (JStr s) => truthy_str (Some s) | _ => None end.

(** [Number(value.tunnel)]: 0 also for [NaN], which every reader treats alike. *)
Definition tunnel_field (v : json) : Z := default 0 (to_number (prop (Some v) "tunnel")).

Definition device_item_of (v : json) : device_item :=
  match v with
  | JStr s => DeviceString s
  | JObj _ => DeviceObject (Some (string_or_empty (prop (Some v) "id"))) (Some (string_or_empty (prop (Some v) "name")))
  | _ => DeviceOther
  end.

Definition devices_field (v : json) : option (list device_item) :=
  option_map (map device_item_of) (as_array (prop (Some v) "devices")).

Definition handleOwnDevices (v : json) (c : client) : client :=
  emitStatus (c <| snap := snap c <| ownDevices := parseDeviceList (devices_field v) |> |>).

Definition handleSync (v : json) (c : client) : client :=
  emit [SyncAnnounced (default JNull (prop (Some v) "latestSeq"))] c.

Definition open_all (e : env) (peer : string) (devices : list device) (c : client) : client :=
  fold_left (fun c d => maybeOpen e peer (device_id d) c) devices c.

Definition note_presence (peer : string) (online : bool) (devices : list device) (c : client) : client :=
  let s := snap c in
  if online then
    c <| snap := s <| onlinePeers := if includes (onlinePeers s) peer then onlinePeers s else onlinePeers s ++ [peer] |> |>
      <| tab := tab c <| remoteDevices := <[peer := devices]> (remoteDevices (tab c)) |> |>
  else
    c <| snap := s <| onlinePeers := filter (fun id => id <> peer) (onlinePeers s) |> |>
      <| tab := tab c <| remoteDevices := delete peer (remoteDevices (tab c)) |> |>.

Definition handlePresence (e : env) (v : json) (c : client) : client :=
  match text_field v "peerId" with
  | None => c
  | Some peer =>
      let online := truthy (prop (Some v) "online") in
      let devices := remoteDevicesFromPresence online (devices_field v) in
      let c1 := emit [PresenceChanged peer online devices] (emitStatus (note_presence peer online devices c)) in
      if negb online || isBlocked e peer || bool_decide (peer = ourPeerId c1) then c1
      else open_all e peer devices c1
  end.

Definition handleIncoming (e : env) (v : json) (c : client) : client :=
  let tunnelId := tunnel_field v in
  let from := string_or_empty (prop (Some v) "from") in
  let deviceKey := normalizeDeviceKey (Some (string_or_empty (prop (Some v) "fromDevice"))) in
  let c1 := c <| tab := rememberRemoteDevice from deviceKey "" (tab c) |> in
  if Z.eqb tunnelId 0 || bool_decide (from = "") || bool_decide (from = ourPeerId c1) || isBlocked e from
     || hasBoundSession e (tab c1) from deviceKey || Z.leb (maxTunnels (tab c1)) (Z.of_nat (size (tunnels (tab c1))))
  then send e (CReject (to_number (prop (Some v) "tunnel"))) c1
  else
    bindTunnel tunnelId from false deviceKey (deviceNameOf (tab c1) from deviceKey) None (send e (CAccept tunnelId) c1).

Definition handleOpened (v : json) (c : client) : client :=
  let tunnelId := tunnel_field v in
  match pendingOpen (tab c) !! tunnelId with
  | None => c
  | Some p =>
      let c1 := c <| tab := forget_pending tunnelId p (tab c) |> in
      bindTunnel tunnelId (p_peer p) true (p_device p) (deviceNameOf (tab c1) (p_peer p) (p_device p))
        (Some (p_promise p)) c1
  end.

Definition open_failed_text (code : string) : string := "Cloud-Tunnel fehlgeschlagen (" +:+ code +:+ ")".

Definition handleOpenFailed (v : json) (c : client) : client :=
  let tunnelId := tunnel_field v in
  match pendingOpen (tab c) !! tunnelId with
  | None => c
  | Some p =>
      emit [OpenRejected (p_promise p) (open_failed_text (default "failed" (text_field v "code")))]
        (c <| tab := forget_pending tunnelId p (tab c) |>)
  end.

(** [closeLocalTunnel(value.tunnel, ...)]: the id is not converted to a number. *)
Definition handleClosed (v : json) (c : client) : client :=
  match prop (Some v) "tunnel" with Some (JNum id) => closeLocalTunnel id c | _ => c end.

(** ** Mail *)

Definition accept_mail (item : mail_item) (b : mailbox) : bool :=
  negb (bool_decide (is_Some (inFlight b !! mail_id item)))
  && negb (existsb (fun i => bool_decide (mail_id i = mail_id item)) (mail b)).

Definition handleMail (v : json) (c : client) : client :=
  match text_field v "id", text_field v "from" with
  | Some id, Some from =>
      let item := mk_mail id from (number_or_zero (prop (Some v) "ts")) (default JNull (prop (Some v) "body")) in
      if negb (accept_mail item (box c)) then c
      else emit [MailArrived id from (mail_ts item)] (c <| box := box c <| mail := mail (box c) ++ [item] |> |>)
  | _, _ => c
  end.

Definition drainMail (c : client) : list mail_item * client :=
  let items := mail (box c) in
  (items, c <| box := mk_mailbox [] (fold_left (fun m i => <[mail_id i := i]> m) items (inFlight (box c))) |>).

Definition clean_ids (ids : list string) : list string :=
  take 500 (filter (fun id => id <> "" /\ (String.length id <= 128)%nat) (map trim ids)).

Definition forget_mail (b : mailbox) (id : string) : mailbox :=
  mk_mailbox (filter (fun i => mail_id i <> id) (mail b)) (delete id (inFlight b)).

Definition ackMail (e : env) (ids : list string) (c : client) : client :=
  match clean_ids ids with
  | [] => c
  | cleaned => send e (CAck cleaned) (c <| box := fold_left forget_mail cleaned (box c) |>)
  end.

(** [body] is [None] when it is undefined. *)
Definition postMail (e : env) (peerId : string) (body : option json) (id : string) (c : client) : res nat * client :=
  let to := trim peerId in
  if bool_decide (to = "") then (Err "peerId fehlt", c)
  else if negb (bool_decide (s_state (snap c) = Online)) then (Err "Cloud ist nicht online.", c)
  else if Z.ltb (maxMailBody c) (json_bytes e (default JNull body))
  then (Err "Nachricht ist zu groß für das Postfach.", c)
  else
    let postId := mailPostId e id in
    let promise := nextPost (tab c) in
    let t := tab c <| pendingPost := <[postId := promise]> (pendingPost (tab c)) |> <| nextPost := S promise |> in
    (Ok promise, send e (CPost postId to body) (c <| tab := t |>)).

(** The promise of [value.id], if there is one, and the table without it. *)
Definition settle_post (v : json) (outcome : nat -> effect) (c : client) : client :=
  match prop (Some v) "id" with
  | Some (JStr id) =>
      match pendingPost (tab c) !! id with
      | Some p => emit [outcome p] (c <| tab := tab c <| pendingPost := delete id (pendingPost (tab c)) |> |>)
      | None => c
      end
  | _ => c
  end.

Definition handlePosted (v : json) (c : client) : client :=
  settle_post v (fun p => PostResolved p (default "stored" (text_field v "status"))) c.

Definition handlePostFailed (v : json) (c : client) : client :=
  settle_post v (fun p => PostRejected p ("Postfach abgelehnt (" +:+ default "failed" (text_field v "code") +:+ ")")) c.

Definition handlePong (e : env) (v : json) (c : client) : client :=
  match pingSent c, prop (Some v) "n" with
  | Some (n, at_), Some (JNum m) =>
      if Z.eqb m n
      then emitStatus (c <| snap := snap c <| latencyMs := Some (now e - at_) |> |> <| pingSent := None |>)
      else c
  | _, _ => c
  end.

Definition fatal (code : string) : bool :=
  bool_decide (code = "replaced") || bool_decide (code = "auth_failed") || bool_decide (code = "auth_timeout").

(** The [switch] of [runSession]: the client, or the message of the error it throws. *)
Definition session_message (e : env) (v : json) (c : client) : option string * client :=
  match text_field v "t" with
  | Some "pong" => (None, handlePong e v c)
  | Some "presence" => (None, handlePresence e v c)
  | Some "devices" => (None, handleOwnDevices v c)
  | Some "sync" => (None, handleSync v c)
  | Some "incoming" => (None, handleIncoming e v c)
  | Some "opened" => (None, handleOpened v c)
  | Some "open_failed" => (None, handleOpenFailed v c)
  | Some "closed" => (None, handleClosed v c)
  | Some "mail" => (None, handleMail v c)
  | Some "posted" => (None, handlePosted v c)
  | Some "post_failed" => (None, handlePostFailed v c)
  | Some "error" =>
      let code := default "error" (text_field v "code") in
      if fatal code then (Some code, c) else (None, c)
  | _ => (None, c)
  end.

(** ** The connection loop *)

Definition TORN_TUNNEL : string := "Cloud-Tunnel wurde unterbrochen.".
Definition TORN_MAIL : string := "Cloud-Postfach wurde unterbrochen.".

(** What [tearDownTunnels] calls; the order within a map is that of its keys here. *)
Definition tear_effects (c : client) : list effect :=
  concat (map (fun entry : Z * nat => closeSession c entry.2) (map_to_list (tunnels (tab c))))
  ++ map (fun entry : Z * pending => OpenRejected (p_promise entry.2) TORN_TUNNEL) (map_to_list (pendingOpen (tab c)))
  ++ map (fun entry : string * nat => PostRejected entry.2 TORN_MAIL) (map_to_list (pendingPost (tab c))).

Definition tearDownTunnels (c : client) : client :=
  emit (tear_effects c)
    (c <| tab := tab c <| tunnels := ∅ |> <| pendingOpen := ∅ |> <| openingKeys := ∅ |> <| remoteDevices := ∅ |>
                  <| pendingPost := ∅ |> |>
       <| snap := snap c <| s_tunnels := 0%nat |> <| onlinePeers := [] |> <| connectedAt := None |>
                    <| latencyMs := None |> |>
       <| out := clear_queues (out c) |>).

(** The [finally] of [runSession]. *)
Definition session_finally (c : client) : client := closeSocket (tearDownTunnels c).

Definition at_loop (p : phase) (c : client) : client := c <| loop := loop c <| at_phase := p |> |>.

(** [runSession] up to its first wait; the error it throws before. *)
Definition open_session (e : env) (c : client) : option string * client :=
  match parseRelayUrl e (relayUrl (loop c)) with
  | Err m => (Some m, c)
  | Ok u =>
      let c1 := c <| host := authHost u |> in
      match getIdentity e with
      | None => (Some "identity unavailable", c1)
      | Some me => (None, at_loop (AwaitHello me) (c1 <| out := new_socket (out c1) |>))
      end
  end.

(** [Math.floor(Math.random() * Math.max(1, backoffMs / 4))] *)
Definition jitter (e : env) (backoff : Z) : Z := random53 e * Z.max 4 backoff / (4 * 2 ^ 53).

(** [message.includes(text)] *)
Fixpoint str_contains (needle s : string) : bool :=
  starts_with needle s || match s with EmptyString => false | String _ rest => str_contains needle rest end.

(** The [catch] of [runLoop]; [true] means that the loop goes on without a pause. *)
Definition session_failed (e : env) (message : string) (c : client) : bool * client :=
  if stopped (loop c) then (false, at_loop Finished c)
  else if reconfigure (loop c) then
    (true, c <| loop := loop c <| reconfigure := false |> <| backoffMs := BACKOFF_MIN_MS |> |>)
  else if yielded (loop c) then (true, setState Offline "" c)
  else if bool_decide (message = "replaced") then
    (true, setState Replaced "replaced" (c <| loop := loop c <| replaced := true |> |>))
  else
    let next := if str_contains "auth_failed" message || str_contains "auth_timeout" message then ErrorState else Offline in
    let c1 := setState next message c in
    let backoff := backoffMs (loop c1) in
    (false, at_loop (Sleeping (backoff + jitter e backoff))
              (c1 <| loop := loop c1 <| backoffMs := Z.min (backoff * 2) BACKOFF_MAX_MS |> |>)).

(** [runLoop] from the head of its loop to the next wait. *)
Fixpoint run_loop (turns : nat) (e : env) (c : client) : client :=
  match turns with
  | O => at_loop LoopHead c
  | S turns' =>
      if stopped (loop c) then at_loop Finished c
      else if negb (enabled (loop c)) then at_loop WaitingForWake (setState Disabled "" c)
      else if yielded (loop c) then at_loop WaitingForWake (setState Offline "" c)
      else if replaced (loop c) then at_loop WaitingForWake (setState Replaced "replaced" c)
      else
        match open_session e (setState Connecting "" c) with
        | (None, c1) => c1
        | (Some message, c1) =>
            let '(again, c2) := session_failed e message c1 in
            if again then run_loop turns' e c2 else c2
        end
  end.

(** At most one turn of the loop goes on without a pause ([run_loop_settles]). *)
Definition LOOP_TURNS : nat := 3.

Definition continue_loop (e : env) (c : client) : client := run_loop LOOP_TURNS e c.

(** [runSession] throws, or returns. *)
Definition session_throws (e : env) (message : string) (c : client) : client :=
  let '(again, c1) := session_failed e message (session_finally c) in
  if again then continue_loop e c1 else c1.

Definition session_returns (e : env) (c : client) : client :=
  let c1 := session_finally c in
  continue_loop e (c1 <| loop := loop c1 <| backoffMs := BACKOFF_MIN_MS |> |>).

Definition start (e : env) (c : client) : client :=
  match at_phase (loop c) with
  | NotStarted => continue_loop e (c <| loop := loop c <| stopped := false |> |>)
  | _ => c
  end.

Definition wake (e : env) (c : client) : client :=
  match at_phase (loop c) with
  | WaitingForWake | Sleeping _ => continue_loop e c
  | _ => c
  end.

Definition set_flags (replaced' yielded' reconfigure' : bool) (c : client) : client :=
  c <| loop := loop c <| replaced := replaced' |> <| yielded := yielded' |> <| reconfigure := reconfigure' |> |>.

Definition reconnect (e : env) (c : client) : client :=
  wake e (closeSocket (set_flags false (yielded (loop c)) true c)).

(** The status it returns is that before the loop goes on. *)
Definition setConfig (e : env) (enabled' : option bool) (relayUrl' : option string) (c : client) : res client :=
  let on := default (enabled (loop c)) enabled' in
  let address := match relayUrl' with
                 | Some s => if bool_decide (trim s = "") then defaultRelayUrl e else trim s
                 | None => relayUrl (loop c)
                 end in
  let? _ := parseRelayUrl e address in
  Ok (reconnect e
        (c <| loop := loop c <| enabled := on |> <| relayUrl := address |> <| replaced := false |> <| yielded := false |> |>
           <| snap := snap c <| s_enabled := on |> <| s_relayUrl := address |> <| s_yielded := false |> |>)).

Definition takeover (e : env) (c : client) : client :=
  let c1 := set_flags false false true c in
  let c2 := c1 <| snap := snap c1 <| s_yielded := false |> |> <| loop := loop c1 <| backoffMs := BACKOFF_MIN_MS |> |> in
  wake e (start e (closeSocket c2)).

Definition yieldToOtherTab (e : env) (c : client) : client :=
  let c1 := set_flags false true (reconfigure (loop c)) c in
  wake e (setState Offline "" (closeSocket (c1 <| snap := snap c1 <| s_yielded := true |> |>))).

Definition stop (c : client) : client :=
  setState Offline "" (closeSocket (c <| loop := loop c <| stopped := true |> |>)).

(** ** A session *)

Definition truncate64 (s : string) : string := str_take 64 s.

Definition or_text (s fallback : string) : string := if bool_decide (s = "") then fallback else s.

(** The message after which the client answers the challenge. *)
Definition hello_message (e : env) (me : identity) (v : json) (c : client) : option string * client :=
  match bool_decide (text_field v "t" = Some "hello"), text_field v "nonce" with
  | true, Some nonce =>
      let name := truncate64 (or_text (getDisplayName e) "BlueTalk user") in
      let signature := signRelayAuth me nonce (host c) in
      let device := trim (getDeviceId e) in
      let deviceName := truncate64 (getDeviceName e) in
      let valid := isValidDeviceId (Some device) in
      let c1 := c <| ourDeviceId := if valid then device else "" |> in
      let auth := CAuth (publicKeyB64 me) (bytesToB64 signature) name
                    (if valid then Some device else None)
                    (if valid then truthy_str (Some deviceName) else None) in
      (None, at_loop (AwaitReady me) (send e auth c1))
  | _, _ => (Some "unerwartete Relay-Begrüßung", c)
  end.

Definition limit_field (v : json) (name : string) (fallback : Z) : Z :=
  match prop (prop (Some v) "limits") name with
  | Some (JNum n) => if Z.eqb n 0 then fallback else n
  | _ => fallback
  end.

Definition ready_snapshot (e : env) (v : json) (c : client) : snapshot :=
  snap c <| s_peerId := ourPeerId c |> <| s_device := ourDeviceId c |>
    <| ownDevices := parseDeviceList (devices_field v) |> <| connectedAt := Some (now e) |> <| lastError := None |>
    <| latencyMs := None |> <| onlinePeers := [] |> <| s_tunnels := 0%nat |> <| s_state := Online |>
    <| s_enabled := true |> <| s_relayUrl := relayUrl (loop c) |> <| s_yielded := false |>.

(** The maps are made anew. *)
Definition fresh_table (limit : Z) (t : table) : table :=
  t <| tunnels := ∅ |> <| pendingOpen := ∅ |> <| openingKeys := ∅ |> <| remoteDevices := ∅ |> <| pendingPost := ∅ |>
    <| nextTunnelId := 1 |> <| maxTunnels := limit |>.

Definition ready_message (e : env) (me : identity) (v : json) (c : client) : option string * client :=
  if negb (bool_decide (text_field v "t" = Some "ready")) then (Some (default "auth_failed" (text_field v "code")), c)
  else
    let device := default (ourDeviceId c) (text_field v "device") in
    let c1 := c <| ourPeerId := default (peerId me) (text_field v "peerId") |>
                <| ourDeviceId := if isValidDeviceId (Some device) then device else ourDeviceId c |>
                <| maxMailBody := limit_field v "maxMailBody" DEFAULT_MAX_MAIL_BODY |>
                <| box := box c <| inFlight := ∅ |> |> in
    let c2 := sendWatch e (emitStatus (c1 <| snap := ready_snapshot e v c1 |>)) in
    (None, at_loop InSession
             (c2 <| tab := fresh_table (limit_field v "maxTunnels" MAX_TUNNELS) (tab c2) |>
                 <| pingN := 1 |> <| pingSent := None |>)).

Inductive message := MJson (v : json) | MBinary (data : bytes).

(** The loop of [runSession] goes on while the socket is the client's and open. *)
Definition after_message (e : env) (r : option string * client) : client :=
  match r with
  | (Some error, c) => session_throws e error c
  | (None, c) => if is_open (out c) then c else session_returns e c
  end.

Definition after_step (e : env) (r : option string * client) : client :=
  match r with (Some error, c) => session_throws e error c | (None, c) => c end.

Definition on_message (e : env) (m : message) (c : client) : client :=
  match at_phase (loop c) with
  | AwaitHello me =>
      after_step e (match m with MJson v => hello_message e me v c | MBinary _ => (Some "ungültige Relay-Nachricht", c) end)
  | AwaitReady me =>
      match m with
      | MJson v =>
          match ready_message e me v c with
          | (Some error, c') => session_throws e error c'
          | (None, c') => if is_open (out c') then c' else session_returns e c'
          end
      | MBinary _ => session_throws e "ungültige Relay-Nachricht" c
      end
  | InSession =>
      after_message e (match m with MJson v => session_message e v c | MBinary data => (None, handleBinary data c) end)
  | _ => c
  end.

Definition CLOSED_BY_RELAY : string := "Relay hat die Verbindung geschlossen.".
Definition SOCKET_ERROR : string := "Relay-Verbindung fehlgeschlagen.".
Definition NO_ANSWER : string := "Relay antwortet nicht.".

(** The [close] or [error] event of the socket. *)
Definition on_closed (e : env) (reason : string) (c : client) : client :=
  match at_phase (loop c) with
  | AwaitHello _ | AwaitReady _ | InSession => session_throws e reason c
  | _ => c
  end.

Definition on_timeout (e : env) (c : client) : client :=
  match at_phase (loop c) with
  | AwaitHello _ | AwaitReady _ => session_throws e NO_ANSWER c
  | _ => c
  end.

Definition on_ping (e : env) (c : client) : client :=
  match at_phase (loop c) with
  | InSession =>
      let n := successor (pingN c) in
      send e (CPing n) (c <| pingN := n |> <| pingSent := Some (n, now e) |>)
  | _ => c
  end.

Definition on_timer (e : env) (c : client) : client :=
  match at_phase (loop c) with Sleeping _ => continue_loop e c | _ => c end.

(** [send] of a tunnel's handle, which the session on it keeps even after the tunnel is gone. *)
Definition tunnel_send (e : env) (uid : nat) (payload : bytes) (c : client) : client :=
  match handles (tab c) !! uid with
  | Some h => c <| out := (sendBinary (control_size e) (stack_depth e) (h_tunnel h) payload (out c)).2 |>
  | None => c
  end.

(** ** Events *)

Inductive event :=
| EvStart | EvSetConfig (enabled' : option bool) (relayUrl' : option string) | EvReconnect | EvTakeover | EvYield | EvStop
| EvReadyState (st : ready_state)          (* the browser changes the state of the socket *)
| EvMessage (m : message) | EvClosed (reason : string) | EvTimeout | EvTimer | EvPing | EvPoll | EvDrain (amount : Z)
| EvAttachReady (handle : nat) | EvAttached (handle : nat) | EvAttachFailed (handle : nat) (error : string)
| EvSend (handle : nat) (payload : bytes)
| EvOpenPeer (peerId deviceId : string) | EvPostMail (peerId : string) (body : option json) (id : string)
| EvDrainMail | EvAckMail (ids : list string) | EvRefreshWatch.

Definition step (e : env) (ev : event) (c : client) : client :=
  match ev with
  | EvStart => start e c
  | EvSetConfig on address => match setConfig e on address c with Ok c' => c' | Err _ => c end
  | EvReconnect => reconnect e c
  | EvTakeover => takeover e c
  | EvYield => yieldToOtherTab e c
  | EvStop => stop c
  | EvReadyState st =>
      match readyState (out c) with Some _ => c <| out := out c <| readyState := Some st |> |> | None => c end
  | EvMessage m => on_message e m c
  | EvClosed reason => on_closed e reason c
  | EvTimeout => on_timeout e c
  | EvTimer => on_timer e c
  | EvPing => on_ping e c
  | EvPoll => c <| out := (flush_poll (control_size e) (stack_depth e) (out c)).2 |>
  | EvDrain amount => c <| out := out c <| bufferedAmount := amount |> |>
  | EvAttachReady uid => attach_ready uid c
  | EvAttached uid => attach_done uid c
  | EvAttachFailed uid error => attach_failed uid error c
  | EvSend uid payload => tunnel_send e uid payload c
  | EvOpenPeer peer device => (openPeer e peer device c).2
  | EvPostMail peer body id => (postMail e peer body id c).2
  | EvDrainMail => (drainMail c).2
  | EvAckMail ids => ackMail e ids c
  | EvRefreshWatch => refreshWatch e c
  end.

(** The states a client comes to.  The environment may differ from event to event;
    [Math.random()] is at least 0 and less than 1. *)
Inductive reach : client -> Prop :=
| reach_new e : reach (new_client e)
| reach_step e ev c : reach c -> 0 <= random53 e < 2 ^ 53 -> reach (step e ev c).

End client.
