(* ===== verification/RelayFacts.v ===== *)
(** * The relay client: theorems ([relayClient.js])

    The connection loop always comes to rest; tunnels, promises and mail are accounted for
    after every history of events; presence opens what it should; bytes cross the relay in
    order; and the behaviours that break this. *)

From S2P Require Import Prelude Bytes Json Records Identity SessionMap RelaySend Relay.

Section facts.
Context `{Crypto} `{Ed25519}.
Implicit Types (e : env) (c : client) (t : table).

(** ** Allocation of tunnel ids *)

Lemma id_free_spec t id : id_free t id = true <-> id <> 0 /\ tunnels t !! id = None /\ pendingOpen t !! id = None.
Proof.
  unfold id_free. rewrite !andb_true_iff, negb_true_iff, Z.eqb_neq, !bool_decide_eq_true. tauto.
Qed.

(** The loop returns the first free id, and gives up only when all it tried are taken. *)
Lemma alloc_loop_spec tries t : forall next, 0 < next ->
  (exists k, (k < tries)%nat /\ alloc_loop tries t next = (next + Z.of_nat k, next + Z.of_nat k + 1)
     /\ id_free t (next + Z.of_nat k) = true /\ forall j, (j < k)%nat -> id_free t (next + Z.of_nat j) = false)
  \/ (forall k, (k < tries)%nat -> id_free t (next + Z.of_nat k) = false).
Proof.
  induction tries as [|tries IH]; intros next Hn; [right; lia|]. simpl.
  assert (Hs : successor next = next + 1) by (unfold successor; case_match; bool_cases; lia).
  destruct (id_free t next) eqn:Hf.
  { left. exists 0%nat. rewrite Z.add_0_r, Hs. repeat split; try done; lia. }
  rewrite Hs. assert (Hstep : forall k, next + Z.of_nat (S k) = next + 1 + Z.of_nat k) by lia.
  destruct (IH (next + 1)) as [(k & Hk & Hl & Hfree & Hfirst)|Hall]; [lia| |].
  - left. exists (S k). rewrite Hl, Hstep. repeat split; [lia|done|].
    intros [|j] Hj; [by rewrite Z.add_0_r|]. rewrite Hstep. apply Hfirst. lia.
  - right. intros [|k] Hk; [by rewrite Z.add_0_r|]. rewrite Hstep. apply Hall. lia.
Qed.

(** One of more ids than are taken is free. *)
Lemma some_id_free t next : 0 < next -> exists k, (k < alloc_tries t)%nat /\ id_free t (next + Z.of_nat k) = true.
Proof.
  intros Hn. destruct (alloc_loop_spec (alloc_tries t) t next Hn) as [(k & Hk & _ & Hf & _)|Hall]; [by exists k|].
  exfalso. set (ids := (fun k => next + Z.of_nat k) <$> seq 0 (alloc_tries t)).
  assert (Hnd : NoDup ids) by (apply NoDup_fmap; [intros a b; lia|apply NoDup_seq]).
  assert (Hsub : (list_to_set ids : gset Z) ⊆ dom (tunnels t) ∪ dom (pendingOpen t)).
  { intros id Hin. apply elem_of_list_to_set in Hin. apply list_elem_of_fmap in Hin as (k & -> & Hk).
    apply elem_of_seq in Hk. specialize (Hall k ltac:(lia)). rewrite elem_of_union, !elem_of_dom.
    destruct (tunnels t !! (next + Z.of_nat k)) eqn:E1; [left; by eexists|].
    destruct (pendingOpen t !! (next + Z.of_nat k)) eqn:E2; [right; by eexists|].
    apply not_true_iff_false in Hall. rewrite id_free_spec in Hall. exfalso. apply Hall.
    repeat split; [lia|done..]. }
  apply subseteq_size in Hsub. rewrite size_list_to_set in Hsub by done.
  rewrite size_union_alt in Hsub.
  assert (Hd : (size (dom (pendingOpen t) ∖ dom (tunnels t)) <= size (dom (pendingOpen t)))%nat)
    by (apply subseteq_size; set_solver).
  rewrite !size_dom in *. unfold ids in Hsub. rewrite length_fmap, length_seq in Hsub. unfold alloc_tries in Hsub. lia.
Qed.

(** However many ids the loop may try beyond those, the result is the same free id. *)
Lemma alloc_fresh tries t next : 0 < next -> (alloc_tries t <= tries)%nat ->
  alloc_loop tries t next = alloc_loop (alloc_tries t) t next
  /\ next <= (alloc_loop tries t next).1 /\ (alloc_loop tries t next).2 = (alloc_loop tries t next).1 + 1
  /\ id_free t (alloc_loop tries t next).1 = true.
Proof.
  intros Hn Ht. destruct (some_id_free t next Hn) as (k & Hk & Hf).
  destruct (alloc_loop_spec tries t next Hn) as [(k1 & H1 & -> & F1 & M1)|Hall]; [|rewrite Hall in Hf by lia; done].
  destruct (alloc_loop_spec (alloc_tries t) t next Hn) as [(k2 & H2 & -> & F2 & M2)|Hall]; [|rewrite Hall in Hf by lia; done].
  assert (k1 = k2) as ->.
  { destruct (lt_eq_lt_dec k1 k2) as [[Hlt|]|Hlt]; [|done|].
    - specialize (M2 _ Hlt). congruence.
    - specialize (M1 _ Hlt). congruence. }
  cbn. repeat split; [lia|done].
Qed.

(** ** The table of tunnels *)

Definition opening_key (p : pending) : string := sessionKey (p_peer p) (Some (p_device p)).

Record table_inv (t : table) : Prop := {
  inv_next : 0 < nextTunnelId t;
  inv_pending_id id p : pendingOpen t !! id = Some p -> 0 < id < nextTunnelId t;
  inv_keys k : k ∈ openingKeys t <-> exists id p, pendingOpen t !! id = Some p /\ k = opening_key p;
  inv_one_open id1 id2 p1 p2 : pendingOpen t !! id1 = Some p1 -> pendingOpen t !! id2 = Some p2 ->
    opening_key p1 = opening_key p2 -> id1 = id2;
  inv_pending_size : (size (pendingOpen t) <= MAX_PENDING_OPENS)%nat;
  inv_size : Z.of_nat (size (tunnels t) + size (pendingOpen t)) <= Z.max 0 (maxTunnels t) + Z.of_nat MAX_PENDING_OPENS;
  inv_handle id uid : tunnels t !! id = Some uid -> exists h, handles t !! uid = Some h /\ h_tunnel h = id;
  inv_new uid : (nextHandle t <= uid)%nat -> handles t !! uid = None /\ attaching t !! uid = None;
  inv_ready uid h : handles t !! uid = Some h -> h_ready h = true -> h_queue h = []
}.

Lemma inv_empty : table_inv empty_table.
Proof.
  split; cbn; try done; try lia.
  - intros k. split; [set_solver|]. by intros (id & p & Hl & _).
  - rewrite !map_size_empty. lia.
Qed.

(** Only what the invariant mentions matters. *)
Lemma inv_same t t' : handles t' = handles t -> tunnels t' = tunnels t -> pendingOpen t' = pendingOpen t ->
  openingKeys t' = openingKeys t -> attaching t' = attaching t -> nextTunnelId t' = nextTunnelId t ->
  nextHandle t' = nextHandle t -> maxTunnels t' = maxTunnels t -> table_inv t -> table_inv t'.
Proof.
  intros E1 E2 E3 E4 E5 E6 E7 E8 [I1 I2 I3 I4 I5 I6 I7 I8 I9].
  split; rewrite ?E1, ?E2, ?E3, ?E4, ?E5, ?E6, ?E7, ?E8; assumption.
Qed.

Lemma inv_forget id p t : table_inv t -> pendingOpen t !! id = Some p -> table_inv (forget_pending id p t).
Proof.
  intros [I1 I2 I3 I4 I5 I6 I7 I8 I9] Hp. pose proof (map_size_delete_Some _ _ (mk_is_Some _ _ Hp)) as Hs.
  split; cbn; try assumption.
  - intros i q [_ Hq]%lookup_delete_Some. eauto.
  - intros k. rewrite elem_of_difference, elem_of_singleton, I3. split.
    + intros [(i & q & Hq & ->) Hne]. exists i, q. rewrite lookup_delete_ne; [done|]. intros <-. naive_solver.
    + intros (i & q & [Hi Hq]%lookup_delete_Some & ->). split; [by exists i, q|]. intros Hk. eauto.
  - intros i j q1 q2 [_ H1]%lookup_delete_Some [_ H2]%lookup_delete_Some. eauto.
  - lia.
  - lia.
Qed.

Lemma inv_close id t : table_inv t -> table_inv (t <| tunnels := delete id (tunnels t) |>).
Proof.
  intros [I1 I2 I3 I4 I5 I6 I7 I8 I9].
  assert (Hs : (size (delete id (tunnels t)) <= size (tunnels t))%nat).
  { destruct (tunnels t !! id) eqn:E; [rewrite (map_size_delete_Some _ _ (mk_is_Some _ _ E)); lia|by rewrite delete_id]. }
  split; cbn; try assumption; [lia|]. intros i u [_ Hu]%lookup_delete_Some. eauto.
Qed.

Lemma inv_handle_update uid h h' t : table_inv t -> handles t !! uid = Some h -> h_tunnel h' = h_tunnel h ->
  (h_ready h' = true -> h_queue h' = []) -> table_inv (t <| handles := <[uid := h']> (handles t) |>).
Proof.
  intros [I1 I2 I3 I4 I5 I6 I7 I8 I9] Hh Ht Hr. split; cbn; try assumption.
  - intros i u Hu. destruct (I7 _ _ Hu) as (g & Hg & Hgt). destruct (decide (u = uid)) as [->|].
    + rewrite lookup_insert_eq. exists h'. split; [done|]. congruence.
    + rewrite lookup_insert_ne by done. by exists g.
  - intros u Hu. destruct (I8 _ Hu). rewrite lookup_insert_ne; [done|]. intros <-. congruence.
  - intros u g. destruct (decide (u = uid)) as [->|].
    + rewrite lookup_insert_eq. intros [= <-]. done.
    + rewrite lookup_insert_ne by done. apply I9.
Qed.

Lemma inv_attached uid t : table_inv t -> table_inv (t <| attaching := delete uid (attaching t) |>).
Proof.
  intros [I1 I2 I3 I4 I5 I6 I7 I8 I9]. split; cbn; try assumption.
  intros u Hu. destruct (I8 u Hu) as [? Hn]. split; [done|]. by rewrite lookup_delete_None; right.
Qed.

(** A tunnel id that is bound again leaves its old handle behind. *)
Lemma inv_bind id uid h a t : table_inv t -> uid = nextHandle t -> h_tunnel h = id -> h_ready h = false ->
  Z.of_nat (S (size (tunnels t) + size (pendingOpen t))) <= Z.max 0 (maxTunnels t) + Z.of_nat MAX_PENDING_OPENS ->
  table_inv (t <| handles := <[uid := h]> (handles t) |> <| tunnels := <[id := uid]> (tunnels t) |>
               <| attaching := <[uid := a]> (attaching t) |> <| nextHandle := S uid |>).
Proof.
  intros [I1 I2 I3 I4 I5 I6 I7 I8 I9] -> Ht Hr Hs.
  assert (Hins : (size (<[id := nextHandle t]> (tunnels t)) <= S (size (tunnels t)))%nat)
    by (rewrite map_size_insert; destruct (tunnels t !! id); cbn; lia).
  split; cbn; try assumption.
  - lia.
  - intros i u [[<- <-]|[Hi Hu]]%lookup_insert_Some; [exists h; by rewrite lookup_insert_eq|].
    destruct (I7 _ _ Hu) as (g & Hg & Hgt). exists g. rewrite lookup_insert_ne; [done|].
    intros <-. destruct (I8 (nextHandle t)); [lia|congruence].
  - intros u Hu. destruct (I8 u); [lia|]. rewrite !lookup_insert_ne by lia. done.
  - intros u g [[<- <-]|[Hi Hg]]%lookup_insert_Some; [congruence|eauto].
Qed.

Lemma inv_open id p next t : table_inv t -> pendingOpen t !! id = None -> nextTunnelId t <= id -> next = id + 1 ->
  opening_key p ∉ openingKeys t -> (size (pendingOpen t) < MAX_PENDING_OPENS)%nat ->
  Z.of_nat (size (tunnels t)) < maxTunnels t ->
  table_inv (t <| nextTunnelId := next |> <| openingKeys := {[ opening_key p ]} ∪ openingKeys t |>
               <| pendingOpen := <[id := p]> (pendingOpen t) |> <| nextOpen := S (nextOpen t) |>).
Proof.
  intros [I1 I2 I3 I4 I5 I6 I7 I8 I9] Hid Hge -> Hk Hs Hm.
  pose proof (map_size_insert_None id p (pendingOpen t) Hid) as Hsz.
  assert (Hne : forall i q, pendingOpen t !! i = Some q -> opening_key q <> opening_key p).
  { intros i q Hq E. apply Hk, I3. by exists i, q. }
  split; cbn; try assumption.
  - lia.
  - intros i q [[<- <-]|[_ Hq]]%lookup_insert_Some; [lia|]. apply I2 in Hq. lia.
  - intros k. rewrite elem_of_union, elem_of_singleton, I3. split.
    + intros [->|(i & q & Hq & ->)]; [exists id, p; by rewrite lookup_insert_eq|].
      exists i, q. rewrite lookup_insert_ne; [done|congruence].
    + intros (i & q & [[<- <-]|[_ Hq]]%lookup_insert_Some & ->); [by left|right; by exists i, q].
  - intros i j q1 q2 [[<- <-]|[Hi H1]]%lookup_insert_Some [[<- <-]|[Hj H2]]%lookup_insert_Some E; [done|..|eauto].
    + exfalso. by apply (Hne j q2).
    + exfalso. by apply (Hne i q1).
  - rewrite Hsz. lia.
  - rewrite Hsz. lia.
Qed.

Lemma inv_tear t posts devices : table_inv t ->
  table_inv (t <| tunnels := ∅ |> <| pendingOpen := ∅ |> <| openingKeys := ∅ |> <| remoteDevices := devices |>
               <| pendingPost := posts |>).
Proof.
  intros [I1 I2 I3 I4 I5 I6 I7 I8 I9]. split; cbn; try assumption; try done.
  - intros k. split; [set_solver|]. by intros (id & p & Hl & _).
  - rewrite map_size_empty. lia.
  - rewrite !map_size_empty. lia.
Qed.

Lemma inv_limits t next limit : table_inv t -> 0 < next -> pendingOpen t = ∅ -> tunnels t = ∅ ->
  table_inv (t <| nextTunnelId := next |> <| maxTunnels := limit |>).
Proof.
  intros [I1 I2 I3 I4 I5 I6 I7 I8 I9] Hn Hp Ht. split; cbn; try assumption.
  - intros id p. rewrite Hp. done.
  - rewrite Hp, Ht, !map_size_empty. lia.
Qed.

(** ** Promises *)

Definition settles (x : effect) : option nat :=
  match x with OpenResolved p | OpenRejected p _ => Some p | _ => None end.

Definition settled (l : list effect) : list nat := omap (M := list) settles l.
Definition waiting (m : gmap Z pending) : list nat := (fun x : Z * pending => p_promise x.2) <$> map_to_list m.
Definition binding (m : gmap nat attachment) : list nat := omap (M := list) (fun x : nat * attachment => a_promise x.2) (map_to_list m).

Lemma settled_app l l' : settled (l ++ l') = settled l ++ settled l'.
Proof. apply omap_app. Qed.

Lemma settled_status l s : settled (l ++ [Status s]) = settled l.
Proof. by rewrite settled_app, app_nil_r. Qed.

Lemma waiting_insert m id p : m !! id = None -> waiting (<[id := p]> m) ≡ₚ p_promise p :: waiting m.
Proof. intros Hn. unfold waiting. by rewrite map_to_list_insert. Qed.

Lemma waiting_delete m id p : m !! id = Some p -> waiting m ≡ₚ p_promise p :: waiting (delete id m).
Proof. intros Hp. rewrite <- waiting_insert by apply lookup_delete_eq. by rewrite insert_delete_id. Qed.

Lemma binding_insert m uid a : m !! uid = None ->
  binding (<[uid := a]> m) ≡ₚ option_list (a_promise a) ++ binding m.
Proof. intros Hn. unfold binding. rewrite map_to_list_insert by done. cbn. by destruct (a_promise a). Qed.

Lemma binding_delete m uid a : m !! uid = Some a -> binding m ≡ₚ option_list (a_promise a) ++ binding (delete uid m).
Proof. intros Ha. rewrite <- binding_insert by apply lookup_delete_eq. by rewrite insert_delete_id. Qed.

(** Every promise of [openPeer] is with a pending request, or with a running [attachTunnel],
    or settled, and only once in all of them. *)
Definition promises (t : table) (l : list effect) : list nat :=
  waiting (pendingOpen t) ++ binding (attaching t) ++ settled l.

Definition tab_ok c : Prop := table_inv (tab c) /\ promises (tab c) (log c) ≡ₚ seq 0 (nextOpen (tab c)).

Definition core (t : table) :=
  (handles t, tunnels t, pendingOpen t, openingKeys t, attaching t, (nextTunnelId t, nextHandle t, maxTunnels t, nextOpen t)).

Lemma ok_same c c' : core (tab c') = core (tab c) -> settled (log c') ≡ₚ settled (log c) -> tab_ok c -> tab_ok c'.
Proof.
  unfold core. intros [= E1 E2 E3 E4 E5 E6 E7 E8 E9] El [I P]. split; [by eapply inv_same|].
  unfold promises in *. by rewrite E3, E5, E9, El.
Qed.

(** Effects that settle nothing. *)
Lemma ok_emit l c : settled l = [] -> tab_ok c -> tab_ok (emit l c).
Proof. intros Hl. apply ok_same; [done|]. cbn. by rewrite settled_app, Hl, app_nil_r. Qed.

Lemma ok_status c : tab_ok c -> tab_ok (emitStatus c).
Proof. by apply ok_emit. Qed.

Lemma ok_send e m c : tab_ok c -> tab_ok (send e m c).
Proof. by apply ok_same. Qed.

Lemma ok_snap s c : tab_ok c -> tab_ok (c <| snap := s |>).
Proof. by apply ok_same. Qed.

Lemma ok_loop l c : tab_ok c -> tab_ok (c <| loop := l |>).
Proof. by apply ok_same. Qed.

Lemma ok_out o c : tab_ok c -> tab_ok (c <| out := o |>).
Proof. by apply ok_same. Qed.

Lemma ok_setState st error c : tab_ok c -> tab_ok (setState st error c).
Proof. intros Hc. unfold setState. by apply ok_status, ok_snap. Qed.

Lemma ok_count c : tab_ok c -> tab_ok (count_tunnels c).
Proof. intros Hc. unfold count_tunnels. by apply ok_status, ok_snap. Qed.

Lemma ok_remember peer key name c : tab_ok c -> tab_ok (c <| tab := rememberRemoteDevice peer key name (tab c) |>).
Proof. apply ok_same; [|done]. unfold rememberRemoteDevice. by repeat case_match. Qed.

Lemma settled_close c uid : settled (closeSession c uid) = [].
Proof. unfold closeSession. by repeat case_match. Qed.

Lemma ok_close id c : tab_ok c -> tab_ok (closeLocalTunnel id c).
Proof.
  intros [I P]. unfold closeLocalTunnel. destruct (tunnels (tab c) !! id) as [uid|]; [|by split].
  apply ok_count, ok_emit; [apply settled_close|]. split; [by apply inv_close|done].
Qed.

Lemma ok_handle uid h h' c : tab_ok c -> handles (tab c) !! uid = Some h -> h_tunnel h' = h_tunnel h ->
  (h_ready h' = true -> h_queue h' = []) ->
  tab_ok (c <| tab := tab c <| handles := <[uid := h']> (handles (tab c)) |> |>).
Proof. intros [I P] Hh Ht Hr. split; [by eapply inv_handle_update|done]. Qed.

Lemma ok_ready uid c : tab_ok c -> tab_ok (attach_ready uid c).
Proof. intros Hc. unfold attach_ready. destruct (handles (tab c) !! uid) eqn:E; [|done]. by eapply ok_handle. Qed.

Lemma ok_binary data c : tab_ok c -> tab_ok (handleBinary data c).
Proof.
  intros Hc. unfold handleBinary. destruct (decodeTunnelFrame data) as [[id payload]|]; [|done].
  destruct (Nat.ltb _ _); [by apply ok_close|]. destruct (tunnels (tab c) !! id) as [uid|]; [|done].
  destruct (handles (tab c) !! uid) as [h|] eqn:E; [|done]. pose proof (inv_ready _ (proj1 Hc) _ _ E) as Hr.
  eapply ok_handle; [done|exact E|..]; destruct (h_ready h) eqn:R; cbn; auto; congruence.
Qed.

(** The end of a running [attachTunnel]. *)
Lemma ok_attach_end uid a c (l : list effect) : tab_ok c -> attaching (tab c) !! uid = Some a ->
  settled l = option_list (a_promise a) ->
  tab_ok (emit l (c <| tab := tab c <| attaching := delete uid (attaching (tab c)) |> |>)).
Proof.
  intros [I P] Ha Hl. split; [by apply inv_attached|]. cbn. rewrite <- P. unfold promises. cbn.
  rewrite settled_app, Hl, (binding_delete _ _ _ Ha). solve_Permutation.
Qed.

Lemma ok_attach_done uid c : tab_ok c -> tab_ok (attach_done uid c).
Proof.
  intros Hc. unfold attach_done. destruct (attaching (tab c) !! uid) as [a|] eqn:Ha; [|done].
  destruct (a_promise a) as [p|] eqn:Hp.
  - apply (ok_attach_end _ a); [done..|]. by rewrite Hp.
  - eapply (ok_same (emit [] _)); [..|apply (ok_attach_end uid a c []); [done..|by rewrite Hp]]; [done|].
    cbn. by rewrite app_nil_r.
Qed.

Lemma closeLocalTunnel_emit id l c : core (tab (closeLocalTunnel id (emit l c))) = core (tab (emit l (closeLocalTunnel id c)))
  /\ settled (log (emit l (closeLocalTunnel id c))) ≡ₚ settled (log (closeLocalTunnel id (emit l c))).
Proof.
  unfold closeLocalTunnel. cbn. destruct (tunnels (tab c) !! id); [|done]. split; [done|]. cbn.
  change (closeSession (emit l c) n) with (closeSession c n).
  rewrite !settled_app, settled_close. cbn. rewrite !app_nil_r. done.
Qed.

Lemma ok_attach_failed uid error c : tab_ok c -> tab_ok (attach_failed uid error c).
Proof.
  intros Hc. unfold attach_failed. destruct (attaching (tab c) !! uid) as [a|] eqn:Ha; [|done].
  set (l := match a_promise a with Some p => [OpenRejected p error] | None => [] end).
  pose proof (ok_attach_end uid a c l Hc Ha ltac:(subst l; by destruct (a_promise a))) as H1.
  apply (ok_close (a_tunnel a)) in H1. revert H1.
  generalize (c <| tab := tab c <| attaching := delete uid (attaching (tab c)) |> |>). intros c1 H1.
  destruct (closeLocalTunnel_emit (a_tunnel a) l c1) as [E1 E2].
  assert (Hok : tab_ok (emit l (closeLocalTunnel (a_tunnel a) c1))) by (eapply ok_same; [symmetry; exact E1|exact E2|exact H1]).
  subst l. destruct (a_promise a); [done|]. eapply ok_same; [..|exact Hok]; [done|]. cbn. by rewrite app_nil_r.
Qed.

(** *** Opening *)

Lemma alloc_ok t id t' : 0 < nextTunnelId t -> allocTunnelId t = (id, t') ->
  nextTunnelId t <= id /\ id_free t id = true /\ t' = t <| nextTunnelId := id + 1 |>.
Proof.
  intros Hn. unfold allocTunnelId. destruct (alloc_fresh (alloc_tries t) t (nextTunnelId t) Hn) as (_ & H1 & H2 & H3); [done|].
  destruct (alloc_loop _ t _) as [i n]. cbn in *. intros [= <- <-]. subst n. done.
Qed.

Lemma ok_startOpen e target key c : tab_ok c -> tab_ok (startOpen e target key c).2.
Proof.
  intros [I P]. unfold startOpen. destruct (_ || _) eqn:Hfull; [by split|]. bool_cases.
  destruct (sessionOccupied _ _ _ _) eqn:Hocc; [by split|]. unfold sessionOccupied in Hocc. bool_cases.
  destruct (allocTunnelId (tab c)) as [id t'] eqn:Ha. apply alloc_ok in Ha as (Hge & [_ [_ Hid]]%id_free_spec & ->); [|apply I].
  cbn [snd]. apply ok_send. split.
  - by apply (inv_open id (mk_pending target (normalizeDeviceKey (Some key)) (nextOpen (tab c))) (id + 1) (tab c)).
  - cbn. unfold promises in *. cbn. rewrite waiting_insert by done. cbn [p_promise].
    change (0%nat :: seq 1 (nextOpen (tab c))) with (seq 0 (S (nextOpen (tab c)))). rewrite seq_S, <- P. cbn.
    by rewrite Permutation_cons_append.
Qed.

Lemma ok_maybeOpen e peer key c : tab_ok c -> tab_ok (maybeOpen e peer key c).
Proof. intros Hc. unfold maybeOpen. repeat case_match; try done. by apply ok_startOpen. Qed.

Lemma ok_open_all e peer devices : forall c, tab_ok c -> tab_ok (open_all e peer devices c).
Proof. unfold open_all. induction devices as [|d l IH]; intros c Hc; cbn; [done|]. by apply IH, ok_maybeOpen. Qed.

Lemma ok_open_devices e target known : forall first c, tab_ok c -> tab_ok (open_devices e target known first c).2.
Proof.
  induction known as [|d known IH]; intros first c Hc; cbn [open_devices]; [done|].
  destruct (sessionOccupied _ _ _ _); [by apply IH|].
  pose proof (ok_startOpen e target (device_id d) c Hc) as Hs. destruct (startOpen _ _ _ c) as [r c1]. by apply IH.
Qed.

Lemma ok_one_open e target key c : tab_ok c -> tab_ok (one_open e target key c).2.
Proof.
  intros Hc. unfold one_open. destruct (sessionOccupied _ _ _ _); [done|].
  pose proof (ok_startOpen e target key c Hc) as Hs. by destruct (startOpen e target key c) as [[p|m] c'].
Qed.

Lemma ok_openPeer e peer device c : tab_ok c -> tab_ok (openPeer e peer device c).2.
Proof.
  intros Hc. unfold openPeer. do 2 (case_match; [done|]). case_match; [|by apply ok_one_open].
  destruct (remoteDevices (tab c) !! trim peer) as [[|d known]|]; [by apply ok_one_open| |by apply ok_one_open].
  pose proof (ok_open_devices e (trim peer) (d :: known) None c Hc) as Hs.
  by destruct (open_devices _ _ (d :: known) None c) as [[[p|m]|] c'].
Qed.

Lemma ok_bind id peer initiator key name promise c : table_inv (tab c) ->
  promises (tab c) (log c) ++ option_list promise ≡ₚ seq 0 (nextOpen (tab c)) ->
  Z.of_nat (S (size (tunnels (tab c)) + size (pendingOpen (tab c)))) <= Z.max 0 (maxTunnels (tab c)) + Z.of_nat MAX_PENDING_OPENS ->
  tab_ok (bindTunnel id peer initiator key name promise c).
Proof.
  intros I P Hs. unfold bindTunnel. apply ok_emit; [done|]. apply ok_count. split.
  - by apply inv_bind.
  - cbn. rewrite <- P. unfold promises. cbn. rewrite binding_insert by (by apply (inv_new _ I)). cbn. solve_Permutation.
Qed.

Lemma ok_opened v c : tab_ok c -> tab_ok (handleOpened v c).
Proof.
  intros [I P]. unfold handleOpened. destruct (pendingOpen (tab c) !! tunnel_field v) as [p|] eqn:Hp; [|by split].
  apply ok_bind.
  - by apply inv_forget.
  - cbn. rewrite <- P. unfold promises. cbn. rewrite (waiting_delete _ _ _ Hp). solve_Permutation.
  - cbn. pose proof (inv_size _ I) as Hs. pose proof (map_size_delete_Some _ _ (mk_is_Some _ _ Hp)) as Hd.
    assert (size (pendingOpen (tab c)) <> 0%nat) by (intros E; apply map_size_empty_inv in E; rewrite E in Hp; done).
    rewrite Hd. lia.
Qed.

Lemma ok_open_failed v c : tab_ok c -> tab_ok (handleOpenFailed v c).
Proof.
  intros [I P]. unfold handleOpenFailed. destruct (pendingOpen (tab c) !! tunnel_field v) as [p|] eqn:Hp; [|by split].
  split; [by apply inv_forget|]. cbn. rewrite <- P. unfold promises. cbn.
  rewrite settled_app, (waiting_delete _ _ _ Hp). cbn. solve_Permutation.
Qed.

Lemma ok_incoming e v c : tab_ok c -> tab_ok (handleIncoming e v c).
Proof.
  intros Hc. unfold handleIncoming. cbv zeta.
  pose proof (ok_remember (string_or_empty (prop (Some v) "from"))
    (normalizeDeviceKey (Some (string_or_empty (prop (Some v) "fromDevice")))) "" c Hc) as H1. revert H1.
  generalize (c <| tab := rememberRemoteDevice (string_or_empty (prop (Some v) "from"))
    (normalizeDeviceKey (Some (string_or_empty (prop (Some v) "fromDevice")))) "" (tab c) |>). intros c1 [I P].
  destruct (_ || _) eqn:Hr; [by apply ok_send|]. apply orb_false_iff in Hr as [_ Hm]. bool_cases.
  apply ok_bind; [done| |].
  - cbn. by rewrite app_nil_r.
  - cbn. pose proof (inv_pending_size _ I). lia.
Qed.

(** ** The connection loop *)

(** What leaves tunnels, mail and promises alone. *)
Definition frame c c' : Prop := tab c' = tab c /\ box c' = box c /\ settled (log c') = settled (log c).

#[local] Instance frame_preorder : PreOrder frame.
Proof.
  split; [intros c; by repeat split|]. intros c1 c2 c3 (H1 & H2 & H3) (H4 & H5 & H6). unfold frame. by rewrite H4, H5, H6.
Qed.

Lemma frame_emit l c : settled l = [] -> frame c (emit l c).
Proof. intros Hl. repeat split. cbn. by rewrite settled_app, Hl, app_nil_r. Qed.

Lemma frame_setState st error c : frame c (setState st error c).
Proof. unfold setState, emitStatus. etrans; [|by apply frame_emit]. by repeat split. Qed.

Lemma state_setState st error c : s_state (snap (setState st error c)) = st /\ loop (setState st error c) = loop c
  /\ out (setState st error c) = out c.
Proof.
  assert (H1 : forall s, s_state (offline_fields st s) = s_state s) by (intros s; unfold offline_fields; by case_match).
  assert (H2 : forall s, s_state (error_fields st error s) = s_state s) by (intros s; unfold error_fields; by repeat case_match).
  split; [|done]. unfold setState. cbn [emitStatus emit snap field_update]. by rewrite H2, H1.
Qed.

Lemma frame_failed e m c : frame c (session_failed e m c).2.
Proof.
  unfold session_failed. repeat (case_match; [by repeat split|]). case_match; [apply frame_setState|].
  case_match; cbv zeta; cbn [snd]; (etrans; [|by apply frame_setState || (etrans; [apply frame_setState|by repeat split])]); by repeat split.
Qed.

Lemma open_session_cases e c :
  ((open_session e c).1 = None /\ (exists me, at_phase (loop (open_session e c).2) = AwaitHello me)
   \/ (exists m, (open_session e c).1 = Some m /\ m <> "replaced") /\ loop (open_session e c).2 = loop c)
  /\ snap (open_session e c).2 = snap c /\ frame c (open_session e c).2.
Proof.
  unfold open_session. destruct (parseRelayUrl e (relayUrl (loop c))) as [u|m] eqn:Hu.
  - destruct (getIdentity e) as [me|]; cbn.
    + repeat split; eauto.
    + split; [right; split; [eexists; split; [done|discriminate]|done]|by repeat split].
  - split; [right; split; [|done]|by repeat split]. exists m. split; [done|].
    revert Hu. unfold parseRelayUrl. repeat case_match; intros [= <-]; discriminate.
Qed.

Lemma frame_run_loop n e : forall c, frame c (run_loop n e c).
Proof.
  induction n as [|n IH]; intros c; cbn [run_loop]; [by repeat split|].
  repeat (case_match; [by (by repeat split) || (etrans; [apply frame_setState|by repeat split])|]).
  destruct (open_session_cases e (setState Connecting "" c)) as (_ & _ & Hf).
  destruct (open_session _ _) as [[m|] c1]; cbn in Hf.
  - pose proof (frame_failed e m c1) as Hg. destruct (session_failed e m c1) as [[] c2]; cbn in Hg.
    + etrans; [apply frame_setState|]. etrans; [exact Hf|]. etrans; [exact Hg|apply IH].
    + etrans; [apply frame_setState|]. by etrans.
  - etrans; [apply frame_setState|done].
Qed.

(** A phase in which the loop waits, and the state that is shown meanwhile. *)
Definition resting c : Prop :=
  match at_phase (loop c) with
  | Finished => True
  | WaitingForWake | Sleeping _ | AwaitHello _ => s_state (snap c) <> Online
  | _ => False
  end.

Lemma failed_rests e m c : (session_failed e m c).1 = false -> resting (session_failed e m c).2.
Proof.
  unfold session_failed. repeat (case_match; [done|]). intros _. unfold resting.
  match goal with |- context [setState ?st m c] => destruct (state_setState st m c) as (E & _ & _); revert E;
    generalize (setState st m c) end.
  intros c1 E. cbn. rewrite E. by case_match.
Qed.

(** A turn of the loop waits, or forgets that the client was reconfigured. *)
Lemma run_loop_turn n e c : resting (run_loop (S n) e c)
  \/ reconfigure (loop c) = true /\ exists c2, run_loop (S n) e c = run_loop n e c2 /\ reconfigure (loop c2) = false.
Proof.
  cbn [run_loop]. destruct (stopped (loop c)) eqn:Hst; [by left|]. destruct (negb (enabled (loop c))); [by left|].
  destruct (yielded (loop c)) eqn:Hy; [by left|]. destruct (replaced (loop c)); [by left|].
  destruct (open_session_cases e (setState Connecting "" c)) as ([[Hm [me Hp]]|[(m & Hm & Hne) Hl]] & Hs & _);
    destruct (open_session _ _) as [r c1]; cbn in Hm, Hs; subst r.
  - left. unfold resting. cbn in Hp. by rewrite Hp, Hs.
  - cbn in Hl. pose proof (failed_rests e m c1) as Hrest. revert Hrest. unfold session_failed. rewrite Hl. cbn.
    rewrite Hst. destruct (reconfigure (loop c)) eqn:Hr; [intros _; right; split; [done|]|].
    + by eexists.
    + rewrite Hy, bool_decide_eq_false_2 by done. intros Hrest. left. by apply Hrest.
Qed.

Lemma run_loop_settles n e c : resting (run_loop (S (S n)) e c).
Proof.
  destruct (run_loop_turn (S n) e c) as [Hr|(_ & c2 & -> & H2)]; [done|].
  destruct (run_loop_turn n e c2) as [Hr|(H3 & _)]; [done|congruence].
Qed.

Lemma continue_rests e c : resting (continue_loop e c).
Proof. apply run_loop_settles. Qed.

Lemma frame_continue e c : frame c (continue_loop e c).
Proof. apply frame_run_loop. Qed.

(** *** The end of a session *)

Definition idle (t : table) : Prop := tunnels t = ∅ /\ pendingOpen t = ∅ /\ pendingPost t = ∅.

Lemma settled_concat_close c l : settled (concat (map (fun x : Z * nat => closeSession c x.2) l)) = [].
Proof. induction l as [|x l IH]; cbn; [done|]. by rewrite settled_app, settled_close, IH. Qed.

Lemma settled_tear c : settled (tear_effects c) = waiting (pendingOpen (tab c)).
Proof.
  unfold tear_effects, waiting. rewrite !settled_app, settled_concat_close. cbn.
  replace (settled (map _ (map_to_list (pendingPost (tab c))))) with (@nil nat).
  - rewrite app_nil_r. induction (map_to_list (pendingOpen (tab c))) as [|x l IH]; cbn; [done|]. by f_equal.
  - induction (map_to_list (pendingPost (tab c))) as [|x l IH]; cbn; [done|]. exact IH.
Qed.

Lemma ok_finally c : tab_ok c -> tab_ok (session_finally c) /\ idle (tab (session_finally c)).
Proof.
  intros [I P]. split; [|done]. split; [by apply inv_tear|]. cbn. rewrite <- P. unfold promises. cbn.
  rewrite settled_app, settled_tear. unfold waiting at 1. rewrite map_to_list_empty. cbn. solve_Permutation.
Qed.

Lemma throws_spec e m c : tab_ok c -> tab_ok (session_throws e m c) /\ idle (tab (session_throws e m c))
  /\ resting (session_throws e m c) /\ box (session_throws e m c) = box c.
Proof.
  intros [Hok Hi]%ok_finally. unfold session_throws.
  pose proof (frame_failed e m (session_finally c)) as (E1 & E2 & E3).
  pose proof (failed_rests e m (session_finally c)) as Hr.
  destruct (session_failed e m (session_finally c)) as [again c1]. cbn in E1, E2, E3, Hr.
  assert (H1 : tab_ok c1) by (eapply ok_same; [..|exact Hok]; by rewrite ?E1, ?E3).
  destruct again.
  - destruct (frame_continue e c1) as (F1 & F2 & F3). split; [|split; [|split]].
    + eapply ok_same; [..|exact H1]; by rewrite ?F1, ?F3.
    + by rewrite F1, E1.
    + apply continue_rests.
    + by rewrite F2, E2.
  - split; [done|split; [by rewrite E1|split; [by apply Hr|done]]].
Qed.

Lemma returns_spec e c : tab_ok c -> tab_ok (session_returns e c) /\ idle (tab (session_returns e c))
  /\ resting (session_returns e c) /\ box (session_returns e c) = box c.
Proof.
  intros [Hok Hi]%ok_finally. unfold session_returns.
  set (c1 := session_finally c <| loop := _ |>). assert (H1 : tab_ok c1) by (by eapply ok_same; [..|exact Hok]).
  assert (E : tab c1 = tab (session_finally c) /\ box c1 = box c) by done. clearbody c1. destruct E as [E1 E2].
  destruct (frame_continue e c1) as (F1 & F2 & F3). rewrite <- E1 in Hi. split; [|split; [|split]].
  - eapply ok_same; [..|exact H1]; by rewrite ?F1, ?F3.
  - by rewrite F1.
  - apply continue_rests.
  - by rewrite F2.
Qed.

(** ** Every event *)

(** Outside a session nothing is open and the shown state is not online; the loop never stands
    at its head.  (A client that was stopped just before the answer of the relay arrived shows
    online all the same.) *)
Definition sess_ok c : Prop :=
  match at_phase (loop c) with
  | InSession | Finished => True
  | LoopHead => False
  | _ => idle (tab c) /\ s_state (snap c) <> Online
  end.

Definition client_ok c : Prop := tab_ok c /\ sess_ok c.

Lemma sess_same c c' : loop c' = loop c -> (s_state (snap c') = Online -> s_state (snap c) = Online) ->
  (idle (tab c) -> idle (tab c')) -> sess_ok c -> sess_ok c'.
Proof. intros El Es Ei. unfold sess_ok. rewrite El. case_match; naive_solver. Qed.

Lemma rest_ok c : tab_ok c -> idle (tab c) -> resting c -> client_ok c.
Proof. intros Ht Hi Hr. split; [done|]. unfold resting in Hr. unfold sess_ok. by case_match. Qed.

Lemma frame_ok c c' : frame c c' -> tab_ok c -> tab_ok c'.
Proof. intros (E1 & _ & E3). apply ok_same; by rewrite ?E1, ?E3. Qed.

Lemma continue_ok e c : tab_ok c -> idle (tab c) -> client_ok (continue_loop e c).
Proof.
  intros Ht Hi. pose proof (frame_continue e c) as Hf. apply rest_ok; [by eapply frame_ok| |apply continue_rests].
  destruct Hf as (-> & _). done.
Qed.

Lemma throws_ok e m c : tab_ok c -> client_ok (session_throws e m c).
Proof. intros (H1 & H2 & H3 & _)%(throws_spec e m). by apply rest_ok. Qed.

Lemma returns_ok e c : tab_ok c -> client_ok (session_returns e c).
Proof. intros (H1 & H2 & H3 & _)%(returns_spec e). by apply rest_ok. Qed.

Lemma wake_ok e c : client_ok c -> client_ok (wake e c).
Proof.
  intros [Ht Hs]. unfold wake. unfold sess_ok in Hs. destruct (at_phase (loop c)) eqn:Hp;
    try (split; [done|unfold sess_ok; by rewrite Hp]); by apply continue_ok, Hs.
Qed.

Lemma start_client_ok e c : client_ok c -> client_ok (start e c).
Proof.
  intros [Ht Hs]. unfold start. unfold sess_ok in Hs. destruct (at_phase (loop c)) eqn:Hp;
    try (split; [done|unfold sess_ok; by rewrite Hp]). apply continue_ok; [by apply ok_loop|apply Hs].
Qed.

(** Changes of flags, of the status that is shown, and of the socket. *)
Lemma quiet_ok c c' : at_phase (loop c') = at_phase (loop c) -> (s_state (snap c') = Online -> s_state (snap c) = Online) ->
  tab c' = tab c -> log c' = log c -> client_ok c -> client_ok c'.
Proof.
  intros Ep Es Et El [Ht Hs]. split; [eapply ok_same; [..|exact Ht]; by rewrite ?Et, ?El|].
  unfold sess_ok in *. rewrite Ep, Et. case_match; naive_solver.
Qed.

Lemma reconnect_ok e c : client_ok c -> client_ok (reconnect e c).
Proof. intros Hc. apply wake_ok. by eapply quiet_ok; [..|exact Hc]. Qed.

Lemma offline_ok error c : client_ok c -> client_ok (setState Offline error c).
Proof.
  intros [Ht Hs]. split; [by apply ok_setState|]. destruct (state_setState Offline error c) as (E & El & _).
  unfold sess_ok in *. rewrite El, E. destruct (frame_setState Offline error c) as (-> & _). case_match; naive_solver.
Qed.

Lemma takeover_ok e c : client_ok c -> client_ok (takeover e c).
Proof. intros Hc. apply wake_ok, start_client_ok. by eapply quiet_ok; [..|exact Hc]. Qed.

Lemma yield_ok e c : client_ok c -> client_ok (yieldToOtherTab e c).
Proof. intros Hc. apply wake_ok, offline_ok. by eapply quiet_ok; [..|exact Hc]. Qed.

Lemma stop_ok c : client_ok c -> client_ok (stop c).
Proof. intros Hc. apply offline_ok. by eapply quiet_ok; [..|exact Hc]. Qed.

(** *** Messages *)

Lemma loop_close id c : loop (closeLocalTunnel id c) = loop c.
Proof. unfold closeLocalTunnel. by case_match. Qed.

Lemma loop_startOpen e target key c : loop (startOpen e target key c).2 = loop c /\ snap (startOpen e target key c).2 = snap c.
Proof. unfold startOpen. case_match; [done|]. case_match; [done|]. by case_match. Qed.

Lemma loop_open_all e peer devices : forall c, loop (open_all e peer devices c) = loop c.
Proof.
  unfold open_all. induction devices as [|d l IH]; intros c; cbn; [done|]. rewrite IH. unfold maybeOpen.
  repeat case_match; try done. apply loop_startOpen.
Qed.

Lemma loop_open_devices e target known : forall first c,
  loop (open_devices e target known first c).2 = loop c /\ snap (open_devices e target known first c).2 = snap c.
Proof.
  induction known as [|d known IH]; intros first c; cbn [open_devices]; [done|]. case_match; [apply IH|].
  pose proof (loop_startOpen e target (device_id d) c) as [E1 E2]. destruct (startOpen _ _ _ c) as [r c1]. cbn in *.
  destruct (IH (match first with Some f => Some f | None => Some r end) c1) as [F1 F2]. by rewrite F1, F2, E1, E2.
Qed.

Lemma loop_one_open e target key c : loop (one_open e target key c).2 = loop c /\ snap (one_open e target key c).2 = snap c.
Proof.
  unfold one_open. case_match; [done|]. pose proof (loop_startOpen e target key c).
  by destruct (startOpen e target key c) as [[]].
Qed.

Lemma loop_openPeer e peer device c : loop (openPeer e peer device c).2 = loop c /\ snap (openPeer e peer device c).2 = snap c.
Proof.
  unfold openPeer. do 2 (case_match; [done|]). case_match; [|apply loop_one_open].
  destruct (remoteDevices (tab c) !! trim peer) as [[|d known]|]; [apply loop_one_open| |apply loop_one_open].
  pose proof (loop_open_devices e (trim peer) (d :: known) None c).
  by destruct (open_devices _ _ (d :: known) None c) as [[[]|]].
Qed.

Lemma loop_presence e v c : loop (handlePresence e v c) = loop c.
Proof.
  unfold handlePresence, note_presence. destruct (text_field v "peerId"); [|done]. cbv zeta.
  case_match; [by destruct (truthy _)|]. rewrite loop_open_all. by destruct (truthy _).
Qed.

Lemma loop_incoming e v c : loop (handleIncoming e v c) = loop c.
Proof. unfold handleIncoming. cbv zeta. by case_match. Qed.

(** The cases of [session_message]. *)
Lemma message_cases (P : client -> Prop) e v c :
  P c -> P (handlePong e v c) -> P (handlePresence e v c) -> P (handleOwnDevices v c) -> P (handleSync v c) ->
  P (handleIncoming e v c) -> P (handleOpened v c) -> P (handleOpenFailed v c) -> P (handleClosed v c) ->
  P (handleMail v c) -> P (handlePosted v c) -> P (handlePostFailed v c) -> P (session_message e v c).2.
Proof.
  intros. unfold session_message. destruct (text_field v "t") as [t|]; [|done]. by repeat case_match.
Qed.

Lemma loop_settle_post v outcome c : loop (settle_post v outcome c) = loop c.
Proof. unfold settle_post. by repeat case_match. Qed.

Lemma loop_message e v c : loop (session_message e v c).2 = loop c.
Proof.
  apply (message_cases (fun c' => loop c' = loop c)); try done.
  - unfold handlePong. by repeat case_match.
  - apply loop_presence.
  - apply loop_incoming.
  - unfold handleOpened. by case_match.
  - unfold handleOpenFailed. by case_match.
  - unfold handleClosed. repeat case_match; try done. apply loop_close.
  - unfold handleMail. by repeat case_match.
  - apply loop_settle_post.
  - apply loop_settle_post.
Qed.

Lemma ok_note_presence peer online devices c : tab_ok c -> tab_ok (note_presence peer online devices c).
Proof. apply ok_same; unfold note_presence; by destruct online. Qed.

Lemma ok_presence e v c : tab_ok c -> tab_ok (handlePresence e v c).
Proof.
  intros Hc. unfold handlePresence. destruct (text_field v "peerId") as [peer|]; [|done]. cbv zeta.
  assert (H1 : tab_ok (emit [PresenceChanged peer (truthy (prop (Some v) "online"))
      (remoteDevicesFromPresence (truthy (prop (Some v) "online")) (devices_field v))]
    (emitStatus (note_presence peer (truthy (prop (Some v) "online"))
      (remoteDevicesFromPresence (truthy (prop (Some v) "online")) (devices_field v)) c))))
    by (by apply ok_emit, ok_status, ok_note_presence).
  case_match; [done|by apply ok_open_all].
Qed.

Lemma ok_settle_post v outcome c : (forall p, settles (outcome p) = None) -> tab_ok c -> tab_ok (settle_post v outcome c).
Proof.
  intros Ho Hc. unfold settle_post. repeat case_match; try done. apply ok_emit; [cbn; by rewrite Ho|]. by eapply ok_same; [..|exact Hc].
Qed.

Lemma ok_message e v c : tab_ok c -> tab_ok (session_message e v c).2.
Proof.
  intros Hc. apply message_cases; try done.
  - unfold handlePong. repeat case_match; try done. apply ok_status. by eapply ok_same; [..|exact Hc].
  - by apply ok_presence.
  - by apply ok_status, ok_snap.
  - by apply ok_emit.
  - by apply ok_incoming.
  - by apply ok_opened.
  - by apply ok_open_failed.
  - unfold handleClosed. repeat case_match; try done. by apply ok_close.
  - unfold handleMail. repeat case_match; try done. apply ok_emit; [done|]. by eapply ok_same; [..|exact Hc].
  - by apply ok_settle_post.
  - by apply ok_settle_post.
Qed.

Lemma throw_in e r c : client_ok c -> r.1 <> None -> tab_ok r.2 -> client_ok (after_step e r).
Proof. intros Hc Hr Ht. destruct r as [[m|] c']; [|done]. by apply throws_ok. Qed.

Lemma hello_ok e me v c : client_ok c -> at_phase (loop c) = AwaitHello me -> client_ok (after_step e (hello_message e me v c)).
Proof.
  intros [Ht Hs] Hp. unfold sess_ok in Hs. rewrite Hp in Hs. unfold hello_message, after_step.
  repeat case_match; simplify_eq; try by apply throws_ok.
  all: split; [by eapply ok_same; [..|exact Ht]|exact Hs].
Qed.

Lemma ready_cases e me v c :
  (exists m, ready_message e me v c = (Some m, c))
  \/ (exists c' limit, ready_message e me v c = (None, c') /\ tab c' = fresh_table limit (tab c)
     /\ settled (log c') = settled (log c) /\ at_phase (loop c') = InSession /\ box c' = box c <| inFlight := ∅ |>
     /\ backoffMs (loop c') = backoffMs (loop c)).
Proof.
  unfold ready_message. destruct (negb _); [left; by eexists|]. right. do 2 eexists. repeat split.
  apply settled_status.
Qed.

Lemma ready_tab e me v c : tab_ok c -> idle (tab c) -> tab_ok (ready_message e me v c).2.
Proof.
  intros Ht (E1 & E2 & E3). destruct (ready_cases e me v c) as [[m ->]|(c' & limit & -> & Et & El & _)]; [done|].
  destruct Ht as [I P]. split; cbn [snd]; rewrite Et.
  - apply (inv_limits (tab c <| tunnels := ∅ |> <| pendingOpen := ∅ |> <| openingKeys := ∅ |>
      <| remoteDevices := ∅ |> <| pendingPost := ∅ |>)); [by apply inv_tear|lia|done|done].
  - cbn. rewrite <- P. unfold promises. cbn. by rewrite E2, El.
Qed.

Lemma session_stays e c : tab_ok c -> at_phase (loop c) = InSession ->
  client_ok (if is_open (out c) then c else session_returns e c).
Proof. intros Ht Hp. case_match; [split; [done|unfold sess_ok; by rewrite Hp]|by apply returns_ok]. Qed.

Lemma on_message_ok e m c : client_ok c -> client_ok (on_message e m c).
Proof.
  intros Hc. pose proof Hc as [Ht Hs]. unfold on_message. unfold sess_ok in Hs.
  destruct (at_phase (loop c)) as [| | |me|me| | |] eqn:Hp; try done.
  - destruct m; [by apply hello_ok|by apply throws_ok].
  - destruct m as [v|]; [|by apply throws_ok]. pose proof (ready_tab e me v c Ht (proj1 Hs)) as Hr.
    destruct (ready_cases e me v c) as [[err Hm]|(c' & limit & Hm & _ & _ & Hp' & _)]; rewrite Hm in *;
      [by apply throws_ok|by apply session_stays].
  - unfold after_message. destruct m as [v|data].
    + pose proof (ok_message e v c Ht) as Hm. pose proof (loop_message e v c) as Hl.
      destruct (session_message e v c) as [[err|] c']; cbn in *; [by apply throws_ok|].
      apply session_stays; [done|congruence].
    + apply session_stays; [by apply ok_binary|]. rewrite <- Hp. unfold handleBinary.
      repeat case_match; try done. by rewrite loop_close.
Qed.

(** *** All events *)

Lemma idle_closed id c : idle (tab c) -> closeLocalTunnel id c = c.
Proof. intros (E & _). unfold closeLocalTunnel. by rewrite E, lookup_empty. Qed.

Lemma attach_failed_frame uid error c : loop (attach_failed uid error c) = loop c
  /\ s_state (snap (attach_failed uid error c)) = s_state (snap c) /\ (idle (tab c) -> idle (tab (attach_failed uid error c))).
Proof.
  unfold attach_failed. destruct (attaching (tab c) !! uid) as [a|]; [|done].
  set (c1 := c <| tab := _ |>). assert (E : loop c1 = loop c /\ snap c1 = snap c /\ (idle (tab c) -> idle (tab c1))) by done.
  clearbody c1. destruct E as (E1 & E2 & E3). rewrite <- E1, <- E2.
  assert (H1 : loop (closeLocalTunnel (a_tunnel a) c1) = loop c1 /\
    s_state (snap (closeLocalTunnel (a_tunnel a) c1)) = s_state (snap c1)) by (unfold closeLocalTunnel; by case_match).
  destruct H1 as [F1 F2]. assert (F3 : idle (tab c) -> idle (tab (closeLocalTunnel (a_tunnel a) c1)))
    by (intros Hi%E3; by rewrite idle_closed).
  by case_match.
Qed.

Lemma postMail_frame e peer body id c : loop (postMail e peer body id c).2 = loop c /\ snap (postMail e peer body id c).2 = snap c
  /\ (tab_ok c -> tab_ok (postMail e peer body id c).2) /\ (s_state (snap c) <> Online -> (postMail e peer body id c).2 = c).
Proof.
  unfold postMail. case_match; [done|]. case_match; [done|]. case_match; [done|]. bool_cases.
  split; [done|split; [done|split; [|done]]]. intros Hc. apply ok_send. by eapply ok_same; [..|exact Hc].
Qed.

Lemma openPeer_offline e peer device c : s_state (snap c) <> Online -> (openPeer e peer device c).2 = c.
Proof. intros Hs. unfold openPeer. case_match; [done|]. by rewrite bool_decide_eq_false_2. Qed.

Lemma online_in_session c : sess_ok c -> {s_state (snap c) <> Online} + {at_phase (loop c) = InSession \/ at_phase (loop c) = Finished}.
Proof. unfold sess_ok. destruct (at_phase (loop c)); intros Hs; try (by right; auto); left; naive_solver. Qed.

Lemma step_ok e ev c : client_ok c -> client_ok (step e ev c).
Proof.
  intros Hc. pose proof Hc as [Ht Hs].
  assert (Hout : forall o, client_ok (c <| out := o |>)) by (intros o; by eapply quiet_ok; [..|exact Hc]).
  destruct ev; cbn [step]; try done.
  - by apply start_client_ok.
  - unfold setConfig. destruct (parseRelayUrl e _); [|done]. apply reconnect_ok. by eapply quiet_ok; [..|exact Hc].
  - by apply reconnect_ok.
  - by apply takeover_ok.
  - by apply yield_ok.
  - by apply stop_ok.
  - case_match; [apply Hout|done].
  - by apply on_message_ok.
  - unfold on_closed. case_match; try done; by apply throws_ok.
  - unfold on_timeout. case_match; try done; by apply throws_ok.
  - unfold on_timer, sess_ok in *. destruct (at_phase (loop c)); try done. apply continue_ok; [done|apply Hs].
  - unfold on_ping. by case_match.
  - split; [by apply ok_ready|]. unfold attach_ready. case_match; [|done]. by eapply sess_same; [..|exact Hs].
  - split; [by apply ok_attach_done|]. unfold attach_done. case_match; [|done]. by case_match; eapply sess_same; [..|exact Hs].
  - split; [by apply ok_attach_failed|]. destruct (attach_failed_frame handle error c) as (E1 & E2 & E3).
    eapply sess_same; [exact E1|by rewrite E2|exact E3|exact Hs].
  - unfold tunnel_send. case_match; [apply Hout|done].
  - destruct (online_in_session c Hs) as [Hn|Hp]; [by rewrite openPeer_offline|].
    split; [by apply ok_openPeer|]. unfold sess_ok. rewrite (proj1 (loop_openPeer e peerId deviceId c)). by destruct Hp as [->| ->].
  - destruct (postMail_frame e peerId body id c) as (E1 & E2 & E3 & E4).
    destruct (online_in_session c Hs) as [Hn|Hp]; [by rewrite E4|].
    split; [by apply E3|]. unfold sess_ok. rewrite E1. by destruct Hp as [->| ->].
  - unfold ackMail. by case_match.
  - unfold refreshWatch. by case_match.
Qed.

Lemma reach_ok c : reach c -> client_ok c.
Proof.
  induction 1 as [e|e ev c H1 IH _]; [|by apply step_ok]. split; [split; [apply inv_empty|done]|done].
Qed.

(** C9: After any history of calls, messages, timers, attachments and lost connections, at most
    8 requests for tunnels are open, at most one per device of a peer, and [openingKeys] are
    exactly their devices.  Open tunnels and requests together are at most 8 more than the limit
    on tunnels: requests made below the limit may all be granted, and so the tunnels alone may
    exceed it.  A tunnel's handle sends with that tunnel's id, and holds nothing back once it is
    ready.  The connection loop never stands still at its head, and between sessions no tunnel,
    request or post is open and the status is not online. *)
Theorem openings_accounted c : reach c ->
  (size (pendingOpen (tab c)) <= MAX_PENDING_OPENS)%nat
  /\ Z.of_nat (size (tunnels (tab c)) + size (pendingOpen (tab c))) <= Z.max 0 (maxTunnels (tab c)) + Z.of_nat MAX_PENDING_OPENS
  /\ (forall k, k ∈ openingKeys (tab c) <->
        exists id p, pendingOpen (tab c) !! id = Some p /\ k = sessionKey (p_peer p) (Some (p_device p)))
  /\ (forall id1 id2 p1 p2, pendingOpen (tab c) !! id1 = Some p1 -> pendingOpen (tab c) !! id2 = Some p2 ->
        sessionKey (p_peer p1) (Some (p_device p1)) = sessionKey (p_peer p2) (Some (p_device p2)) -> id1 = id2)
  /\ (forall id uid, tunnels (tab c) !! id = Some uid ->
        exists h, handles (tab c) !! uid = Some h /\ h_tunnel h = id /\ (h_ready h = true -> h_queue h = []))
  /\ match at_phase (loop c) with
     | InSession | Finished => True
     | LoopHead => False
     | _ => tunnels (tab c) = ∅ /\ pendingOpen (tab c) = ∅ /\ pendingPost (tab c) = ∅ /\ s_state (snap c) <> Online
     end.
Proof.
  intros Hc%reach_ok. destruct Hc as [[I _] Hs]. split; [apply I|]. split; [apply I|]. split; [apply I|]. split; [apply I|].
  split.
  - intros id uid Hu. destruct (inv_handle _ I _ _ Hu) as (h & Hh & Ht). exists h. split; [done|]. split; [done|].
    by apply (inv_ready _ I uid).
  - unfold sess_ok, idle in Hs. destruct (at_phase (loop c)); tauto.
Qed.

(** C10: Every promise that [openPeer] or presence has created is, after any history, in exactly
    one place: with an open request, with a running [attachTunnel], or settled.  While the
    connection loop is between sessions (not started, waiting or sleeping, or before the relay's
    [ready]) no request is open: a promise is then settled unless its [attachTunnel] still runs.
    Nothing is said of the requests of a loop that has finished. *)
Theorem open_promises_settle_once c : reach c ->
  let requested := (fun x : Z * pending => p_promise x.2) <$> map_to_list (pendingOpen (tab c)) in
  let attached := omap (M := list) (fun x : nat * attachment => a_promise x.2) (map_to_list (attaching (tab c))) in
  let done := omap (M := list) (fun x => match x with OpenResolved p | OpenRejected p _ => Some p | _ => None end) (log c) in
  requested ++ attached ++ done ≡ₚ seq 0 (nextOpen (tab c))
  /\ (at_phase (loop c) <> InSession -> at_phase (loop c) <> Finished ->
       pendingOpen (tab c) = ∅ /\ attached ++ done ≡ₚ seq 0 (nextOpen (tab c))
       /\ (attaching (tab c) = ∅ -> forall p, (p < nextOpen (tab c))%nat <-> p ∈ done)).
Proof.
  intros Hc%reach_ok requested attached done. destruct Hc as [[_ P] Hs].
  change (requested ++ attached ++ done ≡ₚ seq 0 (nextOpen (tab c))) in P. split; [exact P|]. intros H1 H2.
  assert (Hn : pendingOpen (tab c) = ∅) by (unfold sess_ok, idle in Hs; destruct (at_phase (loop c)); tauto).
  subst requested. rewrite Hn, map_to_list_empty in P. split; [exact Hn|split; [exact P|]].
  intros Ha p. subst attached. rewrite Ha, map_to_list_empty in P. change (done ≡ₚ seq 0 (nextOpen (tab c))) in P.
  rewrite P, elem_of_seq. lia.
Qed.

End facts.
