(* ===== verification/RelayBehaviour.v ===== *)
(** * The relay client: what it does ([relayClient.js])

    Presence opens the tunnels it should, exactly one of two devices opens; bytes cross the
    relay in order; mail is kept until it is acknowledged; when a connection is tried again;
    and the behaviours of the code that fall short. *)

From S2P Require Import Prelude Bytes Json Records Identity SessionMap RelaySend Relay RelayFacts.

Section behaviour.
Context `{Crypto} `{Ed25519}.
Implicit Types (e : env) (c : client) (t : table).

(** ** Presence *)

(** No further request is allowed. *)
Definition full (t : table) : Prop :=
  (MAX_PENDING_OPENS <= size (pendingOpen t))%nat \/ maxTunnels t <= Z.of_nat (size (tunnels t)).

(** A step that only opens: what is occupied or full stays so. *)
Definition opens (t t' : table) : Prop :=
  openingKeys t ⊆ openingKeys t' /\ handles t' = handles t /\ tunnels t' = tunnels t /\ maxTunnels t' = maxTunnels t
  /\ (size (pendingOpen t) <= size (pendingOpen t'))%nat.

#[local] Instance opens_preorder : PreOrder opens.
Proof.
  split; [intros t; repeat split; done|]. intros t1 t2 t3 (A1 & A2 & A3 & A4 & A5) (B1 & B2 & B3 & B4 & B5).
  repeat split; try congruence; [by etrans|lia].
Qed.

Lemma opens_occupied e t t' peer key : opens t t' -> sessionOccupied e t peer key = true -> sessionOccupied e t' peer key = true.
Proof.
  intros (A1 & A2 & A3 & _). unfold sessionOccupied, hasBoundSession, has_tunnel. rewrite A2, A3.
  rewrite !orb_true_iff, !bool_decide_eq_true. set_solver.
Qed.

Lemma opens_full t t' : opens t t' -> full t -> full t'.
Proof. intros (_ & _ & A3 & A4 & A5). unfold full. rewrite A3, A4. intros [|]; [left; lia|by right]. Qed.

Lemma alloc_free t : 0 < nextTunnelId t -> exists id, allocTunnelId t = (id, t <| nextTunnelId := id + 1 |>)
  /\ nextTunnelId t <= id /\ tunnels t !! id = None /\ pendingOpen t !! id = None.
Proof.
  intros Hn. destruct (allocTunnelId t) as [id t'] eqn:Ha. apply alloc_ok in Ha as (Hge & [_ Hid]%id_free_spec & ->); [|done].
  by exists id.
Qed.

(** [startOpen] on a device that is neither occupied nor turned away. *)
Lemma startOpen_opens e target key c : 0 < nextTunnelId (tab c) ->
  sessionOccupied e (tab c) target (normalizeDeviceKey (Some key)) = false -> ~ full (tab c) ->
  exists id, tunnels (tab c) !! id = None /\ pendingOpen (tab c) !! id = None /\
    startOpen e target key c = (Ok (nextOpen (tab c)),
      send e (COpen id target (if bool_decide (normalizeDeviceKey (Some key) <> LEGACY_DEVICE_KEY)
                               then Some (normalizeDeviceKey (Some key)) else None))
        (c <| tab := tab c <| nextTunnelId := id + 1 |>
               <| openingKeys := {[ sessionKey target (Some (normalizeDeviceKey (Some key))) ]} ∪ openingKeys (tab c) |>
               <| pendingOpen := <[id := mk_pending target (normalizeDeviceKey (Some key)) (nextOpen (tab c))]> (pendingOpen (tab c)) |>
               <| nextOpen := S (nextOpen (tab c)) |> |>)).
Proof.
  intros Hn Ho Hf. unfold full in Hf. unfold startOpen.
  replace (Nat.leb _ _) with false by (symmetry; apply Nat.leb_gt; lia).
  replace (Z.leb _ _) with false by (symmetry; apply Z.leb_gt; lia).
  cbn [orb]. rewrite Ho. destruct (alloc_free (tab c) Hn) as (id & -> & _ & H1 & H2). by exists id.
Qed.

Lemma startOpen_monotone e target key c : 0 < nextTunnelId (tab c) -> opens (tab c) (tab (startOpen e target key c).2)
  /\ 0 < nextTunnelId (tab (startOpen e target key c).2).
Proof.
  intros Hn. destruct (decide (full (tab c))) as [Hf|Hf].
  { unfold startOpen. unfold full in Hf. destruct (_ || _) eqn:E; [done|]. bool_cases. lia. }
  destruct (sessionOccupied e (tab c) target (normalizeDeviceKey (Some key))) eqn:Ho.
  { unfold startOpen. rewrite Ho. by case_match. }
  destruct (alloc_free (tab c) Hn) as (i & Ei & Hi & _).
  destruct (startOpen_opens e target key c Hn Ho Hf) as (id & Ht & Hp & E). rewrite E. cbn [snd].
  split; [|cbn]. 
  - split; [cbn; set_solver|]. repeat split. cbn. rewrite map_size_insert_None by done. lia.
  - revert E. unfold startOpen. rewrite Ho, Ei. case_match; [discriminate|]. intros [=]. subst. lia.
Qed.

Lemma maybeOpen_monotone e peer key c : 0 < nextTunnelId (tab c) -> opens (tab c) (tab (maybeOpen e peer key c))
  /\ 0 < nextTunnelId (tab (maybeOpen e peer key c)) /\ ourPeerId (maybeOpen e peer key c) = ourPeerId c
  /\ ownDeviceKey (maybeOpen e peer key c) = ownDeviceKey c.
Proof.
  intros Hn. unfold maybeOpen. case_match; [done|]. case_match; [done|].
  destruct (startOpen_monotone e peer (normalizeDeviceKey (Some key)) c Hn) as [H1' H2']. split; [done|split; [done|]].
  unfold startOpen. case_match; [done|]. case_match; [done|]. by case_match.
Qed.

(** A device is served when it has a tunnel, or one is being opened, or the other side opens it,
    or no more can be opened. *)
Definition served e c peer key : Prop :=
  sessionOccupied e (tab c) peer key = true
  \/ shouldOpenTunnel (ourPeerId c) (Some (ownDeviceKey c)) peer (Some key) = false
  \/ full (tab c).

Lemma maybeOpen_served e peer key c : 0 < nextTunnelId (tab c) ->
  served e (maybeOpen e peer key c) peer (normalizeDeviceKey (Some key)).
Proof.
  intros Hn. assert (Hnn : normalizeDeviceKey (Some (normalizeDeviceKey (Some key))) = normalizeDeviceKey (Some key))
    by apply normalizeDeviceKey_fix, normalizeDeviceKey_ok.
  unfold served, maybeOpen.
  destruct (sessionOccupied e (tab c) peer (normalizeDeviceKey (Some key))) eqn:Ho; [by left|].
  destruct (shouldOpenTunnel _ _ _ _) eqn:Hs; cbn [negb]; [|by right; left].
  destruct (decide (full (tab c))) as [Hf|Hf]; [right; right; by eapply opens_full; [apply startOpen_monotone|]|].
  destruct (startOpen_opens e peer (normalizeDeviceKey (Some key)) c Hn) as (id & _ & _ & ->); [by rewrite Hnn|done|].
  left. rewrite Hnn. unfold sessionOccupied. apply orb_true_iff. left. apply bool_decide_eq_true. cbn. set_solver.
Qed.

Lemma open_all_monotone e peer devices : forall c, 0 < nextTunnelId (tab c) -> opens (tab c) (tab (open_all e peer devices c))
  /\ 0 < nextTunnelId (tab (open_all e peer devices c)) /\ ourPeerId (open_all e peer devices c) = ourPeerId c
  /\ ownDeviceKey (open_all e peer devices c) = ownDeviceKey c.
Proof.
  induction devices as [|d l IH]; intros c Hn; [done|]. cbn [open_all fold_left].
  change (fold_left _ l ?x) with (open_all e peer l x).
  destruct (maybeOpen_monotone e peer (device_id d) c Hn) as (A1 & A2 & A3 & A4).
  destruct (IH _ A2) as (B1 & B2 & B3 & B4). rewrite B3, B4, A3, A4. by split; [etrans|].
Qed.

Lemma open_all_served e peer devices : forall c, 0 < nextTunnelId (tab c) -> forall d, d ∈ devices ->
  served e (open_all e peer devices c) peer (normalizeDeviceKey (Some (device_id d))).
Proof.
  induction devices as [|d l IH]; intros c Hn d' Hd; [by apply not_elem_of_nil in Hd|]. cbn [open_all fold_left].
  change (fold_left _ l ?x) with (open_all e peer l x).
  destruct (maybeOpen_monotone e peer (device_id d) c Hn) as (_ & A2 & _).
  apply elem_of_cons in Hd as [->|Hd]; [|by apply IH].
  destruct (open_all_monotone e peer l _ A2) as (B1 & _ & B3 & B4).
  unfold served. rewrite B3, B4. destruct (maybeOpen_served e peer (device_id d) c Hn) as [Ho|[Hs|Hf]].
  - left. by eapply opens_occupied.
  - by right; left.
  - right; right. by eapply opens_full.
Qed.

(** When a session hears that a contact is online, each of the contact's devices has a
    tunnel, or one is being opened, or it is the other device's turn to open it, or the limits
    are reached.  Nothing is opened to a blocked contact or to the own identity, nor when the
    contact went offline, and no tunnel of a blocked contact is accepted. *)
Theorem presence_opens_tunnels e v c peer : reach c -> text_field v "peerId" = Some peer ->
  let online := truthy (prop (Some v) "online") in
  let devices := remoteDevicesFromPresence online (devices_field v) in
  let c' := handlePresence e v c in
  (online = true -> isBlocked e peer = false -> peer <> ourPeerId c -> forall d, d ∈ devices ->
     let key := normalizeDeviceKey (Some (device_id d)) in
     sessionOccupied e (tab c') peer key = true
     \/ shouldOpenTunnel (ourPeerId c') (Some (ownDeviceKey c')) peer (Some key) = false
     \/ (MAX_PENDING_OPENS <= size (pendingOpen (tab c')))%nat \/ maxTunnels (tab c') <= Z.of_nat (size (tunnels (tab c'))))
  /\ (online = false \/ isBlocked e peer = true \/ peer = ourPeerId c ->
       tunnels (tab c') = tunnels (tab c) /\ pendingOpen (tab c') = pendingOpen (tab c) /\ out c' = out c)
  /\ forall w, string_or_empty (prop (Some w) "from") = peer -> isBlocked e peer = true ->
       tunnels (tab (handleIncoming e w c)) = tunnels (tab c).
Proof.
  intros Hc%reach_ok Hp online devices c'. assert (Hn : 0 < nextTunnelId (tab c)) by apply Hc.
  subst c'. unfold handlePresence. rewrite Hp. fold online. fold devices. cbv zeta.
  set (c1 := emit _ _).
  assert (E : tunnels (tab c1) = tunnels (tab c) /\ pendingOpen (tab c1) = pendingOpen (tab c) /\ out c1 = out c
    /\ nextTunnelId (tab c1) = nextTunnelId (tab c) /\ ourPeerId c1 = ourPeerId c)
    by (subst c1; unfold note_presence; by destruct online).
  clearbody c1. destruct E as (E1 & E2 & E3 & E4 & E5). rewrite E5. split; [|split].
  - intros -> Hb Hne d Hd. rewrite Hb, (bool_decide_eq_false_2 _ Hne). cbn [negb orb].
    apply open_all_served; [by rewrite E4|done].
  - intros Hno. replace (negb online || isBlocked e peer || bool_decide (peer = ourPeerId c)) with true; [done|].
    symmetry. rewrite !orb_true_iff, bool_decide_eq_true. destruct Hno as [->|[Hb|Hs]]; auto.
  - intros w Hw Hb. unfold handleIncoming. cbv zeta. rewrite Hw, Hb, orb_true_r, !orb_true_l. cbn.
    unfold rememberRemoteDevice. by repeat case_match.
Qed.

(** What a request for a tunnel to the device does: it is entered under a free id, with a promise
    of its own, and on an open socket the message that asks the relay joins the control messages.
    When no flush is waiting it is on the wire at once, after all that waited; on a socket that
    is not open nothing is sent, though the request is entered. *)
Definition asks e c c' peer key : Prop :=
  exists id, pendingOpen (tab c) !! id = None /\ tunnels (tab c) !! id = None
    /\ pendingOpen (tab c') = <[id := mk_pending peer key (nextOpen (tab c))]> (pendingOpen (tab c))
    /\ nextOpen (tab c') = S (nextOpen (tab c))
    /\ let m := COpen id peer (if bool_decide (key <> LEGACY_DEVICE_KEY) then Some key else None) in
       (is_open (out c) = true -> all_texts (out c') = all_texts (out c) ++ [m])
       /\ (is_open (out c) = true -> flushing (out c) = false -> (0 < stack_depth e)%nat ->
            texts (wire (out c')) = all_texts (out c) ++ [m] /\ controlQ (out c') = [])
       /\ (is_open (out c) = false -> out c' = out c).

Lemma texts_map l (l' : list bytes) : texts (map Text l ++ map Binary l') = (l : list control).
Proof. rewrite texts_app. induction l as [|c l IH]; cbn; [by induction l'|]. by rewrite <- IH at 2. Qed.

Lemma startOpen_asks e target key c : 0 < nextTunnelId (tab c) -> normalizeDeviceKey (Some key) = key ->
  sessionOccupied e (tab c) target key = false -> ~ full (tab c) -> asks e c (startOpen e target key c).2 target key.
Proof.
  intros Hn Hk Ho Hf. destruct (startOpen_opens e target key c Hn) as (id & Ht & Hp & E); [by rewrite Hk|done|].
  exists id. rewrite E, Hk. cbn [snd send out tab pendingOpen nextOpen field_update].
  split; [done|split; [done|split; [done|split; [done|]]]]. cbv zeta. unfold send. cbn [out]. set (m := COpen _ _ _).
  unfold sendJson. split; [|split].
  - intros ->. cbn [negb]. destruct (flushSends_moves (control_size e) (stack_depth e)
      (out c <| controlQ := controlQ (out c) ++ [m] |>)) as (Hm & _). etrans; [exact Hm|]. unfold all_texts. cbn. by rewrite app_assoc.
  - intros Hopen Hflush Hstack. rewrite Hopen. cbn [negb]. destruct (stack_depth e) as [|stack]; [lia|].
    destruct (flushSends_open (control_size e) stack (out c <| controlQ := controlQ (out c) ++ [m] |>))
      as (sent & rest & _ & _ & Hw & Hc & _); [exact Hopen|exact Hflush|]. split; [|exact Hc]. etrans; [exact (f_equal texts Hw)|].
    rewrite texts_app, texts_map. cbn. unfold all_texts. by rewrite app_assoc.
  - intros ->. done.
Qed.

(** C17: Two devices of different contacts that hear of each other, with no session between them
    and room for one: exactly one of them asks the relay for a tunnel, with the other's device
    as its target, and nothing changes on the other.  Asking is a new request with a free id and,
    on an open socket, the message [open] to the relay; where no flush is waiting the message is
    on the wire when the call returns. *)
Theorem exactly_one_device_opens ea eb ca cb : reach ca -> reach cb ->
  let pa := ourPeerId ca in let pb := ourPeerId cb in
  let ka := ownDeviceKey ca in let kb := ownDeviceKey cb in
  pa <> "" -> pb <> "" -> pa <> pb ->
  sessionOccupied ea (tab ca) pb kb = false -> sessionOccupied eb (tab cb) pa ka = false ->
  ~ full (tab ca) -> ~ full (tab cb) ->
  (asks ea ca (maybeOpen ea pb kb ca) pb kb /\ maybeOpen eb pa ka cb = cb)
  \/ (asks eb cb (maybeOpen eb pa ka cb) pa ka /\ maybeOpen ea pb kb ca = ca).
Proof.
  intros Ha%reach_ok Hb%reach_ok pa pb ka kb Hpa Hpb Hne Hoa Hob Hfa Hfb.
  assert (Hna : 0 < nextTunnelId (tab ca)) by apply Ha. assert (Hnb : 0 < nextTunnelId (tab cb)) by apply Hb.
  assert (Hk : forall c, normalizeDeviceKey (Some (ownDeviceKey c)) = ownDeviceKey c).
  { intros c. apply normalizeDeviceKey_fix. unfold ownDeviceKey. destruct (isValidDeviceId _) eqn:E; [by right; right|by left]. }
  assert (Hmk : normalizeDeviceKey (Some ka) = ka) by apply Hk. assert (Hmk' : normalizeDeviceKey (Some kb) = kb) by apply Hk.
  unfold maybeOpen. rewrite Hmk, Hmk', Hoa, Hob. fold pa pb ka kb.
  rewrite (one_side_opens pa pb (Some ka) (Some kb)) by done.
  destruct (shouldOpenTunnel pb (Some kb) pa (Some ka)); cbn [negb].
  - right. split; [by apply startOpen_asks|done].
  - left. split; [by apply startOpen_asks|done].
Qed.

(** ** Bytes *)

(** What the relay does with the frames of tunnel [ida]: it passes their payloads on, in order,
    under the id that the other end has for the tunnel. *)
Fixpoint forwarded (ida idb : Z) (frames : list bytes) : list bytes :=
  match frames with
  | [] => []
  | f :: rest =>
      match decodeTunnelFrame f with
      | Some (i, payload) =>
          if Z.eqb i ida then encodeTunnelFrame idb payload :: forwarded ida idb rest else forwarded ida idb rest
      | None => forwarded ida idb rest
      end
  end.

Definition receive e (frames : list bytes) c : client :=
  fold_left (fun c f => on_message e (MBinary f) c) frames c.

(** The session stands and has the tunnel, whose handle has been given [got]. *)
Definition carries id uid ready (got : bytes) c : Prop :=
  at_phase (loop c) = InSession /\ is_open (out c) = true /\ tunnels (tab c) !! id = Some uid
  /\ exists h, handles (tab c) !! uid = Some h /\ h_ready h = ready /\ (ready = true -> h_queue h = [])
       /\ concat (h_pushed h ++ h_queue h) = got.

Lemma carries_payload e id uid ready got payload c : 0 < id < 2 ^ 32 -> (length payload <= MAX_TUNNEL_PAYLOAD)%nat ->
  carries id uid ready got c -> carries id uid ready (got ++ payload) (on_message e (MBinary (encodeTunnelFrame id payload)) c).
Proof.
  intros Hid Hl (Hp & Ho & Ht & h & Hh & Hr & Hq & Hg). unfold on_message. rewrite Hp. unfold after_message, handleBinary.
  rewrite decode_encode by done. replace (Nat.ltb _ _) with false by (symmetry; by apply Nat.ltb_ge).
  rewrite Ht, Hh. cbn [out field_update]. rewrite Ho. split; [done|split; [done|split; [done|]]].
  eexists. split; [cbn; apply lookup_insert_eq|]. rewrite <- Hg, Hr. destruct ready; cbn.
  - rewrite Hq by done. split; [done|split; [done|]]. rewrite !app_nil_r, concat_app. cbn. by rewrite app_nil_r.
  - split; [done|split; [done|]]. rewrite app_assoc, concat_app. cbn. by rewrite app_nil_r.
Qed.

Lemma carries_frames e ida idb uid ready frames : 0 < idb < 2 ^ 32 ->
  Forall (fun f => (4 < length f <= 4 + MAX_TUNNEL_PAYLOAD)%nat) frames -> forall got c,
  carries idb uid ready got c -> carries idb uid ready (got ++ tunnel_bytes ida frames) (receive e (forwarded ida idb frames) c).
Proof.
  intros Hid Hf. induction Hf as [|f frames Hf Hfs IH]; intros got c Hc; cbn [forwarded tunnel_bytes]; [by rewrite app_nil_r|].
  destruct (decodeTunnelFrame f) as [[i payload]|] eqn:Hd; [|by apply IH]. destruct (i =? ida); [|by apply IH].
  rewrite app_assoc. cbn [receive fold_left]. apply IH, carries_payload; [done| |done].
  revert Hd. unfold decodeTunnelFrame. repeat case_match; intros [= _ <-]. rewrite length_drop.
  revert Hf. generalize MAX_TUNNEL_PAYLOAD. intros M Hf. lia.
Qed.

(** C8: Bytes cross the relay in order.  One client has sent on a tunnel, in any history of its
    socket; the relay forwards the frames on the wire, in order, under the other end's tunnel id;
    the other client, in a session with that tunnel open, receives them.  Then what its handle
    was given, followed by what the first client still has queued, is what it had before followed
    by everything written; a handle that is ready has passed all of it on, and one that becomes
    ready passes on what waited. *)
Theorem bytes_cross_the_relay {C} (text_size : C -> Z) stack s cs ws e ida idb uid h c :
  history text_size stack s cs ws -> Forall (fun w => 0 < w.1 < 2 ^ 32) ws -> 0 < idb < 2 ^ 32 ->
  reach c -> at_phase (loop c) = InSession -> is_open (out c) = true ->
  tunnels (tab c) !! idb = Some uid -> handles (tab c) !! uid = Some h ->
  let c' := receive e (forwarded ida idb (binaries (wire s))) c in
  exists h', handles (tab c') !! uid = Some h' /\ h_ready h' = h_ready h
    /\ concat (h_pushed h' ++ h_queue h') ++ tunnel_bytes ida (dataQ s) = concat (h_pushed h ++ h_queue h) ++ written ida ws
    /\ (h_ready h = true -> h_queue h' = [])
    /\ exists h'', handles (tab (attach_ready uid c')) !! uid = Some h'' /\ h_ready h'' = true /\ h_queue h'' = []
         /\ concat (h_pushed h'') = concat (h_pushed h' ++ h_queue h').
Proof.
  intros Hs Hws Hid Hc%reach_ok Hp Ho Ht Hh c'. destruct Hc as [[I _] _].
  assert (Hcar : carries idb uid (h_ready h) (concat (h_pushed h ++ h_queue h)) c).
  { split; [done|split; [done|split; [done|]]]. exists h. split; [done|]. split; [done|]. split; [by apply (inv_ready _ I uid)|done]. }
  apply history_all in Hs as [_ Hb]. unfold all_binaries in Hb.
  assert (Hw : tunnel_bytes ida (binaries (wire s)) ++ tunnel_bytes ida (dataQ s) = written ida ws)
    by (by rewrite <- tunnel_bytes_app, Hb, tunnel_bytes_frames).
  assert (Hf : Forall (fun f => (4 < length f <= 4 + MAX_TUNNEL_PAYLOAD)%nat) (binaries (wire s)))
    by (pose proof (frames_bound ws) as Hf; rewrite <- Hb in Hf; by apply Forall_app in Hf as [? _]).
  destruct (carries_frames e ida idb uid _ _ Hid Hf _ _ Hcar) as (_ & _ & _ & h' & Hh' & Hr & Hq & Hg).
  exists h'. split; [done|]. split; [done|]. split; [by rewrite Hg, <- app_assoc, Hw|]. split; [done|].
  unfold attach_ready. fold c' in Hh'. rewrite Hh'. eexists. split; [cbn; apply lookup_insert_eq|].
  done.
Qed.

(** ** What is sent, and the mailbox *)

Definition never_close (m : control) : Prop := forall id, m <> CClose id.

Definition no_close (s : sender control) : Prop := Forall never_close (all_texts s).

(** The step leaves the mailbox alone and sends no [close]. *)
Definition quiet c c' : Prop := box c' = box c /\ (no_close (out c) -> no_close (out c')).

#[local] Instance quiet_preorder : PreOrder quiet.
Proof. split; [by intros c|]. intros c1 c2 c3 [A1 A2] [B1 B2]. split; [congruence|auto]. Qed.

Lemma quiet_same c c' : box c' = box c -> out c' = out c -> quiet c c'.
Proof. intros Hb Ho. split; [done|by rewrite Ho]. Qed.

Lemma no_close_texts s s' : all_texts s' = all_texts s -> no_close s -> no_close s'.
Proof. unfold no_close. by intros ->. Qed.

Lemma no_close_json text_size stack m s : never_close m -> no_close s -> no_close (sendJson text_size stack m s).
Proof.
  intros Hm Hs. unfold sendJson. destruct (is_open s); cbn [negb]; [|done].
  destruct (flushSends_moves text_size stack (s <| controlQ := controlQ s ++ [m] |>)) as (Ht & _).
  unfold no_close. rewrite Ht. unfold all_texts. cbn. rewrite app_assoc. apply Forall_app. split; [exact Hs|by constructor].
Qed.

Lemma quiet_send e m c : never_close m -> quiet c (send e m c).
Proof. intros Hm. split; [done|]. by apply no_close_json. Qed.

Lemma quiet_setState st error c : quiet c (setState st error c).
Proof. by apply quiet_same. Qed.

Lemma quiet_finally c : quiet c (session_finally c).
Proof. split; [done|]. unfold no_close, all_texts. cbn. rewrite app_nil_r. by intros [? _]%Forall_app. Qed.

Lemma quiet_failed e m c : quiet c (session_failed e m c).2.
Proof. unfold session_failed. by repeat (case_match; [by apply quiet_same|]). Qed.

Lemma quiet_open_session e c : quiet c (open_session e c).2.
Proof.
  unfold open_session. repeat case_match; try by apply quiet_same. split; [done|].
  unfold no_close, all_texts. cbn. by intros [_ ?]%Forall_app.
Qed.

Lemma quiet_run_loop n e : forall c, quiet c (run_loop n e c).
Proof.
  induction n as [|n IH]; intros c; cbn [run_loop]; [by apply quiet_same|].
  repeat (case_match; [by apply quiet_same|]).
  pose proof (quiet_open_session e (setState Connecting "" c)) as Ho. destruct (open_session _ _) as [[m|] c1]; cbn [snd] in Ho.
  - pose proof (quiet_failed e m c1) as Hf. destruct (session_failed e m c1) as [[] c2]; cbn [snd] in Hf.
    + etrans; [|apply IH]. etrans; [|exact Hf]. etrans; [apply quiet_setState|exact Ho].
    + etrans; [|exact Hf]. etrans; [apply quiet_setState|exact Ho].
  - etrans; [apply quiet_setState|exact Ho].
Qed.

Lemma quiet_throws e m c : quiet c (session_throws e m c).
Proof.
  unfold session_throws. etrans; [apply quiet_finally|]. pose proof (quiet_failed e m (session_finally c)) as Hf.
  destruct (session_failed e m _) as [[] c1]; cbn [snd] in Hf; [|done]. etrans; [exact Hf|apply quiet_run_loop].
Qed.

Lemma quiet_returns e c : quiet c (session_returns e c).
Proof. unfold session_returns. etrans; [apply quiet_finally|]. etrans; [|apply quiet_run_loop]. by apply quiet_same. Qed.

Lemma quiet_wake e c : quiet c (wake e c).
Proof. unfold wake. case_match; try done; apply quiet_run_loop. Qed.

Lemma quiet_start e c : quiet c (start e c).
Proof. unfold start. case_match; try done. etrans; [|apply quiet_run_loop]. by apply quiet_same. Qed.

(** Giving up the socket sends nothing. *)
Lemma quiet_flags c c' : box c' = box c -> all_texts (out c') = all_texts (out c) -> quiet c c'.
Proof. intros Hb Ht. split; [done|by apply no_close_texts]. Qed.

Lemma quiet_reconnect e c : quiet c (reconnect e c).
Proof. unfold reconnect. etrans; [|apply quiet_wake]. by apply quiet_flags. Qed.

Lemma quiet_closeLocal id c : quiet c (closeLocalTunnel id c).
Proof. unfold closeLocalTunnel. case_match; [by apply quiet_same|done]. Qed.

Lemma quiet_startOpen e target key c : quiet c (startOpen e target key c).2.
Proof.
  unfold startOpen. case_match; [done|]. case_match; [done|]. destruct (allocTunnelId (tab c)) as [id t].
  cbn [snd]. etrans; [|by apply quiet_send]. by apply quiet_same.
Qed.

Lemma quiet_maybeOpen e peer key c : quiet c (maybeOpen e peer key c).
Proof. unfold maybeOpen. case_match; [done|]. case_match; [done|]. apply quiet_startOpen. Qed.

Lemma quiet_open_all e peer devices : forall c, quiet c (open_all e peer devices c).
Proof.
  unfold open_all. induction devices as [|d l IH]; intros c; cbn; [done|]. etrans; [apply quiet_maybeOpen|apply IH].
Qed.

Lemma quiet_open_devices e target known : forall first c, quiet c (open_devices e target known first c).2.
Proof.
  induction known as [|d known IH]; intros first c; cbn [open_devices]; [done|]. case_match; [apply IH|].
  pose proof (quiet_startOpen e target (device_id d) c) as Hs. destruct (startOpen _ _ _ c) as [r c1]. etrans; [exact Hs|apply IH].
Qed.

Lemma quiet_one_open e target key c : quiet c (one_open e target key c).2.
Proof.
  unfold one_open. case_match; [done|]. pose proof (quiet_startOpen e target key c) as Hs.
  by destruct (startOpen e target key c) as [[] ?].
Qed.

Lemma quiet_openPeer e peer device c : quiet c (openPeer e peer device c).2.
Proof.
  unfold openPeer. do 2 (case_match; [done|]). case_match; [|apply quiet_one_open].
  destruct (remoteDevices (tab c) !! trim peer) as [[|d known]|]; [apply quiet_one_open| |apply quiet_one_open].
  pose proof (quiet_open_devices e (trim peer) (d :: known) None c) as Hs.
  by destruct (open_devices _ _ (d :: known) None c) as [[[]|]].
Qed.

Lemma quiet_presence e v c : quiet c (handlePresence e v c).
Proof.
  unfold handlePresence. case_match; [|done]. cbv zeta. set (c1 := emit _ _).
  assert (Hq : quiet c c1) by (subst c1; unfold note_presence; case_match; by apply quiet_same).
  clearbody c1. case_match; [done|]. etrans; [exact Hq|apply quiet_open_all].
Qed.

Lemma quiet_incoming e v c : quiet c (handleIncoming e v c).
Proof.
  unfold handleIncoming. cbv zeta. set (c1 := c <| tab := _ |>). assert (H1 : quiet c c1) by by apply quiet_same.
  clearbody c1. etrans; [exact H1|]. case_match; [by apply quiet_send|].
  etrans; [by apply (quiet_send e (CAccept (tunnel_field v)))|by apply quiet_same].
Qed.

Lemma quiet_settle_post v outcome c : quiet c (settle_post v outcome c).
Proof. unfold settle_post. by repeat case_match; apply quiet_same. Qed.

(** Every message but [mail]. *)
Lemma quiet_message e v c : quiet c (session_message e v c).2 \/ (session_message e v c).2 = handleMail v c.
Proof.
  apply (message_cases (fun c' => quiet c c' \/ c' = handleMail v c)); auto; left; try by apply quiet_same.
  - unfold handlePong. by repeat case_match; apply quiet_same.
  - apply quiet_presence.
  - apply quiet_incoming.
  - unfold handleOpened. case_match; [by apply quiet_same|done].
  - unfold handleOpenFailed. case_match; [by apply quiet_same|done].
  - unfold handleClosed. repeat case_match; try done. apply quiet_closeLocal.
  - apply quiet_settle_post.
  - apply quiet_settle_post.
Qed.

Lemma no_close_step e ev c : no_close (out c) -> no_close (out (step e ev c)).
Proof.
  intros Hn. assert (Hq : forall c', quiet c c' -> no_close (out c')) by (intros c' [_ Hq]; by apply Hq).
  destruct ev; cbn [step]; try (apply Hq; by apply quiet_same).
  - apply Hq, quiet_start.
  - unfold setConfig. destruct (parseRelayUrl e _); [|done]. apply Hq. cbn. etrans; [|apply quiet_reconnect]. by apply quiet_same.
  - apply Hq, quiet_reconnect.
  - apply Hq. unfold takeover. etrans; [|apply quiet_wake]. etrans; [|apply quiet_start]. by apply quiet_flags.
  - apply Hq. unfold yieldToOtherTab. etrans; [|apply quiet_wake]. etrans; [|apply quiet_setState]. by apply quiet_flags.
  - apply Hq. by apply quiet_flags.
  - case_match; [|done]. exact Hn.
  - unfold on_message. destruct (at_phase (loop c)) as [| | |me|me| | |]; try exact Hn.
    + destruct m as [v|]; [|apply Hq, quiet_throws]. apply Hq. unfold hello_message, after_step.
      repeat case_match; simplify_eq; try apply quiet_throws; (etrans; [|by apply (quiet_send e (CAuth _ _ _ _ _))]); by apply quiet_same.
    + destruct m as [v|]; [|apply Hq, quiet_throws]. unfold ready_message. destruct (negb _); [apply Hq, quiet_throws|].
      cbv zeta. set (c' := at_loop InSession _).
      assert (Hc' : no_close (out c')) by (by apply (no_close_json _ _ (CWatch _))).
      clearbody c'. case_match; [done|]. by apply (quiet_returns e c').
    + unfold after_message. destruct m as [v|data].
      * destruct (quiet_message e v c) as [Hm|Hm]; destruct (session_message e v c) as [[err|] c']; cbn in Hm.
        -- apply Hq. etrans; [exact Hm|apply quiet_throws].
        -- apply Hq. case_match; [done|]. etrans; [exact Hm|apply quiet_returns].
        -- subst c'. apply (quiet_throws e err). unfold handleMail. by repeat case_match.
        -- subst c'. assert (Hm : no_close (out (handleMail v c))) by (unfold handleMail; by repeat case_match).
           case_match; [done|]. by apply (quiet_returns e).
      * assert (Hb : quiet c (handleBinary data c))
          by (unfold handleBinary; repeat case_match; try done; try apply quiet_closeLocal; by apply quiet_same).
        apply Hq. case_match; [done|]. etrans; [exact Hb|apply quiet_returns].
  - unfold on_closed. case_match; try done; by apply Hq, quiet_throws.
  - unfold on_timeout. case_match; try done; by apply Hq, quiet_throws.
  - unfold on_timer. case_match; try done. by apply Hq, quiet_run_loop.
  - unfold on_ping. case_match; try done. apply Hq. etrans; [|by apply (quiet_send e (CPing _))]. by apply quiet_same.
  - cbn. apply (no_close_texts (out c)); [|done]. apply flush_poll_moves.
  - apply Hq. by apply quiet_flags.
  - apply Hq. unfold attach_ready. case_match; [by apply quiet_same|done].
  - apply Hq. unfold attach_done. case_match; [|done]. by case_match; apply quiet_same.
  - apply Hq. unfold attach_failed. case_match; [|done]. set (c1 := c <| tab := _ |>).
    assert (Hc1 : quiet c c1) by by apply quiet_same. clearbody c1.
    assert (Hc2 : quiet c (closeLocalTunnel (a_tunnel a) c1)) by (etrans; [exact Hc1|apply quiet_closeLocal]).
    case_match; [|done]. etrans; [exact Hc2|by apply quiet_same].
  - unfold tunnel_send. case_match; [|done]. cbn. unfold sendBinary. case_match; [done|].
    apply (no_close_texts (out c)); [|done].
    destruct (flushSends_moves (control_size e) (stack_depth e)
      (out c <| dataQ := dataQ (out c) ++ map (encodeTunnelFrame (h_tunnel h)) (chunks payload) |>)) as (Ht & _).
    by rewrite Ht.
  - apply Hq, quiet_openPeer.
  - apply Hq. unfold postMail. repeat (case_match; [done|]). etrans; [|by apply (quiet_send e (CPost _ _ _))]. by apply quiet_same.
  - exact Hn.
  - unfold ackMail. case_match; [done|]. by apply (no_close_json _ _ (CAck _)).
  - unfold refreshWatch. case_match; [|done]. apply Hq. by apply (quiet_send e (CWatch _)).
Qed.

(** The client never tells the relay that a tunnel is closed: whatever happens, no [close]
    message is sent or waits to be sent, although every handle is given a function that would. *)
Theorem close_never_sent c id : reach c -> CClose id ∉ texts (wire (out c)) ++ controlQ (out c).
Proof.
  intros Hc. assert (Hn : no_close (out c)) by (induction Hc as [|e ev c _ IH _]; [by constructor|by apply no_close_step]).
  intros Hin. unfold no_close, all_texts in Hn. rewrite Forall_forall in Hn. by apply (Hn _ Hin id).
Qed.

(** ** Mail *)

Definition known (b : mailbox) (id : string) : Prop := id ∈ map mail_id (mail b) \/ is_Some (inFlight b !! id).

(** What an event does to the mailbox. *)
Inductive box_step (c : client) : event -> mailbox -> Prop :=
| box_same ev : box_step c ev (box c)
| box_mail item m : accept_mail item (box c) = true -> box_step c (EvMessage m) (box c <| mail := mail (box c) ++ [item] |>)
| box_drain : box_step c EvDrainMail (box (drainMail c).2)
| box_ack ids : box_step c (EvAckMail ids) (fold_left forget_mail (clean_ids ids) (box c))
| box_ready me m : at_phase (loop c) = AwaitReady me -> box_step c (EvMessage m) (box c <| inFlight := ∅ |>).

Lemma quiet_box c c' ev : quiet c c' -> box_step c ev (box c').
Proof. intros [-> _]. constructor. Qed.

Lemma mail_box e v c m : box_step c (EvMessage m) (box (handleMail v c)).
Proof.
  unfold handleMail. destruct (text_field v "id") as [id|]; [|constructor]. destruct (text_field v "from") as [from|]; [|constructor].
  cbv zeta. destruct (negb _) eqn:Ha; [constructor|]. apply negb_false_iff in Ha. by apply box_mail.
Qed.

Lemma message_box e v c m : box_step c (EvMessage m) (box (session_message e v c).2).
Proof. destruct (quiet_message e v c) as [Hq| ->]; [by apply quiet_box|apply (mail_box e)]. Qed.

Lemma on_message_box e m c : box_step c (EvMessage m) (box (on_message e m c)).
Proof.
  assert (Hq : forall c', quiet c c' -> box_step c (EvMessage m) (box c')) by (intros; by apply quiet_box).
  unfold on_message. destruct (at_phase (loop c)) as [| | |me|me| | |] eqn:Hp; try constructor.
  - destruct m as [v|]; [|apply Hq, quiet_throws]. apply Hq. unfold hello_message, after_step.
    repeat case_match; simplify_eq; try apply quiet_throws; (etrans; [|by apply (quiet_send e (CAuth _ _ _ _ _))]); by apply quiet_same.
  - destruct m as [v|]; [|apply Hq, quiet_throws].
    destruct (ready_cases e me v c) as [[err ->]|(c' & limit & -> & _ & _ & _ & Hb & _)]; [apply Hq, quiet_throws|].
    assert (Hb' : box (if is_open (out c') then c' else session_returns e c') = box c <| inFlight := ∅ |>)
      by (case_match; [done|]; by rewrite (proj1 (quiet_returns e c'))).
    rewrite Hb'. by eapply box_ready.
  - unfold after_message. destruct m as [v|data].
    + pose proof (message_box e v c (MJson v)) as Hm. destruct (session_message e v c) as [[err|] c']; cbn [snd] in Hm.
      * by rewrite (proj1 (quiet_throws e err c')).
      * case_match; [done|]. by rewrite (proj1 (quiet_returns e c')).
    + assert (Hb : quiet c (handleBinary data c))
        by (unfold handleBinary; repeat case_match; try done; try apply quiet_closeLocal; by apply quiet_same).
      apply Hq. case_match; [done|]. etrans; [exact Hb|apply quiet_returns].
Qed.

Lemma step_box e ev c : box_step c ev (box (step e ev c)).
Proof.
  destruct ev; cbn [step]; try exact (box_same c _); try exact (box_drain c).
  - apply quiet_box, quiet_start.
  - apply quiet_box. unfold setConfig. destruct (parseRelayUrl e _); [|done]. cbn. etrans; [|apply quiet_reconnect]. by apply quiet_same.
  - apply quiet_box, quiet_reconnect.
  - apply quiet_box. unfold takeover. etrans; [|apply quiet_wake]. etrans; [|apply quiet_start]. by apply quiet_flags.
  - apply quiet_box. unfold yieldToOtherTab. etrans; [|apply quiet_wake]. etrans; [|apply quiet_setState]. by apply quiet_flags.
  - case_match; exact (box_same c _).
  - apply on_message_box.
  - apply quiet_box. unfold on_closed. case_match; try done; by apply quiet_throws.
  - apply quiet_box. unfold on_timeout. case_match; try done; by apply quiet_throws.
  - apply quiet_box. unfold on_timer. case_match; try done. by apply quiet_run_loop.
  - unfold on_ping. case_match; exact (box_same c _).
  - unfold attach_ready. case_match; exact (box_same c _).
  - unfold attach_done. repeat case_match; exact (box_same c _).
  - apply quiet_box. unfold attach_failed. case_match; [|done]. set (c1 := c <| tab := _ |>).
    assert (Hc1 : quiet c c1) by by apply quiet_same. clearbody c1.
    assert (Hc2 : quiet c (closeLocalTunnel (a_tunnel a) c1)) by (etrans; [exact Hc1|apply quiet_closeLocal]).
    case_match; [|done]. etrans; [exact Hc2|by apply quiet_same].
  - unfold tunnel_send. case_match; exact (box_same c _).
  - apply quiet_box, quiet_openPeer.
  - unfold postMail. repeat case_match; exact (box_same c _).
  - unfold ackMail. destruct (clean_ids ids) as [|id l] eqn:E; [exact (box_same c _)|]. cbn [box send field_update]. rewrite <- E. apply box_ack.
  - unfold refreshWatch. case_match; exact (box_same c _).
Qed.

(** Each mail once, and an item in flight not again in the list. *)
Record box_ok (b : mailbox) : Prop := {
  box_once : NoDup (map mail_id (mail b));
  box_apart id : id ∈ map mail_id (mail b) -> inFlight b !! id = None
}.

Lemma in_flight_fold l : forall (m : gmap string mail_item) id, is_Some (fold_left (fun m (i : mail_item) => <[mail_id i := i]> m) l m !! id)
  <-> is_Some (m !! id) \/ id ∈ map mail_id l.
Proof.
  induction l as [|i l IH]; intros m id; cbn; [set_solver|]. rewrite IH, elem_of_cons, lookup_insert_is_Some.
  destruct (decide (id = mail_id i)) as [->|]; [tauto|]. naive_solver.
Qed.

Lemma forget_known ids : forall b id, known (fold_left forget_mail ids b) id <-> known b id /\ id ∉ ids.
Proof.
  induction ids as [|x ids IH]; intros b id; cbn [fold_left]; [set_solver|]. rewrite IH, not_elem_of_cons.
  unfold known. cbn [forget_mail mail inFlight]. split.
  - intros [[Hm|Hf] Hn].
    + apply list_elem_of_fmap in Hm as (i & -> & [Hi Hin]%list_elem_of_filter). split; [|by split].
      left. apply list_elem_of_fmap. by exists i.
    + apply lookup_delete_is_Some in Hf as [Hne Hf]. auto.
  - intros [[Hm|Hf] [Hne Hn]]; (split; [|done]).
    + left. apply list_elem_of_fmap in Hm as (i & -> & Hin). apply list_elem_of_fmap. exists i. split; [done|].
      by apply list_elem_of_filter.
    + right. by apply lookup_delete_is_Some.
Qed.

Lemma forget_ok ids : forall b, box_ok b -> box_ok (fold_left forget_mail ids b).
Proof.
  induction ids as [|x ids IH]; intros b [Ho Ha]; cbn [fold_left]; [done|]. apply IH. split; cbn.
  - induction (mail b) as [|i l IHl]; [constructor|]. apply NoDup_cons in Ho as [Hi Ho].
    rewrite filter_cons. case_decide; [|apply IHl; [done|intros id Hid; apply Ha; by right]].
    cbn. apply NoDup_cons. split; [|apply IHl; [done|intros id Hid; apply Ha; by right]].
    intros (j & Hj & [_ Hin]%list_elem_of_filter)%list_elem_of_fmap. apply Hi, list_elem_of_fmap. by exists j.
  - intros id (i & -> & [Hi Hin]%list_elem_of_filter)%list_elem_of_fmap. rewrite lookup_delete_ne by done.
    apply Ha, list_elem_of_fmap. by exists i.
Qed.

Lemma box_step_ok c ev b : box_step c ev b -> box_ok (box c) -> box_ok b.
Proof.
  intros Hs Hb. destruct Hs as [ev|item m Hacc| |ids|me m Hp]; try done; try (destruct Hb as [Ho Ha]).
  - unfold accept_mail in Hacc. apply andb_true_iff in Hacc as [H1 H2]. rewrite negb_true_iff in H1, H2.
    apply bool_decide_eq_false_1 in H1. rewrite <- eq_None_not_Some in H1.
    assert (Hni : mail_id item ∉ map mail_id (mail (box c))).
    { intros (i & Ei & Hi)%list_elem_of_fmap. apply not_true_iff_false in H2. apply H2, existsb_exists. exists i.
      split; [by apply list_elem_of_In|]. by rewrite bool_decide_eq_true. }
    split; cbn.
    + rewrite map_app. apply NoDup_app. split; [done|]. split; [|apply NoDup_singleton]. cbn. set_solver.
    + intros id. rewrite map_app, elem_of_app. intros [Hid|[-> |Hid%not_elem_of_nil]%elem_of_cons]; [by apply Ha|done|done].
  - split; cbn; [constructor|]. by intros id Hid%not_elem_of_nil.
  - by apply forget_ok.
  - split; cbn; [done|]. intros id _. apply lookup_empty.
Qed.

(** C18: Mail reaches the application once and is not lost.  In every reachable state each mail
    waits once, and none that was handed out and not acknowledged waits again; handing out gives
    everything that waits, and keeps it in flight; and whatever happens, a mail the client knows
    stays known until it is acknowledged, or until a new session begins, in which the relay
    sends it again. *)
Theorem mail_kept_until_acknowledged c : reach c ->
  NoDup (map mail_id (mail (box c)))
  /\ (forall id, id ∈ map mail_id (mail (box c)) -> inFlight (box c) !! id = None)
  /\ (let '(items, c') := drainMail c in items = mail (box c) /\ mail (box c') = []
        /\ forall id, known (box c') id <-> known (box c) id)
  /\ forall e ev id, known (box c) id ->
       known (box (step e ev c)) id
       \/ (exists ids, ev = EvAckMail ids /\ id ∈ clean_ids ids)
       \/ (is_Some (inFlight (box c) !! id) /\ (exists m me, ev = EvMessage m /\ at_phase (loop c) = AwaitReady me)).
Proof.
  intros Hc. assert (Hb : box_ok (box c)).
  { induction Hc as [e|e ev c _ IH _]; [split; cbn; [constructor|by intros id Hid%not_elem_of_nil]|].
    eapply box_step_ok; [apply step_box|done]. }
  assert (Hd : forall id, known (box (drainMail c).2) id <-> known (box c) id).
  { intros id. unfold known. cbn. rewrite in_flight_fold. set_solver. }
  split; [apply Hb|]. split; [apply Hb|]. split; [split; [done|split; [done|exact Hd]]|].
  intros e ev id Hk. destruct (step_box e ev c) as [ev|item m Hacc| |ids|me m Hp].
  - by left.
  - left. destruct Hk as [Hk|Hk]; [left|by right]. cbn. rewrite map_app. set_solver.
  - left. by apply Hd.
  - destruct (decide (id ∈ clean_ids ids)); [right; left; by exists ids|]. left. by apply forget_known.
  - destruct Hk as [Hk|Hk]; [by left; left|]. right; right. split; [done|by exists m, me].
Qed.

Lemma ackMail_known e ids c id : known (box (ackMail e ids c)) id <-> known (box c) id /\ id ∉ clean_ids ids.
Proof.
  unfold ackMail. destruct (clean_ids ids) as [|x l] eqn:E; [set_solver|]. cbn [box send field_update].
  by rewrite <- E, forget_known.
Qed.

(** [ackMail] takes 500 ids and drops the others: they are neither told to the relay nor
    forgotten, so that these mails come again in the next session. *)
Lemma acks_beyond_500_lost e ids id c : id ∉ take 500 (filter (fun id => id <> "" /\ (String.length id <= 128)%nat) (map trim ids)) ->
  known (box (ackMail e ids c)) id <-> known (box c) id.
Proof. rewrite ackMail_known. unfold clean_ids. tauto. Qed.

(** ** Waiting between connections *)

Definition paced (l : loop_state) : Prop :=
  BACKOFF_MIN_MS <= backoffMs l <= BACKOFF_MAX_MS
  /\ match at_phase l with Sleeping w => BACKOFF_MIN_MS <= w <= BACKOFF_MAX_MS + BACKOFF_MAX_MS / 4 | _ => True end.

Lemma jitter_bound e b : 0 <= random53 e < 2 ^ 53 -> BACKOFF_MIN_MS <= b -> 0 <= jitter e b <= b / 4.
Proof.
  intros Hr Hb. unfold jitter, BACKOFF_MIN_MS in *. rewrite Z.max_r by lia. split.
  - apply Z.div_pos; lia.
  - rewrite Z.mul_comm with (n := 4). rewrite <- Z.div_div by lia. apply Z.div_le_mono; [lia|].
    apply Z.div_le_upper_bound; [lia|]. nia.
Qed.

Lemma paced_phase p c : (forall w, p <> Sleeping w) -> paced (loop c) -> paced (loop (at_loop p c)).
Proof. intros Hp [Hb _]. split; [exact Hb|]. cbn. destruct p; try done. by destruct (Hp wait). Qed.

Lemma paced_failed e m c : 0 <= random53 e < 2 ^ 53 -> paced (loop c) -> paced (loop (session_failed e m c).2).
Proof.
  intros Hr Hp. unfold session_failed. destruct (stopped (loop c)); [by apply paced_phase|].
  destruct (reconfigure (loop c)).
  { destruct Hp as [Hb Hw]. split; [cbn; unfold BACKOFF_MIN_MS, BACKOFF_MAX_MS; lia|exact Hw]. }
  destruct (yielded (loop c)); [exact Hp|]. case_bool_decide; [exact Hp|]. destruct Hp as [Hb _].
  cbv zeta. cbn [snd]. set (c1 := setState _ m c). assert (E : loop c1 = loop c) by done. clearbody c1.
  pose proof (jitter_bound e (backoffMs (loop c)) Hr (proj1 Hb)) as Hj.
  pose proof (Z.div_le_mono (backoffMs (loop c)) BACKOFF_MAX_MS 4 ltac:(lia) (proj2 Hb)) as Hd.
  split; cbn [loop at_loop field_update backoffMs at_phase]; rewrite E; unfold BACKOFF_MIN_MS, BACKOFF_MAX_MS in *; lia.
Qed.

Lemma paced_run_loop n e : 0 <= random53 e < 2 ^ 53 -> forall c, paced (loop c) -> paced (loop (run_loop n e c)).
Proof.
  intros Hr. induction n as [|n IH]; intros c Hp; cbn [run_loop]; [by apply paced_phase|].
  repeat (case_match; [by apply paced_phase|]).
  destruct (open_session_cases e (setState Connecting "" c)) as (Hcase & _ & _).
  assert (Hl : paced (loop (open_session e (setState Connecting "" c)).2)).
  { destruct Hcase as [[Hm [me Hph]]|[_ Hl]]; [|by rewrite Hl].
    revert Hm. unfold open_session. repeat case_match; intros Hm; try discriminate Hm. by apply paced_phase. }
  destruct (open_session _ _) as [[m|] c1]; cbn [snd] in Hl; [|done].
  pose proof (paced_failed e m c1 Hr Hl) as Hf. destruct (session_failed e m c1) as [[] c2]; cbn [snd] in Hf; [by apply IH|done].
Qed.

Lemma paced_throws e m c : 0 <= random53 e < 2 ^ 53 -> paced (loop c) -> paced (loop (session_throws e m c)).
Proof.
  intros Hr Hp. unfold session_throws. pose proof (paced_failed e m (session_finally c) Hr Hp) as Hf.
  destruct (session_failed e m _) as [[] c1]; cbn [snd] in Hf; [by apply paced_run_loop|done].
Qed.

Lemma paced_returns e c : 0 <= random53 e < 2 ^ 53 -> paced (loop c) -> paced (loop (session_returns e c)).
Proof.
  intros Hr [Hb Hw]. unfold session_returns. apply paced_run_loop; [done|].
  split; [cbn; unfold BACKOFF_MIN_MS, BACKOFF_MAX_MS; lia|exact Hw].
Qed.

Lemma paced_wake e c : 0 <= random53 e < 2 ^ 53 -> paced (loop c) -> paced (loop (wake e c)).
Proof. intros Hr Hp. unfold wake. case_match; try done; by apply paced_run_loop. Qed.

Lemma paced_start e c : 0 <= random53 e < 2 ^ 53 -> paced (loop c) -> paced (loop (start e c)).
Proof. intros Hr Hp. unfold start. case_match; try done. by apply paced_run_loop. Qed.

Lemma paced_message e m c : 0 <= random53 e < 2 ^ 53 -> paced (loop c) -> paced (loop (on_message e m c)).
Proof.
  intros Hr Hp. unfold on_message. destruct (at_phase (loop c)) as [| | |me|me| | |] eqn:Hph; try exact Hp.
  - destruct m as [v|]; [|by apply paced_throws]. unfold hello_message, after_step.
    repeat case_match; simplify_eq; try (by apply paced_throws). all: split; [apply Hp|done].
  - destruct m as [v|]; [|by apply paced_throws].
    destruct (ready_cases e me v c) as [[err ->]|(c' & limit & -> & _ & _ & Hph' & _ & Hb)]; [by apply paced_throws|].
    assert (Hp' : paced (loop c')) by (split; [rewrite Hb; apply Hp|by rewrite Hph']).
    case_match; [done|by apply paced_returns].
  - unfold after_message. destruct m as [v|data].
    + pose proof (loop_message e v c) as Hl. destruct (session_message e v c) as [[err|] c']; cbn [snd] in Hl; rewrite <- Hl in Hp.
      * by apply paced_throws.
      * case_match; [done|by apply paced_returns].
    + assert (Hl : loop (handleBinary data c) = loop c)
        by (unfold handleBinary; repeat case_match; try done; apply loop_close).
      rewrite <- Hl in Hp. case_match; [done|by apply paced_returns].
Qed.

Lemma paced_step e ev c : 0 <= random53 e < 2 ^ 53 -> paced (loop c) -> paced (loop (step e ev c)).
Proof.
  intros Hr Hp. destruct ev; cbn [step]; try exact Hp.
  - by apply paced_start.
  - unfold setConfig. destruct (parseRelayUrl e _); [|done]. by apply paced_wake.
  - by apply paced_wake.
  - unfold takeover. apply paced_wake, paced_start; [done..|]. destruct Hp as [_ Hw].
    split; [cbn; unfold BACKOFF_MIN_MS, BACKOFF_MAX_MS; lia|exact Hw].
  - by apply paced_wake.
  - case_match; exact Hp.
  - by apply paced_message.
  - unfold on_closed. case_match; try done; by apply paced_throws.
  - unfold on_timeout. case_match; try done; by apply paced_throws.
  - unfold on_timer. case_match; try done. by apply paced_run_loop.
  - unfold on_ping. by case_match.
  - unfold attach_ready. by case_match.
  - unfold attach_done. by repeat case_match.
  - by rewrite (proj1 (attach_failed_frame handle error c)).
  - unfold tunnel_send. by case_match.
  - by rewrite (proj1 (loop_openPeer e peerId deviceId c)).
  - by rewrite (proj1 (postMail_frame e peerId body id c)).
  - unfold ackMail. by case_match.
  - unfold refreshWatch. by case_match.
Qed.

(** The client waits between one and seventy-five seconds before it connects again, after
    any history, and the wait it would choose next stays between one second and one minute. *)
Theorem reconnect_wait_bounded c : reach c ->
  1000 <= backoffMs (loop c) <= 60000 /\ forall w, at_phase (loop c) = Sleeping w -> 1000 <= w <= 75000.
Proof.
  intros Hc. assert (Hp : paced (loop c)).
  { induction Hc as [e|e ev c _ IH Hr]; [split; [cbn; unfold BACKOFF_MIN_MS, BACKOFF_MAX_MS; lia|done]|by apply paced_step]. }
  destruct Hp as [Hb Hw]. split; [exact Hb|]. intros w Hph. by rewrite Hph in Hw.
Qed.

(** One connection that works: the timer ends, the socket opens, the relay greets and accepts
    the client, and later the connection drops. *)
Definition online e (hello ready : json) c : client :=
  on_message e (MJson ready) (on_message e (MJson hello) (step e (EvReadyState OPEN) (on_timer e c))).

Lemma send_state e m c : readyState (out (send e m c)) = readyState (out c) /\ loop (send e m c) = loop c.
Proof.
  split; [|done]. cbn. unfold sendJson. case_match; [done|].
  by destruct (flushSends_moves (control_size e) (stack_depth e) (out c <| controlQ := controlQ (out c) ++ [m] |>)) as (_ & _ & Hr & _).
Qed.

(** Waking up to a socket that opens. *)
Lemma connects e c w u me : at_phase (loop c) = Sleeping w -> stopped (loop c) = false -> enabled (loop c) = true ->
  yielded (loop c) = false -> replaced (loop c) = false -> parseRelayUrl e (relayUrl (loop c)) = Ok u -> getIdentity e = Some me ->
  let c1 := step e (EvReadyState OPEN) (on_timer e c) in
  loop c1 = loop c <| at_phase := AwaitHello me |> /\ readyState (out c1) = Some OPEN.
Proof.
  intros Hp Hs He Hy Hr Hu Hi. unfold on_timer. rewrite Hp. unfold continue_loop, LOOP_TURNS. cbn [run_loop].
  rewrite Hs, He, Hy, Hr. cbn [negb]. unfold open_session.
  change (relayUrl (loop (setState Connecting "" c))) with (relayUrl (loop c)). rewrite Hu, Hi. done.
Qed.

Lemma greeted e me hello nonce c : at_phase (loop c) = AwaitHello me -> readyState (out c) = Some OPEN ->
  text_field hello "t" = Some "hello" -> text_field hello "nonce" = Some nonce ->
  loop (on_message e (MJson hello) c) = loop c <| at_phase := AwaitReady me |>
  /\ readyState (out (on_message e (MJson hello) c)) = Some OPEN.
Proof.
  intros Hp Ho Ht Hn. unfold on_message. rewrite Hp. unfold hello_message. rewrite Ht, Hn, bool_decide_eq_true_2 by done.
  cbn [after_step]. split; [done|]. cbn [at_loop out field_update]. by rewrite (proj1 (send_state _ _ _)).
Qed.

Lemma accepted e me ready c : at_phase (loop c) = AwaitReady me -> readyState (out c) = Some OPEN ->
  text_field ready "t" = Some "ready" ->
  loop (on_message e (MJson ready) c) = loop c <| at_phase := InSession |>
  /\ s_state (snap (on_message e (MJson ready) c)) = Online.
Proof.
  intros Hp Ho Ht. unfold on_message. rewrite Hp. unfold ready_message. rewrite Ht, bool_decide_eq_true_2 by done.
  cbn [negb]. cbv zeta. match goal with |- context [is_open (out ?x)] => assert (Hopen : is_open (out x) = true) end.
  { apply bool_decide_eq_true.
    change (readyState (out (send e (CWatch (take MAX_WATCH_PEERS (getWatchIds e))) c)) = Some OPEN).
    by rewrite (proj1 (send_state _ _ _)). }
  by rewrite Hopen.
Qed.

(** A connection that worked does not shorten the wait after it is lost: a client that
    connects, is accepted and online, and then loses the connection waits as long as if it had
    never got through, and doubles the next wait. *)
Theorem working_connection_keeps_backoff e hello ready reason c w u me nonce :
  at_phase (loop c) = Sleeping w -> stopped (loop c) = false -> enabled (loop c) = true -> yielded (loop c) = false ->
  replaced (loop c) = false -> reconfigure (loop c) = false ->
  parseRelayUrl e (relayUrl (loop c)) = Ok u -> getIdentity e = Some me ->
  text_field hello "t" = Some "hello" -> text_field hello "nonce" = Some nonce -> text_field ready "t" = Some "ready" ->
  reason <> "replaced" ->
  s_state (snap (online e hello ready c)) = Online /\ at_phase (loop (online e hello ready c)) = InSession
  /\ at_phase (loop (on_closed e reason (online e hello ready c))) = Sleeping (backoffMs (loop c) + jitter e (backoffMs (loop c)))
  /\ backoffMs (loop (on_closed e reason (online e hello ready c))) = Z.min (backoffMs (loop c) * 2) BACKOFF_MAX_MS.
Proof.
  intros Hp Hs He Hy Hr Hc Hu Hi Ht Hn Hrt Hreason.
  destruct (connects e c w u me) as [L1 R1]; [done..|]. unfold online. revert L1 R1.
  generalize (step e (EvReadyState OPEN) (on_timer e c)). intros c1 L1 R1.
  destruct (greeted e me hello nonce c1) as [L2 R2]; [by rewrite L1|done..|]. revert L2 R2.
  generalize (on_message e (MJson hello) c1). intros c2 L2 R2.
  destruct (accepted e me ready c2) as [L3 S3]; [by rewrite L2|done..|]. revert L3 S3.
  generalize (on_message e (MJson ready) c2). intros c3 L3 S3. rewrite L2, L1 in L3. split; [done|].
  assert (Hph : at_phase (loop c3) = InSession) by (by rewrite L3). split; [done|].
  unfold on_closed. rewrite Hph. unfold session_throws, session_failed.
  change (loop (session_finally c3)) with (loop c3). rewrite L3. cbn [stopped reconfigure yielded field_update].
  rewrite Hs, Hc, Hy, bool_decide_eq_false_2 by done. cbv zeta. cbn [loop at_loop field_update at_phase backoffMs].
  change (loop (setState ?st reason (session_finally c3))) with (loop c3). by rewrite L3.
Qed.

End behaviour.

(** ** Concrete clients *)

#[local] Instance sample_ed25519 : Ed25519 := {
  ed25519_public s := s; ed25519_sign m s := s ++ m; ed25519_verify sig m pk := Some (equalBytes sig (pk ++ m)) }.

Definition sample_identity (name : string) : identity := mk_identity [1; 2] [1; 2] name "AQI=" "AQI=".

Definition sample_env (me : string) (device : string) : env :=
  mk_env (fun _ => Some (mk_url "wss:" "relay.example" "relay.example")) "wss://relay.example"
    (Some (sample_identity me)) "Ann" device "Phone" ["bt2_bob"] (fun p => bool_decide (p = "bt2_eve"))
    (Some (fun _ _ => false)) None 1000 "uuid" 7 (fun _ => 40) 5.

Definition sample_hello : json := JObj [("t", JStr "hello"); ("nonce", JStr "bm9uY2U=")].
Definition sample_ready (me : string) : json := JObj [("t", JStr "ready"); ("peerId", JStr me)].

Definition sample_online (me device : string) : client :=
  let e := sample_env me device in
  online e sample_hello (sample_ready me) (start e (new_client e)).

Definition sample_events (me device : string) : list event :=
  [EvStart; EvReadyState OPEN; EvMessage (MJson sample_hello); EvMessage (MJson (sample_ready me))].

Definition play (e : env) (l : list event) (c : client) : client := fold_left (fun c ev => step e ev c) l c.

Lemma play_reach e l : 0 <= random53 e < 2 ^ 53 -> forall c, reach c -> reach (play e l c).
Proof. intros Hr. induction l as [|ev l IH]; intros c Hc; [done|]. cbn. apply IH. by constructor. Qed.

Definition ann_events : list event :=
  sample_events "bt2_ann" "ann-phone1"
  ++ [EvMessage (MJson (JObj [("t", JStr "presence"); ("peerId", JStr "bt2_bob"); ("online", JBool true);
                              ("devices", JArr [JStr "bob-laptop"])]));
      EvMessage (MJson (JObj [("t", JStr "opened"); ("tunnel", JNum 1)]));
      EvMessage (MJson (JObj [("t", JStr "mail"); ("id", JStr "m1"); ("from", JStr "bt2_bob")]));
      EvDrainMail].

Definition ann : client := play (sample_env "bt2_ann" "ann-phone1") ann_events (new_client (sample_env "bt2_ann" "ann-phone1")).

Example ann_state : (at_phase (loop ann), tunnels (tab ann) !! 1, size (pendingOpen (tab ann)), texts (wire (out ann)),
    inFlight (box ann) !! "m1") =
  (InSession, Some 0%nat, 0%nat,
   [CAuth "AQI=" "AQJibHVldGFsay1yZWxheS1hdXRoLXYxCmJtOXVZMlU9CnJlbGF5LmV4YW1wbGU=" "Ann" (Some "ann-phone1") (Some "Phone");
    CWatch ["bt2_bob"]; COpen 1 "bt2_bob" (Some "bob-laptop")],
   Some (mk_mail "m1" "bt2_bob" 0 JNull)).
Proof. vm_compute. reflexivity. Qed.

Definition ann_here : client := play (sample_env "bt2_ann" "ann-phone1") (sample_events "bt2_ann" "ann-phone1") (new_client (sample_env "bt2_ann" "ann-phone1")).
Definition bob_here : client := play (sample_env "bt2_bob" "bob-laptop") (sample_events "bt2_bob" "bob-laptop") (new_client (sample_env "bt2_bob" "bob-laptop")).

Lemma sample_reach me device l : reach (play (sample_env me device) l (new_client (sample_env me device))).
Proof. apply play_reach; [cbn; lia|constructor]. Qed.

Lemma not_full t : Nat.leb MAX_PENDING_OPENS (size (pendingOpen t)) = false ->
  Z.leb (maxTunnels t) (Z.of_nat (size (tunnels t))) = false -> ~ full t.
Proof. intros H1%Nat.leb_gt H2%Z.leb_gt [H|H]; lia. Qed.

Lemma openings_accounted_witness : (size (pendingOpen (tab ann)) <= MAX_PENDING_OPENS)%nat.
Proof. exact (proj1 (openings_accounted ann (sample_reach _ _ ann_events))). Defined.

Lemma open_promises_settle_once_witness :
  promises (tab ann) (log ann) ≡ₚ seq 0 (nextOpen (tab ann)) /\ nextOpen (tab ann) = 1%nat.
Proof. split; [exact (proj1 (open_promises_settle_once ann (sample_reach _ _ ann_events)))|vm_compute; reflexivity]. Defined.

Definition bob_appears : json :=
  JObj [("t", JStr "presence"); ("peerId", JStr "bt2_bob"); ("online", JBool true); ("devices", JArr [JStr "bob-laptop"])].

Lemma presence_opens_tunnels_witness :
  let e := sample_env "bt2_ann" "ann-phone1" in
  let c' := handlePresence e bob_appears ann_here in
  sessionOccupied e (tab c') "bt2_bob" "bob-laptop" = true
  \/ shouldOpenTunnel (ourPeerId c') (Some (ownDeviceKey c')) "bt2_bob" (Some "bob-laptop") = false
  \/ (MAX_PENDING_OPENS <= size (pendingOpen (tab c')))%nat \/ maxTunnels (tab c') <= Z.of_nat (size (tunnels (tab c'))).
Proof.
  refine (proj1 (presence_opens_tunnels (sample_env "bt2_ann" "ann-phone1") bob_appears ann_here "bt2_bob"
    (sample_reach _ _ _) eq_refl) eq_refl eq_refl _ (mk_device "bob-laptop" "") _).
  - intros Hne. vm_compute in Hne. discriminate Hne.
  - apply (bool_decide_unpack _). vm_compute. exact I.
Defined.

Lemma exactly_one_device_opens_witness :
  let ea := sample_env "bt2_ann" "ann-phone1" in let eb := sample_env "bt2_bob" "bob-laptop" in
  ((asks ea ann_here (maybeOpen ea "bt2_bob" "bob-laptop" ann_here) "bt2_bob" "bob-laptop"
    /\ maybeOpen eb "bt2_ann" "ann-phone1" bob_here = bob_here)
  \/ (asks eb bob_here (maybeOpen eb "bt2_ann" "ann-phone1" bob_here) "bt2_ann" "ann-phone1"
    /\ maybeOpen ea "bt2_bob" "bob-laptop" ann_here = ann_here))
  /\ is_open (out ann_here) = true /\ flushing (out ann_here) = false.
Proof.
  split; [|split; vm_compute; reflexivity].
  refine (exactly_one_device_opens (sample_env "bt2_ann" "ann-phone1") (sample_env "bt2_bob" "bob-laptop") ann_here bob_here
    (sample_reach _ _ _) (sample_reach _ _ _) _ _ _ _ _ _ _).
  - vm_compute. discriminate.
  - vm_compute. discriminate.
  - vm_compute. discriminate.
  - vm_compute. reflexivity.
  - vm_compute. reflexivity.
  - apply not_full; vm_compute; reflexivity.
  - apply not_full; vm_compute; reflexivity.
Defined.

Lemma bytes_cross_the_relay_witness :
  exists h', handles (tab (receive (sample_env "bt2_ann" "ann-phone1") (forwarded 5 1 (binaries (wire sample_run))) ann)) !! 0%nat = Some h'
    /\ concat (h_pushed h' ++ h_queue h') ++ tunnel_bytes 5 (dataQ sample_run) = [1; 2].
Proof.
  destruct (bytes_cross_the_relay sample_size 100 sample_run ["accept"] [(5, [1; 2]); (7, [3])]
    (sample_env "bt2_ann" "ann-phone1") 5 1 0 (mk_handle 1 "bt2_bob" "bob-laptop" "" false [] []) ann) as (h' & Hh & _ & Hg & _).
  - unfold sample_run. cbv zeta. apply history_poll. apply (history_json _ _ _ []); [|by vm_compute].
    apply (history_binary _ _ _ _ [(5, [1; 2])]); [|by vm_compute]. apply history_drain.
    apply (history_binary _ _ _ _ []); [|by vm_compute]. by apply history_new.
  - repeat constructor.
  - lia.
  - apply sample_reach.
  - vm_compute. reflexivity.
  - vm_compute. reflexivity.
  - vm_compute. reflexivity.
  - vm_compute. reflexivity.
  - exists h'. split; [exact Hh|exact Hg].
Defined.

Lemma close_never_sent_witness : CClose 1 ∉ texts (wire (out ann)) ++ controlQ (out ann).
Proof. exact (close_never_sent ann 1 (sample_reach _ _ ann_events)). Defined.

Lemma mail_kept_until_acknowledged_witness : NoDup (map mail_id (mail (box ann))) /\ known (box ann) "m1".
Proof.
  split; [exact (proj1 (mail_kept_until_acknowledged ann (sample_reach _ _ ann_events)))|].
  right. vm_compute. by eexists.
Defined.

Definition ann_dropped : client :=
  play (sample_env "bt2_ann" "ann-phone1") [EvStart; EvClosed SOCKET_ERROR] (new_client (sample_env "bt2_ann" "ann-phone1")).

Lemma reconnect_wait_bounded_witness : at_phase (loop ann_dropped) = Sleeping 1000 /\ 1000 <= 1000 <= 75000.
Proof.
  assert (Hp : at_phase (loop ann_dropped) = Sleeping 1000) by (vm_compute; reflexivity). split; [exact Hp|].
  exact (proj2 (reconnect_wait_bounded ann_dropped (sample_reach _ _ [EvStart; EvClosed SOCKET_ERROR])) 1000 Hp).
Defined.

Lemma working_connection_keeps_backoff_witness :
  let e := sample_env "bt2_ann" "ann-phone1" in
  let c := online e sample_hello (sample_ready "bt2_ann") ann_dropped in
  s_state (snap c) = Online /\ backoffMs (loop (on_closed e CLOSED_BY_RELAY c)) = 4000.
Proof.
  cbv zeta. destruct (working_connection_keeps_backoff (sample_env "bt2_ann" "ann-phone1") sample_hello (sample_ready "bt2_ann")
    CLOSED_BY_RELAY ann_dropped 1000 (mk_url "wss:" "relay.example" "relay.example") (sample_identity "bt2_ann") "bm9uY2U=")
    as (H1 & _ & _ & H2); try (vm_compute; reflexivity); [vm_compute; discriminate|].
  split; [exact H1|]. rewrite H2. vm_compute. reflexivity.
Defined.

(** Posting a mail again under an id that still waits for its answer forgets the first promise:
    neither the answer nor the end of the session settles it. *)
Lemma repeated_post_forgets_promise :
  let e := sample_env "bt2_ann" "ann-phone1" in
  let '(r1, c1) := postMail e "bt2_bob" None "m7" ann_here in
  let '(r2, c2) := postMail e "bt2_bob" None "m7" c1 in
  let c3 := on_message e (MJson (JObj [("t", JStr "posted"); ("id", JStr "m7")])) c2 in
  r1 = Ok 0%nat /\ r2 = Ok 1%nat /\ pendingPost (tab c3) = ∅ /\ PostResolved 1 "stored" ∈ log c3
  /\ forall x, x ∈ log c3 -> match x with PostResolved p _ | PostRejected p _ => p <> 0%nat | _ => True end.
Proof.
  vm_compute. repeat split; try reflexivity.
  - repeat (apply elem_of_cons; (by left) || right).
  - intros x Hx. repeat (apply elem_of_cons in Hx as [->|Hx]; [done|]). by apply not_elem_of_nil in Hx.
Qed.
