(* ===== verification/Kart.v ===== *)
(** * Kart racing: the host of a race ([assets/bundled-plugins/kart/engine.js] and [tracks.js])

    [createHost]: the lobby with its seats and colours, the phases of a race, the reported
    states of the cars and the finishing times.  The driving itself happens in the windows of
    the players; the host keeps what they report.  A timer is whether it is pending, and its
    event may come at any time; [now] is [Date.now()] and the names of games and races, which
    the code draws at random, are arguments.  Numbers are integers, so that [Math.round] is
    the identity.  Messages and saves are appended to [out]; the callbacks that redraw the
    window of the host, and results of calls that no caller reads, are left out. *)

From stdpp Require Import pretty.
From S2P Require Import Prelude Json Shuffle.

(** ** Tracks *)

Definition u_umlaut (rest : string) : string := String "252"%char rest.
Definition sharp_s (rest : string) : string := String "223"%char rest.

Definition FIRST_TRACK : string * string := ("sonnen-kurs", "Sonnen-Kurs").

Definition KART_TRACKS : list (string * string) :=
  [FIRST_TRACK;
   ("kuestenstrasse", "K" +:+ u_umlaut ("stenstra" +:+ sharp_s "e"));
   ("vulkanpass", "Vulkanpass");
   ("neon-nacht", "Neon-Nacht");
   ("eisgipfel", "Eisgipfel");
   ("wuesten-canyon", "W" +:+ u_umlaut "sten-Canyon")].

Definition KART_TRACK_IDS : list string := map fst KART_TRACKS.

Definition trackName (id : string) : string :=
  match get KART_TRACKS id with Some name => name | None => snd FIRST_TRACK end.

(** ** Settings *)

Definition MAX_PLAYERS : nat := 8.
Definition COUNTDOWN_MS : Z := 4200.
Definition CAR_TIMEOUT_MS : Z := 4000.
Definition BOT_NAMES : list string := ["Blitz"; "Turbo"; "Pixel"; "Nitro"; "Funke"; "Drift"; "Rakete"].

Record settings := mk_settings {
  tableName : string;
  maxPlayers : nat;
  laps : Z;
  trackId : string;
  bots : Z;
  items : bool;
  trial : bool;
  public_lobby : bool
}.

Definition defaultSettings : settings :=
  mk_settings "Kart-Rennen" MAX_PLAYERS 3 (fst FIRST_TRACK) 3 true false false.

(** [Number(value) || other]. *)
Definition number_or (v : option Z) (other : Z) : Z :=
  match v with Some n => if Z.eqb n 0 then other else n | None => other end.

(** [sanitizeSettings]; a patch without a property keeps the value of the fallback. *)
Definition sanitizeSettings (input : fields) (fb : settings) : settings :=
  let name := str_take 48 (trim (if has input "tableName"
    then (if truthy (get input "tableName") then string_or_empty (get input "tableName") else "Kart-Rennen")
    else if bool_decide (tableName fb = "") then "Kart-Rennen" else tableName fb)) in
  let track := if has input "trackId" then (match get input "trackId" with Some (JStr id) => id | _ => "" end) else trackId fb in
  let is_trial := if has input "mode" then bool_decide (get input "mode" = Some (JStr "trial")) else trial fb in
  mk_settings (if bool_decide (name = "") then "Kart-Rennen" else name) MAX_PLAYERS
    (Z.min 5 (Z.max 1 (number_or (if has input "laps" then to_number (get input "laps") else Some (laps fb)) 3)))
    (if includes KART_TRACK_IDS track then track else fst FIRST_TRACK)
    (Z.min (Z.of_nat MAX_PLAYERS - 1)
       (Z.max 0 (number_or (if has input "bots" then to_number (get input "bots") else Some (bots fb)) 0)))
    (if is_trial then false
     else if has input "items" then negb (bool_decide (get input "items" = Some (JBool false))) else items fb)
    is_trial
    (if has input "lobbyAccess" then bool_decide (get input "lobbyAccess" = Some (JStr "public")) else public_lobby fb).

(** ** The state *)

Inductive race_phase := Lobby | Countdown | Racing | Finished.

#[export] Instance race_phase_eq_dec : EqDecision race_phase.
Proof. solve_decision. Defined.

(** The [message] of the host, in place of its text. *)
Inductive notice :=
| NoNotice
| NoDriver
| RaceOn (track : string) (laps : Z)
| WonBy (name : string)
| KickedOut (name : string)
| SettingsNextRace
| InviteSent.

Record driver := mk_driver {
  d_peer : string;
  d_name : string;
  d_seat : Z;
  d_color : Z;
  d_connected : bool;
  d_bot : bool
}.

#[export] Instance rebuild_driver : Rebuild driver := fun d =>
  mk_driver (d_peer d) (d_name d) (d_seat d) (d_color d) (d_connected d) (d_bot d).

(** An entry [{ c, h, t }] of [cars]. *)
Record car := mk_car { c_body : fields; c_hazards : list json; c_time : Z }.

(** A row of [finishRace]; [progress] is [None] if it is not a number. *)
Record row := mk_row {
  r_peer : string;
  r_name : string;
  r_color : Z;
  r_bot : bool;
  r_time : option Z;
  r_best : option Z;
  r_progress : option Z
}.

(** An entry of [results], without [progress]. *)
Record result := mk_result {
  place : Z;
  x_peer : string;
  x_name : string;
  x_color : Z;
  x_bot : bool;
  x_time : option Z;
  x_best : option Z
}.

Record public_state := mk_public {
  pu_gameId : string;
  pu_host : string;
  pu_phase : race_phase;
  pu_raceId : string;
  pu_goAt : Z;
  pu_goIn : Z;
  pu_trackId : string;
  pu_message : notice;
  pu_settings : settings;
  pu_players : list driver;
  pu_results : list result
}.

Inductive output :=
| StateTo (peerIds : list string) (public : public_state)
| CarsTo (peerIds : list string) (raceId : string) (cars : list (string * (fields * list json))) (hit : list string)
| JoinOk (peerId : string) (public : public_state)
| JoinRunning (peerId : string)
| JoinUninvited (peerId : string)
| JoinFull (peerId : string)
| KickedTo (peerId : string)
| InviteTo (peerId : string) (cfg : settings)
| Saved (cfg : settings).

Record host := mk_host {
  selfId : string;
  gameId : string;
  cfg : settings;
  players : list driver;
  invitedPeers : list string;
  cars : list (string * car);
  consumed : list (string * Z);
  finishTimes : list (string * Z);
  bestLaps : list (string * Z);
  phase : race_phase;
  raceId : string;
  goAt : Z;
  results : list result;
  message : notice;
  goTimer : bool;
  relayTimer : bool;
  graceTimer : bool;
  endTimer : bool;
  stopTimers : nat;
  out : list output
}.

#[export] Instance rebuild_host : Rebuild host := fun h =>
  mk_host (selfId h) (gameId h) (cfg h) (players h) (invitedPeers h) (cars h) (consumed h) (finishTimes h) (bestLaps h)
    (phase h) (raceId h) (goAt h) (results h) (message h) (goTimer h) (relayTimer h) (graceTimer h) (endTimer h)
    (stopTimers h) (out h).

Definition emit (o : output) (h : host) : host := h <| out := out h ++ [o] |>.

(** ** Drivers and bots *)

Definition humanIds (h : host) : list string :=
  List.filter (fun id => negb (bool_decide (id = ""))) (map d_peer (players h)).

Definition usedColors (ps : list driver) : list Z := map d_color ps.

(** The first number from [n] on that is not in [used]; [fuel] numbers are tried. *)
Fixpoint first_free (fuel : nat) (used : list Z) (n : Z) : Z :=
  match fuel with
  | O => n
  | S fuel' => if includes used n then first_free fuel' used (n + 1) else n
  end.

Definition COLORS : Z := Z.of_nat MAX_PLAYERS.

Definition freeColor (ps : list driver) : Z :=
  let c := first_free MAX_PLAYERS (usedColors ps) 0 in if Z.ltb c COLORS then c else 0.

(** The loop of [botRoster]: [first_free] stops at [MAX_PLAYERS]. *)
Fixpoint bot_loop (count i : nat) (human : nat) (used : list Z) (color : Z) : list driver :=
  match count with
  | O => []
  | S count' =>
      let color := first_free (Z.to_nat (COLORS - color)) used color in
      mk_driver ("bot:" +:+ pretty (Z.of_nat i + 1)) (nth (i mod length BOT_NAMES) BOT_NAMES "")
        (Z.of_nat (human + i)) (color mod COLORS) true true
      :: bot_loop count' (S i) human (color :: used) color
  end.

Definition botRoster (h : host) : list driver :=
  let free := (MAX_PLAYERS - length (players h))%nat in
  let count := Nat.min (Z.to_nat (bots (cfg h))) free in
  bot_loop count 0 (length (players h)) (usedColors (players h)) 0.

Definition racers (h : host) : list driver := players h ++ botRoster h.

(** ** Views *)

Definition publicState (now : Z) (h : host) : public_state :=
  mk_public (gameId h) (selfId h) (phase h) (raceId h) (goAt h)
    (if bool_decide (phase h = Countdown) then Z.max 0 (goAt h - now) else 0)
    (trackId (cfg h)) (message h) (cfg h) (racers h) (results h).

Definition guests (h : host) : list string :=
  List.filter (fun id => negb (bool_decide (id = selfId h))) (humanIds h).

Definition pushState (now : Z) (h : host) : host := emit (StateTo (guests h) (publicState now h)) h.

(** [carsSnapshot]: the cars that reported lately, and the spent hazards. *)
Definition fresh_cars (now : Z) (l : list (string * car)) : list (string * (fields * list json)) :=
  omap (M := list) (fun x : string * car =>
    if Z.ltb CAR_TIMEOUT_MS (now - c_time x.2) then None else Some (x.1, (c_body x.2, c_hazards x.2))) l.

Definition unexpired (now : Z) (l : list (string * Z)) : list (string * Z) :=
  List.filter (fun x => negb (Z.ltb x.2 now)) l.

Definition relay_tick (now : Z) (h : host) : host :=
  let h := h <| consumed := unexpired now (consumed h) |> in
  match guests h with
  | [] => h
  | peers => emit (CarsTo peers (raceId h) (fresh_cars now (cars h)) (map fst (consumed h))) h
  end.

Definition startRelay (h : host) : host := h <| relayTimer := true |>.
Definition stopRelay (h : host) : host := h <| relayTimer := false |>.

Definition clearTimers (h : host) : host :=
  h <| goTimer := false |> <| graceTimer := false |> <| endTimer := false |>.

(** The maps of a race. *)
Definition clear_race (h : host) : host :=
  h <| cars := [] |> <| consumed := [] |> <| finishTimes := [] |> <| bestLaps := [] |> <| results := [] |>.

(** ** The end of a race *)

(** [cars.get(id)?.c?.p || 0] *)
Definition progress_of (h : host) (id : string) : option Z :=
  match get (cars h) id with
  | Some c => if truthy (get (c_body c) "p") then to_number (get (c_body c) "p") else Some 0
  | None => Some 0
  end.

(** [bestLaps.get(id) || null] *)
Definition nonzero (v : option Z) : option Z := match v with Some n => if Z.eqb n 0 then None else Some n | None => None end.

Definition row_of (h : host) (p : driver) : row :=
  mk_row (d_peer p) (d_name p) (d_color p) (d_bot p) (get (finishTimes h) (d_peer p)) (nonzero (get (bestLaps h) (d_peer p)))
    (progress_of h (d_peer p)).

(** The comparison of [rows.sort] does not put [b] before [a]; a difference that is not a
    number counts as none. *)
Definition row_before (a b : row) : bool :=
  match r_time a, r_time b with
  | Some ta, Some tb => Z.leb ta tb
  | Some _, None => true
  | None, Some _ => false
  | None, None => match r_progress a, r_progress b with Some pa, Some pb => Z.leb pb pa | _, _ => true end
  end.

Fixpoint placed (i : Z) (rows : list row) : list result :=
  match rows with
  | [] => []
  | r :: rest => mk_result i (r_peer r) (r_name r) (r_color r) (r_bot r) (r_time r) (r_best r) :: placed (i + 1) rest
  end.

Definition ranking (h : host) : list result := placed 1 (sort_by row_before (map (row_of h) (racers h))).

Definition running (h : host) : bool := bool_decide (phase h = Racing) || bool_decide (phase h = Countdown).

Definition finishRace (now : Z) (h : host) : host :=
  if negb (running h) then h
  else
    let h := clearTimers h in
    let h := h <| results := ranking h |> <| phase := Finished |> in
    let h := h <| message := match results h with r :: _ => WonBy (x_name r) | [] => NoNotice end |>
               <| stopTimers := S (stopTimers h) |> in
    emit (Saved (cfg h)) (pushState now h).

Definition has_finished (h : host) (p : driver) : bool := has (finishTimes h) (d_peer p).

Definition checkRaceComplete (now : Z) (h : host) : host :=
  if negb (bool_decide (phase h = Racing)) then h
  else
    match List.filter d_connected (players h) with
    | [] => finishRace now h
    | humans => if forallb (has_finished h) humans && negb (endTimer h) then h <| endTimer := true |> else h
    end.

Definition recordFinish (now : Z) (id : string) (timeMs bestLapMs : option json) (h : host) : host :=
  if negb (bool_decide (phase h = Racing)) then h
  else
    match to_number timeMs with
    | None => h
    | Some t =>
        if Z.ltb t 5000 || Z.ltb 1800000 t then h
        else if has (finishTimes h) id then h
        else
          let h := h <| finishTimes := set (finishTimes h) id t |> in
          let h := match to_number bestLapMs with
                   | Some bl => if Z.ltb 3000 bl && Z.ltb bl 1800000 then h <| bestLaps := set (bestLaps h) id bl |> else h
                   | None => h
                   end in
          pushState now (checkRaceComplete now (h <| graceTimer := true |>))
    end.

(** ** The lobby *)

Definition seat_before (a b : driver) : bool := Z.leb (d_seat a) (d_seat b).

(** [String(name || other).slice(0, 24)] *)
Definition driver_name (name : option json) (other : string) : string :=
  str_take 24 (if truthy name then string_or_empty name else other).

Definition find_driver (peerId : string) (ps : list driver) : option driver :=
  find (fun p => bool_decide (d_peer p = peerId)) ps.

(** A change of the object that [find] returns. *)
Fixpoint change_driver (peerId : string) (f : driver -> driver) (ps : list driver) : list driver :=
  match ps with
  | [] => []
  | p :: rest => if bool_decide (d_peer p = peerId) then f p :: rest else p :: change_driver peerId f rest
  end.

(** [players.splice(idx, 1)] at the first entry of the peer. *)
Fixpoint splice_driver (peerId : string) (ps : list driver) : list driver :=
  match ps with
  | [] => []
  | p :: rest => if bool_decide (d_peer p = peerId) then rest else p :: splice_driver peerId rest
  end.

Definition new_driver (peerId : string) (name : option json) (ps : list driver) : driver :=
  mk_driver peerId (driver_name name peerId) (first_free (S (length ps)) (map d_seat ps) 0) (freeColor ps) true false.

Definition addPlayer (now : Z) (peerId : string) (name : option json) (h : host) : bool * host :=
  match find_driver peerId (players h) with
  | Some _ =>
      (true, pushState now (h <| players := change_driver peerId
                (fun p => p <| d_connected := true |> <| d_name := driver_name name (d_name p) |>) (players h) |>))
  | None =>
      if Nat.leb MAX_PLAYERS (length (players h)) then (false, h)
      else
        (true, pushState now (h <| players := sort_by seat_before (players h ++ [new_driver peerId name (players h)]) |>))
  end.

Definition removePlayer (now : Z) (peerId : string) (h : host) : host :=
  match find_driver peerId (players h) with
  | None => h
  | Some _ =>
      if bool_decide (peerId = selfId h) then h
      else if bool_decide (phase h = Lobby) then pushState now (h <| players := splice_driver peerId (players h) |>)
      else
        let h := h <| players := change_driver peerId (fun p => p <| d_connected := false |>) (players h) |>
                   <| cars := del (cars h) peerId |> in
        pushState now (checkRaceComplete now h)
  end.

Definition kickPlayer (now : Z) (peerId : string) (h : host) : host :=
  if bool_decide (peerId = selfId h) then h
  else
    match find_driver peerId (players h) with
    | None => h
    | Some p =>
        let h := removePlayer now peerId (emit (KickedTo peerId) h) in
        pushState now (h <| message := KickedOut (d_name p) |>)
    end.

Definition setColor (now : Z) (peerId : string) (color : option json) (h : host) : host :=
  match find_driver peerId (players h), to_number color with
  | Some _, Some c =>
      if negb (bool_decide (phase h = Lobby)) || Z.ltb c 0 || Z.leb COLORS c then h
      else if existsb (fun x => negb (bool_decide (d_peer x = peerId)) && Z.eqb (d_color x) c) (players h) then h
      else pushState now (h <| players := change_driver peerId (fun p => p <| d_color := c |>) (players h) |>)
  | _, _ => h
  end.

(** ** The race *)

Definition startRace (now : Z) (newRaceId : string) (h : host) : host :=
  if negb (bool_decide (phase h = Lobby)) && negb (bool_decide (phase h = Finished)) then h
  else
    match racers h with
    | [] => pushState now (h <| message := NoDriver |>)
    | _ =>
        let h := clear_race (clearTimers h) in
        let h := h <| raceId := newRaceId |> <| goAt := now + COUNTDOWN_MS |> <| phase := Countdown |>
                   <| message := RaceOn (trackName (trackId (cfg h))) (laps (cfg h)) |> in
        pushState now (startRelay h <| goTimer := true |>)
    end.

(** The callback of [goTimer]. *)
Definition go (now : Z) (h : host) : host :=
  let h := h <| goTimer := false |> in
  if negb (bool_decide (phase h = Countdown)) then h
  else pushState now (h <| phase := Racing |> <| message := NoNotice |>).

Definition backToLobby (now : Z) (h : host) : host :=
  if bool_decide (phase h = Lobby) then h
  else
    let h := clear_race (stopRelay (clearTimers h)) in
    pushState now (h <| players := List.filter d_connected (players h) |> <| phase := Lobby |> <| raceId := "" |>
                     <| goAt := 0 |> <| message := NoNotice |>).

Definition is_number (v : option json) : bool := match v with Some (JNum _) => true | _ => false end.

(** [storeCar(id, { raceId, c, h })] *)
Definition storeCar (now : Z) (id : string) (race c hazards : option json) (h : host) : host :=
  if negb (running h) then h
  else
    match c with
    | Some (JObj f) =>
        if truthy race && negb (bool_decide (race = Some (JStr (raceId h)))) then h
        else if negb (forallb (fun k => is_number (get f k)) ["x"; "z"; "a"; "v"]) then h
        else h <| cars := set (cars h) id (mk_car f (take 12 (default [] (as_array hazards))) now) |>
    | _ => h
    end.

Definition noteHit (now : Z) (hid : option json) (h : host) : host :=
  match hid with
  | Some (JStr s) => if Nat.ltb 80 (String.length s) then h else h <| consumed := set (consumed h) s (now + 6000) |>
  | _ => h
  end.

Definition is_bot_id (id : string) : bool := starts_with "bot:" id.

(** The id of a bot that an action names: a text here. *)
Definition bot_id (v : option json) : option string :=
  match v with Some (JStr id) => if is_bot_id id then Some id else None | _ => None end.

Definition store_bot (now : Z) (race : option json) (h : host) (bot : json) : host :=
  match bot_id (prop (Some bot) "id") with
  | Some id => storeCar now id race (prop (Some bot) "c") (prop (Some bot) "h") h
  | None => h
  end.

Definition applyAction (now : Z) (peerId : string) (action : option json) (h : host) : host :=
  let field := prop action in
  let fromHost := bool_decide (peerId = selfId h) in
  match field "type" with
  | Some (JStr ty) =>
      if bool_decide (ty = "car") then
        let h := storeCar now peerId (field "raceId") (field "c") (field "h") h in
        match field "bots" with
        | Some (JArr bs) => if fromHost then fold_left (store_bot now (field "raceId")) (take MAX_PLAYERS bs) h else h
        | _ => h
        end
      else if bool_decide (ty = "hit") then noteHit now (field "hid") h
      else if bool_decide (ty = "finish") then
        let id := match bot_id (field "id") with Some id => if fromHost then id else peerId | None => peerId end in
        recordFinish now id (field "timeMs") (field "bestLapMs") h
      else if bool_decide (ty = "set_color") then setColor now peerId (field "color") h
      else h
  | _ => h
  end.

(** ** Messages *)

(** [{ type, a: body.a, ... }] *)
Definition forward (ty : string) (keys : list string) (body : json) : option json :=
  Some (JObj (("type", JStr ty) :: omap (M := list) (fun k => option_map (pair k) (prop (Some body) k)) keys)).

Definition onWire (now : Z) (from : string) (body : json) (h : host) : host :=
  let field := prop (Some body) in
  match field "wire" with
  | Some (JStr wire) =>
      let same_game := bool_decide (field "gameId" = Some (JStr (gameId h))) in
      if bool_decide (wire = "join") && same_game then
        if negb (bool_decide (phase h = Lobby)) then emit (JoinRunning from) h
        else if negb (public_lobby (cfg h)) && negb (bool_decide (from = selfId h)) && negb (includes (invitedPeers h) from) then
          emit (JoinUninvited from) h
        else
          match addPlayer now from (field "name") h with
          | (true, h') => emit (JoinOk from (publicState now h')) h'
          | (false, h') => emit (JoinFull from) h'
          end
      else if bool_decide (wire = "leave") then removePlayer now from h
      else if negb same_game || negb (includes (humanIds h) from) then h
      else if bool_decide (wire = "car") then applyAction now from (forward "car" ["raceId"; "c"; "h"] body) h
      else if bool_decide (wire = "hit") then applyAction now from (forward "hit" ["hid"] body) h
      else if bool_decide (wire = "finish") then applyAction now from (forward "finish" ["timeMs"; "bestLapMs"] body) h
      else if bool_decide (wire = "action") then applyAction now from (field "action") h
      else h
  | _ => h
  end.

(** ** The object that [createHost] returns *)

Definition newHost (me game : string) (input : fields) : host :=
  mk_host me game (sanitizeSettings input defaultSettings) [] [] [] [] [] [] Lobby "" 0 [] NoNotice
    false false false false 0 [].

Definition bootstrapHost (now : Z) (name : option json) (h : host) : host :=
  snd (addPlayer now (selfId h) (if truthy name then name else Some (JStr "Host")) h).

Definition updateSettings (now : Z) (patch : fields) (h : host) : host :=
  let h := h <| cfg := sanitizeSettings patch (cfg h) |> in
  let h := h <| message := if bool_decide (phase h = Lobby) then NoNotice else SettingsNextRace |> in
  pushState now (emit (Saved (cfg h)) h).

(** [connected]: the peer is among [api.peers()]; [blocked]: [isContactBlocked(peerId)]. *)
Definition invitePeer (now : Z) (peerId : string) (connected blocked : bool) (h : host) : host :=
  if bool_decide (peerId = "") || includes (map d_peer (players h)) peerId then h
  else if negb connected || blocked then h
  else
    let h := h <| invitedPeers := peerId :: invitedPeers h |> in
    pushState now (emit (InviteTo peerId (cfg h)) h <| message := InviteSent |>).

Definition destroy (h : host) : host := stopRelay (clearTimers h).

(** The timers. *)
Inductive timer := GoTimer | RelayTimer | GraceTimer | EndTimer | StopTimer.

Definition pending (t : timer) (h : host) : bool :=
  match t with
  | GoTimer => goTimer h
  | RelayTimer => relayTimer h
  | GraceTimer => graceTimer h
  | EndTimer => endTimer h
  | StopTimer => Nat.ltb 0 (stopTimers h)
  end.

Definition fire (t : timer) (now : Z) (h : host) : host :=
  match t with
  | GoTimer => go now h
  | RelayTimer => relay_tick now h
  | GraceTimer => finishRace now (h <| graceTimer := false |>)
  | EndTimer => finishRace now (h <| endTimer := false |>)
  | StopTimer =>
      let h := h <| stopTimers := Nat.pred (stopTimers h) |> in
      if negb (running h) then stopRelay h else h
  end.

Inductive event :=
| Wire (from : string) (body : json)
| Own (action : json)
| Left (peerId : string)
| Kick (peerId : string)
| Settings (patch : fields)
| Invite (peerId : string) (connected blocked : bool)
| Start (newRaceId : string)
| ToLobby
| Fire (t : timer).

Definition step (now : Z) (e : event) (h : host) : host :=
  match e with
  | Wire from body => onWire now from body h
  | Own action => applyAction now (selfId h) (Some action) h
  | Left peerId => removePlayer now peerId h
  | Kick peerId => kickPlayer now peerId h
  | Settings patch => updateSettings now patch h
  | Invite peerId connected blocked => invitePeer now peerId connected blocked h
  | Start newRaceId => startRace now newRaceId h
  | ToLobby => backToLobby now h
  | Fire t => if pending t h then fire t now h else h
  end.

(** A host after any history: created, [bootstrapHost] called, then any events. *)
Inductive reach : host -> Prop :=
| reach_new me game input now name : me <> "" -> reach (bootstrapHost now name (newHost me game input))
| reach_step h now e : reach h -> reach (step now e h).
