(* ===== verification/KartFacts.v ===== *)
(** * Kart racing: theorems on the host

    [sound] is the invariant of a host; [lobby_sound], [races_end], [ranking_right] and
    [guests_drive_themselves] are what it promises, and the last section has histories in
    which it keeps less than it should. *)

From Stdlib Require Import Sorting.Sorted.
From stdpp Require Import pretty.
From S2P Require Import Prelude Json Shuffle Kart.

(** ** Free numbers *)

Lemma first_free_range fuel used : forall n, n <= first_free fuel used n <= n + Z.of_nat fuel.
Proof.
  induction fuel as [|fuel IH]; intros n; simpl; [lia|].
  destruct (includes used n); [|lia]. specialize (IH (n + 1)). lia.
Qed.

Lemma first_free_used fuel used : forall n k, n <= k < first_free fuel used n -> k ∈ used.
Proof.
  induction fuel as [|fuel IH]; intros n k; simpl; [lia|].
  destruct (includes used n) eqn:E; [|lia]. apply bool_decide_eq_true_1 in E. intros Hk.
  destruct (decide (k = n)) as [->|]; [done|]. apply (IH (n + 1)). lia.
Qed.

Lemma first_free_new fuel used n : first_free fuel used n ∉ used \/ first_free fuel used n = n + Z.of_nat fuel.
Proof.
  revert n. induction fuel as [|fuel IH]; intros n; simpl; [right; lia|].
  destruct (includes used n) eqn:E; [|left; by apply bool_decide_eq_false_1 in E].
  destruct (IH (n + 1)) as [H|H]; [by left|right; lia].
Qed.

(** A list with all numbers from 0 to [n - 1] has at least [n] elements. *)
Lemma covers_length (used : list Z) n : (forall k, 0 <= k < Z.of_nat n -> k ∈ used) -> (n <= length used)%nat.
Proof.
  intros H. assert (Hs : (length (seqZ 0 (Z.of_nat n)) <= length used)%nat).
  { apply submseteq_length, NoDup_submseteq; [apply NoDup_seqZ|]. intros k Hk%elem_of_seqZ. apply H. lia. }
  rewrite length_seqZ in Hs. lia.
Qed.

(** With fuel beyond the length the number found is free. *)
Lemma first_free_fresh fuel used : (length used < fuel)%nat -> first_free fuel used 0 ∉ used.
Proof.
  intros Hl. destruct (first_free_new fuel used 0) as [H|H]; [done|]. exfalso.
  enough (fuel <= length used)%nat by lia. apply covers_length. intros k Hk. apply (first_free_used fuel used 0). lia.
Qed.

Lemma first_free_below fuel used : first_free fuel used 0 <= Z.of_nat (length used).
Proof.
  destruct (Z.le_gt_cases (first_free fuel used 0) (Z.of_nat (length used))) as [|H]; [done|]. exfalso.
  enough (S (length used) <= length used)%nat by lia. apply covers_length.
  intros k Hk. apply (first_free_used fuel used 0). lia.
Qed.

(** ** Colours of the bots *)

Lemma bot_colors count : forall i human used color,
  (length used + count <= MAX_PLAYERS)%nat -> 0 <= color <= COLORS -> (forall k, 0 <= k < color -> k ∈ used) ->
  NoDup used -> let l := bot_loop count i human used color in
  length l = count /\ NoDup (map d_color l ++ used) /\ Forall (fun p => 0 <= d_color p < COLORS) l.
Proof.
  induction count as [|count IH]; intros i human used color Hl Hc Hu Hn; [done|]. cbn [bot_loop].
  set (c := first_free (Z.to_nat (COLORS - color)) used color).
  assert (Hr : color <= c <= COLORS) by (pose proof (first_free_range (Z.to_nat (COLORS - color)) used color) as Hr; subst c; lia).
  assert (Hall : forall k, 0 <= k < c -> k ∈ used).
  { intros k Hk. destruct (Z.lt_ge_cases k color); [apply Hu; lia|].
    apply (first_free_used (Z.to_nat (COLORS - color)) used color). subst c. lia. }
  assert (Hlt : c < COLORS).
  { destruct (Z.lt_ge_cases c COLORS); [done|]. exfalso. enough (MAX_PLAYERS <= length used)%nat by lia.
    apply covers_length. intros k Hk. apply Hall. unfold COLORS in *. lia. }
  assert (Hnew : c ∉ used).
  { destruct (first_free_new (Z.to_nat (COLORS - color)) used color) as [H|H]; [done|]. subst c. lia. }
  destruct (IH (S i) human (c :: used) c) as (I1 & I2 & I3); [cbn; lia|lia| |by constructor|].
  { intros k Hk. right. apply Hall. lia. }
  rewrite (Z.mod_small c) by lia. cbn. split; [by rewrite I1|]. split; [|constructor; [cbn; lia|done]].
  rewrite <- Permutation_middle in I2. exact I2.
Qed.

(** ** Lists of drivers *)

Lemma find_driver_some peerId ps p : find_driver peerId ps = Some p -> p ∈ ps /\ d_peer p = peerId.
Proof. intros [Hin Hp]%find_some. apply bool_decide_eq_true_1 in Hp. by rewrite list_elem_of_In. Qed.

Lemma find_driver_none peerId ps : find_driver peerId ps = None -> peerId ∉ map d_peer ps.
Proof.
  intros Hf Hin. apply list_elem_of_fmap in Hin as (p & -> & Hp). apply list_elem_of_In in Hp.
  pose proof (find_none _ _ Hf p Hp) as H. by apply bool_decide_eq_false_1 in H.
Qed.

(** A change that keeps a column of the list. *)
Lemma change_driver_map {B} (g : driver -> B) peerId f ps : (forall p, g (f p) = g p) -> map g (change_driver peerId f ps) = map g ps.
Proof.
  intros Hg. induction ps as [|p ps IH]; [done|]. cbn [change_driver].
  case_bool_decide; cbn; [by rewrite Hg|by rewrite IH].
Qed.

Lemma change_driver_elem peerId f ps p : d_peer p <> peerId -> (forall q, d_peer (f q) = d_peer q) ->
  p ∈ change_driver peerId f ps <-> p ∈ ps.
Proof.
  intros Hp Hf. induction ps as [|q ps IH]; [done|]. cbn [change_driver].
  case_bool_decide as E; rewrite !elem_of_cons, ?IH; [|done].
  split; intros [->|H]; auto; [by rewrite Hf in Hp|done].
Qed.

(** Each driver is changed or kept. *)
Lemma change_driver_in peerId f ps p : p ∈ change_driver peerId f ps ->
  p ∈ ps \/ exists q, q ∈ ps /\ d_peer q = peerId /\ p = f q.
Proof.
  induction ps as [|q ps IH]; [by intros ?%not_elem_of_nil|]. cbn [change_driver].
  case_bool_decide as E; rewrite !elem_of_cons.
  - intros [->|H]; [right; exists q; set_solver|auto].
  - intros [->|H]; [auto|]. destruct (IH H) as [H1|(r & H2 & H3)]; [auto|]. right. exists r. set_solver.
Qed.

Lemma splice_sublist peerId ps : splice_driver peerId ps `sublist_of` ps.
Proof. induction ps as [|p ps IH]; [done|]. cbn. case_bool_decide; by constructor. Qed.

Lemma splice_elem peerId ps p : d_peer p <> peerId -> p ∈ splice_driver peerId ps <-> p ∈ ps.
Proof.
  intros Hp. induction ps as [|q ps IH]; [done|]. cbn. case_bool_decide as E; rewrite !elem_of_cons, ?IH; [|done].
  split; [auto|]. intros [->|H]; [done|auto].
Qed.

(** ** The seats of a lobby *)

Definition seats_ok (me : string) (ps : list driver) : Prop :=
  (exists p, p ∈ ps /\ d_peer p = me /\ d_connected p = true)
  /\ NoDup (map d_peer ps) /\ NoDup (map d_color ps) /\ NoDup (map d_seat ps)
  /\ Forall (fun p => 0 <= d_color p < COLORS /\ 0 <= d_seat p < COLORS) ps
  /\ (length ps <= MAX_PLAYERS)%nat.

Lemma seats_perm me ps ps' : ps ≡ₚ ps' -> seats_ok me ps -> seats_ok me ps'.
Proof.
  unfold seats_ok. intros E ((p & Hp & Hm) & H1 & H2 & H3 & H4 & H5).
  split; [exists p; by rewrite <- E|]. split; [by rewrite <- E|]. split; [by rewrite <- E|]. split; [by rewrite <- E|].
  split; [by rewrite <- E|]. by rewrite <- E.
Qed.

Lemma seats_sublist me ps ps' : ps' `sublist_of` ps -> (forall p, p ∈ ps -> d_peer p = me -> d_connected p = true -> p ∈ ps') ->
  seats_ok me ps -> seats_ok me ps'.
Proof.
  intros Hs Hk ((p & Hp & Hm & Hc) & H1 & H2 & H3 & H4 & H5).
  assert (Hmap : forall {B} (g : driver -> B), NoDup (map g ps) -> NoDup (map g ps')).
  { intros B g Hg. eapply sublist_NoDup; [exact Hg|]. by apply fmap_sublist. }
  split; [exists p; split; [by apply Hk|done]|]. split; [by apply Hmap|]. split; [by apply Hmap|]. split; [by apply Hmap|].
  split; [rewrite Forall_forall in H4 |- *; intros q Hq; apply H4; by apply (sublist_subseteq _ _ Hs)|]. apply sublist_length in Hs. lia.
Qed.

Lemma seats_change me ps peerId f : (forall p, d_peer (f p) = d_peer p) -> (forall p, d_color (f p) = d_color p) ->
  (forall p, d_seat (f p) = d_seat p) -> (forall p, peerId = me -> d_connected p = true -> d_connected (f p) = true) ->
  seats_ok me ps -> seats_ok me (change_driver peerId f ps).
Proof.
  intros Hp Hc Hs Hn ((p & Hin & Hm & Hcon) & H1 & H2 & H3 & H4 & H5).
  split; [|split; [by rewrite change_driver_map|split; [by rewrite change_driver_map|split; [by rewrite change_driver_map|]]]].
  - clear H1 H2 H3 H4 H5. induction ps as [|q ps IH]; [by apply not_elem_of_nil in Hin|]. cbn [change_driver].
    case_bool_decide as E; apply elem_of_cons in Hin as [->|Hin].
    + exists (f q). rewrite Hp. split; [left|split; [done|]]. apply Hn; [congruence|done].
    + exists p. split; [by right|done].
    + exists q. split; [left|done].
    + destruct (IH Hin) as (r & Hr & ?). exists r. split; [by right|done].
  - split.
    + rewrite Forall_forall in H4 |- *. intros q [Hq|(r & Hr & _ & ->)]%change_driver_in; [by apply H4|].
      rewrite Hc, Hs. by apply H4.
    + rewrite <- (length_map d_peer), change_driver_map, length_map by done. done.
Qed.

Lemma freeColor_ok ps : (length ps < MAX_PLAYERS)%nat -> freeColor ps ∉ map d_color ps /\ 0 <= freeColor ps < COLORS.
Proof.
  intros Hl. unfold freeColor, usedColors.
  pose proof (first_free_below MAX_PLAYERS (map d_color ps)) as Hb. pose proof (first_free_range MAX_PLAYERS (map d_color ps) 0) as Hr.
  pose proof (first_free_fresh MAX_PLAYERS (map d_color ps)) as Hf. rewrite length_map in *.
  assert (E : Z.ltb (first_free MAX_PLAYERS (map d_color ps) 0) COLORS = true) by (apply Z.ltb_lt; unfold COLORS; lia).
  rewrite E. split; [by apply Hf|]. apply Z.ltb_lt in E. lia.
Qed.

Lemma seats_new me ps p : seats_ok me ps -> d_peer p ∉ map d_peer ps -> d_color p ∉ map d_color ps -> d_seat p ∉ map d_seat ps ->
  0 <= d_color p < COLORS -> 0 <= d_seat p < COLORS -> (length ps < MAX_PLAYERS)%nat -> seats_ok me (p :: ps).
Proof.
  intros ((q & Hq & ?) & H1 & H2 & H3 & H4 & H5) N1 N2 N3 R1 R2 Hl.
  split; [exists q; split; [by right|done]|]. cbn. do 3 (split; [by constructor|]). split; [by constructor|exact Hl].
Qed.

Lemma seats_add me ps peerId name : seats_ok me ps -> peerId ∉ map d_peer ps -> (length ps < MAX_PLAYERS)%nat ->
  seats_ok me (sort_by seat_before (ps ++ [new_driver peerId name ps])).
Proof.
  intros Hok Hp Hl. eapply seats_perm; [symmetry; rewrite sort_by_perm, <- Permutation_cons_append; reflexivity|].
  destruct (freeColor_ok ps Hl) as [Hc Hr].
  pose proof (first_free_fresh (S (length ps)) (map d_seat ps)) as Hf. pose proof (first_free_below (S (length ps)) (map d_seat ps)) as Hb.
  pose proof (first_free_range (S (length ps)) (map d_seat ps) 0) as Hg. rewrite length_map in *.
  apply seats_new; cbn [new_driver d_peer d_color d_seat]; try done; [apply Hf; lia|]. unfold COLORS. lia.
Qed.

Lemma change_driver_first peerId ps p f : NoDup (map d_peer ps) -> p ∈ ps -> d_peer p = peerId ->
  exists l r, ps = l ++ p :: r /\ change_driver peerId f ps = l ++ f p :: r.
Proof.
  induction ps as [|q ps IH]; [by intros _ ?%not_elem_of_nil|]. cbn. intros [Hn Hd]%NoDup_cons Hin Hp.
  apply elem_of_cons in Hin as [<-|Hin].
  - exists [], ps. by rewrite bool_decide_eq_true_2.
  - rewrite bool_decide_eq_false_2; [|intros E; apply Hn; rewrite E, <- Hp; by apply list_elem_of_fmap_2].
    destruct (IH Hd Hin Hp) as (l & r & -> & E). exists (q :: l), r. by rewrite E.
Qed.

Lemma seats_color me ps peerId p c : seats_ok me ps -> p ∈ ps -> d_peer p = peerId -> 0 <= c < COLORS ->
  existsb (fun x => negb (bool_decide (d_peer x = peerId)) && Z.eqb (d_color x) c) ps = false ->
  seats_ok me (change_driver peerId (fun p => p <| d_color := c |>) ps).
Proof.
  intros Hok Hp Hid Hc Hfree. destruct Hok as (Hself & H1 & H2 & H3 & H4 & H5).
  destruct (change_driver_first peerId ps p (fun p => p <| d_color := c |>) H1 Hp Hid) as (l & r & -> & ->).
  assert (Hout : forall q, q ∈ l ++ r -> d_color q <> c).
  { intros q Hq E. assert (Hq' : q ∈ l ++ p :: r) by set_solver.
    assert (Hne : d_peer q <> peerId).
    { rewrite map_app in H1. cbn in H1. rewrite <- Permutation_middle in H1. apply NoDup_cons in H1 as [H1 _].
      intros Eq. apply H1. rewrite Hid, <- Eq, <- map_app. by apply list_elem_of_fmap_2. }
    apply not_true_iff_false in Hfree. apply Hfree, existsb_exists. exists q. split; [by apply list_elem_of_In|].
    apply andb_true_iff. split; [by rewrite bool_decide_eq_false_2|by apply Z.eqb_eq]. }
  split.
  { destruct Hself as (q & Hq & Hm & Hcon). apply elem_of_app in Hq as [Hq|[->|Hq]%elem_of_cons].
    - exists q. split; [set_solver|done].
    - exists (p <| d_color := c |>). split; [set_solver|done].
    - exists q. split; [set_solver|done]. }
  rewrite !map_app in *. cbn in *. split; [done|]. split.
  { rewrite <- Permutation_middle in H2 |- *. apply NoDup_cons in H2 as [_ H2]. constructor; [|done].
    rewrite <- map_app. intros (q & Eq & Hq)%list_elem_of_fmap. by apply (Hout q). }
  split; [done|]. split; [|by rewrite length_app in *].
  rewrite Forall_app, Forall_cons in *. cbn. destruct H4 as (? & [? ?] & ?). done.
Qed.

(** ** The invariant *)

Definition all_done (fin : list (string * Z)) (ps : list driver) : bool :=
  forallb (fun p => has fin (d_peer p)) (List.filter d_connected ps).

(** The timers of a race and its phase. *)
Definition timers_ok (h : host) : Prop :=
  (goTimer h = true <-> phase h = Countdown)
  /\ (running h = true -> relayTimer h = true)
  /\ (graceTimer h = true <-> phase h = Racing /\ finishTimes h <> [])
  /\ (endTimer h = true -> phase h = Racing)
  /\ (phase h = Racing -> all_done (finishTimes h) (players h) = true -> endTimer h = true)
  /\ (phase h = Countdown -> finishTimes h = []).

Definition times_ok (h : host) : Prop := Forall (fun x => 5000 <= x.2 <= 1800000) (finishTimes h).

Definition sound (h : host) : Prop := selfId h <> "" /\ seats_ok (selfId h) (players h) /\ timers_ok h /\ times_ok h.

Lemma running_iff h : running h = true <-> phase h = Racing \/ phase h = Countdown.
Proof. unfold running. rewrite orb_true_iff, !bool_decide_eq_true. done. Qed.

(** Someone is connected. *)
Lemma connected_some me ps : seats_ok me ps -> exists p rest, List.filter d_connected ps = p :: rest.
Proof.
  intros ((p & Hp & _ & Hc) & _). destruct (List.filter d_connected ps) as [|q rest] eqn:E; [|by exists q, rest].
  exfalso. assert (Hin : p ∈ List.filter d_connected ps) by (apply list_elem_of_In, filter_In; split; [by apply list_elem_of_In|done]).
  rewrite E in Hin. by apply not_elem_of_nil in Hin.
Qed.

Lemma not_done me ps : seats_ok me ps -> all_done [] ps = false.
Proof. intros (p & rest & E)%connected_some. unfold all_done. by rewrite E. Qed.

(** Before and after a race no timer of a race is pending. *)
Lemma timers_idle h : (phase h = Lobby \/ phase h = Finished) -> goTimer h = false -> graceTimer h = false -> endTimer h = false ->
  timers_ok h.
Proof.
  unfold timers_ok, running. intros [->| ->] -> -> ->; cbn; repeat split; try done; naive_solver.
Qed.

Lemma timers_lobby h : timers_ok h -> phase h = Lobby -> goTimer h = false /\ graceTimer h = false /\ endTimer h = false.
Proof.
  intros (G & _ & R & E & _) Hp. rewrite Hp in *. split; [|split]; apply not_true_iff_false; intros H.
  - by apply G in H.
  - by apply R in H as [? _].
  - by apply E in H.
Qed.

(** Outside a race the players may change. *)
Lemma sound_lobby h ps : sound h -> phase h = Lobby -> seats_ok (selfId h) ps -> sound (h <| players := ps |>).
Proof.
  intros (Hm & _ & Ht & Hf) Hp Hs. split; [done|split; [done|split; [|done]]].
  destruct (timers_lobby h Ht Hp) as (? & ? & ?). apply timers_idle; auto.
Qed.

Lemma sound_push now h : sound h -> sound (pushState now h).
Proof. exact id. Qed.

(** ** The operations keep it *)

Lemma finishRace_sound now h : sound h -> sound (finishRace now h).
Proof.
  intros (Hm & Hs & Ht & Hf). unfold finishRace. destruct (running h); [|done]. cbn [negb].
  split; [done|split; [exact Hs|split; [|exact Hf]]]. apply timers_idle; auto.
Qed.

(** [checkRaceComplete] restores what it needs to hold about [endTimer]. *)
Lemma check_sound now h : selfId h <> "" -> seats_ok (selfId h) (players h) -> times_ok h ->
  (goTimer h = true <-> phase h = Countdown) -> (running h = true -> relayTimer h = true) ->
  (graceTimer h = true <-> phase h = Racing /\ finishTimes h <> []) -> (endTimer h = true -> phase h = Racing) ->
  (phase h = Countdown -> finishTimes h = []) -> sound (checkRaceComplete now h).
Proof.
  intros Hm Hs Hf G L R E C. unfold checkRaceComplete. case_bool_decide as Hp; cbn [negb].
  2: { split; [done|split; [done|split; [|done]]]. do 4 (split; [done|]). split; done. }
  destruct (connected_some _ _ Hs) as (q & rest & Eq). rewrite Eq.
  destruct (forallb (has_finished h) (q :: rest) && negb (endTimer h)) eqn:Ed.
  - split; [done|split; [done|split; [|done]]]. do 3 (split; [done|]). split; [done|]. split; [done|exact C].
  - split; [done|split; [done|split; [|done]]]. do 4 (split; [done|]). split; [|done]. intros _ Ha.
    unfold all_done in Ha. rewrite Eq in Ha.
    change (forallb (has_finished h) (q :: rest) = true) in Ha. rewrite Ha in Ed. by apply negb_false_iff in Ed.
Qed.

Lemma set_nonempty {A} (l : list (string * A)) k v : set l k v <> [].
Proof. destruct l as [|[k' v'] l]; [done|]. cbn. by case_bool_decide. Qed.

Lemma set_forall {A} (P : string * A -> Prop) l k v : Forall P l -> (forall k', P (k', v)) -> Forall P (set l k v).
Proof. intros Hl Hv. induction Hl as [|[k' v'] l Hx Hl IH]; cbn; [by constructor|]. case_bool_decide; by constructor. Qed.

Lemma recordFinish_sound now id t bl h : sound h -> sound (recordFinish now id t bl h).
Proof.
  intros (Hm & Hs & (G & L & R & E & D & C) & Hf). unfold recordFinish. case_bool_decide as Hp; [|done]. cbn [negb].
  destruct (to_number t) as [n|]; [|done]. destruct (Z.ltb n 5000 || Z.ltb 1800000 n) eqn:Hn; [done|].
  destruct (has (finishTimes h) id); [done|]. apply sound_push.
  set (h1 := h <| finishTimes := set (finishTimes h) id n |>).
  match goal with |- sound (checkRaceComplete _ (?x <| graceTimer := true |>)) => set (h2 := x) end.
  assert (Eq : exists l, h2 = h1 <| bestLaps := l |>).
  { subst h2. destruct (to_number bl) as [b|]; [|by exists (bestLaps h1); destruct h].
    destruct (Z.ltb 3000 b && Z.ltb b 1800000); [by eexists|by exists (bestLaps h1); destruct h]. }
  clearbody h2. destruct Eq as [l ->]. apply orb_false_iff in Hn as [N1%Z.ltb_ge N2%Z.ltb_ge].
  apply check_sound; cbn; try done.
  - apply set_forall; [done|]. intros k'. cbn. lia.
  - split; [|done]. intros _. split; [done|]. apply set_nonempty.
  - rewrite Hp. done.
Qed.

Lemma has_driver ps peerId : is_Some (find_driver peerId ps) <-> peerId ∈ map d_peer ps.
Proof.
  split.
  - intros [p [Hp <-]%find_driver_some]. by apply list_elem_of_fmap_2.
  - intros Hin. destruct (find_driver peerId ps) eqn:E; [done|]. by apply find_driver_none in E.
Qed.

Lemma addPlayer_sound now peerId name h : sound h -> phase h = Lobby -> sound (snd (addPlayer now peerId name h)).
Proof.
  intros Hok Hp. pose proof Hok as (_ & Hs & _). unfold addPlayer. destruct (find_driver peerId (players h)) eqn:E.
  - cbn [snd]. apply sound_push, sound_lobby; [done|done|]. by apply seats_change.
  - destruct (Nat.leb_spec MAX_PLAYERS (length (players h))); [done|]. cbn [snd].
    apply sound_push, sound_lobby; [done|done|]. apply seats_add; [done|by apply find_driver_none|done].
Qed.

Lemma removePlayer_sound now peerId h : sound h -> sound (removePlayer now peerId h).
Proof.
  intros Hok. pose proof Hok as (Hm & Hs & (G & L & R & E & D & C) & Hf). unfold removePlayer.
  destruct (find_driver peerId (players h)) eqn:Ef; [|done]. case_bool_decide as Hid; [done|].
  case_bool_decide as Hp.
  - apply sound_push, sound_lobby; [done|done|]. eapply seats_sublist; [apply splice_sublist| |exact Hs].
    intros p Hin Hpm _. apply splice_elem; [congruence|done].
  - apply sound_push. apply check_sound; cbn; try done. by apply seats_change.
Qed.

Lemma setColor_sound now peerId color h : sound h -> sound (setColor now peerId color h).
Proof.
  intros Hok. pose proof Hok as (Hm & Hs & _). unfold setColor.
  destruct (find_driver peerId (players h)) as [p|] eqn:Ef; [|done]. destruct (to_number color) as [c|]; [|done].
  destruct (negb (bool_decide (phase h = Lobby)) || Z.ltb c 0 || Z.leb COLORS c) eqn:Eg; [done|]. bool_cases.
  destruct (existsb _ (players h)) eqn:Ex; [done|]. apply find_driver_some in Ef as [Hin Hid].
  apply sound_push, sound_lobby; [done|done|]. by eapply seats_color.
Qed.

Lemma storeCar_sound now id race c hz h : sound h -> sound (storeCar now id race c hz h).
Proof.
  intros Hok. unfold storeCar. destruct (negb (running h)); [done|]. destruct c as [[]|]; try done.
  destruct (truthy race && _); [done|]. by destruct (negb _).
Qed.

Lemma bots_sound now race bs : forall h, sound h -> sound (fold_left (store_bot now race) bs h).
Proof.
  induction bs as [|b bs IH]; intros h Hok; [done|]. cbn. apply IH. unfold store_bot.
  destruct (bot_id _); [by apply storeCar_sound|done].
Qed.

Lemma noteHit_sound now hid h : sound h -> sound (noteHit now hid h).
Proof. intros Hok. unfold noteHit. destruct hid as [[]|]; try done. by destruct (Nat.ltb _ _). Qed.

Lemma applyAction_sound now peerId action h : sound h -> sound (applyAction now peerId action h).
Proof.
  intros Hok. unfold applyAction. destruct (prop action "type") as [[| | |ty| |]|]; try done.
  case_bool_decide.
  { destruct (prop action "bots") as [[]|]; try (by apply storeCar_sound).
    destruct (bool_decide _); [apply bots_sound|]; by apply storeCar_sound. }
  case_bool_decide; [by apply noteHit_sound|]. case_bool_decide; [by apply recordFinish_sound|].
  case_bool_decide; [by apply setColor_sound|done].
Qed.

Lemma onWire_sound now from body h : sound h -> sound (onWire now from body h).
Proof.
  intros Hok. unfold onWire. destruct (prop (Some body) "wire") as [[| | |wire| |]|]; try done.
  destruct (bool_decide (wire = "join") && _).
  { case_bool_decide as Hp; [|done]. cbn [negb]. destruct (negb (public_lobby (cfg h)) && _ && _); [done|].
    pose proof (addPlayer_sound now from (prop (Some body) "name") h Hok Hp) as Ha.
    by destruct (addPlayer now from (prop (Some body) "name") h) as [[] h']. }
  case_bool_decide; [by apply removePlayer_sound|]. destruct (negb _ || negb _); [done|].
  repeat (case_bool_decide; [by apply applyAction_sound|]). done.
Qed.

Lemma startRace_sound now r h : sound h -> sound (startRace now r h).
Proof.
  intros Hok. pose proof Hok as (Hm & Hs & _). unfold startRace.
  destruct (negb (bool_decide (phase h = Lobby)) && negb (bool_decide (phase h = Finished))); [done|].
  destruct (racers h); [done|]. split; [done|split; [exact Hs|split; [|by constructor]]].
  repeat split; try done. naive_solver.
Qed.

Lemma go_sound now h : sound h -> sound (go now h).
Proof.
  intros (Hm & Hs & (G & L & R & E & D & C) & Hf). unfold go.
  destruct (bool_decide (phase (h <| goTimer := false |>) = Countdown)) eqn:Hp; cbn [negb].
  - apply bool_decide_eq_true_1 in Hp. cbn in Hp. apply sound_push. split; [done|split; [exact Hs|split; [|exact Hf]]].
    specialize (C Hp). assert (Hr : running h = true) by (apply running_iff; auto).
    split; [done|]. split; [by intros _; apply L|]. split; [cbn; rewrite R, Hp, C; naive_solver|]. split; [done|].
    split; [|done]. intros _ Ha. change (all_done (finishTimes h) (players h) = true) in Ha. by rewrite C, (not_done _ _ Hs) in Ha.
  - apply bool_decide_eq_false_1 in Hp. cbn in Hp. split; [done|split; [exact Hs|split; [|exact Hf]]].
    split; [done|]. do 4 (split; [done|]). exact C.
Qed.

Lemma backToLobby_sound now h : sound h -> sound (backToLobby now h).
Proof.
  intros Hok. pose proof Hok as (Hm & Hs & _). unfold backToLobby. case_bool_decide as Hp; [done|].
  apply sound_push. split; [done|split; [|split; [|by constructor]]].
  - cbn. eapply seats_sublist; [| |exact Hs].
    + clear. induction (players h) as [|p ps IH]; [done|]. cbn. destruct (d_connected p); by constructor.
    + intros p Hin _ Hc. apply list_elem_of_In, filter_In. split; [by apply list_elem_of_In|done].
  - apply timers_idle; auto.
Qed.

Lemma finish_timer_sound now (h : host) : sound h -> phase h = Racing ->
  sound (finishRace now (h <| graceTimer := false |>)) /\ sound (finishRace now (h <| endTimer := false |>)).
Proof.
  intros (Hm & Hs & Ht & Hf) Hp. split; unfold finishRace;
    match goal with |- sound (if negb ?b then _ else _) => replace b with true by (symmetry; apply running_iff; by left) end;
    (split; [done|split; [exact Hs|split; [|exact Hf]]]); apply timers_idle; auto.
Qed.

Lemma step_sound now e h : sound h -> sound (step now e h).
Proof.
  intros Hok. pose proof Hok as (Hm & Hs & Ht & Hf).
  destruct e as [from body|action|peerId|peerId|patch|peerId connected blocked|newRaceId| |t]; cbn [step].
  - by apply onWire_sound.
  - by apply applyAction_sound.
  - by apply removePlayer_sound.
  - unfold kickPlayer. case_bool_decide; [done|]. destruct (find_driver _ _); [|done]. by apply removePlayer_sound.
  - done.
  - unfold invitePeer. destruct (_ || _); [done|]. by destruct (negb connected || blocked).
  - by apply startRace_sound.
  - by apply backToLobby_sound.
  - destruct (pending t h) eqn:Ep; [|done]. destruct t; cbn [fire pending] in *.
    + by apply go_sound.
    + unfold relay_tick. by destruct (guests _).
    + destruct Ht as (_ & _ & R & _). apply R in Ep as [Hp _]. by apply finish_timer_sound.
    + destruct Ht as (_ & _ & _ & E & _). apply E in Ep. by apply finish_timer_sound.
    + destruct (running (h <| stopTimers := Nat.pred (stopTimers h) |>)) eqn:Er; [exact Hok|].
      change (running h = false) in Er. split; [done|split; [exact Hs|split; [|exact Hf]]].
      destruct Ht as (G & L & R & E & D & C). split; [exact G|]. split; [|split; [exact R|split; [exact E|split; [exact D|exact C]]]].
      intros H. change (running h = true) in H. congruence.
Qed.

Lemma reach_sound h : reach h -> sound h.
Proof.
  induction 1 as [me game input now name Hme|h now e _ IH]; [|by apply step_sound].
  split; [done|]. split; [|split; [by apply timers_idle; auto|by constructor]]. cbn.
  split; [eexists; split; [by left|done]|]. cbn.
  do 3 (split; [apply NoDup_singleton|]). split; [repeat constructor; done|]. unfold MAX_PLAYERS. lia.
Qed.

(** ** What an operation leaves alone *)

(** The race goes on: only cars, times, players and [endTimer] differ. *)
Definition steady (h h' : host) : Prop :=
  (selfId h', gameId h', cfg h', phase h', raceId h', goAt h', results h', message h', invitedPeers h')
    = (selfId h, gameId h, cfg h, phase h, raceId h, goAt h, results h, message h, invitedPeers h)
  /\ (finishTimes h <> [] -> finishTimes h' <> []).

(** It goes on, and of the others nothing changes. *)
Definition confined (id : string) (h h' : host) : Prop :=
  steady h h'
  /\ (forall k, k <> id -> get (cars h') k = get (cars h) k /\ get (finishTimes h') k = get (finishTimes h) k
                           /\ get (bestLaps h') k = get (bestLaps h) k)
  /\ (forall t, get (finishTimes h) id = Some t -> get (finishTimes h') id = Some t)
  /\ (forall p, d_peer p <> id -> p ∈ players h' <-> p ∈ players h).

Lemma confined_refl id h : confined id h h.
Proof. done. Qed.

Lemma confined_push now id h h' : confined id h h' -> confined id h (pushState now h').
Proof. exact (fun H => H). Qed.

Lemma confined_players id h ps : (forall p, d_peer p <> id -> p ∈ ps <-> p ∈ players h) -> confined id h (h <| players := ps |>).
Proof. done. Qed.

(** Someone is connected, so that a check of the race only starts the timer. *)
Lemma check_cases now h : seats_ok (selfId h) (players h) ->
  checkRaceComplete now h = h \/ checkRaceComplete now h = h <| endTimer := true |>.
Proof.
  intros Hs. unfold checkRaceComplete. destruct (negb _); [by left|].
  destruct (connected_some _ _ Hs) as (q & rest & ->). destruct (_ && _); [by right|by left].
Qed.

Lemma check_confined now id h h' : seats_ok (selfId h') (players h') -> confined id h h' ->
  confined id h (checkRaceComplete now h').
Proof. intros Hs Hc. by destruct (check_cases now h' Hs) as [-> | ->]. Qed.

Lemma recordFinish_confined now id t bl h : sound h -> confined id h (recordFinish now id t bl h).
Proof.
  intros (Hm & Hs & _). unfold recordFinish. destruct (negb _); [done|]. destruct (to_number t) as [n|]; [|done].
  destruct (Z.ltb n 5000 || Z.ltb 1800000 n); [done|]. destruct (has (finishTimes h) id) eqn:Eh; [done|].
  apply confined_push. unfold has in Eh.
  match goal with |- confined _ _ (checkRaceComplete _ (?x <| graceTimer := true |>)) => set (h2 := x) end.
  assert (Eq : exists l, h2 = h <| finishTimes := set (finishTimes h) id n |> <| bestLaps := l |>
                         /\ forall k, k <> id -> get l k = get (bestLaps h) k).
  { subst h2. destruct (to_number bl) as [b|]; [|by exists (bestLaps h); destruct h].
    destruct (Z.ltb 3000 b && Z.ltb b 1800000); [|by exists (bestLaps h); destruct h].
    exists (set (bestLaps h) id b). split; [done|]. intros k Hk. rewrite get_set. by rewrite decide_False. }
  clearbody h2. destruct Eq as (l & -> & Hl). apply check_confined; [exact Hs|].
  split; [split; [done|intros _; apply set_nonempty]|]. cbn. split; [|split; [|done]].
  - intros k Hk. rewrite get_set, decide_False by done. split; [done|split; [done|by apply Hl]].
  - intros x Hx. by rewrite Hx in Eh.
Qed.

Lemma removePlayer_confined now id h : sound h -> confined id h (removePlayer now id h).
Proof.
  intros (Hm & Hs & _). unfold removePlayer. destruct (find_driver id (players h)); [|done].
  case_bool_decide as Hid; [done|]. case_bool_decide.
  - apply confined_push, confined_players. intros p Hp. by apply splice_elem.
  - apply confined_push, check_confined; cbn.
    + by apply seats_change.
    + split; [done|]. cbn. split; [|split; [done|]].
      * intros k Hk. rewrite get_del, decide_False by done. done.
      * intros p Hp. by apply change_driver_elem.
Qed.

Lemma addPlayer_confined now id name h : confined id h (snd (addPlayer now id name h)).
Proof.
  unfold addPlayer. destruct (find_driver id (players h)) eqn:E.
  - apply confined_push, confined_players. intros p Hp. by apply change_driver_elem.
  - destruct (Nat.leb _ _); [done|]. apply confined_push, confined_players. intros p Hp.
    rewrite (elem_of_Permutation_proper p _ _ (sort_by_perm seat_before _)), elem_of_app, list_elem_of_singleton.
    split; [|auto]. intros [H | ->]; [done|by destruct Hp].
Qed.

Lemma setColor_confined now id color h : confined id h (setColor now id color h).
Proof.
  unfold setColor. destruct (find_driver id (players h)); [|done]. destruct (to_number color); [|done].
  destruct (_ || _); [done|]. destruct (existsb _ _); [done|].
  apply confined_push, confined_players. intros p Hp. by apply change_driver_elem.
Qed.

Lemma storeCar_confined now id race c hz h : confined id h (storeCar now id race c hz h).
Proof.
  unfold storeCar. destruct (negb (running h)); [done|]. destruct c as [[]|]; try done.
  destruct (truthy race && _); [done|]. destruct (negb _); [done|].
  split; [done|]. cbn. split; [|done]. intros k Hk. by rewrite get_set, decide_False.
Qed.

Lemma noteHit_confined now id hid h : confined id h (noteHit now hid h).
Proof. unfold noteHit. destruct hid as [[]|]; try done. by destruct (Nat.ltb _ _). Qed.

(** An action of a guest. *)
Lemma applyAction_confined now id action h : sound h -> id <> selfId h -> confined id h (applyAction now id action h).
Proof.
  intros Hok Hid. unfold applyAction. rewrite (bool_decide_eq_false_2 (id = selfId h)) by done.
  destruct (prop action "type") as [[| | |ty| |]|]; try done.
  case_bool_decide; [destruct (prop action "bots") as [[]|]; apply storeCar_confined|].
  case_bool_decide; [apply noteHit_confined|].
  case_bool_decide; [destruct (bot_id _); by apply recordFinish_confined|].
  case_bool_decide; [apply setColor_confined|done].
Qed.

Lemma onWire_confined now from body h : sound h -> from <> selfId h -> confined from h (onWire now from body h).
Proof.
  intros Hok Hid. unfold onWire. destruct (prop (Some body) "wire") as [[| | |wire| |]|]; try done.
  destruct (bool_decide (wire = "join") && _).
  { destruct (negb _); [done|]. destruct (_ && _); [done|].
    pose proof (addPlayer_confined now from (prop (Some body) "name") h) as Ha.
    by destruct (addPlayer now from (prop (Some body) "name") h) as [[] h']. }
  case_bool_decide; [by apply removePlayer_confined|]. destruct (_ || _); [done|].
  repeat (case_bool_decide; [by apply applyAction_confined|]). done.
Qed.

(** ** Phases *)

Lemma steady_trans h1 h2 h3 : steady h1 h2 -> steady h2 h3 -> steady h1 h3.
Proof. intros [E1 F1] [E2 F2]. split; [by rewrite E2|auto]. Qed.

Lemma bots_steady now race bs : forall h, steady h (fold_left (store_bot now race) bs h).
Proof.
  induction bs as [|b bs IH]; intros h; [done|]. cbn. eapply steady_trans; [|apply IH]. unfold store_bot.
  destruct (bot_id _) as [id|]; [apply (storeCar_confined now id)|done].
Qed.

Lemma applyAction_steady now id action h : sound h -> steady h (applyAction now id action h).
Proof.
  intros Hok. unfold applyAction. destruct (prop action "type") as [[| | |ty| |]|]; try done.
  case_bool_decide.
  { assert (Hc : steady h (storeCar now id (prop action "raceId") (prop action "c") (prop action "h") h)) by apply (storeCar_confined now id).
    destruct (prop action "bots") as [[]|]; try done. destruct (bool_decide _); [|done].
    eapply steady_trans; [exact Hc|apply bots_steady]. }
  case_bool_decide; [apply (noteHit_confined now id)|].
  case_bool_decide; [by eapply recordFinish_confined|].
  case_bool_decide; [apply (setColor_confined now id)|done].
Qed.

Lemma onWire_steady now from body h : sound h -> steady h (onWire now from body h).
Proof.
  intros Hok. unfold onWire. destruct (prop (Some body) "wire") as [[| | |wire| |]|]; try done.
  destruct (bool_decide (wire = "join") && _).
  { destruct (negb _); [done|]. destruct (_ && _); [done|].
    pose proof (addPlayer_confined now from (prop (Some body) "name") h) as Ha.
    destruct (addPlayer now from (prop (Some body) "name") h) as [[] h']; apply Ha. }
  case_bool_decide; [by apply removePlayer_confined|]. destruct (_ || _); [done|].
  repeat (case_bool_decide; [by apply applyAction_steady|]). done.
Qed.

(** How an event can change the phase. *)
Inductive moves_on (now : Z) (h : host) : event -> race_phase -> Prop :=
| stays e : moves_on now h e (phase h)
| starts r : phase h = Lobby \/ phase h = Finished -> moves_on now h (Start r) Countdown
| returns : moves_on now h ToLobby Lobby
| goes : phase h = Countdown -> moves_on now h (Fire GoTimer) Racing
| ends t : t = GraceTimer \/ t = EndTimer -> phase h = Racing -> moves_on now h (Fire t) Finished.

Lemma step_moves now e h : sound h -> moves_on now h e (phase (step now e h))
  /\ (phase (step now e h) = Racing -> finishTimes h <> [] -> finishTimes (step now e h) <> []).
Proof.
  intros Hok.
  assert (Hst : forall h', steady h h' -> moves_on now h e (phase h') /\ (phase h' = Racing -> finishTimes h <> [] -> finishTimes h' <> [])).
  { intros h' [Eq Hf]. assert (phase h' = phase h) as -> by congruence. split; [apply stays|auto]. }
  destruct e as [from body|action|peerId|peerId|patch|peerId connected blocked|newRaceId| |t]; cbn [step].
  - apply Hst. by apply onWire_steady.
  - apply Hst. by apply applyAction_steady.
  - apply Hst. by apply removePlayer_confined.
  - unfold kickPlayer. case_bool_decide; [by apply Hst|]. destruct (find_driver _ _); [|by apply Hst].
    assert (H1 : steady h (removePlayer now peerId (emit (KickedTo peerId) h))) by (by apply (removePlayer_confined now peerId (emit (KickedTo peerId) h))).
    apply (Hst _ H1).
  - split; [exact (stays now h _)|done].
  - unfold invitePeer. destruct (_ || _); [by apply Hst|]. destruct (_ || _); [by apply Hst|]. split; [exact (stays now h _)|done].
  - unfold startRace. destruct (negb (bool_decide (phase h = Lobby)) && negb (bool_decide (phase h = Finished))) eqn:Ep; [by apply Hst|].
    destruct (racers h); [split; [exact (stays now h _)|done]|]. split; [|done]. apply starts.
    apply andb_false_iff in Ep. rewrite !negb_false_iff, !bool_decide_eq_true in Ep. done.
  - unfold backToLobby. case_bool_decide; [by apply Hst|]. split; [apply returns|done].
  - destruct (pending t h) eqn:Ep; [|by apply Hst]. destruct Hok as (Hm & Hs & (G & L & R & E & D & C) & Hf).
    destruct t; cbn [fire pending] in *.
    + apply G in Ep. unfold go. rewrite bool_decide_eq_true_2 by done. cbn. split; [by apply goes|auto].
    + apply Hst. unfold relay_tick. by destruct (guests _).
    + apply R in Ep as [Hp _]. unfold finishRace, running. cbn [phase]. rewrite bool_decide_eq_true_2 by done.
      split; [apply ends; auto|done].
    + apply E in Ep. unfold finishRace, running. cbn [phase]. rewrite bool_decide_eq_true_2 by done.
      split; [apply ends; auto|done].
    + apply Hst. by destruct (running _).
Qed.

(** ** The order of the results *)

(** Who has finished comes first, in the order of the times. *)
Definition time_before (a b : option Z) : Prop :=
  match a, b with Some ta, Some tb => ta <= tb | None, Some _ => False | _, _ => True end.

Lemma rows_by_time l : StronglySorted (fun a b => time_before (r_time a) (r_time b)) (sort_by row_before l).
Proof.
  apply (sort_by_sorted _ (fun _ => True)); [..|by apply Forall_true]; unfold time_before, row_before; intros a b; [intros c| |];
    destruct (r_time a), (r_time b); try done; try lia.
  all: destruct (r_time c); (done || lia).
Qed.

(** With a progress of every car, also who has not finished is in order. *)
Definition ranked (a b : row) : Prop :=
  time_before (r_time a) (r_time b)
  /\ (r_time a = None -> r_time b = None -> default 0 (r_progress b) <= default 0 (r_progress a)).

Lemma rows_ranked l : Forall (fun r => r_progress r <> None) l -> StronglySorted ranked (sort_by row_before l).
Proof.
  apply sort_by_sorted; unfold ranked, time_before, row_before; intros a b; [intros c| |];
    destruct (r_time a), (r_time b); try (destruct (r_time c)); try (destruct (r_progress a), (r_progress b)); cbn;
    rewrite ?Z.leb_le, ?Z.leb_gt; naive_solver lia.
Qed.

Lemma sorted_lookup {A} (R : A -> A -> Prop) l i j a b : StronglySorted R l -> l !! i = Some a -> l !! j = Some b -> (i < j)%nat -> R a b.
Proof.
  intros Hs. revert i j. induction Hs as [|x l Hs IH Hx]; intros i j; [done|].
  destruct j as [|j]; [lia|]. cbn. destruct i as [|i]; cbn.
  - intros [= <-] Hb _. rewrite Forall_forall in Hx. apply Hx. by eapply list_elem_of_lookup_2.
  - intros Ha Hb Hij. apply (IH i j); [done|done|lia].
Qed.

Definition result_of (i : Z) (r : row) : result :=
  mk_result i (r_peer r) (r_name r) (r_color r) (r_bot r) (r_time r) (r_best r).

Lemma placed_lookup rows : forall i k, placed i rows !! k = option_map (result_of (i + Z.of_nat k)) (rows !! k).
Proof.
  induction rows as [|r rows IH]; intros i k; [done|]. destruct k as [|k]; cbn; [by rewrite Z.add_0_r|].
  rewrite IH. replace (i + 1 + Z.of_nat k) with (i + Z.pos (Pos.of_succ_nat k)) by lia. done.
Qed.

Lemma placed_places rows : forall i, map place (placed i rows) = seqZ i (Z.of_nat (length rows)).
Proof.
  induction rows as [|r rows IH]; intros i; [done|]. cbn [placed map place length].
  rewrite IH, (seqZ_cons i) by lia. f_equal. f_equal; lia.
Qed.

Lemma placed_map {B} (g : row -> B) (g' : result -> B) rows : (forall i r, g' (result_of i r) = g r) ->
  forall i, map g' (placed i rows) = map g rows.
Proof. intros Hg. induction rows as [|r rows IH]; intros i; [done|]. cbn. by rewrite <- (Hg i), IH. Qed.

Lemma get_entry {A} (l : list (string * A)) k v : get l k = Some v -> (k, v) ∈ l.
Proof.
  induction l as [|[k' v'] l IH]; [done|]. cbn. case_bool_decide; [intros [= ->]; subst; left|]. intros Hg. right. auto.
Qed.

(** An element of the ranking is the row of a racer. *)
Lemma ranking_elem h i a : ranking h !! i = Some a ->
  exists p r, p ∈ racers h /\ r = row_of h p /\ sort_by row_before (map (row_of h) (racers h)) !! i = Some r
              /\ a = result_of (1 + Z.of_nat i) r.
Proof.
  unfold ranking. rewrite placed_lookup. destruct (sort_by _ _ !! i) as [r|] eqn:E; [|done]. intros [= <-].
  assert (Hin : r ∈ map (row_of h) (racers h)) by (rewrite <- (sort_by_perm row_before); by eapply list_elem_of_lookup_2).
  apply list_elem_of_fmap in Hin as (p & -> & Hp). by exists p, (row_of h p).
Qed.

(** ** What the host promises *)

Lemma bot_ids count : forall i human used color,
  map d_peer (bot_loop count i human used color) = map (fun k => "bot:" +:+ pretty (Z.of_nat k + 1)) (List.seq i count).
Proof. induction count as [|count IH]; intros i human used color; [done|]. cbn. by rewrite IH. Qed.

Lemma bot_named s : is_bot_id ("bot:" +:+ s) = true.
Proof. by destruct s. Qed.

Lemma racers_ids h : NoDup (map d_peer (players h)) -> Forall (fun p => is_bot_id (d_peer p) = false) (players h) ->
  NoDup (map d_peer (racers h)).
Proof.
  intros Hn Hb. unfold racers. rewrite map_app. unfold botRoster. rewrite bot_ids. apply NoDup_app. split; [done|]. split.
  - intros x (p & -> & Hp)%list_elem_of_fmap (k & E & _)%list_elem_of_fmap. rewrite Forall_forall in Hb.
    specialize (Hb _ Hp). by rewrite E, bot_named in Hb.
  - apply NoDup_fmap_2; [|apply NoDup_ListNoDup, seq_NoDup]. intros x y E. apply (inj (String.append "bot:")) in E.
    apply (inj (pretty (A := Z))) in E. lia.
Qed.

Lemma racers_colors h : sound h ->
  (length (racers h) <= MAX_PLAYERS)%nat /\ NoDup (map d_color (racers h)) /\ Forall (fun p => 0 <= d_color p < COLORS) (racers h).
Proof.
  intros (_ & (_ & _ & Hc & _ & Hr & Hl) & _). unfold racers, botRoster.
  destruct (bot_colors (Nat.min (Z.to_nat (bots (cfg h))) (MAX_PLAYERS - length (players h))) 0 (length (players h))
              (usedColors (players h)) 0) as (B1 & B2 & B3); [|unfold COLORS; lia|lia|done|].
  { unfold usedColors. rewrite length_map. lia. }
  rewrite length_app, B1. split; [lia|]. split.
  - rewrite map_app, Permutation_app_comm. exact B2.
  - apply Forall_app. split; [|exact B3]. eapply Forall_impl; [exact Hr|]. by intros p [? _].
Qed.

(** At any time a race has at most eight racers, humans and bots, in different colours; the
    humans have different ids and seats, the host is one of them and connected, and no bot has the id of
    another racer unless a peer is named like one. *)
Theorem lobby_sound h : reach h ->
  (length (racers h) <= MAX_PLAYERS)%nat
  /\ NoDup (map d_color (racers h)) /\ Forall (fun p => 0 <= d_color p < COLORS) (racers h)
  /\ NoDup (map d_peer (players h)) /\ NoDup (map d_seat (players h))
  /\ (exists p, p ∈ players h /\ d_peer p = selfId h /\ d_connected p = true)
  /\ (Forall (fun p => is_bot_id (d_peer p) = false) (players h) -> NoDup (map d_peer (racers h))).
Proof.
  intros Hok%reach_sound. destruct (racers_colors h Hok) as (? & ? & ?). destruct Hok as (_ & (Hself & Hp & _ & Hs & _) & _).
  do 5 (split; [done|]). split; [done|]. by apply racers_ids.
Qed.

(** C35: A race that has started comes to its end: the countdown has its timer, which starts the
    race; once somebody has finished, or all connected humans have, a timer is pending that ends the race when
    it fires; until then no event but the way back to the lobby takes it away. *)
Theorem races_end h : reach h ->
  (phase h = Countdown -> pending GoTimer h = true /\ forall now, phase (step now (Fire GoTimer) h) = Racing)
  /\ (phase h = Racing -> finishTimes h <> [] -> pending GraceTimer h = true)
  /\ (phase h = Racing -> all_done (finishTimes h) (players h) = true -> pending EndTimer h = true)
  /\ (forall t now, t = GraceTimer \/ t = EndTimer -> pending t h = true ->
        phase h = Racing /\ phase (step now (Fire t) h) = Finished)
  /\ (forall now e, phase h = Racing -> finishTimes h <> [] -> let h' := step now e h in
        phase h' = Racing /\ finishTimes h' <> [] \/ phase h' = Finished \/ e = ToLobby /\ phase h' = Lobby).
Proof.
  intros Hok%reach_sound. pose proof Hok as (_ & _ & (G & L & R & E & D & C) & _). split; [|split; [|split; [|split]]].
  - intros Hp. assert (Hg : goTimer h = true) by by apply G. split; [done|]. intros now. cbn [step pending fire].
    rewrite Hg. unfold go. by rewrite bool_decide_eq_true_2.
  - intros Hp Hf. by apply R.
  - exact D.
  - intros t now [-> | ->] Ht; cbn [pending] in Ht; (assert (Hp : phase h = Racing) by tauto);
      (split; [done|]); cbn [step pending fire]; rewrite Ht; unfold finishRace, running; cbn [phase];
      by rewrite bool_decide_eq_true_2.
  - intros now e Hp Hf h'. destruct (step_moves now e h Hok) as [Hm Hk]. fold h' in Hm, Hk.
    remember (phase h') as ph eqn:Eph. destruct Hm as [e|r [?|?]| |?|t _ _]; try congruence; auto.
Qed.

(** C36: A race that ends is ranked rightly: the places are 1 to the number of racers, one for
    each; who has finished has the time that the host has recorded, at least five seconds and at most half an
    hour, and comes before those with a longer time and those with none; these are in the order of their
    progress, if every car has reported a number. *)
Theorem ranking_right h now e : reach h -> phase h <> Finished -> let h' := step now e h in phase h' = Finished ->
  map place (results h') = seqZ 1 (Z.of_nat (length (racers h')))
  /\ map x_peer (results h') ≡ₚ map d_peer (racers h')
  /\ (forall a, a ∈ results h' -> x_time a = get (finishTimes h') (x_peer a) /\ forall t, x_time a = Some t -> 5000 <= t <= 1800000)
  /\ (forall i j a b, results h' !! i = Some a -> results h' !! j = Some b -> (i < j)%nat -> time_before (x_time a) (x_time b))
  /\ ((forall p, p ∈ racers h' -> progress_of h' (d_peer p) <> None) ->
      forall i j a b, results h' !! i = Some a -> results h' !! j = Some b -> (i < j)%nat ->
        x_time a = None -> x_time b = None -> default 0 (progress_of h' (x_peer b)) <= default 0 (progress_of h' (x_peer a))).
Proof.
  intros Hok%reach_sound Hnf h' Hfin.
  assert (Hr : results h' = ranking h' /\ times_ok h').
  { split; [|by apply (step_sound now e h Hok)]. pose proof (proj1 (step_moves now e h Hok)) as Hm. fold h' in Hm.
    rewrite Hfin in Hm. inversion Hm as [e0 Ee Ep| | | |t Ht Hp Ee]; subst e; [by destruct Hnf|]. subst h'. cbn [step] in *.
    destruct (pending t h); [|by destruct Hnf]. clear -Ht Hp.
    destruct Ht as [-> | ->]; cbn [fire]; unfold finishRace, running; cbn [phase]; by rewrite bool_decide_eq_true_2. }
  clearbody h'. destruct Hr as [-> Ht]. clear Hok Hnf Hfin. split; [|split; [|split; [|split]]].
  - unfold ranking. by rewrite placed_places, sort_by_perm, length_map.
  - unfold ranking. rewrite (placed_map r_peer) by done. rewrite sort_by_perm, map_map. done.
  - intros a (i & Ha)%list_elem_of_lookup. apply ranking_elem in Ha as (p & r & Hp & -> & _ & ->). split; [done|].
    cbn. intros t Hg. unfold times_ok in Ht. rewrite Forall_forall in Ht. by apply (Ht (d_peer p, t)), get_entry.
  - intros i j a b Ha Hb Hij. apply ranking_elem in Ha as (p & r & _ & _ & Ha & ->), Hb as (q & s & _ & _ & Hb & ->).
    exact (sorted_lookup _ _ i j r s (rows_by_time _) Ha Hb Hij).
  - intros Hn i j a b Ha Hb Hij. apply ranking_elem in Ha as (p & r & _ & Er & Ha & ->), Hb as (q & s & _ & Es & Hb & ->).
    assert (Hr : Forall (fun r => r_progress r <> None) (map (row_of h') (racers h'))).
    { apply Forall_forall. intros x (y & -> & Hy)%list_elem_of_fmap. by apply Hn. }
    destruct (sorted_lookup ranked _ i j r s (rows_ranked _ Hr) Ha Hb Hij) as [_ Hd].
    subst r s. exact Hd.
Qed.

Lemma newcomer now from body h : from <> selfId h -> from ∉ map d_peer (players h) ->
  from ∈ map d_peer (players (onWire now from body h)) ->
  phase h = Lobby /\ (public_lobby (cfg h) = true \/ from ∈ invitedPeers h).
Proof.
  intros Hid Hout. unfold onWire. destruct (prop (Some body) "wire") as [[| | |wire| |]|]; try done.
  destruct (bool_decide (wire = "join") && _).
  { case_bool_decide as Hp; [|done]. cbn [negb]. rewrite (bool_decide_eq_false_2 (from = selfId h)) by done.
    destruct (negb (public_lobby (cfg h)) && negb false && negb (includes (invitedPeers h) from)) eqn:Eg; [done|].
    intros _. split; [done|]. destruct (public_lobby (cfg h)); [by left|right]. cbn in Eg.
    apply negb_false_iff in Eg. by apply bool_decide_eq_true_1 in Eg. }
  case_bool_decide.
  { unfold removePlayer. destruct (find_driver from (players h)) eqn:E; [|done].
    apply find_driver_some in E as [Hp <-]. destruct Hout. by apply list_elem_of_fmap_2. }
  assert (Hn : includes (humanIds h) from = false).
  { apply bool_decide_eq_false_2. unfold humanIds. intros [Hin _]%list_elem_of_In%filter_In. by apply list_elem_of_In in Hin. }
  rewrite Hn, orb_true_r. done.
Qed.

(** Outside the lobby the number and the colours of the humans stay, and with them the bots. *)
Lemma change_driver_colors id f ps : (forall p, d_color (f p) = d_color p) -> map d_color (change_driver id f ps) = map d_color ps.
Proof. intros Hf. induction ps as [|p ps IH]; [done|]. cbn. case_bool_decide; cbn; [by rewrite Hf|by rewrite IH]. Qed.

Lemma check_players now h : seats_ok (selfId h) (players h) -> players (checkRaceComplete now h) = players h.
Proof. intros Hs. by destruct (check_cases now h Hs) as [-> | ->]. Qed.

Lemma removePlayer_colors now id h : sound h -> phase h <> Lobby ->
  map d_color (players (removePlayer now id h)) = map d_color (players h).
Proof.
  intros (_ & Hs & _) Hp. unfold removePlayer. destruct (find_driver id (players h)); [|done].
  case_bool_decide; [done|]. rewrite bool_decide_eq_false_2 by done. cbn. rewrite check_players by by apply seats_change.
  by apply change_driver_colors.
Qed.

Lemma recordFinish_players now id t bl h : sound h -> players (recordFinish now id t bl h) = players h.
Proof.
  intros (_ & Hs & _). unfold recordFinish. destruct (negb _); [done|]. destruct (to_number t); [|done].
  destruct (_ || _); [done|]. destruct (has _ _); [done|]. cbn [players pushState emit field_update].
  destruct (to_number bl) as [b|]; [destruct (_ && _)|]; cbn; by rewrite check_players.
Qed.

Lemma applyAction_colors now id action h : sound h -> id <> selfId h -> phase h <> Lobby ->
  map d_color (players (applyAction now id action h)) = map d_color (players h).
Proof.
  intros Hok Hid Hp. unfold applyAction. rewrite (bool_decide_eq_false_2 (id = selfId h)) by done.
  assert (Hc : forall race c hz, players (storeCar now id race c hz h) = players h).
  { intros race c hz. unfold storeCar. destruct (negb (running h)); [done|]. destruct c as [[]|]; try done.
    destruct (truthy race && _); [done|]. by destruct (negb _). }
  destruct (prop action "type") as [[| | |ty| |]|]; try done.
  case_bool_decide; [destruct (prop action "bots") as [[]|]; by rewrite Hc|].
  case_bool_decide; [unfold noteHit; destruct (prop action "hid") as [[]|]; try done; by destruct (Nat.ltb _ _)|].
  case_bool_decide; [destruct (bot_id _); by rewrite recordFinish_players|].
  case_bool_decide; [|done]. unfold setColor. destruct (find_driver id (players h)); [|done].
  destruct (to_number _); [|done]. by rewrite bool_decide_eq_false_2.
Qed.

Lemma onWire_colors now from body h : sound h -> from <> selfId h -> phase h <> Lobby ->
  map d_color (players (onWire now from body h)) = map d_color (players h).
Proof.
  intros Hok Hid Hp. unfold onWire. destruct (prop (Some body) "wire") as [[| | |wire| |]|]; try done.
  destruct (bool_decide (wire = "join") && _); [by rewrite bool_decide_eq_false_2|].
  case_bool_decide; [by apply removePlayer_colors|]. destruct (_ || _); [done|].
  repeat (case_bool_decide; [by apply applyAction_colors|]). done.
Qed.

Lemma same_bots h h' : cfg h' = cfg h -> map d_color (players h') = map d_color (players h) -> botRoster h' = botRoster h.
Proof.
  intros Ec E. unfold botRoster, usedColors. rewrite Ec, E.
  by rewrite <- (length_map d_color (players h')), E, length_map.
Qed.

(** C23: A guest drives only itself.  Whatever it sends, the phase, the settings, the race and its
    results stay; the entries of every other id, bots included, in the maps of cars, times and best
    laps stay; every other human keeps name, colour, seat and connection; and a time that the guest
    itself has reported stays.  Outside the lobby the bots stay as they are too (in the lobby they are
    numbered and coloured anew when a human comes, goes or takes another colour).  Only a guest that
    is invited, or any in a public lobby, joins, and only in the lobby. *)
Theorem guests_drive_themselves h now from body : reach h -> from <> selfId h -> let h' := onWire now from body h in
  (phase h', cfg h', raceId h', goAt h', results h') = (phase h, cfg h, raceId h, goAt h, results h)
  /\ (forall k, k <> from -> get (cars h') k = get (cars h) k /\ get (finishTimes h') k = get (finishTimes h) k
                            /\ get (bestLaps h') k = get (bestLaps h) k)
  /\ (forall p, d_peer p <> from -> p ∈ players h' <-> p ∈ players h)
  /\ (forall t, get (finishTimes h) from = Some t -> get (finishTimes h') from = Some t)
  /\ (phase h <> Lobby -> botRoster h' = botRoster h /\ forall p, d_peer p <> from -> p ∈ racers h' <-> p ∈ racers h)
  /\ (from ∉ map d_peer (players h) -> from ∈ map d_peer (players h') ->
      phase h = Lobby /\ (public_lobby (cfg h) = true \/ from ∈ invitedPeers h)).
Proof.
  intros Hok%reach_sound Hid h'. destruct (onWire_confined now from body h Hok Hid) as ([E _] & Hc & Ht & Hp).
  split; [subst h'; congruence|]. split; [exact Hc|]. split; [exact Hp|]. split; [exact Ht|]. split.
  - intros Hl. assert (Hb : botRoster h' = botRoster h) by (apply same_bots; [subst h'; congruence|by apply onWire_colors]).
    split; [exact Hb|]. intros p Hne. unfold racers. rewrite Hb, !elem_of_app; subst h'; rewrite (Hp p Hne). done.
  - subst h'. clear E Hc Ht Hp. by apply newcomer.
Qed.

(** ** Histories *)

Definition run (es : list (Z * event)) (h : host) : host := fold_left (fun h x => step x.1 x.2 h) es h.

Lemma reach_run es : forall h, reach h -> reach (run es h).
Proof. induction es as [|[now e] es IH]; intros h Hr; [done|]. cbn. apply IH. by apply reach_step. Qed.

(** A public lobby of the host A with one bot. *)
Definition demo : host :=
  bootstrapHost 0 None (newHost "A" "g" [("lobbyAccess", JStr "public"); ("bots", JNum 1)]).

Lemma demo_reach es : reach (run es demo).
Proof. by apply reach_run, reach_new. Qed.

Definition join_of (peer : string) : event := Wire peer (JObj [("wire", JStr "join"); ("gameId", JStr "g"); ("name", JStr peer)]).
Definition finish_of (peer : string) (t : Z) : event :=
  Wire peer (JObj [("wire", JStr "finish"); ("gameId", JStr "g"); ("timeMs", JNum t); ("bestLapMs", JNum 4000)]).
Definition car_of (peer : string) (p : Z) : event :=
  Wire peer (JObj [("wire", JStr "car"); ("gameId", JStr "g"); ("raceId", JStr "r");
    ("c", JObj [("x", JNum 1); ("z", JNum 2); ("a", JNum 0); ("v", JNum 30); ("p", JNum p)])]).

(** A race of A, B and the bot in which B has finished. *)
Definition finished_B : list (Z * event) :=
  [(1, join_of "B"); (2, Start "r"); (4203, Fire GoTimer); (5000, car_of "B" 3); (71000, finish_of "B" 70000)].

Definition joined_B : list (Z * event) := [(1, join_of "B")].

Lemma lobby_sound_witness : length (racers (run joined_B demo)) = 3%nat
  /\ (length (racers (run joined_B demo)) <= MAX_PLAYERS)%nat.
Proof. split; [reflexivity|]. apply (proj1 (lobby_sound _ (demo_reach joined_B))). Defined.

Lemma races_end_witness : phase (run finished_B demo) = Racing /\ pending GraceTimer (run finished_B demo) = true
  /\ phase (step 116000 (Fire GraceTimer) (run finished_B demo)) = Finished.
Proof.
  destruct (races_end _ (demo_reach finished_B)) as (_ & Hg & _ & Hf & _).
  assert (Ht : pending GraceTimer (run finished_B demo) = true) by (apply Hg; [reflexivity|vm_compute; discriminate]).
  split; [reflexivity|]. split; [exact Ht|]. apply Hf; [by left|exact Ht].
Defined.

Lemma ranking_right_witness : let h := step 116000 (Fire GraceTimer) (run finished_B demo) in
  map x_peer (results h) = ["B"; "A"; "bot:1"] /\ map place (results h) = seqZ 1 (Z.of_nat (length (racers h))).
Proof.
  split; [vm_compute; reflexivity|].
  apply (ranking_right _ 116000 (Fire GraceTimer) (demo_reach finished_B)); [vm_compute; discriminate|vm_compute; reflexivity].
Defined.

(** B claims a time for the bot. *)
Definition claim_of_B : json := JObj [("wire", JStr "action"); ("gameId", JStr "g");
  ("action", JObj [("type", JStr "finish"); ("id", JStr "bot:1"); ("timeMs", JNum 90000)])].

Lemma guests_drive_themselves_witness :
  get (finishTimes (onWire 72000 "B" claim_of_B (run finished_B demo))) "B" = Some 70000
  /\ get (finishTimes (onWire 72000 "B" claim_of_B (run finished_B demo))) "bot:1"
     = get (finishTimes (run finished_B demo)) "bot:1".
Proof.
  assert (Hb : "B" <> selfId (run finished_B demo)) by (vm_compute; discriminate).
  destruct (guests_drive_themselves _ 72000 "B" claim_of_B (demo_reach finished_B) Hb) as (_ & Ho & _ & Ht & _).
  assert (Hk : "bot:1" <> "B") by discriminate. destruct (Ho "bot:1" Hk) as (_ & E & _).
  split; [apply Ht; vm_compute; reflexivity|exact E].
Defined.

(** ** What it keeps less than it should *)

(** A bot takes the seat of a human when the seats of the humans have a gap: its seat is their number. *)
Lemma bot_shares_seat :
  map (fun p => (d_peer p, d_seat p)) (racers (run [(1, join_of "B"); (2, join_of "C"); (3, Left "B")] demo))
  = [("A", 0); ("C", 2); ("bot:1", 2)].
Proof. vm_compute. reflexivity. Qed.

(** A driver whom the host has removed during the race still finishes, and wins. *)
Lemma removed_driver_wins :
  let h := run [(1, join_of "B"); (2, Start "r"); (4203, Fire GoTimer); (6000, Kick "B"); (71000, finish_of "B" 70000);
                (116000, Fire GraceTimer)] demo in
  message h = WonBy "B" /\ map (fun p => (d_peer p, d_connected p)) (players h) = [("A", true); ("B", false)].
Proof. vm_compute. done. Qed.

(** Settings that are announced for the next race change the drivers of the running one. *)
Lemma settings_change_running_race :
  let h := run [(1, Start "r"); (4202, Fire GoTimer)] demo in
  let h' := step 5000 (Settings [("bots", JNum 3)]) h in
  phase h' = Racing /\ message h' = SettingsNextRace /\ (length (racers h), length (racers h')) = (2, 4)%nat.
Proof. vm_compute. done. Qed.
