(* ===== verification/Stickers.v ===== *)
(** * Stickers and voice notes ([renderer/stickers/stickerStore.js], [renderer/voice/voiceMeta.js],
      [voice/waveform.js])

    What a sticker and the description of a voice message must look like, and the packs of
    stickers that a device stores.  The packs are stored as JSON and read with the same checks
    as data of others; the random ids that the code draws are arguments, taken from a list.
    Bars of a waveform are integers ([v | 0] is then the identity), and the number of bars is
    64, so that the bounds of a segment are exact in floating point.  [FileReader] and the
    [await]s between reading and writing the store are left out: an operation on the packs is
    one step.  A name that is an array is left out. *)

From stdpp Require Import pretty.
From S2P Require Import Prelude Bytes Json.

(** ** Voice notes *)

Definition WAVEFORM_BARS : Z := 64.
Definition WAVEFORM_MAX : Z := 255.
Definition MAX_VOICE_MS : Z := 5 * 60 * 1000.

Definition clampBar (n : json) : Z :=
  match to_number (Some n) with
  | None => 0
  | Some v => if Z.leb v 0 then 0 else if Z.leb WAVEFORM_MAX v then WAVEFORM_MAX else v
  end.

(** The largest bar of [levels] from [start] to [stop]. *)
Definition peak_of (levels : list json) (start stop : nat) : Z :=
  fold_left (fun peak n => Z.max peak (clampBar n)) (take (stop - start) (drop start levels)) 0.

Definition segment (len i : nat) : nat := i * len / Z.to_nat WAVEFORM_BARS.

Definition downsampleWaveform (levels : list json) : list Z :=
  let count := Z.to_nat WAVEFORM_BARS in
  match levels with
  | [] => repeat 0 count
  | _ =>
      if Nat.eqb (length levels) count then map clampBar levels
      else map (fun i => let start := segment (length levels) i in
                         peak_of levels start (Nat.max (S start) (segment (length levels) (S i)))) (List.seq 0 count)
  end.

Record voice_meta := mk_voice { durationMs : Z; waveform : list Z; mime : string }.

Definition sanitizeVoiceMeta (raw : option json) : option voice_meta :=
  match raw with
  | Some (JObj _) =>
      let durationMs := number_or_zero (prop raw "durationMs") in
      if Z.leb durationMs 0 || Z.ltb (MAX_VOICE_MS + 15000) durationMs then None
      else Some (mk_voice durationMs (downsampleWaveform (default [] (as_array (prop raw "waveform"))))
                   (str_take 80 (trim (string_or_empty (prop raw "mime")))))
  | _ => None
  end.

Definition isVoiceMessage (message : option json) : bool :=
  bool_decide (prop message "kind" = Some (JStr "file")) && bool_decide (is_Some (sanitizeVoiceMeta (prop message "voice"))).

(** ** Checks of sticker data *)

Definition MAX_STICKER_SIZE_BYTES : Z := 2 * 1024 * 1024.
Definition MAX_STICKER_STORAGE_BYTES : Z := 32 * 1024 * 1024.
Definition MAX_STICKER_PACKS : nat := 30.
Definition MAX_STICKERS_PER_PACK : nat := 100.
Definition MAX_RECENT : nat := 30.

(** [/[\u0000-\u001f\u007f]/] *)
Definition is_control (c : ascii) : bool := let n := Ascii.nat_of_ascii c in Nat.ltb n 32 || Nat.eqb n 127.

Fixpoint drop_controls (s : string) : string :=
  match s with
  | EmptyString => EmptyString
  | String c rest => if is_control c then drop_controls rest else String c (drop_controls rest)
  end.

(** [None] if the fallback that is used has no [slice]: the code throws. *)
Definition cleanText (value : option json) (fallback : json) (max : nat) : option string :=
  let text := trim (drop_controls (string_or_empty value)) in
  if bool_decide (text = "") then match fallback with JStr s => Some (str_take max s) | _ => None end
  else Some (str_take max text).

Definition id_char (c : ascii) : bool :=
  let n := Ascii.nat_of_ascii c in
  (Nat.leb 65 n && Nat.leb n 90) || (Nat.leb 97 n && Nat.leb n 122) || (Nat.leb 48 n && Nat.leb n 57)
  || Nat.eqb n 45 || Nat.eqb n 95.

(** [/^[A-Za-z0-9_-]{1,100}$/.test(id)] *)
Definition is_clean_id (id : string) : bool :=
  negb (bool_decide (id = "")) && Nat.leb (String.length id) 100 && string_forallb id_char id.

Definition cleanId (value : option json) : string :=
  let id := trim (string_or_empty value) in if is_clean_id id then id else "".

Definition is_b64 (c : ascii) : bool := match b64Value c with Ok _ => true | Err _ => false end.

(** The padding that [endsWith] finds. *)
Definition padding_of (data : string) : nat := if ends_with "==" data then 2 else if ends_with "=" data then 1 else 0.

Definition base64ByteLength (value : option json) : Z :=
  let data := string_or_empty value in
  let len := String.length data in
  if bool_decide (data = "") || negb (Nat.eqb (len mod 4) 0) || negb (string_forallb is_b64 (str_take (len - padding_of data) data))
  then -1
  else Z.of_nat (len / 4 * 3 - padding_of data).

(** [atob] decodes as [b64ToBytes] does what has passed the check. *)
Definition firstBytes (base64 : string) (count : nat) : bytes :=
  match b64ToBytes (str_take ((count + 2) / 3 * 4) base64) with Ok b => take count b | Err _ => [] end.

Definition bytes_of (s : string) : bytes := map (fun c => Z.of_nat (Ascii.nat_of_ascii c)) (String.list_ascii_of_string s).

Definition MIME_BY_SIGNATURE : list (string * (bytes -> bool)) :=
  [("image/png", fun b => bool_decide (take 4 b = [137; 80; 78; 71]));
   ("image/jpeg", fun b => bool_decide (take 3 b = [255; 216; 255]));
   ("image/gif", fun b => bool_decide (take 4 b = bytes_of "GIF8"));
   ("image/webp", fun b => bool_decide (take 4 b = bytes_of "RIFF") && bool_decide (take 4 (drop 8 b) = bytes_of "WEBP"))].

Definition ALLOWED_MIMES : list string := map fst MIME_BY_SIGNATURE.

Definition detect (b : bytes) : option string :=
  option_map fst (List.find (fun entry => entry.2 b) MIME_BY_SIGNATURE).

(** [text.split(';', 1)[0]] *)
Fixpoint before_semicolon (s : string) : string :=
  match s with
  | EmptyString => EmptyString
  | String c rest => if bool_decide (c = ";"%char) then EmptyString else String c (before_semicolon rest)
  end.

Record sticker_data := mk_data { fileData : string; fileType : string; fileSize : Z }.

(** [None]: the function throws. *)
Definition validateStickerData (data type size : option json) : option sticker_data :=
  let actualSize := base64ByteLength data in
  if Z.ltb actualSize 1 || Z.ltb MAX_STICKER_SIZE_BYTES actualSize then None
  else
    match data, detect (firstBytes (string_or_empty data) 12) with
    | Some (JStr text), Some detected =>
        let declared := trim (before_semicolon (lower (string_or_empty type))) in
        if negb (bool_decide (declared = "")) && negb (includes ALLOWED_MIMES declared && bool_decide (declared = detected)) then None
        else
          match to_number size with
          | Some n => if Z.ltb 0 n && Z.ltb 2 (Z.abs (n - actualSize)) then None else Some (mk_data text detected actualSize)
          | None => Some (mk_data text detected actualSize)
          end
    | _, _ => None
    end.

(** ** Packs *)

Record sticker := mk_sticker {
  s_id : string;
  s_name : string;
  s_fileName : string;
  s_data : sticker_data;
  s_createdAt : Z
}.

Record pack := mk_pack { p_id : string; p_name : string; p_stickers : list sticker }.

Definition DEFAULT_PACK_ID : string := "default".
Definition default_pack : pack := mk_pack DEFAULT_PACK_ID "Meine Sticker" [].

(** [sticker.fileName || 'Sticker'] *)
Definition or_text (v : option json) (other : string) : json := if truthy v then default JNull v else JStr other.

Definition normalizeSticker (now : Z) (raw : json) : option sticker :=
  match raw with
  | JObj _ =>
      let field := prop (Some raw) in
      match validateStickerData (field "fileData") (field "fileType") (field "fileSize"), cleanId (field "id") with
      | None, _ | _, EmptyString => None
      | Some valid, id =>
          match cleanText (field "name") (or_text (field "fileName") "Sticker") 100,
                cleanText (field "fileName") (JStr "sticker.png") 180 with
          | Some name, Some fileName =>
              Some (mk_sticker id name fileName valid (match field "createdAt" with Some (JNum n) => n | _ => now end))
          | _, _ => None
          end
      end
  | _ => None
  end.

(** The loop over the stickers of a pack: the ids seen, the bytes so far, the stickers kept. *)
Fixpoint take_stickers (now : Z) (raws : list json) (seen : list string) (total : Z) : list sticker * (list string * Z) :=
  match raws with
  | [] => ([], (seen, total))
  | raw :: rest =>
      match normalizeSticker now raw with
      | None => take_stickers now rest seen total
      | Some s =>
          if includes seen (s_id s) then take_stickers now rest seen total
          else if Z.ltb MAX_STICKER_STORAGE_BYTES (total + fileSize (s_data s)) then ([], (seen, total))
          else
            let '(l, st) := take_stickers now rest (s_id s :: seen) (total + fileSize (s_data s)) in (s :: l, st)
      end
  end.

Definition raw_stickers (raw : json) : list json :=
  take MAX_STICKERS_PER_PACK (default [] (as_array (prop (Some raw) "stickers"))).

(** The id of a pack and the ids that are left: [generatePackId] takes the next. *)
Definition pack_id (raw : json) (seenPacks ids : list string) : string * list string :=
  let requested := cleanId (prop (Some raw) "id") in
  if negb (bool_decide (requested = "")) && negb (includes seenPacks requested) then (requested, ids)
  else match ids with id :: ids => ("pack-" +:+ id, ids) | [] => ("pack-", []) end.

Definition pack_name (raw : json) : string := default "" (cleanText (prop (Some raw) "name") (JStr "Sticker-Pack") 60).

Fixpoint take_packs (now : Z) (raws : list json) (ids seenPacks seen : list string) (total : Z) : list pack :=
  match raws with
  | [] => []
  | raw :: rest =>
      let '(id, ids) := pack_id raw seenPacks ids in
      let '(l, (seen, total)) := take_stickers now (raw_stickers raw) seen total in
      mk_pack id (pack_name raw) l :: take_packs now rest ids (id :: seenPacks) seen total
  end.

Definition has_default (packs : list pack) : bool := existsb (fun p => bool_decide (p_id p = DEFAULT_PACK_ID)) packs.

Definition sanitizeStickerPacks (now : Z) (ids : list string) (value : option json) : list pack :=
  let packs := take_packs now (take MAX_STICKER_PACKS (default [] (as_array value))) ids [] [] 0 in
  take MAX_STICKER_PACKS (if has_default packs then packs else default_pack :: packs).

(** ** The store *)

Definition sticker_json (s : sticker) : json :=
  JObj [("id", JStr (s_id s)); ("name", JStr (s_name s)); ("fileName", JStr (s_fileName s));
        ("fileData", JStr (fileData (s_data s))); ("fileType", JStr (fileType (s_data s)));
        ("fileSize", JNum (fileSize (s_data s))); ("createdAt", JNum (s_createdAt s))].

Definition pack_json (p : pack) : json :=
  JObj [("id", JStr (p_id p)); ("name", JStr (p_name p)); ("stickers", JArr (map sticker_json (p_stickers p)))].

Definition packs_json (packs : list pack) : json := JArr (map pack_json packs).

(** [stickers.packs], [stickers.favorites] and [stickers.recent]. *)
Record store := mk_store { st_packs : option json; st_favorites : option json; st_recent : option json }.

#[export] Instance rebuild_store : Rebuild store := fun s => mk_store (st_packs s) (st_favorites s) (st_recent s).

Definition loadStickerPacks (now : Z) (ids : list string) (s : store) : list pack := sanitizeStickerPacks now ids (st_packs s).

Definition saveStickerPacks (now : Z) (ids : list string) (packs : list pack) (s : store) : list pack * store :=
  let safe := sanitizeStickerPacks now ids (Some (packs_json packs)) in
  (safe, s <| st_packs := Some (packs_json safe) |>).

Fixpoint distinct (l seen : list string) : list string :=
  match l with
  | [] => []
  | x :: rest => if includes seen x then distinct rest seen else x :: distinct rest (x :: seen)
  end.

Definition normalizeIdList (value : option json) (max : nat) : list string :=
  take max (distinct (List.filter (fun id => negb (bool_decide (id = ""))) (map (fun v => cleanId (Some v)) (default [] (as_array value)))) []).

Definition ids_json (l : list string) : json := JArr (map JStr l).

Definition loadFavorites (s : store) : list string := normalizeIdList (st_favorites s) 500.
Definition saveFavorites (favorites : list string) (s : store) : list string * store :=
  let safe := normalizeIdList (Some (ids_json favorites)) 500 in (safe, s <| st_favorites := Some (ids_json safe) |>).

Definition loadRecent (s : store) : list string := normalizeIdList (st_recent s) MAX_RECENT.
Definition saveRecent (recent : list string) (s : store) : list string * store :=
  let safe := normalizeIdList (Some (ids_json recent)) MAX_RECENT in (safe, s <| st_recent := Some (ids_json safe) |>).

Definition other (id x : string) : bool := negb (bool_decide (x = id)).

Definition toggleFavorite (stickerId : option json) (s : store) : list string * store :=
  let id := cleanId stickerId in
  let favorites := loadFavorites s in
  if bool_decide (id = "") then (favorites, s)
  else saveFavorites (if includes favorites id then List.filter (other id) favorites else id :: favorites) s.

Definition addToRecent (stickerId : option json) (s : store) : store :=
  let id := cleanId stickerId in
  if bool_decide (id = "") then s else snd (saveRecent (id :: List.filter (other id) (loadRecent s)) s).

Definition computePacksSize (packs : list pack) : Z :=
  fold_left (fun total s => let actual := base64ByteLength (Some (JStr (fileData (s_data s)))) in total + Z.max 0 actual)
    (flat_map p_stickers packs) 0.

(** [packs.find(...) || packs[0]]: its index. *)
Fixpoint pack_index (packId : string) (packs : list pack) (i : nat) : nat :=
  match packs with
  | [] => O
  | p :: rest => if bool_decide (p_id p = packId) then i else pack_index packId rest (S i)
  end.

Definition put_sticker (s : sticker) (i : nat) (packs : list pack) : list pack :=
  alter (fun p => mk_pack (p_id p) (p_name p) (p_stickers p ++ [s])) i packs.

(** [addSticker]; [None] when it throws. *)
Definition addSticker (now : Z) (ids : list string) (stickerId packId : string) (fileName type data size name : option json) (s : store)
    : option (list pack * sticker * store) :=
  let packs := loadStickerPacks now ids s in
  let i := pack_index packId packs 0 in
  match packs !! i with
  | None => None
  | Some p =>
      if Nat.leb MAX_STICKERS_PER_PACK (length (p_stickers p)) then None
      else
        match validateStickerData data type size with
        | None => None
        | Some valid =>
            if Z.ltb MAX_STICKER_STORAGE_BYTES (computePacksSize packs + fileSize valid) then None
            else
              match cleanText name (or_text fileName "Sticker") 100, cleanText fileName (JStr "sticker.png") 180 with
              | Some n, Some f =>
                  let added := mk_sticker ("st-" +:+ stickerId) n f valid now in
                  let '(saved, s) := saveStickerPacks now ids (put_sticker added i packs) s in
                  Some (saved, added, s)
              | _, _ => None
              end
        end
  end.

(** The ids of favourites and recent stickers without those of [gone]. *)
Definition forget_ids (gone : list string) (s : store) : store :=
  let keep := List.filter (fun id => negb (includes gone id)) in
  let s := snd (saveFavorites (keep (loadFavorites s)) s) in
  snd (saveRecent (keep (loadRecent s)) s).

Definition deleteSticker (now : Z) (ids : list string) (stickerId : string) (s : store) : list pack * bool * store :=
  let packs := loadStickerPacks now ids s in
  let keep := List.filter (fun x => negb (bool_decide (s_id x = stickerId))) in
  let removed := existsb (fun p => Nat.ltb (length (keep (p_stickers p))) (length (p_stickers p))) packs in
  let '(saved, s) := saveStickerPacks now ids (map (fun p => mk_pack (p_id p) (p_name p) (keep (p_stickers p))) packs) s in
  (saved, removed, forget_ids [stickerId] s).

(** [None] when it throws. *)
Definition createPack (now : Z) (ids : list string) (packId : string) (name : option json) (s : store) : option (list pack * pack * store) :=
  let packs := loadStickerPacks now ids s in
  if Nat.leb MAX_STICKER_PACKS (length packs) then None
  else
    let p := mk_pack ("pack-" +:+ packId) (default "" (cleanText name (JStr "Neues Pack") 60)) [] in
    let '(saved, s) := saveStickerPacks now ids (packs ++ [p]) s in
    Some (saved, p, s).

(** [None] is [null]. *)
Definition deletePack (now : Z) (ids : list string) (packId : string) (s : store) : option (list pack) * store :=
  if bool_decide (packId = DEFAULT_PACK_ID) then (None, s)
  else
    let packs := loadStickerPacks now ids s in
    match List.find (fun p => bool_decide (p_id p = packId)) packs with
    | None => (None, s)
    | Some p =>
        let '(next, s) := saveStickerPacks now ids (List.filter (fun q => negb (bool_decide (p_id q = packId))) packs) s in
        (Some next, forget_ids (map s_id (p_stickers p)) s)
    end.

Definition findSticker (packs : list pack) (stickerId : string) : option (pack * sticker) :=
  match List.find (fun x : pack * sticker => bool_decide (s_id x.2 = stickerId)) (flat_map (fun p => map (pair p) (p_stickers p)) packs) with
  | Some x => Some x
  | None => None
  end.
