(* ===== verification/StickersFacts.v ===== *)
(** * Stickers: theorems on the stored packs

    [sound] packs are within all limits, with distinct ids and checked data.  What the store
    reads and writes is sound, and reading again what was written loses nothing. *)

From stdpp Require Import pretty.
From S2P Require Import Prelude Bytes Json Stickers.

(** ** Texts and data *)

Lemma trim_ends (c : ascii) s : is_js_space c = true -> trim_start (String c s) = trim_start s.
Proof. intros H. cbn. by rewrite H. Qed.

(** An id that passes has no space at its ends. *)
Lemma id_char_no_space c : id_char c = true -> is_js_space c = false.
Proof. by destruct c as [[] [] [] [] [] [] [] []]. Qed.

Lemma clean_id_again id : is_clean_id id = true -> cleanId (Some (JStr id)) = id.
Proof.
  intros H. pose proof H as Hid. unfold is_clean_id in H. bool_cases.
  assert (Hs : string_forallb (fun c => negb (is_js_space c)) id = true).
  { eapply string_forallb_impl; [|eassumption]. intros c Hc. by rewrite id_char_no_space. }
  unfold cleanId, string_or_empty. cbn [truthy to_string].
  rewrite bool_decide_eq_false_2 by done. cbn [negb]. unfold trim. by rewrite trim_start_id, trim_end_id, Hid.
Qed.

Lemma cleanId_clean v : cleanId v <> "" -> is_clean_id (cleanId v) = true.
Proof. unfold cleanId. by destruct (is_clean_id (trim (string_or_empty v))) eqn:E. Qed.

Lemma cleanText_some v s max : exists t, cleanText v (JStr s) max = Some t.
Proof. unfold cleanText. case_bool_decide; by eexists. Qed.

Lemma or_text_json (s d : string) : exists t, or_text (Some (JStr s)) d = JStr t.
Proof. unfold or_text. destruct (truthy (Some (JStr s))); by eexists. Qed.

(** Data as [validateStickerData] returns it. *)
Definition valid_data (d : sticker_data) : Prop :=
  validateStickerData (Some (JStr (fileData d))) (Some (JStr (fileType d))) (Some (JNum (fileSize d))) = Some d.

Lemma detect_allowed b t : detect b = Some t -> t ∈ ALLOWED_MIMES.
Proof.
  unfold detect. destruct (List.find _ _) as [[m f]|] eqn:E; [|done]. intros [= <-].
  apply find_some in E as [Hin _]. apply list_elem_of_In, in_map_iff. by exists (m, f).
Qed.

Lemma declared_allowed t : t ∈ ALLOWED_MIMES -> trim (before_semicolon (lower (string_or_empty (Some (JStr t))))) = t.
Proof. unfold ALLOWED_MIMES. cbn [map fst MIME_BY_SIGNATURE]. rewrite !elem_of_cons. intros [->|[->|[->|[->|[]%not_elem_of_nil]]]]; reflexivity. Qed.

Lemma validated_again data type size d : validateStickerData data type size = Some d -> valid_data d /\ 1 <= fileSize d <= MAX_STICKER_SIZE_BYTES.
Proof.
  unfold validateStickerData, valid_data.
  destruct (Z.ltb (base64ByteLength data) 1 || Z.ltb MAX_STICKER_SIZE_BYTES (base64ByteLength data)) eqn:Es; [done|].
  destruct data as [[| | |text| |]|]; try done. destruct (detect _) as [t|] eqn:Ed; [|done].
  destruct (negb (bool_decide _) && _) eqn:Et; [done|].
  intros H. assert (d = mk_data text t (base64ByteLength (Some (JStr text)))) as ->.
  { repeat case_match; try done; congruence. }
  clear H. apply orb_false_iff in Es as [E1 E2]. pose proof E1 as E1'. pose proof E2 as E2'.
  apply Z.ltb_ge in E1', E2'. unfold validateStickerData. cbn [fileData fileType fileSize to_number].
  rewrite E1, E2. cbn [orb]. rewrite Ed.
  pose proof (declared_allowed t (detect_allowed _ _ Ed)) as ->. unfold includes.
  rewrite (bool_decide_eq_true_2 (t ∈ ALLOWED_MIMES)) by (by eapply detect_allowed). rewrite (bool_decide_eq_true_2 (t = t)) by done.
  cbn [negb andb]. rewrite andb_false_r, Z.sub_diag. cbn [Z.abs Z.ltb Z.compare andb]. rewrite andb_false_r. done.
Qed.

(** ** Stickers of a pack *)

Fixpoint size_of (l : list sticker) : Z := match l with [] => 0 | s :: rest => fileSize (s_data s) + size_of rest end.

Definition sticker_ok (s : sticker) : Prop :=
  is_clean_id (s_id s) = true /\ valid_data (s_data s) /\ 1 <= fileSize (s_data s) <= MAX_STICKER_SIZE_BYTES.

(** What a reload keeps of a sticker: all but its names, which lose a space at their end. *)
Definition core (s : sticker) : string * sticker_data * Z := (s_id s, s_data s, s_createdAt s).

Lemma normalize_ok now raw s : normalizeSticker now raw = Some s -> sticker_ok s.
Proof.
  unfold normalizeSticker. destruct raw as [| | | | |f]; try done. cbv zeta.
  destruct (validateStickerData _ _ _) as [d|] eqn:Ev; [|done].
  destruct (cleanId (prop (Some (JObj f)) "id")) as [|c id] eqn:Eid; [done|].
  destruct (cleanText _ _ 100); [|done]. destruct (cleanText _ _ 180); [|done]. intros [= <-].
  apply validated_again in Ev as [Hv Hs]. split; [|done]. cbn. rewrite <- Eid. apply cleanId_clean. by rewrite Eid.
Qed.

Lemma sticker_fields s :
  prop (Some (sticker_json s)) "id" = Some (JStr (s_id s)) /\ prop (Some (sticker_json s)) "name" = Some (JStr (s_name s))
  /\ prop (Some (sticker_json s)) "fileName" = Some (JStr (s_fileName s))
  /\ prop (Some (sticker_json s)) "fileData" = Some (JStr (fileData (s_data s)))
  /\ prop (Some (sticker_json s)) "fileType" = Some (JStr (fileType (s_data s)))
  /\ prop (Some (sticker_json s)) "fileSize" = Some (JNum (fileSize (s_data s)))
  /\ prop (Some (sticker_json s)) "createdAt" = Some (JNum (s_createdAt s)).
Proof. do 6 (split; [reflexivity|]). reflexivity. Qed.

Lemma normalize_again now s : sticker_ok s -> exists s', normalizeSticker now (sticker_json s) = Some s' /\ core s' = core s.
Proof.
  intros (Hid & Hv & _). destruct (sticker_fields s) as (F1 & F2 & F3 & F4 & F5 & F6 & F7).
  unfold normalizeSticker. unfold sticker_json at 1. cbv zeta. rewrite F1, F2, F3, F4, F5, F6, F7.
  unfold valid_data in Hv. rewrite Hv, (clean_id_again _ Hid).
  destruct (s_id s) as [|c id] eqn:E; [done|]. destruct (or_text_json (s_fileName s) "Sticker") as [t ->].
  destruct (cleanText_some (Some (JStr (s_name s))) t 100) as [n ->].
  destruct (cleanText_some (Some (JStr (s_fileName s))) "sticker.png" 180) as [f ->].
  eexists. split; [done|]. unfold core. cbn. by rewrite E.
Qed.

Lemma size_app l1 l2 : size_of (l1 ++ l2) = size_of l1 + size_of l2.
Proof. induction l1 as [|s l1 IH]; cbn; [done|]. rewrite IH. lia. Qed.

Lemma take_stickers_ok now raws : forall seen total l seen' total', take_stickers now raws seen total = (l, (seen', total')) ->
  total <= MAX_STICKER_STORAGE_BYTES ->
  Forall sticker_ok l /\ NoDup (map s_id l) /\ (forall x, x ∈ map s_id l -> x ∉ seen)
  /\ (forall x, x ∈ seen' <-> x ∈ map s_id l \/ x ∈ seen)
  /\ total' = total + size_of l /\ total' <= MAX_STICKER_STORAGE_BYTES /\ (length l <= length raws)%nat.
Proof.
  induction raws as [|raw raws IH]; intros seen total l seen' total' E Ht.
  { injection E as <- <- <-. cbn. split_and!; try done; [constructor|set_solver|set_solver|lia]. }
  cbn [take_stickers] in E. destruct (normalizeSticker now raw) as [s|] eqn:En.
  2: { apply IH in E; [|done]. cbn [length]. destruct E as (? & ? & ? & ? & ? & ? & ?). split_and!; try done. lia. }
  destruct (includes seen (s_id s)) eqn:Es.
  { apply IH in E; [|done]. cbn [length]. destruct E as (? & ? & ? & ? & ? & ? & ?). split_and!; try done. lia. }
  destruct (Z.ltb_spec MAX_STICKER_STORAGE_BYTES (total + fileSize (s_data s))) as [Hb|Hb].
  { injection E as <- <- <-. cbn. split_and!; try done; [constructor|set_solver|set_solver|lia|lia]. }
  destruct (take_stickers now raws (s_id s :: seen) (total + fileSize (s_data s))) as [l0 st] eqn:E0.
  injection E as <- ->. apply IH in E0; [|done]. destruct E0 as (H1 & H2 & H3 & H4 & H5 & H6 & H7).
  apply bool_decide_eq_false_1 in Es. cbn [map size_of length]. split_and!.
  - constructor; [by eapply normalize_ok|done].
  - constructor; [|done]. intros Hin. apply (H3 _ Hin). left.
  - intros x [->|Hx]%elem_of_cons; [done|]. intros Hin. apply (H3 x Hx). by right.
  - intros x. rewrite H4, !elem_of_cons. tauto.
  - lia.
  - done.
  - lia.
Qed.

Lemma take_stickers_again now l : forall seen total, Forall sticker_ok l -> NoDup (map s_id l) -> (forall x, x ∈ map s_id l -> x ∉ seen) ->
  total + size_of l <= MAX_STICKER_STORAGE_BYTES ->
  exists l' seen', take_stickers now (map sticker_json l) seen total = (l', (seen', total + size_of l))
    /\ map core l' = map core l /\ (forall x, x ∈ seen' <-> x ∈ map s_id l \/ x ∈ seen).
Proof.
  induction l as [|s l IH]; intros seen total Hok Hn Hd Hb.
  { exists [], seen. cbn. rewrite Z.add_0_r. split_and!; set_solver. }
  apply Forall_cons in Hok as [Hs Hok]. cbn [map] in *. apply NoDup_cons in Hn as [Hni Hn]. cbn [take_stickers].
  destruct (normalize_again now s Hs) as (s' & -> & Ec). unfold core in Ec. injection Ec as Eid Ed Et.
  unfold includes. rewrite Eid, Ed, bool_decide_eq_false_2 by (apply Hd; left).
  change (size_of (s :: l)) with (fileSize (s_data s) + size_of l) in *.
  assert (Hpos : 0 <= size_of l).
  { clear -Hok. induction Hok as [|x l (_ & _ & Hx) _ IH]; cbn; [done|]. lia. }
  destruct (Z.ltb_spec MAX_STICKER_STORAGE_BYTES (total + fileSize (s_data s))) as [?|?]; [lia|].
  destruct (IH (s_id s :: seen) (total + fileSize (s_data s))) as (l' & seen' & -> & Hc & Hm); [done|done| |lia|].
  { intros x Hx [->|Hin]%elem_of_cons; [done|]. apply (Hd x); [by right|done]. }
  exists (s' :: l'), seen'. split; [by rewrite Z.add_assoc|]. split; [cbn; rewrite Hc; unfold core; by rewrite Eid, Ed, Et|].
  intros x. rewrite Hm, !elem_of_cons. tauto.
Qed.

(** ** Packs *)

Definition all_stickers (packs : list pack) : list sticker := flat_map p_stickers packs.

(** Packs within the limits, with ids of their own and checked data. *)
Definition sound (packs : list pack) : Prop :=
  (length packs <= MAX_STICKER_PACKS)%nat /\ has_default packs = true
  /\ NoDup (map p_id packs) /\ Forall (fun p => is_clean_id (p_id p) = true) packs
  /\ Forall (fun p => (length (p_stickers p) <= MAX_STICKERS_PER_PACK)%nat) packs
  /\ Forall sticker_ok (all_stickers packs) /\ NoDup (map s_id (all_stickers packs))
  /\ size_of (all_stickers packs) <= MAX_STICKER_STORAGE_BYTES.

(** What a reload keeps of a pack. *)
Definition shape (p : pack) : string * list (string * sticker_data * Z) := (p_id p, map core (p_stickers p)).

Lemma pack_fields p : prop (Some (pack_json p)) "id" = Some (JStr (p_id p))
  /\ prop (Some (pack_json p)) "stickers" = Some (JArr (map sticker_json (p_stickers p))).
Proof. split; reflexivity. Qed.

Lemma take_packs_again now packs : forall ids seenPacks seen total,
  NoDup (map p_id packs) -> (forall x, x ∈ map p_id packs -> x ∉ seenPacks) -> Forall (fun p => is_clean_id (p_id p) = true) packs ->
  Forall (fun p => (length (p_stickers p) <= MAX_STICKERS_PER_PACK)%nat) packs ->
  Forall sticker_ok (all_stickers packs) -> NoDup (map s_id (all_stickers packs)) -> (forall x, x ∈ map s_id (all_stickers packs) -> x ∉ seen) ->
  total + size_of (all_stickers packs) <= MAX_STICKER_STORAGE_BYTES ->
  map shape (take_packs now (map pack_json packs) ids seenPacks seen total) = map shape packs.
Proof.
  induction packs as [|p packs IH]; intros ids seenPacks seen total Hn Hs Hc Hl Hok Hi Hd Hb; [done|].
  cbn [map] in *. apply NoDup_cons in Hn as [Hni Hn]. apply Forall_cons in Hc as [Hcp Hc]. apply Forall_cons in Hl as [Hlp Hl].
  unfold all_stickers in Hok, Hi, Hd, Hb. cbn [flat_map] in Hok, Hi, Hd, Hb. fold (all_stickers packs) in Hok, Hi, Hd, Hb.
  apply Forall_app in Hok as [Hokp Hok]. rewrite map_app in Hi, Hd. apply NoDup_app in Hi as (Hip & Hx & Hi). rewrite size_app in Hb.
  assert (Hpos : 0 <= size_of (all_stickers packs)).
  { clear -Hok. induction Hok as [|x l (_ & _ & Hx) _ IH]; cbn; [done|]. lia. }
  cbn [take_packs]. destruct (pack_fields p) as [F1 F2].
  unfold pack_id. rewrite F1, (clean_id_again _ Hcp).
  assert (Hne : p_id p <> "") by (intros E; by rewrite E in Hcp).
  unfold includes at 1. rewrite (bool_decide_eq_false_2 (p_id p = "")) by done.
  rewrite (bool_decide_eq_false_2 (p_id p ∈ seenPacks)) by (apply Hs; left). cbn [negb andb].
  unfold raw_stickers. rewrite F2.
  change (default [] (as_array (Some (JArr (map sticker_json (p_stickers p)))))) with (map sticker_json (p_stickers p)).
  rewrite take_ge by (rewrite length_map; done).
  destruct (take_stickers_again now (p_stickers p) seen total) as (l' & seen' & -> & Hcore & Hm); [done|done| |lia|].
  { intros x Hin. apply Hd. rewrite elem_of_app. by left. }
  cbn [map]. unfold shape at 1 3. cbn [p_id p_stickers]. rewrite Hcore. f_equal. apply IH; try done; [| |lia].
  - intros x Hin [->|Hin']%elem_of_cons; [done|]. apply (Hs x); [by right|done].
  - intros x Hin [Hin'|Hin']%Hm; [by apply (Hx x)|]. apply (Hd x); [|done]. rewrite elem_of_app. by right.
Qed.

Lemma has_default_shape packs packs' : map shape packs = map shape packs' -> has_default packs = has_default packs'.
Proof.
  revert packs'. induction packs as [|p packs IH]; intros [|q packs']; try done. intros [= Ep _ E].
  change (bool_decide (p_id p = DEFAULT_PACK_ID) || has_default packs = bool_decide (p_id q = DEFAULT_PACK_ID) || has_default packs').
  by rewrite Ep, (IH _ E).
Qed.

Lemma packs_again now ids packs : sound packs -> map shape (sanitizeStickerPacks now ids (Some (packs_json packs))) = map shape packs.
Proof.
  intros (Hl & Hdef & H1 & H2 & H3 & H4 & H5 & H6). unfold sanitizeStickerPacks, packs_json.
  change (default [] (as_array (Some (JArr (map pack_json packs))))) with (map pack_json packs).
  rewrite (take_ge (map pack_json packs)) by (by rewrite length_map).
  assert (E : map shape (take_packs now (map pack_json packs) ids [] [] 0) = map shape packs)
    by (apply take_packs_again; try done; intros x _ Hin; by apply not_elem_of_nil in Hin).
  rewrite (has_default_shape _ _ E), Hdef.
  rewrite take_ge; [exact E|]. rewrite <- (length_map shape), E, length_map. done.
Qed.

(** ** What is read is sound *)

(** The limits that hold of every part of the packs. *)
Definition limits (packs : list pack) : Prop :=
  NoDup (map p_id packs) /\ Forall (fun p => is_clean_id (p_id p) = true) packs
  /\ Forall (fun p => (length (p_stickers p) <= MAX_STICKERS_PER_PACK)%nat) packs
  /\ Forall sticker_ok (all_stickers packs) /\ NoDup (map s_id (all_stickers packs))
  /\ size_of (all_stickers packs) <= MAX_STICKER_STORAGE_BYTES.

Lemma sizes_nonneg l : Forall sticker_ok l -> 0 <= size_of l.
Proof. induction 1 as [|x l (_ & _ & Hx) _ IH]; cbn; [done|]. lia. Qed.

Lemma all_app l1 l2 : all_stickers (l1 ++ l2) = all_stickers l1 ++ all_stickers l2.
Proof. apply flat_map_app. Qed.

Lemma limits_prefix l1 l2 : limits (l1 ++ l2) -> limits l1.
Proof.
  unfold limits. rewrite all_app, !map_app, size_app, !Forall_app, !NoDup_app. intros ((? & _) & (? & _) & (? & _) & (? & H2) & (? & _) & Hs).
  apply sizes_nonneg in H2. split_and!; try done. lia.
Qed.

Lemma limits_default packs : limits packs -> has_default packs = false -> limits (default_pack :: packs).
Proof.
  intros (H1 & H2 & H3 & H4 & H5 & H6) Hd. split_and!; try done; cbn [map].
  - constructor; [|done]. intros (p & Ep & Hp)%list_elem_of_fmap. apply not_true_iff_false in Hd. apply Hd.
    apply existsb_exists. exists p. split; [by apply list_elem_of_In|]. by apply bool_decide_eq_true_2.
  - by constructor.
  - constructor; [unfold MAX_STICKERS_PER_PACK; cbn; lia|done].
Qed.

(** The ids that the code draws for packs are not in use. *)
Definition good_ids (ids : list string) (raws : list json) : Prop :=
  Forall (fun i => is_clean_id ("pack-" +:+ i) = true) ids /\ NoDup ids /\ (length raws <= length ids)%nat
  /\ forall i raw, i ∈ ids -> raw ∈ raws -> cleanId (prop (Some raw) "id") <> "pack-" +:+ i.

Lemma good_ids_tail ids raw raws : good_ids ids (raw :: raws) -> good_ids ids raws.
Proof. intros (H1 & H2 & H3 & H4). split_and!; try done; [cbn in H3; lia|]. intros i r Hi Hr. apply H4; [done|by right]. Qed.

Lemma good_ids_next i ids raw raws : good_ids (i :: ids) (raw :: raws) -> good_ids ids raws.
Proof.
  intros (H1 & H2 & H3 & H4). apply Forall_cons in H1 as [_ H1]. apply NoDup_cons in H2 as [_ H2].
  split_and!; try done; [cbn in H3; lia|]. intros j r Hj Hr. apply H4; by right.
Qed.

(** The id of a pack is clean and new, and the ids that are left are good. *)
Lemma pack_id_ok raw raws ids seenPacks : good_ids ids (raw :: raws) -> (forall i, i ∈ ids -> "pack-" +:+ i ∉ seenPacks) ->
  let '(id, ids') := pack_id raw seenPacks ids in
  is_clean_id id = true /\ id ∉ seenPacks /\ good_ids ids' raws /\ forall i, i ∈ ids' -> "pack-" +:+ i ∉ id :: seenPacks.
Proof.
  intros Hg Hs. unfold pack_id. destruct (bool_decide (cleanId (prop (Some raw) "id") = "")) eqn:E1; cbn [negb andb].
  2: destruct (includes seenPacks (cleanId (prop (Some raw) "id"))) eqn:E2; cbn [negb andb].
  1, 2: destruct ids as [|i ids]; [destruct Hg as (_ & _ & Hl & _); cbn in Hl; lia|];
    pose proof Hg as (Hc & Hn & _ & _); apply Forall_cons in Hc as [Hc _]; apply NoDup_cons in Hn as [Hn _];
    (split_and!; [done|apply Hs; left|by eapply good_ids_next|]);
    intros j Hj [E|Hin]%elem_of_cons; [apply (inj (String.append "pack-")) in E; by subst|]; apply (Hs j); [by right|done].
  apply bool_decide_eq_false_1 in E1, E2. split_and!; [by apply cleanId_clean|done|by eapply good_ids_tail|].
  intros j Hj [E|Hin]%elem_of_cons; [|by apply (Hs j)]. destruct Hg as (_ & _ & _ & H4). apply (H4 j raw); [done|left|done].
Qed.

Lemma take_packs_ok now raws : forall ids seenPacks seen total, good_ids ids raws ->
  (forall i, i ∈ ids -> "pack-" +:+ i ∉ seenPacks) -> total <= MAX_STICKER_STORAGE_BYTES ->
  let l := take_packs now raws ids seenPacks seen total in
  length l = length raws /\ NoDup (map p_id l) /\ (forall x, x ∈ map p_id l -> x ∉ seenPacks)
  /\ Forall (fun p => is_clean_id (p_id p) = true) l
  /\ Forall (fun p => (length (p_stickers p) <= MAX_STICKERS_PER_PACK)%nat) l
  /\ Forall sticker_ok (all_stickers l) /\ NoDup (map s_id (all_stickers l)) /\ (forall x, x ∈ map s_id (all_stickers l) -> x ∉ seen)
  /\ total + size_of (all_stickers l) <= MAX_STICKER_STORAGE_BYTES.
Proof.
  induction raws as [|raw raws IH]; intros ids seenPacks seen total Hg Hs Ht.
  { cbn. split_and!; try constructor; try lia; intros x Hx; by apply not_elem_of_nil in Hx. }
  cbn [take_packs]. pose proof (pack_id_ok raw raws ids seenPacks Hg Hs) as Hp.
  destruct (pack_id raw seenPacks ids) as [id ids']. destruct Hp as (P1 & P2 & P3 & P4).
  destruct (take_stickers now (raw_stickers raw) seen total) as [l [seen' total']] eqn:E.
  apply take_stickers_ok in E as (S1 & S2 & S3 & S4 & S5 & S6 & S7); [|done].
  destruct (IH ids' (id :: seenPacks) seen' total' P3 P4 S6) as (I1 & I2 & I3 & I4 & I5 & I6 & I7 & I8 & I9).
  cbn zeta. set (r := take_packs now raws ids' (id :: seenPacks) seen' total') in *. clearbody r.
  change (all_stickers (mk_pack id (pack_name raw) l :: r)) with (l ++ all_stickers r).
  cbn [length map p_id]. rewrite map_app, size_app. split_and!.
  - by rewrite I1.
  - constructor; [|done]. intros Hin. apply (I3 _ Hin). left.
  - intros x [->|Hx]%elem_of_cons; [done|]. intros Hin. apply (I3 x Hx). by right.
  - by constructor.
  - constructor; [|done]. cbn. unfold raw_stickers in S7. rewrite length_take in S7. lia.
  - by apply Forall_app.
  - apply NoDup_app. split_and!; [done| |done]. intros x Hx Hr. apply (I8 x Hr). apply S4. by left.
  - intros x [Hx|Hx]%elem_of_app; [by apply S3|]. intros Hin. apply (I8 x Hx). apply S4. by right.
  - lia.
Qed.

(** What the store reads is sound, whatever is stored. *)
Lemma sanitize_sound now ids value : good_ids ids (take MAX_STICKER_PACKS (default [] (as_array value))) ->
  sound (sanitizeStickerPacks now ids value).
Proof.
  intros Hg. unfold sanitizeStickerPacks. set (raws := take MAX_STICKER_PACKS (default [] (as_array value))) in *.
  destruct (take_packs_ok now raws ids [] [] 0 Hg) as (H1 & H2 & _ & H4 & H5 & H6 & H7 & _ & H9);
    [intros i _ Hin; by apply not_elem_of_nil in Hin|done|].
  set (packs := take_packs now raws ids [] [] 0) in *. clearbody packs.
  assert (Hl : limits packs) by (split_and!; done).
  assert (Hr : (length packs <= MAX_STICKER_PACKS)%nat) by (rewrite H1; subst raws; rewrite length_take; lia).
  assert (Hall : forall l, limits l -> has_default (take MAX_STICKER_PACKS l) = true -> sound (take MAX_STICKER_PACKS l)).
  { intros l Hlim Hd. split; [rewrite length_take; lia|]. split; [done|].
    apply (limits_prefix _ (drop MAX_STICKER_PACKS l)). by rewrite take_drop. }
  destruct (has_default packs) eqn:Hd; apply Hall.
  - done.
  - by rewrite take_ge.
  - by apply limits_default.
  - done.
Qed.

(** Soundness is a matter of the shape. *)
Lemma all_core packs : map core (all_stickers packs) = concat (map snd (map shape packs)).
Proof. induction packs as [|p packs IH]; [done|]. cbn. rewrite map_app. by f_equal. Qed.

Lemma size_core l l' : map core l = map core l' -> size_of l = size_of l'.
Proof.
  revert l'. induction l as [|x l IH]; intros [|y l']; try done. intros [= _ Ed _ E].
  cbn. by rewrite Ed, (IH _ E).
Qed.

Lemma ok_core l l' : map core l = map core l' -> Forall sticker_ok l -> Forall sticker_ok l'.
Proof.
  set (P := fun c : string * sticker_data * Z => is_clean_id c.1.1 = true /\ valid_data c.1.2 /\ 1 <= fileSize c.1.2 <= MAX_STICKER_SIZE_BYTES).
  intros E H. apply (proj1 (List.Forall_map core P l')). rewrite <- E. by apply (proj2 (List.Forall_map core P l)).
Qed.

Lemma ids_core l l' : map core l = map core l' -> map s_id l = map s_id l'.
Proof. intros E. apply (f_equal (map (fun c => c.1.1))) in E. rewrite !map_map in E. exact E. Qed.

Lemma sound_shape packs packs' : map shape packs = map shape packs' -> sound packs -> sound packs'.
Proof.
  intros E (H1 & H2 & H3 & H4 & H5 & H6 & H7 & H8).
  assert (Ei : map p_id packs = map p_id packs').
  { apply (f_equal (map fst)) in E. rewrite !map_map in E. exact E. }
  assert (El : map (fun p => length (p_stickers p)) packs = map (fun p => length (p_stickers p)) packs').
  { apply (f_equal (map (fun c => length c.2))) in E. rewrite !map_map in E. cbn [snd shape] in E.
    erewrite (map_ext (fun x => length (map core (p_stickers x)))) in E by (intros x; apply length_map).
    erewrite (map_ext (fun x => length (map core (p_stickers x)))) in E by (intros x; apply length_map). exact E. }
  assert (Ec : map core (all_stickers packs) = map core (all_stickers packs')) by by rewrite !all_core, E.
  split_and!.
  - by rewrite <- (length_map p_id), <- Ei, length_map.
  - by rewrite <- (has_default_shape _ _ E).
  - by rewrite <- Ei.
  - apply (proj1 (List.Forall_map p_id (fun i => is_clean_id i = true) packs')). rewrite <- Ei. by apply List.Forall_map.
  - apply (proj1 (List.Forall_map (fun p => length (p_stickers p)) (fun n => (n <= MAX_STICKERS_PER_PACK)%nat) packs')).
    rewrite <- El. by apply List.Forall_map.
  - by eapply ok_core.
  - by rewrite <- (ids_core _ _ Ec).
  - by rewrite <- (size_core _ _ Ec).
Qed.

(** ** What is written is read again *)

(** What [saveStickerPacks] writes, the next start reads, but for spaces at the end of names. *)
Theorem packs_survive_reload now now' ids ids' packs s : sound packs ->
  map shape (loadStickerPacks now' ids' (snd (saveStickerPacks now ids packs s))) = map shape packs.
Proof.
  intros Hs. unfold loadStickerPacks, saveStickerPacks. cbn [snd st_packs].
  assert (E : map shape (sanitizeStickerPacks now ids (Some (packs_json packs))) = map shape packs) by by apply packs_again.
  rewrite <- E. apply packs_again. by apply (sound_shape packs).
Qed.

Lemma valid_size d : valid_data d -> base64ByteLength (Some (JStr (fileData d))) = fileSize d.
Proof.
  unfold valid_data, validateStickerData. destruct (_ || _); [done|]. destruct (detect _); [|done].
  repeat case_match; try done; intros [= E]; by rewrite <- E at 2.
Qed.

Lemma computed_size packs : Forall sticker_ok (all_stickers packs) -> computePacksSize packs = size_of (all_stickers packs).
Proof.
  intros H. unfold computePacksSize. fold (all_stickers packs).
  assert (Hg : forall n, fold_left (fun total s => let actual := base64ByteLength (Some (JStr (fileData (s_data s)))) in total + Z.max 0 actual)
                 (all_stickers packs) n = n + size_of (all_stickers packs)).
  { induction H as [|x l (_ & Hv & Hx) _ IH]; intros n; cbn [fold_left size_of]; [lia|]. rewrite IH. cbn zeta.
    rewrite (valid_size _ Hv). lia. }
  by rewrite Hg.
Qed.

(** A sticker more in one pack, within the limits. *)
Lemma sound_add l p r x : sound (l ++ p :: r) -> sticker_ok x -> (forall y, y ∈ all_stickers (l ++ p :: r) -> s_id y <> s_id x) ->
  (length (p_stickers p) < MAX_STICKERS_PER_PACK)%nat -> size_of (all_stickers (l ++ p :: r)) + fileSize (s_data x) <= MAX_STICKER_STORAGE_BYTES ->
  sound (l ++ mk_pack (p_id p) (p_name p) (p_stickers p ++ [x]) :: r).
Proof.
  intros (H1 & H2 & H3 & H4 & H5 & H6 & H7 & H8) Hx Hnew Hlen Hsize.
  set (q := mk_pack (p_id p) (p_name p) (p_stickers p ++ [x])).
  assert (Hperm : all_stickers (l ++ q :: r) ≡ₚ x :: all_stickers (l ++ p :: r)).
  { rewrite !all_app. change (all_stickers (q :: r)) with ((p_stickers p ++ [x]) ++ all_stickers r).
    change (all_stickers (p :: r)) with (p_stickers p ++ all_stickers r). rewrite <- app_assoc. cbn [app].
    rewrite !app_assoc. symmetry. apply Permutation_middle. }
  assert (Hsz : size_of (all_stickers (l ++ q :: r)) = size_of (all_stickers (l ++ p :: r)) + fileSize (s_data x)).
  { rewrite !all_app, !size_app. change (all_stickers (q :: r)) with ((p_stickers p ++ [x]) ++ all_stickers r).
    change (all_stickers (p :: r)) with (p_stickers p ++ all_stickers r). rewrite !size_app. cbn [size_of]. lia. }
  split_and!.
  - rewrite length_app in *. exact H1.
  - unfold has_default in *. rewrite existsb_app in *. exact H2.
  - rewrite map_app in *. exact H3.
  - rewrite Forall_app, Forall_cons in *. exact H4.
  - rewrite Forall_app, Forall_cons in *. destruct H5 as (? & ? & ?). split; [done|split; [|done]]. cbn. rewrite length_app. cbn. lia.
  - rewrite Hperm. by constructor.
  - rewrite Hperm. cbn [map]. constructor; [|done]. intros (y & Ey & Hy)%list_elem_of_fmap. by apply (Hnew y).
  - lia.
Qed.

(** What [pack_index] finds. *)
Lemma pack_index_spec packId packs : forall i,
  (exists l p r, packs = l ++ p :: r /\ p_id p = packId /\ pack_index packId packs i = (i + length l)%nat)
  \/ (packId ∉ map p_id packs /\ pack_index packId packs i = 0%nat).
Proof.
  induction packs as [|p packs IH]; intros i; cbn [pack_index]; [right; split; [by apply not_elem_of_nil|done]|].
  case_bool_decide as E; [left; exists [], p, packs; split; [done|split; [done|cbn; lia]]|].
  destruct (IH (S i)) as [(l & q & r & -> & ? & ->)|[H ->]].
  - left. exists (p :: l), q, r. split; [done|split; [done|cbn; lia]].
  - right. split; [|done]. cbn. by intros [->|Hin]%elem_of_cons.
Qed.

(** A sticker that is added is the last of the pack that was asked for, or of the first if there is
    none; the next start finds it there with all the others, and everything is within the limits. *)
Theorem added_sticker_kept now ids stickerId packId fileName type data size name s saved added s' now' ids' :
  good_ids ids (take MAX_STICKER_PACKS (default [] (as_array (st_packs s)))) ->
  is_clean_id ("st-" +:+ stickerId) = true ->
  (forall x, x ∈ all_stickers (loadStickerPacks now ids s) -> s_id x <> "st-" +:+ stickerId) ->
  addSticker now ids stickerId packId fileName type data size name s = Some (saved, added, s') ->
  exists l p r, loadStickerPacks now ids s = l ++ p :: r
    /\ (p_id p = packId \/ l = [] /\ packId ∉ map p_id (loadStickerPacks now ids s))
    /\ map shape (loadStickerPacks now' ids' s') = map shape (l ++ mk_pack (p_id p) (p_name p) (p_stickers p ++ [added]) :: r)
    /\ sound (loadStickerPacks now' ids' s').
Proof.
  intros Hg Hid Hnew Ha. pose proof (sanitize_sound now ids _ Hg) as Hs. fold (loadStickerPacks now ids s) in Hs.
  unfold addSticker in Ha. set (packs := loadStickerPacks now ids s) in *. clearbody packs.
  destruct (packs !! pack_index packId packs 0) as [p|] eqn:Ep; [|done].
  destruct (Nat.leb_spec MAX_STICKERS_PER_PACK (length (p_stickers p))) as [|Hlen]; [done|].
  destruct (validateStickerData data type size) as [d|] eqn:Ev; [|done]. apply validated_again in Ev as [Hv Hd].
  destruct (Z.ltb_spec MAX_STICKER_STORAGE_BYTES (computePacksSize packs + fileSize d)) as [|Hb]; [done|].
  destruct (cleanText name _ 100) as [n|]; [|done]. destruct (cleanText fileName _ 180) as [f|]; [|done].
  set (x := mk_sticker ("st-" +:+ stickerId) n f d now) in *.
  assert (Hp : exists l r, packs = l ++ p :: r /\ length l = pack_index packId packs 0
                 /\ (p_id p = packId \/ l = [] /\ packId ∉ map p_id packs)).
  { destruct (pack_index_spec packId packs 0) as [(l & q & r & E & Eq & Ei)|[Hn Ei]]; rewrite Ei in Ep |- *.
    - rewrite E, lookup_app_r, Nat.sub_diag in Ep by lia. injection Ep as ->. exists l, r. auto.
    - destruct packs as [|p0 r]; [done|]. injection Ep as ->. exists [], r. auto. }
  destruct Hp as (l & r & E & Hl & Hpid). exists l, p, r. split; [done|]. split; [done|].
  assert (Hput : put_sticker x (pack_index packId packs 0) packs = l ++ mk_pack (p_id p) (p_name p) (p_stickers p ++ [x]) :: r).
  { unfold put_sticker. rewrite <- Hl, E. replace (length l) with (length l + 0)%nat by lia. by rewrite alter_app_r. }
  rewrite Hput in Ha. injection Ha as <- <- <-.
  assert (Hsound : sound (l ++ mk_pack (p_id p) (p_name p) (p_stickers p ++ [x]) :: r)).
  { rewrite E in Hs, Hnew. apply sound_add; try done. rewrite <- E.
    rewrite <- computed_size by (rewrite E; apply Hs). done. }
  assert (Hre := packs_survive_reload now now' ids ids' _ s Hsound). split; [exact Hre|].
  by apply (sound_shape _ _ (eq_sym Hre)).
Qed.

(** A PNG file of 12 bytes. *)
Example png_sticker : validateStickerData (Some (JStr "iVBORw0KGgoAAAAN")) (Some (JStr "image/PNG")) (Some (JNum 12))
  = Some (mk_data "iVBORw0KGgoAAAAN" "image/png" 12).
Proof. vm_compute. reflexivity. Qed.

(** It is no GIF, whatever its name says. *)
Example png_is_no_gif : validateStickerData (Some (JStr "iVBORw0KGgoAAAAN")) (Some (JStr "image/gif")) (Some (JNum 12)) = None.
Proof. vm_compute. reflexivity. Qed.

(** ** Favourites, recent stickers, voice notes *)

Lemma distinct_spec l : forall seen, NoDup (distinct l seen) /\ forall x, x ∈ distinct l seen <-> x ∈ l /\ x ∉ seen.
Proof.
  induction l as [|y l IH]; intros seen; cbn [distinct]; [split; [constructor|set_solver]|].
  destruct (includes seen y) eqn:E.
  - apply bool_decide_eq_true_1 in E. destruct (IH seen) as [H1 H2]. split; [done|]. intros x. rewrite H2, elem_of_cons.
    split; [tauto|]. by intros [[->|?] ?].
  - apply bool_decide_eq_false_1 in E. destruct (IH (y :: seen)) as [H1 H2]. split.
    + constructor; [|done]. rewrite H2. set_solver.
    + intros x. rewrite elem_of_cons, H2, !elem_of_cons. destruct (decide (x = y)); subst; tauto.
Qed.

(** The lists of ids that are stored have at most [max] different ids. *)
Lemma id_list_bounded v max : (length (normalizeIdList v max) <= max)%nat /\ NoDup (normalizeIdList v max).
Proof.
  unfold normalizeIdList. split; [rewrite length_take; lia|].
  match goal with |- NoDup (take _ (distinct ?l [])) => destruct (distinct_spec l []) as [H _] end.
  eapply sublist_NoDup; [exact H|apply sublist_take].
Qed.

(** A waveform has 64 bars from 0 to 255, whatever was recorded or sent. *)
Theorem waveform_bounded levels : length (downsampleWaveform levels) = 64%nat /\ Forall (fun b => 0 <= b <= WAVEFORM_MAX) (downsampleWaveform levels).
Proof.
  assert (Hc : forall n, 0 <= clampBar n <= WAVEFORM_MAX).
  { intros n. unfold clampBar, WAVEFORM_MAX. destruct (to_number _) as [v|]; [|lia].
    destruct (Z.leb_spec v 0); [lia|]. destruct (Z.leb_spec 255 v); lia. }
  unfold downsampleWaveform. destruct levels as [|n levels]; [split; [done|]; apply Forall_forall; intros x Hx; apply list_elem_of_In, repeat_spec in Hx; subst; unfold WAVEFORM_MAX; lia|].
  destruct (Nat.eqb_spec (length (n :: levels)) (Z.to_nat WAVEFORM_BARS)) as [E|_].
  - rewrite length_map, E. split; [done|]. apply List.Forall_map, Forall_true. apply Hc.
  - rewrite length_map, length_seq. split; [done|]. apply List.Forall_map, Forall_true. intros i.
    unfold peak_of. generalize (take (Nat.max (S (segment (length (n :: levels)) i)) (segment (length (n :: levels)) (S i)) - segment (length (n :: levels)) i)
      (drop (segment (length (n :: levels)) i) (n :: levels))). intros l.
    assert (Hf : forall p, 0 <= p <= WAVEFORM_MAX -> 0 <= fold_left (fun peak n => Z.max peak (clampBar n)) l p <= WAVEFORM_MAX).
    { induction l as [|y l IH]; intros p Hp; [done|]. cbn. apply IH. specialize (Hc y). lia. }
    apply Hf. unfold WAVEFORM_MAX. lia.
Qed.
