(* ===== verification/GroupDelivery.v ===== *)
(** * Delivery in groups ([renderer/app/hooks/useGroupChats.js], [renderer/app/groupInboundHandler.js],
      [renderer/app/sendGroupChatMessage.js], [renderer/app/hooks/useMessaging.js])

    A group message is sent to every member on its own.  What is sent waits in the outbox of
    the device, which tries again until a receipt of the member arrives; receipts also change
    the delivery that is shown with the message.  The functions are asynchronous: a [send] is a
    packet whose promise is pending and what the code does when it settles, a [patching] a
    change of a stored message that is being written; [step] is what a device does at an event,
    up to the next wait.  The rows of the store change when a write begins, the shown list when it has
    ended ([applyMessagePatch]).  Clock, contacts and random ids are arguments.  Left out are notifications
    and toasts, the count of the messages of a chat, the preview URL of an attachment (an object
    of the window), the size limit of the store, ids that are no texts, and a block of a group.
    Appending to the store and deleting from it, with the shown list, are part of the step that
    asks for them. *)

From S2P Require Import Prelude Json Sync GroupChat ChatFeatures ChatEdits Stickers.

Definition GROUP_EVENT_KIND : string := "group-event-v1".
Definition GROUP_MESSAGE_KIND : string := "group-message-v1".
Definition GROUP_RECEIPT_KIND : string := "group-receipt-v1".

(** A packet in the outbox. *)
Record entry := mk_entry {
  e_id : string;
  e_type : string;
  e_packetId : string;
  e_messageId : string;
  e_groupId : string;
  e_peer : string;
  e_packet : json;
  e_status : string;
  e_attempts : Z;
  e_createdAt : Z;
  e_lastAttemptAt : option Z
}.

#[export] Instance rebuild_entry : Rebuild entry := fun e =>
  mk_entry (e_id e) (e_type e) (e_packetId e) (e_messageId e) (e_groupId e) (e_peer e) (e_packet e) (e_status e)
    (e_attempts e) (e_createdAt e) (e_lastAttemptAt e).

(** What waits for the promise of a packet: [sendGroupPacket], perhaps for the message
    [job], or the loop of [flushGroupOutbox]. *)
Inductive after :=
| AfterPacket (entryId : option string) (job : option nat)
| AfterFlush (sent : entry) (rest : list entry).

Record send := mk_send { sd_peer : string; sd_packet : json; sd_after : after }.

(** What waits for the end of [applyMessagePatch]. *)
Inductive patched :=
| ThenPreview (message : fields)
| ThenAcknowledge (peer messageId : string)
| ThenFlush (peer : string) (rest : list entry)
| ThenReact (reaction : fields).

Record patching := mk_patching { pt_chat : string; pt_message : string; pt_patch : fields; pt_then : patched }.

(** [sendGroupChatMessage] while it waits: the message that [append] has answered with, the
    recipients and which of them have answered. *)
Record message_job := mk_job {
  j_group : string;
  j_message : string;
  j_meta : fields;
  j_recipients : list string;
  j_pairs : list (string * bool)
}.

(** [wire] and [queue_log] are history: every packet handed over and every entry put in the
    outbox, in order; nothing reads them. *)
Record device := mk_device {
  own : string;
  display_name : string;
  d_groups : list group;
  outbox : list entry;
  eventIds : list string;
  shown : chats;
  sends : gmap nat send;
  patches : gmap nat patching;
  jobs : gmap nat message_job;
  next : nat;
  wire : list (string * json);
  queue_log : list entry
}.

#[export] Instance rebuild_device : Rebuild device := fun d =>
  mk_device (own d) (display_name d) (d_groups d) (outbox d) (eventIds d) (shown d) (sends d) (patches d) (jobs d) (next d) (wire d) (queue_log d).

(** ** Groups *)

Definition find_group (id : string) (d : device) : option group := List.find (fun g => bool_decide (g_id g = id)) (d_groups d).

Fixpoint put_group (g : group) (l : list group) : list group :=
  match l with
  | [] => [g]
  | x :: rest => if bool_decide (g_id x = g_id g) then g :: rest else x :: put_group g rest
  end.

Definition replaceGroup (clock : Z) (g : group) (d : device) : device :=
  match normalizeGroup clock (Some (group_json g)) with
  | Ok n => d <| d_groups := put_group n (d_groups d) |>
  | Err _ => d
  end.

Definition removeGroup (id : string) (d : device) : device :=
  d <| d_groups := List.filter (fun g => negb (bool_decide (g_id g = id))) (d_groups d) |>.

Definition rememberIncomingGroupEvent (eventId : string) (d : device) : device :=
  d <| eventIds := snd (rememberGroupEventId (eventIds d) eventId (Z.of_nat GROUP_EVENT_HISTORY_LIMIT)) |>.

(** ** The outbox *)

Definition OUTBOX_LIMIT : nat := 1000.

(** [list.slice(-1000)] *)
Definition last_entries (l : list entry) : list entry := drop (length l - OUTBOX_LIMIT) l.

Definition persistGroupOutbox (l : list entry) (d : device) : device := d <| outbox := last_entries l |>.

(** [outbox.map((item) => item.id === id ? change(item) : item)] *)
Definition change_entry (id : string) (f : entry -> entry) (l : list entry) : list entry :=
  map (fun item => if bool_decide (e_id item = id) then f item else item) l.

Definition attempted (now : Z) (sent : bool) (item : entry) : entry :=
  item <| e_status := if sent then "sent" else "offline" |> <| e_attempts := e_attempts item + 1 |> <| e_lastAttemptAt := Some now |>.

(** [sendPairwiseEncrypted] begins. *)
Definition send_pairwise (peer : string) (packet : json) (k : after) (d : device) : device :=
  d <| sends := <[next d := mk_send peer packet k]> (sends d) |> <| next := S (next d) |> <| wire := wire d ++ [(peer, packet)] |>.

Record options := mk_options { o_packetId : string; o_messageId : string; o_groupId : string; o_type : string; o_queue : bool }.

Definition new_entry (now : Z) (peer : string) (packet : json) (o : options) : entry :=
  mk_entry (o_type o +:+ ":" +:+ o_packetId o +:+ ":" +:+ peer) (o_type o) (o_packetId o)
    (if bool_decide (o_messageId o = "") then string_or_empty (prop (Some packet) "messageId") else o_messageId o)
    (o_groupId o) peer packet "queued" 0 now None.

Definition without (id : string) (l : list entry) : list entry := List.filter (fun item => negb (bool_decide (e_id item = id))) l.

(** [sendGroupPacket] up to its wait; every caller names a packet id, a type and a group. *)
Definition sendGroupPacket (now : Z) (peer : string) (packet : json) (o : options) (job : option nat) (d : device) : device :=
  if o_queue o && negb (bool_decide (o_packetId o = "")) then
    let e := new_entry now peer packet o in
    send_pairwise peer packet (AfterPacket (Some (e_id e)) job)
      (persistGroupOutbox (without (e_id e) (outbox d) ++ [e]) d <| queue_log := queue_log d ++ [e] |>)
  else send_pairwise peer packet (AfterPacket None job) d.

(** [applyMessagePatch] up to its wait; on ids that the store refuses it throws. *)
Definition start_patch (chat message : string) (p : fields) (k : patched) (d : device) : device :=
  if negb (valid_id chat) || negb (valid_id message) then d
  else
    d <| shown := shown d <| ch_rows := Sync.patch (ch_rows (shown d)) (trim chat) (trim message) p |> |>
      <| patches := <[next d := mk_patching chat message p k]> (patches d) |> <| next := S (next d) |>.

Definition summary_json (s : delivery_summary) : json :=
  JObj [("total", JNum (Z.of_nat (total s))); ("delivered", JNum (Z.of_nat (delivered s)));
        ("pending", JNum (Z.of_nat (pending s))); ("offline", JNum (Z.of_nat (offline s)))].

(** [{ groupDelivery, deliveryStatus, groupDeliverySummary }] *)
Definition delivery_patch (delivery : fields) (recipients : list string) : fields :=
  [("groupDelivery", JObj delivery); ("deliveryStatus", JStr (deriveGroupDeliveryStatus delivery recipients));
   ("groupDeliverySummary", summary_json (summarizeGroupDelivery delivery recipients))].

Definition status_at (status : string) (now : Z) : json := JObj [("status", JStr status); ("at", JNum now)].

Definition delivery_of (m : fields) : fields := default [] (as_object (get m "groupDelivery")).

(** [message.groupRecipientIds || []] *)
Definition text_of (v : json) : option string := match v with JStr s => Some s | _ => None end.
Definition recipients_in (m : fields) : list string := omap (M := list) text_of (default [] (as_array (get m "groupRecipientIds"))).

(** The loop of [flushGroupOutbox] from its head. *)
Definition flush_next (peer : string) (rest : list entry) (d : device) : device :=
  match rest with
  | [] => d
  | e :: rest => send_pairwise peer (e_packet e) (AfterFlush e rest) d
  end.

Definition flushGroupOutbox (peer : string) (d : device) : device :=
  if bool_decide (peer = "") then d
  else flush_next peer (List.filter (fun e => bool_decide (e_peer e = peer)) (outbox d)) d.

(** The rest of a turn of the loop, after the packet. *)
Definition flushed (now : Z) (peer : string) (sent : bool) (e : entry) (rest : list entry) (d : device) : device :=
  if negb sent then flush_next peer rest d
  else
    let d := persistGroupOutbox (change_entry (e_id e) (attempted now true) (outbox d)) d in
    if bool_decide (e_type e = "message") then
      match List.find (has_id (e_messageId e)) (cached (shown d) (e_groupId e)) with
      | Some stored =>
          let delivery := set (delivery_of stored) peer (status_at "sent" now) in
          start_patch (e_groupId e) (e_messageId e) (delivery_patch delivery (recipients_in stored)) (ThenFlush peer rest) d
      | None => flush_next peer rest d
      end
    else flush_next peer rest d.

(** ** Sending a message *)

Definition offline_delivery (recipients : list string) : fields := map (fun id => (id, JObj [("status", JStr "offline")])) recipients.

Definition SENT_KINDS : list string := ["chat"; "file"; "sticker"; "contact-share"].

Definition has_kind (f : fields) (kinds : list string) : bool :=
  existsb (fun k => bool_decide (get f "kind" = Some (JStr k))) kinds.

(** [{ ...wireContent, sender, ... }] *)
Definition self_message (d : device) (now : Z) (g : group) (messageId : string) (recipients : list string)
    (content : fields) : fields :=
  let delivery := offline_delivery recipients in
  spread_patch content
    [("sender", JStr (display_name d)); ("senderPeerId", JStr (own d)); ("messageId", JStr messageId); ("timestamp", JNum now);
         ("groupId", JStr (g_id g)); ("groupRevision", JNum (g_revision g)); ("groupRecipientIds", JArr (map JStr recipients));
         ("groupDelivery", JObj delivery); ("groupDeliverySummary", summary_json (summarizeGroupDelivery delivery recipients));
         ("from", JStr "self"); ("deliveryStatus", JStr (deriveGroupDeliveryStatus delivery recipients))].

Definition envelope (d : device) (now : Z) (g : group) (messageId : string) (content : fields) : json :=
  JObj [("kind", JStr GROUP_MESSAGE_KIND); ("protocolVersion", JNum 1); ("groupId", JStr (g_id g)); ("groupRevision", JNum (g_revision g));
        ("messageId", JStr messageId); ("senderPeerId", JStr (own d)); ("sender", JStr (display_name d)); ("timestamp", JNum now);
        ("payload", JObj content)].

(** [messages.append]: the rows and the [appended] flag; it throws on ids that the store refuses. *)
Definition store_message (chat : string) (m : fields) (rows : list Sync.row) : res (list Sync.row * bool) :=
  let messageId := string_or_empty (get m "messageId") in
  if negb (valid_id chat) then Err "invalid peer or conversation id"
  else if negb (bool_decide (messageId = "")) && negb (valid_id messageId) then Err "invalid message id"
  else
    let id := trim messageId in
    if negb (bool_decide (id = "")) && existsb (same_message (trim chat) id) rows then Ok (rows, false)
    else Ok (rows ++ [mk_row (trim chat) id m], true).

(** A message at the end of the shown list and of the preview. *)
Definition show_message (chat : string) (m : fields) (s : chats) : chats :=
  s <| ch_cache := <[chat := cached s chat ++ [m]]> (ch_cache s) |> <| ch_last := <[chat := m]> (ch_last s) |>.

(** The packets of a message, one for each recipient. *)
Fixpoint send_to (now : Z) (recipients : list string) (packet : json) (o : options) (job : nat) (d : device) : device :=
  match recipients with
  | [] => d
  | peer :: rest => send_to now rest packet o job (sendGroupPacket now peer packet o (Some job) d)
  end.

(** The last part of [sendGroupChatMessage]: every packet has been answered. *)
Definition finish_message (now : Z) (j : message_job) (d : device) : device :=
  let delivery := fold_left (fun f p => set f p.1 (status_at (if p.2 : bool then "sent" else "offline") now)) (j_pairs j)
                    (offline_delivery (j_recipients j)) in
  start_patch (j_group j) (j_message j) (delivery_patch delivery (j_recipients j)) (ThenPreview (j_meta j)) d.

(** [sendGroupChatMessage] on an object; the error, or [None] when the packets are on their way. *)
Definition sendGroupChatMessage (now : Z) (messageId groupId : string) (payload : fields) (d : device) : option string * device :=
  match find_group groupId d with
  | Some g =>
      if bool_decide (own d = "") || negb (isActiveGroupMember g (own d)) then (Some "not_group_member", d)
      else
        let outgoing := if has payload "kind" then payload else ("kind", JStr "chat") :: payload in
        if negb (has_kind outgoing SENT_KINDS) then (Some "unsupported_group_payload", d)
        else
          let content := del outgoing "localPreviewUrl" in
          let content := match get outgoing "mentions" with
                         | Some (JArr (_ :: _ as l)) =>
                             if has_kind outgoing ["chat"] then set content "mentions" (JArr (List.filter (fun v => truthy (Some v)) l)) else content
                         | _ => content
                         end in
          let recipients := buildTargetedGroupRoute g (own d) false in
          let m := self_message d now g messageId recipients content in
          let packet := envelope d now g messageId content in
          let d := d <| shown := show_message groupId m (shown d) |> in
          match store_message groupId m (ch_rows (shown d)) with
          | Err e => (Some e, d)
          | Ok (rows, _) =>
              let d := d <| shown := shown d <| ch_rows := rows |> |> in
              let job := next d in
              let d := d <| jobs := <[job := mk_job groupId messageId m recipients []]> (jobs d) |> <| next := S job |> in
              let d := send_to now recipients packet (mk_options messageId messageId groupId "message" true) job d in
              (None, match recipients with [] => finish_message now (mk_job groupId messageId m recipients []) d | _ => d end)
          end
  | None => (Some "not_group_member", d)
  end.

(** A packet of the message [job] has been answered. *)
Definition answered (now : Z) (job : nat) (peer : string) (sent : bool) (d : device) : device :=
  match jobs d !! job with
  | Some j =>
      let j := mk_job (j_group j) (j_message j) (j_meta j) (j_recipients j) (j_pairs j ++ [(peer, sent)]) in
      if Nat.eqb (length (j_pairs j)) (length (j_recipients j)) then finish_message now j (d <| jobs := delete job (jobs d) |>)
      else d <| jobs := <[job := j]> (jobs d) |>
  | None => d
  end.

(** ** Changing groups *)

Definition opt_field (name : string) (v : option json) : fields := match v with Some j => [(name, j)] | None => [] end.

Definition control_options (groupId packetId : string) : options := mk_options packetId "" groupId "control" true.

Definition send_control (now : Z) (groupId : string) (event : json) (peer : string) (d : device) : device :=
  sendGroupPacket now peer event (control_options groupId (string_or_empty (prop (Some event) "eventId"))) None d.

Definition send_controls (now : Z) (groupId : string) (event : json) (peers : list string) (d : device) : device :=
  fold_left (fun d peer => send_control now groupId event peer d) peers d.

Definition find_contact (contacts : list fields) (id : string) : option fields := List.find (fun c => is_str (get c "id") id) contacts.

(** [contact?.nickname || contact?.name || fallback] *)
Definition called (contacts : list fields) (id fallback : string) : option json :=
  match find_contact contacts id with
  | Some c => or_else (or_else (get c "nickname") (get c "name")) (Some (JStr fallback))
  | None => Some (JStr fallback)
  end.

Definition is_contact (contacts : list fields) (id : string) : bool := match find_contact contacts id with Some _ => true | None => false end.

(** The invitations, until one cannot be made. *)
Fixpoint send_invites (now : Z) (g : group) (inviteId : string -> string) (peers : list string) (d : device) : option string * device :=
  match peers with
  | [] => (None, d)
  | peer :: rest =>
      match createGroupInviteEvent now g (inviteId peer) (own d) peer now with
      | Err e => (Some e, d)
      | Ok invite => send_invites now g inviteId rest (send_control now (g_id g) invite peer d)
      end
  end.

Definition createGroupChat (now : Z) (groupId : string) (inviteId : string -> string) (contacts : list fields) (name image : option json)
    (memberIds : list string) (d : device) : option string * device :=
  if bool_decide (own d = "") then (Some "identity_not_ready", d)
  else
    let selected := List.filter (is_contact contacts)
                      (unique_list (List.filter (fun id => negb (bool_decide (id = "")) && negb (bool_decide (id = own d))) memberIds) []) in
    let person (id : string) : json := JObj (("peerId", JStr id) :: opt_field "displayName" (called contacts id id)) in
    match createGroup now groupId name image (JObj [("peerId", JStr (own d)); ("displayName", JStr (display_name d))]) (map person selected) now with
    | Err e => (Some e, d)
    | Ok g => send_invites now g inviteId selected (replaceGroup now g d)
    end.

(** The argument [patch]; [None] where a property is not given. *)
Record group_patch := mk_group_patch {
  p_name : option json;
  p_image : option json;
  p_addMemberIds : list string;
  p_removeMemberIds : list string;
  p_reason : string
}.

Definition without_empty (ids : list string) : list string := List.filter (fun id => negb (bool_decide (id = ""))) ids.

Definition add_ids (p : group_patch) : list string := unique_list (without_empty (p_addMemberIds p)) [].

Definition remove_ids (g : group) (self : string) (p : group_patch) : list string :=
  unique_list (List.filter (fun id => negb (bool_decide (id = self)) && bool_decide (is_Some (getGroupMember g id))) (without_empty (p_removeMemberIds p))) [].

(** Ids of members that have gone and come back. *)
Definition readded_ids (g : group) (p : group_patch) : list string :=
  List.filter (fun id => match getGroupMember g id with
                         | Some m => bool_decide (gm_state m = left_group) || bool_decide (gm_state m = removed)
                         | None => false
                         end) (add_ids p).

Definition added_ids (contacts : list fields) (g : group) (p : group_patch) : list string :=
  List.filter (is_contact contacts) (List.filter (fun id => negb (includes (map gm_peer (g_members g)) id)) (add_ids p)).

Definition added_member (now : Z) (contacts : list fields) (id : string) : json :=
  JObj ([("peerId", JStr id)] ++ opt_field "displayName" (called contacts id id)
        ++ [("role", JStr "member"); ("state", JStr "invited"); ("addedAt", JNum now)]).

Definition changed_member (now : Z) (contacts : list fields) (removeIds readdedIds : list string) (m : group_member) : json :=
  let f := member_fields m in
  if includes removeIds (gm_peer m) then JObj (set (set f "state" (JStr "removed")) "removedAt" (JNum now))
  else if includes readdedIds (gm_peer m) then
    let f := set_opt f "displayName" (called contacts (gm_peer m) (gm_name m)) in
    JObj (del (del (set (set (set f "role" (JStr "member")) "state" (JStr "invited")) "addedAt" (JNum now)) "joinedAt") "removedAt")
  else JObj f.

(** [{ ...current, name, image, revision, updatedAt, members }] *)
Definition updated_group (now : Z) (contacts : list fields) (g : group) (self : string) (p : group_patch) : json :=
  let f := group_fields g (map (changed_member now contacts (remove_ids g self p) (readded_ids g p)) (g_members g)
                           ++ map (added_member now contacts) (added_ids contacts g p)) in
  let f := match p_name p with Some v => set f "name" v | None => f end in
  let f := match p_image p with Some v => set f "image" v | None => f end in
  JObj (set (set f "revision" (JNum (g_revision g + 1))) "updatedAt" (JNum now)).

Definition new_ids (contacts : list fields) (g : group) (p : group_patch) : list string := added_ids contacts g p ++ readded_ids g p.

Definition told_ids (contacts : list fields) (g : group) (self : string) (p : group_patch) : list string :=
  List.filter (fun id => negb (includes (new_ids contacts g p) id)) (unique_list (groupPeerIds g true self ++ remove_ids g self p) []).

Definition updateGroupChat (now : Z) (groupId updateId : string) (inviteId : string -> string) (contacts : list fields) (p : group_patch)
    (d : device) : option string * device :=
  match find_group groupId d with
  | None => (Some "unknown_group", d)
  | Some g =>
      if negb (isGroupAdmin g (own d)) then (Some "admin_required", d)
      else
        match normalizeGroup now (Some (updated_group now contacts g (own d) p)) with
        | Err e => (Some e, d)
        | Ok next =>
            let reason := if bool_decide (p_reason p = "") then "group-info" else p_reason p in
            match createGroupUpdateEvent now g (Some (group_json next)) updateId (own d) (Some (JStr reason)) now with
            | Err e => (Some e, d)
            | Ok update =>
                let d := replaceGroup now next d in
                let d := send_controls now (g_id next) update (told_ids contacts g (own d) p) d in
                send_invites now next inviteId (new_ids contacts g p) d
            end
        end
  end.

(** The members after [self] has left; when no admin is left the first active member becomes one. *)
Definition left_members (now : Z) (g : group) (self : string) : list json :=
  let otherActive := List.filter (fun m => negb (bool_decide (gm_peer m = self)) && bool_decide (gm_state m = active)) (g_members g) in
  let heir := if isGroupAdmin g self && negb (existsb (fun m => bool_decide (gm_role m = admin)) otherActive)
              then option_map gm_peer (head otherActive) else None in
  map (fun m =>
         let f := if bool_decide (gm_peer m = self) then set (set (member_fields m) "state" (JStr "left")) "removedAt" (JNum now)
                  else member_fields m in
         JObj (if bool_decide (heir = Some (gm_peer m)) then set f "role" (JStr "admin") else f)) (g_members g).

Definition leaveGroupChat (now : Z) (groupId eventId : string) (d : device) : option string * device :=
  match find_group groupId d with
  | Some g =>
      if negb (isActiveGroupMember g (own d)) then (Some "active_member_required", d)
      else
        match createGroupLeaveEvent g eventId (own d) now with
        | Err e => (Some e, d)
        | Ok leave =>
            match next_revision now g (Some (JNum now)) (left_members now g (own d)) with
            | Err e => (Some e, d)
            | Ok next =>
                let d := replaceGroup now next d in
                if isGroupAdmin g (own d) then
                  match createGroupUpdateEvent now g (Some (group_json next)) eventId (own d) (Some (JStr "member-left")) now with
                  | Err e => (Some e, d)
                  | Ok update =>
                      (None, send_controls now groupId update
                               (map gm_peer (List.filter (fun m => negb (bool_decide (gm_peer m = own d)) && bool_decide (gm_state m = active)) (g_members g))) d)
                  end
                else
                  (None, send_controls now groupId leave
                           (map gm_peer (List.filter (fun m => bool_decide (gm_state m = active) && bool_decide (gm_role m = admin)) (g_members g))) d)
            end
        end
  | None => (Some "active_member_required", d)
  end.

(** [deleteChat] of a group: its rows, the shown list and the preview.  The flags of what was
    read are not kept here. *)
Definition deleteChat (chat : string) (d : device) : device := d <| shown := ChatEdits.deleteChat chat (shown d) |>.

Definition deleteMessage (chat messageId : string) (d : device) : device := d <| shown := ChatEdits.deleteMessage chat messageId (shown d) |>.

Definition deleteGroupChat (now : Z) (groupId eventId : string) (d : device) : device :=
  if negb (isGroupChatId (Some (JStr groupId))) then d
  else
    let d := match find_group groupId d with
             | Some g => if isActiveGroupMember g (own d) then snd (leaveGroupChat now groupId eventId d) else d
             | None => d
             end in
    let d := removeGroup groupId d in
    deleteChat groupId (persistGroupOutbox (List.filter (fun e => negb (bool_decide (e_groupId e = groupId))) (outbox d)) d).

(** ** Reactions of the user ([toggleMessageReaction] in a group) *)

Definition toggleMessageReaction (groupId : string) (message : fields) (emoji : string) (d : device) : device :=
  match get message "messageId" with
  | Some (JStr id) =>
      if bool_decide (id = "") || negb (isAllowedReactionEmoji emoji) then d
      else
        let shown_one := default message (List.find (has_id id) (cached (shown d) groupId)) in
        let reactions := default [] (as_object (get shown_one "reactions")) in
        let on := negb (reactorHasEmoji reactions "self" emoji) in
        start_patch groupId id [("reactions", JObj (setReactorEmoji reactions emoji "self" on))]
          (ThenReact [("kind", JStr "reaction"); ("refMessageId", JStr id); ("emoji", JStr emoji); ("active", JBool on)]) d
  | _ => d
  end.

Definition send_reaction (now : Z) (groupId messageId : string) (reaction : fields) (d : device) : device :=
  match find_group groupId d with
  | Some g =>
      if bool_decide (own d = "") || negb (isActiveGroupMember g (own d)) then d
      else
        let packetId := "react:" +:+ messageId in
        fold_left (fun d' peer => sendGroupPacket now peer (envelope d now g packetId reaction)
                                    (mk_options packetId packetId groupId "control" true) None d')
          (buildTargetedGroupRoute g (own d) false) d
  | None => d
  end.

(** ** Frames that arrive *)

Definition receipt (d : device) (now : Z) (groupId refName ref : string) : json :=
  JObj [("kind", JStr GROUP_RECEIPT_KIND); ("protocolVersion", JNum 1); ("groupId", JStr groupId); (refName, JStr ref);
        ("senderPeerId", JStr (own d)); ("status", JStr "delivered"); ("receivedAt", JNum now)].

Definition send_receipt (now : Z) (peer groupId refName ref : string) (d : device) : device :=
  sendGroupPacket now peer (receipt d now groupId refName ref)
    (mk_options ((if bool_decide (refName = "refEventId") then "event-receipt:" else "receipt:") +:+ ref) "" groupId "receipt" false) None d.

(** An event of a group; [acceptId] and [updateId] are the random ids of the answers. *)
Definition handle_event (now : Z) (acceptId updateId : string) (event : json) (from : string) (d : device) : device :=
  let ev := Some event in
  if bool_decide (from = "") || negb (is_str (prop ev "actorId") from) then d
  else
    match prop ev "groupId", prop ev "eventId" with
    | Some (JStr groupId), Some (JStr eventId) =>
        if includes (eventIds d) eventId then send_receipt now from groupId "refEventId" eventId d
        else
          let current := find_group groupId d in
          match applyGroupEvent now (option_map group_json current) event (own d) with
          | Ok (Applied g _ shouldAccept shouldBroadcast) =>
              let d := replaceGroup now g (rememberIncomingGroupEvent eventId d) in
              let d := send_receipt now from groupId "refEventId" eventId d in
              let d := if shouldAccept then
                         match createGroupAcceptEvent g acceptId (own d) now with
                         | Ok accept => send_control now (g_id g) accept from d
                         | Err _ => d
                         end
                       else d in
              match current with
              | Some before =>
                  if shouldBroadcast && isGroupAdmin g (own d) then
                    let reason := if is_str (prop ev "action") "accept" then "member-accepted" else "member-left" in
                    match createGroupUpdateEvent now before (Some (group_json g)) updateId (own d) (Some (JStr reason)) now with
                    | Ok update => send_controls now (g_id g) update (buildTargetedGroupRoute g (own d) true) d
                    | Err _ => d
                    end
                  else d
              | None => d
              end
          | _ => d
          end
    | _, _ => d
    end.

(** Entries that a receipt for an event or a message takes away. *)
Definition acknowledged_packet (peer ref : string) (e : entry) : bool := bool_decide (e_peer e = peer) && bool_decide (e_packetId e = ref).
Definition acknowledged_message (peer ref : string) (e : entry) : bool :=
  bool_decide (e_type e = "message") && bool_decide (e_peer e = peer) && bool_decide (e_messageId e = ref).

Definition drop_entries (gone : entry -> bool) (d : device) : device :=
  persistGroupOutbox (List.filter (fun e => negb (gone e)) (outbox d)) d.

Definition handle_receipt (now : Z) (frame : json) (from : string) (d : device) : device :=
  let field := prop (Some frame) in
  match find_group (as_id (field "groupId")) d with
  | None => d
  | Some g =>
      if negb (is_str (field "senderPeerId") from) then d
      else if truthy (field "refEventId") then
        match field "refEventId" with Some (JStr ref) => drop_entries (acknowledged_packet from ref) d | _ => persistGroupOutbox (outbox d) d end
      else
        match field "refMessageId" with
        | Some (JStr ref) =>
            match List.find (fun m => has_id ref m && from_self m) (cached (shown d) (g_id g)) with
            | Some m =>
                if bool_decide (ref = "") || negb (includes (recipients_in m) from) then d
                else
                  let status := if is_str (field "status") "seen" then "seen" else "delivered" in
                  let delivery := set (delivery_of m) from (status_at status (finite (field "receivedAt") now)) in
                  start_patch (g_id g) ref (delivery_patch delivery (recipients_in m)) (ThenAcknowledge from ref) d
            | None => d
            end
        | _ => d
        end
  end.

Definition MAX_CHAT_FILE_BYTES : Z := 8 * 1024 * 1024.
Definition MAX_CHAT_TEXT_CHARS : nat := Z.to_nat (128 * 1024).

Definition voice_json (v : voice_meta) : json :=
  JObj [("durationMs", JNum (durationMs v)); ("waveform", JArr (map JNum (waveform v))); ("mime", JStr (mime v))].

(** The checks of what a message carries; [None] when it is dropped. *)
Definition checked_content (m : fields) : option fields :=
  if has_kind m ["sticker"] then
    match validateStickerData (get m "fileData") (get m "fileType") (get m "fileSize") with
    | Some s => Some (spread_patch m [("fileData", JStr (fileData s)); ("fileType", JStr (fileType s)); ("fileSize", JNum (fileSize s))])
    | None => None
    end
  else if has_kind m ["file"] && truthy (get m "fileData") then
    let actualSize := base64ByteLength (get m "fileData") in
    if Z.ltb actualSize 0 || Z.ltb MAX_CHAT_FILE_BYTES actualSize then None
    else
      let m := set m "fileSize" (JNum actualSize) in
      if truthy (get m "voice") then
        Some (match sanitizeVoiceMeta (get m "voice") with Some v => set m "voice" (voice_json v) | None => del m "voice" end)
      else Some m
  else if has_kind m ["chat"] && Nat.ltb MAX_CHAT_TEXT_CHARS (String.length (string_or_empty (get m "content"))) then None
  else Some m.

(** [{ ...payload, messageId, timestamp, sender, ... }] *)
Definition group_message (g : group) (frame : json) (from : string) : fields :=
  let field := prop (Some frame) in
  spread_patch (default [] (as_object (field "payload")))
    (opt_field "messageId" (field "messageId") ++ opt_field "timestamp" (field "timestamp")
     ++ [("sender", JStr (match getGroupMember g from with
                          | Some m => if bool_decide (gm_name m = "") then from else gm_name m
                          | None => from end));
         ("senderPeerId", JStr from); ("groupId", JStr (g_id g))]
     ++ opt_field "groupRevision" (field "groupRevision") ++ [("from", JStr from)]).

Definition handle_message (now : Z) (frame : json) (from : string) (d : device) : device :=
  match find_group (as_id (prop (Some frame) "groupId")) d with
  | None => d
  | Some g =>
      match validateIncomingGroupMessage g (Some frame) from (own d) with
      | Some _ => d
      | None =>
          let m := group_message g frame from in
          if has_kind m [MESSAGE_EDIT_KIND] then d <| shown := snd (applyInboundChatEdit now (g_id g) from m true (shown d)) |>
          else if has_kind m ["reaction"] then
            match applyInboundReaction (g_id g) from m (shown d) with Ok s => d <| shown := s |> | Err _ => d end
          else
            match checked_content m with
            | None => d
            | Some m =>
                if negb (isStoreableChatKind (get m "kind")) then d
                else
                  match get m "messageId" with
                  | Some (JStr id) =>
                      let d := send_receipt now from (g_id g) "refMessageId" id d in
                      match store_message (g_id g) m (ch_rows (shown d)) with
                      | Ok (rows, true) => d <| shown := show_message (g_id g) m (shown d) <| ch_rows := rows |> |>
                      | _ => d
                      end
                  | _ => d
                  end
            end
      end
  end.

Definition handleGroupProtocolFrame (now : Z) (acceptId updateId : string) (frame : json) (from : string) (wasPairwiseEncrypted : bool)
    (d : device) : device :=
  if negb wasPairwiseEncrypted then d
  else if is_str (prop (Some frame) "kind") GROUP_EVENT_KIND then handle_event now acceptId updateId frame from d
  else if is_str (prop (Some frame) "kind") GROUP_RECEIPT_KIND then handle_receipt now frame from d
  else if is_str (prop (Some frame) "kind") GROUP_MESSAGE_KIND then handle_message now frame from d
  else d.

(** ** Events *)

Inductive event :=
| SendMessage (messageId groupId : string) (payload : fields)
| React (groupId : string) (message : fields) (emoji : string)
| CreateGroup (groupId : string) (inviteId : string -> string) (contacts : list fields) (name image : option json) (memberIds : list string)
| UpdateGroup (groupId updateId : string) (inviteId : string -> string) (contacts : list fields) (p : group_patch)
| LeaveGroup (groupId eventId : string)
| Flush (peer : string)
| DeleteGroup (groupId eventId : string)
| DeleteMessage (chat messageId : string)
| DeleteChat (chat : string)
| Answered (send : nat) (sent : bool)
| Written (patch : nat)
| Frame (acceptId updateId : string) (frame : json) (from : string) (wasPairwiseEncrypted : bool).

Definition settle (now : Z) (s : send) (sent : bool) (d : device) : device :=
  match sd_after s with
  | AfterPacket id job =>
      let d := match id with
               | Some id => persistGroupOutbox (change_entry id (attempted now sent) (outbox d)) d
               | None => d
               end in
      match job with Some j => answered now j (sd_peer s) sent d | None => d end
  | AfterFlush e rest => flushed now (sd_peer s) sent e rest d
  end.

Definition written (now : Z) (p : patching) (d : device) : device :=
  let d := d <| shown := patch_cache (pt_chat p) (pt_message p) (pt_patch p) (shown d) |> in
  match pt_then p with
  | ThenPreview m => d <| shown := shown d <| ch_last := <[pt_chat p := m]> (ch_last (shown d)) |> |>
  | ThenAcknowledge peer ref => drop_entries (acknowledged_message peer ref) d
  | ThenFlush peer rest => flush_next peer rest d
  | ThenReact reaction => send_reaction now (pt_chat p) (pt_message p) reaction d
  end.

Definition step (now : Z) (e : event) (d : device) : device :=
  match e with
  | SendMessage messageId groupId payload => snd (sendGroupChatMessage now messageId groupId payload d)
  | React groupId message emoji => toggleMessageReaction groupId message emoji d
  | CreateGroup groupId inviteId contacts name image memberIds => snd (createGroupChat now groupId inviteId contacts name image memberIds d)
  | UpdateGroup groupId updateId inviteId contacts p => snd (updateGroupChat now groupId updateId inviteId contacts p d)
  | LeaveGroup groupId eventId => snd (leaveGroupChat now groupId eventId d)
  | Flush peer => flushGroupOutbox peer d
  | DeleteGroup groupId eventId => deleteGroupChat now groupId eventId d
  | DeleteMessage chat messageId => deleteMessage chat messageId d
  | DeleteChat chat => deleteChat chat d
  | Answered k sent =>
      match sends d !! k with Some s => settle now s sent (d <| sends := delete k (sends d) |>) | None => d end
  | Written k =>
      match patches d !! k with Some p => written now p (d <| patches := delete k (patches d) |>) | None => d end
  | Frame acceptId updateId frame from enc => handleGroupProtocolFrame now acceptId updateId frame from enc d
  end.
