(* ===== verification/GroupDeliveryFacts.v ===== *)
(** * Delivery in groups: theorems

    [packet_kept] says when a packet leaves the outbox, [flush_hands_over] that what waits for
    a member that is back is tried again. *)

From S2P Require Import Prelude Json Sync GroupChat GroupChatFacts ChatFeatures ChatEdits ChatEditsFacts Stickers GroupDelivery.

(** ** The outbox over time *)

(** What an entry is for; only its status, its attempts and their time change while it waits. *)
Definition content (e : entry) : string * string * string * string * string * string * json * Z :=
  (e_id e, e_type e, e_packetId e, e_messageId e, e_groupId e, e_peer e, e_packet e, e_createdAt e).

Definition holds (x : entry) (l : list entry) : Prop := exists y, y ∈ l /\ content y = content x.

(** One of the entries [n] that were queued has the id of [x], which names its place. *)
Definition replaced (n : list entry) (x : entry) : Prop := exists y, y ∈ n /\ e_id y = e_id x.

(** With the entries [n] there were more than the outbox holds. *)
Definition overflow (n : list entry) (d : device) : Prop := (OUTBOX_LIMIT < length (outbox d) + length n)%nat.

(** From [d] to [d'] the entries [n] were queued; the outbox has grown by no more and is no
    longer than its limit. *)
Definition sized (n : list entry) (d d' : device) : Prop :=
  queue_log d' = queue_log d ++ n
  /\ (length (outbox d') <= length (outbox d) + length n)%nat
  /\ (length (outbox d) <= OUTBOX_LIMIT -> length (outbox d') <= OUTBOX_LIMIT)%nat.

Definition lasts (n : list entry) (d d' : device) (x : entry) : Prop := holds x (outbox d') \/ replaced n x \/ overflow n d.

(** What waited still waits, but for what was replaced or pushed out. *)
Definition grown (d d' : device) : Prop := exists n, sized n d d' /\ forall x, x ∈ outbox d -> lasts n d d' x.

Lemma holds_self x l : x ∈ l -> holds x l. Proof. by exists x. Qed.

Lemma content_id x y : content y = content x -> e_id y = e_id x. Proof. unfold content. congruence. Qed.

Lemma sized_refl d : sized [] d d.
Proof. unfold sized. rewrite app_nil_r. split; [done|]. cbn. split; [lia|auto]. Qed.

Lemma sized_trans n1 n2 d1 d2 d3 : sized n1 d1 d2 -> sized n2 d2 d3 -> sized (n1 ++ n2) d1 d3.
Proof. intros (A1 & B1 & C1) (A2 & B2 & C2). split; [by rewrite A2, A1, app_assoc|]. rewrite length_app. split; [lia|auto]. Qed.

Lemma grown_refl d : grown d d.
Proof. exists []. split; [apply sized_refl|]. intros x Hx. left. by apply holds_self. Qed.

Lemma lasts_trans n1 n2 d1 d2 d3 x : sized n1 d1 d2 -> (forall y, y ∈ outbox d2 -> lasts n2 d2 d3 y) -> lasts n1 d1 d2 x -> lasts (n1 ++ n2) d1 d3 x.
Proof.
  intros (_ & B & _) H2 [(y & Hy & Hc)|[(y & Hy & Hi)|H]].
  - destruct (H2 y Hy) as [(z & Hz & Hc')|[(z & Hz & Hi)|H]].
    + left. exists z. split; [done|congruence].
    + right; left. exists z. split; [apply elem_of_app; by right|]. rewrite Hi. by apply content_id.
    + right; right. unfold overflow in *. rewrite length_app. lia.
  - right; left. exists y. split; [apply elem_of_app; by left|done].
  - right; right. unfold overflow in *. rewrite length_app. lia.
Qed.

Lemma grown_trans d1 d2 d3 : grown d1 d2 -> grown d2 d3 -> grown d1 d3.
Proof.
  intros (n1 & S1 & C1) (n2 & S2 & C2). exists (n1 ++ n2). split; [by eapply sized_trans|].
  intros x Hx. eapply lasts_trans; [exact S1|exact C2|by apply C1].
Qed.

Lemma last_entries_length l : (length (last_entries l) <= OUTBOX_LIMIT)%nat /\ (length (last_entries l) <= length l)%nat.
Proof. unfold last_entries. rewrite length_drop. lia. Qed.

Lemma last_entries_all l : (length l <= OUTBOX_LIMIT)%nat -> last_entries l = l.
Proof. intros H. unfold last_entries. by replace (length l - OUTBOX_LIMIT)%nat with 0%nat by lia. Qed.

(** Writing a list that is no longer. *)
Lemma sized_persist l d : (length l <= length (outbox d))%nat -> sized [] d (persistGroupOutbox l d).
Proof.
  intros Hl. unfold sized. destruct (last_entries_length l) as [Hlim Hlen]. rewrite app_nil_r.
  change (outbox (persistGroupOutbox l d)) with (last_entries l). split; [done|]. cbn [length]. split; [lia|auto].
Qed.

Lemma grown_change id now sent d : grown d (persistGroupOutbox (change_entry id (attempted now sent) (outbox d)) d).
Proof.
  exists []. set (l := change_entry _ _ _). assert (Hl : length l = length (outbox d)) by (subst l; unfold change_entry; by rewrite length_map).
  split; [apply sized_persist; lia|]. intros x Hx. destruct (Nat.le_gt_cases (length l) OUTBOX_LIMIT) as [Hs|Hs]; [left|right; right; unfold overflow; lia].
  change (outbox (persistGroupOutbox l d)) with (last_entries l). rewrite last_entries_all by done.
  exists (if bool_decide (e_id x = id) then attempted now sent x else x). split; [|by destruct (bool_decide _)].
  apply list_elem_of_In, in_map_iff. exists x. split; [done|by apply list_elem_of_In].
Qed.

Lemma grown_same d d' : outbox d' = outbox d -> queue_log d' = queue_log d -> grown d d'.
Proof.
  intros Ho Hw. exists []. unfold sized. rewrite Ho, Hw, app_nil_r. split; [split; [done|cbn; split; [lia|auto]]|].
  intros x Hx. left. rewrite Ho. by apply holds_self.
Qed.

Lemma grown_pairwise peer packet k d : grown d (send_pairwise peer packet k d).
Proof. by apply grown_same. Qed.

(** A packet that is queued takes one place, the place of its id when that is taken. *)
Lemma grown_queue now peer packet o job d : grown d (sendGroupPacket now peer packet o job d).
Proof.
  unfold sendGroupPacket. destruct (_ && _); [|apply grown_pairwise].
  set (e := new_entry now peer packet o). set (l := without (e_id e) (outbox d) ++ [e]).
  assert (Hl : (length l <= S (length (outbox d)))%nat).
  { subst l. rewrite length_app. change (length [e]) with 1%nat. unfold without. pose proof (filter_length_le (fun item => negb (bool_decide (e_id item = e_id e))) (outbox d)). lia. }
  exists [e]. set (d' := send_pairwise _ _ _ _). assert (Ho : outbox d' = last_entries l) by done. assert (Hq : queue_log d' = queue_log d ++ [e]) by done.
  clearbody d'. destruct (last_entries_length l) as [Hlim Hlen]. split; [split; [done|]; rewrite Ho; cbn [length]; split; [lia|auto]|].
  intros x Hx. destruct (decide (e_id x = e_id e)) as [E|E]; [right; left; exists e; by split; [apply list_elem_of_singleton|]|].
  destruct (Nat.le_gt_cases (length l) OUTBOX_LIMIT) as [Hs|Hs]; [left|right; right; unfold overflow; cbn [length]; lia].
  rewrite Ho, last_entries_all by done. apply holds_self, elem_of_app. left. apply list_elem_of_In, filter_In.
  split; [by apply list_elem_of_In|]. by rewrite bool_decide_eq_false_2.
Qed.

(** ** What every event does

    A relation that holds of the small steps holds of what an event does, the removal of
    entries apart. *)

(** Rows stay, perhaps with another value. *)
Definition kept (rows rows' : list Sync.row) : Prop := forall c i, existsb (same_message c i) rows = true -> existsb (same_message c i) rows' = true.

Lemma kept_refl rows : kept rows rows. Proof. by intros c i. Qed.

Lemma patch_kept rows chat id p : kept rows (Sync.patch rows chat id p).
Proof.
  intros c i. induction rows as [|r rows IH]; [done|]. cbn [Sync.patch existsb]. destruct (same_message chat id r); cbn [existsb].
  - by unfold same_message.
  - intros [H|H]%orb_true_iff; [by rewrite H|]. apply orb_true_iff. right. by apply IH.
Qed.

Lemma store_kept chat m rows rows' appended : store_message chat m rows = Ok (rows', appended) -> kept rows rows'.
Proof.
  unfold store_message. cbn zeta. destruct (negb _); [done|]. destruct (_ && _); [done|]. destruct (_ && _); intros [= <- <-]; [apply kept_refl|].
  intros c i H. by rewrite existsb_app, H.
Qed.

Lemma patched_kept chat id p s s' : applyMessagePatch chat id p s = Ok s' -> kept (ch_rows s) (ch_rows s').
Proof.
  unfold applyMessagePatch. destruct (_ || _); [intros [= <-]; apply kept_refl|]. destruct (negb _); [done|]. destruct (negb _); [done|].
  intros [= <-]. rewrite patch_cache_rows. apply patch_kept.
Qed.

Lemma edit_kept now chat from payload isGroup s : kept (ch_rows s) (ch_rows (snd (applyInboundChatEdit now chat from payload isGroup s))).
Proof.
  unfold applyInboundChatEdit. destruct (applyInboundMessageEdit None _ _ _) as [[e|]|]; try apply kept_refl.
  destruct (find_original _ _ _); [|apply kept_refl]. destruct (applyInboundMessageEdit (Some _) _ _ _) as [[e'|]|]; try apply kept_refl.
  unfold write_edit. destruct (applyMessagePatch _ _ _ s) as [s1|] eqn:Hp; cbn [res_bind snd]; [|apply kept_refl].
  rewrite patch_cache_rows, meta_rows. by eapply patched_kept.
Qed.

Lemma reaction_kept chat from payload s s' : applyInboundReaction chat from payload s = Ok s' -> kept (ch_rows s) (ch_rows s').
Proof.
  unfold applyInboundReaction. intros H. destruct (get payload "emoji") as [[| | |emoji| |]|]; try (injection H as <-; apply kept_refl).
  destruct (get payload "refMessageId") as [[| | |ref| |]|]; try (injection H as <-; apply kept_refl).
  destruct (_ || _); [injection H as <-; apply kept_refl|]. destruct (findMessageForReaction _ _ _); [|injection H as <-; apply kept_refl].
  by eapply patched_kept.
Qed.

Section Walk.
Context (R : device -> device -> Prop).
Context (R_refl : forall d, R d d).
Context (R_trans : forall d1 d2 d3, R d1 d2 -> R d2 d3 -> R d1 d3).
Context (R_same : forall d d', outbox d' = outbox d -> queue_log d' = queue_log d -> kept (ch_rows (shown d)) (ch_rows (shown d')) -> R d d').
Context (R_pairwise : forall peer packet k d, R d (send_pairwise peer packet k d)).
Context (R_queue : forall now peer packet o job d, R d (sendGroupPacket now peer packet o job d)).
Context (R_change : forall id now sent d, R d (persistGroupOutbox (change_entry id (attempted now sent) (outbox d)) d)).

Local Ltac same := apply R_same; [reflexivity|reflexivity|apply kept_refl].

Lemma walk_patch chat message p k d : R d (start_patch chat message p k d).
Proof. unfold start_patch. destruct (_ || _); [apply R_refl|]. apply R_same; [done|done|]. apply patch_kept. Qed.

Lemma walk_flush_next peer rest d : R d (flush_next peer rest d).
Proof. destruct rest; [apply R_refl|apply R_pairwise]. Qed.

Lemma walk_flushed now peer sent e rest d : R d (flushed now peer sent e rest d).
Proof.
  unfold flushed. destruct (negb sent); [apply walk_flush_next|].
  eapply R_trans; [apply R_change|]. case_bool_decide; [|apply walk_flush_next].
  destruct (List.find _ _); [apply walk_patch|apply walk_flush_next].
Qed.

Lemma walk_send_to now recipients packet o job : forall d, R d (send_to now recipients packet o job d).
Proof.
  induction recipients as [|peer rest IH]; intros d; [apply R_refl|].
  cbn. eapply R_trans; [apply R_queue|apply IH].
Qed.

Lemma walk_message now messageId groupId payload d : R d (snd (sendGroupChatMessage now messageId groupId payload d)).
Proof.
  unfold sendGroupChatMessage. destruct (find_group groupId d) as [g|]; [|apply R_refl].
  destruct (_ || _); [apply R_refl|]. destruct (negb _); [apply R_refl|]. cbn zeta.
  destruct (store_message _ _ _) as [[rows appended]|] eqn:Hs; [|same]. apply store_kept in Hs. cbn zeta.
  destruct (buildTargetedGroupRoute g (own d) false) as [|p ps]; cbn [snd].
  - eapply R_trans; [|apply walk_patch]. by apply R_same.
  - eapply R_trans; [|apply walk_send_to]. by apply R_same.
Qed.

Lemma walk_answered now job peer sent d : R d (answered now job peer sent d).
Proof.
  unfold answered. destruct (jobs d !! job) as [j|]; [|apply R_refl]. cbn zeta. destruct (Nat.eqb _ _); [|same].
  eapply R_trans; [|apply walk_patch]. same.
Qed.

Lemma walk_settle now s sent d : R d (settle now s sent d).
Proof.
  unfold settle. destruct (sd_after s) as [[id|] [job|]|e rest]; cbn zeta; try apply walk_flushed; try apply R_refl;
    try apply walk_answered; try apply R_change.
  eapply R_trans; [apply R_change|apply walk_answered].
Qed.

Lemma walk_fold {A} (f : device -> A -> device) (l : list A) : (forall d x, R d (f d x)) -> forall d, R d (fold_left f l d).
Proof. intros Hf. induction l as [|x l IH]; intros d; [apply R_refl|]. cbn. eapply R_trans; [apply Hf|apply IH]. Qed.

Lemma walk_control now groupId ev peers d : R d (send_controls now groupId ev peers d).
Proof. apply walk_fold. intros d' p. apply R_queue. Qed.

Lemma walk_replace now g d : R d (replaceGroup now g d).
Proof. unfold replaceGroup. destruct (normalizeGroup _ _); same. Qed.

Lemma walk_event now acceptId updateId ev from d : R d (handle_event now acceptId updateId ev from d).
Proof.
  unfold handle_event. destruct (_ || _); [apply R_refl|].
  destruct (prop (Some ev) "groupId") as [[| | |groupId| |]|]; try apply R_refl.
  destruct (prop (Some ev) "eventId") as [[| | |eventId| |]|]; try apply R_refl.
  destruct (includes _ _); [apply R_queue|]. cbn zeta.
  destruct (applyGroupEvent _ _ _ _) as [[|g dup shouldAccept shouldBroadcast]|]; try apply R_refl.
  match goal with |- context [if shouldAccept then ?a else ?b] => set (d1 := b); assert (H1 : R d d1) end.
  { eapply R_trans; [|apply R_queue]. eapply R_trans; [|apply walk_replace]. same. }
  match goal with |- context [if shouldAccept then ?a else d1] => set (d2 := if shouldAccept then a else d1) end.
  assert (H2 : R d d2).
  { subst d2. destruct shouldAccept; [|done]. destruct (createGroupAcceptEvent _ _ _ _); [|done].
    eapply R_trans; [exact H1|apply R_queue]. }
  clearbody d2. destruct (find_group groupId d); [|done]. destruct (_ && _); [|done].
  destruct (createGroupUpdateEvent _ _ _ _ _ _ _); [|done]. eapply R_trans; [exact H2|apply walk_control].
Qed.

Lemma walk_handle_message now frame from d : R d (handle_message now frame from d).
Proof.
  unfold handle_message. destruct (find_group _ d) as [g|]; [|apply R_refl].
  destruct (validateIncomingGroupMessage _ _ _ _); [apply R_refl|]. cbn zeta.
  destruct (has_kind _ [MESSAGE_EDIT_KIND]). { apply R_same; [done|done|]. apply edit_kept. }
  destruct (has_kind _ ["reaction"]). { destruct (applyInboundReaction _ _ _ _) as [s|] eqn:Hs; [|same]. apply R_same; [done|done|]. exact (reaction_kept _ _ _ _ _ Hs). }
  destruct (checked_content _) as [m|]; [|apply R_refl]. destruct (negb _); [apply R_refl|].
  destruct (get m "messageId") as [[| | |id| |]|]; try apply R_refl.
  cbn zeta. destruct (store_message _ _ _) as [[rows []]|] eqn:Hs; try apply R_queue.
  eapply R_trans; [apply R_queue|]. apply R_same; [done|done|]. exact (store_kept _ _ _ _ _ Hs).
Qed.

Lemma walk_invites now g inviteId peers : forall d, R d (snd (send_invites now g inviteId peers d)).
Proof.
  induction peers as [|p ps IH]; intros d; [apply R_refl|]. cbn. destruct (createGroupInviteEvent _ _ _ _ _ _); [|apply R_refl].
  eapply R_trans; [apply R_queue|apply IH].
Qed.

Lemma walk_create now groupId inviteId contacts name image ids d : R d (snd (createGroupChat now groupId inviteId contacts name image ids d)).
Proof.
  unfold createGroupChat. case_bool_decide; [apply R_refl|]. cbn zeta. destruct (createGroup _ _ _ _ _ _ _); [|apply R_refl].
  eapply R_trans; [apply walk_replace|apply walk_invites].
Qed.

Lemma walk_update now groupId updateId inviteId contacts p d : R d (snd (updateGroupChat now groupId updateId inviteId contacts p d)).
Proof.
  unfold updateGroupChat. destruct (find_group groupId d) as [g|]; [|apply R_refl]. destruct (negb _); [apply R_refl|].
  destruct (normalizeGroup _ _) as [g'|]; [|apply R_refl]. cbn zeta. destruct (createGroupUpdateEvent _ _ _ _ _ _ _); [|apply R_refl].
  eapply R_trans; [|apply walk_invites]. eapply R_trans; [|apply walk_control]. apply walk_replace.
Qed.

Lemma walk_leave now groupId eventId d : R d (snd (leaveGroupChat now groupId eventId d)).
Proof.
  unfold leaveGroupChat. destruct (find_group groupId d) as [g|]; [|apply R_refl]. destruct (negb _); [apply R_refl|].
  destruct (createGroupLeaveEvent _ _ _ _); [|apply R_refl]. destruct (next_revision _ _ _ _) as [g'|]; [|apply R_refl]. cbn zeta.
  pose proof (walk_replace now g' d) as Hr. destruct (isGroupAdmin _ _).
  - destruct (createGroupUpdateEvent _ _ _ _ _ _ _); cbn [snd]; [|done]. eapply R_trans; [exact Hr|apply walk_control].
  - eapply R_trans; [exact Hr|apply walk_control].
Qed.

Lemma walk_reaction now groupId messageId reaction d : R d (send_reaction now groupId messageId reaction d).
Proof.
  unfold send_reaction. destruct (find_group groupId d); [|apply R_refl]. destruct (_ || _); [apply R_refl|]. cbn zeta.
  apply walk_fold. intros d' p. apply R_queue.
Qed.

Lemma walk_toggle groupId message emoji d : R d (toggleMessageReaction groupId message emoji d).
Proof.
  unfold toggleMessageReaction. destruct (get message "messageId") as [[| | |id| |]|]; try apply R_refl.
  destruct (_ || _); [apply R_refl|apply walk_patch].
Qed.

(** Events that may take something out of the outbox or the store. *)
Definition removes (ev : event) (d : device) : bool :=
  match ev with
  | DeleteGroup _ _ | DeleteMessage _ _ | DeleteChat _ => true
  | Frame _ _ frame _ enc => enc && is_str (prop (Some frame) "kind") GROUP_RECEIPT_KIND
  | Written k => match patches d !! k with Some p => match pt_then p with ThenAcknowledge _ _ => true | _ => false end | None => false end
  | _ => false
  end.

Lemma walk_preview chat m d : R d (d <| shown := shown d <| ch_last := <[chat := m]> (ch_last (shown d)) |> |>).
Proof. same. Qed.

Lemma walk_shown p d : R d (d <| shown := patch_cache (pt_chat p) (pt_message p) (pt_patch p) (shown d) |>).
Proof. apply R_same; [done|done|]. change (kept (ch_rows (shown d)) (ch_rows (patch_cache (pt_chat p) (pt_message p) (pt_patch p) (shown d)))). rewrite patch_cache_rows. apply kept_refl. Qed.

Theorem walk_step now ev d : removes ev d = false -> R d (step now ev d).
Proof.
  intros Hr. destruct ev as [m g p|g m e|g i c n im ids|g u i c p|g e|peer|g e|c i|c|k b|k|a u frame from enc]; cbn [step removes] in *;
    try (first [apply walk_message|apply walk_toggle|apply walk_create|apply walk_update|apply walk_leave]; fail).
  - unfold flushGroupOutbox. case_bool_decide; [apply R_refl|apply walk_flush_next].
  - done.
  - done.
  - done.
  - destruct (sends d !! k) as [s|]; [|apply R_refl]. eapply R_trans; [|apply walk_settle]. same.
  - destruct (patches d !! k) as [p|]; [|apply R_refl]. unfold written.
    apply (R_trans _ (d <| patches := delete k (patches d) |>)); [same|]. eapply R_trans; [apply (walk_shown p)|].
    destruct (pt_then p) as [m|peer ref|peer rest|reaction]; [apply walk_preview|done|apply walk_flush_next|apply walk_reaction].
  - unfold handleGroupProtocolFrame. destruct enc; cbn [negb andb] in *; [|apply R_refl].
    destruct (is_str _ GROUP_EVENT_KIND); [apply walk_event|]. rewrite Hr.
    destruct (is_str _ GROUP_MESSAGE_KIND); [apply walk_handle_message|apply R_refl].
Qed.

End Walk.

(** ** What leaves the outbox *)

(** What takes the packet [x] out of the outbox of [d]: the deletion of its group, a receipt
    of its recipient for the event, or the end of what a receipt for the message began. *)
Definition released (ev : event) (d : device) (x : entry) : Prop :=
  match ev with
  | DeleteGroup groupId _ => e_groupId x = groupId
  | Frame _ _ frame from true =>
      is_str (prop (Some frame) "kind") GROUP_RECEIPT_KIND = true
      /\ prop (Some frame) "refEventId" = Some (JStr (e_packetId x)) /\ e_peer x = from
  | Written k => exists p peer ref, patches d !! k = Some p /\ pt_then p = ThenAcknowledge peer ref /\ acknowledged_message peer ref x = true
  | _ => False
  end.

(** Everything but [gone] stays. *)
Lemma drop_keeps gone d x : x ∈ outbox d -> gone x = false -> lasts [] d (drop_entries gone d) x.
Proof.
  intros Hx Hg. unfold drop_entries. set (l := List.filter _ _). unfold lasts. change (outbox (persistGroupOutbox l d)) with (last_entries l).
  destruct (Nat.le_gt_cases (length (outbox d)) OUTBOX_LIMIT) as [Hs|Hs]; [left|right; right; unfold overflow; lia].
  pose proof (filter_length_le (fun e => negb (gone e)) (outbox d)) as Hle. rewrite last_entries_all by (subst l; lia).
  apply holds_self, list_elem_of_In, filter_In. split; [by apply list_elem_of_In|]. by rewrite Hg.
Qed.

Lemma sized_drop gone d : sized [] d (drop_entries gone d).
Proof. apply sized_persist, filter_length_le. Qed.

(** Leaving the group first puts the notice in the outbox. *)
Definition leaving (now : Z) (groupId eventId : string) (d : device) : device :=
  match find_group groupId d with
  | Some g => if isActiveGroupMember g (own d) then snd (leaveGroupChat now groupId eventId d) else d
  | None => d
  end.

Lemma grown_step now ev d : removes ev d = false -> grown d (step now ev d).
Proof.
  apply walk_step; intros; [apply grown_refl|by eapply grown_trans|by apply grown_same|apply grown_pairwise|apply grown_queue|apply grown_change].
Qed.

Lemma grown_leaving now groupId eventId d : grown d (leaving now groupId eventId d).
Proof.
  unfold leaving. destruct (find_group groupId d); [|apply grown_refl]. destruct (isActiveGroupMember _ _); [|apply grown_refl].
  exact (grown_step now (LeaveGroup groupId eventId) d eq_refl).
Qed.

(** The entries of a deleted group go, and with them nothing else. *)
Lemma delete_outbox now groupId eventId d : isGroupChatId (Some (JStr groupId)) = true ->
  let d' := deleteGroupChat now groupId eventId d in let d1 := drop_entries (fun e => bool_decide (e_groupId e = groupId)) (leaving now groupId eventId d) in
  outbox d' = outbox d1 /\ queue_log d' = queue_log d1.
Proof. intros Hg. unfold deleteGroupChat. by rewrite Hg. Qed.

Lemma receipt_frame now a u frame from d : is_str (prop (Some frame) "kind") GROUP_RECEIPT_KIND = true ->
  handleGroupProtocolFrame now a u frame from true d = handle_receipt now frame from d.
Proof.
  unfold handleGroupProtocolFrame. cbn [negb]. intros Hk. rewrite Hk. unfold is_str in *. apply bool_decide_eq_true in Hk. rewrite Hk.
  by rewrite bool_decide_eq_false_2.
Qed.

(** The effects of an event on the outbox, [x] apart that it releases. *)
Definition keeps (free : entry -> Prop) (d d' : device) : Prop := exists n, sized n d d' /\ forall x, x ∈ outbox d -> free x \/ lasts n d d' x.

Lemma keeps_grown free d d' : grown d d' -> keeps free d d'.
Proof. intros (n & Hn & H). exists n. split; [done|]. intros x Hx. right. by apply H. Qed.

Lemma keeps_drop (gone : entry -> bool) (free : entry -> Prop) d : (forall x, gone x = true -> free x) -> keeps free d (drop_entries gone d).
Proof.
  intros Hf. exists []. split; [apply sized_drop|]. intros x Hx. destruct (gone x) eqn:Hg; [left; by apply Hf|right; by apply drop_keeps].
Qed.

Lemma keeps_from free d0 d d' : outbox d0 = outbox d -> queue_log d0 = queue_log d -> keeps free d0 d' -> keeps free d d'.
Proof. intros Ho Hq (n & Hs & H). exists n. unfold sized, lasts, overflow in *. by rewrite <- Ho, <- Hq. Qed.

Lemma receipt_keeps now a u frame from d : is_str (prop (Some frame) "kind") GROUP_RECEIPT_KIND = true ->
  keeps (released (Frame a u frame from true) d) d (handle_receipt now frame from d).
Proof.
  intros Hk. assert (Hr : keeps (released (Frame a u frame from true) d) d d) by apply keeps_grown, grown_refl. unfold handle_receipt.
  destruct (find_group _ d) as [g|]; [|done]. cbn zeta. destruct (negb _); [done|].
  destruct (truthy (prop (Some frame) "refEventId")).
  - assert (Hn : keeps (released (Frame a u frame from true) d) d (persistGroupOutbox (outbox d) d)).
    { rewrite <- (filter_true (outbox d)) at 1. by apply (keeps_drop (fun _ => false)). }
    destruct (prop (Some frame) "refEventId") as [[| | |ref| |]|] eqn:Href; try exact Hn.
    apply keeps_drop. intros x [H1%bool_decide_eq_true H2%bool_decide_eq_true]%andb_true_iff. cbn [released]. split; [done|]. by subst.
  - destruct (prop (Some frame) "refMessageId") as [[| | |ref| |]|]; try done.
    destruct (List.find _ _); [|done]. destruct (_ || _); [done|]. apply keeps_grown.
    unfold start_patch. destruct (_ || _); [apply grown_refl|by apply grown_same].
Qed.

Lemma step_keeps now ev d : keeps (released ev d) d (step now ev d).
Proof.
  destruct (removes ev d) eqn:Hr; [|by apply keeps_grown, grown_step].
  destruct ev as [m g p|g m e|g i c n im ids|g u i c p|g e|peer|g e|c i|c|k b|k|a u frame from enc]; cbn [step removes] in *; try done.
  - destruct (isGroupChatId (Some (JStr g))) eqn:Hg; [|apply keeps_grown; unfold deleteGroupChat; rewrite Hg; apply grown_refl].
    destruct (delete_outbox now g e d Hg) as [Ho Hq]. destruct (grown_leaving now g e d) as (n & Hn & Hk). set (d1 := leaving now g e d) in *. exists n.
    pose proof (sized_drop (fun x => bool_decide (e_groupId x = g)) d1) as Hs. set (d2 := drop_entries _ d1) in *. cbn [released].
    pose proof (sized_trans _ _ _ _ _ Hn Hs) as H12. rewrite app_nil_r in H12. unfold sized, lasts in *. rewrite Ho, Hq. split; [done|].
    intros x Hx. destruct (Hk x Hx) as [(y & Hy & Hc)|H]; [|by right; right]. destruct (decide (e_groupId x = g)) as [Hxg|Hxg]; [by left|right].
    assert (Hyg : e_groupId y <> g) by (unfold content in Hc; congruence).
    destruct (drop_keeps (fun x => bool_decide (e_groupId x = g)) d1 y Hy) as [(z & Hz & Hcz)|[(z & Hz & _)|H]]; [by apply bool_decide_eq_false_2| | |].
    + left. exists z. split; [done|congruence].
    + by apply elem_of_nil in Hz.
    + right; right. destruct Hn as (_ & Hlen & _). unfold overflow in *. cbn [length] in H. lia.
  - by apply keeps_grown, grown_same.
  - by apply keeps_grown, grown_same.
  - destruct (patches d !! k) as [p|] eqn:Hk; [|done]. unfold written. destruct (pt_then p) as [|peer ref| |] eqn:Ht; try done.
    eapply keeps_from; [| |apply (keeps_drop (acknowledged_message peer ref))]; [done|done|]. intros x Hx. by exists p, peer, ref.
  - destruct enc; [|done]. cbn [andb] in Hr. rewrite (receipt_frame _ _ _ _ _ _ Hr). by apply receipt_keeps.
Qed.

(** ** Runs *)

Definition run (l : list (Z * event)) (d : device) : device := fold_left (fun d e => step e.1 e.2 d) l d.

Lemma run_small l : forall d, (length (outbox d) <= OUTBOX_LIMIT)%nat -> (length (outbox (run l d)) <= OUTBOX_LIMIT)%nat.
Proof.
  induction l as [|[now ev] l IH]; intros d H; [done|]. apply IH. destruct (step_keeps now ev d) as (n & (_ & _ & Hs) & _). auto.
Qed.

Lemma released_content ev d x y : content y = content x -> released ev d y -> released ev d x.
Proof.
  unfold content. intros [= ? Ht Hp Hm Hg Hpe ? ?]. destruct ev as [m g p|g m e|g i c n im ids|g u i c p|g e|peer|g e|c i|c|k b|k|a u frame from []]; cbn [released]; try done.
  - congruence.
  - unfold acknowledged_message. by rewrite Ht, Hpe, Hm.
  - by rewrite Hp, Hpe.
Qed.

(** The event [ev] ends the wait of the packet [x]: its recipient or the deletion of its group
    releases it, an entry of the same id takes its place, or so many entries are
    queued in the one event that the outbox cannot hold them all. *)
Definition ends_wait (now : Z) (ev : event) (d : device) (x : entry) : Prop :=
  released ev d x \/ exists n, queue_log (step now ev d) = queue_log d ++ n /\ (replaced n x \/ overflow n d).

(** C26: A packet that waits for its recipient is not forgotten: whatever the device sends,
    receives, patches, flushes or deletes in between and in whatever order its waits end, the
    packet is still in the outbox, the same in everything but its attempts, unless at one
    event of the run, before which it was there, its group was deleted, its recipient
    acknowledged it, an entry with its id was queued, or the entries queued at that event and
    those before were more than 1000; and the outbox never holds more than 1000. *)
Theorem packet_kept l d x : (length (outbox d) <= OUTBOX_LIMIT)%nat -> x ∈ outbox d ->
  (length (outbox (run l d)) <= OUTBOX_LIMIT)%nat
  /\ (holds x (outbox (run l d))
      \/ exists l1 now ev l2, l = l1 ++ (now, ev) :: l2 /\ holds x (outbox (run l1 d)) /\ ends_wait now ev (run l1 d) x).
Proof.
  intros Hd Hx. split; [by apply run_small|]. clear Hd. apply holds_self in Hx. revert d Hx.
  induction l as [|[now ev] l IH]; intros d Hx; [by left|]. destruct Hx as (y & Hy & Hc). destruct (step_keeps now ev d) as (n & (Hn & _) & H).
  destruct (H y Hy) as [Hrel|[(z & Hz & Hcz)|Hlost]].
  - right. exists [], now, ev, l. split; [done|]. split; [by exists y|]. left. by eapply released_content.
  - destruct (IH (step now ev d)) as [H'|(l1 & t & e & l2 & -> & H')]; [exists z; split; [done|congruence]|by left|].
    right. by exists ((now, ev) :: l1), t, e, l2.
  - right. exists [], now, ev, l. split; [done|]. split; [by exists y|]. right. exists n. split; [done|].
    destruct Hlost as [(w & Hw & Hi)|Ho]; [left|by right]. exists w. split; [done|]. rewrite Hi. by apply content_id.
Qed.

(** ** Trying again *)

Definition pending_for (peer : string) (d : device) : list entry := List.filter (fun e => bool_decide (e_peer e = peer)) (outbox d).

(** The answers to packets in a run. *)
Definition answer_of (e : Z * event) : option bool := match e.2 with Answered _ b => Some b | _ => None end.

(** The store accepts the ids of a packet, or does not know its message. *)
Definition patchable (e : entry) : Prop := e_type e = "message" -> valid_id (e_groupId e) = true /\ valid_id (e_messageId e) = true.

(** The rest of a turn of the loop hands nothing over and then the loop goes on. *)
Lemma turn now peer b e rest d : patchable e ->
  exists l d', omap answer_of l = [] /\ run l (flushed now peer b e rest d) = flush_next peer rest d' /\ wire d' = wire d.
Proof.
  intros He. unfold flushed. destruct b; cbn [negb]; [|by exists [], d]. cbn zeta. set (d1 := persistGroupOutbox _ d).
  case_bool_decide as Ht; [|by exists [], d1]. destruct (List.find _ _) as [m|]; [|by exists [], d1].
  destruct (He Ht) as [Hg Hm]. unfold start_patch. rewrite Hg, Hm. cbn [negb orb].
  eexists [(now, Written (next d1))], _. split; [done|]. cbn [run fold_left fst snd step]. change (patches (?r <| next := ?n |>)) with (patches r).
  cbn [patches]. change (patches (?r <| patches := ?n |>)) with n. rewrite lookup_insert_eq. unfold written. cbn [pt_then]. split; [done|].
  unfold patch_cache. by destruct (ch_cache _ !! _).
Qed.

Lemma run_app l1 l2 d : run (l1 ++ l2) d = run l2 (run l1 d).
Proof. apply fold_left_app. Qed.

Lemma answered_turn (now : Z) peer b packet e rest k d : patchable e -> sends d !! k = Some (mk_send peer packet (AfterFlush e rest)) ->
  exists l d', omap answer_of l = [b] /\ run l d = flush_next peer rest d' /\ wire d' = wire d.
Proof.
  intros He Hk. destruct (turn now peer b e rest (d <| sends := delete k (sends d) |>) He) as (l & d' & Ha & Hr & Hw).
  exists ((now, Answered k b) :: l), d'. split; [exact (f_equal (cons b) Ha)|]. split; [|done].
  change (run ((now, Answered k b) :: l) d) with (run l (step now (Answered k b) d)). cbn [step]. rewrite Hk. exact Hr.
Qed.

Lemma loop (now : Z) (peer : string) : forall rest e packet bs k d, length bs = S (length rest) -> Forall patchable (e :: rest) ->
  sends d !! k = Some (mk_send peer packet (AfterFlush e rest)) ->
  exists l, omap answer_of l = bs /\ wire (run l d) = wire d ++ map (fun x => (peer, e_packet x)) rest.
Proof.
  induction rest as [|e' rest IH]; intros e packet bs k d Hl Hp Hk; destruct bs as [|b bs]; try done; injection Hl as Hl;
    apply Forall_cons in Hp as [He Hp]; destruct (answered_turn now peer b packet e _ k d He Hk) as (l1 & d' & Ha & Hr & Hw).
  - apply length_zero_iff_nil in Hl as ->. exists l1. split; [done|]. rewrite Hr. cbn. by rewrite Hw, app_nil_r.
  - destruct (IH e' (e_packet e') bs (next d') (flush_next peer (e' :: rest) d') Hl Hp) as (l2 & Ha2 & Hw2); [apply lookup_insert_eq|].
    exists (l1 ++ l2). rewrite run_app, Hr. split; [by rewrite omap_app, Ha, Ha2|].
    rewrite Hw2. change (wire (flush_next peer (e' :: rest) d')) with (wire d' ++ [(peer, e_packet e')]). rewrite Hw. by rewrite <- app_assoc.
Qed.

(** When a member is back everything that waits for it is handed over again, in the order
    of the outbox and each packet once, whatever the answers to the packets before are. *)
Theorem flush_hands_over now peer d bs : peer <> "" -> Forall patchable (pending_for peer d) -> length bs = length (pending_for peer d) ->
  exists l, omap answer_of l = bs /\ wire (run ((now, Flush peer) :: l) d) = wire d ++ map (fun e => (peer, e_packet e)) (pending_for peer d).
Proof.
  intros Hp Hf Hl. assert (Hs : forall l, run ((now, Flush peer) :: l) d = run l (flush_next peer (pending_for peer d) d)).
  { intros l. cbn [run fold_left fst snd step]. unfold flushGroupOutbox. by rewrite bool_decide_eq_false_2. }
  destruct (pending_for peer d) as [|e rest].
  - apply length_zero_iff_nil in Hl as ->. exists []. split; [done|]. rewrite Hs. cbn. by rewrite app_nil_r.
  - destruct (loop now peer rest e (e_packet e) bs (next d) (flush_next peer (e :: rest) d) Hl Hf) as (l & Ha & Hw); [apply lookup_insert_eq|].
    exists l. split; [done|]. rewrite Hs, Hw. change (wire (flush_next peer (e :: rest) d)) with (wire d ++ [(peer, e_packet e)]). by rewrite <- app_assoc.
Qed.

(** ** Changes of a group are told to everybody they concern *)

Lemma queue_wire now peer packet o job d : wire (sendGroupPacket now peer packet o job d) = wire d ++ [(peer, packet)]
  /\ own (sendGroupPacket now peer packet o job d) = own d.
Proof. unfold sendGroupPacket. by destruct (_ && _). Qed.

Lemma controls_wire now groupId ev peers : forall d, wire (send_controls now groupId ev peers d) = wire d ++ map (fun p => (p, ev)) peers
  /\ own (send_controls now groupId ev peers d) = own d.
Proof.
  unfold send_controls. induction peers as [|p ps IH]; intros d; cbn [fold_left map]; [by rewrite app_nil_r|].
  destruct (IH (send_control now groupId ev p d)) as [-> ->].
  destruct (queue_wire now p ev (control_options groupId (string_or_empty (prop (Some ev) "eventId"))) None d) as [Hw Ho].
  split; [|exact Ho]. unfold send_control. rewrite Hw. by rewrite <- app_assoc.
Qed.

(** The invitation of a member. *)
Definition invitation (now : Z) (g : group) (inviteId : string -> string) (self peer : string) : json :=
  match createGroupInviteEvent now g (inviteId peer) self peer now with Ok invite => invite | Err _ => JNull end.

Lemma invites_wire now g inviteId peers : forall d d', send_invites now g inviteId peers d = (None, d') ->
  wire d' = wire d ++ map (fun p => (p, invitation now g inviteId (own d) p)) peers
  /\ Forall (fun p => createGroupInviteEvent now g (inviteId p) (own d) p now = Ok (invitation now g inviteId (own d) p)) peers.
Proof.
  induction peers as [|p ps IH]; intros d d' H; cbn [send_invites map] in *; [injection H as <-; by rewrite app_nil_r|].
  destruct (createGroupInviteEvent now g (inviteId p) (own d) p now) as [invite|] eqn:He; [|done].
  destruct (queue_wire now p invite (control_options (g_id g) (string_or_empty (prop (Some invite) "eventId"))) None d) as [Hw Ho].
  destruct (IH _ _ H) as [Hr Hf]. unfold send_control in Hr, Hf. rewrite Ho in Hr, Hf. rewrite Hw in Hr.
  assert (Hi : invitation now g inviteId (own d) p = invite) by (unfold invitation; by rewrite He).
  split; [rewrite Hr, Hi; by rewrite <- app_assoc|]. constructor; [by rewrite Hi|done].
Qed.

Lemma replace_frame now g d : wire (replaceGroup now g d) = wire d /\ own (replaceGroup now g d) = own d.
Proof. unfold replaceGroup. by destruct (normalizeGroup _ _). Qed.

(** Whom a change concerns: everybody in the group and everybody it removes, without oneself,
    and whom it brings in. *)
Definition concerned (contacts : list fields) (g : group) (self : string) (p : group_patch) (peer : string) : Prop :=
  peer ∈ new_ids contacts g p
  \/ (peer <> self /\ exists m, m ∈ g_members g /\ gm_peer m = peer /\ (in_group m = true \/ peer ∈ p_removeMemberIds p)).

Lemma getGroupMember_some g q : is_Some (getGroupMember g q) <-> exists m, m ∈ g_members g /\ gm_peer m = q.
Proof.
  split.
  - intros [m Hm]. apply getGroupMember_Some in Hm. eauto.
  - intros (m & Hm & Hq). unfold getGroupMember. destruct (List.find _ _) as [m'|] eqn:Hf; [by eexists|].
    apply list_elem_of_In in Hm. pose proof (find_none _ _ Hf m Hm) as H. by apply bool_decide_eq_false in H.
Qed.

Lemma elem_of_bool_filter {A} (f : A -> bool) l x : x ∈ List.filter f l <-> x ∈ l /\ f x = true.
Proof. by rewrite !list_elem_of_In, filter_In. Qed.

Lemma told_spec contacts g self p q : q <> "" -> q ∈ told_ids contacts g self p ++ new_ids contacts g p <-> concerned contacts g self p q.
Proof.
  intros Hne. unfold concerned. rewrite elem_of_app. unfold told_ids. rewrite elem_of_bool_filter.
  rewrite (proj2 (unique_list_spec _ _)), elem_of_app. change (groupPeerIds g true self) with (buildTargetedGroupRoute g self true). rewrite route_spec.
  unfold remove_ids. rewrite (proj2 (unique_list_spec _ _)), elem_of_bool_filter. unfold without_empty. rewrite elem_of_bool_filter.
  rewrite andb_true_iff, !negb_true_iff, !bool_decide_eq_false, bool_decide_eq_true, getGroupMember_some.
  rewrite <- not_true_iff_false, includes_spec. pose proof (not_elem_of_nil q) as Hnil.
  unfold in_group. setoid_rewrite orb_true_iff. setoid_rewrite bool_decide_eq_true.
  destruct (decide (q ∈ new_ids contacts g p)); naive_solver.
Qed.

Lemma told_once contacts g self p : NoDup (told_ids contacts g self p ++ new_ids contacts g p).
Proof.
  assert (Hadd : NoDup (add_ids p)) by apply unique_list_spec. unfold new_ids, added_ids, readded_ids. apply NoDup_app. split_and!.
  - apply NoDup_ListNoDup, List.NoDup_filter, NoDup_ListNoDup, unique_list_spec.
  - intros q Hq. unfold told_ids in Hq. apply elem_of_bool_filter in Hq as [_ Hq]. apply negb_true_iff in Hq.
    apply not_true_iff_false in Hq. intros Hin. by apply Hq, includes_spec.
  - apply NoDup_app. split_and!.
    + apply NoDup_ListNoDup. do 2 apply List.NoDup_filter. by apply NoDup_ListNoDup.
    + intros q Hq Hr. apply elem_of_bool_filter in Hq as [Hq _]. apply elem_of_bool_filter in Hq as [_ Hq]. apply elem_of_bool_filter in Hr as [_ Hr].
      destruct (getGroupMember g q) as [m|] eqn:Hm; [|done]. apply getGroupMember_Some in Hm as [Hm <-]. apply negb_true_iff in Hq.
      assert (Hin : gm_peer m ∈ map gm_peer (g_members g)) by by apply list_elem_of_In, in_map, list_elem_of_In.
      by rewrite (proj2 (includes_spec _ _) Hin) in Hq.
    + apply NoDup_ListNoDup, List.NoDup_filter. by apply NoDup_ListNoDup.
Qed.

Lemma admin_not_new contacts g self p : isGroupAdmin g self = true -> self ∉ new_ids contacts g p.
Proof.
  intros Ha Hin. unfold isGroupAdmin in Ha. destruct (getGroupMember g self) as [m|] eqn:Hm; [|done].
  apply andb_true_iff in Ha as [Ha _]. apply bool_decide_eq_true in Ha. unfold new_ids, added_ids, readded_ids in Hin.
  apply elem_of_app in Hin as [Hin|Hin].
  - do 2 apply elem_of_bool_filter in Hin as [Hin ?]. apply getGroupMember_Some in Hm as [Hm <-].
    assert (Hi : gm_peer m ∈ map gm_peer (g_members g)) by by apply list_elem_of_In, in_map, list_elem_of_In.
    by rewrite (proj2 (includes_spec _ _) Hi) in *.
  - apply elem_of_bool_filter in Hin as [_ Hin]. rewrite Hm, Ha in Hin. done.
Qed.

(** When an administrator changes a group, everybody it concerns gets one packet, and nobody
    else: the new state of the group, or an invitation for who comes in. *)
Theorem members_told now groupId updateId inviteId contacts p d g d' : own d <> "" -> find_group groupId d = Some g ->
  updateGroupChat now groupId updateId inviteId contacts p d = (None, d') ->
  exists next update, normalizeGroup now (Some (updated_group now contacts g (own d) p)) = Ok next
    /\ (exists reason, createGroupUpdateEvent now g (Some (group_json next)) updateId (own d) reason now = Ok update)
    /\ wire d' = wire d ++ map (fun q => (q, update)) (told_ids contacts g (own d) p)
                        ++ map (fun q => (q, invitation now next inviteId (own d) q)) (new_ids contacts g p)
    /\ NoDup (told_ids contacts g (own d) p ++ new_ids contacts g p)
    /\ (forall q, q <> "" -> q ∈ told_ids contacts g (own d) p ++ new_ids contacts g p <-> concerned contacts g (own d) p q)
    /\ ~ concerned contacts g (own d) p (own d).
Proof.
  intros Ho Hg H. unfold updateGroupChat in H. rewrite Hg in H. destruct (isGroupAdmin g (own d)) eqn:Ha; [|done]. cbn [negb] in H.
  destruct (normalizeGroup now _) as [next|] eqn:Hn; [|done]. cbn zeta in H. exists next.
  destruct (createGroupUpdateEvent _ _ _ _ _ _ _) as [update|] eqn:Hu; [|done]. exists update.
  destruct (replace_frame now next d) as [Hw0 Ho0]. destruct (controls_wire now (g_id next) update (told_ids contacts g (own d) p) (replaceGroup now next d)) as [Hw1 Ho1].
  destruct (invites_wire _ _ _ _ _ _ H) as [Hw2 _]. rewrite Ho0, Ho1, Ho0, Hw1, Hw0 in Hw2.
  split; [done|]. split; [by eexists|]. split; [by rewrite Hw2, <- app_assoc|]. split; [apply told_once|].
  split; [intros q Hq; by apply told_spec|]. intros [Hin|[Hne _]]; [by apply (admin_not_new contacts g (own d) p)|done].
Qed.

(** ** A witness *)

Definition pair_group : group :=
  mk_group "group:abcdefgh" 1 "Two" "" 10 "alice" 10
    [mk_group_member "alice" "Alice" admin active 10 (Some 10) None; mk_group_member "bob" "Bob" plain_member active 10 (Some 10) None].

Definition sender : device :=
  run [(15, SendMessage "m1" "group:abcdefgh" [("content", JStr "hello")])] (mk_device "alice" "Alice" [pair_group] [] [] (mk_chats ∅ [] ∅) ∅ ∅ ∅ 0 [] []).

Definition tries : list (Z * event) := [(16, Answered 1 false); (17, Written 2); (30, Flush "bob"); (31, Answered 3 false)].

Definition waiting_packet : entry := default (new_entry 0 "" JNull (mk_options "" "" "" "" true)) (head (outbox sender)).

Lemma sender_waits : waiting_packet ∈ outbox sender.
Proof.
  assert (H : outbox sender = [waiting_packet]) by by vm_compute. rewrite H. by apply list_elem_of_singleton.
Qed.

Lemma sender_small : (length (outbox sender) <= OUTBOX_LIMIT)%nat.
Proof. apply Nat.leb_le. by vm_compute. Qed.

(** Nothing in [tries] releases, replaces or pushes out. *)
Lemma tries_end_nothing l1 now ev l2 : tries = l1 ++ (now, ev) :: l2 -> ~ ends_wait now ev (run l1 sender) waiting_packet.
Proof.
  intros Hs [Hr|(n & Hq & Hn)].
  - destruct l1 as [|e1 [|e2 [|e3 [|e4 l1]]]]; injection Hs as; subst; try done; [|by destruct l1].
    destruct Hr as (p & peer & ref & Hp & Ht & _).
    assert (Hh : option_map pt_then (patches (run [(16, Answered 1 false)] sender) !! 2%nat) = Some (ThenPreview (default [] (head (cached (shown sender) "group:abcdefgh")))))
      by by vm_compute.
    rewrite Hp in Hh. cbn [option_map] in Hh. by rewrite Ht in Hh.
  - assert (Hlog : queue_log (step now ev (run l1 sender)) = queue_log (run l1 sender) /\ length (outbox (run l1 sender)) = 1%nat).
    { destruct l1 as [|e1 [|e2 [|e3 [|e4 l1]]]]; injection Hs as; subst; first [by destruct l1|by split; vm_compute]. }
    destruct Hlog as [Hl Hlen]. rewrite Hl in Hq. rewrite <- (app_nil_r (queue_log _)) in Hq at 1. apply app_inv_head in Hq as <-.
    destruct Hn as [(y & Hy & _)|Ho]; [by apply elem_of_nil in Hy|]. unfold overflow in Ho. rewrite Hlen in Ho. cbn [length] in Ho.
    apply Nat.lt_nge in Ho. apply Ho. apply Nat.leb_le. by vm_compute.
Qed.

Lemma packet_kept_witness : waiting_packet ∈ outbox sender /\ holds waiting_packet (outbox (run tries sender)).
Proof.
  split; [exact sender_waits|].
  destruct (packet_kept tries sender waiting_packet sender_small sender_waits) as [_ [H|(l1 & now & ev & l2 & Hs & _ & He)]];
    [exact H|by destruct (tries_end_nothing _ _ _ _ Hs)].
Defined.
