(* ===== verification/GroupReceipts.v ===== *)
(** * Receipts in groups: theorems

    What a receipt does to the message it names ([receipt_settles_delivery]), that a message
    which arrives again is acknowledged again and shown once ([message_shown_once]), and what
    is lost. *)

From S2P Require Import Prelude Json Sync GroupChat GroupChatFacts ChatFeatures ChatEdits ChatEditsFacts Stickers GroupDelivery GroupDeliveryFacts.

(** ** A receipt for a message *)

(** [frame] says that [from] has [status] for the message [ref] of the chat. *)
Record acknowledges (frame : json) (from chat ref status : string) : Prop := mk_acknowledges {
  a_kind : is_str (prop (Some frame) "kind") GROUP_RECEIPT_KIND = true;
  a_group : prop (Some frame) "groupId" = Some (JStr chat);
  a_sender : is_str (prop (Some frame) "senderPeerId") from = true;
  a_event : truthy (prop (Some frame) "refEventId") = false;
  a_message : prop (Some frame) "refMessageId" = Some (JStr ref);
  a_status : status = if is_str (prop (Some frame) "status") "seen" then "seen" else "delivered"
}.

(** The message [ref] that the device has sent to [from] among others. *)
Record sent_message (d : device) (chat ref from : string) (m : fields) : Prop := mk_sent_message {
  sm_group : exists g, find_group chat d = Some g;
  sm_found : List.find (fun m => has_id ref m && from_self m) (cached (shown d) chat) = Some m;
  sm_recipient : from ∈ recipients_in m;
  sm_chat : valid_id chat = true;
  sm_ref : valid_id ref = true
}.

Lemma find_group_id id d g : find_group id d = Some g -> g_id g = id.
Proof. intros H. apply List.find_some in H as [_ H]. by apply bool_decide_eq_true in H. Qed.

(** What the receipt leaves behind: the outbox is as it was and a patch is being written. *)
Lemma receipt_begins now frame from chat ref status d m : acknowledges frame from chat ref status -> sent_message d chat ref from m ->
  exists now', handle_receipt now frame from d =
    start_patch chat ref (delivery_patch (set (delivery_of m) from (status_at status now')) (recipients_in m)) (ThenAcknowledge from ref) d.
Proof.
  intros [Hk Hg Hs He Hm ->] [[g Hfg] Hf Hr Hc Hv]. exists (finite (prop (Some frame) "receivedAt") now). unfold handle_receipt.
  rewrite Hg. cbn [as_id]. rewrite Hfg. cbn zeta. rewrite Hs, He, Hm. cbn [negb]. rewrite (find_group_id _ _ _ Hfg), Hf.
  rewrite bool_decide_eq_false_2 by (by intros ->; apply valid_nonempty in Hv). apply includes_spec in Hr. by rewrite Hr.
Qed.

Lemma get_spread_other (m p : fields) k : k ∉ map fst p -> get (spread_patch m p) k = get m k.
Proof.
  unfold spread_patch. revert m. induction p as [|[i v] p IH]; intros m Hk; [done|]. cbn [map fst] in Hk. apply not_elem_of_cons in Hk as [H1 H2].
  cbn [fold_left fst snd]. rewrite IH by done. by rewrite get_set, decide_False by congruence.
Qed.

(** The three properties of a message that deliveries change. *)
Definition delivery_names : list string := ["groupDelivery"; "deliveryStatus"; "groupDeliverySummary"].

Lemma get_delivery m delivery recipients k : k ∉ delivery_names -> get (spread_patch m (delivery_patch delivery recipients)) k = get m k.
Proof.
  exact (get_spread_other m (delivery_patch delivery recipients) k).
Qed.

Lemma delivery_of_patch m delivery recipients : delivery_of (spread_patch m (delivery_patch delivery recipients)) = delivery.
Proof.
  unfold delivery_of, spread_patch, delivery_patch. cbn [fold_left fst snd]. rewrite !get_set. by repeat (case_decide; try done).
Qed.

Lemma find_patched ref m delivery recipients l : List.find (has_id ref) l = Some m ->
  List.find (has_id ref) (patch_first ref (delivery_patch delivery recipients) l) = Some (spread_patch m (delivery_patch delivery recipients)).
Proof.
  intros Hf. induction l as [|x l IH]; [done|]. cbn [List.find patch_first] in *. destruct (has_id ref x) eqn:Hx; cbn [List.find].
  - injection Hf as ->. unfold has_id. rewrite get_delivery by (by apply (bool_decide_unpack _)). unfold has_id in Hx. by rewrite Hx.
  - by rewrite Hx, IH.
Qed.

(** The wait for a written delivery ends. *)
Lemma delivery_written now k d chat ref delivery recipients peer m :
  patches d !! k = Some (mk_patching chat ref (delivery_patch delivery recipients) (ThenAcknowledge peer ref)) ->
  List.find (has_id ref) (cached (shown d) chat) = Some m ->
  Forall (fun e => acknowledged_message peer ref e = false) (outbox (step now (Written k) d))
  /\ List.find (has_id ref) (cached (shown (step now (Written k) d)) chat) = Some (spread_patch m (delivery_patch delivery recipients)).
Proof.
  intros Hk Hf. cbn [step]. rewrite Hk. unfold written. cbn [pt_then pt_chat pt_message pt_patch]. set (d1 := field_update _ d).
  split.
  - set (d2 := field_update _ d1). unfold drop_entries, persistGroupOutbox. set (l := last_entries _).
    change (outbox (d2 <| outbox := l |>)) with l. subst l. unfold last_entries. apply Forall_drop.
    apply Forall_forall. intros e He. apply list_elem_of_In, filter_In in He as [_ He]. by apply negb_true_iff in He.
  - set (s := patch_cache _ _ _ _). change (shown (drop_entries ?f (d1 <| shown := s |>))) with s. subst s. rewrite cached_patch, decide_True by done.
    by apply find_patched.
Qed.

Definition settling (m : fields) (chat ref from status : string) (t : Z) : patching :=
  mk_patching chat ref (delivery_patch (set (delivery_of m) from (status_at status t)) (recipients_in m)) (ThenAcknowledge from ref).

Lemma receipt_step now a u frame from chat ref status d m : acknowledges frame from chat ref status -> sent_message d chat ref from m ->
  let d1 := step now (Frame a u frame from true) d in
  (exists t, patches d1 = <[next d := settling m chat ref from status t]> (patches d))
  /\ next d1 = S (next d) /\ ch_cache (shown d1) = ch_cache (shown d) /\ d_groups d1 = d_groups d.
Proof.
  intros Ha Hm. cbn [step]. rewrite receipt_frame by by destruct Ha.
  destruct (receipt_begins now frame from chat ref status d m Ha Hm) as [t ->]. unfold start_patch.
  rewrite (sm_chat _ _ _ _ _ Hm), (sm_ref _ _ _ _ _ Hm). cbn [negb orb]. split; [by exists t|done].
Qed.

(** Another wait goes on. *)
Lemma written_other now k j d p peer ref : patches d !! k = Some p -> pt_then p = ThenAcknowledge peer ref -> j <> k ->
  patches (step now (Written k) d) !! j = patches d !! j
  /\ forall gone, Forall (fun e => gone e = false) (outbox d) -> Forall (fun e => gone e = false) (outbox (step now (Written k) d)).
Proof.
  intros Hk Ht Hj. cbn [step]. rewrite Hk. unfold written. rewrite Ht. set (d1 := field_update _ (field_update _ d)).
  change (patches (drop_entries (acknowledged_message peer ref) d1)) with (delete k (patches d)). rewrite lookup_delete_ne by done.
  split; [done|]. intros gone Hf. set (l := List.filter (fun e => negb (acknowledged_message peer ref e)) (outbox d)).
  change (outbox (drop_entries (acknowledged_message peer ref) d1)) with (last_entries l). subst l. unfold last_entries. apply Forall_drop.
  apply Forall_forall. intros e He. apply list_elem_of_In, filter_In in He as [He _]. rewrite Forall_forall in Hf. apply Hf. by apply list_elem_of_In.
Qed.

Definition delivery_for (m : fields) (peer : string) : option json := get (delivery_of m) peer.

(** A receipt of a member settles its delivery: once the change is written no entry of the
    outbox would send the message to that member again, the message shows the member's status,
    and the deliveries of the other members are those that were shown when the receipt
    arrived; nothing else of the message changes, whatever the device did in between. *)
Theorem receipt_settles_delivery now now' a u frame from chat ref status d m l m2 :
  acknowledges frame from chat ref status -> sent_message d chat ref from m ->
  let d1 := step now (Frame a u frame from true) d in
  let d2 := run l d1 in
  patches d2 !! next d = patches d1 !! next d -> List.find (has_id ref) (cached (shown d2) chat) = Some m2 ->
  let d3 := step now' (Written (next d)) d2 in
  Forall (fun e => acknowledged_message from ref e = false) (outbox d3)
  /\ exists m3, List.find (has_id ref) (cached (shown d3) chat) = Some m3
       /\ delivery_status (delivery_of m3) from = Some (JStr status)
       /\ (forall peer, peer <> from -> delivery_for m3 peer = delivery_for m peer)
       /\ (forall k, k ∉ delivery_names -> get m3 k = get m2 k).
Proof.
  intros Ha Hm d1 d2 Hp Hf d3. destruct (receipt_step now a u frame from chat ref status d m Ha Hm) as ([t H1] & _).
  change (step now (Frame a u frame from true) d) with d1 in H1. rewrite H1, lookup_insert_eq in Hp.
  destruct (delivery_written now' _ _ _ _ _ _ _ _ Hp Hf) as [Ho Hc]. split; [exact Ho|].
  eexists. split; [exact Hc|]. unfold delivery_for. rewrite delivery_of_patch. split; [|split].
  - unfold delivery_status. rewrite get_set, decide_True by done. rewrite (a_status _ _ _ _ _ Ha). by destruct (is_str _ "seen").
  - intros peer Hne. rewrite get_set. by rewrite decide_False by congruence.
  - intros k Hk. by apply get_delivery.
Qed.

(** ** A message that arrives again *)

(** The store has the message [id] of the chat. *)
Definition stored (d : device) (chat id : string) : bool := existsb (same_message (trim chat) (trim id)) (ch_rows (shown d)).

(** An event that deletes the message from the store, alone or with its chat. *)
Definition deletes (chat id : string) (ev : event) : bool :=
  match ev with
  | DeleteMessage c i => bool_decide (trim c = trim chat) && bool_decide (trim i = trim id)
  | DeleteChat c | DeleteGroup c _ => bool_decide (trim c = trim chat)
  | _ => false
  end.

Definition rows_kept (d d' : device) : Prop := kept (ch_rows (shown d)) (ch_rows (shown d')).

Lemma rows_refl d : rows_kept d d. Proof. apply kept_refl. Qed.

Lemma rows_trans d1 d2 d3 : rows_kept d1 d2 -> rows_kept d2 d3 -> rows_kept d1 d3.
Proof. intros H1 H2 c i H. by apply H2, H1. Qed.

Lemma queue_shown now peer packet o job d : shown (sendGroupPacket now peer packet o job d) = shown d.
Proof. unfold sendGroupPacket. by destruct (_ && _). Qed.

Lemma rows_walk now e d : removes e d = false -> rows_kept d (step now e d).
Proof.
  intros He. apply walk_step; [apply rows_refl|apply rows_trans|by intros d1 d2 _ _|intros ????; exact (kept_refl _)| |intros ????; exact (kept_refl _)|exact He].
  intros now1 peer packet o job d1. unfold rows_kept. rewrite queue_shown. apply kept_refl.
Qed.

(** A message stays when the rows that [p] keeps stay and it is one of them. *)
Lemma filter_rows (p : Sync.row -> Prop) `{!forall r, Decision (p r)} chat id rows :
  (forall r, same_message chat id r = true -> p r) -> existsb (same_message chat id) rows = true -> existsb (same_message chat id) (base.filter p rows) = true.
Proof.
  intros Hp Hs. apply existsb_exists in Hs as (r & Hr & Hm). apply existsb_exists. exists r. split; [|done].
  apply list_elem_of_In, list_elem_of_filter. split; [by apply Hp|by apply list_elem_of_In].
Qed.

Lemma same_message_spec c i r : same_message c i r = true <-> row_peer r = c /\ row_message_id r = i.
Proof. unfold same_message. by rewrite andb_true_iff, !bool_decide_eq_true. Qed.

Lemma chat_deleted c d chat id : trim c <> trim chat -> stored d chat id = true -> stored (deleteChat c d) chat id = true.
Proof.
  unfold stored, deleteChat. intros Hc Hs. change (shown (d <| shown := ?s |>)) with s. unfold ChatEdits.deleteChat. destruct (_ || _); [done|].
  refine (filter_rows _ (trim chat) (trim id) (ch_rows (shown d)) _ Hs). intros r [Hr _]%same_message_spec. congruence.
Qed.

Lemma message_deleted c i d chat id : trim c <> trim chat \/ trim i <> trim id -> stored d chat id = true -> stored (deleteMessage c i d) chat id = true.
Proof.
  unfold stored, deleteMessage. intros Hc Hs. change (shown (d <| shown := ?s |>)) with s. unfold ChatEdits.deleteMessage. destruct (_ || _); [done|].
  destruct (negb _); [done|]. refine (filter_rows _ (trim chat) (trim id) (ch_rows (shown d)) _ Hs). intros r [Hr Hi]%same_message_spec.
  apply not_true_iff_false. intros [Hr' Hi']%same_message_spec. destruct Hc as [Hc|Hc]; apply Hc; congruence.
Qed.

Lemma stored_step now ev d chat id : deletes chat id ev = false -> stored d chat id = true -> stored (step now ev d) chat id = true.
Proof.
  intros Hd Hs. destruct (removes ev d) eqn:Hr; [|exact (rows_walk now ev d Hr _ _ Hs)].
  destruct ev as [m g p|g m e|g i c n im ids|g u i c p|g e|peer|g e|c i|c|k b|k|a u frame from enc]; cbn [step removes deletes] in *; try done.
  - apply bool_decide_eq_false in Hd. unfold deleteGroupChat. destruct (negb _); [done|]. cbn zeta. apply chat_deleted; [done|].
    destruct (find_group g d); [|done]. destruct (isActiveGroupMember _ _); [|done]. exact (rows_walk now (LeaveGroup g e) d eq_refl _ _ Hs).
  - apply message_deleted; [|done]. apply andb_false_iff in Hd as [Hd%bool_decide_eq_false|Hd%bool_decide_eq_false]; [by left|by right].
  - apply bool_decide_eq_false in Hd. by apply chat_deleted.
  - destruct (patches d !! k) as [p|]; [|done]. unfold written. destruct (pt_then p); try done.
    change (existsb (same_message (trim chat) (trim id)) (ch_rows (patch_cache (pt_chat p) (pt_message p) (pt_patch p) (shown d))) = true).
    by rewrite patch_cache_rows.
  - destruct enc; [|done]. cbn [andb] in Hr. rewrite (receipt_frame _ _ _ _ _ _ Hr). unfold handle_receipt.
    destruct (find_group _ d); [|done]. cbn zeta. destruct (negb _); [done|]. destruct (truthy _).
    + by destruct (prop (Some frame) "refEventId") as [[| | |ref| |]|].
    + destruct (prop (Some frame) "refMessageId") as [[| | |ref| |]|]; try done. destruct (List.find _ _); [|done].
      destruct (_ || _); [done|]. unfold start_patch. destruct (_ || _); [done|]. by apply patch_kept.
Qed.

Lemma stored_run chat id l : forall d, Forall (fun e => deletes chat id e.2 = false) l -> stored d chat id = true -> stored (run l d) chat id = true.
Proof.
  induction l as [|[now ev] l IH]; intros d Hl Hs; [done|]. apply Forall_cons in Hl as [He Hl]. apply IH; [done|]. by apply stored_step.
Qed.

(** The device takes the content of [frame] as the message [m] with the id [id] of the group [chat]. *)
Record takes (d : device) (frame : json) (from chat id : string) (m : fields) : Prop := mk_takes {
  t_kind : is_str (prop (Some frame) "kind") GROUP_MESSAGE_KIND = true;
  t_chat : as_id (prop (Some frame) "groupId") = chat;
  t_valid : exists g, find_group chat d = Some g /\ validateIncomingGroupMessage g (Some frame) from (own d) = None
            /\ checked_content (group_message g frame from) = Some m
            /\ has_kind (group_message g frame from) [MESSAGE_EDIT_KIND; "reaction"] = false;
  t_storeable : isStoreableChatKind (get m "kind") = true;
  t_id : get m "messageId" = Some (JStr id);
  t_ids : valid_id chat = true /\ valid_id id = true
}.

Definition receipt_for (d : device) (now : Z) (from chat id : string) : string * json := (from, receipt d now chat "refMessageId" id).

Lemma takes_result now a u frame from d chat id m : takes d frame from chat id m ->
  let d' := step now (Frame a u frame from true) d in
  wire d' = wire d ++ [receipt_for d now from chat id] /\ outbox d' = outbox d /\ stored d' chat id = true
  /\ shown d' = if stored d chat id then shown d
                 else show_message chat m (shown d) <| ch_rows := ch_rows (shown d) ++ [mk_row (trim chat) (trim id) m] |>.
Proof.
  intros [Hk Hc (g & Hf & Hv & Hm & He) Hs Hi [Hvc Hvi]]. cbn [step]. unfold handleGroupProtocolFrame. cbn [negb].
  assert (Hne : forall k, k <> GROUP_MESSAGE_KIND -> is_str (prop (Some frame) "kind") k = false).
  { intros k Hk'. unfold is_str in *. apply bool_decide_eq_true in Hk. rewrite Hk. apply bool_decide_eq_false. congruence. }
  rewrite !Hne, Hk by done. unfold handle_message. rewrite Hc, Hf, Hv. cbn zeta.
  unfold has_kind in He |- *. cbn [existsb] in He |- *. apply orb_false_iff in He as [He1 He2]. rewrite He1, !He2. cbn [orb].
  rewrite Hm, Hs. cbn [negb]. rewrite Hi. rewrite (find_group_id _ _ _ Hf). unfold send_receipt, sendGroupPacket. cbn [o_queue andb].
  set (d1 := send_pairwise _ _ _ d). unfold store_message. cbn zeta. rewrite Hi, (string_or_empty_text id), Hvc, Hvi. cbn [negb andb].
  rewrite (bool_decide_eq_false_2 (id = "")), (bool_decide_eq_false_2 (trim id = "")); [|by apply valid_nonempty|by intros ->; apply valid_nonempty in Hvi].
  cbn [negb andb]. change (ch_rows (shown d1)) with (ch_rows (shown d)). fold (stored d chat id).
  destruct (stored d chat id) eqn:Hst; [by split_and!|]. split; [done|]. split; [done|]. split; [|done].
  unfold stored. change (existsb (same_message (trim chat) (trim id)) (ch_rows (shown d) ++ [mk_row (trim chat) (trim id) m]) = true).
  rewrite existsb_app. cbn [existsb]. unfold same_message. cbn [row_peer row_message_id]. rewrite !bool_decide_eq_true_2 by done. apply orb_true_r.
Qed.

(** C27: A message of a member is shown once, however often it arrives, until the user deletes
    it: every copy is answered with a receipt, so that the sender stops; a copy that the
    store does not have is appended to the chat; and one that comes later, whatever the
    device has done in between short of deleting the message or its chat, changes neither
    the chats nor the store nor the outbox. *)
Theorem message_shown_once now a u frame from d chat id m : takes d frame from chat id m -> stored d chat id = false ->
  let d1 := step now (Frame a u frame from true) d in
  wire d1 = wire d ++ [receipt_for d now from chat id]
  /\ cached (shown d1) chat = cached (shown d) chat ++ [m]
  /\ forall l now2 a2 u2 m2, Forall (fun e => deletes chat id e.2 = false) l -> let d2 := run l d1 in takes d2 frame from chat id m2 ->
       let d3 := step now2 (Frame a2 u2 frame from true) d2 in
       wire d3 = wire d2 ++ [receipt_for d2 now2 from chat id] /\ shown d3 = shown d2 /\ outbox d3 = outbox d2.
Proof.
  intros Ht Hn d1. destruct (takes_result now a u frame from d chat id m Ht) as (Hw & Ho & Hs & Hsh). split; [exact Hw|].
  rewrite Hn in Hsh. split.
  - subst d1. rewrite Hsh. unfold cached at 1, show_message. change (ch_cache (?r <| ch_rows := ?x |>)) with (ch_cache r).
    change (ch_cache (?r <| ch_last := ?x |>)) with (ch_cache r). change (ch_cache (?r <| ch_cache := ?x |>)) with x. by rewrite lookup_insert_eq.
  - intros l now2 a2 u2 m2 Hl d2 Ht2 d3. destruct (takes_result now2 a2 u2 frame from d2 chat id m2 Ht2) as (Hw2 & Ho2 & _ & Hsh2).
    assert (Hst : stored d2 chat id = true) by exact (stored_run chat id l d1 Hl Hs). rewrite Hst in Hsh2. by split_and!.
Qed.

(** ** What is lost *)

Definition payload_kind (frame : json) : option json := prop (prop (Some frame) "payload") "kind".

Lemma valid_kind g frame from self : validateIncomingGroupMessage g (Some frame) from self = None ->
  exists k, k ∈ GROUP_PAYLOAD_KINDS /\ payload_kind frame = Some (JStr k).
Proof.
  unfold validateIncomingGroupMessage. destruct (_ || _); [done|]. destruct (_ || _); [done|]. destruct (_ || _); [done|].
  destruct (negb _); [done|]. destruct (negb _); [done|]. cbn zeta. destruct (negb _ || negb _) eqn:H; [done|]. intros _.
  apply orb_false_iff in H as [_ H]. apply negb_false_iff, existsb_exists in H as (k & Hk & H). exists k. split; [by apply list_elem_of_In|].
  by apply bool_decide_eq_true in H.
Qed.

(** The edit of a message in a group is refused before the branch that would apply it: the
    kinds a group takes ([validateIncomingGroupMessage]) leave it out. *)
Theorem group_edit_never_applied now frame from d : payload_kind frame = Some (JStr MESSAGE_EDIT_KIND) -> handle_message now frame from d = d.
Proof.
  intros Hk. unfold handle_message. destruct (find_group _ d) as [g|]; [|done].
  destruct (validateIncomingGroupMessage g (Some frame) from (own d)) eqn:Hv; [done|]. exfalso.
  destruct (valid_kind _ _ _ _ Hv) as (k & Hin & Hk'). rewrite Hk in Hk'. injection Hk' as <-. revert Hin. apply (bool_decide_unpack _). by vm_compute.
Qed.

(** A reaction that arrives is never acknowledged; its sender keeps it in the outbox. *)
Theorem reaction_never_acknowledged now frame from d : payload_kind frame = Some (JStr "reaction") -> wire (handle_message now frame from d) = wire d.
Proof.
  intros Hk. unfold handle_message. destruct (find_group _ d) as [g|]; [|done].
  destruct (validateIncomingGroupMessage g (Some frame) from (own d)) eqn:Hv; [done|]. cbn zeta.
  assert (Hm : get (group_message g frame from) "kind" = Some (JStr "reaction")).
  { unfold group_message. rewrite get_spread_other.
    - unfold payload_kind in Hk. by destruct (prop (Some frame) "payload") as [[| | | | |f]|].
    - rewrite !map_app, !not_elem_of_app. unfold opt_field.
      destruct (prop (Some frame) "messageId"), (prop (Some frame) "timestamp"), (prop (Some frame) "groupRevision");
        split_and!; apply (bool_decide_unpack _); by vm_compute. }
  destruct (has_kind _ [MESSAGE_EDIT_KIND]); [done|]. unfold has_kind. cbn [existsb]. rewrite Hm, bool_decide_eq_true_2 by done. cbn [orb].
  by destruct (applyInboundReaction _ _ _ _).
Qed.

(** Two receipts that arrive before the first change is written: the second change is made from
    the message as it was, so the first member's delivery is what it was before; and since
    its entry has left the outbox no later receipt corrects it. *)
Theorem receipt_lost now1 now2 now3 now4 a u frame1 frame2 p1 p2 chat ref s1 s2 d m :
  acknowledges frame1 p1 chat ref s1 -> acknowledges frame2 p2 chat ref s2 -> p1 <> p2 ->
  sent_message d chat ref p1 m -> sent_message d chat ref p2 m -> List.find (has_id ref) (cached (shown d) chat) = Some m ->
  let d1 := step now1 (Frame a u frame1 p1 true) d in
  let d2 := step now2 (Frame a u frame2 p2 true) d1 in
  let d4 := step now4 (Written (next d1)) (step now3 (Written (next d)) d2) in
  exists m4, List.find (has_id ref) (cached (shown d4) chat) = Some m4 /\ delivery_for m4 p1 = delivery_for m p1
    /\ Forall (fun e => acknowledged_message p1 ref e = false) (outbox d4).
Proof.
  intros Ha1 Ha2 Hne Hm1 Hm2 Hf d1 d2 d4.
  destruct (receipt_step now1 a u frame1 p1 chat ref s1 d m Ha1 Hm1) as ([t1 H1] & Hn1 & Hc1 & Hg1). fold d1 in H1, Hn1, Hc1, Hg1.
  assert (Hm2' : sent_message d1 chat ref p2 m).
  { destruct Hm2 as [? ? ? ? ?]. constructor; [unfold find_group; by rewrite Hg1|unfold cached; by rewrite Hc1|done..]. }
  destruct (receipt_step now2 a u frame2 p2 chat ref s2 d1 m Ha2 Hm2') as ([t2 H2] & Hn2 & Hc2 & _). fold d2 in H2, Hn2, Hc2.
  set (d3 := step now3 (Written (next d)) d2).
  assert (Hp1 : patches d2 !! next d = Some (settling m chat ref p1 s1 t1)) by by rewrite H2, H1, lookup_insert_ne, lookup_insert_eq by lia.
  assert (Hf2 : List.find (has_id ref) (cached (shown d2) chat) = Some m) by (unfold cached; by rewrite Hc2, Hc1).
  destruct (delivery_written now3 _ _ _ _ _ _ _ _ Hp1 Hf2) as [Ho3 Hf3]. fold d3 in Ho3, Hf3.
  assert (Hp2 : patches d3 !! next d1 = Some (settling m chat ref p2 s2 t2)).
  { subst d3. assert (Hj : next d1 <> next d) by lia. rewrite (proj1 (written_other now3 _ (next d1) _ _ p1 ref Hp1 eq_refl Hj)). by rewrite H2, lookup_insert_eq. }
  destruct (delivery_written now4 _ _ _ _ _ _ _ _ Hp2 Hf3) as [_ Hf4].
  eexists. split; [exact Hf4|]. split.
  - unfold delivery_for. by rewrite delivery_of_patch, get_set, decide_False by congruence.
  - assert (Hj : S (next d1) <> next d1) by lia. by apply (proj2 (written_other now4 _ _ _ _ p2 ref Hp2 eq_refl Hj)).
Qed.

(** After a group is deleted nothing of it waits in the outbox, not even the notice that the
    device has left: a member that is away never learns of it. *)
Theorem goodbye_not_retried now groupId eventId d : isGroupChatId (Some (JStr groupId)) = true ->
  Forall (fun e => e_groupId e <> groupId) (outbox (step now (DeleteGroup groupId eventId) d)).
Proof.
  intros Hg. cbn [step]. rewrite (proj1 (delete_outbox now groupId eventId d Hg)). unfold drop_entries. set (l := List.filter _ _).
  change (Forall (fun e => e_groupId e <> groupId) (last_entries l)).
  apply Forall_drop, Forall_forall. intros e He. apply list_elem_of_In, filter_In in He as [_ He]. apply negb_true_iff in He. by bool_cases.
Qed.

(** ** Concrete runs *)

Definition club : group :=
  mk_group "group:abcdefgh" 3 "Chess club" "" 10 "alice" 12
    [mk_group_member "alice" "Alice" admin active 10 (Some 10) None;
     mk_group_member "bob" "Bob" plain_member active 11 (Some 12) None;
     mk_group_member "carol" "Carol" plain_member active 11 (Some 12) None].

Definition device_of (id name : string) : device :=
  mk_device id name [club] [] [] (mk_chats ∅ [] ∅) ∅ ∅ ∅ 0 [] [].

Definition alice : device := device_of "alice" "Alice".
Definition bob : device := device_of "bob" "Bob".

Definition club_id : string := "group:abcdefgh".

Definition receipt_of (who : string) : json := receipt (device_of who who) 20 club_id "refMessageId" "m1".

Definition hello : event := SendMessage "m1" club_id [("content", JStr "hello")].

(** Bob's receipt arrives while the packet for Carol still waits for an answer. *)
Definition before_answer : list (Z * event) :=
  [(15, hello); (16, Answered 1 true); (20, Frame "" "" (receipt_of "bob") "bob" true); (21, Written 3)].

Definition shown_status (d : device) (peer : string) : option json :=
  option_map (fun m => default JNull (delivery_status (delivery_of m) peer)) (List.find (has_id "m1") (cached (shown d) club_id)).

(** Sending ends when every packet has been answered, and then writes what the answers say:
    a member that has acknowledged the message in between is shown as not having received it,
    and no entry is left that would bring another receipt. *)
Theorem late_answer_hides_receipt :
  shown_status (run before_answer alice) "bob" = Some (JStr "delivered")
  /\ shown_status (run (before_answer ++ [(40, Answered 2 false); (41, Written 4)]) alice) "bob" = Some (JStr "sent")
  /\ map e_peer (outbox (run (before_answer ++ [(40, Answered 2 false); (41, Written 4)]) alice)) = ["carol"].
Proof. split_and!; by vm_compute. Qed.

(** The same happens when a receipt overtakes the answer to a packet that is tried again. *)
Definition retry : list (Z * event) :=
  [(15, hello); (16, Answered 1 false); (17, Answered 2 true); (18, Written 3); (30, Flush "bob");
   (31, Frame "" "" (receipt_of "bob") "bob" true); (32, Written 5)].

Theorem late_retry_hides_receipt :
  shown_status (run retry alice) "bob" = Some (JStr "delivered")
  /\ shown_status (run (retry ++ [(33, Answered 4 true); (34, Written 6)]) alice) "bob" = Some (JStr "sent")
  /\ pending_for "bob" (run (retry ++ [(33, Answered 4 true); (34, Written 6)]) alice) = [].
Proof. split_and!; by vm_compute. Qed.

(** ** Witnesses *)

Definition from_alice : json := envelope alice 15 club "m1" [("content", JStr "hello"); ("kind", JStr "chat")].
Definition hello_message : fields := default [] (checked_content (group_message club from_alice "alice")).

Lemma hello_taken (d : device) : find_group club_id d = Some club -> own d = "bob" -> takes d from_alice "alice" club_id "m1" hello_message.
Proof. intros Hg Ho. constructor; try by vm_compute. exists club. rewrite Ho. split_and!; [done|by vm_compute..]. Qed.

(** What bob does between two copies. *)
Definition meanwhile : list (Z * event) := [(25, Flush "alice"); (26, SendMessage "m2" club_id [("content", JStr "hi")]); (30, DeleteMessage club_id "m2")].

#[local] Notation received := (step 20 (Frame "" "" from_alice "alice" true) bob) (only parsing).

Lemma message_shown_once_witness :
  takes bob from_alice "alice" club_id "m1" hello_message /\ stored bob club_id "m1" = false
  /\ cached (shown received) club_id = [hello_message]
  /\ shown (step 40 (Frame "" "" from_alice "alice" true) (run meanwhile received)) = shown (run meanwhile received).
Proof.
  assert (Ht : takes bob from_alice "alice" club_id "m1" hello_message) by by apply hello_taken.
  assert (Hn : stored bob club_id "m1" = false) by by vm_compute.
  destruct (message_shown_once 20 "" "" from_alice "alice" bob club_id "m1" hello_message Ht Hn) as (_ & Hc & Hl).
  split; [exact Ht|]. split; [exact Hn|]. split; [exact Hc|].
  apply (Hl meanwhile 40 "" "" hello_message); [repeat constructor; by vm_compute|]. apply hello_taken; by vm_compute.
Defined.

(** What was deleted comes back with a copy that is sent again: only the rows of the store say
    what has arrived. *)
Theorem deleted_message_returns :
  let deleted := run [(30, DeleteMessage club_id "m1")] received in
  cached (shown deleted) club_id = [] /\ cached (shown (step 40 (Frame "" "" from_alice "alice" true) deleted)) club_id = [hello_message].
Proof. split; by vm_compute. Qed.

Definition waiting : device := run [(15, hello); (16, Answered 1 true)] alice.
Definition waiting_message : fields := default [] (List.find (has_id "m1") (cached (shown waiting) club_id)).

Lemma bob_acknowledges : acknowledges (receipt_of "bob") "bob" club_id "m1" "delivered".
Proof. constructor; by vm_compute. Qed.

Lemma waiting_sent : sent_message waiting club_id "m1" "bob" waiting_message.
Proof. constructor; [by exists club; vm_compute|by vm_compute|apply (bool_decide_unpack _); by vm_compute|by vm_compute|by vm_compute]. Qed.

#[local] Notation settled := (step 20 (Frame "" "" (receipt_of "bob") "bob" true) waiting) (only parsing).

Lemma settled_waits : patches (run [] settled) !! next waiting = patches settled !! next waiting.
Proof. reflexivity. Qed.

Lemma settled_shown : List.find (has_id "m1") (cached (shown (run [] settled)) club_id) = Some waiting_message.
Proof. by vm_compute. Qed.

Lemma receipt_settles_delivery_witness :
  acknowledges (receipt_of "bob") "bob" club_id "m1" "delivered" /\ sent_message waiting club_id "m1" "bob" waiting_message
  /\ Forall (fun e => acknowledged_message "bob" "m1" e = false) (outbox (step 21 (Written (next waiting)) (run [] settled))).
Proof.
  split; [exact bob_acknowledges|]. split; [exact waiting_sent|].
  exact (proj1 (receipt_settles_delivery 20 21 "" "" (receipt_of "bob") "bob" club_id "m1" "delivered" waiting waiting_message [] waiting_message
    bob_acknowledges waiting_sent settled_waits settled_shown)).
Defined.
